(* ===== verification/_CoqProject ===== *)
-Q . S2P
Prelude.v
SvbTables.v
Simd.v
StreamVByte.v
StreamVByteDelta.v
Buff.v
ToolIndex.v
Merge.v
CppIndex.v
BufRing.v
ChunkList.v
IndexWriter.v
GumboTags.v
Crawl.v
GumboBase.v
Utf8.v
CharRef.v
CharRefTables.v
CharRefActions.v
CharRefGrammar.v
CharRefScan.v
GumboErrors.v
GumboLexer.v
GumboLexerWp.v
GumboLexerSafety.v
GumboLexerRuns.v
GumboLexerSpec.v
GumboParser.v
GumboModes.v
GumboTree.v
GumboTreeModes.v
GumboTreeSpec.v
GumboPage.v
FindLinks.v
ToolMain.v
LdbCoding.v
LdbCrc.v
LdbLog.v
LdbKeys.v
LdbSkipList.v
LdbMem.v
LdbBatch.v
LdbNames.v
LdbEdit.v
LdbIter.v
LdbMerger.v
LdbMemIter.v
LdbDBIter.v
LdbBlock.v
LdbTwoLevel.v
LdbFilter.v
