(* ===== verification/Prelude.v ===== *)
(** * csearch: a verification of the search-index tool and its HTML front end

    ** The program

    csearch fetches pages, extracts their text from an HTML parse tree, cuts the
    text into words, and keeps inverted indices on disk: for each term the list of
    the documents that contain it, compressed with the StreamVByte codec over the
    differences of consecutive document ids.  Indices that were written one by
    one are combined by a k-way merge.  Around that core the repository holds a
    lock-free ring buffer, two further index writers, the gumbo HTML parser, and the
    key-value store leveldb.

    The parts call one another as follows: [merge] reads tuples with [ifile_read]
    and writes them with [ifile_write]; these fill and empty chunks, which are
    compressed with [streamvbyte_delta_encode]; the crawler collects a page in a
    [buff_t], walks the tree that gumbo built, and hands the text to the word
    iterator; gumbo's tree builder asks [gumbo_lex] for one token after another,
    which reads code points from the UTF-8 iterator, resolves character
    references, looks up tags and adds to the list of errors.

    leveldb keeps writes, each a key with a sequence number, first in a log and in a
    memory table, a skip list, and later in tables, files of sorted blocks with filters.  A
    batch of writes is one record of the log and is inserted into the memory table; a reader
    merges iterators over memory tables and tables into one over all writes, and
    the database iterator shows of them what a snapshot may see.  Version edits record the
    tables that exist.

    ** Conventions

    C code that can fail is a function into [outcome]: [Ok], [Undef] where the C
    standard gives the program no meaning (an access outside of a block, a size
    that wraps, a call with an invalid argument), [AssertFail] where an [assert]
    fails.  A theorem that an operation is [Ok _] is therefore a theorem that it
    is safe and that it returns.  Machine integers are [Z] (or [N]) with their
    wrap-around written out; a pointer into a block is an index; the contents of
    fresh memory are an arbitrary function [junk].  Allocation is taken to
    succeed, as the code takes it.

    ** Files

    - Prelude: outcomes, 32-bit words and their bytes, blocks of memory, the
      shared lemmas on lists, the tactics.
    - SvbTables, Simd, StreamVByte, StreamVByteDelta: src/streamvbyte.c and
      src/streamvbytedelta.c.  The 256-row tables are replaced by their meaning;
      the encoder writes exactly the format; the SSE decoder agrees with the
      scalar one; decoding inverts encoding, for the plain and the delta codec.
    - Buff: [buff_t] of src/tool.c, the growable buffer.
    - ToolIndex: [chunk_t], [ifile_t], [forward_t] and [iforward_t] of src/tool.c.
      The writer and the reader refine an abstract writer and reader of chunks;
      indices and forward documents are read back as written; the cases in which
      tuples are lost or memory is overrun are theorems too.
    - Merge: [merge] of src/tool.c, over an interface for its inputs ([TupleSource]) and
      for its output ([TupleSink]) that the index files of ToolIndex implement.
    - CppIndex: the C++ tool that CMakeLists.txt builds (chunk.h, ifile.cc, document.h,
      idocument.cc, merge.cc, dsort.cc, tool.cc): its writer refines an abstract writer;
      its reader is undefined on every file.
    - BufRing: src/buf_ring.h and src/buf_ring.c as programs of atomic steps under
      every interleaving: a bounded queue for one producer and one consumer, and
      the race that loses values for two producers.
    - ChunkList: src/chunk.c.  IndexWriter: src/iw.c.
    - Crawl: the crawler of src/tool.c, text extraction and the word iterator.
    - GumboTags: tag.c and its tables; the perfect hash finds exactly the tags.
    - GumboBase: vector.c, string_buffer.c, string_piece.c, attribute.c.
    - Utf8: utf8.c; the table-driven decoder accepts what the Unicode standard
      calls well-formed, iterating ends, and inverts encoding.
    - CharRef: char_ref.c around the generated scanner of named references.
      CharRefTables, CharRefActions: the ten tables of the scanner and the cases of its
      switch; CharRefGrammar: the references of char_ref.rl, from which it is generated;
      CharRefScan: the machine, and the proof that it finds the longest reference of the
      grammar: a checker compares the tables with a trie of the names, its soundness is
      proved for any tables, and its result is evaluated once.
    - GumboErrors: error.c, messages and the caret diagnostic.
    - GumboLexer: tokenizer.c, all 68 states.  GumboLexerWp, GumboLexerSafety,
      GumboLexerRuns: a predicate transformer for its operations, the invariant
      of its states, and the theorems that every call returns a token whatever
      the text and whatever the parser does between the calls, and that the end of
      the input is reached.  The faults of char_ref.c are the one exception: the
      transformer has a parameter ([MayUndef]) for what may be undefined, which the
      theorems fill with the texts that hold a numeric reference beyond an [int] or
      end in a named reference without its semicolon.  GumboLexerSpec: lexing a printed document gives its
      tokens back.
    - GumboParser, GumboModes: parser.c, the tree builder: its state with the nodes on
      a heap, the operations on the tree, the stack of open elements and the list of
      formatting elements, the adoption agency; the insertion modes, foreign content,
      fragments and the main loop.  GumboTree, GumboTreeModes: the invariant that
      parents, children and indices agree, kept by every operation and every handler
      and so true of the tree of a document, and, for documents without a frameset
      start tag, the invariant that the nodes hold what their type says and that the
      way up from every node ends ([inv]); what a frameset does to the tree.
      GumboTreeSpec: scopes, the list of formatting elements, the depth of the calls
      between the handlers.
    - GumboPage: the tree of a parsed document is finite; the release of the tree, each
      node once; crawl_parse_parse of src/tool.c, the parser and the crawler together,
      with the exact text that is extracted; documents on which the tree builder fails
      an assertion or does not do what its comments say.
    - FindLinks: src/find_links.cc, exactly the links of a page.
    - ToolMain: crawl_fetch_fetch, fetchtest, the tests and main of src/tool.c.

    The files of leveldb (src/gumbo-parser/leveldb-1.9.0):

    - LdbCoding: slices, status, fixed-width and variable-length integers (util/coding).
    - LdbCrc: util/crc32c; the tables and loops compute the checksum of its definition.
    - LdbLog: db/log_format, log_writer and log_reader; a log that is cut in its last record is
      read back as its complete records.
    - LdbKeys: comparators and internal keys (util/comparator.cc, db/dbformat), with the class
      of comparators and its laws.  LdbSkipList: db/skiplist.h and util/random.h, a sorted set.  LdbMem:
      db/memtable.cc, the newest write that a snapshot sees.  LdbBatch: db/write_batch.cc.
    - LdbNames: util/logging.cc, db/filename.cc and util/env.cc; names of files are parsed back, and the
      current file is replaced in one step or not at all.
    - LdbEdit: db/version_edit, encoded and decoded, and the debug strings.
    - LdbIter: the interface of iterators, with the class of what it promises over sorted entries
      ([IteratorOk]), and the wrapper that caches a key (table/iterator.cc, iterator_wrapper.h).  LdbMerger:
      table/merger.cc.  LdbMemIter: the iterator of db/memtable.cc.  LdbDBIter: db/db_iter.cc.  LdbBlock:
      table/block_builder.cc and table/block.cc.  LdbTwoLevel: table/two_level_iterator.cc.  Each iterator
      is verified against the interfaces of those it is made of, and implements the interface.
    - LdbFilter: util/hash.cc, util/bloom.cc, table/filter_block.cc and the filter policy of
      db/dbformat.cc; no key is denied.

    ** Loops and fuel

    Loops over an array are structural recursions.  The others carry a fuel, and a
    theorem shows that the fuel given is enough, so that running out of it is no
    way to satisfy a statement: the binary search of the merge has the length of
    the array; the merge loop ends once every tuple is written; reading an
    index takes one call for each tuple and one for its end; the UTF-8 iterator has the number of
    bytes left; a call of [gumbo_lex] has [lex_fuel], four steps for each byte of
    the text and four more, because every handler either consumes a character,
    returns a token or lowers a rank below four ([rank], [steps_left] of
    GumboLexerWp); and a text of n bytes has at most three tokens for each byte and
    the end-of-input token ([tokens_left]).  The main loop of the tree builder counts
    its iterations and asserts that they are below 10^9, so that the fuel runs out only
    below that number ([gumbo_parse_fuel]); theorems about it hold for every fuel.  Loops that pop the
    stack have its length, the handlers that call one another the depth three, of
    which they need two ([handle_depth]).  The scanner of named references has one
    iteration for each byte and one for the end of the text ([scan_longest_ref]).

    In leveldb, the loops of the log have a turn for each byte that is left and two more; the searches in
    the skip list [search_fuel], the nodes and the levels; the reader of a batch and of an edit a turn for each byte;
    the loops of a block a turn for each restart point or byte; the loops of the database iterator and of the
    two-level iterator a bound that the theorems ask to exceed the number of writes or of blocks.

    ** Code that is not in the repository

    It appears as a parameter with its documented behaviour as a class or a
    hypothesis, and each property that uses one has a witness with a concrete
    instance: the linked list of chunk.c (list.h), the vector and the compressor of
    iw.c (kvec, libvbyte), curl and ICU in the crawler.  The scanner of named
    references is a parameter of the lexer and the parser too, with what they need of it
    as a class ([ScansNamedRefs]); the scanner of char_ref.c is an instance
    ([scan_named_ok] of CharRefScan).

    The files that leveldb reads and writes are such parameters too: classes for a file that is appended to or read in
    order (LdbLog) and for the environment (LdbNames), with an environment in memory as an instance.

    ** Not modelled

    - index_writer.c: it does not compile (it uses members that are declared
      nowhere).
    - The test programs of buf_ring.c, iw.c and chunk.c.
    - The rest of leveldb: tables as files, the caches, versions, compaction, recovery, the threads and
      the environment of POSIX.
    - The bindings, examples, benchmarks and tests of gumbo and leveldb: clients of the modelled code.
    - Weak memory: the ring buffer is studied under sequential consistency.
    - Failing allocation and failing input and output, which the code does not
      test for, and the freeing of memory. *)
From Stdlib Require Export ZArith Lia.
From stdpp Require Export base numbers option list.
Open Scope Z_scope.

(** * Outcomes of C code

    A C function that neither returns normally nor is left out of the model
    either runs into behaviour the C standard leaves undefined (an access
    outside an array, a call with an invalid argument) or is stopped by a
    failing [assert]. *)
Inductive outcome (A : Type) : Type :=
| Ok (a : A)
| Undef
| AssertFail.
Arguments Ok {A} a.
Arguments Undef {A}.
Arguments AssertFail {A}.

#[export] Instance outcome_ret : MRet outcome := fun A a => Ok a.
#[export] Instance outcome_bind : MBind outcome := fun A B f m =>
  match m with
  | Ok a => f a
  | Undef => Undef
  | AssertFail => AssertFail
  end.

(** [assert(b)] of <assert.h>. *)
Definition c_assert (b : bool) : outcome unit :=
  if b then Ok () else AssertFail.

(** The value of a partial lookup; [None] is an access out of bounds. *)
Definition of_option {A} (o : option A) : outcome A :=
  match o with Some a => Ok a | None => Undef end.

#[export] Instance outcome_eq_dec {A} `{EqDecision A} : EqDecision (outcome A).
Proof. solve_decision. Defined.

(** * Machine integers *)
Definition u8 (x : Z) : Z := x mod 2 ^ 8.
Definition u16 (x : Z) : Z := x mod 2 ^ 16.
Definition u32 (x : Z) : Z := x mod 2 ^ 32.
Definition u64 (x : Z) : Z := x mod 2 ^ 64.

(** Two's complement reading of a 32-bit pattern, the conversion of gcc and
    clang from a wider integer to [int]. *)
Definition s32 (x : Z) : Z := (x + 2 ^ 31) mod 2 ^ 32 - 2 ^ 31.

Definition is_u8 (x : Z) : Prop := 0 <= x < 2 ^ 8.
Definition is_u32 (x : Z) : Prop := 0 <= x < 2 ^ 32.

#[export] Instance is_u8_dec x : Decision (is_u8 x).
Proof. unfold is_u8. apply _. Defined.
#[export] Instance is_u32_dec x : Decision (is_u32 x).
Proof. unfold is_u32. apply _. Defined.

(** * Little-endian memory *)
Fixpoint le_split (n : nat) (w : Z) : list Z :=
  match n with
  | O => []
  | S n' => u8 w :: le_split n' (Z.shiftr w 8)
  end.

Fixpoint le_combine (l : list Z) : Z :=
  match l with
  | [] => 0
  | b :: l' => b + 2 ^ 8 * le_combine l'
  end.

(** An array of [A] with its allocated length; a pointer is an index. *)
Definition load {A} (mem : list A) (p : nat) : outcome A := of_option (mem !! p).

Definition store {A} (mem : list A) (p : nat) (v : A) : outcome (list A) :=
  if decide (p < length mem)%nat then Ok (<[p := v]> mem) else Undef.

(** [n] consecutive elements; out of bounds unless all of them exist. *)
Definition load_range {A} (mem : list A) (p n : nat) : outcome (list A) :=
  if decide (p + n <= length mem)%nat then Ok (take n (drop p mem)) else Undef.

Fixpoint store_range {A} (mem : list A) (p : nat) (vs : list A) : outcome (list A) :=
  match vs with
  | [] => Ok mem
  | v :: vs' => mem' ← store mem p v; store_range mem' (S p) vs'
  end.

(** Unaligned little-endian accesses of [n] bytes. *)
Definition load_le (n : nat) (mem : list Z) (p : nat) : outcome Z :=
  bs ← load_range mem p n; Ok (le_combine bs).

Definition store_le (n : nat) (mem : list Z) (p : nat) (v : Z) : outcome (list Z) :=
  store_range mem p (le_split n v).

(** [buf] holds [l] at offset [off]. *)
Definition at_off {A} (buf : list A) (off : nat) (l : list A) : Prop :=
  exists pre post, buf = pre ++ l ++ post /\ length pre = off.

(** * Automation *)
Create HintDb csearch.
Create HintDb mem.
Create Rewrite HintDb mem.

Ltac pow2 :=
  change (2 ^ 8) with 256 in *; change (2 ^ 16) with 65536 in *;
  change (2 ^ 24) with 16777216 in *; change (2 ^ 32) with 4294967296 in *;
  change (2 ^ 31) with 2147483648 in *;
  change (2 ^ 64) with 18446744073709551616 in *.

(** Arithmetic after unfolding the machine-integer operations. *)
Ltac zlia :=
  unfold u8, u16, u32, u64, s32, is_u8, is_u32 in *; pow2;
  Z.div_mod_to_equations; lia.

(** [Forall] of a literal list, each element by [lia]. *)
Ltac forall_lia :=
  repeat first [apply Forall_nil_2 | apply Forall_cons_2; [lia|]].

(** Decide a closed proposition by evaluation. *)
Ltac by_decide :=
  match goal with |- ?P => refine (@bool_decide_unpack P _ _); vm_compute; exact I end.

(** Split a hypothesis [x ← m; k = Ok _] into its steps. *)
Ltac outcome_inv H :=
  match type of H with
  | (mbind _ ?m = Ok _) =>
      let E := fresh "E" in
      destruct m eqn:E; simpl in H; try discriminate H; try outcome_inv H
  | (Ok _ = Ok _) => injection H as H; subst
  | _ => idtac
  end.

(** * Outcomes *)
Lemma bind_Ok {A B} (a : A) (f : A -> outcome B) : (Ok a ≫= f) = f a.
Proof. reflexivity. Qed.

Lemma bind_Ok_inv {A B} (m : outcome A) (f : A -> outcome B) b :
  m ≫= f = Ok b -> exists a, m = Ok a /\ f a = Ok b.
Proof. destruct m; simpl; intros; [eauto | discriminate | discriminate]. Qed.

Lemma of_option_Some {A} (o : option A) a : o = Some a -> of_option o = Ok a.
Proof. by intros ->. Qed.

(** * Bit operations as arithmetic *)
Lemma land_mod a n : 0 <= n -> Z.land a (2 ^ n - 1) = a mod 2 ^ n.
Proof. intros Hn. rewrite <- Z.land_ones, Z.ones_equiv by lia. f_equal; lia. Qed.

Lemma land_high_low a c n : 0 <= n -> 0 <= a < 2 ^ n -> Z.land a (Z.shiftl c n) = 0.
Proof.
  intros Hn Ha. apply Z.bits_inj'; intros i Hi.
  rewrite Z.land_spec, Z.bits_0, Z.shiftl_spec by lia.
  destruct (decide (i < n)) as [Hlt|Hge].
  - rewrite (Z.testbit_neg_r c) by lia. apply andb_false_r.
  - rewrite <- (Z.mod_small a (2 ^ n)), Z.mod_pow2_bits_high by lia. done.
Qed.

Lemma lor_shiftl a c n :
  0 <= n -> 0 <= a < 2 ^ n -> Z.lor a (Z.shiftl c n) = a + c * 2 ^ n.
Proof.
  intros Hn Ha. pose proof (land_high_low a c n Hn Ha) as H.
  rewrite <- Z.lxor_lor, <- Z.add_nocarry_lxor by exact H.
  by rewrite Z.shiftl_mul_pow2.
Qed.

(** * Little-endian integers *)
Lemma length_le_split n w : length (le_split n w) = n.
Proof. revert w; induction n; intros; simpl; auto. Qed.

Lemma le_combine_split n w :
  le_combine (le_split n w) = w mod 2 ^ (8 * Z.of_nat n).
Proof.
  revert w; induction n as [|n IH]; intros w.
  - rewrite Z.mul_0_r. simpl. by rewrite Z.mod_1_r.
  - cbn [le_split le_combine]. rewrite IH, Z.shiftr_div_pow2 by lia.
    replace (8 * Z.of_nat (S n)) with (8 + 8 * Z.of_nat n) by lia.
    rewrite Z.pow_add_r, (Z.rem_mul_r w) by (try apply Z.pow_pos_nonneg; lia).
    reflexivity.
Qed.

Lemma le_split_app n m w : le_split (n + m) w = le_split n w ++ le_split m (Z.shiftr w (8 * Z.of_nat n)).
Proof.
  revert w; induction n as [|n IH]; intros w; [by rewrite Z.mul_0_r, Z.shiftr_0_r|].
  cbn [Nat.add le_split app]. rewrite IH, Z.shiftr_shiftr by lia. do 4 f_equal. lia.
Qed.

Lemma le_split_0 n : le_split n 0 = replicate n 0.
Proof. induction n as [|n IH]; [done|]. cbn [le_split replicate]. by rewrite Z.shiftr_0_l, IH. Qed.

Lemma le_split_bytes n w : Forall is_u8 (le_split n w).
Proof.
  revert w; induction n; intros; simpl; constructor; auto.
  apply Z.mod_pos_bound; lia.
Qed.

Lemma le_combine_bound l :
  Forall is_u8 l -> 0 <= le_combine l < 2 ^ (8 * Z.of_nat (length l)).
Proof.
  induction 1 as [|b l Hb Hl IH]; [simpl; lia|].
  cbn [le_combine length].
  replace (8 * Z.of_nat (S (length l))) with (8 + 8 * Z.of_nat (length l)) by lia.
  rewrite Z.pow_add_r by lia. unfold is_u8 in Hb. nia.
Qed.

Lemma le_split_combine l : Forall is_u8 l -> le_split (length l) (le_combine l) = l.
Proof.
  induction 1 as [|b l Hb Hl IH]; [done|].
  cbn [le_split le_combine length]. rewrite Z.shiftr_div_pow2 by lia.
  pose proof (le_combine_bound l Hl). f_equal.
  - zlia.
  - rewrite <- IH at 3. f_equal. zlia.
Qed.

Lemma le_combine_app l1 l2 :
  le_combine (l1 ++ l2) = le_combine l1 + 2 ^ (8 * Z.of_nat (length l1)) * le_combine l2.
Proof.
  induction l1 as [|b l1 IH]; [simpl; lia|].
  cbn [le_combine app length]. rewrite IH.
  replace (8 * Z.of_nat (S (length l1))) with (8 + 8 * Z.of_nat (length l1)) by lia.
  rewrite Z.pow_add_r by lia. lia.
Qed.

Lemma le_combine_zeros l n : le_combine (l ++ replicate n 0) = le_combine l.
Proof.
  rewrite le_combine_app.
  assert (le_combine (replicate n 0) = 0) as ->; [|lia].
  induction n; simpl; lia.
Qed.

(** * Arrays *)
Section arrays.
Context {A : Type}.
Implicit Types l pre post vs : list A.

Lemma load_app pre x post : load (pre ++ x :: post) (length pre) = Ok x.
Proof. unfold load. by rewrite list_lookup_middle. Qed.

Lemma load_lt l p : (p < length l)%nat -> exists x, load l p = Ok x /\ l !! p = Some x.
Proof. intros [x Hx]%lookup_lt_is_Some_2. exists x. unfold load. by rewrite Hx. Qed.

Lemma store_app pre x post v :
  store (pre ++ x :: post) (length pre) v = Ok (pre ++ v :: post).
Proof.
  unfold store. rewrite decide_True by (rewrite length_app; simpl; lia).
  f_equal. rewrite insert_app_r_alt by lia. by rewrite Nat.sub_diag.
Qed.

Lemma store_ge l p v : (length l <= p)%nat -> store l p v = Undef.
Proof. intros. unfold store. rewrite decide_False; [done|lia]. Qed.

Lemma length_store l p v l' : store l p v = Ok l' -> length l' = length l.
Proof. unfold store. case_decide; intros; simplify_eq. apply length_insert. Qed.

Lemma store_range_app pre old post vs :
  length old = length vs ->
  store_range (pre ++ old ++ post) (length pre) vs = Ok (pre ++ vs ++ post).
Proof.
  revert pre old; induction vs as [|v vs IH]; intros pre old Hlen;
    destruct old as [|o old]; simplify_eq/=; [done|].
  rewrite store_app. simpl.
  replace (S (length pre)) with (length (pre ++ [v])) by (rewrite length_app; simpl; lia).
  rewrite (cons_middle v), app_assoc, IH by lia. by rewrite <- app_assoc.
Qed.

Lemma store_range_ge l p vs :
  vs <> [] -> (length l < p + length vs)%nat -> store_range l p vs = Undef.
Proof.
  revert l p; induction vs as [|v vs IH]; intros l p Hne Hlen; [done|].
  simpl. destruct (store l p v) as [l'| |] eqn:E.
  - simpl. pose proof (length_store _ _ _ _ E).
    unfold store in E. case_decide; [|done].
    destruct vs; [simpl in *; lia|]. apply IH; [done|simpl in *; lia].
  - done.
  - unfold store in E. by case_decide.
Qed.

Lemma length_store_range l p vs l' : store_range l p vs = Ok l' -> length l' = length l.
Proof.
  revert l p; induction vs as [|v vs IH]; simpl; intros l p H; [by simplify_eq|].
  apply bind_Ok_inv in H as (l1 & H1 & H2).
  apply IH in H2. apply length_store in H1. lia.
Qed.

Lemma store_Ok l p v l' : store l p v = Ok l' -> length l' = length l /\ (p < length l)%nat.
Proof.
  intros H. pose proof (length_store _ _ _ _ H).
  unfold store in H. by case_decide.
Qed.

Lemma store_range_Ok l p vs l' :
  vs <> [] -> store_range l p vs = Ok l' ->
  length l' = length l /\ (p + length vs <= length l)%nat.
Proof.
  intros Hne H. pose proof (length_store_range _ _ _ _ H). split; [done|].
  destruct (decide (p + length vs <= length l)%nat); [done|].
  rewrite store_range_ge in H by (done || lia). discriminate.
Qed.

Lemma store_no_assert l p v : store l p v <> AssertFail.
Proof. unfold store. by case_decide. Qed.

Lemma store_range_no_assert l p vs : store_range l p vs <> AssertFail.
Proof.
  revert l p; induction vs as [|v vs IH]; intros l p; simpl; [done|].
  destruct (store l p v) eqn:E; simpl; [apply IH|done|by apply store_no_assert in E].
Qed.

Lemma at_off_refl l : at_off l 0 l.
Proof. exists [], []. by rewrite app_nil_r. Qed.

Lemma at_off_prefix l post : at_off (l ++ post) 0 l.
Proof. by exists [], post. Qed.

Lemma at_off_app buf off l1 l2 :
  at_off buf off (l1 ++ l2) <-> at_off buf off l1 /\ at_off buf (off + length l1) l2.
Proof.
  split.
  - intros (pre & post & -> & <-). split.
    + exists pre, (l2 ++ post). by rewrite <- app_assoc.
    + exists (pre ++ l1), post. rewrite length_app, <- !app_assoc. done.
  - intros [(pre & post & -> & <-) (pre' & post' & Heq & Hlen)].
    exists pre. rewrite app_assoc in Heq.
    apply app_inj_1 in Heq as [<- ->]; [|rewrite length_app; lia].
    exists post'. split; [|done]. by rewrite <- !app_assoc.
Qed.

Lemma at_off_length buf off l : at_off buf off l -> (off + length l <= length buf)%nat.
Proof. intros (pre & post & -> & <-). rewrite !length_app. lia. Qed.

Lemma at_off_load buf off x l : at_off buf off (x :: l) -> load buf off = Ok x.
Proof. intros (pre & post & -> & <-). apply load_app. Qed.

Lemma at_off_load_range buf off l :
  at_off buf off l -> load_range buf off (length l) = Ok l.
Proof.
  intros (pre & post & -> & <-). unfold load_range.
  rewrite decide_True by (rewrite !length_app; lia).
  by rewrite drop_app_length, take_app_length.
Qed.

Lemma at_off_lookup buf off l i x :
  at_off buf off l -> l !! i = Some x -> buf !! (off + i)%nat = Some x.
Proof.
  intros (pre & post & -> & <-) Hi. rewrite lookup_app_r by lia.
  replace (length pre + i - length pre)%nat with i by lia.
  by apply lookup_app_l_Some.
Qed.

Lemma at_off_of_range buf off l n (buf' : list A) :
  at_off buf off l -> load_range buf off n = Ok buf' -> (length l <= n)%nat -> at_off buf' 0 l.
Proof.
  intros (pre & post & -> & <-) H Hn. unfold load_range in H. case_decide; [|done].
  injection H as <-. rewrite drop_app_length, take_app_ge by lia. apply at_off_prefix.
Qed.

Lemma load_range_lt buf off n :
  (off + n <= length buf)%nat -> exists l, load_range buf off n = Ok l /\ length l = n.
Proof.
  intros H. exists (take n (drop off buf)). unfold load_range. rewrite decide_True by done.
  rewrite length_take, length_drop. split; [done|lia].
Qed.

Lemma at_off_weaken buf off l1 l2 :
  at_off buf off (l1 ++ l2) -> at_off buf off l1.
Proof. intros [H _]%at_off_app. exact H. Qed.

Lemma at_off_tail buf off x l : at_off buf off (x :: l) -> at_off buf (S off) l.
Proof.
  intros H. apply (at_off_app _ _ [x] l) in H as [_ H].
  rewrite Nat.add_comm in H. exact H.
Qed.

Lemma load_range_at_off buf off n l :
  load_range buf off n = Ok l -> at_off buf off l /\ length l = n.
Proof.
  unfold load_range. case_decide; intros; simplify_eq. split.
  - exists (take off buf), (drop n (drop off buf)).
    rewrite !take_drop. rewrite length_take. split; [done|lia].
  - rewrite length_take, length_drop. lia.
Qed.
(** Writing behind the part of the array in use. *)
Lemma store_push (b vs : list A) v :
  at_off b 0 vs -> (length vs < length b)%nat ->
  exists b', store b (length vs) v = Ok b' /\ length b' = length b /\ at_off b' 0 (vs ++ [v]).
Proof.
  intros (pre & post & -> & Hpre) Hlt. destruct pre; [|done]. cbn in *. rewrite length_app in Hlt.
  destruct post as [|o post]; [simpl in Hlt; lia|]. exists (vs ++ v :: post).
  split_and!; [apply store_app|by rewrite !length_app|]. rewrite cons_middle, app_assoc. apply at_off_prefix.
Qed.
End arrays.

Lemma at_off_load_le n buf off l :
  at_off buf off l -> length l = n -> load_le n buf off = Ok (le_combine l).
Proof. intros H <-. unfold load_le. by rewrite at_off_load_range. Qed.

Lemma store_le_app n pre old post v :
  length old = n ->
  store_le n (pre ++ old ++ post) (length pre) v = Ok (pre ++ le_split n v ++ post).
Proof. intros H. apply store_range_app. by rewrite length_le_split. Qed.

#[export] Hint Resolve at_off_refl at_off_prefix : mem.
#[export] Hint Rewrite @bind_Ok @load_app @store_app length_le_split @length_app
  @length_take @length_drop @length_replicate : mem.
