(* ===== verification/SvbTables.v ===== *)
(** StreamVByte lookup tables: the constants [lengthTable] and [shuffleTable]
    of src/streamvbyte.c (src/streamvbytedelta.c carries the same initialisers).

    [shuffleTable] is an array of [uint8_t] whose initialisers use -1 for "no
    source byte"; the conversion to [uint8_t] makes those entries 255, so the
    literal rows below keep the source's -1 and [shuffleTable] converts them.

    The theorems at the end replace the 4096 constants by their meaning: row
    [k] is the byte permutation prescribed by the four 2-bit length codes of
    the key byte [k]. *)
From S2P Require Import Prelude.

Definition lengthTable : list Z :=
  [4; 5; 6; 7; 5; 6; 7; 8; 6; 7; 8; 9; 7; 8; 9; 10;
   5; 6; 7; 8; 6; 7; 8; 9; 7; 8; 9; 10; 8; 9; 10; 11;
   6; 7; 8; 9; 7; 8; 9; 10; 8; 9; 10; 11; 9; 10; 11; 12;
   7; 8; 9; 10; 8; 9; 10; 11; 9; 10; 11; 12; 10; 11; 12; 13;
   5; 6; 7; 8; 6; 7; 8; 9; 7; 8; 9; 10; 8; 9; 10; 11;
   6; 7; 8; 9; 7; 8; 9; 10; 8; 9; 10; 11; 9; 10; 11; 12;
   7; 8; 9; 10; 8; 9; 10; 11; 9; 10; 11; 12; 10; 11; 12; 13;
   8; 9; 10; 11; 9; 10; 11; 12; 10; 11; 12; 13; 11; 12; 13; 14;
   6; 7; 8; 9; 7; 8; 9; 10; 8; 9; 10; 11; 9; 10; 11; 12;
   7; 8; 9; 10; 8; 9; 10; 11; 9; 10; 11; 12; 10; 11; 12; 13;
   8; 9; 10; 11; 9; 10; 11; 12; 10; 11; 12; 13; 11; 12; 13; 14;
   9; 10; 11; 12; 10; 11; 12; 13; 11; 12; 13; 14; 12; 13; 14; 15;
   7; 8; 9; 10; 8; 9; 10; 11; 9; 10; 11; 12; 10; 11; 12; 13;
   8; 9; 10; 11; 9; 10; 11; 12; 10; 11; 12; 13; 11; 12; 13; 14;
   9; 10; 11; 12; 10; 11; 12; 13; 11; 12; 13; 14; 12; 13; 14; 15;
   10; 11; 12; 13; 11; 12; 13; 14; 12; 13; 14; 15; 13; 14; 15; 16].

Definition shuffleTable_lo : list (list Z) :=
  [[0; -1; -1; -1; 1; -1; -1; -1; 2; -1; -1; -1; 3; -1; -1; -1];
   [0; 1; -1; -1; 2; -1; -1; -1; 3; -1; -1; -1; 4; -1; -1; -1];
   [0; 1; 2; -1; 3; -1; -1; -1; 4; -1; -1; -1; 5; -1; -1; -1];
   [0; 1; 2; 3; 4; -1; -1; -1; 5; -1; -1; -1; 6; -1; -1; -1];
   [0; -1; -1; -1; 1; 2; -1; -1; 3; -1; -1; -1; 4; -1; -1; -1];
   [0; 1; -1; -1; 2; 3; -1; -1; 4; -1; -1; -1; 5; -1; -1; -1];
   [0; 1; 2; -1; 3; 4; -1; -1; 5; -1; -1; -1; 6; -1; -1; -1];
   [0; 1; 2; 3; 4; 5; -1; -1; 6; -1; -1; -1; 7; -1; -1; -1];
   [0; -1; -1; -1; 1; 2; 3; -1; 4; -1; -1; -1; 5; -1; -1; -1];
   [0; 1; -1; -1; 2; 3; 4; -1; 5; -1; -1; -1; 6; -1; -1; -1];
   [0; 1; 2; -1; 3; 4; 5; -1; 6; -1; -1; -1; 7; -1; -1; -1];
   [0; 1; 2; 3; 4; 5; 6; -1; 7; -1; -1; -1; 8; -1; -1; -1];
   [0; -1; -1; -1; 1; 2; 3; 4; 5; -1; -1; -1; 6; -1; -1; -1];
   [0; 1; -1; -1; 2; 3; 4; 5; 6; -1; -1; -1; 7; -1; -1; -1];
   [0; 1; 2; -1; 3; 4; 5; 6; 7; -1; -1; -1; 8; -1; -1; -1];
   [0; 1; 2; 3; 4; 5; 6; 7; 8; -1; -1; -1; 9; -1; -1; -1];
   [0; -1; -1; -1; 1; -1; -1; -1; 2; 3; -1; -1; 4; -1; -1; -1];
   [0; 1; -1; -1; 2; -1; -1; -1; 3; 4; -1; -1; 5; -1; -1; -1];
   [0; 1; 2; -1; 3; -1; -1; -1; 4; 5; -1; -1; 6; -1; -1; -1];
   [0; 1; 2; 3; 4; -1; -1; -1; 5; 6; -1; -1; 7; -1; -1; -1];
   [0; -1; -1; -1; 1; 2; -1; -1; 3; 4; -1; -1; 5; -1; -1; -1];
   [0; 1; -1; -1; 2; 3; -1; -1; 4; 5; -1; -1; 6; -1; -1; -1];
   [0; 1; 2; -1; 3; 4; -1; -1; 5; 6; -1; -1; 7; -1; -1; -1];
   [0; 1; 2; 3; 4; 5; -1; -1; 6; 7; -1; -1; 8; -1; -1; -1];
   [0; -1; -1; -1; 1; 2; 3; -1; 4; 5; -1; -1; 6; -1; -1; -1];
   [0; 1; -1; -1; 2; 3; 4; -1; 5; 6; -1; -1; 7; -1; -1; -1];
   [0; 1; 2; -1; 3; 4; 5; -1; 6; 7; -1; -1; 8; -1; -1; -1];
   [0; 1; 2; 3; 4; 5; 6; -1; 7; 8; -1; -1; 9; -1; -1; -1];
   [0; -1; -1; -1; 1; 2; 3; 4; 5; 6; -1; -1; 7; -1; -1; -1];
   [0; 1; -1; -1; 2; 3; 4; 5; 6; 7; -1; -1; 8; -1; -1; -1];
   [0; 1; 2; -1; 3; 4; 5; 6; 7; 8; -1; -1; 9; -1; -1; -1];
   [0; 1; 2; 3; 4; 5; 6; 7; 8; 9; -1; -1; 10; -1; -1; -1];
   [0; -1; -1; -1; 1; -1; -1; -1; 2; 3; 4; -1; 5; -1; -1; -1];
   [0; 1; -1; -1; 2; -1; -1; -1; 3; 4; 5; -1; 6; -1; -1; -1];
   [0; 1; 2; -1; 3; -1; -1; -1; 4; 5; 6; -1; 7; -1; -1; -1];
   [0; 1; 2; 3; 4; -1; -1; -1; 5; 6; 7; -1; 8; -1; -1; -1];
   [0; -1; -1; -1; 1; 2; -1; -1; 3; 4; 5; -1; 6; -1; -1; -1];
   [0; 1; -1; -1; 2; 3; -1; -1; 4; 5; 6; -1; 7; -1; -1; -1];
   [0; 1; 2; -1; 3; 4; -1; -1; 5; 6; 7; -1; 8; -1; -1; -1];
   [0; 1; 2; 3; 4; 5; -1; -1; 6; 7; 8; -1; 9; -1; -1; -1];
   [0; -1; -1; -1; 1; 2; 3; -1; 4; 5; 6; -1; 7; -1; -1; -1];
   [0; 1; -1; -1; 2; 3; 4; -1; 5; 6; 7; -1; 8; -1; -1; -1];
   [0; 1; 2; -1; 3; 4; 5; -1; 6; 7; 8; -1; 9; -1; -1; -1];
   [0; 1; 2; 3; 4; 5; 6; -1; 7; 8; 9; -1; 10; -1; -1; -1];
   [0; -1; -1; -1; 1; 2; 3; 4; 5; 6; 7; -1; 8; -1; -1; -1];
   [0; 1; -1; -1; 2; 3; 4; 5; 6; 7; 8; -1; 9; -1; -1; -1];
   [0; 1; 2; -1; 3; 4; 5; 6; 7; 8; 9; -1; 10; -1; -1; -1];
   [0; 1; 2; 3; 4; 5; 6; 7; 8; 9; 10; -1; 11; -1; -1; -1];
   [0; -1; -1; -1; 1; -1; -1; -1; 2; 3; 4; 5; 6; -1; -1; -1];
   [0; 1; -1; -1; 2; -1; -1; -1; 3; 4; 5; 6; 7; -1; -1; -1];
   [0; 1; 2; -1; 3; -1; -1; -1; 4; 5; 6; 7; 8; -1; -1; -1];
   [0; 1; 2; 3; 4; -1; -1; -1; 5; 6; 7; 8; 9; -1; -1; -1];
   [0; -1; -1; -1; 1; 2; -1; -1; 3; 4; 5; 6; 7; -1; -1; -1];
   [0; 1; -1; -1; 2; 3; -1; -1; 4; 5; 6; 7; 8; -1; -1; -1];
   [0; 1; 2; -1; 3; 4; -1; -1; 5; 6; 7; 8; 9; -1; -1; -1];
   [0; 1; 2; 3; 4; 5; -1; -1; 6; 7; 8; 9; 10; -1; -1; -1];
   [0; -1; -1; -1; 1; 2; 3; -1; 4; 5; 6; 7; 8; -1; -1; -1];
   [0; 1; -1; -1; 2; 3; 4; -1; 5; 6; 7; 8; 9; -1; -1; -1];
   [0; 1; 2; -1; 3; 4; 5; -1; 6; 7; 8; 9; 10; -1; -1; -1];
   [0; 1; 2; 3; 4; 5; 6; -1; 7; 8; 9; 10; 11; -1; -1; -1];
   [0; -1; -1; -1; 1; 2; 3; 4; 5; 6; 7; 8; 9; -1; -1; -1];
   [0; 1; -1; -1; 2; 3; 4; 5; 6; 7; 8; 9; 10; -1; -1; -1];
   [0; 1; 2; -1; 3; 4; 5; 6; 7; 8; 9; 10; 11; -1; -1; -1];
   [0; 1; 2; 3; 4; 5; 6; 7; 8; 9; 10; 11; 12; -1; -1; -1];
   [0; -1; -1; -1; 1; -1; -1; -1; 2; -1; -1; -1; 3; 4; -1; -1];
   [0; 1; -1; -1; 2; -1; -1; -1; 3; -1; -1; -1; 4; 5; -1; -1];
   [0; 1; 2; -1; 3; -1; -1; -1; 4; -1; -1; -1; 5; 6; -1; -1];
   [0; 1; 2; 3; 4; -1; -1; -1; 5; -1; -1; -1; 6; 7; -1; -1];
   [0; -1; -1; -1; 1; 2; -1; -1; 3; -1; -1; -1; 4; 5; -1; -1];
   [0; 1; -1; -1; 2; 3; -1; -1; 4; -1; -1; -1; 5; 6; -1; -1];
   [0; 1; 2; -1; 3; 4; -1; -1; 5; -1; -1; -1; 6; 7; -1; -1];
   [0; 1; 2; 3; 4; 5; -1; -1; 6; -1; -1; -1; 7; 8; -1; -1];
   [0; -1; -1; -1; 1; 2; 3; -1; 4; -1; -1; -1; 5; 6; -1; -1];
   [0; 1; -1; -1; 2; 3; 4; -1; 5; -1; -1; -1; 6; 7; -1; -1];
   [0; 1; 2; -1; 3; 4; 5; -1; 6; -1; -1; -1; 7; 8; -1; -1];
   [0; 1; 2; 3; 4; 5; 6; -1; 7; -1; -1; -1; 8; 9; -1; -1];
   [0; -1; -1; -1; 1; 2; 3; 4; 5; -1; -1; -1; 6; 7; -1; -1];
   [0; 1; -1; -1; 2; 3; 4; 5; 6; -1; -1; -1; 7; 8; -1; -1];
   [0; 1; 2; -1; 3; 4; 5; 6; 7; -1; -1; -1; 8; 9; -1; -1];
   [0; 1; 2; 3; 4; 5; 6; 7; 8; -1; -1; -1; 9; 10; -1; -1];
   [0; -1; -1; -1; 1; -1; -1; -1; 2; 3; -1; -1; 4; 5; -1; -1];
   [0; 1; -1; -1; 2; -1; -1; -1; 3; 4; -1; -1; 5; 6; -1; -1];
   [0; 1; 2; -1; 3; -1; -1; -1; 4; 5; -1; -1; 6; 7; -1; -1];
   [0; 1; 2; 3; 4; -1; -1; -1; 5; 6; -1; -1; 7; 8; -1; -1];
   [0; -1; -1; -1; 1; 2; -1; -1; 3; 4; -1; -1; 5; 6; -1; -1];
   [0; 1; -1; -1; 2; 3; -1; -1; 4; 5; -1; -1; 6; 7; -1; -1];
   [0; 1; 2; -1; 3; 4; -1; -1; 5; 6; -1; -1; 7; 8; -1; -1];
   [0; 1; 2; 3; 4; 5; -1; -1; 6; 7; -1; -1; 8; 9; -1; -1];
   [0; -1; -1; -1; 1; 2; 3; -1; 4; 5; -1; -1; 6; 7; -1; -1];
   [0; 1; -1; -1; 2; 3; 4; -1; 5; 6; -1; -1; 7; 8; -1; -1];
   [0; 1; 2; -1; 3; 4; 5; -1; 6; 7; -1; -1; 8; 9; -1; -1];
   [0; 1; 2; 3; 4; 5; 6; -1; 7; 8; -1; -1; 9; 10; -1; -1];
   [0; -1; -1; -1; 1; 2; 3; 4; 5; 6; -1; -1; 7; 8; -1; -1];
   [0; 1; -1; -1; 2; 3; 4; 5; 6; 7; -1; -1; 8; 9; -1; -1];
   [0; 1; 2; -1; 3; 4; 5; 6; 7; 8; -1; -1; 9; 10; -1; -1];
   [0; 1; 2; 3; 4; 5; 6; 7; 8; 9; -1; -1; 10; 11; -1; -1];
   [0; -1; -1; -1; 1; -1; -1; -1; 2; 3; 4; -1; 5; 6; -1; -1];
   [0; 1; -1; -1; 2; -1; -1; -1; 3; 4; 5; -1; 6; 7; -1; -1];
   [0; 1; 2; -1; 3; -1; -1; -1; 4; 5; 6; -1; 7; 8; -1; -1];
   [0; 1; 2; 3; 4; -1; -1; -1; 5; 6; 7; -1; 8; 9; -1; -1];
   [0; -1; -1; -1; 1; 2; -1; -1; 3; 4; 5; -1; 6; 7; -1; -1];
   [0; 1; -1; -1; 2; 3; -1; -1; 4; 5; 6; -1; 7; 8; -1; -1];
   [0; 1; 2; -1; 3; 4; -1; -1; 5; 6; 7; -1; 8; 9; -1; -1];
   [0; 1; 2; 3; 4; 5; -1; -1; 6; 7; 8; -1; 9; 10; -1; -1];
   [0; -1; -1; -1; 1; 2; 3; -1; 4; 5; 6; -1; 7; 8; -1; -1];
   [0; 1; -1; -1; 2; 3; 4; -1; 5; 6; 7; -1; 8; 9; -1; -1];
   [0; 1; 2; -1; 3; 4; 5; -1; 6; 7; 8; -1; 9; 10; -1; -1];
   [0; 1; 2; 3; 4; 5; 6; -1; 7; 8; 9; -1; 10; 11; -1; -1];
   [0; -1; -1; -1; 1; 2; 3; 4; 5; 6; 7; -1; 8; 9; -1; -1];
   [0; 1; -1; -1; 2; 3; 4; 5; 6; 7; 8; -1; 9; 10; -1; -1];
   [0; 1; 2; -1; 3; 4; 5; 6; 7; 8; 9; -1; 10; 11; -1; -1];
   [0; 1; 2; 3; 4; 5; 6; 7; 8; 9; 10; -1; 11; 12; -1; -1];
   [0; -1; -1; -1; 1; -1; -1; -1; 2; 3; 4; 5; 6; 7; -1; -1];
   [0; 1; -1; -1; 2; -1; -1; -1; 3; 4; 5; 6; 7; 8; -1; -1];
   [0; 1; 2; -1; 3; -1; -1; -1; 4; 5; 6; 7; 8; 9; -1; -1];
   [0; 1; 2; 3; 4; -1; -1; -1; 5; 6; 7; 8; 9; 10; -1; -1];
   [0; -1; -1; -1; 1; 2; -1; -1; 3; 4; 5; 6; 7; 8; -1; -1];
   [0; 1; -1; -1; 2; 3; -1; -1; 4; 5; 6; 7; 8; 9; -1; -1];
   [0; 1; 2; -1; 3; 4; -1; -1; 5; 6; 7; 8; 9; 10; -1; -1];
   [0; 1; 2; 3; 4; 5; -1; -1; 6; 7; 8; 9; 10; 11; -1; -1];
   [0; -1; -1; -1; 1; 2; 3; -1; 4; 5; 6; 7; 8; 9; -1; -1];
   [0; 1; -1; -1; 2; 3; 4; -1; 5; 6; 7; 8; 9; 10; -1; -1];
   [0; 1; 2; -1; 3; 4; 5; -1; 6; 7; 8; 9; 10; 11; -1; -1];
   [0; 1; 2; 3; 4; 5; 6; -1; 7; 8; 9; 10; 11; 12; -1; -1];
   [0; -1; -1; -1; 1; 2; 3; 4; 5; 6; 7; 8; 9; 10; -1; -1];
   [0; 1; -1; -1; 2; 3; 4; 5; 6; 7; 8; 9; 10; 11; -1; -1];
   [0; 1; 2; -1; 3; 4; 5; 6; 7; 8; 9; 10; 11; 12; -1; -1];
   [0; 1; 2; 3; 4; 5; 6; 7; 8; 9; 10; 11; 12; 13; -1; -1]].

Definition shuffleTable_hi : list (list Z) :=
  [[0; -1; -1; -1; 1; -1; -1; -1; 2; -1; -1; -1; 3; 4; 5; -1];
   [0; 1; -1; -1; 2; -1; -1; -1; 3; -1; -1; -1; 4; 5; 6; -1];
   [0; 1; 2; -1; 3; -1; -1; -1; 4; -1; -1; -1; 5; 6; 7; -1];
   [0; 1; 2; 3; 4; -1; -1; -1; 5; -1; -1; -1; 6; 7; 8; -1];
   [0; -1; -1; -1; 1; 2; -1; -1; 3; -1; -1; -1; 4; 5; 6; -1];
   [0; 1; -1; -1; 2; 3; -1; -1; 4; -1; -1; -1; 5; 6; 7; -1];
   [0; 1; 2; -1; 3; 4; -1; -1; 5; -1; -1; -1; 6; 7; 8; -1];
   [0; 1; 2; 3; 4; 5; -1; -1; 6; -1; -1; -1; 7; 8; 9; -1];
   [0; -1; -1; -1; 1; 2; 3; -1; 4; -1; -1; -1; 5; 6; 7; -1];
   [0; 1; -1; -1; 2; 3; 4; -1; 5; -1; -1; -1; 6; 7; 8; -1];
   [0; 1; 2; -1; 3; 4; 5; -1; 6; -1; -1; -1; 7; 8; 9; -1];
   [0; 1; 2; 3; 4; 5; 6; -1; 7; -1; -1; -1; 8; 9; 10; -1];
   [0; -1; -1; -1; 1; 2; 3; 4; 5; -1; -1; -1; 6; 7; 8; -1];
   [0; 1; -1; -1; 2; 3; 4; 5; 6; -1; -1; -1; 7; 8; 9; -1];
   [0; 1; 2; -1; 3; 4; 5; 6; 7; -1; -1; -1; 8; 9; 10; -1];
   [0; 1; 2; 3; 4; 5; 6; 7; 8; -1; -1; -1; 9; 10; 11; -1];
   [0; -1; -1; -1; 1; -1; -1; -1; 2; 3; -1; -1; 4; 5; 6; -1];
   [0; 1; -1; -1; 2; -1; -1; -1; 3; 4; -1; -1; 5; 6; 7; -1];
   [0; 1; 2; -1; 3; -1; -1; -1; 4; 5; -1; -1; 6; 7; 8; -1];
   [0; 1; 2; 3; 4; -1; -1; -1; 5; 6; -1; -1; 7; 8; 9; -1];
   [0; -1; -1; -1; 1; 2; -1; -1; 3; 4; -1; -1; 5; 6; 7; -1];
   [0; 1; -1; -1; 2; 3; -1; -1; 4; 5; -1; -1; 6; 7; 8; -1];
   [0; 1; 2; -1; 3; 4; -1; -1; 5; 6; -1; -1; 7; 8; 9; -1];
   [0; 1; 2; 3; 4; 5; -1; -1; 6; 7; -1; -1; 8; 9; 10; -1];
   [0; -1; -1; -1; 1; 2; 3; -1; 4; 5; -1; -1; 6; 7; 8; -1];
   [0; 1; -1; -1; 2; 3; 4; -1; 5; 6; -1; -1; 7; 8; 9; -1];
   [0; 1; 2; -1; 3; 4; 5; -1; 6; 7; -1; -1; 8; 9; 10; -1];
   [0; 1; 2; 3; 4; 5; 6; -1; 7; 8; -1; -1; 9; 10; 11; -1];
   [0; -1; -1; -1; 1; 2; 3; 4; 5; 6; -1; -1; 7; 8; 9; -1];
   [0; 1; -1; -1; 2; 3; 4; 5; 6; 7; -1; -1; 8; 9; 10; -1];
   [0; 1; 2; -1; 3; 4; 5; 6; 7; 8; -1; -1; 9; 10; 11; -1];
   [0; 1; 2; 3; 4; 5; 6; 7; 8; 9; -1; -1; 10; 11; 12; -1];
   [0; -1; -1; -1; 1; -1; -1; -1; 2; 3; 4; -1; 5; 6; 7; -1];
   [0; 1; -1; -1; 2; -1; -1; -1; 3; 4; 5; -1; 6; 7; 8; -1];
   [0; 1; 2; -1; 3; -1; -1; -1; 4; 5; 6; -1; 7; 8; 9; -1];
   [0; 1; 2; 3; 4; -1; -1; -1; 5; 6; 7; -1; 8; 9; 10; -1];
   [0; -1; -1; -1; 1; 2; -1; -1; 3; 4; 5; -1; 6; 7; 8; -1];
   [0; 1; -1; -1; 2; 3; -1; -1; 4; 5; 6; -1; 7; 8; 9; -1];
   [0; 1; 2; -1; 3; 4; -1; -1; 5; 6; 7; -1; 8; 9; 10; -1];
   [0; 1; 2; 3; 4; 5; -1; -1; 6; 7; 8; -1; 9; 10; 11; -1];
   [0; -1; -1; -1; 1; 2; 3; -1; 4; 5; 6; -1; 7; 8; 9; -1];
   [0; 1; -1; -1; 2; 3; 4; -1; 5; 6; 7; -1; 8; 9; 10; -1];
   [0; 1; 2; -1; 3; 4; 5; -1; 6; 7; 8; -1; 9; 10; 11; -1];
   [0; 1; 2; 3; 4; 5; 6; -1; 7; 8; 9; -1; 10; 11; 12; -1];
   [0; -1; -1; -1; 1; 2; 3; 4; 5; 6; 7; -1; 8; 9; 10; -1];
   [0; 1; -1; -1; 2; 3; 4; 5; 6; 7; 8; -1; 9; 10; 11; -1];
   [0; 1; 2; -1; 3; 4; 5; 6; 7; 8; 9; -1; 10; 11; 12; -1];
   [0; 1; 2; 3; 4; 5; 6; 7; 8; 9; 10; -1; 11; 12; 13; -1];
   [0; -1; -1; -1; 1; -1; -1; -1; 2; 3; 4; 5; 6; 7; 8; -1];
   [0; 1; -1; -1; 2; -1; -1; -1; 3; 4; 5; 6; 7; 8; 9; -1];
   [0; 1; 2; -1; 3; -1; -1; -1; 4; 5; 6; 7; 8; 9; 10; -1];
   [0; 1; 2; 3; 4; -1; -1; -1; 5; 6; 7; 8; 9; 10; 11; -1];
   [0; -1; -1; -1; 1; 2; -1; -1; 3; 4; 5; 6; 7; 8; 9; -1];
   [0; 1; -1; -1; 2; 3; -1; -1; 4; 5; 6; 7; 8; 9; 10; -1];
   [0; 1; 2; -1; 3; 4; -1; -1; 5; 6; 7; 8; 9; 10; 11; -1];
   [0; 1; 2; 3; 4; 5; -1; -1; 6; 7; 8; 9; 10; 11; 12; -1];
   [0; -1; -1; -1; 1; 2; 3; -1; 4; 5; 6; 7; 8; 9; 10; -1];
   [0; 1; -1; -1; 2; 3; 4; -1; 5; 6; 7; 8; 9; 10; 11; -1];
   [0; 1; 2; -1; 3; 4; 5; -1; 6; 7; 8; 9; 10; 11; 12; -1];
   [0; 1; 2; 3; 4; 5; 6; -1; 7; 8; 9; 10; 11; 12; 13; -1];
   [0; -1; -1; -1; 1; 2; 3; 4; 5; 6; 7; 8; 9; 10; 11; -1];
   [0; 1; -1; -1; 2; 3; 4; 5; 6; 7; 8; 9; 10; 11; 12; -1];
   [0; 1; 2; -1; 3; 4; 5; 6; 7; 8; 9; 10; 11; 12; 13; -1];
   [0; 1; 2; 3; 4; 5; 6; 7; 8; 9; 10; 11; 12; 13; 14; -1];
   [0; -1; -1; -1; 1; -1; -1; -1; 2; -1; -1; -1; 3; 4; 5; 6];
   [0; 1; -1; -1; 2; -1; -1; -1; 3; -1; -1; -1; 4; 5; 6; 7];
   [0; 1; 2; -1; 3; -1; -1; -1; 4; -1; -1; -1; 5; 6; 7; 8];
   [0; 1; 2; 3; 4; -1; -1; -1; 5; -1; -1; -1; 6; 7; 8; 9];
   [0; -1; -1; -1; 1; 2; -1; -1; 3; -1; -1; -1; 4; 5; 6; 7];
   [0; 1; -1; -1; 2; 3; -1; -1; 4; -1; -1; -1; 5; 6; 7; 8];
   [0; 1; 2; -1; 3; 4; -1; -1; 5; -1; -1; -1; 6; 7; 8; 9];
   [0; 1; 2; 3; 4; 5; -1; -1; 6; -1; -1; -1; 7; 8; 9; 10];
   [0; -1; -1; -1; 1; 2; 3; -1; 4; -1; -1; -1; 5; 6; 7; 8];
   [0; 1; -1; -1; 2; 3; 4; -1; 5; -1; -1; -1; 6; 7; 8; 9];
   [0; 1; 2; -1; 3; 4; 5; -1; 6; -1; -1; -1; 7; 8; 9; 10];
   [0; 1; 2; 3; 4; 5; 6; -1; 7; -1; -1; -1; 8; 9; 10; 11];
   [0; -1; -1; -1; 1; 2; 3; 4; 5; -1; -1; -1; 6; 7; 8; 9];
   [0; 1; -1; -1; 2; 3; 4; 5; 6; -1; -1; -1; 7; 8; 9; 10];
   [0; 1; 2; -1; 3; 4; 5; 6; 7; -1; -1; -1; 8; 9; 10; 11];
   [0; 1; 2; 3; 4; 5; 6; 7; 8; -1; -1; -1; 9; 10; 11; 12];
   [0; -1; -1; -1; 1; -1; -1; -1; 2; 3; -1; -1; 4; 5; 6; 7];
   [0; 1; -1; -1; 2; -1; -1; -1; 3; 4; -1; -1; 5; 6; 7; 8];
   [0; 1; 2; -1; 3; -1; -1; -1; 4; 5; -1; -1; 6; 7; 8; 9];
   [0; 1; 2; 3; 4; -1; -1; -1; 5; 6; -1; -1; 7; 8; 9; 10];
   [0; -1; -1; -1; 1; 2; -1; -1; 3; 4; -1; -1; 5; 6; 7; 8];
   [0; 1; -1; -1; 2; 3; -1; -1; 4; 5; -1; -1; 6; 7; 8; 9];
   [0; 1; 2; -1; 3; 4; -1; -1; 5; 6; -1; -1; 7; 8; 9; 10];
   [0; 1; 2; 3; 4; 5; -1; -1; 6; 7; -1; -1; 8; 9; 10; 11];
   [0; -1; -1; -1; 1; 2; 3; -1; 4; 5; -1; -1; 6; 7; 8; 9];
   [0; 1; -1; -1; 2; 3; 4; -1; 5; 6; -1; -1; 7; 8; 9; 10];
   [0; 1; 2; -1; 3; 4; 5; -1; 6; 7; -1; -1; 8; 9; 10; 11];
   [0; 1; 2; 3; 4; 5; 6; -1; 7; 8; -1; -1; 9; 10; 11; 12];
   [0; -1; -1; -1; 1; 2; 3; 4; 5; 6; -1; -1; 7; 8; 9; 10];
   [0; 1; -1; -1; 2; 3; 4; 5; 6; 7; -1; -1; 8; 9; 10; 11];
   [0; 1; 2; -1; 3; 4; 5; 6; 7; 8; -1; -1; 9; 10; 11; 12];
   [0; 1; 2; 3; 4; 5; 6; 7; 8; 9; -1; -1; 10; 11; 12; 13];
   [0; -1; -1; -1; 1; -1; -1; -1; 2; 3; 4; -1; 5; 6; 7; 8];
   [0; 1; -1; -1; 2; -1; -1; -1; 3; 4; 5; -1; 6; 7; 8; 9];
   [0; 1; 2; -1; 3; -1; -1; -1; 4; 5; 6; -1; 7; 8; 9; 10];
   [0; 1; 2; 3; 4; -1; -1; -1; 5; 6; 7; -1; 8; 9; 10; 11];
   [0; -1; -1; -1; 1; 2; -1; -1; 3; 4; 5; -1; 6; 7; 8; 9];
   [0; 1; -1; -1; 2; 3; -1; -1; 4; 5; 6; -1; 7; 8; 9; 10];
   [0; 1; 2; -1; 3; 4; -1; -1; 5; 6; 7; -1; 8; 9; 10; 11];
   [0; 1; 2; 3; 4; 5; -1; -1; 6; 7; 8; -1; 9; 10; 11; 12];
   [0; -1; -1; -1; 1; 2; 3; -1; 4; 5; 6; -1; 7; 8; 9; 10];
   [0; 1; -1; -1; 2; 3; 4; -1; 5; 6; 7; -1; 8; 9; 10; 11];
   [0; 1; 2; -1; 3; 4; 5; -1; 6; 7; 8; -1; 9; 10; 11; 12];
   [0; 1; 2; 3; 4; 5; 6; -1; 7; 8; 9; -1; 10; 11; 12; 13];
   [0; -1; -1; -1; 1; 2; 3; 4; 5; 6; 7; -1; 8; 9; 10; 11];
   [0; 1; -1; -1; 2; 3; 4; 5; 6; 7; 8; -1; 9; 10; 11; 12];
   [0; 1; 2; -1; 3; 4; 5; 6; 7; 8; 9; -1; 10; 11; 12; 13];
   [0; 1; 2; 3; 4; 5; 6; 7; 8; 9; 10; -1; 11; 12; 13; 14];
   [0; -1; -1; -1; 1; -1; -1; -1; 2; 3; 4; 5; 6; 7; 8; 9];
   [0; 1; -1; -1; 2; -1; -1; -1; 3; 4; 5; 6; 7; 8; 9; 10];
   [0; 1; 2; -1; 3; -1; -1; -1; 4; 5; 6; 7; 8; 9; 10; 11];
   [0; 1; 2; 3; 4; -1; -1; -1; 5; 6; 7; 8; 9; 10; 11; 12];
   [0; -1; -1; -1; 1; 2; -1; -1; 3; 4; 5; 6; 7; 8; 9; 10];
   [0; 1; -1; -1; 2; 3; -1; -1; 4; 5; 6; 7; 8; 9; 10; 11];
   [0; 1; 2; -1; 3; 4; -1; -1; 5; 6; 7; 8; 9; 10; 11; 12];
   [0; 1; 2; 3; 4; 5; -1; -1; 6; 7; 8; 9; 10; 11; 12; 13];
   [0; -1; -1; -1; 1; 2; 3; -1; 4; 5; 6; 7; 8; 9; 10; 11];
   [0; 1; -1; -1; 2; 3; 4; -1; 5; 6; 7; 8; 9; 10; 11; 12];
   [0; 1; 2; -1; 3; 4; 5; -1; 6; 7; 8; 9; 10; 11; 12; 13];
   [0; 1; 2; 3; 4; 5; 6; -1; 7; 8; 9; 10; 11; 12; 13; 14];
   [0; -1; -1; -1; 1; 2; 3; 4; 5; 6; 7; 8; 9; 10; 11; 12];
   [0; 1; -1; -1; 2; 3; 4; 5; 6; 7; 8; 9; 10; 11; 12; 13];
   [0; 1; 2; -1; 3; 4; 5; 6; 7; 8; 9; 10; 11; 12; 13; 14];
   [0; 1; 2; 3; 4; 5; 6; 7; 8; 9; 10; 11; 12; 13; 14; 15]].

Definition shuffleTable : list (list Z) :=
  map (map u8) (shuffleTable_lo ++ shuffleTable_hi).

(** * What the tables mean *)

(** The four 2-bit codes packed in a key byte, lowest bits first; a code [c]
    stands for a value stored in [c + 1] bytes. *)
Definition key_codes (key : Z) : list Z :=
  [Z.land key 3; Z.land (Z.shiftr key 2) 3; Z.land (Z.shiftr key 4) 3; Z.land (Z.shiftr key 6) 3].

(** Bytes of the data stream covered by a list of codes. *)
Fixpoint codes_len (codes : list Z) : Z :=
  match codes with
  | [] => 0
  | c :: codes' => (c + 1) + codes_len codes'
  end.

(** Mask of one output lane of four bytes: [c + 1] consecutive source bytes
    starting at [off], then entries with the top bit set (a zero byte). *)
Definition lane_mask (off c : Z) : list Z :=
  map (fun i => if i <=? c then off + i else 255) [0; 1; 2; 3].

Fixpoint codes_mask (off : Z) (codes : list Z) : list Z :=
  match codes with
  | [] => []
  | c :: codes' => lane_mask off c ++ codes_mask (off + (c + 1)) codes'
  end.

Lemma lengthTable_eq : lengthTable = map (fun k => codes_len (key_codes k)) (seqZ 0 256).
Proof. vm_compute. reflexivity. Qed.

Lemma shuffleTable_eq : shuffleTable = map (fun k => codes_mask 0 (key_codes k)) (seqZ 0 256).
Proof. vm_compute. reflexivity. Qed.

Lemma lengthTable_lookup k :
  0 <= k < 256 -> lengthTable !! Z.to_nat k = Some (codes_len (key_codes k)).
Proof.
  intros Hk. rewrite lengthTable_eq, list_lookup_fmap, lookup_seqZ_lt by lia.
  cbn [fmap option_fmap option_map]. by rewrite Z.add_0_l, Z2Nat.id by lia.
Qed.

Lemma shuffleTable_lookup k :
  0 <= k < 256 -> shuffleTable !! Z.to_nat k = Some (codes_mask 0 (key_codes k)).
Proof.
  intros Hk. rewrite shuffleTable_eq, list_lookup_fmap, lookup_seqZ_lt by lia.
  cbn [fmap option_fmap option_map]. by rewrite Z.add_0_l, Z2Nat.id by lia.
Qed.
