(* ===== verification/Simd.v ===== *)
(** The SSE intrinsics of <x86intrin.h> that src/streamvbyte.c and
    src/streamvbytedelta.c use, on a 128-bit register written as its sixteen
    bytes, lowest first.  Lanes of 16 or 32 bits are little-endian groups of
    bytes; additions wrap at the lane width.  The lemmas compute each operation
    on registers given by their lanes. *)
From S2P Require Import Prelude.

Module Simd.

Definition m128i : Type := list Z.

(** The bytes of a register with the given [k]-byte lanes. *)
Definition of_lanes (k : nat) (l : list Z) : m128i := concat (map (le_split k) l).

Definition lane (k i : nat) (v : m128i) : Z := le_combine (take k (drop (k * i) v)).
Definition lanes32 (v : m128i) : list Z := map (fun i => lane 4 i v) [0; 1; 2; 3]%nat.
Definition lanes16 (v : m128i) : list Z :=
  map (fun i => lane 2 i v) [0; 1; 2; 3; 4; 5; 6; 7]%nat.

(** [_mm_loadu_si128] and [_mm_lddqu_si128]: sixteen bytes, any alignment. *)
Definition mm_loadu_si128 (mem : list Z) (p : nat) : outcome m128i := load_range mem p 16.
Definition mm_lddqu_si128 (mem : list Z) (p : nat) : outcome m128i := load_range mem p 16.

(** [_mm_loadl_epi64]: eight bytes, upper half zero. *)
Definition mm_loadl_epi64 (mem : list Z) (p : nat) : outcome m128i :=
  bs ← load_range mem p 8; Ok (bs ++ replicate 8 0).

(** [_mm_storeu_si128] to an array of [uint32_t]. *)
Definition mm_storeu_si128 (out : list Z) (p : nat) (v : m128i) : outcome (list Z) :=
  store_range out p (lanes32 v).

(** [_mm_shuffle_epi8]: a mask byte with its top bit set gives zero, otherwise
    its low four bits select a byte. *)
Definition mm_shuffle_epi8 (a mask : m128i) : m128i :=
  map (fun s => if Z.testbit s 7 then 0 else a !!! Z.to_nat (Z.land s 15)) mask.

(** [_mm_slli_si128]: shift left by whole bytes, filling with zero. *)
Definition mm_slli_si128 (a : m128i) (n : nat) : m128i := take 16 (replicate n 0 ++ a).

Definition mm_add_epi32 (a b : m128i) : m128i :=
  of_lanes 4 (zip_with (fun x y => u32 (x + y)) (lanes32 a) (lanes32 b)).

(** [_mm_shuffle_epi32]: lane [i] of the result is selected by bits [2i], [2i+1]. *)
Definition mm_shuffle_epi32 (a : m128i) (imm : Z) : m128i :=
  of_lanes 4 (map (fun i => lanes32 a !!! Z.to_nat (Z.land (Z.shiftr imm (2 * i)) 3)) [0; 1; 2; 3]).

Definition mm_set1_epi32 (x : Z) : m128i := of_lanes 4 [x; x; x; x].

(** [_mm_cvtepu8_epi16] and [_mm_cvtepu16_epi32]: zero-extend the low half. *)
Definition mm_cvtepu8_epi16 (a : m128i) : m128i := of_lanes 2 (take 8 a).
Definition mm_cvtepu16_epi32 (a : m128i) : m128i := of_lanes 4 (take 4 (lanes16 a)).

(** * Lemmas *)

Lemma lane_of_lanes k i l x :
  l !! i = Some x -> lane k i (of_lanes k l) = x mod 2 ^ (8 * Z.of_nat k).
Proof.
  unfold lane, of_lanes. revert i; induction l as [|y l IH]; intros i Hi; [done|].
  destruct i as [|i]; simplify_eq/=.
  - rewrite Nat.mul_0_r, drop_0, take_app_length' by (by rewrite length_le_split).
    apply le_combine_split.
  - rewrite drop_app_ge by (rewrite length_le_split; lia).
    rewrite length_le_split. replace (k * S i - k)%nat with (k * i)%nat by lia.
    by apply IH.
Qed.

Lemma lanes32_of_lanes a b c d :
  lanes32 (of_lanes 4 [a; b; c; d]) = [u32 a; u32 b; u32 c; u32 d].
Proof. unfold lanes32. cbn [map]. by erewrite !lane_of_lanes by reflexivity. Qed.

Lemma lanes16_of_lanes a b c d e f g h :
  lanes16 (of_lanes 2 [a; b; c; d; e; f; g; h]) =
  [u16 a; u16 b; u16 c; u16 d; u16 e; u16 f; u16 g; u16 h].
Proof. unfold lanes16. cbn [map]. by erewrite !lane_of_lanes by reflexivity. Qed.

Lemma add_epi32_lanes a b c d a' b' c' d' :
  mm_add_epi32 (of_lanes 4 [a; b; c; d]) (of_lanes 4 [a'; b'; c'; d']) =
  of_lanes 4 [u32 (a + a'); u32 (b + b'); u32 (c + c'); u32 (d + d')].
Proof.
  unfold mm_add_epi32. rewrite !lanes32_of_lanes. cbn [zip_with].
  unfold u32. by rewrite <- !Z.add_mod by lia.
Qed.

Lemma slli4_lanes a b c d :
  mm_slli_si128 (of_lanes 4 [a; b; c; d]) 4 = of_lanes 4 [0; a; b; c].
Proof. reflexivity. Qed.

Lemma slli8_lanes a b c d :
  mm_slli_si128 (of_lanes 4 [a; b; c; d]) 8 = of_lanes 4 [0; 0; a; b].
Proof. reflexivity. Qed.

Lemma shuffle_epi32_last a b c d :
  mm_shuffle_epi32 (of_lanes 4 [a; b; c; d]) 255 = of_lanes 4 [u32 d; u32 d; u32 d; u32 d].
Proof. unfold mm_shuffle_epi32. by rewrite lanes32_of_lanes. Qed.

(** A 32-bit lane written as its two 16-bit halves. *)
Lemma le_split_4_2 x y :
  0 <= x < 2 ^ 16 -> le_split 4 (x + 2 ^ 16 * y) = le_split 2 x ++ le_split 2 y.
Proof.
  intros Hx. cbn [le_split app]. rewrite !Z.shiftr_div_pow2 by lia.
  repeat (apply (f_equal2 cons); [zlia|]). done.
Qed.

Lemma of_lanes_2_4 a b c d e f g h :
  Forall (fun x => 0 <= x < 2 ^ 16) [a; c; e; g] ->
  of_lanes 2 [a; b; c; d; e; f; g; h] =
  of_lanes 4 [a + 2 ^ 16 * b; c + 2 ^ 16 * d; e + 2 ^ 16 * f; g + 2 ^ 16 * h].
Proof.
  intros H. rewrite !list.Forall_cons in H. destruct H as (?&?&?&?&_).
  unfold of_lanes. cbn [map concat].
  rewrite !le_split_4_2 by done. by rewrite <- !app_assoc.
Qed.

(** [_mm_add_epi32] on eight 16-bit values adds them pairwise as long as no sum
    carries into the neighbouring value. *)
Lemma add_epi32_lanes16 a b c d e f g h a' b' c' d' e' f' g' h' :
  Forall (fun x => 0 <= x < 2 ^ 15) [a; b; c; d; e; f; g; h] ->
  Forall (fun x => 0 <= x < 2 ^ 15) [a'; b'; c'; d'; e'; f'; g'; h'] ->
  mm_add_epi32 (of_lanes 2 [a; b; c; d; e; f; g; h]) (of_lanes 2 [a'; b'; c'; d'; e'; f'; g'; h']) =
  of_lanes 2 [a + a'; b + b'; c + c'; d + d'; e + e'; f + f'; g + g'; h + h'].
Proof.
  rewrite !list.Forall_cons. intros (?&?&?&?&?&?&?&?&_) (?&?&?&?&?&?&?&?&_).
  rewrite !of_lanes_2_4, add_epi32_lanes by forall_lia.
  f_equal. unfold u32. rewrite !Z.mod_small by lia.
  repeat (apply (f_equal2 cons); [lia|]). done.
Qed.

Lemma slli2_lanes16 a b c d e f g h :
  mm_slli_si128 (of_lanes 2 [a; b; c; d; e; f; g; h]) 2 = of_lanes 2 [0; a; b; c; d; e; f; g].
Proof. reflexivity. Qed.

Lemma slli4_lanes16 a b c d e f g h :
  mm_slli_si128 (of_lanes 2 [a; b; c; d; e; f; g; h]) 4 = of_lanes 2 [0; 0; a; b; c; d; e; f].
Proof. reflexivity. Qed.

Lemma cvtepu16_lanes a b c d e f g h :
  mm_cvtepu16_epi32 (of_lanes 2 [a; b; c; d; e; f; g; h]) =
  of_lanes 4 [u16 a; u16 b; u16 c; u16 d].
Proof. unfold mm_cvtepu16_epi32. by rewrite lanes16_of_lanes. Qed.

End Simd.
