(* ===== verification/StreamVByte.v ===== *)
(** src/streamvbyte.c: the StreamVByte integer codec.

    A stream of [count] values is [(count + 3) / 4] key bytes, each holding four
    2-bit length codes, followed by the little-endian bytes of the values.  The
    encoder is scalar; the decoder works on blocks of 32 values with SSE
    shuffles and finishes with a scalar loop.

    A pointer into the byte buffer or into the array of [uint32_t] is an index;
    reading or writing outside of the allocated array is [Undef].  [inb] is the
    compressed buffer a decoder reads, [out] the buffer a routine writes. *)
From S2P Require Import Prelude SvbTables Simd.
Import Simd.

Module Svb.

(** [_encode_data]: writes [val] at [*dataPtrPtr]; the code, the advanced
    pointer and the buffer. *)
Definition encode_data (val : Z) (dataPtr : nat) (out : list Z)
  : outcome (Z * nat * list Z) :=
  if val <? Z.shiftl 1 8 then
    out ← store out dataPtr (u8 val); Ok (0, (dataPtr + 1)%nat, out)
  else if val <? Z.shiftl 1 16 then
    out ← store_le 2 out dataPtr (u16 val); Ok (1, (dataPtr + 2)%nat, out)
  else if val <? Z.shiftl 1 24 then
    out ← store_le 2 out dataPtr (u16 val);
    out ← store out (dataPtr + 2)%nat (u8 (Z.shiftr val 16));
    Ok (2, (dataPtr + 3)%nat, out)
  else
    out ← store_le 4 out dataPtr val; Ok (3, (dataPtr + 4)%nat, out).

(** The [for] loop of [svb_encode_scalar] over the values [c, c + 1, ...],
    [n] of them left. *)
Fixpoint svb_encode_scalar_loop (n c : nat) (inp : list Z) (shift key : Z)
  (keyPtr dataPtr : nat) (out : list Z) : outcome (Z * nat * nat * list Z) :=
  match n with
  | O => Ok (key, keyPtr, dataPtr, out)
  | S n' =>
      '(shift, key, keyPtr, out) ←
        (if shift =? 8 then out ← store out keyPtr key; Ok (0, 0, S keyPtr, out)
         else Ok (shift, key, keyPtr, out));
      val ← load inp c;
      '(code, dataPtr, out) ← encode_data val dataPtr out;
      let key := u8 (Z.lor key (Z.shiftl code shift)) in
      svb_encode_scalar_loop n' (S c) inp (u8 (shift + 2)) key keyPtr dataPtr out
  end.

(** [svb_encode_scalar]: pointer past the last data byte, and the buffer. *)
Definition svb_encode_scalar (inp : list Z) (keyPtr dataPtr : nat) (count : Z)
  (out : list Z) : outcome (nat * list Z) :=
  if count =? 0 then Ok (dataPtr, out)
  else
    '(key, keyPtr, dataPtr, out) ←
      svb_encode_scalar_loop (Z.to_nat count) 0 inp 0 0 keyPtr dataPtr out;
    out ← store out keyPtr key;
    Ok (dataPtr, out).

(** [streamvbyte_encode]: number of bytes written, and the buffer. *)
Definition streamvbyte_encode (inp : list Z) (count : Z) (out : list Z)
  : outcome (nat * list Z) :=
  let keyLen := Z.to_nat (u32 (count + 3) / 4) in
  svb_encode_scalar inp 0 keyLen count out.

(** [_decode_avx]: four values as one register, and the advanced pointer. *)
Definition decode_avx (key : Z) (inb : list Z) (dataPtr : nat) : outcome (m128i * nat) :=
  len ← load lengthTable (Z.to_nat key);
  Data ← mm_loadu_si128 inb dataPtr;
  Shuf ← load shuffleTable (Z.to_nat key);
  Ok (mm_shuffle_epi8 Data Shuf, (dataPtr + Z.to_nat len)%nat).

(** [_write_avx] *)
Definition write_avx (out : list Z) (p : nat) (Vec : m128i) : outcome (list Z) :=
  mm_storeu_si128 out p Vec.

(** [_decode_data]: the value and the advanced pointer. *)
Definition decode_data (inb : list Z) (dataPtr : nat) (code : Z) : outcome (Z * nat) :=
  if code =? 0 then val ← load inb dataPtr; Ok (val, (dataPtr + 1)%nat)
  else if code =? 1 then val ← load_le 2 inb dataPtr; Ok (val, (dataPtr + 2)%nat)
  else if code =? 2 then
    val ← load_le 2 inb dataPtr;
    b ← load inb (dataPtr + 2)%nat;
    Ok (Z.lor val (Z.shiftl b 16), (dataPtr + 3)%nat)
  else val ← load_le 4 inb dataPtr; Ok (val, (dataPtr + 4)%nat).

(** The [for] loop of [svb_decode_scalar]. *)
Fixpoint svb_decode_scalar_loop (n : nat) (inb : list Z) (shift key : Z)
  (keyPtr dataPtr outPtr : nat) (out : list Z) : outcome (nat * list Z) :=
  match n with
  | O => Ok (dataPtr, out)
  | S n' =>
      '(shift, key, keyPtr) ←
        (if shift =? 8 then key ← load inb keyPtr; Ok (0, key, S keyPtr)
         else Ok (shift, key, keyPtr));
      '(val, dataPtr) ← decode_data inb dataPtr (Z.land (Z.shiftr key shift) 3);
      out ← store out outPtr val;
      svb_decode_scalar_loop n' inb (u8 (shift + 2)) key keyPtr dataPtr (S outPtr) out
  end.

(** [svb_decode_scalar] *)
Definition svb_decode_scalar (inb : list Z) (outPtr keyPtr dataPtr : nat) (count : Z)
  (out : list Z) : outcome (nat * list Z) :=
  if count =? 0 then Ok (dataPtr, out)
  else
    key ← load inb keyPtr;
    svb_decode_scalar_loop (Z.to_nat count) inb 0 key (S keyPtr) dataPtr outPtr out.

(** One unrolled block of 32 values of [svb_decode_avx_simple]; the source
    repeats it for the last block. *)
Definition svb_avx_block (keys : Z) (inb : list Z) (dataPtr p : nat) (out : list Z)
  : outcome (nat * list Z) :=
  '(Data, dataPtr) ← decode_avx (Z.land keys 255) inb dataPtr;
  out ← write_avx out p Data;
  '(Data, dataPtr) ← decode_avx (Z.shiftr (Z.land keys 65280) 8) inb dataPtr;
  out ← write_avx out (p + 4)%nat Data;
  let keys := Z.shiftr keys 16 in
  '(Data, dataPtr) ← decode_avx (Z.land keys 255) inb dataPtr;
  out ← write_avx out (p + 8)%nat Data;
  '(Data, dataPtr) ← decode_avx (Z.shiftr (Z.land keys 65280) 8) inb dataPtr;
  out ← write_avx out (p + 12)%nat Data;
  let keys := Z.shiftr keys 16 in
  '(Data, dataPtr) ← decode_avx (Z.land keys 255) inb dataPtr;
  out ← write_avx out (p + 16)%nat Data;
  '(Data, dataPtr) ← decode_avx (Z.shiftr (Z.land keys 65280) 8) inb dataPtr;
  out ← write_avx out (p + 20)%nat Data;
  let keys := Z.shiftr keys 16 in
  '(Data, dataPtr) ← decode_avx (Z.land keys 255) inb dataPtr;
  out ← write_avx out (p + 24)%nat Data;
  '(Data, dataPtr) ← decode_avx (Z.shiftr (Z.land keys 65280) 8) inb dataPtr;
  out ← write_avx out (p + 28)%nat Data;
  Ok (dataPtr, out).

(** The loop over [Offset = - n, ..., -1]; [keyPtr64[Offset]] is the eight bytes
    at [key64 + 8 * Offset]. *)
Fixpoint svb_decode_avx_loop (n : nat) (inb : list Z) (key64 nextkeys : Z)
  (dataPtr p : nat) (out : list Z) : outcome (Z * nat * nat * list Z) :=
  match n with
  | O => Ok (nextkeys, dataPtr, p, out)
  | S n' =>
      let Offset := - Z.of_nat n in
      let keys := nextkeys in
      nextkeys ← load_le 8 inb (Z.to_nat (key64 + 8 * (Offset + 1)));
      '(dataPtr, out) ← svb_avx_block keys inb dataPtr p out;
      svb_decode_avx_loop n' inb key64 nextkeys dataPtr (p + 32)%nat out
  end.

(** [svb_decode_avx_simple] *)
Definition svb_decode_avx_simple (inb : list Z) (keyPtr dataPtr : nat) (count : Z)
  (out : list Z) : outcome (nat * list Z) :=
  let keybytes := count / 4 in
  '(dataPtr, p, out) ←
    (if 8 <=? keybytes then
       let Offset := Z.quot (- keybytes) 8 + 1 in
       let key64 := Z.of_nat keyPtr - 8 * Offset in
       nextkeys ← load_le 8 inb (Z.to_nat (key64 + 8 * Offset));
       '(nextkeys, dataPtr, p, out) ←
         svb_decode_avx_loop (Z.to_nat (- Offset)) inb key64 nextkeys dataPtr 0 out;
       '(dataPtr, out) ← svb_avx_block nextkeys inb dataPtr p out;
       Ok (dataPtr, (p + 32)%nat, out)
     else Ok (dataPtr, 0%nat, out));
  let consumedkeys := keybytes - Z.land keybytes 7 in
  svb_decode_scalar inb p (keyPtr + Z.to_nat consumedkeys) dataPtr (Z.land count 31) out.

(** [streamvbyte_decode]: number of bytes read, and the array of values. *)
Definition streamvbyte_decode (inb : list Z) (out : list Z) (count : Z)
  : outcome (nat * list Z) :=
  if count =? 0 then Ok (0%nat, out)
  else
    let keyLen := Z.to_nat (u32 (count + 3) / 4) in
    svb_decode_avx_simple inb 0 keyLen count out.

(** * The format *)

(** Length code of a value: one less than its number of bytes. *)
Definition code_of (v : Z) : Z :=
  if v <? 2 ^ 8 then 0 else if v <? 2 ^ 16 then 1 else if v <? 2 ^ 24 then 2 else 3.

Definition bytes_of (v : Z) : list Z := le_split (Z.to_nat (code_of v + 1)) v.

(** The data section of a list of values. *)
Definition svb_data (vs : list Z) : list Z := concat (map bytes_of vs).

(** Up to four codes as a key byte. *)
Fixpoint pack (codes : list Z) : Z :=
  match codes with
  | [] => 0
  | c :: codes' => c + 4 * pack codes'
  end.

(** The key section of a list of codes. *)
Fixpoint svb_keys (codes : list Z) : list Z :=
  match codes with
  | a :: b :: c :: d :: codes' => pack [a; b; c; d] :: svb_keys codes'
  | [] => []
  | _ => [pack codes]
  end.

Definition codes_of (vs : list Z) : list Z := map code_of vs.

Definition svb_encoded (vs : list Z) : list Z := svb_keys (codes_of vs) ++ svb_data vs.


(** ** Lemmas on the format *)
Definition is_code (c : Z) : Prop := 0 <= c < 4.

Lemma code_of_range v : is_code (code_of v).
Proof. unfold is_code, code_of. repeat case_match; lia. Qed.

Lemma codes_of_range vs : Forall is_code (codes_of vs).
Proof. apply Forall_fmap, Forall_true. intros; apply code_of_range. Qed.

Lemma length_codes_of vs : length (codes_of vs) = length vs.
Proof. apply length_map. Qed.

Lemma length_bytes_of v : length (bytes_of v) = Z.to_nat (code_of v + 1).
Proof. apply length_le_split. Qed.

Lemma svb_data_cons v vs : svb_data (v :: vs) = bytes_of v ++ svb_data vs.
Proof. reflexivity. Qed.

Lemma svb_data_app vs1 vs2 : svb_data (vs1 ++ vs2) = svb_data vs1 ++ svb_data vs2.
Proof. unfold svb_data. by rewrite map_app, concat_app. Qed.

Lemma length_svb_data_ge vs : (length vs <= length (svb_data vs))%nat.
Proof.
  induction vs as [|v vs IH]; [done|].
  rewrite svb_data_cons, length_app, length_bytes_of.
  pose proof (code_of_range v). unfold is_code in *. simpl. lia.
Qed.

Lemma pack_bound codes :
  Forall is_code codes -> 0 <= pack codes < 4 ^ Z.of_nat (length codes).
Proof.
  induction 1 as [|c codes Hc H IH]; [simpl; lia|].
  cbn [pack length]. rewrite Nat2Z.inj_succ, Z.pow_succ_r by lia.
  unfold is_code in *. lia.
Qed.

Lemma pack_snoc codes c : pack (codes ++ [c]) = pack codes + 4 ^ Z.of_nat (length codes) * c.
Proof.
  induction codes as [|x codes IH]; [simpl; lia|].
  cbn [pack app length]. rewrite IH, Nat2Z.inj_succ, Z.pow_succ_r by lia. lia.
Qed.

(** The key byte [key |= code << shift] of the encoder. *)
Lemma pack_step codes c :
  Forall is_code codes -> is_code c -> (length codes < 4)%nat ->
  u8 (Z.lor (pack codes) (Z.shiftl c (2 * Z.of_nat (length codes)))) = pack (codes ++ [c]).
Proof.
  intros Hcodes Hc Hlen. pose proof (pack_bound codes Hcodes) as Hb.
  assert (Hp : 4 ^ Z.of_nat (length codes) = 2 ^ (2 * Z.of_nat (length codes)))
    by (rewrite Z.pow_mul_r by lia; reflexivity).
  rewrite Hp in Hb. rewrite lor_shiftl, pack_snoc, Hp by lia.
  assert (2 ^ (2 * Z.of_nat (length codes)) <= 2 ^ 6) by (apply Z.pow_le_mono_r; lia).
  assert (0 < 2 ^ (2 * Z.of_nat (length codes))) by (apply Z.pow_pos_nonneg; lia).
  unfold u8, is_code in *. rewrite Z.mod_small by nia. lia.
Qed.

Lemma svb_keys_unfold codes :
  codes <> [] -> svb_keys codes = pack (take 4 codes) :: svb_keys (drop 4 codes).
Proof. destruct codes as [|a [|b [|c [|d codes]]]]; try done; intros; reflexivity. Qed.

Lemma svb_keys_app codes1 codes2 n :
  length codes1 = (4 * n)%nat -> svb_keys (codes1 ++ codes2) = svb_keys codes1 ++ svb_keys codes2.
Proof.
  revert codes1; induction n as [|n IH]; intros codes1 Hlen.
  - destruct codes1; [done|]. simpl in Hlen. lia.
  - destruct codes1 as [|a [|b [|c [|d codes1]]]]; simpl in Hlen; try lia.
    cbn [app svb_keys]. by rewrite IH by lia.
Qed.

Lemma length_svb_keys codes : length (svb_keys codes) = ((length codes + 3) / 4)%nat.
Proof.
  remember (length codes) as n eqn:Hn. revert codes Hn.
  induction (lt_wf n) as [n _ IH]; intros codes Hn.
  destruct codes as [|a [|b [|c [|d codes]]]]; subst; try reflexivity.
  cbn [svb_keys length]. rewrite (IH (length codes)) by (simpl; lia).
  replace (S (S (S (S (length codes)))) + 3)%nat with ((length codes + 3) + 1 * 4)%nat by lia.
  rewrite Nat.div_add by lia. lia.
Qed.

#[global] Arguments svb_keys _ : simpl never.
#[global] Arguments pack _ : simpl never.

(** The mask of a full key byte selects the bytes of its four values. *)
Lemma key_codes_pack a b c d :
  is_code a -> is_code b -> is_code c -> is_code d -> key_codes (pack [a; b; c; d]) = [a; b; c; d].
Proof.
  unfold is_code, key_codes. intros. change 3 with (2 ^ 2 - 1).
  rewrite !land_mod, !Z.shiftr_div_pow2 by lia. unfold pack.
  repeat (apply (f_equal2 cons); [Z.div_mod_to_equations; lia|]). done.
Qed.

(** * The encoder *)

Lemma bind_total {A B} (m : outcome A) (f : A -> outcome B) :
  m <> AssertFail -> (forall a, f a <> AssertFail) -> m ≫= f <> AssertFail.
Proof. destruct m; simpl; auto. Qed.

Lemma encode_data_no_assert val p out : encode_data val p out <> AssertFail.
Proof.
  unfold encode_data, store_le.
  repeat case_match; repeat (apply bind_total; [|intros]);
    auto using store_no_assert, store_range_no_assert; done.
Qed.

Lemma encode_data_Ok val p out r :
  encode_data val p out = Ok r ->
  r.1.2 = (p + length (bytes_of val))%nat /\ length r.2 = length out /\
  (p + length (bytes_of val) <= length out)%nat.
Proof.
  unfold encode_data, store_le. rewrite length_bytes_of. unfold code_of.
  change (Z.shiftl 1 8) with (2 ^ 8); change (Z.shiftl 1 16) with (2 ^ 16);
    change (Z.shiftl 1 24) with (2 ^ 24).
  repeat case_match; intros H'; outcome_inv H'; simpl;
    repeat match goal with
    | E : store _ _ _ = Ok _ |- _ => apply store_Ok in E
    | E : store_range _ _ _ = Ok _ |- _ => apply store_range_Ok in E; [|done]
    end; rewrite ?length_le_split in *; lia.
Qed.

(** A 24-bit value as a 16-bit and an 8-bit store. *)
Lemma le_split_3 val :
  le_split 3 val = le_split 2 (u16 val) ++ [u8 (Z.shiftr val 16)].
Proof.
  cbn [le_split app]. rewrite !Z.shiftr_div_pow2 by lia.
  repeat (apply (f_equal2 cons); [zlia|]). done.
Qed.

Lemma encode_data_ok val pre old post :
  is_u32 val -> length old = length (bytes_of val) ->
  encode_data val (length pre) (pre ++ old ++ post) =
  Ok (code_of val, (length pre + length (bytes_of val))%nat, pre ++ bytes_of val ++ post).
Proof.
  rewrite length_bytes_of. unfold encode_data, bytes_of, code_of, is_u32. intros Hv Hlen.
  change (Z.shiftl 1 8) with (2 ^ 8); change (Z.shiftl 1 16) with (2 ^ 16);
    change (Z.shiftl 1 24) with (2 ^ 24).
  destruct (val <? 2 ^ 8) eqn:E8; [|destruct (val <? 2 ^ 16) eqn:E16;
    [|destruct (val <? 2 ^ 24) eqn:E24]]; simpl in Hlen; simpl Z.to_nat;
    change (Pos.to_nat 1) with 1%nat in *; change (Pos.to_nat 2) with 2%nat in *;
    change (Pos.to_nat 3) with 3%nat in *; change (Pos.to_nat 4) with 4%nat in *.
  - destruct old as [|o [|]]; try discriminate. simpl app at 2. by rewrite store_app.
  - rewrite store_le_app by done.
    unfold u16. rewrite Z.mod_small by lia. done.
  - destruct old as [|o0 [|o1 [|o2 [|]]]]; try discriminate.
    change (pre ++ [o0; o1; o2] ++ post) with (pre ++ [o0; o1] ++ o2 :: post).
    rewrite store_le_app by done. rewrite bind_Ok, app_assoc.
    replace (length pre + 2)%nat with (length (pre ++ le_split 2 (u16 val)))
      by (rewrite length_app, length_le_split; lia).
    rewrite store_app, bind_Ok, <- app_assoc, le_split_3. by rewrite <- app_assoc.
  - rewrite store_le_app by done. done.
Qed.

(** One [encode_data] in the middle of a buffer split at the write positions. *)
Lemma encode_data_at K kf D df v :
  is_u32 v -> (length (bytes_of v) <= length df)%nat ->
  encode_data v (length (K ++ kf ++ D)) (K ++ kf ++ D ++ df) =
  Ok (code_of v, length (K ++ kf ++ D ++ bytes_of v),
      K ++ kf ++ (D ++ bytes_of v) ++ drop (length (bytes_of v)) df).
Proof.
  intros Hv Hdf. rewrite <- (take_drop (length (bytes_of v)) df) at 1.
  replace (K ++ kf ++ D ++ take (length (bytes_of v)) df ++ drop (length (bytes_of v)) df)
    with ((K ++ kf ++ D) ++ take (length (bytes_of v)) df ++ drop (length (bytes_of v)) df)
    by (by rewrite <- !app_assoc).
  rewrite encode_data_ok by (try done; rewrite length_take; lia).
  f_equal. f_equal; [f_equal; rewrite !length_app; lia | by rewrite <- !app_assoc].
Qed.

Lemma shift_step (pend : list Z) c :
  (length pend < 4)%nat ->
  u8 (2 * Z.of_nat (length pend) + 2) = 2 * Z.of_nat (length (pend ++ [c])).
Proof. intros. rewrite length_app. simpl. zlia. Qed.

(** A full pending key byte comes first in the key section. *)
Lemma svb_keys_full pend codes :
  length pend = 4%nat -> svb_keys (pend ++ codes) = pack pend :: svb_keys codes.
Proof. intros H. by destruct pend as [|a [|b [|c [|d [|]]]]]. Qed.

(** The loop and the final key store, from a state where the codes [pend] are
    pending in [key] and the buffer is split at the two write positions. *)
Lemma encode_loop_ok vs inp c pend K kf D df :
  at_off inp c vs -> Forall is_u32 vs -> Forall is_code pend -> (length pend <= 4)%nat ->
  pend ++ codes_of vs <> [] ->
  length kf = length (svb_keys (pend ++ codes_of vs)) ->
  (length (svb_data vs) <= length df)%nat ->
  ('(key, keyPtr, dataPtr, out) ←
     svb_encode_scalar_loop (length vs) c inp (2 * Z.of_nat (length pend)) (pack pend)
       (length K) (length (K ++ kf ++ D)) (K ++ kf ++ D ++ df);
   out ← store out keyPtr key; Ok (dataPtr, out)) =
  Ok (length (K ++ kf ++ D ++ svb_data vs),
      K ++ svb_keys (pend ++ codes_of vs) ++ D ++ svb_data vs ++ drop (length (svb_data vs)) df).
Proof.
  revert c pend K kf D df.
  induction vs as [|v vs IH]; intros c pend K kf D df Hin Hvs Hpend Hlen Hne Hkf Hdf.
  - cbn [codes_of map svb_data concat length] in *. rewrite !app_nil_r in *.
    assert (Hk : svb_keys pend = [pack pend]).
    { rewrite svb_keys_unfold, take_ge, drop_ge by (done || lia). done. }
    rewrite Hk in *. destruct kf as [|k [|]]; try discriminate.
    simpl. by rewrite store_app.
  - apply Forall_cons_1 in Hvs as [Hv Hvs].
    rewrite svb_data_cons, length_app in Hdf.
    assert (Hcode := code_of_range v).
    change (codes_of (v :: vs)) with (code_of v :: codes_of vs) in *.
    cbn [length svb_encode_scalar_loop]. rewrite (at_off_load _ _ _ _ Hin).
    apply at_off_tail in Hin.
    destruct (decide (length pend = 4%nat)) as [H4|H4].
    + rewrite (svb_keys_full pend) in * by done. rewrite H4.
      destruct kf as [|k kf]; [discriminate|].
      change (2 * Z.of_nat 4 =? 8) with true. cbv iota.
      cbn [app]. rewrite store_app, !bind_Ok.
      replace (K ++ pack pend :: kf ++ D ++ df)
        with ((K ++ [pack pend]) ++ kf ++ D ++ df) by (by rewrite <- !app_assoc).
      replace (length (K ++ k :: kf ++ D)) with (length ((K ++ [pack pend]) ++ kf ++ D))
        by (rewrite !length_app; simpl; rewrite !length_app; lia).
      replace (S (length K)) with (length (K ++ [pack pend])) by (rewrite length_app; simpl; lia).
      rewrite encode_data_at, bind_Ok by (done || lia). cbv zeta.
      rewrite (pack_step []) by (done || simpl; lia).
      change (u8 (0 + 2)) with (2 * Z.of_nat (length ([] ++ [code_of v]))).
      rewrite IH; try done; simpl in *; try lia.
      * rewrite svb_data_cons, drop_drop, !length_app, <- !app_assoc.
        f_equal; f_equal; simpl; rewrite ?length_app; lia || done.
      * by constructor.
      * rewrite length_drop. lia.
    + replace (2 * Z.of_nat (length pend) =? 8) with false by (symmetry; apply Z.eqb_neq; lia).
      cbv iota. rewrite !bind_Ok, encode_data_at, bind_Ok by (done || lia). cbv zeta.
      rewrite pack_step, (shift_step _ (code_of v)) by (done || lia).
      change (code_of v :: codes_of vs) with ([code_of v] ++ codes_of vs) in *.
      rewrite (app_assoc pend) in *.
      rewrite IH; try done.
      * rewrite svb_data_cons, drop_drop, !length_app, <- !app_assoc.
        f_equal; f_equal; simpl; rewrite ?length_app; lia || done.
      * apply Forall_app; split; [done|]. by apply Forall_singleton.
      * rewrite length_app. simpl. lia.
      * rewrite length_drop. lia.
Qed.

(** A buffer that is too short for the data section is overrun. *)
Lemma encode_loop_overrun vs inp c shift key keyPtr dataPtr out :
  at_off inp c vs -> vs <> [] ->
  (length out < dataPtr + length (svb_data vs))%nat ->
  svb_encode_scalar_loop (length vs) c inp shift key keyPtr dataPtr out = Undef.
Proof.
  revert c shift key keyPtr dataPtr out.
  induction vs as [|v vs IH]; intros c shift key keyPtr dataPtr out Hin Hne Hlen; [done|].
  cbn [length svb_encode_scalar_loop]. rewrite (at_off_load _ _ _ _ Hin).
  apply at_off_tail in Hin. rewrite svb_data_cons, length_app in Hlen.
  assert (Hbody : forall shift key keyPtr (o : list Z), length o = length out ->
    ('(code, dataPtr, o) ← encode_data v dataPtr o;
     let key := u8 (Z.lor key (Z.shiftl code shift)) in
     svb_encode_scalar_loop (length vs) (S c) inp (u8 (shift + 2)) key keyPtr dataPtr o) = Undef).
  { intros s k kp o Ho. pose proof (encode_data_no_assert v dataPtr o).
    destruct (encode_data v dataPtr o) as [[[code p] o']| |] eqn:E; [|done|done].
    apply encode_data_Ok in E as (Hp & Ho' & Hb). simpl in Hp, Ho'. rewrite bind_Ok. cbv zeta.
    destruct vs as [|v' vs]; [cbn in Hlen; lia|].
    apply IH; [done|done|lia]. }
  destruct (shift =? 8).
  - destruct (store out keyPtr key) as [o| |] eqn:E; [|done|by apply store_no_assert in E].
    apply length_store in E. rewrite !bind_Ok. by apply Hbody.
  - rewrite !bind_Ok. by apply Hbody.
Qed.

Lemma length_svb_encoded vs :
  length (svb_encoded vs) = ((length vs + 3) / 4 + length (svb_data vs))%nat.
Proof. unfold svb_encoded, codes_of. by rewrite length_app, length_svb_keys, length_map. Qed.

(** The number of key bytes the code computes in 32-bit arithmetic. *)
Lemma keyLen_eq (n : nat) :
  Z.of_nat n + 3 < 2 ^ 32 -> Z.to_nat (u32 (Z.of_nat n + 3) / 4) = ((n + 3) / 4)%nat.
Proof.
  intros H. unfold u32. rewrite Z.mod_small by lia.
  rewrite <- (Nat2Z.id ((n + 3) / 4)), Nat2Z.inj_div. do 2 f_equal. lia.
Qed.

Lemma streamvbyte_encode_ok (vs out : list Z)
  (Hvs : Forall is_u32 vs) (Hlen : Z.of_nat (length vs) + 3 < 2 ^ 32) :
  streamvbyte_encode vs (Z.of_nat (length vs)) out =
  if decide (length (svb_encoded vs) <= length out)%nat
  then Ok (length (svb_encoded vs), svb_encoded vs ++ drop (length (svb_encoded vs)) out)
  else Undef.
Proof.
  unfold streamvbyte_encode, svb_encode_scalar.
  rewrite keyLen_eq, Nat2Z.id by done. pose proof (length_svb_encoded vs) as Hl.
  destruct (decide (vs = [])) as [->|Hne]; [by rewrite decide_True by (rewrite Hl; cbn; lia)|].
  replace (Z.of_nat (length vs) =? 0) with false
    by (symmetry; apply Z.eqb_neq; destruct vs; [done|simpl; lia]).
  case_decide as Hfit.
  - set (k := ((length vs + 3) / 4)%nat) in *.
    rewrite <- (take_drop k out) at 1.
    assert (Hk : length (take k out) = k) by (rewrite length_take; lia).
    pose proof (encode_loop_ok vs vs 0 [] [] (take k out) [] (drop k out)) as H.
    simpl in H. rewrite app_nil_r, Hk in H.
    change (2 * Z.of_nat 0) with 0 in H. change (pack []) with 0 in H.
    cbv iota. rewrite H; try done.
    + rewrite Hl, length_app, Hk, drop_drop. unfold svb_encoded. by rewrite <- app_assoc.
    + apply at_off_refl.
    + lia.
    + by destruct vs.
    + unfold codes_of. by rewrite length_svb_keys, length_map.
    + rewrite length_drop. lia.
  - rewrite encode_loop_overrun; [done|apply at_off_refl|done|lia].
Qed.

(** * The scalar decoder *)

Lemma bytes_of_value v : is_u32 v -> le_combine (bytes_of v) = v.
Proof.
  unfold bytes_of, code_of, is_u32. intros Hv. rewrite le_combine_split.
  repeat case_match; rewrite Z2Nat.id by lia; simpl Z.mul; rewrite Z.mod_small; lia.
Qed.

Lemma decode_data_ok inb dataPtr v :
  is_u32 v -> at_off inb dataPtr (bytes_of v) ->
  decode_data inb dataPtr (code_of v) = Ok (v, (dataPtr + length (bytes_of v))%nat).
Proof.
  intros Hv Hat. pose proof (bytes_of_value v Hv) as Hval.
  pose proof (le_split_bytes (Z.to_nat (code_of v + 1)) v) as Hb.
  fold (bytes_of v) in Hb. pose proof (length_bytes_of v) as Hl.
  pose proof (code_of_range v) as Hc. unfold decode_data, is_code in *.
  rewrite Hl. assert (code_of v = 0 \/ code_of v = 1 \/ code_of v = 2 \/ code_of v = 3)
    as [E|[E|[E|E]]] by lia; rewrite E in Hl |- *;
    destruct (bytes_of v) as [|b0 [|b1 [|b2 [|b3 [|]]]]]; try discriminate; simpl Z.eqb; cbv iota.
  - rewrite (at_off_load _ _ _ _ Hat). simpl in *. do 3 f_equal. lia.
  - rewrite (at_off_load_le 2 _ _ _ Hat) by done. by rewrite Hval.
  - apply (at_off_app _ _ [b0; b1] [b2]) in Hat as [H2 H1].
    rewrite (at_off_load_le 2 _ _ _ H2), bind_Ok by done.
    change (length [b0; b1]) with 2%nat in H1.
    rewrite (at_off_load _ _ _ _ H1), bind_Ok.
    rewrite !list.Forall_cons in Hb.
    destruct Hb as (?&?&?&_).
    unfold is_u8 in *. rewrite lor_shiftl by (cbn [le_combine]; lia).
    simpl in Hval |- *. do 3 f_equal. lia.
  - rewrite (at_off_load_le 4 _ _ _ Hat) by done. by rewrite Hval.
Qed.

(** Reading the next code of a key byte. *)
Lemma pack_next key shift c codes :
  0 <= shift -> is_code c -> Z.shiftr key shift = pack (c :: codes) ->
  Z.land (Z.shiftr key shift) 3 = c /\ Z.shiftr key (shift + 2) = pack codes.
Proof.
  intros Hs Hc Hk. rewrite <- Z.shiftr_shiftr, Hk by lia. unfold is_code in Hc.
  change (Z.land (pack (c :: codes)) (2 ^ 2 - 1) = c /\ Z.shiftr (pack (c :: codes)) 2 = pack codes).
  rewrite land_mod, Z.shiftr_div_pow2 by lia.
  change (pack (c :: codes)) with (c + 4 * pack codes).
  split; Z.div_mod_to_equations; lia.
Qed.

(** The scalar decoder is about to read the values [vs]: the codes [cur] are left
    in the current key byte, [rest] in the following ones. *)
Definition stream_at (inb : list Z) (shift key : Z) (keyPtr dataPtr : nat) (vs : list Z) : Prop :=
  exists cur rest, codes_of vs = cur ++ rest /\ Forall is_u32 vs /\ 0 <= shift /\
    shift + 2 * Z.of_nat (length cur) <= 8 /\
    (rest <> [] -> shift + 2 * Z.of_nat (length cur) = 8) /\
    Z.shiftr key shift = pack cur /\
    at_off inb keyPtr (svb_keys rest) /\ at_off inb dataPtr (svb_data vs).

(** The first step of the loop body: fetch the next key byte if needed. *)
Definition next_key (inb : list Z) (shift key : Z) (keyPtr : nat) : outcome (Z * Z * nat) :=
  if shift =? 8 then key ← load inb keyPtr; Ok (0, key, S keyPtr) else Ok (shift, key, keyPtr).

Lemma drop_nonempty {A} n (l : list A) : drop n l <> [] -> (n < length l)%nat.
Proof.
  intros H. destruct (decide (n < length l)%nat); [done|]. by rewrite drop_ge in H by lia.
Qed.

(** A key byte just loaded serves the next four values. *)
Lemma stream_at_load inb keyPtr dataPtr vs :
  vs <> [] -> Forall is_u32 vs -> at_off inb keyPtr (svb_keys (codes_of vs)) ->
  at_off inb dataPtr (svb_data vs) ->
  exists key, load inb keyPtr = Ok key /\ stream_at inb 0 key (S keyPtr) dataPtr vs.
Proof.
  intros Hne Hvs Hk Hd. rewrite svb_keys_unfold in Hk by (by destruct vs).
  eexists. split; [by eapply at_off_load|].
  exists (take 4 (codes_of vs)), (drop 4 (codes_of vs)).
  rewrite take_drop, length_take. split_and!; try done; try lia.
  - intros Hr%drop_nonempty. lia.
  - by apply at_off_tail in Hk.
Qed.

Lemma stream_at_step inb shift key keyPtr dataPtr v vs :
  stream_at inb shift key keyPtr dataPtr (v :: vs) ->
  exists shift' key' keyPtr',
    next_key inb shift key keyPtr = Ok (shift', key', keyPtr') /\
    decode_data inb dataPtr (Z.land (Z.shiftr key' shift') 3) =
      Ok (v, (dataPtr + length (bytes_of v))%nat) /\
    stream_at inb (u8 (shift' + 2)) key' keyPtr' (dataPtr + length (bytes_of v)) vs.
Proof.
  assert (Hbody : forall shift key keyPtr cur rest,
    codes_of (v :: vs) = code_of v :: cur ++ rest -> Forall is_u32 (v :: vs) -> 0 <= shift ->
    shift + 2 * Z.of_nat (S (length cur)) <= 8 ->
    (rest <> [] -> shift + 2 * Z.of_nat (S (length cur)) = 8) ->
    Z.shiftr key shift = pack (code_of v :: cur) -> at_off inb keyPtr (svb_keys rest) ->
    at_off inb dataPtr (svb_data (v :: vs)) ->
    decode_data inb dataPtr (Z.land (Z.shiftr key shift) 3) =
      Ok (v, (dataPtr + length (bytes_of v))%nat) /\
    stream_at inb (u8 (shift + 2)) key keyPtr (dataPtr + length (bytes_of v)) vs).
  { intros s k kp cur rest [= Hcodes] Hvs Hs Hs8 Hrest Hkey Hk Hd.
    apply Forall_cons_1 in Hvs as [Hv Hvs]. rewrite svb_data_cons in Hd.
    apply at_off_app in Hd as [Hd1 Hd2].
    apply pack_next in Hkey as [-> Hnext]; [|done|apply code_of_range].
    split; [by apply decode_data_ok|]. exists cur, rest.
    unfold u8. rewrite Z.mod_small by lia. split_and!; try done; try lia.
    intros Hr. specialize (Hrest Hr). lia. }
  intros (cur & rest & Hcodes & Hvs & Hs & Hs8 & Hrest & Hkey & Hk & Hd). unfold next_key.
  destruct cur as [|c cur].
  - simpl in Hcodes. subst rest. simpl length in *.
    rewrite Z.mul_0_r, Z.add_0_r in *. rewrite (Hrest ltac:(done)), Z.eqb_refl.
    destruct (stream_at_load inb keyPtr dataPtr (v :: vs)) as (k & Hl & cur & rest & H); [done..|].
    rewrite Hl. do 3 eexists. split; [reflexivity|].
    destruct H as (Hc & _ & _ & H8 & Hr & Hk0 & Hk1 & _).
    destruct cur as [|c cur]; [exfalso; simpl in *; subst; specialize (Hr ltac:(done)); lia|].
    injection Hc as <- Hc. apply (Hbody _ _ _ cur rest); try done. by rewrite <- Hc.
  - injection Hcodes as <- Hcodes. simpl length in *.
    replace (shift =? 8) with false by (symmetry; apply Z.eqb_neq; lia).
    do 3 eexists. split; [reflexivity|].
    apply (Hbody _ _ _ cur rest); try done. by rewrite <- Hcodes.
Qed.

Lemma decode_loop_ok vs inb shift key keyPtr dataPtr O old post :
  stream_at inb shift key keyPtr dataPtr vs -> length old = length vs ->
  svb_decode_scalar_loop (length vs) inb shift key keyPtr dataPtr (length O) (O ++ old ++ post) =
  Ok ((dataPtr + length (svb_data vs))%nat, O ++ vs ++ post).
Proof.
  revert shift key keyPtr dataPtr O old.
  induction vs as [|v vs IH]; intros shift key keyPtr dataPtr O old Hat Hold;
    destruct old as [|o old]; simplify_eq/=; [by rewrite Nat.add_0_r|].
  apply stream_at_step in Hat as (s & k & kp & Hn & Hdd & Hat).
  fold (next_key inb shift key keyPtr). rewrite Hn, bind_Ok, Hdd, bind_Ok, store_app, bind_Ok.
  replace (O ++ v :: old ++ post) with ((O ++ [v]) ++ old ++ post) by (by rewrite <- app_assoc).
  replace (S (length O)) with (length (O ++ [v])) by (rewrite length_app; simpl; lia).
  rewrite IH by done. rewrite svb_data_cons, length_app, <- app_assoc, Nat.add_assoc. done.
Qed.

Lemma svb_decode_scalar_ok vs inb keyPtr dataPtr O old post :
  Forall is_u32 vs -> at_off inb keyPtr (svb_keys (codes_of vs)) ->
  at_off inb dataPtr (svb_data vs) -> length old = length vs ->
  svb_decode_scalar inb (length O) keyPtr dataPtr (Z.of_nat (length vs)) (O ++ old ++ post) =
  Ok ((dataPtr + length (svb_data vs))%nat, O ++ vs ++ post).
Proof.
  intros Hvs Hk Hd Hold. unfold svb_decode_scalar. rewrite Nat2Z.id.
  destruct (decide (vs = [])) as [->|Hne].
  - destruct old; [|done]. simpl. by rewrite Nat.add_0_r.
  - replace (Z.of_nat (length vs) =? 0) with false
      by (symmetry; apply Z.eqb_neq; destruct vs; [done|simpl; lia]).
    destruct (stream_at_load inb keyPtr dataPtr vs) as (key & -> & Hat); [done..|].
    rewrite bind_Ok. by apply decode_loop_ok.
Qed.

(** * The SSE decoder *)

Lemma le_split_4_bytes v :
  is_u32 v -> le_split 4 v = bytes_of v ++ replicate (Z.to_nat (3 - code_of v)) 0.
Proof.
  intros Hv. pose proof (code_of_range v) as Hc. unfold is_code in Hc.
  replace 4%nat with (Z.to_nat (code_of v + 1) + Z.to_nat (3 - code_of v))%nat by lia.
  rewrite le_split_app, <- le_split_0. unfold bytes_of. f_equal. f_equal.
  rewrite Z.shiftr_div_pow2, Z2Nat.id by lia. apply Z.div_small.
  unfold code_of, is_u32 in *. repeat case_match; simpl Z.mul; lia.
Qed.

(** Selecting the bytes of one value. *)
Lemma shuffle_lane Data off v :
  is_u32 v -> at_off Data off (bytes_of v) -> (off + length (bytes_of v) <= 16)%nat ->
  mm_shuffle_epi8 Data (lane_mask (Z.of_nat off) (code_of v)) = le_split 4 v.
Proof.
  intros Hv Hat Hoff. rewrite le_split_4_bytes by done.
  pose proof (length_bytes_of v) as Hl. pose proof (code_of_range v) as Hc. unfold is_code in Hc.
  assert (Hsel : forall i b, bytes_of v !! i = Some b ->
    (if Z.testbit (Z.of_nat off + Z.of_nat i) 7 then 0
     else Data !!! Z.to_nat (Z.land (Z.of_nat off + Z.of_nat i) 15)) = b).
  { intros i b Hb. pose proof (lookup_lt_Some _ _ _ Hb).
    change 15 with (2 ^ 4 - 1). rewrite land_mod, Z.mod_small by lia.
    replace (Z.testbit (Z.of_nat off + Z.of_nat i) 7) with false
      by (symmetry; apply Z.testbit_false; [lia|]; by rewrite Z.div_small by lia).
    replace (Z.to_nat (Z.of_nat off + Z.of_nat i)) with (off + i)%nat by lia.
    by apply list_lookup_total_correct, (at_off_lookup _ _ _ _ _ Hat). }
  unfold mm_shuffle_epi8, lane_mask.
  assert (code_of v = 0 \/ code_of v = 1 \/ code_of v = 2 \/ code_of v = 3)
    as [E|[E|[E|E]]] by lia; rewrite E in *; clear Hat;
    destruct (bytes_of v) as [|b0 [|b1 [|b2 [|b3 [|]]]]]; try discriminate;
    pose proof (Hsel 0%nat _ eq_refl); try pose proof (Hsel 1%nat _ eq_refl);
    try pose proof (Hsel 2%nat _ eq_refl); try pose proof (Hsel 3%nat _ eq_refl); clear Hsel;
    cbn -[Z.testbit Z.land Z.of_nat Z.add] in *; simpl Z.of_nat in *;
    repeat (apply (f_equal2 cons); [try assumption; reflexivity|]); done.
Qed.

Lemma shuffle_codes vs Data off :
  Forall is_u32 vs -> at_off Data off (svb_data vs) -> (off + length (svb_data vs) <= 16)%nat ->
  mm_shuffle_epi8 Data (codes_mask (Z.of_nat off) (codes_of vs)) = of_lanes 4 vs.
Proof.
  revert off; induction vs as [|v vs IH]; intros off Hvs Hat Hoff; [done|].
  apply Forall_cons_1 in Hvs as [Hv Hvs]. rewrite svb_data_cons in *.
  apply at_off_app in Hat as [Hat1 Hat2]. rewrite length_app in Hoff.
  cbn [codes_of map codes_mask]. unfold mm_shuffle_epi8. rewrite map_app.
  fold (mm_shuffle_epi8 Data (lane_mask (Z.of_nat off) (code_of v))).
  rewrite shuffle_lane by (done || lia). unfold of_lanes. cbn [map concat]. f_equal.
  pose proof (length_bytes_of v) as Hl. pose proof (code_of_range v) as Hc. unfold is_code in Hc.
  replace (Z.of_nat off + (code_of v + 1)) with (Z.of_nat (off + length (bytes_of v))) by lia.
  apply IH; [done|done|lia].
Qed.

Lemma codes_len_data vs : codes_len (codes_of vs) = Z.of_nat (length (svb_data vs)).
Proof.
  induction vs as [|v vs IH]; [done|].
  cbn [codes_of map codes_len]. unfold codes_of in IH. rewrite IH, svb_data_cons, length_app, length_bytes_of.
  pose proof (code_of_range v) as Hc. unfold is_code in Hc. lia.
Qed.

Lemma length_svb_data_le vs : (length (svb_data vs) <= 4 * length vs)%nat.
Proof.
  induction vs as [|v vs IH]; [done|].
  rewrite svb_data_cons, length_app, length_bytes_of.
  pose proof (code_of_range v) as Hc. unfold is_code in Hc. simpl length. lia.
Qed.

(** [decode_avx] on the key byte of four values. *)
Lemma decode_avx_ok vs inb dataPtr :
  length vs = 4%nat -> Forall is_u32 vs -> at_off inb dataPtr (svb_data vs) ->
  (dataPtr + 16 <= length inb)%nat ->
  decode_avx (pack (codes_of vs)) inb dataPtr =
  Ok (of_lanes 4 vs, (dataPtr + length (svb_data vs))%nat).
Proof.
  intros Hlen Hvs Hat Hsl. pose proof (codes_of_range vs) as Hc.
  assert (Hkc : key_codes (pack (codes_of vs)) = codes_of vs).
  { destruct vs as [|a [|b [|c [|d [|]]]]]; try discriminate.
    apply key_codes_pack; apply code_of_range. }
  pose proof (pack_bound _ Hc) as Hp. rewrite length_codes_of, Hlen in Hp. change (4 ^ Z.of_nat 4) with 256 in Hp.
  unfold decode_avx, load. rewrite lengthTable_lookup, shuffleTable_lookup, Hkc by lia.
  unfold mm_loadu_si128. destruct (load_range_lt _ _ _ Hsl) as (Data & HD & HDl).
  rewrite HD. cbn [of_option]. rewrite !bind_Ok, codes_len_data, Nat2Z.id.
  pose proof (length_svb_data_le vs).
  do 2 f_equal. apply (shuffle_codes vs Data 0); [done| |lia].
  eapply at_off_of_range; [done|done|lia].
Qed.

Lemma write_avx_ok O old post vs :
  length vs = 4%nat -> length old = 4%nat -> Forall is_u32 vs ->
  write_avx (O ++ old ++ post) (length O) (of_lanes 4 vs) = Ok (O ++ vs ++ post).
Proof.
  intros Hlen Hold Hvs. destruct vs as [|a [|b [|c [|d [|]]]]]; try discriminate.
  unfold write_avx, mm_storeu_si128. rewrite lanes32_of_lanes.
  rewrite !list.Forall_cons in Hvs. unfold is_u32 in Hvs.
  unfold u32. rewrite !Z.mod_small by lia. by apply store_range_app.
Qed.

(** The eight unrolled steps of a block, one per key byte. *)
Fixpoint avx_quads (ks inb : list Z) (dataPtr p : nat) (out : list Z) : outcome (nat * list Z) :=
  match ks with
  | [] => Ok (dataPtr, out)
  | k :: ks' =>
      '(Data, dataPtr) ← decode_avx k inb dataPtr;
      out ← write_avx out p Data;
      avx_quads ks' inb dataPtr (p + 4)%nat out
  end.

(** The masks and shifts that take the key bytes out of a 64-bit word. *)
Lemma key_byte_lo b0 r : is_u8 b0 -> Z.land (b0 + 2 ^ 8 * r) 255 = b0.
Proof. intros Hb. change 255 with (2 ^ 8 - 1). rewrite land_mod by lia. zlia. Qed.

Lemma key_byte_hi b0 b1 r :
  is_u8 b0 -> is_u8 b1 -> Z.shiftr (Z.land (b0 + 2 ^ 8 * (b1 + 2 ^ 8 * r)) 65280) 8 = b1.
Proof.
  intros H0 H1. rewrite Z.shiftr_land. change (Z.shiftr 65280 8) with (2 ^ 8 - 1).
  rewrite land_mod, Z.shiftr_div_pow2 by lia. zlia.
Qed.

Lemma key_bytes_shift b0 b1 r :
  is_u8 b0 -> is_u8 b1 -> Z.shiftr (b0 + 2 ^ 8 * (b1 + 2 ^ 8 * r)) 16 = r.
Proof. intros H0 H1. rewrite Z.shiftr_div_pow2 by lia. zlia. Qed.

Lemma svb_avx_block_quads ks inb dataPtr p out :
  length ks = 8%nat -> Forall is_u8 ks ->
  svb_avx_block (le_combine ks) inb dataPtr p out = avx_quads ks inb dataPtr p out.
Proof.
  intros Hlen Hks. destruct ks as [|k0 [|k1 [|k2 [|k3 [|k4 [|k5 [|k6 [|k7 [|]]]]]]]]]; try discriminate.
  rewrite !list.Forall_cons in Hks. destruct Hks as (?&?&?&?&?&?&?&?&_).
  unfold svb_avx_block. cbn [le_combine avx_quads]. cbv zeta.
  rewrite !key_bytes_shift, !key_byte_lo, !key_byte_hi by done.
  by rewrite <- !Nat.add_assoc.
Qed.

Lemma svb_keys_bytes codes : Forall is_code codes -> Forall is_u8 (svb_keys codes).
Proof.
  remember (length codes) as n eqn:Hn. revert codes Hn.
  induction (lt_wf n) as [n _ IH]; intros codes Hn Hc.
  destruct (decide (codes = [])) as [->|Hne]; [by constructor|].
  rewrite svb_keys_unfold by done. constructor.
  - pose proof (pack_bound (take 4 codes) (Forall_take _ _ _ Hc)) as Hp.
    assert (4 ^ Z.of_nat (length (take 4 codes)) <= 4 ^ 4)
      by (apply Z.pow_le_mono_r; rewrite ?length_take; lia).
    unfold is_u8. lia.
  - eapply IH; [|reflexivity|by apply Forall_drop].
    subst n. rewrite length_drop. destruct codes; [done|simpl; lia].
Qed.

Lemma svb_keys_split vs ws n :
  length vs = (4 * n)%nat ->
  svb_keys (codes_of (vs ++ ws)) = svb_keys (codes_of vs) ++ svb_keys (codes_of ws).
Proof.
  intros H. unfold codes_of. rewrite map_app. apply (svb_keys_app _ _ n).
  by rewrite length_map.
Qed.

Lemma length_svb_keys_codes vs n : length vs = (4 * n)%nat -> length (svb_keys (codes_of vs)) = n.
Proof.
  intros H. rewrite length_svb_keys, length_codes_of, H.
  rewrite Nat.mul_comm, Nat.add_comm, Nat.div_add by lia. done.
Qed.

(** Split off the first [k] elements of a list known to be long enough. *)
Lemma split_at {A} (l : list A) k :
  (k <= length l)%nat -> exists l1 l2, l = l1 ++ l2 /\ length l1 = k.
Proof. intros H. exists (take k l), (drop k l). rewrite take_drop, length_take. split; [done|lia]. Qed.

Lemma avx_quads_ok n vs inb dataPtr O old post :
  length vs = (4 * n)%nat -> Forall is_u32 vs -> at_off inb dataPtr (svb_data vs) ->
  (dataPtr + length (svb_data vs) + 12 <= length inb)%nat -> length old = length vs ->
  avx_quads (svb_keys (codes_of vs)) inb dataPtr (length O) (O ++ old ++ post) =
  Ok ((dataPtr + length (svb_data vs))%nat, O ++ vs ++ post).
Proof.
  revert vs dataPtr O old; induction n as [|n IH]; intros vs dataPtr O old Hn Hvs Hat Hsl Hold.
  - destruct vs; [|done]. destruct old; [|done]. cbn. by rewrite Nat.add_0_r.
  - destruct (split_at vs 4) as (q & vs' & -> & Hq); [lia|].
    destruct (split_at old 4) as (oq & old' & -> & Hoq); [lia|].
    rewrite !length_app in *. apply Forall_app in Hvs as [Hvq Hvs].
    rewrite svb_data_app in *. rewrite length_app in *. apply at_off_app in Hat as [Hat1 Hat2].
    pose proof (length_svb_data_ge q).
    rewrite (svb_keys_split q vs' 1) by lia.
    rewrite (svb_keys_unfold (codes_of q)) by (by destruct q).
    rewrite take_ge, drop_ge by (rewrite length_codes_of; lia). cbn [app].
    change (svb_keys []) with (@nil Z). cbn [app avx_quads].
    rewrite decode_avx_ok, bind_Ok by (done || lia).
    rewrite <- (app_assoc oq), write_avx_ok, bind_Ok by done.
    rewrite (app_assoc O). replace (length O + 4)%nat with (length (O ++ q)) by (rewrite length_app; lia).
    rewrite IH by (done || lia). by rewrite <- !app_assoc, Nat.add_assoc.
Qed.

Lemma svb_avx_block_ok vs inb dataPtr O old post :
  length vs = 32%nat -> Forall is_u32 vs -> at_off inb dataPtr (svb_data vs) ->
  (dataPtr + length (svb_data vs) + 12 <= length inb)%nat -> length old = length vs ->
  svb_avx_block (le_combine (svb_keys (codes_of vs))) inb dataPtr (length O) (O ++ old ++ post) =
  Ok ((dataPtr + length (svb_data vs))%nat, O ++ vs ++ post).
Proof.
  intros Hlen Hvs Hat Hsl Hold.
  rewrite svb_avx_block_quads by (by apply length_svb_keys_codes ||
    apply svb_keys_bytes, codes_of_range).
  by apply (avx_quads_ok 8).
Qed.

(** [n] blocks; the keys of the block after them are left in [nextkeys]. *)
Lemma svb_decode_avx_loop_ok n vs w inb kp dataPtr O old post :
  length vs = (32 * n)%nat -> length w = 32%nat -> Forall is_u32 vs ->
  at_off inb kp (svb_keys (codes_of (vs ++ w))) -> at_off inb dataPtr (svb_data vs) ->
  (dataPtr + length (svb_data vs) + 12 <= length inb)%nat -> length old = length vs ->
  svb_decode_avx_loop n inb (Z.of_nat kp + 8 * Z.of_nat n)
    (le_combine (take 8 (svb_keys (codes_of (vs ++ w))))) dataPtr (length O) (O ++ old ++ post) =
  Ok (le_combine (svb_keys (codes_of w)), (dataPtr + length (svb_data vs))%nat,
      length (O ++ vs), O ++ vs ++ post).
Proof.
  revert vs kp dataPtr O old; induction n as [|n IH];
    intros vs kp dataPtr O old Hn Hw Hvs Hk Hat Hsl Hold.
  - destruct vs; [|done]. destruct old; [|done]. cbn [app].
    rewrite take_ge, app_nil_r by (rewrite (length_svb_keys_codes w 8); lia).
    cbn. by rewrite Nat.add_0_r.
  - destruct (split_at vs 32) as (b & vs' & -> & Hb); [lia|].
    destruct (split_at old 32) as (ob & old' & -> & Hob); [lia|].
    rewrite !length_app in *. apply Forall_app in Hvs as [Hvb Hvs].
    rewrite svb_data_app in *. rewrite length_app in *. apply at_off_app in Hat as [Hat1 Hat2].
    rewrite <- app_assoc in *. rewrite (svb_keys_split b (vs' ++ w) 8) in * by lia.
    assert (Hkb := length_svb_keys_codes b 8 Hb).
    apply at_off_app in Hk as [_ Hk]. rewrite Hkb in Hk.
    rewrite (take_app_length' _ _ 8) by done.
    cbn [svb_decode_avx_loop].
    replace (Z.to_nat (Z.of_nat kp + 8 * Z.of_nat (S n) + 8 * (- Z.of_nat (S n) + 1)))
      with (kp + 8)%nat by lia.
    assert (Hk' := Hk). rewrite <- (take_drop 8 (svb_keys _)) in Hk'.
    apply at_off_weaken in Hk'.
    rewrite (at_off_load_le 8 _ _ _ Hk'), bind_Ok.
    2: { rewrite length_take, (length_svb_keys_codes _ (8 * (n + 1))) by (rewrite length_app; lia). lia. }
    rewrite <- (app_assoc ob), svb_avx_block_ok, bind_Ok by (done || lia).
    rewrite (app_assoc O). replace (length O + 32)%nat with (length (O ++ b)) by (rewrite length_app; lia).
    replace (Z.of_nat kp + 8 * Z.of_nat (S n)) with (Z.of_nat (kp + 8) + 8 * Z.of_nat n) by lia.
    rewrite IH by (done || lia). by rewrite !length_app, <- !app_assoc, !Nat.add_assoc.
Qed.

(** [count & 31] and the number of blocks of 32. *)
Lemma count_blocks (n : nat) :
  Z.land (Z.of_nat n) 31 = Z.of_nat (n mod 32) /\
  Z.of_nat n / 4 - Z.land (Z.of_nat n / 4) 7 = 8 * Z.of_nat (n / 32) /\
  (8 <= Z.of_nat n / 4 -> Z.quot (- (Z.of_nat n / 4)) 8 + 1 = 1 - Z.of_nat (n / 32)).
Proof.
  change 31 with (2 ^ 5 - 1). change 7 with (2 ^ 3 - 1).
  rewrite !land_mod, Nat2Z.inj_mod, Nat2Z.inj_div by lia. split_and!.
  - done.
  - zlia.
  - intros H. rewrite Z.quot_opp_l, Z.quot_div_nonneg by lia. zlia.
Qed.

(** The slack that the 16-byte loads of the last full block need. *)
Definition avx_slack (n : nat) : nat := if decide (32 <= n)%nat then 12%nat else 0%nat.

(** All blocks: [nb] of them, the last one outside of the loop. *)
Lemma svb_avx_blocks_ok nb vs inb keyPtr dataPtr old post :
  length vs = (32 * S nb)%nat -> Forall is_u32 vs -> at_off inb keyPtr (svb_keys (codes_of vs)) ->
  at_off inb dataPtr (svb_data vs) ->
  (dataPtr + length (svb_data vs) + 12 <= length inb)%nat -> length old = length vs ->
  (let Offset := - Z.of_nat nb in
   let key64 := Z.of_nat keyPtr - 8 * Offset in
   nextkeys ← load_le 8 inb (Z.to_nat (key64 + 8 * Offset));
   '(nextkeys, dataPtr, p, out) ←
     svb_decode_avx_loop (Z.to_nat (- Offset)) inb key64 nextkeys dataPtr 0 (old ++ post);
   '(dataPtr, out) ← svb_avx_block nextkeys inb dataPtr p out;
   Ok (dataPtr, (p + 32)%nat, out)) =
  Ok ((dataPtr + length (svb_data vs))%nat, length vs, vs ++ post).
Proof.
  intros Hlen Hvs Hk Hd Hsl Hold. cbv zeta.
  destruct (split_at vs (32 * nb)) as (v1 & v2 & -> & H1); [lia|].
  rewrite !length_app in *. apply Forall_app in Hvs as [Hv1 Hv2].
  destruct (split_at old (32 * nb)) as (o1 & o2 & -> & Ho1); [lia|]. rewrite length_app in Hold.
  assert (Hl := length_svb_keys_codes (v1 ++ v2) (8 * S nb) ltac:(rewrite length_app; lia)).
  rewrite !svb_data_app, !length_app in *. apply at_off_app in Hd as [Hd1 Hd2].
  replace (Z.to_nat (Z.of_nat keyPtr - 8 * - Z.of_nat nb + 8 * - Z.of_nat nb)) with keyPtr by lia.
  assert (Hk8 := Hk). rewrite <- (take_drop 8 (svb_keys _)) in Hk8. apply at_off_weaken in Hk8.
  rewrite (at_off_load_le 8 _ _ _ Hk8), bind_Ok by (rewrite length_take; lia).
  replace (Z.of_nat keyPtr - 8 * - Z.of_nat nb) with (Z.of_nat keyPtr + 8 * Z.of_nat nb) by lia.
  replace (Z.to_nat (- - Z.of_nat nb)) with nb by lia.
  pose proof (svb_decode_avx_loop_ok nb v1 v2 inb keyPtr dataPtr [] o1 (o2 ++ post)) as HL.
  simpl in HL. rewrite <- (app_assoc o1), HL, bind_Ok by (done || lia).
  rewrite svb_avx_block_ok, bind_Ok by (done || lia).
  rewrite <- !app_assoc, !Nat.add_assoc. do 3 f_equal. lia.
Qed.

Lemma svb_decode_avx_simple_ok vs inb keyPtr dataPtr old post :
  Forall is_u32 vs -> at_off inb keyPtr (svb_keys (codes_of vs)) ->
  at_off inb dataPtr (svb_data vs) ->
  (dataPtr + length (svb_data vs) + avx_slack (length vs) <= length inb)%nat ->
  length old = length vs ->
  svb_decode_avx_simple inb keyPtr dataPtr (Z.of_nat (length vs)) (old ++ post) =
  Ok ((dataPtr + length (svb_data vs))%nat, vs ++ post).
Proof.
  intros Hvs Hk Hd Hsl Hold. unfold svb_decode_avx_simple, avx_slack in *.
  destruct (count_blocks (length vs)) as (Hm & Hc & Ho). rewrite Hm, Hc.
  pose proof (Nat.div_mod_eq (length vs) 32) as Hdm.
  destruct (decide (32 <= length vs)%nat) as [Hge|Hlt].
  - replace (8 <=? Z.of_nat (length vs) / 4) with true by (symmetry; apply Z.leb_le; zlia).
    assert (Hpos : (0 < length vs / 32)%nat) by (apply Nat.div_str_pos; lia).
    rewrite Ho by zlia. destruct (length vs / 32)%nat as [|nb] eqn:Hnb; [lia|].
    replace (1 - Z.of_nat (S nb)) with (- Z.of_nat nb) by lia.
    destruct (split_at vs (32 * S nb)) as (v1 & v2 & -> & H1); [lia|].
    rewrite !length_app in *. apply Forall_app in Hvs as [Hv1 Hv2].
    destruct (split_at old (32 * S nb)) as (o1 & o2 & -> & Ho1); [lia|]. rewrite length_app in Hold.
    rewrite (svb_keys_split v1 v2 (8 * S nb)) in Hk by lia. apply at_off_app in Hk as [Hk1 Hk2].
    rewrite (length_svb_keys_codes v1 (8 * S nb)) in Hk2 by lia.
    rewrite !svb_data_app, !length_app in *. apply at_off_app in Hd as [Hd1 Hd2].
    rewrite <- app_assoc, (svb_avx_blocks_ok nb v1), bind_Ok by (done || lia).
    replace ((length v1 + length v2) mod 32)%nat with (length v2) by lia.
    replace (Z.to_nat (8 * Z.of_nat (S nb))) with (8 * S nb)%nat by lia.
    rewrite svb_decode_scalar_ok by (done || lia). by rewrite <- !app_assoc, Nat.add_assoc.
  - replace (8 <=? Z.of_nat (length vs) / 4) with false by (symmetry; apply Z.leb_gt; zlia).
    rewrite bind_Ok, Nat.div_small, Nat.mod_small by lia.
    rewrite Z.mul_0_r, Nat.add_0_r. by apply (svb_decode_scalar_ok vs inb keyPtr dataPtr []).
Qed.

Lemma streamvbyte_decode_ok vs inb old post :
  Forall is_u32 vs -> Z.of_nat (length vs) + 3 < 2 ^ 32 -> at_off inb 0 (svb_encoded vs) ->
  (length (svb_encoded vs) + avx_slack (length vs) <= length inb)%nat -> length old = length vs ->
  streamvbyte_decode inb (old ++ post) (Z.of_nat (length vs)) =
  Ok (length (svb_encoded vs), vs ++ post).
Proof.
  intros Hvs Hlen Hat Hsl Hold. unfold streamvbyte_decode.
  pose proof (length_svb_encoded vs) as Hl.
  destruct (decide (vs = [])) as [->|Hne]; [by destruct old|].
  replace (Z.of_nat (length vs) =? 0) with false
    by (symmetry; apply Z.eqb_neq; destruct vs; [done|simpl; lia]).
  apply at_off_app in Hat as [Hk Hd]. rewrite length_svb_keys, length_codes_of in Hd.
  rewrite keyLen_eq, svb_decode_avx_simple_ok by (done || lia). by rewrite Hl.
Qed.

(** C30: StreamVByte encoding is exactly the format, and is memory safe exactly
    when the output buffer holds it: for at most 2^32 - 4 values the encoder
    returns the length of the encoded stream, writes the key bytes followed by
    the data bytes at the start of the buffer and leaves the rest of it
    untouched; if the buffer is shorter than the stream it runs out of it. *)
Theorem streamvbyte_encode_spec (vs out : list Z)
  (Hvs : Forall is_u32 vs) (Hlen : Z.of_nat (length vs) + 3 < 2 ^ 32) :
  streamvbyte_encode vs (Z.of_nat (length vs)) out =
  if decide (length (svb_encoded vs) <= length out)%nat
  then Ok (length (svb_encoded vs), svb_encoded vs ++ drop (length (svb_encoded vs)) out)
  else Undef.
Proof. by apply streamvbyte_encode_ok. Qed.

(** C1: decoding inverts encoding.  Any list of 32-bit values (at most
    2^32 - 4 of them) encoded into a buffer that holds the stream and, from 32
    values on, the 12 further bytes the vector loads may touch, is decoded to
    the same values; both routines report the same number of bytes. *)
Theorem streamvbyte_roundtrip (vs buf out : list Z)
  (Hvs : Forall is_u32 vs) (Hlen : Z.of_nat (length vs) + 3 < 2 ^ 32)
  (Hbuf : (length (svb_encoded vs) + avx_slack (length vs) <= length buf)%nat)
  (Hout : length out = length vs) :
  exists n buf',
    streamvbyte_encode vs (Z.of_nat (length vs)) buf = Ok (n, buf') /\
    n = length (svb_encoded vs) /\ length buf' = length buf /\
    streamvbyte_decode buf' out (Z.of_nat (length vs)) = Ok (n, vs).
Proof.
  do 2 eexists. split_and!.
  - pose proof streamvbyte_encode_ok as HE. rewrite HE, decide_True by (done || lia). reflexivity.
  - reflexivity.
  - rewrite length_app, length_drop. lia.
  - rewrite <- (app_nil_r out), streamvbyte_decode_ok, app_nil_r; try done.
    + apply at_off_prefix.
    + rewrite length_app, length_drop. lia.
Qed.

(** C29: the vector decoder computes what the scalar decoder computes: on the
    stream of any list of values, with the slack the vector loads need, the
    block decoder with its scalar tail returns the pointer and the array that
    the scalar loop alone returns. *)
Theorem svb_decode_avx_equiv_scalar (vs inb out : list Z) (keyPtr dataPtr : nat)
  (Hvs : Forall is_u32 vs)
  (Hk : at_off inb keyPtr (svb_keys (codes_of vs))) (Hd : at_off inb dataPtr (svb_data vs))
  (Hsl : (dataPtr + length (svb_data vs) + avx_slack (length vs) <= length inb)%nat)
  (Hout : (length vs <= length out)%nat) :
  svb_decode_avx_simple inb keyPtr dataPtr (Z.of_nat (length vs)) out =
  svb_decode_scalar inb 0 keyPtr dataPtr (Z.of_nat (length vs)) out.
Proof.
  destruct (split_at out (length vs)) as (old & post & -> & Hold); [done|].
  rewrite svb_decode_avx_simple_ok by done.
  symmetry. by apply (svb_decode_scalar_ok vs inb keyPtr dataPtr [] old post).
Qed.

(** Witnesses: 40 values of all four widths, one full vector block. *)
Definition sample_values : list Z := map (fun i => i * i * i * 7000) (seqZ 0 40).

Lemma sample_values_u32 : Forall is_u32 sample_values.
Proof. apply (bool_decide_unpack _). by vm_compute. Qed.

Lemma streamvbyte_encode_spec_witness :
  streamvbyte_encode sample_values (Z.of_nat (length sample_values)) (replicate 200 0) =
  (if decide (length (svb_encoded sample_values) <= length (replicate 200 0))%nat
   then Ok (length (svb_encoded sample_values),
            svb_encoded sample_values ++ drop (length (svb_encoded sample_values)) (replicate 200 0))
   else Undef).
Proof. apply (streamvbyte_encode_spec sample_values (replicate 200 0)); [apply sample_values_u32|reflexivity]. Defined.

Lemma streamvbyte_roundtrip_witness :
  exists n buf',
    streamvbyte_encode sample_values (Z.of_nat (length sample_values)) (replicate 200 0) = Ok (n, buf') /\
    n = length (svb_encoded sample_values) /\ length buf' = length (replicate 200 0) /\
    streamvbyte_decode buf' (replicate 40 0) (Z.of_nat (length sample_values)) = Ok (n, sample_values).
Proof.
  apply (streamvbyte_roundtrip sample_values (replicate 200 0) (replicate 40 0));
    [apply sample_values_u32 | reflexivity | apply Nat.leb_le; vm_compute; reflexivity | reflexivity].
Defined.

Lemma svb_decode_avx_equiv_scalar_witness :
  let inb := svb_encoded sample_values ++ replicate 12 0 in
  svb_decode_avx_simple inb 0 10 (Z.of_nat (length sample_values)) (replicate 40 0) =
  svb_decode_scalar inb 0 0 10 (Z.of_nat (length sample_values)) (replicate 40 0).
Proof.
  apply (svb_decode_avx_equiv_scalar sample_values).
  - apply sample_values_u32.
  - exists [], (svb_data sample_values ++ replicate 12 0). split; reflexivity.
  - exists (svb_keys (codes_of sample_values)), (replicate 12 0). split; reflexivity.
  - apply Nat.leb_le; vm_compute; reflexivity.
  - apply Nat.leb_le; vm_compute; reflexivity.
Defined.

End Svb.
