(* ===== verification/StreamVByteDelta.v ===== *)
(** src/streamvbytedelta.c: StreamVByte over the differences of consecutive
    values, starting from a given [prev].  The differences and the running sums
    wrap at 32 bits, so the codec does not need sorted input.

    The file repeats the tables and the four static helpers of streamvbyte.c
    word for word; they are the definitions of [StreamVByte] under their names
    here.  The vector decoder adds the running sums with shifted additions, and
    takes a shortcut for blocks of 32 one-byte differences. *)
From S2P Require Import Prelude SvbTables Simd StreamVByte.
Import Simd Svb.

Module SvbDelta.

Definition lengthTable : list Z := SvbTables.lengthTable.
Definition shuffleTable_lo : list (list Z) := SvbTables.shuffleTable_lo.
Definition shuffleTable_hi : list (list Z) := SvbTables.shuffleTable_hi.
Definition encode_data := Svb.encode_data.
Definition decode_avx := Svb.decode_avx.
Definition write_avx := Svb.write_avx.
Definition decode_data := Svb.decode_data.

(** The loop of [svb_encode_scalar_d1_init]. *)
Fixpoint svb_encode_scalar_d1_loop (n c : nat) (inp : list Z) (prev shift key : Z)
  (keyPtr dataPtr : nat) (out : list Z) : outcome (Z * nat * nat * list Z) :=
  match n with
  | O => Ok (key, keyPtr, dataPtr, out)
  | S n' =>
      '(shift, key, keyPtr, out) ←
        (if shift =? 8 then out ← store out keyPtr key; Ok (0, 0, S keyPtr, out)
         else Ok (shift, key, keyPtr, out));
      inc ← load inp c;
      let val := u32 (inc - prev) in
      let prev := inc in
      '(code, dataPtr, out) ← encode_data val dataPtr out;
      let key := u8 (Z.lor key (Z.shiftl code shift)) in
      svb_encode_scalar_d1_loop n' (S c) inp prev (u8 (shift + 2)) key keyPtr dataPtr out
  end.

(** [svb_encode_scalar_d1_init] *)
Definition svb_encode_scalar_d1_init (inp : list Z) (keyPtr dataPtr : nat) (count prev : Z)
  (out : list Z) : outcome (nat * list Z) :=
  if count =? 0 then Ok (dataPtr, out)
  else
    '(key, keyPtr, dataPtr, out) ←
      svb_encode_scalar_d1_loop (Z.to_nat count) 0 inp prev 0 0 keyPtr dataPtr out;
    out ← store out keyPtr key;
    Ok (dataPtr, out).

(** [streamvbyte_delta_encode] *)
Definition streamvbyte_delta_encode (inp : list Z) (count : Z) (out : list Z) (prev : Z)
  : outcome (nat * list Z) :=
  let keyLen := Z.to_nat (u32 (count + 3) / 4) in
  svb_encode_scalar_d1_init inp 0 keyLen count prev out.

Definition BroadcastLastXMM : Z := 255.

(** [_write_avx_d1]: stores the running sums of four differences. *)
Definition write_avx_d1 (out : list Z) (p : nat) (Vec Prev : m128i) : outcome (list Z * m128i) :=
  let Add := mm_slli_si128 Vec 4 in
  let Prev := mm_shuffle_epi32 Prev BroadcastLastXMM in
  let Vec := mm_add_epi32 Vec Add in
  let Add := mm_slli_si128 Vec 8 in
  let Vec := mm_add_epi32 Vec Prev in
  let Vec := mm_add_epi32 Vec Add in
  out ← write_avx out p Vec;
  Ok (out, Vec).

(** The shuffle mask [High16To32] (two 64-bit words, low word first). *)
Definition High16To32 : m128i := le_split 8 0xFFFF0B0AFFFF0908 ++ le_split 8 0xFFFF0F0EFFFF0D0C.

(** [_write_16bit_avx_d1]: the same for eight 16-bit differences. *)
Definition write_16bit_avx_d1 (out : list Z) (p : nat) (Vec Prev : m128i)
  : outcome (list Z * m128i) :=
  let Add := mm_slli_si128 Vec 2 in
  let Prev := mm_shuffle_epi32 Prev BroadcastLastXMM in
  let Vec := mm_add_epi32 Vec Add in
  let Add := mm_slli_si128 Vec 4 in
  let Vec := mm_add_epi32 Vec Add in
  let V1 := mm_cvtepu16_epi32 Vec in
  let V1 := mm_add_epi32 V1 Prev in
  let V2 := mm_shuffle_epi8 Vec High16To32 in
  let V2 := mm_add_epi32 V1 V2 in
  out ← write_avx out p V1;
  out ← write_avx out (p + 4)%nat V2;
  Ok (out, V2).

(** The loop of [svb_decode_scalar_d1_init]. *)
Fixpoint svb_decode_scalar_d1_loop (n : nat) (inb : list Z) (shift key prev : Z)
  (keyPtr dataPtr outPtr : nat) (out : list Z) : outcome (nat * list Z) :=
  match n with
  | O => Ok (dataPtr, out)
  | S n' =>
      '(shift, key, keyPtr) ←
        (if shift =? 8 then key ← load inb keyPtr; Ok (0, key, S keyPtr)
         else Ok (shift, key, keyPtr));
      '(val, dataPtr) ← decode_data inb dataPtr (Z.land (Z.shiftr key shift) 3);
      let val := u32 (val + prev) in
      out ← store out outPtr val;
      svb_decode_scalar_d1_loop n' inb (u8 (shift + 2)) key val keyPtr dataPtr (S outPtr) out
  end.

(** [svb_decode_scalar_d1_init] *)
Definition svb_decode_scalar_d1_init (inb : list Z) (outPtr keyPtr dataPtr : nat)
  (count prev : Z) (out : list Z) : outcome (nat * list Z) :=
  if count =? 0 then Ok (dataPtr, out)
  else
    key ← load inb keyPtr;
    svb_decode_scalar_d1_loop (Z.to_nat count) inb 0 key prev (S keyPtr) dataPtr outPtr out.

(** A block of [svb_decode_avx_d1_init] whose eight key bytes are zero: 32
    one-byte differences.  The last load is [_mm_lddqu_si128] inside the loop
    and [_mm_loadl_epi64] in the block after it. *)
Definition svb_avx_d1_bytes (last_load : list Z -> nat -> outcome m128i) (inb : list Z)
  (dataPtr p : nat) (Prev : m128i) (out : list Z) : outcome (nat * m128i * list Z) :=
  D ← mm_lddqu_si128 inb dataPtr;
  '(out, Prev) ← write_16bit_avx_d1 out p (mm_cvtepu8_epi16 D) Prev;
  D ← mm_lddqu_si128 inb (dataPtr + 8)%nat;
  '(out, Prev) ← write_16bit_avx_d1 out (p + 8)%nat (mm_cvtepu8_epi16 D) Prev;
  D ← mm_lddqu_si128 inb (dataPtr + 16)%nat;
  '(out, Prev) ← write_16bit_avx_d1 out (p + 16)%nat (mm_cvtepu8_epi16 D) Prev;
  D ← last_load inb (dataPtr + 24)%nat;
  '(out, Prev) ← write_16bit_avx_d1 out (p + 24)%nat (mm_cvtepu8_epi16 D) Prev;
  Ok ((dataPtr + 32)%nat, Prev, out).

(** A block with arbitrary keys, as unrolled in the source. *)
Definition svb_avx_d1_keys (keys : Z) (inb : list Z) (dataPtr p : nat) (Prev : m128i)
  (out : list Z) : outcome (nat * m128i * list Z) :=
  '(Data, dataPtr) ← decode_avx (Z.land keys 255) inb dataPtr;
  '(out, Prev) ← write_avx_d1 out p Data Prev;
  '(Data, dataPtr) ← decode_avx (Z.shiftr (Z.land keys 65280) 8) inb dataPtr;
  '(out, Prev) ← write_avx_d1 out (p + 4)%nat Data Prev;
  let keys := Z.shiftr keys 16 in
  '(Data, dataPtr) ← decode_avx (Z.land keys 255) inb dataPtr;
  '(out, Prev) ← write_avx_d1 out (p + 8)%nat Data Prev;
  '(Data, dataPtr) ← decode_avx (Z.shiftr (Z.land keys 65280) 8) inb dataPtr;
  '(out, Prev) ← write_avx_d1 out (p + 12)%nat Data Prev;
  let keys := Z.shiftr keys 16 in
  '(Data, dataPtr) ← decode_avx (Z.land keys 255) inb dataPtr;
  '(out, Prev) ← write_avx_d1 out (p + 16)%nat Data Prev;
  '(Data, dataPtr) ← decode_avx (Z.shiftr (Z.land keys 65280) 8) inb dataPtr;
  '(out, Prev) ← write_avx_d1 out (p + 20)%nat Data Prev;
  let keys := Z.shiftr keys 16 in
  '(Data, dataPtr) ← decode_avx (Z.land keys 255) inb dataPtr;
  '(out, Prev) ← write_avx_d1 out (p + 24)%nat Data Prev;
  '(Data, dataPtr) ← decode_avx (Z.shiftr (Z.land keys 65280) 8) inb dataPtr;
  '(out, Prev) ← write_avx_d1 out (p + 28)%nat Data Prev;
  Ok (dataPtr, Prev, out).

(** [if (!keys) ... else ...] *)
Definition svb_avx_d1_block (last_load : list Z -> nat -> outcome m128i) (keys : Z)
  (inb : list Z) (dataPtr p : nat) (Prev : m128i) (out : list Z)
  : outcome (nat * m128i * list Z) :=
  if keys =? 0 then svb_avx_d1_bytes last_load inb dataPtr p Prev out
  else svb_avx_d1_keys keys inb dataPtr p Prev out.

(** The loop over [Offset = - n, ..., -1]. *)
Fixpoint svb_decode_avx_d1_loop (n : nat) (inb : list Z) (key64 nextkeys : Z)
  (dataPtr p : nat) (Prev : m128i) (out : list Z) : outcome (Z * nat * nat * m128i * list Z) :=
  match n with
  | O => Ok (nextkeys, dataPtr, p, Prev, out)
  | S n' =>
      let Offset := - Z.of_nat n in
      let keys := nextkeys in
      nextkeys ← load_le 8 inb (Z.to_nat (key64 + 8 * (Offset + 1)));
      '(dataPtr, Prev, out) ← svb_avx_d1_block mm_lddqu_si128 keys inb dataPtr p Prev out;
      svb_decode_avx_d1_loop n' inb key64 nextkeys dataPtr (p + 32)%nat Prev out
  end.

(** [svb_decode_avx_d1_init] *)
Definition svb_decode_avx_d1_init (inb : list Z) (keyPtr dataPtr : nat) (count prev : Z)
  (out : list Z) : outcome (nat * list Z) :=
  let keybytes := count / 4 in
  '(dataPtr, p, prev, out) ←
    (if 8 <=? keybytes then
       let Prev := mm_set1_epi32 prev in
       let Offset := Z.quot (- keybytes) 8 + 1 in
       let key64 := Z.of_nat keyPtr - 8 * Offset in
       nextkeys ← load_le 8 inb (Z.to_nat (key64 + 8 * Offset));
       '(nextkeys, dataPtr, p, Prev, out) ←
         svb_decode_avx_d1_loop (Z.to_nat (- Offset)) inb key64 nextkeys dataPtr 0 Prev out;
       '(dataPtr, Prev, out) ← svb_avx_d1_block mm_loadl_epi64 nextkeys inb dataPtr p Prev out;
       let p := (p + 32)%nat in
       prev ← load out (p - 1)%nat;
       Ok (dataPtr, p, prev, out)
     else Ok (dataPtr, 0%nat, prev, out));
  let consumedkeys := keybytes - Z.land keybytes 7 in
  svb_decode_scalar_d1_init inb p (keyPtr + Z.to_nat consumedkeys) dataPtr (Z.land count 31) prev out.

(** [streamvbyte_delta_decode] *)
Definition streamvbyte_delta_decode (inb out : list Z) (count prev : Z)
  : outcome (nat * list Z) :=
  let keyLen := Z.to_nat (u32 (count + 3) / 4) in
  svb_decode_avx_d1_init inb 0 keyLen count prev out.

(** * The format *)

(** Differences modulo 2^32, and running sums modulo 2^32. *)
Fixpoint deltas (prev : Z) (vs : list Z) : list Z :=
  match vs with
  | [] => []
  | v :: vs' => u32 (v - prev) :: deltas v vs'
  end.

Fixpoint sums (prev : Z) (ds : list Z) : list Z :=
  match ds with
  | [] => []
  | d :: ds' => u32 (d + prev) :: sums (u32 (d + prev)) ds'
  end.

Lemma length_deltas prev vs : length (deltas prev vs) = length vs.
Proof. revert prev; induction vs; intros; simpl; auto. Qed.

Lemma length_sums prev ds : length (sums prev ds) = length ds.
Proof. revert prev; induction ds; intros; simpl; auto. Qed.

Lemma u32_range x : is_u32 (u32 x).
Proof. unfold u32, is_u32. apply Z.mod_pos_bound. lia. Qed.

Lemma deltas_u32 prev vs : Forall is_u32 (deltas prev vs).
Proof. revert prev; induction vs; intros; simpl; constructor; auto using u32_range. Qed.

Lemma sums_u32 prev ds : Forall is_u32 (sums prev ds).
Proof. revert prev; induction ds; intros; simpl; constructor; auto using u32_range. Qed.

Lemma sums_deltas prev vs : Forall is_u32 vs -> sums prev (deltas prev vs) = vs.
Proof.
  intros H; revert prev; induction H as [|v vs Hv H IH]; intros prev; [done|].
  simpl. assert (u32 (u32 (v - prev) + prev) = v) as ->; [|by rewrite IH].
  unfold u32. rewrite Zplus_mod_idemp_l. replace (v - prev + prev) with v by lia.
  apply Z.mod_small, Hv.
Qed.

(** The running sum after a list of differences. *)
Fixpoint end_sum (prev : Z) (ds : list Z) : Z :=
  match ds with
  | [] => prev
  | d :: ds' => end_sum (u32 (d + prev)) ds'
  end.

Lemma sums_app prev ds1 ds2 : sums prev (ds1 ++ ds2) = sums prev ds1 ++ sums (end_sum prev ds1) ds2.
Proof. revert prev; induction ds1; intros; simpl; f_equal; auto. Qed.

Lemma end_sum_app prev ds1 ds2 : end_sum prev (ds1 ++ ds2) = end_sum (end_sum prev ds1) ds2.
Proof. revert prev; induction ds1; intros; simpl; auto. Qed.

Lemma end_sum_u32 prev ds : is_u32 prev -> is_u32 (end_sum prev ds).
Proof. revert prev; induction ds; intros; simpl; auto using u32_range. Qed.

Lemma sums_last prev ds : ds <> [] -> sums prev ds !! (length ds - 1)%nat = Some (end_sum prev ds).
Proof.
  revert prev; induction ds as [|d [|d' ds] IH]; intros prev Hne; [done|done|].
  specialize (IH (u32 (d + prev)) ltac:(done)). simpl in IH |- *. by rewrite Nat.sub_0_r in IH.
Qed.

(** * Encoding is the plain encoding of the differences *)

Lemma encode_d1_loop_deltas vs inp c inp' c' prev shift key keyPtr dataPtr out :
  at_off inp c vs -> at_off inp' c' (deltas prev vs) ->
  svb_encode_scalar_d1_loop (length vs) c inp prev shift key keyPtr dataPtr out =
  svb_encode_scalar_loop (length vs) c' inp' shift key keyPtr dataPtr out.
Proof.
  revert c c' prev shift key keyPtr dataPtr out.
  induction vs as [|v vs IH]; intros c c' prev shift key keyPtr dataPtr out Hin Hin'; [done|].
  cbn [length svb_encode_scalar_d1_loop svb_encode_scalar_loop].
  rewrite (at_off_load _ _ _ _ Hin), (at_off_load _ _ _ _ Hin').
  apply at_off_tail in Hin. apply at_off_tail in Hin'.
  assert (Hb : forall s k kp o,
    ('(code, dataPtr, o) ← encode_data (u32 (v - prev)) dataPtr o;
     svb_encode_scalar_d1_loop (length vs) (S c) inp v (u8 (s + 2))
       (u8 (Z.lor k (Z.shiftl code s))) kp dataPtr o) =
    ('(code, dataPtr, o) ← Svb.encode_data (u32 (v - prev)) dataPtr o;
     svb_encode_scalar_loop (length vs) (S c') inp' (u8 (s + 2))
       (u8 (Z.lor k (Z.shiftl code s))) kp dataPtr o)).
  { intros s k kp o. unfold encode_data.
    destruct (Svb.encode_data _ _ _) as [[[code p] o']| |]; [|done|done].
    rewrite !bind_Ok. by apply IH. }
  destruct (shift =? 8); [destruct (store out keyPtr key); [|done|done]|];
    rewrite !bind_Ok; cbv zeta; apply Hb.
Qed.

Lemma streamvbyte_delta_encode_deltas vs inp out prev :
  at_off inp 0 vs ->
  streamvbyte_delta_encode inp (Z.of_nat (length vs)) out prev =
  streamvbyte_encode (deltas prev vs) (Z.of_nat (length (deltas prev vs))) out.
Proof.
  intros Hin.
  unfold streamvbyte_delta_encode, streamvbyte_encode, svb_encode_scalar_d1_init, svb_encode_scalar.
  rewrite length_deltas, Nat2Z.id. destruct (Z.of_nat (length vs) =? 0); [done|].
  by rewrite (encode_d1_loop_deltas vs inp 0 (deltas prev vs) 0) by (done || apply at_off_refl).
Qed.

(** * The scalar decoder *)

Lemma decode_d1_loop_ok ds inb shift key prev keyPtr dataPtr O old post :
  stream_at inb shift key keyPtr dataPtr ds -> length old = length ds ->
  svb_decode_scalar_d1_loop (length ds) inb shift key prev keyPtr dataPtr (length O) (O ++ old ++ post) =
  Ok ((dataPtr + length (svb_data ds))%nat, O ++ sums prev ds ++ post).
Proof.
  revert shift key prev keyPtr dataPtr O old.
  induction ds as [|v vs IH]; intros shift key prev keyPtr dataPtr O old Hat Hold;
    destruct old as [|o old]; simplify_eq/=; [by rewrite Nat.add_0_r|].
  apply stream_at_step in Hat as (s & k & kp & Hn & Hdd & Hat).
  fold (next_key inb shift key keyPtr). unfold decode_data.
  rewrite Hn, bind_Ok, Hdd, bind_Ok, store_app, bind_Ok.
  set (w := u32 (v + prev)).
  replace (O ++ w :: old ++ post) with ((O ++ [w]) ++ old ++ post) by (by rewrite <- app_assoc).
  replace (S (length O)) with (length (O ++ [w])) by (rewrite length_app; simpl; lia).
  rewrite IH by done. rewrite svb_data_cons, length_app, <- app_assoc, Nat.add_assoc. done.
Qed.

Lemma svb_decode_scalar_d1_ok ds inb keyPtr dataPtr prev O old post :
  Forall is_u32 ds -> at_off inb keyPtr (svb_keys (codes_of ds)) ->
  at_off inb dataPtr (svb_data ds) -> length old = length ds ->
  svb_decode_scalar_d1_init inb (length O) keyPtr dataPtr (Z.of_nat (length ds)) prev
    (O ++ old ++ post) =
  Ok ((dataPtr + length (svb_data ds))%nat, O ++ sums prev ds ++ post).
Proof.
  intros Hvs Hk Hd Hold. unfold svb_decode_scalar_d1_init. rewrite Nat2Z.id.
  destruct (decide (ds = [])) as [->|Hne].
  - destruct old; [|done]. simpl. by rewrite Nat.add_0_r.
  - replace (Z.of_nat (length ds) =? 0) with false
      by (symmetry; apply Z.eqb_neq; destruct ds; [done|simpl; lia]).
    destruct (stream_at_load inb keyPtr dataPtr ds) as (key & -> & Hat); [done..|].
    rewrite bind_Ok. by apply decode_d1_loop_ok.
Qed.

(** * The vector decoder *)

(** The register carries the running sum [prev] in its last lane. *)
Definition carries (Prev : m128i) (prev : Z) : Prop :=
  exists x y z, Prev = of_lanes 4 [x; y; z; prev].

Lemma write_avx_d1_ok O old post ds Prev prev :
  length ds = 4%nat -> length old = 4%nat -> carries Prev prev ->
  exists Prev',
    write_avx_d1 (O ++ old ++ post) (length O) (of_lanes 4 ds) Prev =
      Ok (O ++ sums prev ds ++ post, Prev') /\ carries Prev' (end_sum prev ds).
Proof.
  intros Hlen Hold (x & y & z & ->). destruct ds as [|a [|b [|c [|d [|]]]]]; try discriminate.
  unfold write_avx_d1, write_avx, BroadcastLastXMM. cbv zeta.
  rewrite slli4_lanes, shuffle_epi32_last, add_epi32_lanes, slli8_lanes, !add_epi32_lanes.
  assert (Heq : of_lanes 4 (sums prev [a; b; c; d]) =
    of_lanes 4 [u32 (u32 (u32 (a + 0) + u32 prev) + 0);
      u32 (u32 (u32 (b + a) + u32 prev) + 0);
      u32 (u32 (u32 (c + b) + u32 prev) + u32 (a + 0));
      u32 (u32 (u32 (d + c) + u32 prev) + u32 (b + a))]).
  { cbn [sums]. f_equal. repeat (apply (f_equal2 cons); [zlia|]). done. }
  rewrite <- Heq, write_avx_ok, bind_Ok by (done || apply sums_u32).
  eexists. split; [reflexivity|]. cbn [sums end_sum]. by do 3 eexists.
Qed.

(** The mask [High16To32] zero-extends the upper four 16-bit lanes. *)
Lemma shuffle_high16 a b c d e f g h :
  mm_shuffle_epi8 (of_lanes 2 [a; b; c; d; e; f; g; h]) High16To32 =
  of_lanes 4 [u16 e; u16 f; u16 g; u16 h].
Proof.
  change High16To32 with [8; 9; 255; 255; 10; 11; 255; 255; 12; 13; 255; 255; 14; 15; 255; 255].
  assert (H : forall x, le_split 4 (u16 x) = [u8 x; u8 (Z.shiftr x 8); 0; 0]).
  { intros x. cbn [le_split]. rewrite !Z.shiftr_div_pow2 by lia.
    repeat (apply (f_equal2 cons); [zlia|]). done. }
  unfold of_lanes. cbn [map concat]. rewrite !H. reflexivity.
Qed.

Lemma write_16bit_avx_d1_ok O old post ds Prev prev :
  length ds = 8%nat -> length old = 8%nat -> Forall is_u8 ds -> carries Prev prev ->
  exists Prev',
    write_16bit_avx_d1 (O ++ old ++ post) (length O) (of_lanes 2 ds) Prev =
      Ok (O ++ sums prev ds ++ post, Prev') /\ carries Prev' (end_sum prev ds).
Proof.
  intros Hlen Hold Hds (x & y & z & ->).
  destruct ds as [|a [|b [|c [|d [|e [|f [|g [|h [|]]]]]]]]]; try discriminate.
  rewrite !list.Forall_cons in Hds. unfold is_u8 in Hds. destruct Hds as (?&?&?&?&?&?&?&?&_).
  unfold write_16bit_avx_d1, write_avx, BroadcastLastXMM. cbv zeta.
  rewrite slli2_lanes16, shuffle_epi32_last, add_epi32_lanes16 by forall_lia.
  rewrite slli4_lanes16, add_epi32_lanes16 by forall_lia.
  rewrite cvtepu16_lanes, shuffle_high16, !add_epi32_lanes.
  set (q := end_sum prev [a; b; c; d]).
  match goal with |- context [Svb.write_avx _ (length O) (of_lanes 4 ?l)] =>
    assert (l = sums prev [a; b; c; d]) as -> end.
  { cbn [sums]. repeat (apply (f_equal2 cons); [zlia|]). done. }
  match goal with |- context [Svb.write_avx _ (length O + 4)%nat (of_lanes 4 ?l)] =>
    assert (l = sums q [e; f; g; h]) as -> end.
  { unfold q. cbn [sums end_sum]. repeat (apply (f_equal2 cons); [zlia|]). done. }
  destruct (split_at old 4) as (o1 & o2 & -> & Ho1); [lia|]. rewrite length_app in Hold.
  rewrite <- (app_assoc o1), write_avx_ok, bind_Ok by (done || apply sums_u32).
  rewrite app_assoc. replace (length O + 4)%nat with (length (O ++ sums prev [a; b; c; d]))
    by (rewrite length_app; done).
  rewrite write_avx_ok, bind_Ok by (try done; try apply sums_u32; lia).
  change [a; b; c; d; e; f; g; h] with ([a; b; c; d] ++ [e; f; g; h]).
  rewrite sums_app, end_sum_app, <- !app_assoc. fold q.
  eexists. split; [reflexivity|]. cbn [sums end_sum]. by do 3 eexists.
Qed.

(** ** Blocks of arbitrary keys *)
Fixpoint avx_d1_quads (ks inb : list Z) (dataPtr p : nat) (Prev : m128i) (out : list Z)
  : outcome (nat * m128i * list Z) :=
  match ks with
  | [] => Ok (dataPtr, Prev, out)
  | k :: ks' =>
      '(Data, dataPtr) ← decode_avx k inb dataPtr;
      '(out, Prev) ← write_avx_d1 out p Data Prev;
      avx_d1_quads ks' inb dataPtr (p + 4)%nat Prev out
  end.

Lemma svb_avx_d1_keys_quads ks inb dataPtr p Prev out :
  length ks = 8%nat -> Forall is_u8 ks ->
  svb_avx_d1_keys (le_combine ks) inb dataPtr p Prev out = avx_d1_quads ks inb dataPtr p Prev out.
Proof.
  intros Hlen Hks. destruct ks as [|k0 [|k1 [|k2 [|k3 [|k4 [|k5 [|k6 [|k7 [|]]]]]]]]]; try discriminate.
  rewrite !list.Forall_cons in Hks. destruct Hks as (?&?&?&?&?&?&?&?&_).
  unfold svb_avx_d1_keys. cbn [le_combine avx_d1_quads]. cbv zeta.
  rewrite !key_bytes_shift, !key_byte_lo, !key_byte_hi by done.
  by rewrite <- !Nat.add_assoc.
Qed.

Lemma avx_d1_quads_ok n ds inb dataPtr O old post Prev prev :
  length ds = (4 * n)%nat -> Forall is_u32 ds -> at_off inb dataPtr (svb_data ds) ->
  (dataPtr + length (svb_data ds) + 12 <= length inb)%nat -> length old = length ds ->
  carries Prev prev ->
  exists Prev',
    avx_d1_quads (svb_keys (codes_of ds)) inb dataPtr (length O) Prev (O ++ old ++ post) =
    Ok ((dataPtr + length (svb_data ds))%nat, Prev', O ++ sums prev ds ++ post) /\
    carries Prev' (end_sum prev ds).
Proof.
  revert ds dataPtr O old Prev prev; induction n as [|n IH];
    intros ds dataPtr O old Prev prev Hn Hds Hat Hsl Hold Hc.
  - destruct ds; [|done]. destruct old; [|done]. exists Prev. cbn. by rewrite Nat.add_0_r.
  - destruct (split_at ds 4) as (q & ds' & -> & Hq); [lia|].
    destruct (split_at old 4) as (oq & old' & -> & Hoq); [lia|].
    rewrite !length_app in *. apply Forall_app in Hds as [Hdq Hds].
    rewrite svb_data_app in *. rewrite length_app in *. apply at_off_app in Hat as [Hat1 Hat2].
    pose proof (length_svb_data_ge q). unfold decode_avx in *.
    rewrite (svb_keys_split q ds' 1) by lia.
    rewrite (svb_keys_unfold (codes_of q)) by (by destruct q).
    rewrite take_ge, drop_ge by (rewrite length_codes_of; lia).
    change (svb_keys []) with (@nil Z). cbn [app avx_d1_quads]. unfold decode_avx.
    rewrite decode_avx_ok, bind_Ok by (done || lia).
    destruct (write_avx_d1_ok O oq (old' ++ post) q Prev prev) as (P1 & HW & Hc1); [done..|].
    rewrite <- (app_assoc oq), HW, bind_Ok, (app_assoc O).
    replace (length O + 4)%nat with (length (O ++ sums prev q)) by (rewrite length_app, length_sums; lia).
    destruct (IH ds' (dataPtr + length (svb_data q))%nat (O ++ sums prev q) old' P1 (end_sum prev q))
      as (P2 & HI & Hc2); [done || lia..|].
    exists P2. rewrite HI, sums_app, end_sum_app. by rewrite <- !app_assoc, Nat.add_assoc.
Qed.

(** ** Blocks of one-byte differences *)

(** Zero key bytes: every difference is one byte. *)
Lemma keys_zero ds n :
  length ds = (4 * n)%nat -> le_combine (svb_keys (codes_of ds)) = 0 ->
  Forall (fun c => c = 0) (codes_of ds).
Proof.
  revert ds; induction n as [|n IH]; intros ds Hn Hz.
  - destruct ds; [by constructor|done].
  - destruct (split_at ds 4) as (q & ds' & -> & Hq); [lia|]. rewrite length_app in Hn.
    rewrite (svb_keys_split q ds' 1), (svb_keys_unfold (codes_of q)) in Hz by (try lia; by destruct q).
    rewrite take_ge, drop_ge in Hz by (rewrite length_codes_of; lia).
    change (svb_keys []) with (@nil Z) in Hz. cbn [app le_combine] in Hz.
    pose proof (le_combine_bound _ (svb_keys_bytes _ (codes_of_range ds'))).
    pose proof (pack_bound _ (codes_of_range q)).
    unfold codes_of. rewrite map_app. apply Forall_app. split; [|apply IH; lia].
    destruct q as [|a [|b [|c [|d [|]]]]]; try discriminate.
    assert (Hp : pack (codes_of [a; b; c; d]) = 0) by lia.
    unfold pack, codes_of in Hp. simpl in Hp.
    pose proof (code_of_range a); pose proof (code_of_range b);
      pose proof (code_of_range c); pose proof (code_of_range d). unfold is_code in *.
    forall_lia.
Qed.

Lemma data_of_bytes ds :
  Forall is_u32 ds -> Forall (fun c => c = 0) (codes_of ds) -> svb_data ds = ds /\ Forall is_u8 ds.
Proof.
  induction 1 as [|d ds Hd Hds IH]; intros Hc; [done|].
  apply Forall_cons_1 in Hc as [Hc0 Hc]. destruct (IH Hc) as [IH1 IH2].
  assert (Hb : is_u8 d).
  { unfold code_of, is_u8, is_u32 in *. repeat case_match; lia. }
  split; [|by constructor]. rewrite svb_data_cons, IH1. unfold bytes_of. rewrite Hc0.
  simpl. unfold u8. by rewrite Z.mod_small.
Qed.

Lemma lddqu_ok inb p l :
  at_off inb p l -> length l = 8%nat -> (p + 16 <= length inb)%nat ->
  exists D, mm_lddqu_si128 inb p = Ok D /\ mm_cvtepu8_epi16 D = of_lanes 2 l.
Proof.
  intros Hat Hl Hp. destruct (load_range_lt _ _ _ Hp) as (D & HD & _). exists D.
  split; [exact HD|]. unfold mm_cvtepu8_epi16. f_equal.
  destruct (at_off_of_range inb p l 16 D) as (pre & post & -> & Hpre); [done|done|lia|].
  destruct pre; [|done]. simpl. by rewrite take_app_length' by done.
Qed.

Lemma loadl_ok inb p l :
  at_off inb p l -> length l = 8%nat ->
  exists D, mm_loadl_epi64 inb p = Ok D /\ mm_cvtepu8_epi16 D = of_lanes 2 l.
Proof.
  intros Hat Hl. unfold mm_loadl_epi64. pose proof (at_off_load_range _ _ _ Hat) as HL.
  rewrite Hl in HL. rewrite HL. eexists. split; [reflexivity|].
  unfold mm_cvtepu8_epi16. by rewrite take_app_length' by done.
Qed.

Lemma svb_avx_d1_bytes_ok last_load ds inb dataPtr O old post Prev prev :
  length ds = 32%nat -> Forall is_u8 ds -> at_off inb dataPtr ds -> length old = length ds ->
  (forall l, at_off inb (dataPtr + 24) l -> length l = 8%nat ->
     exists D, last_load inb (dataPtr + 24)%nat = Ok D /\ mm_cvtepu8_epi16 D = of_lanes 2 l) ->
  carries Prev prev ->
  exists Prev',
    svb_avx_d1_bytes last_load inb dataPtr (length O) Prev (O ++ old ++ post) =
    Ok ((dataPtr + 32)%nat, Prev', O ++ sums prev ds ++ post) /\
    carries Prev' (end_sum prev ds).
Proof.
  intros Hlen Hds Hat Hold Hlast Hc. pose proof (at_off_length _ _ _ Hat) as Hl.
  destruct (split_at ds 8) as (d0 & r0 & -> & H0); [lia|]. rewrite length_app in *.
  destruct (split_at r0 8) as (d1 & r1 & -> & H1); [lia|]. rewrite length_app in *.
  destruct (split_at r1 8) as (d2 & d3 & -> & H2); [lia|]. rewrite length_app in *.
  destruct (split_at old 8) as (o0 & q0 & -> & Ho0); [lia|]. rewrite length_app in *.
  destruct (split_at q0 8) as (o1 & q1 & -> & Ho1); [lia|]. rewrite length_app in *.
  destruct (split_at q1 8) as (o2 & o3 & -> & Ho2); [lia|]. rewrite length_app in *.
  rewrite !Forall_app in Hds. destruct Hds as (Hu0 & Hu1 & Hu2 & Hu3).
  rewrite !at_off_app in Hat. destruct Hat as (A0 & A1 & A2 & A3).
  rewrite H0, H1, H2, <- ?Nat.add_assoc in *. simpl Nat.add in *.
  unfold svb_avx_d1_bytes.
  destruct (lddqu_ok inb dataPtr d0) as (D0 & -> & E0); [done|done|lia|].
  destruct (lddqu_ok inb (dataPtr + 8) d1) as (D1 & -> & E1); [done|done|lia|].
  destruct (lddqu_ok inb (dataPtr + 16) d2) as (D2 & -> & E2); [done|done|lia|].
  destruct (Hlast d3) as (D3 & -> & E3); [done|lia|].
  destruct (write_16bit_avx_d1_ok O o0 ((o1 ++ o2 ++ o3) ++ post) d0 Prev prev) as (P0 & W0 & C0); [done..|].
  rewrite <- (app_assoc o0), !bind_Ok, E0, W0, !bind_Ok, E1.
  destruct (write_16bit_avx_d1_ok (O ++ sums prev d0) o1 ((o2 ++ o3) ++ post) d1 P0 (end_sum prev d0))
    as (P1 & W1 & C1); [done..|].
  rewrite length_app, length_sums, H0 in W1. rewrite (app_assoc O), <- (app_assoc o1), W1, !bind_Ok, E2.
  destruct (write_16bit_avx_d1_ok ((O ++ sums prev d0) ++ sums (end_sum prev d0) d1) o2 (o3 ++ post) d2 P1
    (end_sum (end_sum prev d0) d1)) as (P2 & W2 & C2); [done..|].
  rewrite !length_app, !length_sums, H0, H1, <- Nat.add_assoc in W2. simpl Nat.add in W2.
  rewrite (app_assoc (O ++ sums prev d0)), <- (app_assoc o2), W2, !bind_Ok, E3.
  destruct (write_16bit_avx_d1_ok (((O ++ sums prev d0) ++ sums (end_sum prev d0) d1) ++
    sums (end_sum (end_sum prev d0) d1) d2) o3 post d3 P2 (end_sum (end_sum (end_sum prev d0) d1) d2))
    as (P3 & W3 & C3); [done || lia..|].
  rewrite !length_app, !length_sums, H0, H1, H2, <- !Nat.add_assoc in W3. simpl Nat.add in W3.
  rewrite app_assoc, W3, bind_Ok. exists P3. rewrite !sums_app, !end_sum_app.
  split; [|done]. by rewrite <- !app_assoc.
Qed.

(** ** Blocks, and the loop over them *)
Lemma svb_avx_d1_block_ok last_load ds inb dataPtr O old post Prev prev :
  length ds = 32%nat -> Forall is_u32 ds -> at_off inb dataPtr (svb_data ds) ->
  (dataPtr + length (svb_data ds) + 12 <= length inb)%nat -> length old = length ds ->
  last_load = mm_lddqu_si128 \/ last_load = mm_loadl_epi64 ->
  carries Prev prev ->
  exists Prev',
    svb_avx_d1_block last_load (le_combine (svb_keys (codes_of ds))) inb dataPtr (length O) Prev
      (O ++ old ++ post) =
    Ok ((dataPtr + length (svb_data ds))%nat, Prev', O ++ sums prev ds ++ post) /\
    carries Prev' (end_sum prev ds).
Proof.
  intros Hlen Hds Hat Hsl Hold Hlast Hc. unfold svb_avx_d1_block.
  destruct (Z.eqb_spec (le_combine (svb_keys (codes_of ds))) 0) as [Hz|Hz].
  - apply (keys_zero ds 8) in Hz; [|lia]. destruct (data_of_bytes ds Hds Hz) as [Hd Hu].
    rewrite Hd in *. rewrite Hlen. apply svb_avx_d1_bytes_ok; try done.
    intros l Hl Hl8. destruct Hlast as [-> | ->]; [apply lddqu_ok; (done || lia)|by apply loadl_ok].
  - rewrite svb_avx_d1_keys_quads by (by apply length_svb_keys_codes ||
      apply svb_keys_bytes, codes_of_range).
    by apply (avx_d1_quads_ok 8).
Qed.

Lemma svb_decode_avx_d1_loop_ok n ds w inb kp dataPtr O old post Prev prev :
  length ds = (32 * n)%nat -> length w = 32%nat -> Forall is_u32 ds ->
  at_off inb kp (svb_keys (codes_of (ds ++ w))) -> at_off inb dataPtr (svb_data ds) ->
  (dataPtr + length (svb_data ds) + 12 <= length inb)%nat -> length old = length ds ->
  carries Prev prev ->
  exists Prev',
    svb_decode_avx_d1_loop n inb (Z.of_nat kp + 8 * Z.of_nat n)
      (le_combine (take 8 (svb_keys (codes_of (ds ++ w))))) dataPtr (length O) Prev (O ++ old ++ post) =
    Ok (le_combine (svb_keys (codes_of w)), (dataPtr + length (svb_data ds))%nat,
        length (O ++ ds), Prev', O ++ sums prev ds ++ post) /\
    carries Prev' (end_sum prev ds).
Proof.
  revert ds kp dataPtr O old Prev prev; induction n as [|n IH];
    intros ds kp dataPtr O old Prev prev Hn Hw Hds Hk Hat Hsl Hold Hc.
  - destruct ds; [|done]. destruct old; [|done]. cbn [app]. exists Prev.
    rewrite take_ge, app_nil_r by (rewrite (length_svb_keys_codes w 8); lia).
    cbn. by rewrite Nat.add_0_r.
  - destruct (split_at ds 32) as (b & ds' & -> & Hb); [lia|].
    destruct (split_at old 32) as (ob & old' & -> & Hob); [lia|].
    rewrite !length_app in *. apply Forall_app in Hds as [Hdb Hds].
    rewrite svb_data_app in *. rewrite length_app in *. apply at_off_app in Hat as [Hat1 Hat2].
    rewrite <- app_assoc in *. rewrite (svb_keys_split b (ds' ++ w) 8) in * by lia.
    assert (Hkb := length_svb_keys_codes b 8 Hb).
    apply at_off_app in Hk as [_ Hk]. rewrite Hkb in Hk.
    rewrite (take_app_length' _ _ 8) by done.
    cbn [svb_decode_avx_d1_loop].
    replace (Z.to_nat (Z.of_nat kp + 8 * Z.of_nat (S n) + 8 * (- Z.of_nat (S n) + 1)))
      with (kp + 8)%nat by lia.
    assert (Hk' := Hk). rewrite <- (take_drop 8 (svb_keys _)) in Hk'. apply at_off_weaken in Hk'.
    rewrite (at_off_load_le 8 _ _ _ Hk'), bind_Ok.
    2: { rewrite length_take, (length_svb_keys_codes _ (8 * (n + 1))) by (rewrite length_app; lia). lia. }
    destruct (svb_avx_d1_block_ok mm_lddqu_si128 b inb dataPtr O ob (old' ++ post) Prev prev)
      as (P1 & HB & Hc1); [done || lia || by left ..|].
    rewrite <- (app_assoc ob), HB, bind_Ok, (app_assoc O).
    replace (length O + 32)%nat with (length (O ++ sums prev b)) by (rewrite length_app, length_sums; lia).
    replace (Z.of_nat kp + 8 * Z.of_nat (S n)) with (Z.of_nat (kp + 8) + 8 * Z.of_nat n) by lia.
    destruct (IH ds' (kp + 8)%nat (dataPtr + length (svb_data b))%nat (O ++ sums prev b) old' P1
      (end_sum prev b)) as (P2 & HI & Hc2); [done || lia..|].
    exists P2. rewrite HI, sums_app, end_sum_app. split; [|done].
    by rewrite !length_app, length_sums, <- !app_assoc, !Nat.add_assoc.
Qed.

Lemma svb_avx_d1_blocks_ok nb ds inb keyPtr dataPtr prev old post :
  length ds = (32 * S nb)%nat -> Forall is_u32 ds -> at_off inb keyPtr (svb_keys (codes_of ds)) ->
  at_off inb dataPtr (svb_data ds) ->
  (dataPtr + length (svb_data ds) + 12 <= length inb)%nat -> length old = length ds ->
  (let Prev := mm_set1_epi32 prev in
   let Offset := - Z.of_nat nb in
   let key64 := Z.of_nat keyPtr - 8 * Offset in
   nextkeys ← load_le 8 inb (Z.to_nat (key64 + 8 * Offset));
   '(nextkeys, dataPtr, p, Prev, out) ←
     svb_decode_avx_d1_loop (Z.to_nat (- Offset)) inb key64 nextkeys dataPtr 0 Prev (old ++ post);
   '(dataPtr, Prev, out) ← svb_avx_d1_block mm_loadl_epi64 nextkeys inb dataPtr p Prev out;
   let p := (p + 32)%nat in
   prev ← load out (p - 1)%nat;
   Ok (dataPtr, p, prev, out)) =
  Ok ((dataPtr + length (svb_data ds))%nat, length ds, end_sum prev ds, sums prev ds ++ post).
Proof.
  intros Hlen Hds Hk Hd Hsl Hold. cbv zeta.
  assert (Hc0 : carries (mm_set1_epi32 prev) prev) by (by do 3 eexists).
  destruct (split_at ds (32 * nb)) as (v1 & v2 & -> & H1); [lia|].
  rewrite !length_app in *. apply Forall_app in Hds as [Hv1 Hv2].
  destruct (split_at old (32 * nb)) as (o1 & o2 & -> & Ho1); [lia|]. rewrite length_app in Hold.
  assert (Hl := length_svb_keys_codes (v1 ++ v2) (8 * S nb) ltac:(rewrite length_app; lia)).
  rewrite !svb_data_app, !length_app in *. apply at_off_app in Hd as [Hd1 Hd2].
  replace (Z.to_nat (Z.of_nat keyPtr - 8 * - Z.of_nat nb + 8 * - Z.of_nat nb)) with keyPtr by lia.
  assert (Hk8 := Hk). rewrite <- (take_drop 8 (svb_keys _)) in Hk8. apply at_off_weaken in Hk8.
  rewrite (at_off_load_le 8 _ _ _ Hk8), bind_Ok by (rewrite length_take; lia).
  replace (Z.of_nat keyPtr - 8 * - Z.of_nat nb) with (Z.of_nat keyPtr + 8 * Z.of_nat nb) by lia.
  replace (Z.to_nat (- - Z.of_nat nb)) with nb by lia.
  destruct (svb_decode_avx_d1_loop_ok nb v1 v2 inb keyPtr dataPtr [] o1 (o2 ++ post) (mm_set1_epi32 prev) prev)
    as (P1 & HL & Hc1); [done || lia..|].
  simpl in HL. rewrite <- (app_assoc o1), HL, bind_Ok.
  destruct (svb_avx_d1_block_ok mm_loadl_epi64 v2 inb (dataPtr + length (svb_data v1)) (sums prev v1) o2 post
    P1 (end_sum prev v1)) as (P2 & HB & Hc2); [done || lia || by right ..|].
  rewrite length_sums in HB. rewrite HB, bind_Ok, app_assoc, <- sums_app.
  pose proof (sums_last prev (v1 ++ v2) ltac:(destruct v1; [destruct v2|]; done)) as Hlast.
  rewrite length_app in Hlast. replace (length v1 + 32)%nat with (length v1 + length v2)%nat by lia.
  unfold load. rewrite lookup_app_l by (rewrite length_sums, length_app; lia).
  rewrite Hlast. cbn [of_option]. rewrite bind_Ok. by rewrite Nat.add_assoc.
Qed.

Lemma svb_decode_avx_d1_init_ok ds inb keyPtr dataPtr prev old post :
  Forall is_u32 ds -> at_off inb keyPtr (svb_keys (codes_of ds)) ->
  at_off inb dataPtr (svb_data ds) ->
  (dataPtr + length (svb_data ds) + avx_slack (length ds) <= length inb)%nat ->
  length old = length ds ->
  svb_decode_avx_d1_init inb keyPtr dataPtr (Z.of_nat (length ds)) prev (old ++ post) =
  Ok ((dataPtr + length (svb_data ds))%nat, sums prev ds ++ post).
Proof.
  intros Hvs Hk Hd Hsl Hold. unfold svb_decode_avx_d1_init, avx_slack in *.
  destruct (count_blocks (length ds)) as (Hm & Hc & Ho). rewrite Hm, Hc.
  pose proof (Nat.div_mod_eq (length ds) 32) as Hdm.
  destruct (decide (32 <= length ds)%nat) as [Hge|Hlt].
  - replace (8 <=? Z.of_nat (length ds) / 4) with true by (symmetry; apply Z.leb_le; zlia).
    assert (Hpos : (0 < length ds / 32)%nat) by (apply Nat.div_str_pos; lia).
    rewrite Ho by zlia. destruct (length ds / 32)%nat as [|nb] eqn:Hnb; [lia|].
    replace (1 - Z.of_nat (S nb)) with (- Z.of_nat nb) by lia.
    destruct (split_at ds (32 * S nb)) as (v1 & v2 & -> & H1); [lia|].
    rewrite !length_app in *. apply Forall_app in Hvs as [Hv1 Hv2].
    destruct (split_at old (32 * S nb)) as (o1 & o2 & -> & Ho1); [lia|]. rewrite length_app in Hold.
    rewrite (svb_keys_split v1 v2 (8 * S nb)) in Hk by lia. apply at_off_app in Hk as [Hk1 Hk2].
    rewrite (length_svb_keys_codes v1 (8 * S nb)) in Hk2 by lia.
    rewrite !svb_data_app, !length_app in *. apply at_off_app in Hd as [Hd1 Hd2].
    rewrite <- app_assoc, (svb_avx_d1_blocks_ok nb v1), bind_Ok by (done || lia).
    replace ((length v1 + length v2) mod 32)%nat with (length v2) by lia.
    replace (Z.to_nat (8 * Z.of_nat (S nb))) with (8 * S nb)%nat by lia.
    rewrite <- (length_sums prev v1), svb_decode_scalar_d1_ok by (done || lia).
    by rewrite sums_app, <- !app_assoc, Nat.add_assoc.
  - replace (8 <=? Z.of_nat (length ds) / 4) with false by (symmetry; apply Z.leb_gt; zlia).
    rewrite bind_Ok, Nat.div_small, Nat.mod_small by lia.
    rewrite Z.mul_0_r, Nat.add_0_r. by apply (svb_decode_scalar_d1_ok ds inb keyPtr dataPtr prev []).
Qed.

(** * Theorems *)

(** The stream of a list of values relative to [prev]. *)
Definition delta_encoded (prev : Z) (vs : list Z) : list Z := svb_encoded (deltas prev vs).

(** The encoder on an array [inp] that starts with the values [vs]. *)
Lemma delta_encode_ok vs inp out prev :
  at_off inp 0 vs ->
  Z.of_nat (length vs) + 3 < 2 ^ 32 -> (length (delta_encoded prev vs) <= length out)%nat ->
  streamvbyte_delta_encode inp (Z.of_nat (length vs)) out prev =
  Ok (length (delta_encoded prev vs), delta_encoded prev vs ++ drop (length (delta_encoded prev vs)) out).
Proof.
  intros Hin Hlen Hout. rewrite (streamvbyte_delta_encode_deltas vs), streamvbyte_encode_ok; try done.
  - by rewrite decide_True.
  - apply deltas_u32.
  - by rewrite length_deltas.
Qed.

Lemma delta_encode_overrun vs inp out prev :
  at_off inp 0 vs ->
  Z.of_nat (length vs) + 3 < 2 ^ 32 -> (length out < length (delta_encoded prev vs))%nat ->
  streamvbyte_delta_encode inp (Z.of_nat (length vs)) out prev = Undef.
Proof.
  intros Hin Hlen Hout. rewrite (streamvbyte_delta_encode_deltas vs), streamvbyte_encode_ok; try done.
  - by rewrite decide_False by (unfold delta_encoded in Hout; lia).
  - apply deltas_u32.
  - by rewrite length_deltas.
Qed.

Lemma delta_decode_ok vs inb old post prev :
  Forall is_u32 vs -> Z.of_nat (length vs) + 3 < 2 ^ 32 -> at_off inb 0 (delta_encoded prev vs) ->
  (length (delta_encoded prev vs) + avx_slack (length vs) <= length inb)%nat ->
  length old = length vs ->
  streamvbyte_delta_decode inb (old ++ post) (Z.of_nat (length vs)) prev =
  Ok (length (delta_encoded prev vs), vs ++ post).
Proof.
  intros Hvs Hlen Hat Hsl Hold. unfold streamvbyte_delta_decode, delta_encoded in *.
  pose proof (length_svb_encoded (deltas prev vs)) as Hl. rewrite length_deltas in Hl.
  apply at_off_app in Hat as [Hk Hd].
  rewrite length_svb_keys, length_codes_of, length_deltas in Hd. rewrite keyLen_eq by done.
  pose proof (svb_decode_avx_d1_init_ok (deltas prev vs) inb 0 ((length vs + 3) / 4) prev old post) as HD.
  rewrite length_deltas in HD. rewrite HD; try done.
  - by rewrite Hl, sums_deltas.
  - apply deltas_u32.
  - lia.
Qed.

(** C2: delta decoding inverts delta encoding for every list of 32-bit values,
    sorted or not, and every starting value: the differences and running sums
    wrap alike, the 16-bit shortcut never overflows, and the vector decoder,
    its scalar tail and the byte counts agree with the encoder. *)
Theorem streamvbyte_delta_roundtrip (vs buf out : list Z) (prev : Z)
  (Hvs : Forall is_u32 vs) (Hlen : Z.of_nat (length vs) + 3 < 2 ^ 32)
  (Hbuf : (length (delta_encoded prev vs) + avx_slack (length vs) <= length buf)%nat)
  (Hout : length out = length vs) :
  exists n buf',
    streamvbyte_delta_encode vs (Z.of_nat (length vs)) buf prev = Ok (n, buf') /\
    n = length (delta_encoded prev vs) /\
    streamvbyte_delta_decode buf' out (Z.of_nat (length vs)) prev = Ok (n, vs).
Proof.
  do 2 eexists. split_and!; [apply delta_encode_ok; (done || lia || apply at_off_refl)|done|].
  rewrite <- (app_nil_r out), delta_decode_ok, app_nil_r; try done.
  - apply at_off_prefix.
  - rewrite length_app, length_drop. lia.
Qed.

Lemma streamvbyte_delta_roundtrip_witness :
  exists n buf',
    streamvbyte_delta_encode sample_values (Z.of_nat (length sample_values)) (replicate 200 0) 12345
      = Ok (n, buf') /\
    n = length (delta_encoded 12345 sample_values) /\
    streamvbyte_delta_decode buf' (replicate 40 0) (Z.of_nat (length sample_values)) 12345
      = Ok (n, sample_values).
Proof.
  apply (streamvbyte_delta_roundtrip sample_values (replicate 200 0) (replicate 40 0) 12345);
    [apply sample_values_u32 | reflexivity | apply Nat.leb_le; vm_compute; reflexivity | reflexivity].
Defined.

End SvbDelta.
