(* ===== verification/Buff.v ===== *)
(** src/tool.c, [buff_t]: the growable byte buffer that collects fetched pages
    and extracted text.

    [buff] is the allocated block ([length buff = cap]); [junk] stands for the
    contents of fresh memory, about which nothing is known.  [realloc] is assumed
    to succeed: the code does not test its result. *)
From S2P Require Import Prelude.

Module Buff.

Record buff_t := Buff_t { size : Z; cap : Z; buff : list Z }.

(** [nearest_power]: the bit-smearing round-up to a power of two; the 64-bit
    result is returned as an [int]. *)
Definition nearest_power (num : Z) : Z :=
  let num := u64 (num - 1) in
  let num := Z.lor num (Z.shiftr num 1) in
  let num := Z.lor num (Z.shiftr num 2) in
  let num := Z.lor num (Z.shiftr num 4) in
  let num := Z.lor num (Z.shiftr num 8) in
  let num := Z.lor num (Z.shiftr num 16) in
  let num := Z.lor num (Z.shiftr num 32) in
  s32 (u64 (num + 1)).

Section with_junk.
Context (junk : nat -> Z).

Definition fresh (n : nat) : list Z := map (fun i => u8 (junk i)) (seq 0 n).

(** [realloc]: the old bytes up to the new size, then unknown ones. *)
Definition realloc (mem : list Z) (n : nat) : list Z :=
  take n mem ++ fresh (n - length mem).

(** [buff_grow] *)
Definition buff_grow (b : buff_t) (sz : Z) : buff_t :=
  if cap b <=? size b + sz then
    let c := u32 (nearest_power (u64 (cap b + sz + 1))) in
    Buff_t (size b) c (realloc (buff b) (Z.to_nat c))
  else b.

(** [buff_cat]: [p] is [NULL] or the characters of a C string. *)
Definition buff_cat (b : buff_t) (p : option (list Z)) : outcome buff_t :=
  match p with
  | None | Some [] => Ok b
  | Some s =>
      let len := Z.of_nat (length s) in
      let b := buff_grow b len in
      mem ← store_range (buff b) (Z.to_nat (size b)) s;
      Ok (Buff_t (u32 (size b + len)) (cap b) mem)
  end.

(** [buff_catn]: [p] is [NULL] or a block of memory of which [rsize] bytes are
    copied. *)
Definition buff_catn (b : buff_t) (p : option (list Z)) (rsize : Z) : outcome buff_t :=
  match p with
  | None => Ok b
  | Some mem =>
      c ← load mem 0;
      if c =? 0 then Ok b
      else
        let b := buff_grow b rsize in
        src ← load_range mem 0 (Z.to_nat rsize);
        dst ← store_range (buff b) (Z.to_nat (size b)) src;
        let sz := u32 (size b + rsize) in
        dst ← store dst (Z.to_nat sz) 0;
        Ok (Buff_t sz (cap b) dst)
  end.

(** [buff_free]: whether the block is passed to [free]. *)
Definition buff_free (b : buff_t) : bool := negb (cap b =? 0).

(** * Properties *)

(** A zeroed buffer. *)
Definition buff_empty : buff_t := Buff_t 0 0 [].

(** The bytes written so far. *)
Definition contents (b : buff_t) : list Z := take (Z.to_nat (size b)) (buff b).

Definition buff_ok (b : buff_t) : Prop :=
  Z.of_nat (length (buff b)) = cap b /\ 0 <= size b /\ size b <= cap b < 2 ^ 32.

Lemma length_fresh n : length (fresh n) = n.
Proof. unfold fresh. by rewrite length_map, length_seq. Qed.

Lemma length_realloc mem n : length (realloc mem n) = n.
Proof. unfold realloc. rewrite length_app, length_take, length_fresh. lia. Qed.

Lemma realloc_prefix mem n k :
  (k <= length mem)%nat -> (k <= n)%nat -> take k (realloc mem n) = take k mem.
Proof.
  intros H1 H2. unfold realloc. rewrite take_app_le by (rewrite length_take; lia).
  rewrite take_take. f_equal. lia.
Qed.

(** ** The bit smearing *)

(** Bit [i] of [s] tells whether one of the bits [i .. i+k-1] of [x] is set. *)
Definition smeared (k x s : Z) : Prop :=
  0 <= s /\
  forall i, 0 <= i -> Z.testbit s i = true <-> exists j, i <= j < i + k /\ Z.testbit x j = true.

Lemma smeared_1 x : 0 <= x -> smeared 1 x x.
Proof.
  intros Hx. split; [done|]. intros i Hi. split; [intros; exists i; split; [lia|done]|].
  intros (j & Hj & Hb). by replace i with j by lia.
Qed.

Lemma smeared_double k k2 x s :
  0 < k -> k2 = k + k -> smeared k x s -> smeared k2 x (Z.lor s (Z.shiftr s k)).
Proof.
  intros Hk -> [Hs H]. split; [apply Z.lor_nonneg; rewrite Z.shiftr_nonneg; done|].
  intros i Hi. rewrite Z.lor_spec, Z.shiftr_spec, orb_true_iff by lia.
  rewrite (H i), (H (i + k)) by lia. split.
  - intros [(j & Hj & Hb)|(j & Hj & Hb)]; exists j; (split; [lia|done]).
  - intros (j & Hj & Hb). destruct (decide (j < i + k)); [left|right]; exists j; (split; [lia|done]).
Qed.

Lemma smeared_ones x s :
  0 < x < 2 ^ 64 -> smeared 64 x s -> s = 2 ^ (Z.log2 x + 1) - 1.
Proof.
  intros Hx [Hs H]. pose proof (Z.log2_nonneg x).
  assert (Z.log2 x < 64) by (apply Z.log2_lt_pow2; lia).
  rewrite Z.sub_1_r, <- Z.ones_equiv.
  apply Z.bits_inj'. intros i Hi. rewrite Z.testbit_ones_nonneg by lia.
  apply eq_true_iff_eq. rewrite (H i Hi), Z.ltb_lt. split.
  - intros (j & Hj & Hb). destruct (decide (Z.log2 x < j)); [|lia].
    by rewrite Z.bits_above_log2 in Hb by lia.
  - intros Hlt. exists (Z.log2 x). split; [lia|]. apply Z.bit_log2. lia.
Qed.

Lemma nearest_power_pow num :
  1 <= num <= 2 ^ 32 -> nearest_power num = s32 (2 ^ Z.log2_up num).
Proof.
  intros Hnum. destruct (decide (num = 1)) as [->|H1]; [reflexivity|].
  unfold nearest_power.
  assert (u64 (num - 1) = num - 1) as -> by (unfold u64; apply Z.mod_small; lia).
  pose proof (smeared_1 (num - 1) ltac:(lia)) as S.
  apply (smeared_double 1 2) in S; [|lia..]. apply (smeared_double 2 4) in S; [|lia..].
  apply (smeared_double 4 8) in S; [|lia..]. apply (smeared_double 8 16) in S; [|lia..].
  apply (smeared_double 16 32) in S; [|lia..]. apply (smeared_double 32 64) in S; [|lia..].
  apply smeared_ones in S; [|lia]. cbv zeta. rewrite S.
  replace (Z.log2 (num - 1) + 1) with (Z.log2_up num)
    by (rewrite Z.log2_up_eqn by lia; rewrite <- Z.sub_1_r; lia).
  rewrite Z.sub_add. f_equal. unfold u64. apply Z.mod_small.
  split; [apply Z.pow_nonneg; lia|].
  apply Z.pow_lt_mono_r; [lia|lia|]. assert (Z.log2_up num <= 32); [|lia].
  apply Z.log2_up_le_pow2; lia.
Qed.

Lemma log2_up_least num k : 1 <= num -> 0 <= k -> num <= 2 ^ k -> 2 ^ Z.log2_up num <= 2 ^ k.
Proof. intros Hn Hk H. apply Z.pow_le_mono_r; [lia|]. apply Z.log2_up_le_pow2; lia. Qed.

Lemma log2_up_ge num : 1 <= num -> num <= 2 ^ Z.log2_up num.
Proof.
  intros H. destruct (decide (num = 1)) as [->|]; [done|]. apply Z.log2_up_spec. lia.
Qed.

Lemma nearest_power_u32 num :
  1 <= num <= 2 ^ 31 -> u32 (nearest_power num) = 2 ^ Z.log2_up num.
Proof.
  intros H. rewrite nearest_power_pow by lia.
  pose proof (log2_up_least num 31 ltac:(lia) ltac:(lia) ltac:(lia)).
  pose proof (log2_up_ge num ltac:(lia)). zlia.
Qed.

(** [nearest_power] is the smallest power of two that is at least its
    argument, as long as that fits an unsigned 32-bit conversion of the [int]
    result (arguments up to 2^31); it is 0 for the next arguments, up to 2^32. *)
Theorem nearest_power_spec (num : Z) (Hnum : 1 <= num <= 2 ^ 32) :
  u32 (nearest_power num) = (if num <=? 2 ^ 31 then 2 ^ Z.log2_up num else 0) /\
  num <= 2 ^ Z.log2_up num /\
  (forall k, 0 <= k -> num <= 2 ^ k -> 2 ^ Z.log2_up num <= 2 ^ k).
Proof.
  split_and!.
  - destruct (Z.leb_spec num (2 ^ 31)) as [Hle|Hgt]; [apply nearest_power_u32; lia|].
    rewrite nearest_power_pow by lia.
    assert (Z.log2_up num = 32) as ->; [|reflexivity].
    apply Z.le_antisymm; [apply Z.log2_up_le_pow2; lia|].
    destruct (decide (Z.log2_up num <= 31)) as [H|H]; [|lia].
    apply Z.log2_up_le_pow2 in H; lia.
  - apply log2_up_ge. lia.
  - intros k. apply log2_up_least. lia.
Qed.

Lemma log2_up_lt num : 1 <= num -> 2 ^ Z.log2_up num < 2 * num.
Proof.
  intros H. destruct (decide (num = 1)) as [->|]; [done|].
  pose proof (Z.log2_up_spec num ltac:(lia)) as [Hlt _]. pose proof (Z.log2_up_pos num ltac:(lia)).
  replace (Z.log2_up num) with (1 + Z.pred (Z.log2_up num)) by lia.
  rewrite Z.pow_add_r by lia. lia.
Qed.

Lemma buff_grow_ok b sz :
  buff_ok b -> 0 < sz -> cap b + sz + 1 <= 2 ^ 31 ->
  buff_ok (buff_grow b sz) /\ contents (buff_grow b sz) = contents b /\
  size (buff_grow b sz) = size b /\ size b + sz < cap (buff_grow b sz) /\
  cap (buff_grow b sz) <= Z.max (cap b) (4 * (size b + sz) + 2).
Proof.
  intros (Hl & Hs & Hc) Hsz Hbig. unfold buff_grow.
  destruct (Z.leb_spec (cap b) (size b + sz)) as [Hle|Hgt].
  - unfold u64. rewrite (Z.mod_small (cap b + sz + 1)) by lia.
    rewrite nearest_power_u32 by lia.
    pose proof (log2_up_ge (cap b + sz + 1) ltac:(lia)).
    pose proof (log2_up_lt (cap b + sz + 1) ltac:(lia)).
    pose proof (log2_up_least (cap b + sz + 1) 31 ltac:(lia) ltac:(lia) ltac:(lia)).
    unfold buff_ok, contents. simpl. rewrite length_realloc, realloc_prefix by lia.
    split_and!; try lia. done.
  - unfold buff_ok. split_and!; try done; lia.
Qed.

(** Writing right behind the contents. *)
Lemma append_at (mem s : list Z) n :
  (n + length s <= length mem)%nat ->
  store_range mem n s = Ok (take n mem ++ s ++ drop (n + length s) mem).
Proof.
  intros H. rewrite <- (take_drop n mem) at 1.
  rewrite <- (take_drop (length s) (drop n mem)), drop_drop.
  pose proof (store_range_app (take n mem) (take (length s) (drop n mem)) (drop (n + length s) mem) s) as HS.
  replace (length (take n mem)) with n in HS by (rewrite length_take; lia). apply HS.
  rewrite length_take, length_drop. lia.
Qed.

Lemma buff_cat_ok b p :
  buff_ok b -> cap b + Z.of_nat (length (default [] p)) + 1 <= 2 ^ 31 ->
  exists b', buff_cat b p = Ok b' /\ buff_ok b' /\ contents b' = contents b ++ default [] p /\
    size b' = size b + Z.of_nat (length (default [] p)) /\
    cap b' <= Z.max (cap b) (4 * size b' + 2).
Proof.
  intros Hb Hbig. destruct p as [[|c s]|]; simpl default in *.
  1, 3: exists b; rewrite app_nil_r, Z.add_0_r; split_and!; try done; apply Hb || lia.
  unfold buff_cat. set (t := c :: s) in *.
  destruct (buff_grow_ok b (Z.of_nat (length t))) as ((Hl & Hs & Hc) & Hcont & Hsz & Hlt & Hmono);
    [done|unfold t; simpl; lia|done|].
  set (b1 := buff_grow b (Z.of_nat (length t))) in *. cbv zeta.
  rewrite append_at, bind_Ok by lia. eexists. split; [reflexivity|].
  assert (Hu : u32 (size b1 + Z.of_nat (length t)) = size b1 + Z.of_nat (length t))
    by (unfold u32; apply Z.mod_small; lia).
  unfold buff_ok, contents in *. cbn [size cap buff]. rewrite Hu.
  rewrite !length_app, length_take, length_drop. split; [lia|]. split; [|lia].
  rewrite <- Hcont. replace (Z.to_nat (size b1 + Z.of_nat (length t)))
    with (length (take (Z.to_nat (size b1)) (buff b1) ++ t)).
  - by rewrite app_assoc, take_app_length.
  - rewrite length_app, length_take. lia.
Qed.

(** [buff_cat] appends: on a well-formed buffer, a string that fits below
    2^31 bytes is appended to the contents, the buffer stays well-formed, and
    [NULL] or the empty string leave it unchanged. *)
Theorem buff_cat_spec (b : buff_t) (p : option (list Z)) (Hb : buff_ok b)
  (Hbig : cap b + Z.of_nat (length (default [] p)) + 1 <= 2 ^ 31) :
  exists b', buff_cat b p = Ok b' /\ buff_ok b' /\ contents b' = contents b ++ default [] p.
Proof. destruct (buff_cat_ok b p Hb Hbig) as (b' & H1 & H2 & H3 & _). by exists b'. Qed.

(** [buff_catn] appends the [rsize] bytes of a block and keeps the buffer
    well-formed and NUL-terminated, unless the block starts with a zero byte: then
    nothing is appended. *)
Theorem buff_catn_spec (b : buff_t) (mem : list Z) (rsize : Z) (Hb : buff_ok b)
  (Hr : 0 < rsize <= Z.of_nat (length mem)) (Hbig : cap b + rsize + 1 <= 2 ^ 31) :
  exists b', buff_catn b (Some mem) rsize = Ok b' /\ buff_ok b' /\
    (if bool_decide (mem !! 0%nat = Some 0) then b' = b
     else contents b' = contents b ++ take (Z.to_nat rsize) mem /\
          buff b' !! Z.to_nat (size b') = Some 0 /\
          size b' = size b + rsize /\ cap b' <= Z.max (cap b) (4 * size b' + 2)).
Proof.
  unfold buff_catn. destruct mem as [|c mem]; [simpl in Hr; lia|]. change (load (c :: mem) 0) with (Ok c). rewrite bind_Ok.
  destruct (Z.eqb_spec c 0) as [->|Hne].
  { exists b. rewrite bool_decide_true by done. done. }
  rewrite bool_decide_false by (simpl; congruence).
  destruct (buff_grow_ok b rsize) as ((Hl & Hs & Hc) & Hcont & Hsz & Hlt & Hmono); [done|lia|done|].
  set (b1 := buff_grow b rsize) in *. cbv zeta.
  unfold load_range. rewrite decide_True, drop_0, bind_Ok by lia.
  set (t := take (Z.to_nat rsize) (c :: mem)).
  assert (Ht : Z.of_nat (length t) = rsize) by (unfold t; rewrite length_take; lia).
  rewrite append_at, bind_Ok by lia.
  assert (Hu : u32 (size b1 + rsize) = size b1 + rsize) by (unfold u32; apply Z.mod_small; lia).
  rewrite Hu. set (pre := take (Z.to_nat (size b1)) (buff b1)).
  assert (Hpre : length pre = Z.to_nat (size b1)) by (unfold pre; rewrite length_take; lia).
  destruct (drop (Z.to_nat (size b1) + length t) (buff b1)) as [|o rest] eqn:Hrest.
  { apply (f_equal length) in Hrest. rewrite length_drop in Hrest. simpl in Hrest. lia. }
  rewrite app_assoc. replace (Z.to_nat (size b1 + rsize)) with (length (pre ++ t))
    by (rewrite length_app; lia).
  rewrite store_app, bind_Ok. eexists. split; [reflexivity|].
  apply (f_equal length) in Hrest. rewrite length_drop in Hrest. simpl in Hrest.
  unfold buff_ok, contents in *. cbn [size cap buff]. rewrite !length_app. simpl length.
  replace (Z.to_nat (size b1 + rsize)) with (length (pre ++ t)) by (rewrite length_app; lia).
  rewrite take_app_length, list_lookup_middle by done. fold pre in Hcont. rewrite <- Hcont.
  split_and!; try done; lia.
Qed.

End with_junk.

Lemma nearest_power_spec_witness :
  u32 (nearest_power 100) = (if 100 <=? 2 ^ 31 then 2 ^ Z.log2_up 100 else 0) /\
  100 <= 2 ^ Z.log2_up 100 /\
  (forall k, 0 <= k -> 100 <= 2 ^ k -> 2 ^ Z.log2_up 100 <= 2 ^ k).
Proof. apply (nearest_power_spec 100). lia. Defined.

Lemma buff_cat_spec_witness :
  exists b', buff_cat (fun _ => 0) buff_empty (Some [68; 85; 68; 69]) = Ok b' /\
    buff_ok b' /\ contents b' = contents buff_empty ++ default [] (Some [68; 85; 68; 69]).
Proof.
  apply (buff_cat_spec (fun _ => 0) buff_empty (Some [68; 85; 68; 69]));
    [unfold buff_ok; simpl; lia | simpl; lia].
Defined.

Lemma buff_catn_spec_witness :
  exists b', buff_catn (fun _ => 0) buff_empty (Some [68; 0; 69; 70]) 3 = Ok b' /\ buff_ok b' /\
    (if bool_decide ([68; 0; 69; 70] !! 0%nat = Some 0) then b' = buff_empty
     else contents b' = contents buff_empty ++ take (Z.to_nat 3) [68; 0; 69; 70] /\
          buff b' !! Z.to_nat (size b') = Some 0 /\
          size b' = size buff_empty + 3 /\ cap b' <= Z.max (cap buff_empty) (4 * size b' + 2)).
Proof.
  apply (buff_catn_spec (fun _ => 0) buff_empty [68; 0; 69; 70] 3);
    [unfold buff_ok; simpl; lia | simpl; lia | simpl; lia].
Defined.

End Buff.
