(* ===== verification/ToolIndex.v ===== *)
(** src/tool.c, the index files: chunks of document ids compressed with the
    delta codec ([chunk_t]), sequential readers and writers of (term, doc) tuples
    over them ([ifile_t]) and of forward documents ([iforward_t]).

    A [FILE] is its bytes and the read position; [fwrite] appends.  [junk] is the
    unknown contents of fresh memory; allocation and I/O errors other than end of
    file are not modelled (the code does not test for them).  Structures are
    written to disk as four or three little-endian 32-bit words. *)
From S2P Require Import Prelude Simd StreamVByte StreamVByteDelta.
Import Svb SvbDelta.

Module Index.

(** * <stdio.h> *)
Record FILE := File { bytes : list Z; pos : nat }.

(** [fread(buf, n, 1, f)] for [n > 0]: the bytes delivered and the new position;
    the call returns 1 exactly when all [n] bytes are delivered. *)
Definition fread (f : FILE) (n : nat) : list Z * FILE :=
  let bs := take n (drop (pos f) (bytes f)) in
  (bs, File (bytes f) (pos f + length bs)).

Definition fwrite (f : FILE) (bs : list Z) : FILE := File (bytes f ++ bs) (pos f).

(** Opening a finished file for reading. *)
Definition reopen (f : FILE) : FILE := File (bytes f) 0.

(** * Data *)
Record tupe_t := Tupe { term : Z; doc : Z }.

Record chunk_t := Chunk { size : Z; cap : Z; buffer : list Z }.

Record chunk_head_t := ChunkHead { h_N : Z; h_term : Z; h_doc : Z; h_bcount : Z }.

Record ifile_t := Ifile {
  inf : FILE; tupe : tupe_t; h : chunk_head_t; chunk : chunk_t; roff : Z
}.

Record forward_head_t := ForwardHead { f_N : Z; f_bcount : Z; f_id : Z }.
Record forward_t := Forward { fh : forward_head_t; fchunk : chunk_t }.

(** The structures in memory and on disk. *)
Definition head_bytes (x : chunk_head_t) : list Z :=
  le_split 4 (h_N x) ++ le_split 4 (h_term x) ++ le_split 4 (h_doc x) ++ le_split 4 (h_bcount x).

Definition word (i : nat) (bs : list Z) : Z := le_combine (take 4 (drop (4 * i) bs)).

Definition head_of_bytes (bs : list Z) : chunk_head_t :=
  ChunkHead (word 0 bs) (word 1 bs) (word 2 bs) (word 3 bs).

Definition fhead_bytes (x : forward_head_t) : list Z :=
  le_split 4 (f_N x) ++ le_split 4 (f_bcount x) ++ le_split 4 (f_id x).

Definition fhead_of_bytes (bs : list Z) : forward_head_t :=
  ForwardHead (word 0 bs) (word 1 bs) (word 2 bs).

(** Bytes read over the start of a structure. *)
Definition overlay (new old : list Z) : list Z := new ++ drop (length new) old.

(** * Chunks *)
Section with_junk.
Context (junk : nat -> Z).

Definition malloc8 (n : nat) : list Z := map (fun i => u8 (junk i)) (seq 0 n).
Definition realloc32 (mem : list Z) (n : nat) : list Z :=
  take n mem ++ map (fun i => u32 (junk i)) (seq 0 (n - length mem)).

Definition chunk_empty : chunk_t := Chunk 0 0 [].

Definition chunk_buffer (c : chunk_t) : list Z := buffer c.
Definition chunk_size (c : chunk_t) : Z := s32 (size c).
Definition chunk_reset (c : chunk_t) : chunk_t := Chunk 0 (cap c) (buffer c).

Definition chunk_resize (c : chunk_t) (sz : Z) : chunk_t :=
  if (size c <? sz) || (cap c =? 0)
  then Chunk (size c) (u32 sz) (realloc32 (buffer c) (Z.to_nat sz))
  else c.

(** [chunk_push]: the chunk and whether it is now full. *)
Definition chunk_push (c : chunk_t) (value : Z) : outcome (chunk_t * bool) :=
  let c := chunk_resize c 256 in
  b ← store (buffer c) (Z.to_nat (size c)) value;
  let c := Chunk (u32 (size c + 1)) (cap c) b in
  Ok (c, size c =? cap c).

(** [chunk_get]: [None] is the result -1, otherwise the new offset and the value. *)
Definition chunk_get (c : chunk_t) (off : Z) : outcome (option (Z * Z)) :=
  if cap c <=? off then Ok None
  else v ← load (buffer c) (Z.to_nat off); Ok (Some (u32 (off + 1), v)).

(** [chunk_free]: whether the block is passed to [free]. *)
Definition chunk_free (c : chunk_t) : bool := 0 <? cap c.

(** [chunk_compress]: the compressed block and the byte count. *)
Definition chunk_compress (c : chunk_t) : outcome (list Z * Z) :=
  _ ← c_assert (0 <? size c);
  let cbuffer := malloc8 (4 * Z.to_nat (size c)) in
  '(csize, cbuffer) ← streamvbyte_delta_encode (buffer c) (size c) cbuffer 0;
  Ok (cbuffer, u32 (Z.of_nat csize)).

Definition chunk_decompress (c : chunk_t) (cbuffer : list Z) (N : Z) : outcome chunk_t :=
  let c := chunk_resize c N in
  '(_, b) ← streamvbyte_delta_decode cbuffer (buffer c) N 0;
  Ok (Chunk (size c) (cap c) b).

(** [read_block] *)
Definition read_block (f : FILE) (N bcount : Z) (c : chunk_t) : outcome (FILE * chunk_t) :=
  let cbuffer := malloc8 (4 * Z.to_nat N) in
  let '(bs, f) := fread f (Z.to_nat bcount) in
  cbuffer ← store_range cbuffer 0 bs;
  c ← chunk_decompress c cbuffer N;
  Ok (f, c).

(** * Forward documents *)
Definition forward_push_term (f : forward_t) (t : Z) : outcome forward_t :=
  '(c, _) ← chunk_push (fchunk f) t; Ok (Forward (fh f) c).

Definition forward_set_id (f : forward_t) (id : Z) : forward_t :=
  Forward (ForwardHead (f_N (fh f)) (f_bcount (fh f)) id) (fchunk f).

Definition forward_free (f : forward_t) : bool := chunk_free (fchunk f).

(** [iforward_read]: the result is -1 ([false]) at the end of the file. *)
Definition iforward_read (file : FILE) (fw : forward_t) : outcome (FILE * forward_t * bool) :=
  let '(bs, file) := fread file 12 in
  let hd := fhead_of_bytes (overlay bs (fhead_bytes (fh fw))) in
  if (length bs =? 12)%nat then
    '(file, c) ← read_block file (f_N hd) (f_bcount hd) (fchunk fw);
    Ok (file, Forward hd c, true)
  else Ok (file, Forward hd (fchunk fw), false).

Definition iforward_write (file : FILE) (fw : forward_t) : outcome (FILE * forward_t) :=
  '(cbuff, bcount) ← chunk_compress (fchunk fw);
  let hd := ForwardHead (u32 (chunk_size (fchunk fw))) bcount (f_id (fh fw)) in
  let file := fwrite file (fhead_bytes hd) in
  bs ← load_range cbuff 0 (Z.to_nat bcount);
  Ok (fwrite file bs, Forward hd (fchunk fw)).

(** * Index files *)
Definition ifile_init (f : FILE) : ifile_t :=
  Ifile f (Tupe 0 0) (ChunkHead 0 0 0 0) chunk_empty 0.

(** [ifile_real_read]: [false] is the result -1. *)
Definition ifile_real_read (file : ifile_t) : outcome (ifile_t * bool) :=
  let '(bs, f) := fread (inf file) 16 in
  let hd := head_of_bytes (overlay bs (head_bytes (h file))) in
  if (length bs =? 16)%nat then
    '(f, c) ← read_block f (h_N hd) (h_bcount hd) (chunk file);
    Ok (Ifile f (tupe file) hd c (roff file), true)
  else Ok (Ifile f (tupe file) hd (chunk file) (roff file), false).

Definition ifile_real_write (file : ifile_t) : outcome ifile_t :=
  '(cbuff, bcount) ← chunk_compress (chunk file);
  let hd := ChunkHead (u32 (chunk_size (chunk file))) (h_term (h file)) (h_doc (h file)) bcount in
  let f := fwrite (inf file) (head_bytes hd) in
  bs ← load_range cbuff 0 (Z.to_nat bcount);
  Ok (Ifile (fwrite f bs) (tupe file) (h file) (chunk file) (roff file)).

(** [ifile_read]: the next tuple is left in [tupe]; [false] is the result -1. *)
Definition ifile_read (file : ifile_t) : outcome (ifile_t * bool) :=
  g ← chunk_get (chunk file) (roff file);
  match g with
  | Some (off, v) =>
      Ok (Ifile (inf file) (Tupe (term (tupe file)) v) (h file) (chunk file) off, true)
  | None =>
      '(file, ok) ← ifile_real_read file;
      if (ok : bool) then
        Ok (Ifile (inf file) (Tupe (h_term (h file)) (h_doc (h file))) (h file) (chunk file)
              (u32 (roff file + 1)), true)
      else Ok (file, false)
  end.

Definition set_chunk (file : ifile_t) (c : chunk_t) : ifile_t :=
  Ifile (inf file) (tupe file) (h file) c (roff file).

(** [ifile_write] *)
Definition ifile_write (file : ifile_t) (t : tupe_t) : outcome ifile_t :=
  let file :=
    if chunk_size (chunk file) =? 0 then
      Ifile (inf file) (tupe file)
        (ChunkHead (h_N (h file)) (term t) (doc t) (h_bcount (h file))) (chunk file) (roff file)
    else file in
  file ←
    (if negb (term t =? h_term (h file)) then
       file ← ifile_real_write file; Ok (set_chunk file (chunk_reset (chunk file)))
     else Ok file);
  '(c, full) ← chunk_push (chunk file) (doc t);
  let file := set_chunk file c in
  if (full : bool) then
    file ← ifile_real_write file; Ok (set_chunk file (chunk_reset (chunk file)))
  else Ok file.

(** [ifile_flush] *)
Definition ifile_flush (file : ifile_t) : outcome ifile_t :=
  file ← ifile_real_write file;
  Ok (set_chunk file (Chunk 0 (cap (chunk file)) (buffer (chunk file)))).

(** [ifile_close]: the stream is closed; whether the chunk is freed. *)
Definition ifile_close (file : ifile_t) : bool := chunk_free (chunk file).

(** [compare_ifile] *)
Definition compare_ifile (a b : ifile_t) : Z :=
  if doc (tupe a) <? doc (tupe b) then -1
  else if doc (tupe b) <? doc (tupe a) then 1 else 0.

(** * Chunks in memory *)

(** A chunk being filled holds the values [docs]. *)
Definition holds (c : chunk_t) (docs : list Z) : Prop :=
  size c = Z.of_nat (length docs) /\ Z.of_nat (length (buffer c)) = cap c /\
  at_off (buffer c) 0 docs /\ (cap c = 0 /\ docs = [] \/ cap c = 256).

Lemma length_realloc32 mem n : length (realloc32 mem n) = n.
Proof. unfold realloc32. rewrite length_app, length_take, length_map, length_seq. lia. Qed.

Lemma realloc32_at_off mem n docs :
  at_off mem 0 docs -> (length docs <= n)%nat -> at_off (realloc32 mem n) 0 docs.
Proof.
  intros (pre & post & -> & Hpre) Hn. destruct pre; [|done]. simpl. unfold realloc32.
  rewrite take_app_ge, <- app_assoc by lia. apply at_off_prefix.
Qed.

Lemma holds_empty : holds chunk_empty [].
Proof. split_and!; try done; [apply at_off_refl|by left]. Qed.

Lemma holds_reset c docs : holds c docs -> holds (chunk_reset c) [].
Proof.
  intros (Hs & Hl & Hat & Hc). split_and!; simpl; try done.
  - exists [], (buffer c). done.
  - destruct Hc as [[? _]|?]; [by left|by right].
Qed.

Lemma chunk_size_holds c docs :
  holds c docs -> (length docs <= 256)%nat -> chunk_size c = Z.of_nat (length docs).
Proof. intros (Hs & _) Hl. unfold chunk_size. rewrite Hs. zlia. Qed.

Lemma chunk_push_ok c docs v :
  holds c docs -> (length docs < 256)%nat ->
  exists c', chunk_push c v = Ok (c', bool_decide (length docs + 1 = 256)%nat) /\
    holds c' (docs ++ [v]) /\ cap c' = 256.
Proof.
  intros (Hs & Hl & Hat & Hc) Hlen. unfold chunk_push, chunk_resize.
  replace ((size c <? 256) || (cap c =? 0)) with true
    by (symmetry; apply orb_true_iff; left; apply Z.ltb_lt; lia).
  assert (Hat' := realloc32_at_off _ 256 _ Hat ltac:(lia)).
  pose proof (length_realloc32 (buffer c) 256) as Hl'. simpl buffer. change (Z.to_nat 256) with 256%nat.
  destruct Hat' as (pre & post & Heq & Hpre). destruct pre; [|done]. simpl in Heq. rewrite Heq in *.
  rewrite length_app in Hl'. destruct post as [|o post]; [simpl in Hl'; lia|].
  simpl size. rewrite Hs, Nat2Z.id, store_app, bind_Ok.
  cbn [size cap]. change (u32 256) with 256.
  exists (Chunk (u32 (Z.of_nat (length docs) + 1)) 256 (docs ++ v :: post)). split.
  - do 2 f_equal. rewrite (bool_decide_ext _ (u32 (Z.of_nat (length docs) + 1) = 256)) by zlia.
    by case_bool_decide; [apply Z.eqb_eq|apply Z.eqb_neq].
  - simpl in Hl'. unfold holds. cbn [size cap buffer]. split_and!; try done.
    + rewrite length_app. simpl. zlia.
    + rewrite length_app. simpl. lia.
    + rewrite cons_middle, app_assoc. apply at_off_prefix.
    + by right.
Qed.

(** Compressing fits the [4 * size] bytes allocated for it and leaves the room
    that the decoder's vector loads need. *)
Definition fits (docs : list Z) : Prop :=
  (length (delta_encoded 0 docs) + avx_slack (length docs) <= 4 * length docs)%nat.

#[export] Instance fits_dec docs : Decision (fits docs).
Proof. unfold fits. apply _. Defined.

Lemma length_malloc8 n : length (malloc8 n) = n.
Proof. unfold malloc8. by rewrite length_map, length_seq. Qed.

Lemma chunk_compress_ok c docs :
  holds c docs -> docs <> [] -> (length docs <= 256)%nat ->
  (length (delta_encoded 0 docs) <= 4 * length docs)%nat ->
  exists cb, chunk_compress c = Ok (cb, Z.of_nat (length (delta_encoded 0 docs))) /\
    at_off cb 0 (delta_encoded 0 docs).
Proof.
  intros (Hs & Hl & Hat & Hc) Hne Hlen Hfit. unfold chunk_compress.
  replace (0 <? size c) with true
    by (symmetry; apply Z.ltb_lt; rewrite Hs; destruct docs; [done|simpl; lia]).
  simpl c_assert. rewrite bind_Ok, Hs, (delta_encode_ok docs), bind_Ok;
    try (rewrite ?length_malloc8; done || lia).
  eexists. split; [|apply at_off_prefix]. do 2 f_equal. unfold u32. apply Z.mod_small. lia.
Qed.

(** The compressed documents do not fit the block allocated for them. *)
Definition overruns (docs : list Z) : Prop := (4 * length docs < length (delta_encoded 0 docs))%nat.

Lemma chunk_compress_long c docs : holds c docs -> docs <> [] -> overruns docs -> chunk_compress c = Undef.
Proof.
  intros (Hs & Hl & Hat & Hc) Hne Hlong. unfold overruns in Hlong. unfold chunk_compress.
  replace (0 <? size c) with true
    by (symmetry; apply Z.ltb_lt; rewrite Hs; destruct docs; [done|simpl; lia]).
  assert (length docs <= 256)%nat.
  { apply at_off_length in Hat. destruct Hc as [[H0 ->]|H]; [done|lia]. }
  simpl c_assert. rewrite bind_Ok, Hs, (delta_encode_overrun docs);
    rewrite ?length_malloc8; done || lia.
Qed.

(** C39: [chunk_compress] allocates four bytes per value, which is not enough in
    general: whenever the encoding of the held values is longer, the encoder
    writes past the end of the block. *)
Theorem chunk_compress_overrun (c : chunk_t) (docs : list Z) (Hc : holds c docs) (Hne : docs <> [])
  (Hlong : (4 * length docs < length (delta_encoded 0 docs))%nat) :
  chunk_compress c = Undef.
Proof. by apply (chunk_compress_long c docs). Qed.

(** Documents whose gaps are below 2^16 always fit. *)
Lemma svb_data_short ds :
  Forall (fun d => 0 <= d < 2 ^ 16) ds -> (length (svb_data ds) <= 2 * length ds)%nat.
Proof.
  induction 1 as [|d ds Hd H IH]; [done|].
  rewrite svb_data_cons, length_app, length_bytes_of.
  assert (code_of d <= 1) by (unfold code_of; repeat case_match; lia).
  simpl length. lia.
Qed.

Lemma fits_gaps docs :
  docs <> [] -> Forall (fun d => 0 <= d < 2 ^ 16) (deltas 0 docs) -> fits docs.
Proof.
  intros Hne H. unfold fits, delta_encoded. rewrite length_svb_encoded.
  apply svb_data_short in H. rewrite length_deltas in *.
  assert (0 < length docs)%nat by (destruct docs; [done|simpl; lia]).
  unfold avx_slack. pose proof (Nat.div_mod_eq (length docs + 3) 4). case_decide; lia.
Qed.

(** * Chunks on disk *)

(** A chunk on disk: the header's term and first document, and the documents. *)
Record dchunk := DChunk { d_term : Z; d_doc : Z; d_docs : list Z }.

Definition disk_head (d : dchunk) : chunk_head_t :=
  ChunkHead (Z.of_nat (length (d_docs d))) (d_term d) (d_doc d)
    (Z.of_nat (length (delta_encoded 0 (d_docs d)))).

Definition disk_bytes (d : dchunk) : list Z :=
  head_bytes (disk_head d) ++ delta_encoded 0 (d_docs d).

Definition disk (cs : list dchunk) : list Z := concat (map disk_bytes cs).

(** A chunk the writer can emit and the reader can load. *)
Definition dchunk_ok (d : dchunk) : Prop :=
  is_u32 (d_term d) /\ is_u32 (d_doc d) /\ Forall is_u32 (d_docs d) /\ d_docs d <> [] /\
  (length (d_docs d) <= 256)%nat /\ fits (d_docs d).

Lemma length_head_bytes x : length (head_bytes x) = 16%nat.
Proof. unfold head_bytes. by rewrite !length_app, !length_le_split. Qed.

Lemma word_le_split i pre x post :
  is_u32 x -> length pre = (4 * i)%nat -> word i (pre ++ le_split 4 x ++ post) = x.
Proof.
  intros Hx Hpre. unfold word. rewrite drop_app_length' by done.
  rewrite take_app_length' by (by rewrite length_le_split). rewrite le_combine_split.
  apply Z.mod_small, Hx.
Qed.

Lemma head_of_bytes_head x :
  is_u32 (h_N x) -> is_u32 (h_term x) -> is_u32 (h_doc x) -> is_u32 (h_bcount x) ->
  head_of_bytes (head_bytes x) = x.
Proof.
  destruct x as [a b c d]; cbn [h_N h_term h_doc h_bcount]; intros Ha Hb Hc Hd.
  unfold head_of_bytes, head_bytes. cbn [h_N h_term h_doc h_bcount]. f_equal.
  - by apply (word_le_split 0 []).
  - by apply (word_le_split 1 (le_split 4 a)).
  - rewrite app_assoc. apply (word_le_split 2 (le_split 4 a ++ le_split 4 b)); [done|].
    by rewrite length_app, !length_le_split.
  - rewrite <- (app_nil_r (le_split 4 d)), !app_assoc, <- (app_assoc _ (le_split 4 d)).
    apply word_le_split; [done|]. by rewrite !length_app, !length_le_split.
Qed.

Lemma ifile_real_write_ok file docs :
  holds (chunk file) docs -> docs <> [] -> (length docs <= 256)%nat -> fits docs ->
  ifile_real_write file =
  Ok (Ifile (fwrite (inf file) (disk_bytes (DChunk (h_term (h file)) (h_doc (h file)) docs)))
        (tupe file) (h file) (chunk file) (roff file)).
Proof.
  intros Hh Hne Hlen Hfit. unfold ifile_real_write. unfold fits in Hfit.
  destruct (chunk_compress_ok (chunk file) docs) as (cb & -> & Hat); [done|done|done|lia|].
  rewrite bind_Ok, (chunk_size_holds _ docs) by done. cbv zeta.
  rewrite Nat2Z.id, (at_off_load_range _ _ _ Hat), bind_Ok.
  assert (u32 (Z.of_nat (length docs)) = Z.of_nat (length docs)) as ->
    by (unfold u32; apply Z.mod_small; lia).
  unfold fwrite, disk_bytes. cbn [bytes pos d_docs d_term d_doc]. by rewrite <- app_assoc.
Qed.

(** * The writer *)

(** The writer as it is meant to be read off its code: the header fields, the
    pending documents and the chunks already emitted. *)
Record wstate := WState { w_term : Z; w_doc : Z; w_pend : list Z; w_out : list dchunk }.

Definition emit (w : wstate) : wstate :=
  WState (w_term w) (w_doc w) [] (w_out w ++ [DChunk (w_term w) (w_doc w) (w_pend w)]).

(** The three stages of a write: set the header of an empty chunk, emit the
    chunk of another term, append and emit a full chunk. *)
Definition awrite_head (w : wstate) (t : tupe_t) : wstate :=
  if decide (w_pend w = []) then WState (term t) (doc t) [] (w_out w) else w.
Definition awrite_term (w : wstate) (t : tupe_t) : wstate :=
  if decide (term t = w_term w) then w else emit w.
Definition awrite_push (w : wstate) (t : tupe_t) : wstate :=
  let w := WState (w_term w) (w_doc w) (w_pend w ++ [doc t]) (w_out w) in
  if decide (length (w_pend w) = 256%nat) then emit w else w.
Definition awrite (w : wstate) (t : tupe_t) : wstate :=
  awrite_push (awrite_term (awrite_head w t) t) t.

(** The file of a writer that has done [w]. *)
Definition writes (file : ifile_t) (w : wstate) : Prop :=
  bytes (inf file) = disk (w_out w) /\ h_term (h file) = w_term w /\ h_doc (h file) = w_doc w /\
  holds (chunk file) (w_pend w) /\ (length (w_pend w) < 256)%nat.

Definition winit : wstate := WState 0 0 [] [].

Lemma writes_init : writes (ifile_init (File [] 0)) winit.
Proof. split_and!; try done; [apply holds_empty|simpl; lia]. Qed.

Lemma disk_snoc cs d : disk (cs ++ [d]) = disk cs ++ disk_bytes d.
Proof. unfold disk. rewrite map_app, concat_app. simpl. by rewrite app_nil_r. Qed.

(** Emitting the pending documents. *)
Lemma emit_ok file w :
  bytes (inf file) = disk (w_out w) -> h_term (h file) = w_term w -> h_doc (h file) = w_doc w ->
  holds (chunk file) (w_pend w) -> (length (w_pend w) <= 256)%nat -> w_pend w <> [] ->
  fits (w_pend w) ->
  exists file', (file ← ifile_real_write file; Ok (set_chunk file (chunk_reset (chunk file)))) = Ok file' /\
    writes file' (emit w).
Proof.
  intros Hb Ht Hd Hh Hl Hne Hf. rewrite (ifile_real_write_ok file (w_pend w)), bind_Ok by done.
  eexists. split; [reflexivity|]. split_and!; simpl; try done.
  - rewrite disk_snoc, Hb, Ht, Hd. done.
  - by eapply holds_reset.
  - lia.
Qed.

Definition emitted_fit (w : wstate) : Prop := Forall (fun d => fits (d_docs d)) (w_out w).

Lemma awrite_push_out w t : w_out w `prefix_of` w_out (awrite_push w t).
Proof.
  unfold awrite_push. case_decide; simpl; [by eexists|done].
Qed.

(** First stage. *)
Lemma write_head_ok file w t :
  writes file w ->
  writes (if chunk_size (chunk file) =? 0 then
            Ifile (inf file) (tupe file)
              (ChunkHead (h_N (h file)) (term t) (doc t) (h_bcount (h file))) (chunk file) (roff file)
          else file) (awrite_head w t).
Proof.
  intros (Hb & Ht & Hd & Hh & Hl). rewrite (chunk_size_holds _ (w_pend w)) by (done || lia).
  unfold awrite_head. destruct (w_pend w) as [|d ds] eqn:Ep.
  - rewrite decide_True by done. split_and!; try done; simpl; lia.
  - rewrite decide_False by done.
    replace (Z.of_nat (length (d :: ds)) =? 0) with false by done.
    split_and!; rewrite ?Ep; done.
Qed.

(** Second stage: a pending chunk of another term is emitted. *)
Lemma write_term_ok file w t :
  writes file w -> (w_pend w = [] -> term t = w_term w) -> emitted_fit (awrite_term w t) ->
  exists file',
    (if negb (term t =? h_term (h file)) then
       file ← ifile_real_write file; Ok (set_chunk file (chunk_reset (chunk file)))
     else Ok file) = Ok file' /\ writes file' (awrite_term w t).
Proof.
  intros (Hb & Ht & Hd & Hh & Hl) Hemp. unfold awrite_term. rewrite Ht. case_decide as Hterm.
  - rewrite Hterm, Z.eqb_refl. intros _. by exists file.
  - replace (term t =? w_term w) with false by (symmetry; by apply Z.eqb_neq). cbn [negb].
    intros Hfit. apply Forall_app in Hfit as [_ Hin]. apply Forall_cons_1 in Hin as [Hf _].
    apply emit_ok; try done; try lia. intros He. apply Hterm, Hemp, He.
Qed.

(** Third stage. *)
Lemma write_push_ok file w t :
  writes file w -> emitted_fit (awrite_push w t) ->
  exists file',
    ('(c, full) ← chunk_push (chunk file) (doc t);
     let file := set_chunk file c in
     if (full : bool) then
       file ← ifile_real_write file; Ok (set_chunk file (chunk_reset (chunk file)))
     else Ok file) = Ok file' /\ writes file' (awrite_push w t).
Proof.
  intros (Hb & Ht & Hd & Hh & Hl) Hfit. unfold awrite_push in *.
  destruct (chunk_push_ok (chunk file) (w_pend w) (doc t) Hh Hl) as (c' & -> & Hc' & Hcap).
  rewrite bind_Ok. cbn [w_pend] in Hfit |- *.
  rewrite (bool_decide_ext _ (length (w_pend w ++ [doc t]) = 256%nat)) by (rewrite length_app; done).
  destruct (decide (length (w_pend w ++ [doc t]) = 256%nat)) as [Hfull|Hfull].
  - rewrite bool_decide_true by done. apply Forall_app in Hfit as [_ Hin].
    apply Forall_cons_1 in Hin as [Hf _]. apply emit_ok; simpl; try done; [lia|].
    by destruct (w_pend w).
  - rewrite bool_decide_false by done. eexists. split; [reflexivity|].
    split_and!; simpl; try done. rewrite length_app in *. simpl in *. lia.
Qed.

Lemma ifile_write_ok file w t :
  writes file w -> emitted_fit (awrite w t) ->
  exists file', ifile_write file t = Ok file' /\ writes file' (awrite w t).
Proof.
  intros Hw Hfit. unfold ifile_write. apply (write_head_ok _ _ t) in Hw.
  set (file1 := if chunk_size (chunk file) =? 0 then _ else file) in *. clearbody file1.
  unfold awrite in *. set (w1 := awrite_head w t) in *.
  assert (Hemp : w_pend w1 = [] -> term t = w_term w1)
    by (unfold w1, awrite_head; by case_decide).
  destruct (write_term_ok file1 w1 t Hw Hemp) as (file2 & -> & Hw2).
  { destruct (awrite_push_out (awrite_term w1 t) t) as [k Hk]. unfold emitted_fit in *.
    rewrite Hk in Hfit. by apply Forall_app in Hfit as [? _]. }
  rewrite bind_Ok. by apply write_push_ok.
Qed.

(** C32: [ifile_write] refines the abstract writer: if the file records what the
    abstract writer did and every chunk it emits fits its buffer, writing a tuple
    succeeds and records one more abstract step; in particular the chunk never
    stays full, so the next write is in bounds. *)
Theorem ifile_write_refines (file : ifile_t) (w : wstate) (t : tupe_t)
  (Hw : writes file w) (Hfit : emitted_fit (awrite w t)) :
  exists file', ifile_write file t = Ok file' /\ writes file' (awrite w t).
Proof. by apply ifile_write_ok. Qed.

(** Flushing an empty writer aborts: [ifile_flush] compresses an empty chunk,
    whose [assert] fails, so a merge with no output, or one whose output fills its
    last chunk exactly, does not finish. *)
Theorem ifile_flush_empty_aborts (file : ifile_t) (Hh : holds (chunk file) []) :
  ifile_flush file = AssertFail.
Proof.
  destruct Hh as (Hs & _). unfold ifile_flush, ifile_real_write, chunk_compress.
  by rewrite Hs.
Qed.

Lemma ifile_flush_ok file w :
  writes file w -> w_pend w <> [] -> fits (w_pend w) ->
  exists file', ifile_flush file = Ok file' /\ bytes (inf file') = disk (w_out (emit w)).
Proof.
  intros (Hb & Ht & Hd & Hh & Hl) Hne Hf. unfold ifile_flush.
  rewrite (ifile_real_write_ok file (w_pend w)), bind_Ok by (done || lia).
  eexists. split; [reflexivity|]. simpl. by rewrite disk_snoc, Hb, Ht, Hd.
Qed.

(** * The reader *)

(** The reader as its code works: the current term, the decompressed chunk, the
    offset [roff], which no operation resets, and the chunks still on disk. *)
Record rstate := RState { r_term : Z; r_buf : list Z; r_off : nat; r_cs : list dchunk }.

Definition rinit (cs : list dchunk) : rstate := RState 0 [] 0 cs.

Definition aread (r : rstate) : option (tupe_t * rstate) :=
  match r_buf r !! r_off r with
  | Some v => Some (Tupe (r_term r) v, RState (r_term r) (r_buf r) (S (r_off r)) (r_cs r))
  | None =>
      match r_cs r with
      | [] => None
      | d :: cs => Some (Tupe (d_term d) (d_doc d), RState (d_term d) (d_docs d) (S (r_off r)) cs)
      end
  end.

(** The tuples delivered from chunks that are loaded when the offset is [off]:
    the header's document, then the documents from offset [off + 1] on. *)
Fixpoint later (off : nat) (cs : list dchunk) : list tupe_t :=
  match cs with
  | [] => []
  | d :: cs' =>
      Tupe (d_term d) (d_doc d) :: map (Tupe (d_term d)) (drop (S off) (d_docs d)) ++
      later (S off `max` length (d_docs d)) cs'
  end.

Definition rstream (r : rstate) : list tupe_t :=
  map (Tupe (r_term r)) (drop (r_off r) (r_buf r)) ++ later (r_off r `max` length (r_buf r)) (r_cs r).

Lemma rstream_aread r :
  match aread r with
  | Some (t, r') => rstream r = t :: rstream r' /\ r_off r' = S (r_off r)
  | None => rstream r = []
  end.
Proof.
  unfold aread, rstream. destruct (r_buf r !! r_off r) as [v|] eqn:E; simpl.
  - pose proof (lookup_lt_Some _ _ _ E). rewrite (drop_S _ _ _ E). split; [|done]. simpl.
    do 3 f_equal. lia.
  - apply lookup_ge_None in E. rewrite drop_ge by done. rewrite Nat.max_l by done.
    destruct (r_cs r) as [|d cs]; [done|]. split; [|done]. done.
Qed.

(** The file of a reader in state [r]. *)
Definition reads (file : ifile_t) (r : rstate) : Prop :=
  drop (pos (inf file)) (bytes (inf file)) = disk (r_cs r) /\ term (tupe file) = r_term r /\
  chunk file = Chunk 0 (Z.of_nat (length (r_buf r))) (r_buf r) /\
  roff file = Z.of_nat (r_off r) /\ Forall dchunk_ok (r_cs r) /\
  (length (r_buf r) <= 256)%nat /\ Z.of_nat (r_off r + length (rstream r)) < 2 ^ 32.

Lemma fread_app f a b :
  drop (pos f) (bytes f) = a ++ b ->
  fread f (length a) = (a, File (bytes f) (pos f + length a)) /\
  drop (pos f + length a) (bytes f) = b.
Proof.
  intros H. unfold fread. rewrite H, take_app_length. split; [done|].
  by rewrite <- drop_drop, H, drop_app_length.
Qed.

Lemma delta_encoded_length_bound docs :
  (length docs <= 256)%nat -> fits docs -> Z.of_nat (length (delta_encoded 0 docs)) < 2 ^ 32.
Proof. unfold fits. lia. Qed.

(** Loading the next chunk. *)
Lemma read_block_ok f d rest cap0 buf :
  drop (pos f) (bytes f) = delta_encoded 0 (d_docs d) ++ rest -> dchunk_ok d ->
  read_block f (Z.of_nat (length (d_docs d))) (Z.of_nat (length (delta_encoded 0 (d_docs d))))
    (Chunk 0 cap0 buf) =
  Ok (File (bytes f) (pos f + length (delta_encoded 0 (d_docs d))),
      Chunk 0 (Z.of_nat (length (d_docs d))) (d_docs d)).
Proof.
  intros Hf (_ & _ & Hu & Hne & Hlen & Hfit). unfold read_block. rewrite !Nat2Z.id.
  destruct (fread_app _ _ _ Hf) as [-> _]. set (enc := delta_encoded 0 (d_docs d)) in *.
  unfold fits in Hfit. fold enc in Hfit.
  destruct (split_at (malloc8 (4 * length (d_docs d))) (length enc)) as (m1 & m2 & Hm & Hm1).
  { rewrite length_malloc8. lia. }
  pose proof (length_malloc8 (4 * length (d_docs d))) as Hml. rewrite Hm in Hml |- *.
  rewrite length_app in Hml. pose proof (store_range_app [] m1 m2 enc Hm1) as HS. simpl in HS.
  rewrite HS, bind_Ok. unfold chunk_decompress, chunk_resize. cbn [size cap buffer].
  assert (0 < length (d_docs d))%nat by (destruct (d_docs d); [done|simpl; lia]).
  replace (0 <? Z.of_nat (length (d_docs d))) with true by (symmetry; apply Z.ltb_lt; lia).
  cbn [orb size cap buffer]. rewrite Nat2Z.id.
  rewrite <- (app_nil_r (realloc32 buf (length (d_docs d)))).
  rewrite delta_decode_ok, bind_Ok; try done.
  - rewrite app_nil_r, bind_Ok. unfold u32. rewrite Z.mod_small by lia. done.
  - lia.
  - apply at_off_prefix.
  - rewrite length_app. fold enc. lia.
  - apply length_realloc32.
Qed.

Lemma ifile_real_read_ok file d cs cap0 buf :
  drop (pos (inf file)) (bytes (inf file)) = disk (d :: cs) -> dchunk_ok d ->
  chunk file = Chunk 0 cap0 buf ->
  exists f, ifile_real_read file =
      Ok (Ifile f (tupe file) (disk_head d) (Chunk 0 (Z.of_nat (length (d_docs d))) (d_docs d)) (roff file), true) /\
    drop (pos f) (bytes f) = disk cs.
Proof.
  intros Hf Hd Hc. assert (Hd' := Hd). destruct Hd' as (Hut & Hud & Hu & Hne & Hlen & Hfit).
  change (disk (d :: cs)) with (disk_bytes d ++ disk cs) in Hf. unfold disk_bytes in Hf.
  rewrite <- app_assoc in Hf. unfold ifile_real_read.
  destruct (fread_app _ _ _ Hf) as [HF Hf2]. rewrite length_head_bytes in HF, Hf2. rewrite HF.
  assert (Hov : overlay (head_bytes (disk_head d)) (head_bytes (h file)) = head_bytes (disk_head d)).
  { unfold overlay. rewrite drop_ge by (by rewrite !length_head_bytes). apply app_nil_r. }
  pose proof (delta_encoded_length_bound _ Hlen Hfit).
  rewrite Hov, length_head_bytes, head_of_bytes_head by (unfold is_u32; simpl; done || lia).
  cbn [Nat.eqb]. unfold disk_head at 1 2. cbn [h_N h_bcount].
  rewrite Hc, read_block_ok with (rest := disk cs) by done. rewrite bind_Ok.
  eexists. split; [reflexivity|].
  exact (proj2 (fread_app (File (bytes (inf file)) (pos (inf file) + 16)) _ _ Hf2)).
Qed.

Lemma ifile_read_ok file r :
  reads file r ->
  match aread r with
  | Some (t, r') => exists file', ifile_read file = Ok (file', true) /\ tupe file' = t /\ reads file' r'
  | None => exists file', ifile_read file = Ok (file', false)
  end.
Proof.
  intros (Hf & Ht & Hc & Ho & Hok & Hb & Hbd). pose proof (rstream_aread r) as Hst.
  unfold ifile_read, chunk_get. rewrite Hc, Ho. cbn [cap buffer]. rewrite Nat2Z.id.
  unfold aread in *. destruct (r_buf r !! r_off r) as [v|] eqn:E.
  - pose proof (lookup_lt_Some _ _ _ E). destruct Hst as [Hst _].
    replace (Z.of_nat (length (r_buf r)) <=? Z.of_nat (r_off r)) with false
      by (symmetry; apply Z.leb_gt; lia).
    unfold load. rewrite E. cbn [of_option]. rewrite !bind_Ok.
    eexists. split; [reflexivity|]. rewrite Ht. split; [done|].
    split_and!; cbn -[rstream]; try done.
    + unfold u32. rewrite Z.mod_small; lia.
    + rewrite Hst in Hbd. simpl length in Hbd. lia.
  - apply lookup_ge_None in E.
    replace (Z.of_nat (length (r_buf r)) <=? Z.of_nat (r_off r)) with true
      by (symmetry; apply Z.leb_le; lia).
    rewrite bind_Ok. destruct (r_cs r) as [|d cs] eqn:Ecs.
    { unfold ifile_real_read, fread. rewrite Hf. cbn. by eexists. }
    apply Forall_cons_1 in Hok as [Hd Hok].
    destruct (ifile_real_read_ok file d cs _ _ Hf Hd Hc) as (f & -> & Hf').
    rewrite bind_Ok. destruct Hst as [Hst _]. rewrite Hst in Hbd. simpl length in Hbd.
    eexists. split; [reflexivity|]. split; [done|]. split_and!; cbn -[rstream]; try done.
    + rewrite Ho. unfold u32. rewrite Z.mod_small; lia.
    + apply Hd.
    + lia.
Qed.

(** The header that the first read leaves in the file. *)
Lemma ifile_read_head file d cs file' ok :
  reads file (rinit (d :: cs)) -> ifile_read file = Ok (file', ok) ->
  h file' = disk_head d /\ cap (chunk file') = Z.of_nat (length (d_docs d)).
Proof.
  intros (Hf & _ & Hc & Ho & Hok & _) Hr. apply Forall_cons_1 in Hok as [Hd _].
  unfold ifile_read, chunk_get in Hr. rewrite Hc, Ho in Hr. cbn -[ifile_real_read] in Hr.
  destruct (ifile_real_read_ok file d cs _ _ Hf Hd Hc) as (f & HR & _).
  rewrite HR in Hr. cbn in Hr. by injection Hr as <- _.
Qed.

(** C33: [ifile_read] refines the abstract reader: it delivers the next tuple of
    the abstract reader and stays related to it, or reports the end of the file
    exactly when the abstract reader has no tuple left. *)
Theorem ifile_read_refines (file : ifile_t) (r : rstate) (Hr : reads file r) :
  match aread r with
  | Some (t, r') => exists file', ifile_read file = Ok (file', true) /\ tupe file' = t /\ reads file' r'
  | None => exists file', ifile_read file = Ok (file', false)
  end.
Proof. by apply ifile_read_ok. Qed.

(** Reading until the end of the file. *)
Fixpoint read_all (fuel : nat) (file : ifile_t) : outcome (list tupe_t) :=
  match fuel with
  | O => Ok []
  | S fuel =>
      '(file, ok) ← ifile_read file;
      if (ok : bool) then ts ← read_all fuel file; Ok (tupe file :: ts) else Ok []
  end.

Lemma read_all_ok file r n :
  reads file r -> (length (rstream r) < n)%nat -> read_all n file = Ok (rstream r).
Proof.
  revert file r; induction n as [|n IH]; intros file r Hr Hn; [lia|].
  pose proof (ifile_read_ok file r Hr) as Hrd. pose proof (rstream_aread r) as Hst.
  destruct (aread r) as [[t r']|]; simpl.
  - destruct Hrd as (file' & -> & Ht & Hr'). destruct Hst as [Hst _]. rewrite Hst in Hn |- *.
    simpl in Hn. rewrite bind_Ok, (IH file' r') by (done || lia). by rewrite bind_Ok, Ht.
  - destruct Hrd as (file' & ->). by rewrite Hst, bind_Ok.
Qed.

Lemma later_length cs off :
  Forall dchunk_ok cs -> (length (later off cs) <= 257 * length cs)%nat.
Proof.
  intros H; revert off; induction H as [|d cs (_&_&_&_&Hl&_) H IH]; intros off; [done|].
  simpl. rewrite length_app, length_map, length_drop.
  specialize (IH (S off `max` length (d_docs d))%nat). simpl in IH |- *. lia.
Qed.

Lemma reads_init cs f :
  bytes f = disk cs -> Forall dchunk_ok cs -> Z.of_nat (length cs) < 2 ^ 16 ->
  reads (ifile_init (reopen f)) (rinit cs).
Proof.
  intros Hb Hok Hl. pose proof (later_length cs 0 Hok).
  split_and!; simpl; try done; [lia|]. unfold rstream. simpl. lia.
Qed.

(** what a sequential read of an index file delivers: every document of the
    first chunk; of each later chunk only the header's document and the documents
    at offsets past the running offset, which is never reset; reading always
    terminates, with one call per tuple and one more for the end of the file. *)
Theorem read_all_spec (cs : list dchunk) (f : FILE) (n : nat)
  (Hb : bytes f = disk cs) (Hok : Forall dchunk_ok cs) (Hl : Z.of_nat (length cs) < 2 ^ 16)
  (Hn : (length (later 0 cs) < n)%nat) :
  read_all n (ifile_init (reopen f)) = Ok (later 0 cs).
Proof. apply (read_all_ok _ (rinit cs)); [by apply reads_init|done]. Qed.

(** Documents are lost on the second chunk: if it has at most one document
    more than the first chunk, only its first document is delivered. *)
Theorem read_all_loses_chunks (d1 d2 : dchunk) (f : FILE) (n : nat)
  (Hb : bytes f = disk [d1; d2]) (H1 : dchunk_ok d1) (H2 : dchunk_ok d2)
  (Hhd : hd_error (d_docs d1) = Some (d_doc d1))
  (Hlen : (length (d_docs d2) <= length (d_docs d1) + 1)%nat) (Hn : (258 < n)%nat) :
  read_all n (ifile_init (reopen f)) =
  Ok (map (Tupe (d_term d1)) (d_docs d1) ++ [Tupe (d_term d2) (d_doc d2)]).
Proof.
  assert (Hd : d_docs d1 = d_doc d1 :: drop 1 (d_docs d1)).
  { destruct (d_docs d1) as [|x l]; [done|]. simpl in Hhd. by injection Hhd as ->. }
  assert (HL : later 0 [d1; d2] =
    map (Tupe (d_term d1)) (d_docs d1) ++ [Tupe (d_term d2) (d_doc d2)]).
  { cbn [later]. rewrite (drop_ge (d_docs d2)), Hd by lia. done. }
  rewrite <- HL. apply (read_all_ok _ (rinit [d1; d2])).
  - apply reads_init; [done| |done]. apply Forall_cons_2; [done|]. by apply Forall_singleton.
  - unfold rinit, rstream. cbn [r_buf r_off r_cs drop map app length Nat.max]. rewrite HL.
    destruct H1 as (_&_&_&_&?&_). rewrite length_app, length_map. simpl. lia.
Qed.

(** * Writing and reading back *)
Fixpoint write_all (file : ifile_t) (ts : list tupe_t) : outcome ifile_t :=
  match ts with
  | [] => Ok file
  | t :: ts' => file ← ifile_write file t; write_all file ts'
  end.

Definition awrite_all (w : wstate) (ts : list tupe_t) : wstate := fold_left awrite ts w.

Lemma awrite_out w t : w_out w `prefix_of` w_out (awrite w t).
Proof.
  unfold awrite. etrans; [|apply awrite_push_out].
  unfold awrite_term, awrite_head. repeat case_decide; simpl; first [done | by eexists].
Qed.

Lemma awrite_all_out w ts : w_out w `prefix_of` w_out (awrite_all w ts).
Proof.
  revert w; induction ts as [|t ts IH]; intros w; [done|].
  simpl. etrans; [apply (awrite_out w t)|apply IH].
Qed.

Lemma write_all_ok file w ts :
  writes file w -> emitted_fit (awrite_all w ts) ->
  exists file', write_all file ts = Ok file' /\ writes file' (awrite_all w ts).
Proof.
  revert file w; induction ts as [|t ts IH]; intros file w Hw Hfit; [by exists file|].
  simpl in Hfit |- *. destruct (ifile_write_ok file w t Hw) as (file1 & -> & Hw1).
  { destruct (awrite_all_out (awrite w t) ts) as [k Hk]. unfold emitted_fit in *.
    change (fold_left awrite ts (awrite w t)) with (awrite_all (awrite w t) ts) in Hfit.
    rewrite Hk in Hfit. by apply Forall_app in Hfit as [? _]. }
  rewrite bind_Ok. by apply IH.
Qed.

(** Fewer than 256 documents of one term stay pending. *)
Lemma awrite_all_one_term t docs w :
  w_pend w <> [] -> w_term w = t -> (length (w_pend w) + length docs < 256)%nat ->
  awrite_all w (map (Tupe t) docs) = WState t (w_doc w) (w_pend w ++ docs) (w_out w).
Proof.
  revert w; induction docs as [|d docs IH]; intros w Hne Ht Hlen.
  - rewrite app_nil_r. destruct w; simpl in *. by subst.
  - simpl in Hlen |- *.
    assert (awrite w (Tupe t d) = WState t (w_doc w) (w_pend w ++ [d]) (w_out w)) as ->.
    { unfold awrite.
      assert (awrite_head w (Tupe t d) = w) as -> by (unfold awrite_head; by rewrite decide_False).
      assert (awrite_term w (Tupe t d) = w) as -> by (unfold awrite_term; by rewrite decide_True).
      unfold awrite_push. cbn [w_pend]. rewrite decide_False by (rewrite length_app; simpl; lia).
      by rewrite Ht. }
    change (awrite_all (WState t (w_doc w) (w_pend w ++ [d]) (w_out w)) (map (Tupe t) docs) =
      WState t (w_doc w) (w_pend w ++ d :: docs) (w_out w)).
    rewrite IH; cbn [w_pend w_term w_doc w_out];
      [by rewrite <- app_assoc|by destruct (w_pend w)|done|rewrite length_app; simpl; lia].
Qed.

Lemma awrite_init t d : awrite winit (Tupe t d) = WState t d [d] [].
Proof.
  unfold awrite. change (awrite_head winit (Tupe t d)) with (WState t d [] []).
  unfold awrite_term. by rewrite decide_True.
Qed.

Lemma awrite_all_init t d docs :
  (length (d :: docs) < 256)%nat ->
  awrite_all winit (map (Tupe t) (d :: docs)) = WState t d (d :: docs) [].
Proof.
  intros Hlen. simpl in Hlen. cbn [map awrite_all fold_left].
  rewrite awrite_init.
  apply (awrite_all_one_term t docs (WState t d [d] [])); simpl; done || lia.
Qed.

Lemma ifile_flush_overrun file w :
  writes file w -> w_pend w <> [] -> overruns (w_pend w) -> ifile_flush file = Undef.
Proof.
  intros (_ & _ & _ & Hh & _) Hne Hlong. unfold ifile_flush, ifile_real_write.
  by rewrite (chunk_compress_long _ _ Hh Hne Hlong).
Qed.

Lemma index_file_read_back t d docs f :
  is_u32 t -> Forall is_u32 (d :: docs) -> (length (d :: docs) < 256)%nat -> fits (d :: docs) ->
  bytes (inf f) = disk [DChunk t d (d :: docs)] ->
  read_all (length (d :: docs) + 1) (ifile_init (reopen (inf f))) = Ok (map (Tupe t) (d :: docs)).
Proof.
  intros Ht Hdocs Hlen Hfit Hb.
  pose proof (read_all_ok (ifile_init (reopen (inf f))) (rinit [DChunk t d (d :: docs)])
    (length (d :: docs) + 1)) as HR.
  unfold rstream in HR. cbn in HR. rewrite app_nil_r in HR. cbn. apply HR.
  - apply reads_init; [done| |done]. apply Forall_singleton.
    split_and!; simpl; try done; [by apply Forall_cons_1 in Hdocs as [? _]|simpl in Hlen; lia].
  - rewrite length_map, length_drop. lia.
Qed.

(** C3: an index of fewer than 256 documents (32-bit values) of one term.  Writing the
    tuples to a new file succeeds.  The flush then depends on the documents.  With
    none it fails its assertion.  If their compressed gaps take more than the four
    bytes per document that [chunk_compress] allocates ([overruns]), it writes out of
    bounds.  If they fit that block and leave in it the room that the vector loads of
    the decoder read ([fits]), the flush succeeds and the reader on the finished file
    delivers exactly the tuples written, in order.  (Nothing is said when they fit
    the block but not with that room.) *)
Theorem index_roundtrip (t : Z) (docs : list Z) (Ht : is_u32 t) (Hdocs : Forall is_u32 docs)
  (Hlen : (length docs < 256)%nat) :
  exists file1,
    write_all (ifile_init (File [] 0)) (map (Tupe t) docs) = Ok file1 /\
    (docs = [] -> ifile_flush file1 = AssertFail) /\
    (overruns docs -> ifile_flush file1 = Undef) /\
    (docs <> [] -> fits docs ->
     exists file2, ifile_flush file1 = Ok file2 /\
       read_all (length docs + 1) (ifile_init (reopen (inf file2))) = Ok (map (Tupe t) docs)).
Proof.
  destruct docs as [|d docs].
  { exists (ifile_init (File [] 0)). split_and!; try done. unfold overruns. vm_compute. lia. }
  destruct (write_all_ok (ifile_init (File [] 0)) winit (map (Tupe t) (d :: docs))) as (f1 & Hf1 & Hw1).
  { apply writes_init. }
  { rewrite awrite_all_init by done. by constructor. }
  rewrite awrite_all_init in Hw1 by done. exists f1. split_and!; [done|done| |].
  - intros Hov. by apply (ifile_flush_overrun _ _ Hw1).
  - intros _ Hfit. destruct (ifile_flush_ok f1 _ Hw1) as (f2 & Hf2 & Hb2); [done|done|].
    exists f2. split; [done|]. by apply index_file_read_back.
Qed.

(** A tuple of a new term is filed under the old one: writing one document of
    each of two terms produces a file from which the second tuple is never read
    back (the header of its chunk repeats the first term and document). *)
Theorem ifile_write_stale_term (t1 t2 a b : Z) (Ha : is_u32 a) (Hb : is_u32 b)
  (Ht1 : is_u32 t1) (Hne : t1 <> t2) (Hfa : fits [a]) (Hfb : fits [b]) :
  exists file1 file2,
    write_all (ifile_init (File [] 0)) [Tupe t1 a; Tupe t2 b] = Ok file1 /\
    ifile_flush file1 = Ok file2 /\
    bytes (inf file2) = disk [DChunk t1 a [a]; DChunk t1 a [b]] /\
    read_all 3 (ifile_init (reopen (inf file2))) = Ok [Tupe t1 a; Tupe t1 a].
Proof.
  assert (HW : awrite_all winit [Tupe t1 a; Tupe t2 b] = WState t1 a [b] [DChunk t1 a [a]]).
  { cbn [awrite_all fold_left]. rewrite awrite_init.
    unfold awrite. change (awrite_head (WState t1 a [a] []) (Tupe t2 b)) with (WState t1 a [a] []).
    unfold awrite_term. cbn [term w_term]. by rewrite decide_False by congruence. }
  destruct (write_all_ok (ifile_init (File [] 0)) winit [Tupe t1 a; Tupe t2 b]) as (f1 & Hf1 & Hw1).
  { apply writes_init. }
  { rewrite HW. by apply Forall_singleton. }
  rewrite HW in Hw1. destruct (ifile_flush_ok f1 _ Hw1) as (f2 & Hf2 & Hb2); [done|done|].
  exists f1, f2. split_and!; try done.
  apply (read_all_ok _ (rinit [DChunk t1 a [a]; DChunk t1 a [b]])); [|simpl; lia].
  apply reads_init; [done| |done].
  assert (Hd : forall x, is_u32 x -> fits [x] -> dchunk_ok (DChunk t1 a [x])).
  { intros x Hx Hf. split_and!; simpl; try done; [by apply Forall_singleton|lia]. }
  apply Forall_cons_2; [by apply Hd|]. apply Forall_singleton. by apply Hd.
Qed.

(** * Forward documents *)

(** The chunk of a forward document takes 256 terms; pushing one more writes
    past its buffer, since nothing empties or enlarges it. *)
Theorem forward_push_overrun (fw : forward_t) (terms : list Z) (t : Z)
  (Hh : holds (fchunk fw) terms) (Hfull : length terms = 256%nat) :
  forward_push_term fw t = Undef.
Proof.
  destruct Hh as (Hs & Hl & Hat & Hc). unfold forward_push_term, chunk_push, chunk_resize.
  assert (Hcap : cap (fchunk fw) = 256) by (destruct Hc as [[_ ->]|?]; done).
  rewrite Hs, Hfull, Hcap. simpl. rewrite store_ge; [done|]. lia.
Qed.

Lemma length_fhead_bytes x : length (fhead_bytes x) = 12%nat.
Proof. unfold fhead_bytes. by rewrite !length_app, !length_le_split. Qed.

Lemma fhead_of_bytes_fhead x :
  is_u32 (f_N x) -> is_u32 (f_bcount x) -> is_u32 (f_id x) -> fhead_of_bytes (fhead_bytes x) = x.
Proof.
  destruct x as [a b c]; cbn [f_N f_bcount f_id]; intros Ha Hb Hc.
  unfold fhead_of_bytes, fhead_bytes. cbn [f_N f_bcount f_id]. f_equal.
  - by apply (word_le_split 0 []).
  - by apply (word_le_split 1 (le_split 4 a)).
  - rewrite <- (app_nil_r (le_split 4 c)), app_assoc.
    apply (word_le_split 2); [done|]. by rewrite length_app, !length_le_split.
Qed.

(** A forward document of at most 256 terms is read back as it was written:
    its id, its number of terms and the terms. *)
Theorem forward_roundtrip (fw : forward_t) (terms : list Z) (Hh : holds (fchunk fw) terms)
  (Hterms : Forall is_u32 terms) (Hne : terms <> []) (Hlen : (length terms <= 256)%nat)
  (Hfit : fits terms) (Hid : is_u32 (f_id (fh fw))) :
  exists file fw' rest fw2,
    iforward_write (File [] 0) fw = Ok (file, fw') /\
    iforward_read (reopen file) (Forward (ForwardHead 0 0 0) chunk_empty) = Ok (rest, fw2, true) /\
    f_id (fh fw2) = f_id (fh fw) /\ f_N (fh fw2) = Z.of_nat (length terms) /\
    chunk_buffer (fchunk fw2) = terms.
Proof.
  unfold iforward_write. unfold fits in Hfit.
  destruct (chunk_compress_ok (fchunk fw) terms) as (cb & -> & Hat); [done|done|done|lia|].
  rewrite bind_Ok, (chunk_size_holds _ terms) by done. cbv zeta.
  rewrite Nat2Z.id, (at_off_load_range _ _ _ Hat), bind_Ok.
  set (enc := delta_encoded 0 terms) in *. set (hd := ForwardHead _ _ _).
  do 4 eexists. split; [reflexivity|]. unfold iforward_read, fwrite, reopen. cbn [bytes app pos].
  assert (HN : u32 (Z.of_nat (length terms)) = Z.of_nat (length terms))
    by (unfold u32; apply Z.mod_small; lia).
  destruct (fread_app (File (fhead_bytes hd ++ enc) 0) (fhead_bytes hd) enc eq_refl) as [HF Hf2].
  rewrite length_fhead_bytes in HF, Hf2. rewrite HF.
  assert (Hov : overlay (fhead_bytes hd) (fhead_bytes (ForwardHead 0 0 0)) = fhead_bytes hd).
  { unfold overlay. rewrite drop_ge by (by rewrite !length_fhead_bytes). apply app_nil_r. }
  cbn [fh fchunk]. rewrite Hov, length_fhead_bytes, fhead_of_bytes_fhead
    by (unfold hd, is_u32; cbn [f_N f_bcount f_id]; rewrite ?HN; done || lia).
  cbn [Nat.eqb bytes pos]. unfold hd. cbn [f_N f_bcount]. rewrite HN.
  pose proof (read_block_ok (File (fhead_bytes hd ++ enc) (0 + 12)) (DChunk 0 0 terms) [] 0 []) as HR.
  cbn [d_docs] in HR. fold enc in HR. unfold hd in HR. rewrite HN in HR.
  unfold chunk_empty. rewrite HR; [rewrite bind_Ok; done| |].
  - rewrite app_nil_r. fold hd. unfold hd in Hf2. rewrite HN in Hf2. apply Hf2.
  - split_and!; done.
Qed.

End with_junk.

(** * Concrete runs *)
Definition no_junk (i : nat) : Z := 0.

Definition full_chunk (docs : list Z) : chunk_t :=
  Chunk (Z.of_nat (length docs)) 256 (docs ++ replicate (256 - length docs) 0).

Lemma holds_full_chunk docs : (length docs <= 256)%nat -> holds (full_chunk docs) docs.
Proof.
  intros H. unfold full_chunk. split_and!; cbn [size cap buffer]; [done| |apply at_off_prefix|by right].
  rewrite length_app, length_replicate. lia.
Qed.

(** One document id of four significant bytes needs five bytes. *)
Lemma chunk_compress_overrun_witness : chunk_compress no_junk (full_chunk [2 ^ 24]) = Undef.
Proof.
  apply (chunk_compress_overrun no_junk _ [2 ^ 24]);
    [apply holds_full_chunk; simpl; lia | done | vm_compute; lia].
Defined.

Lemma ifile_write_refines_witness :
  exists file', ifile_write no_junk (ifile_init (File [] 0)) (Tupe 7 3) = Ok file' /\
    writes file' (WState 7 3 [3] []).
Proof.
  apply (ifile_write_refines no_junk _ winit (Tupe 7 3));
    [apply writes_init | by apply Forall_nil_2].
Defined.

Lemma ifile_flush_empty_aborts_witness :
  ifile_flush no_junk (ifile_init (File [] 0)) = AssertFail.
Proof. apply ifile_flush_empty_aborts, holds_empty. Defined.

Definition sample_chunk : dchunk := DChunk 1 0 [0; 2; 4; 6; 8].
Definition sample_chunk2 : dchunk := DChunk 1 10 [10; 12; 14].

Lemma sample_chunks_ok : Forall dchunk_ok [sample_chunk; sample_chunk2].
Proof.
  apply Forall_cons_2; [|apply Forall_singleton];
    (split_and!; [done|done|by repeat constructor|done|simpl; lia|vm_compute; lia]).
Qed.

Lemma ifile_read_refines_witness :
  exists file', ifile_read no_junk (ifile_init (File (disk [sample_chunk]) 0)) = Ok (file', true) /\
    tupe file' = Tupe 1 0 /\ reads file' (RState 1 [0; 2; 4; 6; 8] 1 []).
Proof.
  apply (ifile_read_refines no_junk (ifile_init (reopen (File (disk [sample_chunk]) 0))) (rinit [sample_chunk])).
  apply reads_init; [done| |done].
  apply Forall_singleton, (Forall_cons_1 _ _ _ sample_chunks_ok).
Defined.

Lemma read_all_spec_witness :
  read_all no_junk 9 (ifile_init (File (disk [sample_chunk; sample_chunk2]) 0)) =
  Ok [Tupe 1 0; Tupe 1 2; Tupe 1 4; Tupe 1 6; Tupe 1 8; Tupe 1 10].
Proof.
  apply (read_all_spec no_junk [sample_chunk; sample_chunk2] (File (disk [sample_chunk; sample_chunk2]) 0));
    [done|apply sample_chunks_ok|done|simpl; lia].
Defined.

Lemma read_all_loses_chunks_witness :
  read_all no_junk 259 (ifile_init (File (disk [sample_chunk; sample_chunk2]) 0)) =
  Ok [Tupe 1 0; Tupe 1 2; Tupe 1 4; Tupe 1 6; Tupe 1 8; Tupe 1 10].
Proof.
  pose proof (Forall_cons_1 _ _ _ sample_chunks_ok) as [H1 H2].
  apply (read_all_loses_chunks no_junk sample_chunk sample_chunk2
    (File (disk [sample_chunk; sample_chunk2]) 0));
    [done|done|by apply (Forall_cons_1 _ _ _ H2)|done|simpl; lia|lia].
Defined.

Lemma index_roundtrip_witness :
  exists file1,
    write_all no_junk (ifile_init (File [] 0)) (map (Tupe 1) [0; 3; 6; 9]) = Ok file1 /\
    exists file2, ifile_flush no_junk file1 = Ok file2 /\
      read_all no_junk 5 (ifile_init (reopen (inf file2))) = Ok (map (Tupe 1) [0; 3; 6; 9]).
Proof.
  destruct (index_roundtrip no_junk 1 [0; 3; 6; 9]) as (file1 & H1 & _ & _ & H2);
    [done|by repeat constructor|simpl; lia|].
  exists file1. split; [exact H1|]. apply H2; [done|vm_compute; lia].
Defined.

Lemma ifile_write_stale_term_witness :
  exists file1 file2,
    write_all no_junk (ifile_init (File [] 0)) [Tupe 1 5; Tupe 2 6] = Ok file1 /\
    ifile_flush no_junk file1 = Ok file2 /\
    bytes (inf file2) = disk [DChunk 1 5 [5]; DChunk 1 5 [6]] /\
    read_all no_junk 3 (ifile_init (reopen (inf file2))) = Ok [Tupe 1 5; Tupe 1 5].
Proof.
  apply (ifile_write_stale_term no_junk 1 2 5 6); first [done | vm_compute; lia].
Defined.

Lemma forward_push_overrun_witness :
  forward_push_term no_junk (Forward (ForwardHead 0 0 0) (full_chunk (replicate 256 7))) 1 = Undef.
Proof.
  apply (forward_push_overrun no_junk _ (replicate 256 7));
    [apply holds_full_chunk; by rewrite length_replicate | apply length_replicate].
Defined.

Lemma forward_roundtrip_witness :
  exists file fw' rest fw2,
    iforward_write no_junk (File [] 0) (Forward (ForwardHead 0 0 15) (full_chunk [1; 2; 3; 4; 5])) = Ok (file, fw') /\
    iforward_read no_junk (reopen file) (Forward (ForwardHead 0 0 0) chunk_empty) = Ok (rest, fw2, true) /\
    f_id (fh fw2) = 15 /\ f_N (fh fw2) = 5 /\ chunk_buffer (fchunk fw2) = [1; 2; 3; 4; 5].
Proof.
  apply (forward_roundtrip no_junk (Forward (ForwardHead 0 0 15) (full_chunk [1; 2; 3; 4; 5])) [1; 2; 3; 4; 5]);
    [apply holds_full_chunk; simpl; lia|by repeat constructor|done|simpl; lia|vm_compute; lia|done].
Defined.

End Index.
