(* ===== verification/Merge.v ===== *)
(** src/tool.c, [merge]: the k-way merge of sorted index files.

    The files live in a heap of objects that the array [files] points to; a
    closed file is no longer an object.  The loop is stated over the two
    interfaces it uses, a source of tuples ([ifile_read]) and a sink of tuples
    ([ifile_write]); the index files of ToolIndex implement both. *)
From S2P Require Import Prelude Simd StreamVByte StreamVByteDelta ToolIndex.
From stdpp Require Import sorting.
Open Scope Z_scope.
Import SvbDelta Index.

Module Merge.

(** A readable file: [src_read] loads the next tuple ([true]) or reports the end
    of the file, [src_tupe] is the tuple loaded last.  [feeds f ts]: the reads to
    come deliver [ts]. *)
Class TupleSource (F : Type) := {
  src_read : F -> outcome (F * bool);
  src_tupe : F -> tupe_t;
  src_compare : F -> F -> Z;
  feeds : F -> list tupe_t -> Prop;
  src_compare_doc a b : src_compare a b <= 0 <-> doc (src_tupe a) <= doc (src_tupe b);
  feeds_nil f : feeds f [] -> exists f', src_read f = Ok (f', false);
  feeds_cons f t ts : feeds f (t :: ts) ->
    exists f', src_read f = Ok (f', true) /\ src_tupe f' = t /\ feeds f' ts
}.

(** A writable file: [took w ts], it was given [ts]; [room ts], it can take [ts]. *)
Class TupleSink (W : Type) := {
  snk_write : W -> tupe_t -> outcome W;
  took : W -> list tupe_t -> Prop;
  room : list tupe_t -> Prop;
  room_app ts ts' : room (ts ++ ts') -> room ts;
  snk_write_ok w ts t : took w ts -> room (ts ++ [t]) ->
    exists w', snk_write w t = Ok w' /\ took w' (ts ++ [t])
}.

(** [memmove] on an array of pointers, counted in pointers. *)
Definition memmove {A} (mem : list A) (dst src n : nat) : outcome (list A) :=
  vs ← load_range mem src n; store_range mem dst vs.

Section merge.
Context {F W : Type} `{!TupleSource F, !TupleSink W}.

Definition deref (heap : list (option F)) (p : nat) : outcome F :=
  o ← load heap p; of_option o.

Record mstate := MState {
  heap : list (option F); files : list nat; nfiles : nat; outs : W; printed : list Z
}.

(** The binary search for the place of [files[0]] among the others; [fuel] bounds
    the number of probes. *)
Fixpoint merge_search (fuel : nat) (heap : list (option F)) (files : list nat) (lo hi probe : nat)
  : outcome nat :=
  match fuel with
  | O => Undef
  | S fuel =>
      if (lo <? hi)%nat then
        p0 ← load files 0; f0 ← deref heap p0;
        p ← load files probe; f ← deref heap p;
        let cmp := src_compare f0 f in
        let '(lo, hi) := if (cmp <? 0) || (cmp =? 0) then (lo, probe) else (probe + 1, hi)%nat in
        merge_search fuel heap files lo hi ((lo + hi) / 2)%nat
      else Ok lo
  end.

(** One iteration of [while( nfiles )]. *)
Definition merge_step (m : mstate) : outcome mstate :=
  p ← load (files m) 0;
  f ← deref (heap m) p;
  let out := printed m ++ [s32 (doc (src_tupe f))] in
  outs ← snk_write (outs m) (src_tupe f);
  '(f, ok) ← src_read f;
  let heap := <[p := Some f]> (heap m) in
  let n := nfiles m in
  if negb ok then
    files ← memmove (files m) 0 1 (n - 1);
    let n := (n - 1)%nat in
    files ← store files n p;
    Ok (MState (<[p := None]> heap) files n outs out)
  else if (n =? 1)%nat then Ok (MState heap (files m) n outs out)
  else
    lo ← merge_search n heap (files m) 1 n 1;
    let count_of_smaller_lines := (lo - 1)%nat in
    files ← memmove (files m) 0 1 count_of_smaller_lines;
    files ← store files count_of_smaller_lines p;
    Ok (MState heap files n outs out).

(** The loop; [None] when [fuel] iterations were not enough. *)
Fixpoint merge_loop (fuel : nat) (m : mstate) : outcome (option mstate) :=
  if (nfiles m =? 0)%nat then Ok (Some m)
  else match fuel with
       | O => Ok None
       | S fuel => m ← merge_step m; merge_loop fuel m
       end.

(** [memmove] with a count in bytes, 8 per pointer.  A count that is not a
    multiple of 8 leaves an array element made of parts of two pointers, which
    the code goes on to dereference. *)
Definition memmove_bytes {A} (mem : list A) (dst src : nat) (nbytes : Z) : outcome (list A) :=
  if nbytes mod 8 =? 0 then memmove mem dst src (Z.to_nat (nbytes / 8)) else Undef.

(** The first loop, which reads the first tuple of each file; [fuel] is at least
    the number of iterations left, [n - k]. *)
Fixpoint merge_init (fuel : nat) (heap : list (option F)) (files : list nat) (k n : nat)
  : outcome (list (option F) * list nat * nat) :=
  match fuel with
  | O => Ok (heap, files, n)
  | S fuel =>
      if (k <? n)%nat then
        p ← load files k;
        f ← deref heap p;
        '(f, ok) ← src_read f;
        let heap := <[p := Some f]> heap in
        if (ok : bool) then merge_init fuel heap files (k + 1) n
        else
          files ← memmove_bytes files k (k + 1) (u64 (Z.of_nat n - Z.of_nat k - 1 * 8));
          merge_init fuel (<[p := None]> heap) files (k + 1) (n - 1)
      else Ok (heap, files, n)
  end.

(** * The files still open *)
Record entry := Entry { e_ptr : nat; e_file : F; e_rest : list tupe_t }.

Definition e_doc (e : entry) : Z := doc (src_tupe (e_file e)).
Definition e_stream (e : entry) : list tupe_t := src_tupe (e_file e) :: e_rest e.

Definition doc_le (a b : tupe_t) : Prop := doc a <= doc b.
Definition e_le (a b : entry) : Prop := e_doc a <= e_doc b.

(** An entry of the array: its object is in the heap, its reads to come are
    known, and its tuples come in the order of their documents. *)
Definition entry_ok (heap : list (option F)) (e : entry) : Prop :=
  heap !! e_ptr e = Some (Some (e_file e)) /\ feeds (e_file e) (e_rest e) /\
  StronglySorted doc_le (e_stream e).

(** The first [nfiles] pointers are the open files [q], in the order of their
    current documents. *)
Definition queue (m : mstate) (q : list entry) : Prop :=
  nfiles m = length q /\ (exists dead, files m = map e_ptr q ++ dead) /\
  NoDup (map e_ptr q) /\ Forall (entry_ok (heap m)) q /\ StronglySorted e_le q.

(** The tuples still to come. *)
Definition pending (q : list entry) : list tupe_t := q ≫= e_stream.

(** ** The binary search *)
Lemma deref_Some hp p f : hp !! p = Some (Some f) -> deref hp p = Ok f.
Proof. intros H. unfold deref, load. by rewrite H. Qed.

Lemma load_ptr q dead i e :
  q !! i = Some e -> load (map e_ptr q ++ dead) i = Ok (e_ptr e).
Proof.
  intros H. unfold load. rewrite lookup_app_l by (rewrite length_map; by eapply lookup_lt_Some).
  by rewrite list_lookup_fmap, H.
Qed.

Lemma sorted_lookup {A} (R : relation A) `{!Reflexive R} l i j x y :
  StronglySorted R l -> l !! i = Some x -> l !! j = Some y -> (i <= j)%nat -> R x y.
Proof.
  intros Hs. revert i j; induction Hs as [|a l Hs IH Hall]; intros i j Hi Hj Hij; [done|].
  destruct i as [|i], j as [|j]; simpl in *; simplify_eq; [done| |lia|].
  - exact (Forall_lookup_1 _ _ _ _ Hall Hj).
  - apply (IH i j); [done|done|lia].
Qed.

#[export] Instance e_le_refl : Reflexive e_le.
Proof. intros e. unfold e_le. lia. Qed.
#[export] Instance doc_le_dec : RelDecision doc_le.
Proof. intros a b. unfold doc_le. apply _. Defined.
#[export] Instance doc_le_total : Total doc_le.
Proof. intros a b. unfold doc_le. lia. Qed.
#[export] Instance doc_le_trans : Transitive doc_le.
Proof. intros a b c. unfold doc_le. lia. Qed.
#[export] Instance e_le_trans : Transitive e_le.
Proof. intros a b c. unfold e_le. lia. Qed.

(** [lo] splits the queue behind its head into the smaller and the others. *)
Definition splits (e0 : entry) (q : list entry) (lo hi : nat) : Prop :=
  (forall i e, q !! i = Some e -> (i + 1 < lo)%nat -> e_doc e < e_doc e0) /\
  (forall i e, q !! i = Some e -> (hi <= i + 1)%nat -> e_doc e0 <= e_doc e).

Lemma merge_search_ok hp e0 q dead fuel lo hi probe :
  hp !! e_ptr e0 = Some (Some (e_file e0)) -> Forall (entry_ok hp) q -> StronglySorted e_le q ->
  (1 <= lo <= probe)%nat -> (probe <= hi <= length q + 1)%nat -> (lo < hi -> probe < hi)%nat ->
  (hi - lo < fuel)%nat -> splits e0 q lo hi ->
  exists lo', merge_search fuel hp (map e_ptr (e0 :: q) ++ dead) lo hi probe = Ok lo' /\
    (1 <= lo' <= length q + 1)%nat /\ splits e0 q lo' lo'.
Proof.
  intros H0 Hok Hsort. revert lo hi probe.
  induction fuel as [|fuel IH]; intros lo hi probe Hlo Hhi Hp Hf [Hl Hr]; [lia|].
  cbn [merge_search]. destruct (Nat.ltb_spec lo hi) as [Hlt|Hge].
  2: { exists lo. split_and!; [done|lia|lia|]. split; [done|]. intros i e Hi Hi'. apply (Hr i); [done|lia]. }
  rewrite (load_ptr (e0 :: q) dead 0 e0 eq_refl), bind_Ok, (deref_Some _ _ _ H0), bind_Ok.
  destruct (lookup_lt_is_Some_2 q (probe - 1)) as [e He]; [lia|].
  rewrite (load_ptr (e0 :: q) dead probe e) by (destruct probe; [lia|by rewrite Nat.sub_1_r in He]).
  assert (Hee : entry_ok hp e) by (by eapply Forall_lookup_1).
  rewrite bind_Ok, (deref_Some _ _ _ (proj1 Hee)), bind_Ok. cbv zeta.
  pose proof (src_compare_doc (e_file e0) (e_file e)) as Hc.
  assert (Hdiv : forall a b : nat, ((a <= (a + b) / 2 \/ b < a) /\ ((a + b) / 2 <= b \/ b < a) /\
    (a < b -> (a + b) / 2 < b))%nat).
  { intros a b. pose proof (Nat.div_mod_eq (a + b) 2). pose proof (Nat.mod_upper_bound (a + b) 2).
    lia. }
  replace ((src_compare (e_file e0) (e_file e) <? 0) || (src_compare (e_file e0) (e_file e) =? 0))
    with (bool_decide (e_doc e0 <= e_doc e)).
  2: { unfold e_doc. case_bool_decide; symmetry; [apply orb_true_iff|apply orb_false_iff];
       rewrite ?Z.ltb_lt, ?Z.eqb_eq, ?Z.ltb_ge, ?Z.eqb_neq; lia. }
  case_bool_decide as Hcmp.
  - pose proof (Hdiv lo probe). apply IH; [lia|lia|lia|lia|]. split; [done|].
    intros i x Hi Hge. enough (e_le e x) by (unfold e_le in *; lia).
    eapply (sorted_lookup e_le q (probe - 1) i); [done|done|done|lia].
  - pose proof (Hdiv (probe + 1)%nat hi). apply IH; [lia|lia|lia|lia|]. split; [|done].
    intros i x Hi Hlt'. enough (e_le x e) by (unfold e_le in *; lia).
    eapply (sorted_lookup e_le q i (probe - 1)); [done|done|done|lia].
Qed.

(** ** One iteration *)

(** Taking [x] off the front and inserting it behind [ys]. *)
Lemma memmove_front (x : nat) ys zs :
  exists fs, memmove (x :: ys ++ zs) 0 1 (length ys) = Ok fs /\
    store fs (length ys) x = Ok (ys ++ x :: zs).
Proof.
  unfold memmove. rewrite (at_off_load_range (x :: ys ++ zs) 1 ys), bind_Ok by (by exists [x], zs).
  destruct (exists_last (l := x :: ys)) as (old & l & Hold); [done|].
  assert (length old = length ys) by (apply (f_equal length) in Hold; rewrite length_app in Hold; simpl in Hold; lia).
  rewrite app_comm_cons, Hold, <- app_assoc. exists (ys ++ l :: zs).
  split; [by apply (store_range_app [])|apply store_app].
Qed.

Lemma entry_ok_insert hp p o e :
  entry_ok hp e -> e_ptr e <> p -> entry_ok (<[p := o]> hp) e.
Proof. intros (H & Hf & Hs) Hne. split_and!; [by rewrite list_lookup_insert_ne|done|done]. Qed.

Lemma entries_insert hp p o q :
  Forall (entry_ok hp) q -> p ∉ map e_ptr q -> Forall (entry_ok (<[p := o]> hp)) q.
Proof.
  induction 1 as [|e q He Hq IH]; intros Hp; [done|]. cbn [map] in Hp.
  apply not_elem_of_cons in Hp as [Hne Hp]. apply Forall_cons_2; [|by apply IH].
  by apply entry_ok_insert.
Qed.

Lemma splits_sorted e0 q lo :
  StronglySorted e_le q -> splits e0 q lo lo -> (1 <= lo)%nat ->
  StronglySorted e_le (take (lo - 1) q ++ e0 :: drop (lo - 1) q).
Proof.
  intros Hs [Hl Hr] Hlo. rewrite <- (take_drop (lo - 1) q) in Hs.
  apply StronglySorted_app in Hs as (Hc & H1 & H2).
  assert (Ht : forall x, x ∈ take (lo - 1) q -> e_doc x < e_doc e0).
  { intros x [i Hi]%list_elem_of_lookup. apply lookup_take_Some in Hi as [Hi Hlt].
    apply (Hl i); [done|lia]. }
  assert (Hd : forall x, x ∈ drop (lo - 1) q -> e_doc e0 <= e_doc x).
  { intros x [i Hi]%list_elem_of_lookup. rewrite lookup_drop in Hi. apply (Hr _ _ Hi). lia. }
  apply StronglySorted_app. split_and!; [|done|].
  - intros x y Hx Hy. apply elem_of_cons in Hy as [->|Hy]; [|by apply Hc].
    specialize (Ht x Hx). unfold e_le. lia.
  - apply StronglySorted_cons. split; [|done]. apply list.Forall_forall. intros x Hx. by apply Hd.
Qed.

Lemma pending_insert (e : entry) q n :
  pending (take n q ++ e :: drop n q) ≡ₚ e_stream e ++ pending q.
Proof.
  unfold pending. by rewrite <- Permutation_middle, take_drop.
Qed.

(** The file has reached its end: it leaves the queue. *)
Lemma merge_step_eof m e0 q ts :
  queue m (e0 :: q) -> e_rest e0 = [] -> took (outs m) ts ->
  room (ts ++ [src_tupe (e_file e0)]) ->
  exists m', merge_step m = Ok m' /\ queue m' q /\ took (outs m') (ts ++ [src_tupe (e_file e0)]) /\
    printed m' = printed m ++ [s32 (e_doc e0)].
Proof.
  intros (Hn & [dead Hfs] & Hnd & Hok & Hs) Hrest Htook Hroom.
  apply Forall_cons_1 in Hok as [(H0 & Hfd & _) Hok]. rewrite Hrest in Hfd.
  cbn [map] in Hnd. apply NoDup_cons in Hnd as [Hni Hnd]. apply StronglySorted_cons in Hs as [_ Hs].
  unfold merge_step. rewrite Hfs, (load_ptr (e0 :: q) dead 0 e0 eq_refl), bind_Ok,
    (deref_Some _ _ _ H0), bind_Ok.
  destruct (snk_write_ok _ _ _ Htook Hroom) as (w' & -> & Hw'). rewrite bind_Ok.
  destruct (feeds_nil _ Hfd) as (f' & ->). rewrite bind_Ok. cbn [negb].
  rewrite Hn. cbn [length map app]. replace (S (length q) - 1)%nat with (length q) by lia.
  destruct (memmove_front (e_ptr e0) (map e_ptr q) dead) as (fs & Hm & Hst).
  rewrite length_map in Hm, Hst. rewrite Hm, bind_Ok. cbv zeta. rewrite Hst, bind_Ok.
  eexists. split; [reflexivity|]. split; [|done].
  split_and!; cbn [nfiles files heap]; [done|by eexists|done| |done].
  rewrite list_insert_insert_eq. by apply entries_insert.
Qed.

(** Moving the first file to its place among the others. *)
Lemma merge_place_ok hp e1 q dead w out :
  entry_ok hp e1 -> Forall (entry_ok hp) q -> StronglySorted e_le q ->
  NoDup (map e_ptr (e1 :: q)) -> q <> [] ->
  exists n files',
    (lo ← merge_search (S (length q)) hp (map e_ptr (e1 :: q) ++ dead) 1 (S (length q)) 1;
     let count_of_smaller_lines := (lo - 1)%nat in
     files ← memmove (map e_ptr (e1 :: q) ++ dead) 0 1 count_of_smaller_lines;
     files ← store files count_of_smaller_lines (e_ptr e1);
     Ok (MState hp files (S (length q)) w out)) = Ok (MState hp files' (S (length q)) w out) /\
    queue (MState hp files' (S (length q)) w out) (take n q ++ e1 :: drop n q).
Proof.
  intros He1 Hq Hs Hnd Hne. assert (0 < length q)%nat by (destruct q; [done|simpl; lia]).
  destruct (merge_search_ok hp e1 q dead (S (length q)) 1 (S (length q)) 1)
    as (lo & Hlo & Hbd & Hsp); [apply He1|done|done|lia|lia|lia|lia| |].
  { split; intros i e Hi ?; [lia|]. apply lookup_lt_Some in Hi. lia. }
  exists (lo - 1)%nat. rewrite Hlo, bind_Ok. cbn [map app].
  destruct (memmove_front (e_ptr e1) (map e_ptr (take (lo - 1) q)) (map e_ptr (drop (lo - 1) q) ++ dead))
    as (fs & Hm & Hst).
  rewrite app_assoc, <- map_app, take_drop, length_map, length_take_le in Hm by lia.
  rewrite length_map, length_take_le in Hst by lia. rewrite Hm, bind_Ok, Hst, bind_Ok.
  eexists. split; [reflexivity|].
  assert (HP : take (lo - 1) q ++ e1 :: drop (lo - 1) q ≡ₚ e1 :: q)
    by (by rewrite <- Permutation_middle, take_drop).
  unfold queue. cbn [nfiles files heap]. split_and!.
  - by rewrite (Permutation_length HP).
  - exists dead. by rewrite map_app, <- app_assoc.
  - apply (Permutation_map e_ptr) in HP. by rewrite HP.
  - rewrite HP. by apply Forall_cons_2.
  - apply splits_sorted; [done|done|lia].
Qed.

(** The file has a next tuple: it moves to its place in the queue. *)
Lemma merge_step_next m e0 q t rest ts :
  queue m (e0 :: q) -> e_rest e0 = t :: rest -> took (outs m) ts ->
  room (ts ++ [src_tupe (e_file e0)]) ->
  exists m' e1 n, merge_step m = Ok m' /\ e_stream e1 = e_rest e0 /\
    queue m' (take n q ++ e1 :: drop n q) /\
    took (outs m') (ts ++ [src_tupe (e_file e0)]) /\
    printed m' = printed m ++ [s32 (e_doc e0)].
Proof.
  intros (Hn & [dead Hfs] & Hnd & Hok & Hs) Hrest Htook Hroom.
  apply Forall_cons_1 in Hok as [(H0 & Hfd & Hsort) Hok]. rewrite Hrest in Hfd.
  unfold e_stream in Hsort. rewrite Hrest in Hsort.
  apply StronglySorted_cons in Hsort as [_ Hsort]. apply StronglySorted_cons in Hs as [_ Hs].
  unfold merge_step. rewrite Hfs, (load_ptr (e0 :: q) dead 0 e0 eq_refl), bind_Ok,
    (deref_Some _ _ _ H0), bind_Ok.
  destruct (snk_write_ok _ _ _ Htook Hroom) as (w' & -> & Hw'). rewrite bind_Ok.
  destruct (feeds_cons _ _ _ Hfd) as (f' & -> & Hf' & Hfd'). rewrite bind_Ok. cbn [negb].
  set (e1 := Entry (e_ptr e0) f' rest). set (hp := <[e_ptr e0 := Some f']> (heap m)).
  assert (Hst : e_stream e1 = t :: rest) by (unfold e_stream; simpl; by rewrite Hf').
  assert (He1 : entry_ok hp e1).
  { split_and!; [apply list_lookup_insert_eq; by eapply lookup_lt_Some|done|by rewrite Hst]. }
  assert (Hq : Forall (entry_ok hp) q) by (apply entries_insert; [done|by apply NoDup_cons in Hnd as [? _]]).
  change (map e_ptr (e0 :: q)) with (map e_ptr (e1 :: q)) in *. rewrite Hn, Hrest. cbn [length].
  destruct (decide (q = [])) as [->|Hne].
  - eexists _, e1, 0%nat. split; [reflexivity|]. split; [done|]. split; [|done].
    split_and!; cbn [nfiles files heap]; [done|by exists dead|done|by apply Forall_singleton|].
    by repeat constructor.
  - replace (S (length q) =? 1)%nat with false
      by (symmetry; apply Nat.eqb_neq; destruct q; [done|simpl; lia]).
    destruct (merge_place_ok hp e1 q dead w' (printed m ++ [s32 (e_doc e0)]))
      as (n & fs & HP & HQ); [done..|].
    exists (MState hp fs (S (length q)) w' (printed m ++ [s32 (e_doc e0)])), e1, n. done.
Qed.

Lemma merge_step_ok m e0 q ts :
  queue m (e0 :: q) -> took (outs m) ts -> room (ts ++ [src_tupe (e_file e0)]) ->
  exists m' q', merge_step m = Ok m' /\ queue m' q' /\
    src_tupe (e_file e0) :: pending q' ≡ₚ pending (e0 :: q) /\
    took (outs m') (ts ++ [src_tupe (e_file e0)]) /\
    printed m' = printed m ++ [s32 (e_doc e0)].
Proof.
  intros Hq Ht Hr. destruct (e_rest e0) as [|t rest] eqn:Hrest.
  - destruct (merge_step_eof m e0 q ts) as (m' & H1 & H2 & H3 & H4); [done..|].
    exists m', q. split_and!; try done. unfold pending, e_stream. simpl. by rewrite Hrest.
  - destruct (merge_step_next m e0 q t rest ts) as (m' & e1 & n & H1 & He & H2 & H3 & H4); [done..|].
    eexists m', _. split_and!; try done. by rewrite pending_insert, He.
Qed.

(** The head of the queue has the least document of all tuples to come. *)
Lemma queue_min m e0 q t :
  queue m (e0 :: q) -> t ∈ pending (e0 :: q) -> doc_le (src_tupe (e_file e0)) t.
Proof.
  intros (_ & _ & _ & Hok & Hs) Hin. unfold pending in Hin.
  apply list_elem_of_bind in Hin as (e & Hte & He).
  assert (e_le e0 e).
  { apply elem_of_cons in He as [->|He]; [done|].
    apply StronglySorted_cons in Hs as [Hs _]. rewrite list.Forall_forall in Hs. by apply Hs. }
  rewrite list.Forall_forall in Hok. destruct (Hok e He) as (_ & _ & Hes). unfold e_le, e_doc, doc_le in *.
  unfold e_stream in *. apply elem_of_cons in Hte as [->|Hte]; [done|].
  apply StronglySorted_cons in Hes as [Hes _]. rewrite list.Forall_forall in Hes.
  specialize (Hes t Hte). unfold doc_le in Hes. lia.
Qed.

Lemma merge_loop_ok n m q ts :
  queue m q -> took (outs m) ts -> (length (pending q) <= n)%nat ->
  (forall os, os ≡ₚ pending q -> StronglySorted doc_le os -> room (ts ++ os)) ->
  exists m' os, merge_loop n m = Ok (Some m') /\ nfiles m' = 0%nat /\ os ≡ₚ pending q /\
    StronglySorted doc_le os /\ took (outs m') (ts ++ os) /\
    printed m' = printed m ++ map (fun t => s32 (doc t)) os.
Proof.
  revert m q ts; induction n as [|n IH]; intros m q ts Hq Ht Hn Hroom.
  all: destruct q as [|e0 q];
    [exists m, []; rewrite !app_nil_r; assert (Hz := proj1 Hq); cbn; rewrite Hz;
     split_and!; done || constructor|].
  - cbn in Hn. lia.
  - assert (Hz : nfiles m = S (length q)) by apply (proj1 Hq).
    set (t0 := src_tupe (e_file e0)) in *.
    assert (Hcons : forall ps os, t0 :: ps ≡ₚ pending (e0 :: q) -> os ≡ₚ ps ->
      StronglySorted doc_le os -> StronglySorted doc_le (t0 :: os)).
    { intros ps os Hps Hos Hso. apply StronglySorted_cons. split; [|done].
      apply list.Forall_forall. intros t Hin. apply (queue_min m e0 q t Hq).
      rewrite <- Hps, <- Hos. by apply list_elem_of_further. }
    destruct (merge_step_ok m e0 q ts Hq Ht) as (m1 & q1 & Hstep & Hq1 & Hp1 & Ht1 & Hout1).
    { apply (room_app _ (merge_sort doc_le (e_rest e0 ++ pending q))). rewrite <- app_assoc.
      apply Hroom; [by rewrite merge_sort_Permutation|].
      apply (Hcons (e_rest e0 ++ pending q)); [done|apply merge_sort_Permutation|].
      apply (StronglySorted_merge_sort doc_le). }
    destruct (IH m1 q1 (ts ++ [t0]) Hq1 Ht1) as (m' & os & Hl & Hz' & Hos & Hso & Ht' & Hout').
    { apply Permutation_length in Hp1. simpl length in Hp1 at 1. lia. }
    { intros os Hos Hso. rewrite <- app_assoc. apply Hroom; [by rewrite <- Hp1, Hos|].
      by eapply Hcons. }
    exists m', (t0 :: os). cbn [merge_loop]. rewrite Hz, Hstep. cbn [Nat.eqb].
    rewrite bind_Ok. split_and!; try done.
    + by rewrite <- Hp1, Hos.
    + by eapply Hcons.
    + rewrite <- app_assoc in Ht'. done.
    + rewrite Hout', Hout1, <- app_assoc. done.
Qed.

(** C4: the merge loop is a correct k-way merge: from an array of open files
    sorted by their current documents, each delivering its tuples in order, it
    terminates after one iteration per tuple with every file closed; the tuples
    written, and printed, are all the tuples of the files, in the order of
    their documents. *)
Theorem merge_loop_sorts (n : nat) (m : mstate) (q : list entry) (ts : list tupe_t)
  (Hq : queue m q) (Ht : took (outs m) ts) (Hn : (length (pending q) <= n)%nat)
  (Hroom : forall os, os ≡ₚ pending q -> StronglySorted doc_le os -> room (ts ++ os)) :
  exists m' os, merge_loop n m = Ok (Some m') /\ nfiles m' = 0%nat /\ os ≡ₚ pending q /\
    StronglySorted doc_le os /\ took (outs m') (ts ++ os) /\
    printed m' = printed m ++ map (fun t => s32 (doc t)) os.
Proof. by apply merge_loop_ok. Qed.

(** * The first loop *)

(** A file before its first read, and the tuples it will deliver. *)
Definition seed_ok (hp : list (option F)) (x : nat * list tupe_t) : Prop :=
  (exists f, hp !! x.1 = Some (Some f) /\ feeds f x.2) /\ x.2 <> [] /\ StronglySorted doc_le x.2.

Lemma seeds_insert hp p o todo :
  Forall (seed_ok hp) todo -> p ∉ map fst todo -> Forall (seed_ok (<[p := o]> hp)) todo.
Proof.
  induction 1 as [|x todo ((f & Hx & Hf) & Hne & Hs) Hq IH]; intros Hp; [done|]. cbn [map] in Hp.
  apply not_elem_of_cons in Hp as [Hn Hp]. apply Forall_cons_2; [|by apply IH].
  split_and!; try done. exists f. by rewrite list_lookup_insert_ne.
Qed.

(** The object of [e] is the result of a read on an object of [hp]. *)
Definition read_from (hp : list (option F)) (e : entry) : Prop :=
  exists f, hp !! e_ptr e = Some (Some f) /\ src_read f = Ok (e_file e, true).

Lemma read_from_insert hp p o q :
  Forall (read_from (<[p := o]> hp)) q -> p ∉ map e_ptr q -> Forall (read_from hp) q.
Proof.
  induction 1 as [|e q (f & He & Hr) Hq IH]; intros Hp; [done|]. cbn [map] in Hp.
  apply not_elem_of_cons in Hp as [Hn Hp]. apply Forall_cons_2; [|by apply IH].
  exists f. by rewrite list_lookup_insert_ne in He.
Qed.

Lemma merge_init_ok todo hp q dead :
  Forall (entry_ok hp) q -> Forall (seed_ok hp) todo -> NoDup (map e_ptr q ++ map fst todo) ->
  exists hp' q',
    merge_init (length todo) hp (map e_ptr q ++ map fst todo ++ dead) (length q) (length q + length todo) =
      Ok (hp', map e_ptr q ++ map fst todo ++ dead, (length q + length todo)%nat) /\
    Forall (entry_ok hp') (q ++ q') /\ map e_ptr q' = map fst todo /\ map e_stream q' = map snd todo /\
    Forall (read_from hp) q'.
Proof.
  revert hp q; induction todo as [|[p s] todo IH]; intros hp q Hq Htodo Hnd.
  { exists hp, []. rewrite app_nil_r, Nat.add_0_r. by split_and!. }
  apply Forall_cons_1 in Htodo as [((f & Hf & Hfd) & Hne & Hs) Htodo]. cbn [fst snd map] in *.
  destruct s as [|t ts]; [done|]. destruct (feeds_cons _ _ _ Hfd) as (f' & Hr & Ht & Hfd').
  cbn [length merge_init]. replace (length q <? length q + S (length todo))%nat with true
    by (symmetry; apply Nat.ltb_lt; lia).
  replace (load (map e_ptr q ++ (p :: map fst todo) ++ dead) (length q)) with (Ok p)
    by (rewrite <- (length_map e_ptr q); symmetry; apply load_app).
  rewrite bind_Ok, (deref_Some _ _ _ Hf), bind_Ok, Hr, bind_Ok.
  set (e := Entry p f' ts). set (hp' := <[p := Some f']> hp).
  apply NoDup_app in Hnd as (Hnd1 & Hdis & Hnd2). assert (Hnd2' := Hnd2).
  apply NoDup_cons in Hnd2 as [Hp Hnd2].
  destruct (IH hp' (q ++ [e])) as (hp2 & q2 & H1 & H2 & H3 & H4 & H5).
  - apply Forall_app. split; [|apply Forall_singleton].
    + apply entries_insert; [done|]. intros Hin. apply (Hdis p Hin), list_elem_of_here.
    + split_and!; [apply list_lookup_insert_eq; by eapply lookup_lt_Some|done|].
      unfold e_stream. simpl. by rewrite Ht.
  - by apply seeds_insert.
  - rewrite map_app, <- app_assoc. apply NoDup_app. by split_and!.
  - exists hp2, (e :: q2). rewrite !length_app, map_app, <- !app_assoc in H1. cbn [length map app] in H1.
    rewrite <- Nat.add_assoc in H1. cbn [app].
    replace (length q + S (length todo))%nat with (length q + (1 + length todo))%nat by lia.
    split_and!; [exact H1|by rewrite <- app_assoc in H2| | |].
    + cbn [map]. by rewrite H3.
    + cbn [map]. unfold e_stream at 1. simpl. by rewrite Ht, H4.
    + apply Forall_cons_2; [by exists f|]. apply (read_from_insert _ p (Some f')); [done|]. by rewrite H3.
Qed.

End merge.

(** * Merging index files *)
Section index.
Context (junk : nat -> Z).

Definition ifile_feeds (f : ifile_t) (ts : list tupe_t) : Prop :=
  exists r, reads f r /\ rstream r = ts.

Lemma ifile_feeds_nil f : ifile_feeds f [] -> exists f', ifile_read junk f = Ok (f', false).
Proof.
  intros (r & Hr & Hs). pose proof (ifile_read_ok junk f r Hr) as H. pose proof (rstream_aread r) as Ha.
  destruct (aread r) as [[t r']|]; [|done]. destruct Ha as [Ha _]. congruence.
Qed.

Lemma ifile_feeds_cons f t ts : ifile_feeds f (t :: ts) ->
  exists f', ifile_read junk f = Ok (f', true) /\ tupe f' = t /\ ifile_feeds f' ts.
Proof.
  intros (r & Hr & Hs). pose proof (ifile_read_ok junk f r Hr) as H. pose proof (rstream_aread r) as Ha.
  destruct (aread r) as [[t' r']|]; [|congruence]. destruct Ha as [Ha _].
  destruct H as (f' & H1 & H2 & H3). rewrite Hs in Ha. injection Ha as -> ->.
  exists f'. split_and!; [done|done|]. by exists r'.
Qed.

Lemma compare_ifile_doc a b : compare_ifile a b <= 0 <-> doc (tupe a) <= doc (tupe b).
Proof. unfold compare_ifile. repeat case_match; lia. Qed.

#[export] Instance ifile_source : TupleSource ifile_t := {|
  src_read := ifile_read junk; src_tupe := tupe; src_compare := compare_ifile;
  feeds := ifile_feeds; src_compare_doc := compare_ifile_doc;
  feeds_nil := ifile_feeds_nil; feeds_cons := ifile_feeds_cons
|}.

Lemma ifile_room_app ts ts' :
  emitted_fit (awrite_all winit (ts ++ ts')) -> emitted_fit (awrite_all winit ts).
Proof.
  unfold awrite_all. rewrite fold_left_app. intros H. unfold emitted_fit in *.
  destruct (awrite_all_out (fold_left awrite ts winit) ts') as [k Hk]. unfold awrite_all in Hk.
  rewrite Hk in H. by apply Forall_app in H as [? _].
Qed.

Lemma ifile_write_took w ts t :
  writes w (awrite_all winit ts) -> emitted_fit (awrite_all winit (ts ++ [t])) ->
  exists w', ifile_write junk w t = Ok w' /\ writes w' (awrite_all winit (ts ++ [t])).
Proof.
  unfold awrite_all. rewrite fold_left_app. intros Hw Hf. by apply ifile_write_ok.
Qed.

#[export] Instance ifile_sink : TupleSink ifile_t := {|
  snk_write := ifile_write junk; took w ts := writes w (awrite_all winit ts);
  room ts := emitted_fit (awrite_all winit ts);
  room_app := ifile_room_app; snk_write_ok := ifile_write_took
|}.

(** [qsort( *files, nfiles, sizeof(ifile_t * ), compare_ifile )].  The first
    argument is the first file itself, not the array of pointers: the call sorts
    the [n] words at the start of that structure, comparing them by the 32-bit
    field 12 bytes behind each, which are its [tupe.doc], [h.term], [h.bcount]
    and [chunk.cap].  If these are already in strictly increasing order the call
    changes nothing; otherwise it permutes the stream pointer and the fields of
    the file, and from the fifth word on it compares pointers and memory behind
    the structure. *)
Fixpoint increasing (l : list Z) : bool :=
  match l with
  | a :: (b :: _) as l' => (a <? b) && increasing l'
  | _ => true
  end.

Definition qsort_keys (f : ifile_t) : list Z :=
  [doc (tupe f); h_term (h f); h_bcount (h f); cap (chunk f)].

Definition qsort_first (heap : list (option ifile_t)) (p n : nat) : outcome unit :=
  if (n <=? 1)%nat then Ok ()
  else f ← deref heap p;
       if (n <=? 4)%nat && increasing (take n (qsort_keys f)) then Ok () else Undef.

(** [merge]; [None] when the loop needs more than [fuel] iterations. *)
Definition merge (fuel : nat) (heap0 : list (option ifile_t)) (files0 : list nat) (n : nat)
  (outs0 : ifile_t) : outcome (option (mstate (F := ifile_t) (W := ifile_t))) :=
  '(heap1, files1, n) ← merge_init n heap0 files0 0 n;
  p ← load files1 0;
  _ ← qsort_first heap1 p n;
  r ← merge_loop fuel (MState heap1 files1 n outs0 []);
  match r with
  | None => Ok None
  | Some m => outs1 ← ifile_flush junk (outs m);
              Ok (Some (MState (heap m) (files m) (nfiles m) outs1 (printed m)))
  end.

(** ** Index files of one chunk *)
Definition one_chunk (t : Z) (ds : list Z) : dchunk := DChunk t (hd 0 ds) ds.
Definition index_file (t : Z) (ds : list Z) : ifile_t := ifile_init (File (disk [one_chunk t ds]) 0).

(** A sorted posting list that fits a chunk. *)
Definition postings_ok (ds : list Z) : Prop :=
  ds <> [] /\ StronglySorted Z.le ds /\ Forall is_u32 ds /\ (length ds <= 256)%nat /\ fits ds.

Definition open_heap (t : Z) (dss : list (list Z)) : list (option ifile_t) :=
  map (fun ds => Some (index_file t ds)) dss.

Lemma index_file_reads t ds :
  is_u32 t -> postings_ok ds ->
  reads (index_file t ds) (rinit [one_chunk t ds]) /\
  rstream (rinit [one_chunk t ds]) = map (Tupe t) ds.
Proof.
  intros Ht (Hne & Hs & Hu & Hl & Hf). split.
  - apply (reads_init [one_chunk t ds] (File (disk [one_chunk t ds]) 0)); [done| |done].
    apply Forall_singleton. split_and!; try done. destruct ds; [done|].
    by apply Forall_cons_1 in Hu as [? _].
  - destruct ds as [|d ds]; [done|]. unfold rstream. cbn. rewrite app_nil_r. done.
Qed.

Lemma sorted_docs t ds : StronglySorted Z.le ds -> StronglySorted doc_le (map (Tupe t) ds).
Proof.
  induction 1 as [|d ds Hs IH Hall]; cbn; constructor; [done|].
  apply Forall_fmap. by eapply Forall_impl.
Qed.

Lemma docs_sorted (os : list tupe_t) : StronglySorted doc_le os -> StronglySorted Z.le (map doc os).
Proof.
  induction 1 as [|d ds Hs IH Hall]; cbn; constructor; [done|].
  apply Forall_fmap. by eapply Forall_impl.
Qed.

Lemma heads_sorted (q : list (entry (F := ifile_t))) :
  StronglySorted Z.le (map e_doc q) -> StronglySorted e_le q.
Proof.
  induction q as [|e q IH]; cbn; intros H; constructor; apply StronglySorted_cons in H as [H1 H2].
  - by apply IH.
  - apply (Forall_fmap e_doc) in H1. exact H1.
Qed.

(** The files as seeds of the first loop. *)
Definition seeds (t : Z) (i : nat) (dss : list (list Z)) : list (nat * list tupe_t) :=
  zip (seq i (length dss)) (map (map (Tupe t)) dss).

Lemma seeds_ok t dss pre :
  is_u32 t -> Forall postings_ok dss ->
  Forall (seed_ok (pre ++ open_heap t dss)) (seeds t (length pre) dss).
Proof.
  intros Ht H. revert pre; induction H as [|ds dss Hd H IH]; intros pre; [done|].
  unfold seeds. cbn [length seq map zip zip_with]. apply Forall_cons_2.
  - destruct Hd as (Hne & Hs & Hu & Hl & Hf). destruct (index_file_reads t ds Ht) as [Hr Hst]; [done|].
    split_and!; cbn; [|by destruct ds|by apply sorted_docs].
    exists (index_file t ds). split; [by apply list_lookup_middle|]. by eexists.
  - specialize (IH (pre ++ [Some (index_file t ds)])). rewrite length_app, <- app_assoc in IH.
    cbn in IH. rewrite Nat.add_1_r in IH. exact IH.
Qed.

Lemma map_fst_seeds t i dss : map fst (seeds t i dss) = seq i (length dss).
Proof. unfold seeds. apply fst_zip. by rewrite length_seq, length_map. Qed.

Lemma map_snd_seeds t i dss : map snd (seeds t i dss) = map (map (Tupe t)) dss.
Proof. unfold seeds. apply snd_zip. by rewrite length_seq, length_map. Qed.

Lemma pending_map t (q : list (entry (F := ifile_t))) dss :
  map e_stream q = map (map (Tupe t)) dss -> pending q = map (Tupe t) (concat dss).
Proof.
  intros H. rewrite concat_map, <- H. clear H. unfold pending.
  induction q as [|e q IH]; [done|]. cbn [map concat]. by rewrite <- IH.
Qed.

Lemma e_docs_map t (q : list (entry (F := ifile_t))) dss :
  map e_stream q = map (map (Tupe t)) dss -> map e_doc q = map (hd 0) dss.
Proof.
  revert q; induction dss as [|ds dss IH]; intros [|e q] H; try done.
  cbn [map] in H |- *. injection H as H1 H2. f_equal; [|by apply IH].
  destruct ds; [done|]. injection H1 as H1 _. unfold e_doc.
  change (src_tupe (e_file e)) with (tupe (e_file e)) in *. by rewrite H1.
Qed.

(** Fewer than 256 tuples of one term stay pending in the output. *)
Lemma output_pending t os docs :
  os ≡ₚ map (Tupe t) docs -> docs <> [] -> (length docs < 256)%nat ->
  os = map (Tupe t) (map doc os) /\ map doc os ≡ₚ docs /\
  awrite_all winit os = WState t (hd 0 (map doc os)) (map doc os) [].
Proof.
  intros HP Hne Hlen.
  assert (Hd : map doc os ≡ₚ docs).
  { rewrite HP, map_map. cbn. by rewrite map_id. }
  assert (Ho : os = map (Tupe t) (map doc os)).
  { assert (Forall (fun x => term x = t) os) as H.
    { rewrite HP. apply Forall_fmap, Forall_true. done. }
    clear HP Hd. induction H as [|x l Hx H IH]; [done|]. cbn. f_equal; [|done].
    destruct x; cbn in *. by subst. }
  split_and!; [done|done|]. apply Permutation_length in Hd as Hl.
  rewrite Ho at 1. destruct (map doc os) as [|d ds]; [by apply Permutation_nil_l in Hd|].
  apply awrite_all_init. lia.
Qed.

Definition merged (dss : list (list Z)) : list Z := merge_sort Z.le (concat dss).

(** The call to [qsort], which sorts the first words of the first file and not the array
    of files, finds them in order and leaves that file alone. *)
Definition qsort_idle (t : Z) (dss : list (list Z)) : Prop :=
  match dss with
  | ds :: _ :: _ =>
      (length dss <= 4)%nat /\
      increasing (take (length dss)
        [hd 0 ds; t; Z.of_nat (length (delta_encoded 0 ds)); Z.of_nat (length ds)]) = true
  | _ => True
  end.

Lemma qsort_first_ok t ds dss hp (q : list entry) dead :
  is_u32 t -> postings_ok ds -> qsort_idle t (ds :: dss) ->
  Forall (read_from (open_heap t (ds :: dss))) q -> Forall (entry_ok hp) q ->
  map e_ptr q = seq 0 (length (ds :: dss)) ->
  map e_stream q = map (map (Tupe t)) (ds :: dss) ->
  (p ← load (seq 0 (length (ds :: dss)) ++ dead) 0; qsort_first hp p (length (ds :: dss))) = Ok ().
Proof.
  intros Ht Hds Hidle Hrf Hok Hp Hst. cbn [length seq app]. unfold load. cbn [lookup list_lookup of_option].
  rewrite bind_Ok. unfold qsort_first. destruct dss as [|ds' dss]; [done|].
  cbn [Nat.leb length]. destruct q as [|e q]; [done|].
  apply Forall_cons_1 in Hok as [(He & _ & _) _]. apply Forall_cons_1 in Hrf as [(f & Hf & Hr) _].
  pose proof (e_docs_map _ _ _ Hst) as Hdoc. cbn [map] in Hdoc. injection Hdoc as Hdoc _.
  cbn [map seq length] in Hp. injection Hp as Hp _. rewrite Hp in He, Hf.
  rewrite (deref_Some _ _ _ He), bind_Ok. cbn in Hf. injection Hf as <-.
  destruct (index_file_reads t ds Ht Hds) as [Hrd _].
  destruct (ifile_read_head junk _ _ _ _ _ Hrd Hr) as [Hh Hc].
  destruct Hidle as [Hlen Hinc]. cbn [length] in Hlen, Hinc.
  replace (length dss <=? 2)%nat with true by (symmetry; apply Nat.leb_le; lia).
  unfold qsort_keys. rewrite Hh, Hc. change (doc (tupe (e_file e))) with (e_doc e). rewrite Hdoc.
  cbn [andb]. change (increasing _) with (increasing (take (S (S (length dss)))
    [hd 0 ds; t; Z.of_nat (length (delta_encoded 0 ds)); Z.of_nat (length ds)])). by rewrite Hinc.
Qed.

Lemma merge_sort_sorted (l : list Z) : StronglySorted Z.le (merge_sort Z.le l).
Proof. apply (StronglySorted_merge_sort Z.le). Qed.

(** Flushing and reading back the output. *)
Lemma output_ok t w os docs :
  writes w (awrite_all winit os) -> StronglySorted doc_le os -> os ≡ₚ map (Tupe t) docs ->
  docs <> [] -> (length docs < 256)%nat -> Forall is_u32 docs -> is_u32 t ->
  fits (merge_sort Z.le docs) ->
  map doc os = merge_sort Z.le docs /\
  exists w', ifile_flush junk w = Ok w' /\ bytes (inf w') = disk [one_chunk t (merge_sort Z.le docs)] /\
    read_all junk 256 (ifile_init (reopen (inf w'))) = Ok (map (Tupe t) (merge_sort Z.le docs)).
Proof.
  intros Hw Hs HP Hne Hlen Hu Ht Hfit. destruct (output_pending t os docs HP Hne Hlen) as (Ho & Hd & Hpend).
  assert (Hm : map doc os = merge_sort Z.le docs).
  { apply (StronglySorted_unique Z.le); [by apply docs_sorted|apply merge_sort_sorted|].
    rewrite Hd. symmetry. apply merge_sort_Permutation. }
  split; [done|]. rewrite Hpend, Hm in Hw. set (ms := merge_sort Z.le docs) in *.
  assert (Hms : ms ≡ₚ docs) by apply merge_sort_Permutation.
  assert (Hne' : ms <> []) by (intros E; rewrite E in Hms; by apply Permutation_nil_l in Hms).
  apply Permutation_length in Hms as Hl.
  destruct (ifile_flush_ok junk w _ Hw) as (w' & Hfl & Hb); [done|done|].
  exists w'. split_and!; [done|done|].
  destruct (index_file_reads t ms Ht) as [_ Hst].
  { split_and!; [done|apply merge_sort_sorted|by rewrite Hms|lia|done]. }
  rewrite <- Hst. apply read_all_ok; [|by rewrite Hst, length_map; lia].
  apply reads_init; [done| |done]. apply Forall_singleton.
  split_and!; try done; [|cbn; by rewrite Hms|cbn; lia].
  destruct ms as [|d ms']; [done|]. rewrite <- Hms in Hu. by apply Forall_cons_1 in Hu as [? _].
Qed.

(** C31: what [merge] does where its faults do not show.  Given at least one index file,
    all of the same term, each of one chunk with at most 256 sorted 32-bit documents that
    fit their block ([postings_ok]); the files in the order of their first documents;
    fewer than 256 documents in all, whose compressed gaps fit the output's block
    ([fits]); and, as [merge] passes the bytes of its first file to [qsort] instead of
    the array of files, as many words of that file as there are files (its first
    document, its term, the bytes of its chunk) increasing, so that this call finds
    nothing to exchange ([qsort_idle], which leaves at most three files): [merge]
    returns, prints the documents in order, and the output file holds them in order
    as one chunk; reading it back delivers them. *)
Theorem merge_index (t : Z) (dss : list (list Z)) (Ht : is_u32 t) (Hne : dss <> [])
  (Hdss : Forall postings_ok dss) (Hheads : StronglySorted Z.le (map (hd 0) dss))
  (Hlen : (length (concat dss) < 256)%nat) (Hidle : qsort_idle t dss) (Hfit : fits (merged dss)) :
  exists m,
    merge (length (concat dss)) (open_heap t dss) (seq 0 (length dss)) (length dss)
      (ifile_init (File [] 0)) = Ok (Some m) /\
    bytes (inf (outs m)) = disk [one_chunk t (merged dss)] /\
    printed m = map s32 (merged dss) /\
    read_all junk 256 (ifile_init (reopen (inf (outs m)))) = Ok (map (Tupe t) (merged dss)).
Proof.
  destruct (merge_init_ok (seeds t 0 dss) (open_heap t dss) [] []) as (hp & q & Hi & Hok & Hp & Hst & Hrf).
  { done. }
  { by apply (seeds_ok t dss []). }
  { cbn. rewrite map_fst_seeds. apply NoDup_seq. }
  rewrite map_fst_seeds in Hi, Hp. rewrite map_snd_seeds in Hst. cbn [map app length Nat.add] in Hi.
  assert (Hls : length (seeds t 0 dss) = length dss)
    by (rewrite <- (length_map fst), map_fst_seeds; apply length_seq).
  rewrite Hls in Hi. unfold merge. rewrite (app_nil_r (seq 0 (length dss))) in Hi.
  destruct dss as [|ds dss]; [done|]. set (all := ds :: dss) in *.
  pose proof (pending_map t q all Hst) as Hpend.
  assert (Hcne : concat all <> []).
  { apply Forall_cons_1 in Hdss as [(? & _) _]. unfold all. cbn. by destruct ds. }
  assert (Hq : queue (MState hp (seq 0 (length all)) (length all) (ifile_init (File [] 0)) []) q).
  { assert (length q = length all) by (rewrite <- (length_map e_ptr q), Hp; apply length_seq).
    split_and!; cbn [nfiles files heap]; [done|exists []; by rewrite Hp, app_nil_r| |done|].
    - rewrite Hp. apply NoDup_seq.
    - apply heads_sorted. by rewrite (e_docs_map t q all). }
  destruct (merge_loop_ok (length (concat all)) _ q [] Hq) as (m' & os & Hloop & Hz & HP & Hs & Htook & Hpr).
  { apply writes_init. }
  { by rewrite Hpend, length_map. }
  { intros os HP Hs. rewrite Hpend in HP. destruct (output_pending t os _ HP) as (_ & _ & Ha); [done..|].
    cbn [app room ifile_sink]. rewrite Ha. by constructor. }
  rewrite Hpend in HP.
  destruct (output_ok t (outs m') os (concat all)) as (Hm & w' & Hfl & Hb & Hrd); try done.
  { apply Forall_concat. eapply Forall_impl; [exact Hdss|]. by intros x (_ & _ & ? & _). }
  pose proof (qsort_first_ok t ds dss hp q [] Ht) as Hqs. rewrite app_nil_r in Hqs.
  exists (MState (heap m') (files m') (nfiles m') w' (printed m')).
  rewrite Hi, bind_Ok.
  split_and!; [|done|cbn [printed]; unfold merged; rewrite Hpr, <- Hm, map_map; done|done].
  apply bind_Ok_inv in Hqs as (p & Hld & Hqs);
    [|by apply Forall_cons_1 in Hdss as [? _]|done|done|done|done|done].
  fold all in Hld, Hqs. rewrite Hld, bind_Ok, Hqs, bind_Ok, Hloop, bind_Ok, Hfl. done.
Qed.

(** An empty input file makes [merge] write out of bounds: the number of
    bytes that closes the gap in the array is computed as [nfiles-k-8], which
    wraps around for fewer than eight files. *)
Theorem merge_empty_file (fuel n : nat) (heap0 : list (option ifile_t)) (files0 : list nat)
  (outs0 : ifile_t) (p : nat) (f : ifile_t)
  (Hp : files0 !! 0%nat = Some p) (Hf : heap0 !! p = Some (Some f)) (Hempty : feeds f [])
  (Hn : (1 <= n < 8)%nat) (Hlen : Z.of_nat (length files0) < 2 ^ 60) :
  merge fuel heap0 files0 n outs0 = Undef.
Proof.
  unfold merge. destruct n as [|n]; [lia|]. cbn [merge_init Nat.ltb Nat.leb].
  replace (load files0 0) with (Ok p) by (unfold load; by rewrite Hp).
  rewrite bind_Ok, (deref_Some _ _ _ Hf), bind_Ok.
  destruct (feeds_nil _ Hempty) as (f' & ->). rewrite bind_Ok. unfold memmove_bytes, memmove.
  case_match; [|done]. unfold load_range.
  rewrite decide_False; [done|]. unfold u64. Z.div_mod_to_equations. lia.
Qed.

End index.

(** The files are not sorted before the loop, since the call to [qsort] works
    on the bytes of the first file: two files in decreasing order of their
    documents are merged into an output in decreasing order. *)
Theorem merge_unsorted_input :
  exists m,
    merge no_junk 2 (open_heap 100 [[5]; [3]]) [0%nat; 1%nat] 2 (ifile_init (File [] 0)) = Ok (Some m) /\
    printed m = [5; 3] /\ bytes (inf (outs m)) = disk [DChunk 100 5 [5; 3]].
Proof. eexists. split; [vm_compute; reflexivity|]. by vm_compute. Qed.

(** * Concrete runs *)

(** Lists of tuples as sources and sinks. *)
#[local] Instance list_source : TupleSource (tupe_t * list tupe_t).
Proof.
  refine {|
    src_read f := match f.2 with [] => Ok (f, false) | t :: ts => Ok ((t, ts), true) end;
    src_tupe f := f.1; feeds f ts := f.2 = ts;
    src_compare a b := doc a.1 - doc b.1
  |}; [lia|intros [t ts]; cbn; intros ->; eauto|intros [t' ts'] t ts; cbn; intros ->; eauto].
Defined.

#[local] Instance list_sink : TupleSink (list tupe_t).
Proof.
  refine {| snk_write w t := Ok (w ++ [t]); took w ts := w = ts; room _ := True |}; [done|].
  intros w ts t -> _. eauto.
Defined.

Definition sample_queue : list (entry (F := tupe_t * list tupe_t)) :=
  [Entry 1 (Tupe 1 0, [Tupe 1 3]) [Tupe 1 3]; Entry 0 (Tupe 1 0, [Tupe 1 2; Tupe 1 4]) [Tupe 1 2; Tupe 1 4]].
Definition sample_mstate : mstate (F := tupe_t * list tupe_t) (W := list tupe_t) :=
  MState [Some (Tupe 1 0, [Tupe 1 2; Tupe 1 4]); Some (Tupe 1 0, [Tupe 1 3])] [1%nat; 0%nat] 2 [] [].

Lemma merge_loop_sorts_witness :
  exists m' os, merge_loop 5 sample_mstate = Ok (Some m') /\ nfiles m' = 0%nat /\
    os ≡ₚ pending sample_queue /\ StronglySorted doc_le os /\ outs m' = os /\
    printed m' = map (fun t => s32 (doc t)) os.
Proof.
  destruct (merge_loop_sorts 5 sample_mstate sample_queue []) as (m' & os & H1 & H2 & H3 & H4 & H5 & H6);
    [|done|cbn; lia|done|by exists m', os].
  split_and!; [done|by exists []| | |].
  - by_decide.
  - repeat apply Forall_cons_2; try apply Forall_nil_2;
      (split_and!; [done|done|]; by_decide).
  - repeat constructor; unfold e_le; vm_compute; congruence.
Defined.

(** The three files of [main]. *)
Definition main_files : list (list Z) := [[0; 2; 4; 6; 8]; [0; 3; 6; 9]; [0; 4; 8]].

Lemma merge_index_witness :
  exists m,
    merge no_junk 12 (open_heap 1 main_files) [0%nat; 1%nat; 2%nat] 3 (ifile_init (File [] 0)) = Ok (Some m) /\
    bytes (inf (outs m)) = disk [DChunk 1 0 [0; 0; 0; 2; 3; 4; 4; 6; 6; 8; 8; 9]] /\
    printed m = [0; 0; 0; 2; 3; 4; 4; 6; 6; 8; 8; 9] /\
    read_all no_junk 256 (ifile_init (reopen (inf (outs m)))) =
      Ok (map (Tupe 1) [0; 0; 0; 2; 3; 4; 4; 6; 6; 8; 8; 9]).
Proof.
  apply (merge_index no_junk 1 main_files); [done|done| | |cbn; lia| |].
  - repeat apply Forall_cons_2; try apply Forall_nil_2;
      (split_and!; [done|by_decide|by repeat constructor|cbn; lia|vm_compute; lia]).
  - by_decide.
  - split; [cbn; lia|vm_compute; reflexivity].
  - vm_compute. lia.
Defined.

Lemma merge_empty_file_witness :
  merge no_junk 9 [Some (ifile_init (File [] 0)); Some (index_file 1 [4])] [0%nat; 1%nat] 2
    (ifile_init (File [] 0)) = Undef.
Proof.
  apply (merge_empty_file no_junk 9 2 _ _ _ 0 (ifile_init (File [] 0))); [done|done| |lia|done].
  exists (rinit []). split; [|done]. by apply (reads_init [] (File [] 0)).
Defined.

End Merge.
