(* ===== verification/CppIndex.v ===== *)
(** The C++ index tool (src/chunk.h, document.h, ifile.h, ifile.cc, idocument.h,
    idocument.cc, merge.cc, dsort.cc, tool.cc), the program that CMakeLists.txt builds.

    It writes the blocks of tool.c: the writer refines an abstract writer of chunks, with
    the differences that a block holds ten documents, that an empty block is not written,
    and that the header of a block that a new term begins keeps the first document of the
    block before.  Reading, on the other hand, is undefined for every file: the block is
    read into an object of one byte. *)
From stdpp Require Import gmap sorting.
From S2P Require Import Prelude Simd StreamVByte StreamVByteDelta ToolIndex Merge.
Open Scope Z_scope.
Import SvbDelta Index.

Module Cpp.

(** * <fstream> *)

(** The bytes of the file, the position of the next read, and the state of the stream. *)
Record fstream := Fstream { data : list Z; getp : nat; eofbit : bool; failbit : bool; is_open : bool }.

Definition open_out : fstream := Fstream [] 0 false false true.
Definition open_in (contents : list Z) : fstream := Fstream contents 0 false false true.

Definition fs_write (fs : fstream) (bs : list Z) : fstream :=
  Fstream (data fs ++ bs) (getp fs) (eofbit fs) (failbit fs) (is_open fs).

(** [read]: the bytes delivered; fewer than asked for set both bits, and a stream that is
    not good delivers none. *)
Definition fs_read (fs : fstream) (n : nat) : list Z * fstream :=
  if eofbit fs || failbit fs then
    ([], Fstream (data fs) (getp fs) (eofbit fs) true (is_open fs))
  else
    let bs := take n (drop (getp fs) (data fs)) in
    let short := (length bs <? n)%nat in
    (bs, Fstream (data fs) (getp fs + length bs) short short (is_open fs)).

Definition fs_close (fs : fstream) : fstream :=
  Fstream (data fs) (getp fs) (eofbit fs) (failbit fs) false.

Section with_junk.
Context (junk : nat -> Z).

(** * chunk.h: a [std::vector<uint32_t>] *)

Definition compress (c : list Z) : outcome (list Z * Z) :=
  let cbuffer := malloc8 junk (4 * length c) in
  '(csize, cbuffer) ← streamvbyte_delta_encode c (u32 (Z.of_nat (length c))) cbuffer 0;
  Ok (cbuffer, u32 (Z.of_nat csize)).

(** [resize]: new elements are zero. *)
Definition resize (c : list Z) (n : nat) : list Z := take n c ++ replicate (n - length c) 0.

Definition decompress (c cbuffer : list Z) (N : Z) : outcome (list Z) :=
  '(_, c) ← streamvbyte_delta_decode cbuffer (resize c (Z.to_nat N)) N 0; Ok c.

(** [make_shared<uint8_t>( N * 4 )] is one byte with the value of its argument. *)
Definition read_block (fs : fstream) (c : list Z) (N bcount : Z) : outcome (fstream * list Z) :=
  let cbuffer := [u8 (N * 4)] in
  let '(bs, fs) := fs_read fs (Z.to_nat (N * 4)) in
  cbuffer ← store_range cbuffer 0 bs;
  c ← decompress c cbuffer N;
  Ok (fs, c).

(** * ifile.h, ifile.cc *)

Record ifile := Ifile { it : nat; c : list Z; h : chunk_head_t; capacity : Z; t : tupe_t; fs : fstream }.

Definition ifile_new (fs : fstream) : ifile := Ifile 0 [] (ChunkHead 0 0 0 0) 10 (Tupe 0 0) fs.

Definition real_write (f : ifile) : outcome ifile :=
  if (length (c f) =? 0)%nat then Ok f
  else
    '(cbuff, bcount) ← compress (c f);
    let hd := ChunkHead (u32 (Z.of_nat (length (c f)))) (h_term (h f)) (h_doc (h f)) bcount in
    let out := fs_write (fs f) (head_bytes hd) in
    bs ← load_range cbuff 0 (Z.to_nat bcount);
    Ok (Ifile (it f) (c f) hd (capacity f) (t f) (fs_write out bs)).

Definition real_read (f : ifile) : outcome (ifile * bool) :=
  if eofbit (fs f) then Ok (f, false)
  else
    let '(bs, s) := fs_read (fs f) 16 in
    let hd := head_of_bytes (overlay bs (head_bytes (h f))) in
    '(s, c) ← read_block s (c f) (h_N hd) (h_bcount hd);
    Ok (Ifile 0 c hd (capacity f) (t f) s, true).

Definition close (f : ifile) : ifile := Ifile (it f) (c f) (h f) (capacity f) (t f) (fs_close (fs f)).

Definition clear (f : ifile) : ifile := Ifile (it f) [] (h f) (capacity f) (t f) (fs f).

Definition flush (f : ifile) : outcome ifile := f ← real_write f; Ok (clear f).

(** [read]: the member [t] and the argument [tu], and the result.  Incrementing the
    iterator at the end of the vector is undefined. *)
Definition read (f : ifile) (tu : tupe_t) : outcome (ifile * tupe_t * bool) :=
  let next_block f tu :=
    '(f, ok) ← real_read f;
    if negb ok then Ok (f, tu, false)
    else
      let t := Tupe (h_term (h f)) (h_doc (h f)) in
      _ ← load (c f) (it f);
      Ok (Ifile (S (it f)) (c f) (h f) (capacity f) t (fs f), t, true) in
  if (it f =? length (c f))%nat then next_block f tu
  else
    d ← load (c f) (it f);
    let f := Ifile (S (it f)) (c f) (h f) (capacity f) (Tupe (term (t f)) d) (fs f) in
    let tu := Tupe (term tu) d in
    if d =? 0 then next_block f tu else Ok (f, tu, true).

Definition write (f : ifile) (t0 : tupe_t) : outcome ifile :=
  let f :=
    if (length (c f) =? 0)%nat then
      Ifile (it f) (c f) (ChunkHead (h_N (h f)) (term t0) (doc t0) (h_bcount (h f))) (capacity f) (t f) (fs f)
    else f in
  f ← (if negb (term t0 =? h_term (h f)) then
         f ← real_write f;
         let f := clear f in
         Ok (Ifile (it f) (c f) (ChunkHead (h_N (h f)) (term t0) (h_doc (h f)) (h_bcount (h f))) (capacity f) (t f) (fs f))
       else Ok f);
  let f := Ifile (it f) (c f ++ [doc t0]) (h f) (capacity f) (t f) (fs f) in
  if Z.of_nat (length (c f)) =? capacity f then f ← real_write f; Ok (clear f) else Ok f.

(** * document.h, idocument.h, idocument.cc *)

Record doc_head := DocHead { dh_id : Z; dh_N : Z; dh_bcount : Z }.
Record document := Document { dh : doc_head; id : Z; terms : list Z }.
Record idocument := Idocument { dfs : fstream; ddoc : document }.

Definition document_new : document := Document (DocHead 0 0 0) 0 [].

Definition doc_head_bytes (x : doc_head) : list Z :=
  le_split 4 (dh_id x) ++ le_split 4 (dh_N x) ++ le_split 4 (dh_bcount x).
Definition doc_head_of_bytes (bs : list Z) : doc_head := DocHead (word 0 bs) (word 1 bs) (word 2 bs).

Definition document_write (d : document) (fs : fstream) : outcome (document * fstream) :=
  if (length (terms d) =? 0)%nat then Ok (d, fs)
  else
    '(cbuff, bcount) ← compress (terms d);
    let hd := DocHead (u32 (id d)) (u32 (Z.of_nat (length (terms d)))) bcount in
    let fs := fs_write fs (doc_head_bytes hd) in
    bs ← load_range cbuff 0 (Z.to_nat bcount);
    Ok (Document hd (id d) (terms d), fs_write fs bs).

Definition document_read (d : document) (fs : fstream) : outcome (document * fstream * bool) :=
  if eofbit fs then Ok (d, fs, false)
  else
    let '(bs, fs) := fs_read fs 12 in
    let hd := doc_head_of_bytes (overlay bs (doc_head_bytes (dh d))) in
    '(fs, c) ← read_block fs (terms d) (dh_N hd) (dh_bcount hd);
    Ok (Document hd (dh_id hd) c, fs, true).

Definition idocument_new (fs : fstream) : idocument := Idocument fs document_new.
Definition idocument_close (i : idocument) : idocument := Idocument (fs_close (dfs i)) (ddoc i).
Definition idocument_flush (i : idocument) : idocument := i.

Definition idocument_read (i : idocument) : outcome (idocument * bool) :=
  '(d, fs, ok) ← document_read (ddoc i) (dfs i); Ok (Idocument fs d, ok).

Definition idocument_write (i : idocument) (d : document) : outcome (idocument * document) :=
  '(d, fs) ← document_write d (dfs i); Ok (Idocument fs (ddoc i), d).

(** * merge.cc *)

(** The objects that the array [files] points to, and the numbers printed. *)
Record mstate := MState {
  mheap : list ifile; mfiles : list nat; mnfiles : nat; mouts : ifile; printed : list Z }.

(** The count of bytes of the first [memmove], in [size_t]. *)
Definition init_bytes (nfiles k : nat) : Z := u64 (Z.of_nat nfiles - Z.of_nat k - 1 * 8).

(** The first tuple of each file; [fuel] is the number of files. *)
Fixpoint merge_init (fuel : nat) (heap : list ifile) (files : list nat) (k n : nat) (tu : tupe_t)
  : outcome (list ifile * list nat * nat * tupe_t) :=
  match fuel with
  | O => Ok (heap, files, n, tu)
  | S fuel =>
      if (k <? n)%nat then
        p ← load files k;
        f ← load heap p;
        '(f, tu, ok) ← read f tu;
        if (ok : bool) then merge_init fuel (<[p := f]> heap) files (k + 1) n tu
        else
          files ← Merge.memmove_bytes files k (k + 1) (init_bytes n k);
          merge_init fuel (<[p := close f]> heap) files (k + 1) (n - 1) tu
      else Ok (heap, files, n, tu)
  end.

Definition key_le (a b : Z * nat) : Prop := a.1 <= b.1.
#[local] Instance key_le_dec : RelDecision key_le.
Proof. intros a b. unfold key_le. apply _. Defined.

(** [std::sort] of the first [n] pointers by a key of their objects; files with equal keys
    keep their order. *)
Definition sort_files {A} (key : A -> Z) (heap : list A) (files : list nat) (n : nat) : outcome (list nat) :=
  ks ← foldr (fun p acc => ks ← acc; f ← load heap p; Ok ((key f, p) :: ks)) (Ok []) (take n files);
  Ok (map snd (merge_sort key_le ks) ++ drop n files).

(** The place of [files[0]] among the others by binary search; a probe at least halves
    the range, so that [fuel], the number of files, is enough. *)
Fixpoint place {A} (key : A -> Z) (fuel : nat) (heap : list A) (files : list nat) (lo hi probe : nat)
  : outcome nat :=
  match fuel with
  | O => Undef
  | S fuel =>
      if (lo <? hi)%nat then
        p0 ← load files 0; f0 ← load heap p0;
        p ← load files probe; f ← load heap p;
        let '(lo, hi) := if key f0 <=? key f then (lo, probe) else (probe + 1, hi)%nat in
        place key fuel heap files lo hi ((lo + hi) / 2)%nat
      else Ok lo
  end.

(** One iteration of [while( nfiles )]. *)
Definition merge_step (m : mstate) (tu : tupe_t) : outcome (mstate * tupe_t) :=
  p ← load (mfiles m) 0;
  f ← load (mheap m) p;
  let out := printed m ++ [doc (t f)] in
  outs ← write (mouts m) (t f);
  '(f, tu, ok) ← read f tu;
  let n := mnfiles m in
  if negb ok then
    files ← Merge.memmove (mfiles m) 0 1 (n - 1);
    files ← store files (n - 1) p;
    Ok (MState (<[p := close f]> (mheap m)) files (n - 1) outs out, tu)
  else
    let heap := <[p := f]> (mheap m) in
    if (n =? 1)%nat then Ok (MState heap (mfiles m) n outs out, tu)
    else
      lo ← place (fun f => doc (t f)) n heap (mfiles m) 1 n 1;
      files ← Merge.memmove (mfiles m) 0 1 (lo - 1);
      files ← store files (lo - 1) p;
      Ok (MState heap files n outs out, tu).

(** [None] when [fuel] iterations were not enough. *)
Fixpoint merge_loop (fuel : nat) (m : mstate) (tu : tupe_t) : outcome (option mstate) :=
  if (mnfiles m =? 0)%nat then Ok (Some m)
  else match fuel with
       | O => Ok None
       | S fuel => '(m, tu) ← merge_step m tu; merge_loop fuel m tu
       end.

Definition merge (fuel : nat) (heap : list ifile) (files : list nat) (nfiles : nat) (outs : ifile)
  : outcome (option mstate) :=
  '(heap, files, n, tu) ← merge_init nfiles heap files 0 nfiles (Tupe 0 0);
  files ← sort_files (fun f => term (t f)) heap files n;
  r ← merge_loop fuel (MState heap files n outs []) tu;
  match r with
  | None => Ok None
  | Some m => outs ← flush (mouts m); Ok (Some (MState (mheap m) (mfiles m) (mnfiles m) outs (printed m)))
  end.

(** * dsort.cc *)

Record dstate := DState {
  dheap : list idocument; dfiles : list nat; dnfiles : nat; dmap : gmap Z (list Z); dprinted : list Z }.

Fixpoint dsort_init (fuel : nat) (heap : list idocument) (files : list nat) (k n : nat)
  : outcome (list idocument * list nat * nat) :=
  match fuel with
  | O => Ok (heap, files, n)
  | S fuel =>
      if (k <? n)%nat then
        p ← load files k;
        f ← load heap p;
        '(f, ok) ← idocument_read f;
        if (ok : bool) then dsort_init fuel (<[p := f]> heap) files (k + 1) n
        else
          files ← Merge.memmove_bytes files k (k + 1) (init_bytes n k);
          dsort_init fuel (<[p := idocument_close f]> heap) files (k + 1) (n - 1)
      else Ok (heap, files, n)
  end.

(** [for( auto term : f->doc.c ) map[ term ].push_back( f->doc.id );] *)
Definition add_document (map : gmap Z (list Z)) (d : document) : gmap Z (list Z) :=
  fold_left (fun map term => <[term := default [] (map !! term) ++ [u32 (id d)]]> map) (terms d) map.

Definition dsort_step (m : dstate) : outcome dstate :=
  p ← load (dfiles m) 0;
  f ← load (dheap m) p;
  let out := dprinted m ++ [id (ddoc f)] in
  let map := add_document (dmap m) (ddoc f) in
  '(f, ok) ← idocument_read f;
  let n := dnfiles m in
  if negb ok then
    files ← Merge.memmove (dfiles m) 0 1 (n - 1);
    files ← store files (n - 1) p;
    Ok (DState (<[p := idocument_close f]> (dheap m)) files (n - 1) map out)
  else
    let heap := <[p := f]> (dheap m) in
    if (n =? 1)%nat then Ok (DState heap (dfiles m) n map out)
    else
      lo ← place (fun f => id (ddoc f)) n heap (dfiles m) 1 n 1;
      files ← Merge.memmove (dfiles m) 0 1 (lo - 1);
      files ← store files (lo - 1) p;
      Ok (DState heap files n map out).

Fixpoint dsort_loop (fuel : nat) (m : dstate) : outcome (option dstate) :=
  if (dnfiles m =? 0)%nat then Ok (Some m)
  else match fuel with
       | O => Ok None
       | S fuel => m ← dsort_step m; dsort_loop fuel m
       end.

(** The parameter [limit] is not used; [map] is a local variable. *)
Definition dsort (fuel : nat) (heap : list idocument) (files : list nat) (nfiles : nat) (limit : Z) (outs : ifile)
  : outcome (option (dstate * ifile)) :=
  '(heap, files, n) ← dsort_init nfiles heap files 0 nfiles;
  files ← sort_files (fun f => id (ddoc f)) heap files n;
  r ← dsort_loop fuel (DState heap files n ∅ []);
  match r with
  | None => Ok None
  | Some m => outs ← flush outs; Ok (Some (m, outs))
  end.

(** * tool.cc *)

(** [for( int k=0; k<10; k+=step )]; ten iterations are enough for a positive step. *)
Fixpoint test_loop (fuel : nat) (step k : Z) (f : ifile) : outcome ifile :=
  match fuel with
  | O => Ok f
  | S fuel => if k <? 10 then f ← write f (Tupe 1 k); test_loop fuel step (k + step) f else Ok f
  end.

(** The contents of the file. *)
Definition test (step : Z) : outcome (list Z) :=
  f ← test_loop 11 step 0 (ifile_new open_out);
  f ← flush f;
  Ok (data (fs f)).

(** The contents of the file EE, after it is read back. *)
Definition dtest : outcome (list Z) :=
  let d := Document (DocHead 0 0 0) 123 [1; 2] in
  '(_, fs) ← document_write d open_out;
  '(_, _, _) ← document_read document_new (open_in (data fs));
  Ok (data fs).

(** The contents of the file NONE. *)
Definition etest (fuel : nat) (EE : list Z) : outcome (option (list Z)) :=
  r ← dsort fuel [idocument_new (open_in EE)] [0%nat] 1 10 (ifile_new open_out);
  match r with
  | None => Ok None
  | Some (_, outs) => outs ← flush outs; Ok (Some (data (fs outs)))
  end.

(** What is printed. *)
Fixpoint rtest_loop (fuel : nat) (f : ifile) (tu : tupe_t) : outcome (option (list tupe_t)) :=
  match fuel with
  | O => Ok None
  | S fuel =>
      '(f, tu, ok) ← read f tu;
      if negb ok then Ok (Some [])
      else r ← rtest_loop fuel f tu; Ok (match r with None => None | Some l => Some (tu :: l) end)
  end.
Definition rtest (fuel : nat) (contents : list Z) : outcome (option (list tupe_t)) :=
  rtest_loop fuel (ifile_new (open_in contents)) (Tupe 0 0).

(** The contents of the file D. *)
Definition mtest (fuel : nat) (A B C : list Z) : outcome (option (list Z)) :=
  r ← merge fuel (map (fun x => ifile_new (open_in x)) [A; B; C]) [0; 1; 2]%nat 3 (ifile_new open_out);
  Ok (match r with None => None | Some m => Some (data (fs (mouts m))) end).

(** The files and the numbers printed at the end. *)
Definition main (fuel : nat) : outcome (list (option (list Z)) * list Z) :=
  EE ← dtest;
  NONE ← etest fuel EE;
  A ← test 2;
  B ← test 3;
  C ← test 4;
  _ ← rtest fuel A;
  D ← mtest fuel A B C;
  '(buff, bcount) ← compress [1; 2; 3];
  d ← decompress [] buff 3;
  Ok ([Some EE; NONE; Some A; Some B; Some C; D], 3 :: bcount :: d).

(** * The writer *)

(** The abstract writer of ToolIndex with the stages of this one: a new term emits the
    block and goes on with the new term and the old document in the header; ten documents
    are a block. *)
Definition awrite_term (w : wstate) (x : tupe_t) : wstate :=
  if decide (term x = w_term w) then w
  else WState (term x) (w_doc w) [] (w_out (emit w)).
Definition awrite_push (w : wstate) (x : tupe_t) : wstate :=
  let w := WState (w_term w) (w_doc w) (w_pend w ++ [doc x]) (w_out w) in
  if decide (length (w_pend w) = 10%nat) then emit w else w.
Definition awrite (w : wstate) (x : tupe_t) : wstate :=
  awrite_push (awrite_term (awrite_head w x) x) x.
Definition aflush (w : wstate) : wstate := if decide (w_pend w = []) then w else emit w.

(** The file of a writer that has done [w]. *)
Definition writes (f : ifile) (w : wstate) : Prop :=
  data (fs f) = disk (w_out w) /\ h_term (h f) = w_term w /\ h_doc (h f) = w_doc w /\
  c f = w_pend w /\ (length (w_pend w) < 10)%nat /\ capacity f = 10.

(** The encoding fits in the four bytes for each document that are allocated. *)
Definition block_fits (docs : list Z) : Prop := (length (delta_encoded 0 docs) <= 4 * length docs)%nat.
Definition emitted_fit (w : wstate) : Prop := Forall (fun d => block_fits (d_docs d)) (w_out w).

Lemma compress_ok docs :
  (length docs <= 10)%nat -> block_fits docs ->
  exists cb, compress docs = Ok (cb, Z.of_nat (length (delta_encoded 0 docs))) /\ at_off cb 0 (delta_encoded 0 docs).
Proof.
  intros Hlen Hfit. unfold compress, block_fits in *.
  replace (u32 (Z.of_nat (length docs))) with (Z.of_nat (length docs)) by zlia.
  rewrite (delta_encode_ok docs), bind_Ok; [|apply at_off_refl|lia|rewrite length_malloc8; lia].
  eexists. split; [|apply at_off_prefix]. do 2 f_equal. zlia.
Qed.

Lemma real_write_ok f docs :
  c f = docs -> docs <> [] -> (length docs <= 10)%nat -> block_fits docs ->
  exists f', real_write f = Ok f' /\
    data (fs f') = data (fs f) ++ disk_bytes (DChunk (h_term (h f)) (h_doc (h f)) docs) /\
    h_term (h f') = h_term (h f) /\ h_doc (h f') = h_doc (h f) /\ capacity f' = capacity f.
Proof.
  intros <- Hne Hlen Hfit. unfold real_write.
  rewrite (proj2 (Nat.eqb_neq _ _)) by (by intros ?%nil_length_inv).
  destruct (compress_ok (c f) Hlen Hfit) as (cb & -> & Hat). rewrite bind_Ok.
  rewrite Nat2Z.id, (at_off_load_range _ _ _ Hat), bind_Ok. eexists. split; [done|]. simpl. split; [|done].
  unfold disk_bytes, disk_head. cbn [d_docs d_term d_doc].
  replace (u32 (Z.of_nat (length (c f)))) with (Z.of_nat (length (c f))) by zlia. by rewrite app_assoc.
Qed.

(** Writing the block and clearing it is [emit]. *)
Lemma cpp_emit_ok f w :
  data (fs f) = disk (w_out w) -> h_term (h f) = w_term w -> h_doc (h f) = w_doc w -> c f = w_pend w ->
  capacity f = 10 -> w_pend w <> [] -> (length (w_pend w) <= 10)%nat -> block_fits (w_pend w) ->
  exists f', (f ← real_write f; Ok (clear f)) = Ok f' /\ writes f' (emit w).
Proof.
  intros Hd Ht Hdoc Hc Hcap Hne Hlen Hfit.
  destruct (real_write_ok f (w_pend w) Hc Hne Hlen Hfit) as (f' & -> & Hd' & Ht' & Hdoc' & Hcap').
  eexists. split; [done|]. unfold writes. simpl. rewrite disk_snoc, Hd', Hd, Ht', Ht, Hdoc', Hdoc. split_and!; try done; [lia|congruence].
Qed.

Lemma cpp_awrite_push_out w x : w_out w `prefix_of` w_out (awrite_push w x).
Proof. unfold awrite_push. case_decide; simpl; [by eexists|done]. Qed.

Lemma emitted_fit_last w : emitted_fit (emit w) -> block_fits (w_pend w).
Proof. unfold emitted_fit. simpl. rewrite Forall_app. intros [_ H]. by inversion H. Qed.

Lemma cpp_write_term_ok f w x :
  writes f w -> w_pend w <> [] \/ term x = w_term w -> emitted_fit (awrite_term w x) ->
  exists f', (if negb (term x =? h_term (h f)) then
      f ← real_write f;
      let f := clear f in
      Ok (Ifile (it f) (c f) (ChunkHead (h_N (h f)) (term x) (h_doc (h f)) (h_bcount (h f))) (capacity f) (t f) (fs f))
    else Ok f) = Ok f' /\ writes f' (awrite_term w x).
Proof.
  intros (Hd & Ht & Hdoc & Hc & Hlen & Hcap) Hor Hfit. unfold awrite_term in *. rewrite Ht.
  destruct (Z.eqb_spec (term x) (w_term w)) as [E|E]; simpl.
  { rewrite decide_True by done. by exists f. }
  rewrite decide_False in * by done. destruct Hor as [Hne|?]; [|done].
  destruct (cpp_emit_ok f w) as (f' & Hr & Hw); try done; [lia|by apply emitted_fit_last|].
  apply bind_Ok_inv in Hr as (f1 & -> & [= <-]). rewrite bind_Ok. eexists. split; [done|].
  destruct Hw as (? & ? & ? & ? & ? & ?). unfold writes. simpl in *. split_and!; try done; lia.
Qed.

Lemma write_ok f w x :
  writes f w -> emitted_fit (awrite w x) -> exists f', write f x = Ok f' /\ writes f' (awrite w x).
Proof.
  intros Hw Hfit. unfold write, awrite in *. set (w1 := awrite_head w x) in *. set (w2 := awrite_term w1 x) in *.
  set (f1 := if (length (c f) =? 0)%nat then _ else f).
  assert (Hw1 : writes f1 w1 /\ (w_pend w1 <> [] \/ term x = w_term w1)).
  { destruct Hw as (Hd & Ht & Hdoc & Hc & Hlen & Hcap). unfold f1, w1, awrite_head. rewrite Hc.
    destruct (w_pend w) as [|d ds] eqn:Ep; simpl.
    - split; [by split_and!|by right].
    - unfold writes. rewrite Ep. split; [|by left]. by split_and!. }
  destruct Hw1 as [Hw1 Hor].
  destruct (cpp_write_term_ok f1 w1 x Hw1 Hor) as (f2 & E2 & Hw2).
  { destruct (cpp_awrite_push_out w2 x) as [r Hr]. unfold emitted_fit in *. rewrite Hr, Forall_app in Hfit. apply Hfit. }
  cbv zeta in E2. rewrite E2, bind_Ok. fold w2 in Hw2. destruct Hw2 as (Hd & Ht & Hdoc & Hc & Hlen & Hcap).
  unfold awrite_push in *. cbn [c capacity w_pend] in *. rewrite Hc, Hcap in *.
  assert (Hl : length (w_pend w2 ++ [doc x]) = S (length (w_pend w2))) by (rewrite length_app; simpl; lia).
  case_decide as Hten.
  - rewrite (proj2 (Z.eqb_eq _ _)) by lia. apply cpp_emit_ok; simpl; try done; [by destruct (w_pend w2)|lia|].
    by apply emitted_fit_last in Hfit.
  - rewrite (proj2 (Z.eqb_neq _ _)) by lia. eexists. split; [done|]. unfold writes. simpl. split_and!; try done. lia.
Qed.

(** The C++ writer refines the abstract writer of blocks: from a file that holds the
    blocks emitted so far, writing a tuple appends exactly the block that the abstract
    writer emits, if any, as long as its encoding fits in four bytes for each document. *)
Theorem cpp_write_refines (f : ifile) (w : wstate) (x : tupe_t)
  (Hw : writes f w) (Hfit : emitted_fit (awrite w x)) :
  exists f', write f x = Ok f' /\ writes f' (awrite w x).
Proof. by apply write_ok. Qed.

Lemma cpp_flush_ok f w :
  writes f w -> emitted_fit (aflush w) -> exists f', flush f = Ok f' /\ writes f' (aflush w).
Proof.
  intros (Hd & Ht & Hdoc & Hc & Hlen & Hcap) Hfit. unfold flush, aflush in *. case_decide as E.
  - unfold real_write. rewrite Hc, E. simpl. eexists. split; [done|]. unfold writes. simpl. by rewrite E in *.
  - apply cpp_emit_ok; try done; [lia|by apply emitted_fit_last].
Qed.

Lemma awrite_first t1 a : awrite winit (Tupe t1 a) = WState t1 a [a] [].
Proof. unfold awrite, awrite_head, awrite_term, awrite_push. simpl. by destruct (decide (t1 = t1)). Qed.

Lemma awrite_new_term t1 t2 a b :
  t1 <> t2 -> awrite (WState t1 a [a] []) (Tupe t2 b) = WState t2 a [b] [DChunk t1 a [a]].
Proof.
  intros Hne. unfold awrite, awrite_head, awrite_term, awrite_push. simpl.
  by destruct (decide (t2 = t1)); [congruence|].
Qed.

Lemma writes_new : writes (ifile_new open_out) winit.
Proof. unfold writes. simpl. split_and!; done || lia. Qed.

(** A new term: the header of its block names the first document of the old block. *)
Lemma write_stale_doc t1 t2 a b :
  t1 <> t2 -> block_fits [a] -> block_fits [b] ->
  exists f, (f ← write (ifile_new open_out) (Tupe t1 a); f ← write f (Tupe t2 b); flush f) = Ok f /\
    data (fs f) = disk [DChunk t1 a [a]; DChunk t2 a [b]].
Proof.
  intros Hne Ha Hb.
  destruct (write_ok _ _ (Tupe t1 a) writes_new) as (f1 & -> & H1); rewrite awrite_first in *; [by constructor|].
  rewrite bind_Ok. destruct (write_ok _ _ (Tupe t2 b) H1) as (f2 & -> & H2); rewrite awrite_new_term in * by done.
  { by constructor. }
  rewrite bind_Ok. destruct (cpp_flush_ok _ _ H2) as (f3 & -> & H3).
  { constructor; [exact Ha|]. by constructor. }
  exists f3. split; [done|]. apply H3.
Qed.

(** * The reader *)

Lemma decode_data_past x i code : (1 <= i)%nat -> decode_data [x] i code = Undef.
Proof.
  intros Hi. unfold decode_data, Svb.decode_data.
  assert (Hle : forall n, (0 < n)%nat -> load_le n [x] i = Undef).
  { intros n Hn. unfold load_le, load_range. rewrite decide_False; [done|simpl; lia]. }
  repeat case_match; rewrite ?Hle by lia; try done. unfold load. by rewrite lookup_ge_None_2 by (simpl; lia).
Qed.

(** A decoder that is given one byte reads past it. *)
Lemma decode_one_byte x out N : 1 <= N < 2 ^ 32 -> streamvbyte_delta_decode [x] out N 0 = Undef.
Proof.
  intros HN. unfold streamvbyte_delta_decode, svb_decode_avx_d1_init.
  destruct (Z.leb_spec 8 (N / 4)) as [H8|H8].
  - set (i := Z.to_nat (_ + _)).
    assert (load_le 8 [x] i = Undef) as ->; [|done]. unfold load_le, load_range. rewrite decide_False; [done|simpl; lia].
  - rewrite bind_Ok. pose proof (Z.div_mod N 4 ltac:(lia)). pose proof (Z.mod_pos_bound N 4 ltac:(lia)).
    assert (HN32 : Z.land N 31 = N) by (change 31 with (2 ^ 5 - 1); rewrite land_mod by lia; apply Z.mod_small; lia).
    assert (Hk : Z.land (N / 4) 7 = N / 4) by (change 7 with (2 ^ 3 - 1); rewrite land_mod by lia; apply Z.mod_small; lia).
    rewrite HN32, Hk, Z.sub_diag. unfold svb_decode_scalar_d1_init. rewrite (proj2 (Z.eqb_neq N 0)) by lia.
    change (load [x] (0 + Z.to_nat 0)) with (Ok x). rewrite bind_Ok.
    destruct (Z.to_nat N) as [|n] eqn:En; [lia|]. cbn [svb_decode_scalar_d1_loop Z.eqb]. rewrite bind_Ok.
    rewrite decode_data_past; [done|]. replace (u32 (N + 3)) with (N + 3) by zlia.
    assert (1 <= (N + 3) / 4) by (apply Z.div_le_lower_bound; lia). lia.
Qed.

(** A block of documents overflows the single byte, or is decoded past it. *)
Lemma read_block_undef s cs N bcount : 1 <= N < 2 ^ 32 -> read_block s cs N bcount = Undef.
Proof.
  intros HN. unfold read_block. destruct (fs_read s (Z.to_nat (N * 4))) as [bs s'].
  destruct bs as [|b [|b' bs]].
  - simpl. unfold decompress. by rewrite decode_one_byte.
  - simpl. unfold decompress. by rewrite decode_one_byte.
  - done.
Qed.

Lemma word_u32 i bs : Forall is_u8 bs -> 0 <= word i bs < 2 ^ 32.
Proof.
  intros Hu8. unfold word. set (l := take 4 (drop (4 * i) bs)).
  assert (Hl : Forall is_u8 l) by (by apply Forall_take, Forall_drop).
  pose proof (le_combine_bound l Hl) as Hb. assert (length l <= 4)%nat by (unfold l; rewrite length_take; lia).
  assert (2 ^ (8 * Z.of_nat (length l)) <= 2 ^ 32) by (apply Z.pow_le_mono_r; lia). lia.
Qed.

Lemma overlay_u8 bs old : Forall is_u8 bs -> Forall is_u8 old -> Forall is_u8 (overlay bs old).
Proof. intros. apply Forall_app. split; [done|by apply Forall_drop]. Qed.

Lemma fs_read_u8 s n : Forall is_u8 (data s) -> Forall is_u8 (fs_read s n).1.
Proof. intros H. unfold fs_read. case_match; simpl; [constructor|]. by apply Forall_take, Forall_drop. Qed.

(** A block without documents is empty. *)
Lemma read_block_0 s cs bcount : exists s', read_block s cs 0 bcount = Ok (s', []).
Proof. unfold read_block, fs_read. by destruct (eofbit s || failbit s); eexists. Qed.

Lemma read_undef f tu :
  it f = length (c f) -> eofbit (fs f) = false -> Forall is_u8 (data (fs f)) -> read f tu = Undef.
Proof.
  intros Hit Heof Hu8. unfold read. rewrite Hit, Nat.eqb_refl. unfold real_read. rewrite Heof.
  pose proof (fs_read_u8 (fs f) 16 Hu8) as Hbs. destruct (fs_read (fs f) 16) as [bs s]. simpl in Hbs.
  assert (Hov : Forall is_u8 (overlay bs (head_bytes (h f)))).
  { apply overlay_u8; [done|]. unfold head_bytes. rewrite !Forall_app. auto using le_split_bytes. }
  pose proof (word_u32 0 _ Hov) as HN. cbn [head_of_bytes h_N].
  destruct (decide (word 0 (overlay bs (head_bytes (h f))) = 0)) as [->|Hne].
  - destruct (read_block_0 s (c f) (h_bcount (head_of_bytes (overlay bs (head_bytes (h f)))))) as [s' ->]. done.
  - rewrite read_block_undef by lia. done.
Qed.

(** C40: no index file can be read: on any file that was opened and not read to its end,
    whatever its contents, the first [read] is undefined.  The buffer for a block is made
    with [make_shared<uint8_t>(n)], which is one byte and not n; a block of documents
    overflows it, and on a block without documents, which is also what an empty file
    gives, the iterator is moved past the end.  A merge of at least one file begins with
    such a read. *)
Theorem cpp_read_undef (fuel : nat) (heap : list ifile) (files : list nat) (p : nat) (f outs : ifile) (tu : tupe_t)
  (Hfiles : head files = Some p) (Hheap : heap !! p = Some f) (Hit : it f = length (c f))
  (Heof : eofbit (fs f) = false) (Hu8 : Forall is_u8 (data (fs f))) :
  read f tu = Undef /\ merge fuel heap files (length files) outs = Undef.
Proof.
  split; [by apply read_undef|]. destruct files as [|p' files]; [done|]. injection Hfiles as ->.
  unfold merge. simpl. unfold load. rewrite Hheap. simpl. by rewrite read_undef.
Qed.

(** * tool.cc *)

(** The index files of the test program. *)
Example test_files :
  test 2 = Ok (disk [DChunk 1 0 [0; 2; 4; 6; 8]]) /\ test 3 = Ok (disk [DChunk 1 0 [0; 3; 6; 9]]) /\
  test 4 = Ok (disk [DChunk 1 0 [0; 4; 8]]) /\
  test 1 = Ok (disk [DChunk 1 0 [0; 1; 2; 3; 4; 5; 6; 7; 8; 9]]).
Proof. vm_compute. auto. Qed.

(** The program does not get beyond its first test, which reads a document back. *)
Example main_undef fuel : main fuel = Undef.
Proof. vm_compute. reflexivity. Qed.

(** The result of [dsort] is the map from terms to documents; what is written to the
    output does not depend on it. *)
Lemma dsort_writes_nothing fuel heap files n limit outs m outs' :
  dsort fuel heap files n limit outs = Ok (Some (m, outs')) -> flush outs = Ok outs'.
Proof.
  unfold dsort. intros ([[heap1 files1] n1] & _ & H)%bind_Ok_inv. apply bind_Ok_inv in H as (files2 & _ & H).
  apply bind_Ok_inv in H as ([m1|] & _ & H); [|done]. apply bind_Ok_inv in H as (o & -> & [= _ ->]). done.
Qed.
End with_junk.

(** Three tuples of two terms; the file has a block already. *)
Lemma cpp_write_refines_witness :
  exists f', write no_junk
      (Ifile 0 [7] (ChunkHead 1 3 7 0) 10 (Tupe 0 0) (Fstream (disk [DChunk 2 1 [1]]) 0 false false true)) (Tupe 4 9) = Ok f' /\
    writes f' (WState 4 7 [9] [DChunk 2 1 [1]; DChunk 3 7 [7]]).
Proof.
  apply (cpp_write_refines no_junk _ (WState 3 7 [7] [DChunk 2 1 [1]]) (Tupe 4 9)).
  - unfold writes. simpl. split_and!; try done. lia.
  - unfold emitted_fit. repeat constructor; unfold block_fits; vm_compute; lia.
Defined.

(** A file that [test] has written. *)
Lemma cpp_read_undef_witness :
  let f := ifile_new (open_in (disk [DChunk 1 0 [0; 2; 4; 6; 8]])) in
  read f (Tupe 0 0) = Undef /\ merge no_junk 9 [f] [0%nat] 1 (ifile_new open_out) = Undef.
Proof.
  intros f. apply (cpp_read_undef no_junk 9 [f] [0%nat] 0 f (ifile_new open_out) (Tupe 0 0)); try done. by_decide.
Defined.
End Cpp.
