(* ===== verification/BufRing.v ===== *)
(** src/buf_ring.h and src/buf_ring.c: the lock-free ring buffer.

    Each operation is a program of atomic steps, one shared access each, and
    threads interleave their steps in any order (sequential consistency; the code
    asks for relaxed ordering, whose further reorderings are not modelled).
    Pointers are numbers, NULL is 0.  The weak compare-and-exchange may fail for
    no reason.  Allocation is taken to succeed. *)
From S2P Require Import Prelude.

Module BufRing.

(** * struct buf_ring *)
Record buf_ring := BR {
  br_prod_head : Z; br_prod_tail : Z; br_prod_size : Z; br_prod_mask : Z;
  br_drops : Z;
  br_cons_head : Z; br_cons_tail : Z; br_cons_size : Z; br_cons_mask : Z;
  br_ring : list Z
}.

Definition set_prod_head (br : buf_ring) (v : Z) : buf_ring :=
  BR v (br_prod_tail br) (br_prod_size br) (br_prod_mask br) (br_drops br)
    (br_cons_head br) (br_cons_tail br) (br_cons_size br) (br_cons_mask br) (br_ring br).
Definition set_prod_tail (br : buf_ring) (v : Z) : buf_ring :=
  BR (br_prod_head br) v (br_prod_size br) (br_prod_mask br) (br_drops br)
    (br_cons_head br) (br_cons_tail br) (br_cons_size br) (br_cons_mask br) (br_ring br).
Definition set_drops (br : buf_ring) (v : Z) : buf_ring :=
  BR (br_prod_head br) (br_prod_tail br) (br_prod_size br) (br_prod_mask br) v
    (br_cons_head br) (br_cons_tail br) (br_cons_size br) (br_cons_mask br) (br_ring br).
Definition set_cons_head (br : buf_ring) (v : Z) : buf_ring :=
  BR (br_prod_head br) (br_prod_tail br) (br_prod_size br) (br_prod_mask br) (br_drops br)
    v (br_cons_tail br) (br_cons_size br) (br_cons_mask br) (br_ring br).
Definition set_cons_tail (br : buf_ring) (v : Z) : buf_ring :=
  BR (br_prod_head br) (br_prod_tail br) (br_prod_size br) (br_prod_mask br) (br_drops br)
    (br_cons_head br) v (br_cons_size br) (br_cons_mask br) (br_ring br).
Definition set_ring (br : buf_ring) (r : list Z) : buf_ring :=
  BR (br_prod_head br) (br_prod_tail br) (br_prod_size br) (br_prod_mask br) (br_drops br)
    (br_cons_head br) (br_cons_tail br) (br_cons_size br) (br_cons_mask br) r.

(** [(x + 1) & mask] on [uint32_t] and [int]. *)
Definition next_index (x mask : Z) : Z := Z.land (u32 (x + 1)) (u32 mask).

(** * buf_ring_alloc, buf_ring_free *)

(** [powerof2(x)] on [int]. *)
Definition powerof2 (x : Z) : bool := Z.land (x - 1) x =? 0.

(** [None] is NULL; [count - 1] overflows for the least [int]. *)
Definition buf_ring_alloc (count : Z) : outcome (option buf_ring) :=
  if count =? - 2 ^ 31 then Undef
  else if negb (powerof2 count) then Ok None
  else Ok (Some (BR 0 0 count (count - 1) 0 0 0 count (count - 1)
                   (replicate (Z.to_nat count) 0))).

(** * The operations as programs of atomic steps *)
Inductive pc :=
| Idle
(** buf_ring_enqueue *)
| EnqStart (buf : Z)
| EnqHead (buf prod_head : Z)
| EnqFull (buf prod_head prod_next cons_tail : Z)
| EnqFull2 (buf prod_head prod_next cons_tail : Z)
| EnqDrops
| EnqDrops2 (drops : Z)
| EnqCas (buf prod_head prod_next : Z)
| EnqStore (buf prod_head prod_next : Z)
| EnqWait (buf prod_head prod_next : Z)
| EnqPublish (buf prod_next : Z)
(** buf_ring_dequeue_mc *)
| McStart
| McHead (cons_head : Z)
| McCas (cons_head cons_next : Z)
| McLoad (cons_head cons_next : Z)
| McWait (buf cons_head cons_next : Z)
| McPublish (buf cons_next : Z)
(** buf_ring_dequeue_sc *)
| ScStart
| ScHead (cons_head : Z)
| ScAdvance (cons_head cons_next : Z)
| ScLoad (cons_head cons_next : Z)
| ScPublish (buf cons_next : Z)
(** the operation has returned *)
| Ret (r : Z).

(** What an operation does to the queue, shown at the step that decides it. *)
Inductive event := Pushed (b : Z) | Full | Popped (v : Z) | Empty.

Definition step_result : Type := buf_ring * pc * option event.

(** One step of buf_ring_enqueue.  [continue] goes to the condition of the
    do-while loop, the compare-and-exchange; when that fails the loop starts over. *)
Definition enqueue_step (spurious : bool) (br : buf_ring) (p : pc) : outcome step_result :=
  match p with
  | EnqStart buf => Ok (br, EnqHead buf (br_prod_head br), None)
  | EnqHead buf prod_head =>
      let prod_next := next_index prod_head (br_prod_mask br) in
      let cons_tail := br_cons_tail br in
      if prod_next =? cons_tail then Ok (br, EnqFull buf prod_head prod_next cons_tail, None)
      else Ok (br, EnqCas buf prod_head prod_next, None)
  | EnqFull buf prod_head prod_next cons_tail =>
      if prod_head =? br_prod_head br then Ok (br, EnqFull2 buf prod_head prod_next cons_tail, None)
      else Ok (br, EnqCas buf prod_head prod_next, None)
  | EnqFull2 buf prod_head prod_next cons_tail =>
      if cons_tail =? br_cons_tail br then Ok (br, EnqDrops, Some Full)
      else Ok (br, EnqCas buf prod_head prod_next, None)
  | EnqDrops => Ok (br, EnqDrops2 (br_drops br), None)
  | EnqDrops2 d => Ok (set_drops br (u64 (d + 1)), Ret (-1), None)
  | EnqCas buf prod_head prod_next =>
      if negb spurious && (br_prod_head br =? prod_head)
      then Ok (set_prod_head br prod_next, EnqStore buf prod_head prod_next, None)
      else Ok (br, EnqStart buf, None)
  | EnqStore buf prod_head prod_next =>
      r ← store (br_ring br) (Z.to_nat prod_head) buf;
      Ok (set_ring br r, EnqWait buf prod_head prod_next, None)
  | EnqWait buf prod_head prod_next =>
      if br_prod_tail br =? prod_head then Ok (br, EnqPublish buf prod_next, None)
      else Ok (br, p, None)
  | EnqPublish buf prod_next => Ok (set_prod_tail br prod_next, Ret 0, Some (Pushed buf))
  | _ => Ok (br, p, None)
  end.

(** One step of buf_ring_dequeue_mc. *)
Definition dequeue_mc_step (spurious : bool) (br : buf_ring) (p : pc) : outcome step_result :=
  match p with
  | McStart => Ok (br, McHead (br_cons_head br), None)
  | McHead cons_head =>
      let cons_next := next_index cons_head (br_cons_mask br) in
      if cons_head =? br_prod_tail br then Ok (br, Ret 0, Some Empty)
      else Ok (br, McCas cons_head cons_next, None)
  | McCas cons_head cons_next =>
      if negb spurious && (br_cons_head br =? cons_head)
      then Ok (set_cons_head br cons_next, McLoad cons_head cons_next, None)
      else Ok (br, McStart, None)
  | McLoad cons_head cons_next =>
      buf ← load (br_ring br) (Z.to_nat cons_head);
      Ok (br, McWait buf cons_head cons_next, None)
  | McWait buf cons_head cons_next =>
      if br_cons_tail br =? cons_head then Ok (br, McPublish buf cons_next, None)
      else Ok (br, p, None)
  | McPublish buf cons_next => Ok (set_cons_tail br cons_next, Ret buf, Some (Popped buf))
  | _ => Ok (br, p, None)
  end.

(** One step of buf_ring_dequeue_sc. *)
Definition dequeue_sc_step (br : buf_ring) (p : pc) : outcome step_result :=
  match p with
  | ScStart => Ok (br, ScHead (br_cons_head br), None)
  | ScHead cons_head =>
      let prod_tail := br_prod_tail br in
      let cons_next := next_index cons_head (br_cons_mask br) in
      if cons_head =? prod_tail then Ok (br, Ret 0, Some Empty)
      else Ok (br, ScAdvance cons_head cons_next, None)
  | ScAdvance cons_head cons_next =>
      Ok (set_cons_head br cons_next, ScLoad cons_head cons_next, None)
  | ScLoad cons_head cons_next =>
      buf ← load (br_ring br) (Z.to_nat cons_head); Ok (br, ScPublish buf cons_next, None)
  | ScPublish buf cons_next => Ok (set_cons_tail br cons_next, Ret buf, Some (Popped buf))
  | _ => Ok (br, p, None)
  end.

Definition thread_step (spurious : bool) (br : buf_ring) (p : pc) : outcome step_result :=
  match p with
  | Idle | Ret _ => Ok (br, p, None)
  | EnqStart _ | EnqHead _ _ | EnqFull _ _ _ _ | EnqFull2 _ _ _ _ | EnqDrops | EnqDrops2 _
  | EnqCas _ _ _ | EnqStore _ _ _ | EnqWait _ _ _ | EnqPublish _ _ => enqueue_step spurious br p
  | McStart | McHead _ | McCas _ _ | McLoad _ _ | McWait _ _ _ | McPublish _ _ =>
      dequeue_mc_step spurious br p
  | ScStart | ScHead _ | ScAdvance _ _ | ScLoad _ _ | ScPublish _ _ => dequeue_sc_step br p
  end.

(** [n] steps of an operation while no other thread runs. *)
Fixpoint run (n : nat) (br : buf_ring) (p : pc) : outcome (buf_ring * pc) :=
  match n with
  | O => Ok (br, p)
  | S n => '(br, p, _) ← thread_step false br p; run n br p
  end.

(** * The operations for a consumer that holds the lock *)
Definition buf_ring_advance_sc (br : buf_ring) : buf_ring :=
  let cons_head := br_cons_head br in
  let prod_tail := br_prod_tail br in
  let cons_next := next_index cons_head (br_cons_mask br) in
  if cons_head =? prod_tail then br
  else set_cons_tail (set_cons_head br cons_next) cons_next.

Definition buf_ring_putback_sc (br : buf_ring) (new : Z) : outcome buf_ring :=
  r ← store (br_ring br) (Z.to_nat (br_cons_head br)) new; Ok (set_ring br r).

Definition buf_ring_peek (br : buf_ring) : outcome Z :=
  if br_cons_head br =? br_prod_tail br then Ok 0
  else load (br_ring br) (Z.to_nat (br_cons_head br)).

Definition buf_ring_full (br : buf_ring) : bool :=
  next_index (br_prod_head br) (br_prod_mask br) =? br_cons_tail br.

Definition buf_ring_empty (br : buf_ring) : bool := br_cons_head br =? br_prod_tail br.

Definition buf_ring_count (br : buf_ring) : Z :=
  s32 (Z.land (u32 (u32 (u32 (br_prod_size br) + br_prod_tail br) - br_cons_tail br))
    (u32 (br_prod_mask br))).

(** * Threads *)
Inductive role := Producer | Consumer.

Definition may_start (r : role) (p : pc) : bool :=
  match r, p with
  | Producer, EnqStart _ | Consumer, McStart | Consumer, ScStart => true
  | _, _ => false
  end.

Record config := Config { ring : buf_ring; threads : list pc }.

(** One thread with its role starts an operation, makes a step of it, or returns. *)
Inductive step (roles : list role) : config -> option event -> config -> Prop :=
| step_start i r p br ts :
    roles !! i = Some r -> ts !! i = Some Idle -> may_start r p = true ->
    step roles (Config br ts) None (Config br (<[i := p]> ts))
| step_run i p sp br br' p' l ts :
    ts !! i = Some p -> thread_step sp br p = Ok (br', p', l) ->
    step roles (Config br ts) l (Config br' (<[i := p']> ts))
| step_return i r br ts :
    ts !! i = Some (Ret r) -> step roles (Config br ts) None (Config br (<[i := Idle]> ts)).

Inductive steps (roles : list role) : config -> list event -> config -> Prop :=
| steps_refl c : steps roles c [] c
| steps_tau c c1 c2 es : steps roles c es c1 -> step roles c1 None c2 -> steps roles c es c2
| steps_event c c1 c2 es e :
    steps roles c es c1 -> step roles c1 (Some e) c2 -> steps roles c (es ++ [e]) c2.

(** * The abstract queue *)
Inductive fifo_step (cap : nat) : list Z -> event -> list Z -> Prop :=
| fifo_push q b : (length q < cap)%nat -> fifo_step cap q (Pushed b) (q ++ [b])
| fifo_full q : length q = cap -> fifo_step cap q Full q
| fifo_pop q v : fifo_step cap (v :: q) (Popped v) q
| fifo_empty : fifo_step cap [] Empty [].

Inductive fifo_run (cap : nat) : list Z -> list event -> list Z -> Prop :=
| fifo_refl q : fifo_run cap q [] q
| fifo_snoc q q1 q2 es e :
    fifo_run cap q es q1 -> fifo_step cap q1 e q2 -> fifo_run cap q (es ++ [e]) q2.

(** * Representation *)

(** The ring of [2^k] slots with the unbounded positions [H] (claimed by a
    producer), [K + length q] (published), [C] (claimed by a consumer) and [K]
    (released), holding [q]. *)
Definition ring_ok (k : Z) (br : buf_ring) (H C K : Z) (q : list Z) : Prop :=
  let n := 2 ^ k in
  0 <= k <= 30 /\ 0 <= K /\
  Z.of_nat (length (br_ring br)) = n /\ br_prod_size br = n /\
  br_prod_mask br = n - 1 /\ br_cons_mask br = n - 1 /\
  br_prod_head br = H mod n /\ br_prod_tail br = (K + Z.of_nat (length q)) mod n /\
  br_cons_head br = C mod n /\ br_cons_tail br = K mod n /\
  K + Z.of_nat (length q) <= H <= K + n - 1 /\ K <= C <= K + Z.of_nat (length q) /\
  (forall j v, q !! j = Some v -> br_ring br !! Z.to_nat ((K + Z.of_nat j) mod n) = Some v).

(** Where the producer is in its operation; [T] is the published position. *)
Definition prod_ok (k : Z) (rg : list Z) (H T K : Z) (p : pc) : Prop :=
  let n := 2 ^ k in
  match p with
  | Idle | EnqStart _ | EnqDrops | EnqDrops2 _ | Ret _ => H = T
  | EnqHead _ ph => H = T /\ ph = H mod n
  | EnqFull _ ph pn ct | EnqFull2 _ ph pn ct => H = T /\ ph = H mod n /\ pn = (H + 1) mod n /\ pn = ct
  | EnqCas _ ph pn => H = T /\ ph = H mod n /\ pn = (H + 1) mod n /\ H + 1 <= K + n - 1
  | EnqStore _ ph pn => H = T + 1 /\ ph = T mod n /\ pn = H mod n
  | EnqWait b ph pn => H = T + 1 /\ ph = T mod n /\ pn = H mod n /\ rg !! Z.to_nat (T mod n) = Some b
  | EnqPublish b pn => H = T + 1 /\ pn = H mod n /\ rg !! Z.to_nat (T mod n) = Some b
  | _ => False
  end.

Definition cons_ok (k : Z) (C K : Z) (q : list Z) (p : pc) : Prop :=
  let n := 2 ^ k in
  match p with
  | Idle | McStart | ScStart | Ret _ => C = K
  | McHead ch | ScHead ch => C = K /\ ch = K mod n
  | McCas ch cn | ScAdvance ch cn => C = K /\ ch = K mod n /\ cn = (K + 1) mod n /\ q <> []
  | McLoad ch cn | ScLoad ch cn => C = K + 1 /\ ch = K mod n /\ cn = C mod n
  | McWait b ch cn => C = K + 1 /\ ch = K mod n /\ cn = C mod n /\ hd_error q = Some b
  | McPublish b cn | ScPublish b cn => C = K + 1 /\ cn = C mod n /\ hd_error q = Some b
  | _ => False
  end.

(** One producer and one consumer around a ring that holds [q]. *)
Definition spsc (k : Z) (br : buf_ring) (p0 p1 : pc) (q : list Z) : Prop :=
  exists H C K, ring_ok k br H C K q /\
    prod_ok k (br_ring br) H (K + Z.of_nat (length q)) K p0 /\ cons_ok k C K q p1.

(** * Arithmetic of positions *)
Lemma pow2_pos k : 0 <= k -> 0 < 2 ^ k.
Proof. intros. by apply Z.pow_pos_nonneg. Qed.

Lemma pow2_30 k : 0 <= k <= 30 -> 2 ^ k <= 2 ^ 30.
Proof. intros. apply Z.pow_le_mono_r; lia. Qed.

Lemma next_index_mod k x : 0 <= k <= 30 -> next_index (x mod 2 ^ k) (2 ^ k - 1) = (x + 1) mod 2 ^ k.
Proof.
  intros Hk. pose proof (pow2_pos k). pose proof (pow2_30 k Hk).
  pose proof (Z.mod_pos_bound x (2 ^ k)). unfold next_index, u32.
  rewrite (Z.mod_small (2 ^ k - 1)), (Z.mod_small (x mod 2 ^ k + 1)) by lia.
  rewrite land_mod by lia. apply Zplus_mod_idemp_l.
Qed.

Lemma mod_window n a b : 0 < n -> b <= a < b + n -> a mod n = b mod n -> a = b.
Proof.
  intros Hn Hab Heq. pose proof (Z.div_mod a n ltac:(lia)) as Ha.
  pose proof (Z.div_mod b n ltac:(lia)) as Hb. rewrite Heq in Ha.
  assert (n * (a / n - b / n) = a - b) by lia. assert (a / n - b / n = 0) by nia. nia.
Qed.

Lemma mod_wrap n a : 0 < n -> (a + n) mod n = a mod n.
Proof. intros. by rewrite <- (Z.mul_1_l n) at 1; rewrite Z.mod_add by lia. Qed.

Lemma mod_index n a (l : list Z) :
  0 < n -> Z.of_nat (length l) = n -> (Z.to_nat (a mod n) < length l)%nat.
Proof. intros. pose proof (Z.mod_pos_bound a n). lia. Qed.

(** * One producer, one consumer *)

(** Outcome of a step of the producer or consumer. *)
Definition refines (cap : nat) (q : list Z) (l : option event) (q' : list Z) : Prop :=
  match l with None => q' = q | Some e => fifo_step cap q e q' end.

Definition capacity (k : Z) : nat := Z.to_nat (2 ^ k - 1).

Lemma cons_ok_push k C K q b p : cons_ok k C K q p -> cons_ok k C K (q ++ [b]) p.
Proof.
  destruct p; simpl; try done; intros; destruct_and?; split_and?; try done; try (by destruct q).
Qed.

Lemma ring_ok_room k br H C K q :
  ring_ok k br H C K q -> H = K + Z.of_nat (length q) ->
  (H + 1) mod 2 ^ k <> br_cons_tail br -> H + 1 <= K + 2 ^ k - 1.
Proof.
  intros (Hk & HK & _ & _ & _ & _ & _ & _ & _ & Hct & HH & _) _ Hne. pose proof (pow2_pos k).
  destruct (decide (H + 1 = K + 2 ^ k)) as [E|]; [|lia].
  destruct Hne. rewrite Hct, E. apply mod_wrap. lia.
Qed.

(** Claiming the next slot. *)
Lemma enqueue_claim k br C K q :
  ring_ok k br (K + Z.of_nat (length q)) C K q -> K + Z.of_nat (length q) + 1 <= K + 2 ^ k - 1 ->
  ring_ok k (set_prod_head br ((K + Z.of_nat (length q) + 1) mod 2 ^ k))
    (K + Z.of_nat (length q) + 1) C K q.
Proof. intros (?&?&?&?&?&?&?&?&?&?&?&?&?) Hroom. split_and!; simpl; try done; lia. Qed.

(** Filling the claimed slot does not touch the published ones. *)
Lemma enqueue_fill k br C K q b r :
  ring_ok k br (K + Z.of_nat (length q) + 1) C K q ->
  r = <[Z.to_nat ((K + Z.of_nat (length q)) mod 2 ^ k) := b]> (br_ring br) ->
  ring_ok k (set_ring br r) (K + Z.of_nat (length q) + 1) C K q /\
  r !! Z.to_nat ((K + Z.of_nat (length q)) mod 2 ^ k) = Some b.
Proof.
  intros (Hk & HK & Hlen & Hsz & Hm1 & Hm2 & Hph & Hpt & Hch & Hct & HH & HC & Hq) ->.
  assert (Hn : 0 < 2 ^ k) by (apply pow2_pos; lia).
  assert (Hidx := mod_index _ (K + Z.of_nat (length q)) _ Hn Hlen).
  split; [|by apply list_lookup_insert_eq].
  split_and!; simpl; try done; try lia; [by rewrite length_insert|].
  intros j v Hj. rewrite list_lookup_insert_ne; [by apply Hq|].
  pose proof (lookup_lt_Some _ _ _ Hj). intros E.
  pose proof (Z.mod_pos_bound (K + Z.of_nat j) (2 ^ k) Hn).
  pose proof (Z.mod_pos_bound (K + Z.of_nat (length q)) (2 ^ k) Hn).
  apply Z2Nat.inj in E; [|lia|lia]. apply mod_window in E; lia.
Qed.

(** Publishing it appends to the queue. *)
Lemma enqueue_publish k br C K q b :
  ring_ok k br (K + Z.of_nat (length q) + 1) C K q ->
  br_ring br !! Z.to_nat ((K + Z.of_nat (length q)) mod 2 ^ k) = Some b ->
  ring_ok k (set_prod_tail br ((K + Z.of_nat (length q) + 1) mod 2 ^ k))
    (K + Z.of_nat (length q) + 1) C K (q ++ [b]).
Proof.
  intros (Hk & HK & Hlen & Hsz & Hm1 & Hm2 & Hph & Hpt & Hch & Hct & HH & HC & Hq) Hb.
  unfold ring_ok. rewrite length_app. cbn [length].
  split_and!; simpl; try done; try lia; [f_equal; lia|].
  intros j v [Hj|[Hge Hj]]%lookup_app_Some; [by apply Hq|].
  apply list_lookup_singleton_Some in Hj as [Hz <-].
  by replace (Z.of_nat j) with (Z.of_nat (length q)) by lia.
Qed.

(** The next step of the producer is defined, and does to the queue what its
    event says. *)
Definition prod_progress (sp : bool) (k : Z) (br : buf_ring) (p0 p1 : pc) (q : list Z) : Prop :=
  exists br' p' l q', thread_step sp br p0 = Ok (br', p', l) /\ spsc k br' p' p1 q' /\
    refines (capacity k) q l q'.

Definition cons_progress (sp : bool) (k : Z) (br : buf_ring) (p0 p1 : pc) (q : list Z) : Prop :=
  exists br' p' l q', thread_step sp br p1 = Ok (br', p', l) /\ spsc k br' p0 p' q' /\
    refines (capacity k) q l q'.

Lemma prod_quiet sp k br p0 p1 q H C K p' :
  thread_step sp br p0 = Ok (br, p', None) -> ring_ok k br H C K q ->
  prod_ok k (br_ring br) H (K + Z.of_nat (length q)) K p' -> cons_ok k C K q p1 ->
  prod_progress sp k br p0 p1 q.
Proof. intros. exists br, p', None, q. split_and!; try done. by exists H, C, K. Qed.

Lemma cons_quiet sp k br p0 p1 q H C K p' :
  thread_step sp br p1 = Ok (br, p', None) -> ring_ok k br H C K q ->
  prod_ok k (br_ring br) H (K + Z.of_nat (length q)) K p0 -> cons_ok k C K q p' ->
  cons_progress sp k br p0 p1 q.
Proof. intros. exists br, p', None, q. split_and!; try done. by exists H, C, K. Qed.

(** The reading part of an enqueue. *)
Lemma enqueue_head_ok sp k br buf ph p1 q :
  spsc k br (EnqHead buf ph) p1 q -> prod_progress sp k br (EnqHead buf ph) p1 q.
Proof.
  intros (H & C & K & Hr & [HT ->] & Hc). assert (Hr' := Hr).
  destruct Hr' as (Hk & HK & Hlen & Hsz & Hm1 & Hm2 & _).
  assert (HN : next_index (H mod 2 ^ k) (br_prod_mask br) = (H + 1) mod 2 ^ k)
    by (rewrite Hm1; by apply next_index_mod).
  destruct (Z.eqb_spec ((H + 1) mod 2 ^ k) (br_cons_tail br)) as [E|E].
  - apply (prod_quiet _ _ _ _ _ _ H C K (EnqFull buf (H mod 2 ^ k) ((H + 1) mod 2 ^ k) (br_cons_tail br)));
      [|done|done|done].
    cbn [thread_step enqueue_step]. by rewrite HN, E, Z.eqb_refl.
  - apply (prod_quiet _ _ _ _ _ _ H C K (EnqCas buf (H mod 2 ^ k) ((H + 1) mod 2 ^ k)));
      [|done| |done].
    + cbn [thread_step enqueue_step]. rewrite HN.
      by replace ((H + 1) mod 2 ^ k =? br_cons_tail br) with false by (symmetry; by apply Z.eqb_neq).
    + split_and!; try done. by apply (ring_ok_room k br H C K q).
Qed.

Lemma enqueue_full_ok sp k br buf ph pn ct p1 q :
  spsc k br (EnqFull buf ph pn ct) p1 q -> prod_progress sp k br (EnqFull buf ph pn ct) p1 q.
Proof.
  intros (H & C & K & Hr & (HT & -> & -> & <-) & Hc). assert (Hr' := Hr).
  destruct Hr' as (Hk & HK & Hlen & Hsz & Hm1 & Hm2 & Hph & _).
  eapply (prod_quiet _ _ _ _ _ _ H C K); [|done| |done].
  - cbn [thread_step enqueue_step]. by rewrite Hph, Z.eqb_refl.
  - done.
Qed.

Lemma enqueue_full2_ok sp k br buf ph pn ct p1 q :
  spsc k br (EnqFull2 buf ph pn ct) p1 q -> prod_progress sp k br (EnqFull2 buf ph pn ct) p1 q.
Proof.
  intros (H & C & K & Hr & (HT & -> & -> & <-) & Hc). assert (Hr' := Hr).
  destruct Hr' as (Hk & HK & Hlen & Hsz & Hm1 & Hm2 & Hph & Hpt & Hch & Hct & HH & _).
  pose proof (pow2_pos k).
  destruct (Z.eqb_spec ((H + 1) mod 2 ^ k) (br_cons_tail br)) as [E|E].
  - exists br, EnqDrops, (Some Full), q. split_and!.
    + cbn. by rewrite E, Z.eqb_refl.
    + by exists H, C, K.
    + apply fifo_full. unfold capacity. destruct (decide (H + 1 = K + 2 ^ k)); [lia|].
      rewrite Hct in E. apply mod_window in E; lia.
  - apply (prod_quiet _ _ _ _ _ _ H C K (EnqCas buf (H mod 2 ^ k) ((H + 1) mod 2 ^ k))); [|done| |done].
    + cbn [thread_step enqueue_step]. by replace ((H + 1) mod 2 ^ k =? br_cons_tail br) with false by (symmetry; by apply Z.eqb_neq).
    + split_and!; try done. by apply (ring_ok_room k br H C K q).
Qed.

(** The writing part. *)
Lemma enqueue_cas_ok sp k br buf ph pn p1 q :
  spsc k br (EnqCas buf ph pn) p1 q -> prod_progress sp k br (EnqCas buf ph pn) p1 q.
Proof.
  intros (H & C & K & Hr & (-> & -> & -> & Hroom) & Hc). assert (Hr' := Hr).
  destruct Hr' as (Hk & HK & Hlen & Hsz & Hm1 & Hm2 & Hph & _).
  unfold prod_progress. cbn. rewrite Hph, Z.eqb_refl, andb_true_r.
  destruct sp; cbn [negb]; do 4 eexists; (split; [reflexivity|]; split; [|done]).
  - by exists (K + Z.of_nat (length q)), C, K.
  - exists (K + Z.of_nat (length q) + 1), C, K. split_and!; try done. by apply enqueue_claim.
Qed.

Lemma enqueue_store_ok sp k br buf ph pn p1 q :
  spsc k br (EnqStore buf ph pn) p1 q -> prod_progress sp k br (EnqStore buf ph pn) p1 q.
Proof.
  intros (H & C & K & Hr & (-> & -> & ->) & Hc). assert (Hr' := Hr).
  destruct Hr' as (Hk & HK & Hlen & _). unfold prod_progress. cbn. unfold store.
  rewrite decide_True by (apply mod_index; [apply pow2_pos; lia|done]). rewrite bind_Ok.
  destruct (enqueue_fill k br C K q buf _ Hr eq_refl) as [Hr2 Hb].
  do 4 eexists. split; [reflexivity|]. split; [|done].
  exists (K + Z.of_nat (length q) + 1), C, K. by split_and!.
Qed.

Lemma enqueue_publish_ok sp k br buf pn p1 q :
  spsc k br (EnqPublish buf pn) p1 q -> prod_progress sp k br (EnqPublish buf pn) p1 q.
Proof.
  intros (H & C & K & Hr & (-> & -> & Hb) & Hc). assert (Hr' := Hr).
  destruct Hr' as (Hk & HK & _ & _ & _ & _ & _ & _ & _ & _ & HH & _).
  eexists _, _, _, (q ++ [buf]). split; [reflexivity|]. split.
  - exists (K + Z.of_nat (length q) + 1), C, K.
    split_and!; [by apply enqueue_publish| |by apply cons_ok_push].
    simpl. rewrite length_app. simpl. lia.
  - apply fifo_push. unfold capacity. lia.
Qed.

Lemma producer_step_ok sp k br p0 p1 q : spsc k br p0 p1 q -> prod_progress sp k br p0 p1 q.
Proof.
  intros Hs. assert (Hs' := Hs). destruct Hs' as (H & C & K & Hr & Hp & Hc).
  destruct p0; try done; eauto using enqueue_head_ok, enqueue_full_ok, enqueue_full2_ok,
    enqueue_cas_ok, enqueue_store_ok, enqueue_publish_ok;
    try (by eapply (prod_quiet _ _ _ _ _ _ H C K)).
  - eapply (prod_quiet _ _ _ _ _ _ H C K); [reflexivity|done| |done].
    split; [done|]. by destruct Hr as (_&_&_&_&_&_&?&_).
  - do 4 eexists. split; [reflexivity|]. split; [|done]. by exists H, C, K.
  - destruct Hp as (-> & -> & -> & Hb).
    eapply (prod_quiet _ _ _ _ _ _ (K + Z.of_nat (length q) + 1) C K); [|done| |done].
    + cbn. destruct Hr as (_&_&_&_&_&_&_&->&_). by rewrite Z.eqb_refl.
    + done.
Qed.

(** The consumer: the head of the queue is claimed, loaded and released. *)
Lemma dequeue_claim k br H K q :
  ring_ok k br H K K q -> q <> [] ->
  ring_ok k (set_cons_head br ((K + 1) mod 2 ^ k)) H (K + 1) K q.
Proof.
  intros (?&?&?&?&?&?&?&?&?&?&?&?&?) Hne.
  assert (0 < length q)%nat by (destruct q; [done|simpl; lia]). split_and!; simpl; try done; lia.
Qed.

Lemma dequeue_release k br H K b q :
  ring_ok k br H (K + 1) K (b :: q) ->
  ring_ok k (set_cons_tail br ((K + 1) mod 2 ^ k)) H (K + 1) (K + 1) q.
Proof.
  intros (Hk & HK & Hlen & Hsz & Hm1 & Hm2 & Hph & Hpt & Hch & Hct & HH & HC & Hq).
  cbn [length] in *. split_and!; simpl; try done; try lia; [rewrite Hpt; f_equal; lia|].
  intros j v Hj. specialize (Hq (S j) v Hj).
  by replace (K + 1 + Z.of_nat j) with (K + Z.of_nat (S j)) by lia.
Qed.

Lemma prod_ok_pop k rg H T K p : prod_ok k rg H T K p -> prod_ok k rg H T (K + 1) p.
Proof. destruct p; simpl; try done; intros; destruct_and?; split_and?; try done; lia. Qed.

Lemma ring_ok_head k br H C K b q :
  ring_ok k br H C K (b :: q) -> load (br_ring br) (Z.to_nat (K mod 2 ^ k)) = Ok b.
Proof.
  intros (_&_&_&_&_&_&_&_&_&_&_&_&Hq). specialize (Hq 0%nat b eq_refl).
  rewrite Z.add_0_r in Hq. unfold load. by rewrite Hq.
Qed.

Lemma ring_ok_empty k br H C K q :
  ring_ok k br H C K q -> (K mod 2 ^ k = br_prod_tail br <-> q = []).
Proof.
  intros (Hk & HK & Hlen & Hsz & Hm1 & Hm2 & Hph & Hpt & Hch & Hct & HH & HC & Hq).
  assert (0 < 2 ^ k) by (apply pow2_pos; lia). rewrite Hpt. split; [|intros ->; by rewrite Z.add_0_r].
  intros E. symmetry in E. apply mod_window in E; [|lia|lia]. destruct q; [done|simpl in E; lia].
Qed.

(** The test for emptiness, common to both dequeues. *)
Lemma dequeue_head_ok sp k br ch p0 p1 p2 q :
  (p1 = McHead ch /\ p2 = McCas ch \/ p1 = ScHead ch /\ p2 = ScAdvance ch) ->
  spsc k br p0 p1 q -> cons_progress sp k br p0 p1 q.
Proof.
  intros Hp (H & C & K & Hr & Hpr & Hc). assert (Hr' := Hr).
  destruct Hr' as (Hk & HK & Hlen & Hsz & Hm1 & Hm2 & Hph & Hpt & Hch & Hct & HH & _).
  assert (Hcc : C = K /\ ch = K mod 2 ^ k) by (by destruct Hp as [[-> _]|[-> _]]).
  destruct Hcc as [-> ->]. pose proof (ring_ok_empty _ _ _ _ _ _ Hr) as He.
  assert (HN : next_index (K mod 2 ^ k) (br_cons_mask br) = (K + 1) mod 2 ^ k)
    by (rewrite Hm2; by apply next_index_mod).
  assert (HS : thread_step sp br p1 =
    if K mod 2 ^ k =? br_prod_tail br then Ok (br, Ret 0, Some Empty)
    else Ok (br, p2 ((K + 1) mod 2 ^ k), None)).
  { destruct Hp as [[-> ->]|[-> ->]]; cbn; by rewrite HN. }
  destruct (Z.eqb_spec (K mod 2 ^ k) (br_prod_tail br)) as [E|E].
  - apply He in E as ->. exists br, (Ret 0), (Some Empty), []. split_and!; [done|by exists H, K, K|constructor].
  - apply (cons_quiet _ _ _ _ _ _ H K K (p2 ((K + 1) mod 2 ^ k))); [done|done|done|].
    destruct Hp as [[-> ->]|[-> ->]]; split_and!; try done; by rewrite <- He.
Qed.

Lemma consumer_claim_ok sp k br p0 p1 p' q H K :
  ring_ok k br H K K q -> q <> [] ->
  prod_ok k (br_ring br) H (K + Z.of_nat (length q)) K p0 ->
  thread_step sp br p1 = Ok (set_cons_head br ((K + 1) mod 2 ^ k), p', None) ->
  cons_ok k (K + 1) K q p' -> cons_progress sp k br p0 p1 q.
Proof.
  intros Hr Hne Hp Hs Hc. do 3 eexists. exists q. split; [exact Hs|]. split; [|done].
  exists H, (K + 1), K. split_and!; [by apply dequeue_claim|done|done].
Qed.

Lemma consumer_release_ok sp k br p0 p1 b q H K :
  ring_ok k br H (K + 1) K q -> hd_error q = Some b ->
  prod_ok k (br_ring br) H (K + Z.of_nat (length q)) K p0 ->
  thread_step sp br p1 = Ok (set_cons_tail br ((K + 1) mod 2 ^ k), Ret b, Some (Popped b)) ->
  cons_progress sp k br p0 p1 q.
Proof.
  intros Hr Hhd Hp Hs. destruct q as [|b' q]; [done|]. injection Hhd as ->.
  do 3 eexists. exists q. split; [exact Hs|]. split; [|constructor].
  exists H, (K + 1), (K + 1). split_and!; [by eapply dequeue_release| |done].
  apply prod_ok_pop in Hp. cbn [length br_ring set_cons_tail] in *.
  by replace (K + 1 + Z.of_nat (length q)) with (K + Z.of_nat (S (length q))) by lia.
Qed.

Lemma consumer_load_ok sp k br p0 p1 (p' : Z -> pc) q H K :
  ring_ok k br H (K + 1) K q ->
  prod_ok k (br_ring br) H (K + Z.of_nat (length q)) K p0 ->
  (forall b, load (br_ring br) (Z.to_nat (K mod 2 ^ k)) = Ok b ->
     thread_step sp br p1 = Ok (br, p' b, None)) ->
  (forall b, hd_error q = Some b -> cons_ok k (K + 1) K q (p' b)) ->
  cons_progress sp k br p0 p1 q.
Proof.
  intros Hr Hp Hs Hc. destruct q as [|b q].
  { destruct Hr as (_&_&_&_&_&_&_&_&_&_&_&HC&_). simpl in HC. lia. }
  apply (cons_quiet _ _ _ _ _ _ H (K + 1) K (p' b)); [|done|done|by apply Hc].
  by apply Hs, (ring_ok_head k br H (K + 1) K b q).
Qed.

Lemma consumer_step_ok sp k br p0 p1 q : spsc k br p0 p1 q -> cons_progress sp k br p0 p1 q.
Proof.
  intros Hs. assert (Hs' := Hs). destruct Hs' as (H & C & K & Hr & Hp & Hc).
  assert (Hch : br_cons_head br = C mod 2 ^ k) by (by destruct Hr as (_&_&_&_&_&_&_&_&?&_)).
  assert (Hct : br_cons_tail br = K mod 2 ^ k) by (by destruct Hr as (_&_&_&_&_&_&_&_&_&?&_)).
  destruct p1; try done; try (by eapply (cons_quiet _ _ _ _ _ _ H C K));
    try (by eapply dequeue_head_ok; [by eauto|done]).
  - simpl in Hc. subst C. by eapply (cons_quiet _ _ _ _ _ _ H K K).
  - destruct Hc as (-> & -> & -> & Hne). destruct sp.
    + by apply (cons_quiet _ _ _ _ _ _ H K K McStart).
    + apply (consumer_claim_ok _ _ _ _ _ (McLoad (K mod 2 ^ k) ((K + 1) mod 2 ^ k)) _ H K);
        [done..| |done].
      cbn. by rewrite Hch, Z.eqb_refl.
  - destruct Hc as (-> & -> & ->).
    apply (consumer_load_ok _ _ _ _ _ (fun b => McWait b (K mod 2 ^ k) ((K + 1) mod 2 ^ k)) _ H K); [done|done| |done].
    intros b Hb. cbn. by rewrite Hb.
  - destruct Hc as (-> & -> & -> & Hhd).
    apply (cons_quiet _ _ _ _ _ _ H (K + 1) K (McPublish buf ((K + 1) mod 2 ^ k))); [|done..].
    cbn. by rewrite Hct, Z.eqb_refl.
  - destruct Hc as (-> & -> & Hhd). by eapply (consumer_release_ok _ _ _ _ _ _ _ H K).
  - simpl in Hc. subst C. by eapply (cons_quiet _ _ _ _ _ _ H K K).
  - destruct Hc as (-> & -> & -> & Hne).
    by apply (consumer_claim_ok _ _ _ _ _ (ScLoad (K mod 2 ^ k) ((K + 1) mod 2 ^ k)) _ H K).
  - destruct Hc as (-> & -> & ->).
    apply (consumer_load_ok _ _ _ _ _ (fun b => ScPublish b ((K + 1) mod 2 ^ k)) _ H K); [done|done| |done].
    intros b Hb. cbn. by rewrite Hb.
  - destruct Hc as (-> & -> & Hhd). by eapply (consumer_release_ok _ _ _ _ _ _ _ H K).
Qed.

(** * Allocation *)
Lemma powerof2_spec x : powerof2 x = true <-> x = 0 \/ exists k, 0 <= k /\ x = 2 ^ k.
Proof.
  unfold powerof2. rewrite Z.eqb_eq. split.
  - intros H. destruct (Z.lt_trichotomy x 0) as [Hx|[->|Hx]]; [|by left|right].
    + assert (Z.land (x - 1) x < 0) by (apply Z.land_neg; lia). lia.
    + exists (Z.log2 x). split; [apply Z.log2_nonneg|].
      pose proof (Z.log2_spec x Hx) as [Hlo Hhi]. apply Z.le_antisymm; [|done].
      apply Z.nlt_ge. intros Hlt.
      assert (Hl : Z.log2 (x - 1) = Z.log2 x) by (apply Z.log2_unique; [apply Z.log2_nonneg|lia]).
      assert (Z.testbit (Z.land (x - 1) x) (Z.log2 x) = true); [|by rewrite H, Z.bits_0 in *].
      rewrite Z.land_spec, Z.bit_log2 by done. rewrite <- Hl, Z.bit_log2; [done|].
      pose proof (pow2_pos (Z.log2 x) (Z.log2_nonneg x)). lia.
  - intros [->|(k & Hk & ->)]; [done|].
    rewrite Z.land_comm, land_mod by done. apply Z.mod_same. pose proof (pow2_pos k Hk). lia.
Qed.

(** A ring at rest that holds [q]. *)
Definition holds_queue (k : Z) (br : buf_ring) (q : list Z) : Prop :=
  exists K, ring_ok k br (K + Z.of_nat (length q)) K K q.

Lemma fresh_ring_ok k :
  0 <= k <= 30 ->
  holds_queue k (BR 0 0 (2 ^ k) (2 ^ k - 1) 0 0 0 (2 ^ k) (2 ^ k - 1) (replicate (Z.to_nat (2 ^ k)) 0)) [].
Proof.
  intros Hk. pose proof (pow2_pos k). exists 0.
  split_and!; simpl; rewrite ?length_replicate, ?Z.mod_0_l by lia; done || lia.
Qed.

(** [buf_ring_alloc] returns a ring exactly for zero and the powers of two;
    for a power of two it is an empty queue of one place less; for zero it is a
    ring whose first [buf_ring_enqueue] writes out of bounds. *)
Theorem buf_ring_alloc_spec (count : Z) (Hcount : - 2 ^ 31 < count < 2 ^ 31) :
  (exists k br, 0 <= k <= 30 /\ count = 2 ^ k /\ buf_ring_alloc count = Ok (Some br) /\ holds_queue k br []) \/
  (exists br, count = 0 /\ buf_ring_alloc count = Ok (Some br) /\
     forall buf, run 4 br (EnqStart buf) = Undef) \/
  (~ (exists k, 0 <= k /\ count = 2 ^ k) /\ count <> 0 /\ buf_ring_alloc count = Ok None).
Proof.
  unfold buf_ring_alloc. replace (count =? - 2 ^ 31) with false by (symmetry; apply Z.eqb_neq; lia).
  destruct (powerof2 count) eqn:E.
  - apply powerof2_spec in E as [->|(k & Hk & ->)].
    + right; left. eexists. split_and!; [done|reflexivity|]. done.
    + left. exists k. eexists. assert (k < 31) by (apply (Z.pow_lt_mono_r_iff 2); lia).
      split_and!; [lia|lia|done|reflexivity|apply fresh_ring_ok; lia].
  - right; right. assert (Hno : ~ (count = 0 \/ exists k, 0 <= k /\ count = 2 ^ k))
      by (rewrite <- powerof2_spec; by rewrite E).
    split_and!; [by intros [k Hk]; apply Hno; right; exists k|by intros ->; apply Hno; left|done].
Qed.

(** * One producer and one consumer thread *)
Lemma spsc_step k br p0 p1 q l c :
  spsc k br p0 p1 q -> step [Producer; Consumer] (Config br [p0; p1]) l c ->
  exists br' p0' p1' q', c = Config br' [p0'; p1'] /\ spsc k br' p0' p1' q' /\ refines (capacity k) q l q'.
Proof.
  intros Hs Hst. inversion Hst as [i r p br0 ts Hr Hi Hm|i p sp br0 br' p' l' ts Hi Hrun|i r br0 ts Hi];
    subst; destruct i as [|[|i]]; simpl in *; try discriminate; simplify_eq.
  - destruct p; try discriminate. do 4 eexists. split; [reflexivity|]. split; [|done]. apply Hs.
  - destruct p; try discriminate; do 4 eexists; (split; [reflexivity|]; split; [|done]); apply Hs.
  - destruct (producer_step_ok sp k br p p1 q Hs) as (b2 & p2 & l2 & q2 & E & Hs' & Hf).
    rewrite E in Hrun. simplify_eq. eauto 10.
  - destruct (consumer_step_ok sp k br p0 p q Hs) as (b2 & p2 & l2 & q2 & E & Hs' & Hf).
    rewrite E in Hrun. simplify_eq. eauto 10.
  - do 4 eexists. split; [reflexivity|]. split; [|done]. apply Hs.
  - do 4 eexists. split; [reflexivity|]. split; [|done]. apply Hs.
Qed.

Lemma spsc_steps k br es c :
  spsc k br Idle Idle [] -> steps [Producer; Consumer] (Config br [Idle; Idle]) es c ->
  exists br' p0 p1 q, c = Config br' [p0; p1] /\ spsc k br' p0 p1 q /\ fifo_run (capacity k) [] es q.
Proof.
  intros Hs Hst. remember (Config br [Idle; Idle]) as c0 eqn:E0.
  induction Hst as [c|c c1 c2 es Hst IH Hstep|c c1 c2 es e Hst IH Hstep]; subst.
  - exists br, Idle, Idle, []. split_and!; [done|done|constructor].
  - destruct IH as (br1 & p0 & p1 & q & -> & Hs1 & Hrun); [done|].
    destruct (spsc_step _ _ _ _ _ _ _ Hs1 Hstep) as (br2 & p0' & p1' & q' & -> & Hs2 & Hf).
    simpl in Hf. subst q'. eauto 10.
  - destruct IH as (br1 & p0 & p1 & q & -> & Hs1 & Hrun); [done|].
    destruct (spsc_step _ _ _ _ _ _ _ Hs1 Hstep) as (br2 & p0' & p1' & q' & -> & Hs2 & Hf).
    exists br2, p0', p1', q'. split_and!; [done|done|]. econstructor; [exact Hrun|exact Hf].
Qed.

Lemma holds_queue_spsc k br q : holds_queue k br q -> spsc k br Idle Idle q.
Proof. intros [K Hr]. by exists (K + Z.of_nat (length q)), K, K. Qed.

(** C5: with one producer and one consumer thread the ring is linearizable: in
    every interleaving of their steps the operations take effect in the order of
    the events as on a bounded first-in first-out queue of [count - 1] places
    (pushed values are popped once and in order, an enqueue fails only when the
    queue is full, a dequeue returns NULL only when it is empty), and no step
    accesses memory outside the ring. *)
Theorem spsc_linearizable (k : Z) (br : buf_ring) (es : list event) (c : config)
  (Hk : 0 <= k <= 30) (Halloc : buf_ring_alloc (2 ^ k) = Ok (Some br))
  (Hrun : steps [Producer; Consumer] (Config br [Idle; Idle]) es c) :
  (exists q, fifo_run (capacity k) [] es q) /\
  (forall i p sp, threads c !! i = Some p -> exists res, thread_step sp (ring c) p = Ok res).
Proof.
  assert (Hq : holds_queue k br []).
  { unfold buf_ring_alloc in Halloc. pose proof (pow2_pos k).
    replace (2 ^ k =? - 2 ^ 31) with false in Halloc by (symmetry; apply Z.eqb_neq; lia).
    assert (powerof2 (2 ^ k) = true) as E by (apply powerof2_spec; right; exists k; lia).
    rewrite E in Halloc. injection Halloc as <-. by apply fresh_ring_ok. }
  destruct (spsc_steps k br es c) as (br' & p0 & p1 & q & -> & Hs & Hf);
    [by apply holds_queue_spsc|done|].
  split; [by exists q|]. intros i p sp Hi.
  destruct i as [|[|i]]; simpl in Hi; simplify_eq.
  - destruct (producer_step_ok sp k br' p p1 q Hs) as (b2 & p2 & l2 & q2 & E & _). eauto.
  - destruct (consumer_step_ok sp k br' p0 p q Hs) as (b2 & p2 & l2 & q2 & E & _). eauto.
Qed.

(** * One thread at a time *)
Lemma run_S n br p br' p' l :
  thread_step false br p = Ok (br', p', l) -> run (S n) br p = run n br' p'.
Proof. intros H. cbn [run]. by rewrite H. Qed.

Lemma enqueue_alone k br q b :
  holds_queue k br q -> (length q < capacity k)%nat ->
  exists br', run 6 br (EnqStart b) = Ok (br', Ret 0) /\ holds_queue k br' (q ++ [b]).
Proof.
  intros [K Hr] Hcap. set (T := K + Z.of_nat (length q)) in *. assert (Hr' := Hr).
  destruct Hr' as (Hk & HK & Hlen & Hsz & Hm1 & Hm2 & Hph & Hpt & Hch & Hct & HH & HC & Hq).
  assert (Hn : 0 < 2 ^ k) by (apply pow2_pos; lia). unfold capacity in Hcap.
  assert (HN : next_index (T mod 2 ^ k) (br_prod_mask br) = (T + 1) mod 2 ^ k)
    by (rewrite Hm1; by apply next_index_mod).
  assert (Hroom : (T + 1) mod 2 ^ k <> br_cons_tail br).
  { rewrite Hct. intros E. apply mod_window in E; unfold T in *; lia. }
  apply Z.eqb_neq in Hroom.
  assert (Hr1 := enqueue_claim k br K K q Hr ltac:(lia)). fold T in Hr1.
  destruct (enqueue_fill k _ K K q b _ Hr1 eq_refl) as [Hr2 Hb]. fold T in Hr2, Hb.
  pose proof (enqueue_publish k _ K K q b Hr2 Hb) as Hr3. fold T in Hr3.
  exists (set_prod_tail (set_ring (set_prod_head br ((T + 1) mod 2 ^ k))
    (<[Z.to_nat (T mod 2 ^ k):=b]> (br_ring br))) ((T + 1) mod 2 ^ k)). split.
  - erewrite run_S by reflexivity. rewrite Hph.
    erewrite run_S by (cbn [thread_step enqueue_step]; rewrite HN, Hroom; reflexivity).
    erewrite run_S by (cbn; rewrite Hph, Z.eqb_refl; reflexivity).
    erewrite run_S by (cbn; unfold store; rewrite decide_True by (by apply mod_index); reflexivity).
    erewrite run_S by (cbn; rewrite Hpt, Z.eqb_refl; reflexivity). reflexivity.
  - exists K. rewrite length_app. cbn [length].
    by replace (K + Z.of_nat (length q + 1)) with (T + 1) by (unfold T; lia).
Qed.

Lemma enqueue_alone_full k br q b :
  holds_queue k br q -> length q = capacity k ->
  run 6 br (EnqStart b) = Ok (set_drops br (u64 (br_drops br + 1)), Ret (-1)).
Proof.
  intros [K Hr] Hcap. set (T := K + Z.of_nat (length q)) in *.
  destruct Hr as (Hk & HK & Hlen & Hsz & Hm1 & Hm2 & Hph & Hpt & Hch & Hct & HH & HC & Hq).
  assert (Hn : 0 < 2 ^ k) by (apply pow2_pos; lia). unfold capacity in Hcap.
  assert (HN : next_index (T mod 2 ^ k) (br_prod_mask br) = br_cons_tail br).
  { rewrite Hm1, next_index_mod, Hct by done.
    replace (T + 1) with (K + 2 ^ k) by (unfold T; lia). by apply mod_wrap. }
  erewrite run_S by reflexivity. rewrite Hph.
  erewrite run_S by (cbn [thread_step enqueue_step]; rewrite HN, Z.eqb_refl; reflexivity).
  erewrite run_S by (cbn; rewrite Hph, Z.eqb_refl; reflexivity).
  erewrite run_S by (cbn; rewrite Z.eqb_refl; reflexivity). reflexivity.
Qed.

Lemma dequeue_alone k br q :
  holds_queue k br q ->
  match q with
  | [] => run 6 br McStart = Ok (br, Ret 0) /\ run 5 br ScStart = Ok (br, Ret 0)
  | v :: q' => exists br', run 6 br McStart = Ok (br', Ret v) /\ run 5 br ScStart = Ok (br', Ret v) /\
      buf_ring_advance_sc br = br' /\ holds_queue k br' q'
  end.
Proof.
  intros [K Hr]. assert (Hr' := Hr).
  destruct Hr' as (Hk & HK & Hlen & Hsz & Hm1 & Hm2 & Hph & Hpt & Hch & Hct & HH & HC & Hq).
  pose proof (ring_ok_empty _ _ _ _ _ _ Hr) as He.
  assert (HN : next_index (K mod 2 ^ k) (br_cons_mask br) = (K + 1) mod 2 ^ k)
    by (rewrite Hm2; by apply next_index_mod).
  destruct q as [|v q].
  - assert (E : (K mod 2 ^ k =? br_prod_tail br) = true) by (apply Z.eqb_eq; by apply He).
    split; (erewrite run_S by reflexivity; rewrite Hch;
      erewrite run_S by (cbn; rewrite E; reflexivity); reflexivity).
  - assert (E : (K mod 2 ^ k =? br_prod_tail br) = false).
    { apply Z.eqb_neq. rewrite He. done. }
    assert (Hld := ring_ok_head _ _ _ _ _ _ _ Hr).
    assert (Hr1 := dequeue_claim k br _ K _ Hr ltac:(done)).
    exists (set_cons_tail (set_cons_head br ((K + 1) mod 2 ^ k)) ((K + 1) mod 2 ^ k)). split_and!.
    + erewrite run_S by reflexivity. rewrite Hch. erewrite run_S by (cbn; rewrite E, HN; reflexivity).
      erewrite run_S by (cbn; rewrite Hch, Z.eqb_refl; reflexivity).
      erewrite run_S by (cbn; rewrite Hld; reflexivity).
      erewrite run_S by (cbn; rewrite Hct, Z.eqb_refl; reflexivity). reflexivity.
    + erewrite run_S by reflexivity. rewrite Hch. erewrite run_S by (cbn; rewrite E, HN; reflexivity).
      erewrite run_S by reflexivity. erewrite run_S by (cbn; rewrite Hld; reflexivity). reflexivity.
    + unfold buf_ring_advance_sc. cbv zeta. by rewrite Hch, HN, E.
    + exists (K + 1). apply dequeue_release in Hr1. cbn [length] in Hr1.
      by replace (K + 1 + Z.of_nat (length q)) with (K + Z.of_nat (S (length q))) by lia.
Qed.

(** The operations refine a bounded queue when one thread runs at a time
    (under a lock): an enqueue appends, or fails and counts a drop exactly when
    the queue holds [count - 1] values; both dequeues and peek-and-advance take
    the oldest value, or return NULL exactly when the queue is empty; each ends
    after at most six accesses. *)
Theorem ring_sequential (k : Z) (br : buf_ring) (q : list Z) (b : Z) (Hq : holds_queue k br q) :
  (if decide (length q < capacity k)%nat then
     exists br', run 6 br (EnqStart b) = Ok (br', Ret 0) /\ holds_queue k br' (q ++ [b])
   else run 6 br (EnqStart b) = Ok (set_drops br (u64 (br_drops br + 1)), Ret (-1))) /\
  match q with
  | [] => run 6 br McStart = Ok (br, Ret 0) /\ run 5 br ScStart = Ok (br, Ret 0)
  | v :: q' => exists br', run 6 br McStart = Ok (br', Ret v) /\ run 5 br ScStart = Ok (br', Ret v) /\
      buf_ring_advance_sc br = br' /\ holds_queue k br' q'
  end.
Proof.
  split; [|by apply dequeue_alone]. case_decide; [by apply enqueue_alone|].
  apply (enqueue_alone_full k br q); [done|]. destruct Hq as [K Hr].
  destruct Hr as (?&?&?&?&?&?&?&?&?&?&HH&_). unfold capacity in *. lia.
Qed.

Lemma ring_count k br H C K q : ring_ok k br H C K q -> buf_ring_count br = Z.of_nat (length q).
Proof.
  intros (Hk & HK & Hlen & Hsz & Hm1 & Hm2 & Hph & Hpt & Hch & Hct & HH & _).
  assert (Hn : 0 < 2 ^ k) by (apply pow2_pos; lia). pose proof (pow2_30 k Hk).
  unfold buf_ring_count. rewrite Hsz, Hm1, Hpt, Hct.
  set (T := K + Z.of_nat (length q)) in *.
  pose proof (Z.mod_pos_bound T (2 ^ k) Hn). pose proof (Z.mod_pos_bound K (2 ^ k) Hn).
  unfold u32. rewrite (Z.mod_small (2 ^ k)), (Z.mod_small (2 ^ k - 1)) by lia.
  rewrite (Z.mod_small (2 ^ k + T mod 2 ^ k)), (Z.mod_small (2 ^ k + T mod 2 ^ k - K mod 2 ^ k)) by lia.
  rewrite land_mod by lia.
  replace (2 ^ k + T mod 2 ^ k - K mod 2 ^ k) with (T mod 2 ^ k - K mod 2 ^ k + 2 ^ k) by lia.
  rewrite mod_wrap, <- Zminus_mod, (Z.mod_small (T - K)) by (unfold T; lia).
  unfold s32. rewrite Z.mod_small; unfold T; lia.
Qed.

Lemma ring_full k br C K q :
  ring_ok k br (K + Z.of_nat (length q)) C K q ->
  buf_ring_full br = bool_decide (length q = capacity k).
Proof.
  set (T := K + Z.of_nat (length q)).
  intros (Hk & HK & Hlen & Hsz & Hm1 & Hm2 & Hph & Hpt & Hch & Hct & HH & _).
  assert (Hn : 0 < 2 ^ k) by (apply pow2_pos; lia).
  unfold buf_ring_full, capacity. rewrite Hph, Hm1, next_index_mod, Hct by done.
  case_bool_decide as E.
  - apply Z.eqb_eq. replace (T + 1) with (K + 2 ^ k) by (unfold T; lia). by apply mod_wrap.
  - apply Z.eqb_neq. intros E'. apply mod_window in E'; unfold T in *; lia.
Qed.

Lemma ring_putback k br H C K v q new :
  ring_ok k br H C K (v :: q) ->
  ring_ok k (set_ring br (<[Z.to_nat (K mod 2 ^ k) := new]> (br_ring br))) H C K (new :: q).
Proof.
  intros (Hk & HK & Hlen & Hsz & Hm1 & Hm2 & Hph & Hpt & Hch & Hct & HH & HC & Hq).
  assert (Hn : 0 < 2 ^ k) by (apply pow2_pos; lia). cbn [length] in *.
  split_and!; simpl; try done; try lia; [by rewrite length_insert|].
  intros [|j] w Hj; simpl in Hj.
  - simplify_eq. rewrite Z.add_0_r. apply list_lookup_insert_eq. by apply mod_index.
  - rewrite list_lookup_insert_ne; [by apply Hq|]. intros E. apply lookup_lt_Some in Hj.
    pose proof (Z.mod_pos_bound (K + Z.of_nat (S j)) (2 ^ k) Hn).
    pose proof (Z.mod_pos_bound K (2 ^ k) Hn).
    apply Z2Nat.inj in E; [|lia|lia]. symmetry in E. apply mod_window in E; lia.
Qed.

(** The observers: count, full, empty and peek report the queue, and putback
    replaces its oldest value. *)
Theorem ring_observers (k : Z) (br : buf_ring) (q : list Z) (Hq : holds_queue k br q) :
  buf_ring_count br = Z.of_nat (length q) /\
  buf_ring_empty br = bool_decide (q = []) /\
  buf_ring_full br = bool_decide (length q = capacity k) /\
  buf_ring_peek br = Ok (hd 0 q) /\
  (forall v q' new, q = v :: q' ->
     exists br', buf_ring_putback_sc br new = Ok br' /\ holds_queue k br' (new :: q')).
Proof.
  destruct Hq as [K Hr]. pose proof (ring_ok_empty _ _ _ _ _ _ Hr) as He.
  assert (Hch : br_cons_head br = K mod 2 ^ k) by (by destruct Hr as (_&_&_&_&_&_&_&_&?&_)).
  assert (HE : buf_ring_empty br = bool_decide (q = [])).
  { unfold buf_ring_empty. rewrite Hch, <- (bool_decide_ext _ _ He).
    case_bool_decide; [by apply Z.eqb_eq|by apply Z.eqb_neq]. }
  split_and!; [by eapply ring_count|done|by eapply ring_full| |].
  - unfold buf_ring_peek. change (br_cons_head br =? br_prod_tail br) with (buf_ring_empty br).
    rewrite HE. destruct q as [|v q]; [done|]. rewrite bool_decide_false by done.
    rewrite Hch. by eapply ring_ok_head.
  - intros v q' new ->. unfold buf_ring_putback_sc, store. rewrite Hch.
    assert (Hi : (Z.to_nat (K mod 2 ^ k) < length (br_ring br))%nat).
    { destruct Hr as (?&?&?&_). apply mod_index; [apply pow2_pos; lia|done]. }
    rewrite decide_True, bind_Ok by done. eexists. split; [reflexivity|].
    exists K. by eapply ring_putback.
Qed.

(** * Several producers *)

(** A schedule: which thread starts which operation, steps or returns. *)
Inductive action := AStart (p : pc) | ARun | AReturn.

Fixpoint exec (roles : list role) (sched : list (nat * action)) (c : config) (es : list event)
  : option (config * list event) :=
  match sched with
  | [] => Some (c, es)
  | (i, a) :: sched =>
      p ← threads c !! i; r ← roles !! i;
      match a, p with
      | AStart p', Idle =>
          if may_start r p' then exec roles sched (Config (ring c) (<[i := p']> (threads c))) es else None
      | ARun, _ =>
          match thread_step false (ring c) p with
          | Ok (br, p', None) => exec roles sched (Config br (<[i := p']> (threads c))) es
          | Ok (br, p', Some e) => exec roles sched (Config br (<[i := p']> (threads c))) (es ++ [e])
          | _ => None
          end
      | AReturn, Ret _ => exec roles sched (Config (ring c) (<[i := Idle]> (threads c))) es
      | _, _ => None
      end
  end.

Lemma exec_steps roles sched c0 c es c' es' :
  steps roles c0 es c -> exec roles sched c es = Some (c', es') -> steps roles c0 es' c'.
Proof.
  revert c es; induction sched as [|[i a] sched IH]; intros [br ts] es Hst He; [by simplify_eq/=|].
  cbn [exec threads ring] in He. destruct (ts !! i) as [p|] eqn:Hp; [|done].
  destruct (roles !! i) as [r|] eqn:Hr; [|done]. cbn [mbind option_bind] in He.
  destruct a as [p'| |].
  - destruct p; try done. destruct (may_start r p') eqn:Hm; [|done].
    eapply IH; [|exact He]. eapply steps_tau; [exact Hst|]. by eapply step_start.
  - destruct (thread_step false br p) as [[[br' p'] [e|]]| |] eqn:Hs; try done.
    + eapply IH; [|exact He]. eapply steps_event; [exact Hst|]. by eapply step_run.
    + eapply IH; [|exact He]. eapply steps_tau; [exact Hst|]. by eapply step_run.
  - destruct p; try done. eapply IH; [|exact He]. eapply steps_tau; [exact Hst|].
    by eapply step_return.
Qed.

Definition operation (i : nat) (p : pc) (n : nat) : list (nat * action) :=
  (i, AStart p) :: replicate n (i, ARun) ++ [(i, AReturn)].

(** A producer is stopped before its compare-and-exchange while another fills and
    drains the ring once around. *)
Definition aba_schedule : list (nat * action) :=
  [(0%nat, AStart (EnqStart 3)); (0%nat, ARun); (0%nat, ARun)] ++
  operation 1 (EnqStart 1) 6 ++ operation 2 McStart 6 ++ operation 1 (EnqStart 2) 6 ++
  replicate 4 (0%nat, ARun) ++ operation 2 McStart 2.

Lemma fifo_run_inv cap q es e q2 :
  fifo_run cap q (es ++ [e]) q2 -> exists q1, fifo_run cap q es q1 /\ fifo_step cap q1 e q2.
Proof.
  intros H. inversion H as [|? q1 ? es' e' Hr Hs E]; simplify_list_eq; [|by exists q1].
  match goal with HH : [] = _ ++ [_] |- _ => by apply app_cons_not_nil in HH end.
Qed.

(** With two producers the ring loses values: the indices wrap around, so the
    compare-and-exchange of an enqueue cannot tell that the ring went once around
    since it read them.  There is an execution in which three enqueues report
    success and one value is dequeued, after which a dequeue finds the ring
    empty; no bounded queue behaves like this. *)
Theorem mpsc_loses_values :
  exists br c,
    buf_ring_alloc 2 = Ok (Some br) /\
    steps [Producer; Producer; Consumer] (Config br [Idle; Idle; Idle])
      [Pushed 1; Popped 1; Pushed 2; Pushed 3; Empty] c /\
    forall cap q, ~ fifo_run cap [] [Pushed 1; Popped 1; Pushed 2; Pushed 3; Empty] q.
Proof.
  eexists. eexists. split; [vm_compute; reflexivity|]. split.
  - eapply (exec_steps _ aba_schedule _ _ []); [apply steps_refl|]. vm_compute. reflexivity.
  - intros cap q H. change [Pushed 1; Popped 1; Pushed 2; Pushed 3; Empty] with
      ((([Pushed 1; Popped 1] ++ [Pushed 2]) ++ [Pushed 3]) ++ [Empty]) in H.
    apply fifo_run_inv in H as (q1 & H & H1). apply fifo_run_inv in H as (q2 & H & H2).
    inversion H1; subst. inversion H2.
    match goal with HH : _ ++ [_] = [] |- _ => by apply app_eq_nil in HH as [_ ?] end.
Qed.

(** * Concrete runs *)
Lemma buf_ring_alloc_spec_witness :
  (exists k br, 0 <= k <= 30 /\ 8 = 2 ^ k /\ buf_ring_alloc 8 = Ok (Some br) /\ holds_queue k br []) \/
  (exists br, 8 = 0 /\ buf_ring_alloc 8 = Ok (Some br) /\
     forall buf, run 4 br (EnqStart buf) = Undef) \/
  (~ (exists k, 0 <= k /\ 8 = 2 ^ k) /\ 8 <> 0 /\ buf_ring_alloc 8 = Ok None).
Proof. apply (buf_ring_alloc_spec 8). lia. Defined.

Definition ring8 : buf_ring := BR 0 0 8 7 0 0 0 8 7 (replicate 8 0).

Lemma spsc_linearizable_witness :
  exists c, steps [Producer; Consumer] (Config ring8 [Idle; Idle]) [Pushed 5; Popped 5; Empty] c /\
    (exists q, fifo_run 7 [] [Pushed 5; Popped 5; Empty] q) /\
    (forall i p sp, threads c !! i = Some p -> exists res, thread_step sp (ring c) p = Ok res).
Proof.
  assert (H : exists c, steps [Producer; Consumer] (Config ring8 [Idle; Idle]) [Pushed 5; Popped 5; Empty] c).
  { eexists. eapply (exec_steps _ (operation 0 (EnqStart 5) 6 ++ operation 1 McStart 6 ++ operation 1 ScStart 2) _ _ []);
      [apply steps_refl|vm_compute; reflexivity]. }
  destruct H as [c Hc]. exists c. split; [exact Hc|].
  apply (spsc_linearizable 3 ring8 _ c); [lia|reflexivity|exact Hc].
Defined.

(** A ring of four slots holding two values across its end. *)
Definition ring4 : buf_ring := BR 1 1 4 3 0 3 3 4 3 [20; 0; 0; 10].

Lemma ring4_holds : holds_queue 2 ring4 [10; 20].
Proof.
  exists 3. split_and!; try done; try (cbn; lia).
  intros j v Hj. destruct j as [|[|j]]; simpl in Hj; simplify_eq; done.
Qed.

Lemma ring_sequential_witness :
  (exists br', run 6 ring4 (EnqStart 30) = Ok (br', Ret 0) /\ holds_queue 2 br' [10; 20; 30]) /\
  (exists br', run 6 ring4 McStart = Ok (br', Ret 10) /\ run 5 ring4 ScStart = Ok (br', Ret 10) /\
      buf_ring_advance_sc ring4 = br' /\ holds_queue 2 br' [20]).
Proof. exact (ring_sequential 2 ring4 [10; 20] 30 ring4_holds). Defined.

Lemma ring_observers_witness :
  buf_ring_count ring4 = 2 /\ buf_ring_empty ring4 = false /\ buf_ring_full ring4 = false /\
  buf_ring_peek ring4 = Ok 10 /\
  (forall v q' new, [10; 20] = v :: q' ->
     exists br', buf_ring_putback_sc ring4 new = Ok br' /\ holds_queue 2 br' (new :: q')).
Proof. exact (ring_observers 2 ring4 [10; 20] ring4_holds). Defined.

End BufRing.
