(* ===== verification/ChunkList.v ===== *)
(** src/chunk.c: chunks that double their buffer up to 2^23 entries, and the list
    of chunks that compresses each chunk when it is full.

    The intrusive list (list.h, not part of the repository) is an interface with
    the documented behaviour of the four operations used.  Chunks are objects of a
    heap, the list links their addresses.  Fresh memory has the unknown contents
    [junk]; allocation is taken to succeed. *)
From S2P Require Import Prelude Simd StreamVByte StreamVByteDelta ToolIndex.
Import SvbDelta.

Module ChunkList.

(** The union of [buffer] and [cbuff]. *)
Inductive cmem := Buffer (l : list Z) | Cbuff (l : list Z).

Record chunk_t := Chunk {
  capacity : Z; size : Z; is_compressed : bool; max_size : Z; mem : cmem; bcount : Z
}.

Definition buffer (c : chunk_t) : outcome (list Z) :=
  match mem c with Buffer l => Ok l | Cbuff _ => Undef end.

(** The bytes behind the pointer. *)
Definition cbuff (c : chunk_t) : list Z :=
  match mem c with Cbuff l => l | Buffer l => concat (map (le_split 4) l) end.

(** <list.h>: [list_prev l] is the entry before the head, the last of the list. *)
Class ListHead (L : Type) := {
  list_empty : L -> bool;
  list_prev : L -> nat;
  list_add_tail : nat -> L -> L;
  INIT_LIST_HEAD : L;
  elems : L -> list nat;
  elems_init : elems INIT_LIST_HEAD = [];
  list_empty_spec l : list_empty l = bool_decide (elems l = []);
  list_prev_spec l ps p : elems l = ps ++ [p] -> list_prev l = p;
  list_add_tail_spec p l : elems (list_add_tail p l) = elems l ++ [p]
}.

Definition chunk_zero : chunk_t := Chunk 0 0 false 0 (Buffer []) 0.

Definition chunk_init (c : chunk_t) : chunk_t :=
  Chunk 0 (size c) (is_compressed c) (Z.shiftl 2 22) (Buffer []) (bcount c).

Section with_junk.
Context (junk : nat -> Z).

(** [chunk_push]: the result is 1 when the buffer is now full, -1 when the chunk is. *)
Definition chunk_push (c : chunk_t) (value : Z) : outcome (chunk_t * Z) :=
  _ ← c_assert (negb (is_compressed c));
  b ← buffer c;
  if (size c =? capacity c) && (capacity c =? max_size c) then Ok (c, -1)
  else
    let '(cap, b) :=
      if size c =? capacity c then
        let cap := if capacity c =? 0 then 4 else u64 (Z.shiftl (capacity c) 1) in
        (cap, Index.realloc32 junk b (Z.to_nat cap))
      else (capacity c, b) in
    b ← store b (Z.to_nat (size c)) value;
    let sz := u32 (size c + 1) in
    Ok (Chunk cap sz (is_compressed c) (max_size c) (Buffer b) (bcount c),
        if sz =? cap then 1 else 0).

Definition chunk_full (c : chunk_t) : bool := size c =? max_size c.

(** [chunk_get]: [None] is the result -1. *)
Definition chunk_get (c : chunk_t) (off : Z) : outcome (option (Z * Z)) :=
  if is_compressed c || (capacity c <=? off) then Ok None
  else b ← buffer c; v ← load b (Z.to_nat off); Ok (Some (u32 (off + 1), v)).

(** [chunk_free]: the memory passed to [free], if any. *)
Definition chunk_free (c : chunk_t) : option cmem :=
  if 0 <? capacity c then Some (mem c)
  else if is_compressed c then Some (mem c) else None.

(** [chunk_compress]: also returns the value stored through [bcount]. *)
Definition chunk_compress (c : chunk_t) : outcome (chunk_t * Z) :=
  _ ← c_assert ((0 <? size c) && negb (is_compressed c));
  b ← buffer c;
  let cbuffer := Index.malloc8 junk (4 * Z.to_nat (size c)) in
  '(csize, cbuffer) ← streamvbyte_delta_encode b (size c) cbuffer 0;
  Ok (Chunk (capacity c) (size c) true (max_size c) (Cbuff cbuffer) (bcount c), u32 (Z.of_nat csize)).

Definition chunk_decompress (c : chunk_t) (N : Z) : outcome chunk_t :=
  _ ← c_assert (is_compressed c);
  let buff := Index.realloc32 junk [] (Z.to_nat N) in
  '(_, buff) ← streamvbyte_delta_decode (cbuff c) buff N 0;
  Ok (Chunk (capacity c) (size c) (is_compressed c) (max_size c) (Buffer buff) (bcount c)).

(** [read_block]: the bytes read are not used. *)
Definition read_block (f : Index.FILE) (N bc : Z) (c : chunk_t) : outcome (Index.FILE * chunk_t) :=
  let cbuffer := Index.malloc8 junk (4 * Z.to_nat N) in
  let '(bs, f) := Index.fread f (Z.to_nat bc) in
  _ ← store_range cbuffer 0 bs;
  c ← chunk_decompress c N;
  Ok (f, c).

Section list.
Context {L : Type} `{!ListHead L}.

Definition set_bcount (c : chunk_t) (b : Z) : chunk_t :=
  Chunk (capacity c) (size c) (is_compressed c) (max_size c) (mem c) b.

(** The first half of [chunk_list_push]: the last chunk is compressed if it is
    full, and a fresh one is linked if there is none or it was full. *)
Definition chunk_list_room (heap : list chunk_t) (l : L) : outcome (list chunk_t * L) :=
  let fresh heap := (heap ++ [chunk_init chunk_zero], list_add_tail (length heap) l) in
  if list_empty l then Ok (fresh heap)
  else
    let p := list_prev l in
    c ← load heap p;
    if chunk_full c then
      '(c, b) ← chunk_compress c;
      heap ← store heap p (set_bcount c b);
      Ok (fresh heap)
    else Ok (heap, l).

Definition chunk_list_push (heap : list chunk_t) (l : L) (doc : Z) : outcome (list chunk_t * L * Z) :=
  '(heap, l) ← chunk_list_room heap l;
  let p := list_prev l in
  c ← load heap p;
  '(c, r) ← chunk_push c doc;
  heap ← store heap p c;
  Ok (heap, l, r).

(** * Chunks *)

(** The capacities: none, or four times a power of two up to [2^23]. *)
Definition cap_ok (cap : Z) : Prop := cap = 0 \/ exists k, 2 <= k <= 23 /\ cap = 2 ^ k.

(** A chunk that is being filled and holds [vs]. *)
Definition holds (c : chunk_t) (vs : list Z) : Prop :=
  is_compressed c = false /\ max_size c = 2 ^ 23 /\ size c = Z.of_nat (length vs) /\
  cap_ok (capacity c) /\
  exists b, mem c = Buffer b /\ Z.of_nat (length b) = capacity c /\ at_off b 0 vs.

(** A compressed chunk. *)
Definition packed (c : chunk_t) (vs : list Z) : Prop :=
  is_compressed c = true /\ size c = Z.of_nat (length vs) /\
  bcount c = Z.of_nat (length (delta_encoded 0 vs)) /\
  exists cb, mem c = Cbuff cb /\ at_off cb 0 (delta_encoded 0 vs).

Lemma holds_init : holds (chunk_init chunk_zero) [].
Proof. split_and!; try done; [by left|]. exists []. split_and!; [done|done|apply at_off_refl]. Qed.

Lemma holds_length c vs : holds c vs -> Z.of_nat (length vs) <= capacity c <= 2 ^ 23.
Proof.
  intros (_ & _ & _ & Hcap & b & _ & Hb & Hat). apply at_off_length in Hat. split; [lia|].
  destruct Hcap as [->|(k & Hk & ->)]; [done|]. apply Z.pow_le_mono_r; lia.
Qed.

Lemma grow_cap_ok cap :
  cap_ok cap -> cap < 2 ^ 23 ->
  cap_ok (if cap =? 0 then 4 else u64 (Z.shiftl cap 1)) /\
  cap < (if cap =? 0 then 4 else u64 (Z.shiftl cap 1)).
Proof.
  intros [->|(k & Hk & ->)] Hlt; [split; [right; exists 2; done|done]|].
  apply Z.pow_lt_mono_r_iff in Hlt; [|lia|lia].
  assert (0 < 2 ^ k <= 2 ^ 22) by (split; [apply Z.pow_pos_nonneg; lia|apply Z.pow_le_mono_r; lia]).
  replace (2 ^ k =? 0) with false by (symmetry; apply Z.eqb_neq; lia).
  rewrite Z.shiftl_mul_pow2 by lia. unfold u64. rewrite Z.mod_small by lia. split; [|lia].
  right. exists (k + 1). split; [lia|]. rewrite Z.pow_add_r by lia. lia.
Qed.

Lemma chunk_push_grows c vs v :
  holds c vs -> Z.of_nat (length vs) < 2 ^ 23 ->
  exists c', chunk_push c v = Ok (c', if Z.of_nat (length vs) + 1 =? capacity c' then 1 else 0) /\
    holds c' (vs ++ [v]).
Proof.
  intros Hh Hlt. pose proof (holds_length _ _ Hh) as Hle.
  destruct Hh as (Hc & Hmax & Hs & Hcap & b & Hm & Hb & Hat).
  unfold chunk_push, buffer. rewrite Hc, Hm, Hmax, Hs. cbn [negb c_assert]. rewrite !bind_Ok.
  replace ((Z.of_nat (length vs) =? capacity c) && (capacity c =? 2 ^ 23)) with false
    by (symmetry; apply andb_false_iff; rewrite !Z.eqb_neq; lia).
  assert (Hsz : u32 (Z.of_nat (length vs) + 1) = Z.of_nat (length vs) + 1)
    by (unfold u32; apply Z.mod_small; lia).
  destruct (Z.eqb_spec (Z.of_nat (length vs)) (capacity c)) as [Heq|Hne].
  - set (cap := if capacity c =? 0 then 4 else _).
    destruct (grow_cap_ok (capacity c) Hcap ltac:(lia)) as [Hok Hgt]. fold cap in Hok, Hgt.
    rewrite Nat2Z.id.
    destruct (store_push (Index.realloc32 junk b (Z.to_nat cap)) vs v) as (b' & -> & Hb' & Hat').
    { apply Index.realloc32_at_off; [done|lia]. }
    { rewrite Index.length_realloc32. lia. }
    rewrite bind_Ok, Hsz. exists (Chunk cap (Z.of_nat (length vs) + 1) false (2 ^ 23) (Buffer b') (bcount c)).
    split; [reflexivity|]. rewrite Index.length_realloc32 in Hb'.
    split_and!; simpl; try done; [rewrite length_app; simpl; lia|]. exists b'. split_and!; [done|lia|done].
  - rewrite Nat2Z.id. destruct (store_push b vs v) as (b' & -> & Hb' & Hat'); [done|lia|].
    rewrite bind_Ok, Hsz.
    exists (Chunk (capacity c) (Z.of_nat (length vs) + 1) false (2 ^ 23) (Buffer b') (bcount c)).
    split; [reflexivity|].
    split_and!; simpl; try done; [rewrite length_app; simpl; lia|]. exists b'. split_and!; [done|lia|done].
Qed.

(** [chunk_push] appends its value, doubling the buffer as needed, until the
    chunk holds [2^23] values; a push on a full chunk changes nothing and
    returns -1. *)
Theorem chunk_push_spec (c : chunk_t) (vs : list Z) (v : Z) (Hc : holds c vs) :
  if decide (Z.of_nat (length vs) < 2 ^ 23) then
    exists c', chunk_push c v = Ok (c', if Z.of_nat (length vs) + 1 =? capacity c' then 1 else 0) /\
      holds c' (vs ++ [v])
  else chunk_full c = true /\ chunk_push c v = Ok (c, -1).
Proof.
  case_decide as Hlt; [by apply chunk_push_grows|]. pose proof (holds_length _ _ Hc) as Hle.
  destruct Hc as (Hcc & Hmax & Hs & Hcap & b & Hm & Hb & Hat).
  unfold chunk_full, chunk_push, buffer. rewrite Hcc, Hm, Hmax, Hs. cbn [negb c_assert]. rewrite !bind_Ok.
  replace (capacity c) with (2 ^ 23) by lia. replace (Z.of_nat (length vs)) with (2 ^ 23) by lia. done.
Qed.

Lemma chunk_compress_packs c vs :
  holds c vs -> vs <> [] -> (length (delta_encoded 0 vs) <= 4 * length vs)%nat ->
  exists c', chunk_compress c = Ok (c', Z.of_nat (length (delta_encoded 0 vs))) /\
    packed (set_bcount c' (Z.of_nat (length (delta_encoded 0 vs)))) vs /\ max_size c' = 2 ^ 23.
Proof.
  intros Hh Hne Hfit. pose proof (holds_length _ _ Hh) as Hle.
  destruct Hh as (Hc & Hmax & Hs & Hcap & b & Hm & Hb & Hat).
  unfold chunk_compress, buffer. rewrite Hc, Hm, Hs. cbn [negb].
  replace (0 <? Z.of_nat (length vs)) with true
    by (symmetry; apply Z.ltb_lt; destruct vs; [done|simpl; lia]).
  cbn [andb c_assert]. rewrite !bind_Ok, Nat2Z.id.
  rewrite (delta_encode_ok vs), bind_Ok; [|done|lia|by rewrite Index.length_malloc8].
  eexists. split.
  { do 3 f_equal. unfold u32. apply Z.mod_small. lia. }
  split; [|done]. split_and!; cbn [is_compressed size bcount mem set_bcount]; try done.
  eexists. split; [reflexivity|]. apply at_off_prefix.
Qed.

(** Compressing and decompressing gives the values back, but the chunk still
    counts as compressed. *)
Lemma chunk_decompress_ok c vs :
  packed c vs -> Forall is_u32 vs -> Z.of_nat (length vs) < 2 ^ 31 ->
  (forall cb, mem c = Cbuff cb -> (length (delta_encoded 0 vs) + Svb.avx_slack (length vs) <= length cb)%nat) ->
  chunk_decompress c (size c) =
  Ok (Chunk (capacity c) (size c) true (max_size c) (Buffer vs) (bcount c)).
Proof.
  intros (Hc & Hs & Hb & cb & Hm & Hat) Hu Hlen Hsl. unfold chunk_decompress.
  rewrite Hc. cbn [c_assert]. rewrite bind_Ok, Hs, Nat2Z.id. unfold cbuff. rewrite Hm.
  rewrite <- (app_nil_r (Index.realloc32 junk [] (length vs))).
  rewrite delta_decode_ok, bind_Ok; [by rewrite app_nil_r|done|lia|done|by apply Hsl|].
  apply Index.length_realloc32.
Qed.

(** A chunk that went through [chunk_compress] and [chunk_decompress] holds
    its values again but stays marked as compressed: no value can be read from
    it, and the next [chunk_push] fails its assertion. *)
Theorem chunk_decompress_unusable (c : chunk_t) (vs : list Z) (Hc : holds c vs) (Hne : vs <> [])
  (Hu : Forall is_u32 vs) (Hfit : Index.fits vs) :
  exists c1 c2 n, chunk_compress c = Ok (c1, n) /\ chunk_decompress c1 (size c1) = Ok c2 /\
    mem c2 = Buffer vs /\ (forall off, chunk_get c2 off = Ok None) /\
    (forall v, chunk_push c2 v = AssertFail).
Proof.
  unfold Index.fits in Hfit. pose proof (holds_length _ _ Hc) as Hle.
  destruct (chunk_compress_packs c vs) as (c1 & Hcomp & Hp & Hmx); [done|done|lia|].
  assert (Hlen : forall cb, mem c1 = Cbuff cb -> length cb = (4 * length vs)%nat).
  { intros cb Hcb. destruct Hc as (Hcc & Hmax & Hs & Hcap & b & Hm & Hb & Hat).
    unfold chunk_compress, buffer in Hcomp. rewrite Hm, Hs in Hcomp.
    apply bind_Ok_inv in Hcomp as ([] & _ & Hcomp). rewrite !bind_Ok, Nat2Z.id in Hcomp.
    rewrite (delta_encode_ok vs), bind_Ok in Hcomp;
      [|done|lia|rewrite Index.length_malloc8; lia].
    injection Hcomp as <- _. cbn in Hcb. injection Hcb as <-.
    rewrite length_app, length_drop, Index.length_malloc8. lia. }
  pose proof (chunk_decompress_ok _ _ Hp Hu) as HD.
  exists c1, (Chunk (capacity c1) (size c1) true (max_size c1) (Buffer vs) (bcount c1)). eexists.
  split_and!; [exact Hcomp| |done|done|done].
  destruct Hp as (Hcc & Hs & _). assert (E : chunk_decompress c1 (size c1) =
    (c2 ← chunk_decompress (set_bcount c1 (Z.of_nat (length (delta_encoded 0 vs)))) (size c1);
     Ok (set_bcount c2 (bcount c1)))).
  { unfold chunk_decompress, cbuff. cbn [is_compressed mem set_bcount].
    destruct (c_assert (is_compressed c1)); [|done|done]. rewrite !bind_Ok.
    by destruct (streamvbyte_delta_decode _ _ _ _) as [[]| |]. }
  rewrite E. cbn [size set_bcount] in HD. rewrite HD; [done|lia|].
  intros cb Hcb. cbn in Hcb. rewrite (Hlen cb Hcb). lia.
Qed.

(** * The list of chunks *)

(** A full, compressed chunk of the list. *)
Definition sealed (heap : list chunk_t) (p : nat) (vs : list Z) : Prop :=
  exists c, heap !! p = Some c /\ packed c vs /\ Z.of_nat (length vs) = 2 ^ 23.

(** The chunks of a list that is not empty: full compressed ones and the last. *)
Definition list_ok (heap : list chunk_t) (l : L) (vss : list (list Z)) (vs : list Z) : Prop :=
  exists ps p c, elems l = ps ++ [p] /\ NoDup (ps ++ [p]) /\ Forall2 (sealed heap) ps vss /\
    heap !! p = Some c /\ holds c vs.

(** The list stores [docs]. *)
Definition stored (heap : list chunk_t) (l : L) (docs : list Z) : Prop :=
  (elems l = [] /\ docs = []) \/ exists vss vs, list_ok heap l vss vs /\ docs = concat vss ++ vs.

Lemma sealed_insert heap p c ps vss :
  Forall2 (sealed heap) ps vss -> p ∉ ps -> Forall2 (sealed (<[p := c]> heap)) ps vss.
Proof.
  induction 1 as [|p' vs ps vss (c' & Hc & Hp) H IH]; intros Hni; [done|].
  apply not_elem_of_cons in Hni as [Hne Hni]. constructor; [|by apply IH].
  exists c'. by rewrite list_lookup_insert_ne.
Qed.

Lemma sealed_app heap x ps vss :
  Forall2 (sealed heap) ps vss -> Forall2 (sealed (heap ++ [x])) ps vss.
Proof.
  intros H. eapply Forall2_impl; [exact H|]. intros p vs (c & Hc & Hp). exists c.
  split; [by apply lookup_app_l_Some|done].
Qed.

Lemma sealed_lt heap ps vss : Forall2 (sealed heap) ps vss -> Forall (fun p => (p < length heap)%nat) ps.
Proof.
  induction 1 as [|p vs ps vss (c & Hc & _) H IH]; constructor; [by eapply lookup_lt_Some|done].
Qed.

(** Sealing the last chunk and linking a fresh one. *)
Lemma seal_ok heap l ps p vss vs c :
  elems l = ps ++ [p] -> NoDup (ps ++ [p]) -> Forall2 (sealed heap) ps vss ->
  (p < length heap)%nat -> packed c vs -> Z.of_nat (length vs) = 2 ^ 23 ->
  list_ok (<[p := c]> heap ++ [chunk_init chunk_zero]) (list_add_tail (length heap) l) (vss ++ [vs]) [].
Proof.
  intros Hel Hnd Hps Hlt Hpk Hfull. assert (Hnd' := Hnd). apply NoDup_app in Hnd' as (_ & Hni & _).
  assert (Hp' : p ∉ ps) by (intros Hin; apply (Hni p Hin), list_elem_of_here).
  assert (Hs : Forall2 (sealed (<[p := c]> heap)) (ps ++ [p]) (vss ++ [vs])).
  { apply Forall2_app; [by apply sealed_insert|]. constructor; [|done]. exists c.
    split; [by apply list_lookup_insert_eq|done]. }
  exists (ps ++ [p]), (length heap), (chunk_init chunk_zero).
  rewrite list_add_tail_spec, Hel. split_and!; [done| |by apply sealed_app| |apply holds_init].
  - apply sealed_lt in Hs. rewrite length_insert in Hs. apply NoDup_app.
    split_and!; [done| |apply NoDup_singleton]. intros q Hq ->%list_elem_of_singleton.
    rewrite list.Forall_forall in Hs. specialize (Hs _ Hq). lia.
  - rewrite lookup_app_r by (by rewrite length_insert). by rewrite length_insert, Nat.sub_diag.
Qed.

(** Making room keeps what is stored and leaves a last chunk that is not full. *)
Lemma chunk_list_room_ok heap l docs :
  stored heap l docs ->
  (forall vss vs, list_ok heap l vss vs -> Z.of_nat (length vs) = 2 ^ 23 ->
     (length (delta_encoded 0 vs) <= 4 * length vs)%nat) ->
  exists heap' l' vss vs, chunk_list_room heap l = Ok (heap', l') /\ list_ok heap' l' vss vs /\
    docs = concat vss ++ vs /\ Z.of_nat (length vs) < 2 ^ 23.
Proof.
  intros [[He ->]|(vss & vs & Hl & ->)] Hfit; unfold chunk_list_room; rewrite list_empty_spec.
  - rewrite bool_decide_true by done. do 2 eexists. exists [], []. split; [reflexivity|].
    split; [|done]. exists [], (length heap), (chunk_init chunk_zero).
    rewrite list_add_tail_spec, He. split_and!; [done|apply NoDup_singleton|done| |apply holds_init].
    by apply list_lookup_middle.
  - assert (Hl' := Hl). destruct Hl' as (ps & p & c & Hel & Hnd & Hps & Hp & Hh).
    rewrite bool_decide_false by (rewrite Hel; by destruct ps).
    rewrite (list_prev_spec l ps p Hel). unfold load. rewrite Hp. cbn [of_option]. rewrite bind_Ok.
    pose proof (holds_length _ _ Hh) as Hle. unfold chunk_full.
    replace (size c =? max_size c) with (bool_decide (Z.of_nat (length vs) = 2 ^ 23))
      by (destruct Hh as (_ & -> & -> & _); case_bool_decide; symmetry; [by apply Z.eqb_eq|by apply Z.eqb_neq]).
    case_bool_decide as Hfull; [|exists heap, l, vss, vs; split_and!; [done|done|done|lia]].
    destruct (chunk_compress_packs c vs) as (c' & -> & Hpk & _); [done|by destruct vs|by eapply Hfit|].
    assert (Hlt : (p < length heap)%nat) by (by eapply lookup_lt_Some).
    rewrite bind_Ok. unfold store. rewrite decide_True by done. rewrite bind_Ok, length_insert.
    do 2 eexists. exists (vss ++ [vs]), []. split; [reflexivity|]. split.
    + by eapply seal_ok.
    + rewrite concat_app, app_nil_r. cbn. by rewrite app_nil_r.
Qed.

(** [chunk_list_push] appends to the stored documents and never returns -1,
    provided a full last chunk compresses into four bytes per value: every chunk
    but the last is compressed and holds [2^23] documents. *)
Theorem chunk_list_push_spec (heap : list chunk_t) (l : L) (docs : list Z) (d : Z)
  (Hst : stored heap l docs)
  (Hfit : forall vss vs, list_ok heap l vss vs -> Z.of_nat (length vs) = 2 ^ 23 ->
     (length (delta_encoded 0 vs) <= 4 * length vs)%nat) :
  exists heap' l' r, chunk_list_push heap l d = Ok (heap', l', r) /\ 0 <= r <= 1 /\
    stored heap' l' (docs ++ [d]).
Proof.
  destruct (chunk_list_room_ok heap l docs Hst Hfit) as (heap1 & l1 & vss & vs & Hroom & Hl & -> & Hlt).
  destruct Hl as (ps & p & c & Hel & Hnd & Hps & Hp & Hh).
  unfold chunk_list_push. rewrite Hroom, bind_Ok, (list_prev_spec l1 ps p Hel).
  unfold load. rewrite Hp. cbn [of_option]. rewrite bind_Ok.
  destruct (chunk_push_grows c vs d Hh Hlt) as (c' & -> & Hh').
  assert (Hpl : (p < length heap1)%nat) by (by eapply lookup_lt_Some).
  rewrite bind_Ok. unfold store. rewrite decide_True, bind_Ok by done.
  do 3 eexists. split; [reflexivity|]. split; [case_match; lia|].
  right. exists vss, (vs ++ [d]). split; [|by rewrite app_assoc].
  exists ps, p, c'. split_and!; [done|done| |by apply list_lookup_insert_eq|done].
  apply sealed_insert; [done|]. apply NoDup_app in Hnd as (_ & Hni & _).
  intros Hin. apply (Hni p Hin), list_elem_of_here.
Qed.

End list.
End with_junk.

(** * Concrete runs *)
#[local] Instance list_heads : ListHead (list nat).
Proof.
  refine {|
    list_empty l := bool_decide (l = []); list_prev l := default 0%nat (last l);
    list_add_tail p l := l ++ [p]; INIT_LIST_HEAD := []; elems l := l
  |}; [done|done| |done].
  intros l ps p ->. by rewrite last_snoc.
Defined.

Definition zeros (i : nat) : Z := 0.
Definition chunk3 : chunk_t := Chunk 4 3 false (2 ^ 23) (Buffer [5; 7; 300; 0]) 0.

Lemma chunk3_holds : holds chunk3 [5; 7; 300].
Proof.
  split_and!; try done; [right; exists 2; done|]. exists [5; 7; 300; 0]. split_and!; [done|done|].
  by exists [], [0].
Qed.

Lemma chunk_push_spec_witness :
  exists c', chunk_push zeros chunk3 9 = Ok (c', 1) /\ holds c' [5; 7; 300; 9].
Proof.
  pose proof (chunk_push_spec zeros chunk3 [5; 7; 300] 9 chunk3_holds) as H.
  rewrite decide_True in H by (cbn; lia). destruct H as (c' & H1 & H2).
  exists c'. split; [vm_compute in H1 |- *; by simplify_eq|done].
Defined.

Lemma chunk_decompress_unusable_witness :
  exists c1 c2 n, chunk_compress zeros chunk3 = Ok (c1, n) /\ chunk_decompress zeros c1 (size c1) = Ok c2 /\
    mem c2 = Buffer [5; 7; 300] /\ (forall off, chunk_get c2 off = Ok None) /\
    (forall v, chunk_push zeros c2 v = AssertFail).
Proof.
  apply (chunk_decompress_unusable zeros chunk3 [5; 7; 300]);
    [apply chunk3_holds|done|by repeat constructor|vm_compute; lia].
Defined.

Lemma chunk_list_push_spec_witness :
  exists heap' l' r, chunk_list_push zeros [chunk3] [0%nat] 9 = Ok (heap', l', r) /\ 0 <= r <= 1 /\
    stored heap' l' [5; 7; 300; 9].
Proof.
  apply (chunk_list_push_spec zeros [chunk3] [0%nat] [5; 7; 300] 9).
  - right. exists [], [5; 7; 300]. split; [|done]. exists [], 0%nat, chunk3.
    split_and!; [done|apply NoDup_singleton|done|done|apply chunk3_holds].
  - intros vss vs (ps & p & c & Hel & _ & _ & Hp & Hh) Hlen.
    assert (p = 0%nat) as -> by (destruct ps as [|? [|]]; by simplify_eq/=).
    injection Hp as <-. destruct Hh as (_ & _ & Hs & _). cbn in Hs. lia.
Defined.

End ChunkList.
