(* ===== verification/IndexWriter.v ===== *)
(** src/iw.c: the index writer that hands compressed runs of documents to a
    callback.

    The vector (klib's kvec) and the compressor (libvbyte) are not part of the
    repository: the vector is an interface with the documented behaviour of its
    macros, the compressor a function with the documented bound on its output.
    The calls of the callback are recorded; its result is a parameter. *)
From S2P Require Import Prelude.
From stdpp Require Import sorting.
Open Scope Z_scope.

Module IndexWriter.

Record dt := Dt { term : Z; doc : Z }.

(** <kvec.h>: [kv_list] are the elements [kv_A(v, 0)], ..., [kv_A(v, kv_size(v)-1)]. *)
Class KVec (K : Type) := {
  kv_init : K;
  kv_push : K -> Z -> K;
  kv_clear : K -> K;
  kv_list : K -> list Z;
  kv_list_init : kv_list kv_init = [];
  kv_list_push v x : kv_list (kv_push v x) = kv_list v ++ [x];
  kv_list_clear v : kv_list (kv_clear v) = []
}.

Definition kv_size {K} `{!KVec K} (v : K) : Z := Z.of_nat (length (kv_list v)).

(** A call of the callback: the start pair and the compressed bytes. *)
Record call := Call { start_pair : dt; buff : list Z }.

Section writer.
Context {K : Type} `{!KVec K}.
(** [vbyte_compress_sorted64 in out previous length]: the bytes written. *)
Context (vbyte_compress_sorted64 : list Z -> Z -> list Z).
Context (callback : dt -> list Z -> Z).

Record index_writer_t := IW { last_pair : dt; maxy : Z; data : K; calls : list call }.

Definition index_writer_init (maxy : Z) : index_writer_t := IW (Dt 0 0) maxy kv_init [].

(** [index_writer_flush]: with an empty vector the length passed to the compressor
    wraps around and its reads leave the vector. *)
Definition index_writer_flush (w : index_writer_t) : outcome (index_writer_t * Z) :=
  match kv_list (data w) with
  | [] => Undef
  | d :: ds =>
      let bytes := vbyte_compress_sorted64 ds d in
      if (length bytes <=? length (d :: ds) * 8 * 5)%nat then
        let start := Dt (term (last_pair w)) d in
        Ok (IW (last_pair w) (maxy w) (data w) (calls w ++ [Call start bytes]), callback start bytes)
      else Undef
  end.

Definition index_writer_write (w : index_writer_t) (pair : dt) : outcome (index_writer_t * Z) :=
  let last := last_pair w in
  if (term pair <? term last) || ((term pair =? term last) && (doc pair <=? doc last)) then Ok (w, -1)
  else if negb (term last =? term pair) && negb (term last =? 0) then
    '(w, _) ← index_writer_flush w;
    Ok (IW pair (maxy w) (kv_clear (data w)) (calls w), 0)
  else
    let w := IW pair (maxy w) (kv_push (data w) (doc pair)) (calls w) in
    if u64 (maxy w) <=? kv_size (data w) then
      '(w, rc) ← index_writer_flush w;
      Ok (IW (last_pair w) (maxy w) (kv_clear (data w)) (calls w), rc)
    else Ok (w, 0).

(** ** One run of documents *)
Fixpoint write_docs (w : index_writer_t) (t : Z) (ds : list Z) : outcome index_writer_t :=
  match ds with
  | [] => Ok w
  | d :: ds => '(w, _) ← index_writer_write w (Dt t d); write_docs w t ds
  end.

(** The documents cut into full runs of [m], and what is left. *)
Fixpoint runs (m : nat) (pend ds : list Z) : list (list Z) * list Z :=
  match ds with
  | [] => ([], pend)
  | d :: ds =>
      if decide (length pend + 1 = m)%nat then
        let '(rs, rest) := runs m [] ds in ((pend ++ [d]) :: rs, rest)
      else runs m (pend ++ [d]) ds
  end.

Definition run_call (t : Z) (r : list Z) : call :=
  Call (Dt t (hd 0 r)) (vbyte_compress_sorted64 (tail r) (hd 0 r)).

(** VByte takes at most ten bytes for a 64-bit value. *)
Hypothesis vbyte_bound : forall ds d, (length (vbyte_compress_sorted64 ds d) <= 10 * length ds)%nat.

Lemma flush_ok w r :
  kv_list (data w) = r -> r <> [] ->
  index_writer_flush w =
    Ok (IW (last_pair w) (maxy w) (data w) (calls w ++ [run_call (term (last_pair w)) r]),
        callback (Dt (term (last_pair w)) (hd 0 r)) (vbyte_compress_sorted64 (tail r) (hd 0 r))).
Proof.
  intros Hr Hne. unfold index_writer_flush. rewrite Hr. destruct r as [|d ds]; [done|].
  pose proof (vbyte_bound ds d). cbn [length].
  replace (_ <=? _)%nat with true by (symmetry; apply Nat.leb_le; lia). done.
Qed.

Lemma write_docs_ok t m ds w :
  t <> 0 -> maxy w = Z.of_nat m -> (0 < m)%nat -> Z.of_nat m < 2 ^ 31 ->
  (last_pair w = Dt 0 0 /\ 0 <= t \/ exists d, last_pair w = Dt t d /\ Forall (fun x => d < x) ds) ->
  (length (kv_list (data w)) < m)%nat -> Forall (Z.le 0) ds -> StronglySorted Z.lt ds ->
  exists w', write_docs w t ds = Ok w' /\
    calls w' = calls w ++ map (run_call t) (runs m (kv_list (data w)) ds).1 /\
    kv_list (data w') = (runs m (kv_list (data w)) ds).2.
Proof.
  intros Ht Hm Hm0 Hm31. revert w Hm; induction ds as [|d ds IH]; intros w Hm Hlast Hlen Hpos Hsort.
  { exists w. cbn. by rewrite app_nil_r. }
  apply Forall_cons_1 in Hpos as [Hd Hpos]. inversion Hsort as [|? ? Hsort' Hall]; subst.
  cbn [write_docs runs]. unfold index_writer_write. cbn [term doc].
  replace ((t <? term (last_pair w)) || ((t =? term (last_pair w)) && (d <=? doc (last_pair w)))) with false.
  2: { symmetry. destruct Hlast as [[-> ?]|(d0 & -> & Hd0)]; cbn [term doc].
       - apply orb_false_iff. rewrite andb_false_iff, Z.ltb_ge, Z.eqb_neq. lia.
       - apply Forall_cons_1 in Hd0 as [Hd0 _].
         apply orb_false_iff. rewrite andb_false_iff, Z.ltb_ge, Z.leb_gt. lia. }
  replace (negb (term (last_pair w) =? t) && negb (term (last_pair w) =? 0)) with false.
  2: { symmetry. destruct Hlast as [[-> _]|(d0 & -> & _)]; cbn [term];
       [apply andb_false_r|by rewrite Z.eqb_refl]. }
  cbv zeta. cbn [maxy data]. unfold kv_size. rewrite kv_list_push, length_app, Hm. cbn [length].
  replace (u64 (Z.of_nat m) <=? Z.of_nat (length (kv_list (data w)) + 1))
    with (bool_decide (length (kv_list (data w)) + 1 = m)%nat).
  2: { unfold u64. rewrite Z.mod_small by lia. case_bool_decide; symmetry; [apply Z.leb_le|apply Z.leb_gt]; lia. }
  case_bool_decide as Hfull.
  - rewrite (flush_ok _ (kv_list (data w) ++ [d])), !bind_Ok; cbn [data last_pair];
      [|by rewrite kv_list_push|by destruct (kv_list (data w))].
    rewrite decide_True by done.
    edestruct IH as (w' & -> & Hc & Hd'); [..|exists w'; split; [reflexivity|]]; cbn [maxy last_pair data calls term].
    + done.
    + right. by exists d.
    + rewrite kv_list_clear. done.
    + done.
    + done.
    + cbn [data calls] in Hc, Hd'. rewrite kv_list_clear in Hc, Hd'.
      destruct (runs m [] ds) as [rs rest]. cbn [fst snd map] in *. by rewrite Hc, <- app_assoc.
  - rewrite decide_False, bind_Ok by done.
    edestruct IH as (w' & -> & Hc & Hd'); [..|exists w'; split; [reflexivity|]]; cbn [maxy last_pair data calls term].
    + done.
    + right. by exists d.
    + rewrite kv_list_push, length_app. cbn. lia.
    + done.
    + done.
    + cbn [data calls] in Hc, Hd'. by rewrite kv_list_push in Hc, Hd'.
Qed.

Lemma runs_concat m ds pend : concat (runs m pend ds).1 ++ (runs m pend ds).2 = pend ++ ds.
Proof.
  revert pend; induction ds as [|d ds IH]; intros pend; cbn; [by rewrite app_nil_r|].
  case_decide.
  - specialize (IH []). destruct (runs m [] ds) as [rs rest]. cbn in *.
    by rewrite <- app_assoc, IH, <- app_assoc.
  - by rewrite IH, <- app_assoc.
Qed.

(** increasing documents of one term are handed to the callback in runs of
    [maxy], each with its first document and the compressed rest, in order; the
    last, incomplete run stays in the vector. *)
Theorem index_writer_runs (t : Z) (m : nat) (ds : list Z) (Ht : 0 < t) (Hm : (0 < m)%nat)
  (Hm31 : Z.of_nat m < 2 ^ 31) (Hpos : Forall (Z.le 0) ds) (Hsort : StronglySorted Z.lt ds) :
  exists w, write_docs (index_writer_init (Z.of_nat m)) t ds = Ok w /\
    calls w = map (run_call t) (runs m [] ds).1 /\ kv_list (data w) = (runs m [] ds).2 /\
    concat (runs m [] ds).1 ++ (runs m [] ds).2 = ds.
Proof.
  destruct (write_docs_ok t m ds (index_writer_init (Z.of_nat m))) as (w & Hw & Hc & Hd);
    [lia|done|done|done|left; split; [done|lia]|by cbn; rewrite kv_list_init|done|done|].
  cbn [index_writer_init data calls] in Hc, Hd. rewrite kv_list_init in Hc, Hd.
  exists w. split_and!; try done. apply (runs_concat m ds []).
Qed.

(** A pair of a new term flushes the pending run of the previous term, but
    the pair itself is never stored; if nothing is pending, the flush runs out of
    the vector. *)
Theorem index_writer_new_term (w : index_writer_t) (pair : dt)
  (Hlast : 0 < term (last_pair w) < term pair) :
  match kv_list (data w) with
  | [] => index_writer_write w pair = Undef
  | r => exists w', index_writer_write w pair = Ok (w', 0) /\
      calls w' = calls w ++ [run_call (term (last_pair w)) r] /\ kv_list (data w') = [] /\
      last_pair w' = pair
  end.
Proof.
  unfold index_writer_write.
  replace ((term pair <? term (last_pair w)) || ((term pair =? term (last_pair w)) && (doc pair <=? doc (last_pair w))))
    with false by (symmetry; apply orb_false_iff; rewrite andb_false_iff, Z.ltb_ge, Z.eqb_neq; lia).
  replace (negb (term (last_pair w) =? term pair) && negb (term (last_pair w) =? 0)) with true
    by (symmetry; apply andb_true_iff; rewrite !negb_true_iff, !Z.eqb_neq; lia).
  destruct (kv_list (data w)) as [|d ds] eqn:E.
  - unfold index_writer_flush. by rewrite E.
  - rewrite (flush_ok w (d :: ds)), bind_Ok by done. eexists. split; [reflexivity|].
    cbn [calls data last_pair]. by rewrite kv_list_clear.
Qed.

End writer.

(** * Concrete runs *)
#[local] Instance list_kvec : KVec (list Z).
Proof. refine {| kv_init := []; kv_push v x := v ++ [x]; kv_clear _ := []; kv_list v := v |}; done. Defined.

(** A compressor within the bound: each difference in eight bytes. *)
Fixpoint compress8 (ds : list Z) (prev : Z) : list Z :=
  match ds with [] => [] | d :: ds => le_split 8 (d - prev) ++ compress8 ds d end.

Lemma compress8_bound ds d : (length (compress8 ds d) <= 10 * length ds)%nat.
Proof.
  revert d; induction ds as [|x ds IH]; intros d; [done|].
  cbn [compress8]. rewrite length_app, length_le_split. specialize (IH x). simpl. lia.
Qed.

Lemma index_writer_runs_witness :
  exists w, write_docs compress8 (fun _ _ => 0) (index_writer_init 2) 1 [1; 2; 5; 9; 11] = Ok w /\
    calls w = map (run_call compress8 1) [[1; 2]; [5; 9]] /\ kv_list (data w) = [11] /\
    concat [[1; 2]; [5; 9]] ++ [11] = [1; 2; 5; 9; 11].
Proof.
  apply (index_writer_runs compress8 (fun _ _ => 0) compress8_bound 1 2 [1; 2; 5; 9; 11]);
    [lia|lia|lia|by repeat constructor|by_decide].
Defined.

Lemma index_writer_new_term_witness :
  exists w', index_writer_write compress8 (fun _ _ => 0) (IW (Dt 1 7) 9 [5; 7] []) (Dt 2 13) = Ok (w', 0) /\
    calls w' = [run_call compress8 1 [5; 7]] /\ kv_list (data w') = [] /\ last_pair w' = Dt 2 13.
Proof.
  refine (index_writer_new_term compress8 (fun _ _ => 0) compress8_bound (IW (Dt 1 7) 9 [5; 7] []) (Dt 2 13) _).
  cbn. lia.
Defined.

End IndexWriter.
