(* ===== verification/GumboTags.v ===== *)
(** gumbo-parser/src/tag.c with the generated tables it includes (tag_enum.h,
    tag_strings.h, tag_sizes.h, tag_gperf.h): the tags of HTML, their names, and
    the lookup of a tag by name with a perfect hash.

    Strings are lists of bytes.  [tolower] is that of the C locale, the identity
    outside the ASCII capitals. *)
From S2P Require Import Prelude.
From Stdlib Require Import Strings.String Strings.Ascii.
From stdpp Require Import list.
Open Scope Z_scope.

Module Tags.

(** * Tables *)
Inductive GumboTag :=
| GUMBO_TAG_HTML | GUMBO_TAG_HEAD | GUMBO_TAG_TITLE
| GUMBO_TAG_BASE | GUMBO_TAG_LINK | GUMBO_TAG_META
| GUMBO_TAG_STYLE | GUMBO_TAG_SCRIPT | GUMBO_TAG_NOSCRIPT
| GUMBO_TAG_TEMPLATE | GUMBO_TAG_BODY | GUMBO_TAG_ARTICLE
| GUMBO_TAG_SECTION | GUMBO_TAG_NAV | GUMBO_TAG_ASIDE
| GUMBO_TAG_H1 | GUMBO_TAG_H2 | GUMBO_TAG_H3
| GUMBO_TAG_H4 | GUMBO_TAG_H5 | GUMBO_TAG_H6
| GUMBO_TAG_HGROUP | GUMBO_TAG_HEADER | GUMBO_TAG_FOOTER
| GUMBO_TAG_ADDRESS | GUMBO_TAG_P | GUMBO_TAG_HR
| GUMBO_TAG_PRE | GUMBO_TAG_BLOCKQUOTE | GUMBO_TAG_OL
| GUMBO_TAG_UL | GUMBO_TAG_LI | GUMBO_TAG_DL
| GUMBO_TAG_DT | GUMBO_TAG_DD | GUMBO_TAG_FIGURE
| GUMBO_TAG_FIGCAPTION | GUMBO_TAG_MAIN | GUMBO_TAG_DIV
| GUMBO_TAG_A | GUMBO_TAG_EM | GUMBO_TAG_STRONG
| GUMBO_TAG_SMALL | GUMBO_TAG_S | GUMBO_TAG_CITE
| GUMBO_TAG_Q | GUMBO_TAG_DFN | GUMBO_TAG_ABBR
| GUMBO_TAG_DATA | GUMBO_TAG_TIME | GUMBO_TAG_CODE
| GUMBO_TAG_VAR | GUMBO_TAG_SAMP | GUMBO_TAG_KBD
| GUMBO_TAG_SUB | GUMBO_TAG_SUP | GUMBO_TAG_I
| GUMBO_TAG_B | GUMBO_TAG_U | GUMBO_TAG_MARK
| GUMBO_TAG_RUBY | GUMBO_TAG_RT | GUMBO_TAG_RP
| GUMBO_TAG_BDI | GUMBO_TAG_BDO | GUMBO_TAG_SPAN
| GUMBO_TAG_BR | GUMBO_TAG_WBR | GUMBO_TAG_INS
| GUMBO_TAG_DEL | GUMBO_TAG_IMAGE | GUMBO_TAG_IMG
| GUMBO_TAG_IFRAME | GUMBO_TAG_EMBED | GUMBO_TAG_OBJECT
| GUMBO_TAG_PARAM | GUMBO_TAG_VIDEO | GUMBO_TAG_AUDIO
| GUMBO_TAG_SOURCE | GUMBO_TAG_TRACK | GUMBO_TAG_CANVAS
| GUMBO_TAG_MAP | GUMBO_TAG_AREA | GUMBO_TAG_MATH
| GUMBO_TAG_MI | GUMBO_TAG_MO | GUMBO_TAG_MN
| GUMBO_TAG_MS | GUMBO_TAG_MTEXT | GUMBO_TAG_MGLYPH
| GUMBO_TAG_MALIGNMARK | GUMBO_TAG_ANNOTATION_XML | GUMBO_TAG_SVG
| GUMBO_TAG_FOREIGNOBJECT | GUMBO_TAG_DESC | GUMBO_TAG_TABLE
| GUMBO_TAG_CAPTION | GUMBO_TAG_COLGROUP | GUMBO_TAG_COL
| GUMBO_TAG_TBODY | GUMBO_TAG_THEAD | GUMBO_TAG_TFOOT
| GUMBO_TAG_TR | GUMBO_TAG_TD | GUMBO_TAG_TH
| GUMBO_TAG_FORM | GUMBO_TAG_FIELDSET | GUMBO_TAG_LEGEND
| GUMBO_TAG_LABEL | GUMBO_TAG_INPUT | GUMBO_TAG_BUTTON
| GUMBO_TAG_SELECT | GUMBO_TAG_DATALIST | GUMBO_TAG_OPTGROUP
| GUMBO_TAG_OPTION | GUMBO_TAG_TEXTAREA | GUMBO_TAG_KEYGEN
| GUMBO_TAG_OUTPUT | GUMBO_TAG_PROGRESS | GUMBO_TAG_METER
| GUMBO_TAG_DETAILS | GUMBO_TAG_SUMMARY | GUMBO_TAG_MENU
| GUMBO_TAG_MENUITEM | GUMBO_TAG_APPLET | GUMBO_TAG_ACRONYM
| GUMBO_TAG_BGSOUND | GUMBO_TAG_DIR | GUMBO_TAG_FRAME
| GUMBO_TAG_FRAMESET | GUMBO_TAG_NOFRAMES | GUMBO_TAG_ISINDEX
| GUMBO_TAG_LISTING | GUMBO_TAG_XMP | GUMBO_TAG_NEXTID
| GUMBO_TAG_NOEMBED | GUMBO_TAG_PLAINTEXT | GUMBO_TAG_RB
| GUMBO_TAG_STRIKE | GUMBO_TAG_BASEFONT | GUMBO_TAG_BIG
| GUMBO_TAG_BLINK | GUMBO_TAG_CENTER | GUMBO_TAG_FONT
| GUMBO_TAG_MARQUEE | GUMBO_TAG_MULTICOL | GUMBO_TAG_NOBR
| GUMBO_TAG_SPACER | GUMBO_TAG_TT | GUMBO_TAG_RTC
| GUMBO_TAG_UNKNOWN | GUMBO_TAG_LAST.

(** The value of the enumeration constant. *)
Definition tag_index (t : GumboTag) : nat :=
  match t with
  | GUMBO_TAG_HTML => 0 | GUMBO_TAG_HEAD => 1 | GUMBO_TAG_TITLE => 2 | GUMBO_TAG_BASE => 3
  | GUMBO_TAG_LINK => 4 | GUMBO_TAG_META => 5 | GUMBO_TAG_STYLE => 6 | GUMBO_TAG_SCRIPT => 7
  | GUMBO_TAG_NOSCRIPT => 8 | GUMBO_TAG_TEMPLATE => 9 | GUMBO_TAG_BODY => 10
  | GUMBO_TAG_ARTICLE => 11 | GUMBO_TAG_SECTION => 12 | GUMBO_TAG_NAV => 13
  | GUMBO_TAG_ASIDE => 14 | GUMBO_TAG_H1 => 15 | GUMBO_TAG_H2 => 16 | GUMBO_TAG_H3 => 17
  | GUMBO_TAG_H4 => 18 | GUMBO_TAG_H5 => 19 | GUMBO_TAG_H6 => 20 | GUMBO_TAG_HGROUP => 21
  | GUMBO_TAG_HEADER => 22 | GUMBO_TAG_FOOTER => 23 | GUMBO_TAG_ADDRESS => 24
  | GUMBO_TAG_P => 25 | GUMBO_TAG_HR => 26 | GUMBO_TAG_PRE => 27 | GUMBO_TAG_BLOCKQUOTE => 28
  | GUMBO_TAG_OL => 29 | GUMBO_TAG_UL => 30 | GUMBO_TAG_LI => 31 | GUMBO_TAG_DL => 32
  | GUMBO_TAG_DT => 33 | GUMBO_TAG_DD => 34 | GUMBO_TAG_FIGURE => 35
  | GUMBO_TAG_FIGCAPTION => 36 | GUMBO_TAG_MAIN => 37 | GUMBO_TAG_DIV => 38 | GUMBO_TAG_A => 39
  | GUMBO_TAG_EM => 40 | GUMBO_TAG_STRONG => 41 | GUMBO_TAG_SMALL => 42 | GUMBO_TAG_S => 43
  | GUMBO_TAG_CITE => 44 | GUMBO_TAG_Q => 45 | GUMBO_TAG_DFN => 46 | GUMBO_TAG_ABBR => 47
  | GUMBO_TAG_DATA => 48 | GUMBO_TAG_TIME => 49 | GUMBO_TAG_CODE => 50 | GUMBO_TAG_VAR => 51
  | GUMBO_TAG_SAMP => 52 | GUMBO_TAG_KBD => 53 | GUMBO_TAG_SUB => 54 | GUMBO_TAG_SUP => 55
  | GUMBO_TAG_I => 56 | GUMBO_TAG_B => 57 | GUMBO_TAG_U => 58 | GUMBO_TAG_MARK => 59
  | GUMBO_TAG_RUBY => 60 | GUMBO_TAG_RT => 61 | GUMBO_TAG_RP => 62 | GUMBO_TAG_BDI => 63
  | GUMBO_TAG_BDO => 64 | GUMBO_TAG_SPAN => 65 | GUMBO_TAG_BR => 66 | GUMBO_TAG_WBR => 67
  | GUMBO_TAG_INS => 68 | GUMBO_TAG_DEL => 69 | GUMBO_TAG_IMAGE => 70 | GUMBO_TAG_IMG => 71
  | GUMBO_TAG_IFRAME => 72 | GUMBO_TAG_EMBED => 73 | GUMBO_TAG_OBJECT => 74
  | GUMBO_TAG_PARAM => 75 | GUMBO_TAG_VIDEO => 76 | GUMBO_TAG_AUDIO => 77
  | GUMBO_TAG_SOURCE => 78 | GUMBO_TAG_TRACK => 79 | GUMBO_TAG_CANVAS => 80
  | GUMBO_TAG_MAP => 81 | GUMBO_TAG_AREA => 82 | GUMBO_TAG_MATH => 83 | GUMBO_TAG_MI => 84
  | GUMBO_TAG_MO => 85 | GUMBO_TAG_MN => 86 | GUMBO_TAG_MS => 87 | GUMBO_TAG_MTEXT => 88
  | GUMBO_TAG_MGLYPH => 89 | GUMBO_TAG_MALIGNMARK => 90 | GUMBO_TAG_ANNOTATION_XML => 91
  | GUMBO_TAG_SVG => 92 | GUMBO_TAG_FOREIGNOBJECT => 93 | GUMBO_TAG_DESC => 94
  | GUMBO_TAG_TABLE => 95 | GUMBO_TAG_CAPTION => 96 | GUMBO_TAG_COLGROUP => 97
  | GUMBO_TAG_COL => 98 | GUMBO_TAG_TBODY => 99 | GUMBO_TAG_THEAD => 100
  | GUMBO_TAG_TFOOT => 101 | GUMBO_TAG_TR => 102 | GUMBO_TAG_TD => 103 | GUMBO_TAG_TH => 104
  | GUMBO_TAG_FORM => 105 | GUMBO_TAG_FIELDSET => 106 | GUMBO_TAG_LEGEND => 107
  | GUMBO_TAG_LABEL => 108 | GUMBO_TAG_INPUT => 109 | GUMBO_TAG_BUTTON => 110
  | GUMBO_TAG_SELECT => 111 | GUMBO_TAG_DATALIST => 112 | GUMBO_TAG_OPTGROUP => 113
  | GUMBO_TAG_OPTION => 114 | GUMBO_TAG_TEXTAREA => 115 | GUMBO_TAG_KEYGEN => 116
  | GUMBO_TAG_OUTPUT => 117 | GUMBO_TAG_PROGRESS => 118 | GUMBO_TAG_METER => 119
  | GUMBO_TAG_DETAILS => 120 | GUMBO_TAG_SUMMARY => 121 | GUMBO_TAG_MENU => 122
  | GUMBO_TAG_MENUITEM => 123 | GUMBO_TAG_APPLET => 124 | GUMBO_TAG_ACRONYM => 125
  | GUMBO_TAG_BGSOUND => 126 | GUMBO_TAG_DIR => 127 | GUMBO_TAG_FRAME => 128
  | GUMBO_TAG_FRAMESET => 129 | GUMBO_TAG_NOFRAMES => 130 | GUMBO_TAG_ISINDEX => 131
  | GUMBO_TAG_LISTING => 132 | GUMBO_TAG_XMP => 133 | GUMBO_TAG_NEXTID => 134
  | GUMBO_TAG_NOEMBED => 135 | GUMBO_TAG_PLAINTEXT => 136 | GUMBO_TAG_RB => 137
  | GUMBO_TAG_STRIKE => 138 | GUMBO_TAG_BASEFONT => 139 | GUMBO_TAG_BIG => 140
  | GUMBO_TAG_BLINK => 141 | GUMBO_TAG_CENTER => 142 | GUMBO_TAG_FONT => 143
  | GUMBO_TAG_MARQUEE => 144 | GUMBO_TAG_MULTICOL => 145 | GUMBO_TAG_NOBR => 146
  | GUMBO_TAG_SPACER => 147 | GUMBO_TAG_TT => 148 | GUMBO_TAG_RTC => 149
  | GUMBO_TAG_UNKNOWN => 150 | GUMBO_TAG_LAST => 151
  end.

Definition bytes_of (s : string) : list Z :=
  map (fun a => Z.of_nat (nat_of_ascii a)) (list_ascii_of_string s).

Open Scope string_scope.
Definition kGumboTagNames : list (list Z) := map bytes_of [
    "html"; "head"; "title"; "base"; "link"; "meta"; "style"; "script"; "noscript"; "template";
    "body"; "article"; "section"; "nav"; "aside"; "h1"; "h2"; "h3"; "h4"; "h5"; "h6"; "hgroup";
    "header"; "footer"; "address"; "p"; "hr"; "pre"; "blockquote"; "ol"; "ul"; "li"; "dl"; "dt";
    "dd"; "figure"; "figcaption"; "main"; "div"; "a"; "em"; "strong"; "small"; "s"; "cite"; "q";
    "dfn"; "abbr"; "data"; "time"; "code"; "var"; "samp"; "kbd"; "sub"; "sup"; "i"; "b"; "u";
    "mark"; "ruby"; "rt"; "rp"; "bdi"; "bdo"; "span"; "br"; "wbr"; "ins"; "del"; "image"; "img";
    "iframe"; "embed"; "object"; "param"; "video"; "audio"; "source"; "track"; "canvas"; "map";
    "area"; "math"; "mi"; "mo"; "mn"; "ms"; "mtext"; "mglyph"; "malignmark"; "annotation-xml";
    "svg"; "foreignobject"; "desc"; "table"; "caption"; "colgroup"; "col"; "tbody"; "thead";
    "tfoot"; "tr"; "td"; "th"; "form"; "fieldset"; "legend"; "label"; "input"; "button"; "select";
    "datalist"; "optgroup"; "option"; "textarea"; "keygen"; "output"; "progress"; "meter";
    "details"; "summary"; "menu"; "menuitem"; "applet"; "acronym"; "bgsound"; "dir"; "frame";
    "frameset"; "noframes"; "isindex"; "listing"; "xmp"; "nextid"; "noembed"; "plaintext"; "rb";
    "strike"; "basefont"; "big"; "blink"; "center"; "font"; "marquee"; "multicol"; "nobr";
    "spacer"; "tt"; "rtc"; (* TAG_UNKNOWN *) EmptyString; (* TAG_LAST *) EmptyString].
Close Scope string_scope.

Definition kGumboTagSizes : list Z := [
    4; 4; 5; 4; 4; 4; 5; 6; 8; 8; 4; 7; 7; 3; 5; 2; 2; 2; 2; 2; 2; 6; 6; 6; 7; 1; 2; 3; 10; 2; 2;
    2; 2; 2; 2; 6; 10; 4; 3; 1; 2; 6; 5; 1; 4; 1; 3; 4; 4; 4; 4; 3; 4; 3; 3; 3; 1; 1; 1; 4; 4; 2;
    2; 3; 3; 4; 2; 3; 3; 3; 5; 3; 6; 5; 6; 5; 5; 5; 6; 5; 6; 3; 4; 4; 2; 2; 2; 2; 5; 6; 10; 14; 3;
    13; 4; 5; 7; 8; 3; 5; 5; 5; 2; 2; 2; 4; 8; 6; 5; 5; 6; 6; 8; 8; 6; 8; 6; 6; 8; 5; 7; 7; 4; 8;
    6; 7; 7; 3; 5; 8; 8; 7; 7; 3; 6; 7; 9; 2; 6; 8; 3; 5; 6; 4; 7; 8; 4; 6; 2; 3; 0; 0].

(** The static table of [tag_hash]. *)
Definition asso_values : list Z := [
    296; 296; 296; 296; 296; 296; 296; 296; 296; 296; 296; 296; 296; 296; 296; 296; 296; 296; 296;
    296; 296; 296; 296; 296; 296; 296; 296; 296; 296; 296; 296; 296; 296; 296; 296; 296; 296; 296;
    296; 296; 296; 296; 296; 296; 296; 296; 296; 296; 296; 6; 4; 3; 1; 1; 0; 1; 0; 0; 296; 296;
    296; 296; 296; 296; 296; 22; 73; 151; 4; 13; 59; 65; 2; 69; 0; 134; 9; 16; 52; 55; 28; 101; 0;
    1; 6; 63; 126; 104; 93; 124; 296; 296; 296; 296; 296; 296; 296; 22; 73; 151; 4; 13; 59; 65; 2;
    69; 0; 134; 9; 16; 52; 55; 28; 101; 0; 1; 6; 63; 126; 104; 93; 124; 296; 296; 296; 296; 296;
    296; 296; 296; 296; 296; 296; 296; 296; 296; 296; 296; 296; 296; 296; 296; 296; 296; 296; 296;
    296; 296; 296; 296; 296; 296; 296; 296; 296; 296; 296; 296; 296; 296; 296; 296; 296; 296; 296;
    296; 296; 296; 296; 296; 296; 296; 296; 296; 296; 296; 296; 296; 296; 296; 296; 296; 296; 296;
    296; 296; 296; 296; 296; 296; 296; 296; 296; 296; 296; 296; 296; 296; 296; 296; 296; 296; 296;
    296; 296; 296; 296; 296; 296; 296; 296; 296; 296; 296; 296; 296; 296; 296; 296; 296; 296; 296;
    296; 296; 296; 296; 296; 296; 296; 296; 296; 296; 296; 296; 296; 296; 296; 296; 296; 296; 296;
    296; 296; 296; 296; 296; 296; 296; 296; 296; 296; 296; 296; 296; 296; 296; 296; 296; 296].

Definition kGumboTagMap : list GumboTag := [
    GUMBO_TAG_LAST; GUMBO_TAG_LAST; GUMBO_TAG_LAST; GUMBO_TAG_S; GUMBO_TAG_H6; GUMBO_TAG_H5;
    GUMBO_TAG_H4; GUMBO_TAG_H3; GUMBO_TAG_SPACER; GUMBO_TAG_H2; GUMBO_TAG_HEADER; GUMBO_TAG_H1;
    GUMBO_TAG_HEAD; GUMBO_TAG_LAST; GUMBO_TAG_DETAILS; GUMBO_TAG_SELECT; GUMBO_TAG_DIR;
    GUMBO_TAG_LAST; GUMBO_TAG_DEL; GUMBO_TAG_LAST; GUMBO_TAG_SOURCE; GUMBO_TAG_LEGEND;
    GUMBO_TAG_DATALIST; GUMBO_TAG_METER; GUMBO_TAG_MGLYPH; GUMBO_TAG_LAST; GUMBO_TAG_MATH;
    GUMBO_TAG_LABEL; GUMBO_TAG_TABLE; GUMBO_TAG_TEMPLATE; GUMBO_TAG_LAST; GUMBO_TAG_RP;
    GUMBO_TAG_TIME; GUMBO_TAG_TITLE; GUMBO_TAG_DATA; GUMBO_TAG_APPLET; GUMBO_TAG_HGROUP;
    GUMBO_TAG_SAMP; GUMBO_TAG_TEXTAREA; GUMBO_TAG_ABBR; GUMBO_TAG_MARQUEE; GUMBO_TAG_LAST;
    GUMBO_TAG_MENUITEM; GUMBO_TAG_SMALL; GUMBO_TAG_META; GUMBO_TAG_A; GUMBO_TAG_LAST;
    GUMBO_TAG_LAST; GUMBO_TAG_LAST; GUMBO_TAG_LAST; GUMBO_TAG_EMBED; GUMBO_TAG_MAP;
    GUMBO_TAG_LAST; GUMBO_TAG_PARAM; GUMBO_TAG_LAST; GUMBO_TAG_LAST; GUMBO_TAG_NOBR; GUMBO_TAG_P;
    GUMBO_TAG_SPAN; GUMBO_TAG_EM; GUMBO_TAG_LAST; GUMBO_TAG_NOFRAMES; GUMBO_TAG_SECTION;
    GUMBO_TAG_NOEMBED; GUMBO_TAG_NEXTID; GUMBO_TAG_FOOTER; GUMBO_TAG_NOSCRIPT; GUMBO_TAG_HR;
    GUMBO_TAG_LAST; GUMBO_TAG_FONT; GUMBO_TAG_DL; GUMBO_TAG_TR; GUMBO_TAG_SCRIPT; GUMBO_TAG_MO;
    GUMBO_TAG_LAST; GUMBO_TAG_DD; GUMBO_TAG_MAIN; GUMBO_TAG_TD; GUMBO_TAG_FOREIGNOBJECT;
    GUMBO_TAG_FORM; GUMBO_TAG_OBJECT; GUMBO_TAG_LAST; GUMBO_TAG_FIELDSET; GUMBO_TAG_LAST;
    GUMBO_TAG_BGSOUND; GUMBO_TAG_MENU; GUMBO_TAG_TFOOT; GUMBO_TAG_FIGURE; GUMBO_TAG_RB;
    GUMBO_TAG_LI; GUMBO_TAG_LISTING; GUMBO_TAG_BASEFONT; GUMBO_TAG_OPTGROUP; GUMBO_TAG_LAST;
    GUMBO_TAG_BASE; GUMBO_TAG_ADDRESS; GUMBO_TAG_MI; GUMBO_TAG_LAST; GUMBO_TAG_PLAINTEXT;
    GUMBO_TAG_LAST; GUMBO_TAG_PROGRESS; GUMBO_TAG_LAST; GUMBO_TAG_LAST; GUMBO_TAG_LAST;
    GUMBO_TAG_ACRONYM; GUMBO_TAG_ARTICLE; GUMBO_TAG_LAST; GUMBO_TAG_PRE; GUMBO_TAG_LAST;
    GUMBO_TAG_LAST; GUMBO_TAG_LAST; GUMBO_TAG_AREA; GUMBO_TAG_RT; GUMBO_TAG_LAST;
    GUMBO_TAG_OPTION; GUMBO_TAG_IMAGE; GUMBO_TAG_DT; GUMBO_TAG_LAST; GUMBO_TAG_TT; GUMBO_TAG_HTML;
    GUMBO_TAG_WBR; GUMBO_TAG_OL; GUMBO_TAG_LAST; GUMBO_TAG_STYLE; GUMBO_TAG_STRIKE; GUMBO_TAG_SUP;
    GUMBO_TAG_MULTICOL; GUMBO_TAG_U; GUMBO_TAG_DFN; GUMBO_TAG_UL; GUMBO_TAG_FIGCAPTION;
    GUMBO_TAG_MTEXT; GUMBO_TAG_LAST; GUMBO_TAG_VAR; GUMBO_TAG_LAST; GUMBO_TAG_LAST;
    GUMBO_TAG_FRAMESET; GUMBO_TAG_LAST; GUMBO_TAG_BR; GUMBO_TAG_I; GUMBO_TAG_FRAME;
    GUMBO_TAG_LAST; GUMBO_TAG_DIV; GUMBO_TAG_LAST; GUMBO_TAG_TH; GUMBO_TAG_MS;
    GUMBO_TAG_ANNOTATION_XML; GUMBO_TAG_B; GUMBO_TAG_TBODY; GUMBO_TAG_THEAD; GUMBO_TAG_BIG;
    GUMBO_TAG_BLOCKQUOTE; GUMBO_TAG_XMP; GUMBO_TAG_LAST; GUMBO_TAG_KBD; GUMBO_TAG_LAST;
    GUMBO_TAG_LINK; GUMBO_TAG_IFRAME; GUMBO_TAG_MARK; GUMBO_TAG_CENTER; GUMBO_TAG_OUTPUT;
    GUMBO_TAG_DESC; GUMBO_TAG_CANVAS; GUMBO_TAG_COL; GUMBO_TAG_MALIGNMARK; GUMBO_TAG_IMG;
    GUMBO_TAG_ASIDE; GUMBO_TAG_LAST; GUMBO_TAG_CODE; GUMBO_TAG_LAST; GUMBO_TAG_SUB; GUMBO_TAG_MN;
    GUMBO_TAG_LAST; GUMBO_TAG_LAST; GUMBO_TAG_INS; GUMBO_TAG_AUDIO; GUMBO_TAG_STRONG;
    GUMBO_TAG_CITE; GUMBO_TAG_LAST; GUMBO_TAG_LAST; GUMBO_TAG_LAST; GUMBO_TAG_INPUT;
    GUMBO_TAG_LAST; GUMBO_TAG_LAST; GUMBO_TAG_LAST; GUMBO_TAG_NAV; GUMBO_TAG_LAST;
    GUMBO_TAG_COLGROUP; GUMBO_TAG_LAST; GUMBO_TAG_LAST; GUMBO_TAG_LAST; GUMBO_TAG_LAST;
    GUMBO_TAG_LAST; GUMBO_TAG_SVG; GUMBO_TAG_KEYGEN; GUMBO_TAG_VIDEO; GUMBO_TAG_BDO;
    GUMBO_TAG_LAST; GUMBO_TAG_LAST; GUMBO_TAG_LAST; GUMBO_TAG_LAST; GUMBO_TAG_BODY;
    GUMBO_TAG_LAST; GUMBO_TAG_Q; GUMBO_TAG_LAST; GUMBO_TAG_LAST; GUMBO_TAG_LAST; GUMBO_TAG_LAST;
    GUMBO_TAG_TRACK; GUMBO_TAG_LAST; GUMBO_TAG_BDI; GUMBO_TAG_LAST; GUMBO_TAG_LAST;
    GUMBO_TAG_LAST; GUMBO_TAG_CAPTION; GUMBO_TAG_LAST; GUMBO_TAG_LAST; GUMBO_TAG_LAST;
    GUMBO_TAG_LAST; GUMBO_TAG_LAST; GUMBO_TAG_LAST; GUMBO_TAG_RUBY; GUMBO_TAG_LAST;
    GUMBO_TAG_LAST; GUMBO_TAG_BUTTON; GUMBO_TAG_SUMMARY; GUMBO_TAG_LAST; GUMBO_TAG_LAST;
    GUMBO_TAG_LAST; GUMBO_TAG_LAST; GUMBO_TAG_LAST; GUMBO_TAG_LAST; GUMBO_TAG_LAST;
    GUMBO_TAG_LAST; GUMBO_TAG_LAST; GUMBO_TAG_LAST; GUMBO_TAG_LAST; GUMBO_TAG_LAST;
    GUMBO_TAG_LAST; GUMBO_TAG_LAST; GUMBO_TAG_LAST; GUMBO_TAG_LAST; GUMBO_TAG_LAST;
    GUMBO_TAG_LAST; GUMBO_TAG_LAST; GUMBO_TAG_LAST; GUMBO_TAG_LAST; GUMBO_TAG_LAST;
    GUMBO_TAG_LAST; GUMBO_TAG_LAST; GUMBO_TAG_LAST; GUMBO_TAG_LAST; GUMBO_TAG_LAST;
    GUMBO_TAG_LAST; GUMBO_TAG_LAST; GUMBO_TAG_LAST; GUMBO_TAG_LAST; GUMBO_TAG_LAST; GUMBO_TAG_RTC;
    GUMBO_TAG_LAST; GUMBO_TAG_LAST; GUMBO_TAG_LAST; GUMBO_TAG_LAST; GUMBO_TAG_LAST;
    GUMBO_TAG_LAST; GUMBO_TAG_LAST; GUMBO_TAG_LAST; GUMBO_TAG_BLINK; GUMBO_TAG_LAST;
    GUMBO_TAG_LAST; GUMBO_TAG_LAST; GUMBO_TAG_LAST; GUMBO_TAG_LAST; GUMBO_TAG_LAST;
    GUMBO_TAG_LAST; GUMBO_TAG_LAST; GUMBO_TAG_LAST; GUMBO_TAG_LAST; GUMBO_TAG_LAST;
    GUMBO_TAG_LAST; GUMBO_TAG_LAST; GUMBO_TAG_LAST; GUMBO_TAG_LAST; GUMBO_TAG_LAST;
    GUMBO_TAG_LAST; GUMBO_TAG_LAST; GUMBO_TAG_LAST; GUMBO_TAG_LAST; GUMBO_TAG_LAST;
    GUMBO_TAG_LAST; GUMBO_TAG_LAST; GUMBO_TAG_LAST; GUMBO_TAG_LAST; GUMBO_TAG_LAST;
    GUMBO_TAG_LAST; GUMBO_TAG_ISINDEX].

Definition all_tags : list GumboTag := [
    GUMBO_TAG_HTML; GUMBO_TAG_HEAD; GUMBO_TAG_TITLE; GUMBO_TAG_BASE; GUMBO_TAG_LINK;
    GUMBO_TAG_META; GUMBO_TAG_STYLE; GUMBO_TAG_SCRIPT; GUMBO_TAG_NOSCRIPT; GUMBO_TAG_TEMPLATE;
    GUMBO_TAG_BODY; GUMBO_TAG_ARTICLE; GUMBO_TAG_SECTION; GUMBO_TAG_NAV; GUMBO_TAG_ASIDE;
    GUMBO_TAG_H1; GUMBO_TAG_H2; GUMBO_TAG_H3; GUMBO_TAG_H4; GUMBO_TAG_H5; GUMBO_TAG_H6;
    GUMBO_TAG_HGROUP; GUMBO_TAG_HEADER; GUMBO_TAG_FOOTER; GUMBO_TAG_ADDRESS; GUMBO_TAG_P;
    GUMBO_TAG_HR; GUMBO_TAG_PRE; GUMBO_TAG_BLOCKQUOTE; GUMBO_TAG_OL; GUMBO_TAG_UL; GUMBO_TAG_LI;
    GUMBO_TAG_DL; GUMBO_TAG_DT; GUMBO_TAG_DD; GUMBO_TAG_FIGURE; GUMBO_TAG_FIGCAPTION;
    GUMBO_TAG_MAIN; GUMBO_TAG_DIV; GUMBO_TAG_A; GUMBO_TAG_EM; GUMBO_TAG_STRONG; GUMBO_TAG_SMALL;
    GUMBO_TAG_S; GUMBO_TAG_CITE; GUMBO_TAG_Q; GUMBO_TAG_DFN; GUMBO_TAG_ABBR; GUMBO_TAG_DATA;
    GUMBO_TAG_TIME; GUMBO_TAG_CODE; GUMBO_TAG_VAR; GUMBO_TAG_SAMP; GUMBO_TAG_KBD; GUMBO_TAG_SUB;
    GUMBO_TAG_SUP; GUMBO_TAG_I; GUMBO_TAG_B; GUMBO_TAG_U; GUMBO_TAG_MARK; GUMBO_TAG_RUBY;
    GUMBO_TAG_RT; GUMBO_TAG_RP; GUMBO_TAG_BDI; GUMBO_TAG_BDO; GUMBO_TAG_SPAN; GUMBO_TAG_BR;
    GUMBO_TAG_WBR; GUMBO_TAG_INS; GUMBO_TAG_DEL; GUMBO_TAG_IMAGE; GUMBO_TAG_IMG; GUMBO_TAG_IFRAME;
    GUMBO_TAG_EMBED; GUMBO_TAG_OBJECT; GUMBO_TAG_PARAM; GUMBO_TAG_VIDEO; GUMBO_TAG_AUDIO;
    GUMBO_TAG_SOURCE; GUMBO_TAG_TRACK; GUMBO_TAG_CANVAS; GUMBO_TAG_MAP; GUMBO_TAG_AREA;
    GUMBO_TAG_MATH; GUMBO_TAG_MI; GUMBO_TAG_MO; GUMBO_TAG_MN; GUMBO_TAG_MS; GUMBO_TAG_MTEXT;
    GUMBO_TAG_MGLYPH; GUMBO_TAG_MALIGNMARK; GUMBO_TAG_ANNOTATION_XML; GUMBO_TAG_SVG;
    GUMBO_TAG_FOREIGNOBJECT; GUMBO_TAG_DESC; GUMBO_TAG_TABLE; GUMBO_TAG_CAPTION;
    GUMBO_TAG_COLGROUP; GUMBO_TAG_COL; GUMBO_TAG_TBODY; GUMBO_TAG_THEAD; GUMBO_TAG_TFOOT;
    GUMBO_TAG_TR; GUMBO_TAG_TD; GUMBO_TAG_TH; GUMBO_TAG_FORM; GUMBO_TAG_FIELDSET;
    GUMBO_TAG_LEGEND; GUMBO_TAG_LABEL; GUMBO_TAG_INPUT; GUMBO_TAG_BUTTON; GUMBO_TAG_SELECT;
    GUMBO_TAG_DATALIST; GUMBO_TAG_OPTGROUP; GUMBO_TAG_OPTION; GUMBO_TAG_TEXTAREA;
    GUMBO_TAG_KEYGEN; GUMBO_TAG_OUTPUT; GUMBO_TAG_PROGRESS; GUMBO_TAG_METER; GUMBO_TAG_DETAILS;
    GUMBO_TAG_SUMMARY; GUMBO_TAG_MENU; GUMBO_TAG_MENUITEM; GUMBO_TAG_APPLET; GUMBO_TAG_ACRONYM;
    GUMBO_TAG_BGSOUND; GUMBO_TAG_DIR; GUMBO_TAG_FRAME; GUMBO_TAG_FRAMESET; GUMBO_TAG_NOFRAMES;
    GUMBO_TAG_ISINDEX; GUMBO_TAG_LISTING; GUMBO_TAG_XMP; GUMBO_TAG_NEXTID; GUMBO_TAG_NOEMBED;
    GUMBO_TAG_PLAINTEXT; GUMBO_TAG_RB; GUMBO_TAG_STRIKE; GUMBO_TAG_BASEFONT; GUMBO_TAG_BIG;
    GUMBO_TAG_BLINK; GUMBO_TAG_CENTER; GUMBO_TAG_FONT; GUMBO_TAG_MARQUEE; GUMBO_TAG_MULTICOL;
    GUMBO_TAG_NOBR; GUMBO_TAG_SPACER; GUMBO_TAG_TT; GUMBO_TAG_RTC; GUMBO_TAG_UNKNOWN;
    GUMBO_TAG_LAST].

Definition tag_of (n : nat) : GumboTag := nth n all_tags GUMBO_TAG_LAST.

Lemma tag_of_index t : tag_of (tag_index t) = t.
Proof. by destruct t. Qed.

#[export] Instance GumboTag_eq_dec : EqDecision GumboTag.
Proof.
  intros t1 t2. destruct (decide (tag_index t1 = tag_index t2)) as [E|E].
  - left. rewrite <- (tag_of_index t1), <- (tag_of_index t2). by rewrite E.
  - right. by intros ->.
Defined.

(** * tag.c *)
Definition tolower (c : Z) : Z := if (65 <=? c) && (c <=? 90) then c + 32 else c.
Definition isspace (c : Z) : bool := (c =? 32) || ((9 <=? c) && (c <=? 13)).

Definition gumbo_normalized_tagname (t : GumboTag) : outcome (list Z) :=
  _ ← c_assert (tag_index t <=? tag_index GUMBO_TAG_LAST)%nat;
  load kGumboTagNames (tag_index t).

(** The loop over the name of a start tag: the length up to the first white space
    or slash. *)
Fixpoint tag_name_length (cs : list Z) : nat :=
  match cs with
  | [] => 0
  | c :: cs => if isspace c || (c =? 47) then 0 else S (tag_name_length cs)
  end.

(** A string piece is NULL or its characters. *)
Definition gumbo_tag_from_original_text (text : option (list Z)) : outcome (option (list Z)) :=
  match text with
  | None => Ok None
  | Some data =>
      let length := length data in
      _ ← c_assert (2 <=? length)%nat;
      c0 ← load data 0; _ ← c_assert (c0 =? 60);
      cl ← load data (length - 1); _ ← c_assert (cl =? 62);
      c1 ← load data 1;
      if c1 =? 47 then
        _ ← c_assert (3 <=? length)%nat;
        r ← load_range data 2 (length - 3); Ok (Some r)
      else
        r ← load_range data 1 (length - 2); Ok (Some (take (tag_name_length r) r))
  end.

(** The names are compared in the first [n] characters. *)
Fixpoint case_memcmp (s1 s2 : list Z) (n : nat) : outcome Z :=
  match n with
  | O => Ok 0
  | S n =>
      c1 ← load s1 0; c2 ← load s2 0;
      let c1 := u8 (tolower c1) in let c2 := u8 (tolower c2) in
      if c1 =? c2 then case_memcmp (tail s1) (tail s2) n else Ok (c1 - c2)
  end.

(** [tag_hash]; the characters are bytes and the sum does not wrap. *)
Definition tag_hash (str : list Z) (len : nat) : outcome Z :=
  let hval := Z.of_nat len in
  hval ← (if (len =? 1)%nat then Ok hval
          else c ← load str 1; a ← load asso_values (Z.to_nat (c + 3)); Ok (u32 (hval + a)));
  c ← load str 0; a ← load asso_values (Z.to_nat c);
  let hval := u32 (hval + a) in
  c ← load str (len - 1); a ← load asso_values (Z.to_nat c);
  Ok (u32 (hval + a)).

Definition TAG_MAP_SIZE : Z := Z.of_nat (length kGumboTagMap).

Definition gumbo_tagn_enum (tagname : list Z) (len : nat) : outcome GumboTag :=
  if (len =? 0)%nat then Ok GUMBO_TAG_UNKNOWN
  else
    key ← tag_hash tagname len;
    if key <? TAG_MAP_SIZE then
      tag ← load kGumboTagMap (Z.to_nat key);
      sz ← load kGumboTagSizes (tag_index tag);
      if Z.of_nat len =? sz then
        name ← load kGumboTagNames (tag_index tag);
        r ← case_memcmp tagname name len;
        if r =? 0 then Ok tag else Ok GUMBO_TAG_UNKNOWN
      else Ok GUMBO_TAG_UNKNOWN
    else Ok GUMBO_TAG_UNKNOWN.

(** The argument is a C string, without its terminator. *)
Definition gumbo_tag_enum (tagname : list Z) : outcome GumboTag :=
  gumbo_tagn_enum tagname (length tagname).

(** * The lookup *)
Definition tag_name (t : GumboTag) : list Z := nth (tag_index t) kGumboTagNames [].

(** A tag with a name of its own. *)
Definition named (t : GumboTag) : Prop := (tag_index t < 150)%nat.

#[export] Instance named_dec t : Decision (named t).
Proof. unfold named. apply _. Defined.

(** Everything about the tables that is checked tag by tag or byte by byte. *)
Lemma tables_ok :
  Forall (fun t => load kGumboTagNames (tag_index t) = Ok (tag_name t) /\
                   load kGumboTagSizes (tag_index t) = Ok (Z.of_nat (length (tag_name t))) /\
                   map tolower (tag_name t) = tag_name t) all_tags.
Proof. by_decide. Qed.

Lemma names_found : Forall (fun t => named t -> gumbo_tag_enum (tag_name t) = Ok t) all_tags.
Proof. by_decide. Qed.

Lemma asso_values_case :
  Forall (fun c => load asso_values (Z.to_nat (tolower c)) = load asso_values (Z.to_nat c) /\
                   load asso_values (Z.to_nat (tolower c + 3)) = load asso_values (Z.to_nat (c + 3)) /\
                   u8 (tolower c) = tolower c /\ tolower (tolower c) = tolower c)
    (seqZ 0 256).
Proof. by_decide. Qed.

Lemma forall_tags (P : GumboTag -> Prop) : Forall P all_tags -> forall t, P t.
Proof.
  intros H t. rewrite list.Forall_forall in H. apply H. apply list_elem_of_lookup.
  exists (tag_index t). by destruct t.
Qed.

Lemma forall_bytes (P : Z -> Prop) c : Forall P (seqZ 0 256) -> is_u8 c -> P c.
Proof. intros H Hc. rewrite list.Forall_forall in H. apply H, elem_of_seqZ. unfold is_u8 in Hc. lia. Qed.

Lemma load_map (f : Z -> Z) l i : load (map f l) i = (c ← load l i; Ok (f c)).
Proof. unfold load. rewrite list_lookup_fmap. by destruct (l !! i). Qed.

Lemma load_byte l i :
  Forall is_u8 l -> (i < length l)%nat -> exists c, load l i = Ok c /\ is_u8 c.
Proof.
  intros Hl Hi. destruct (load_lt l i Hi) as (c & Hc & Hc'). exists c. split; [done|].
  by eapply Forall_lookup_1.
Qed.

(** The hash is defined on every string of bytes, small, and blind to case. *)
Lemma tag_hash_ok name :
  Forall is_u8 name -> name <> [] ->
  (exists key, tag_hash name (length name) = Ok key /\ 0 <= key) /\
  tag_hash (map tolower name) (length name) = tag_hash name (length name).
Proof.
  intros Hb Hne. assert (Hl : (0 < length name)%nat) by (destruct name; [done|simpl; lia]).
  assert (HA : forall i, (i < 259)%nat -> exists a, load asso_values i = Ok a).
  { intros i Hi. destruct (load_lt asso_values i) as (a & Ha & _); [exact Hi|]. eauto. }
  destruct (load_byte name 0 Hb Hl) as (c0 & Hc0 & Hu0).
  destruct (load_byte name (length name - 1) Hb ltac:(lia)) as (cl & Hcl & Hul).
  destruct (HA (Z.to_nat c0)) as (a0 & Ha0); [unfold is_u8 in Hu0; lia|].
  destruct (HA (Z.to_nat cl)) as (al & Hal); [unfold is_u8 in Hul; lia|].
  destruct (forall_bytes _ _ asso_values_case Hu0) as (Hlow0 & _).
  destruct (forall_bytes _ _ asso_values_case Hul) as (Hlowl & _).
  assert (HT : forall (m1 m2 : outcome Z) h, m1 = Ok h -> m2 = Ok h ->
    (hval ← m1; c ← load (map tolower name) 0; a ← load asso_values (Z.to_nat c);
     let hval := u32 (hval + a) in
     c ← load (map tolower name) (length name - 1); a ← load asso_values (Z.to_nat c); Ok (u32 (hval + a))) =
       Ok (u32 (u32 (h + a0) + al)) /\
    (hval ← m2; c ← load name 0; a ← load asso_values (Z.to_nat c);
     let hval := u32 (hval + a) in
     c ← load name (length name - 1); a ← load asso_values (Z.to_nat c); Ok (u32 (hval + a))) =
       Ok (u32 (u32 (h + a0) + al))).
  { intros m1 m2 h -> ->. rewrite !bind_Ok, !load_map, Hc0, !bind_Ok, Hlow0, Ha0, !bind_Ok. cbv zeta.
    by rewrite Hcl, !bind_Ok, Hlowl, Hal. }
  assert (HM : exists h,
    (if (length name =? 1)%nat then Ok (Z.of_nat (length name))
     else c ← load (map tolower name) 1; a ← load asso_values (Z.to_nat (c + 3)); Ok (u32 (Z.of_nat (length name) + a))) = Ok h /\
    (if (length name =? 1)%nat then Ok (Z.of_nat (length name))
     else c ← load name 1; a ← load asso_values (Z.to_nat (c + 3)); Ok (u32 (Z.of_nat (length name) + a))) = Ok h).
  { destruct (Nat.eqb_spec (length name) 1) as [E|E]; [by eauto|].
    destruct (load_byte name 1 Hb ltac:(lia)) as (c1 & Hc1 & Hu1). rewrite load_map, Hc1, !bind_Ok.
    destruct (forall_bytes _ _ asso_values_case Hu1) as (_ & -> & _).
    destruct (HA (Z.to_nat (c1 + 3))) as (a1 & ->); [unfold is_u8 in Hu1; lia|]. by eauto. }
  destruct HM as (h & HM1 & HM2). destruct (HT _ _ _ HM1 HM2) as [HT1 HT2].
  unfold tag_hash. cbv zeta in *. rewrite HT1, HT2. split; [|done].
  eexists. split; [reflexivity|]. apply Z.mod_pos_bound; lia.
Qed.

Lemma case_memcmp_ok s1 s2 :
  Forall is_u8 s1 -> Forall is_u8 s2 -> length s1 = length s2 ->
  exists r, case_memcmp s1 s2 (length s1) = Ok r /\ (r = 0 <-> map tolower s1 = map tolower s2).
Proof.
  intros H1. revert s2; induction H1 as [|c1 s1 Hc1 H1 IH]; intros [|c2 s2] H2 Hlen; try done.
  { by exists 0. }
  apply Forall_cons_1 in H2 as [Hc2 H2]. injection Hlen as Hlen. cbn [length case_memcmp map].
  change (load (c1 :: s1) 0) with (Ok c1). change (load (c2 :: s2) 0) with (Ok c2). rewrite !bind_Ok.
  destruct (forall_bytes _ _ asso_values_case Hc1) as (_ & _ & -> & _).
  destruct (forall_bytes _ _ asso_values_case Hc2) as (_ & _ & -> & _).
  destruct (Z.eqb_spec (tolower c1) (tolower c2)) as [E|E].
  - destruct (IH s2 H2 Hlen) as (r & Hr & Hiff). exists r. split; [done|]. rewrite E, Hiff.
    split; [by intros ->|by intros [=]].
  - exists (tolower c1 - tolower c2). split; [done|]. split; [lia|]. intros [=]; lia.
Qed.

Lemma tag_name_bytes t : Forall is_u8 (tag_name t).
Proof. apply (forall_tags (fun t => Forall is_u8 (tag_name t))). by_decide. Qed.

Lemma map_tag_index : Forall (fun t => (tag_index t < 152)%nat) kGumboTagMap.
Proof. by_decide. Qed.

(** The lookup is defined; a tag it finds has the name that was looked up. *)
Lemma gumbo_tag_enum_sound name :
  Forall is_u8 name ->
  exists t, gumbo_tag_enum name = Ok t /\ (t = GUMBO_TAG_UNKNOWN \/ map tolower name = tag_name t).
Proof.
  intros Hb. unfold gumbo_tag_enum, gumbo_tagn_enum. destruct name as [|c name]; [by eauto|].
  set (s := c :: name) in *. change (length s =? 0)%nat with false. cbv iota.
  destruct (tag_hash_ok s Hb ltac:(done)) as [(key & -> & Hkey) _]. rewrite bind_Ok.
  destruct (Z.ltb_spec key TAG_MAP_SIZE) as [Hlt|]; [|by eauto]. unfold TAG_MAP_SIZE in Hlt.
  destruct (load_lt kGumboTagMap (Z.to_nat key)) as (t & -> & _); [lia|]. rewrite bind_Ok.
  destruct (forall_tags _ tables_ok t) as (Hname & Hsize & Hlow). rewrite Hsize, bind_Ok.
  destruct (Z.eqb_spec (Z.of_nat (length s)) (Z.of_nat (length (tag_name t)))) as [Hl|]; [|by eauto].
  rewrite Hname, bind_Ok.
  destruct (case_memcmp_ok s (tag_name t) Hb (tag_name_bytes t)) as (r & -> & Hr); [lia|].
  rewrite bind_Ok. destruct (Z.eqb_spec r 0) as [->|]; [|by eauto].
  exists t. split; [done|]. right. rewrite <- Hlow. by apply Hr.
Qed.

Lemma case_memcmp_lower s1 s2 n :
  Forall is_u8 s1 -> case_memcmp (map tolower s1) s2 n = case_memcmp s1 s2 n.
Proof.
  revert s1 s2; induction n as [|n IH]; intros [|c1 s1] s2 H; try done. cbn [case_memcmp map].
  apply Forall_cons_1 in H as [Hc H].
  change (load (tolower c1 :: map tolower s1) 0) with (Ok (tolower c1)).
  change (load (c1 :: s1) 0) with (Ok c1). rewrite !bind_Ok.
  destruct (load s2 0); [|done|done]. rewrite !bind_Ok.
  destruct (forall_bytes _ _ asso_values_case Hc) as (_ & _ & _ & ->). cbn [tail]. by rewrite IH.
Qed.

Lemma gumbo_tag_enum_lower name :
  Forall is_u8 name -> gumbo_tag_enum (map tolower name) = gumbo_tag_enum name.
Proof.
  intros Hb. unfold gumbo_tag_enum, gumbo_tagn_enum. destruct name as [|c name]; [done|].
  set (s := c :: name) in *. rewrite length_map.
  destruct (tag_hash_ok s Hb ltac:(done)) as [_ ->]. change (length s =? 0)%nat with false. cbv iota.
  destruct (tag_hash s (length s)); [|done|done]. rewrite !bind_Ok. case_match; [|done].
  destruct (load kGumboTagMap _); [|done|done]. rewrite !bind_Ok.
  destruct (load kGumboTagSizes _); [|done|done]. rewrite !bind_Ok. case_match; [|done].
  destruct (load kGumboTagNames _); [|done|done]. rewrite !bind_Ok. by rewrite case_memcmp_lower.
Qed.

(** The perfect hash finds exactly the tags: looking up any string of bytes
    returns without an access out of bounds, the tag whose name it is up to the
    case of letters if there is one, and otherwise [GUMBO_TAG_UNKNOWN]. *)
Theorem gumbo_tag_enum_spec (name : list Z) (Hb : Forall is_u8 name) :
  exists t, gumbo_tag_enum name = Ok t /\
    (forall t', named t' -> t = t' <-> map tolower name = tag_name t') /\
    (named t \/ t = GUMBO_TAG_UNKNOWN).
Proof.
  destruct (gumbo_tag_enum_sound name Hb) as (t & Ht & Hor). exists t. split; [done|].
  assert (Hback : forall t', named t' -> map tolower name = tag_name t' -> t = t').
  { intros t' Hn E. apply (forall_tags _ names_found t') in Hn.
    rewrite <- E, gumbo_tag_enum_lower, Ht in Hn by done. congruence. }
  destruct Hor as [->|E].
  - split; [|by right]. intros t' Hn. split; [|by apply Hback]. intros <-.
    unfold named in Hn. vm_compute in Hn. lia.
  - assert (Hcase : named t \/ map tolower name = []).
    { rewrite E. apply (forall_tags (fun t => named t \/ tag_name t = [])). by_decide. }
    destruct Hcase as [Hn|Hnil].
    + split; [|by left]. intros t' Hn'. split; [by intros <-|by apply Hback].
    + destruct name; [|done]. injection Ht as <-. split; [|by right].
      intros t' Hn. split; [|by apply Hback]. intros <-. unfold named in Hn. vm_compute in Hn. lia.
Qed.

Lemma load_last (l : list Z) x : load (l ++ [x]) (length (l ++ [x]) - 1) = Ok x.
Proof. rewrite length_app, Nat.add_sub. apply load_app. Qed.

Lemma tag_name_length_spec cs :
  Forall (fun x => isspace x = false /\ x <> 47) (take (tag_name_length cs) cs) /\
  (drop (tag_name_length cs) cs = [] \/
   exists x after', drop (tag_name_length cs) cs = x :: after' /\ (isspace x = true \/ x = 47)).
Proof.
  induction cs as [|c cs [IH1 IH2]]; [split; [constructor|by left]|]. cbn [tag_name_length].
  destruct (isspace c || (c =? 47)) eqn:E; cbn [take drop].
  - split; [constructor|]. right. exists c, cs. split; [done|].
    apply orb_true_iff in E. by rewrite Z.eqb_eq in E.
  - apply orb_false_iff in E. rewrite Z.eqb_neq in E. split; [|done]. by constructor.
Qed.

(** The name of an element from its original text: of a start tag, the
    characters between the angle brackets up to the first white space or slash;
    of an end tag, all characters between the slash and the closing bracket, white
    space included. *)
Theorem gumbo_tag_from_original_text_spec (cs : list Z) :
  gumbo_tag_from_original_text (Some ([60; 47] ++ cs ++ [62])) = Ok (Some cs) /\
  (forall c rest, c <> 47 -> cs = c :: rest ->
     exists name after, gumbo_tag_from_original_text (Some (60 :: cs ++ [62])) = Ok (Some name) /\
       cs = name ++ after /\ Forall (fun x => isspace x = false /\ x <> 47) name /\
       (after = [] \/ exists x after', after = x :: after' /\ (isspace x = true \/ x = 47))).
Proof.
  split.
  - unfold gumbo_tag_from_original_text. change ([60; 47] ++ cs ++ [62]) with ((60 :: 47 :: cs) ++ [62]).
    cbv zeta. rewrite load_last, length_app.
    cbn [length]. replace (S (S (length cs)) + 1 - 3)%nat with (length cs) by lia.
    replace (2 <=? _)%nat with true by (symmetry; apply Nat.leb_le; lia).
    replace (3 <=? _)%nat with true by (symmetry; apply Nat.leb_le; lia).
    rewrite (at_off_load_range _ 2 cs) by (by exists [60; 47], [62]). done.
  - intros c rest Hc Hcs.
    exists (take (tag_name_length cs) cs), (drop (tag_name_length cs) cs).
    split; [|split; [by rewrite take_drop|apply tag_name_length_spec]].
    unfold gumbo_tag_from_original_text. cbv zeta. rewrite app_comm_cons, load_last, length_app.
    cbn [length]. replace (2 <=? _)%nat with true by (symmetry; apply Nat.leb_le; lia).
    replace (S (length cs) + 1 - 2)%nat with (length cs) by lia.
    change (load ((60 :: cs) ++ [62]) 0) with (Ok 60).
    assert (load ((60 :: cs) ++ [62]) 1 = Ok c) as -> by (by rewrite Hcs).
    cbn [c_assert]. rewrite !bind_Ok. cbn [c_assert Z.eqb Pos.eqb]. rewrite !bind_Ok.
    replace (c =? 47) with false by (symmetry; by apply Z.eqb_neq).
    by rewrite (at_off_load_range _ 1 cs) by (by exists [60], [62]).
Qed.

Lemma gumbo_tag_enum_spec_witness :
  exists t, gumbo_tag_enum [83; 99; 82; 73; 112; 116] = Ok t /\
    (forall t', named t' -> t = t' <-> map tolower [83; 99; 82; 73; 112; 116] = tag_name t') /\
    (named t \/ t = GUMBO_TAG_UNKNOWN).
Proof. apply gumbo_tag_enum_spec. by repeat constructor. Defined.

End Tags.
