(* ===== verification/Crawl.v ===== *)
(** src/tool.c, the crawler: collecting a fetched page, extracting its text from
    the parse tree, and cutting the text into words.

    The parse tree is the one gumbo builds (gumbo.h); gumbo_parse itself, curl and
    ICU are outside this file: ICU's conversions and character classes are
    parameters, its word break iterator an interface with its documented
    behaviour. *)
From S2P Require Import Prelude Buff GumboTags.
Import Buff Tags.

Module Crawl.

(** * The parse tree of gumbo.h *)
Inductive GumboNode :=
| NODE_DOCUMENT (children : list GumboNode)
| NODE_ELEMENT (tag : GumboTag) (children : list GumboNode)
| NODE_TEXT (text : list Z)
| NODE_CDATA (text : list Z)
| NODE_COMMENT (text : list Z)
| NODE_WHITESPACE (text : list Z)
| NODE_TEMPLATE (tag : GumboTag) (children : list GumboNode).

Section with_junk.
Context (junk : nat -> Z).

(** * crawl_parse *)

(** The loop over the children; [k] is the loop variable. *)
Fixpoint crawl_children (real : GumboNode -> buff_t -> outcome buff_t) (k : nat)
  (children : list GumboNode) (b : buff_t) : outcome buff_t :=
  match children with
  | [] => Ok b
  | c :: children =>
      b ← (if (0 <? k)%nat && negb (size b =? 0) then buff_cat junk b (Some [32]) else Ok b);
      b ← real c b;
      crawl_children real (S k) children b
  end.

Fixpoint crawl_parse_real (node : GumboNode) (b : buff_t) : outcome buff_t :=
  match node with
  | NODE_TEXT text => buff_cat junk b (Some text)
  | NODE_ELEMENT tag children =>
      if negb (bool_decide (tag = GUMBO_TAG_SCRIPT)) && negb (bool_decide (tag = GUMBO_TAG_STYLE))
      then crawl_children crawl_parse_real 0 children b
      else Ok b
  | _ => Ok b
  end.

(** * crawl_fetch *)

(** The callback given to curl: the buffer and the number of bytes consumed. *)
Definition crawl_fetch_data (content : list Z) (sz nmemb : Z) (b : buff_t) : outcome (buff_t * Z) :=
  let rsize := u64 (sz * nmemb) in
  b ← buff_catn junk b (Some content) rsize;
  Ok (b, rsize).

(** ** The text of a page *)

(** The texts shown by a node, in document order. *)
Fixpoint leaves (node : GumboNode) : list (list Z) :=
  match node with
  | NODE_TEXT text => [text]
  | NODE_ELEMENT tag children =>
      if decide (tag = GUMBO_TAG_SCRIPT \/ tag = GUMBO_TAG_STYLE) then []
      else (fix go ns := match ns with [] => [] | n :: ns => leaves n ++ go ns end) children
  | _ => []
  end.

(** What the buffer holds after a node, from what it held before: the texts, and a
    blank before every child of an element but the first, unless the buffer is empty. *)
Fixpoint render (node : GumboNode) (held : list Z) : list Z :=
  match node with
  | NODE_TEXT text => held ++ text
  | NODE_ELEMENT tag children =>
      if decide (tag = GUMBO_TAG_SCRIPT \/ tag = GUMBO_TAG_STYLE) then held
      else (fix go (first : bool) ns held :=
              match ns with
              | [] => held
              | n :: ns => go false ns (render n (if first || bool_decide (held = []) then held else held ++ [32]))
              end) true children held
  | _ => held
  end.

(** [out] is the texts [ls] with nothing but blanks between them. *)
Inductive spaced : list (list Z) -> list Z -> Prop :=
| spaced_nil : spaced [] []
| spaced_blank ls out : spaced ls out -> spaced ls (out ++ [32])
| spaced_text ls l out : spaced ls out -> spaced (ls ++ [l]) (out ++ l).

(** An upper bound for the text. *)
Fixpoint weight (node : GumboNode) : nat :=
  match node with
  | NODE_TEXT text => length text
  | NODE_ELEMENT tag children =>
      (fix go ns := match ns with [] => 0 | n :: ns => S (weight n) + go ns end)%nat children
  | _ => 0
  end.

Definition children_leaves (ns : list GumboNode) : list (list Z) := concat (map leaves ns).
Fixpoint children_weight (ns : list GumboNode) : nat :=
  match ns with [] => 0 | n :: ns => S (weight n) + children_weight ns end%nat.

Fixpoint children_render (first : bool) (ns : list GumboNode) (held : list Z) : list Z :=
  match ns with
  | [] => held
  | n :: ns => children_render false ns (render n (if first || bool_decide (held = []) then held else held ++ [32]))
  end.

Lemma render_element tag ns held :
  render (NODE_ELEMENT tag ns) held =
  if decide (tag = GUMBO_TAG_SCRIPT \/ tag = GUMBO_TAG_STYLE) then held else children_render true ns held.
Proof.
  cbn [render]. case_decide; [done|]. generalize true. revert held.
  induction ns as [|n ns IH]; intros held first; [done|]. cbn. apply IH.
Qed.

Lemma leaves_element tag ns :
  leaves (NODE_ELEMENT tag ns) =
  if decide (tag = GUMBO_TAG_SCRIPT \/ tag = GUMBO_TAG_STYLE) then [] else children_leaves ns.
Proof.
  cbn [leaves]. case_decide; [done|]. unfold children_leaves.
  induction ns as [|n ns IH]; [done|]. cbn. by rewrite IH.
Qed.

Lemma weight_element tag ns : weight (NODE_ELEMENT tag ns) = children_weight ns.
Proof.
  induction ns as [|n ns IH]; [done|]. cbn in *. by rewrite <- IH.
Qed.

(** Induction over a tree with the hypothesis for all children. *)
Lemma node_ind' (P : GumboNode -> Prop) :
  (forall t, P (NODE_TEXT t)) ->
  (forall tag ns, Forall P ns -> P (NODE_ELEMENT tag ns)) ->
  (forall n, leaves n = [] -> weight n = 0%nat -> (forall b, crawl_parse_real n b = Ok b) -> (forall held, render n held = held) -> P n) ->
  forall n, P n.
Proof.
  intros Ht He Ho. fix IH 1. intros [ns|tag ns|t|t|t|t|tag ns]; try (by apply Ho); [|apply Ht].
  apply He. induction ns as [|n ns IHns]; constructor; [apply IH|apply IHns].
Qed.

(** A buffer whose capacity follows its contents. *)
Definition tight (b : buff_t) : Prop := buff_ok b /\ cap b <= 4 * size b + 2.

Lemma tight_cat b s :
  tight b -> size b + Z.of_nat (length s) <= 2 ^ 28 ->
  exists b', buff_cat junk b (Some s) = Ok b' /\ tight b' /\ contents b' = contents b ++ s /\
    size b' = size b + Z.of_nat (length s).
Proof.
  intros [Hb Hc] Hlen. destruct (buff_cat_ok junk b (Some s) Hb) as (b' & H1 & H2 & H3 & H4 & H5);
    [cbn; lia|]. cbn [default] in *. exists b'. split_and!; try done. split; [done|]. cbn in *. lia.
Qed.

(** What a traversal does to the buffer. *)
Definition appends (b b' : buff_t) (ls : list (list Z)) (n : nat) : Prop :=
  tight b' /\ exists out, contents b' = contents b ++ out /\ spaced ls out /\
    size b' = size b + Z.of_nat (length out) /\ (length out <= n)%nat.

Lemma spaced_app ls1 ls2 o1 o2 : spaced ls1 o1 -> spaced ls2 o2 -> spaced (ls1 ++ ls2) (o1 ++ o2).
Proof.
  intros H1 H2. induction H2 as [|ls out H2 IH|ls l out H2 IH].
  - by rewrite !app_nil_r.
  - rewrite app_assoc. by constructor.
  - rewrite !app_assoc. by constructor.
Qed.

Lemma appends_trans b b1 b2 ls1 ls2 n1 n2 :
  appends b b1 ls1 n1 -> appends b1 b2 ls2 n2 -> appends b b2 (ls1 ++ ls2) (n1 + n2).
Proof.
  intros (Ht1 & o1 & Hc1 & Hs1 & Hz1 & Hl1) (Ht2 & o2 & Hc2 & Hs2 & Hz2 & Hl2).
  split; [done|]. exists (o1 ++ o2). rewrite length_app.
  split_and!; [by rewrite Hc2, Hc1, app_assoc|by apply spaced_app|lia|lia].
Qed.

Definition node_ok (n : GumboNode) : Prop :=
  forall b, tight b -> size b + Z.of_nat (weight n) <= 2 ^ 28 ->
  exists b', crawl_parse_real n b = Ok b' /\ appends b b' (leaves n) (weight n) /\ contents b' = render n (contents b).

Lemma contents_nil b : tight b -> bool_decide (contents b = []) = (size b =? 0).
Proof.
  intros [Hb _]. assert (Hl : Z.of_nat (length (contents b)) = size b).
  { unfold buff_ok in Hb. unfold contents. rewrite length_take. lia. }
  destruct (Z.eqb_spec (size b) 0) as [E|E].
  - apply bool_decide_true, nil_length_inv. lia.
  - apply bool_decide_false. intros Hn. rewrite Hn in Hl. cbn in Hl. lia.
Qed.

Lemma crawl_children_ok ns k b :
  Forall node_ok ns -> tight b -> size b + Z.of_nat (children_weight ns) <= 2 ^ 28 ->
  exists b', crawl_children crawl_parse_real k ns b = Ok b' /\
    appends b b' (children_leaves ns) (children_weight ns) /\
    contents b' = children_render (k =? 0)%nat ns (contents b).
Proof.
  intros Hns. revert k b; induction Hns as [|n ns Hn Hns IH]; intros k b Hb Hw.
  { exists b. split; [done|]. split; [|done]. split; [done|]. exists []. rewrite app_nil_r. cbn. split_and!; try done; [constructor|lia]. }
  cbn [children_weight] in Hw |- *.
  cbn [crawl_children].
  assert (Hsep : exists b1,
    (if (0 <? k)%nat && negb (size b =? 0) then buff_cat junk b (Some [32]) else Ok b) = Ok b1 /\
    appends b b1 [] 1 /\
    contents b1 = if (k =? 0)%nat || bool_decide (contents b = []) then contents b else contents b ++ [32]).
  { rewrite (contents_nil b Hb). replace (0 <? k)%nat with (negb (k =? 0)%nat) by (by destruct k).
    rewrite <- negb_orb. destruct (_ || _); cbn [negb].
    - exists b. split; [done|]. split; [|done]. split; [done|]. exists []. rewrite app_nil_r. cbn.
      split_and!; try done; [constructor|lia|lia].
    - destruct (tight_cat b [32] Hb) as (b1 & H1 & H2 & H3 & H4); [cbn; lia|].
      exists b1. split; [done|]. split; [|done]. split; [done|]. exists [32].
      split_and!; try done. apply (spaced_blank [] []). constructor. }
  destruct Hsep as (b1 & -> & Ha1 & Hr1). rewrite bind_Ok. assert (Ha1' := Ha1).
  destruct Ha1' as (Ht1 & o1 & _ & _ & Hz1 & Hl1).
  destruct (Hn b1 Ht1 ltac:(lia)) as (b2 & -> & Ha2 & Hr2). rewrite bind_Ok. assert (Ha2' := Ha2).
  destruct Ha2' as (Ht2 & o2 & _ & _ & Hz2 & Hl2).
  destruct (IH (S k) b2 Ht2 ltac:(lia)) as (b3 & -> & Ha3 & Hr3).
  exists b3. split; [done|]. split; [|by rewrite Hr3, Hr2, Hr1]. pose proof (appends_trans _ _ _ _ _ _ _ (appends_trans _ _ _ _ _ _ _ Ha1 Ha2) Ha3) as Ha.
  unfold children_leaves. cbn [map concat].
  by replace (S (weight n) + children_weight ns)%nat with (1 + weight n + children_weight ns)%nat by lia.
Qed.

Lemma crawl_parse_real_ok n : node_ok n.
Proof.
  induction n as [t|tag ns IH|n Hl Hw Ho Hr] using node_ind'; intros b Hb Hsz.
  - destruct (tight_cat b t Hb Hsz) as (b' & H1 & H2 & H3 & H4). exists b'. split; [done|].
    split; [|done]. split; [done|]. exists t. split_and!; try done. apply (spaced_text [] t []). constructor.
  - rewrite weight_element in *. rewrite leaves_element, render_element. cbn [crawl_parse_real].
    case_decide as Hd.
    + replace (_ && _) with false
        by (symmetry; destruct Hd as [-> | ->]; [done|apply andb_false_r]).
      exists b. split; [done|]. split; [|done]. split; [done|]. exists []. rewrite app_nil_r. cbn.
      split_and!; try done; [constructor|lia|lia].
    + rewrite !bool_decide_false by naive_solver. by apply (crawl_children_ok ns 0).
  - exists b. rewrite Ho, Hl, Hw, Hr. split; [done|]. split; [|done]. split; [done|]. exists []. rewrite app_nil_r. cbn.
    split_and!; try done; [constructor|lia].
Qed.

(** The text of a page: [crawl_parse_real] returns for every parse tree (of
    less than 2^28 characters), and appends to the buffer the texts of the tree in
    document order, outside script and style elements, with one blank before every
    child of an element but the first, unless the buffer is empty. *)
Theorem crawl_parse_real_spec (n : GumboNode) (b : buff_t) (Hb : tight b)
  (Hsz : size b + Z.of_nat (weight n) <= 2 ^ 28) :
  exists b' out, crawl_parse_real n b = Ok b' /\ tight b' /\
    contents b' = contents b ++ out /\ contents b' = render n (contents b) /\ spaced (leaves n) out.
Proof.
  destruct (crawl_parse_real_ok n b Hb Hsz) as (b' & H1 & (H2 & out & H3 & H4 & _) & H5). by exists b', out.
Qed.

End with_junk.

(** * The tokenizer *)

(** ICU's break iterator: [all_bounds] are the boundaries behind the start of the
    text, [rest_bounds] those the next calls return; -1 is UBRK_DONE. *)
Class UBreakIterator (I : Type) := {
  ubrk_first : I -> Z * I;
  ubrk_next : I -> Z * I;
  all_bounds : I -> list Z;
  rest_bounds : I -> list Z;
  ubrk_first_spec i : (ubrk_first i).1 = 0 /\ rest_bounds (ubrk_first i).2 = all_bounds i;
  ubrk_next_spec i : (ubrk_next i).1 = default (-1) (head (rest_bounds i)) /\
    rest_bounds (ubrk_next i).2 = tail (rest_bounds i)
}.

Section tokenizer.
Context {I : Type} `{!UBreakIterator I}.
(** ICU: character classes, and the conversions from and to the default codepage;
    [u_austrncpy s n] are the at most [n] bytes for the characters [s]. *)
Context (u_ispunct u_isspace : Z -> bool).
Context (u_uastrcpy : list Z -> list Z).
Context (u_austrncpy : list Z -> nat -> list Z).

Record tokenizer_t := Tokenizer { str : list Z; boundary : I; start : Z; end_ : Z }.

(** [tokenizer_init]: the block has one [UChar] per byte of the input, into which
    the converted characters and their terminator are copied. *)
Definition tokenizer_init (ubrk_open : list Z -> I) (input : list Z) (fresh : list Z) : outcome tokenizer_t :=
  s ← store_range (take (length input) fresh) 0 (u_uastrcpy input ++ [0]);
  Ok (Tokenizer s (ubrk_open s) 0 0).

(** The characters up to a terminator. *)
Fixpoint c_string (s : list Z) : list Z :=
  match s with [] => [] | c :: s => if c =? 0 then [] else c :: c_string s end.

(** The loop that looks for white space in [str[k..end)]; [n] iterations are left. *)
Fixpoint has_space (s : list Z) (k : nat) (n : nat) : outcome bool :=
  match n with
  | O => Ok false
  | S n => c ← load s k; if u_isspace c then Ok true else has_space s (S k) n
  end.

(** [again:] [fuel] bounds the number of segments skipped; [None] when it runs out.
    The result is the word buffer, or nothing for -1. *)
Fixpoint tokenizer_again (fuel : nat) (t : tokenizer_t) (word : list Z) (sz : nat)
  : outcome (option (tokenizer_t * option (list Z))) :=
  match fuel with
  | O => Ok None
  | S fuel =>
      let '(e, bnd) := ubrk_next (boundary t) in
      if e =? -1 then Ok (Some (Tokenizer (str t) bnd (start t) e, None))
      else
        savedEndChar ← load (str t) (Z.to_nat e);
        s ← store (str t) (Z.to_nat e) 0;
        punct ← (if e - start t =? 1 then c ← load s (Z.to_nat (start t)); Ok (u_ispunct c) else Ok false);
        skip ← (if (punct : bool) then Ok true
                else has_space s (Z.to_nat (start t)) (Z.to_nat (e - start t)));
        if (skip : bool) then
          s ← store s (Z.to_nat e) savedEndChar;
          tokenizer_again fuel (Tokenizer s bnd e e) word sz
        else
          word ← store_range word 0 (u_austrncpy (c_string (drop (Z.to_nat (start t)) s)) (sz - 1));
          word ← store word (sz - 1) 0;
          s ← store s (Z.to_nat e) savedEndChar;
          Ok (Some (Tokenizer s bnd e e, Some word))
  end.

Definition tokenizer_next (fuel : nat) (t : tokenizer_t) (word : list Z) (sz : nat)
  : outcome (option (tokenizer_t * option (list Z))) :=
  let t :=
    if end_ t =? 0 then
      let '(st, bnd) := ubrk_first (boundary t) in Tokenizer (str t) bnd st (end_ t)
    else t in
  tokenizer_again fuel t word sz.

(** ** The words of a text *)
Definition segment (cs : list Z) (a e : Z) : list Z :=
  take (Z.to_nat (e - a)) (drop (Z.to_nat a) cs).

Definition skipped (seg : list Z) : bool :=
  match seg with [c] => u_ispunct c || u_isspace c | _ => existsb u_isspace seg end.

(** The next segment that is kept, its end and the boundaries after it. *)
Fixpoint next_word (cs : list Z) (a : Z) (bs : list Z) : option (list Z * Z * list Z) :=
  match bs with
  | [] => None
  | e :: bs => if skipped (segment cs a e) then next_word cs e bs else Some (segment cs a e, e, bs)
  end.

(** Boundaries in increasing order within the text. *)
Fixpoint bounds_ok (n : nat) (a : Z) (bs : list Z) : Prop :=
  match bs with [] => True | e :: bs => a < e <= Z.of_nat n /\ bounds_ok n e bs end.

Hypothesis u_austrncpy_length : forall s n, (length (u_austrncpy s n) <= n)%nat.

Lemma has_space_ok cs post a n :
  (a + n <= length cs)%nat ->
  has_space (cs ++ post) a n = Ok (existsb u_isspace (take n (drop a cs))).
Proof.
  revert a; induction n as [|n IH]; intros a Hn; [done|].
  destruct (lookup_lt_is_Some_2 cs a) as [c Hc]; [lia|]. cbn [has_space].
  rewrite (drop_S _ _ _ Hc). cbn [take existsb].
  assert (load (cs ++ post) a = Ok c) as -> by (unfold load; by rewrite lookup_app_l, Hc by lia).
  rewrite bind_Ok. destruct (u_isspace c); [done|]. apply IH. lia.
Qed.

Lemma c_string_app s post : Forall (fun c => c <> 0) s -> c_string (s ++ 0 :: post) = s.
Proof.
  induction 1 as [|c s Hc Hs IH]; [done|]. cbn.
  replace (c =? 0) with false by (symmetry; by apply Z.eqb_neq). by rewrite IH.
Qed.

(** The word buffer after the copy. *)
Definition filled (word : list Z) (sz : nat) (seg : list Z) : list Z :=
  <[(sz - 1)%nat := 0]> (u_austrncpy seg (sz - 1) ++ drop (length (u_austrncpy seg (sz - 1))) word).

Lemma filled_ok word sz seg :
  length word = sz -> (0 < sz)%nat ->
  (w ← store_range word 0 (u_austrncpy seg (sz - 1)); store w (sz - 1) 0) = Ok (filled word sz seg).
Proof.
  intros Hw Hz. pose proof (u_austrncpy_length seg (sz - 1)) as Hl.
  set (bs := u_austrncpy seg (sz - 1)) in *. unfold filled. fold bs.
  rewrite <- (take_drop (length bs) word) at 1.
  pose proof (store_range_app [] (take (length bs) word) (drop (length bs) word) bs) as HS.
  cbn [app length] in HS. rewrite HS by (rewrite length_take; lia). rewrite bind_Ok.
  unfold store. rewrite decide_True; [done|]. rewrite length_app, length_drop. lia.
Qed.

(** The text with the segment ended by a terminator. *)
Lemma cut_text cs e :
  (e <= length cs)%nat ->
  exists post, <[e := 0]> (cs ++ [0]) = take e cs ++ 0 :: post.
Proof.
  intros He. exists (drop (S e) (cs ++ [0])).
  rewrite insert_take_drop by (rewrite length_app; simpl; lia). by rewrite take_app_le.
Qed.

Lemma segment_take cs a e :
  0 <= a < e -> segment cs a e = drop (Z.to_nat a) (take (Z.to_nat e) cs).
Proof.
  intros H. unfold segment. rewrite List.skipn_firstn_comm. do 2 f_equal. lia.
Qed.

Lemma skip_ok cs a e s :
  0 <= a < e -> e <= Z.of_nat (length cs) -> s = <[Z.to_nat e := 0]> (cs ++ [0]) ->
  (punct ← (if e - a =? 1 then c ← load s (Z.to_nat a); Ok (u_ispunct c) else Ok false);
   if (punct : bool) then Ok true else has_space s (Z.to_nat a) (Z.to_nat (e - a))) =
  Ok (skipped (segment cs a e)).
Proof.
  intros Ha He ->. destruct (cut_text cs (Z.to_nat e)) as [post ->]; [lia|].
  assert (HH : has_space (take (Z.to_nat e) cs ++ 0 :: post) (Z.to_nat a) (Z.to_nat (e - a)) =
    Ok (existsb u_isspace (segment cs a e))).
  { rewrite has_space_ok by (rewrite length_take; lia). rewrite segment_take by lia.
    rewrite take_ge; [done|]. rewrite length_drop, length_take. lia. }
  destruct (Z.eqb_spec (e - a) 1) as [E|E].
  - destruct (lookup_lt_is_Some_2 cs (Z.to_nat a)) as [c Hc]; [lia|].
    assert (Hs : segment cs a e = [c]).
    { unfold segment. replace (Z.to_nat (e - a)) with 1%nat by lia. by rewrite (drop_S _ _ _ Hc). }
    assert (load (take (Z.to_nat e) cs ++ 0 :: post) (Z.to_nat a) = Ok c) as ->.
    { unfold load. rewrite lookup_app_l by (rewrite length_take; lia).
      by rewrite lookup_take_lt, Hc by lia. }
    rewrite !bind_Ok, HH, Hs. cbn. rewrite orb_false_r. by destruct (u_ispunct c).
  - rewrite bind_Ok, HH. unfold skipped.
    destruct (segment cs a e) as [|c [|c' l]] eqn:Es; [done| |done].
    apply (f_equal length) in Es. unfold segment in Es. rewrite length_take, length_drop in Es.
    simpl in Es. lia.
Qed.

Lemma tokenizer_again_ok fuel cs bs t word sz :
  str t = cs ++ [0] -> rest_bounds (boundary t) = bs -> 0 <= start t ->
  bounds_ok (length cs) (start t) bs -> Forall (fun c => c <> 0) cs ->
  length word = sz -> (0 < sz)%nat -> (length bs < fuel)%nat ->
  match next_word cs (start t) bs with
  | None => exists t', tokenizer_again fuel t word sz = Ok (Some (t', None)) /\
      str t' = cs ++ [0] /\ rest_bounds (boundary t') = []
  | Some (seg, e, bs') => exists t',
      tokenizer_again fuel t word sz = Ok (Some (t', Some (filled word sz seg))) /\
      str t' = cs ++ [0] /\ start t' = e /\ end_ t' = e /\ rest_bounds (boundary t') = bs'
  end.
Proof.
  intros Hstr Hrest Ha Hb Hnz Hw Hz. revert t bs Hstr Hrest Ha Hb.
  induction fuel as [|fuel IH]; intros t bs Hstr Hrest Ha Hb Hfuel; [lia|].
  cbn [tokenizer_again]. pose proof (ubrk_next_spec (boundary t)) as [Hn1 Hn2].
  destruct (ubrk_next (boundary t)) as [e bnd]. cbn [fst snd] in Hn1, Hn2. rewrite Hrest in Hn1, Hn2.
  destruct bs as [|e' bs]; cbn in Hn1, Hn2; subst e.
  { exists (Tokenizer (str t) bnd (start t) (-1)). done. }
  destruct Hb as [[Hae Hen] Hb]. cbn [next_word].
  replace (e' =? -1) with false by (symmetry; apply Z.eqb_neq; lia).
  rewrite Hstr. destruct (load_lt (cs ++ [0]) (Z.to_nat e')) as (c & Hc & Hc').
  { rewrite length_app. simpl. lia. }
  rewrite Hc, bind_Ok. assert (Hlt : (Z.to_nat e' < length (cs ++ [0%Z]))%nat) by (by eapply lookup_lt_Some).
  assert (store (cs ++ [0]) (Z.to_nat e') 0 = Ok (<[Z.to_nat e' := 0]> (cs ++ [0]))) as ->
    by (unfold store; by rewrite decide_True).
  rewrite bind_Ok.
  pose proof (skip_ok cs (start t) e' _ ltac:(lia) Hen eq_refl) as HS.
  apply bind_Ok_inv in HS as (punct & -> & HS). rewrite bind_Ok, HS, bind_Ok.
  assert (Hback : store (<[Z.to_nat e' := 0]> (cs ++ [0])) (Z.to_nat e') c = Ok (cs ++ [0])).
  { unfold store. rewrite decide_True by (by rewrite length_insert).
    by rewrite list_insert_insert_eq, list_insert_id. }
  destruct (skipped (segment cs (start t) e')).
  - rewrite Hback, bind_Ok.
    apply (IH (Tokenizer (cs ++ [0]) bnd e' e') bs); cbn [str boundary start]; try done; [lia|].
    cbn in Hfuel. lia.
  - destruct (cut_text cs (Z.to_nat e')) as [post Hcut]; [lia|].
    assert (c_string (drop (Z.to_nat (start t)) (<[Z.to_nat e':=0]> (cs ++ [0]))) = segment cs (start t) e') as ->.
    { rewrite Hcut, drop_app_le by (rewrite length_take; lia). rewrite segment_take by lia.
      apply c_string_app. by apply Forall_drop, Forall_take. }
    pose proof (filled_ok word sz (segment cs (start t) e') Hw Hz) as HF.
    apply bind_Ok_inv in HF as (w & -> & HF). rewrite bind_Ok, HF, bind_Ok, Hback, bind_Ok.
    by eexists.
Qed.

(** [tokenizer_next] returns the next word: from the current position it
    skips the segments that are a single punctuation mark or contain white space,
    copies the first other one into the buffer (converted, cut to its size and
    terminated), or returns -1 if there is none; the text is left as it was, and
    the loop ends after at most one iteration per boundary. *)
Theorem tokenizer_next_spec (fuel : nat) (cs bs : list Z) (t : tokenizer_t) (word : list Z) (sz : nat)
  (Hstr : str t = cs ++ [0]) (Hnz : Forall (fun c => c <> 0) cs)
  (Hpos : (end_ t = 0 /\ all_bounds (boundary t) = bs /\ bounds_ok (length cs) 0 bs) \/
          (end_ t <> 0 /\ 0 <= start t /\ rest_bounds (boundary t) = bs /\ bounds_ok (length cs) (start t) bs))
  (Hw : length word = sz) (Hz : (0 < sz)%nat) (Hfuel : (length bs < fuel)%nat) :
  match next_word cs (if end_ t =? 0 then 0 else start t) bs with
  | None => exists t', tokenizer_next fuel t word sz = Ok (Some (t', None)) /\
      str t' = cs ++ [0] /\ rest_bounds (boundary t') = []
  | Some (seg, e, bs') => exists t',
      tokenizer_next fuel t word sz = Ok (Some (t', Some (filled word sz seg))) /\
      str t' = cs ++ [0] /\ start t' = e /\ end_ t' = e /\ rest_bounds (boundary t') = bs'
  end.
Proof.
  unfold tokenizer_next. destruct Hpos as [(He & Hb & Hok)|(He & Ha & Hb & Hok)].
  - rewrite He. cbn [Z.eqb]. pose proof (ubrk_first_spec (boundary t)) as [H1 H2].
    destruct (ubrk_first (boundary t)) as [st bnd]. cbn [fst snd] in H1, H2. subst st.
    apply (tokenizer_again_ok fuel cs bs (Tokenizer (str t) bnd 0 0) word sz);
      cbn [str boundary start]; try done; congruence.
  - replace (end_ t =? 0) with false by (symmetry; by apply Z.eqb_neq).
    by apply (tokenizer_again_ok fuel cs bs t word sz).
Qed.

(** [tokenizer_init] allocates one character less than it writes: if the
    conversion gives one character per byte, as for ASCII text, the terminator is
    written past the block. *)
Theorem tokenizer_init_overrun (ubrk_open : list Z -> I) (input fresh : list Z)
  (Hconv : length (u_uastrcpy input) = length input) :
  tokenizer_init ubrk_open input fresh = Undef.
Proof.
  unfold tokenizer_init. rewrite store_range_ge; [done|by destruct (u_uastrcpy input)|].
  rewrite length_take, length_app. simpl. lia.
Qed.

End tokenizer.

(** * Concrete runs *)
Definition page : GumboNode :=
  NODE_ELEMENT GUMBO_TAG_HTML [
    NODE_ELEMENT GUMBO_TAG_SCRIPT [NODE_TEXT [120]];
    NODE_ELEMENT GUMBO_TAG_P [NODE_TEXT [72; 105]; NODE_COMMENT [99]; NODE_TEXT [111; 107]]].

Lemma crawl_parse_real_spec_witness :
  exists b' out, crawl_parse_real (fun _ => 0) page buff_empty = Ok b' /\ tight b' /\
    contents b' = contents buff_empty ++ out /\ contents b' = [72; 105; 32; 32; 111; 107] /\
    spaced [[72; 105]; [111; 107]] out.
Proof.
  apply (crawl_parse_real_spec (fun _ => 0) page buff_empty);
    [unfold tight, buff_ok; simpl; lia|vm_compute; congruence].
Defined.

(** An iterator over a list of boundaries. *)
#[local] Instance list_iterator : UBreakIterator (list Z * list Z).
Proof.
  refine {|
    ubrk_first i := (0, (i.1, i.1));
    ubrk_next i := (default (-1) (head i.2), (i.1, tail i.2));
    all_bounds i := i.1; rest_bounds i := i.2
  |}; done.
Defined.

(** The text [ok, hi!]: words, a comma, a blank, an exclamation mark. *)
Definition sample_text : list Z := [111; 107; 44; 32; 104; 105; 33].
Definition punct (c : Z) : bool := (c =? 44) || (c =? 33).
Definition space (c : Z) : bool := c =? 32.

Lemma tokenizer_next_spec_witness :
  exists t', tokenizer_next punct space (fun s n => take n s) 6
      (Tokenizer (sample_text ++ [0]) ([2; 3; 4; 6; 7], [3; 4; 6; 7]) 2 2) (replicate 8 1) 8
      = Ok (Some (t', Some [104; 105; 1; 1; 1; 1; 1; 0])) /\
    str t' = sample_text ++ [0] /\ start t' = 6 /\ end_ t' = 6 /\ rest_bounds (boundary t') = [7].
Proof.
  refine (tokenizer_next_spec punct space (fun s n => take n s) _ 6 sample_text [3; 4; 6; 7]
    (Tokenizer (sample_text ++ [0]) ([2; 3; 4; 6; 7], [3; 4; 6; 7]) 2 2) (replicate 8 1) 8 _ _ _ _ _ _).
  - intros s n. rewrite length_take. lia.
  - reflexivity.
  - by repeat constructor.
  - right. cbn. split_and!; lia || done.
  - reflexivity.
  - lia.
  - cbn. lia.
Defined.

Lemma tokenizer_init_overrun_witness :
  tokenizer_init (fun s => s) (fun _ => (@nil Z, @nil Z)) sample_text (replicate 100 0) = Undef.
Proof. by apply tokenizer_init_overrun. Defined.

End Crawl.
