(* ===== verification/GumboBase.v ===== *)
(** gumbo-parser/src: the containers of the HTML parser (vector.c,
    string_buffer.c, string_piece.c) and the attribute lookup (attribute.c).

    Allocation goes through the parser's allocator (util.c), which is taken to
    return a block of unknown contents [junk]; blocks that are given back are not
    used again.  Pointers stored in vectors are numbers, NULL is 0. *)
From S2P Require Import Prelude GumboTags.

Module GumboBase.

(** [memmove] within a block, counted in elements. *)
Definition memmove {A} (mem : list A) (dst src n : nat) : outcome (list A) :=
  vs ← load_range mem src n; store_range mem dst vs.

Section with_junk.
Context (junk : nat -> Z).

(** util.c, [gumbo_parser_allocate] *)
Definition gumbo_parser_allocate (n : nat) : list Z := map junk (seq 0 n).

(** * vector.c *)
Record GumboVector := Vec { data : option (list Z); length_ : Z; capacity : Z }.

Definition kGumboEmptyVector : GumboVector := Vec None 0 0.

Definition gumbo_vector_init (initial_capacity : Z) : GumboVector :=
  Vec (if 0 <? initial_capacity then Some (gumbo_parser_allocate (Z.to_nat initial_capacity)) else None)
    0 (u32 initial_capacity).

(** Whether the block is given back. *)
Definition gumbo_vector_destroy (v : GumboVector) : bool := 0 <? capacity v.

Definition enlarge_vector_if_full (v : GumboVector) : outcome GumboVector :=
  if capacity v <=? length_ v then
    if negb (capacity v =? 0) then
      old ← of_option (data v);
      let cap := u32 (capacity v * 2) in
      let temp := gumbo_parser_allocate (Z.to_nat cap) in
      bs ← load_range old 0 (Z.to_nat (capacity v));
      temp ← store_range temp 0 bs;
      Ok (Vec (Some temp) (length_ v) cap)
    else Ok (Vec (Some (gumbo_parser_allocate 2)) (length_ v) 2)
  else Ok v.

Definition gumbo_vector_add (element : Z) (v : GumboVector) : outcome GumboVector :=
  v ← enlarge_vector_if_full v;
  match data v with
  | None => AssertFail
  | Some d =>
      _ ← c_assert (length_ v <? capacity v);
      d ← store d (Z.to_nat (length_ v)) element;
      Ok (Vec (Some d) (u32 (length_ v + 1)) (capacity v))
  end.

Definition gumbo_vector_pop (v : GumboVector) : outcome (GumboVector * Z) :=
  if length_ v =? 0 then Ok (v, 0)
  else
    d ← of_option (data v);
    x ← load d (Z.to_nat (length_ v - 1));
    Ok (Vec (data v) (length_ v - 1) (capacity v), x).

(** The loop of [gumbo_vector_index_of]; [n] iterations are left. *)
Fixpoint index_of_from (d : list Z) (element : Z) (i n : nat) : outcome Z :=
  match n with
  | O => Ok (-1)
  | S n => x ← load d i; if x =? element then Ok (s32 (Z.of_nat i)) else index_of_from d element (S i) n
  end.

Definition gumbo_vector_index_of (v : GumboVector) (element : Z) : outcome Z :=
  if length_ v =? 0 then Ok (-1)
  else d ← of_option (data v); index_of_from d element 0 (Z.to_nat (length_ v)).

Definition gumbo_vector_insert_at (element index : Z) (v : GumboVector) : outcome GumboVector :=
  _ ← c_assert (index <=? length_ v);
  v ← enlarge_vector_if_full v;
  d ← of_option (data v);
  let len := u32 (length_ v + 1) in
  d ← memmove d (Z.to_nat (index + 1)) (Z.to_nat index) (Z.to_nat (u32 (len - index - 1)));
  d ← store d (Z.to_nat index) element;
  Ok (Vec (Some d) len (capacity v)).

Definition gumbo_vector_remove_at (index : Z) (v : GumboVector) : outcome (GumboVector * Z) :=
  _ ← c_assert (index <? length_ v);
  d ← of_option (data v);
  result ← load d (Z.to_nat index);
  d ← memmove d (Z.to_nat index) (Z.to_nat (index + 1)) (Z.to_nat (u32 (length_ v - index - 1)));
  Ok (Vec (Some d) (length_ v - 1) (capacity v), result).

Definition gumbo_vector_remove (node : Z) (v : GumboVector) : outcome GumboVector :=
  index ← gumbo_vector_index_of v node;
  if index =? -1 then Ok v
  else '(v, _) ← gumbo_vector_remove_at index v; Ok v.

(** * string_buffer.c *)
Record GumboStringBuffer := SB { sdata : list Z; slength : Z; scapacity : Z }.

Definition kDefaultStringBufferSize : Z := 5.

(** The doubling loop; [fuel] bounds its iterations. *)
Fixpoint grow_capacity (fuel : nat) (new_capacity new_length : Z) : Z :=
  match fuel with
  | O => new_capacity
  | S fuel => if new_capacity <? new_length then grow_capacity fuel (u64 (new_capacity * 2)) new_length
              else new_capacity
  end.

Definition maybe_resize_string_buffer (additional_chars : Z) (b : GumboStringBuffer) : outcome GumboStringBuffer :=
  let new_length := u64 (slength b + additional_chars) in
  let new_capacity := grow_capacity 64 (scapacity b) new_length in
  if negb (new_capacity =? scapacity b) then
    let new_data := gumbo_parser_allocate (Z.to_nat new_capacity) in
    bs ← load_range (sdata b) 0 (Z.to_nat (slength b));
    new_data ← store_range new_data 0 bs;
    Ok (SB new_data (slength b) new_capacity)
  else Ok b.

Definition gumbo_string_buffer_init : GumboStringBuffer :=
  SB (gumbo_parser_allocate (Z.to_nat kDefaultStringBufferSize)) 0 kDefaultStringBufferSize.

Definition gumbo_string_buffer_reserve (min_capacity : Z) (b : GumboStringBuffer) : outcome GumboStringBuffer :=
  maybe_resize_string_buffer (u64 (min_capacity - slength b)) b.

(** The number of continuation bytes and the marker bits of the first byte. *)
Definition codepoint_shape (c : Z) : Z * Z :=
  if c <=? 0x7f then (0, 0) else if c <=? 0x7ff then (1, 0xc0)
  else if c <=? 0xffff then (2, 0xe0) else (3, 0xf0).

(** The continuation bytes, [i] from [num_bytes - 1] down to 0. *)
Fixpoint continuation (c : Z) (n : nat) : list Z :=
  match n with
  | O => []
  | S i => Z.lor 0x80 (Z.land 0x3f (Z.shiftr c (Z.of_nat i * 6))) :: continuation c i
  end.

(** The bytes that a code point is appended as. *)
Definition codepoint_bytes (c : Z) : list Z :=
  let '(num_bytes, prefix) := codepoint_shape c in
  u8 (Z.lor prefix (Z.shiftr c (num_bytes * 6))) :: continuation c (Z.to_nat num_bytes).

Definition gumbo_string_buffer_append_codepoint (c : Z) (b : GumboStringBuffer) : outcome GumboStringBuffer :=
  b ← maybe_resize_string_buffer ((codepoint_shape c).1 + 1) b;
  d ← store_range (sdata b) (Z.to_nat (slength b)) (codepoint_bytes c);
  Ok (SB d (u64 (slength b + Z.of_nat (length (codepoint_bytes c)))) (scapacity b)).

Definition gumbo_string_buffer_append_string (str : list Z) (b : GumboStringBuffer) : outcome GumboStringBuffer :=
  b ← maybe_resize_string_buffer (Z.of_nat (length str)) b;
  d ← store_range (sdata b) (Z.to_nat (slength b)) str;
  Ok (SB d (u64 (slength b + Z.of_nat (length str))) (scapacity b)).

Definition gumbo_string_buffer_to_string (b : GumboStringBuffer) : outcome (list Z) :=
  let buffer := gumbo_parser_allocate (Z.to_nat (u64 (slength b + 1))) in
  bs ← load_range (sdata b) 0 (Z.to_nat (slength b));
  buffer ← store_range buffer 0 bs;
  store buffer (Z.to_nat (slength b)) 0.

Definition gumbo_string_buffer_clear (b : GumboStringBuffer) : GumboStringBuffer :=
  SB (sdata b) 0 (scapacity b).

(** * string_piece.c: a piece is its characters. *)
Definition gumbo_string_equals (str1 str2 : list Z) : bool :=
  (length str1 =? length str2)%nat && bool_decide (str1 = str2).

(** [strncasecmp] stops at a terminator. *)
Fixpoint strncasecmp (s1 s2 : list Z) (n : nat) : outcome Z :=
  match n with
  | O => Ok 0
  | S n =>
      c1 ← load s1 0; c2 ← load s2 0;
      let c1 := Tags.tolower c1 in let c2 := Tags.tolower c2 in
      if c1 =? c2 then if c1 =? 0 then Ok 0 else strncasecmp (tail s1) (tail s2) n
      else Ok (c1 - c2)
  end.

Definition gumbo_string_equals_ignore_case (str1 str2 : list Z) : outcome bool :=
  if (length str1 =? length str2)%nat then r ← strncasecmp str1 str2 (length str1); Ok (r =? 0)
  else Ok false.

Definition gumbo_string_copy (source : list Z) : outcome (list Z) :=
  store_range (gumbo_parser_allocate (length source)) 0 source.

(** * attribute.c *)
Record GumboAttribute := Attr { aname : list Z; avalue : list Z }.

(** [strcasecmp] of C strings, given without their terminators. *)
Definition strcasecmp (s1 s2 : list Z) : outcome Z :=
  strncasecmp (s1 ++ [0]) (s2 ++ [0]) (length s1 + 1).

Fixpoint gumbo_get_attribute (attributes : list GumboAttribute) (name : list Z) : outcome (option GumboAttribute) :=
  match attributes with
  | [] => Ok None
  | attr :: attributes =>
      r ← strcasecmp (aname attr) name;
      if r =? 0 then Ok (Some attr) else gumbo_get_attribute attributes name
  end.

(** * Vectors as lists *)

(** The vector holds [l]. *)
Definition vec_ok (v : GumboVector) (l : list Z) : Prop :=
  length_ v = Z.of_nat (length l) /\ 0 <= capacity v < 2 ^ 32 /\
  match data v with
  | None => capacity v = 0 /\ l = []
  | Some d => Z.of_nat (length d) = capacity v /\ at_off d 0 l
  end.

Lemma length_allocate n : length (gumbo_parser_allocate n) = n.
Proof. unfold gumbo_parser_allocate. by rewrite length_map, length_seq. Qed.

Lemma vec_ok_block v l : vec_ok v l -> l <> [] -> exists d, data v = Some d /\
  Z.of_nat (length d) = capacity v /\ at_off d 0 l.
Proof. intros (_ & _ & Hd) Hne. destruct (data v) as [d|]; [by exists d|by destruct Hd]. Qed.

Lemma split_list (l : list Z) n : (n <= length l)%nat -> exists a b, l = a ++ b /\ length a = n.
Proof. intros H. exists (take n l), (drop n l). rewrite take_drop, length_take. split; [done|lia]. Qed.

(** Copying the used part of a block into a larger one. *)
Lemma copy_block (old new l : list Z) n :
  at_off old 0 l -> (length l <= n <= length old)%nat -> (n <= length new)%nat ->
  exists new', (bs ← load_range old 0 n; store_range new 0 bs) = Ok new' /\
    length new' = length new /\ at_off new' 0 l.
Proof.
  intros Hat Hn Hnew. destruct (load_range_lt old 0 n) as (bs & Hbs & Hlb); [lia|].
  rewrite Hbs, bind_Ok. destruct (split_list new n) as (a & b & -> & Ha); [done|].
  exists (bs ++ b). pose proof (store_range_app [] a b bs) as HS. cbn in HS.
  rewrite HS by lia. split_and!; [done|rewrite !length_app; lia|].
  pose proof (at_off_of_range old 0 l n bs Hat Hbs ltac:(lia)) as (pre & post & -> & Hp).
  destruct pre; [|done]. exists [], (post ++ b). split; [cbn; by rewrite <- app_assoc|done].
Qed.

Lemma vec_intro d n c l :
  n = Z.of_nat (length l) -> Z.of_nat (length d) = c -> c < 2 ^ 32 -> at_off d 0 l ->
  vec_ok (Vec (Some d) n c) l.
Proof. intros -> <- Hc Hat. split_and!; cbn [length_ capacity data]; try done; lia. Qed.

Lemma enlarge_empty_ok v :
  capacity v = 0 -> length_ v = 0 ->
  exists v' d, enlarge_vector_if_full v = Ok v' /\ data v' = Some d /\ vec_ok v' [] /\ 0 < capacity v'.
Proof.
  intros Hc Hl. unfold enlarge_vector_if_full. rewrite Hc, Hl. cbn [Z.leb Z.compare negb Z.eqb].
  eexists _, _. split_and!; [reflexivity|reflexivity| |done].
  apply vec_intro; [done|by rewrite length_allocate|done|apply (at_off_prefix [])].
Qed.

Lemma enlarge_ok v l :
  vec_ok v l -> Z.of_nat (length l) < 2 ^ 31 ->
  exists v' d, enlarge_vector_if_full v = Ok v' /\ data v' = Some d /\ vec_ok v' l /\
    Z.of_nat (length l) < capacity v'.
Proof.
  intros Hv Hlt. destruct (decide (capacity v = 0)) as [E0|E0].
  { destruct Hv as (Hl & Hc & Hd). assert (l = []) as ->.
    { destruct (data v) as [d|]; [|by destruct Hd]. destruct Hd as [Hd Hat].
      apply at_off_length in Hat. destruct l; [done|simpl in Hat; lia]. }
    by apply enlarge_empty_ok. }
  destruct Hv as (Hl & Hc & Hd). destruct (data v) as [d|] eqn:Ed; [|by destruct Hd].
  destruct Hd as [Hdl Hat]. pose proof (at_off_length _ _ _ Hat).
  unfold enlarge_vector_if_full. rewrite Hl.
  destruct (Z.leb_spec (capacity v) (Z.of_nat (length l))) as [Hle|Hgt].
  - replace (capacity v =? 0) with false by (symmetry; by apply Z.eqb_neq). cbn [negb].
    rewrite Ed. cbn [of_option]. rewrite bind_Ok.
    assert (u32 (capacity v * 2) = capacity v * 2) as -> by (unfold u32; apply Z.mod_small; lia).
    destruct (copy_block d (gumbo_parser_allocate (Z.to_nat (capacity v * 2))) l (Z.to_nat (capacity v)))
      as (new' & Hcp & Hnl & Hnat); [done|lia|rewrite length_allocate; lia|].
    apply bind_Ok_inv in Hcp as (bs & -> & Hst). rewrite bind_Ok, Hst, bind_Ok.
    rewrite length_allocate in Hnl. eexists _, new'. split_and!; [reflexivity|done| |cbn; lia].
    apply vec_intro; [done|lia|lia|done].
  - exists v, d. split_and!; try done. split_and!; try done; try lia. by rewrite Ed.
Qed.

Lemma vector_add_ok v l x :
  vec_ok v l -> Z.of_nat (length l) < 2 ^ 31 ->
  exists v', gumbo_vector_add x v = Ok v' /\ vec_ok v' (l ++ [x]).
Proof.
  intros Hv Hlt. unfold gumbo_vector_add.
  destruct (enlarge_ok v l Hv Hlt) as (v1 & d & -> & Hd & Hv1 & Hcap). rewrite bind_Ok, Hd.
  destruct Hv1 as (Hl & Hc & Hdd). rewrite Hd in Hdd. destruct Hdd as [Hdl Hat]. rewrite Hl.
  replace (Z.of_nat (length l) <? capacity v1) with true by (symmetry; by apply Z.ltb_lt).
  cbn [c_assert]. rewrite bind_Ok, Nat2Z.id.
  destruct (store_push d l x Hat) as (d' & -> & Hdl' & Hat'); [lia|]. rewrite bind_Ok.
  eexists. split; [reflexivity|]. apply vec_intro; [|lia|lia|done].
  rewrite length_app. cbn. unfold u32. rewrite Z.mod_small; lia.
Qed.

Lemma vector_pop_ok v l :
  vec_ok v l ->
  match last l with
  | None => gumbo_vector_pop v = Ok (v, 0)
  | Some x => exists v' l', gumbo_vector_pop v = Ok (v', x) /\ l = l' ++ [x] /\ vec_ok v' l'
  end.
Proof.
  intros Hv. unfold gumbo_vector_pop. destruct l as [|x l _] using rev_ind.
  - destruct Hv as (-> & _). done.
  - rewrite last_snoc. destruct (vec_ok_block v _ Hv) as (d & Hd & Hdl & Hat); [by destruct l|].
    destruct Hv as (Hl & Hc & _). rewrite length_app in Hl. cbn in Hl. rewrite Hl, Hd.
    replace (Z.of_nat (length l + 1) =? 0) with false by (symmetry; apply Z.eqb_neq; lia).
    cbn [of_option]. rewrite bind_Ok.
    replace (Z.to_nat (Z.of_nat (length l + 1) - 1)) with (0 + length l)%nat by lia.
    apply at_off_app in Hat as [Hat1 Hat2]. rewrite (at_off_load _ _ _ _ Hat2), bind_Ok.
    do 2 eexists. split_and!; [reflexivity|done|]. apply vec_intro; [lia|done|lia|done].
Qed.

Lemma index_of_from_ok d l x i n :
  at_off d 0 l -> (i + n = length l)%nat -> Z.of_nat (length l) < 2 ^ 31 ->
  exists r, index_of_from d x i n = Ok r /\
    ((r = -1 /\ forall j, (i <= j)%nat -> l !! j <> Some x) \/
     exists j, (i <= j)%nat /\ r = Z.of_nat j /\ l !! j = Some x /\
       forall k, (i <= k < j)%nat -> l !! k <> Some x).
Proof.
  intros Hat. revert i; induction n as [|n IH]; intros i Hn Hlt; cbn [index_of_from].
  - exists (-1). split; [done|]. left. split; [done|]. intros j Hj.
    rewrite lookup_ge_None_2 by lia. done.
  - destruct (lookup_lt_is_Some_2 l i) as [y Hy]; [lia|].
    assert (load d i = Ok y) as -> by (pose proof (at_off_lookup d 0 l i y Hat Hy) as E; cbn in E; unfold load; by rewrite E).
    rewrite bind_Ok. destruct (Z.eqb_spec y x) as [->|Hne].
    + exists (Z.of_nat i). split; [f_equal; unfold s32; rewrite Z.mod_small; lia|].
      right. exists i. split_and!; try done. lia.
    + destruct (IH (S i)) as (r & -> & Hr); [lia|done|]. exists r. split; [done|].
      destruct Hr as [[-> Hno]|(j & Hj & -> & Hx & Hno)]; [left|right].
      * split; [done|]. intros j Hj. destruct (decide (j = i)) as [->|]; [congruence|]. apply Hno. lia.
      * exists j. split_and!; try done; [lia|]. intros k Hk.
        destruct (decide (k = i)) as [->|]; [congruence|]. apply Hno. lia.
Qed.

Lemma vector_index_of_ok v l x :
  vec_ok v l -> Z.of_nat (length l) < 2 ^ 31 ->
  exists r, gumbo_vector_index_of v x = Ok r /\
    ((r = -1 /\ x ∉ l) \/
     exists j, r = Z.of_nat j /\ l !! j = Some x /\ forall k, (k < j)%nat -> l !! k <> Some x).
Proof.
  intros Hv Hlt. unfold gumbo_vector_index_of. destruct (decide (l = [])) as [->|Hne].
  { destruct Hv as (-> & _). exists (-1). split; [done|]. left. split; [done|]. apply not_elem_of_nil. }
  destruct (vec_ok_block v l Hv Hne) as (d & Hd & Hdl & Hat). destruct Hv as (Hl & Hc & _).
  rewrite Hl, Hd. replace (Z.of_nat (length l) =? 0) with false
    by (symmetry; apply Z.eqb_neq; destruct l; [done|simpl; lia]).
  cbn [of_option]. rewrite bind_Ok, Nat2Z.id.
  destruct (index_of_from_ok d l x 0 (length l)) as (r & Hr & Hor); [done|lia|done|].
  exists r. split; [done|]. destruct Hor as [[-> Hno]|(j & _ & -> & Hx & Hno)]; [left|right].
  - split; [done|]. intros [j Hj]%list_elem_of_lookup. apply (Hno j); [lia|done].
  - exists j. split_and!; try done. intros k Hk. apply Hno. lia.
Qed.

(** Opening and closing a gap. *)
Lemma memmove_up (a m post : list Z) o x :
  exists d, memmove (a ++ m ++ o :: post) (length a + 1) (length a) (length m) = Ok d /\
    store d (length a) x = Ok (a ++ x :: m ++ post).
Proof.
  unfold memmove. rewrite (at_off_load_range _ _ m), bind_Ok by (by exists a, (o :: post)).
  destruct (m ++ [o]) as [|h t] eqn:E; [by destruct m|].
  assert (Ht : length t = length m) by (apply (f_equal length) in E; rewrite length_app in E; simpl in E; lia).
  assert (a ++ m ++ o :: post = (a ++ [h]) ++ t ++ post) as ->.
  { rewrite (cons_middle o), (app_assoc m), E, <- !app_assoc. done. }
  exists ((a ++ [h]) ++ m ++ post). split.
  - replace (length a + 1)%nat with (length (a ++ [h])) by (by rewrite length_app).
    by apply store_range_app.
  - rewrite <- app_assoc. apply store_app.
Qed.

Lemma memmove_down (a m post : list Z) x :
  exists rest, memmove (a ++ x :: m ++ post) (length a) (length a + 1) (length m) = Ok (a ++ m ++ rest) /\
    length rest = S (length post).
Proof.
  unfold memmove. rewrite (at_off_load_range _ _ m), bind_Ok.
  2: { exists (a ++ [x]), post. rewrite <- app_assoc, length_app. done. }
  destruct (split_list (x :: m ++ post) (length m)) as (old & rest & E & Hold);
    [simpl; rewrite length_app; lia|].
  exists rest. rewrite E. split; [by apply store_range_app|].
  apply (f_equal length) in E. simpl in E. rewrite !length_app in E. lia.
Qed.

Lemma vector_insert_at_ok v l x i :
  vec_ok v l -> Z.of_nat (length l) < 2 ^ 31 -> (i <= length l)%nat ->
  exists v', gumbo_vector_insert_at x (Z.of_nat i) v = Ok v' /\ vec_ok v' (take i l ++ x :: drop i l).
Proof.
  intros Hv Hlt Hi. unfold gumbo_vector_insert_at. assert (Hl0 := proj1 Hv). rewrite Hl0.
  replace (Z.of_nat i <=? Z.of_nat (length l)) with true by (symmetry; apply Z.leb_le; lia).
  cbn [c_assert]. rewrite bind_Ok.
  destruct (enlarge_ok v l Hv Hlt) as (v1 & d & -> & Hd & (Hl & Hc & Hdd) & Hcap).
  rewrite Hd in Hdd. destruct Hdd as [Hdl Hat]. rewrite bind_Ok, Hd. cbn [of_option]. rewrite bind_Ok, Hl.
  destruct Hat as (pre & post & -> & Hpre). destruct pre; [|done]. cbn [app] in *.
  rewrite length_app in Hdl. destruct post as [|o post]; [simpl in Hdl; lia|].
  assert (Hu : u32 (Z.of_nat (length l) + 1) = Z.of_nat (length l) + 1) by (unfold u32; apply Z.mod_small; lia).
  rewrite Hu. cbv zeta.
  assert (Hu2 : u32 (Z.of_nat (length l) + 1 - Z.of_nat i - 1) = Z.of_nat (length (drop i l)))
    by (rewrite length_drop; unfold u32; rewrite Z.mod_small; lia).
  rewrite Hu2, !Nat2Z.id. replace (Z.to_nat (Z.of_nat i + 1)) with (i + 1)%nat by lia.
  destruct (memmove_up (take i l) (drop i l) post o x) as (d' & Hm & Hst).
  rewrite length_take_le in Hm, Hst by done. rewrite app_assoc, take_drop in Hm.
  rewrite Hm, bind_Ok, Hst, bind_Ok. eexists. split; [reflexivity|].
  apply vec_intro; [| |lia|].
  - rewrite length_app. cbn. rewrite length_take, length_drop. lia.
  - rewrite length_app. cbn. rewrite length_app, length_take, length_drop. simpl in Hdl. lia.
  - rewrite app_comm_cons, app_assoc. apply at_off_prefix.
Qed.

Lemma vector_remove_at_ok v l x i :
  vec_ok v l -> Z.of_nat (length l) < 2 ^ 31 -> l !! i = Some x ->
  exists v', gumbo_vector_remove_at (Z.of_nat i) v = Ok (v', x) /\ vec_ok v' (take i l ++ drop (S i) l).
Proof.
  intros Hv Hlt Hi. pose proof (lookup_lt_Some _ _ _ Hi) as Hil.
  destruct (vec_ok_block v l Hv) as (d & Hd & Hdl & Hat); [by destruct l|].
  destruct Hv as (Hl & Hc & _). unfold gumbo_vector_remove_at. rewrite Hl, Hd.
  replace (Z.of_nat i <? Z.of_nat (length l)) with true by (symmetry; apply Z.ltb_lt; lia).
  cbn [c_assert of_option]. rewrite !bind_Ok, Nat2Z.id.
  destruct Hat as (pre & post & -> & Hpre). destruct pre; [|done]. cbn [app] in *.
  assert (load (l ++ post) i = Ok x) as -> by (unfold load; by rewrite (lookup_app_l_Some _ _ _ _ Hi)).
  rewrite bind_Ok.
  assert (Hu2 : u32 (Z.of_nat (length l) - Z.of_nat i - 1) = Z.of_nat (length (drop (S i) l)))
    by (rewrite length_drop; unfold u32; rewrite Z.mod_small; lia).
  rewrite Hu2, !Nat2Z.id. replace (Z.to_nat (Z.of_nat i + 1)) with (i + 1)%nat by lia.
  destruct (memmove_down (take i l) (drop (S i) l) post x) as (rest & Hm & Hrest).
  rewrite length_take_le in Hm by lia.
  assert (Hsplit : l ++ post = take i l ++ x :: drop (S i) l ++ post).
  { rewrite <- (take_drop_middle l i x Hi) at 1. by rewrite <- app_assoc. }
  rewrite Hsplit, Hm, bind_Ok. eexists. split; [reflexivity|]. rewrite length_app in Hdl.
  apply vec_intro; [| |lia|].
  - rewrite length_app, length_take, length_drop. lia.
  - rewrite !length_app, length_take, length_drop. lia.
  - rewrite app_assoc. apply at_off_prefix.
Qed.

(** The vector of the parser is a list: every operation on a vector that
    holds [l] succeeds and does to [l] what its name says; [gumbo_vector_index_of]
    finds the first occurrence, which [gumbo_vector_remove] removes. *)
Theorem gumbo_vector_refines (v : GumboVector) (l : list Z) (x : Z) (Hv : vec_ok v l)
  (Hlen : Z.of_nat (length l) < 2 ^ 31) :
  (exists v', gumbo_vector_add x v = Ok v' /\ vec_ok v' (l ++ [x])) /\
  match last l with
  | None => gumbo_vector_pop v = Ok (v, 0)
  | Some y => exists v' l', gumbo_vector_pop v = Ok (v', y) /\ l = l' ++ [y] /\ vec_ok v' l'
  end /\
  (forall i, (i <= length l)%nat ->
     exists v', gumbo_vector_insert_at x (Z.of_nat i) v = Ok v' /\ vec_ok v' (take i l ++ x :: drop i l)) /\
  (forall i y, l !! i = Some y ->
     exists v', gumbo_vector_remove_at (Z.of_nat i) v = Ok (v', y) /\ vec_ok v' (take i l ++ drop (S i) l)) /\
  (exists v', gumbo_vector_remove x v = Ok v' /\
     (((x ∉ l) /\ v' = v) \/
      exists i, l !! i = Some x /\ (forall k, (k < i)%nat -> l !! k <> Some x) /\
        vec_ok v' (take i l ++ drop (S i) l))).
Proof.
  split_and!; [by apply vector_add_ok|by apply vector_pop_ok|by intros; apply vector_insert_at_ok|
    by intros; apply vector_remove_at_ok|].
  unfold gumbo_vector_remove. destruct (vector_index_of_ok v l x Hv Hlen) as (r & -> & Hr). rewrite bind_Ok.
  destruct Hr as [[-> Hno]|(j & -> & Hx & Hno)]; [exists v; split; [done|by left]|].
  replace (Z.of_nat j =? -1) with false by (symmetry; apply Z.eqb_neq; lia).
  destruct (vector_remove_at_ok v l x j Hv Hlen Hx) as (v' & -> & Hv'). rewrite bind_Ok.
  exists v'. split; [done|]. right. by exists j.
Qed.

(** * String buffers as lists of bytes *)
Definition sb_ok (b : GumboStringBuffer) (l : list Z) : Prop :=
  slength b = Z.of_nat (length l) /\ 1 <= scapacity b <= 2 ^ 62 /\
  Z.of_nat (length (sdata b)) = scapacity b /\ at_off (sdata b) 0 l.

(** The doubling reaches the length that is needed. *)
Lemma grow_capacity_ok fuel c n :
  1 <= c <= 2 ^ 62 -> n <= 2 ^ 61 -> n <= c * 2 ^ Z.of_nat fuel ->
  n <= grow_capacity fuel c n /\ c <= grow_capacity fuel c n <= Z.max c (2 * n).
Proof.
  revert c; induction fuel as [|fuel IH]; intros c Hc Hn Hf; cbn [grow_capacity].
  - cbn in Hf. lia.
  - destruct (Z.ltb_spec c n) as [Hlt|Hge]; [|lia].
    assert (u64 (c * 2) = c * 2) as -> by (unfold u64; apply Z.mod_small; lia).
    destruct (decide (c * 2 <= 2 ^ 62)) as [Hlt2|]; [|lia].
    destruct (IH (c * 2)) as [H1 H2]; [lia|done| |lia].
    rewrite Nat2Z.inj_succ, Z.pow_succ_r in Hf by lia. lia.
Qed.

Lemma resize_ok b l n :
  sb_ok b l -> 0 <= n -> Z.of_nat (length l) + n <= 2 ^ 61 ->
  exists b', maybe_resize_string_buffer n b = Ok b' /\ sb_ok b' l /\
    Z.of_nat (length l) + n <= scapacity b' /\
    scapacity b <= scapacity b' <= Z.max (scapacity b) (2 * (Z.of_nat (length l) + n)).
Proof.
  intros (Hl & Hc & Hd & Hat) Hn Hbig. unfold maybe_resize_string_buffer. rewrite Hl.
  assert (u64 (Z.of_nat (length l) + n) = Z.of_nat (length l) + n) as -> by (unfold u64; apply Z.mod_small; lia).
  destruct (grow_capacity_ok 64 (scapacity b) (Z.of_nat (length l) + n)) as [H1 H2]; [lia|lia| |].
  { change (2 ^ Z.of_nat 64) with (2 ^ 64). lia. }
  cbv zeta. set (nc := grow_capacity 64 _ _) in *. pose proof (at_off_length _ _ _ Hat).
  destruct (Z.eqb_spec nc (scapacity b)) as [E|E]; cbn [negb].
  { exists b. split_and!; [done|done|lia..]. }
  destruct (copy_block (sdata b) (gumbo_parser_allocate (Z.to_nat nc)) l (length l))
    as (new' & Hcp & Hnl & Hnat); [done|lia|rewrite length_allocate; lia|].
  apply bind_Ok_inv in Hcp as (bs & Hbs & Hst). rewrite Nat2Z.id, Hbs, bind_Ok, Hst, bind_Ok.
  rewrite length_allocate in Hnl. eexists. split; [reflexivity|].
  split; [|cbn [scapacity]; lia]. split_and!; cbn [slength scapacity sdata]; try done; lia.
Qed.

(** Writing behind the contents. *)
Lemma sb_write_ok b l str :
  sb_ok b l -> Z.of_nat (length l) + Z.of_nat (length str) <= scapacity b ->
  exists d, store_range (sdata b) (Z.to_nat (slength b)) str = Ok d /\
    sb_ok (SB d (u64 (slength b + Z.of_nat (length str))) (scapacity b)) (l ++ str).
Proof.
  intros (Hl & Hc & Hd & Hat) Hroom. rewrite Hl, Nat2Z.id.
  destruct Hat as (pre & post & Hs & Hpre). destruct pre; [|done]. cbn in Hs.
  rewrite Hs, length_app in Hd. destruct (split_list post (length str)) as (old & rest & -> & Hold); [lia|].
  rewrite Hs, store_range_app by done. eexists. split; [reflexivity|].
  rewrite length_app in Hd. split_and!; cbn [slength scapacity sdata].
  - rewrite length_app. unfold u64. rewrite Z.mod_small; lia.
  - lia.
  - lia.
  - rewrite !length_app. lia.
  - rewrite app_assoc. apply at_off_prefix.
Qed.

Lemma length_codepoint_bytes c : Z.of_nat (length (codepoint_bytes c)) = (codepoint_shape c).1 + 1.
Proof.
  assert (Hcont : forall n, length (continuation c n) = n)
    by (induction n as [|n IH]; [done|cbn; by rewrite IH]).
  unfold codepoint_bytes. destruct (codepoint_shape c) as [n p] eqn:E. cbn [length fst].
  rewrite Hcont. unfold codepoint_shape in E. repeat case_match; simplify_eq; lia.
Qed.

Lemma append_string_ok b l str :
  sb_ok b l -> Z.of_nat (length l) + Z.of_nat (length str) <= 2 ^ 61 ->
  exists b', gumbo_string_buffer_append_string str b = Ok b' /\ sb_ok b' (l ++ str).
Proof.
  intros Hb Hbig. unfold gumbo_string_buffer_append_string.
  destruct (resize_ok b l (Z.of_nat (length str)) Hb) as (b1 & -> & Hb1 & Hcap); [lia|lia|].
  rewrite bind_Ok. destruct (sb_write_ok b1 l str Hb1) as (d & -> & Hd); [lia|]. rewrite bind_Ok. by eexists.
Qed.

Lemma append_codepoint_ok b l c :
  sb_ok b l -> Z.of_nat (length l) + 4 <= 2 ^ 61 ->
  exists b', gumbo_string_buffer_append_codepoint c b = Ok b' /\ sb_ok b' (l ++ codepoint_bytes c).
Proof.
  intros Hb Hbig. unfold gumbo_string_buffer_append_codepoint.
  pose proof (length_codepoint_bytes c) as Hl.
  assert (0 <= (codepoint_shape c).1 <= 3) by (unfold codepoint_shape; repeat case_match; cbn; lia).
  destruct (resize_ok b l ((codepoint_shape c).1 + 1) Hb) as (b1 & -> & Hb1 & Hcap); [lia|lia|].
  rewrite bind_Ok. destruct (sb_write_ok b1 l (codepoint_bytes c) Hb1) as (d & -> & Hd); [lia|].
  rewrite bind_Ok. by eexists.
Qed.

(** The string buffer is a growing list of bytes: appending a string or a code
    point appends its bytes, whatever the capacity, and [to_string] gives the
    contents with a terminator. *)
Theorem gumbo_string_buffer_refines (b : GumboStringBuffer) (l str : list Z) (c : Z) (Hb : sb_ok b l)
  (Hbig : Z.of_nat (length l) + Z.of_nat (length str) + 4 <= 2 ^ 61) :
  (exists b', gumbo_string_buffer_append_string str b = Ok b' /\ sb_ok b' (l ++ str)) /\
  (exists b', gumbo_string_buffer_append_codepoint c b = Ok b' /\ sb_ok b' (l ++ codepoint_bytes c)) /\
  gumbo_string_buffer_to_string b = Ok (l ++ [0]) /\
  sb_ok (gumbo_string_buffer_clear b) [].
Proof.
  split_and!; [apply append_string_ok; [done|lia]|apply append_codepoint_ok; [done|lia]| |].
  - destruct Hb as (Hl & Hc & Hd & Hat). unfold gumbo_string_buffer_to_string. rewrite Hl.
    assert (u64 (Z.of_nat (length l) + 1) = Z.of_nat (length l) + 1) as -> by (unfold u64; apply Z.mod_small; lia).
    rewrite Nat2Z.id, (at_off_load_range _ _ _ Hat), bind_Ok.
    destruct (split_list (gumbo_parser_allocate (Z.to_nat (Z.of_nat (length l) + 1))) (length l))
      as (x & y & E & Hx); [rewrite length_allocate; lia|].
    pose proof (length_allocate (Z.to_nat (Z.of_nat (length l) + 1))) as Hal. rewrite E in Hal |- *.
    rewrite length_app in Hal. pose proof (store_range_app [] x y l Hx) as HS. cbn in HS.
    rewrite HS, bind_Ok. destruct y as [|o [|o' y]]; simpl in Hal; [lia| |lia]. apply store_app.
  - destruct Hb as (Hl & Hc & Hd & Hat). split_and!; cbn; try done; try lia.
    by exists [], (sdata b).
Qed.

End with_junk.

(** * Concrete runs *)
Lemma gumbo_vector_refines_witness :
  exists v', gumbo_vector_remove 7 (Vec (Some [5; 7; 9; 7]) 4 4) = Ok v' /\ vec_ok v' [5; 9; 7].
Proof.
  destruct (gumbo_vector_refines (fun _ => 0) (Vec (Some [5; 7; 9; 7]) 4 4) [5; 7; 9; 7] 7)
    as (_ & _ & _ & _ & (v' & H1 & H2)); [|cbn; lia|].
  - split_and!; cbn; [done|lia|lia|]. split; [done|apply at_off_refl].
  - exists v'. split; [exact H1|]. destruct H2 as [[H2 _]|(i & Hi & Hno & H2)].
    + destruct H2. apply list_elem_of_lookup. by exists 1%nat.
    + destruct i as [|[|i]]; [done|exact H2|]. exfalso. by apply (Hno 1%nat); [lia|].
Defined.

Lemma gumbo_string_buffer_refines_witness :
  exists b', gumbo_string_buffer_append_codepoint (fun _ => 0) 0x20ac (gumbo_string_buffer_init (fun _ => 0)) = Ok b' /\
    sb_ok b' [0xe2; 0x82; 0xac].
Proof.
  destruct (gumbo_string_buffer_refines (fun _ => 0) (gumbo_string_buffer_init (fun _ => 0)) [] [] 0x20ac)
    as (_ & H & _); [|cbn; lia|exact H].
  split_and!; cbn; try done; try lia. by exists [], [0; 0; 0; 0; 0].
Defined.

End GumboBase.
