(* ===== verification/Utf8.v ===== *)
(** gumbo-parser/src/utf8.c: the UTF-8 decoder and the iterator over the code
    points of the input, with the data of the error list (error.h) it adds to.

    The input is a list of bytes; pointers into it are offsets.  The error list of
    the parser and the two options used, [tab_stop] and [max_errors], travel with
    the iterator. *)
From S2P Require Import Prelude GumboTags GumboBase.
Import GumboBase.

Module Utf8.

(** * error.h *)
Inductive GumboErrorType :=
| GUMBO_ERR_UTF8_INVALID | GUMBO_ERR_UTF8_TRUNCATED
| GUMBO_ERR_UTF8_NULL | GUMBO_ERR_NUMERIC_CHAR_REF_NO_DIGITS
| GUMBO_ERR_NUMERIC_CHAR_REF_WITHOUT_SEMICOLON | GUMBO_ERR_NUMERIC_CHAR_REF_INVALID
| GUMBO_ERR_NAMED_CHAR_REF_WITHOUT_SEMICOLON | GUMBO_ERR_NAMED_CHAR_REF_INVALID
| GUMBO_ERR_TAG_STARTS_WITH_QUESTION | GUMBO_ERR_TAG_EOF
| GUMBO_ERR_TAG_INVALID | GUMBO_ERR_CLOSE_TAG_EMPTY
| GUMBO_ERR_CLOSE_TAG_EOF | GUMBO_ERR_CLOSE_TAG_INVALID
| GUMBO_ERR_SCRIPT_EOF | GUMBO_ERR_ATTR_NAME_EOF
| GUMBO_ERR_ATTR_NAME_INVALID | GUMBO_ERR_ATTR_DOUBLE_QUOTE_EOF
| GUMBO_ERR_ATTR_SINGLE_QUOTE_EOF | GUMBO_ERR_ATTR_UNQUOTED_EOF
| GUMBO_ERR_ATTR_UNQUOTED_RIGHT_BRACKET | GUMBO_ERR_ATTR_UNQUOTED_EQUALS
| GUMBO_ERR_ATTR_AFTER_EOF | GUMBO_ERR_ATTR_AFTER_INVALID
| GUMBO_ERR_DUPLICATE_ATTR | GUMBO_ERR_SOLIDUS_EOF
| GUMBO_ERR_SOLIDUS_INVALID | GUMBO_ERR_DASHES_OR_DOCTYPE
| GUMBO_ERR_COMMENT_EOF | GUMBO_ERR_COMMENT_INVALID
| GUMBO_ERR_COMMENT_BANG_AFTER_DOUBLE_DASH | GUMBO_ERR_COMMENT_DASH_AFTER_DOUBLE_DASH
| GUMBO_ERR_COMMENT_SPACE_AFTER_DOUBLE_DASH | GUMBO_ERR_COMMENT_END_BANG_EOF
| GUMBO_ERR_DOCTYPE_EOF | GUMBO_ERR_DOCTYPE_INVALID
| GUMBO_ERR_DOCTYPE_SPACE | GUMBO_ERR_DOCTYPE_RIGHT_BRACKET
| GUMBO_ERR_DOCTYPE_SPACE_OR_RIGHT_BRACKET | GUMBO_ERR_DOCTYPE_END
| GUMBO_ERR_PARSER | GUMBO_ERR_UNACKNOWLEDGED_SELF_CLOSING_TAG.

Inductive GumboTokenizerErrorState :=
| GUMBO_ERR_TOKENIZER_DATA | GUMBO_ERR_TOKENIZER_CHAR_REF
| GUMBO_ERR_TOKENIZER_RCDATA | GUMBO_ERR_TOKENIZER_RAWTEXT
| GUMBO_ERR_TOKENIZER_PLAINTEXT | GUMBO_ERR_TOKENIZER_SCRIPT
| GUMBO_ERR_TOKENIZER_TAG | GUMBO_ERR_TOKENIZER_SELF_CLOSING_TAG
| GUMBO_ERR_TOKENIZER_ATTR_NAME | GUMBO_ERR_TOKENIZER_ATTR_VALUE
| GUMBO_ERR_TOKENIZER_MARKUP_DECLARATION | GUMBO_ERR_TOKENIZER_COMMENT
| GUMBO_ERR_TOKENIZER_DOCTYPE | GUMBO_ERR_TOKENIZER_CDATA.

Record GumboSourcePosition := Pos { line : Z; column : Z; offset : Z }.

(** * token_type.h, insertion_mode.h *)
Inductive GumboTokenType :=
| GUMBO_TOKEN_DOCTYPE | GUMBO_TOKEN_START_TAG | GUMBO_TOKEN_END_TAG
| GUMBO_TOKEN_COMMENT | GUMBO_TOKEN_WHITESPACE | GUMBO_TOKEN_CHARACTER
| GUMBO_TOKEN_CDATA | GUMBO_TOKEN_NULL | GUMBO_TOKEN_EOF.

#[export] Instance GumboTokenType_eq_dec : EqDecision GumboTokenType.
Proof. solve_decision. Defined.

Inductive GumboInsertionMode :=
| GUMBO_INSERTION_MODE_INITIAL | GUMBO_INSERTION_MODE_BEFORE_HTML
| GUMBO_INSERTION_MODE_BEFORE_HEAD | GUMBO_INSERTION_MODE_IN_HEAD
| GUMBO_INSERTION_MODE_IN_HEAD_NOSCRIPT | GUMBO_INSERTION_MODE_AFTER_HEAD
| GUMBO_INSERTION_MODE_IN_BODY | GUMBO_INSERTION_MODE_TEXT
| GUMBO_INSERTION_MODE_IN_TABLE | GUMBO_INSERTION_MODE_IN_TABLE_TEXT
| GUMBO_INSERTION_MODE_IN_CAPTION | GUMBO_INSERTION_MODE_IN_COLUMN_GROUP
| GUMBO_INSERTION_MODE_IN_TABLE_BODY | GUMBO_INSERTION_MODE_IN_ROW
| GUMBO_INSERTION_MODE_IN_CELL | GUMBO_INSERTION_MODE_IN_SELECT
| GUMBO_INSERTION_MODE_IN_SELECT_IN_TABLE | GUMBO_INSERTION_MODE_IN_TEMPLATE
| GUMBO_INSERTION_MODE_AFTER_BODY | GUMBO_INSERTION_MODE_IN_FRAMESET
| GUMBO_INSERTION_MODE_AFTER_FRAMESET | GUMBO_INSERTION_MODE_AFTER_AFTER_BODY
| GUMBO_INSERTION_MODE_AFTER_AFTER_FRAMESET.

#[export] Instance GumboInsertionMode_eq_dec : EqDecision GumboInsertionMode.
Proof. solve_decision. Defined.

(** * The error record: the member of the union that was set. *)
Record GumboParserError := ParserError {
  input_type : GumboTokenType; input_tag : Tags.GumboTag; parser_state : GumboInsertionMode;
  tag_stack : list Tags.GumboTag
}.

Inductive GumboErrorValue :=
| ErrUnset
| ErrCodepoint (codepoint : Z)
| ErrTokenizer (codepoint : Z) (state : GumboTokenizerErrorState)
| ErrText (text : list Z)
| ErrDuplicateAttr (name : list Z) (original_index new_index : Z)
| ErrParser (parser : GumboParserError).

Record GumboError := Error {
  etype : GumboErrorType; eposition : GumboSourcePosition; eoriginal_text : nat; ev : GumboErrorValue
}.

(** * The decoder *)
Definition kUtf8ReplacementChar : Z := 0xFFFD.
Definition UTF8_ACCEPT : Z := 0.
Definition UTF8_REJECT : Z := 12.

Definition utf8d : list Z := [
    0; 0; 0; 0; 0; 0; 0; 0; 0; 0; 0; 0; 0; 0; 0; 0; 0; 0; 0; 0; 0; 0; 0; 0; 0; 0; 0; 0; 0; 0; 0;
    0; 0; 0; 0; 0; 0; 0; 0; 0; 0; 0; 0; 0; 0; 0; 0; 0; 0; 0; 0; 0; 0; 0; 0; 0; 0; 0; 0; 0; 0; 0;
    0; 0; 0; 0; 0; 0; 0; 0; 0; 0; 0; 0; 0; 0; 0; 0; 0; 0; 0; 0; 0; 0; 0; 0; 0; 0; 0; 0; 0; 0; 0;
    0; 0; 0; 0; 0; 0; 0; 0; 0; 0; 0; 0; 0; 0; 0; 0; 0; 0; 0; 0; 0; 0; 0; 0; 0; 0; 0; 0; 0; 0; 0;
    0; 0; 0; 0; 1; 1; 1; 1; 1; 1; 1; 1; 1; 1; 1; 1; 1; 1; 1; 1; 9; 9; 9; 9; 9; 9; 9; 9; 9; 9; 9;
    9; 9; 9; 9; 9; 7; 7; 7; 7; 7; 7; 7; 7; 7; 7; 7; 7; 7; 7; 7; 7; 7; 7; 7; 7; 7; 7; 7; 7; 7; 7;
    7; 7; 7; 7; 7; 7; 8; 8; 2; 2; 2; 2; 2; 2; 2; 2; 2; 2; 2; 2; 2; 2; 2; 2; 2; 2; 2; 2; 2; 2; 2;
    2; 2; 2; 2; 2; 2; 2; 10; 3; 3; 3; 3; 3; 3; 3; 3; 3; 3; 3; 3; 4; 3; 3; 11; 6; 6; 6; 5; 8; 8; 8;
    8; 8; 8; 8; 8; 8; 8; 8; 0; 12; 24; 36; 60; 96; 84; 12; 12; 12; 48; 72; 12; 12; 12; 12; 12; 12;
    12; 12; 12; 12; 12; 12; 12; 0; 12; 12; 12; 12; 12; 0; 12; 0; 12; 12; 12; 24; 12; 12; 12; 12;
    12; 24; 12; 24; 12; 12; 12; 12; 12; 12; 12; 12; 12; 24; 12; 12; 12; 12; 12; 24; 12; 12; 12;
    12; 12; 12; 12; 24; 12; 12; 12; 12; 12; 12; 12; 12; 12; 36; 12; 36; 12; 12; 12; 36; 12; 12;
    12; 12; 12; 36; 12; 36; 12; 12; 12; 36; 12; 12; 12; 12; 12; 12; 12; 12; 12; 12].

(** [decode]: the new state and code point. *)
Definition decode (state codep byte : Z) : outcome (Z * Z) :=
  type ← load utf8d (Z.to_nat byte);
  let codep :=
    if negb (state =? UTF8_ACCEPT) then Z.lor (Z.land byte 0x3f) (u32 (Z.shiftl codep 6))
    else Z.land (Z.shiftr 0xff type) byte in
  state ← load utf8d (Z.to_nat (256 + state + type));
  Ok (state, codep).

Definition utf8_is_invalid_code_point (c : Z) : bool :=
  ((0x1 <=? c) && (c <=? 0x8)) || (c =? 0xB) || ((0xE <=? c) && (c <=? 0x1F)) ||
  ((0x7F <=? c) && (c <=? 0x9F)) || ((0xFDD0 <=? c) && (c <=? 0xFDEF)) ||
  (Z.land c 0xFFFF =? 0xFFFE) || (Z.land c 0xFFFF =? 0xFFFF).

(** * The iterator *)
Record Utf8Iterator := Iter {
  source : list Z; start : nat; mark : nat; current : Z; width : nat;
  pos : GumboSourcePosition; mark_pos : GumboSourcePosition;
  errors : list GumboError; max_errors : Z; tab_stop : Z
}.

(** error.c, [gumbo_add_error], with the error filled in by the caller. *)
Definition gumbo_add_error (it : Utf8Iterator) (e : GumboError) : Utf8Iterator :=
  if (0 <=? max_errors it) && (max_errors it <=? Z.of_nat (length (errors it))) then it
  else Iter (source it) (start it) (mark it) (current it) (width it) (pos it) (mark_pos it)
         (errors it ++ [e]) (max_errors it) (tab_stop it).

(** The bytes under the cursor as one number. *)
Definition raw_bytes (bs : list Z) : Z :=
  fold_left (fun acc b => u64 (Z.lor (Z.shiftl acc 8) b)) bs 0.

Definition add_error (it : Utf8Iterator) (type : GumboErrorType) : Utf8Iterator :=
  gumbo_add_error it (Error type (pos it) (start it)
    (ErrCodepoint (raw_bytes (take (width it) (drop (start it) (source it)))))).

Definition set_current (it : Utf8Iterator) (c : Z) : Utf8Iterator :=
  Iter (source it) (start it) (mark it) c (width it) (pos it) (mark_pos it) (errors it)
    (max_errors it) (tab_stop it).
Definition set_width (it : Utf8Iterator) (w : nat) : Utf8Iterator :=
  Iter (source it) (start it) (mark it) (current it) w (pos it) (mark_pos it) (errors it)
    (max_errors it) (tab_stop it).
Definition set_start (it : Utf8Iterator) (s : nat) : Utf8Iterator :=
  Iter (source it) s (mark it) (current it) (width it) (pos it) (mark_pos it) (errors it)
    (max_errors it) (tab_stop it).
Definition set_pos (it : Utf8Iterator) (p : GumboSourcePosition) : Utf8Iterator :=
  Iter (source it) (start it) (mark it) (current it) (width it) p (mark_pos it) (errors it)
    (max_errors it) (tab_stop it).

(** The loop of [read_char] over the bytes from the cursor, the [i]th next: the
    code point and the index of its last byte, the index of the byte that was
    rejected, or the end of the input. *)
Inductive scanned := Accepted (last : nat) (code_point : Z) | Rejected (at_ : nat) | Truncated.

Fixpoint scan (state code_point : Z) (i : nat) (bs : list Z) : outcome scanned :=
  match bs with
  | [] => Ok Truncated
  | b :: bs =>
      '(state, code_point) ← decode state code_point b;
      if state =? UTF8_ACCEPT then Ok (Accepted i code_point)
      else if state =? UTF8_REJECT then Ok (Rejected i)
      else scan state code_point (S i) bs
  end.

(** What [read_char] does with an accepted code point. *)
Definition accept_char (it : Utf8Iterator) (i : nat) (code_point : Z) : outcome Utf8Iterator :=
  let it := set_width it (i + 1) in
  '(it, code_point) ←
    (if code_point =? 13 then
       _ ← c_assert (width it =? 1)%nat;
       let it :=
         if bool_decide (source it !! (start it + i + 1)%nat = Some 10) then
           let p := pos it in
           set_pos (set_start it (start it + 1)) (Pos (line p) (column p) (u32 (offset p + 1)))
         else it in
       Ok (it, 10)
     else Ok (it, code_point));
  let '(it, code_point) :=
    if utf8_is_invalid_code_point code_point
    then (add_error it GUMBO_ERR_UTF8_INVALID, kUtf8ReplacementChar) else (it, code_point) in
  Ok (set_current it code_point).

Definition read_char (it : Utf8Iterator) : outcome Utf8Iterator :=
  if (length (source it) <=? start it)%nat then Ok (set_width (set_current it (-1)) 0)
  else
    r ← scan UTF8_ACCEPT 0 0 (drop (start it) (source it));
    match r with
    | Accepted i code_point => accept_char it i code_point
    | Rejected i =>
        let it := set_width it (i + (if (i =? 0)%nat then 1 else 0)) in
        Ok (add_error (set_current it kUtf8ReplacementChar) GUMBO_ERR_UTF8_INVALID)
    | Truncated =>
        let it := set_width (set_current it kUtf8ReplacementChar) (length (source it) - start it) in
        Ok (add_error it GUMBO_ERR_UTF8_TRUNCATED)
    end.

(** The fields of a position are 32-bit; [tab_stop], an [int], is converted to
    unsigned for the division, and zero divides by zero. *)
Definition update_position (it : Utf8Iterator) : outcome Utf8Iterator :=
  let p := pos it in
  let off := u32 (offset p + Z.of_nat (width it)) in
  if current it =? 10 then Ok (set_pos it (Pos (u32 (line p + 1)) 1 off))
  else if current it =? 9 then
    if tab_stop it =? 0 then Undef
    else Ok (set_pos it (Pos (line p) (u32 ((column p / u32 (tab_stop it) + 1) * tab_stop it)) off))
  else if negb (current it =? -1) then Ok (set_pos it (Pos (line p) (u32 (column p + 1)) off))
  else Ok (set_pos it (Pos (line p) (column p) off)).

(** The mark is left as it was: [old] is what the struct held. *)
Definition utf8iterator_init (old : nat * GumboSourcePosition) (src : list Z) (max_errors tab_stop : Z)
  : outcome Utf8Iterator :=
  read_char (Iter src 0 old.1 0 0 (Pos 1 1 0) old.2 [] max_errors tab_stop).

Definition utf8iterator_next (it : Utf8Iterator) : outcome Utf8Iterator :=
  it ← update_position it;
  read_char (set_start it (start it + width it)).

Definition utf8iterator_current (it : Utf8Iterator) : Z := current it.
Definition utf8iterator_get_position (it : Utf8Iterator) : GumboSourcePosition := pos it.
Definition utf8iterator_get_char_pointer (it : Utf8Iterator) : nat := start it.
Definition utf8iterator_get_end_pointer (it : Utf8Iterator) : nat := length (source it).

Fixpoint next_n (n : nat) (it : Utf8Iterator) : outcome Utf8Iterator :=
  match n with O => Ok it | S n => it ← utf8iterator_next it; next_n n it end.

(** The prefix holds no zero byte. *)
Definition utf8iterator_maybe_consume_match (it : Utf8Iterator) (prefix : list Z) (case_sensitive : bool)
  : outcome (Utf8Iterator * bool) :=
  let len := length prefix in
  let text := take len (drop (start it) (source it)) in
  let matched := (start it + len <=? length (source it))%nat &&
    (if case_sensitive then bool_decide (text = prefix)
     else bool_decide (map Tags.tolower text = map Tags.tolower prefix)) in
  if matched then it ← next_n len it; Ok (it, true) else Ok (it, false).

Definition utf8iterator_mark (it : Utf8Iterator) : Utf8Iterator :=
  Iter (source it) (start it) (start it) (current it) (width it) (pos it) (pos it) (errors it)
    (max_errors it) (tab_stop it).

Definition utf8iterator_reset (it : Utf8Iterator) : outcome Utf8Iterator :=
  read_char (set_pos (set_start it (mark it)) (mark_pos it)).

Definition utf8iterator_fill_error_at_mark (it : Utf8Iterator) (e : GumboError) : GumboError :=
  Error (etype e) (mark_pos it) (mark it) (ev e).

(** * The reference decoder: the table of well-formed byte sequences *)

(** The range of the second byte, the number of continuation bytes and the payload
    of a lead byte. *)
Definition lead (a : Z) : option (Z * Z * nat * Z) :=
  if (0xC2 <=? a) && (a <=? 0xDF) then Some (0x80, 0xBF, 1%nat, a - 0xC0)
  else if a =? 0xE0 then Some (0xA0, 0xBF, 2%nat, 0)
  else if a =? 0xED then Some (0x80, 0x9F, 2%nat, 0xD)
  else if (0xE1 <=? a) && (a <=? 0xEF) then Some (0x80, 0xBF, 2%nat, a - 0xE0)
  else if a =? 0xF0 then Some (0x90, 0xBF, 3%nat, 0)
  else if (0xF1 <=? a) && (a <=? 0xF3) then Some (0x80, 0xBF, 3%nat, a - 0xF0)
  else if a =? 0xF4 then Some (0x80, 0x8F, 3%nat, 4)
  else None.

(** [n] continuation bytes, the first of them within [lo..hi]. *)
Fixpoint ref_tail (n : nat) (lo hi cp : Z) (i : nat) (bs : list Z) : scanned :=
  match n, bs with
  | O, _ => Truncated
  | S _, [] => Truncated
  | S n, b :: bs =>
      if (lo <=? b) && (b <=? hi) then
        let cp := cp * 64 + (b - 0x80) in
        match n with O => Accepted i cp | S _ => ref_tail n 0x80 0xBF cp (S i) bs end
      else Rejected i
  end.

Definition ref_scan (bs : list Z) : scanned :=
  match bs with
  | [] => Truncated
  | a :: bs =>
      if a <=? 0x7F then Accepted 0 a
      else match lead a with
           | Some (lo, hi, n, cp) => ref_tail n lo hi cp 1 bs
           | None => Rejected 0
           end
  end.

(** The state of the automaton that waits for such bytes. *)
Definition wait_state (n : nat) (lo hi : Z) : Z :=
  match n with
  | 1%nat => 24
  | 2%nat => if lo =? 0xA0 then 48 else if hi =? 0x9F then 60 else 36
  | _ => if lo =? 0x90 then 72 else if hi =? 0x8F then 96 else 84
  end.

Definition waits : list (nat * Z * Z) :=
  [(1%nat, 0x80, 0xBF); (2%nat, 0x80, 0xBF); (2%nat, 0xA0, 0xBF); (2%nat, 0x80, 0x9F);
   (3%nat, 0x80, 0xBF); (3%nat, 0x90, 0xBF); (3%nat, 0x80, 0x8F)].

(** The state behind a byte, read off the reference. *)
Definition wait_next (n : nat) (lo hi b : Z) : Z :=
  if (lo <=? b) && (b <=? hi) then match n with 1%nat => 0 | n => wait_state (n - 1) 0x80 0xBF end
  else UTF8_REJECT.

Lemma decode_wait_table :
  Forall (fun w => Forall (fun b =>
    load utf8d (Z.to_nat b) = Ok (nth (Z.to_nat b) utf8d 0) /\
    load utf8d (Z.to_nat (256 + wait_state w.1.1 w.1.2 w.2 + nth (Z.to_nat b) utf8d 0)) =
    Ok (wait_next w.1.1 w.1.2 w.2 b)) (seqZ 0 256)) waits.
Proof. by_decide. Qed.

Lemma decode_lead_table :
  Forall (fun a =>
    decode UTF8_ACCEPT 0 a = Ok
      (if a <=? 0x7F then (0, a)
       else match lead a with
            | Some (lo, hi, n, cp) => (wait_state n lo hi, cp)
            | None => (12, Z.land (Z.shiftr 0xff (nth (Z.to_nat a) utf8d 0)) a)
            end)) (seqZ 0 256).
Proof. by_decide. Qed.

Lemma lead_waits : Forall (fun a =>
  match lead a with
  | Some (lo, hi, n, cp) => bool_decide ((n, lo, hi) ∈ waits /\ 0 <= cp < 32)
  | None => true
  end = true) (seqZ 0 256).
Proof. by_decide. Qed.

Lemma decode_wait n lo hi cp b :
  (n, lo, hi) ∈ waits -> is_u8 b -> 0 <= cp < 2 ^ 26 -> 0x80 <= lo -> hi <= 0xBF ->
  exists cp', decode (wait_state n lo hi) cp b = Ok (wait_next n lo hi b, cp') /\
    (lo <= b <= hi -> cp' = cp * 64 + (b - 0x80)).
Proof.
  intros Hw Hb Hcp Hlo Hhi. pose proof decode_wait_table as HT. rewrite list.Forall_forall in HT.
  specialize (HT _ Hw). cbn [fst snd] in HT. destruct (Tags.forall_bytes _ b HT Hb) as [H1 H2].
  unfold decode. rewrite H1, bind_Ok, H2, bind_Ok. eexists. split; [reflexivity|]. intros Hr.
  assert ((wait_state n lo hi =? UTF8_ACCEPT) = false) as ->.
  { apply Z.eqb_neq. unfold wait_state, UTF8_ACCEPT. repeat case_match; done. }
  cbn [negb]. unfold u32. rewrite Z.shiftl_mul_pow2, (Z.mod_small (cp * 2 ^ 6)) by lia.
  change 0x3f with (2 ^ 6 - 1). rewrite land_mod by lia.
  rewrite <- Z.shiftl_mul_pow2, lor_shiftl by (try apply Z.mod_pos_bound; lia).
  replace (b mod 2 ^ 6) with (b - 0x80); [lia|]. unfold is_u8 in Hb.
  apply (Z.mod_unique _ _ 2); lia.
Qed.

Lemma scan_wait n lo hi cp i bs :
  (n, lo, hi) ∈ waits -> 0 <= cp < 2 ^ (26 - 6 * Z.of_nat n) -> Forall is_u8 bs ->
  scan (wait_state n lo hi) cp i bs = Ok (ref_tail n lo hi cp i bs).
Proof.
  revert lo hi cp i bs. induction n as [|n IH]; intros lo hi cp i bs Hw Hcp Hb.
  { exfalso. revert Hw. unfold waits. rewrite !elem_of_cons, elem_of_nil. naive_solver. }
  assert (Hn : (n <= 2)%nat /\ 0x80 <= lo /\ hi <= 0xBF).
  { revert Hw. unfold waits. rewrite !elem_of_cons, elem_of_nil.
    intros Hw. destruct_or! Hw; simplify_eq; lia. }
  destruct bs as [|b bs]; [done|]. apply Forall_cons_1 in Hb as [Hb Hbs]. cbn [scan ref_tail].
  destruct (decode_wait (S n) lo hi cp b) as (cp' & -> & Hcp'); [done|done| |lia|lia|].
  { split; [lia|]. assert (2 ^ (26 - 6 * Z.of_nat (S n)) <= 2 ^ 26) by (apply Z.pow_le_mono_r; lia). lia. }
  rewrite bind_Ok. unfold wait_next.
  destruct ((lo <=? b) && (b <=? hi)) eqn:E; [|done].
  apply andb_true_iff in E as [E1 E2]. rewrite Z.leb_le in E1, E2. rewrite Hcp' by lia.
  destruct n as [|n]; [done|].
  assert (Hws : wait_state (S (S n) - 1) 0x80 0xBF <> 0 /\ wait_state (S (S n) - 1) 0x80 0xBF <> 12).
  { destruct n as [|[|n]]; [done|done|lia]. }
  rewrite <- !Z.eqb_neq in Hws. destruct Hws as [Hw1 Hw2]. unfold UTF8_ACCEPT, UTF8_REJECT.
  replace (match S (S n) with 1%nat => 0 | _ => wait_state (S (S n) - 1) 0x80 0xBF end)
    with (wait_state (S (S n) - 1) 0x80 0xBF) by done.
  rewrite Hw1, Hw2. replace (S (S n) - 1)%nat with (S n) by lia. apply IH; [|  |done].
  - destruct n as [|[|n]]; [by_decide|by_decide|lia].
  - replace (26 - 6 * Z.of_nat (S n)) with (6 + (26 - 6 * Z.of_nat (S (S n)))) by lia.
    rewrite Z.pow_add_r by lia. lia.
Qed.

Lemma scan_ref bs : Forall is_u8 bs -> scan UTF8_ACCEPT 0 0 bs = Ok (ref_scan bs).
Proof.
  intros Hb. destruct bs as [|a bs]; [done|]. apply Forall_cons_1 in Hb as [Ha Hb]. cbn [scan ref_scan].
  rewrite (Tags.forall_bytes _ a decode_lead_table Ha), bind_Ok.
  destruct (a <=? 0x7F); [done|]. pose proof (Tags.forall_bytes _ a lead_waits Ha) as HL. cbn beta in HL.
  destruct (lead a) as [[[[lo hi] n] cp]|]; [|done]. apply bool_decide_eq_true_1 in HL as [Hw Hcp].
  assert (Hws : wait_state n lo hi <> 0 /\ wait_state n lo hi <> 12).
  { revert Hw. unfold waits. rewrite !elem_of_cons, elem_of_nil. intros Hw. by destruct_or! Hw; simplify_eq. }
  rewrite <- !Z.eqb_neq in Hws. destruct Hws as [Hw1 Hw2]. unfold UTF8_ACCEPT, UTF8_REJECT.
  rewrite Hw1, Hw2. apply scan_wait; [done| |done].
  assert (2 ^ 8 <= 2 ^ (26 - 6 * Z.of_nat n)).
  { apply Z.pow_le_mono_r; [lia|]. revert Hw. unfold waits. rewrite !elem_of_cons, elem_of_nil.
    intros Hw. destruct_or! Hw; simplify_eq; lia. }
  lia.
Qed.

(** C34: the table-driven decoder of [read_char] is the reference decoder given by
    the table of well-formed UTF-8 sequences: on every input it accepts the same
    code point after the same number of bytes, rejects at the same byte, or runs
    out of input; it never reads outside its table. *)
Theorem utf8_decoder_spec (bs : list Z) (Hb : Forall is_u8 bs) :
  scan UTF8_ACCEPT 0 0 bs = Ok (ref_scan bs).
Proof. by apply scan_ref. Qed.

(** * Encoding and decoding *)

(** A Unicode scalar value. *)
Definition scalar (c : Z) : Prop := 0 <= c <= 0x10FFFF /\ ~ (0xD800 <= c <= 0xDFFF).

#[export] Instance scalar_dec c : Decision (scalar c).
Proof. unfold scalar. apply _. Defined.

Lemma lor_high k m x : 0 <= k -> 0 <= x < 2 ^ k -> Z.lor (m * 2 ^ k) x = m * 2 ^ k + x.
Proof.
  intros Hk Hx. rewrite Z.lor_comm.
  replace (Z.lor x (m * 2 ^ k)) with (Z.lor x (Z.shiftl m k)) by (by rewrite Z.shiftl_mul_pow2).
  rewrite lor_shiftl by lia. lia.
Qed.

Lemma continuation_byte c k :
  0 <= k -> Z.lor 0x80 (Z.land 0x3f (Z.shiftr c k)) = 0x80 + (c / 2 ^ k) mod 64.
Proof.
  intros Hk. rewrite Z.land_comm. change 0x3f with (2 ^ 6 - 1). rewrite land_mod by lia.
  rewrite Z.shiftr_div_pow2 by lia. change 0x80 with (2 * 2 ^ 6).
  by rewrite lor_high by (try apply Z.mod_pos_bound; lia).
Qed.

(** The bytes of a code point, by its range. *)
Lemma codepoint_bytes_arith c :
  0 <= c <= 0x10FFFF ->
  codepoint_bytes c =
  if c <=? 0x7f then [c]
  else if c <=? 0x7ff then [0xC0 + c / 64; 0x80 + c mod 64]
  else if c <=? 0xffff then [0xE0 + c / 4096; 0x80 + (c / 64) mod 64; 0x80 + c mod 64]
  else [0xF0 + c / 262144; 0x80 + (c / 4096) mod 64; 0x80 + (c / 64) mod 64; 0x80 + c mod 64].
Proof.
  intros Hc. unfold codepoint_bytes, codepoint_shape.
  assert (Hu : forall m k x, 0 <= k -> 0 <= x < 2 ^ k -> 0 <= m * 2 ^ k + x < 256 ->
    u8 (Z.lor (m * 2 ^ k) x) = m * 2 ^ k + x).
  { intros. rewrite lor_high by lia. unfold u8. by rewrite Z.mod_small. }
  destruct (Z.leb_spec c 0x7f); [|destruct (Z.leb_spec c 0x7ff); [|destruct (Z.leb_spec c 0xffff)]].
  - change (Z.to_nat 0) with 0%nat. cbn [continuation]. f_equal. change (0 * 6) with 0.
    rewrite Z.shiftr_0_r, Z.lor_0_l. unfold u8. apply Z.mod_small. lia.
  - change (Z.to_nat 1) with 1%nat. cbn [continuation]. rewrite continuation_byte by lia.
    rewrite Z.shiftr_div_pow2 by lia. change 0xc0 with (6 * 2 ^ 5). change (2 ^ (1 * 6)) with 64.
    rewrite Hu by zlia. change (2 ^ (Z.of_nat 0 * 6)) with 1. by rewrite Z.div_1_r.
  - change (Z.to_nat 2) with 2%nat. cbn [continuation]. rewrite !continuation_byte by lia.
    rewrite Z.shiftr_div_pow2 by lia. change 0xe0 with (14 * 2 ^ 4). change (2 ^ (2 * 6)) with 4096.
    rewrite Hu by zlia. change (2 ^ (Z.of_nat 0 * 6)) with 1. change (2 ^ (Z.of_nat 1 * 6)) with 64.
    by rewrite Z.div_1_r.
  - change (Z.to_nat 3) with 3%nat. cbn [continuation]. rewrite !continuation_byte by lia.
    rewrite Z.shiftr_div_pow2 by lia. change 0xf0 with (30 * 2 ^ 3). change (2 ^ (3 * 6)) with 262144.
    rewrite Hu by zlia. change (2 ^ (Z.of_nat 0 * 6)) with 1. change (2 ^ (Z.of_nat 1 * 6)) with 64.
    change (2 ^ (Z.of_nat 2 * 6)) with 4096. by rewrite Z.div_1_r.
Qed.

(** One continuation byte within its range. *)
Lemma ref_tail_step n lo hi cp i b bs :
  lo <= b <= hi ->
  ref_tail (S n) lo hi cp i (b :: bs) =
  match n with
  | O => Accepted i (cp * 64 + (b - 0x80))
  | S _ => ref_tail n 0x80 0xBF (cp * 64 + (b - 0x80)) (S i) bs
  end.
Proof.
  intros H. cbn [ref_tail]. replace ((lo <=? b) && (b <=? hi)) with true; [done|].
  symmetry. apply andb_true_iff. rewrite !Z.leb_le. lia.
Qed.

Lemma ref_scan_3 c rest :
  0x7ff < c -> c <= 0xffff -> ~ (0xD800 <= c <= 0xDFFF) ->
  ref_scan ([0xE0 + c / 4096; 0x80 + (c / 64) mod 64; 0x80 + c mod 64] ++ rest) = Accepted 2 c.
Proof.
  intros H2 H3 Hsur. cbn [app ref_scan].
  replace (0xE0 + c / 4096 <=? 0x7F) with false by (symmetry; apply Z.leb_gt; zlia).
  assert (exists lo hi, lead (0xE0 + c / 4096) = Some (lo, hi, 2%nat, c / 4096) /\
    lo <= 0x80 + (c / 64) mod 64 <= hi) as (lo & hi & -> & Hr).
  { unfold lead. replace ((_ <=? 0xE0 + c / 4096) && (_ <=? 0xDF)) with false
      by (symmetry; apply andb_false_iff; rewrite !Z.leb_gt; zlia).
    destruct (Z.eqb_spec (0xE0 + c / 4096) 0xE0) as [E|E]; [exists 0xA0, 0xBF; split; [repeat f_equal; lia|zlia]|].
    destruct (Z.eqb_spec (0xE0 + c / 4096) 0xED) as [E'|E']; [exists 0x80, 0x9F; split; [repeat f_equal; lia|zlia]|].
    exists 0x80, 0xBF. replace (_ && _) with true; [split; [repeat f_equal; lia|zlia]|].
    symmetry. apply andb_true_iff. rewrite !Z.leb_le. zlia. }
  rewrite !ref_tail_step by (done || zlia). f_equal. zlia.
Qed.

Lemma ref_scan_4 c rest :
  0xffff < c -> c <= 0x10FFFF ->
  ref_scan ([0xF0 + c / 262144; 0x80 + (c / 4096) mod 64; 0x80 + (c / 64) mod 64; 0x80 + c mod 64] ++ rest) =
  Accepted 3 c.
Proof.
  intros H3 H4. cbn [app ref_scan].
  replace (0xF0 + c / 262144 <=? 0x7F) with false by (symmetry; apply Z.leb_gt; zlia).
  assert (exists lo hi, lead (0xF0 + c / 262144) = Some (lo, hi, 3%nat, c / 262144) /\
    lo <= 0x80 + (c / 4096) mod 64 <= hi) as (lo & hi & -> & Hr).
  { assert (Hq : c / 262144 = 0 \/ 1 <= c / 262144 <= 3 \/ c / 262144 = 4) by zlia.
    destruct Hq as [E|[E|E]].
    - rewrite E. exists 0x90, 0xBF. split; [done|zlia].
    - assert (Hq : c / 262144 = 1 \/ c / 262144 = 2 \/ c / 262144 = 3) by lia.
      exists 0x80, 0xBF. split; [by destruct Hq as [-> | [-> | ->]]|zlia].
    - rewrite E. exists 0x80, 0x8F. split; [done|zlia]. }
  rewrite !ref_tail_step by (done || zlia). f_equal. zlia.
Qed.

Lemma ref_scan_encode c rest :
  scalar c -> ref_scan (codepoint_bytes c ++ rest) = Accepted (length (codepoint_bytes c) - 1) c.
Proof.
  intros [Hc Hsur]. rewrite codepoint_bytes_arith by done.
  destruct (Z.leb_spec c 0x7f) as [H1|H1].
  { cbn [app ref_scan length]. by replace (c <=? 0x7F) with true by (symmetry; apply Z.leb_le; lia). }
  destruct (Z.leb_spec c 0x7ff) as [H2|H2].
  { cbn [app ref_scan length].
    replace (0xC0 + c / 64 <=? 0x7F) with false by (symmetry; apply Z.leb_gt; zlia).
    assert (lead (0xC0 + c / 64) = Some (0x80, 0xBF, 1%nat, c / 64)) as ->.
    { unfold lead. replace (_ && _) with true; [repeat f_equal; lia|].
      symmetry. apply andb_true_iff. rewrite !Z.leb_le. zlia. }
    rewrite ref_tail_step by zlia. f_equal. zlia. }
  destruct (Z.leb_spec c 0xffff) as [H3|H3]; [apply ref_scan_3; [lia|lia|done]|apply ref_scan_4; lia].
Qed.

(** * Iterating *)

(** The code points from the cursor to the end of the input; [None] when [fuel]
    characters are not enough. *)
Fixpoint chars (fuel : nat) (it : Utf8Iterator) : outcome (option (list Z * Utf8Iterator)) :=
  if current it =? -1 then Ok (Some ([], it))
  else match fuel with
       | O => Ok None
       | S fuel =>
           it' ← utf8iterator_next it;
           r ← chars fuel it';
           Ok (match r with Some (cs, it2) => Some (current it :: cs, it2) | None => None end)
       end.

(** A character that the input preprocessing leaves alone. *)
Definition plain (c : Z) : Prop := scalar c /\ c <> 13 /\ utf8_is_invalid_code_point c = false.

#[export] Instance plain_dec c : Decision (plain c).
Proof. unfold plain. apply _. Defined.

Lemma codepoint_bytes_u8 c : 0 <= c <= 0x10FFFF -> Forall is_u8 (codepoint_bytes c).
Proof.
  intros Hc. rewrite codepoint_bytes_arith by done.
  repeat case_match; repeat constructor; unfold is_u8; zlia.
Qed.

Lemma codepoint_bytes_pos c : (0 < length (codepoint_bytes c))%nat.
Proof.
  pose proof (length_codepoint_bytes c).
  assert (0 <= (codepoint_shape c).1) by (unfold codepoint_shape; repeat case_match; cbn; lia). lia.
Qed.

Lemma read_char_plain it c rest :
  drop (start it) (source it) = codepoint_bytes c ++ rest -> plain c ->
  Forall is_u8 (source it) ->
  read_char it = Ok (set_current (set_width it (length (codepoint_bytes c))) c).
Proof.
  intros Hd (Hs & H13 & Hinv) Hb. pose proof (codepoint_bytes_pos c). unfold read_char.
  replace (length (source it) <=? start it)%nat with false.
  2: { symmetry. apply Nat.leb_gt. apply (f_equal length) in Hd. rewrite length_drop, length_app in Hd. lia. }
  rewrite scan_ref by (by apply Forall_drop). rewrite Hd, ref_scan_encode, bind_Ok by done.
  unfold accept_char. replace (c =? 13) with false by (symmetry; by apply Z.eqb_neq).
  rewrite bind_Ok, Hinv. do 2 f_equal. f_equal. lia.
Qed.

Definition encode (cs : list Z) : list Z := concat (map codepoint_bytes cs).

Lemma drop_source (it : Utf8Iterator) a rest :
  drop (start it) (source it) = a ++ rest -> drop (start it + length a) (source it) = rest.
Proof. intros H. rewrite <- drop_drop, H. apply drop_app_length. Qed.

Lemma update_position_ok it :
  tab_stop it <> 0 -> exists p, update_position it = Ok (set_pos it p).
Proof.
  intros Ht. unfold update_position. apply Z.eqb_neq in Ht. rewrite Ht. repeat case_match; eauto.
Qed.

Lemma chars_ok fuel cs c it rest :
  drop (start it) (source it) = codepoint_bytes c ++ encode cs -> Forall plain (c :: cs) ->
  Forall is_u8 (source it) -> tab_stop it <> 0 -> current it = c ->
  width it = length (codepoint_bytes c) -> errors it = rest -> (length cs < fuel)%nat ->
  exists it', chars fuel it = Ok (Some (c :: cs, it')) /\ errors it' = rest.
Proof.
  revert c it fuel; induction cs as [|c' cs IH]; intros c it fuel Hd Hp Hb Ht Hc Hw He Hf;
    (destruct fuel as [|fuel]; [simpl in Hf; lia|]); apply Forall_cons_1 in Hp as [Hp0 Hp];
    cbn [chars]; destruct (update_position_ok it Ht) as [p Hpos];
    replace (current it =? -1) with false
      by (symmetry; apply Z.eqb_neq; destruct Hp0 as ((? & _) & _); lia);
    unfold utf8iterator_next; rewrite Hpos, bind_Ok.
  - set (it1 := set_start _ _). assert (Hdn : drop (start it1) (source it1) = []).
    { unfold it1. cbn. rewrite Hw. by apply (drop_source it). }
    unfold read_char. replace (length (source it1) <=? start it1)%nat with true.
    2: { symmetry. apply Nat.leb_le. apply (f_equal length) in Hdn. rewrite length_drop in Hdn. cbn [length] in Hdn. lia. }
    rewrite bind_Ok. destruct fuel; cbn; rewrite Hc; by eexists.
  - set (it1 := set_start _ _).
    assert (Hdn : drop (start it1) (source it1) = codepoint_bytes c' ++ encode cs).
    { unfold it1. cbn. rewrite Hw. by apply (drop_source it). }
    assert (Hp1 := proj1 (Forall_cons_1 _ _ _ Hp)).
    rewrite (read_char_plain it1 c' (encode cs) Hdn Hp1) by done. rewrite bind_Ok.
    destruct (IH c' (set_current (set_width it1 (length (codepoint_bytes c'))) c') fuel) as (it' & -> & He');
      try done; [simpl in Hf; lia|].
    rewrite bind_Ok, Hc. by exists it'.
Qed.

Lemma encode_u8 cs : Forall plain cs -> Forall is_u8 (encode cs).
Proof.
  induction 1 as [|c cs ((Hc & _) & _) H IH]; [constructor|].
  unfold encode. cbn [map concat]. apply Forall_app. split; [by apply codepoint_bytes_u8|done].
Qed.

(** C35: encoding and decoding are inverse on plain text: Unicode scalar values that are
    no carriage return, no control character (0 and those of white space apart) and no
    noncharacter ([plain]; the iterator turns a carriage return into a line feed and the
    others into U+FFFD).  Iterating, with a tab stop other than 0, over the bytes that the
    string buffer produces for such a text yields its code points, without errors, and
    ends. *)
Theorem utf8_roundtrip old (cs : list Z) (maxe tabs : Z) (Hcs : Forall plain cs) (Htab : tabs <> 0) :
  exists it it', utf8iterator_init old (encode cs) maxe tabs = Ok it /\
    chars (length cs) it = Ok (Some (cs, it')) /\ errors it' = [].
Proof.
  destruct cs as [|c cs].
  { do 2 eexists. split; [reflexivity|]. done. }
  unfold utf8iterator_init. set (it0 := Iter _ _ _ _ _ _ _ _ _ _).
  pose proof (encode_u8 _ Hcs) as Hu.
  rewrite (read_char_plain it0 c (encode cs)); [|done|by apply Forall_cons_1 in Hcs as [? _]|done].
  destruct (chars_ok (length (c :: cs)) cs c (set_current (set_width it0 (length (codepoint_bytes c))) c) [])
    as (it' & H1 & H2); try done; [simpl; lia|].
  eexists _, it'. split; [reflexivity|]. done.
Qed.

(** * Progress on any input *)
Lemma ref_tail_bounds n lo hi cp i bs :
  0x80 <= lo -> 0 <= cp -> (0 < n)%nat ->
  match ref_tail n lo hi cp i bs with
  | Accepted j r => (i <= j < i + length bs)%nat /\ (cp * 64 + (lo - 0x80)) * 64 ^ (Z.of_nat n - 1) <= r
  | Rejected j => (i <= j < i + length bs)%nat
  | Truncated => True
  end.
Proof.
  revert lo hi cp i bs; induction n as [|n IH]; intros lo hi cp i bs Hlo Hcp Hn; [lia|].
  destruct bs as [|b bs]; [done|]. cbn [ref_tail].
  destruct ((lo <=? b) && (b <=? hi)) eqn:E; [|simpl; lia].
  apply andb_true_iff in E as [E1 E2]. rewrite Z.leb_le in E1, E2.
  destruct n as [|n].
  - cbn [length]. change (Z.of_nat 1 - 1) with 0. rewrite Z.pow_0_r. lia.
  - specialize (IH 0x80 0xBF (cp * 64 + (b - 0x80)) (S i) bs ltac:(lia) ltac:(lia) ltac:(lia)).
    destruct (ref_tail _ _ _ _ _ _) as [j r|j|]; cbn [length] in *; [|lia|done].
    destruct IH as [H1 H2]. split; [lia|].
    replace (Z.of_nat (S (S n)) - 1) with (1 + (Z.of_nat (S n) - 1)) by lia.
    rewrite Z.pow_add_r by lia. assert (0 < 64 ^ (Z.of_nat (S n) - 1)) by (apply Z.pow_pos_nonneg; lia). nia.
Qed.

Lemma lead_min : Forall (fun a =>
  match lead a with
  | Some (lo, hi, n, cp) =>
      bool_decide (0x80 <= lo /\ 0 <= cp /\ (0 < n)%nat /\ 0x80 <= (cp * 64 + (lo - 0x80)) * 64 ^ (Z.of_nat n - 1))
  | None => true
  end = true) (seqZ 0 256).
Proof. by_decide. Qed.

(** A code point below 0x80 is one byte. *)
Lemma ref_scan_bounds bs :
  Forall is_u8 bs ->
  match ref_scan bs with
  | Accepted j r => (j < length bs)%nat /\ 0 <= r /\ (r < 0x80 -> j = 0%nat /\ bs !! 0%nat = Some r)
  | Rejected j => (j < length bs)%nat
  | Truncated => True
  end.
Proof.
  intros Hb. destruct bs as [|a bs]; [done|]. apply Forall_cons_1 in Hb as [Ha _]. cbn [ref_scan length].
  unfold is_u8 in Ha. destruct (Z.leb_spec a 0x7F); [split_and!; [lia|lia|done]|].
  pose proof (Tags.forall_bytes _ a lead_min Ha) as HL. cbn beta in HL.
  destruct (lead a) as [[[[lo hi] n] cp]|]; [|lia].
  apply bool_decide_eq_true_1 in HL as (H1 & H2 & H3 & H4).
  pose proof (ref_tail_bounds n lo hi cp 1 bs H1 H2 H3) as HB.
  destruct (ref_tail _ _ _ _ _ _) as [j r|j|]; [|lia|done]. lia.
Qed.

(** The parts of the iterator that reading keeps. *)
Definition same_input (it it' : Utf8Iterator) : Prop :=
  source it' = source it /\ tab_stop it' = tab_stop it.

Lemma add_error_frame it ty :
  same_input it (add_error it ty) /\ start (add_error it ty) = start it /\
  width (add_error it ty) = width it /\ current (add_error it ty) = current it.
Proof. unfold add_error, gumbo_add_error. case_match; done. Qed.

Lemma finish_char_ok it it1 c :
  same_input it it1 -> (start it <= start it1)%nat -> (1 <= width it1)%nat ->
  (start it1 + width it1 <= length (source it))%nat -> 0 <= c ->
  exists it',
    (let '(it, code_point) := if utf8_is_invalid_code_point c
       then (add_error it1 GUMBO_ERR_UTF8_INVALID, kUtf8ReplacementChar) else (it1, c) in
     Ok (set_current it code_point)) = Ok it' /\ same_input it it' /\ (start it <= start it')%nat /\
    (1 <= width it')%nat /\ (start it' + width it' <= length (source it))%nat /\ current it' <> -1.
Proof.
  intros [Hs1 Ht1] H1 H2 H3 H4.
  destruct (add_error_frame it1 GUMBO_ERR_UTF8_INVALID) as ([Hs Ht] & E1 & E2 & _).
  destruct (utf8_is_invalid_code_point c); eexists; (split; [reflexivity|]); unfold same_input;
    destruct (add_error it1 _), it1; cbn in *; subst; split_and!; try done; try lia; congruence.
Qed.

Lemma accept_char_ok it i c :
  (start it + i < length (source it))%nat -> 0 <= c -> (c < 0x80 -> i = 0%nat) ->
  exists it', accept_char it i c = Ok it' /\ same_input it it' /\ (start it <= start it')%nat /\
    (1 <= width it')%nat /\ (start it' + width it' <= length (source it))%nat /\ current it' <> -1.
Proof.
  intros Hi Hc Hsmall. unfold accept_char. destruct (Z.eqb_spec c 13) as [->|Hne].
  - rewrite (Hsmall ltac:(lia)) in *. cbn [set_width width Nat.add Nat.eqb c_assert].
    case_bool_decide as Hlf.
    + apply lookup_lt_Some in Hlf. cbn in Hlf. rewrite !bind_Ok. apply finish_char_ok; try done; cbn; lia.
    + rewrite !bind_Ok. apply finish_char_ok; try done; cbn; lia.
  - rewrite bind_Ok. apply finish_char_ok; try done; cbn; lia.
Qed.

Lemma read_char_ok it :
  Forall is_u8 (source it) ->
  exists it', read_char it = Ok it' /\ same_input it it' /\ (start it <= start it')%nat /\
    ((length (source it) <= start it)%nat /\ current it' = -1 \/
     (1 <= width it')%nat /\ (start it' + width it' <= length (source it))%nat /\ current it' <> -1).
Proof.
  intros Hb. unfold read_char. destruct (Nat.leb_spec (length (source it)) (start it)) as [Hle|Hlt].
  { eexists. split; [reflexivity|]. split; [done|]. cbn. split; [lia|]. by left. }
  rewrite scan_ref, bind_Ok by (by apply Forall_drop).
  pose proof (ref_scan_bounds (drop (start it) (source it)) (Forall_drop _ _ _ Hb)) as HB.
  rewrite length_drop in HB. destruct (ref_scan _) as [i c|i|].
  - destruct HB as (Hi & Hc & Hs). destruct (accept_char_ok it i c) as (it' & -> & R); [lia|done|by intros [? _]%Hs|].
    exists it'. split; [done|]. naive_solver.
  - eexists. split; [reflexivity|].
    match goal with |- same_input _ (add_error ?x ?ty) /\ _ => destruct (add_error_frame x ty) as ([Hs Ht] & -> & -> & ->) end.
    split; [done|]. cbn. split; [lia|]. right. destruct i; cbn; unfold kUtf8ReplacementChar; split_and!; lia.
  - eexists. split; [reflexivity|].
    match goal with |- same_input _ (add_error ?x ?ty) /\ _ => destruct (add_error_frame x ty) as ([Hs Ht] & -> & -> & ->) end.
    split; [done|]. cbn. unfold kUtf8ReplacementChar. split; [lia|]. right. split_and!; lia.
Qed.

Lemma chars_total fuel it :
  Forall is_u8 (source it) -> tab_stop it <> 0 ->
  (current it = -1 \/ (1 <= width it)%nat /\ (start it + width it <= length (source it))%nat /\
    (length (source it) - start it <= fuel)%nat) ->
  exists cs it', chars fuel it = Ok (Some (cs, it')) /\ (length cs <= length (source it) - start it)%nat.
Proof.
  revert it; induction fuel as [|fuel IH]; intros it Hb Ht Hor; cbn [chars].
  { destruct Hor as [->|]; [|lia]. exists [], it. split; [done|simpl; lia]. }
  destruct (Z.eqb_spec (current it) (-1)) as [E|E]; [exists [], it; split; [done|simpl; lia]|].
  destruct Hor as [|(Hw & Hend & Hf)]; [done|]. unfold utf8iterator_next.
  destruct (update_position_ok it Ht) as [p ->]. rewrite bind_Ok. set (it1 := set_start _ _).
  destruct (read_char_ok it1 Hb) as (it2 & -> & [Hs2 Ht2] & Hst & Hor2). rewrite bind_Ok.
  assert (Hst1 : (start it1 = start it + width it)%nat) by done.
  assert (Hsrc : source it1 = source it) by done. rewrite Hsrc in *.
  assert (Htab : tab_stop it1 = tab_stop it) by done. rewrite Htab in *.
  destruct (IH it2) as (cs & it' & -> & Hl).
  - by rewrite Hs2.
  - by rewrite Ht2.
  - rewrite Hs2. destruct Hor2 as [[_ ?]|(? & ? & ?)]; [by left|right]. split_and!; lia.
  - rewrite bind_Ok. rewrite Hs2 in Hl. exists (current it :: cs), it'. split; [done|].
    destruct Hor2 as [[Hge Hcur]|(? & ? & ?)]; [|simpl; lia].
    cbn [length]. lia.
Qed.

(** C15: Iterating over any bytes ends, with a tab stop other than 0: the iterator is
    defined on every input, valid UTF-8 or not, consumes at least one byte per character, and reaches the
    end of the input after at most as many characters as there are bytes; no
    assertion fails. *)
Theorem utf8_iteration_total old (src : list Z) (maxe tabs : Z) (Hb : Forall is_u8 src) (Htab : tabs <> 0) :
  exists it cs it', utf8iterator_init old src maxe tabs = Ok it /\
    chars (length src) it = Ok (Some (cs, it')) /\ (length cs <= length src)%nat.
Proof.
  unfold utf8iterator_init. set (it0 := Iter _ _ _ _ _ _ _ _ _ _).
  destruct (read_char_ok it0 Hb) as (it & Hit & [Hs Ht] & Hst & Hor). exists it.
  assert (Hsrc : source it0 = src) by done. assert (Htb : tab_stop it0 = tabs) by done.
  rewrite Hsrc in *. rewrite Htb in Ht.
  destruct (chars_total (length src) it) as (cs & it' & Hc & Hl).
  - by rewrite Hs.
  - by rewrite Ht.
  - rewrite Hs. destruct Hor as [[_ ?]|(? & ? & ?)]; [by left|right]. split_and!; lia.
  - exists cs, it'. split_and!; [done|done|]. rewrite Hs in Hl. lia.
Qed.

(** * Concrete runs *)
Lemma utf8_decoder_spec_witness :
  scan UTF8_ACCEPT 0 0 [0xE2; 0x82; 0xAC; 0x41] = Ok (Accepted 2 0x20AC).
Proof. apply (utf8_decoder_spec [0xE2; 0x82; 0xAC; 0x41]). by repeat constructor. Defined.

Lemma utf8_roundtrip_witness :
  exists it it', utf8iterator_init (0%nat, Pos 0 0 0) (encode [0x41; 0xE9; 0x20AC; 0x1F600]) (-1) 8 = Ok it /\
    chars 4 it = Ok (Some ([0x41; 0xE9; 0x20AC; 0x1F600], it')) /\ errors it' = [].
Proof. apply (utf8_roundtrip (0%nat, Pos 0 0 0) [0x41; 0xE9; 0x20AC; 0x1F600] (-1) 8); [by_decide|done]. Defined.

Lemma utf8_iteration_total_witness :
  exists it cs it', utf8iterator_init (0%nat, Pos 0 0 0) [0xC0; 0x80; 13; 10; 0xE2; 0x82] (-1) 8 = Ok it /\
    chars 6 it = Ok (Some (cs, it')) /\ (length cs <= 6)%nat.
Proof. apply (utf8_iteration_total (0%nat, Pos 0 0 0) [0xC0; 0x80; 13; 10; 0xE2; 0x82] (-1) 8); [by_decide|done]. Defined.

End Utf8.
