(* ===== verification/CharRef.v ===== *)
(** gumbo-parser/src/char_ref.c: character references.

    The scanner of the named references is a state machine of some twenty thousand
    lines that Ragel generates, the subject of CharRefScan; here it is the parameter
    [scan_named], which gives for the bytes from the cursor the code points and the
    length of the longest reference they start with, if any.  What the code around it
    does with that result, and the numeric references, are modelled as written. *)
From S2P Require Import Prelude GumboTags GumboBase Utf8.
Import GumboBase Utf8.

Module CharRef.

Definition kGumboNoChar : Z := -1.

Record OneOrTwoCodepoints := Codepoints { first : Z; second : Z }.

Definition kCharReplacements : list (Z * Z) := [
  (0x00, 0xfffd); (0x0d, 0x000d); (0x80, 0x20ac); (0x81, 0x0081); (0x82, 0x201A);
  (0x83, 0x0192); (0x84, 0x201E); (0x85, 0x2026); (0x86, 0x2020);
  (0x87, 0x2021); (0x88, 0x02C6); (0x89, 0x2030); (0x8A, 0x0160);
  (0x8B, 0x2039); (0x8C, 0x0152); (0x8D, 0x008D); (0x8E, 0x017D);
  (0x8F, 0x008F); (0x90, 0x0090); (0x91, 0x2018); (0x92, 0x2019);
  (0x93, 0x201C); (0x94, 0x201D); (0x95, 0x2022); (0x96, 0x2013);
  (0x97, 0x2014); (0x98, 0x02DC); (0x99, 0x2122); (0x9A, 0x0161);
  (0x9B, 0x203A); (0x9C, 0x0153); (0x9D, 0x009D); (0x9E, 0x017E);
  (0x9F, 0x0178); (-1, -1)].

Definition parse_digit (c : Z) (allow_hex : bool) : Z :=
  if (48 <=? c) && (c <=? 57) then c - 48
  else if allow_hex && (97 <=? c) && (c <=? 102) then c - 97 + 10
  else if allow_hex && (65 <=? c) && (c <=? 70) then c - 65 + 10
  else -1.

(** The error at the mark. *)
Definition error_at_mark (it : Utf8Iterator) (type : GumboErrorType) (v : GumboErrorValue) : Utf8Iterator :=
  gumbo_add_error it (utf8iterator_fill_error_at_mark it (Error type (Pos 0 0 0) 0 v)).

Definition add_no_digit_error (it : Utf8Iterator) : Utf8Iterator :=
  error_at_mark it GUMBO_ERR_NUMERIC_CHAR_REF_NO_DIGITS ErrUnset.

(** The [int] is converted to 64 bits. *)
Definition add_codepoint_error (it : Utf8Iterator) (type : GumboErrorType) (codepoint : Z) : Utf8Iterator :=
  error_at_mark it type (ErrCodepoint (u64 codepoint)).

Definition add_named_reference_error (it : Utf8Iterator) (type : GumboErrorType) (text : list Z) : Utf8Iterator :=
  error_at_mark it type (ErrText text).

(** The loop over the table, up to the terminator. *)
Fixpoint find_replacement (table : list (Z * Z)) (codepoint : Z) : outcome Z :=
  match table with
  | [] => Undef
  | (from_char, to_char) :: table =>
      if from_char =? -1 then Ok (-1)
      else if from_char =? codepoint then Ok to_char else find_replacement table codepoint
  end.

Definition maybe_replace_codepoint (codepoint : Z) : outcome Z :=
  find_replacement kCharReplacements codepoint.

(** The loop over the digits.  [int] arithmetic that overflows is undefined.
    Every digit takes a byte of the input, so as many iterations as the input has
    bytes are enough; [None] when they are not. *)
Fixpoint numeric_ref_digits (fuel : nat) (is_hex : bool) (codepoint digit : Z) (it : Utf8Iterator)
  : outcome (option (Z * Utf8Iterator)) :=
  match fuel with
  | O => Ok None
  | S fuel =>
      let codepoint := codepoint * (if is_hex then 16 else 10) + digit in
      if 2 ^ 31 <=? codepoint then Undef
      else
        it ← utf8iterator_next it;
        let digit := parse_digit (utf8iterator_current it) is_hex in
        if negb (digit =? -1) then numeric_ref_digits fuel is_hex codepoint digit it
        else Ok (Some (codepoint, it))
  end.

(** From the character after the digits on. *)
Definition numeric_ref_end (codepoint : Z) (it : Utf8Iterator) : outcome (Utf8Iterator * Z * bool) :=
  '(it, status) ←
    (if negb (utf8iterator_current it =? 59) then
       Ok (add_codepoint_error it GUMBO_ERR_NUMERIC_CHAR_REF_WITHOUT_SEMICOLON codepoint, false)
     else it ← utf8iterator_next it; Ok (it, true));
  replacement ← maybe_replace_codepoint codepoint;
  if negb (replacement =? -1) then
    Ok (add_codepoint_error it GUMBO_ERR_NUMERIC_CHAR_REF_INVALID codepoint, replacement, false)
  else if ((0xd800 <=? codepoint) && (codepoint <=? 0xdfff)) || (0x10ffff <? codepoint) then
    Ok (add_codepoint_error it GUMBO_ERR_NUMERIC_CHAR_REF_INVALID codepoint, 0xfffd, false)
  else
    let '(it, status) :=
      if utf8_is_invalid_code_point codepoint || (codepoint =? 0xb) then
        (add_codepoint_error it GUMBO_ERR_NUMERIC_CHAR_REF_INVALID codepoint, false)
      else (it, status) in
    Ok (it, codepoint, status).

(** The iterator, [*output] and the result; [None] when the loop is out of fuel. *)
Definition consume_numeric_ref (it : Utf8Iterator) : outcome (option (Utf8Iterator * Z * bool)) :=
  it ← utf8iterator_next it;
  '(it, is_hex) ←
    (let c := utf8iterator_current it in
     if (c =? 120) || (c =? 88) then it ← utf8iterator_next it; Ok (it, true) else Ok (it, false));
  let digit := parse_digit (utf8iterator_current it) is_hex in
  if digit =? -1 then
    it ← utf8iterator_reset (add_no_digit_error it);
    Ok (Some (it, kGumboNoChar, false))
  else
    r ← numeric_ref_digits (length (source it)) is_hex 0 digit it;
    match r with
    | None => Ok None
    | Some (codepoint, it) => r ← numeric_ref_end codepoint it; Ok (Some r)
    end.

(** [isalnum] of the C locale.  For a [char] from 128 on, which is negative and for which
    the C standard does not define the call, it is the [false] that the tables of the
    common libraries hold. *)
Definition isalnum (c : Z) : bool :=
  ((97 <=? c) && (c <=? 122)) || ((65 <=? c) && (c <=? 90)) || ((48 <=? c) && (c <=? 57)).

(** The loop over the letters and digits; fuel as above. *)
Fixpoint skip_alnum (fuel : nat) (it : Utf8Iterator) : outcome (option Utf8Iterator) :=
  match fuel with
  | O => Ok None
  | S fuel =>
      if isalnum (utf8iterator_current it) then it ← utf8iterator_next it; skip_alnum fuel it
      else Ok (Some it)
  end.

Definition maybe_add_invalid_named_reference (it : Utf8Iterator) : outcome (option (Utf8Iterator * bool)) :=
  let start_ := utf8iterator_get_char_pointer it in
  r ← skip_alnum (length (source it) + 1) it;
  match r with
  | None => Ok None
  | Some it =>
      if utf8iterator_current it =? 59 then
        let bad_ref := take (utf8iterator_get_char_pointer it - start_) (drop start_ (source it)) in
        Ok (Some (add_named_reference_error it GUMBO_ERR_NAMED_CHAR_REF_INVALID bad_ref, false))
      else Ok (Some (it, true))
  end.

Section named.
(** The code points and the length of the reference that the bytes start with. *)
Context (scan_named : list Z -> option (OneOrTwoCodepoints * nat)).

Definition consume_named_ref (it : Utf8Iterator) (is_in_attribute : bool)
  : outcome (option (Utf8Iterator * OneOrTwoCodepoints * bool)) :=
  let start_ := utf8iterator_get_char_pointer it in
  match scan_named (drop start_ (source it)) with
  | Some (output, len) =>
      _ ← c_assert (negb (first output =? kGumboNoChar));
      last_char ← load (source it) (start_ + len - 1);
      let name := take len (drop start_ (source it)) in
      if last_char =? 59 then
        '(it, matched) ← utf8iterator_maybe_consume_match it name true;
        _ ← c_assert matched;
        Ok (Some (it, output, true))
      else
        in_text ← (if is_in_attribute then
                     te ← load (source it) (start_ + len); Ok ((te =? 61) || isalnum te)
                   else Ok false);
        if (in_text : bool) then
          it ← utf8iterator_reset it;
          Ok (Some (it, Codepoints kGumboNoChar kGumboNoChar, true))
        else
          let it := add_named_reference_error it GUMBO_ERR_NAMED_CHAR_REF_WITHOUT_SEMICOLON name in
          '(it, matched) ← utf8iterator_maybe_consume_match it name true;
          _ ← c_assert matched;
          Ok (Some (it, output, false))
  | None =>
      r ← maybe_add_invalid_named_reference it;
      match r with
      | None => Ok None
      | Some (it, status) =>
          it ← utf8iterator_reset it;
          Ok (Some (it, Codepoints kGumboNoChar kGumboNoChar, status))
      end
  end.

Definition consume_char_ref (it : Utf8Iterator) (additional_allowed_char : Z) (is_in_attribute : bool)
  : outcome (option (Utf8Iterator * OneOrTwoCodepoints * bool)) :=
  let none := Codepoints kGumboNoChar kGumboNoChar in
  it ← utf8iterator_next (utf8iterator_mark it);
  let c := utf8iterator_current it in
  if c =? additional_allowed_char then
    it ← utf8iterator_reset it; Ok (Some (it, none, true))
  else if (c =? 9) || (c =? 10) || (c =? 12) || (c =? 32) || (c =? 60) || (c =? 38) || (c =? -1) then
    it ← utf8iterator_reset it; Ok (Some (it, none, true))
  else if c =? 35 then
    r ← consume_numeric_ref it;
    Ok (match r with
        | None => None
        | Some (it, output, status) => Some (it, Codepoints output kGumboNoChar, status)
        end)
  else consume_named_ref it is_in_attribute.
End named.

(** * The iterator over ASCII text *)

(** The cursor is on the byte [b], before [rest]. *)
Definition at_byte (it : Utf8Iterator) (b : Z) (rest : list Z) : Prop :=
  drop (start it) (source it) = b :: rest /\ current it = b /\ width it = 1%nat /\
  Forall is_u8 (source it) /\ tab_stop it <> 0.

(** A byte that is a character of its own. *)
Definition printable (c : Z) : Prop := 32 <= c < 0x7F.

Lemma printable_plain c : printable c -> plain c /\ codepoint_bytes c = [c].
Proof.
  unfold printable. intros Hc. split.
  - split_and!; [unfold scalar; lia|lia|]. apply (Forall_forall (fun c => utf8_is_invalid_code_point c = false)
      (seqZ 32 95)); [by_decide|]. apply elem_of_seqZ. lia.
  - rewrite codepoint_bytes_arith by lia. by replace (c <=? 0x7f) with true by (symmetry; apply Z.leb_le; lia).
Qed.

Lemma advance it b rest :
  at_byte it b rest -> exists it1, update_position it = Ok it1 /\
    drop (start it1 + width it1) (source it1) = rest /\ source it1 = source it /\
    width it1 = width it /\ start it1 = start it /\ tab_stop it1 = tab_stop it.
Proof.
  intros (Hd & Hc & Hw & Hu & Ht). destruct (update_position_ok it Ht) as [p ->]. eexists. split; [done|].
  cbn. rewrite Hw. split; [by apply (drop_source it [b])|done].
Qed.

Lemma next_printable it b c rest :
  at_byte it b (c :: rest) -> printable c ->
  exists it', utf8iterator_next it = Ok it' /\ at_byte it' c rest /\ source it' = source it.
Proof.
  intros H Hc. destruct (advance it b (c :: rest) H) as (it1 & E & Hd & Hs & Hw & _ & Ht).
  destruct H as (_ & _ & _ & Hu & Htab). unfold utf8iterator_next. rewrite E, bind_Ok.
  destruct (printable_plain c Hc) as [Hp Hcb].
  rewrite (read_char_plain (set_start it1 (start it1 + width it1)) c rest); [|by rewrite Hcb|done|by cbn; rewrite Hs].
  eexists. split; [done|]. split; [|done]. rewrite Hcb. split_and!; cbn; try done; [by rewrite Hs|by rewrite Ht].
Qed.

(** A printable character is read where its byte is, and only there. *)
Lemma read_char_printable it it' c :
  read_char it = Ok it' -> Forall is_u8 (source it) -> printable c -> current it' = c ->
  head (drop (start it) (source it)) = Some c.
Proof.
  unfold printable. intros Hr Hu Hc Hcur. unfold read_char in Hr.
  destruct (Nat.leb_spec (length (source it)) (start it)); [injection Hr as <-; cbn in Hcur; lia|].
  rewrite scan_ref, bind_Ok in Hr by (by apply Forall_drop).
  pose proof (ref_scan_bounds _ (Forall_drop _ (start it) _ Hu)) as HB. destruct (ref_scan _) as [i r|i|].
  - destruct HB as (_ & Hr0 & HB). unfold accept_char in Hr.
    assert (Hbig : r = c).
    { destruct (Z.eqb_spec r 13) as [E13|Hne].
      - rewrite E13 in HB. rewrite (proj1 (HB ltac:(lia))) in Hr. cbn [set_width width Nat.add Nat.eqb c_assert] in Hr.
        rewrite !bind_Ok in Hr. cbn in Hr. injection Hr as <-. cbn in Hcur. lia.
      - rewrite bind_Ok in Hr. destruct (utf8_is_invalid_code_point r); injection Hr as <-; cbn in Hcur;
          unfold kUtf8ReplacementChar in Hcur; lia. }
    rewrite Hbig in *. destruct HB as [_ HB]; [lia|]. destruct (drop _ _); [done|]. done.
  - injection Hr as <-. match type of Hcur with current (add_error ?x ?ty) = _ =>
      destruct (add_error_frame x ty) as (_ & _ & _ & E); rewrite E in Hcur end. cbn in Hcur.
    unfold kUtf8ReplacementChar in Hcur. lia.
  - injection Hr as <-. match type of Hcur with current (add_error ?x ?ty) = _ =>
      destruct (add_error_frame x ty) as (_ & _ & _ & E); rewrite E in Hcur end. cbn in Hcur.
    unfold kUtf8ReplacementChar in Hcur. lia.
Qed.

Lemma next_any it b rest :
  at_byte it b rest -> exists it', utf8iterator_next it = Ok it' /\ source it' = source it /\
    forall c, printable c -> current it' = c <-> head rest = Some c.
Proof.
  intros H. destruct (advance it b rest H) as (it1 & E & Hd & Hs & Hw & _ & Ht).
  destruct rest as [|c0 rest].
  - destruct H as (_ & _ & _ & Hu & Htab). unfold utf8iterator_next. rewrite E, bind_Ok.
    destruct (read_char_ok (set_start it1 (start it1 + width it1))) as (it' & Hr & [Hs' _] & _); [by cbn; rewrite Hs|].
    exists it'. split_and!; [done|by rewrite Hs'|]. intros c Hc. split; [|done]. intros Hcur.
    pose proof (read_char_printable _ _ _ Hr ltac:(by cbn; rewrite Hs) Hc Hcur) as Hh. cbn in Hh. by rewrite Hd in Hh.
  - destruct (decide (32 <= c0 < 0x7F)) as [Hp|Hp].
    + destruct (next_printable it b c0 rest H Hp) as (it' & -> & (_ & Hc & _) & Hs').
      exists it'. split_and!; [done|done|]. intros c _. rewrite Hc. cbn. naive_solver.
    + destruct H as (_ & _ & _ & Hu & Htab). unfold utf8iterator_next. rewrite E, bind_Ok.
      destruct (read_char_ok (set_start it1 (start it1 + width it1))) as (it' & Hr & [Hs' _] & _); [by cbn; rewrite Hs|].
      exists it'. split_and!; [done|by rewrite Hs'|]. intros c Hc. split; [|unfold printable in Hc; cbn; naive_solver].
      intros Hcur. pose proof (read_char_printable _ _ _ Hr ltac:(by cbn; rewrite Hs) Hc Hcur) as Hh.
      cbn in Hh. by rewrite Hd in Hh.
Qed.

(** * Numeric references *)
Definition is_digit (hex : bool) (c : Z) : bool := negb (parse_digit c hex =? -1).

Definition base (hex : bool) : Z := if hex then 16 else 10.

(** The number that a list of digits denotes, after [n]. *)
Definition value (hex : bool) (n : Z) (ds : list Z) : Z :=
  fold_left (fun n d => n * base hex + parse_digit d hex) ds n.

Lemma digit_range hex c : is_digit hex c = true -> printable c /\ 0 <= parse_digit c hex.
Proof.
  unfold is_digit, parse_digit, printable. intros H.
  destruct ((48 <=? c) && (c <=? 57)) eqn:E1; [apply andb_true_iff in E1; rewrite !Z.leb_le in E1; lia|].
  destruct (hex && (97 <=? c) && (c <=? 102)) eqn:E2; [rewrite !andb_true_iff, !Z.leb_le in E2; lia|].
  destruct (hex && (65 <=? c) && (c <=? 70)) eqn:E3; [rewrite !andb_true_iff, !Z.leb_le in E3; lia|].
  done.
Qed.

Lemma value_mono hex ds n : 0 <= n -> Forall (fun d => is_digit hex d = true) ds -> n <= value hex n ds.
Proof.
  revert n; induction ds as [|d ds IH]; intros n Hn H; [reflexivity|].
  apply Forall_cons_1 in H as [Hd H]. apply digit_range in Hd as [_ Hd].
  assert (n <= n * base hex + parse_digit d hex) by (unfold base; destruct hex; lia).
  etransitivity; [|apply (IH (n * base hex + parse_digit d hex)); [lia|done]]. done.
Qed.

Lemma not_digit hex it rest :
  (forall c, printable c -> current it = c <-> head rest = Some c) ->
  (forall c, head rest = Some c -> is_digit hex c = false) ->
  parse_digit (current it) hex = -1.
Proof.
  intros Hc Hr. destruct (is_digit hex (current it)) eqn:E.
  - pose proof (digit_range _ _ E) as [Hp _]. rewrite (Hr (current it)) in E; [done|]. by apply Hc.
  - unfold is_digit in E. by apply negb_false_iff, Z.eqb_eq in E.
Qed.

(** The loop reads the digits and stops after them; it overflows exactly when the
    number does not fit in an [int]. *)
Lemma numeric_ref_digits_ok fuel hex n d ds rest it :
  (length ds < fuel)%nat -> 0 <= n -> at_byte it d (ds ++ rest) ->
  Forall (fun d => is_digit hex d = true) (d :: ds) ->
  (forall c, head rest = Some c -> is_digit hex c = false) ->
  if 2 ^ 31 <=? value hex n (d :: ds)
  then numeric_ref_digits fuel hex n (parse_digit d hex) it = Undef
  else exists it1 last it2, next_n (length ds) it = Ok it1 /\ at_byte it1 last rest /\
    utf8iterator_next it1 = Ok it2 /\ source it1 = source it /\
    numeric_ref_digits fuel hex n (parse_digit d hex) it = Ok (Some (value hex n (d :: ds), it2)).
Proof.
  revert n d ds it; induction fuel as [|fuel IH]; intros n d ds it Hf Hn Hat HF Hrest; [lia|].
  apply Forall_cons_1 in HF as [Hd HF]. pose proof (digit_range _ _ Hd) as [_ Hd0].
  set (n' := n * base hex + parse_digit d hex).
  assert (Hn' : 0 <= n') by (unfold n', base; destruct hex; lia).
  change (value hex n (d :: ds)) with (value hex n' ds). cbn [numeric_ref_digits].
  change (n * (if hex then 16 else 10) + parse_digit d hex) with n'.
  pose proof (value_mono hex ds n' Hn' HF) as Hm.
  destruct (Z.leb_spec (2 ^ 31) n') as [Hbig|Hsmall].
  { by replace (2 ^ 31 <=? value hex n' ds) with true by (symmetry; apply Z.leb_le; lia). }
  destruct ds as [|d2 ds].
  - replace (2 ^ 31 <=? value hex n' []) with false by (symmetry; by apply Z.leb_gt).
    destruct (next_any it d rest Hat) as (it2 & Hnext & _ & Hc). exists it, d, it2.
    split_and!; try done. rewrite Hnext, bind_Ok. unfold utf8iterator_current.
    by rewrite (not_digit hex it2 rest Hc Hrest).
  - pose proof (Forall_inv HF) as Hd2. pose proof (digit_range _ _ Hd2) as [Hp2 _].
    destruct (next_printable it d d2 (ds ++ rest) Hat Hp2) as (it' & Hnext & Hat' & Hs').
    rewrite Hnext, bind_Ok. replace (utf8iterator_current it') with d2 by (symmetry; apply Hat').
    unfold is_digit in Hd2. cbn beta in Hd2. rewrite Hd2.
    specialize (IH n' d2 ds it' ltac:(simpl in Hf; lia) Hn' Hat' HF Hrest).
    destruct (2 ^ 31 <=? value hex n' (d2 :: ds)); [done|].
    destruct IH as (it1 & l & it2 & H1 & H2 & H3 & H4 & H5). exists it1, l, it2.
    cbn [length next_n]. rewrite Hnext, bind_Ok. split_and!; try done. congruence.
Qed.

(** The standard's table for 0x80 to 0x9F: the characters of Windows-1252. *)
Definition windows_1252 : list Z := [
  0x20AC; 0x81; 0x201A; 0x192; 0x201E; 0x2026; 0x2020; 0x2021; 0x2C6; 0x2030; 0x160; 0x2039; 0x152; 0x8D;
  0x17D; 0x8F; 0x90; 0x2018; 0x2019; 0x201C; 0x201D; 0x2022; 0x2013; 0x2014; 0x2DC; 0x2122; 0x161; 0x203A;
  0x153; 0x9D; 0x17E; 0x178].

(** The character that the number [n] refers to. *)
Definition ref_output (n : Z) : Z :=
  if n =? 0 then 0xFFFD
  else if (0x80 <=? n) && (n <=? 0x9F) then nth (Z.to_nat (n - 0x80)) windows_1252 0
  else if bool_decide (scalar n) then n else 0xFFFD.

(** The numbers that are an error. *)
Definition ref_bad (n : Z) : bool :=
  (n =? 0) || (n =? 13) || ((0x80 <=? n) && (n <=? 0x9F)) || negb (bool_decide (scalar n)) ||
  utf8_is_invalid_code_point n.

Lemma find_replacement_above table n :
  Forall (fun p => p.1 < 256) table -> 256 <= n -> -1 ∈ map fst table -> find_replacement table n = Ok (-1).
Proof.
  induction table as [|[f t] table IH]; intros HF Hn Hin; [by apply elem_of_nil in Hin|].
  apply Forall_cons_1 in HF as [Hf HF]. cbn in Hf. cbn [find_replacement].
  destruct (Z.eqb_spec f (-1)) as [|Hne]; [done|].
  replace (f =? n) with false by (symmetry; apply Z.eqb_neq; lia). apply IH; [done|done|].
  cbn in Hin. apply elem_of_cons in Hin as [|]; [by destruct Hne|done].
Qed.

Definition replaced (n : Z) : Z :=
  if (n =? 0) || (n =? 13) || ((0x80 <=? n) && (n <=? 0x9F)) then ref_output n else -1.

Lemma maybe_replace_ok n : 0 <= n -> maybe_replace_codepoint n = Ok (replaced n).
Proof.
  intros Hn. destruct (Z.lt_ge_cases n 256) as [Hlt|Hge].
  - assert (H : Forall (fun n => match maybe_replace_codepoint n with Ok x => x =? replaced n | _ => false end = true)
      (seqZ 0 256)) by by_decide.
    pose proof (Tags.forall_bytes _ n H (conj Hn Hlt)) as HB. cbn beta in HB.
    destruct (maybe_replace_codepoint n); try done. apply Z.eqb_eq in HB. by subst.
  - unfold maybe_replace_codepoint. rewrite find_replacement_above; [|by_decide|done|by_decide].
    unfold replaced. by replace (_ || _) with false
      by (symmetry; rewrite !orb_false_iff, andb_false_iff, !Z.eqb_neq, !Z.leb_gt; lia).
Qed.

(** The errors of a reference to [n]. *)
Definition ref_errors (semicolon : bool) (n : Z) : list GumboErrorType :=
  (if semicolon then [] else [GUMBO_ERR_NUMERIC_CHAR_REF_WITHOUT_SEMICOLON]) ++
  (if ref_bad n then [GUMBO_ERR_NUMERIC_CHAR_REF_INVALID] else []).

Definition add_errors (it : Utf8Iterator) (n : Z) (ts : list GumboErrorType) : Utf8Iterator :=
  fold_left (fun it t => add_codepoint_error it t n) ts it.

Lemma invalid_11 n : utf8_is_invalid_code_point n || (n =? 0xb) = utf8_is_invalid_code_point n.
Proof. destruct (Z.eqb_spec n 0xb) as [->|]; [done|]. by rewrite orb_false_r. Qed.

Lemma scalar_bool n : 0 <= n ->
  ((0xd800 <=? n) && (n <=? 0xdfff)) || (0x10ffff <? n) = negb (bool_decide (scalar n)).
Proof.
  intros Hn. unfold scalar. case_bool_decide as E; cbn [negb].
  - rewrite orb_false_iff, andb_false_iff, Z.ltb_ge, !Z.leb_gt. lia.
  - rewrite orb_true_iff, andb_true_iff, Z.ltb_lt, !Z.leb_le. lia.
Qed.

(** What follows once the character after the digits has been looked at. *)
Lemma numeric_ref_value n it (semicolon : bool) :
  0 <= n ->
  (replacement ← maybe_replace_codepoint n;
   if negb (replacement =? -1) then
     Ok (add_codepoint_error it GUMBO_ERR_NUMERIC_CHAR_REF_INVALID n, replacement, false)
   else if ((0xd800 <=? n) && (n <=? 0xdfff)) || (0x10ffff <? n) then
     Ok (add_codepoint_error it GUMBO_ERR_NUMERIC_CHAR_REF_INVALID n, 0xfffd, false)
   else
     let '(it, status) :=
       if utf8_is_invalid_code_point n || (n =? 0xb) then
         (add_codepoint_error it GUMBO_ERR_NUMERIC_CHAR_REF_INVALID n, false)
       else (it, semicolon) in
     Ok (it, n, status)) =
  Ok (add_errors it n (if ref_bad n then [GUMBO_ERR_NUMERIC_CHAR_REF_INVALID] else []), ref_output n,
      semicolon && negb (ref_bad n)).
Proof.
  intros Hn. rewrite maybe_replace_ok, bind_Ok, scalar_bool, invalid_11 by done. unfold replaced, ref_bad.
  destruct ((n =? 0) || (n =? 13) || ((0x80 <=? n) && (n <=? 0x9F))) eqn:E.
  - assert (negb (ref_output n =? -1) = true) as ->.
    { apply negb_true_iff, Z.eqb_neq. assert (n < 256).
      { rewrite !orb_true_iff, andb_true_iff, !Z.eqb_eq, !Z.leb_le in E. lia. }
      apply (Tags.forall_bytes (fun n => ref_output n <> -1) n); [by_decide|done]. }
    cbn [orb add_errors fold_left negb]. by rewrite andb_false_r.
  - cbn [negb Z.eqb Pos.eqb orb]. rewrite !orb_false_iff in E. destruct E as [[E1 _] E2].
    unfold ref_output. rewrite E1, E2.
    case_bool_decide; cbn [negb orb]; [|by rewrite andb_false_r].
    destruct (utf8_is_invalid_code_point n); cbn [negb add_errors fold_left].
    + by rewrite andb_false_r.
    + by rewrite andb_true_r.
Qed.

(** After the digits: the semicolon, if there is one, is consumed. *)
Lemma numeric_ref_end_ok n last rest it it2 :
  0 <= n -> at_byte it last rest -> utf8iterator_next it = Ok it2 ->
  let semicolon := bool_decide (head rest = Some 59) in
  exists it3, next_n (if semicolon then 1 else 0)%nat it2 = Ok it3 /\
    numeric_ref_end n it2 = Ok (add_errors it3 n (ref_errors semicolon n), ref_output n,
                                bool_decide (ref_errors semicolon n = [])).
Proof.
  intros Hn Hat Hnext semicolon. unfold numeric_ref_end, utf8iterator_current.
  destruct (next_any it last rest Hat) as (it2' & Hnext' & Hs & Hc).
  rewrite Hnext in Hnext'. injection Hnext' as <-.
  assert (Hsemi : (current it2 =? 59) = semicolon).
  { unfold semicolon. case_bool_decide as E; [apply Z.eqb_eq|apply Z.eqb_neq]; rewrite (Hc 59); done. }
  rewrite Hsemi. destruct semicolon eqn:Es; cbn [negb].
  - unfold semicolon in Es. apply bool_decide_eq_true_1 in Es. destruct rest as [|c rest]; [done|].
    injection Es as ->. destruct (next_printable it last 59 rest Hat ltac:(done)) as (it2' & Hnext' & Hat2 & _).
    rewrite Hnext in Hnext'. injection Hnext' as <-.
    destruct (next_any it2 59 rest Hat2) as (it3 & Hnext3 & _). exists it3. cbn [next_n]. rewrite Hnext3.
    split; [done|]. rewrite !bind_Ok, numeric_ref_value by done. unfold ref_errors. cbn [app andb].
    by destruct (ref_bad n).
  - exists it2. split; [done|]. rewrite bind_Ok, numeric_ref_value by done.
    unfold ref_errors. by destruct (ref_bad n).
Qed.

(** The marker of a hexadecimal reference. *)
Definition marker_ok (hex : bool) (m : list Z) : Prop := if hex then m = [120] \/ m = [88] else m = [].

Lemma next_n_app a b it it1 : next_n a it = Ok it1 -> next_n (a + b) it = next_n b it1.
Proof.
  revert it; induction a as [|a IH]; intros it H; [by injection H as ->|]. cbn [next_n Nat.add] in *.
  destruct (utf8iterator_next it) as [it'| |]; try done. rewrite bind_Ok in *. by apply IH.
Qed.

(** The digits and what follows them, from the first digit on. *)
Lemma numeric_ref_tail_ok hex d ds rest it :
  at_byte it d (ds ++ rest) -> Forall (fun d => is_digit hex d = true) (d :: ds) ->
  (forall c, head rest = Some c -> is_digit hex c = false) ->
  let n := value hex 0 (d :: ds) in
  let semicolon := bool_decide (head rest = Some 59) in
  let r := (r ← numeric_ref_digits (length (source it)) hex 0 (parse_digit d hex) it;
            match r with
            | None => Ok None
            | Some (codepoint, it) => r ← numeric_ref_end codepoint it; Ok (Some r)
            end) in
  if 2 ^ 31 <=? n then r = Undef
  else exists it', next_n (length (d :: ds) + if semicolon then 1 else 0) it = Ok it' /\
    r = Ok (Some (add_errors it' n (ref_errors semicolon n), ref_output n,
                  bool_decide (ref_errors semicolon n = []))).
Proof.
  intros Hat HF Hrest n semicolon r.
  assert (Hlen : (length ds < length (source it))%nat).
  { destruct Hat as (Hd & _). apply (f_equal length) in Hd. rewrite length_drop in Hd. simpl in Hd.
    rewrite length_app in Hd. lia. }
  pose proof (numeric_ref_digits_ok _ hex 0 d ds rest it Hlen ltac:(lia) Hat HF Hrest) as H.
  pose proof (value_mono hex (d :: ds) 0 ltac:(lia) HF) as Hn0. unfold r, n.
  destruct (2 ^ 31 <=? value hex 0 (d :: ds)); [by rewrite H|].
  destruct H as (it1 & l & it2 & H1 & Hat1 & H2 & Hs & ->). rewrite bind_Ok.
  destruct (numeric_ref_end_ok (value hex 0 (d :: ds)) l rest it1 it2 Hn0 Hat1 H2) as (it3 & H3 & ->).
  exists it3. split; [|done]. cbn [length].
  replace (S (length ds) + (if semicolon then 1 else 0))%nat
    with (length ds + (1 + (if semicolon then 1 else 0)))%nat by lia.
  rewrite (next_n_app _ _ _ _ H1). cbn [next_n Nat.add]. by rewrite H2, bind_Ok.
Qed.

Lemma numeric_ref_ok hex m d ds rest it :
  at_byte it 35 (m ++ d :: ds ++ rest) -> marker_ok hex m ->
  Forall (fun d => is_digit hex d = true) (d :: ds) ->
  (forall c, head rest = Some c -> is_digit hex c = false) ->
  let n := value hex 0 (d :: ds) in
  let semicolon := bool_decide (head rest = Some 59) in
  if 2 ^ 31 <=? n then consume_numeric_ref it = Undef
  else exists it', next_n (length (m ++ d :: ds) + 1 + if semicolon then 1 else 0) it = Ok it' /\
    consume_numeric_ref it = Ok (Some (add_errors it' n (ref_errors semicolon n), ref_output n,
                                       bool_decide (ref_errors semicolon n = []))).
Proof.
  intros Hat Hm HF Hrest n semicolon. unfold consume_numeric_ref, utf8iterator_current.
  pose proof (Forall_inv HF) as Hd. pose proof (digit_range _ _ Hd) as [Hp _].
  assert (Hdig : (parse_digit d hex =? -1) = false) by (unfold is_digit in Hd; by apply negb_true_iff in Hd).
  assert (exists it1 it2, utf8iterator_next it = Ok it1 /\ next_n (length m) it1 = Ok it2 /\
    at_byte it2 d (ds ++ rest) /\
    (if (current it1 =? 120) || (current it1 =? 88) then it ← utf8iterator_next it1; Ok (it, true) else Ok (it1, false)) =
    Ok (it2, hex)) as (it1 & it2 & E1 & E2 & Hat2 & E3).
  { destruct hex; unfold marker_ok in Hm.
    - assert (exists x, m = [x] /\ printable x /\ (x =? 120) || (x =? 88) = true) as (x & -> & Hx & Hx').
      { destruct Hm as [-> | ->]; eexists; done. }
      destruct (next_printable it 35 x _ Hat Hx) as (it1 & E1 & Hat1 & _).
      destruct (next_printable it1 x d _ Hat1 Hp) as (it2 & E2 & Hat2 & _). exists it1, it2.
      cbn [length next_n]. replace (current it1) with x by (symmetry; apply Hat1). by rewrite E2, Hx', bind_Ok.
    - subst m. destruct (next_printable it 35 d _ Hat Hp) as (it1 & E1 & Hat1 & _). exists it1, it1.
      replace (current it1) with d by (symmetry; apply Hat1). split_and!; try done.
      unfold is_digit, parse_digit in Hd. cbn [andb] in Hd.
      destruct ((48 <=? d) && (d <=? 57)) eqn:Ed; [|done]. apply andb_true_iff in Ed. rewrite !Z.leb_le in Ed.
      by replace ((d =? 120) || (d =? 88)) with false by (symmetry; apply orb_false_iff; rewrite !Z.eqb_neq; lia). }
  rewrite E1, !bind_Ok, E3, !bind_Ok.
  replace (current it2) with d by (symmetry; apply Hat2). rewrite Hdig.
  pose proof (numeric_ref_tail_ok hex d ds rest it2 Hat2 HF Hrest) as H. cbn zeta in H.
  fold n semicolon in H. destruct (2 ^ 31 <=? n); [done|].
  destruct H as (it' & Hn & Hr). exists it'. split; [|exact Hr].
  rewrite length_app. replace (length m + length (d :: ds) + 1 + (if semicolon then 1 else 0))%nat
    with (1 + (length m + (length (d :: ds) + (if semicolon then 1 else 0))))%nat by lia.
  cbn [next_n Nat.add]. rewrite E1, bind_Ok. by rewrite (next_n_app _ _ _ _ E2).
Qed.

(** A numeric character reference [&#...;] or [&#x...;] gives the character that
    the HTML standard assigns to its number: the number itself if it is a Unicode
    scalar value, with the Windows-1252 characters for 0x80 to 0x9F and the
    replacement character for 0, surrogates and numbers beyond Unicode.  The digits
    and the semicolon are consumed; a missing semicolon and a forbidden number are
    recorded at the mark, and the result is false exactly if one was.  A number that
    does not fit in an [int] overflows, which is undefined. *)
Theorem numeric_char_ref_spec scan_named (it : Utf8Iterator) (hex : bool) (m ds rest : list Z) (d extra : Z) (attr : bool)
  (Hat : at_byte it 38 ([35] ++ m ++ d :: ds ++ rest)) (Hm : marker_ok hex m)
  (Hds : Forall (fun d => is_digit hex d = true) (d :: ds))
  (Hrest : forall c, head rest = Some c -> is_digit hex c = false) (Hextra : extra <> 35) :
  let n := value hex 0 (d :: ds) in
  let semicolon := bool_decide (head rest = Some 59) in
  if 2 ^ 31 <=? n then consume_char_ref scan_named it extra attr = Undef
  else exists it', next_n (length (m ++ d :: ds) + 2 + if semicolon then 1 else 0) (utf8iterator_mark it) = Ok it' /\
    consume_char_ref scan_named it extra attr =
    Ok (Some (add_errors it' n (ref_errors semicolon n), Codepoints (ref_output n) kGumboNoChar,
              bool_decide (ref_errors semicolon n = []))).
Proof.
  intros n semicolon. unfold consume_char_ref, utf8iterator_current.
  assert (Hmark : at_byte (utf8iterator_mark it) 38 ([35] ++ m ++ d :: ds ++ rest)) by exact Hat.
  destruct (next_printable _ 38 35 _ Hmark ltac:(done)) as (it1 & E1 & Hat1 & Hs1).
  rewrite E1, bind_Ok. replace (current it1) with 35 by (symmetry; apply Hat1).
  replace (35 =? extra) with false by (symmetry; apply Z.eqb_neq; done).
  cbn [Z.eqb Pos.eqb orb].
  pose proof (numeric_ref_ok hex m d ds rest it1 Hat1 Hm Hds Hrest) as H.
  cbn zeta in H. fold n semicolon in H. destruct (2 ^ 31 <=? n); [by rewrite H|].
  destruct H as (it' & Hn & ->). exists it'. split; [|done].
  replace (length (m ++ d :: ds) + 2 + (if semicolon then 1 else 0))%nat
    with (S (length (m ++ d :: ds) + 1 + (if semicolon then 1 else 0))) by lia.
  cbn [next_n]. by rewrite E1, bind_Ok.
Qed.

(** * Any input *)

(** The iterator has read a character: it is at the end of the input, or on a
    character of at least one byte, which is the byte itself if it is printable. *)
Definition it_ok (it : Utf8Iterator) : Prop :=
  Forall is_u8 (source it) /\ tab_stop it <> 0 /\
  ((current it = -1 /\ width it = 0%nat /\ start it = length (source it)) \/
   (current it <> -1 /\ (1 <= width it)%nat /\ (start it + width it <= length (source it))%nat)) /\
  (forall c, printable c -> current it = c -> source it !! start it = Some c /\ width it = 1%nat).

Lemma it_ok_le it : it_ok it -> (start it + width it <= length (source it))%nat.
Proof. intros (_ & _ & [(_ & -> & ->)|(_ & _ & H)] & _); lia. Qed.

(** Reading on: the input and the mark stay. *)
Definition moved (it it' : Utf8Iterator) : Prop :=
  it_ok it' /\ source it' = source it /\ mark it' = mark it /\ mark_pos it' = mark_pos it /\
  (start it <= start it')%nat.

Lemma moved_trans it1 it2 it3 : moved it1 it2 -> moved it2 it3 -> moved it1 it3.
Proof. unfold moved. intros (? & ? & ? & ? & ?) (? & ? & ? & ? & ?). split_and!; [done|congruence..|lia]. Qed.

Lemma moved_refl it : it_ok it -> moved it it.
Proof. by unfold moved. Qed.

Lemma gumbo_add_error_moved it it' e : moved it it' -> moved it (gumbo_add_error it' e).
Proof. unfold gumbo_add_error. by case_match. Qed.

Lemma read_char_mark it it' : read_char it = Ok it' -> mark it' = mark it /\ mark_pos it' = mark_pos it.
Proof.
  assert (HE : forall it ty, mark (add_error it ty) = mark it /\ mark_pos (add_error it ty) = mark_pos it).
  { intros. unfold add_error, gumbo_add_error. by case_match. }
  unfold read_char. destruct (_ <=? _)%nat; [by intros [= <-]|].
  destruct (scan _ _ _ _) as [[i c|i|]| |]; try done; rewrite bind_Ok.
  - unfold accept_char. destruct (c =? 13); [destruct (_ =? 1)%nat; [|done]; cbn [c_assert]; case_bool_decide|];
      rewrite ?bind_Ok; (destruct (utf8_is_invalid_code_point _); intros [= <-]; cbn;
        [match goal with |- context [mark (add_error ?x ?t)] => exact (HE x t) end|done]).
  - intros [= <-]. match goal with |- context [mark (add_error ?x ?t)] => exact (HE x t) end.
  - intros [= <-]. match goal with |- context [mark (add_error ?x ?t)] => exact (HE x t) end.
Qed.

(** Where reading a character leaves the cursor: a carriage return before a line
    feed is skipped. *)
Lemma read_char_shape it it' :
  read_char it = Ok it' -> Forall is_u8 (source it) -> (start it <= length (source it))%nat ->
  (start it' = start it \/
   start it' = S (start it) /\ source it !! start it = Some 13 /\ current it' = 10) /\
  (current it' = -1 -> start it' = start it /\ width it' = 0%nat /\ start it = length (source it)) /\
  (forall c, printable c -> current it' = c -> start it' = start it /\ width it' = 1%nat).
Proof.
  intros Hr Hu Hle. unfold read_char in Hr.
  destruct (Nat.leb_spec (length (source it)) (start it)).
  { injection Hr as <-. cbn. split_and!; [by left|intros _; split_and!; lia|]. unfold printable. intros c ? ?. lia. }
  assert (HE : forall x ty it', add_error (set_current x kUtf8ReplacementChar) ty = it' ->
    start x = start it -> (start it' = start it) /\ current it' = kUtf8ReplacementChar).
  { intros x ty it2 <- Hx. destruct (add_error_frame (set_current x kUtf8ReplacementChar) ty) as (_ & -> & _ & ->). done. }
  rewrite scan_ref, bind_Ok in Hr by (by apply Forall_drop).
  pose proof (ref_scan_bounds _ (Forall_drop _ (start it) _ Hu)) as HB. unfold printable, kUtf8ReplacementChar in *.
  destruct (ref_scan _) as [i r|i|].
  - destruct HB as (_ & Hr0 & HB). unfold accept_char in Hr. destruct (Z.eqb_spec r 13) as [E13|Hne].
    + rewrite E13 in HB. destruct (HB ltac:(lia)) as [-> Hb]. rewrite lookup_drop, Nat.add_0_r in Hb.
      cbn [set_width width Nat.add Nat.eqb c_assert] in Hr. rewrite !bind_Ok in Hr. cbn in Hr. injection Hr as <-.
      case_bool_decide; cbn; (split_and!; [|lia|lia]); [right; split_and!; [lia|done|done]|by left].
    + rewrite bind_Ok in Hr. destruct (utf8_is_invalid_code_point r) eqn:Ei; injection Hr as <-.
      * destruct (add_error_frame (set_width it (i + 1)) GUMBO_ERR_UTF8_INVALID) as (_ & E & _). cbn. rewrite E. cbn.
        unfold kUtf8ReplacementChar. split_and!; [by left|lia|]. intros c ? ?. lia.
      * cbn. split_and!; [by left|lia|]. intros c ? <-. destruct HB as [-> _]; [lia|]. done.
  - injection Hr as Hr. apply HE in Hr as [-> ->]; [|done]. split_and!; [by left|lia|lia].
  - injection Hr as Hr. apply (HE (set_width it (length (source it) - start it))) in Hr as [-> ->]; [|done]. split_and!; [by left|lia|lia].
Qed.

Lemma read_ok it :
  Forall is_u8 (source it) -> tab_stop it <> 0 -> (start it <= length (source it))%nat ->
  exists it', read_char it = Ok it' /\ moved it it' /\
    (start it' = start it \/
     start it' = S (start it) /\ source it !! start it = Some 13 /\ current it' = 10).
Proof.
  intros Hu Ht Hle. destruct (read_char_ok it Hu) as (it' & Hr & [Hs Htab] & Hst & Hor). exists it'.
  destruct (read_char_mark _ _ Hr). destruct (read_char_shape it it' Hr Hu Hle) as (H1 & H2 & H3).
  split; [done|]. split; [|done]. unfold moved, it_ok. rewrite Hs, Htab. split_and!; try done.
  - destruct Hor as [[_ Hc]|(? & ? & ?)]; [left|by right]. destruct (H2 Hc) as (-> & ? & ?). done.
  - intros c Hp Hc. destruct (H3 c Hp Hc) as [-> ?]. split; [|done].
    pose proof (read_char_printable it it' c Hr Hu Hp Hc) as Hh. rewrite <- (Nat.add_0_r (start it)), <- lookup_drop.
    by destruct (drop _ _).
Qed.

(** Past the current character. *)
Definition advanced (it it' : Utf8Iterator) : Prop :=
  moved it it' /\ (current it <> -1 -> (start it < start it')%nat) /\
  (current it = -1 -> start it' = start it /\ current it' = -1) /\
  (start it' = start it + width it \/
   start it' = S (start it + width it) /\ source it !! (start it + width it) = Some 13%Z /\ current it' = 10%Z)%nat.

Lemma next_advanced it : it_ok it -> exists it', utf8iterator_next it = Ok it' /\ advanced it it'.
Proof.
  intros Hok. pose proof (it_ok_le it Hok) as Hle. destruct Hok as (Hu & Ht & Hor & _).
  unfold utf8iterator_next. destruct (update_position_ok it Ht) as [p ->].
  rewrite bind_Ok. cbn [set_pos set_start start width].
  destruct (read_ok (set_start (set_pos it p) (start it + width it)) Hu Ht Hle) as (it' & Hr & Hm & Hsh).
  exists it'. split; [exact Hr|]. destruct Hm as (H1 & H2 & H3 & H4 & H5). cbn in *. split_and!.
  - unfold moved. split_and!; try done. lia.
  - intros Hc. destruct Hor as [[? _]|(_ & ? & _)]; [done|lia].
  - intros Hc. destruct Hor as [(_ & Hw & Hl)|[? _]]; [|done]. rewrite Hw, Nat.add_0_r in *.
    destruct Hsh as [Hs|(_ & Hs & _)]; [|apply lookup_lt_Some in Hs; lia]. split; [done|].
    destruct H1 as (_ & _ & [[? _]|(_ & ? & ?)] & _); [done|]. rewrite H2 in *. lia.
  - done.
Qed.

(** A step past a character consumes it. *)
Lemma next_ok it :
  it_ok it -> exists it', utf8iterator_next it = Ok it' /\ moved it it' /\
    (current it <> -1 -> (start it < start it')%nat).
Proof. intros H. destruct (next_advanced it H) as (it' & ? & ? & ? & _). eauto. Qed.

Lemma next_n_ok n it : it_ok it -> exists it', next_n n it = Ok it' /\ moved it it'.
Proof.
  revert it; induction n as [|n IH]; intros it H; [exists it; split; [done|by apply moved_refl]|].
  cbn [next_n]. destruct (next_ok it H) as (it1 & -> & Hm & _). rewrite bind_Ok.
  destruct (IH it1 (proj1 Hm)) as (it2 & -> & Hm2). exists it2. split; [done|]. by eapply moved_trans.
Qed.

(** As many iterations as bytes are left are enough for the two loops. *)
Lemma left_bytes it it' :
  it_ok it -> moved it it' -> current it <> -1 -> (start it < start it')%nat ->
  (length (source it') - start it' < length (source it) - start it)%nat.
Proof. intros (_ & _ & Hor & _) (_ & -> & _) Hc Hlt. destruct Hor as [[? _]|(_ & ? & ?)]; [done|]. lia. Qed.

(** The digits at the start of the bytes, read after the number [n], exceed an [int]. *)
Fixpoint digits_overflow (hex : bool) (n : Z) (bs : list Z) : bool :=
  match bs with
  | [] => false
  | b :: bs =>
      let d := parse_digit b hex in
      if d =? -1 then false
      else let n := n * (if hex then 16 else 10) + d in (2 ^ 31 <=? n) || digits_overflow hex n bs
  end.

(** The bytes after an ampersand are a number that exceeds an [int]. *)
Definition number_overflows (bs : list Z) : bool :=
  match bs with
  | 35 :: (b :: bs') as ds =>
      if (b =? 120) || (b =? 88) then digits_overflow true 0 bs' else digits_overflow false 0 ds
  | _ => false
  end.

(** The iterator on a digit. *)
Lemma digit_at it hex :
  it_ok it -> 0 <= parse_digit (current it) hex ->
  width it = 1%nat /\ current it <> -1 /\
  drop (start it) (source it) = current it :: drop (S (start it)) (source it).
Proof.
  intros (_ & _ & _ & Hp) Hd. destruct (digit_range hex (current it)) as [Hpr _].
  { apply negb_true_iff, Z.eqb_neq. lia. }
  destruct (Hp _ Hpr eq_refl) as [Hb Hw]. unfold printable in Hpr. split_and!; [done|lia|]. by apply drop_S.
Qed.

Lemma numeric_ref_digits_total fuel hex n it :
  it_ok it -> current it <> -1 -> 0 <= n -> 0 <= parse_digit (current it) hex ->
  (length (source it) - start it <= fuel)%nat ->
  let r := numeric_ref_digits fuel hex n (parse_digit (current it) hex) it in
  (r = Undef /\ digits_overflow hex n (drop (start it) (source it)) = true) \/
  exists n' it', r = Ok (Some (n', it')) /\ moved it it' /\ 0 <= n' /\ (start it < start it')%nat.
Proof.
  revert n it; induction fuel as [|fuel IH]; intros n it Hok Hc Hn Hd Hf.
  { destruct Hok as (_ & _ & [[? _]|(_ & ? & ?)] & _); [done|lia]. }
  destruct (digit_at it hex Hok Hd) as (Hw & _ & ->). cbn [digits_overflow].
  replace (parse_digit (current it) hex =? -1) with false by (symmetry; apply Z.eqb_neq; lia).
  cbn [numeric_ref_digits]. set (n' := n * _ + _).
  assert (0 <= n') by (unfold n'; destruct hex; lia). destruct (2 ^ 31 <=? n'); [by left|]. cbn [orb].
  destruct (next_advanced it Hok) as (it1 & -> & Hm & Hlt & _ & Hst). rewrite bind_Ok. specialize (Hlt Hc).
  unfold utf8iterator_current. destruct (negb _) eqn:E.
  - destruct (digit_range hex (current it1) E) as [Hp Hd1]. unfold printable in Hp.
    replace (S (start it)) with (start it1) by (rewrite Hw in Hst; destruct Hst as [|(_ & _ & ?)]; lia).
    pose proof (left_bytes _ _ Hok Hm Hc Hlt). replace (source it) with (source it1) by apply Hm.
    destruct (IH n' it1 (proj1 Hm)) as [[-> ?]|(n2 & it2 & -> & Hm2 & Hn2 & Hlt2)]; try done; try lia; [by left|].
    right. exists n2, it2. split_and!; try done; [by eapply moved_trans|lia].
  - right. exists n', it1. done.
Qed.

Lemma skip_alnum_total fuel it :
  it_ok it -> (length (source it) - start it < fuel)%nat ->
  exists it', skip_alnum fuel it = Ok (Some it') /\ moved it it'.
Proof.
  revert it; induction fuel as [|fuel IH]; intros it Hok Hf; [lia|]. cbn [skip_alnum].
  unfold utf8iterator_current. destruct (isalnum (current it)) eqn:E; [|exists it; split; [done|by apply moved_refl]].
  assert (Hc : current it <> -1) by (intros Ec; by rewrite Ec in E).
  destruct (next_ok it Hok) as (it1 & -> & Hm & Hlt). rewrite bind_Ok. specialize (Hlt Hc).
  pose proof (left_bytes _ _ Hok Hm Hc Hlt).
  destruct (IH it1 (proj1 Hm)) as (it2 & -> & Hm2); [lia|]. exists it2. split; [done|]. by eapply moved_trans.
Qed.

Lemma at_byte_ok it b rest : at_byte it b rest -> it_ok it.
Proof.
  intros (Hd & Hc & Hw & Hu & Ht). assert (Hb : source it !! start it = Some b).
  { by rewrite <- (Nat.add_0_r (start it)), <- lookup_drop, Hd. }
  pose proof (Forall_lookup_1 _ _ _ _ Hu Hb) as Hb8. unfold is_u8 in Hb8. apply lookup_lt_Some in Hb as Hlt.
  unfold it_ok. rewrite Hc, Hw. split_and!; try done; [right; split_and!; lia|]. by intros c _ <-.
Qed.

(** Resetting to the mark reads the marked character again. *)
Lemma reset_ok it it' b rest :
  at_byte it b rest -> printable b -> moved (utf8iterator_mark it) it' ->
  exists it2, utf8iterator_reset it' = Ok it2 /\ at_byte it2 b rest /\ source it2 = source it /\ start it2 = start it.
Proof.
  intros (Hd & Hc & Hw & Hu & Ht) Hb ((Hu' & Ht' & _) & Hs & Hm & _). cbn in Hs, Hm.
  destruct (printable_plain b Hb) as [Hp Hcb]. unfold utf8iterator_reset.
  rewrite (read_char_plain _ b rest); [|cbn; by rewrite Hs, Hm, Hd, Hcb|done|done].
  eexists. split; [done|]. rewrite Hcb. unfold at_byte. cbn. by rewrite Hs, Hm.
Qed.

Lemma add_errors_moved it it' n ts : moved it it' -> moved it (add_errors it' n ts).
Proof.
  unfold add_errors. revert it'; induction ts as [|t ts IH]; intros it' H; [done|].
  apply IH. by apply gumbo_add_error_moved.
Qed.

Lemma ref_output_char n : ref_output n <> -1.
Proof.
  unfold ref_output, scalar. destruct (n =? 0); [done|]. destruct ((0x80 <=? n) && (n <=? 0x9F)) eqn:E.
  - apply andb_true_iff in E. rewrite !Z.leb_le in E.
    assert (H : Forall (fun x => x <> -1) windows_1252) by by_decide. rewrite list.Forall_forall in H.
    apply H, list_elem_of_In, nth_In. cbn. lia.
  - case_bool_decide; [lia|done].
Qed.

Lemma numeric_ref_end_total n it :
  it_ok it -> 0 <= n -> exists it' out st, numeric_ref_end n it = Ok (it', out, st) /\ moved it it' /\ out <> -1.
Proof.
  intros Hok Hn. unfold numeric_ref_end. destruct (utf8iterator_current it =? 59); cbn [negb].
  - destruct (next_ok it Hok) as (it1 & -> & Hm & _). rewrite !bind_Ok, numeric_ref_value by done.
    do 3 eexists. split; [done|]. split; [by apply add_errors_moved|apply ref_output_char].
  - rewrite bind_Ok, numeric_ref_value by done. do 3 eexists. split; [done|].
    split; [by apply add_errors_moved, gumbo_add_error_moved, moved_refl|apply ref_output_char].
Qed.

(** What a reference at [it] can come to: a character, after the reference, or
    none, and the iterator is on the ampersand again. *)
Definition ref_outcome (it : Utf8Iterator) (rest : list Z)
  (r : outcome (option (Utf8Iterator * OneOrTwoCodepoints * bool))) : Prop :=
  exists it' out st, r = Ok (Some (it', out, st)) /\ source it' = source it /\
    ((first out <> -1 /\ it_ok it' /\ (start it < start it')%nat) \/
     (first out = -1 /\ second out = -1 /\ at_byte it' 38 rest /\ start it' = start it)).

Lemma ref_outcome_none it it' rest st :
  at_byte it 38 rest -> moved (utf8iterator_mark it) it' ->
  ref_outcome it rest (it ← utf8iterator_reset it'; Ok (Some (it, Codepoints kGumboNoChar kGumboNoChar, st))).
Proof.
  intros Hat Hm. destruct (reset_ok it it' 38 rest Hat ltac:(done) Hm) as (it2 & -> & H1 & H2 & H3).
  rewrite bind_Ok. unfold ref_outcome. do 3 eexists. split_and!; [done|done|]. by right.
Qed.

Lemma ref_outcome_char it it1 it' rest out st :
  (start it < start it1)%nat -> source it1 = source it -> moved it1 it' -> first out <> -1 ->
  ref_outcome it rest (Ok (Some (it', out, st))).
Proof.
  intros Hlt Hs (H1 & H2 & _ & _ & H3) Hout. unfold ref_outcome. do 3 eexists. split; [done|].
  split; [congruence|]. left. split_and!; [done|done|lia].
Qed.

(** Past a printable character to another one. *)
Lemma next_drop it it' :
  it_ok it -> advanced it it' -> printable (current it) -> printable (current it') ->
  drop (start it) (source it) = current it :: drop (start it') (source it') /\
  drop (start it') (source it') = current it' :: drop (S (start it')) (source it').
Proof.
  intros (_ & _ & _ & Hp) ((Hok & Hs & _) & _ & _ & Hst) H1 H2. destruct (Hp _ H1 eq_refl) as [Hb Hw].
  destruct Hok as (_ & _ & _ & Hp'). destruct (Hp' _ H2 eq_refl) as [Hb' _].
  replace (start it') with (S (start it)) in *; [split; [rewrite Hs; by apply drop_S|by apply drop_S]|].
  unfold printable in H2. rewrite Hw in Hst. destruct Hst as [|(_ & _ & ?)]; lia.
Qed.

(** The optional [x] of a hexadecimal reference. *)
Lemma hex_prefix_total it :
  it_ok it ->
  exists it' hex, (let c := utf8iterator_current it in
     if (c =? 120) || (c =? 88) then it ← utf8iterator_next it; Ok (it, true) else Ok (it, false)) =
     Ok (it', hex) /\ moved it it' /\
    (0 <= parse_digit (current it') hex -> printable (current it) /\
      if (current it =? 120) || (current it =? 88)
      then hex = true /\ drop (start it) (source it) = current it :: drop (start it') (source it')
      else hex = false /\ it' = it).
Proof.
  intros Hok. cbn zeta. unfold utf8iterator_current. destruct (_ || _) eqn:E.
  - destruct (next_advanced it Hok) as (it' & -> & Ha). exists it', true. split; [done|]. split; [apply Ha|].
    intros Hd. destruct (digit_range true (current it')) as [Hp _]; [apply negb_true_iff, Z.eqb_neq; lia|].
    assert (Hx : printable (current it)) by (unfold printable; lia).
    by destruct (next_drop it it' Hok Ha Hx Hp) as [? _].
  - exists it, false. split; [done|]. split; [by apply moved_refl|]. intros Hd.
    destruct (digit_range false (current it)) as [Hp _]; [apply negb_true_iff, Z.eqb_neq; lia|]. done.
Qed.

Lemma numeric_ref_total it it1 rest :
  at_byte it 38 rest -> it_ok it1 -> current it1 = 35 -> moved (utf8iterator_mark it) it1 ->
  (start it < start it1)%nat ->
  let r := (r ← consume_numeric_ref it1;
            Ok match r with
               | None => None
               | Some (it, output, status) => Some (it, Codepoints output kGumboNoChar, status)
               end) in
  (r = Undef /\ number_overflows (drop (start it1) (source it1)) = true) \/ ref_outcome it rest r.
Proof.
  intros Hat Hok Hc Hm Hlt. unfold consume_numeric_ref.
  destruct (next_advanced it1 Hok) as (it2 & -> & Ha). pose proof Ha as (Hm2 & _). rewrite bind_Ok. cbn zeta.
  destruct (hex_prefix_total it2 (proj1 Hm2)) as (it3 & hex & E3 & Hm3 & Hx).
  cbn zeta in E3. rewrite E3, bind_Ok. clear E3. pose proof (moved_trans _ _ _ Hm (moved_trans _ _ _ Hm2 Hm3)) as Hm'.
  unfold utf8iterator_current. destruct (Z.eqb_spec (parse_digit (current it3) hex) (-1)) as [E|E].
  { right. destruct (ref_outcome_none it (add_no_digit_error it3) rest false Hat) as (it4 & out & st & Hr & R).
    { by apply gumbo_add_error_moved. }
    destruct (utf8iterator_reset _) as [it4'| |]; try done. rewrite !bind_Ok in *. simplify_eq.
    by exists it4, (Codepoints kGumboNoChar kGumboNoChar), false. }
  destruct (digit_range hex (current it3)) as [Hp Hd]; [by apply negb_true_iff, Z.eqb_neq|]. unfold printable in Hp.
  destruct (numeric_ref_digits_total (length (source it3)) hex 0 it3) as [[Hr Ho]|(n & it4 & Hr & Hm4 & Hn & Hlt4)];
    try lia; [apply Hm3| |].
  - left. rewrite Hr. split; [done|]. destruct (Hx Hd) as [Hp2 Hhex].
    destruct (next_drop it1 it2 Hok Ha) as [-> E2]; [by rewrite Hc|done|]. rewrite Hc. cbn [number_overflows]. rewrite E2.
    destruct (_ || _); destruct Hhex as [-> Hhex]; [|by rewrite <- E2, <- Hhex].
    rewrite E2 in Hhex. injection Hhex as ->. done.
  - right. rewrite Hr, bind_Ok.
    destruct (numeric_ref_end_total n it4 (proj1 Hm4) Hn) as (it5 & out & st & -> & Hm5 & Hout). rewrite !bind_Ok.
    apply (ref_outcome_char it it1); [done|by destruct Hm as (_ & -> & _)| |done].
    eapply moved_trans; [apply (moved_trans _ _ _ Hm2 Hm3)|]. by eapply moved_trans.
Qed.

(** What the generated scanner promises: it matches some of the bytes, and the
    reference stands for a character. *)
Class ScansNamedRefs (scan_named : list Z -> option (OneOrTwoCodepoints * nat)) : Prop := scan_named_ok :
  forall bs out len, scan_named bs = Some (out, len) -> (0 < len <= length bs)%nat /\ first out <> -1.

Lemma consume_name_ok it len :
  it_ok it -> (0 < len <= length (drop (start it) (source it)))%nat ->
  exists it', utf8iterator_maybe_consume_match it (take len (drop (start it) (source it))) true = Ok (it', true) /\
    moved it it'.
Proof.
  intros Hok Hlen. unfold utf8iterator_maybe_consume_match. rewrite length_take, Nat.min_l by apply Hlen.
  rewrite bool_decide_true by done. rewrite length_drop in Hlen.
  destruct (next_n_ok len it Hok) as (it' & Hn & Hm).
  replace (start it + len <=? length (source it))%nat with true by (symmetry; apply Nat.leb_le; lia).
  cbn [andb]. rewrite Hn. by exists it'.
Qed.

(** The bytes are a reference without its semicolon: the input ends with the name. *)
Definition ref_ends_input (scan_named : list Z -> option (OneOrTwoCodepoints * nat)) (bs : list Z) : Prop :=
  last bs <> Some 59 /\ exists out, scan_named bs = Some (out, length bs).

Lemma named_ref_total scan_named `{!ScansNamedRefs scan_named} it it1 rest attr :
  at_byte it 38 rest -> it_ok it1 -> moved (utf8iterator_mark it) it1 -> (start it < start it1)%nat ->
  let r := consume_named_ref scan_named it1 attr in
  (r = Undef /\ attr = true /\ ref_ends_input scan_named (drop (start it1) (source it1))) \/ ref_outcome it rest r.
Proof.
  intros Hat Hok Hm Hlt. unfold consume_named_ref, utf8iterator_get_char_pointer.
  destruct (scan_named _) as [[out len]|] eqn:Es; cbn zeta.
  - apply scan_named_ok in Es as Hscan. destruct Hscan as [Hlen Hout].
    replace (first out =? kGumboNoChar) with false by (symmetry; by apply Z.eqb_neq).
    cbn [negb c_assert]. rewrite bind_Ok.
    assert (Hs : source it1 = source it) by (by destruct Hm as (_ & -> & _)).
    destruct (load_lt (source it1) (start it1 + len - 1)) as (b & -> & Hb); [rewrite length_drop in Hlen; lia|].
    rewrite bind_Ok. destruct (Z.eqb_spec b 59) as [|H59].
    { destruct (consume_name_ok it1 len Hok Hlen) as (it2 & -> & Hm2). rewrite bind_Ok. cbn [c_assert].
      right. by apply (ref_outcome_char it it1). }
    assert (Hin : forall b : bool, ref_outcome it rest
      (if b then it ← utf8iterator_reset it1; Ok (Some (it, Codepoints kGumboNoChar kGumboNoChar, true))
       else let name := take len (drop (start it1) (source it1)) in
         let it := add_named_reference_error it1 GUMBO_ERR_NAMED_CHAR_REF_WITHOUT_SEMICOLON name in
         '(it, matched) ← utf8iterator_maybe_consume_match it name true;
         _ ← c_assert matched; Ok (Some (it, out, false)))).
    { intros [|]; [by apply ref_outcome_none|]. cbn zeta. set (name := take _ _). set (it1' := add_named_reference_error _ _ _).
      assert (Hm' : moved it1 it1') by (by apply gumbo_add_error_moved, moved_refl).
      assert (Hst : start it1' = start it1 /\ source it1' = source it1).
      { unfold it1', add_named_reference_error, error_at_mark, gumbo_add_error. by case_match. }
      destruct Hst as [Hst Hsrc]. unfold name. rewrite <- Hst, <- Hsrc.
      destruct (consume_name_ok it1' len (proj1 Hm')) as (it2 & -> & Hm2); [rewrite Hst, Hsrc; apply Hlen|].
      rewrite bind_Ok. cbn [c_assert]. rewrite bind_Ok. apply (ref_outcome_char it it1); try done.
      by eapply moved_trans. }
    destruct attr; [|right; apply (Hin false)].
    destruct (load (source it1) (start it1 + len)) as [te| |] eqn:El.
    + right. rewrite !bind_Ok. apply Hin.
    + assert (length (drop (start it1) (source it1)) = len) as El'.
      { unfold load, of_option in El. destruct (source it1 !! (start it1 + len)%nat) eqn:Eb; [done|].
        apply lookup_ge_None in Eb. rewrite length_drop in *. lia. }
      left. split; [done|]. split; [done|]. split; [|exists out; by rewrite Es, El'].
      rewrite last_lookup, lookup_drop, El'. replace (start it1 + pred len)%nat with (start it1 + len - 1)%nat by lia.
      rewrite Hb. congruence.
    + unfold load, of_option in El. by destruct (_ !! (_ + len)%nat).
  - right. unfold maybe_add_invalid_named_reference.
    destruct (skip_alnum_total (length (source it1) + 1) it1 Hok ltac:(lia)) as (it2 & -> & Hm2).
    pose proof (moved_trans _ _ _ Hm Hm2). rewrite bind_Ok.
    destruct (_ =? 59); rewrite bind_Ok; apply ref_outcome_none; try done. by apply gumbo_add_error_moved.
Qed.

Lemma consume_char_ref_ok scan_named `{!ScansNamedRefs scan_named}
  (it : Utf8Iterator) (rest : list Z) (extra : Z) (attr : bool) (Hat : at_byte it 38 rest) :
  let r := consume_char_ref scan_named it extra attr in
  (r = Undef /\ ((attr = true /\ ref_ends_input scan_named rest) \/ number_overflows rest = true)) \/ ref_outcome it rest r.
Proof.
  unfold consume_char_ref, utf8iterator_current. pose proof (at_byte_ok _ _ _ Hat) as Hok.
  destruct (next_advanced (utf8iterator_mark it) Hok) as (it1 & E & Hm & Hlt & _ & Hat1).
  rewrite E, bind_Ok. cbn in Hlt. specialize (Hlt ltac:(destruct Hat as (_ & -> & _); done)).
  destruct (current it1 =? extra); [right; by apply ref_outcome_none|].
  destruct (_ || (current it1 =? -1)) eqn:Ew; [right; by apply ref_outcome_none|].
  assert (H10 : current it1 <> 10) by lia. apply orb_false_iff in Ew as [_ Ew]. apply Z.eqb_neq in Ew.
  assert (Hrest : drop (start it1) (source it1) = rest).
  { destruct Hat1 as [Hst|(_ & _ & ?)]; [|done]. destruct Hm as (_ & -> & _). cbn in Hst |- *. rewrite Hst.
    destruct Hat as (Hd & _ & -> & _). by apply (drop_source it [38]). }
  destruct (Z.eqb_spec (current it1) 35) as [E35|].
  - destruct (numeric_ref_total it it1 rest Hat (proj1 Hm) E35 Hm Hlt) as [[H Ho]|H]; [|by right].
    left. split; [exact H|]. right. by rewrite <- Hrest.
  - destruct (named_ref_total scan_named it it1 rest attr Hat (proj1 Hm) Hm Hlt) as [(H & ? & Hend)|H]; [|by right].
    left. split; [done|]. left. split; [done|]. by rewrite <- Hrest.
Qed.

(** A character reference in any text, well formed or not, is read without a
    failing assertion and the loops end: either it stands for characters, and the
    iterator is past it, or it does not, and the iterator is back on the ampersand.
    Undefined behaviour is left to numbers that overflow and to the byte after an
    unterminated reference that ends the input in an attribute. *)
Theorem consume_char_ref_total scan_named (Hscan : ScansNamedRefs scan_named)
  (it : Utf8Iterator) (rest : list Z) (extra : Z) (attr : bool) (Hat : at_byte it 38 rest) :
  let r := consume_char_ref scan_named it extra attr in
  (r = Undef /\ ((attr = true /\ ref_ends_input scan_named rest) \/ number_overflows rest = true)) \/ ref_outcome it rest r.
Proof. by apply consume_char_ref_ok. Qed.

(** * Concrete runs *)
Definition sample (src : list Z) : Utf8Iterator := Iter src 0 0 38 1 (Pos 1 1 0) (Pos 0 0 0) [] (-1) 8.

Lemma sample_at rest : Forall is_u8 rest -> at_byte (sample (38 :: rest)) 38 rest.
Proof. intros H. split_and!; try done. by constructor. Qed.

(** [&#128;] is the euro sign, and an error. *)
Lemma numeric_char_ref_spec_witness :
  exists it', consume_char_ref (fun _ => None) (sample [38; 35; 49; 50; 56; 59]) 32 false =
    Ok (Some (it', Codepoints 0x20AC (-1), false)).
Proof.
  destruct (numeric_char_ref_spec (fun _ => None) (sample [38; 35; 49; 50; 56; 59]) false [] [50; 56] [59] 49 32 false)
    as (it' & _ & H).
  - apply sample_at. by_decide.
  - done.
  - by_decide.
  - by intros c [= <-].
  - done.
  - eexists. exact H.
Defined.

(** A scanner that knows [&amp;]. *)
Definition scan_amp (bs : list Z) : option (OneOrTwoCodepoints * nat) :=
  if bool_decide (take 4 bs = [97; 109; 112; 59]) then Some (Codepoints 38 kGumboNoChar, 4%nat) else None.

#[export] Instance scan_amp_ok : ScansNamedRefs scan_amp.
Proof.
  intros bs out len H. unfold scan_amp in H. case_bool_decide as E; [|done]. injection H as <- <-.
  apply (f_equal length) in E. rewrite length_take in E. cbn [length] in E. split; [lia|done].
Qed.

Lemma consume_char_ref_total_witness :
  let r := consume_char_ref scan_amp (sample [38; 97; 109; 112; 59; 66]) 32 true in
  (r = Undef /\ ((true = true /\ ref_ends_input scan_amp [97; 109; 112; 59; 66]) \/ number_overflows [97; 109; 112; 59; 66] = true)) \/
  ref_outcome (sample [38; 97; 109; 112; 59; 66]) [97; 109; 112; 59; 66] r.
Proof.
  apply (consume_char_ref_total scan_amp scan_amp_ok (sample [38; 97; 109; 112; 59; 66]) [97; 109; 112; 59; 66] 32 true).
  apply sample_at. by_decide.
Defined.

Example consume_amp :
  match consume_char_ref scan_amp (sample [38; 97; 109; 112; 59; 66]) 32 true with
  | Ok (Some (it, out, st)) => (current it, first out, st) = (66, 38, true)
  | _ => False
  end.
Proof. reflexivity. Qed.

End CharRef.
