(* ===== verification/CharRefActions.v ===== *)
(** gumbo-parser/src/char_ref.c: the actions of the scanner of named character
    references, the cases of its switch. *)
From S2P Require Import Prelude.

Module CharRefActions.

(** What a case does to the pointers [p], [ts], [te] and to [output]:
    - [set_ts_0]: ts = 0;
    - [set_ts_p]: ts = p;
    - [set_te]: te = p+1;
    - [match_next]: te = p+1; output is set; p++; goto _out;
    - [match_here]: te = p; p--; output is set; p++; goto _out;
    - [match_back]: p = te-1; output is set; p++; goto _out.
    A match sets [output->first], and [output->second] where it has a value. *)
Inductive action :=
| set_ts_0
| set_ts_p
| set_te
| match_next (first : Z) (second : option Z)
| match_here (first : Z) (second : option Z)
| match_back (first : Z) (second : option Z).

(** The switch of the actions on entering the code of a state. *)
Definition from_state_cases : list (Z * action) := [(1, set_ts_p)].

(** The switch of the actions on leaving it. *)
Definition to_state_cases : list (Z * action) := [(0, set_ts_0)].

(** The switch of the actions of a transition, in pieces. *)

Definition trans_cases_0 : list (Z * action) := [
  (2, set_te); (3, match_next 0xc6 None); (4, match_next 0x26 None); (5, match_next 0xc1 None);
  (6, match_next 0x0102 None); (7, match_next 0xc2 None); (8, match_next 0x0410 None);
  (9, match_next 0x0001d504 None); (10, match_next 0xc0 None); (11, match_next 0x0391 None);
  (12, match_next 0x0100 None); (13, match_next 0x2a53 None); (14, match_next 0x0104 None);
  (15, match_next 0x0001d538 None); (16, match_next 0x2061 None); (17, match_next 0xc5 None);
  (18, match_next 0x0001d49c None); (19, match_next 0x2254 None); (20, match_next 0xc3 None);
  (21, match_next 0xc4 None); (22, match_next 0x2216 None); (23, match_next 0x2ae7 None);
  (24, match_next 0x2306 None); (25, match_next 0x0411 None); (26, match_next 0x2235 None);
  (27, match_next 0x212c None); (28, match_next 0x0392 None); (29, match_next 0x0001d505 None);
  (30, match_next 0x0001d539 None); (31, match_next 0x02d8 None); (32, match_next 0x212c None);
  (33, match_next 0x224e None); (34, match_next 0x0427 None); (35, match_next 0xa9 None);
  (36, match_next 0x0106 None); (37, match_next 0x22d2 None); (38, match_next 0x2145 None)].

Definition trans_cases_1 : list (Z * action) := [
  (39, match_next 0x212d None); (40, match_next 0x010c None); (41, match_next 0xc7 None);
  (42, match_next 0x0108 None); (43, match_next 0x2230 None); (44, match_next 0x010a None);
  (45, match_next 0xb8 None); (46, match_next 0xb7 None); (47, match_next 0x212d None);
  (48, match_next 0x03a7 None); (49, match_next 0x2299 None); (50, match_next 0x2296 None);
  (51, match_next 0x2295 None); (52, match_next 0x2297 None); (53, match_next 0x2232 None);
  (54, match_next 0x201d None); (55, match_next 0x2019 None); (56, match_next 0x2237 None);
  (57, match_next 0x2a74 None); (58, match_next 0x2261 None); (59, match_next 0x222f None);
  (60, match_next 0x222e None); (61, match_next 0x2102 None); (62, match_next 0x2210 None);
  (63, match_next 0x2233 None); (64, match_next 0x2a2f None); (65, match_next 0x0001d49e None);
  (66, match_next 0x22d3 None); (67, match_next 0x224d None); (68, match_next 0x2145 None);
  (69, match_next 0x2911 None); (70, match_next 0x0402 None); (71, match_next 0x0405 None);
  (72, match_next 0x040f None); (73, match_next 0x2021 None); (74, match_next 0x21a1 None);
  (75, match_next 0x2ae4 None)].

Definition trans_cases_2 : list (Z * action) := [
  (76, match_next 0x010e None); (77, match_next 0x0414 None); (78, match_next 0x2207 None);
  (79, match_next 0x0394 None); (80, match_next 0x0001d507 None); (81, match_next 0xb4 None);
  (82, match_next 0x02d9 None); (83, match_next 0x02dd None); (84, match_next 0x60 None);
  (85, match_next 0x02dc None); (86, match_next 0x22c4 None); (87, match_next 0x2146 None);
  (88, match_next 0x0001d53b None); (89, match_next 0xa8 None); (90, match_next 0x20dc None);
  (91, match_next 0x2250 None); (92, match_next 0x222f None); (93, match_next 0xa8 None);
  (94, match_next 0x21d3 None); (95, match_next 0x21d0 None); (96, match_next 0x21d4 None);
  (97, match_next 0x2ae4 None); (98, match_next 0x27f8 None); (99, match_next 0x27fa None);
  (100, match_next 0x27f9 None); (101, match_next 0x21d2 None); (102, match_next 0x22a8 None);
  (103, match_next 0x21d1 None); (104, match_next 0x21d5 None); (105, match_next 0x2225 None);
  (106, match_next 0x2193 None); (107, match_next 0x2913 None); (108, match_next 0x21f5 None);
  (109, match_next 0x0311 None); (110, match_next 0x2950 None); (111, match_next 0x295e None);
  (112, match_next 0x21bd None)].

Definition trans_cases_3 : list (Z * action) := [
  (113, match_next 0x2956 None); (114, match_next 0x295f None); (115, match_next 0x21c1 None);
  (116, match_next 0x2957 None); (117, match_next 0x22a4 None); (118, match_next 0x21a7 None);
  (119, match_next 0x21d3 None); (120, match_next 0x0001d49f None); (121, match_next 0x0110 None);
  (122, match_next 0x014a None); (123, match_next 0xd0 None); (124, match_next 0xc9 None);
  (125, match_next 0x011a None); (126, match_next 0xca None); (127, match_next 0x042d None);
  (128, match_next 0x0116 None); (129, match_next 0x0001d508 None); (130, match_next 0xc8 None);
  (131, match_next 0x2208 None); (132, match_next 0x0112 None); (133, match_next 0x25fb None);
  (134, match_next 0x25ab None); (135, match_next 0x0118 None); (136, match_next 0x0001d53c None);
  (137, match_next 0x0395 None); (138, match_next 0x2a75 None); (139, match_next 0x2242 None);
  (140, match_next 0x21cc None); (141, match_next 0x2130 None); (142, match_next 0x2a73 None);
  (143, match_next 0x0397 None); (144, match_next 0xcb None); (145, match_next 0x2203 None);
  (146, match_next 0x2147 None); (147, match_next 0x0424 None); (148, match_next 0x0001d509 None);
  (149, match_next 0x25fc None)].

Definition trans_cases_4 : list (Z * action) := [
  (150, match_next 0x25aa None); (151, match_next 0x0001d53d None); (152, match_next 0x2200 None);
  (153, match_next 0x2131 None); (154, match_next 0x2131 None); (155, match_next 0x0403 None);
  (156, match_next 0x3e None); (157, match_next 0x0393 None); (158, match_next 0x03dc None);
  (159, match_next 0x011e None); (160, match_next 0x0122 None); (161, match_next 0x011c None);
  (162, match_next 0x0413 None); (163, match_next 0x0120 None); (164, match_next 0x0001d50a None);
  (165, match_next 0x22d9 None); (166, match_next 0x0001d53e None); (167, match_next 0x2265 None);
  (168, match_next 0x22db None); (169, match_next 0x2267 None); (170, match_next 0x2aa2 None);
  (171, match_next 0x2277 None); (172, match_next 0x2a7e None); (173, match_next 0x2273 None);
  (174, match_next 0x0001d4a2 None); (175, match_next 0x226b None); (176, match_next 0x042a None);
  (177, match_next 0x02c7 None); (178, match_next 0x5e None); (179, match_next 0x0124 None);
  (180, match_next 0x210c None); (181, match_next 0x210b None); (182, match_next 0x210d None);
  (183, match_next 0x2500 None); (184, match_next 0x210b None); (185, match_next 0x0126 None);
  (186, match_next 0x224e None)].

Definition trans_cases_5 : list (Z * action) := [
  (187, match_next 0x224f None); (188, match_next 0x0415 None); (189, match_next 0x0132 None);
  (190, match_next 0x0401 None); (191, match_next 0xcd None); (192, match_next 0xce None);
  (193, match_next 0x0418 None); (194, match_next 0x0130 None); (195, match_next 0x2111 None);
  (196, match_next 0xcc None); (197, match_next 0x2111 None); (198, match_next 0x012a None);
  (199, match_next 0x2148 None); (200, match_next 0x21d2 None); (201, match_next 0x222c None);
  (202, match_next 0x222b None); (203, match_next 0x22c2 None); (204, match_next 0x2063 None);
  (205, match_next 0x2062 None); (206, match_next 0x012e None); (207, match_next 0x0001d540 None);
  (208, match_next 0x0399 None); (209, match_next 0x2110 None); (210, match_next 0x0128 None);
  (211, match_next 0x0406 None); (212, match_next 0xcf None); (213, match_next 0x0134 None);
  (214, match_next 0x0419 None); (215, match_next 0x0001d50d None); (216, match_next 0x0001d541 None);
  (217, match_next 0x0001d4a5 None); (218, match_next 0x0408 None); (219, match_next 0x0404 None);
  (220, match_next 0x0425 None); (221, match_next 0x040c None); (222, match_next 0x039a None);
  (223, match_next 0x0136 None)].

Definition trans_cases_6 : list (Z * action) := [
  (224, match_next 0x041a None); (225, match_next 0x0001d50e None); (226, match_next 0x0001d542 None);
  (227, match_next 0x0001d4a6 None); (228, match_next 0x0409 None); (229, match_next 0x3c None);
  (230, match_next 0x0139 None); (231, match_next 0x039b None); (232, match_next 0x27ea None);
  (233, match_next 0x2112 None); (234, match_next 0x219e None); (235, match_next 0x013d None);
  (236, match_next 0x013b None); (237, match_next 0x041b None); (238, match_next 0x27e8 None);
  (239, match_next 0x2190 None); (240, match_next 0x21e4 None); (241, match_next 0x21c6 None);
  (242, match_next 0x2308 None); (243, match_next 0x27e6 None); (244, match_next 0x2961 None);
  (245, match_next 0x21c3 None); (246, match_next 0x2959 None); (247, match_next 0x230a None);
  (248, match_next 0x2194 None); (249, match_next 0x294e None); (250, match_next 0x22a3 None);
  (251, match_next 0x21a4 None); (252, match_next 0x295a None); (253, match_next 0x22b2 None);
  (254, match_next 0x29cf None); (255, match_next 0x22b4 None); (256, match_next 0x2951 None);
  (257, match_next 0x2960 None); (258, match_next 0x21bf None); (259, match_next 0x2958 None);
  (260, match_next 0x21bc None)].

Definition trans_cases_7 : list (Z * action) := [
  (261, match_next 0x2952 None); (262, match_next 0x21d0 None); (263, match_next 0x21d4 None);
  (264, match_next 0x22da None); (265, match_next 0x2266 None); (266, match_next 0x2276 None);
  (267, match_next 0x2aa1 None); (268, match_next 0x2a7d None); (269, match_next 0x2272 None);
  (270, match_next 0x0001d50f None); (271, match_next 0x22d8 None); (272, match_next 0x21da None);
  (273, match_next 0x013f None); (274, match_next 0x27f5 None); (275, match_next 0x27f7 None);
  (276, match_next 0x27f6 None); (277, match_next 0x27f8 None); (278, match_next 0x27fa None);
  (279, match_next 0x27f9 None); (280, match_next 0x0001d543 None); (281, match_next 0x2199 None);
  (282, match_next 0x2198 None); (283, match_next 0x2112 None); (284, match_next 0x21b0 None);
  (285, match_next 0x0141 None); (286, match_next 0x226a None); (287, match_next 0x2905 None);
  (288, match_next 0x041c None); (289, match_next 0x205f None); (290, match_next 0x2133 None);
  (291, match_next 0x0001d510 None); (292, match_next 0x2213 None); (293, match_next 0x0001d544 None);
  (294, match_next 0x2133 None); (295, match_next 0x039c None); (296, match_next 0x040a None);
  (297, match_next 0x0143 None)].

Definition trans_cases_8 : list (Z * action) := [
  (298, match_next 0x0147 None); (299, match_next 0x0145 None); (300, match_next 0x041d None);
  (301, match_next 0x200b None); (302, match_next 0x200b None); (303, match_next 0x200b None);
  (304, match_next 0x200b None); (305, match_next 0x226b None); (306, match_next 0x226a None);
  (307, match_next 0x0a None); (308, match_next 0x0001d511 None); (309, match_next 0x2060 None);
  (310, match_next 0xa0 None); (311, match_next 0x2115 None); (312, match_next 0x2aec None);
  (313, match_next 0x2262 None); (314, match_next 0x226d None); (315, match_next 0x2226 None);
  (316, match_next 0x2209 None); (317, match_next 0x2260 None); (318, match_next 0x2242 (Some 0x0338));
  (319, match_next 0x2204 None); (320, match_next 0x226f None); (321, match_next 0x2271 None);
  (322, match_next 0x2267 (Some 0x0338)); (323, match_next 0x226b (Some 0x0338));
  (324, match_next 0x2279 None); (325, match_next 0x2a7e (Some 0x0338)); (326, match_next 0x2275 None);
  (327, match_next 0x224e (Some 0x0338)); (328, match_next 0x224f (Some 0x0338));
  (329, match_next 0x22ea None); (330, match_next 0x29cf (Some 0x0338)); (331, match_next 0x22ec None);
  (332, match_next 0x226e None); (333, match_next 0x2270 None); (334, match_next 0x2278 None)].

Definition trans_cases_9 : list (Z * action) := [
  (335, match_next 0x226a (Some 0x0338)); (336, match_next 0x2a7d (Some 0x0338));
  (337, match_next 0x2274 None); (338, match_next 0x2aa2 (Some 0x0338));
  (339, match_next 0x2aa1 (Some 0x0338)); (340, match_next 0x2280 None);
  (341, match_next 0x2aaf (Some 0x0338)); (342, match_next 0x22e0 None); (343, match_next 0x220c None);
  (344, match_next 0x22eb None); (345, match_next 0x29d0 (Some 0x0338)); (346, match_next 0x22ed None);
  (347, match_next 0x228f (Some 0x0338)); (348, match_next 0x22e2 None);
  (349, match_next 0x2290 (Some 0x0338)); (350, match_next 0x22e3 None);
  (351, match_next 0x2282 (Some 0x20d2)); (352, match_next 0x2288 None); (353, match_next 0x2281 None);
  (354, match_next 0x2ab0 (Some 0x0338)); (355, match_next 0x22e1 None);
  (356, match_next 0x227f (Some 0x0338)); (357, match_next 0x2283 (Some 0x20d2));
  (358, match_next 0x2289 None); (359, match_next 0x2241 None); (360, match_next 0x2244 None);
  (361, match_next 0x2247 None); (362, match_next 0x2249 None); (363, match_next 0x2224 None);
  (364, match_next 0x0001d4a9 None); (365, match_next 0xd1 None); (366, match_next 0x039d None);
  (367, match_next 0x0152 None); (368, match_next 0xd3 None); (369, match_next 0xd4 None);
  (370, match_next 0x041e None); (371, match_next 0x0150 None)].

Definition trans_cases_10 : list (Z * action) := [
  (372, match_next 0x0001d512 None); (373, match_next 0xd2 None); (374, match_next 0x014c None);
  (375, match_next 0x03a9 None); (376, match_next 0x039f None); (377, match_next 0x0001d546 None);
  (378, match_next 0x201c None); (379, match_next 0x2018 None); (380, match_next 0x2a54 None);
  (381, match_next 0x0001d4aa None); (382, match_next 0xd8 None); (383, match_next 0xd5 None);
  (384, match_next 0x2a37 None); (385, match_next 0xd6 None); (386, match_next 0x203e None);
  (387, match_next 0x23de None); (388, match_next 0x23b4 None); (389, match_next 0x23dc None);
  (390, match_next 0x2202 None); (391, match_next 0x041f None); (392, match_next 0x0001d513 None);
  (393, match_next 0x03a6 None); (394, match_next 0x03a0 None); (395, match_next 0xb1 None);
  (396, match_next 0x210c None); (397, match_next 0x2119 None); (398, match_next 0x2abb None);
  (399, match_next 0x227a None); (400, match_next 0x2aaf None); (401, match_next 0x227c None);
  (402, match_next 0x227e None); (403, match_next 0x2033 None); (404, match_next 0x220f None);
  (405, match_next 0x2237 None); (406, match_next 0x221d None); (407, match_next 0x0001d4ab None);
  (408, match_next 0x03a8 None)].

Definition trans_cases_11 : list (Z * action) := [
  (409, match_next 0x22 None); (410, match_next 0x0001d514 None); (411, match_next 0x211a None);
  (412, match_next 0x0001d4ac None); (413, match_next 0x2910 None); (414, match_next 0xae None);
  (415, match_next 0x0154 None); (416, match_next 0x27eb None); (417, match_next 0x21a0 None);
  (418, match_next 0x2916 None); (419, match_next 0x0158 None); (420, match_next 0x0156 None);
  (421, match_next 0x0420 None); (422, match_next 0x211c None); (423, match_next 0x220b None);
  (424, match_next 0x21cb None); (425, match_next 0x296f None); (426, match_next 0x211c None);
  (427, match_next 0x03a1 None); (428, match_next 0x27e9 None); (429, match_next 0x2192 None);
  (430, match_next 0x21e5 None); (431, match_next 0x21c4 None); (432, match_next 0x2309 None);
  (433, match_next 0x27e7 None); (434, match_next 0x295d None); (435, match_next 0x21c2 None);
  (436, match_next 0x2955 None); (437, match_next 0x230b None); (438, match_next 0x22a2 None);
  (439, match_next 0x21a6 None); (440, match_next 0x295b None); (441, match_next 0x22b3 None);
  (442, match_next 0x29d0 None); (443, match_next 0x22b5 None); (444, match_next 0x294f None);
  (445, match_next 0x295c None)].

Definition trans_cases_12 : list (Z * action) := [
  (446, match_next 0x21be None); (447, match_next 0x2954 None); (448, match_next 0x21c0 None);
  (449, match_next 0x2953 None); (450, match_next 0x21d2 None); (451, match_next 0x211d None);
  (452, match_next 0x2970 None); (453, match_next 0x21db None); (454, match_next 0x211b None);
  (455, match_next 0x21b1 None); (456, match_next 0x29f4 None); (457, match_next 0x0429 None);
  (458, match_next 0x0428 None); (459, match_next 0x042c None); (460, match_next 0x015a None);
  (461, match_next 0x2abc None); (462, match_next 0x0160 None); (463, match_next 0x015e None);
  (464, match_next 0x015c None); (465, match_next 0x0421 None); (466, match_next 0x0001d516 None);
  (467, match_next 0x2193 None); (468, match_next 0x2190 None); (469, match_next 0x2192 None);
  (470, match_next 0x2191 None); (471, match_next 0x03a3 None); (472, match_next 0x2218 None);
  (473, match_next 0x0001d54a None); (474, match_next 0x221a None); (475, match_next 0x25a1 None);
  (476, match_next 0x2293 None); (477, match_next 0x228f None); (478, match_next 0x2291 None);
  (479, match_next 0x2290 None); (480, match_next 0x2292 None); (481, match_next 0x2294 None);
  (482, match_next 0x0001d4ae None)].

Definition trans_cases_13 : list (Z * action) := [
  (483, match_next 0x22c6 None); (484, match_next 0x22d0 None); (485, match_next 0x22d0 None);
  (486, match_next 0x2286 None); (487, match_next 0x227b None); (488, match_next 0x2ab0 None);
  (489, match_next 0x227d None); (490, match_next 0x227f None); (491, match_next 0x220b None);
  (492, match_next 0x2211 None); (493, match_next 0x22d1 None); (494, match_next 0x2283 None);
  (495, match_next 0x2287 None); (496, match_next 0x22d1 None); (497, match_next 0xde None);
  (498, match_next 0x2122 None); (499, match_next 0x040b None); (500, match_next 0x0426 None);
  (501, match_next 0x09 None); (502, match_next 0x03a4 None); (503, match_next 0x0164 None);
  (504, match_next 0x0162 None); (505, match_next 0x0422 None); (506, match_next 0x0001d517 None);
  (507, match_next 0x2234 None); (508, match_next 0x0398 None); (509, match_next 0x205f (Some 0x200a));
  (510, match_next 0x2009 None); (511, match_next 0x223c None); (512, match_next 0x2243 None);
  (513, match_next 0x2245 None); (514, match_next 0x2248 None); (515, match_next 0x0001d54b None);
  (516, match_next 0x20db None); (517, match_next 0x0001d4af None); (518, match_next 0x0166 None);
  (519, match_next 0xda None)].

Definition trans_cases_14 : list (Z * action) := [
  (520, match_next 0x219f None); (521, match_next 0x2949 None); (522, match_next 0x040e None);
  (523, match_next 0x016c None); (524, match_next 0xdb None); (525, match_next 0x0423 None);
  (526, match_next 0x0170 None); (527, match_next 0x0001d518 None); (528, match_next 0xd9 None);
  (529, match_next 0x016a None); (530, match_next 0x5f None); (531, match_next 0x23df None);
  (532, match_next 0x23b5 None); (533, match_next 0x23dd None); (534, match_next 0x22c3 None);
  (535, match_next 0x228e None); (536, match_next 0x0172 None); (537, match_next 0x0001d54c None);
  (538, match_next 0x2191 None); (539, match_next 0x2912 None); (540, match_next 0x21c5 None);
  (541, match_next 0x2195 None); (542, match_next 0x296e None); (543, match_next 0x22a5 None);
  (544, match_next 0x21a5 None); (545, match_next 0x21d1 None); (546, match_next 0x21d5 None);
  (547, match_next 0x2196 None); (548, match_next 0x2197 None); (549, match_next 0x03d2 None);
  (550, match_next 0x03a5 None); (551, match_next 0x016e None); (552, match_next 0x0001d4b0 None);
  (553, match_next 0x0168 None); (554, match_next 0xdc None); (555, match_next 0x22ab None);
  (556, match_next 0x2aeb None)].

Definition trans_cases_15 : list (Z * action) := [
  (557, match_next 0x0412 None); (558, match_next 0x22a9 None); (559, match_next 0x2ae6 None);
  (560, match_next 0x22c1 None); (561, match_next 0x2016 None); (562, match_next 0x2016 None);
  (563, match_next 0x2223 None); (564, match_next 0x7c None); (565, match_next 0x2758 None);
  (566, match_next 0x2240 None); (567, match_next 0x200a None); (568, match_next 0x0001d519 None);
  (569, match_next 0x0001d54d None); (570, match_next 0x0001d4b1 None); (571, match_next 0x22aa None);
  (572, match_next 0x0174 None); (573, match_next 0x22c0 None); (574, match_next 0x0001d51a None);
  (575, match_next 0x0001d54e None); (576, match_next 0x0001d4b2 None); (577, match_next 0x0001d51b None);
  (578, match_next 0x039e None); (579, match_next 0x0001d54f None); (580, match_next 0x0001d4b3 None);
  (581, match_next 0x042f None); (582, match_next 0x0407 None); (583, match_next 0x042e None);
  (584, match_next 0xdd None); (585, match_next 0x0176 None); (586, match_next 0x042b None);
  (587, match_next 0x0001d51c None); (588, match_next 0x0001d550 None); (589, match_next 0x0001d4b4 None);
  (590, match_next 0x0178 None); (591, match_next 0x0416 None); (592, match_next 0x0179 None);
  (593, match_next 0x017d None)].

Definition trans_cases_16 : list (Z * action) := [
  (594, match_next 0x0417 None); (595, match_next 0x017b None); (596, match_next 0x200b None);
  (597, match_next 0x0396 None); (598, match_next 0x2128 None); (599, match_next 0x2124 None);
  (600, match_next 0x0001d4b5 None); (601, match_next 0xe1 None); (602, match_next 0x0103 None);
  (603, match_next 0x223e None); (604, match_next 0x223e (Some 0x0333)); (605, match_next 0x223f None);
  (606, match_next 0xe2 None); (607, match_next 0xb4 None); (608, match_next 0x0430 None);
  (609, match_next 0xe6 None); (610, match_next 0x2061 None); (611, match_next 0x0001d51e None);
  (612, match_next 0xe0 None); (613, match_next 0x2135 None); (614, match_next 0x2135 None);
  (615, match_next 0x03b1 None); (616, match_next 0x0101 None); (617, match_next 0x2a3f None);
  (618, match_next 0x26 None); (619, match_next 0x2227 None); (620, match_next 0x2a55 None);
  (621, match_next 0x2a5c None); (622, match_next 0x2a58 None); (623, match_next 0x2a5a None);
  (624, match_next 0x2220 None); (625, match_next 0x29a4 None); (626, match_next 0x2220 None);
  (627, match_next 0x2221 None); (628, match_next 0x29a8 None); (629, match_next 0x29a9 None);
  (630, match_next 0x29aa None)].

Definition trans_cases_17 : list (Z * action) := [
  (631, match_next 0x29ab None); (632, match_next 0x29ac None); (633, match_next 0x29ad None);
  (634, match_next 0x29ae None); (635, match_next 0x29af None); (636, match_next 0x221f None);
  (637, match_next 0x22be None); (638, match_next 0x299d None); (639, match_next 0x2222 None);
  (640, match_next 0xc5 None); (641, match_next 0x237c None); (642, match_next 0x0105 None);
  (643, match_next 0x0001d552 None); (644, match_next 0x2248 None); (645, match_next 0x2a70 None);
  (646, match_next 0x2a6f None); (647, match_next 0x224a None); (648, match_next 0x224b None);
  (649, match_next 0x27 None); (650, match_next 0x2248 None); (651, match_next 0x224a None);
  (652, match_next 0xe5 None); (653, match_next 0x0001d4b6 None); (654, match_next 0x2a None);
  (655, match_next 0x2248 None); (656, match_next 0x224d None); (657, match_next 0xe3 None);
  (658, match_next 0xe4 None); (659, match_next 0x2233 None); (660, match_next 0x2a11 None);
  (661, match_next 0x2aed None); (662, match_next 0x224c None); (663, match_next 0x03f6 None);
  (664, match_next 0x2035 None); (665, match_next 0x223d None); (666, match_next 0x22cd None);
  (667, match_next 0x22bd None)].

Definition trans_cases_18 : list (Z * action) := [
  (668, match_next 0x2305 None); (669, match_next 0x2305 None); (670, match_next 0x23b5 None);
  (671, match_next 0x23b6 None); (672, match_next 0x224c None); (673, match_next 0x0431 None);
  (674, match_next 0x201e None); (675, match_next 0x2235 None); (676, match_next 0x2235 None);
  (677, match_next 0x29b0 None); (678, match_next 0x03f6 None); (679, match_next 0x212c None);
  (680, match_next 0x03b2 None); (681, match_next 0x2136 None); (682, match_next 0x226c None);
  (683, match_next 0x0001d51f None); (684, match_next 0x22c2 None); (685, match_next 0x25ef None);
  (686, match_next 0x22c3 None); (687, match_next 0x2a00 None); (688, match_next 0x2a01 None);
  (689, match_next 0x2a02 None); (690, match_next 0x2a06 None); (691, match_next 0x2605 None);
  (692, match_next 0x25bd None); (693, match_next 0x25b3 None); (694, match_next 0x2a04 None);
  (695, match_next 0x22c1 None); (696, match_next 0x22c0 None); (697, match_next 0x290d None);
  (698, match_next 0x29eb None); (699, match_next 0x25aa None); (700, match_next 0x25b4 None);
  (701, match_next 0x25be None); (702, match_next 0x25c2 None); (703, match_next 0x25b8 None);
  (704, match_next 0x2423 None)].

Definition trans_cases_19 : list (Z * action) := [
  (705, match_next 0x2592 None); (706, match_next 0x2591 None); (707, match_next 0x2593 None);
  (708, match_next 0x2588 None); (709, match_next 0x3d (Some 0x20e5));
  (710, match_next 0x2261 (Some 0x20e5)); (711, match_next 0x2310 None); (712, match_next 0x0001d553 None);
  (713, match_next 0x22a5 None); (714, match_next 0x22a5 None); (715, match_next 0x22c8 None);
  (716, match_next 0x2557 None); (717, match_next 0x2554 None); (718, match_next 0x2556 None);
  (719, match_next 0x2553 None); (720, match_next 0x2550 None); (721, match_next 0x2566 None);
  (722, match_next 0x2569 None); (723, match_next 0x2564 None); (724, match_next 0x2567 None);
  (725, match_next 0x255d None); (726, match_next 0x255a None); (727, match_next 0x255c None);
  (728, match_next 0x2559 None); (729, match_next 0x2551 None); (730, match_next 0x256c None);
  (731, match_next 0x2563 None); (732, match_next 0x2560 None); (733, match_next 0x256b None);
  (734, match_next 0x2562 None); (735, match_next 0x255f None); (736, match_next 0x29c9 None);
  (737, match_next 0x2555 None); (738, match_next 0x2552 None); (739, match_next 0x2510 None);
  (740, match_next 0x250c None); (741, match_next 0x2500 None)].

Definition trans_cases_20 : list (Z * action) := [
  (742, match_next 0x2565 None); (743, match_next 0x2568 None); (744, match_next 0x252c None);
  (745, match_next 0x2534 None); (746, match_next 0x229f None); (747, match_next 0x229e None);
  (748, match_next 0x22a0 None); (749, match_next 0x255b None); (750, match_next 0x2558 None);
  (751, match_next 0x2518 None); (752, match_next 0x2514 None); (753, match_next 0x2502 None);
  (754, match_next 0x256a None); (755, match_next 0x2561 None); (756, match_next 0x255e None);
  (757, match_next 0x253c None); (758, match_next 0x2524 None); (759, match_next 0x251c None);
  (760, match_next 0x2035 None); (761, match_next 0x02d8 None); (762, match_next 0xa6 None);
  (763, match_next 0x0001d4b7 None); (764, match_next 0x204f None); (765, match_next 0x223d None);
  (766, match_next 0x22cd None); (767, match_next 0x5c None); (768, match_next 0x29c5 None);
  (769, match_next 0x27c8 None); (770, match_next 0x2022 None); (771, match_next 0x2022 None);
  (772, match_next 0x224e None); (773, match_next 0x2aae None); (774, match_next 0x224f None);
  (775, match_next 0x224f None); (776, match_next 0x0107 None); (777, match_next 0x2229 None);
  (778, match_next 0x2a44 None)].

Definition trans_cases_21 : list (Z * action) := [
  (779, match_next 0x2a49 None); (780, match_next 0x2a4b None); (781, match_next 0x2a47 None);
  (782, match_next 0x2a40 None); (783, match_next 0x2229 (Some 0xfe00)); (784, match_next 0x2041 None);
  (785, match_next 0x02c7 None); (786, match_next 0x2a4d None); (787, match_next 0x010d None);
  (788, match_next 0xe7 None); (789, match_next 0x0109 None); (790, match_next 0x2a4c None);
  (791, match_next 0x2a50 None); (792, match_next 0x010b None); (793, match_next 0xb8 None);
  (794, match_next 0x29b2 None); (795, match_next 0xa2 None); (796, match_next 0xb7 None);
  (797, match_next 0x0001d520 None); (798, match_next 0x0447 None); (799, match_next 0x2713 None);
  (800, match_next 0x2713 None); (801, match_next 0x03c7 None); (802, match_next 0x25cb None);
  (803, match_next 0x29c3 None); (804, match_next 0x02c6 None); (805, match_next 0x2257 None);
  (806, match_next 0x21ba None); (807, match_next 0x21bb None); (808, match_next 0xae None);
  (809, match_next 0x24c8 None); (810, match_next 0x229b None); (811, match_next 0x229a None);
  (812, match_next 0x229d None); (813, match_next 0x2257 None); (814, match_next 0x2a10 None);
  (815, match_next 0x2aef None)].

Definition trans_cases_22 : list (Z * action) := [
  (816, match_next 0x29c2 None); (817, match_next 0x2663 None); (818, match_next 0x2663 None);
  (819, match_next 0x3a None); (820, match_next 0x2254 None); (821, match_next 0x2254 None);
  (822, match_next 0x2c None); (823, match_next 0x40 None); (824, match_next 0x2201 None);
  (825, match_next 0x2218 None); (826, match_next 0x2201 None); (827, match_next 0x2102 None);
  (828, match_next 0x2245 None); (829, match_next 0x2a6d None); (830, match_next 0x222e None);
  (831, match_next 0x0001d554 None); (832, match_next 0x2210 None); (833, match_next 0xa9 None);
  (834, match_next 0x2117 None); (835, match_next 0x21b5 None); (836, match_next 0x2717 None);
  (837, match_next 0x0001d4b8 None); (838, match_next 0x2acf None); (839, match_next 0x2ad1 None);
  (840, match_next 0x2ad0 None); (841, match_next 0x2ad2 None); (842, match_next 0x22ef None);
  (843, match_next 0x2938 None); (844, match_next 0x2935 None); (845, match_next 0x22de None);
  (846, match_next 0x22df None); (847, match_next 0x21b6 None); (848, match_next 0x293d None);
  (849, match_next 0x222a None); (850, match_next 0x2a48 None); (851, match_next 0x2a46 None);
  (852, match_next 0x2a4a None)].

Definition trans_cases_23 : list (Z * action) := [
  (853, match_next 0x228d None); (854, match_next 0x2a45 None); (855, match_next 0x222a (Some 0xfe00));
  (856, match_next 0x21b7 None); (857, match_next 0x293c None); (858, match_next 0x22de None);
  (859, match_next 0x22df None); (860, match_next 0x22ce None); (861, match_next 0x22cf None);
  (862, match_next 0xa4 None); (863, match_next 0x21b6 None); (864, match_next 0x21b7 None);
  (865, match_next 0x22ce None); (866, match_next 0x22cf None); (867, match_next 0x2232 None);
  (868, match_next 0x2231 None); (869, match_next 0x232d None); (870, match_next 0x21d3 None);
  (871, match_next 0x2965 None); (872, match_next 0x2020 None); (873, match_next 0x2138 None);
  (874, match_next 0x2193 None); (875, match_next 0x2010 None); (876, match_next 0x22a3 None);
  (877, match_next 0x290f None); (878, match_next 0x02dd None); (879, match_next 0x010f None);
  (880, match_next 0x0434 None); (881, match_next 0x2146 None); (882, match_next 0x2021 None);
  (883, match_next 0x21ca None); (884, match_next 0x2a77 None); (885, match_next 0xb0 None);
  (886, match_next 0x03b4 None); (887, match_next 0x29b1 None); (888, match_next 0x297f None);
  (889, match_next 0x0001d521 None)].

Definition trans_cases_24 : list (Z * action) := [
  (890, match_next 0x21c3 None); (891, match_next 0x21c2 None); (892, match_next 0x22c4 None);
  (893, match_next 0x22c4 None); (894, match_next 0x2666 None); (895, match_next 0x2666 None);
  (896, match_next 0xa8 None); (897, match_next 0x03dd None); (898, match_next 0x22f2 None);
  (899, match_next 0xf7 None); (900, match_next 0xf7 None); (901, match_next 0x22c7 None);
  (902, match_next 0x22c7 None); (903, match_next 0x0452 None); (904, match_next 0x231e None);
  (905, match_next 0x230d None); (906, match_next 0x24 None); (907, match_next 0x0001d555 None);
  (908, match_next 0x02d9 None); (909, match_next 0x2250 None); (910, match_next 0x2251 None);
  (911, match_next 0x2238 None); (912, match_next 0x2214 None); (913, match_next 0x22a1 None);
  (914, match_next 0x2306 None); (915, match_next 0x2193 None); (916, match_next 0x21ca None);
  (917, match_next 0x21c3 None); (918, match_next 0x21c2 None); (919, match_next 0x2910 None);
  (920, match_next 0x231f None); (921, match_next 0x230c None); (922, match_next 0x0001d4b9 None);
  (923, match_next 0x0455 None); (924, match_next 0x29f6 None); (925, match_next 0x0111 None);
  (926, match_next 0x22f1 None)].

Definition trans_cases_25 : list (Z * action) := [
  (927, match_next 0x25bf None); (928, match_next 0x25be None); (929, match_next 0x21f5 None);
  (930, match_next 0x296f None); (931, match_next 0x29a6 None); (932, match_next 0x045f None);
  (933, match_next 0x27ff None); (934, match_next 0x2a77 None); (935, match_next 0x2251 None);
  (936, match_next 0xe9 None); (937, match_next 0x2a6e None); (938, match_next 0x011b None);
  (939, match_next 0x2256 None); (940, match_next 0xea None); (941, match_next 0x2255 None);
  (942, match_next 0x044d None); (943, match_next 0x0117 None); (944, match_next 0x2147 None);
  (945, match_next 0x2252 None); (946, match_next 0x0001d522 None); (947, match_next 0x2a9a None);
  (948, match_next 0xe8 None); (949, match_next 0x2a96 None); (950, match_next 0x2a98 None);
  (951, match_next 0x2a99 None); (952, match_next 0x23e7 None); (953, match_next 0x2113 None);
  (954, match_next 0x2a95 None); (955, match_next 0x2a97 None); (956, match_next 0x0113 None);
  (957, match_next 0x2205 None); (958, match_next 0x2205 None); (959, match_next 0x2205 None);
  (960, match_next 0x2004 None); (961, match_next 0x2005 None); (962, match_next 0x2003 None);
  (963, match_next 0x014b None)].

Definition trans_cases_26 : list (Z * action) := [
  (964, match_next 0x2002 None); (965, match_next 0x0119 None); (966, match_next 0x0001d556 None);
  (967, match_next 0x22d5 None); (968, match_next 0x29e3 None); (969, match_next 0x2a71 None);
  (970, match_next 0x03b5 None); (971, match_next 0x03b5 None); (972, match_next 0x03f5 None);
  (973, match_next 0x2256 None); (974, match_next 0x2255 None); (975, match_next 0x2242 None);
  (976, match_next 0x2a96 None); (977, match_next 0x2a95 None); (978, match_next 0x3d None);
  (979, match_next 0x225f None); (980, match_next 0x2261 None); (981, match_next 0x2a78 None);
  (982, match_next 0x29e5 None); (983, match_next 0x2253 None); (984, match_next 0x2971 None);
  (985, match_next 0x212f None); (986, match_next 0x2250 None); (987, match_next 0x2242 None);
  (988, match_next 0x03b7 None); (989, match_next 0xf0 None); (990, match_next 0xeb None);
  (991, match_next 0x20ac None); (992, match_next 0x21 None); (993, match_next 0x2203 None);
  (994, match_next 0x2130 None); (995, match_next 0x2147 None); (996, match_next 0x2252 None);
  (997, match_next 0x0444 None); (998, match_next 0x2640 None); (999, match_next 0xfb03 None);
  (1000, match_next 0xfb00 None)].

Definition trans_cases_27 : list (Z * action) := [
  (1001, match_next 0xfb04 None); (1002, match_next 0x0001d523 None); (1003, match_next 0xfb01 None);
  (1004, match_next 0x66 (Some 0x6a)); (1005, match_next 0x266d None); (1006, match_next 0xfb02 None);
  (1007, match_next 0x25b1 None); (1008, match_next 0x0192 None); (1009, match_next 0x0001d557 None);
  (1010, match_next 0x2200 None); (1011, match_next 0x22d4 None); (1012, match_next 0x2ad9 None);
  (1013, match_next 0x2a0d None); (1014, match_next 0xbd None); (1015, match_next 0x2153 None);
  (1016, match_next 0xbc None); (1017, match_next 0x2155 None); (1018, match_next 0x2159 None);
  (1019, match_next 0x215b None); (1020, match_next 0x2154 None); (1021, match_next 0x2156 None);
  (1022, match_next 0xbe None); (1023, match_next 0x2157 None); (1024, match_next 0x215c None);
  (1025, match_next 0x2158 None); (1026, match_next 0x215a None); (1027, match_next 0x215d None);
  (1028, match_next 0x215e None); (1029, match_next 0x2044 None); (1030, match_next 0x2322 None);
  (1031, match_next 0x0001d4bb None); (1032, match_next 0x2267 None); (1033, match_next 0x2a8c None);
  (1034, match_next 0x01f5 None); (1035, match_next 0x03b3 None); (1036, match_next 0x03dd None);
  (1037, match_next 0x2a86 None)].

Definition trans_cases_28 : list (Z * action) := [
  (1038, match_next 0x011f None); (1039, match_next 0x011d None); (1040, match_next 0x0433 None);
  (1041, match_next 0x0121 None); (1042, match_next 0x2265 None); (1043, match_next 0x22db None);
  (1044, match_next 0x2265 None); (1045, match_next 0x2267 None); (1046, match_next 0x2a7e None);
  (1047, match_next 0x2a7e None); (1048, match_next 0x2aa9 None); (1049, match_next 0x2a80 None);
  (1050, match_next 0x2a82 None); (1051, match_next 0x2a84 None); (1052, match_next 0x22db (Some 0xfe00));
  (1053, match_next 0x2a94 None); (1054, match_next 0x0001d524 None); (1055, match_next 0x226b None);
  (1056, match_next 0x22d9 None); (1057, match_next 0x2137 None); (1058, match_next 0x0453 None);
  (1059, match_next 0x2277 None); (1060, match_next 0x2a92 None); (1061, match_next 0x2aa5 None);
  (1062, match_next 0x2aa4 None); (1063, match_next 0x2269 None); (1064, match_next 0x2a8a None);
  (1065, match_next 0x2a8a None); (1066, match_next 0x2a88 None); (1067, match_next 0x2a88 None);
  (1068, match_next 0x2269 None); (1069, match_next 0x22e7 None); (1070, match_next 0x0001d558 None);
  (1071, match_next 0x60 None); (1072, match_next 0x210a None); (1073, match_next 0x2273 None);
  (1074, match_next 0x2a8e None)].

Definition trans_cases_29 : list (Z * action) := [
  (1075, match_next 0x2a90 None); (1076, match_next 0x3e None); (1077, match_next 0x2aa7 None);
  (1078, match_next 0x2a7a None); (1079, match_next 0x22d7 None); (1080, match_next 0x2995 None);
  (1081, match_next 0x2a7c None); (1082, match_next 0x2a86 None); (1083, match_next 0x2978 None);
  (1084, match_next 0x22d7 None); (1085, match_next 0x22db None); (1086, match_next 0x2a8c None);
  (1087, match_next 0x2277 None); (1088, match_next 0x2273 None); (1089, match_next 0x2269 (Some 0xfe00));
  (1090, match_next 0x2269 (Some 0xfe00)); (1091, match_next 0x21d4 None); (1092, match_next 0x200a None);
  (1093, match_next 0xbd None); (1094, match_next 0x210b None); (1095, match_next 0x044a None);
  (1096, match_next 0x2194 None); (1097, match_next 0x2948 None); (1098, match_next 0x21ad None);
  (1099, match_next 0x210f None); (1100, match_next 0x0125 None); (1101, match_next 0x2665 None);
  (1102, match_next 0x2665 None); (1103, match_next 0x2026 None); (1104, match_next 0x22b9 None);
  (1105, match_next 0x0001d525 None); (1106, match_next 0x2925 None); (1107, match_next 0x2926 None);
  (1108, match_next 0x21ff None); (1109, match_next 0x223b None); (1110, match_next 0x21a9 None);
  (1111, match_next 0x21aa None)].

Definition trans_cases_30 : list (Z * action) := [
  (1112, match_next 0x0001d559 None); (1113, match_next 0x2015 None); (1114, match_next 0x0001d4bd None);
  (1115, match_next 0x210f None); (1116, match_next 0x0127 None); (1117, match_next 0x2043 None);
  (1118, match_next 0x2010 None); (1119, match_next 0xed None); (1120, match_next 0x2063 None);
  (1121, match_next 0xee None); (1122, match_next 0x0438 None); (1123, match_next 0x0435 None);
  (1124, match_next 0xa1 None); (1125, match_next 0x21d4 None); (1126, match_next 0x0001d526 None);
  (1127, match_next 0xec None); (1128, match_next 0x2148 None); (1129, match_next 0x2a0c None);
  (1130, match_next 0x222d None); (1131, match_next 0x29dc None); (1132, match_next 0x2129 None);
  (1133, match_next 0x0133 None); (1134, match_next 0x012b None); (1135, match_next 0x2111 None);
  (1136, match_next 0x2110 None); (1137, match_next 0x2111 None); (1138, match_next 0x0131 None);
  (1139, match_next 0x22b7 None); (1140, match_next 0x01b5 None); (1141, match_next 0x2208 None);
  (1142, match_next 0x2105 None); (1143, match_next 0x221e None); (1144, match_next 0x29dd None);
  (1145, match_next 0x0131 None); (1146, match_next 0x222b None); (1147, match_next 0x22ba None);
  (1148, match_next 0x2124 None)].

Definition trans_cases_31 : list (Z * action) := [
  (1149, match_next 0x22ba None); (1150, match_next 0x2a17 None); (1151, match_next 0x2a3c None);
  (1152, match_next 0x0451 None); (1153, match_next 0x012f None); (1154, match_next 0x0001d55a None);
  (1155, match_next 0x03b9 None); (1156, match_next 0x2a3c None); (1157, match_next 0xbf None);
  (1158, match_next 0x0001d4be None); (1159, match_next 0x2208 None); (1160, match_next 0x22f9 None);
  (1161, match_next 0x22f5 None); (1162, match_next 0x22f4 None); (1163, match_next 0x22f3 None);
  (1164, match_next 0x2208 None); (1165, match_next 0x2062 None); (1166, match_next 0x0129 None);
  (1167, match_next 0x0456 None); (1168, match_next 0xef None); (1169, match_next 0x0135 None);
  (1170, match_next 0x0439 None); (1171, match_next 0x0001d527 None); (1172, match_next 0x0237 None);
  (1173, match_next 0x0001d55b None); (1174, match_next 0x0001d4bf None); (1175, match_next 0x0458 None);
  (1176, match_next 0x0454 None); (1177, match_next 0x03ba None); (1178, match_next 0x03f0 None);
  (1179, match_next 0x0137 None); (1180, match_next 0x043a None); (1181, match_next 0x0001d528 None);
  (1182, match_next 0x0138 None); (1183, match_next 0x0445 None); (1184, match_next 0x045c None);
  (1185, match_next 0x0001d55c None)].

Definition trans_cases_32 : list (Z * action) := [
  (1186, match_next 0x0001d4c0 None); (1187, match_next 0x21da None); (1188, match_next 0x21d0 None);
  (1189, match_next 0x291b None); (1190, match_next 0x290e None); (1191, match_next 0x2266 None);
  (1192, match_next 0x2a8b None); (1193, match_next 0x2962 None); (1194, match_next 0x013a None);
  (1195, match_next 0x29b4 None); (1196, match_next 0x2112 None); (1197, match_next 0x03bb None);
  (1198, match_next 0x27e8 None); (1199, match_next 0x2991 None); (1200, match_next 0x27e8 None);
  (1201, match_next 0x2a85 None); (1202, match_next 0xab None); (1203, match_next 0x2190 None);
  (1204, match_next 0x21e4 None); (1205, match_next 0x291f None); (1206, match_next 0x291d None);
  (1207, match_next 0x21a9 None); (1208, match_next 0x21ab None); (1209, match_next 0x2939 None);
  (1210, match_next 0x2973 None); (1211, match_next 0x21a2 None); (1212, match_next 0x2aab None);
  (1213, match_next 0x2919 None); (1214, match_next 0x2aad None); (1215, match_next 0x2aad (Some 0xfe00));
  (1216, match_next 0x290c None); (1217, match_next 0x2772 None); (1218, match_next 0x7b None);
  (1219, match_next 0x5b None); (1220, match_next 0x298b None); (1221, match_next 0x298f None);
  (1222, match_next 0x298d None)].

Definition trans_cases_33 : list (Z * action) := [
  (1223, match_next 0x013e None); (1224, match_next 0x013c None); (1225, match_next 0x2308 None);
  (1226, match_next 0x7b None); (1227, match_next 0x043b None); (1228, match_next 0x2936 None);
  (1229, match_next 0x201c None); (1230, match_next 0x201e None); (1231, match_next 0x2967 None);
  (1232, match_next 0x294b None); (1233, match_next 0x21b2 None); (1234, match_next 0x2264 None);
  (1235, match_next 0x2190 None); (1236, match_next 0x21a2 None); (1237, match_next 0x21bd None);
  (1238, match_next 0x21bc None); (1239, match_next 0x21c7 None); (1240, match_next 0x2194 None);
  (1241, match_next 0x21c6 None); (1242, match_next 0x21cb None); (1243, match_next 0x21ad None);
  (1244, match_next 0x22cb None); (1245, match_next 0x22da None); (1246, match_next 0x2264 None);
  (1247, match_next 0x2266 None); (1248, match_next 0x2a7d None); (1249, match_next 0x2a7d None);
  (1250, match_next 0x2aa8 None); (1251, match_next 0x2a7f None); (1252, match_next 0x2a81 None);
  (1253, match_next 0x2a83 None); (1254, match_next 0x22da (Some 0xfe00)); (1255, match_next 0x2a93 None);
  (1256, match_next 0x2a85 None); (1257, match_next 0x22d6 None); (1258, match_next 0x22da None);
  (1259, match_next 0x2a8b None)].

Definition trans_cases_34 : list (Z * action) := [
  (1260, match_next 0x2276 None); (1261, match_next 0x2272 None); (1262, match_next 0x297c None);
  (1263, match_next 0x230a None); (1264, match_next 0x0001d529 None); (1265, match_next 0x2276 None);
  (1266, match_next 0x2a91 None); (1267, match_next 0x21bd None); (1268, match_next 0x21bc None);
  (1269, match_next 0x296a None); (1270, match_next 0x2584 None); (1271, match_next 0x0459 None);
  (1272, match_next 0x226a None); (1273, match_next 0x21c7 None); (1274, match_next 0x231e None);
  (1275, match_next 0x296b None); (1276, match_next 0x25fa None); (1277, match_next 0x0140 None);
  (1278, match_next 0x23b0 None); (1279, match_next 0x23b0 None); (1280, match_next 0x2268 None);
  (1281, match_next 0x2a89 None); (1282, match_next 0x2a89 None); (1283, match_next 0x2a87 None);
  (1284, match_next 0x2a87 None); (1285, match_next 0x2268 None); (1286, match_next 0x22e6 None);
  (1287, match_next 0x27ec None); (1288, match_next 0x21fd None); (1289, match_next 0x27e6 None);
  (1290, match_next 0x27f5 None); (1291, match_next 0x27f7 None); (1292, match_next 0x27fc None);
  (1293, match_next 0x27f6 None); (1294, match_next 0x21ab None); (1295, match_next 0x21ac None);
  (1296, match_next 0x2985 None)].

Definition trans_cases_35 : list (Z * action) := [
  (1297, match_next 0x0001d55d None); (1298, match_next 0x2a2d None); (1299, match_next 0x2a34 None);
  (1300, match_next 0x2217 None); (1301, match_next 0x5f None); (1302, match_next 0x25ca None);
  (1303, match_next 0x25ca None); (1304, match_next 0x29eb None); (1305, match_next 0x28 None);
  (1306, match_next 0x2993 None); (1307, match_next 0x21c6 None); (1308, match_next 0x231f None);
  (1309, match_next 0x21cb None); (1310, match_next 0x296d None); (1311, match_next 0x200e None);
  (1312, match_next 0x22bf None); (1313, match_next 0x2039 None); (1314, match_next 0x0001d4c1 None);
  (1315, match_next 0x21b0 None); (1316, match_next 0x2272 None); (1317, match_next 0x2a8d None);
  (1318, match_next 0x2a8f None); (1319, match_next 0x5b None); (1320, match_next 0x2018 None);
  (1321, match_next 0x201a None); (1322, match_next 0x0142 None); (1323, match_next 0x3c None);
  (1324, match_next 0x2aa6 None); (1325, match_next 0x2a79 None); (1326, match_next 0x22d6 None);
  (1327, match_next 0x22cb None); (1328, match_next 0x22c9 None); (1329, match_next 0x2976 None);
  (1330, match_next 0x2a7b None); (1331, match_next 0x2996 None); (1332, match_next 0x25c3 None);
  (1333, match_next 0x22b4 None)].

Definition trans_cases_36 : list (Z * action) := [
  (1334, match_next 0x25c2 None); (1335, match_next 0x294a None); (1336, match_next 0x2966 None);
  (1337, match_next 0x2268 (Some 0xfe00)); (1338, match_next 0x2268 (Some 0xfe00));
  (1339, match_next 0x223a None); (1340, match_next 0xaf None); (1341, match_next 0x2642 None);
  (1342, match_next 0x2720 None); (1343, match_next 0x2720 None); (1344, match_next 0x21a6 None);
  (1345, match_next 0x21a6 None); (1346, match_next 0x21a7 None); (1347, match_next 0x21a4 None);
  (1348, match_next 0x21a5 None); (1349, match_next 0x25ae None); (1350, match_next 0x2a29 None);
  (1351, match_next 0x043c None); (1352, match_next 0x2014 None); (1353, match_next 0x2221 None);
  (1354, match_next 0x0001d52a None); (1355, match_next 0x2127 None); (1356, match_next 0xb5 None);
  (1357, match_next 0x2223 None); (1358, match_next 0x2a None); (1359, match_next 0x2af0 None);
  (1360, match_next 0xb7 None); (1361, match_next 0x2212 None); (1362, match_next 0x229f None);
  (1363, match_next 0x2238 None); (1364, match_next 0x2a2a None); (1365, match_next 0x2adb None);
  (1366, match_next 0x2026 None); (1367, match_next 0x2213 None); (1368, match_next 0x22a7 None);
  (1369, match_next 0x0001d55e None); (1370, match_next 0x2213 None)].

Definition trans_cases_37 : list (Z * action) := [
  (1371, match_next 0x0001d4c2 None); (1372, match_next 0x223e None); (1373, match_next 0x03bc None);
  (1374, match_next 0x22b8 None); (1375, match_next 0x22b8 None); (1376, match_next 0x22d9 (Some 0x0338));
  (1377, match_next 0x226b (Some 0x20d2)); (1378, match_next 0x226b (Some 0x0338));
  (1379, match_next 0x21cd None); (1380, match_next 0x21ce None); (1381, match_next 0x22d8 (Some 0x0338));
  (1382, match_next 0x226a (Some 0x20d2)); (1383, match_next 0x226a (Some 0x0338));
  (1384, match_next 0x21cf None); (1385, match_next 0x22af None); (1386, match_next 0x22ae None);
  (1387, match_next 0x2207 None); (1388, match_next 0x0144 None); (1389, match_next 0x2220 (Some 0x20d2));
  (1390, match_next 0x2249 None); (1391, match_next 0x2a70 (Some 0x0338));
  (1392, match_next 0x224b (Some 0x0338)); (1393, match_next 0x0149 None); (1394, match_next 0x2249 None);
  (1395, match_next 0x266e None); (1396, match_next 0x266e None); (1397, match_next 0x2115 None);
  (1398, match_next 0xa0 None); (1399, match_next 0x224e (Some 0x0338));
  (1400, match_next 0x224f (Some 0x0338)); (1401, match_next 0x2a43 None); (1402, match_next 0x0148 None);
  (1403, match_next 0x0146 None); (1404, match_next 0x2247 None); (1405, match_next 0x2a6d (Some 0x0338));
  (1406, match_next 0x2a42 None); (1407, match_next 0x043d None)].

Definition trans_cases_38 : list (Z * action) := [
  (1408, match_next 0x2013 None); (1409, match_next 0x2260 None); (1410, match_next 0x21d7 None);
  (1411, match_next 0x2924 None); (1412, match_next 0x2197 None); (1413, match_next 0x2197 None);
  (1414, match_next 0x2250 (Some 0x0338)); (1415, match_next 0x2262 None); (1416, match_next 0x2928 None);
  (1417, match_next 0x2242 (Some 0x0338)); (1418, match_next 0x2204 None); (1419, match_next 0x2204 None);
  (1420, match_next 0x0001d52b None); (1421, match_next 0x2267 (Some 0x0338));
  (1422, match_next 0x2271 None); (1423, match_next 0x2271 None); (1424, match_next 0x2267 (Some 0x0338));
  (1425, match_next 0x2a7e (Some 0x0338)); (1426, match_next 0x2a7e (Some 0x0338));
  (1427, match_next 0x2275 None); (1428, match_next 0x226f None); (1429, match_next 0x226f None);
  (1430, match_next 0x21ce None); (1431, match_next 0x21ae None); (1432, match_next 0x2af2 None);
  (1433, match_next 0x220b None); (1434, match_next 0x22fc None); (1435, match_next 0x22fa None);
  (1436, match_next 0x220b None); (1437, match_next 0x045a None); (1438, match_next 0x21cd None);
  (1439, match_next 0x2266 (Some 0x0338)); (1440, match_next 0x219a None); (1441, match_next 0x2025 None);
  (1442, match_next 0x2270 None); (1443, match_next 0x219a None); (1444, match_next 0x21ae None)].

Definition trans_cases_39 : list (Z * action) := [
  (1445, match_next 0x2270 None); (1446, match_next 0x2266 (Some 0x0338));
  (1447, match_next 0x2a7d (Some 0x0338)); (1448, match_next 0x2a7d (Some 0x0338));
  (1449, match_next 0x226e None); (1450, match_next 0x2274 None); (1451, match_next 0x226e None);
  (1452, match_next 0x22ea None); (1453, match_next 0x22ec None); (1454, match_next 0x2224 None);
  (1455, match_next 0x0001d55f None); (1456, match_next 0xac None); (1457, match_next 0x2209 None);
  (1458, match_next 0x22f9 (Some 0x0338)); (1459, match_next 0x22f5 (Some 0x0338));
  (1460, match_next 0x2209 None); (1461, match_next 0x22f7 None); (1462, match_next 0x22f6 None);
  (1463, match_next 0x220c None); (1464, match_next 0x220c None); (1465, match_next 0x22fe None);
  (1466, match_next 0x22fd None); (1467, match_next 0x2226 None); (1468, match_next 0x2226 None);
  (1469, match_next 0x2afd (Some 0x20e5)); (1470, match_next 0x2202 (Some 0x0338));
  (1471, match_next 0x2a14 None); (1472, match_next 0x2280 None); (1473, match_next 0x22e0 None);
  (1474, match_next 0x2aaf (Some 0x0338)); (1475, match_next 0x2280 None);
  (1476, match_next 0x2aaf (Some 0x0338)); (1477, match_next 0x21cf None); (1478, match_next 0x219b None);
  (1479, match_next 0x2933 (Some 0x0338)); (1480, match_next 0x219d (Some 0x0338));
  (1481, match_next 0x219b None)].

Definition trans_cases_40 : list (Z * action) := [
  (1482, match_next 0x22eb None); (1483, match_next 0x22ed None); (1484, match_next 0x2281 None);
  (1485, match_next 0x22e1 None); (1486, match_next 0x2ab0 (Some 0x0338));
  (1487, match_next 0x0001d4c3 None); (1488, match_next 0x2224 None); (1489, match_next 0x2226 None);
  (1490, match_next 0x2241 None); (1491, match_next 0x2244 None); (1492, match_next 0x2244 None);
  (1493, match_next 0x2224 None); (1494, match_next 0x2226 None); (1495, match_next 0x22e2 None);
  (1496, match_next 0x22e3 None); (1497, match_next 0x2284 None); (1498, match_next 0x2ac5 (Some 0x0338));
  (1499, match_next 0x2288 None); (1500, match_next 0x2282 (Some 0x20d2)); (1501, match_next 0x2288 None);
  (1502, match_next 0x2ac5 (Some 0x0338)); (1503, match_next 0x2281 None);
  (1504, match_next 0x2ab0 (Some 0x0338)); (1505, match_next 0x2285 None);
  (1506, match_next 0x2ac6 (Some 0x0338)); (1507, match_next 0x2289 None);
  (1508, match_next 0x2283 (Some 0x20d2)); (1509, match_next 0x2289 None);
  (1510, match_next 0x2ac6 (Some 0x0338)); (1511, match_next 0x2279 None); (1512, match_next 0xf1 None);
  (1513, match_next 0x2278 None); (1514, match_next 0x22ea None); (1515, match_next 0x22ec None);
  (1516, match_next 0x22eb None); (1517, match_next 0x22ed None); (1518, match_next 0x03bd None)].

Definition trans_cases_41 : list (Z * action) := [
  (1519, match_next 0x23 None); (1520, match_next 0x2116 None); (1521, match_next 0x2007 None);
  (1522, match_next 0x22ad None); (1523, match_next 0x2904 None); (1524, match_next 0x224d (Some 0x20d2));
  (1525, match_next 0x22ac None); (1526, match_next 0x2265 (Some 0x20d2));
  (1527, match_next 0x3e (Some 0x20d2)); (1528, match_next 0x29de None); (1529, match_next 0x2902 None);
  (1530, match_next 0x2264 (Some 0x20d2)); (1531, match_next 0x3c (Some 0x20d2));
  (1532, match_next 0x22b4 (Some 0x20d2)); (1533, match_next 0x2903 None);
  (1534, match_next 0x22b5 (Some 0x20d2)); (1535, match_next 0x223c (Some 0x20d2));
  (1536, match_next 0x21d6 None); (1537, match_next 0x2923 None); (1538, match_next 0x2196 None);
  (1539, match_next 0x2196 None); (1540, match_next 0x2927 None); (1541, match_next 0x24c8 None);
  (1542, match_next 0xf3 None); (1543, match_next 0x229b None); (1544, match_next 0x229a None);
  (1545, match_next 0xf4 None); (1546, match_next 0x043e None); (1547, match_next 0x229d None);
  (1548, match_next 0x0151 None); (1549, match_next 0x2a38 None); (1550, match_next 0x2299 None);
  (1551, match_next 0x29bc None); (1552, match_next 0x0153 None); (1553, match_next 0x29bf None);
  (1554, match_next 0x0001d52c None); (1555, match_next 0x02db None)].

Definition trans_cases_42 : list (Z * action) := [
  (1556, match_next 0xf2 None); (1557, match_next 0x29c1 None); (1558, match_next 0x29b5 None);
  (1559, match_next 0x03a9 None); (1560, match_next 0x222e None); (1561, match_next 0x21ba None);
  (1562, match_next 0x29be None); (1563, match_next 0x29bb None); (1564, match_next 0x203e None);
  (1565, match_next 0x29c0 None); (1566, match_next 0x014d None); (1567, match_next 0x03c9 None);
  (1568, match_next 0x03bf None); (1569, match_next 0x29b6 None); (1570, match_next 0x2296 None);
  (1571, match_next 0x0001d560 None); (1572, match_next 0x29b7 None); (1573, match_next 0x29b9 None);
  (1574, match_next 0x2295 None); (1575, match_next 0x2228 None); (1576, match_next 0x21bb None);
  (1577, match_next 0x2a5d None); (1578, match_next 0x2134 None); (1579, match_next 0x2134 None);
  (1580, match_next 0xaa None); (1581, match_next 0xba None); (1582, match_next 0x22b6 None);
  (1583, match_next 0x2a56 None); (1584, match_next 0x2a57 None); (1585, match_next 0x2a5b None);
  (1586, match_next 0x2134 None); (1587, match_next 0xf8 None); (1588, match_next 0x2298 None);
  (1589, match_next 0xf5 None); (1590, match_next 0x2297 None); (1591, match_next 0x2a36 None);
  (1592, match_next 0xf6 None)].

Definition trans_cases_43 : list (Z * action) := [
  (1593, match_next 0x233d None); (1594, match_next 0x2225 None); (1595, match_next 0xb6 None);
  (1596, match_next 0x2225 None); (1597, match_next 0x2af3 None); (1598, match_next 0x2afd None);
  (1599, match_next 0x2202 None); (1600, match_next 0x043f None); (1601, match_next 0x25 None);
  (1602, match_next 0x2e None); (1603, match_next 0x2030 None); (1604, match_next 0x22a5 None);
  (1605, match_next 0x2031 None); (1606, match_next 0x0001d52d None); (1607, match_next 0x03c6 None);
  (1608, match_next 0x03d5 None); (1609, match_next 0x2133 None); (1610, match_next 0x260e None);
  (1611, match_next 0x03c0 None); (1612, match_next 0x22d4 None); (1613, match_next 0x03d6 None);
  (1614, match_next 0x210f None); (1615, match_next 0x210e None); (1616, match_next 0x210f None);
  (1617, match_next 0x2b None); (1618, match_next 0x2a23 None); (1619, match_next 0x229e None);
  (1620, match_next 0x2a22 None); (1621, match_next 0x2214 None); (1622, match_next 0x2a25 None);
  (1623, match_next 0x2a72 None); (1624, match_next 0xb1 None); (1625, match_next 0x2a26 None);
  (1626, match_next 0x2a27 None); (1627, match_next 0xb1 None); (1628, match_next 0x2a15 None);
  (1629, match_next 0x0001d561 None)].

Definition trans_cases_44 : list (Z * action) := [
  (1630, match_next 0xa3 None); (1631, match_next 0x227a None); (1632, match_next 0x2ab3 None);
  (1633, match_next 0x2ab7 None); (1634, match_next 0x227c None); (1635, match_next 0x2aaf None);
  (1636, match_next 0x227a None); (1637, match_next 0x2ab7 None); (1638, match_next 0x227c None);
  (1639, match_next 0x2aaf None); (1640, match_next 0x2ab9 None); (1641, match_next 0x2ab5 None);
  (1642, match_next 0x22e8 None); (1643, match_next 0x227e None); (1644, match_next 0x2032 None);
  (1645, match_next 0x2119 None); (1646, match_next 0x2ab5 None); (1647, match_next 0x2ab9 None);
  (1648, match_next 0x22e8 None); (1649, match_next 0x220f None); (1650, match_next 0x232e None);
  (1651, match_next 0x2312 None); (1652, match_next 0x2313 None); (1653, match_next 0x221d None);
  (1654, match_next 0x221d None); (1655, match_next 0x227e None); (1656, match_next 0x22b0 None);
  (1657, match_next 0x0001d4c5 None); (1658, match_next 0x03c8 None); (1659, match_next 0x2008 None);
  (1660, match_next 0x0001d52e None); (1661, match_next 0x2a0c None); (1662, match_next 0x0001d562 None);
  (1663, match_next 0x2057 None); (1664, match_next 0x0001d4c6 None); (1665, match_next 0x210d None);
  (1666, match_next 0x2a16 None)].

Definition trans_cases_45 : list (Z * action) := [
  (1667, match_next 0x3f None); (1668, match_next 0x225f None); (1669, match_next 0x22 None);
  (1670, match_next 0x21db None); (1671, match_next 0x21d2 None); (1672, match_next 0x291c None);
  (1673, match_next 0x290f None); (1674, match_next 0x2964 None); (1675, match_next 0x223d (Some 0x0331));
  (1676, match_next 0x0155 None); (1677, match_next 0x221a None); (1678, match_next 0x29b3 None);
  (1679, match_next 0x27e9 None); (1680, match_next 0x2992 None); (1681, match_next 0x29a5 None);
  (1682, match_next 0x27e9 None); (1683, match_next 0xbb None); (1684, match_next 0x2192 None);
  (1685, match_next 0x2975 None); (1686, match_next 0x21e5 None); (1687, match_next 0x2920 None);
  (1688, match_next 0x2933 None); (1689, match_next 0x291e None); (1690, match_next 0x21aa None);
  (1691, match_next 0x21ac None); (1692, match_next 0x2945 None); (1693, match_next 0x2974 None);
  (1694, match_next 0x21a3 None); (1695, match_next 0x219d None); (1696, match_next 0x291a None);
  (1697, match_next 0x2236 None); (1698, match_next 0x211a None); (1699, match_next 0x290d None);
  (1700, match_next 0x2773 None); (1701, match_next 0x7d None); (1702, match_next 0x5d None);
  (1703, match_next 0x298c None)].

Definition trans_cases_46 : list (Z * action) := [
  (1704, match_next 0x298e None); (1705, match_next 0x2990 None); (1706, match_next 0x0159 None);
  (1707, match_next 0x0157 None); (1708, match_next 0x2309 None); (1709, match_next 0x7d None);
  (1710, match_next 0x0440 None); (1711, match_next 0x2937 None); (1712, match_next 0x2969 None);
  (1713, match_next 0x201d None); (1714, match_next 0x201d None); (1715, match_next 0x21b3 None);
  (1716, match_next 0x211c None); (1717, match_next 0x211b None); (1718, match_next 0x211c None);
  (1719, match_next 0x211d None); (1720, match_next 0x25ad None); (1721, match_next 0xae None);
  (1722, match_next 0x297d None); (1723, match_next 0x230b None); (1724, match_next 0x0001d52f None);
  (1725, match_next 0x21c1 None); (1726, match_next 0x21c0 None); (1727, match_next 0x296c None);
  (1728, match_next 0x03c1 None); (1729, match_next 0x03f1 None); (1730, match_next 0x2192 None);
  (1731, match_next 0x21a3 None); (1732, match_next 0x21c1 None); (1733, match_next 0x21c0 None);
  (1734, match_next 0x21c4 None); (1735, match_next 0x21cc None); (1736, match_next 0x21c9 None);
  (1737, match_next 0x219d None); (1738, match_next 0x22cc None); (1739, match_next 0x02da None);
  (1740, match_next 0x2253 None)].

Definition trans_cases_47 : list (Z * action) := [
  (1741, match_next 0x21c4 None); (1742, match_next 0x21cc None); (1743, match_next 0x200f None);
  (1744, match_next 0x23b1 None); (1745, match_next 0x23b1 None); (1746, match_next 0x2aee None);
  (1747, match_next 0x27ed None); (1748, match_next 0x21fe None); (1749, match_next 0x27e7 None);
  (1750, match_next 0x2986 None); (1751, match_next 0x0001d563 None); (1752, match_next 0x2a2e None);
  (1753, match_next 0x2a35 None); (1754, match_next 0x29 None); (1755, match_next 0x2994 None);
  (1756, match_next 0x2a12 None); (1757, match_next 0x21c9 None); (1758, match_next 0x203a None);
  (1759, match_next 0x0001d4c7 None); (1760, match_next 0x21b1 None); (1761, match_next 0x5d None);
  (1762, match_next 0x2019 None); (1763, match_next 0x2019 None); (1764, match_next 0x22cc None);
  (1765, match_next 0x22ca None); (1766, match_next 0x25b9 None); (1767, match_next 0x22b5 None);
  (1768, match_next 0x25b8 None); (1769, match_next 0x29ce None); (1770, match_next 0x2968 None);
  (1771, match_next 0x211e None); (1772, match_next 0x015b None); (1773, match_next 0x201a None);
  (1774, match_next 0x227b None); (1775, match_next 0x2ab4 None); (1776, match_next 0x2ab8 None);
  (1777, match_next 0x0161 None)].

Definition trans_cases_48 : list (Z * action) := [
  (1778, match_next 0x227d None); (1779, match_next 0x2ab0 None); (1780, match_next 0x015f None);
  (1781, match_next 0x015d None); (1782, match_next 0x2ab6 None); (1783, match_next 0x2aba None);
  (1784, match_next 0x22e9 None); (1785, match_next 0x2a13 None); (1786, match_next 0x227f None);
  (1787, match_next 0x0441 None); (1788, match_next 0x22c5 None); (1789, match_next 0x22a1 None);
  (1790, match_next 0x2a66 None); (1791, match_next 0x21d8 None); (1792, match_next 0x2925 None);
  (1793, match_next 0x2198 None); (1794, match_next 0x2198 None); (1795, match_next 0xa7 None);
  (1796, match_next 0x3b None); (1797, match_next 0x2929 None); (1798, match_next 0x2216 None);
  (1799, match_next 0x2216 None); (1800, match_next 0x2736 None); (1801, match_next 0x0001d530 None);
  (1802, match_next 0x2322 None); (1803, match_next 0x266f None); (1804, match_next 0x0449 None);
  (1805, match_next 0x0448 None); (1806, match_next 0x2223 None); (1807, match_next 0x2225 None);
  (1808, match_next 0xad None); (1809, match_next 0x03c3 None); (1810, match_next 0x03c2 None);
  (1811, match_next 0x03c2 None); (1812, match_next 0x223c None); (1813, match_next 0x2a6a None);
  (1814, match_next 0x2243 None)].

Definition trans_cases_49 : list (Z * action) := [
  (1815, match_next 0x2243 None); (1816, match_next 0x2a9e None); (1817, match_next 0x2aa0 None);
  (1818, match_next 0x2a9d None); (1819, match_next 0x2a9f None); (1820, match_next 0x2246 None);
  (1821, match_next 0x2a24 None); (1822, match_next 0x2972 None); (1823, match_next 0x2190 None);
  (1824, match_next 0x2216 None); (1825, match_next 0x2a33 None); (1826, match_next 0x29e4 None);
  (1827, match_next 0x2223 None); (1828, match_next 0x2323 None); (1829, match_next 0x2aaa None);
  (1830, match_next 0x2aac None); (1831, match_next 0x2aac (Some 0xfe00)); (1832, match_next 0x044c None);
  (1833, match_next 0x2f None); (1834, match_next 0x29c4 None); (1835, match_next 0x233f None);
  (1836, match_next 0x0001d564 None); (1837, match_next 0x2660 None); (1838, match_next 0x2660 None);
  (1839, match_next 0x2225 None); (1840, match_next 0x2293 None); (1841, match_next 0x2293 (Some 0xfe00));
  (1842, match_next 0x2294 None); (1843, match_next 0x2294 (Some 0xfe00)); (1844, match_next 0x228f None);
  (1845, match_next 0x2291 None); (1846, match_next 0x228f None); (1847, match_next 0x2291 None);
  (1848, match_next 0x2290 None); (1849, match_next 0x2292 None); (1850, match_next 0x2290 None);
  (1851, match_next 0x2292 None)].

Definition trans_cases_50 : list (Z * action) := [
  (1852, match_next 0x25a1 None); (1853, match_next 0x25a1 None); (1854, match_next 0x25aa None);
  (1855, match_next 0x25aa None); (1856, match_next 0x2192 None); (1857, match_next 0x0001d4c8 None);
  (1858, match_next 0x2216 None); (1859, match_next 0x2323 None); (1860, match_next 0x22c6 None);
  (1861, match_next 0x2606 None); (1862, match_next 0x2605 None); (1863, match_next 0x03f5 None);
  (1864, match_next 0x03d5 None); (1865, match_next 0xaf None); (1866, match_next 0x2282 None);
  (1867, match_next 0x2ac5 None); (1868, match_next 0x2abd None); (1869, match_next 0x2286 None);
  (1870, match_next 0x2ac3 None); (1871, match_next 0x2ac1 None); (1872, match_next 0x2acb None);
  (1873, match_next 0x228a None); (1874, match_next 0x2abf None); (1875, match_next 0x2979 None);
  (1876, match_next 0x2282 None); (1877, match_next 0x2286 None); (1878, match_next 0x2ac5 None);
  (1879, match_next 0x228a None); (1880, match_next 0x2acb None); (1881, match_next 0x2ac7 None);
  (1882, match_next 0x2ad5 None); (1883, match_next 0x2ad3 None); (1884, match_next 0x227b None);
  (1885, match_next 0x2ab8 None); (1886, match_next 0x227d None); (1887, match_next 0x2ab0 None);
  (1888, match_next 0x2aba None)].

Definition trans_cases_51 : list (Z * action) := [
  (1889, match_next 0x2ab6 None); (1890, match_next 0x22e9 None); (1891, match_next 0x227f None);
  (1892, match_next 0x2211 None); (1893, match_next 0x266a None); (1894, match_next 0xb9 None);
  (1895, match_next 0xb2 None); (1896, match_next 0xb3 None); (1897, match_next 0x2283 None);
  (1898, match_next 0x2ac6 None); (1899, match_next 0x2abe None); (1900, match_next 0x2ad8 None);
  (1901, match_next 0x2287 None); (1902, match_next 0x2ac4 None); (1903, match_next 0x27c9 None);
  (1904, match_next 0x2ad7 None); (1905, match_next 0x297b None); (1906, match_next 0x2ac2 None);
  (1907, match_next 0x2acc None); (1908, match_next 0x228b None); (1909, match_next 0x2ac0 None);
  (1910, match_next 0x2283 None); (1911, match_next 0x2287 None); (1912, match_next 0x2ac6 None);
  (1913, match_next 0x228b None); (1914, match_next 0x2acc None); (1915, match_next 0x2ac8 None);
  (1916, match_next 0x2ad4 None); (1917, match_next 0x2ad6 None); (1918, match_next 0x21d9 None);
  (1919, match_next 0x2926 None); (1920, match_next 0x2199 None); (1921, match_next 0x2199 None);
  (1922, match_next 0x292a None); (1923, match_next 0xdf None); (1924, match_next 0x2316 None);
  (1925, match_next 0x03c4 None)].

Definition trans_cases_52 : list (Z * action) := [
  (1926, match_next 0x23b4 None); (1927, match_next 0x0165 None); (1928, match_next 0x0163 None);
  (1929, match_next 0x0442 None); (1930, match_next 0x20db None); (1931, match_next 0x2315 None);
  (1932, match_next 0x0001d531 None); (1933, match_next 0x2234 None); (1934, match_next 0x2234 None);
  (1935, match_next 0x03b8 None); (1936, match_next 0x03d1 None); (1937, match_next 0x03d1 None);
  (1938, match_next 0x2248 None); (1939, match_next 0x223c None); (1940, match_next 0x2009 None);
  (1941, match_next 0x2248 None); (1942, match_next 0x223c None); (1943, match_next 0xfe None);
  (1944, match_next 0x02dc None); (1945, match_next 0xd7 None); (1946, match_next 0x22a0 None);
  (1947, match_next 0x2a31 None); (1948, match_next 0x2a30 None); (1949, match_next 0x222d None);
  (1950, match_next 0x2928 None); (1951, match_next 0x22a4 None); (1952, match_next 0x2336 None);
  (1953, match_next 0x2af1 None); (1954, match_next 0x0001d565 None); (1955, match_next 0x2ada None);
  (1956, match_next 0x2929 None); (1957, match_next 0x2034 None); (1958, match_next 0x2122 None);
  (1959, match_next 0x25b5 None); (1960, match_next 0x25bf None); (1961, match_next 0x25c3 None);
  (1962, match_next 0x22b4 None)].

Definition trans_cases_53 : list (Z * action) := [
  (1963, match_next 0x225c None); (1964, match_next 0x25b9 None); (1965, match_next 0x22b5 None);
  (1966, match_next 0x25ec None); (1967, match_next 0x225c None); (1968, match_next 0x2a3a None);
  (1969, match_next 0x2a39 None); (1970, match_next 0x29cd None); (1971, match_next 0x2a3b None);
  (1972, match_next 0x23e2 None); (1973, match_next 0x0001d4c9 None); (1974, match_next 0x0446 None);
  (1975, match_next 0x045b None); (1976, match_next 0x0167 None); (1977, match_next 0x226c None);
  (1978, match_next 0x219e None); (1979, match_next 0x21a0 None); (1980, match_next 0x21d1 None);
  (1981, match_next 0x2963 None); (1982, match_next 0xfa None); (1983, match_next 0x2191 None);
  (1984, match_next 0x045e None); (1985, match_next 0x016d None); (1986, match_next 0xfb None);
  (1987, match_next 0x0443 None); (1988, match_next 0x21c5 None); (1989, match_next 0x0171 None);
  (1990, match_next 0x296e None); (1991, match_next 0x297e None); (1992, match_next 0x0001d532 None);
  (1993, match_next 0xf9 None); (1994, match_next 0x21bf None); (1995, match_next 0x21be None);
  (1996, match_next 0x2580 None); (1997, match_next 0x231c None); (1998, match_next 0x231c None);
  (1999, match_next 0x230f None)].

Definition trans_cases_54 : list (Z * action) := [
  (2000, match_next 0x25f8 None); (2001, match_next 0x016b None); (2002, match_next 0xa8 None);
  (2003, match_next 0x0173 None); (2004, match_next 0x0001d566 None); (2005, match_next 0x2191 None);
  (2006, match_next 0x2195 None); (2007, match_next 0x21bf None); (2008, match_next 0x21be None);
  (2009, match_next 0x228e None); (2010, match_next 0x03c5 None); (2011, match_next 0x03d2 None);
  (2012, match_next 0x03c5 None); (2013, match_next 0x21c8 None); (2014, match_next 0x231d None);
  (2015, match_next 0x231d None); (2016, match_next 0x230e None); (2017, match_next 0x016f None);
  (2018, match_next 0x25f9 None); (2019, match_next 0x0001d4ca None); (2020, match_next 0x22f0 None);
  (2021, match_next 0x0169 None); (2022, match_next 0x25b5 None); (2023, match_next 0x25b4 None);
  (2024, match_next 0x21c8 None); (2025, match_next 0xfc None); (2026, match_next 0x29a7 None);
  (2027, match_next 0x21d5 None); (2028, match_next 0x2ae8 None); (2029, match_next 0x2ae9 None);
  (2030, match_next 0x22a8 None); (2031, match_next 0x299c None); (2032, match_next 0x03f5 None);
  (2033, match_next 0x03f0 None); (2034, match_next 0x2205 None); (2035, match_next 0x03d5 None);
  (2036, match_next 0x03d6 None)].

Definition trans_cases_55 : list (Z * action) := [
  (2037, match_next 0x221d None); (2038, match_next 0x2195 None); (2039, match_next 0x03f1 None);
  (2040, match_next 0x03c2 None); (2041, match_next 0x228a (Some 0xfe00));
  (2042, match_next 0x2acb (Some 0xfe00)); (2043, match_next 0x228b (Some 0xfe00));
  (2044, match_next 0x2acc (Some 0xfe00)); (2045, match_next 0x03d1 None); (2046, match_next 0x22b2 None);
  (2047, match_next 0x22b3 None); (2048, match_next 0x0432 None); (2049, match_next 0x22a2 None);
  (2050, match_next 0x2228 None); (2051, match_next 0x22bb None); (2052, match_next 0x225a None);
  (2053, match_next 0x22ee None); (2054, match_next 0x7c None); (2055, match_next 0x7c None);
  (2056, match_next 0x0001d533 None); (2057, match_next 0x22b2 None);
  (2058, match_next 0x2282 (Some 0x20d2)); (2059, match_next 0x2283 (Some 0x20d2));
  (2060, match_next 0x0001d567 None); (2061, match_next 0x221d None); (2062, match_next 0x22b3 None);
  (2063, match_next 0x0001d4cb None); (2064, match_next 0x2acb (Some 0xfe00));
  (2065, match_next 0x228a (Some 0xfe00)); (2066, match_next 0x2acc (Some 0xfe00));
  (2067, match_next 0x228b (Some 0xfe00)); (2068, match_next 0x299a None); (2069, match_next 0x0175 None);
  (2070, match_next 0x2a5f None); (2071, match_next 0x2227 None); (2072, match_next 0x2259 None);
  (2073, match_next 0x2118 None)].

Definition trans_cases_56 : list (Z * action) := [
  (2074, match_next 0x0001d534 None); (2075, match_next 0x0001d568 None); (2076, match_next 0x2118 None);
  (2077, match_next 0x2240 None); (2078, match_next 0x2240 None); (2079, match_next 0x0001d4cc None);
  (2080, match_next 0x22c2 None); (2081, match_next 0x25ef None); (2082, match_next 0x22c3 None);
  (2083, match_next 0x25bd None); (2084, match_next 0x0001d535 None); (2085, match_next 0x27fa None);
  (2086, match_next 0x27f7 None); (2087, match_next 0x03be None); (2088, match_next 0x27f8 None);
  (2089, match_next 0x27f5 None); (2090, match_next 0x27fc None); (2091, match_next 0x22fb None);
  (2092, match_next 0x2a00 None); (2093, match_next 0x0001d569 None); (2094, match_next 0x2a01 None);
  (2095, match_next 0x2a02 None); (2096, match_next 0x27f9 None); (2097, match_next 0x27f6 None);
  (2098, match_next 0x0001d4cd None); (2099, match_next 0x2a06 None); (2100, match_next 0x2a04 None);
  (2101, match_next 0x25b3 None); (2102, match_next 0x22c1 None); (2103, match_next 0x22c0 None);
  (2104, match_next 0xfd None); (2105, match_next 0x044f None); (2106, match_next 0x0177 None);
  (2107, match_next 0x044b None); (2108, match_next 0xa5 None); (2109, match_next 0x0001d536 None);
  (2110, match_next 0x0457 None)].

Definition trans_cases_57 : list (Z * action) := [
  (2111, match_next 0x0001d56a None); (2112, match_next 0x0001d4ce None); (2113, match_next 0x044e None);
  (2114, match_next 0xff None); (2115, match_next 0x017a None); (2116, match_next 0x017e None);
  (2117, match_next 0x0437 None); (2118, match_next 0x017c None); (2119, match_next 0x2128 None);
  (2120, match_next 0x03b6 None); (2121, match_next 0x0001d537 None); (2122, match_next 0x0436 None);
  (2123, match_next 0x21dd None); (2124, match_next 0x0001d56b None); (2125, match_next 0x0001d4cf None);
  (2126, match_next 0x200d None); (2127, match_next 0x200c None); (2128, match_here 0xc6 None);
  (2129, match_here 0x26 None); (2130, match_here 0xc1 None); (2131, match_here 0xc2 None);
  (2132, match_here 0xc0 None); (2133, match_here 0xc5 None); (2134, match_here 0xc3 None);
  (2135, match_here 0xc4 None); (2136, match_here 0xa9 None); (2137, match_here 0xc7 None);
  (2138, match_here 0xd0 None); (2139, match_here 0xc9 None); (2140, match_here 0xca None);
  (2141, match_here 0xc8 None); (2142, match_here 0xcb None); (2143, match_here 0x3e None);
  (2144, match_here 0xcd None); (2145, match_here 0xce None); (2146, match_here 0xcc None);
  (2147, match_here 0xcf None)].

Definition trans_cases_58 : list (Z * action) := [
  (2148, match_here 0x3c None); (2149, match_here 0xd1 None); (2150, match_here 0xd3 None);
  (2151, match_here 0xd4 None); (2152, match_here 0xd2 None); (2153, match_here 0xd8 None);
  (2154, match_here 0xd5 None); (2155, match_here 0xd6 None); (2156, match_here 0x22 None);
  (2157, match_here 0xae None); (2158, match_here 0xde None); (2159, match_here 0xda None);
  (2160, match_here 0xdb None); (2161, match_here 0xd9 None); (2162, match_here 0xdc None);
  (2163, match_here 0xdd None); (2164, match_here 0xe1 None); (2165, match_here 0xe2 None);
  (2166, match_here 0xb4 None); (2167, match_here 0xe6 None); (2168, match_here 0xe0 None);
  (2169, match_here 0x26 None); (2170, match_here 0xe5 None); (2171, match_here 0xe3 None);
  (2172, match_here 0xe4 None); (2173, match_here 0xa6 None); (2174, match_here 0xe7 None);
  (2175, match_here 0xb8 None); (2176, match_here 0xa2 None); (2177, match_here 0xa9 None);
  (2178, match_here 0xa4 None); (2179, match_here 0xb0 None); (2180, match_here 0xf7 None);
  (2181, match_here 0xe9 None); (2182, match_here 0xea None); (2183, match_here 0xe8 None);
  (2184, match_here 0xf0 None)].

Definition trans_cases_59 : list (Z * action) := [
  (2185, match_here 0xeb None); (2186, match_here 0xbd None); (2187, match_here 0xbc None);
  (2188, match_here 0xbe None); (2189, match_here 0x3e None); (2190, match_here 0xed None);
  (2191, match_here 0xee None); (2192, match_here 0xa1 None); (2193, match_here 0xec None);
  (2194, match_here 0xbf None); (2195, match_here 0xef None); (2196, match_here 0xab None);
  (2197, match_here 0x3c None); (2198, match_here 0xaf None); (2199, match_here 0xb5 None);
  (2200, match_here 0xb7 None); (2201, match_here 0xa0 None); (2202, match_here 0xac None);
  (2203, match_here 0xf1 None); (2204, match_here 0xf3 None); (2205, match_here 0xf4 None);
  (2206, match_here 0xf2 None); (2207, match_here 0xaa None); (2208, match_here 0xba None);
  (2209, match_here 0xf8 None); (2210, match_here 0xf5 None); (2211, match_here 0xf6 None);
  (2212, match_here 0xb6 None); (2213, match_here 0xb1 None); (2214, match_here 0xa3 None);
  (2215, match_here 0x22 None); (2216, match_here 0xbb None); (2217, match_here 0xae None);
  (2218, match_here 0xa7 None); (2219, match_here 0xad None); (2220, match_here 0xb9 None);
  (2221, match_here 0xb2 None)].

Definition trans_cases_60 : list (Z * action) := [
  (2222, match_here 0xb3 None); (2223, match_here 0xdf None); (2224, match_here 0xfe None);
  (2225, match_here 0xd7 None); (2226, match_here 0xfa None); (2227, match_here 0xfb None);
  (2228, match_here 0xf9 None); (2229, match_here 0xa8 None); (2230, match_here 0xfc None);
  (2231, match_here 0xfd None); (2232, match_here 0xa5 None); (2233, match_here 0xff None);
  (2234, match_back 0xa2 None); (2235, match_back 0xa9 None); (2236, match_back 0xf7 None);
  (2237, match_back 0x3e None); (2238, match_back 0x3c None); (2239, match_back 0xac None);
  (2240, match_back 0xb6 None); (2241, match_back 0xd7 None)].

Definition trans_cases : list (Z * action) :=
  trans_cases_0 ++ trans_cases_1 ++ trans_cases_2 ++ trans_cases_3 ++ trans_cases_4 ++ trans_cases_5 ++
  trans_cases_6 ++ trans_cases_7 ++ trans_cases_8 ++ trans_cases_9 ++ trans_cases_10 ++ trans_cases_11 ++
  trans_cases_12 ++ trans_cases_13 ++ trans_cases_14 ++ trans_cases_15 ++ trans_cases_16 ++ trans_cases_17 ++
  trans_cases_18 ++ trans_cases_19 ++ trans_cases_20 ++ trans_cases_21 ++ trans_cases_22 ++ trans_cases_23 ++
  trans_cases_24 ++ trans_cases_25 ++ trans_cases_26 ++ trans_cases_27 ++ trans_cases_28 ++ trans_cases_29 ++
  trans_cases_30 ++ trans_cases_31 ++ trans_cases_32 ++ trans_cases_33 ++ trans_cases_34 ++ trans_cases_35 ++
  trans_cases_36 ++ trans_cases_37 ++ trans_cases_38 ++ trans_cases_39 ++ trans_cases_40 ++ trans_cases_41 ++
  trans_cases_42 ++ trans_cases_43 ++ trans_cases_44 ++ trans_cases_45 ++ trans_cases_46 ++ trans_cases_47 ++
  trans_cases_48 ++ trans_cases_49 ++ trans_cases_50 ++ trans_cases_51 ++ trans_cases_52 ++ trans_cases_53 ++
  trans_cases_54 ++ trans_cases_55 ++ trans_cases_56 ++ trans_cases_57 ++ trans_cases_58 ++ trans_cases_59 ++
  trans_cases_60.

End CharRefActions.
