(* ===== verification/CharRefGrammar.v ===== *)
(** gumbo-parser/src/char_ref.rl: the named character references of the grammar
    from which char_ref.c is generated, each with the code points it stands for. *)
From Stdlib Require Import String.
From S2P Require Import Prelude GumboTags CharRef.
Import CharRef.

Module CharRefGrammar.

(** 'name' => { output->first = a; fbreak; };
    'name' => { output->first = a; output->second = b; fbreak; }; *)
Definition one (name : string) (a : Z) : string * OneOrTwoCodepoints := (name, Codepoints a kGumboNoChar).
Definition two (name : string) (a b : Z) : string * OneOrTwoCodepoints := (name, Codepoints a b).

Open Scope string_scope.

Definition valid_named_ref_0 : list (string * OneOrTwoCodepoints) := [
  one "AElig;" 0xc6; one "AElig" 0xc6; one "AMP;" 0x26; one "AMP" 0x26; one "Aacute;" 0xc1;
  one "Aacute" 0xc1; one "Abreve;" 0x0102; one "Acirc;" 0xc2; one "Acirc" 0xc2; one "Acy;" 0x0410;
  one "Afr;" 0x0001d504; one "Agrave;" 0xc0; one "Agrave" 0xc0; one "Alpha;" 0x0391; one "Amacr;" 0x0100;
  one "And;" 0x2a53; one "Aogon;" 0x0104; one "Aopf;" 0x0001d538; one "ApplyFunction;" 0x2061;
  one "Aring;" 0xc5; one "Aring" 0xc5; one "Ascr;" 0x0001d49c; one "Assign;" 0x2254; one "Atilde;" 0xc3;
  one "Atilde" 0xc3; one "Auml;" 0xc4; one "Auml" 0xc4; one "Backslash;" 0x2216; one "Barv;" 0x2ae7;
  one "Barwed;" 0x2306; one "Bcy;" 0x0411; one "Because;" 0x2235; one "Bernoullis;" 0x212c;
  one "Beta;" 0x0392; one "Bfr;" 0x0001d505; one "Bopf;" 0x0001d539; one "Breve;" 0x02d8; one "Bscr;" 0x212c;
  one "Bumpeq;" 0x224e; one "CHcy;" 0x0427; one "COPY;" 0xa9; one "COPY" 0xa9; one "Cacute;" 0x0106;
  one "Cap;" 0x22d2; one "CapitalDifferentialD;" 0x2145; one "Cayleys;" 0x212d; one "Ccaron;" 0x010c;
  one "Ccedil;" 0xc7; one "Ccedil" 0xc7; one "Ccirc;" 0x0108; one "Cconint;" 0x2230; one "Cdot;" 0x010a;
  one "Cedilla;" 0xb8; one "CenterDot;" 0xb7; one "Cfr;" 0x212d; one "Chi;" 0x03a7; one "CircleDot;" 0x2299;
  one "CircleMinus;" 0x2296; one "CirclePlus;" 0x2295; one "CircleTimes;" 0x2297;
  one "ClockwiseContourIntegral;" 0x2232; one "CloseCurlyDoubleQuote;" 0x201d; one "CloseCurlyQuote;" 0x2019;
  one "Colon;" 0x2237; one "Colone;" 0x2a74; one "Congruent;" 0x2261; one "Conint;" 0x222f;
  one "ContourIntegral;" 0x222e; one "Copf;" 0x2102; one "Coproduct;" 0x2210;
  one "CounterClockwiseContourIntegral;" 0x2233; one "Cross;" 0x2a2f; one "Cscr;" 0x0001d49e;
  one "Cup;" 0x22d3; one "CupCap;" 0x224d; one "DD;" 0x2145; one "DDotrahd;" 0x2911; one "DJcy;" 0x0402;
  one "DScy;" 0x0405; one "DZcy;" 0x040f; one "Dagger;" 0x2021; one "Darr;" 0x21a1; one "Dashv;" 0x2ae4;
  one "Dcaron;" 0x010e; one "Dcy;" 0x0414; one "Del;" 0x2207; one "Delta;" 0x0394; one "Dfr;" 0x0001d507;
  one "DiacriticalAcute;" 0xb4; one "DiacriticalDot;" 0x02d9; one "DiacriticalDoubleAcute;" 0x02dd;
  one "DiacriticalGrave;" 0x60; one "DiacriticalTilde;" 0x02dc; one "Diamond;" 0x22c4;
  one "DifferentialD;" 0x2146; one "Dopf;" 0x0001d53b; one "Dot;" 0xa8; one "DotDot;" 0x20dc;
  one "DotEqual;" 0x2250; one "DoubleContourIntegral;" 0x222f; one "DoubleDot;" 0xa8;
  one "DoubleDownArrow;" 0x21d3; one "DoubleLeftArrow;" 0x21d0; one "DoubleLeftRightArrow;" 0x21d4;
  one "DoubleLeftTee;" 0x2ae4; one "DoubleLongLeftArrow;" 0x27f8; one "DoubleLongLeftRightArrow;" 0x27fa;
  one "DoubleLongRightArrow;" 0x27f9; one "DoubleRightArrow;" 0x21d2; one "DoubleRightTee;" 0x22a8;
  one "DoubleUpArrow;" 0x21d1; one "DoubleUpDownArrow;" 0x21d5; one "DoubleVerticalBar;" 0x2225;
  one "DownArrow;" 0x2193; one "DownArrowBar;" 0x2913; one "DownArrowUpArrow;" 0x21f5;
  one "DownBreve;" 0x0311; one "DownLeftRightVector;" 0x2950; one "DownLeftTeeVector;" 0x295e;
  one "DownLeftVector;" 0x21bd; one "DownLeftVectorBar;" 0x2956; one "DownRightTeeVector;" 0x295f;
  one "DownRightVector;" 0x21c1; one "DownRightVectorBar;" 0x2957; one "DownTee;" 0x22a4;
  one "DownTeeArrow;" 0x21a7; one "Downarrow;" 0x21d3; one "Dscr;" 0x0001d49f; one "Dstrok;" 0x0110;
  one "ENG;" 0x014a; one "ETH;" 0xd0; one "ETH" 0xd0; one "Eacute;" 0xc9; one "Eacute" 0xc9;
  one "Ecaron;" 0x011a; one "Ecirc;" 0xca; one "Ecirc" 0xca; one "Ecy;" 0x042d; one "Edot;" 0x0116;
  one "Efr;" 0x0001d508; one "Egrave;" 0xc8; one "Egrave" 0xc8; one "Element;" 0x2208; one "Emacr;" 0x0112;
  one "EmptySmallSquare;" 0x25fb; one "EmptyVerySmallSquare;" 0x25ab; one "Eogon;" 0x0118;
  one "Eopf;" 0x0001d53c; one "Epsilon;" 0x0395; one "Equal;" 0x2a75].

Definition valid_named_ref_1 : list (string * OneOrTwoCodepoints) := [
  one "EqualTilde;" 0x2242; one "Equilibrium;" 0x21cc; one "Escr;" 0x2130; one "Esim;" 0x2a73;
  one "Eta;" 0x0397; one "Euml;" 0xcb; one "Euml" 0xcb; one "Exists;" 0x2203; one "ExponentialE;" 0x2147;
  one "Fcy;" 0x0424; one "Ffr;" 0x0001d509; one "FilledSmallSquare;" 0x25fc;
  one "FilledVerySmallSquare;" 0x25aa; one "Fopf;" 0x0001d53d; one "ForAll;" 0x2200;
  one "Fouriertrf;" 0x2131; one "Fscr;" 0x2131; one "GJcy;" 0x0403; one "GT;" 0x3e; one "GT" 0x3e;
  one "Gamma;" 0x0393; one "Gammad;" 0x03dc; one "Gbreve;" 0x011e; one "Gcedil;" 0x0122; one "Gcirc;" 0x011c;
  one "Gcy;" 0x0413; one "Gdot;" 0x0120; one "Gfr;" 0x0001d50a; one "Gg;" 0x22d9; one "Gopf;" 0x0001d53e;
  one "GreaterEqual;" 0x2265; one "GreaterEqualLess;" 0x22db; one "GreaterFullEqual;" 0x2267;
  one "GreaterGreater;" 0x2aa2; one "GreaterLess;" 0x2277; one "GreaterSlantEqual;" 0x2a7e;
  one "GreaterTilde;" 0x2273; one "Gscr;" 0x0001d4a2; one "Gt;" 0x226b; one "HARDcy;" 0x042a;
  one "Hacek;" 0x02c7; one "Hat;" 0x5e; one "Hcirc;" 0x0124; one "Hfr;" 0x210c; one "HilbertSpace;" 0x210b;
  one "Hopf;" 0x210d; one "HorizontalLine;" 0x2500; one "Hscr;" 0x210b; one "Hstrok;" 0x0126;
  one "HumpDownHump;" 0x224e; one "HumpEqual;" 0x224f; one "IEcy;" 0x0415; one "IJlig;" 0x0132;
  one "IOcy;" 0x0401; one "Iacute;" 0xcd; one "Iacute" 0xcd; one "Icirc;" 0xce; one "Icirc" 0xce;
  one "Icy;" 0x0418; one "Idot;" 0x0130; one "Ifr;" 0x2111; one "Igrave;" 0xcc; one "Igrave" 0xcc;
  one "Im;" 0x2111; one "Imacr;" 0x012a; one "ImaginaryI;" 0x2148; one "Implies;" 0x21d2; one "Int;" 0x222c;
  one "Integral;" 0x222b; one "Intersection;" 0x22c2; one "InvisibleComma;" 0x2063;
  one "InvisibleTimes;" 0x2062; one "Iogon;" 0x012e; one "Iopf;" 0x0001d540; one "Iota;" 0x0399;
  one "Iscr;" 0x2110; one "Itilde;" 0x0128; one "Iukcy;" 0x0406; one "Iuml;" 0xcf; one "Iuml" 0xcf;
  one "Jcirc;" 0x0134; one "Jcy;" 0x0419; one "Jfr;" 0x0001d50d; one "Jopf;" 0x0001d541;
  one "Jscr;" 0x0001d4a5; one "Jsercy;" 0x0408; one "Jukcy;" 0x0404; one "KHcy;" 0x0425; one "KJcy;" 0x040c;
  one "Kappa;" 0x039a; one "Kcedil;" 0x0136; one "Kcy;" 0x041a; one "Kfr;" 0x0001d50e;
  one "Kopf;" 0x0001d542; one "Kscr;" 0x0001d4a6; one "LJcy;" 0x0409; one "LT;" 0x3c; one "LT" 0x3c;
  one "Lacute;" 0x0139; one "Lambda;" 0x039b; one "Lang;" 0x27ea; one "Laplacetrf;" 0x2112;
  one "Larr;" 0x219e; one "Lcaron;" 0x013d; one "Lcedil;" 0x013b; one "Lcy;" 0x041b;
  one "LeftAngleBracket;" 0x27e8; one "LeftArrow;" 0x2190; one "LeftArrowBar;" 0x21e4;
  one "LeftArrowRightArrow;" 0x21c6; one "LeftCeiling;" 0x2308; one "LeftDoubleBracket;" 0x27e6;
  one "LeftDownTeeVector;" 0x2961; one "LeftDownVector;" 0x21c3; one "LeftDownVectorBar;" 0x2959;
  one "LeftFloor;" 0x230a; one "LeftRightArrow;" 0x2194; one "LeftRightVector;" 0x294e;
  one "LeftTee;" 0x22a3; one "LeftTeeArrow;" 0x21a4; one "LeftTeeVector;" 0x295a; one "LeftTriangle;" 0x22b2;
  one "LeftTriangleBar;" 0x29cf; one "LeftTriangleEqual;" 0x22b4; one "LeftUpDownVector;" 0x2951;
  one "LeftUpTeeVector;" 0x2960; one "LeftUpVector;" 0x21bf; one "LeftUpVectorBar;" 0x2958;
  one "LeftVector;" 0x21bc; one "LeftVectorBar;" 0x2952; one "Leftarrow;" 0x21d0;
  one "Leftrightarrow;" 0x21d4; one "LessEqualGreater;" 0x22da; one "LessFullEqual;" 0x2266;
  one "LessGreater;" 0x2276; one "LessLess;" 0x2aa1; one "LessSlantEqual;" 0x2a7d; one "LessTilde;" 0x2272;
  one "Lfr;" 0x0001d50f; one "Ll;" 0x22d8; one "Lleftarrow;" 0x21da; one "Lmidot;" 0x013f;
  one "LongLeftArrow;" 0x27f5; one "LongLeftRightArrow;" 0x27f7; one "LongRightArrow;" 0x27f6;
  one "Longleftarrow;" 0x27f8; one "Longleftrightarrow;" 0x27fa; one "Longrightarrow;" 0x27f9;
  one "Lopf;" 0x0001d543; one "LowerLeftArrow;" 0x2199].

Definition valid_named_ref_2 : list (string * OneOrTwoCodepoints) := [
  one "LowerRightArrow;" 0x2198; one "Lscr;" 0x2112; one "Lsh;" 0x21b0; one "Lstrok;" 0x0141;
  one "Lt;" 0x226a; one "Map;" 0x2905; one "Mcy;" 0x041c; one "MediumSpace;" 0x205f; one "Mellintrf;" 0x2133;
  one "Mfr;" 0x0001d510; one "MinusPlus;" 0x2213; one "Mopf;" 0x0001d544; one "Mscr;" 0x2133;
  one "Mu;" 0x039c; one "NJcy;" 0x040a; one "Nacute;" 0x0143; one "Ncaron;" 0x0147; one "Ncedil;" 0x0145;
  one "Ncy;" 0x041d; one "NegativeMediumSpace;" 0x200b; one "NegativeThickSpace;" 0x200b;
  one "NegativeThinSpace;" 0x200b; one "NegativeVeryThinSpace;" 0x200b; one "NestedGreaterGreater;" 0x226b;
  one "NestedLessLess;" 0x226a; one "NewLine;" 0x0a; one "Nfr;" 0x0001d511; one "NoBreak;" 0x2060;
  one "NonBreakingSpace;" 0xa0; one "Nopf;" 0x2115; one "Not;" 0x2aec; one "NotCongruent;" 0x2262;
  one "NotCupCap;" 0x226d; one "NotDoubleVerticalBar;" 0x2226; one "NotElement;" 0x2209;
  one "NotEqual;" 0x2260; two "NotEqualTilde;" 0x2242 0x0338; one "NotExists;" 0x2204;
  one "NotGreater;" 0x226f; one "NotGreaterEqual;" 0x2271; two "NotGreaterFullEqual;" 0x2267 0x0338;
  two "NotGreaterGreater;" 0x226b 0x0338; one "NotGreaterLess;" 0x2279;
  two "NotGreaterSlantEqual;" 0x2a7e 0x0338; one "NotGreaterTilde;" 0x2275;
  two "NotHumpDownHump;" 0x224e 0x0338; two "NotHumpEqual;" 0x224f 0x0338; one "NotLeftTriangle;" 0x22ea;
  two "NotLeftTriangleBar;" 0x29cf 0x0338; one "NotLeftTriangleEqual;" 0x22ec; one "NotLess;" 0x226e;
  one "NotLessEqual;" 0x2270; one "NotLessGreater;" 0x2278; two "NotLessLess;" 0x226a 0x0338;
  two "NotLessSlantEqual;" 0x2a7d 0x0338; one "NotLessTilde;" 0x2274;
  two "NotNestedGreaterGreater;" 0x2aa2 0x0338; two "NotNestedLessLess;" 0x2aa1 0x0338;
  one "NotPrecedes;" 0x2280; two "NotPrecedesEqual;" 0x2aaf 0x0338; one "NotPrecedesSlantEqual;" 0x22e0;
  one "NotReverseElement;" 0x220c; one "NotRightTriangle;" 0x22eb; two "NotRightTriangleBar;" 0x29d0 0x0338;
  one "NotRightTriangleEqual;" 0x22ed; two "NotSquareSubset;" 0x228f 0x0338;
  one "NotSquareSubsetEqual;" 0x22e2; two "NotSquareSuperset;" 0x2290 0x0338;
  one "NotSquareSupersetEqual;" 0x22e3; two "NotSubset;" 0x2282 0x20d2; one "NotSubsetEqual;" 0x2288;
  one "NotSucceeds;" 0x2281; two "NotSucceedsEqual;" 0x2ab0 0x0338; one "NotSucceedsSlantEqual;" 0x22e1;
  two "NotSucceedsTilde;" 0x227f 0x0338; two "NotSuperset;" 0x2283 0x20d2; one "NotSupersetEqual;" 0x2289;
  one "NotTilde;" 0x2241; one "NotTildeEqual;" 0x2244; one "NotTildeFullEqual;" 0x2247;
  one "NotTildeTilde;" 0x2249; one "NotVerticalBar;" 0x2224; one "Nscr;" 0x0001d4a9; one "Ntilde;" 0xd1;
  one "Ntilde" 0xd1; one "Nu;" 0x039d; one "OElig;" 0x0152; one "Oacute;" 0xd3; one "Oacute" 0xd3;
  one "Ocirc;" 0xd4; one "Ocirc" 0xd4; one "Ocy;" 0x041e; one "Odblac;" 0x0150; one "Ofr;" 0x0001d512;
  one "Ograve;" 0xd2; one "Ograve" 0xd2; one "Omacr;" 0x014c; one "Omega;" 0x03a9; one "Omicron;" 0x039f;
  one "Oopf;" 0x0001d546; one "OpenCurlyDoubleQuote;" 0x201c; one "OpenCurlyQuote;" 0x2018; one "Or;" 0x2a54;
  one "Oscr;" 0x0001d4aa; one "Oslash;" 0xd8; one "Oslash" 0xd8; one "Otilde;" 0xd5; one "Otilde" 0xd5;
  one "Otimes;" 0x2a37; one "Ouml;" 0xd6; one "Ouml" 0xd6; one "OverBar;" 0x203e; one "OverBrace;" 0x23de;
  one "OverBracket;" 0x23b4; one "OverParenthesis;" 0x23dc; one "PartialD;" 0x2202; one "Pcy;" 0x041f;
  one "Pfr;" 0x0001d513; one "Phi;" 0x03a6; one "Pi;" 0x03a0; one "PlusMinus;" 0xb1;
  one "Poincareplane;" 0x210c; one "Popf;" 0x2119; one "Pr;" 0x2abb; one "Precedes;" 0x227a;
  one "PrecedesEqual;" 0x2aaf; one "PrecedesSlantEqual;" 0x227c; one "PrecedesTilde;" 0x227e;
  one "Prime;" 0x2033; one "Product;" 0x220f; one "Proportion;" 0x2237; one "Proportional;" 0x221d;
  one "Pscr;" 0x0001d4ab; one "Psi;" 0x03a8; one "QUOT;" 0x22; one "QUOT" 0x22; one "Qfr;" 0x0001d514;
  one "Qopf;" 0x211a; one "Qscr;" 0x0001d4ac; one "RBarr;" 0x2910; one "REG;" 0xae; one "REG" 0xae;
  one "Racute;" 0x0154; one "Rang;" 0x27eb; one "Rarr;" 0x21a0; one "Rarrtl;" 0x2916; one "Rcaron;" 0x0158;
  one "Rcedil;" 0x0156; one "Rcy;" 0x0420; one "Re;" 0x211c].

Definition valid_named_ref_3 : list (string * OneOrTwoCodepoints) := [
  one "ReverseElement;" 0x220b; one "ReverseEquilibrium;" 0x21cb; one "ReverseUpEquilibrium;" 0x296f;
  one "Rfr;" 0x211c; one "Rho;" 0x03a1; one "RightAngleBracket;" 0x27e9; one "RightArrow;" 0x2192;
  one "RightArrowBar;" 0x21e5; one "RightArrowLeftArrow;" 0x21c4; one "RightCeiling;" 0x2309;
  one "RightDoubleBracket;" 0x27e7; one "RightDownTeeVector;" 0x295d; one "RightDownVector;" 0x21c2;
  one "RightDownVectorBar;" 0x2955; one "RightFloor;" 0x230b; one "RightTee;" 0x22a2;
  one "RightTeeArrow;" 0x21a6; one "RightTeeVector;" 0x295b; one "RightTriangle;" 0x22b3;
  one "RightTriangleBar;" 0x29d0; one "RightTriangleEqual;" 0x22b5; one "RightUpDownVector;" 0x294f;
  one "RightUpTeeVector;" 0x295c; one "RightUpVector;" 0x21be; one "RightUpVectorBar;" 0x2954;
  one "RightVector;" 0x21c0; one "RightVectorBar;" 0x2953; one "Rightarrow;" 0x21d2; one "Ropf;" 0x211d;
  one "RoundImplies;" 0x2970; one "Rrightarrow;" 0x21db; one "Rscr;" 0x211b; one "Rsh;" 0x21b1;
  one "RuleDelayed;" 0x29f4; one "SHCHcy;" 0x0429; one "SHcy;" 0x0428; one "SOFTcy;" 0x042c;
  one "Sacute;" 0x015a; one "Sc;" 0x2abc; one "Scaron;" 0x0160; one "Scedil;" 0x015e; one "Scirc;" 0x015c;
  one "Scy;" 0x0421; one "Sfr;" 0x0001d516; one "ShortDownArrow;" 0x2193; one "ShortLeftArrow;" 0x2190;
  one "ShortRightArrow;" 0x2192; one "ShortUpArrow;" 0x2191; one "Sigma;" 0x03a3; one "SmallCircle;" 0x2218;
  one "Sopf;" 0x0001d54a; one "Sqrt;" 0x221a; one "Square;" 0x25a1; one "SquareIntersection;" 0x2293;
  one "SquareSubset;" 0x228f; one "SquareSubsetEqual;" 0x2291; one "SquareSuperset;" 0x2290;
  one "SquareSupersetEqual;" 0x2292; one "SquareUnion;" 0x2294; one "Sscr;" 0x0001d4ae; one "Star;" 0x22c6;
  one "Sub;" 0x22d0; one "Subset;" 0x22d0; one "SubsetEqual;" 0x2286; one "Succeeds;" 0x227b;
  one "SucceedsEqual;" 0x2ab0; one "SucceedsSlantEqual;" 0x227d; one "SucceedsTilde;" 0x227f;
  one "SuchThat;" 0x220b; one "Sum;" 0x2211; one "Sup;" 0x22d1; one "Superset;" 0x2283;
  one "SupersetEqual;" 0x2287; one "Supset;" 0x22d1; one "THORN;" 0xde; one "THORN" 0xde;
  one "TRADE;" 0x2122; one "TSHcy;" 0x040b; one "TScy;" 0x0426; one "Tab;" 0x09; one "Tau;" 0x03a4;
  one "Tcaron;" 0x0164; one "Tcedil;" 0x0162; one "Tcy;" 0x0422; one "Tfr;" 0x0001d517;
  one "Therefore;" 0x2234; one "Theta;" 0x0398; two "ThickSpace;" 0x205f 0x200a; one "ThinSpace;" 0x2009;
  one "Tilde;" 0x223c; one "TildeEqual;" 0x2243; one "TildeFullEqual;" 0x2245; one "TildeTilde;" 0x2248;
  one "Topf;" 0x0001d54b; one "TripleDot;" 0x20db; one "Tscr;" 0x0001d4af; one "Tstrok;" 0x0166;
  one "Uacute;" 0xda; one "Uacute" 0xda; one "Uarr;" 0x219f; one "Uarrocir;" 0x2949; one "Ubrcy;" 0x040e;
  one "Ubreve;" 0x016c; one "Ucirc;" 0xdb; one "Ucirc" 0xdb; one "Ucy;" 0x0423; one "Udblac;" 0x0170;
  one "Ufr;" 0x0001d518; one "Ugrave;" 0xd9; one "Ugrave" 0xd9; one "Umacr;" 0x016a; one "UnderBar;" 0x5f;
  one "UnderBrace;" 0x23df; one "UnderBracket;" 0x23b5; one "UnderParenthesis;" 0x23dd; one "Union;" 0x22c3;
  one "UnionPlus;" 0x228e; one "Uogon;" 0x0172; one "Uopf;" 0x0001d54c; one "UpArrow;" 0x2191;
  one "UpArrowBar;" 0x2912; one "UpArrowDownArrow;" 0x21c5; one "UpDownArrow;" 0x2195;
  one "UpEquilibrium;" 0x296e; one "UpTee;" 0x22a5; one "UpTeeArrow;" 0x21a5; one "Uparrow;" 0x21d1;
  one "Updownarrow;" 0x21d5; one "UpperLeftArrow;" 0x2196; one "UpperRightArrow;" 0x2197; one "Upsi;" 0x03d2;
  one "Upsilon;" 0x03a5; one "Uring;" 0x016e; one "Uscr;" 0x0001d4b0; one "Utilde;" 0x0168; one "Uuml;" 0xdc;
  one "Uuml" 0xdc; one "VDash;" 0x22ab; one "Vbar;" 0x2aeb; one "Vcy;" 0x0412; one "Vdash;" 0x22a9;
  one "Vdashl;" 0x2ae6; one "Vee;" 0x22c1; one "Verbar;" 0x2016; one "Vert;" 0x2016;
  one "VerticalBar;" 0x2223; one "VerticalLine;" 0x7c; one "VerticalSeparator;" 0x2758;
  one "VerticalTilde;" 0x2240; one "VeryThinSpace;" 0x200a].

Definition valid_named_ref_4 : list (string * OneOrTwoCodepoints) := [
  one "Vfr;" 0x0001d519; one "Vopf;" 0x0001d54d; one "Vscr;" 0x0001d4b1; one "Vvdash;" 0x22aa;
  one "Wcirc;" 0x0174; one "Wedge;" 0x22c0; one "Wfr;" 0x0001d51a; one "Wopf;" 0x0001d54e;
  one "Wscr;" 0x0001d4b2; one "Xfr;" 0x0001d51b; one "Xi;" 0x039e; one "Xopf;" 0x0001d54f;
  one "Xscr;" 0x0001d4b3; one "YAcy;" 0x042f; one "YIcy;" 0x0407; one "YUcy;" 0x042e; one "Yacute;" 0xdd;
  one "Yacute" 0xdd; one "Ycirc;" 0x0176; one "Ycy;" 0x042b; one "Yfr;" 0x0001d51c; one "Yopf;" 0x0001d550;
  one "Yscr;" 0x0001d4b4; one "Yuml;" 0x0178; one "ZHcy;" 0x0416; one "Zacute;" 0x0179; one "Zcaron;" 0x017d;
  one "Zcy;" 0x0417; one "Zdot;" 0x017b; one "ZeroWidthSpace;" 0x200b; one "Zeta;" 0x0396; one "Zfr;" 0x2128;
  one "Zopf;" 0x2124; one "Zscr;" 0x0001d4b5; one "aacute;" 0xe1; one "aacute" 0xe1; one "abreve;" 0x0103;
  one "ac;" 0x223e; two "acE;" 0x223e 0x0333; one "acd;" 0x223f; one "acirc;" 0xe2; one "acirc" 0xe2;
  one "acute;" 0xb4; one "acute" 0xb4; one "acy;" 0x0430; one "aelig;" 0xe6; one "aelig" 0xe6;
  one "af;" 0x2061; one "afr;" 0x0001d51e; one "agrave;" 0xe0; one "agrave" 0xe0; one "alefsym;" 0x2135;
  one "aleph;" 0x2135; one "alpha;" 0x03b1; one "amacr;" 0x0101; one "amalg;" 0x2a3f; one "amp;" 0x26;
  one "amp" 0x26; one "and;" 0x2227; one "andand;" 0x2a55; one "andd;" 0x2a5c; one "andslope;" 0x2a58;
  one "andv;" 0x2a5a; one "ang;" 0x2220; one "ange;" 0x29a4; one "angle;" 0x2220; one "angmsd;" 0x2221;
  one "angmsdaa;" 0x29a8; one "angmsdab;" 0x29a9; one "angmsdac;" 0x29aa; one "angmsdad;" 0x29ab;
  one "angmsdae;" 0x29ac; one "angmsdaf;" 0x29ad; one "angmsdag;" 0x29ae; one "angmsdah;" 0x29af;
  one "angrt;" 0x221f; one "angrtvb;" 0x22be; one "angrtvbd;" 0x299d; one "angsph;" 0x2222;
  one "angst;" 0xc5; one "angzarr;" 0x237c; one "aogon;" 0x0105; one "aopf;" 0x0001d552; one "ap;" 0x2248;
  one "apE;" 0x2a70; one "apacir;" 0x2a6f; one "ape;" 0x224a; one "apid;" 0x224b; one "apos;" 0x27;
  one "approx;" 0x2248; one "approxeq;" 0x224a; one "aring;" 0xe5; one "aring" 0xe5; one "ascr;" 0x0001d4b6;
  one "ast;" 0x2a; one "asymp;" 0x2248; one "asympeq;" 0x224d; one "atilde;" 0xe3; one "atilde" 0xe3;
  one "auml;" 0xe4; one "auml" 0xe4; one "awconint;" 0x2233; one "awint;" 0x2a11; one "bNot;" 0x2aed;
  one "backcong;" 0x224c; one "backepsilon;" 0x03f6; one "backprime;" 0x2035; one "backsim;" 0x223d;
  one "backsimeq;" 0x22cd; one "barvee;" 0x22bd; one "barwed;" 0x2305; one "barwedge;" 0x2305;
  one "bbrk;" 0x23b5; one "bbrktbrk;" 0x23b6; one "bcong;" 0x224c; one "bcy;" 0x0431; one "bdquo;" 0x201e;
  one "becaus;" 0x2235; one "because;" 0x2235; one "bemptyv;" 0x29b0; one "bepsi;" 0x03f6;
  one "bernou;" 0x212c; one "beta;" 0x03b2; one "beth;" 0x2136; one "between;" 0x226c; one "bfr;" 0x0001d51f;
  one "bigcap;" 0x22c2; one "bigcirc;" 0x25ef; one "bigcup;" 0x22c3; one "bigodot;" 0x2a00;
  one "bigoplus;" 0x2a01; one "bigotimes;" 0x2a02; one "bigsqcup;" 0x2a06; one "bigstar;" 0x2605;
  one "bigtriangledown;" 0x25bd; one "bigtriangleup;" 0x25b3; one "biguplus;" 0x2a04; one "bigvee;" 0x22c1;
  one "bigwedge;" 0x22c0; one "bkarow;" 0x290d; one "blacklozenge;" 0x29eb; one "blacksquare;" 0x25aa;
  one "blacktriangle;" 0x25b4; one "blacktriangledown;" 0x25be; one "blacktriangleleft;" 0x25c2;
  one "blacktriangleright;" 0x25b8; one "blank;" 0x2423; one "blk12;" 0x2592; one "blk14;" 0x2591;
  one "blk34;" 0x2593].

Definition valid_named_ref_5 : list (string * OneOrTwoCodepoints) := [
  one "block;" 0x2588; two "bne;" 0x3d 0x20e5; two "bnequiv;" 0x2261 0x20e5; one "bnot;" 0x2310;
  one "bopf;" 0x0001d553; one "bot;" 0x22a5; one "bottom;" 0x22a5; one "bowtie;" 0x22c8; one "boxDL;" 0x2557;
  one "boxDR;" 0x2554; one "boxDl;" 0x2556; one "boxDr;" 0x2553; one "boxH;" 0x2550; one "boxHD;" 0x2566;
  one "boxHU;" 0x2569; one "boxHd;" 0x2564; one "boxHu;" 0x2567; one "boxUL;" 0x255d; one "boxUR;" 0x255a;
  one "boxUl;" 0x255c; one "boxUr;" 0x2559; one "boxV;" 0x2551; one "boxVH;" 0x256c; one "boxVL;" 0x2563;
  one "boxVR;" 0x2560; one "boxVh;" 0x256b; one "boxVl;" 0x2562; one "boxVr;" 0x255f; one "boxbox;" 0x29c9;
  one "boxdL;" 0x2555; one "boxdR;" 0x2552; one "boxdl;" 0x2510; one "boxdr;" 0x250c; one "boxh;" 0x2500;
  one "boxhD;" 0x2565; one "boxhU;" 0x2568; one "boxhd;" 0x252c; one "boxhu;" 0x2534; one "boxminus;" 0x229f;
  one "boxplus;" 0x229e; one "boxtimes;" 0x22a0; one "boxuL;" 0x255b; one "boxuR;" 0x2558;
  one "boxul;" 0x2518; one "boxur;" 0x2514; one "boxv;" 0x2502; one "boxvH;" 0x256a; one "boxvL;" 0x2561;
  one "boxvR;" 0x255e; one "boxvh;" 0x253c; one "boxvl;" 0x2524; one "boxvr;" 0x251c; one "bprime;" 0x2035;
  one "breve;" 0x02d8; one "brvbar;" 0xa6; one "brvbar" 0xa6; one "bscr;" 0x0001d4b7; one "bsemi;" 0x204f;
  one "bsim;" 0x223d; one "bsime;" 0x22cd; one "bsol;" 0x5c; one "bsolb;" 0x29c5; one "bsolhsub;" 0x27c8;
  one "bull;" 0x2022; one "bullet;" 0x2022; one "bump;" 0x224e; one "bumpE;" 0x2aae; one "bumpe;" 0x224f;
  one "bumpeq;" 0x224f; one "cacute;" 0x0107; one "cap;" 0x2229; one "capand;" 0x2a44;
  one "capbrcup;" 0x2a49; one "capcap;" 0x2a4b; one "capcup;" 0x2a47; one "capdot;" 0x2a40;
  two "caps;" 0x2229 0xfe00; one "caret;" 0x2041; one "caron;" 0x02c7; one "ccaps;" 0x2a4d;
  one "ccaron;" 0x010d; one "ccedil;" 0xe7; one "ccedil" 0xe7; one "ccirc;" 0x0109; one "ccups;" 0x2a4c;
  one "ccupssm;" 0x2a50; one "cdot;" 0x010b; one "cedil;" 0xb8; one "cedil" 0xb8; one "cemptyv;" 0x29b2;
  one "cent;" 0xa2; one "cent" 0xa2; one "centerdot;" 0xb7; one "cfr;" 0x0001d520; one "chcy;" 0x0447;
  one "check;" 0x2713; one "checkmark;" 0x2713; one "chi;" 0x03c7; one "cir;" 0x25cb; one "cirE;" 0x29c3;
  one "circ;" 0x02c6; one "circeq;" 0x2257; one "circlearrowleft;" 0x21ba; one "circlearrowright;" 0x21bb;
  one "circledR;" 0xae; one "circledS;" 0x24c8; one "circledast;" 0x229b; one "circledcirc;" 0x229a;
  one "circleddash;" 0x229d; one "cire;" 0x2257; one "cirfnint;" 0x2a10; one "cirmid;" 0x2aef;
  one "cirscir;" 0x29c2; one "clubs;" 0x2663; one "clubsuit;" 0x2663; one "colon;" 0x3a;
  one "colone;" 0x2254; one "coloneq;" 0x2254; one "comma;" 0x2c; one "commat;" 0x40; one "comp;" 0x2201;
  one "compfn;" 0x2218; one "complement;" 0x2201; one "complexes;" 0x2102; one "cong;" 0x2245;
  one "congdot;" 0x2a6d; one "conint;" 0x222e; one "copf;" 0x0001d554; one "coprod;" 0x2210;
  one "copy;" 0xa9; one "copy" 0xa9; one "copysr;" 0x2117; one "crarr;" 0x21b5; one "cross;" 0x2717;
  one "cscr;" 0x0001d4b8; one "csub;" 0x2acf; one "csube;" 0x2ad1; one "csup;" 0x2ad0; one "csupe;" 0x2ad2;
  one "ctdot;" 0x22ef; one "cudarrl;" 0x2938; one "cudarrr;" 0x2935; one "cuepr;" 0x22de;
  one "cuesc;" 0x22df; one "cularr;" 0x21b6; one "cularrp;" 0x293d; one "cup;" 0x222a;
  one "cupbrcap;" 0x2a48; one "cupcap;" 0x2a46; one "cupcup;" 0x2a4a].

Definition valid_named_ref_6 : list (string * OneOrTwoCodepoints) := [
  one "cupdot;" 0x228d; one "cupor;" 0x2a45; two "cups;" 0x222a 0xfe00; one "curarr;" 0x21b7;
  one "curarrm;" 0x293c; one "curlyeqprec;" 0x22de; one "curlyeqsucc;" 0x22df; one "curlyvee;" 0x22ce;
  one "curlywedge;" 0x22cf; one "curren;" 0xa4; one "curren" 0xa4; one "curvearrowleft;" 0x21b6;
  one "curvearrowright;" 0x21b7; one "cuvee;" 0x22ce; one "cuwed;" 0x22cf; one "cwconint;" 0x2232;
  one "cwint;" 0x2231; one "cylcty;" 0x232d; one "dArr;" 0x21d3; one "dHar;" 0x2965; one "dagger;" 0x2020;
  one "daleth;" 0x2138; one "darr;" 0x2193; one "dash;" 0x2010; one "dashv;" 0x22a3; one "dbkarow;" 0x290f;
  one "dblac;" 0x02dd; one "dcaron;" 0x010f; one "dcy;" 0x0434; one "dd;" 0x2146; one "ddagger;" 0x2021;
  one "ddarr;" 0x21ca; one "ddotseq;" 0x2a77; one "deg;" 0xb0; one "deg" 0xb0; one "delta;" 0x03b4;
  one "demptyv;" 0x29b1; one "dfisht;" 0x297f; one "dfr;" 0x0001d521; one "dharl;" 0x21c3;
  one "dharr;" 0x21c2; one "diam;" 0x22c4; one "diamond;" 0x22c4; one "diamondsuit;" 0x2666;
  one "diams;" 0x2666; one "die;" 0xa8; one "digamma;" 0x03dd; one "disin;" 0x22f2; one "div;" 0xf7;
  one "divide;" 0xf7; one "divide" 0xf7; one "divideontimes;" 0x22c7; one "divonx;" 0x22c7;
  one "djcy;" 0x0452; one "dlcorn;" 0x231e; one "dlcrop;" 0x230d; one "dollar;" 0x24; one "dopf;" 0x0001d555;
  one "dot;" 0x02d9; one "doteq;" 0x2250; one "doteqdot;" 0x2251; one "dotminus;" 0x2238;
  one "dotplus;" 0x2214; one "dotsquare;" 0x22a1; one "doublebarwedge;" 0x2306; one "downarrow;" 0x2193;
  one "downdownarrows;" 0x21ca; one "downharpoonleft;" 0x21c3; one "downharpoonright;" 0x21c2;
  one "drbkarow;" 0x2910; one "drcorn;" 0x231f; one "drcrop;" 0x230c; one "dscr;" 0x0001d4b9;
  one "dscy;" 0x0455; one "dsol;" 0x29f6; one "dstrok;" 0x0111; one "dtdot;" 0x22f1; one "dtri;" 0x25bf;
  one "dtrif;" 0x25be; one "duarr;" 0x21f5; one "duhar;" 0x296f; one "dwangle;" 0x29a6; one "dzcy;" 0x045f;
  one "dzigrarr;" 0x27ff; one "eDDot;" 0x2a77; one "eDot;" 0x2251; one "eacute;" 0xe9; one "eacute" 0xe9;
  one "easter;" 0x2a6e; one "ecaron;" 0x011b; one "ecir;" 0x2256; one "ecirc;" 0xea; one "ecirc" 0xea;
  one "ecolon;" 0x2255; one "ecy;" 0x044d; one "edot;" 0x0117; one "ee;" 0x2147; one "efDot;" 0x2252;
  one "efr;" 0x0001d522; one "eg;" 0x2a9a; one "egrave;" 0xe8; one "egrave" 0xe8; one "egs;" 0x2a96;
  one "egsdot;" 0x2a98; one "el;" 0x2a99; one "elinters;" 0x23e7; one "ell;" 0x2113; one "els;" 0x2a95;
  one "elsdot;" 0x2a97; one "emacr;" 0x0113; one "empty;" 0x2205; one "emptyset;" 0x2205;
  one "emptyv;" 0x2205; one "emsp13;" 0x2004; one "emsp14;" 0x2005; one "emsp;" 0x2003; one "eng;" 0x014b;
  one "ensp;" 0x2002; one "eogon;" 0x0119; one "eopf;" 0x0001d556; one "epar;" 0x22d5; one "eparsl;" 0x29e3;
  one "eplus;" 0x2a71; one "epsi;" 0x03b5; one "epsilon;" 0x03b5; one "epsiv;" 0x03f5; one "eqcirc;" 0x2256;
  one "eqcolon;" 0x2255; one "eqsim;" 0x2242; one "eqslantgtr;" 0x2a96; one "eqslantless;" 0x2a95;
  one "equals;" 0x3d; one "equest;" 0x225f; one "equiv;" 0x2261; one "equivDD;" 0x2a78;
  one "eqvparsl;" 0x29e5; one "erDot;" 0x2253; one "erarr;" 0x2971; one "escr;" 0x212f; one "esdot;" 0x2250;
  one "esim;" 0x2242; one "eta;" 0x03b7; one "eth;" 0xf0; one "eth" 0xf0; one "euml;" 0xeb; one "euml" 0xeb;
  one "euro;" 0x20ac; one "excl;" 0x21; one "exist;" 0x2203; one "expectation;" 0x2130].

Definition valid_named_ref_7 : list (string * OneOrTwoCodepoints) := [
  one "exponentiale;" 0x2147; one "fallingdotseq;" 0x2252; one "fcy;" 0x0444; one "female;" 0x2640;
  one "ffilig;" 0xfb03; one "fflig;" 0xfb00; one "ffllig;" 0xfb04; one "ffr;" 0x0001d523;
  one "filig;" 0xfb01; two "fjlig;" 0x66 0x6a; one "flat;" 0x266d; one "fllig;" 0xfb02; one "fltns;" 0x25b1;
  one "fnof;" 0x0192; one "fopf;" 0x0001d557; one "forall;" 0x2200; one "fork;" 0x22d4; one "forkv;" 0x2ad9;
  one "fpartint;" 0x2a0d; one "frac12;" 0xbd; one "frac12" 0xbd; one "frac13;" 0x2153; one "frac14;" 0xbc;
  one "frac14" 0xbc; one "frac15;" 0x2155; one "frac16;" 0x2159; one "frac18;" 0x215b; one "frac23;" 0x2154;
  one "frac25;" 0x2156; one "frac34;" 0xbe; one "frac34" 0xbe; one "frac35;" 0x2157; one "frac38;" 0x215c;
  one "frac45;" 0x2158; one "frac56;" 0x215a; one "frac58;" 0x215d; one "frac78;" 0x215e;
  one "frasl;" 0x2044; one "frown;" 0x2322; one "fscr;" 0x0001d4bb; one "gE;" 0x2267; one "gEl;" 0x2a8c;
  one "gacute;" 0x01f5; one "gamma;" 0x03b3; one "gammad;" 0x03dd; one "gap;" 0x2a86; one "gbreve;" 0x011f;
  one "gcirc;" 0x011d; one "gcy;" 0x0433; one "gdot;" 0x0121; one "ge;" 0x2265; one "gel;" 0x22db;
  one "geq;" 0x2265; one "geqq;" 0x2267; one "geqslant;" 0x2a7e; one "ges;" 0x2a7e; one "gescc;" 0x2aa9;
  one "gesdot;" 0x2a80; one "gesdoto;" 0x2a82; one "gesdotol;" 0x2a84; two "gesl;" 0x22db 0xfe00;
  one "gesles;" 0x2a94; one "gfr;" 0x0001d524; one "gg;" 0x226b; one "ggg;" 0x22d9; one "gimel;" 0x2137;
  one "gjcy;" 0x0453; one "gl;" 0x2277; one "glE;" 0x2a92; one "gla;" 0x2aa5; one "glj;" 0x2aa4;
  one "gnE;" 0x2269; one "gnap;" 0x2a8a; one "gnapprox;" 0x2a8a; one "gne;" 0x2a88; one "gneq;" 0x2a88;
  one "gneqq;" 0x2269; one "gnsim;" 0x22e7; one "gopf;" 0x0001d558; one "grave;" 0x60; one "gscr;" 0x210a;
  one "gsim;" 0x2273; one "gsime;" 0x2a8e; one "gsiml;" 0x2a90; one "gt;" 0x3e; one "gt" 0x3e;
  one "gtcc;" 0x2aa7; one "gtcir;" 0x2a7a; one "gtdot;" 0x22d7; one "gtlPar;" 0x2995; one "gtquest;" 0x2a7c;
  one "gtrapprox;" 0x2a86; one "gtrarr;" 0x2978; one "gtrdot;" 0x22d7; one "gtreqless;" 0x22db;
  one "gtreqqless;" 0x2a8c; one "gtrless;" 0x2277; one "gtrsim;" 0x2273; two "gvertneqq;" 0x2269 0xfe00;
  two "gvnE;" 0x2269 0xfe00; one "hArr;" 0x21d4; one "hairsp;" 0x200a; one "half;" 0xbd;
  one "hamilt;" 0x210b; one "hardcy;" 0x044a; one "harr;" 0x2194; one "harrcir;" 0x2948; one "harrw;" 0x21ad;
  one "hbar;" 0x210f; one "hcirc;" 0x0125; one "hearts;" 0x2665; one "heartsuit;" 0x2665;
  one "hellip;" 0x2026; one "hercon;" 0x22b9; one "hfr;" 0x0001d525; one "hksearow;" 0x2925;
  one "hkswarow;" 0x2926; one "hoarr;" 0x21ff; one "homtht;" 0x223b; one "hookleftarrow;" 0x21a9;
  one "hookrightarrow;" 0x21aa; one "hopf;" 0x0001d559; one "horbar;" 0x2015; one "hscr;" 0x0001d4bd;
  one "hslash;" 0x210f; one "hstrok;" 0x0127; one "hybull;" 0x2043; one "hyphen;" 0x2010; one "iacute;" 0xed;
  one "iacute" 0xed; one "ic;" 0x2063; one "icirc;" 0xee; one "icirc" 0xee; one "icy;" 0x0438;
  one "iecy;" 0x0435; one "iexcl;" 0xa1; one "iexcl" 0xa1; one "iff;" 0x21d4; one "ifr;" 0x0001d526;
  one "igrave;" 0xec; one "igrave" 0xec; one "ii;" 0x2148; one "iiiint;" 0x2a0c; one "iiint;" 0x222d;
  one "iinfin;" 0x29dc; one "iiota;" 0x2129; one "ijlig;" 0x0133; one "imacr;" 0x012b; one "image;" 0x2111;
  one "imagline;" 0x2110].

Definition valid_named_ref_8 : list (string * OneOrTwoCodepoints) := [
  one "imagpart;" 0x2111; one "imath;" 0x0131; one "imof;" 0x22b7; one "imped;" 0x01b5; one "in;" 0x2208;
  one "incare;" 0x2105; one "infin;" 0x221e; one "infintie;" 0x29dd; one "inodot;" 0x0131; one "int;" 0x222b;
  one "intcal;" 0x22ba; one "integers;" 0x2124; one "intercal;" 0x22ba; one "intlarhk;" 0x2a17;
  one "intprod;" 0x2a3c; one "iocy;" 0x0451; one "iogon;" 0x012f; one "iopf;" 0x0001d55a; one "iota;" 0x03b9;
  one "iprod;" 0x2a3c; one "iquest;" 0xbf; one "iquest" 0xbf; one "iscr;" 0x0001d4be; one "isin;" 0x2208;
  one "isinE;" 0x22f9; one "isindot;" 0x22f5; one "isins;" 0x22f4; one "isinsv;" 0x22f3; one "isinv;" 0x2208;
  one "it;" 0x2062; one "itilde;" 0x0129; one "iukcy;" 0x0456; one "iuml;" 0xef; one "iuml" 0xef;
  one "jcirc;" 0x0135; one "jcy;" 0x0439; one "jfr;" 0x0001d527; one "jmath;" 0x0237; one "jopf;" 0x0001d55b;
  one "jscr;" 0x0001d4bf; one "jsercy;" 0x0458; one "jukcy;" 0x0454; one "kappa;" 0x03ba;
  one "kappav;" 0x03f0; one "kcedil;" 0x0137; one "kcy;" 0x043a; one "kfr;" 0x0001d528; one "kgreen;" 0x0138;
  one "khcy;" 0x0445; one "kjcy;" 0x045c; one "kopf;" 0x0001d55c; one "kscr;" 0x0001d4c0;
  one "lAarr;" 0x21da; one "lArr;" 0x21d0; one "lAtail;" 0x291b; one "lBarr;" 0x290e; one "lE;" 0x2266;
  one "lEg;" 0x2a8b; one "lHar;" 0x2962; one "lacute;" 0x013a; one "laemptyv;" 0x29b4; one "lagran;" 0x2112;
  one "lambda;" 0x03bb; one "lang;" 0x27e8; one "langd;" 0x2991; one "langle;" 0x27e8; one "lap;" 0x2a85;
  one "laquo;" 0xab; one "laquo" 0xab; one "larr;" 0x2190; one "larrb;" 0x21e4; one "larrbfs;" 0x291f;
  one "larrfs;" 0x291d; one "larrhk;" 0x21a9; one "larrlp;" 0x21ab; one "larrpl;" 0x2939;
  one "larrsim;" 0x2973; one "larrtl;" 0x21a2; one "lat;" 0x2aab; one "latail;" 0x2919; one "late;" 0x2aad;
  two "lates;" 0x2aad 0xfe00; one "lbarr;" 0x290c; one "lbbrk;" 0x2772; one "lbrace;" 0x7b;
  one "lbrack;" 0x5b; one "lbrke;" 0x298b; one "lbrksld;" 0x298f; one "lbrkslu;" 0x298d;
  one "lcaron;" 0x013e; one "lcedil;" 0x013c; one "lceil;" 0x2308; one "lcub;" 0x7b; one "lcy;" 0x043b;
  one "ldca;" 0x2936; one "ldquo;" 0x201c; one "ldquor;" 0x201e; one "ldrdhar;" 0x2967;
  one "ldrushar;" 0x294b; one "ldsh;" 0x21b2; one "le;" 0x2264; one "leftarrow;" 0x2190;
  one "leftarrowtail;" 0x21a2; one "leftharpoondown;" 0x21bd; one "leftharpoonup;" 0x21bc;
  one "leftleftarrows;" 0x21c7; one "leftrightarrow;" 0x2194; one "leftrightarrows;" 0x21c6;
  one "leftrightharpoons;" 0x21cb; one "leftrightsquigarrow;" 0x21ad; one "leftthreetimes;" 0x22cb;
  one "leg;" 0x22da; one "leq;" 0x2264; one "leqq;" 0x2266; one "leqslant;" 0x2a7d; one "les;" 0x2a7d;
  one "lescc;" 0x2aa8; one "lesdot;" 0x2a7f; one "lesdoto;" 0x2a81; one "lesdotor;" 0x2a83;
  two "lesg;" 0x22da 0xfe00; one "lesges;" 0x2a93; one "lessapprox;" 0x2a85; one "lessdot;" 0x22d6;
  one "lesseqgtr;" 0x22da; one "lesseqqgtr;" 0x2a8b; one "lessgtr;" 0x2276; one "lesssim;" 0x2272;
  one "lfisht;" 0x297c; one "lfloor;" 0x230a; one "lfr;" 0x0001d529; one "lg;" 0x2276; one "lgE;" 0x2a91;
  one "lhard;" 0x21bd; one "lharu;" 0x21bc; one "lharul;" 0x296a; one "lhblk;" 0x2584; one "ljcy;" 0x0459;
  one "ll;" 0x226a; one "llarr;" 0x21c7; one "llcorner;" 0x231e; one "llhard;" 0x296b; one "lltri;" 0x25fa;
  one "lmidot;" 0x0140; one "lmoust;" 0x23b0; one "lmoustache;" 0x23b0; one "lnE;" 0x2268;
  one "lnap;" 0x2a89; one "lnapprox;" 0x2a89; one "lne;" 0x2a87].

Definition valid_named_ref_9 : list (string * OneOrTwoCodepoints) := [
  one "lneq;" 0x2a87; one "lneqq;" 0x2268; one "lnsim;" 0x22e6; one "loang;" 0x27ec; one "loarr;" 0x21fd;
  one "lobrk;" 0x27e6; one "longleftarrow;" 0x27f5; one "longleftrightarrow;" 0x27f7;
  one "longmapsto;" 0x27fc; one "longrightarrow;" 0x27f6; one "looparrowleft;" 0x21ab;
  one "looparrowright;" 0x21ac; one "lopar;" 0x2985; one "lopf;" 0x0001d55d; one "loplus;" 0x2a2d;
  one "lotimes;" 0x2a34; one "lowast;" 0x2217; one "lowbar;" 0x5f; one "loz;" 0x25ca; one "lozenge;" 0x25ca;
  one "lozf;" 0x29eb; one "lpar;" 0x28; one "lparlt;" 0x2993; one "lrarr;" 0x21c6; one "lrcorner;" 0x231f;
  one "lrhar;" 0x21cb; one "lrhard;" 0x296d; one "lrm;" 0x200e; one "lrtri;" 0x22bf; one "lsaquo;" 0x2039;
  one "lscr;" 0x0001d4c1; one "lsh;" 0x21b0; one "lsim;" 0x2272; one "lsime;" 0x2a8d; one "lsimg;" 0x2a8f;
  one "lsqb;" 0x5b; one "lsquo;" 0x2018; one "lsquor;" 0x201a; one "lstrok;" 0x0142; one "lt;" 0x3c;
  one "lt" 0x3c; one "ltcc;" 0x2aa6; one "ltcir;" 0x2a79; one "ltdot;" 0x22d6; one "lthree;" 0x22cb;
  one "ltimes;" 0x22c9; one "ltlarr;" 0x2976; one "ltquest;" 0x2a7b; one "ltrPar;" 0x2996;
  one "ltri;" 0x25c3; one "ltrie;" 0x22b4; one "ltrif;" 0x25c2; one "lurdshar;" 0x294a;
  one "luruhar;" 0x2966; two "lvertneqq;" 0x2268 0xfe00; two "lvnE;" 0x2268 0xfe00; one "mDDot;" 0x223a;
  one "macr;" 0xaf; one "macr" 0xaf; one "male;" 0x2642; one "malt;" 0x2720; one "maltese;" 0x2720;
  one "map;" 0x21a6; one "mapsto;" 0x21a6; one "mapstodown;" 0x21a7; one "mapstoleft;" 0x21a4;
  one "mapstoup;" 0x21a5; one "marker;" 0x25ae; one "mcomma;" 0x2a29; one "mcy;" 0x043c; one "mdash;" 0x2014;
  one "measuredangle;" 0x2221; one "mfr;" 0x0001d52a; one "mho;" 0x2127; one "micro;" 0xb5; one "micro" 0xb5;
  one "mid;" 0x2223; one "midast;" 0x2a; one "midcir;" 0x2af0; one "middot;" 0xb7; one "middot" 0xb7;
  one "minus;" 0x2212; one "minusb;" 0x229f; one "minusd;" 0x2238; one "minusdu;" 0x2a2a; one "mlcp;" 0x2adb;
  one "mldr;" 0x2026; one "mnplus;" 0x2213; one "models;" 0x22a7; one "mopf;" 0x0001d55e; one "mp;" 0x2213;
  one "mscr;" 0x0001d4c2; one "mstpos;" 0x223e; one "mu;" 0x03bc; one "multimap;" 0x22b8;
  one "mumap;" 0x22b8; two "nGg;" 0x22d9 0x0338; two "nGt;" 0x226b 0x20d2; two "nGtv;" 0x226b 0x0338;
  one "nLeftarrow;" 0x21cd; one "nLeftrightarrow;" 0x21ce; two "nLl;" 0x22d8 0x0338;
  two "nLt;" 0x226a 0x20d2; two "nLtv;" 0x226a 0x0338; one "nRightarrow;" 0x21cf; one "nVDash;" 0x22af;
  one "nVdash;" 0x22ae; one "nabla;" 0x2207; one "nacute;" 0x0144; two "nang;" 0x2220 0x20d2;
  one "nap;" 0x2249; two "napE;" 0x2a70 0x0338; two "napid;" 0x224b 0x0338; one "napos;" 0x0149;
  one "napprox;" 0x2249; one "natur;" 0x266e; one "natural;" 0x266e; one "naturals;" 0x2115;
  one "nbsp;" 0xa0; one "nbsp" 0xa0; two "nbump;" 0x224e 0x0338; two "nbumpe;" 0x224f 0x0338;
  one "ncap;" 0x2a43; one "ncaron;" 0x0148; one "ncedil;" 0x0146; one "ncong;" 0x2247;
  two "ncongdot;" 0x2a6d 0x0338; one "ncup;" 0x2a42; one "ncy;" 0x043d; one "ndash;" 0x2013;
  one "ne;" 0x2260; one "neArr;" 0x21d7; one "nearhk;" 0x2924; one "nearr;" 0x2197; one "nearrow;" 0x2197;
  two "nedot;" 0x2250 0x0338; one "nequiv;" 0x2262; one "nesear;" 0x2928; two "nesim;" 0x2242 0x0338;
  one "nexist;" 0x2204; one "nexists;" 0x2204; one "nfr;" 0x0001d52b; two "ngE;" 0x2267 0x0338;
  one "nge;" 0x2271; one "ngeq;" 0x2271; two "ngeqq;" 0x2267 0x0338; two "ngeqslant;" 0x2a7e 0x0338;
  two "nges;" 0x2a7e 0x0338; one "ngsim;" 0x2275; one "ngt;" 0x226f].

Definition valid_named_ref_10 : list (string * OneOrTwoCodepoints) := [
  one "ngtr;" 0x226f; one "nhArr;" 0x21ce; one "nharr;" 0x21ae; one "nhpar;" 0x2af2; one "ni;" 0x220b;
  one "nis;" 0x22fc; one "nisd;" 0x22fa; one "niv;" 0x220b; one "njcy;" 0x045a; one "nlArr;" 0x21cd;
  two "nlE;" 0x2266 0x0338; one "nlarr;" 0x219a; one "nldr;" 0x2025; one "nle;" 0x2270;
  one "nleftarrow;" 0x219a; one "nleftrightarrow;" 0x21ae; one "nleq;" 0x2270; two "nleqq;" 0x2266 0x0338;
  two "nleqslant;" 0x2a7d 0x0338; two "nles;" 0x2a7d 0x0338; one "nless;" 0x226e; one "nlsim;" 0x2274;
  one "nlt;" 0x226e; one "nltri;" 0x22ea; one "nltrie;" 0x22ec; one "nmid;" 0x2224; one "nopf;" 0x0001d55f;
  one "not;" 0xac; one "notin;" 0x2209; two "notinE;" 0x22f9 0x0338; two "notindot;" 0x22f5 0x0338;
  one "notinva;" 0x2209; one "notinvb;" 0x22f7; one "notinvc;" 0x22f6; one "notni;" 0x220c;
  one "notniva;" 0x220c; one "notnivb;" 0x22fe; one "notnivc;" 0x22fd; one "not" 0xac; one "npar;" 0x2226;
  one "nparallel;" 0x2226; two "nparsl;" 0x2afd 0x20e5; two "npart;" 0x2202 0x0338; one "npolint;" 0x2a14;
  one "npr;" 0x2280; one "nprcue;" 0x22e0; two "npre;" 0x2aaf 0x0338; one "nprec;" 0x2280;
  two "npreceq;" 0x2aaf 0x0338; one "nrArr;" 0x21cf; one "nrarr;" 0x219b; two "nrarrc;" 0x2933 0x0338;
  two "nrarrw;" 0x219d 0x0338; one "nrightarrow;" 0x219b; one "nrtri;" 0x22eb; one "nrtrie;" 0x22ed;
  one "nsc;" 0x2281; one "nsccue;" 0x22e1; two "nsce;" 0x2ab0 0x0338; one "nscr;" 0x0001d4c3;
  one "nshortmid;" 0x2224; one "nshortparallel;" 0x2226; one "nsim;" 0x2241; one "nsime;" 0x2244;
  one "nsimeq;" 0x2244; one "nsmid;" 0x2224; one "nspar;" 0x2226; one "nsqsube;" 0x22e2;
  one "nsqsupe;" 0x22e3; one "nsub;" 0x2284; two "nsubE;" 0x2ac5 0x0338; one "nsube;" 0x2288;
  two "nsubset;" 0x2282 0x20d2; one "nsubseteq;" 0x2288; two "nsubseteqq;" 0x2ac5 0x0338;
  one "nsucc;" 0x2281; two "nsucceq;" 0x2ab0 0x0338; one "nsup;" 0x2285; two "nsupE;" 0x2ac6 0x0338;
  one "nsupe;" 0x2289; two "nsupset;" 0x2283 0x20d2; one "nsupseteq;" 0x2289;
  two "nsupseteqq;" 0x2ac6 0x0338; one "ntgl;" 0x2279; one "ntilde;" 0xf1; one "ntilde" 0xf1;
  one "ntlg;" 0x2278; one "ntriangleleft;" 0x22ea; one "ntrianglelefteq;" 0x22ec;
  one "ntriangleright;" 0x22eb; one "ntrianglerighteq;" 0x22ed; one "nu;" 0x03bd; one "num;" 0x23;
  one "numero;" 0x2116; one "numsp;" 0x2007; one "nvDash;" 0x22ad; one "nvHarr;" 0x2904;
  two "nvap;" 0x224d 0x20d2; one "nvdash;" 0x22ac; two "nvge;" 0x2265 0x20d2; two "nvgt;" 0x3e 0x20d2;
  one "nvinfin;" 0x29de; one "nvlArr;" 0x2902; two "nvle;" 0x2264 0x20d2; two "nvlt;" 0x3c 0x20d2;
  two "nvltrie;" 0x22b4 0x20d2; one "nvrArr;" 0x2903; two "nvrtrie;" 0x22b5 0x20d2;
  two "nvsim;" 0x223c 0x20d2; one "nwArr;" 0x21d6; one "nwarhk;" 0x2923; one "nwarr;" 0x2196;
  one "nwarrow;" 0x2196; one "nwnear;" 0x2927; one "oS;" 0x24c8; one "oacute;" 0xf3; one "oacute" 0xf3;
  one "oast;" 0x229b; one "ocir;" 0x229a; one "ocirc;" 0xf4; one "ocirc" 0xf4; one "ocy;" 0x043e;
  one "odash;" 0x229d; one "odblac;" 0x0151; one "odiv;" 0x2a38; one "odot;" 0x2299; one "odsold;" 0x29bc;
  one "oelig;" 0x0153; one "ofcir;" 0x29bf; one "ofr;" 0x0001d52c; one "ogon;" 0x02db; one "ograve;" 0xf2;
  one "ograve" 0xf2; one "ogt;" 0x29c1; one "ohbar;" 0x29b5; one "ohm;" 0x03a9; one "oint;" 0x222e;
  one "olarr;" 0x21ba; one "olcir;" 0x29be; one "olcross;" 0x29bb; one "oline;" 0x203e; one "olt;" 0x29c0;
  one "omacr;" 0x014d; one "omega;" 0x03c9; one "omicron;" 0x03bf; one "omid;" 0x29b6; one "ominus;" 0x2296;
  one "oopf;" 0x0001d560; one "opar;" 0x29b7; one "operp;" 0x29b9].

Definition valid_named_ref_11 : list (string * OneOrTwoCodepoints) := [
  one "oplus;" 0x2295; one "or;" 0x2228; one "orarr;" 0x21bb; one "ord;" 0x2a5d; one "order;" 0x2134;
  one "orderof;" 0x2134; one "ordf;" 0xaa; one "ordf" 0xaa; one "ordm;" 0xba; one "ordm" 0xba;
  one "origof;" 0x22b6; one "oror;" 0x2a56; one "orslope;" 0x2a57; one "orv;" 0x2a5b; one "oscr;" 0x2134;
  one "oslash;" 0xf8; one "oslash" 0xf8; one "osol;" 0x2298; one "otilde;" 0xf5; one "otilde" 0xf5;
  one "otimes;" 0x2297; one "otimesas;" 0x2a36; one "ouml;" 0xf6; one "ouml" 0xf6; one "ovbar;" 0x233d;
  one "par;" 0x2225; one "para;" 0xb6; one "para" 0xb6; one "parallel;" 0x2225; one "parsim;" 0x2af3;
  one "parsl;" 0x2afd; one "part;" 0x2202; one "pcy;" 0x043f; one "percnt;" 0x25; one "period;" 0x2e;
  one "permil;" 0x2030; one "perp;" 0x22a5; one "pertenk;" 0x2031; one "pfr;" 0x0001d52d; one "phi;" 0x03c6;
  one "phiv;" 0x03d5; one "phmmat;" 0x2133; one "phone;" 0x260e; one "pi;" 0x03c0; one "pitchfork;" 0x22d4;
  one "piv;" 0x03d6; one "planck;" 0x210f; one "planckh;" 0x210e; one "plankv;" 0x210f; one "plus;" 0x2b;
  one "plusacir;" 0x2a23; one "plusb;" 0x229e; one "pluscir;" 0x2a22; one "plusdo;" 0x2214;
  one "plusdu;" 0x2a25; one "pluse;" 0x2a72; one "plusmn;" 0xb1; one "plusmn" 0xb1; one "plussim;" 0x2a26;
  one "plustwo;" 0x2a27; one "pm;" 0xb1; one "pointint;" 0x2a15; one "popf;" 0x0001d561; one "pound;" 0xa3;
  one "pound" 0xa3; one "pr;" 0x227a; one "prE;" 0x2ab3; one "prap;" 0x2ab7; one "prcue;" 0x227c;
  one "pre;" 0x2aaf; one "prec;" 0x227a; one "precapprox;" 0x2ab7; one "preccurlyeq;" 0x227c;
  one "preceq;" 0x2aaf; one "precnapprox;" 0x2ab9; one "precneqq;" 0x2ab5; one "precnsim;" 0x22e8;
  one "precsim;" 0x227e; one "prime;" 0x2032; one "primes;" 0x2119; one "prnE;" 0x2ab5; one "prnap;" 0x2ab9;
  one "prnsim;" 0x22e8; one "prod;" 0x220f; one "profalar;" 0x232e; one "profline;" 0x2312;
  one "profsurf;" 0x2313; one "prop;" 0x221d; one "propto;" 0x221d; one "prsim;" 0x227e;
  one "prurel;" 0x22b0; one "pscr;" 0x0001d4c5; one "psi;" 0x03c8; one "puncsp;" 0x2008;
  one "qfr;" 0x0001d52e; one "qint;" 0x2a0c; one "qopf;" 0x0001d562; one "qprime;" 0x2057;
  one "qscr;" 0x0001d4c6; one "quaternions;" 0x210d; one "quatint;" 0x2a16; one "quest;" 0x3f;
  one "questeq;" 0x225f; one "quot;" 0x22; one "quot" 0x22; one "rAarr;" 0x21db; one "rArr;" 0x21d2;
  one "rAtail;" 0x291c; one "rBarr;" 0x290f; one "rHar;" 0x2964; two "race;" 0x223d 0x0331;
  one "racute;" 0x0155; one "radic;" 0x221a; one "raemptyv;" 0x29b3; one "rang;" 0x27e9; one "rangd;" 0x2992;
  one "range;" 0x29a5; one "rangle;" 0x27e9; one "raquo;" 0xbb; one "raquo" 0xbb; one "rarr;" 0x2192;
  one "rarrap;" 0x2975; one "rarrb;" 0x21e5; one "rarrbfs;" 0x2920; one "rarrc;" 0x2933;
  one "rarrfs;" 0x291e; one "rarrhk;" 0x21aa; one "rarrlp;" 0x21ac; one "rarrpl;" 0x2945;
  one "rarrsim;" 0x2974; one "rarrtl;" 0x21a3; one "rarrw;" 0x219d; one "ratail;" 0x291a;
  one "ratio;" 0x2236; one "rationals;" 0x211a; one "rbarr;" 0x290d; one "rbbrk;" 0x2773; one "rbrace;" 0x7d;
  one "rbrack;" 0x5d; one "rbrke;" 0x298c; one "rbrksld;" 0x298e; one "rbrkslu;" 0x2990;
  one "rcaron;" 0x0159; one "rcedil;" 0x0157; one "rceil;" 0x2309; one "rcub;" 0x7d; one "rcy;" 0x0440;
  one "rdca;" 0x2937; one "rdldhar;" 0x2969; one "rdquo;" 0x201d].

Definition valid_named_ref_12 : list (string * OneOrTwoCodepoints) := [
  one "rdquor;" 0x201d; one "rdsh;" 0x21b3; one "real;" 0x211c; one "realine;" 0x211b;
  one "realpart;" 0x211c; one "reals;" 0x211d; one "rect;" 0x25ad; one "reg;" 0xae; one "reg" 0xae;
  one "rfisht;" 0x297d; one "rfloor;" 0x230b; one "rfr;" 0x0001d52f; one "rhard;" 0x21c1;
  one "rharu;" 0x21c0; one "rharul;" 0x296c; one "rho;" 0x03c1; one "rhov;" 0x03f1; one "rightarrow;" 0x2192;
  one "rightarrowtail;" 0x21a3; one "rightharpoondown;" 0x21c1; one "rightharpoonup;" 0x21c0;
  one "rightleftarrows;" 0x21c4; one "rightleftharpoons;" 0x21cc; one "rightrightarrows;" 0x21c9;
  one "rightsquigarrow;" 0x219d; one "rightthreetimes;" 0x22cc; one "ring;" 0x02da;
  one "risingdotseq;" 0x2253; one "rlarr;" 0x21c4; one "rlhar;" 0x21cc; one "rlm;" 0x200f;
  one "rmoust;" 0x23b1; one "rmoustache;" 0x23b1; one "rnmid;" 0x2aee; one "roang;" 0x27ed;
  one "roarr;" 0x21fe; one "robrk;" 0x27e7; one "ropar;" 0x2986; one "ropf;" 0x0001d563;
  one "roplus;" 0x2a2e; one "rotimes;" 0x2a35; one "rpar;" 0x29; one "rpargt;" 0x2994;
  one "rppolint;" 0x2a12; one "rrarr;" 0x21c9; one "rsaquo;" 0x203a; one "rscr;" 0x0001d4c7;
  one "rsh;" 0x21b1; one "rsqb;" 0x5d; one "rsquo;" 0x2019; one "rsquor;" 0x2019; one "rthree;" 0x22cc;
  one "rtimes;" 0x22ca; one "rtri;" 0x25b9; one "rtrie;" 0x22b5; one "rtrif;" 0x25b8; one "rtriltri;" 0x29ce;
  one "ruluhar;" 0x2968; one "rx;" 0x211e; one "sacute;" 0x015b; one "sbquo;" 0x201a; one "sc;" 0x227b;
  one "scE;" 0x2ab4; one "scap;" 0x2ab8; one "scaron;" 0x0161; one "sccue;" 0x227d; one "sce;" 0x2ab0;
  one "scedil;" 0x015f; one "scirc;" 0x015d; one "scnE;" 0x2ab6; one "scnap;" 0x2aba; one "scnsim;" 0x22e9;
  one "scpolint;" 0x2a13; one "scsim;" 0x227f; one "scy;" 0x0441; one "sdot;" 0x22c5; one "sdotb;" 0x22a1;
  one "sdote;" 0x2a66; one "seArr;" 0x21d8; one "searhk;" 0x2925; one "searr;" 0x2198; one "searrow;" 0x2198;
  one "sect;" 0xa7; one "sect" 0xa7; one "semi;" 0x3b; one "seswar;" 0x2929; one "setminus;" 0x2216;
  one "setmn;" 0x2216; one "sext;" 0x2736; one "sfr;" 0x0001d530; one "sfrown;" 0x2322; one "sharp;" 0x266f;
  one "shchcy;" 0x0449; one "shcy;" 0x0448; one "shortmid;" 0x2223; one "shortparallel;" 0x2225;
  one "shy;" 0xad; one "shy" 0xad; one "sigma;" 0x03c3; one "sigmaf;" 0x03c2; one "sigmav;" 0x03c2;
  one "sim;" 0x223c; one "simdot;" 0x2a6a; one "sime;" 0x2243; one "simeq;" 0x2243; one "simg;" 0x2a9e;
  one "simgE;" 0x2aa0; one "siml;" 0x2a9d; one "simlE;" 0x2a9f; one "simne;" 0x2246; one "simplus;" 0x2a24;
  one "simrarr;" 0x2972; one "slarr;" 0x2190; one "smallsetminus;" 0x2216; one "smashp;" 0x2a33;
  one "smeparsl;" 0x29e4; one "smid;" 0x2223; one "smile;" 0x2323; one "smt;" 0x2aaa; one "smte;" 0x2aac;
  two "smtes;" 0x2aac 0xfe00; one "softcy;" 0x044c; one "sol;" 0x2f; one "solb;" 0x29c4;
  one "solbar;" 0x233f; one "sopf;" 0x0001d564; one "spades;" 0x2660; one "spadesuit;" 0x2660;
  one "spar;" 0x2225; one "sqcap;" 0x2293; two "sqcaps;" 0x2293 0xfe00; one "sqcup;" 0x2294;
  two "sqcups;" 0x2294 0xfe00; one "sqsub;" 0x228f; one "sqsube;" 0x2291; one "sqsubset;" 0x228f;
  one "sqsubseteq;" 0x2291; one "sqsup;" 0x2290; one "sqsupe;" 0x2292; one "sqsupset;" 0x2290;
  one "sqsupseteq;" 0x2292; one "squ;" 0x25a1; one "square;" 0x25a1; one "squarf;" 0x25aa;
  one "squf;" 0x25aa; one "srarr;" 0x2192; one "sscr;" 0x0001d4c8; one "ssetmn;" 0x2216;
  one "ssmile;" 0x2323; one "sstarf;" 0x22c6].

Definition valid_named_ref_13 : list (string * OneOrTwoCodepoints) := [
  one "star;" 0x2606; one "starf;" 0x2605; one "straightepsilon;" 0x03f5; one "straightphi;" 0x03d5;
  one "strns;" 0xaf; one "sub;" 0x2282; one "subE;" 0x2ac5; one "subdot;" 0x2abd; one "sube;" 0x2286;
  one "subedot;" 0x2ac3; one "submult;" 0x2ac1; one "subnE;" 0x2acb; one "subne;" 0x228a;
  one "subplus;" 0x2abf; one "subrarr;" 0x2979; one "subset;" 0x2282; one "subseteq;" 0x2286;
  one "subseteqq;" 0x2ac5; one "subsetneq;" 0x228a; one "subsetneqq;" 0x2acb; one "subsim;" 0x2ac7;
  one "subsub;" 0x2ad5; one "subsup;" 0x2ad3; one "succ;" 0x227b; one "succapprox;" 0x2ab8;
  one "succcurlyeq;" 0x227d; one "succeq;" 0x2ab0; one "succnapprox;" 0x2aba; one "succneqq;" 0x2ab6;
  one "succnsim;" 0x22e9; one "succsim;" 0x227f; one "sum;" 0x2211; one "sung;" 0x266a; one "sup1;" 0xb9;
  one "sup1" 0xb9; one "sup2;" 0xb2; one "sup2" 0xb2; one "sup3;" 0xb3; one "sup3" 0xb3; one "sup;" 0x2283;
  one "supE;" 0x2ac6; one "supdot;" 0x2abe; one "supdsub;" 0x2ad8; one "supe;" 0x2287; one "supedot;" 0x2ac4;
  one "suphsol;" 0x27c9; one "suphsub;" 0x2ad7; one "suplarr;" 0x297b; one "supmult;" 0x2ac2;
  one "supnE;" 0x2acc; one "supne;" 0x228b; one "supplus;" 0x2ac0; one "supset;" 0x2283;
  one "supseteq;" 0x2287; one "supseteqq;" 0x2ac6; one "supsetneq;" 0x228b; one "supsetneqq;" 0x2acc;
  one "supsim;" 0x2ac8; one "supsub;" 0x2ad4; one "supsup;" 0x2ad6; one "swArr;" 0x21d9;
  one "swarhk;" 0x2926; one "swarr;" 0x2199; one "swarrow;" 0x2199; one "swnwar;" 0x292a; one "szlig;" 0xdf;
  one "szlig" 0xdf; one "target;" 0x2316; one "tau;" 0x03c4; one "tbrk;" 0x23b4; one "tcaron;" 0x0165;
  one "tcedil;" 0x0163; one "tcy;" 0x0442; one "tdot;" 0x20db; one "telrec;" 0x2315; one "tfr;" 0x0001d531;
  one "there4;" 0x2234; one "therefore;" 0x2234; one "theta;" 0x03b8; one "thetasym;" 0x03d1;
  one "thetav;" 0x03d1; one "thickapprox;" 0x2248; one "thicksim;" 0x223c; one "thinsp;" 0x2009;
  one "thkap;" 0x2248; one "thksim;" 0x223c; one "thorn;" 0xfe; one "thorn" 0xfe; one "tilde;" 0x02dc;
  one "times;" 0xd7; one "times" 0xd7; one "timesb;" 0x22a0; one "timesbar;" 0x2a31; one "timesd;" 0x2a30;
  one "tint;" 0x222d; one "toea;" 0x2928; one "top;" 0x22a4; one "topbot;" 0x2336; one "topcir;" 0x2af1;
  one "topf;" 0x0001d565; one "topfork;" 0x2ada; one "tosa;" 0x2929; one "tprime;" 0x2034;
  one "trade;" 0x2122; one "triangle;" 0x25b5; one "triangledown;" 0x25bf; one "triangleleft;" 0x25c3;
  one "trianglelefteq;" 0x22b4; one "triangleq;" 0x225c; one "triangleright;" 0x25b9;
  one "trianglerighteq;" 0x22b5; one "tridot;" 0x25ec; one "trie;" 0x225c; one "triminus;" 0x2a3a;
  one "triplus;" 0x2a39; one "trisb;" 0x29cd; one "tritime;" 0x2a3b; one "trpezium;" 0x23e2;
  one "tscr;" 0x0001d4c9; one "tscy;" 0x0446; one "tshcy;" 0x045b; one "tstrok;" 0x0167; one "twixt;" 0x226c;
  one "twoheadleftarrow;" 0x219e; one "twoheadrightarrow;" 0x21a0; one "uArr;" 0x21d1; one "uHar;" 0x2963;
  one "uacute;" 0xfa; one "uacute" 0xfa; one "uarr;" 0x2191; one "ubrcy;" 0x045e; one "ubreve;" 0x016d;
  one "ucirc;" 0xfb; one "ucirc" 0xfb; one "ucy;" 0x0443; one "udarr;" 0x21c5; one "udblac;" 0x0171;
  one "udhar;" 0x296e; one "ufisht;" 0x297e; one "ufr;" 0x0001d532; one "ugrave;" 0xf9; one "ugrave" 0xf9;
  one "uharl;" 0x21bf; one "uharr;" 0x21be; one "uhblk;" 0x2580; one "ulcorn;" 0x231c;
  one "ulcorner;" 0x231c; one "ulcrop;" 0x230f; one "ultri;" 0x25f8; one "umacr;" 0x016b].

Definition valid_named_ref_14 : list (string * OneOrTwoCodepoints) := [
  one "uml;" 0xa8; one "uml" 0xa8; one "uogon;" 0x0173; one "uopf;" 0x0001d566; one "uparrow;" 0x2191;
  one "updownarrow;" 0x2195; one "upharpoonleft;" 0x21bf; one "upharpoonright;" 0x21be; one "uplus;" 0x228e;
  one "upsi;" 0x03c5; one "upsih;" 0x03d2; one "upsilon;" 0x03c5; one "upuparrows;" 0x21c8;
  one "urcorn;" 0x231d; one "urcorner;" 0x231d; one "urcrop;" 0x230e; one "uring;" 0x016f;
  one "urtri;" 0x25f9; one "uscr;" 0x0001d4ca; one "utdot;" 0x22f0; one "utilde;" 0x0169; one "utri;" 0x25b5;
  one "utrif;" 0x25b4; one "uuarr;" 0x21c8; one "uuml;" 0xfc; one "uuml" 0xfc; one "uwangle;" 0x29a7;
  one "vArr;" 0x21d5; one "vBar;" 0x2ae8; one "vBarv;" 0x2ae9; one "vDash;" 0x22a8; one "vangrt;" 0x299c;
  one "varepsilon;" 0x03f5; one "varkappa;" 0x03f0; one "varnothing;" 0x2205; one "varphi;" 0x03d5;
  one "varpi;" 0x03d6; one "varpropto;" 0x221d; one "varr;" 0x2195; one "varrho;" 0x03f1;
  one "varsigma;" 0x03c2; two "varsubsetneq;" 0x228a 0xfe00; two "varsubsetneqq;" 0x2acb 0xfe00;
  two "varsupsetneq;" 0x228b 0xfe00; two "varsupsetneqq;" 0x2acc 0xfe00; one "vartheta;" 0x03d1;
  one "vartriangleleft;" 0x22b2; one "vartriangleright;" 0x22b3; one "vcy;" 0x0432; one "vdash;" 0x22a2;
  one "vee;" 0x2228; one "veebar;" 0x22bb; one "veeeq;" 0x225a; one "vellip;" 0x22ee; one "verbar;" 0x7c;
  one "vert;" 0x7c; one "vfr;" 0x0001d533; one "vltri;" 0x22b2; two "vnsub;" 0x2282 0x20d2;
  two "vnsup;" 0x2283 0x20d2; one "vopf;" 0x0001d567; one "vprop;" 0x221d; one "vrtri;" 0x22b3;
  one "vscr;" 0x0001d4cb; two "vsubnE;" 0x2acb 0xfe00; two "vsubne;" 0x228a 0xfe00;
  two "vsupnE;" 0x2acc 0xfe00; two "vsupne;" 0x228b 0xfe00; one "vzigzag;" 0x299a; one "wcirc;" 0x0175;
  one "wedbar;" 0x2a5f; one "wedge;" 0x2227; one "wedgeq;" 0x2259; one "weierp;" 0x2118;
  one "wfr;" 0x0001d534; one "wopf;" 0x0001d568; one "wp;" 0x2118; one "wr;" 0x2240; one "wreath;" 0x2240;
  one "wscr;" 0x0001d4cc; one "xcap;" 0x22c2; one "xcirc;" 0x25ef; one "xcup;" 0x22c3; one "xdtri;" 0x25bd;
  one "xfr;" 0x0001d535; one "xhArr;" 0x27fa; one "xharr;" 0x27f7; one "xi;" 0x03be; one "xlArr;" 0x27f8;
  one "xlarr;" 0x27f5; one "xmap;" 0x27fc; one "xnis;" 0x22fb; one "xodot;" 0x2a00; one "xopf;" 0x0001d569;
  one "xoplus;" 0x2a01; one "xotime;" 0x2a02; one "xrArr;" 0x27f9; one "xrarr;" 0x27f6;
  one "xscr;" 0x0001d4cd; one "xsqcup;" 0x2a06; one "xuplus;" 0x2a04; one "xutri;" 0x25b3;
  one "xvee;" 0x22c1; one "xwedge;" 0x22c0; one "yacute;" 0xfd; one "yacute" 0xfd; one "yacy;" 0x044f;
  one "ycirc;" 0x0177; one "ycy;" 0x044b; one "yen;" 0xa5; one "yen" 0xa5; one "yfr;" 0x0001d536;
  one "yicy;" 0x0457; one "yopf;" 0x0001d56a; one "yscr;" 0x0001d4ce; one "yucy;" 0x044e; one "yuml;" 0xff;
  one "yuml" 0xff; one "zacute;" 0x017a; one "zcaron;" 0x017e; one "zcy;" 0x0437; one "zdot;" 0x017c;
  one "zeetrf;" 0x2128; one "zeta;" 0x03b6; one "zfr;" 0x0001d537; one "zhcy;" 0x0436; one "zigrarr;" 0x21dd;
  one "zopf;" 0x0001d56b; one "zscr;" 0x0001d4cf; one "zwj;" 0x200d; one "zwnj;" 0x200c].

Close Scope string_scope.

(** The names as bytes. *)
Definition valid_named_ref : list (list Z * OneOrTwoCodepoints) :=
  map (fun e => (Tags.bytes_of e.1, e.2))
    (valid_named_ref_0 ++ valid_named_ref_1 ++ valid_named_ref_2 ++ valid_named_ref_3 ++
     valid_named_ref_4 ++ valid_named_ref_5 ++ valid_named_ref_6 ++ valid_named_ref_7 ++
     valid_named_ref_8 ++ valid_named_ref_9 ++ valid_named_ref_10 ++ valid_named_ref_11 ++
     valid_named_ref_12 ++ valid_named_ref_13 ++ valid_named_ref_14).

End CharRefGrammar.
