(* ===== verification/CharRefScan.v ===== *)
(** gumbo-parser/src/char_ref.c: the scanner of named character references, a state
    machine over the tables of CharRefTables and the actions of CharRefActions.

    The scanner finds the longest reference of the grammar (CharRefGrammar) at the
    cursor.  A trie of the grammar's names is the reference definition; a checker walks
    the trie and the tables side by side, and its success, which is evaluated once,
    gives the theorem for all texts. *)
From Stdlib Require Import Strings.String.
From stdpp Require Import pmap.
From S2P Require Import Prelude GumboTags GumboBase Utf8 CharRef.
From S2P Require Import CharRefTables CharRefActions CharRefGrammar.
Import GumboBase Utf8 CharRef CharRefTables CharRefActions CharRefGrammar.

Module CharRefScan.

(** * The machine *)

Record tables := Tables {
  actions : list Z; trans_keys : list Z; key_spans : list Z; index_offsets : list Z;
  indicies : list Z; trans_targs : list Z; trans_actions : list Z;
  to_state_actions : list Z; from_state_actions : list Z; eof_trans : list Z }.

Definition char_ref : tables :=
  Tables _char_ref_actions _char_ref_trans_keys _char_ref_key_spans _char_ref_index_offsets
    _char_ref_indicies _char_ref_trans_targs _char_ref_trans_actions
    _char_ref_to_state_actions _char_ref_from_state_actions _char_ref_eof_trans.

Definition char_ref_start : Z := 7623.
Definition first_final : Z := 7623.

(** The local variables; pointers into the text are offsets from [start], and
    [None] is the null pointer. *)
Record scanner := Scanner {
  cs : Z; ts : option Z; te : option Z; act : Z; p : Z; output : OneOrTwoCodepoints }.

Definition set_cs (c : Z) (s : scanner) : scanner :=
  Scanner c (ts s) (te s) (act s) (p s) (output s).
Definition set_p (q : Z) (s : scanner) : scanner :=
  Scanner (cs s) (ts s) (te s) (act s) q (output s).

(** An element of a table. *)
Definition tab (t : list Z) (i : Z) : outcome Z :=
  if 0 <=? i then load t (Z.to_nat i) else Undef.

(** A byte of the text as a [char], which is signed. *)
Definition schar (b : Z) : Z := (b + 128) mod 2 ^ 8 - 128.

Fixpoint assoc {A} (k : Z) (l : list (Z * A)) : option A :=
  match l with
  | [] => None
  | (k', a) :: l => if k' =? k then Some a else assoc k l
  end.

(** The assignments to [output->first] and, where there is one, to [output->second]. *)
Definition emit (first_ : Z) (second_ : option Z) (o : OneOrTwoCodepoints) : OneOrTwoCodepoints :=
  Codepoints first_ (default (second o) second_).

(** A case of a switch, and whether it leaves the machine. *)
Definition do_action (a : action) (s : scanner) : outcome (scanner * bool) :=
  match a with
  | set_ts_0 => Ok (Scanner (cs s) None (te s) (act s) (p s) (output s), false)
  | set_ts_p => Ok (Scanner (cs s) (Some (p s)) (te s) (act s) (p s) (output s), false)
  | set_te => Ok (Scanner (cs s) (ts s) (Some (p s + 1)) (act s) (p s) (output s), false)
  | match_next f o =>
      Ok (Scanner (cs s) (ts s) (Some (p s + 1)) (act s) (p s + 1) (emit f o (output s)), true)
  | match_here f o =>
      Ok (Scanner (cs s) (ts s) (Some (p s)) (act s) (p s - 1 + 1) (emit f o (output s)), true)
  | match_back f o =>
      t ← of_option (te s);
      Ok (Scanner (cs s) (ts s) (te s) (act s) (t - 1 + 1) (emit f o (output s)), true)
  end.

Section machine.
Context (T : tables).

(** while ( _nacts-- > 0 ) switch ( *_acts++ ) *)
Fixpoint run_acts (cases : list (Z * action)) (nacts : nat) (acts : Z) (s : scanner)
  : outcome (scanner * bool) :=
  match nacts with
  | O => Ok (s, false)
  | S nacts =>
      a ← tab (actions T) acts;
      match assoc a cases with
      | None => run_acts cases nacts (acts + 1) s
      | Some x =>
          '(s, out) ← do_action x s;
          if (out : bool) then Ok (s, true) else run_acts cases nacts (acts + 1) s
      end
  end.

(** _acts = _char_ref_actions + acts; _nacts = *_acts++; and the loop. *)
Definition run_actions (cases : list (Z * action)) (acts : Z) (s : scanner) : outcome (scanner * bool) :=
  nacts ← tab (actions T) acts;
  run_acts cases (Z.to_nat nacts) (acts + 1) s.

(** The transition of the state [c] on the character [x]. *)
Definition next_trans (c x : Z) : outcome Z :=
  off ← tab (index_offsets T) c;
  slen ← tab (key_spans T) c;
  i ← (if 0 <? slen then
         lo ← tab (trans_keys T) (Z.shiftl c 1);
         if lo <=? x then
           hi ← tab (trans_keys T) (Z.shiftl c 1 + 1);
           Ok (if x <=? hi then x - lo else slen)
         else Ok slen
       else Ok slen);
  tab (indicies T) (off + i).

(** _eof_trans: the target and the actions of a transition. *)
Definition trans_step (trans : Z) (s : scanner) : outcome (scanner * bool) :=
  c ← tab (trans_targs T) trans;
  let s := set_cs c s in
  acts ← tab (trans_actions T) trans;
  if acts =? 0 then Ok (s, false) else run_actions trans_cases acts s.

(** From _resume with no transition given, from _eof_trans with one. *)
Fixpoint exec (fuel : nat) (text : list Z) (given : option Z) (s : scanner) : outcome (option scanner) :=
  match fuel with
  | O => Ok None
  | S fuel =>
      '(s, trans) ← match given with
                    | Some trans => Ok (s, trans)
                    | None =>
                        acts ← tab (from_state_actions T) (cs s);
                        '(s, _) ← run_actions from_state_cases acts s;
                        c ← tab text (p s);
                        trans ← next_trans (cs s) (schar c);
                        Ok (s, trans)
                    end;
      '(s, out) ← trans_step trans s;
      if (out : bool) then Ok (Some s) else
        acts ← tab (to_state_actions T) (cs s);
        '(s, _) ← run_actions to_state_cases acts s;
        if cs s =? 0 then Ok (Some s) else
          let s := set_p (p s + 1) s in
          if negb (p s =? Z.of_nat (length text)) then exec fuel text None s
          else
            e ← tab (eof_trans T) (cs s);
            if 0 <? e then exec fuel text (Some (e - 1)) s else Ok (Some s)
  end.

(** From the initial state; a text without a character goes to _test_eof. *)
Definition scan (text : list Z) : outcome (option scanner) :=
  let s := Scanner char_ref_start None None 0 0 (Codepoints kGumboNoChar kGumboNoChar) in
  let fuel := (length text + 1)%nat in
  if p s =? Z.of_nat (length text) then
    e ← tab (eof_trans T) (cs s);
    if 0 <? e then exec fuel text (Some (e - 1)) s else Ok (Some s)
  else if cs s =? 0 then Ok (Some s)
  else exec fuel text None s.
End machine.

(** What the generated code finds at the start of the text: the code points and the
    length of a reference. *)
Definition scan_named (text : list Z) : option (OneOrTwoCodepoints * nat) :=
  match scan char_ref text with
  | Ok (Some s) =>
      if first_final <=? cs s then
        match te s with Some t => Some (output s, Z.to_nat t) | None => None end
      else None
  | _ => None
  end.

Example scan_named_some :
  map (fun s => scan_named (Tags.bytes_of s))
    ["amp;x"; "ampx"; "notit;"; "notin;"; "notin"; "NotEqualTilde;"; "xyz;"; "ac"]%string =
  [Some (Codepoints 0x26 (-1), 4%nat); Some (Codepoints 0x26 (-1), 3%nat);
   Some (Codepoints 0xac (-1), 3%nat); Some (Codepoints 0x2209 (-1), 6%nat);
   Some (Codepoints 0xac (-1), 3%nat); Some (Codepoints 0x2242 0x338, 14%nat); None; None].
Proof. vm_compute. reflexivity. Qed.

(** * The trie of the grammar *)

Inductive trie := Node (value : option OneOrTwoCodepoints) (kids : list (Z * trie)).

Definition value (t : trie) : option OneOrTwoCodepoints := let '(Node v _) := t in v.
Definition kids (t : trie) : list (Z * trie) := let '(Node _ ks) := t in ks.

Fixpoint put {A} (k : Z) (a : A) (l : list (Z * A)) : list (Z * A) :=
  match l with
  | [] => [(k, a)]
  | (k', a') :: l => if k' =? k then (k, a) :: l else (k', a') :: put k a l
  end.

Fixpoint trie_insert (name : list Z) (v : OneOrTwoCodepoints) (t : trie) : trie :=
  match name with
  | [] => Node (Some v) (kids t)
  | c :: name => Node (value t) (put c (trie_insert name v (default (Node None []) (assoc c (kids t)))) (kids t))
  end.

Fixpoint trie_get (t : trie) (name : list Z) : option OneOrTwoCodepoints :=
  match name with
  | [] => value t
  | c :: name => match assoc c (kids t) with Some t => trie_get t name | None => None end
  end.

Definition trie_of (refs : list (list Z * OneOrTwoCodepoints)) : trie :=
  foldr (fun e => trie_insert e.1 e.2) (Node None []) refs.

(** Descend along the text; the last value on the way, with its depth. *)
Fixpoint walk (t : trie) (d : nat) (last : option (OneOrTwoCodepoints * nat)) (text : list Z)
  : option (OneOrTwoCodepoints * nat) :=
  match text with
  | [] => last
  | b :: text =>
      match assoc b (kids t) with
      | None => last
      | Some t =>
          walk t (S d) (match value t with Some c => Some (c, S d) | None => last end) text
      end
  end.

(** [name], which stands for [cp], is the longest reference at the start of the text. *)
Definition longest_ref (refs : list (list Z * OneOrTwoCodepoints)) (text name : list Z)
    (cp : OneOrTwoCodepoints) : Prop :=
  (name, cp) ∈ refs /\ name `prefix_of` text /\
  forall name' cp', (name', cp') ∈ refs -> name' `prefix_of` text -> (length name' <= length name)%nat.

Lemma assoc_put {A} k k' (a : A) l : assoc k (put k' a l) = if k' =? k then Some a else assoc k l.
Proof.
  induction l as [|[j b] l IH]; simpl; [done|].
  destruct (Z.eqb_spec j k'); simpl; [subst; by destruct (k' =? k)|].
  rewrite IH. destruct (Z.eqb_spec j k); [|done]. subst. by destruct (Z.eqb_spec k' k).
Qed.

Lemma assoc_In {A} k (a : A) l : assoc k l = Some a -> In (k, a) l.
Proof.
  induction l as [|[j b] l IH]; simpl; [done|]. destruct (Z.eqb_spec j k) as [->|]; [intros [= ->]; auto|auto].
Qed.

Lemma trie_get_nil name : trie_get (Node None []) name = None.
Proof. by destruct name. Qed.

Lemma trie_get_insert name v t name' :
  trie_get (trie_insert name v t) name' = if decide (name = name') then Some v else trie_get t name'.
Proof.
  revert t name'. induction name as [|c name IH]; intros t [|c' name']; simpl; try done.
  rewrite assoc_put. destruct (Z.eqb_spec c c') as [->|Hc].
  - rewrite IH. destruct (assoc c' (kids t)); simpl; rewrite ?trie_get_nil;
      repeat case_decide; simplify_eq; done.
  - case_decide; [simplify_eq|done].
Qed.

(** The trie holds the names of the list; the first entry for a name counts. *)
Lemma trie_of_sound refs name cp : trie_get (trie_of refs) name = Some cp -> (name, cp) ∈ refs.
Proof.
  induction refs as [|[n c] refs IH]; simpl; [by rewrite trie_get_nil|].
  rewrite trie_get_insert. simpl. case_decide as Hn; [intros [= ->]; subst; left|right; auto].
Qed.

Lemma trie_of_complete refs name cp : (name, cp) ∈ refs -> is_Some (trie_get (trie_of refs) name).
Proof.
  induction refs as [|[n c] refs IH]; simpl; [by intros ?%elem_of_nil|].
  rewrite trie_get_insert. simpl. case_decide as Hn; [eauto|]. intros [?|?]%elem_of_cons; [simplify_eq|auto].
Qed.

(** The walk returns the longest name below the node, and else what it was given. *)
Lemma walk_spec text t d last :
  (exists name c, name `prefix_of` text /\ name <> [] /\ trie_get t name = Some c /\
     walk t d last text = Some (c, (d + length name)%nat) /\
     forall name', name' `prefix_of` text -> is_Some (trie_get t name') -> (length name' <= length name)%nat) \/
  (walk t d last text = last /\
     forall name, name `prefix_of` text -> name <> [] -> trie_get t name = None).
Proof.
  revert t d last. induction text as [|b text IH]; intros t d last; simpl.
  { right. split; [done|]. by intros name ->%prefix_nil_inv. }
  assert (Hcons : forall name, name `prefix_of` b :: text -> name <> [] ->
    exists name', name = b :: name' /\ name' `prefix_of` text).
  { intros [|c name'] Hp Hne; [done|]. exists name'. split; [|by eapply prefix_cons_inv_2].
    by apply prefix_cons_inv_1 in Hp as ->. }
  destruct (assoc b (kids t)) as [t'|] eqn:Ea.
  2:{ right. split; [done|]. intros name Hp Hne. destruct (Hcons _ Hp Hne) as (name' & -> & _). simpl. by rewrite Ea. }
  destruct (IH t' (S d) (match value t' with Some c => Some (c, S d) | None => last end))
    as [(name & c & Hp & Hne & Hg & -> & Hmax)|(-> & Hnone)].
  - left. exists (b :: name), c. split_and!; [by apply prefix_cons|done|simpl; by rewrite Ea|simpl; do 2 f_equal; lia|].
    intros [|c' name'] Hp' Hs; simpl; [lia|]. destruct (Hcons _ Hp' ltac:(done)) as (n & [= -> ->] & Hn).
    simpl in Hs. rewrite Ea in Hs. specialize (Hmax _ Hn Hs). lia.
  - assert (Hone : forall name, name `prefix_of` b :: text -> is_Some (trie_get t name) -> (length name <= 1)%nat).
    { intros [|c' [|c'' name']] Hp' Hs; simpl; try lia. destruct (Hcons _ Hp' ltac:(done)) as (n & [= -> <-] & Hn).
      cbn [trie_get] in Hs. rewrite Ea in Hs. specialize (Hnone _ Hn ltac:(done)). simpl in Hnone.
      rewrite Hnone in Hs. by destruct Hs. }
    destruct (value t') as [c|] eqn:Ev.
    + left. exists [b], c. split_and!; [by apply prefix_cons, prefix_nil|done|simpl; by rewrite Ea|simpl; do 2 f_equal; lia|exact Hone].
    + right. split; [done|]. intros name Hp Hne. destruct (Hcons _ Hp Hne) as (n & -> & Hn). simpl. rewrite Ea.
      destruct n; [done|]. by apply Hnone.
Qed.

Lemma walk_longest refs text :
  trie_get (trie_of refs) [] = None ->
  match walk (trie_of refs) 0 None text with
  | Some (cp, n) => exists name, longest_ref refs text name cp /\ n = length name
  | None => forall name cp, (name, cp) ∈ refs -> ~ name `prefix_of` text
  end.
Proof.
  intros Hroot. destruct (walk_spec text (trie_of refs) 0 None) as [(name & c & Hp & Hne & Hg & -> & Hmax)|(-> & Hnone)].
  - exists name. split; [|done]. split_and!; [by apply trie_of_sound|done|].
    intros name' cp' Hin Hp'. apply Hmax; [done|]. by eapply trie_of_complete.
  - intros name cp Hin Hp. apply trie_of_complete in Hin as [c Hc]. destruct name; [congruence|].
    rewrite Hnone in Hc; done.
Qed.

(** * Tables with fast access *)

Definition get {A} (m : Pmap A) (i : Z) : option A :=
  if i <? 0 then None else m !! Z.to_pos (i + 1).

Definition fast {A} (l : list (Z * A)) : Pmap A :=
  foldr (fun e m => <[Z.to_pos (e.1 + 1) := e.2]> m) ∅ l.

Fixpoint indexed {A} (i : Z) (l : list A) : list (Z * A) :=
  match l with [] => [] | a :: l => (i, a) :: indexed (i + 1) l end.

Lemma get_fast {A} (l : list (Z * A)) i a :
  Forall (fun e => 0 <= e.1) l -> get (fast l) i = Some a -> 0 <= i /\ assoc i l = Some a.
Proof.
  unfold get. intros Hl. destruct (Z.ltb_spec i 0) as [?|Hi]; [done|]. intros H. split; [done|]. revert H.
  induction Hl as [|[k v] l Hk Hl IH]; simpl in *; [by rewrite lookup_empty|].
  destruct (Z.eqb_spec k i) as [->|Hne]; [by rewrite lookup_insert_eq|].
  rewrite lookup_insert_ne; [done|]. intros E. apply (f_equal Z.pos) in E. rewrite !Z2Pos.id in E by lia. lia.
Qed.

Lemma indexed_nonneg {A} i (l : list A) : 0 <= i -> Forall (fun e => 0 <= e.1) (indexed i l).
Proof. revert i. induction l; intros i Hi; simpl; constructor; simpl; auto with lia. Qed.

Lemma assoc_indexed {A} i j (l : list A) : i <= j -> assoc j (indexed i l) = l !! Z.to_nat (j - i).
Proof.
  revert i. induction l as [|a l IH]; intros i Hij; simpl; [done|].
  destruct (Z.eqb_spec i j) as [->|Hne]; [by rewrite Z.sub_diag|].
  rewrite IH by lia. replace (Z.to_nat (j - i)) with (S (Z.to_nat (j - (i + 1)))) by lia. done.
Qed.

Lemma get_tab (t : list Z) i a : get (fast (indexed 0 t)) i = Some a -> tab t i = Ok a.
Proof.
  intros [Hi H]%get_fast; [|by apply indexed_nonneg]. rewrite assoc_indexed, Z.sub_0_r in H by done.
  unfold tab, load. rewrite (proj2 (Z.leb_le 0 i) Hi), H. done.
Qed.

Record fast_tables := Fast {
  f_actions : Pmap Z; f_keys : Pmap Z; f_spans : Pmap Z; f_offsets : Pmap Z; f_indicies : Pmap Z;
  f_targs : Pmap Z; f_trans_actions : Pmap Z; f_to : Pmap Z; f_from : Pmap Z; f_eof : Pmap Z;
  f_cases : Pmap action }.

Definition fasten (T : tables) : fast_tables :=
  Fast (fast (indexed 0 (actions T))) (fast (indexed 0 (trans_keys T))) (fast (indexed 0 (key_spans T)))
    (fast (indexed 0 (index_offsets T))) (fast (indexed 0 (indicies T))) (fast (indexed 0 (trans_targs T)))
    (fast (indexed 0 (trans_actions T))) (fast (indexed 0 (to_state_actions T)))
    (fast (indexed 0 (from_state_actions T))) (fast (indexed 0 (eof_trans T))) (fast trans_cases).

(** * The checker *)

#[export] Instance OneOrTwoCodepoints_eq_dec : EqDecision OneOrTwoCodepoints.
Proof. solve_decision. Defined.

Definition same_cp (f : Z) (o : option Z) (c : OneOrTwoCodepoints) : bool :=
  (f =? first c) && (default kGumboNoChar o =? second c).

Section checker.
Context (F : fast_tables).

(** The target and the single action of a transition. *)
Definition decode (trans : Z) : option (Z * option action) :=
  c ← get (f_targs F) trans;
  acts ← get (f_trans_actions F) trans;
  if acts =? 0 then Some (c, None) else
    n ← get (f_actions F) acts;
    a ← get (f_actions F) (acts + 1);
    x ← get (f_cases F) a;
    if n =? 1 then Some (c, Some x) else None.

(** At most one action, and it is in the table. *)
Definition quiet (offs : Pmap Z) (c : Z) : bool :=
  match get offs c with
  | Some acts =>
      match get (f_actions F) acts with
      | Some n => (n =? 0) || ((n =? 1) && bool_decide (is_Some (get (f_actions F) (acts + 1))))
      | None => false
      end
  | None => false
  end.

(** The transition reports the last reference, or leaves the machine without one;
    [here]: the reference ends at this node; [set]: [te] is its end. *)
Definition fails_ok (here set : bool) (last : option OneOrTwoCodepoints) (trans : Z) : bool :=
  match decode trans, last with
  | Some (c, None), None => (c =? 0) && quiet (f_to F) c
  | Some (c, Some (match_here f o)), Some l => here && (first_final <=? c) && same_cp f o l
  | Some (c, Some (match_back f o)), Some l => set && (first_final <=? c) && same_cp f o l
  | _, _ => false
  end.

Definition eof_ok (here set : bool) (last : option OneOrTwoCodepoints) (c : Z) : bool :=
  match get (f_eof F) c, last with
  | Some e, None => (e =? 0) && (c <? first_final)
  | Some e, Some _ => (0 <? e) && fails_ok here set last (e - 1)
  | None, _ => false
  end.

(** The machine goes on in the state [c], which stands for the node [t]. *)
Definition enters (sim : trie -> Z -> bool -> option OneOrTwoCodepoints -> bool)
    (t : trie) (c : Z) (set : bool) (last : option OneOrTwoCodepoints) : bool :=
  negb (c =? 0) && quiet (f_to F) c && eof_ok (bool_decide (is_Some (value t))) set last c && sim t c set last.

(** The transition to a child of the node. *)
Definition child_ok (sim : trie -> Z -> bool -> option OneOrTwoCodepoints -> bool)
    (set : bool) (last : option OneOrTwoCodepoints) (t : trie) (trans : Z) : bool :=
  match decode trans, value t, kids t with
  | Some (c, Some (match_next f o)), Some v, [] => (first_final <=? c) && same_cp f o v
  | Some (c, Some set_te), Some v, _ => enters sim t c true (Some v)
  | Some (c, None), Some v, _ => enters sim t c false (Some v)
  | Some (c, None), None, _ => enters sim t c set last
  | _, _, _ => false
  end.

(** The state [c] stands for the node [t]. *)
Fixpoint sim (t : trie) (c : Z) (set : bool) (last : option OneOrTwoCodepoints) {struct t} : bool :=
  let '(Node v ks) := t in
  let here := bool_decide (is_Some v) in
  match get (f_offsets F) c, get (f_spans F) c, get (f_keys F) (Z.shiftl c 1), get (f_keys F) (Z.shiftl c 1 + 1) with
  | Some off, Some slen, Some lo, Some hi =>
      let trans x := get (f_indicies F) (off + x) in
      let fails x := match trans x with Some tr => fails_ok here set last tr | None => false end in
      quiet (f_from F) c && (0 <? slen) && (0 <=? lo) && (hi <? 128) && fails slen &&
      forallb (fun x => bool_decide (is_Some (assoc x ks)) || fails (x - lo)) (seqZ lo (hi - lo + 1)) &&
      forallb (fun '(x, t) =>
        (lo <=? x) && (x <=? hi) &&
        match trans (x - lo) with Some tr => child_ok sim set last t tr | None => false end) ks
  | _, _, _, _ => false
  end.
End checker.

Definition check (T : tables) (refs : list (list Z * OneOrTwoCodepoints)) : bool :=
  let t := trie_of refs in
  bool_decide (value t = None) && sim (fasten T) t char_ref_start false None.


(** * The checker is sound *)

Lemma trans_cases_nonneg : Forall (fun e : Z * action => 0 <= e.1) trans_cases.
Proof. by_decide. Qed.

(** The scanner up to [ts], which nothing reads. *)
Definition same_but_ts (s s' : scanner) : Prop :=
  cs s' = cs s /\ te s' = te s /\ p s' = p s /\ output s' = output s.

(** The outcome of a run: the last reference and its end, or no final state. *)
Definition reports (s : scanner) (r : option (OneOrTwoCodepoints * nat)) : Prop :=
  match r with
  | Some (c, n) => first_final <= cs s /\ output s = c /\ te s = Some (Z.of_nat n)
  | None => cs s < first_final
  end.

(** The fast tables hold what the tables hold. *)
Record fast_for (T : tables) (F : fast_tables) : Prop := {
  for_actions i a : get (f_actions F) i = Some a -> tab (actions T) i = Ok a;
  for_keys i a : get (f_keys F) i = Some a -> tab (trans_keys T) i = Ok a;
  for_spans i a : get (f_spans F) i = Some a -> tab (key_spans T) i = Ok a;
  for_offsets i a : get (f_offsets F) i = Some a -> tab (index_offsets T) i = Ok a;
  for_indicies i a : get (f_indicies F) i = Some a -> tab (indicies T) i = Ok a;
  for_targs i a : get (f_targs F) i = Some a -> tab (trans_targs T) i = Ok a;
  for_trans_actions i a : get (f_trans_actions F) i = Some a -> tab (trans_actions T) i = Ok a;
  for_to i a : get (f_to F) i = Some a -> tab (to_state_actions T) i = Ok a;
  for_from i a : get (f_from F) i = Some a -> tab (from_state_actions T) i = Ok a;
  for_eof i a : get (f_eof F) i = Some a -> tab (eof_trans T) i = Ok a;
  for_cases i a : get (f_cases F) i = Some a -> assoc i trans_cases = Some a }.

Lemma fasten_for T : fast_for T (fasten T).
Proof.
  split; try (intros i a; apply get_tab). intros i a H. eapply get_fast; [exact trans_cases_nonneg|exact H].
Qed.

#[local] Opaque trans_cases.

Section sound.
Context (T : tables) (F : fast_tables) (HF : fast_for T F).

Lemma decode_sound trans c o s :
  decode F trans = Some (c, o) ->
  trans_step T trans s =
    match o with None => Ok (set_cs c s, false) | Some a => do_action a (set_cs c s) end.
Proof.
  unfold decode, trans_step. intros H.
  destruct (get (f_targs F) trans) as [c'|] eqn:Ec; simpl in H; [|done].
  destruct (get (f_trans_actions F) trans) as [acts|] eqn:Ea; simpl in H; [|done].
  apply (for_targs T F HF) in Ec as ->. apply (for_trans_actions T F HF) in Ea as ->. simpl. destruct (acts =? 0); [by simplify_eq|].
  destruct (get (f_actions F) acts) as [n|] eqn:En; simpl in H; [|done].
  destruct (get (f_actions F) (acts + 1)) as [a|] eqn:Eb; simpl in H; [|done].
  destruct (get (f_cases F) a) as [x|] eqn:Ex; simpl in H; [|done].
  destruct (Z.eqb_spec n 1) as [->|]; [|done]. simplify_eq.
  apply (for_actions T F HF) in En, Eb. apply (for_cases T F HF) in Ex.
  unfold run_actions. rewrite En. simpl. rewrite Eb. simpl. rewrite Ex.
  destruct (do_action _ _) as [[s' []]| |]; done.
Qed.

Lemma quiet_sound cases offs t c s :
  (forall i a, get offs i = Some a -> tab t i = Ok a) ->
  (forall a x, assoc a cases = Some x -> x = set_ts_0 \/ x = set_ts_p) ->
  quiet F offs c = true ->
  exists acts s', tab t c = Ok acts /\ run_actions T cases acts s = Ok (s', false) /\ same_but_ts s s'.
Proof.
  unfold quiet, run_actions. intros Hoffs Hcases H.
  destruct (get offs c) as [acts|] eqn:Ec; [|done]. apply Hoffs in Ec.
  destruct (get (f_actions F) acts) as [n|] eqn:En; [|done]. apply (for_actions T F HF) in En.
  exists acts. rewrite Ec. simpl. setoid_rewrite En. simpl.
  apply orb_true_iff in H as [->%Z.eqb_eq|[->%Z.eqb_eq [a Ea]%bool_decide_eq_true]%andb_true_iff]; simpl.
  { by exists s. }
  apply (for_actions T F HF) in Ea as ->. simpl. destruct (assoc a cases) as [x|] eqn:Ex; [|by exists s].
  apply Hcases in Ex as [->| ->]; eexists; (split; [done|]; split; [done|]); done.
Qed.

Lemma from_sound c s :
  quiet F (f_from F) c = true ->
  exists acts s', tab (from_state_actions T) c = Ok acts /\
    run_actions T from_state_cases acts s = Ok (s', false) /\ same_but_ts s s'.
Proof. apply quiet_sound; [exact (for_from T F HF)|]. intros a x. cbn [assoc from_state_cases]. case_match; [|done]. intros [= <-]. auto. Qed.

Lemma to_sound c s :
  quiet F (f_to F) c = true ->
  exists acts s', tab (to_state_actions T) c = Ok acts /\
    run_actions T to_state_cases acts s = Ok (s', false) /\ same_but_ts s s'.
Proof. apply quiet_sound; [exact (for_to T F HF)|]. intros a x. cbn [assoc to_state_cases]. case_match; [|done]. intros [= <-]. auto. Qed.

(** What the machine knows at the node of depth [d] when [last] was the last reference. *)
Definition knows (here set : bool) (last : option (OneOrTwoCodepoints * nat)) (d : nat) (s : scanner) : Prop :=
  p s = Z.of_nat d /\ output s = Codepoints kGumboNoChar kGumboNoChar /\
  forall c n, last = Some (c, n) -> (here = true -> n = d) /\ (set = true -> te s = Some (Z.of_nat n)).

Lemma same_cp_true f o c : same_cp f o c = true -> emit f o (Codepoints kGumboNoChar kGumboNoChar) = c.
Proof. destruct c as [a b]. unfold same_cp, emit. simpl. intros [->%Z.eqb_eq ->%Z.eqb_eq]%andb_true_iff. done. Qed.

(** The code from _eof_trans on. *)
Definition after (fuel : nat) (text : list Z) (trans : Z) (s : scanner) : outcome (option scanner) :=
  exec T (S fuel) text (Some trans) s.

Lemma fails_sound here set last d trans fuel text s :
  fails_ok F here set (fst <$> last) trans = true -> knows here set last d s ->
  exists s', after fuel text trans s = Ok (Some s') /\ reports s' last.
Proof.
  unfold fails_ok, after. intros H (Hp & Ho & Hlast).
  destruct (decode F trans) as [[c o]|] eqn:E; [|done]. cbn [exec]. rewrite bind_Ok.
  rewrite (decode_sound _ _ _ _ E). destruct last as [[l n]|]; simpl in H.
  - destruct (Hlast l n eq_refl) as [Hhere Hset].
    destruct o as [[]|]; try done; repeat (apply andb_true_iff in H as [H ?]); subst; simpl;
      rewrite ?Ho, ?Hset by done; simpl; eexists; (split; [done|]); simpl; split_and!;
      rewrite ?Hset by done; try (apply Z.leb_le; done); try (by apply same_cp_true); try done.
    by rewrite Hp, Hhere.
  - destruct o as [[]|]; try done. apply andb_true_iff in H as [->%Z.eqb_eq Hq]. rewrite bind_Ok. cbn [set_cs cs].
    destruct (to_sound 0 (set_cs 0 s) Hq) as (acts & s' & -> & Hr & Hs). simpl. rewrite Hr. simpl.
    destruct Hs as (Hc & _). simpl in Hc. rewrite Hc. exists s'. split; [done|]. by rewrite Hc.
Qed.

(** The end of an iteration that stays in the machine. *)
Definition goes_on (fuel : nat) (text : list Z) (s : scanner) : outcome (option scanner) :=
  if negb (p s =? Z.of_nat (length text)) then exec T fuel text None s
  else e ← tab (eof_trans T) (cs s); if 0 <? e then exec T fuel text (Some (e - 1)) s else Ok (Some s).

Lemma after_goes_on trans c o fuel text s :
  decode F trans = Some (c, o) -> o = None \/ o = Some set_te ->
  c <> 0 -> quiet F (f_to F) c = true ->
  exists s', after fuel text trans s = goes_on fuel text s' /\
    cs s' = c /\ p s' = p s + 1 /\ output s' = output s /\
    te s' = match o with None => te s | Some _ => Some (p s + 1) end.
Proof.
  intros E Ho Hc Hq. unfold after. cbn [exec]. rewrite bind_Ok, (decode_sound _ _ _ _ E).
  assert (Hstep : exists s1, match o with None => Ok (set_cs c s, false) | Some a => do_action a (set_cs c s) end =
      Ok (s1, false) /\ cs s1 = c /\ p s1 = p s /\ output s1 = output s /\
      te s1 = match o with None => te s | Some _ => Some (p s + 1) end).
  { destruct Ho as [-> | ->]; by eexists. }
  destruct Hstep as (s1 & -> & Hc1 & Hp1 & Ho1 & Ht1). rewrite bind_Ok. rewrite Hc1.
  destruct (to_sound c s1 Hq) as (acts & s2 & -> & Hr & Hc2 & Ht2 & Hp2 & Ho2). rewrite bind_Ok, Hr, bind_Ok.
  rewrite (proj2 (Z.eqb_neq (cs s2) 0)) by congruence.
  exists (set_p (p s2 + 1) s2). split; [done|]. simpl. split_and!; congruence.
Qed.

(** A state that passes the checker at a byte of the text. *)
Lemma resume_trans t c set last b text s fuel :
  sim F t c set last = true -> cs s = c -> tab text (p s) = Ok b -> is_u8 b ->
  exists trans s', exec T (S fuel) text None s = after fuel text trans s' /\ same_but_ts s s' /\
    match assoc b (kids t) with
    | None => fails_ok F (bool_decide (is_Some (value t))) set last trans = true
    | Some t' => child_ok F (sim F) set last t' trans = true
    end.
Proof.
  destruct t as [v ks]. cbn [sim value kids]. intros H Hc Hb Hu8.
  destruct (get (f_offsets F) c) as [off|] eqn:Eoff; [|done].
  destruct (get (f_spans F) c) as [slen|] eqn:Eslen; [|done].
  destruct (get (f_keys F) (Z.shiftl c 1)) as [lo|] eqn:Elo; [|done].
  destruct (get (f_keys F) (Z.shiftl c 1 + 1)) as [hi|] eqn:Ehi; [|done].
  rewrite !andb_true_iff in H. destruct H as ((((((Hq & Hslen%Z.ltb_lt) & Hlo%Z.leb_le) & Hhi%Z.ltb_lt) & Hdef) & Hseq) & Hks).
  destruct (from_sound c s Hq) as (acts & s1 & Hacts & Hr & Hs1).
  pose proof Hs1 as (Hc1 & _ & Hp1 & _).
  apply (for_offsets T F HF) in Eoff. apply (for_spans T F HF) in Eslen. apply (for_keys T F HF) in Elo, Ehi.
  set (i := if (lo <=? b) && (b <=? hi) then b - lo else slen).
  assert (Hnext : next_trans T c (schar b) = tab (indicies T) (off + i)).
  { unfold next_trans. rewrite Eoff, Eslen, !bind_Ok, Elo, Ehi. rewrite (proj2 (Z.ltb_lt 0 slen) Hslen).
    rewrite !bind_Ok. unfold i. assert (Hsc : schar b = b /\ b < 128 \/ schar b < 0 /\ 128 <= b) by (unfold schar; zlia).
    destruct Hsc as [[-> ?]|[? ?]]; repeat (case_match; rewrite ?bind_Ok; simpl in * ); try done; lia. }
  assert (Htr : exists trans, get (f_indicies F) (off + i) = Some trans /\
    match assoc b ks with
    | None => fails_ok F (bool_decide (is_Some v)) set last trans = true
    | Some t' => child_ok F (sim F) set last t' trans = true
    end).
  { rewrite forallb_forall in Hseq, Hks. unfold i. destruct (assoc b ks) as [t'|] eqn:Eb.
    - specialize (Hks _ (assoc_In _ _ _ Eb)). simpl in Hks. apply andb_true_iff in Hks as [-> Hk].
      case_match; [by eauto|done].
    - destruct ((lo <=? b) && (b <=? hi)) eqn:Ein; [|case_match; [by eauto|done]].
      apply andb_true_iff in Ein as [?%Z.leb_le ?%Z.leb_le].
      specialize (Hseq b). rewrite Eb in Hseq. simpl in Hseq.
      assert (Hin : In b (seqZ lo (hi - lo + 1))) by (apply list_elem_of_In, elem_of_seqZ; lia).
      specialize (Hseq Hin). case_match; [by eauto|done]. }
  destruct Htr as (trans & Htr & Hok). exists trans, s1. split_and!; [|done|done].
  unfold after. cbn [exec]. rewrite Hc, Hacts, bind_Ok, Hr, bind_Ok, Hp1, Hb, bind_Ok, Hc1, Hc, Hnext.
  apply (for_indicies T F HF) in Htr as ->. done.
Qed.

Notation is_ref t := (bool_decide (is_Some (value t))).

(** Going on at the end of the text, or by induction before it. *)
Lemma enters_sound t c set last d fuel text s trans o :
  decode F trans = Some (c, o) -> o = None \/ o = Some set_te ->
  enters F (sim F) t c set (fst <$> last) = true ->
  (forall s', same_but_ts (Scanner c (ts s) (match o with None => te s | Some _ => Some (p s + 1) end)
                (act s) (p s + 1) (output s)) s' -> knows (is_ref t) set last (S d) s') ->
  p s = Z.of_nat d -> (0 < fuel)%nat ->
  (forall s', cs s' = c -> knows (is_ref t) set last (S d) s' -> sim F t c set (fst <$> last) = true ->
     (S d < length text)%nat ->
     exists s'', exec T fuel text None s' = Ok (Some s'') /\ reports s'' (walk t (S d) last (drop (S d) text))) ->
  (S d <= length text)%nat ->
  exists s', after fuel text trans s = Ok (Some s') /\ reports s' (walk t (S d) last (drop (S d) text)).
Proof.
  intros E Ho Hent Hknows Hp Hfuel IH Hd. unfold enters in Hent. rewrite !andb_true_iff in Hent.
  destruct Hent as (((Hc & Hq) & Heof) & Hsim). apply negb_true_iff, Z.eqb_neq in Hc.
  destruct (after_goes_on trans c o fuel text s E Ho Hc Hq) as (s1 & -> & Hc1 & Hp1 & Ho1 & Ht1).
  assert (Hk : knows (is_ref t) set last (S d) s1) by (apply Hknows; unfold same_but_ts; simpl; auto).
  unfold goes_on. destruct (Z.eqb_spec (p s1) (Z.of_nat (length text))) as [Hend|Hend]; simpl.
  2:{ apply IH; [done|done|done|lia]. }
  rewrite drop_ge by lia. cbn [walk]. unfold eof_ok in Heof. rewrite Hc1.
  destruct (get (f_eof F) c) as [e|] eqn:Ee; [|done]. apply (for_eof T F HF) in Ee as ->. rewrite bind_Ok.
  destruct last as [[l n]|]; simpl in Heof; apply andb_true_iff in Heof as [He Hf].
  - rewrite He. destruct fuel as [|fuel]; [lia|]. by eapply (fails_sound _ _ (Some (l, n))).
  - apply Z.eqb_eq in He as ->. simpl. exists s1. split; [done|]. simpl. rewrite Hc1. by apply Z.ltb_lt.
Qed.

Lemma exec_sound text : Forall is_u8 text -> forall n t c set last d s fuel,
  n = (length text - d)%nat -> (d < length text)%nat -> (n + 1 <= fuel)%nat ->
  sim F t c set (fst <$> last) = true -> cs s = c -> knows (is_ref t) set last d s ->
  exists s', exec T fuel text None s = Ok (Some s') /\ reports s' (walk t d last (drop d text)).
Proof.
  intros Hu8. induction n as [n IH] using lt_wf_ind; intros t c set last d s fuel Hn Hd Hfuel Hsim Hc Hk.
  destruct (lookup_lt_is_Some_2 text d Hd) as [b Hb]. rewrite (drop_S _ _ _ Hb). cbn [walk].
  destruct fuel as [|fuel]; [lia|]. pose proof Hk as (Hp & Hout & Hlast).
  destruct (resume_trans t c set (fst <$> last) b text s fuel Hsim Hc) as (trans & s1 & -> & Hs1 & Hok).
  { unfold tab, load. rewrite Hp. rewrite (proj2 (Z.leb_le 0 _)) by lia. by rewrite Nat2Z.id, Hb. }
  { by eapply Forall_lookup_1. }
  destruct Hs1 as (Hc1 & Ht1 & Hp1 & Ho1).
  assert (Hk1 : knows (is_ref t) set last d s1) by (split_and!; [congruence..|]; by rewrite Ht1).
  destruct (assoc b (kids t)) as [t'|]; [|by eapply fails_sound].
  unfold child_ok in Hok. destruct (decode F trans) as [[c' o]|] eqn:E; [|done].
  assert (Hgo : forall set' last', o = None \/ o = Some set_te ->
    enters F (sim F) t' c' set' (fst <$> last') = true ->
    (forall l n, last' = Some (l, n) -> (is_ref t' = true -> n = S d) /\
      (set' = true -> match o with None => te s1 | Some _ => Some (p s1 + 1) end = Some (Z.of_nat n))) ->
    exists s', after fuel text trans s1 = Ok (Some s') /\ reports s' (walk t' (S d) last' (drop (S d) text))).
  { intros set' last' Ho Hent Hl. destruct Hk1 as (Hp2 & Ho2 & _).
    eapply enters_sound; [done|done|done| |done|lia| |lia].
    - intros s' (_ & Ht' & Hp' & Ho'). simpl in *. split_and!; [lia|congruence|]. rewrite Ht'. exact Hl.
    - intros s' Hc' Hk' Hsim' Hd'. eapply IH; [|done|done| |done|done|done]; lia. }
  destruct (value t') as [v|] eqn:Ev; destruct o as [[| | |f o|f o|f o]|]; try done.
  - apply (Hgo true (Some (v, S d))); [by right|done|]. intros ?? [= <- <-]. split; [done|]. intros _. f_equal. lia.
  - destruct (kids t') eqn:Ek; [|done]. apply andb_true_iff in Hok as [Hf Hs].
    unfold after. cbn [exec]. rewrite bind_Ok, (decode_sound _ _ _ _ E). simpl. eexists. split; [done|].
    destruct (drop (S d) text); simpl; rewrite ?Ek; simpl; (split_and!; [by apply Z.leb_le| |f_equal; lia]);
      rewrite Ho1, Hout; by apply same_cp_true.
  - apply (Hgo false (Some (v, S d))); [by left|done|]. intros ?? [= <- <-]. done.
  - apply (Hgo set last); [by left|done|]. intros l m Hl. split; [by intros [? ?]%bool_decide_eq_true|]. intros Hset. rewrite Ht1. by apply (Hlast l m Hl).
Qed.
End sound.

(** The checker: the machine finds the longest name of the list. *)
Lemma check_sound T refs text :
  check T refs = true -> Forall is_u8 text -> text <> [] ->
  exists s, scan T text = Ok (Some s) /\ reports s (walk (trie_of refs) 0 None text).
Proof.
  unfold check. intros [Hv%bool_decide_eq_true Hsim]%andb_true_iff Hu8 Hne.
  assert (0 < length text)%nat by (destruct text; simpl; [done|lia]).
  unfold scan. cbn [p cs]. rewrite (proj2 (Z.eqb_neq 0 _)) by lia. rewrite (proj2 (Z.eqb_neq char_ref_start 0)) by done.
  eapply (exec_sound T _ (fasten_for T) text Hu8 _ _ _ _ None 0); [done|done|lia|exact Hsim|done|].
  by split_and!.
Qed.

(** * The scanner of char_ref.c *)

Lemma char_ref_check : check char_ref valid_named_ref = true.
Proof. vm_compute. reflexivity. Qed.

Lemma valid_named_ref_root : trie_get (trie_of valid_named_ref) [] = None.
Proof. vm_compute. reflexivity. Qed.

(** The names begin with a letter or a digit and stand for a character. *)
Lemma valid_named_ref_shape :
  Forall (fun e : list Z * OneOrTwoCodepoints =>
    match e.1 with c :: _ => isalnum c = true | [] => False end /\ first e.2 <> -1) valid_named_ref.
Proof.
  apply (Forall_impl (fun e => match e.1 with c :: _ => isalnum c && negb (first e.2 =? -1) | [] => false end = true)).
  - by_decide.
  - intros [[|c name] cp]; simpl; [done|]. intros [? ?%negb_true_iff%Z.eqb_neq]%andb_true_iff. done.
Qed.

(** Each name occurs once. *)
Definition has_all (t : trie) (refs : list (list Z * OneOrTwoCodepoints)) : bool :=
  forallb (fun e => bool_decide (trie_get t e.1 = Some e.2)) refs.

Lemma has_all_get t refs name cp : has_all t refs = true -> (name, cp) ∈ refs -> trie_get t name = Some cp.
Proof.
  unfold has_all. rewrite forallb_forall. intros H Hin%list_elem_of_In.
  specialize (H _ Hin). by apply bool_decide_eq_true in H.
Qed.

Lemma valid_named_ref_has_all : has_all (trie_of valid_named_ref) valid_named_ref = true.
Proof. vm_compute. reflexivity. Qed.

Lemma valid_named_ref_unique name cp :
  (name, cp) ∈ valid_named_ref -> trie_get (trie_of valid_named_ref) name = Some cp.
Proof. exact (has_all_get _ _ name cp valid_named_ref_has_all). Qed.

Lemma scan_named_nil : scan_named [] = None.
Proof. vm_compute. reflexivity. Qed.

#[local] Opaque valid_named_ref char_ref.

(** C26: the generated scanner finds the longest named reference.  On every text of
    bytes that is not empty the machine of char_ref.c, run over its tables, ends
    within its fuel and stays within the tables and the text; it ends in a final state
    exactly if some reference of the grammar is a prefix of the text, and then [te]
    points behind the longest one and the output holds its code points. *)
Theorem scan_longest_ref (text : list Z) (Hu8 : Forall is_u8 text) (Hne : text <> []) :
  exists s, scan char_ref text = Ok (Some s) /\
    ((first_final <= cs s /\ exists name, longest_ref valid_named_ref text name (output s) /\
        te s = Some (Z.of_nat (length name))) \/
     (cs s < first_final /\ forall name cp, (name, cp) ∈ valid_named_ref -> ~ name `prefix_of` text)).
Proof.
  destruct (check_sound char_ref valid_named_ref text char_ref_check Hu8 Hne) as (s & Hs & Hr).
  exists s. split; [done|]. pose proof (walk_longest valid_named_ref text valid_named_ref_root) as Hw.
  destruct (walk _ _ _ _) as [[cp n]|]; simpl in Hr.
  - left. destruct Hr as (? & -> & ->), Hw as (name & Hname & ->). eauto.
  - by right.
Qed.

(** The text after the ampersand of "&notit;". *)
Lemma scan_longest_ref_witness :
  exists s, scan char_ref (Tags.bytes_of "notit;") = Ok (Some s) /\
    ((first_final <= cs s /\ exists name, longest_ref valid_named_ref (Tags.bytes_of "notit;") name (output s) /\
        te s = Some (Z.of_nat (length name))) \/
     (cs s < first_final /\ forall name cp, (name, cp) ∈ valid_named_ref -> ~ name `prefix_of` Tags.bytes_of "notit;")).
Proof. apply (scan_longest_ref (Tags.bytes_of "notit;")); [by_decide|done]. Defined.

Lemma scan_named_walk text :
  Forall is_u8 text -> text <> [] -> scan_named text = walk (trie_of valid_named_ref) 0 None text.
Proof.
  intros Hu8 Hne. unfold scan_named.
  destruct (check_sound char_ref valid_named_ref text char_ref_check Hu8 Hne) as (s & -> & Hr).
  destruct (walk _ _ _ _) as [[cp n]|]; simpl in Hr.
  - destruct Hr as (Hc & -> & ->). rewrite (proj2 (Z.leb_le _ _) Hc). by rewrite Nat2Z.id.
  - rewrite (proj2 (Z.leb_gt _ _)) by done. done.
Qed.

(** ** What the lexer relies on *)

Lemma bind_ext {A B} (m m' : outcome A) (f g : A -> outcome B) :
  m = m' -> (forall a, f a = g a) -> m ≫= f = m' ≫= g.
Proof. intros -> Hfg. destruct m'; simpl; auto. Qed.

Lemma tab_u8 {B} text i (f : Z -> outcome B) :
  (forall c, f (u8 c) = f c) -> tab (map u8 text) i ≫= f = tab text i ≫= f.
Proof.
  intros Hf. unfold tab, load. destruct (0 <=? i); [|done]. rewrite list_lookup_fmap.
  by destruct (text !! Z.to_nat i); simpl.
Qed.

(** The machine sees the bytes of the text. *)
Lemma exec_u8 T fuel text given s : exec T fuel (map u8 text) given s = exec T fuel text given s.
Proof.
  revert given s. induction fuel as [|fuel IH]; intros given s; [done|]. cbn [exec]. rewrite length_map.
  apply bind_ext.
  - destruct given; [done|]. apply bind_ext; [done|]. intros acts. apply bind_ext; [done|]. intros [s1 _].
    apply tab_u8. intros c. replace (schar (u8 c)) with (schar c); [done|]. unfold schar, u8. by rewrite Zplus_mod_idemp_l.
  - intros [s1 trans]. apply bind_ext; [done|]. intros [s2 []]; [done|]. apply bind_ext; [done|]. intros acts.
    apply bind_ext; [done|]. intros [s3 _]. repeat case_match; rewrite ?IH; try done.
    apply bind_ext; [done|]. intros e. case_match; [by rewrite IH|done].
Qed.

Lemma scan_u8 T text : scan T (map u8 text) = scan T text.
Proof.
  unfold scan. rewrite length_map. repeat case_match; rewrite ?exec_u8; try done.
  apply bind_ext; [done|]. intros e. case_match; [by rewrite exec_u8|done].
Qed.

Lemma u8_bytes text : Forall is_u8 (map u8 text).
Proof. apply Forall_fmap, Forall_true. intros x. unfold compose. zlia. Qed.

#[export] Instance scan_named_ok : ScansNamedRefs scan_named.
Proof.
  intros bs out len. unfold scan_named. rewrite <- scan_u8. fold (scan_named (map u8 bs)).
  destruct bs as [|b bs]; [cbn [map]; by rewrite scan_named_nil|].
  rewrite scan_named_walk; [|apply u8_bytes|done].
  pose proof (walk_longest valid_named_ref (map u8 (b :: bs)) valid_named_ref_root) as Hw.
  intros E. rewrite E in Hw. clear E. destruct Hw as (name & (Hin & Hp & _) & ->).
  pose proof (proj1 (Forall_forall _ _) valid_named_ref_shape _ Hin) as [Hname Hfirst]. clear Hin. simpl in *.
  apply prefix_length in Hp. simpl in Hp. rewrite length_map in Hp. split; [|done].
  destruct name; [done|simpl in *; lia].
Qed.

Lemma longest_ref_scan text name cp :
  Forall is_u8 text -> longest_ref valid_named_ref text name cp -> scan_named text = Some (cp, length name).
Proof.
  intros Hu8 (Hin & Hp & Hmax).
  destruct text as [|b text].
  { apply prefix_nil_inv in Hp as ->. by apply (proj1 (Forall_forall _ _) valid_named_ref_shape) in Hin as [? _]. }
  rewrite scan_named_walk by done.
  pose proof (walk_longest valid_named_ref (b :: text) valid_named_ref_root) as Hw.
  destruct (walk _ _ _ _) as [[cp' n]|]; [|by destruct (Hw name cp)].
  destruct Hw as (name' & (Hin' & Hp' & Hmax') & ->).
  assert (name' = name) as ->.
  { specialize (Hmax _ _ Hin' Hp'). specialize (Hmax' _ _ Hin Hp).
    destruct Hp as [r1 E1], Hp' as [r2 E2]. rewrite E2 in E1. apply app_inj_1 in E1 as [-> _]; [done|lia]. }
  apply valid_named_ref_unique in Hin, Hin'. congruence.
Qed.

(** * Named references in a text *)

(** The generated code in the function it is part of. *)
Definition consume_named_ref (it : Utf8Iterator) (is_in_attribute : bool)
  : outcome (option (Utf8Iterator * OneOrTwoCodepoints * bool)) :=
  r ← scan char_ref (drop (utf8iterator_get_char_pointer it) (source it));
  match r with
  | None => Ok None
  | Some s =>
      if first_final <=? cs s then
        _ ← c_assert (negb (first (output s) =? kGumboNoChar));
        t ← of_option (te s);
        CharRef.consume_named_ref (fun _ => Some (output s, Z.to_nat t)) it is_in_attribute
      else CharRef.consume_named_ref (fun _ => None) it is_in_attribute
  end.

(** A reference that is followed by a letter, a digit or an equals sign. *)
Definition in_word (c : option Z) : bool :=
  match c with Some c => (c =? 61) || isalnum c | None => false end.

Lemma prefix_take name (text : list Z) : name `prefix_of` text -> take (length name) text = name.
Proof. intros [r ->]. apply take_app_length. Qed.

(** The first character of a name is read as it is. *)
Lemma named_ref_start it rest name cp :
  at_byte it 38 rest -> longest_ref valid_named_ref rest name cp ->
  exists it1 c, utf8iterator_next (utf8iterator_mark it) = Ok it1 /\ isalnum c = true /\ head rest = Some c /\
    current it1 = c /\ it_ok it1 /\ moved (utf8iterator_mark it) it1 /\
    source it1 = source it /\ drop (start it1) (source it1) = rest.
Proof.
  intros Hat (Hin & Hp & _). pose proof (proj1 (Forall_forall _ _) valid_named_ref_shape _ Hin) as [Hc _].
  destruct name as [|c name]; [done|]. simpl in Hc. clear Hin. destruct Hp as [r ->].
  assert (Hat' : at_byte (utf8iterator_mark it) 38 (c :: (name ++ r))) by exact Hat.
  destruct (next_printable _ 38 c (name ++ r) Hat') as (it1 & E1 & Hat1 & Hs1).
  { unfold printable, isalnum in *. lia. }
  destruct (next_ok (utf8iterator_mark it) (at_byte_ok _ _ _ Hat')) as (it1' & E1' & Hm & _).
  rewrite E1 in E1'. injection E1' as <-.
  exists it1, c. split_and!; try done; [apply Hat1|by eapply at_byte_ok|apply Hat1].
Qed.

(** Past the ampersand of a named reference, the code around the scanner takes over. *)
Lemma consume_char_ref_named it rest name cp extra attr it1 c :
  utf8iterator_next (utf8iterator_mark it) = Ok it1 -> isalnum c = true -> head rest = Some c ->
  current it1 = c -> head rest <> Some extra -> Forall is_u8 rest -> drop (start it1) (source it1) = rest ->
  longest_ref valid_named_ref rest name cp ->
  consume_char_ref scan_named it extra attr =
    CharRef.consume_named_ref (fun _ => Some (cp, length name)) it1 attr.
Proof.
  intros E1 Hc Hh Hcur Hex Hu8 Hd Href. unfold consume_char_ref. rewrite E1, bind_Ok. unfold utf8iterator_current.
  rewrite Hcur. assert (Hx : c <> extra) by congruence. rewrite (proj2 (Z.eqb_neq _ _) Hx).
  unfold isalnum in Hc.
  destruct (_ || (c =? -1)) eqn:Ew; [lia|]. rewrite (proj2 (Z.eqb_neq c 35)) by lia.
  unfold CharRef.consume_named_ref, utf8iterator_get_char_pointer. rewrite Hd.
  by rewrite (longest_ref_scan rest name cp Hu8 Href).
Qed.

(** The function with the generated code is the one the rest of the development uses. *)
Lemma consume_named_ref_scan it attr :
  Forall is_u8 (source it) -> (start it < length (source it))%nat ->
  consume_named_ref it attr = CharRef.consume_named_ref scan_named it attr.
Proof.
  intros Hu8 Hlt. unfold consume_named_ref, utf8iterator_get_char_pointer. set (text := drop _ _).
  assert (Hne : text <> []) by (intros E; apply (f_equal length) in E; unfold text in E; rewrite length_drop in E; simpl in E; lia).
  assert (Ht8 : Forall is_u8 text) by (by apply Forall_drop).
  assert (Hext : CharRef.consume_named_ref scan_named it attr =
    CharRef.consume_named_ref (fun _ => walk (trie_of valid_named_ref) 0 None text) it attr).
  { unfold CharRef.consume_named_ref, utf8iterator_get_char_pointer. fold text. by rewrite scan_named_walk. }
  rewrite Hext. clear Hext. destruct (check_sound char_ref valid_named_ref text char_ref_check Ht8 Hne) as (s & -> & Hr).
  pose proof (walk_longest valid_named_ref text valid_named_ref_root) as Hw. rewrite bind_Ok.
  destruct (walk _ _ _ _) as [[cp n]|]; simpl in Hr.
  - destruct Hr as (Hc & -> & ->), Hw as (name & (Hin & _) & ->). rewrite (proj2 (Z.leb_le _ _) Hc).
    pose proof (proj1 (Forall_forall _ _) valid_named_ref_shape _ Hin) as [_ Hfirst]. clear Hin. simpl in Hfirst.
    rewrite (proj2 (Z.eqb_neq (first cp) kGumboNoChar) Hfirst). cbn [negb c_assert of_option].
    by rewrite !bind_Ok, Nat2Z.id.
  - rewrite (proj2 (Z.leb_gt _ _)) by done. done.
Qed.

(** The name as the bytes from the cursor. *)
Lemma consume_name it name rest :
  it_ok it -> drop (start it) (source it) = rest -> name `prefix_of` rest ->
  exists it', next_n (length name) it = Ok it' /\ utf8iterator_maybe_consume_match it name true = Ok (it', true).
Proof.
  intros Hok Hd Hp. destruct (next_n_ok (length name) it Hok) as (it' & Hn & _). exists it'. split; [done|].
  unfold utf8iterator_maybe_consume_match. rewrite Hd, (prefix_take _ _ Hp), bool_decide_true by done.
  apply prefix_length in Hp. rewrite <- Hd, length_drop in Hp.
  destruct (Nat.leb_spec (start it + length name) (length (source it))); [by rewrite Hn|].
  assert (Hz : length name = 0%nat) by lia. exfalso. destruct Hok as (_ & _ & [(_ & _ & ?)|(_ & _ & ?)] & _); lia.
Qed.

Lemma named_error_frame it type name :
  start (add_named_reference_error it type name) = start it /\
  source (add_named_reference_error it type name) = source it.
Proof. unfold add_named_reference_error, error_at_mark, gumbo_add_error. by case_match. Qed.

Lemma load_drop {A} (l : list A) n i : load l (n + i) = load (drop n l) i.
Proof. unfold load. by rewrite lookup_drop. Qed.

Lemma load_name_last (name rest : list Z) :
  name `prefix_of` rest -> name <> [] -> load rest (length name - 1) = of_option (last name).
Proof.
  intros [r ->] Hne. unfold load. rewrite lookup_app_l by (destruct name; simpl; [done|lia]).
  by rewrite last_lookup, Nat.sub_1_r.
Qed.

(** C27: a named character reference in a text is read as the HTML standard says, with
    the scanner of char_ref.c: the longest name counts; one that ends in a semicolon
    gives its code points and is consumed; one without is a parse error that gives its
    code points too, unless it is inside of an attribute and a letter, a digit or an
    equals sign follows, when the ampersand is text and the iterator is back on it.
    Inside of an attribute at the very end of the input the byte behind the input is
    read. *)
Theorem named_char_ref_spec (it : Utf8Iterator) (rest name : list Z) (cp : OneOrTwoCodepoints) (extra : Z) (attr : bool)
  (Hat : at_byte it 38 rest) (Href : longest_ref valid_named_ref rest name cp) (Hextra : head rest <> Some extra) :
  let r := consume_char_ref scan_named it extra attr in
  let next := rest !! length name in
  exists it1, utf8iterator_next (utf8iterator_mark it) = Ok it1 /\
  if bool_decide (last name = Some 59) then
    exists it', next_n (length name) it1 = Ok it' /\ r = Ok (Some (it', cp, true))
  else if attr && bool_decide (next = None) then r = Undef
  else if attr && in_word next then
    exists it', at_byte it' 38 rest /\ start it' = start it /\
      r = Ok (Some (it', Codepoints kGumboNoChar kGumboNoChar, true))
  else
    exists it', next_n (length name)
        (add_named_reference_error it1 GUMBO_ERR_NAMED_CHAR_REF_WITHOUT_SEMICOLON name) = Ok it' /\
      r = Ok (Some (it', cp, false)).
Proof.
  destruct (named_ref_start it rest name cp Hat Href) as (it1 & c & E1 & Hc & Hh & Hcur & Hok & Hm & Hs & Hd).
  intros r next. exists it1. split; [done|].
  assert (Hr : r = CharRef.consume_named_ref (fun _ => Some (cp, length name)) it1 attr).
  { eapply consume_char_ref_named; try done. rewrite <- Hd, Hs. apply Forall_drop, Hat. }
  clearbody r. subst r. clear E1 Hcur Hextra. destruct Href as (Hin & Hp & _).
  pose proof (proj1 (Forall_forall _ _) valid_named_ref_shape _ Hin) as [Hname Hfirst]. clear Hin. simpl in Hname, Hfirst.
  unfold CharRef.consume_named_ref, utf8iterator_get_char_pointer. rewrite Hd, (prefix_take _ _ Hp).
  rewrite (proj2 (Z.eqb_neq (first cp) kGumboNoChar) Hfirst). cbn [negb c_assert]. rewrite bind_Ok.
  rewrite <- Nat.add_sub_assoc by (destruct name; simpl; [done|lia]). rewrite !load_drop, Hd.
  rewrite (load_name_last name rest Hp) by (by destruct name). fold next. destruct (last name) as [b|] eqn:El.
  2:{ by apply last_None in El as ->. }
  simpl of_option. rewrite bind_Ok. destruct (Z.eqb_spec b 59) as [->|Hb].
  { rewrite bool_decide_true by done. destruct (consume_name it1 name rest Hok Hd Hp) as (it' & Hn & ->). by exists it'. }
  rewrite bool_decide_false by congruence.
  set (it2 := add_named_reference_error it1 _ name).
  assert (H2 : start it2 = start it1 /\ source it2 = source it1) by apply named_error_frame.
  assert (Hok2 : it_ok it2) by (apply (gumbo_add_error_moved it1 it1), moved_refl, Hok).
  destruct (consume_name it2 name rest Hok2) as (it' & Hn & Hmatch); [by rewrite (proj1 H2), (proj2 H2)|done|].
  assert (Hno : exists it', next_n (length name) it2 = Ok it' /\
    ('(it, matched) ← utf8iterator_maybe_consume_match it2 name true;
     _ ← c_assert matched; Ok (Some (it, cp, false))) = Ok (Some (it', cp, false))).
  { exists it'. by rewrite Hmatch. }
  destruct attr; cbn [andb]; [|exact Hno]. unfold load. fold next. destruct next as [c'|]; simpl; [|done].
  destruct ((c' =? 61) || isalnum c'); [|exact Hno].
  destruct (reset_ok it it1 38 rest Hat ltac:(done) Hm) as (it3 & -> & Hat3 & _ & Hst). by exists it3.
Qed.

(** [&copy;] in an attribute. *)
Lemma named_char_ref_spec_witness :
  exists it1, utf8iterator_next (utf8iterator_mark (sample (38 :: Tags.bytes_of "copy;"))) = Ok it1 /\
    exists it', next_n 5 it1 = Ok it' /\
      consume_char_ref scan_named (sample (38 :: Tags.bytes_of "copy;")) (-1) true =
      Ok (Some (it', Codepoints 0xa9 (-1), true)).
Proof.
  destruct (named_char_ref_spec (sample (38 :: Tags.bytes_of "copy;")) (Tags.bytes_of "copy;")
    (Tags.bytes_of "copy;") (Codepoints 0xa9 (-1)) (-1) true) as (it1 & E1 & it' & En & Er).
  - apply sample_at. by_decide.
  - split_and!.
    + by_decide.
    + done.
    + intros name' _ _ Hp. by apply prefix_length.
  - done.
  - exists it1. split; [exact E1|]. exists it'. split; [exact En|exact Er].
Defined.
End CharRefScan.
