(* ===== verification/GumboErrors.v ===== *)
(** gumbo-parser/src/error.c: the messages of the error list and the caret
    diagnostic, with util.c's string copy.

    [vsnprintf] of the C library writes a text whose formatting is given here for
    the directives that the file uses; the argument of a [%d] or [%x] is read as 32
    bits, also where the code passes 64.  The source text is the C string
    [src ++ [0]]; pointers into it are offsets. *)
From Stdlib Require Import Strings.String.
From S2P Require Import Prelude GumboTags GumboBase Utf8.
Import GumboBase Utf8.

Module GumboErrors.

(** * Formatting *)
Definition digit_char (d : Z) : Z := if d <? 10 then 48 + d else 87 + d.

Fixpoint digits (fuel : nat) (b n : Z) (acc : list Z) : list Z :=
  match fuel with
  | O => acc
  | S fuel =>
      let acc := digit_char (n mod b) :: acc in
      if n / b =? 0 then acc else digits fuel b (n / b) acc
  end.

(** [%d] *)
Definition fmt_d (x : Z) : list Z :=
  let n := s32 x in if n <? 0 then 45 :: digits 10 10 (- n) [] else digits 10 10 n [].

(** [%x] *)
Definition fmt_x (x : Z) : list Z := digits 8 16 (u32 x) [].

(** [%s], and [%.*s] of a text of that length: up to a terminator. *)
Fixpoint fmt_s (s : list Z) : list Z :=
  match s with
  | [] => []
  | c :: s => if c =? 0 then [] else c :: fmt_s s
  end.

Definition txt (s : string) : list Z := Tags.bytes_of s.

Section with_junk.
Context (junk : nat -> Z).

(** [vsnprintf (mem + p, size, ...)] of a text. *)
Definition vsnprintf (mem : list Z) (p : nat) (size : Z) (msg : list Z) : outcome (list Z) :=
  if size =? 0 then Ok mem
  else store_range mem p (take (Z.to_nat (size - 1)) msg ++ [0]).

(** The buffer and the number of bytes written. *)
Definition print_message (msg : list Z) (output : GumboStringBuffer) : outcome (GumboStringBuffer * Z) :=
  let remaining_capacity := s32 (scapacity output - slength output) in
  d ← vsnprintf (sdata output) (Z.to_nat (slength output)) (u64 remaining_capacity) msg;
  let output := SB d (slength output) (scapacity output) in
  let bytes_written := Z.of_nat (length msg) in
  output ←
    (if remaining_capacity <=? bytes_written then
       output ← gumbo_string_buffer_reserve junk (u64 (scapacity output + bytes_written)) output;
       let remaining_capacity := s32 (scapacity output - slength output) in
       d ← vsnprintf (sdata output) (Z.to_nat (slength output)) (u64 remaining_capacity) msg;
       Ok (SB d (slength output) (scapacity output))
     else Ok output);
  Ok (SB (sdata output) (u64 (slength output + bytes_written)) (scapacity output), bytes_written).

Definition print (msg : list Z) (output : GumboStringBuffer) : outcome GumboStringBuffer :=
  '(output, _) ← print_message msg output; Ok output.

(** The loop of [print_tag_stack]; [i] tells whether a tag was printed. *)
Fixpoint print_tags (i : bool) (tags : list Tags.GumboTag) (output : GumboStringBuffer) : outcome GumboStringBuffer :=
  match tags with
  | [] => Ok output
  | tag :: tags =>
      output ← (if i then print (txt ", ") output else Ok output);
      name ← Tags.gumbo_normalized_tagname tag;
      output ← print name output;
      print_tags true tags output
  end.

Definition print_tag_stack (error : GumboParserError) (output : GumboStringBuffer) : outcome GumboStringBuffer :=
  output ← print (txt "  Currently open tags: ") output;
  output ← print_tags false (tag_stack error) output;
  gumbo_string_buffer_append_codepoint junk 46 output.

Definition handle_parser_error (error : GumboParserError) (output : GumboStringBuffer) : outcome GumboStringBuffer :=
  if bool_decide (parser_state error = GUMBO_INSERTION_MODE_INITIAL) &&
     negb (bool_decide (input_type error = GUMBO_TOKEN_DOCTYPE)) then
    print (txt "The doctype must be the first token in the document") output
  else
    match input_type error with
    | GUMBO_TOKEN_DOCTYPE => print (txt "This is not a legal doctype") output
    | GUMBO_TOKEN_COMMENT => AssertFail
    | GUMBO_TOKEN_CDATA | GUMBO_TOKEN_WHITESPACE | GUMBO_TOKEN_CHARACTER =>
        print (txt "Character tokens aren't legal here") output
    | GUMBO_TOKEN_NULL => print (txt "Null bytes are not allowed in HTML5") output
    | GUMBO_TOKEN_EOF =>
        if bool_decide (parser_state error = GUMBO_INSERTION_MODE_INITIAL) then
          print (txt "You must provide a doctype") output
        else
          output ← print (txt "Premature end of file") output;
          print_tag_stack error output
    | GUMBO_TOKEN_START_TAG | GUMBO_TOKEN_END_TAG =>
        output ← print (txt "That tag isn't allowed here") output;
        print_tag_stack error output
    end.

(** Reading a member of the union that was not set is left undefined. *)
Definition v_codepoint (v : GumboErrorValue) : outcome Z :=
  match v with ErrCodepoint c => Ok c | _ => Undef end.
Definition v_text (v : GumboErrorValue) : outcome (list Z) :=
  match v with ErrText t => Ok t | _ => Undef end.
Definition v_duplicate_attr (v : GumboErrorValue) : outcome (list Z * Z * Z) :=
  match v with ErrDuplicateAttr n o i => Ok (n, o, i) | _ => Undef end.
Definition v_parser (v : GumboErrorValue) : outcome GumboParserError :=
  match v with ErrParser p => Ok p | _ => Undef end.

(** The [switch] of [gumbo_error_to_string]. *)
Definition print_error_body (error : GumboError) (output : GumboStringBuffer) : outcome GumboStringBuffer :=
  match etype error with
  | GUMBO_ERR_UTF8_INVALID =>
      c ← v_codepoint (ev error); print (txt "Invalid UTF8 character 0x" ++ fmt_x c) output
  | GUMBO_ERR_UTF8_TRUNCATED =>
      c ← v_codepoint (ev error);
      print (txt "Input stream ends with a truncated UTF8 character 0x" ++ fmt_x c) output
  | GUMBO_ERR_NUMERIC_CHAR_REF_NO_DIGITS =>
      print (txt "No digits after &# in numeric character reference") output
  | GUMBO_ERR_NUMERIC_CHAR_REF_WITHOUT_SEMICOLON =>
      c ← v_codepoint (ev error);
      print (txt "The numeric character reference &#" ++ fmt_d c ++
             txt " should be followed by a semicolon") output
  | GUMBO_ERR_NUMERIC_CHAR_REF_INVALID =>
      c ← v_codepoint (ev error);
      print (txt "The numeric character reference &#" ++ fmt_d c ++
             txt "; encodes an invalid unicode codepoint") output
  | GUMBO_ERR_NAMED_CHAR_REF_WITHOUT_SEMICOLON =>
      t ← v_text (ev error);
      print (txt "The named character reference &" ++ fmt_s t ++
             txt " should be followed by a semicolon") output
  | GUMBO_ERR_NAMED_CHAR_REF_INVALID =>
      t ← v_text (ev error);
      print (txt "The named character reference &" ++ fmt_s t ++
             txt "; is not a valid entity name") output
  | GUMBO_ERR_DUPLICATE_ATTR =>
      '(name, original_index, new_index) ← v_duplicate_attr (ev error);
      print (txt "Attribute " ++ fmt_s name ++ txt " occurs multiple times, at positions " ++
             fmt_d original_index ++ txt " and " ++ fmt_d new_index) output
  | GUMBO_ERR_PARSER | GUMBO_ERR_UNACKNOWLEDGED_SELF_CLOSING_TAG =>
      p ← v_parser (ev error); handle_parser_error p output
  | _ => print (txt "Tokenizer error with an unimplemented error message") output
  end.

Definition gumbo_error_to_string (error : GumboError) (output : GumboStringBuffer) : outcome GumboStringBuffer :=
  output ← print (txt "@" ++ fmt_d (line (eposition error)) ++ txt ":" ++
                  fmt_d (column (eposition error)) ++ txt ": ") output;
  output ← print_error_body error output;
  gumbo_string_buffer_append_codepoint junk 46 output.

(** * The caret diagnostic *)
Fixpoint find_last_newline_from (text : list Z) (error_location c : nat) : outcome nat :=
  match c with
  | O => Ok 0%nat
  | S c' =>
      x ← load text c;
      if x =? 10 then Ok (c + 1)%nat
      else
        _ ← c_assert (negb (x =? 0) || (c =? error_location)%nat);
        find_last_newline_from text error_location c'
  end.

Definition find_last_newline (text : list Z) (error_location : nat) : outcome nat :=
  find_last_newline_from text error_location error_location.

Fixpoint next_newline (suffix : list Z) (c : nat) : outcome nat :=
  match suffix with
  | [] => Undef
  | x :: suffix => if (x =? 0) || (x =? 10) then Ok c else next_newline suffix (S c)
  end.

Definition find_next_newline (text : list Z) (error_location : nat) : outcome nat :=
  next_newline (drop error_location text) error_location.

(** The characters of a string piece within [text]; [length] is a [size_t]. *)
Definition piece (text : list Z) (data : nat) (len : Z) : outcome (list Z) :=
  if Z.of_nat (length text) <? Z.of_nat data + len then Undef else load_range text data (Z.to_nat len).

Definition memset (mem : list Z) (p : nat) (c n : Z) : outcome (list Z) :=
  if Z.of_nat (length mem) <? Z.of_nat p + n then Undef else store_range mem p (replicate (Z.to_nat n) c).

Definition gumbo_caret_diagnostic_to_string (error : GumboError) (source_text : list Z)
  (output : GumboStringBuffer) : outcome GumboStringBuffer :=
  output ← gumbo_error_to_string error output;
  line_start ← find_last_newline source_text (eoriginal_text error);
  line_end ← find_next_newline source_text (eoriginal_text error);
  output ← gumbo_string_buffer_append_codepoint junk 10 output;
  original_line ← piece source_text line_start (u64 (Z.of_nat line_end - Z.of_nat line_start));
  output ← gumbo_string_buffer_append_string junk original_line output;
  output ← gumbo_string_buffer_append_codepoint junk 10 output;
  output ← gumbo_string_buffer_reserve junk (u64 (slength output + column (eposition error))) output;
  let num_spaces := s32 (column (eposition error) - 1) in
  d ← memset (sdata output) (Z.to_nat (slength output)) 32 (u64 num_spaces);
  let output := SB d (u64 (slength output + num_spaces)) (scapacity output) in
  output ← gumbo_string_buffer_append_codepoint junk 94 output;
  gumbo_string_buffer_append_codepoint junk 10 output.

(** What is printed. *)
Definition gumbo_print_caret_diagnostic (error : GumboError) (source_text : list Z) : outcome (list Z) :=
  text ← gumbo_caret_diagnostic_to_string error source_text (gumbo_string_buffer_init junk);
  Ok (fmt_s (take (Z.to_nat (s32 (slength text))) (sdata text))).

(** util.c, [gumbo_copy_stringz] of the string [str]. *)
Definition gumbo_copy_stringz (str : list Z) : outcome (list Z) :=
  store_range (gumbo_parser_allocate junk (length str + 1)) 0 (str ++ [0]).

(** * Printing appends *)

(** The buffer holds [l], with room for a terminator and not too much more. *)
Definition printed (b : GumboStringBuffer) (l : list Z) : Prop :=
  sb_ok b l /\ Z.of_nat (length l) < scapacity b <= 4 * Z.of_nat (length l) + 5.

Lemma sb_prefix d n c l x : sb_ok (SB d n c) (l ++ x) -> sb_ok (SB d (Z.of_nat (length l)) c) l.
Proof.
  intros (_ & Hc & Hd & Hat). split_and!; [done|apply Hc|apply Hc|done|by eapply at_off_weaken].
Qed.

Lemma vsnprintf_ok b l msg :
  sb_ok b l -> Z.of_nat (length l) < scapacity b < 2 ^ 31 ->
  exists d, vsnprintf (sdata b) (Z.to_nat (slength b)) (u64 (s32 (scapacity b - slength b))) msg = Ok d /\
    sb_ok (SB d (slength b) (scapacity b)) l /\
    (Z.of_nat (length l) + Z.of_nat (length msg) < scapacity b ->
     sb_ok (SB d (u64 (slength b + Z.of_nat (length msg))) (scapacity b)) (l ++ msg)).
Proof.
  intros Hb Hlt. pose proof (proj1 Hb) as Hl.
  assert (Hs : u64 (s32 (scapacity b - slength b)) = scapacity b - Z.of_nat (length l)) by zlia.
  unfold vsnprintf. rewrite Hs.
  replace (scapacity b - Z.of_nat (length l) =? 0) with false by (symmetry; apply Z.eqb_neq; lia).
  set (t := take _ msg). destruct (sb_write_ok b l (t ++ [0]) Hb) as (d & Hd & Hok).
  { unfold t. rewrite length_app, length_take. cbn [length]. lia. }
  exists d. split; [done|]. rewrite app_assoc in Hok. split.
  - rewrite <- app_assoc in Hok. apply sb_prefix in Hok. by rewrite Hl.
  - intros Hfit. assert (t = msg) as Ht by (apply take_ge; lia). rewrite Ht in Hok. apply sb_prefix in Hok.
    rewrite length_app in Hok.
    replace (u64 (slength b + Z.of_nat (length msg))) with (Z.of_nat (length l + length msg)); [done|].
    unfold u64. rewrite Z.mod_small; lia.
Qed.

Lemma print_ok b l msg :
  printed b l -> Z.of_nat (length l) + Z.of_nat (length msg) <= 2 ^ 28 ->
  exists b', print_message msg b = Ok (b', Z.of_nat (length msg)) /\ printed b' (l ++ msg).
Proof.
  intros [Hb Hcap] Hbig. pose proof (proj1 Hb) as Hl. unfold print_message.
  assert (H32 : s32 (scapacity b - slength b) = scapacity b - slength b) by zlia.
  destruct (vsnprintf_ok b l msg Hb ltac:(lia)) as (d & -> & Hok & Hfit). rewrite bind_Ok. cbn [scapacity slength sdata].
  rewrite H32. destruct (Z.leb_spec (scapacity b - slength b) (Z.of_nat (length msg))) as [Hge|Hlt].
  - unfold gumbo_string_buffer_reserve. cbn [slength].
    assert (Hreq : u64 (u64 (scapacity b + Z.of_nat (length msg)) - slength b) =
      scapacity b + Z.of_nat (length msg) - slength b) by (unfold u64; rewrite (Z.mod_small (_ + _)), Z.mod_small; lia).
    rewrite Hreq. destruct (resize_ok junk _ _ (scapacity b + Z.of_nat (length msg) - slength b) Hok)
      as (b1 & -> & Hb1 & Hc1 & Hc2); [lia|lia|]. rewrite bind_Ok. cbn [scapacity] in Hc2.
    destruct (vsnprintf_ok b1 l msg Hb1 ltac:(lia)) as (d1 & -> & _ & Hfit1). rewrite !bind_Ok. cbn [scapacity slength sdata].
    eexists. split; [done|]. split; [apply Hfit1; lia|]. cbn [scapacity]. rewrite length_app. lia.
  - rewrite bind_Ok. cbn [sdata slength scapacity]. eexists. split; [done|]. split; [apply Hfit; lia|].
    cbn [scapacity]. rewrite length_app. lia.
Qed.

Lemma print_ok' b l msg :
  printed b l -> Z.of_nat (length (l ++ msg)) <= 2 ^ 28 ->
  exists b', print msg b = Ok b' /\ printed b' (l ++ msg).
Proof.
  intros Hb Hbig. rewrite length_app in Hbig. destruct (print_ok b l msg Hb ltac:(lia)) as (b' & H & Hb').
  exists b'. unfold print. by rewrite H.
Qed.

(** * The messages *)
Definition tag_text (t : Tags.GumboTag) : list Z := nth (Tags.tag_index t) Tags.kGumboTagNames [].

Fixpoint tags_text (i : bool) (tags : list Tags.GumboTag) : list Z :=
  match tags with
  | [] => []
  | t :: tags => (if i then txt ", " else []) ++ tag_text t ++ tags_text true tags
  end.

Definition stack_text (tags : list Tags.GumboTag) : list Z :=
  txt "  Currently open tags: " ++ tags_text false tags ++ txt ".".

(** What a parse error says; a comment is always legal. *)
Definition parser_text (p : GumboParserError) : option (list Z) :=
  match parser_state p, input_type p with
  | GUMBO_INSERTION_MODE_INITIAL, GUMBO_TOKEN_DOCTYPE => Some (txt "This is not a legal doctype")
  | GUMBO_INSERTION_MODE_INITIAL, _ => Some (txt "The doctype must be the first token in the document")
  | _, GUMBO_TOKEN_DOCTYPE => Some (txt "This is not a legal doctype")
  | _, GUMBO_TOKEN_COMMENT => None
  | _, (GUMBO_TOKEN_CDATA | GUMBO_TOKEN_WHITESPACE | GUMBO_TOKEN_CHARACTER) =>
      Some (txt "Character tokens aren't legal here")
  | _, GUMBO_TOKEN_NULL => Some (txt "Null bytes are not allowed in HTML5")
  | _, GUMBO_TOKEN_EOF => Some (txt "Premature end of file" ++ stack_text (tag_stack p))
  | _, (GUMBO_TOKEN_START_TAG | GUMBO_TOKEN_END_TAG) =>
      Some (txt "That tag isn't allowed here" ++ stack_text (tag_stack p))
  end.

(** What an error says, by its type and the data that belongs to the type. *)
Definition error_body (e : GumboError) : option (list Z) :=
  match etype e, ev e with
  | GUMBO_ERR_UTF8_INVALID, ErrCodepoint c => Some (txt "Invalid UTF8 character 0x" ++ fmt_x c)
  | GUMBO_ERR_UTF8_TRUNCATED, ErrCodepoint c =>
      Some (txt "Input stream ends with a truncated UTF8 character 0x" ++ fmt_x c)
  | GUMBO_ERR_NUMERIC_CHAR_REF_NO_DIGITS, _ => Some (txt "No digits after &# in numeric character reference")
  | GUMBO_ERR_NUMERIC_CHAR_REF_WITHOUT_SEMICOLON, ErrCodepoint c =>
      Some (txt "The numeric character reference &#" ++ fmt_d c ++ txt " should be followed by a semicolon")
  | GUMBO_ERR_NUMERIC_CHAR_REF_INVALID, ErrCodepoint c =>
      Some (txt "The numeric character reference &#" ++ fmt_d c ++ txt "; encodes an invalid unicode codepoint")
  | GUMBO_ERR_NAMED_CHAR_REF_WITHOUT_SEMICOLON, ErrText t =>
      Some (txt "The named character reference &" ++ fmt_s t ++ txt " should be followed by a semicolon")
  | GUMBO_ERR_NAMED_CHAR_REF_INVALID, ErrText t =>
      Some (txt "The named character reference &" ++ fmt_s t ++ txt "; is not a valid entity name")
  | GUMBO_ERR_DUPLICATE_ATTR, ErrDuplicateAttr n o i =>
      Some (txt "Attribute " ++ fmt_s n ++ txt " occurs multiple times, at positions " ++ fmt_d o ++
            txt " and " ++ fmt_d i)
  | (GUMBO_ERR_PARSER | GUMBO_ERR_UNACKNOWLEDGED_SELF_CLOSING_TAG), ErrParser p => parser_text p
  | (GUMBO_ERR_UTF8_INVALID | GUMBO_ERR_UTF8_TRUNCATED | GUMBO_ERR_NUMERIC_CHAR_REF_WITHOUT_SEMICOLON
     | GUMBO_ERR_NUMERIC_CHAR_REF_INVALID | GUMBO_ERR_NAMED_CHAR_REF_WITHOUT_SEMICOLON
     | GUMBO_ERR_NAMED_CHAR_REF_INVALID | GUMBO_ERR_DUPLICATE_ATTR | GUMBO_ERR_PARSER
     | GUMBO_ERR_UNACKNOWLEDGED_SELF_CLOSING_TAG), _ => None
  | _, _ => Some (txt "Tokenizer error with an unimplemented error message")
  end.

Definition position_text (p : GumboSourcePosition) : list Z :=
  txt "@" ++ fmt_d (line p) ++ txt ":" ++ fmt_d (column p) ++ txt ": ".

(** The whole message. *)
Definition error_text (e : GumboError) : option (list Z) :=
  body ← error_body e; Some (position_text (eposition e) ++ body ++ txt ".").

Lemma normalized_tagname_ok t : Tags.gumbo_normalized_tagname t = Ok (tag_text t).
Proof.
  assert (H : Forall (fun t => match Tags.gumbo_normalized_tagname t with Ok x => bool_decide (x = tag_text t) | _ => false end = true)
    Tags.all_tags) by by_decide.
  pose proof (Tags.forall_tags _ H t) as Ht. cbn beta in Ht.
  destruct (Tags.gumbo_normalized_tagname t); try done. apply bool_decide_eq_true_1 in Ht. by subst.
Qed.

Lemma print_tags_ok i tags b l :
  printed b l -> Z.of_nat (length (l ++ tags_text i tags)) <= 2 ^ 28 ->
  exists b', print_tags i tags b = Ok b' /\ printed b' (l ++ tags_text i tags).
Proof.
  revert i b l; induction tags as [|t tags IH]; intros i b l Hb Hbig.
  { exists b. cbn. by rewrite app_nil_r. }
  cbn [print_tags tags_text] in *.
  assert (exists b1, (if i then print (txt ", ") b else Ok b) = Ok b1 /\
    printed b1 (l ++ if i then txt ", " else [])) as (b1 & -> & Hb1).
  { destruct i; [|exists b; split; [done|by rewrite app_nil_r]]. apply print_ok'; [done|].
    rewrite !length_app in *. lia. }
  rewrite bind_Ok, normalized_tagname_ok, bind_Ok. rewrite app_assoc in Hbig |- *.
  destruct (print_ok' b1 _ (tag_text t) Hb1) as (b2 & -> & Hb2); [rewrite !length_app in *; lia|].
  rewrite bind_Ok. rewrite app_assoc in Hbig |- *. by apply IH.
Qed.

Lemma dot_ok b l :
  printed b l -> Z.of_nat (length l) <= 2 ^ 28 ->
  exists b', gumbo_string_buffer_append_codepoint junk 46 b = Ok b' /\ sb_ok b' (l ++ txt ".").
Proof. intros [Hb _] Hl. change (txt ".") with (codepoint_bytes 46). apply append_codepoint_ok; [done|lia]. Qed.

Lemma print_sb_ok b l msg :
  printed b l -> Z.of_nat (length (l ++ msg)) <= 2 ^ 28 ->
  exists b', print msg b = Ok b' /\ sb_ok b' (l ++ msg).
Proof. intros H1 H2. destruct (print_ok' b l msg H1 H2) as (b' & ? & ? & _). by exists b'. Qed.

(** A sentence and the stack of open tags. *)
Lemma print_stack_ok b l msg p :
  printed b l -> Z.of_nat (length (l ++ msg ++ stack_text (tag_stack p))) <= 2 ^ 28 ->
  exists b', (output ← print msg b; print_tag_stack p output) = Ok b' /\
    sb_ok b' (l ++ msg ++ stack_text (tag_stack p)).
Proof.
  intros Hb Hbig. unfold stack_text in *. rewrite !length_app in Hbig.
  destruct (print_ok' b l msg Hb) as (b1 & -> & Hb1); [rewrite !length_app; lia|]. rewrite bind_Ok.
  unfold print_tag_stack. destruct (print_ok' b1 _ (txt "  Currently open tags: ") Hb1) as (b2 & -> & Hb2);
    [rewrite !length_app; lia|]. rewrite bind_Ok.
  destruct (print_tags_ok false (tag_stack p) b2 _ Hb2) as (b3 & -> & Hb3); [rewrite !length_app; lia|].
  rewrite bind_Ok. destruct (dot_ok b3 _ Hb3) as (b4 & -> & Hb4); [rewrite !length_app; lia|].
  exists b4. by rewrite <- !app_assoc in Hb4.
Qed.

Lemma handle_parser_error_ok p t b l :
  parser_text p = Some t -> printed b l -> Z.of_nat (length (l ++ t)) <= 2 ^ 28 ->
  exists b', handle_parser_error p b = Ok b' /\ sb_ok b' (l ++ t).
Proof.
  intros Ht Hb Hbig. unfold handle_parser_error, parser_text in *.
  destruct (parser_state p); destruct (input_type p); cbn [bool_decide decide decide_rel andb negb] in *;
    simplify_eq; first [by apply print_sb_ok | by apply print_stack_ok].
Qed.

Lemma error_body_ok e t b l :
  error_body e = Some t -> printed b l -> Z.of_nat (length (l ++ t)) <= 2 ^ 28 ->
  exists b', print_error_body e b = Ok b' /\ sb_ok b' (l ++ t).
Proof.
  intros Ht Hb Hbig. unfold error_body, print_error_body in *.
  destruct (etype e); destruct (ev e); simplify_eq;
    first [by apply print_sb_ok | by apply handle_parser_error_ok].
Qed.

Lemma error_to_string_ok e t b l :
  error_text e = Some t -> printed b l -> Z.of_nat (length (l ++ t)) <= 2 ^ 28 ->
  exists b', gumbo_error_to_string e b = Ok b' /\ sb_ok b' (l ++ t).
Proof.
  intros Ht Hb Hbig. unfold error_text in Ht. destruct (error_body e) as [body|] eqn:E; [|done].
  assert (Ht' : Some (position_text (eposition e) ++ body ++ txt ".") = Some t) by exact Ht.
  apply (inj Some) in Ht' as <-. unfold gumbo_error_to_string. fold (position_text (eposition e)).
  rewrite !length_app in Hbig.
  destruct (print_ok' b l (position_text (eposition e)) Hb) as (b1 & -> & Hb1); [rewrite !length_app; lia|].
  rewrite bind_Ok. destruct (error_body_ok e body b1 _ E Hb1) as (b2 & -> & Hb2); [rewrite !length_app; lia|].
  rewrite bind_Ok. change (txt ".") with (codepoint_bytes 46).
  destruct (append_codepoint_ok junk b2 _ 46 Hb2) as (b3 & -> & Hb3); [rewrite !length_app; lia|].
  exists b3. by rewrite <- !app_assoc in Hb3.
Qed.

Lemma init_printed : printed (gumbo_string_buffer_init junk) [].
Proof.
  unfold gumbo_string_buffer_init. change (Z.to_nat kDefaultStringBufferSize) with 5%nat. unfold printed, sb_ok.
  cbn. split_and!; try done. by eexists [], _.
Qed.

(** The message of an error is printed in full, however long it is: starting
    from an empty buffer, the buffer holds the position, the text that belongs to
    the type of the error and its data, and a full stop. *)
Theorem gumbo_error_to_string_spec (e : GumboError) (t : list Z)
  (Ht : error_text e = Some t) (Hbig : Z.of_nat (length t) <= 2 ^ 28) :
  exists b, gumbo_error_to_string e (gumbo_string_buffer_init junk) = Ok b /\ sb_ok b t.
Proof. apply (error_to_string_ok e t _ []); [done|apply init_printed|done]. Qed.

(** * The line of an error *)
Definition line_char (c : Z) : Prop := c <> 0 /\ c <> 10.

#[export] Instance line_char_dec c : Decision (line_char c).
Proof. unfold line_char. apply _. Defined.

Lemma next_newline_ok after post c :
  Forall line_char after -> (exists x, head post = Some x /\ (x = 0 \/ x = 10)) ->
  next_newline (after ++ post) c = Ok (c + length after)%nat.
Proof.
  intros HF (x & Hx & Hor). revert c; induction HF as [|y after [Hy0 Hy10] HF IH]; intros c; cbn [app next_newline].
  - destruct post as [|p post]; [done|]. injection Hx as ->. cbn [next_newline].
    replace ((x =? 0) || (x =? 10)) with true by (symmetry; apply orb_true_iff; rewrite !Z.eqb_eq; done).
    f_equal. cbn. lia.
  - replace ((y =? 0) || (y =? 10)) with false by (symmetry; apply orb_false_iff; by rewrite !Z.eqb_neq).
    rewrite IH. f_equal. cbn. lia.
Qed.

(** Going back from [s + k], where the line starts at [s]. *)
Lemma find_last_newline_ok text loc s k :
  (forall i, (s <= i <= s + k)%nat -> exists x, text !! i = Some x /\ x <> 10 /\ (x <> 0 \/ i = loc)) ->
  (s = 0 \/ 2 <= s /\ text !! (s - 1) = Some 10%Z)%nat ->
  find_last_newline_from text loc (s + k) = Ok s.
Proof.
  intros Hline Hs. induction k as [|k IH].
  - rewrite Nat.add_0_r in *. destruct (Hline s ltac:(lia)) as (x & Hx & H10 & H0).
    destruct s as [|s]; [done|]. destruct Hs as [|[Hs Hnl]]; [done|]. cbn [find_last_newline_from].
    unfold load. rewrite Hx. cbn [of_option]. rewrite bind_Ok.
    replace (x =? 10) with false by (symmetry; by apply Z.eqb_neq).
    assert (negb (x =? 0) || (S s =? loc)%nat = true) as ->.
    { apply orb_true_iff. destruct H0 as [H0|H0]; [left; by apply negb_true_iff, Z.eqb_neq|right; by apply Nat.eqb_eq]. }
    cbn [c_assert]. rewrite bind_Ok. destruct s as [|s]; [lia|]. cbn [find_last_newline_from].
    cbn in Hnl. unfold load. rewrite Hnl. cbn [of_option]. rewrite bind_Ok. cbn. f_equal. lia.
  - rewrite Nat.add_succ_r. cbn [find_last_newline_from].
    destruct (Hline (S (s + k)) ltac:(lia)) as (x & Hx & H10 & H0). unfold load. rewrite Hx. cbn [of_option].
    rewrite bind_Ok. replace (x =? 10) with false by (symmetry; by apply Z.eqb_neq).
    assert (negb (x =? 0) || (S (s + k) =? loc)%nat = true) as ->.
    { apply orb_true_iff. destruct H0 as [H0|H0]; [left; by apply negb_true_iff, Z.eqb_neq|right; by apply Nat.eqb_eq]. }
    cbn [c_assert]. rewrite bind_Ok. apply IH. intros i Hi. apply Hline. lia.
Qed.

(** [src] is [before ++ after] at the line of the error, which is at [after]. *)
Record error_line (src pre before after post : list Z) (loc : nat) : Prop := {
  el_src : src = pre ++ before ++ after ++ post;
  el_loc : loc = length (pre ++ before);
  el_before : Forall line_char before;
  el_after : Forall line_char after;
  el_pre : pre = [] \/ (2 <= length pre)%nat /\ last pre = Some 10;
  el_post : post = [] \/ head post = Some 10;
  el_here : after <> [] \/ post = []
}.

Lemma error_line_at src pre before after post loc :
  error_line src pre before after post loc ->
  find_last_newline (src ++ [0]) loc = Ok (length pre) /\
  find_next_newline (src ++ [0]) loc = Ok (length pre + length before + length after)%nat.
Proof.
  intros [Hsrc Hloc Hb Ha Hpre Hpost Hhere]. rewrite length_app in Hloc. subst src loc. split.
  - apply (find_last_newline_ok _ _ (length pre) (length before)).
    + intros i Hi. rewrite <- !app_assoc, lookup_app_r by lia.
      destruct (decide (i < length pre + length before)%nat) as [Hlt|Hge].
      * destruct (lookup_lt_is_Some_2 before (i - length pre)) as [x Hx]; [lia|].
        rewrite lookup_app_l by lia. exists x. pose proof (Forall_lookup_1 _ _ _ _ Hb Hx) as [? ?]. auto.
      * rewrite lookup_app_r by lia. replace (i - length pre - length before)%nat with 0%nat by lia.
        destruct after as [|x after].
        { destruct Hhere as [?| ->]; [done|]. exists 0. split_and!; [done|done|right; lia]. }
        exists x. apply Forall_cons_1 in Ha as [[? ?] _]. auto.
    + destruct Hpre as [->|[Hlen Hlast]]; [by left|right]. split; [done|].
      rewrite <- app_assoc, lookup_app_l by lia. by rewrite last_lookup, <- Nat.sub_1_r in Hlast.
  - unfold find_next_newline. rewrite <- !app_assoc, app_assoc.
    rewrite drop_app_length' by (by rewrite length_app). apply next_newline_ok; [done|].
    destruct Hpost as [->|Hpost]; [exists 0; auto|]. exists 10. destruct post; [done|]. auto.
Qed.

Lemma piece_ok text off n l :
  at_off text off l -> n = Z.of_nat (length l) -> piece text off n = Ok l.
Proof.
  intros Hat ->. pose proof (at_off_length _ _ _ Hat). unfold piece.
  replace (Z.of_nat (length text) <? _) with false by (symmetry; apply Z.ltb_ge; lia).
  rewrite Nat2Z.id. by apply at_off_load_range.
Qed.

(** The caret below the line: spaces, the caret and a newline. *)
Lemma caret_ok b l col :
  sb_ok b l -> 1 <= col < 2 ^ 31 -> Z.of_nat (length l) <= 2 ^ 30 ->
  exists b', (output ← gumbo_string_buffer_reserve junk (u64 (slength b + col)) b;
    let num_spaces := s32 (col - 1) in
    d ← memset (sdata output) (Z.to_nat (slength output)) 32 (u64 num_spaces);
    let output := SB d (u64 (slength output + num_spaces)) (scapacity output) in
    output ← gumbo_string_buffer_append_codepoint junk 94 output;
    gumbo_string_buffer_append_codepoint junk 10 output) = Ok b' /\
    sb_ok b' (l ++ replicate (Z.to_nat (col - 1)) 32 ++ [94; 10]).
Proof.
  intros Hb Hcol Hlen. pose proof (proj1 Hb) as Hl. unfold gumbo_string_buffer_reserve.
  assert (u64 (u64 (slength b + col) - slength b) = col) as ->.
  { unfold u64. rewrite (Z.mod_small (slength b + col)) by lia. replace (slength b + col - slength b) with col by lia.
    apply Z.mod_small. lia. }
  destruct (resize_ok junk b l col Hb) as (b1 & -> & Hb1 & Hcap & _); [lia|lia|]. rewrite bind_Ok. cbn zeta.
  assert (s32 (col - 1) = col - 1) as -> by zlia.
  assert (u64 (col - 1) = col - 1) as -> by (unfold u64; apply Z.mod_small; lia).
  set (sp := replicate (Z.to_nat (col - 1)) 32).
  assert (Hsp : Z.of_nat (length sp) = col - 1) by (unfold sp; rewrite length_replicate; lia).
  unfold memset. fold sp. pose proof (proj1 Hb1) as Hl1.
  replace (Z.of_nat (length (sdata b1)) <? _) with false
    by (symmetry; apply Z.ltb_ge; destruct Hb1 as (_ & _ & -> & _); lia).
  destruct (sb_write_ok b1 l sp Hb1) as (d & -> & Hd); [lia|]. rewrite bind_Ok. rewrite Hsp in Hd.
  destruct (append_codepoint_ok junk _ _ 94 Hd) as (b2 & -> & Hb2); [rewrite length_app; lia|]. rewrite bind_Ok.
  change (codepoint_bytes 94) with [94] in Hb2.
  destruct (append_codepoint_ok junk _ _ 10 Hb2) as (b3 & -> & Hb3); [rewrite !length_app; cbn [length]; lia|].
  exists b3. split; [done|]. rewrite <- !app_assoc in Hb3. exact Hb3.
Qed.

(** The caret diagnostic shows the message, the line of the source that the
    error is in, and below it a caret in the column of the error, for an error that
    is not on a newline character. *)
Theorem gumbo_caret_diagnostic_spec (e : GumboError) (t src pre before after post : list Z)
  (Ht : error_text e = Some t) (Hline : error_line src pre before after post (eoriginal_text e))
  (Hcol : 1 <= column (eposition e) < 2 ^ 31) (Hbig : Z.of_nat (length t + length src) <= 2 ^ 28) :
  exists b, gumbo_caret_diagnostic_to_string e (src ++ [0]) (gumbo_string_buffer_init junk) = Ok b /\
    sb_ok b (t ++ [10] ++ before ++ after ++ [10] ++
             replicate (Z.to_nat (column (eposition e) - 1)) 32 ++ [94; 10]).
Proof.
  unfold gumbo_caret_diagnostic_to_string.
  destruct (error_to_string_ok e t _ [] Ht init_printed) as (b1 & -> & Hb1); [cbn [app]; lia|]. rewrite bind_Ok.
  destruct (error_line_at _ _ _ _ _ _ Hline) as [-> ->]. rewrite !bind_Ok. destruct Hline as [Hsrc _ _ _ _ _ _].
  destruct (append_codepoint_ok junk b1 _ 10 Hb1) as (b2 & -> & Hb2); [cbn [app]; lia|]. rewrite bind_Ok.
  change (codepoint_bytes 10) with [10] in Hb2. rewrite Hsrc, !length_app in Hbig.
  rewrite (piece_ok _ _ _ (before ++ after)).
  2: { exists pre, (post ++ [0]). by rewrite Hsrc, <- !app_assoc. }
  2: { rewrite length_app. unfold u64. rewrite Z.mod_small; lia. }
  rewrite bind_Ok. destruct (append_string_ok junk b2 _ (before ++ after) Hb2) as (b3 & -> & Hb3).
  { rewrite !length_app. cbn [length app]. lia. }
  rewrite bind_Ok. destruct (append_codepoint_ok junk b3 _ 10 Hb3) as (b4 & -> & Hb4).
  { rewrite !length_app. cbn [length app]. lia. }
  rewrite bind_Ok. change (codepoint_bytes 10) with [10] in Hb4.
  destruct (caret_ok b4 _ (column (eposition e)) Hb4 Hcol) as (b5 & Hr & Hb5).
  { rewrite !length_app. cbn [length app]. lia. }
  exists b5. split; [exact Hr|]. by rewrite <- !app_assoc in Hb5.
Qed.

(** For an error on a newline that is not the first character of the source,
    the start of its line is computed to lie behind its end, the length wraps
    around, and the diagnostic copies memory out of bounds. *)
Theorem gumbo_caret_at_newline (e : GumboError) (t src : list Z)
  (Ht : error_text e = Some t) (Hbig : Z.of_nat (length t) <= 2 ^ 28)
  (Hpos : (0 < eoriginal_text e)%nat) (Hnl : src !! eoriginal_text e = Some 10)
  (Hsrc : Z.of_nat (length src) < 2 ^ 62) :
  gumbo_caret_diagnostic_to_string e (src ++ [0]) (gumbo_string_buffer_init junk) = Undef.
Proof.
  unfold gumbo_caret_diagnostic_to_string.
  destruct (error_to_string_ok e t _ [] Ht init_printed) as (b1 & -> & Hb1); [cbn [app]; lia|]. rewrite bind_Ok.
  pose proof (lookup_lt_Some _ _ _ Hnl) as Hlt. unfold find_last_newline, find_next_newline.
  assert (Hat : (src ++ [0]) !! eoriginal_text e = Some 10) by (by rewrite lookup_app_l).
  rewrite (drop_S _ _ _ Hat). cbn [next_newline Z.eqb Pos.eqb orb].
  destruct (eoriginal_text e) as [|p]; [lia|]. cbn [find_last_newline_from]. unfold load. rewrite Hat.
  cbn [of_option]. rewrite !bind_Ok. cbn [Z.eqb Pos.eqb]. rewrite !bind_Ok.
  destruct (append_codepoint_ok junk b1 _ 10 Hb1) as (b2 & -> & Hb2); [cbn [app]; lia|]. rewrite bind_Ok.
  unfold piece. replace (Z.of_nat (length (src ++ [0])) <? _) with true; [done|].
  symmetry. apply Z.ltb_lt. rewrite length_app. cbn [length].
  replace (u64 (Z.of_nat (S p) - Z.of_nat (S p + 1))) with (2 ^ 64 - 1); [lia|].
  replace (Z.of_nat (S p) - Z.of_nat (S p + 1)) with (-1) by lia. done.
Qed.
End with_junk.

(** * Concrete runs *)

(** An invalid byte in the second line of the text. *)
Definition sample_error : GumboError :=
  Error GUMBO_ERR_UTF8_INVALID (Pos 2 2 4) 4 (ErrCodepoint 0xC3).

Lemma gumbo_error_to_string_spec_witness :
  exists b, gumbo_error_to_string (fun _ => 0) sample_error (gumbo_string_buffer_init (fun _ => 0)) = Ok b /\
    sb_ok b (txt "@2:2: Invalid UTF8 character 0xc3.").
Proof. by apply (gumbo_error_to_string_spec (fun _ => 0) sample_error). Defined.

Lemma gumbo_caret_diagnostic_spec_witness :
  exists b, gumbo_caret_diagnostic_to_string (fun _ => 0) sample_error ([97; 98; 10; 99; 0xC3; 100; 10] ++ [0])
      (gumbo_string_buffer_init (fun _ => 0)) = Ok b /\
    sb_ok b (txt "@2:2: Invalid UTF8 character 0xc3." ++ [10; 99; 0xC3; 100; 10; 32; 94; 10]).
Proof.
  apply (gumbo_caret_diagnostic_spec (fun _ => 0) sample_error
    (txt "@2:2: Invalid UTF8 character 0xc3.") [97; 98; 10; 99; 0xC3; 100; 10] [97; 98; 10] [99] [0xC3; 100] [10]);
    [done| |cbn; lia|cbn; lia].
  split; [done|done|by_decide|by_decide|by right; split; [cbn; lia|]|by right|by left].
Defined.

Lemma gumbo_caret_at_newline_witness :
  gumbo_caret_diagnostic_to_string (fun _ => 0) (Error GUMBO_ERR_TAG_INVALID (Pos 1 3 2) 2 ErrUnset) ([97; 60; 10] ++ [0])
    (gumbo_string_buffer_init (fun _ => 0)) = Undef.
Proof.
  by apply (gumbo_caret_at_newline (fun _ => 0) (Error GUMBO_ERR_TAG_INVALID (Pos 1 3 2) 2 ErrUnset)
    (txt "@1:3: Tokenizer error with an unimplemented error message.") [97; 60; 10]); try (cbn; lia).
Defined.

End GumboErrors.
