(* ===== verification/GumboLexer.v ===== *)
(** gumbo-parser/src/tokenizer.c: the HTML tokenizer.

    The state of the tokenizer is the record [GumboTokenizerState], with the token
    under construction as a field; an operation on it is a [lexer].  String buffers
    and vectors are represented by what they hold (GumboBase.v shows that they do):
    the tag buffer is [None] when it has been destroyed, the attributes are [None]
    when the vector has no data.  The scanner of the named character references is
    a parameter, as in CharRef.v. *)
From Stdlib Require Import Strings.String Strings.Ascii.
From S2P Require Import Prelude GumboTags GumboBase Utf8 CharRef.
Import GumboBase Utf8 CharRef.

Module Lexer.

(** The code of a character. *)
Notation "# a" := (ltac:(let x := eval compute in (Z.of_N (N_of_ascii a%char)) in exact x))
  (at level 1, only parsing).

Definition text_of (s : string) : list Z := Tags.bytes_of s.

(** * Data *)
Inductive StateResult := RETURN_ERROR | RETURN_SUCCESS | NEXT_CHAR.

Inductive GumboTokenizerEnum :=
  | GUMBO_LEX_DATA | GUMBO_LEX_CHAR_REF_IN_DATA
  | GUMBO_LEX_RCDATA | GUMBO_LEX_CHAR_REF_IN_RCDATA
  | GUMBO_LEX_RAWTEXT | GUMBO_LEX_SCRIPT
  | GUMBO_LEX_PLAINTEXT | GUMBO_LEX_TAG_OPEN
  | GUMBO_LEX_END_TAG_OPEN | GUMBO_LEX_TAG_NAME
  | GUMBO_LEX_RCDATA_LT | GUMBO_LEX_RCDATA_END_TAG_OPEN
  | GUMBO_LEX_RCDATA_END_TAG_NAME | GUMBO_LEX_RAWTEXT_LT
  | GUMBO_LEX_RAWTEXT_END_TAG_OPEN | GUMBO_LEX_RAWTEXT_END_TAG_NAME
  | GUMBO_LEX_SCRIPT_LT | GUMBO_LEX_SCRIPT_END_TAG_OPEN
  | GUMBO_LEX_SCRIPT_END_TAG_NAME | GUMBO_LEX_SCRIPT_ESCAPED_START
  | GUMBO_LEX_SCRIPT_ESCAPED_START_DASH | GUMBO_LEX_SCRIPT_ESCAPED
  | GUMBO_LEX_SCRIPT_ESCAPED_DASH | GUMBO_LEX_SCRIPT_ESCAPED_DASH_DASH
  | GUMBO_LEX_SCRIPT_ESCAPED_LT | GUMBO_LEX_SCRIPT_ESCAPED_END_TAG_OPEN
  | GUMBO_LEX_SCRIPT_ESCAPED_END_TAG_NAME | GUMBO_LEX_SCRIPT_DOUBLE_ESCAPED_START
  | GUMBO_LEX_SCRIPT_DOUBLE_ESCAPED | GUMBO_LEX_SCRIPT_DOUBLE_ESCAPED_DASH
  | GUMBO_LEX_SCRIPT_DOUBLE_ESCAPED_DASH_DASH | GUMBO_LEX_SCRIPT_DOUBLE_ESCAPED_LT
  | GUMBO_LEX_SCRIPT_DOUBLE_ESCAPED_END | GUMBO_LEX_BEFORE_ATTR_NAME
  | GUMBO_LEX_ATTR_NAME | GUMBO_LEX_AFTER_ATTR_NAME
  | GUMBO_LEX_BEFORE_ATTR_VALUE | GUMBO_LEX_ATTR_VALUE_DOUBLE_QUOTED
  | GUMBO_LEX_ATTR_VALUE_SINGLE_QUOTED | GUMBO_LEX_ATTR_VALUE_UNQUOTED
  | GUMBO_LEX_CHAR_REF_IN_ATTR_VALUE | GUMBO_LEX_AFTER_ATTR_VALUE_QUOTED
  | GUMBO_LEX_SELF_CLOSING_START_TAG | GUMBO_LEX_BOGUS_COMMENT
  | GUMBO_LEX_MARKUP_DECLARATION | GUMBO_LEX_COMMENT_START
  | GUMBO_LEX_COMMENT_START_DASH | GUMBO_LEX_COMMENT
  | GUMBO_LEX_COMMENT_END_DASH | GUMBO_LEX_COMMENT_END
  | GUMBO_LEX_COMMENT_END_BANG | GUMBO_LEX_DOCTYPE
  | GUMBO_LEX_BEFORE_DOCTYPE_NAME | GUMBO_LEX_DOCTYPE_NAME
  | GUMBO_LEX_AFTER_DOCTYPE_NAME | GUMBO_LEX_AFTER_DOCTYPE_PUBLIC_KEYWORD
  | GUMBO_LEX_BEFORE_DOCTYPE_PUBLIC_ID | GUMBO_LEX_DOCTYPE_PUBLIC_ID_DOUBLE_QUOTED
  | GUMBO_LEX_DOCTYPE_PUBLIC_ID_SINGLE_QUOTED | GUMBO_LEX_AFTER_DOCTYPE_PUBLIC_ID
  | GUMBO_LEX_BETWEEN_DOCTYPE_PUBLIC_SYSTEM_ID | GUMBO_LEX_AFTER_DOCTYPE_SYSTEM_KEYWORD
  | GUMBO_LEX_BEFORE_DOCTYPE_SYSTEM_ID | GUMBO_LEX_DOCTYPE_SYSTEM_ID_DOUBLE_QUOTED
  | GUMBO_LEX_DOCTYPE_SYSTEM_ID_SINGLE_QUOTED | GUMBO_LEX_AFTER_DOCTYPE_SYSTEM_ID
  | GUMBO_LEX_BOGUS_DOCTYPE | GUMBO_LEX_CDATA.

(** A piece of the input: offset and length. *)
Record GumboStringPiece := Piece { pdata : nat; plength : Z }.

Inductive GumboAttributeNamespaceEnum :=
  | GUMBO_ATTR_NAMESPACE_NONE | GUMBO_ATTR_NAMESPACE_XLINK | GUMBO_ATTR_NAMESPACE_XML
  | GUMBO_ATTR_NAMESPACE_XMLNS.

Record GumboAttribute := Attribute {
  attr_namespace : GumboAttributeNamespaceEnum; name : list Z; original_name : GumboStringPiece; value_ : list Z; original_value : GumboStringPiece;
  name_start : GumboSourcePosition; name_end : GumboSourcePosition;
  value_start : GumboSourcePosition; value_end : GumboSourcePosition
}.

Record GumboTokenDocType := DocType {
  dname : option (list Z); public_identifier : option (list Z); system_identifier : option (list Z);
  force_quirks : bool; has_public_identifier : bool; has_system_identifier : bool
}.

Record GumboTokenStartTag := StartTag {
  stag : Tags.GumboTag; attributes : option (list GumboAttribute); is_self_closing : bool
}.

Inductive token_value :=
| VDocType (d : GumboTokenDocType)
| VStartTag (t : GumboTokenStartTag)
| VEndTag (t : Tags.GumboTag)
| VText (text : list Z)
| VCharacter (c : Z).

Record GumboToken := Token {
  ttype : GumboTokenType; tposition : GumboSourcePosition; toriginal_text : GumboStringPiece; tv : token_value
}.

Record GumboTagState := TagState {
  _buffer : option (list Z); _original_text : nat; _tag : Tags.GumboTag;
  _start_pos : GumboSourcePosition; _attributes : option (list GumboAttribute); _drop_next_attr_value : bool;
  _attr_value_state : GumboTokenizerEnum; _last_start_tag : Tags.GumboTag; _is_start_tag : bool;
  _is_self_closing : bool
}.

Record GumboTokenizerState := Tokenizer {
  _state : GumboTokenizerEnum; _reconsume_current_input : bool; _is_current_node_foreign : bool;
  _is_in_cdata : bool; _buffered_emit_char : Z; _temporary_buffer : list Z;
  _temporary_buffer_emit : option nat; _script_data_buffer : list Z; _token_start : nat;
  _token_start_pos : GumboSourcePosition; _tag_state : GumboTagState; _doc_type_state : GumboTokenDocType;
  _input : Utf8Iterator; _output : GumboToken
}.

Definition set_buffer (x : option (list Z)) (s : GumboTagState) : GumboTagState :=
  TagState x (_original_text s) (_tag s) (_start_pos s) (_attributes s) (_drop_next_attr_value s) (_attr_value_state s) (_last_start_tag s) (_is_start_tag s) (_is_self_closing s).
Definition set_original_text (x : nat) (s : GumboTagState) : GumboTagState :=
  TagState (_buffer s) x (_tag s) (_start_pos s) (_attributes s) (_drop_next_attr_value s) (_attr_value_state s) (_last_start_tag s) (_is_start_tag s) (_is_self_closing s).
Definition set_tag (x : Tags.GumboTag) (s : GumboTagState) : GumboTagState :=
  TagState (_buffer s) (_original_text s) x (_start_pos s) (_attributes s) (_drop_next_attr_value s) (_attr_value_state s) (_last_start_tag s) (_is_start_tag s) (_is_self_closing s).
Definition set_start_pos (x : GumboSourcePosition) (s : GumboTagState) : GumboTagState :=
  TagState (_buffer s) (_original_text s) (_tag s) x (_attributes s) (_drop_next_attr_value s) (_attr_value_state s) (_last_start_tag s) (_is_start_tag s) (_is_self_closing s).
Definition set_attributes (x : option (list GumboAttribute)) (s : GumboTagState) : GumboTagState :=
  TagState (_buffer s) (_original_text s) (_tag s) (_start_pos s) x (_drop_next_attr_value s) (_attr_value_state s) (_last_start_tag s) (_is_start_tag s) (_is_self_closing s).
Definition set_drop_next_attr_value (x : bool) (s : GumboTagState) : GumboTagState :=
  TagState (_buffer s) (_original_text s) (_tag s) (_start_pos s) (_attributes s) x (_attr_value_state s) (_last_start_tag s) (_is_start_tag s) (_is_self_closing s).
Definition set_attr_value_state (x : GumboTokenizerEnum) (s : GumboTagState) : GumboTagState :=
  TagState (_buffer s) (_original_text s) (_tag s) (_start_pos s) (_attributes s) (_drop_next_attr_value s) x (_last_start_tag s) (_is_start_tag s) (_is_self_closing s).
Definition set_last_start_tag (x : Tags.GumboTag) (s : GumboTagState) : GumboTagState :=
  TagState (_buffer s) (_original_text s) (_tag s) (_start_pos s) (_attributes s) (_drop_next_attr_value s) (_attr_value_state s) x (_is_start_tag s) (_is_self_closing s).
Definition set_is_start_tag (x : bool) (s : GumboTagState) : GumboTagState :=
  TagState (_buffer s) (_original_text s) (_tag s) (_start_pos s) (_attributes s) (_drop_next_attr_value s) (_attr_value_state s) (_last_start_tag s) x (_is_self_closing s).
Definition set_is_self_closing (x : bool) (s : GumboTagState) : GumboTagState :=
  TagState (_buffer s) (_original_text s) (_tag s) (_start_pos s) (_attributes s) (_drop_next_attr_value s) (_attr_value_state s) (_last_start_tag s) (_is_start_tag s) x.

Definition set_state (x : GumboTokenizerEnum) (s : GumboTokenizerState) : GumboTokenizerState :=
  Tokenizer x (_reconsume_current_input s) (_is_current_node_foreign s) (_is_in_cdata s) (_buffered_emit_char s) (_temporary_buffer s) (_temporary_buffer_emit s) (_script_data_buffer s) (_token_start s) (_token_start_pos s) (_tag_state s) (_doc_type_state s) (_input s) (_output s).
Definition set_reconsume_current_input (x : bool) (s : GumboTokenizerState) : GumboTokenizerState :=
  Tokenizer (_state s) x (_is_current_node_foreign s) (_is_in_cdata s) (_buffered_emit_char s) (_temporary_buffer s) (_temporary_buffer_emit s) (_script_data_buffer s) (_token_start s) (_token_start_pos s) (_tag_state s) (_doc_type_state s) (_input s) (_output s).
Definition set_is_current_node_foreign (x : bool) (s : GumboTokenizerState) : GumboTokenizerState :=
  Tokenizer (_state s) (_reconsume_current_input s) x (_is_in_cdata s) (_buffered_emit_char s) (_temporary_buffer s) (_temporary_buffer_emit s) (_script_data_buffer s) (_token_start s) (_token_start_pos s) (_tag_state s) (_doc_type_state s) (_input s) (_output s).
Definition set_is_in_cdata (x : bool) (s : GumboTokenizerState) : GumboTokenizerState :=
  Tokenizer (_state s) (_reconsume_current_input s) (_is_current_node_foreign s) x (_buffered_emit_char s) (_temporary_buffer s) (_temporary_buffer_emit s) (_script_data_buffer s) (_token_start s) (_token_start_pos s) (_tag_state s) (_doc_type_state s) (_input s) (_output s).
Definition set_buffered_emit_char (x : Z) (s : GumboTokenizerState) : GumboTokenizerState :=
  Tokenizer (_state s) (_reconsume_current_input s) (_is_current_node_foreign s) (_is_in_cdata s) x (_temporary_buffer s) (_temporary_buffer_emit s) (_script_data_buffer s) (_token_start s) (_token_start_pos s) (_tag_state s) (_doc_type_state s) (_input s) (_output s).
Definition set_temporary_buffer (x : list Z) (s : GumboTokenizerState) : GumboTokenizerState :=
  Tokenizer (_state s) (_reconsume_current_input s) (_is_current_node_foreign s) (_is_in_cdata s) (_buffered_emit_char s) x (_temporary_buffer_emit s) (_script_data_buffer s) (_token_start s) (_token_start_pos s) (_tag_state s) (_doc_type_state s) (_input s) (_output s).
Definition set_temporary_buffer_emit (x : option nat) (s : GumboTokenizerState) : GumboTokenizerState :=
  Tokenizer (_state s) (_reconsume_current_input s) (_is_current_node_foreign s) (_is_in_cdata s) (_buffered_emit_char s) (_temporary_buffer s) x (_script_data_buffer s) (_token_start s) (_token_start_pos s) (_tag_state s) (_doc_type_state s) (_input s) (_output s).
Definition set_script_data_buffer (x : list Z) (s : GumboTokenizerState) : GumboTokenizerState :=
  Tokenizer (_state s) (_reconsume_current_input s) (_is_current_node_foreign s) (_is_in_cdata s) (_buffered_emit_char s) (_temporary_buffer s) (_temporary_buffer_emit s) x (_token_start s) (_token_start_pos s) (_tag_state s) (_doc_type_state s) (_input s) (_output s).
Definition set_token_start (x : nat) (s : GumboTokenizerState) : GumboTokenizerState :=
  Tokenizer (_state s) (_reconsume_current_input s) (_is_current_node_foreign s) (_is_in_cdata s) (_buffered_emit_char s) (_temporary_buffer s) (_temporary_buffer_emit s) (_script_data_buffer s) x (_token_start_pos s) (_tag_state s) (_doc_type_state s) (_input s) (_output s).
Definition set_token_start_pos (x : GumboSourcePosition) (s : GumboTokenizerState) : GumboTokenizerState :=
  Tokenizer (_state s) (_reconsume_current_input s) (_is_current_node_foreign s) (_is_in_cdata s) (_buffered_emit_char s) (_temporary_buffer s) (_temporary_buffer_emit s) (_script_data_buffer s) (_token_start s) x (_tag_state s) (_doc_type_state s) (_input s) (_output s).
Definition set_tag_state (x : GumboTagState) (s : GumboTokenizerState) : GumboTokenizerState :=
  Tokenizer (_state s) (_reconsume_current_input s) (_is_current_node_foreign s) (_is_in_cdata s) (_buffered_emit_char s) (_temporary_buffer s) (_temporary_buffer_emit s) (_script_data_buffer s) (_token_start s) (_token_start_pos s) x (_doc_type_state s) (_input s) (_output s).
Definition set_doc_type_state (x : GumboTokenDocType) (s : GumboTokenizerState) : GumboTokenizerState :=
  Tokenizer (_state s) (_reconsume_current_input s) (_is_current_node_foreign s) (_is_in_cdata s) (_buffered_emit_char s) (_temporary_buffer s) (_temporary_buffer_emit s) (_script_data_buffer s) (_token_start s) (_token_start_pos s) (_tag_state s) x (_input s) (_output s).
Definition set_input (x : Utf8Iterator) (s : GumboTokenizerState) : GumboTokenizerState :=
  Tokenizer (_state s) (_reconsume_current_input s) (_is_current_node_foreign s) (_is_in_cdata s) (_buffered_emit_char s) (_temporary_buffer s) (_temporary_buffer_emit s) (_script_data_buffer s) (_token_start s) (_token_start_pos s) (_tag_state s) (_doc_type_state s) x (_output s).
Definition set_output (x : GumboToken) (s : GumboTokenizerState) : GumboTokenizerState :=
  Tokenizer (_state s) (_reconsume_current_input s) (_is_current_node_foreign s) (_is_in_cdata s) (_buffered_emit_char s) (_temporary_buffer s) (_temporary_buffer_emit s) (_script_data_buffer s) (_token_start s) (_token_start_pos s) (_tag_state s) (_doc_type_state s) (_input s) x.

(** * The monad *)
Definition lexer (A : Type) : Type := GumboTokenizerState -> outcome (GumboTokenizerState * A).

#[export] Instance lexer_ret : MRet lexer := fun A a t => Ok (t, a).
#[export] Instance lexer_bind : MBind lexer := fun A B f m t =>
  '(t', a) ← m t; f a t'.

Definition get {A} (f : GumboTokenizerState -> A) : lexer A := fun t => Ok (t, f t).
Definition modify (f : GumboTokenizerState -> GumboTokenizerState) : lexer unit := fun t => Ok (f t, tt).
Definition lift {A} (m : outcome A) : lexer A := fun t => a ← m; Ok (t, a).
Definition assert (b : bool) : lexer unit := lift (c_assert b).

(** Tag state and iterator. *)
Definition get_tag {A} (f : GumboTagState -> A) : lexer A := get (fun t => f (_tag_state t)).
Definition modify_tag (f : GumboTagState -> GumboTagState) : lexer unit :=
  modify (fun t => set_tag_state (f (_tag_state t)) t).
Definition modify_doc_type (f : GumboTokenDocType -> GumboTokenDocType) : lexer unit :=
  modify (fun t => set_doc_type_state (f (_doc_type_state t)) t).
Definition on_input (f : Utf8Iterator -> outcome Utf8Iterator) : lexer unit := fun t =>
  it ← f (_input t); Ok (set_input it t, tt).

Definition set_force_quirks (b : bool) : lexer unit :=
  modify_doc_type (fun d => DocType (dname d) (public_identifier d) (system_identifier d) b
    (has_public_identifier d) (has_system_identifier d)).

Definition gumbo_tokenizer_set_state (s : GumboTokenizerEnum) : lexer unit := modify (set_state s).
Definition reconsume (b : bool) : lexer unit := modify (set_reconsume_current_input b).

Definition gumbo_tokenizer_set_is_current_node_foreign (is_foreign : bool) : lexer unit :=
  modify (set_is_current_node_foreign is_foreign).

(** * Helpers *)
Definition error_state (s : GumboTokenizerEnum) : GumboTokenizerErrorState :=
  match s with
  | GUMBO_LEX_DATA => GUMBO_ERR_TOKENIZER_DATA
  | GUMBO_LEX_CHAR_REF_IN_DATA | GUMBO_LEX_CHAR_REF_IN_RCDATA
  | GUMBO_LEX_CHAR_REF_IN_ATTR_VALUE => GUMBO_ERR_TOKENIZER_CHAR_REF
  | GUMBO_LEX_RCDATA | GUMBO_LEX_RCDATA_LT | GUMBO_LEX_RCDATA_END_TAG_OPEN
  | GUMBO_LEX_RCDATA_END_TAG_NAME => GUMBO_ERR_TOKENIZER_RCDATA
  | GUMBO_LEX_RAWTEXT | GUMBO_LEX_RAWTEXT_LT | GUMBO_LEX_RAWTEXT_END_TAG_OPEN
  | GUMBO_LEX_RAWTEXT_END_TAG_NAME => GUMBO_ERR_TOKENIZER_RAWTEXT
  | GUMBO_LEX_PLAINTEXT => GUMBO_ERR_TOKENIZER_PLAINTEXT
  | GUMBO_LEX_SCRIPT | GUMBO_LEX_SCRIPT_LT | GUMBO_LEX_SCRIPT_END_TAG_OPEN
  | GUMBO_LEX_SCRIPT_END_TAG_NAME | GUMBO_LEX_SCRIPT_ESCAPED_START
  | GUMBO_LEX_SCRIPT_ESCAPED_START_DASH | GUMBO_LEX_SCRIPT_ESCAPED | GUMBO_LEX_SCRIPT_ESCAPED_DASH
  | GUMBO_LEX_SCRIPT_ESCAPED_DASH_DASH | GUMBO_LEX_SCRIPT_ESCAPED_LT
  | GUMBO_LEX_SCRIPT_ESCAPED_END_TAG_OPEN | GUMBO_LEX_SCRIPT_ESCAPED_END_TAG_NAME
  | GUMBO_LEX_SCRIPT_DOUBLE_ESCAPED_START | GUMBO_LEX_SCRIPT_DOUBLE_ESCAPED
  | GUMBO_LEX_SCRIPT_DOUBLE_ESCAPED_DASH | GUMBO_LEX_SCRIPT_DOUBLE_ESCAPED_DASH_DASH
  | GUMBO_LEX_SCRIPT_DOUBLE_ESCAPED_LT | GUMBO_LEX_SCRIPT_DOUBLE_ESCAPED_END => GUMBO_ERR_TOKENIZER_SCRIPT
  | GUMBO_LEX_TAG_OPEN | GUMBO_LEX_END_TAG_OPEN | GUMBO_LEX_TAG_NAME
  | GUMBO_LEX_BEFORE_ATTR_NAME => GUMBO_ERR_TOKENIZER_TAG
  | GUMBO_LEX_SELF_CLOSING_START_TAG => GUMBO_ERR_TOKENIZER_SELF_CLOSING_TAG
  | GUMBO_LEX_ATTR_NAME | GUMBO_LEX_AFTER_ATTR_NAME
  | GUMBO_LEX_BEFORE_ATTR_VALUE => GUMBO_ERR_TOKENIZER_ATTR_NAME
  | GUMBO_LEX_ATTR_VALUE_DOUBLE_QUOTED | GUMBO_LEX_ATTR_VALUE_SINGLE_QUOTED
  | GUMBO_LEX_ATTR_VALUE_UNQUOTED | GUMBO_LEX_AFTER_ATTR_VALUE_QUOTED => GUMBO_ERR_TOKENIZER_ATTR_VALUE
  | GUMBO_LEX_BOGUS_COMMENT | GUMBO_LEX_COMMENT_START | GUMBO_LEX_COMMENT_START_DASH | GUMBO_LEX_COMMENT
  | GUMBO_LEX_COMMENT_END_DASH | GUMBO_LEX_COMMENT_END | GUMBO_LEX_COMMENT_END_BANG => GUMBO_ERR_TOKENIZER_COMMENT
  | GUMBO_LEX_MARKUP_DECLARATION | GUMBO_LEX_DOCTYPE | GUMBO_LEX_BEFORE_DOCTYPE_NAME | GUMBO_LEX_DOCTYPE_NAME
  | GUMBO_LEX_AFTER_DOCTYPE_NAME | GUMBO_LEX_AFTER_DOCTYPE_PUBLIC_KEYWORD
  | GUMBO_LEX_BEFORE_DOCTYPE_PUBLIC_ID | GUMBO_LEX_DOCTYPE_PUBLIC_ID_DOUBLE_QUOTED
  | GUMBO_LEX_DOCTYPE_PUBLIC_ID_SINGLE_QUOTED | GUMBO_LEX_AFTER_DOCTYPE_PUBLIC_ID
  | GUMBO_LEX_BETWEEN_DOCTYPE_PUBLIC_SYSTEM_ID | GUMBO_LEX_AFTER_DOCTYPE_SYSTEM_KEYWORD
  | GUMBO_LEX_BEFORE_DOCTYPE_SYSTEM_ID | GUMBO_LEX_DOCTYPE_SYSTEM_ID_DOUBLE_QUOTED
  | GUMBO_LEX_DOCTYPE_SYSTEM_ID_SINGLE_QUOTED | GUMBO_LEX_AFTER_DOCTYPE_SYSTEM_ID
  | GUMBO_LEX_BOGUS_DOCTYPE => GUMBO_ERR_TOKENIZER_DOCTYPE
  | GUMBO_LEX_CDATA => GUMBO_ERR_TOKENIZER_CDATA
  end.

Definition tokenizer_add_parse_error (type : GumboErrorType) : lexer unit :=
  modify (fun t =>
    let it := _input t in
    set_input (gumbo_add_error it (Error type (utf8iterator_get_position it) (utf8iterator_get_char_pointer it)
      (ErrTokenizer (utf8iterator_current it) (error_state (_state t))))) t).

Definition is_alpha (c : Z) : bool := ((#"A" <=? c) && (c <=? #"Z")) || ((#"a" <=? c) && (c <=? #"z")).

Definition ensure_lowercase (c : Z) : Z := if (#"A" <=? c) && (c <=? #"Z") then c + 0x20 else c.

Definition get_char_token_type (is_in_cdata : bool) (c : Z) : GumboTokenType :=
  if is_in_cdata && (0 <? c) then GUMBO_TOKEN_CDATA
  else if (c =? 9) || (c =? 10) || (c =? 13) || (c =? 12) || (c =? 32) then GUMBO_TOKEN_WHITESPACE
  else if c =? 0 then GUMBO_TOKEN_NULL
  else if c =? -1 then GUMBO_TOKEN_EOF
  else GUMBO_TOKEN_CHARACTER.

Definition clear_temporary_buffer : lexer unit :=
  emit ← get _temporary_buffer_emit;
  assert (bool_decide (emit = None));;
  modify (fun t => set_input (utf8iterator_mark (_input t)) t);;
  modify (set_temporary_buffer []);;
  modify (set_script_data_buffer []).

Definition append_char_to_temporary_buffer (codepoint : Z) : lexer unit :=
  modify (fun t => set_temporary_buffer (_temporary_buffer t ++ codepoint_bytes codepoint) t).

Definition append_char_to_script_data_buffer (codepoint : Z) : lexer unit :=
  modify (fun t => set_script_data_buffer (_script_data_buffer t ++ codepoint_bytes codepoint) t).

Definition temporary_buffer_equals (text : list Z) (t : GumboTokenizerState) : bool :=
  bool_decide (_temporary_buffer t = text).

Definition doc_type_state_init : lexer unit :=
  modify (set_doc_type_state (DocType None None None false false false)).

Definition reset_token_start_point : lexer unit :=
  modify (fun t => set_token_start_pos (utf8iterator_get_position (_input t))
    (set_token_start (utf8iterator_get_char_pointer (_input t)) t)).

Definition reset_tag_buffer_start_point : lexer unit :=
  it ← get _input;
  modify_tag (set_start_pos (utf8iterator_get_position it));;
  modify_tag (set_original_text (utf8iterator_get_char_pointer it)).

(** The contents of the temporary buffer, which is cleared. *)
Definition finish_temporary_buffer : lexer (list Z) :=
  s ← get _temporary_buffer; clear_temporary_buffer;; mret s.

Definition finish_token : lexer unit :=
  r ← get _reconsume_current_input;
  (if (r : bool) then mret tt else on_input utf8iterator_next);;
  token_start_pos ← get _token_start_pos;
  token_start ← get _token_start;
  reset_token_start_point;;
  new_start ← get _token_start;
  src ← get (fun t => source (_input t));
  let len := (Z.of_nat new_start - Z.of_nat token_start) in
  last ← (if negb (u64 len =? 0) then lift (load src (token_start + Z.to_nat (u64 len) - 1)) else mret 0);
  let len := if negb (u64 len =? 0) && (last =? 13) then u64 len - 1 else u64 len in
  modify (fun t => set_output (Token (ttype (_output t)) token_start_pos (Piece token_start len) (tv (_output t))) t).

Definition finish_doctype_public_id : lexer unit :=
  s ← finish_temporary_buffer;
  modify_doc_type (fun d => DocType (dname d) (Some s) (system_identifier d) (force_quirks d)
    true (has_system_identifier d)).

Definition finish_doctype_system_id : lexer unit :=
  s ← finish_temporary_buffer;
  modify_doc_type (fun d => DocType (dname d) (public_identifier d) (Some s) (force_quirks d)
    (has_public_identifier d) true).

(** [gumbo_parser_deallocate] and [finish_temporary_buffer] of the name. *)
Definition finish_doctype_name : lexer unit :=
  s ← finish_temporary_buffer;
  modify_doc_type (fun d => DocType (Some s) (public_identifier d) (system_identifier d) (force_quirks d)
    (has_public_identifier d) (has_system_identifier d)).

(** * Emitting tokens *)
Definition set_token (type : GumboTokenType) (v : token_value) : lexer unit :=
  modify (fun t => set_output (Token type (tposition (_output t)) (toriginal_text (_output t)) v) t).

Definition emit_char (c : Z) : lexer unit :=
  cdata ← get _is_in_cdata;
  set_token (get_char_token_type cdata c) (VCharacter c);;
  finish_token.

Definition emit_replacement_char : lexer StateResult :=
  tokenizer_add_parse_error GUMBO_ERR_UTF8_NULL;;
  emit_char kUtf8ReplacementChar;;
  mret RETURN_ERROR.

Definition emit_eof : lexer StateResult := emit_char (-1);; mret RETURN_SUCCESS.

Definition emit_current_char : lexer StateResult :=
  c ← get (fun t => utf8iterator_current (_input t));
  emit_char c;;
  mret RETURN_SUCCESS.

Definition emit_doctype : lexer unit :=
  d ← get _doc_type_state;
  set_token GUMBO_TOKEN_DOCTYPE (VDocType d);;
  finish_token;;
  doc_type_state_init.

Definition mark_tag_state_as_empty : lexer unit := modify_tag (set_attributes None).

(** [gumbo_string_buffer_destroy] of the tag buffer. *)
Definition destroy_tag_buffer : lexer unit := modify_tag (set_buffer None).

Definition emit_current_tag : lexer StateResult :=
  start ← get_tag _is_start_tag;
  tag ← get_tag _tag;
  (if (start : bool) then
     attrs ← get_tag _attributes;
     self ← get_tag _is_self_closing;
     set_token GUMBO_TOKEN_START_TAG (VStartTag (StartTag tag attrs self));;
     modify_tag (set_last_start_tag tag);;
     mark_tag_state_as_empty
   else
     set_token GUMBO_TOKEN_END_TAG (VEndTag tag);;
     mark_tag_state_as_empty);;
  destroy_tag_buffer;;
  finish_token;;
  p ← get (fun t => toriginal_text (_output t));
  src ← get (fun t => source (_input t));
  assert (2 <=? plength p);;
  first ← lift (load src (pdata p));
  assert (first =? #"<");;
  last ← lift (load src (pdata p + Z.to_nat (plength p - 1)));
  assert (last =? #">");;
  mret RETURN_SUCCESS.

Definition abandon_current_tag : lexer unit := mark_tag_state_as_empty;; destroy_tag_buffer.

Section with_scanner.
Context (scan_named : list Z -> option (OneOrTwoCodepoints * nat)).

(** [consume_char_ref] always ends (CharRef.v): the fuel is enough. *)
Definition lex_char_ref (additional_allowed_char : Z) (is_in_attribute : bool) : lexer (OneOrTwoCodepoints * bool) :=
  fun t =>
    r ← consume_char_ref scan_named (_input t) additional_allowed_char is_in_attribute;
    match r with
    | Some (it, out, status) => Ok (set_input it t, (out, status))
    | None => Undef
    end.

Definition emit_char_ref (additional_allowed_char : Z) : lexer StateResult :=
  '(char_ref, status) ← lex_char_ref additional_allowed_char false;
  (if negb (first char_ref =? kGumboNoChar) then
     reconsume true;;
     emit_char (first char_ref);;
     modify (set_buffered_emit_char (second char_ref))
   else emit_char #"&");;
  mret (if (status : bool) then RETURN_SUCCESS else RETURN_ERROR).

Definition emit_comment : lexer StateResult :=
  text ← finish_temporary_buffer;
  set_token GUMBO_TOKEN_COMMENT (VText text);;
  finish_token;;
  mret RETURN_SUCCESS.

(** A [char] is signed. *)
Definition as_char (b : Z) : Z := if b <? 128 then b else b - 256.

Definition maybe_emit_from_temporary_buffer : lexer bool :=
  c ← get _temporary_buffer_emit;
  buffer ← get _temporary_buffer;
  match c with
  | Some c =>
      match buffer !! c with
      | Some b =>
          cur ← get (fun t => utf8iterator_current (_input t));
          assert (as_char b =? cur);;
          saved_reconsume_state ← get _reconsume_current_input;
          reconsume false;;
          emit_char (as_char b);;
          modify (set_temporary_buffer_emit (Some (S c)));;
          reconsume saved_reconsume_state;;
          mret true
      | None => modify (set_temporary_buffer_emit None);; mret false
      end
  | None => modify (set_temporary_buffer_emit None);; mret false
  end.

Definition emit_temporary_buffer : lexer bool :=
  on_input utf8iterator_reset;;
  modify (set_temporary_buffer_emit (Some 0%nat));;
  maybe_emit_from_temporary_buffer.

(** A [bool] returned as a [StateResult]. *)
Definition as_result (m : lexer bool) : lexer StateResult :=
  b ← m; mret (if (b : bool) then RETURN_SUCCESS else RETURN_ERROR).

(** * Tags and attributes *)
Definition tag_buffer : lexer (list Z) := b ← get_tag _buffer; lift (of_option b).

Definition append_char_to_tag_buffer (codepoint : Z) (reinitilize_position_on_first : bool) : lexer unit :=
  b ← tag_buffer;
  (if (length b =? 0)%nat && reinitilize_position_on_first then reset_tag_buffer_start_point else mret tt);;
  modify_tag (set_buffer (Some (b ++ codepoint_bytes codepoint))).

Definition initialize_tag_buffer : lexer unit :=
  modify_tag (set_buffer (Some []));; reset_tag_buffer_start_point.

Definition start_new_tag (is_start_tag : bool) : lexer unit :=
  c ← get (fun t => utf8iterator_current (_input t));
  assert (is_alpha c);;
  let c := ensure_lowercase c in
  assert (is_alpha c);;
  initialize_tag_buffer;;
  b ← tag_buffer;
  modify_tag (set_buffer (Some (b ++ codepoint_bytes c)));;
  attrs ← get_tag _attributes;
  assert (match attrs with None => true | Some _ => false end);;
  modify_tag (set_attributes (Some []));;
  modify_tag (set_drop_next_attr_value false);;
  modify_tag (set_is_start_tag is_start_tag);;
  modify_tag (set_is_self_closing false).

Definition copy_over_tag_buffer : lexer (list Z) := tag_buffer.

(** The original text, the start and the end position. *)
Definition copy_over_original_tag_text : lexer (GumboStringPiece * GumboSourcePosition * GumboSourcePosition) :=
  data ← get_tag _original_text;
  it ← get _input;
  let len := Z.of_nat (utf8iterator_get_char_pointer it) - Z.of_nat data in
  last ← lift (load (source it) (Z.to_nat (Z.of_nat data + len - 1)));
  let len := if last =? 13 then len - 1 else len in
  start ← get_tag _start_pos;
  mret (Piece data (u64 len), start, utf8iterator_get_position it).

Definition reinitialize_tag_buffer : lexer unit := initialize_tag_buffer.

Definition finish_tag_name : lexer unit :=
  b ← tag_buffer;
  tag ← lift (Tags.gumbo_tagn_enum b (length b));
  modify_tag (set_tag tag);;
  reinitialize_tag_buffer.

(** The buffer is copied and started anew only if the error is recorded. *)
Definition add_duplicate_attr_error (original_index new_index : Z) : lexer unit :=
  it ← get _input;
  if (0 <=? max_errors it) && (max_errors it <=? Z.of_nat (length (errors it))) then mret tt
  else
    start ← get_tag _start_pos;
    text ← get_tag _original_text;
    nm ← copy_over_tag_buffer;
    modify (fun t => set_input (gumbo_add_error (_input t)
      (Error GUMBO_ERR_DUPLICATE_ATTR start text (ErrDuplicateAttr nm original_index new_index))) t);;
    reinitialize_tag_buffer.

(** The index of the attribute of that name. *)
Fixpoint find_attr (attrs : list GumboAttribute) (nm : list Z) (i : nat) : option nat :=
  match attrs with
  | [] => None
  | a :: attrs => if bool_decide (name a = nm) then Some i else find_attr attrs nm (S i)
  end.

(** The fields [value_start] and [value_end] of a new attribute are not set. *)
Context (junk_pos : GumboSourcePosition).

Definition finish_attribute_name : lexer bool :=
  modify_tag (set_drop_next_attr_value false);;
  attrs ← get_tag _attributes;
  match attrs with
  | None => lift AssertFail
  | Some attrs =>
      b ← tag_buffer;
      match find_attr attrs b 0 with
      | Some i =>
          add_duplicate_attr_error (Z.of_nat i) (Z.of_nat (length attrs));;
          modify_tag (set_drop_next_attr_value true);;
          mret false
      | None =>
          nm ← copy_over_tag_buffer;
          '(oname, _, _) ← copy_over_original_tag_text;
          '(ovalue, nstart, nend) ← copy_over_original_tag_text;
          modify_tag (set_attributes (Some (attrs ++
            [Attribute GUMBO_ATTR_NAMESPACE_NONE nm oname [] ovalue nstart nend junk_pos junk_pos])));;
          reinitialize_tag_buffer;;
          mret true
      end
  end.

Definition finish_attribute_value : lexer unit :=
  drop_ ← get_tag _drop_next_attr_value;
  if (drop_ : bool) then
    modify_tag (set_drop_next_attr_value false);;
    reinitialize_tag_buffer
  else
    attrs ← get_tag _attributes;
    match attrs with
    | None => lift Undef
    | Some attrs =>
        a ← lift (of_option (last attrs));
        v ← copy_over_tag_buffer;
        '(ovalue, vstart, vend) ← copy_over_original_tag_text;
        modify_tag (set_attributes (Some (take (length attrs - 1) attrs ++
          [Attribute (attr_namespace a) (name a) (original_name a) v ovalue (name_start a) (name_end a) vstart vend])));;
        reinitialize_tag_buffer
    end.

Definition is_appropriate_end_tag : lexer bool :=
  start ← get_tag _is_start_tag;
  assert (negb start);;
  last_ ← get_tag _last_start_tag;
  if (Tags.tag_index last_ =? Tags.tag_index Tags.GUMBO_TAG_LAST)%nat then mret false
  else
    b ← tag_buffer;
    tag ← lift (Tags.gumbo_tagn_enum b (length b));
    mret (Tags.tag_index last_ =? Tags.tag_index tag)%nat.

(** * The states *)
Definition is_space (c : Z) : bool := (c =? 9) || (c =? 10) || (c =? 12) || (c =? 32).

(** [<] in a state of text: the temporary buffer starts with it. *)
Definition open_lt (s : GumboTokenizerEnum) : lexer StateResult :=
  gumbo_tokenizer_set_state s;;
  clear_temporary_buffer;;
  append_char_to_temporary_buffer #"<";;
  mret NEXT_CHAR.

Definition handle_data_state (c : Z) : lexer StateResult :=
  if c =? #"&" then
    gumbo_tokenizer_set_state GUMBO_LEX_CHAR_REF_IN_DATA;;
    reconsume true;;
    mret NEXT_CHAR
  else if c =? #"<" then open_lt GUMBO_LEX_TAG_OPEN
  else if c =? 0 then
    tokenizer_add_parse_error GUMBO_ERR_UTF8_NULL;;
    emit_char c;;
    mret RETURN_ERROR
  else emit_current_char.

Definition handle_char_ref_in_data_state (c : Z) : lexer StateResult :=
  gumbo_tokenizer_set_state GUMBO_LEX_DATA;;
  emit_char_ref #" ".

Definition handle_rcdata_state (c : Z) : lexer StateResult :=
  if c =? #"&" then
    gumbo_tokenizer_set_state GUMBO_LEX_CHAR_REF_IN_RCDATA;;
    reconsume true;;
    mret NEXT_CHAR
  else if c =? #"<" then open_lt GUMBO_LEX_RCDATA_LT
  else if c =? 0 then emit_replacement_char
  else if c =? -1 then emit_eof
  else emit_current_char.

Definition handle_char_ref_in_rcdata_state (c : Z) : lexer StateResult :=
  gumbo_tokenizer_set_state GUMBO_LEX_RCDATA;;
  emit_char_ref #" ".

Definition handle_rawtext_state (c : Z) : lexer StateResult :=
  if c =? #"<" then open_lt GUMBO_LEX_RAWTEXT_LT
  else if c =? 0 then emit_replacement_char
  else if c =? -1 then emit_eof
  else emit_current_char.

Definition handle_script_state (c : Z) : lexer StateResult :=
  if c =? #"<" then open_lt GUMBO_LEX_SCRIPT_LT
  else if c =? 0 then emit_replacement_char
  else if c =? -1 then emit_eof
  else emit_current_char.

Definition handle_plaintext_state (c : Z) : lexer StateResult :=
  if c =? 0 then emit_replacement_char
  else if c =? -1 then emit_eof
  else emit_current_char.

Definition handle_tag_open_state (c : Z) : lexer StateResult :=
  ok ← get (temporary_buffer_equals (text_of "<"));
  assert ok;;
  if c =? #"!" then
    gumbo_tokenizer_set_state GUMBO_LEX_MARKUP_DECLARATION;;
    clear_temporary_buffer;;
    mret NEXT_CHAR
  else if c =? #"/" then
    gumbo_tokenizer_set_state GUMBO_LEX_END_TAG_OPEN;;
    append_char_to_temporary_buffer #"/";;
    mret NEXT_CHAR
  else if c =? #"?" then
    gumbo_tokenizer_set_state GUMBO_LEX_BOGUS_COMMENT;;
    clear_temporary_buffer;;
    append_char_to_temporary_buffer #"?";;
    tokenizer_add_parse_error GUMBO_ERR_TAG_STARTS_WITH_QUESTION;;
    mret NEXT_CHAR
  else if is_alpha c then
    gumbo_tokenizer_set_state GUMBO_LEX_TAG_NAME;;
    start_new_tag true;;
    mret NEXT_CHAR
  else
    tokenizer_add_parse_error GUMBO_ERR_TAG_INVALID;;
    gumbo_tokenizer_set_state GUMBO_LEX_DATA;;
    emit_temporary_buffer;;
    mret RETURN_ERROR.

Definition handle_end_tag_open_state (c : Z) : lexer StateResult :=
  ok ← get (temporary_buffer_equals (text_of "</"));
  assert ok;;
  if c =? #">" then
    tokenizer_add_parse_error GUMBO_ERR_CLOSE_TAG_EMPTY;;
    gumbo_tokenizer_set_state GUMBO_LEX_DATA;;
    mret NEXT_CHAR
  else if c =? -1 then
    tokenizer_add_parse_error GUMBO_ERR_CLOSE_TAG_EOF;;
    gumbo_tokenizer_set_state GUMBO_LEX_DATA;;
    as_result emit_temporary_buffer
  else if is_alpha c then
    gumbo_tokenizer_set_state GUMBO_LEX_TAG_NAME;;
    start_new_tag false;;
    mret NEXT_CHAR
  else
    tokenizer_add_parse_error GUMBO_ERR_CLOSE_TAG_INVALID;;
    gumbo_tokenizer_set_state GUMBO_LEX_BOGUS_COMMENT;;
    clear_temporary_buffer;;
    append_char_to_temporary_buffer c;;
    mret NEXT_CHAR.

Definition handle_tag_name_state (c : Z) : lexer StateResult :=
  if is_space c then
    finish_tag_name;;
    gumbo_tokenizer_set_state GUMBO_LEX_BEFORE_ATTR_NAME;;
    mret NEXT_CHAR
  else if c =? #"/" then
    finish_tag_name;;
    gumbo_tokenizer_set_state GUMBO_LEX_SELF_CLOSING_START_TAG;;
    mret NEXT_CHAR
  else if c =? #">" then
    finish_tag_name;;
    gumbo_tokenizer_set_state GUMBO_LEX_DATA;;
    emit_current_tag
  else if c =? 0 then
    tokenizer_add_parse_error GUMBO_ERR_UTF8_NULL;;
    append_char_to_tag_buffer kUtf8ReplacementChar true;;
    mret NEXT_CHAR
  else if c =? -1 then
    tokenizer_add_parse_error GUMBO_ERR_TAG_EOF;;
    abandon_current_tag;;
    gumbo_tokenizer_set_state GUMBO_LEX_DATA;;
    mret NEXT_CHAR
  else
    append_char_to_tag_buffer (ensure_lowercase c) true;;
    mret NEXT_CHAR.

(** The three states of RCDATA, and likewise of RAWTEXT and script data: [<],
    [</] and [</name]. *)
Definition handle_rcdata_lt_state (c : Z) : lexer StateResult :=
  ok ← get (temporary_buffer_equals (text_of "<"));
  assert ok;;
  if c =? #"/" then
    gumbo_tokenizer_set_state GUMBO_LEX_RCDATA_END_TAG_OPEN;;
    append_char_to_temporary_buffer #"/";;
    mret NEXT_CHAR
  else
    gumbo_tokenizer_set_state GUMBO_LEX_RCDATA;;
    reconsume true;;
    as_result emit_temporary_buffer.

(** [</] followed by [c] in the text state [text]. *)
Definition end_tag_open (name_state text : GumboTokenizerEnum) (c : Z) : lexer StateResult :=
  ok ← get (temporary_buffer_equals (text_of "</"));
  assert ok;;
  if is_alpha c then
    gumbo_tokenizer_set_state name_state;;
    start_new_tag false;;
    append_char_to_temporary_buffer c;;
    mret NEXT_CHAR
  else
    gumbo_tokenizer_set_state text;;
    as_result emit_temporary_buffer.

Definition handle_rcdata_end_tag_open_state (c : Z) : lexer StateResult :=
  end_tag_open GUMBO_LEX_RCDATA_END_TAG_NAME GUMBO_LEX_RCDATA c.

(** The name of an end tag in the text state [text]. *)
Definition end_tag_name (text : GumboTokenizerEnum) (c : Z) : lexer StateResult :=
  len ← get (fun t => length (_temporary_buffer t));
  assert (2 <=? len)%nat;;
  if is_alpha c then
    append_char_to_tag_buffer (ensure_lowercase c) true;;
    append_char_to_temporary_buffer c;;
    mret NEXT_CHAR
  else
    appropriate ← is_appropriate_end_tag;
    if appropriate && is_space c then
      finish_tag_name;;
      gumbo_tokenizer_set_state GUMBO_LEX_BEFORE_ATTR_NAME;;
      mret NEXT_CHAR
    else if appropriate && (c =? #"/") then
      finish_tag_name;;
      gumbo_tokenizer_set_state GUMBO_LEX_SELF_CLOSING_START_TAG;;
      mret NEXT_CHAR
    else if appropriate && (c =? #">") then
      finish_tag_name;;
      gumbo_tokenizer_set_state GUMBO_LEX_DATA;;
      emit_current_tag
    else
      gumbo_tokenizer_set_state text;;
      abandon_current_tag;;
      as_result emit_temporary_buffer.

Definition handle_rcdata_end_tag_name_state (c : Z) : lexer StateResult := end_tag_name GUMBO_LEX_RCDATA c.

Definition handle_rawtext_lt_state (c : Z) : lexer StateResult :=
  ok ← get (temporary_buffer_equals (text_of "<"));
  assert ok;;
  if c =? #"/" then
    gumbo_tokenizer_set_state GUMBO_LEX_RAWTEXT_END_TAG_OPEN;;
    append_char_to_temporary_buffer #"/";;
    mret NEXT_CHAR
  else
    gumbo_tokenizer_set_state GUMBO_LEX_RAWTEXT;;
    reconsume true;;
    as_result emit_temporary_buffer.

Definition handle_rawtext_end_tag_open_state (c : Z) : lexer StateResult :=
  end_tag_open GUMBO_LEX_RAWTEXT_END_TAG_NAME GUMBO_LEX_RAWTEXT c.

Definition handle_rawtext_end_tag_name_state (c : Z) : lexer StateResult := end_tag_name GUMBO_LEX_RAWTEXT c.

Definition handle_script_lt_state (c : Z) : lexer StateResult :=
  ok ← get (temporary_buffer_equals (text_of "<"));
  assert ok;;
  if c =? #"/" then
    gumbo_tokenizer_set_state GUMBO_LEX_SCRIPT_END_TAG_OPEN;;
    append_char_to_temporary_buffer #"/";;
    mret NEXT_CHAR
  else if c =? #"!" then
    gumbo_tokenizer_set_state GUMBO_LEX_SCRIPT_ESCAPED_START;;
    append_char_to_temporary_buffer #"!";;
    as_result emit_temporary_buffer
  else
    gumbo_tokenizer_set_state GUMBO_LEX_SCRIPT;;
    reconsume true;;
    as_result emit_temporary_buffer.

Definition handle_script_end_tag_open_state (c : Z) : lexer StateResult :=
  end_tag_open GUMBO_LEX_SCRIPT_END_TAG_NAME GUMBO_LEX_SCRIPT c.

Definition handle_script_end_tag_name_state (c : Z) : lexer StateResult := end_tag_name GUMBO_LEX_SCRIPT c.

Definition handle_script_escaped_start_state (c : Z) : lexer StateResult :=
  if c =? #"-" then
    gumbo_tokenizer_set_state GUMBO_LEX_SCRIPT_ESCAPED_START_DASH;;
    emit_current_char
  else
    gumbo_tokenizer_set_state GUMBO_LEX_SCRIPT;;
    reconsume true;;
    mret NEXT_CHAR.

Definition handle_script_escaped_start_dash_state (c : Z) : lexer StateResult :=
  if c =? #"-" then
    gumbo_tokenizer_set_state GUMBO_LEX_SCRIPT_ESCAPED_DASH_DASH;;
    emit_current_char
  else
    gumbo_tokenizer_set_state GUMBO_LEX_SCRIPT;;
    reconsume true;;
    mret NEXT_CHAR.

Definition handle_script_escaped_state (c : Z) : lexer StateResult :=
  if c =? #"-" then
    gumbo_tokenizer_set_state GUMBO_LEX_SCRIPT_ESCAPED_DASH;;
    emit_current_char
  else if c =? #"<" then
    gumbo_tokenizer_set_state GUMBO_LEX_SCRIPT_ESCAPED_LT;;
    clear_temporary_buffer;;
    append_char_to_temporary_buffer c;;
    mret NEXT_CHAR
  else if c =? 0 then emit_replacement_char
  else if c =? -1 then
    tokenizer_add_parse_error GUMBO_ERR_SCRIPT_EOF;;
    emit_eof
  else emit_current_char.

Definition handle_script_escaped_dash_state (c : Z) : lexer StateResult :=
  if c =? #"-" then
    gumbo_tokenizer_set_state GUMBO_LEX_SCRIPT_ESCAPED_DASH_DASH;;
    emit_current_char
  else if c =? #"<" then
    gumbo_tokenizer_set_state GUMBO_LEX_SCRIPT_ESCAPED_LT;;
    clear_temporary_buffer;;
    append_char_to_temporary_buffer c;;
    mret NEXT_CHAR
  else if c =? 0 then
    gumbo_tokenizer_set_state GUMBO_LEX_SCRIPT_ESCAPED;;
    emit_replacement_char
  else if c =? -1 then
    tokenizer_add_parse_error GUMBO_ERR_SCRIPT_EOF;;
    gumbo_tokenizer_set_state GUMBO_LEX_DATA;;
    mret NEXT_CHAR
  else
    gumbo_tokenizer_set_state GUMBO_LEX_SCRIPT_ESCAPED;;
    emit_current_char.

Definition handle_script_escaped_dash_dash_state (c : Z) : lexer StateResult :=
  if c =? #"-" then emit_current_char
  else if c =? #"<" then
    gumbo_tokenizer_set_state GUMBO_LEX_SCRIPT_ESCAPED_LT;;
    clear_temporary_buffer;;
    append_char_to_temporary_buffer c;;
    mret NEXT_CHAR
  else if c =? #">" then
    gumbo_tokenizer_set_state GUMBO_LEX_SCRIPT;;
    emit_current_char
  else if c =? 0 then
    gumbo_tokenizer_set_state GUMBO_LEX_SCRIPT_ESCAPED;;
    emit_replacement_char
  else if c =? -1 then
    tokenizer_add_parse_error GUMBO_ERR_SCRIPT_EOF;;
    gumbo_tokenizer_set_state GUMBO_LEX_DATA;;
    mret NEXT_CHAR
  else
    gumbo_tokenizer_set_state GUMBO_LEX_SCRIPT_ESCAPED;;
    emit_current_char.

Definition handle_script_escaped_lt_state (c : Z) : lexer StateResult :=
  ok ← get (temporary_buffer_equals (text_of "<"));
  assert ok;;
  len ← get (fun t => length (_script_data_buffer t));
  assert (len =? 0)%nat;;
  if c =? #"/" then
    gumbo_tokenizer_set_state GUMBO_LEX_SCRIPT_ESCAPED_END_TAG_OPEN;;
    append_char_to_temporary_buffer c;;
    mret NEXT_CHAR
  else if is_alpha c then
    gumbo_tokenizer_set_state GUMBO_LEX_SCRIPT_DOUBLE_ESCAPED_START;;
    append_char_to_temporary_buffer c;;
    append_char_to_script_data_buffer (ensure_lowercase c);;
    as_result emit_temporary_buffer
  else
    gumbo_tokenizer_set_state GUMBO_LEX_SCRIPT_ESCAPED;;
    as_result emit_temporary_buffer.

Definition handle_script_escaped_end_tag_open_state (c : Z) : lexer StateResult :=
  end_tag_open GUMBO_LEX_SCRIPT_ESCAPED_END_TAG_NAME GUMBO_LEX_SCRIPT_ESCAPED c.

Definition handle_script_escaped_end_tag_name_state (c : Z) : lexer StateResult :=
  end_tag_name GUMBO_LEX_SCRIPT_ESCAPED c.

Definition handle_script_double_escaped_start_state (c : Z) : lexer StateResult :=
  if is_space c || (c =? #"/") || (c =? #">") then
    b ← get _script_data_buffer;
    gumbo_tokenizer_set_state
      (if gumbo_string_equals (text_of "script") b then GUMBO_LEX_SCRIPT_DOUBLE_ESCAPED
       else GUMBO_LEX_SCRIPT_ESCAPED);;
    emit_current_char
  else if is_alpha c then
    append_char_to_script_data_buffer (ensure_lowercase c);;
    emit_current_char
  else
    gumbo_tokenizer_set_state GUMBO_LEX_SCRIPT_ESCAPED;;
    reconsume true;;
    mret NEXT_CHAR.

Definition handle_script_double_escaped_state (c : Z) : lexer StateResult :=
  if c =? #"-" then
    gumbo_tokenizer_set_state GUMBO_LEX_SCRIPT_DOUBLE_ESCAPED_DASH;;
    emit_current_char
  else if c =? #"<" then
    gumbo_tokenizer_set_state GUMBO_LEX_SCRIPT_DOUBLE_ESCAPED_LT;;
    emit_current_char
  else if c =? 0 then emit_replacement_char
  else if c =? -1 then
    tokenizer_add_parse_error GUMBO_ERR_SCRIPT_EOF;;
    gumbo_tokenizer_set_state GUMBO_LEX_DATA;;
    mret NEXT_CHAR
  else emit_current_char.

Definition handle_script_double_escaped_dash_state (c : Z) : lexer StateResult :=
  if c =? #"-" then
    gumbo_tokenizer_set_state GUMBO_LEX_SCRIPT_DOUBLE_ESCAPED_DASH_DASH;;
    emit_current_char
  else if c =? #"<" then
    gumbo_tokenizer_set_state GUMBO_LEX_SCRIPT_DOUBLE_ESCAPED_LT;;
    emit_current_char
  else if c =? 0 then
    gumbo_tokenizer_set_state GUMBO_LEX_SCRIPT_DOUBLE_ESCAPED;;
    emit_replacement_char
  else if c =? -1 then
    tokenizer_add_parse_error GUMBO_ERR_SCRIPT_EOF;;
    gumbo_tokenizer_set_state GUMBO_LEX_DATA;;
    mret NEXT_CHAR
  else
    gumbo_tokenizer_set_state GUMBO_LEX_SCRIPT_DOUBLE_ESCAPED;;
    emit_current_char.

Definition handle_script_double_escaped_dash_dash_state (c : Z) : lexer StateResult :=
  if c =? #"-" then emit_current_char
  else if c =? #"<" then
    gumbo_tokenizer_set_state GUMBO_LEX_SCRIPT_DOUBLE_ESCAPED_LT;;
    emit_current_char
  else if c =? #">" then
    gumbo_tokenizer_set_state GUMBO_LEX_SCRIPT;;
    emit_current_char
  else if c =? 0 then
    gumbo_tokenizer_set_state GUMBO_LEX_SCRIPT_DOUBLE_ESCAPED;;
    emit_replacement_char
  else if c =? -1 then
    tokenizer_add_parse_error GUMBO_ERR_SCRIPT_EOF;;
    gumbo_tokenizer_set_state GUMBO_LEX_DATA;;
    mret NEXT_CHAR
  else
    gumbo_tokenizer_set_state GUMBO_LEX_SCRIPT_DOUBLE_ESCAPED;;
    emit_current_char.

Definition handle_script_double_escaped_lt_state (c : Z) : lexer StateResult :=
  if c =? #"/" then
    gumbo_tokenizer_set_state GUMBO_LEX_SCRIPT_DOUBLE_ESCAPED_END;;
    modify (set_script_data_buffer []);;
    emit_current_char
  else
    gumbo_tokenizer_set_state GUMBO_LEX_SCRIPT_DOUBLE_ESCAPED;;
    reconsume true;;
    mret NEXT_CHAR.

Definition handle_script_double_escaped_end_state (c : Z) : lexer StateResult :=
  if is_space c || (c =? #"/") || (c =? #">") then
    b ← get _script_data_buffer;
    gumbo_tokenizer_set_state
      (if gumbo_string_equals (text_of "script") b then GUMBO_LEX_SCRIPT_ESCAPED
       else GUMBO_LEX_SCRIPT_DOUBLE_ESCAPED);;
    emit_current_char
  else if is_alpha c then
    append_char_to_script_data_buffer (ensure_lowercase c);;
    emit_current_char
  else
    gumbo_tokenizer_set_state GUMBO_LEX_SCRIPT_DOUBLE_ESCAPED;;
    reconsume true;;
    mret NEXT_CHAR.

(** ** Attributes *)

(** The end of the input within a tag: the tag is dropped. *)
Definition tag_eof (type : GumboErrorType) : lexer StateResult :=
  tokenizer_add_parse_error type;;
  gumbo_tokenizer_set_state GUMBO_LEX_DATA;;
  abandon_current_tag;;
  mret NEXT_CHAR.

Definition handle_before_attr_name_state (c : Z) : lexer StateResult :=
  if is_space c then mret NEXT_CHAR
  else if c =? #"/" then
    gumbo_tokenizer_set_state GUMBO_LEX_SELF_CLOSING_START_TAG;;
    mret NEXT_CHAR
  else if c =? #">" then
    gumbo_tokenizer_set_state GUMBO_LEX_DATA;;
    emit_current_tag
  else if c =? 0 then
    tokenizer_add_parse_error GUMBO_ERR_UTF8_NULL;;
    gumbo_tokenizer_set_state GUMBO_LEX_ATTR_NAME;;
    append_char_to_temporary_buffer 0xfffd;;
    mret NEXT_CHAR
  else if c =? -1 then tag_eof GUMBO_ERR_ATTR_NAME_EOF
  else
    (if (c =? 34) || (c =? #"'") || (c =? #"<") || (c =? #"=")
     then tokenizer_add_parse_error GUMBO_ERR_ATTR_NAME_INVALID else mret tt);;
    gumbo_tokenizer_set_state GUMBO_LEX_ATTR_NAME;;
    append_char_to_tag_buffer (ensure_lowercase c) true;;
    mret NEXT_CHAR.

Definition handle_attr_name_state (c : Z) : lexer StateResult :=
  if is_space c then
    finish_attribute_name;;
    gumbo_tokenizer_set_state GUMBO_LEX_AFTER_ATTR_NAME;;
    mret NEXT_CHAR
  else if c =? #"/" then
    finish_attribute_name;;
    gumbo_tokenizer_set_state GUMBO_LEX_SELF_CLOSING_START_TAG;;
    mret NEXT_CHAR
  else if c =? #"=" then
    finish_attribute_name;;
    gumbo_tokenizer_set_state GUMBO_LEX_BEFORE_ATTR_VALUE;;
    mret NEXT_CHAR
  else if c =? #">" then
    finish_attribute_name;;
    gumbo_tokenizer_set_state GUMBO_LEX_DATA;;
    emit_current_tag
  else if c =? 0 then
    tokenizer_add_parse_error GUMBO_ERR_UTF8_NULL;;
    append_char_to_tag_buffer kUtf8ReplacementChar true;;
    mret NEXT_CHAR
  else if c =? -1 then
    gumbo_tokenizer_set_state GUMBO_LEX_DATA;;
    abandon_current_tag;;
    tokenizer_add_parse_error GUMBO_ERR_ATTR_NAME_EOF;;
    mret NEXT_CHAR
  else
    (if (c =? 34) || (c =? #"'") || (c =? #"<")
     then tokenizer_add_parse_error GUMBO_ERR_ATTR_NAME_INVALID else mret tt);;
    append_char_to_tag_buffer (ensure_lowercase c) true;;
    mret NEXT_CHAR.

Definition handle_after_attr_name_state (c : Z) : lexer StateResult :=
  if is_space c then mret NEXT_CHAR
  else if c =? #"/" then
    gumbo_tokenizer_set_state GUMBO_LEX_SELF_CLOSING_START_TAG;;
    mret NEXT_CHAR
  else if c =? #"=" then
    gumbo_tokenizer_set_state GUMBO_LEX_BEFORE_ATTR_VALUE;;
    mret NEXT_CHAR
  else if c =? #">" then
    gumbo_tokenizer_set_state GUMBO_LEX_DATA;;
    emit_current_tag
  else if c =? 0 then
    tokenizer_add_parse_error GUMBO_ERR_UTF8_NULL;;
    gumbo_tokenizer_set_state GUMBO_LEX_ATTR_NAME;;
    append_char_to_temporary_buffer 0xfffd;;
    mret NEXT_CHAR
  else if c =? -1 then tag_eof GUMBO_ERR_ATTR_NAME_EOF
  else
    (if (c =? 34) || (c =? #"'") || (c =? #"<")
     then tokenizer_add_parse_error GUMBO_ERR_ATTR_NAME_INVALID else mret tt);;
    gumbo_tokenizer_set_state GUMBO_LEX_ATTR_NAME;;
    append_char_to_tag_buffer (ensure_lowercase c) true;;
    mret NEXT_CHAR.

Definition handle_before_attr_value_state (c : Z) : lexer StateResult :=
  if is_space c then mret NEXT_CHAR
  else if c =? 34 then
    gumbo_tokenizer_set_state GUMBO_LEX_ATTR_VALUE_DOUBLE_QUOTED;;
    reset_tag_buffer_start_point;;
    mret NEXT_CHAR
  else if c =? #"&" then
    gumbo_tokenizer_set_state GUMBO_LEX_ATTR_VALUE_UNQUOTED;;
    reconsume true;;
    mret NEXT_CHAR
  else if c =? #"'" then
    gumbo_tokenizer_set_state GUMBO_LEX_ATTR_VALUE_SINGLE_QUOTED;;
    reset_tag_buffer_start_point;;
    mret NEXT_CHAR
  else if c =? 0 then
    tokenizer_add_parse_error GUMBO_ERR_UTF8_NULL;;
    gumbo_tokenizer_set_state GUMBO_LEX_ATTR_VALUE_UNQUOTED;;
    append_char_to_tag_buffer kUtf8ReplacementChar true;;
    mret NEXT_CHAR
  else if c =? -1 then
    tokenizer_add_parse_error GUMBO_ERR_ATTR_UNQUOTED_EOF;;
    gumbo_tokenizer_set_state GUMBO_LEX_DATA;;
    abandon_current_tag;;
    reconsume true;;
    mret NEXT_CHAR
  else if c =? #">" then
    tokenizer_add_parse_error GUMBO_ERR_ATTR_UNQUOTED_RIGHT_BRACKET;;
    gumbo_tokenizer_set_state GUMBO_LEX_DATA;;
    emit_current_tag;;
    mret RETURN_ERROR
  else
    (if (c =? #"<") || (c =? #"=") || (c =? #"`")
     then tokenizer_add_parse_error GUMBO_ERR_ATTR_UNQUOTED_EQUALS else mret tt);;
    gumbo_tokenizer_set_state GUMBO_LEX_ATTR_VALUE_UNQUOTED;;
    append_char_to_tag_buffer c true;;
    mret NEXT_CHAR.

(** [&] in an attribute value. *)
Definition attr_char_ref : lexer StateResult :=
  s ← get _state;
  modify_tag (set_attr_value_state s);;
  gumbo_tokenizer_set_state GUMBO_LEX_CHAR_REF_IN_ATTR_VALUE;;
  reconsume true;;
  mret NEXT_CHAR.

(** An attribute value in the quotes [q]. *)
Definition attr_value_quoted (q : Z) (eof : GumboErrorType) (c : Z) : lexer StateResult :=
  if c =? q then
    gumbo_tokenizer_set_state GUMBO_LEX_AFTER_ATTR_VALUE_QUOTED;;
    mret NEXT_CHAR
  else if c =? #"&" then attr_char_ref
  else if c =? 0 then
    tokenizer_add_parse_error GUMBO_ERR_UTF8_NULL;;
    append_char_to_tag_buffer kUtf8ReplacementChar false;;
    mret NEXT_CHAR
  else if c =? -1 then
    tokenizer_add_parse_error eof;;
    gumbo_tokenizer_set_state GUMBO_LEX_DATA;;
    abandon_current_tag;;
    reconsume true;;
    mret NEXT_CHAR
  else
    append_char_to_tag_buffer c false;;
    mret NEXT_CHAR.

Definition handle_attr_value_double_quoted_state (c : Z) : lexer StateResult :=
  attr_value_quoted 34 GUMBO_ERR_ATTR_DOUBLE_QUOTE_EOF c.

Definition handle_attr_value_single_quoted_state (c : Z) : lexer StateResult :=
  attr_value_quoted #"'" GUMBO_ERR_ATTR_SINGLE_QUOTE_EOF c.

Definition handle_attr_value_unquoted_state (c : Z) : lexer StateResult :=
  if is_space c then
    gumbo_tokenizer_set_state GUMBO_LEX_BEFORE_ATTR_NAME;;
    finish_attribute_value;;
    mret NEXT_CHAR
  else if c =? #"&" then attr_char_ref
  else if c =? #">" then
    gumbo_tokenizer_set_state GUMBO_LEX_DATA;;
    finish_attribute_value;;
    emit_current_tag
  else if c =? 0 then
    tokenizer_add_parse_error GUMBO_ERR_UTF8_NULL;;
    append_char_to_tag_buffer kUtf8ReplacementChar true;;
    mret NEXT_CHAR
  else if c =? -1 then
    tokenizer_add_parse_error GUMBO_ERR_ATTR_UNQUOTED_EOF;;
    gumbo_tokenizer_set_state GUMBO_LEX_DATA;;
    reconsume true;;
    abandon_current_tag;;
    mret NEXT_CHAR
  else
    (if (c =? #"<") || (c =? #"=") || (c =? 34) || (c =? #"'") || (c =? #"`")
     then tokenizer_add_parse_error GUMBO_ERR_ATTR_UNQUOTED_EQUALS else mret tt);;
    append_char_to_tag_buffer c true;;
    mret NEXT_CHAR.

Definition handle_char_ref_in_attr_value_state (c : Z) : lexer StateResult :=
  s ← get_tag _attr_value_state;
  '(allowed_char, is_unquoted) ←
    match s with
    | GUMBO_LEX_ATTR_VALUE_DOUBLE_QUOTED => mret (34, false)
    | GUMBO_LEX_ATTR_VALUE_SINGLE_QUOTED => mret (#"'", false)
    | GUMBO_LEX_ATTR_VALUE_UNQUOTED => mret (#">", true)
    | _ => lift AssertFail
    end;
  '(char_ref, _) ← lex_char_ref allowed_char true;
  (if negb (first char_ref =? kGumboNoChar) then
     reconsume true;;
     append_char_to_tag_buffer (first char_ref) is_unquoted;;
     (if negb (second char_ref =? kGumboNoChar)
      then append_char_to_tag_buffer (second char_ref) is_unquoted else mret tt)
   else append_char_to_tag_buffer #"&" is_unquoted);;
  gumbo_tokenizer_set_state s;;
  mret NEXT_CHAR.

Definition handle_after_attr_value_quoted_state (c : Z) : lexer StateResult :=
  finish_attribute_value;;
  if is_space c then
    gumbo_tokenizer_set_state GUMBO_LEX_BEFORE_ATTR_NAME;;
    mret NEXT_CHAR
  else if c =? #"/" then
    gumbo_tokenizer_set_state GUMBO_LEX_SELF_CLOSING_START_TAG;;
    mret NEXT_CHAR
  else if c =? #">" then
    gumbo_tokenizer_set_state GUMBO_LEX_DATA;;
    emit_current_tag
  else if c =? -1 then
    tokenizer_add_parse_error GUMBO_ERR_ATTR_AFTER_EOF;;
    gumbo_tokenizer_set_state GUMBO_LEX_DATA;;
    abandon_current_tag;;
    reconsume true;;
    mret NEXT_CHAR
  else
    tokenizer_add_parse_error GUMBO_ERR_ATTR_AFTER_INVALID;;
    gumbo_tokenizer_set_state GUMBO_LEX_BEFORE_ATTR_NAME;;
    reconsume true;;
    mret NEXT_CHAR.

Definition handle_self_closing_start_tag_state (c : Z) : lexer StateResult :=
  if c =? #">" then
    gumbo_tokenizer_set_state GUMBO_LEX_DATA;;
    modify_tag (set_is_self_closing true);;
    emit_current_tag
  else if c =? -1 then tag_eof GUMBO_ERR_SOLIDUS_EOF
  else
    tokenizer_add_parse_error GUMBO_ERR_SOLIDUS_INVALID;;
    gumbo_tokenizer_set_state GUMBO_LEX_BEFORE_ATTR_NAME;;
    reconsume true;;
    mret NEXT_CHAR.

(** ** Comments *)

(** The loop over a bogus comment.  Every character takes a byte of the input, so
    as many iterations as the input has bytes are enough. *)
Fixpoint bogus_comment_loop (fuel : nat) (c : Z) : lexer unit :=
  if (c =? #">") || (c =? -1) then mret tt
  else match fuel with
       | O => lift Undef
       | S fuel =>
           append_char_to_temporary_buffer (if c =? 0 then 0xFFFD else c);;
           on_input utf8iterator_next;;
           c ← get (fun t => utf8iterator_current (_input t));
           bogus_comment_loop fuel c
       end.

Definition handle_bogus_comment_state (c : Z) : lexer StateResult :=
  n ← get (fun t => length (source (_input t)));
  bogus_comment_loop n c;;
  gumbo_tokenizer_set_state GUMBO_LEX_DATA;;
  emit_comment.

Definition maybe_consume_match (prefix : string) (case_sensitive : bool) : lexer bool := fun t =>
  '(it, matched) ← utf8iterator_maybe_consume_match (_input t) (text_of prefix) case_sensitive;
  Ok (set_input it t, matched).

Definition handle_markup_declaration_state (c : Z) : lexer StateResult :=
  dashes ← maybe_consume_match "--" true;
  if (dashes : bool) then
    gumbo_tokenizer_set_state GUMBO_LEX_COMMENT_START;;
    reconsume true;;
    mret NEXT_CHAR
  else
    doctype ← maybe_consume_match "DOCTYPE" false;
    if (doctype : bool) then
      gumbo_tokenizer_set_state GUMBO_LEX_DOCTYPE;;
      reconsume true;;
      modify_doc_type (fun d => DocType (Some []) (Some []) (Some []) (force_quirks d)
        (has_public_identifier d) (has_system_identifier d));;
      mret NEXT_CHAR
    else
      foreign ← get _is_current_node_foreign;
      cdata ← (if (foreign : bool) then maybe_consume_match "[CDATA[" true else mret false);
      if (cdata : bool) then
        gumbo_tokenizer_set_state GUMBO_LEX_CDATA;;
        modify (set_is_in_cdata true);;
        reconsume true;;
        mret NEXT_CHAR
      else
        tokenizer_add_parse_error GUMBO_ERR_DASHES_OR_DOCTYPE;;
        gumbo_tokenizer_set_state GUMBO_LEX_BOGUS_COMMENT;;
        reconsume true;;
        clear_temporary_buffer;;
        mret NEXT_CHAR.

(** A comment that ends with an error. *)
Definition comment_error (type : GumboErrorType) : lexer StateResult :=
  tokenizer_add_parse_error type;;
  gumbo_tokenizer_set_state GUMBO_LEX_DATA;;
  emit_comment;;
  mret RETURN_ERROR.

Definition handle_comment_start_state (c : Z) : lexer StateResult :=
  if c =? #"-" then
    gumbo_tokenizer_set_state GUMBO_LEX_COMMENT_START_DASH;;
    mret NEXT_CHAR
  else if c =? 0 then
    tokenizer_add_parse_error GUMBO_ERR_UTF8_NULL;;
    gumbo_tokenizer_set_state GUMBO_LEX_COMMENT;;
    append_char_to_temporary_buffer kUtf8ReplacementChar;;
    mret NEXT_CHAR
  else if c =? #">" then comment_error GUMBO_ERR_COMMENT_INVALID
  else if c =? -1 then comment_error GUMBO_ERR_COMMENT_EOF
  else
    gumbo_tokenizer_set_state GUMBO_LEX_COMMENT;;
    append_char_to_temporary_buffer c;;
    mret NEXT_CHAR.

Definition handle_comment_start_dash_state (c : Z) : lexer StateResult :=
  if c =? #"-" then
    gumbo_tokenizer_set_state GUMBO_LEX_COMMENT_END;;
    mret NEXT_CHAR
  else if c =? 0 then
    tokenizer_add_parse_error GUMBO_ERR_UTF8_NULL;;
    gumbo_tokenizer_set_state GUMBO_LEX_COMMENT;;
    append_char_to_temporary_buffer #"-";;
    append_char_to_temporary_buffer kUtf8ReplacementChar;;
    mret NEXT_CHAR
  else if c =? #">" then comment_error GUMBO_ERR_COMMENT_INVALID
  else if c =? -1 then comment_error GUMBO_ERR_COMMENT_EOF
  else
    gumbo_tokenizer_set_state GUMBO_LEX_COMMENT;;
    append_char_to_temporary_buffer #"-";;
    append_char_to_temporary_buffer c;;
    mret NEXT_CHAR.

Definition handle_comment_state (c : Z) : lexer StateResult :=
  if c =? #"-" then
    gumbo_tokenizer_set_state GUMBO_LEX_COMMENT_END_DASH;;
    mret NEXT_CHAR
  else if c =? 0 then
    tokenizer_add_parse_error GUMBO_ERR_UTF8_NULL;;
    append_char_to_temporary_buffer kUtf8ReplacementChar;;
    mret NEXT_CHAR
  else if c =? -1 then comment_error GUMBO_ERR_COMMENT_EOF
  else
    append_char_to_temporary_buffer c;;
    mret NEXT_CHAR.

Definition handle_comment_end_dash_state (c : Z) : lexer StateResult :=
  if c =? #"-" then
    gumbo_tokenizer_set_state GUMBO_LEX_COMMENT_END;;
    mret NEXT_CHAR
  else if c =? 0 then
    tokenizer_add_parse_error GUMBO_ERR_UTF8_NULL;;
    gumbo_tokenizer_set_state GUMBO_LEX_COMMENT;;
    append_char_to_temporary_buffer #"-";;
    append_char_to_temporary_buffer kUtf8ReplacementChar;;
    mret NEXT_CHAR
  else if c =? -1 then comment_error GUMBO_ERR_COMMENT_EOF
  else
    gumbo_tokenizer_set_state GUMBO_LEX_COMMENT;;
    append_char_to_temporary_buffer #"-";;
    append_char_to_temporary_buffer c;;
    mret NEXT_CHAR.

Definition handle_comment_end_state (c : Z) : lexer StateResult :=
  if c =? #">" then
    gumbo_tokenizer_set_state GUMBO_LEX_DATA;;
    emit_comment
  else if c =? 0 then
    tokenizer_add_parse_error GUMBO_ERR_UTF8_NULL;;
    gumbo_tokenizer_set_state GUMBO_LEX_COMMENT;;
    append_char_to_temporary_buffer #"-";;
    append_char_to_temporary_buffer #"-";;
    append_char_to_temporary_buffer kUtf8ReplacementChar;;
    mret NEXT_CHAR
  else if c =? #"!" then
    tokenizer_add_parse_error GUMBO_ERR_COMMENT_BANG_AFTER_DOUBLE_DASH;;
    gumbo_tokenizer_set_state GUMBO_LEX_COMMENT_END_BANG;;
    mret NEXT_CHAR
  else if c =? #"-" then
    tokenizer_add_parse_error GUMBO_ERR_COMMENT_DASH_AFTER_DOUBLE_DASH;;
    append_char_to_temporary_buffer #"-";;
    mret NEXT_CHAR
  else if c =? -1 then comment_error GUMBO_ERR_UTF8_NULL
  else
    tokenizer_add_parse_error GUMBO_ERR_COMMENT_INVALID;;
    gumbo_tokenizer_set_state GUMBO_LEX_COMMENT;;
    append_char_to_temporary_buffer #"-";;
    append_char_to_temporary_buffer #"-";;
    append_char_to_temporary_buffer c;;
    mret NEXT_CHAR.

Definition handle_comment_end_bang_state (c : Z) : lexer StateResult :=
  if c =? #"-" then
    gumbo_tokenizer_set_state GUMBO_LEX_COMMENT_END_DASH;;
    append_char_to_temporary_buffer #"-";;
    append_char_to_temporary_buffer #"-";;
    append_char_to_temporary_buffer #"!";;
    mret NEXT_CHAR
  else if c =? #">" then
    gumbo_tokenizer_set_state GUMBO_LEX_DATA;;
    emit_comment
  else if c =? 0 then
    tokenizer_add_parse_error GUMBO_ERR_UTF8_NULL;;
    gumbo_tokenizer_set_state GUMBO_LEX_COMMENT;;
    append_char_to_temporary_buffer #"-";;
    append_char_to_temporary_buffer #"-";;
    append_char_to_temporary_buffer #"!";;
    append_char_to_temporary_buffer kUtf8ReplacementChar;;
    mret NEXT_CHAR
  else if c =? -1 then comment_error GUMBO_ERR_COMMENT_END_BANG_EOF
  else
    gumbo_tokenizer_set_state GUMBO_LEX_COMMENT;;
    append_char_to_temporary_buffer #"-";;
    append_char_to_temporary_buffer #"-";;
    append_char_to_temporary_buffer #"!";;
    append_char_to_temporary_buffer c;;
    mret NEXT_CHAR.

(** ** Doctypes *)

(** A doctype that ends with an error and forces quirks mode. *)
Definition doctype_error (type : GumboErrorType) : lexer StateResult :=
  tokenizer_add_parse_error type;;
  gumbo_tokenizer_set_state GUMBO_LEX_DATA;;
  set_force_quirks true;;
  emit_doctype;;
  mret RETURN_ERROR.

(** The end of a correct doctype. *)
Definition doctype_done : lexer StateResult :=
  gumbo_tokenizer_set_state GUMBO_LEX_DATA;;
  emit_doctype;;
  mret RETURN_SUCCESS.

(** An error after which the rest of the doctype is skipped. *)
Definition bogus_doctype (type : GumboErrorType) : lexer StateResult :=
  tokenizer_add_parse_error type;;
  gumbo_tokenizer_set_state GUMBO_LEX_BOGUS_DOCTYPE;;
  set_force_quirks true;;
  mret NEXT_CHAR.

(** The same, where the code emits the doctype at once. *)
Definition bogus_doctype_emit (type : GumboErrorType) : lexer StateResult :=
  tokenizer_add_parse_error type;;
  gumbo_tokenizer_set_state GUMBO_LEX_BOGUS_DOCTYPE;;
  set_force_quirks true;;
  emit_doctype;;
  mret RETURN_ERROR.

(** A quote that opens an identifier. *)
Definition open_identifier (s : GumboTokenizerEnum) : lexer StateResult :=
  ok ← get (temporary_buffer_equals []);
  assert ok;;
  gumbo_tokenizer_set_state s;;
  mret NEXT_CHAR.

Definition handle_doctype_state (c : Z) : lexer StateResult :=
  len ← get (fun t => length (_temporary_buffer t));
  assert (len =? 0)%nat;;
  if is_space c then
    gumbo_tokenizer_set_state GUMBO_LEX_BEFORE_DOCTYPE_NAME;;
    mret NEXT_CHAR
  else if c =? -1 then doctype_error GUMBO_ERR_DOCTYPE_EOF
  else
    tokenizer_add_parse_error GUMBO_ERR_DOCTYPE_SPACE;;
    gumbo_tokenizer_set_state GUMBO_LEX_BEFORE_DOCTYPE_NAME;;
    reconsume true;;
    set_force_quirks true;;
    mret NEXT_CHAR.

Definition handle_before_doctype_name_state (c : Z) : lexer StateResult :=
  if is_space c then mret NEXT_CHAR
  else if c =? 0 then
    tokenizer_add_parse_error GUMBO_ERR_UTF8_NULL;;
    gumbo_tokenizer_set_state GUMBO_LEX_DOCTYPE_NAME;;
    set_force_quirks true;;
    append_char_to_temporary_buffer kUtf8ReplacementChar;;
    mret NEXT_CHAR
  else if c =? #">" then doctype_error GUMBO_ERR_DOCTYPE_RIGHT_BRACKET
  else if c =? -1 then doctype_error GUMBO_ERR_DOCTYPE_EOF
  else
    gumbo_tokenizer_set_state GUMBO_LEX_DOCTYPE_NAME;;
    set_force_quirks false;;
    append_char_to_temporary_buffer (ensure_lowercase c);;
    mret NEXT_CHAR.

Definition handle_doctype_name_state (c : Z) : lexer StateResult :=
  if is_space c then
    gumbo_tokenizer_set_state GUMBO_LEX_AFTER_DOCTYPE_NAME;;
    finish_doctype_name;;
    mret NEXT_CHAR
  else if c =? #">" then
    gumbo_tokenizer_set_state GUMBO_LEX_DATA;;
    finish_doctype_name;;
    emit_doctype;;
    mret RETURN_SUCCESS
  else if c =? 0 then
    tokenizer_add_parse_error GUMBO_ERR_UTF8_NULL;;
    append_char_to_temporary_buffer kUtf8ReplacementChar;;
    mret NEXT_CHAR
  else if c =? -1 then
    tokenizer_add_parse_error GUMBO_ERR_DOCTYPE_EOF;;
    gumbo_tokenizer_set_state GUMBO_LEX_DATA;;
    set_force_quirks true;;
    finish_doctype_name;;
    emit_doctype;;
    mret RETURN_ERROR
  else
    gumbo_tokenizer_set_state GUMBO_LEX_DOCTYPE_NAME;;
    set_force_quirks false;;
    append_char_to_temporary_buffer (ensure_lowercase c);;
    mret NEXT_CHAR.

Definition handle_after_doctype_name_state (c : Z) : lexer StateResult :=
  if is_space c then mret NEXT_CHAR
  else if c =? #">" then doctype_done
  else if c =? -1 then doctype_error GUMBO_ERR_DOCTYPE_EOF
  else
    public ← maybe_consume_match "PUBLIC" false;
    if (public : bool) then
      gumbo_tokenizer_set_state GUMBO_LEX_AFTER_DOCTYPE_PUBLIC_KEYWORD;;
      reconsume true;;
      mret NEXT_CHAR
    else
      system ← maybe_consume_match "SYSTEM" false;
      if (system : bool) then
        gumbo_tokenizer_set_state GUMBO_LEX_AFTER_DOCTYPE_SYSTEM_KEYWORD;;
        reconsume true;;
        mret NEXT_CHAR
      else bogus_doctype GUMBO_ERR_DOCTYPE_SPACE_OR_RIGHT_BRACKET.

Definition handle_after_doctype_public_keyword_state (c : Z) : lexer StateResult :=
  if is_space c then
    gumbo_tokenizer_set_state GUMBO_LEX_BEFORE_DOCTYPE_PUBLIC_ID;;
    mret NEXT_CHAR
  else if c =? 34 then
    tokenizer_add_parse_error GUMBO_ERR_DOCTYPE_INVALID;;
    open_identifier GUMBO_LEX_DOCTYPE_PUBLIC_ID_DOUBLE_QUOTED
  else if c =? #"'" then
    tokenizer_add_parse_error GUMBO_ERR_DOCTYPE_INVALID;;
    open_identifier GUMBO_LEX_DOCTYPE_PUBLIC_ID_SINGLE_QUOTED
  else if c =? #">" then doctype_error GUMBO_ERR_DOCTYPE_RIGHT_BRACKET
  else if c =? -1 then doctype_error GUMBO_ERR_DOCTYPE_EOF
  else bogus_doctype_emit GUMBO_ERR_DOCTYPE_INVALID.

Definition handle_before_doctype_public_id_state (c : Z) : lexer StateResult :=
  if is_space c then mret NEXT_CHAR
  else if c =? 34 then open_identifier GUMBO_LEX_DOCTYPE_PUBLIC_ID_DOUBLE_QUOTED
  else if c =? #"'" then open_identifier GUMBO_LEX_DOCTYPE_PUBLIC_ID_SINGLE_QUOTED
  else if c =? #">" then doctype_error GUMBO_ERR_DOCTYPE_END
  else if c =? -1 then doctype_error GUMBO_ERR_DOCTYPE_EOF
  else bogus_doctype_emit GUMBO_ERR_DOCTYPE_INVALID.

(** An identifier in the quotes [q]: the state after it, what records it and the
    error at the end of the input. *)
Definition doctype_id_quoted (q : Z) (after : GumboTokenizerEnum) (finish : lexer unit) (eof : GumboErrorType)
  (c : Z) : lexer StateResult :=
  if c =? q then
    gumbo_tokenizer_set_state after;;
    finish;;
    mret NEXT_CHAR
  else if c =? 0 then
    tokenizer_add_parse_error GUMBO_ERR_UTF8_NULL;;
    append_char_to_temporary_buffer kUtf8ReplacementChar;;
    mret NEXT_CHAR
  else if (c =? #">") || (c =? -1) then
    tokenizer_add_parse_error (if c =? #">" then GUMBO_ERR_DOCTYPE_END else eof);;
    gumbo_tokenizer_set_state GUMBO_LEX_DATA;;
    set_force_quirks true;;
    finish;;
    emit_doctype;;
    mret RETURN_ERROR
  else
    append_char_to_temporary_buffer c;;
    mret NEXT_CHAR.

Definition handle_doctype_public_id_double_quoted_state (c : Z) : lexer StateResult :=
  doctype_id_quoted 34 GUMBO_LEX_AFTER_DOCTYPE_PUBLIC_ID finish_doctype_public_id GUMBO_ERR_DOCTYPE_EOF c.

Definition handle_doctype_public_id_single_quoted_state (c : Z) : lexer StateResult :=
  doctype_id_quoted #"'" GUMBO_LEX_AFTER_DOCTYPE_PUBLIC_ID finish_doctype_public_id GUMBO_ERR_DOCTYPE_EOF c.

Definition handle_after_doctype_public_id_state (c : Z) : lexer StateResult :=
  if is_space c then
    gumbo_tokenizer_set_state GUMBO_LEX_BETWEEN_DOCTYPE_PUBLIC_SYSTEM_ID;;
    mret NEXT_CHAR
  else if c =? #">" then doctype_done
  else if c =? 34 then
    tokenizer_add_parse_error GUMBO_ERR_DOCTYPE_INVALID;;
    open_identifier GUMBO_LEX_DOCTYPE_SYSTEM_ID_DOUBLE_QUOTED
  else if c =? #"'" then
    tokenizer_add_parse_error GUMBO_ERR_DOCTYPE_INVALID;;
    open_identifier GUMBO_LEX_DOCTYPE_SYSTEM_ID_SINGLE_QUOTED
  else if c =? -1 then
    tokenizer_add_parse_error GUMBO_ERR_DOCTYPE_EOF;;
    gumbo_tokenizer_set_state GUMBO_LEX_DATA;;
    reconsume true;;
    set_force_quirks true;;
    emit_doctype;;
    mret RETURN_ERROR
  else bogus_doctype GUMBO_ERR_DOCTYPE_INVALID.

Definition handle_between_doctype_public_system_id_state (c : Z) : lexer StateResult :=
  if is_space c then mret NEXT_CHAR
  else if c =? #">" then doctype_done
  else if c =? 34 then open_identifier GUMBO_LEX_DOCTYPE_SYSTEM_ID_DOUBLE_QUOTED
  else if c =? #"'" then open_identifier GUMBO_LEX_DOCTYPE_SYSTEM_ID_SINGLE_QUOTED
  else if c =? -1 then doctype_error GUMBO_ERR_DOCTYPE_EOF
  else bogus_doctype_emit GUMBO_ERR_DOCTYPE_INVALID.

Definition handle_after_doctype_system_keyword_state (c : Z) : lexer StateResult :=
  if is_space c then
    gumbo_tokenizer_set_state GUMBO_LEX_BEFORE_DOCTYPE_SYSTEM_ID;;
    mret NEXT_CHAR
  else if c =? 34 then
    tokenizer_add_parse_error GUMBO_ERR_DOCTYPE_INVALID;;
    open_identifier GUMBO_LEX_DOCTYPE_SYSTEM_ID_DOUBLE_QUOTED
  else if c =? #"'" then
    tokenizer_add_parse_error GUMBO_ERR_DOCTYPE_INVALID;;
    open_identifier GUMBO_LEX_DOCTYPE_SYSTEM_ID_SINGLE_QUOTED
  else if c =? #">" then doctype_error GUMBO_ERR_DOCTYPE_END
  else if c =? -1 then doctype_error GUMBO_ERR_DOCTYPE_EOF
  else bogus_doctype GUMBO_ERR_DOCTYPE_INVALID.

Definition handle_before_doctype_system_id_state (c : Z) : lexer StateResult :=
  if is_space c then mret NEXT_CHAR
  else if c =? 34 then open_identifier GUMBO_LEX_DOCTYPE_SYSTEM_ID_DOUBLE_QUOTED
  else if c =? #"'" then open_identifier GUMBO_LEX_DOCTYPE_SYSTEM_ID_SINGLE_QUOTED
  else if c =? #">" then doctype_error GUMBO_ERR_DOCTYPE_END
  else if c =? -1 then doctype_error GUMBO_ERR_DOCTYPE_EOF
  else bogus_doctype GUMBO_ERR_DOCTYPE_INVALID.

Definition handle_doctype_system_id_double_quoted_state (c : Z) : lexer StateResult :=
  doctype_id_quoted 34 GUMBO_LEX_AFTER_DOCTYPE_SYSTEM_ID finish_doctype_system_id GUMBO_ERR_DOCTYPE_EOF c.

Definition handle_doctype_system_id_single_quoted_state (c : Z) : lexer StateResult :=
  doctype_id_quoted #"'" GUMBO_LEX_AFTER_DOCTYPE_SYSTEM_ID finish_doctype_system_id GUMBO_ERR_DOCTYPE_INVALID c.

Definition handle_after_doctype_system_id_state (c : Z) : lexer StateResult :=
  if is_space c then mret NEXT_CHAR
  else if c =? #">" then doctype_done
  else if c =? -1 then doctype_error GUMBO_ERR_DOCTYPE_EOF
  else
    tokenizer_add_parse_error GUMBO_ERR_DOCTYPE_INVALID;;
    gumbo_tokenizer_set_state GUMBO_LEX_BOGUS_DOCTYPE;;
    mret NEXT_CHAR.

Definition handle_bogus_doctype_state (c : Z) : lexer StateResult :=
  if (c =? #">") || (c =? -1) then
    gumbo_tokenizer_set_state GUMBO_LEX_DATA;;
    emit_doctype;;
    mret RETURN_ERROR
  else mret NEXT_CHAR.

Definition handle_cdata_state (c : Z) : lexer StateResult :=
  close ← (if c =? -1 then mret true else maybe_consume_match "]]>" true);
  if (close : bool) then
    reconsume true;;
    reset_token_start_point;;
    gumbo_tokenizer_set_state GUMBO_LEX_DATA;;
    modify (set_is_in_cdata false);;
    mret NEXT_CHAR
  else emit_current_char.

(** * The loop *)
Definition dispatch_table (s : GumboTokenizerEnum) : Z -> lexer StateResult :=
  match s with
  | GUMBO_LEX_DATA => handle_data_state
  | GUMBO_LEX_CHAR_REF_IN_DATA => handle_char_ref_in_data_state
  | GUMBO_LEX_RCDATA => handle_rcdata_state
  | GUMBO_LEX_CHAR_REF_IN_RCDATA => handle_char_ref_in_rcdata_state
  | GUMBO_LEX_RAWTEXT => handle_rawtext_state
  | GUMBO_LEX_SCRIPT => handle_script_state
  | GUMBO_LEX_PLAINTEXT => handle_plaintext_state
  | GUMBO_LEX_TAG_OPEN => handle_tag_open_state
  | GUMBO_LEX_END_TAG_OPEN => handle_end_tag_open_state
  | GUMBO_LEX_TAG_NAME => handle_tag_name_state
  | GUMBO_LEX_RCDATA_LT => handle_rcdata_lt_state
  | GUMBO_LEX_RCDATA_END_TAG_OPEN => handle_rcdata_end_tag_open_state
  | GUMBO_LEX_RCDATA_END_TAG_NAME => handle_rcdata_end_tag_name_state
  | GUMBO_LEX_RAWTEXT_LT => handle_rawtext_lt_state
  | GUMBO_LEX_RAWTEXT_END_TAG_OPEN => handle_rawtext_end_tag_open_state
  | GUMBO_LEX_RAWTEXT_END_TAG_NAME => handle_rawtext_end_tag_name_state
  | GUMBO_LEX_SCRIPT_LT => handle_script_lt_state
  | GUMBO_LEX_SCRIPT_END_TAG_OPEN => handle_script_end_tag_open_state
  | GUMBO_LEX_SCRIPT_END_TAG_NAME => handle_script_end_tag_name_state
  | GUMBO_LEX_SCRIPT_ESCAPED_START => handle_script_escaped_start_state
  | GUMBO_LEX_SCRIPT_ESCAPED_START_DASH => handle_script_escaped_start_dash_state
  | GUMBO_LEX_SCRIPT_ESCAPED => handle_script_escaped_state
  | GUMBO_LEX_SCRIPT_ESCAPED_DASH => handle_script_escaped_dash_state
  | GUMBO_LEX_SCRIPT_ESCAPED_DASH_DASH => handle_script_escaped_dash_dash_state
  | GUMBO_LEX_SCRIPT_ESCAPED_LT => handle_script_escaped_lt_state
  | GUMBO_LEX_SCRIPT_ESCAPED_END_TAG_OPEN => handle_script_escaped_end_tag_open_state
  | GUMBO_LEX_SCRIPT_ESCAPED_END_TAG_NAME => handle_script_escaped_end_tag_name_state
  | GUMBO_LEX_SCRIPT_DOUBLE_ESCAPED_START => handle_script_double_escaped_start_state
  | GUMBO_LEX_SCRIPT_DOUBLE_ESCAPED => handle_script_double_escaped_state
  | GUMBO_LEX_SCRIPT_DOUBLE_ESCAPED_DASH => handle_script_double_escaped_dash_state
  | GUMBO_LEX_SCRIPT_DOUBLE_ESCAPED_DASH_DASH => handle_script_double_escaped_dash_dash_state
  | GUMBO_LEX_SCRIPT_DOUBLE_ESCAPED_LT => handle_script_double_escaped_lt_state
  | GUMBO_LEX_SCRIPT_DOUBLE_ESCAPED_END => handle_script_double_escaped_end_state
  | GUMBO_LEX_BEFORE_ATTR_NAME => handle_before_attr_name_state
  | GUMBO_LEX_ATTR_NAME => handle_attr_name_state
  | GUMBO_LEX_AFTER_ATTR_NAME => handle_after_attr_name_state
  | GUMBO_LEX_BEFORE_ATTR_VALUE => handle_before_attr_value_state
  | GUMBO_LEX_ATTR_VALUE_DOUBLE_QUOTED => handle_attr_value_double_quoted_state
  | GUMBO_LEX_ATTR_VALUE_SINGLE_QUOTED => handle_attr_value_single_quoted_state
  | GUMBO_LEX_ATTR_VALUE_UNQUOTED => handle_attr_value_unquoted_state
  | GUMBO_LEX_CHAR_REF_IN_ATTR_VALUE => handle_char_ref_in_attr_value_state
  | GUMBO_LEX_AFTER_ATTR_VALUE_QUOTED => handle_after_attr_value_quoted_state
  | GUMBO_LEX_SELF_CLOSING_START_TAG => handle_self_closing_start_tag_state
  | GUMBO_LEX_BOGUS_COMMENT => handle_bogus_comment_state
  | GUMBO_LEX_MARKUP_DECLARATION => handle_markup_declaration_state
  | GUMBO_LEX_COMMENT_START => handle_comment_start_state
  | GUMBO_LEX_COMMENT_START_DASH => handle_comment_start_dash_state
  | GUMBO_LEX_COMMENT => handle_comment_state
  | GUMBO_LEX_COMMENT_END_DASH => handle_comment_end_dash_state
  | GUMBO_LEX_COMMENT_END => handle_comment_end_state
  | GUMBO_LEX_COMMENT_END_BANG => handle_comment_end_bang_state
  | GUMBO_LEX_DOCTYPE => handle_doctype_state
  | GUMBO_LEX_BEFORE_DOCTYPE_NAME => handle_before_doctype_name_state
  | GUMBO_LEX_DOCTYPE_NAME => handle_doctype_name_state
  | GUMBO_LEX_AFTER_DOCTYPE_NAME => handle_after_doctype_name_state
  | GUMBO_LEX_AFTER_DOCTYPE_PUBLIC_KEYWORD => handle_after_doctype_public_keyword_state
  | GUMBO_LEX_BEFORE_DOCTYPE_PUBLIC_ID => handle_before_doctype_public_id_state
  | GUMBO_LEX_DOCTYPE_PUBLIC_ID_DOUBLE_QUOTED => handle_doctype_public_id_double_quoted_state
  | GUMBO_LEX_DOCTYPE_PUBLIC_ID_SINGLE_QUOTED => handle_doctype_public_id_single_quoted_state
  | GUMBO_LEX_AFTER_DOCTYPE_PUBLIC_ID => handle_after_doctype_public_id_state
  | GUMBO_LEX_BETWEEN_DOCTYPE_PUBLIC_SYSTEM_ID => handle_between_doctype_public_system_id_state
  | GUMBO_LEX_AFTER_DOCTYPE_SYSTEM_KEYWORD => handle_after_doctype_system_keyword_state
  | GUMBO_LEX_BEFORE_DOCTYPE_SYSTEM_ID => handle_before_doctype_system_id_state
  | GUMBO_LEX_DOCTYPE_SYSTEM_ID_DOUBLE_QUOTED => handle_doctype_system_id_double_quoted_state
  | GUMBO_LEX_DOCTYPE_SYSTEM_ID_SINGLE_QUOTED => handle_doctype_system_id_single_quoted_state
  | GUMBO_LEX_AFTER_DOCTYPE_SYSTEM_ID => handle_after_doctype_system_id_state
  | GUMBO_LEX_BOGUS_DOCTYPE => handle_bogus_doctype_state
  | GUMBO_LEX_CDATA => handle_cdata_state
  end.

(** The loop of [gumbo_lex]; [None] when [fuel] iterations are not enough. *)
Fixpoint lex_loop (fuel : nat) : lexer (option bool) :=
  match fuel with
  | O => mret None
  | S fuel =>
      emit ← get _temporary_buffer_emit;
      assert (bool_decide (emit = None));;
      buffered ← get _buffered_emit_char;
      assert (buffered =? kGumboNoChar);;
      c ← get (fun t => utf8iterator_current (_input t));
      s ← get _state;
      result ← dispatch_table s c;
      r ← get _reconsume_current_input;
      reconsume false;;
      match result with
      | RETURN_SUCCESS => mret (Some true)
      | RETURN_ERROR => mret (Some false)
      | NEXT_CHAR =>
          (if (r : bool) then mret tt else on_input utf8iterator_next);;
          lex_loop fuel
      end
  end.

Definition gumbo_lex (fuel : nat) : lexer (option bool) :=
  buffered ← get _buffered_emit_char;
  if negb (buffered =? kGumboNoChar) then
    reconsume true;;
    emit_char buffered;;
    reconsume false;;
    modify (set_buffered_emit_char kGumboNoChar);;
    mret (Some true)
  else
    emitted ← maybe_emit_from_temporary_buffer;
    if (emitted : bool) then mret (Some true) else lex_loop fuel.
End with_scanner.

(** The fields that are not set hold what the memory held: [old]. *)
Definition gumbo_tokenizer_state_init (old : GumboTokenizerState) (text : list Z) (max_errors tab_stop : Z)
  : outcome GumboTokenizerState :=
  let old_tag := _tag_state old in
  it ← utf8iterator_init (mark (_input old), mark_pos (_input old)) text max_errors tab_stop;
  Ok (Tokenizer GUMBO_LEX_DATA false false false kGumboNoChar [] None [] 0
        (utf8iterator_get_position it)
        (set_attributes None (set_last_start_tag Tags.GUMBO_TAG_LAST old_tag))
        (DocType None None None false false false) it (_output old)).

End Lexer.
