(* ===== verification/GumboLexerWp.v ===== *)
(** A program logic for the HTML tokenizer (GumboLexer.v).

    A predicate transformer [wp] for the operations of the tokenizer, the invariant
    of its states, the measures that decrease, and a rule for every operation that
    can fail.  GumboLexerSafety.v applies the rules to the state handlers. *)
From Stdlib Require Import Strings.String Strings.Ascii.
From S2P Require Import Prelude GumboTags GumboBase Utf8 CharRef GumboLexer.
Import GumboBase Utf8 CharRef Lexer.

Module LexerWp.

(** * Weakest preconditions *)

(** What explains undefined behaviour, if anything does: [False] where there is
    none.  The tokenizer has it in a character reference only, so that the text
    is to blame (GumboLexerRuns.v). *)
Class MayUndef := may_undef : Prop.

Section rules.
Context {U : MayUndef}.

(** [m] runs from [t] without a failing assertion, and its answer and final state
    satisfy [Q]; undefined behaviour has its explanation. *)
Definition wp {A} (m : lexer A) (Q : A -> GumboTokenizerState -> Prop) (t : GumboTokenizerState) : Prop :=
  match m t with Ok (t', a) => Q a t' | Undef => may_undef | AssertFail => False end.

Lemma wp_bind {A B} (m : lexer A) (f : A -> lexer B) Q t :
  wp m (fun a t' => wp (f a) Q t') t -> wp (m ≫= f) Q t.
Proof. unfold wp, mbind, lexer_bind. destruct (m t) as [[t' a]| |]; [|done..]. by rewrite bind_Ok. Qed.

Lemma wp_mono {A} (m : lexer A) (Q Q' : A -> GumboTokenizerState -> Prop) t :
  (forall a t', Q a t' -> Q' a t') -> wp m Q t -> wp m Q' t.
Proof. unfold wp. intros H. destruct (m t) as [[t' a]| |]; [apply H|done..]. Qed.

Lemma wp_ret {A} (a : A) (Q : A -> GumboTokenizerState -> Prop) t : Q a t -> wp (mret a) Q t.
Proof. done. Qed.

Lemma wp_get {A} (f : GumboTokenizerState -> A) (Q : A -> GumboTokenizerState -> Prop) t : Q (f t) t -> wp (get f) Q t.
Proof. done. Qed.

Lemma wp_get_tag {A} (f : GumboTagState -> A) (Q : A -> GumboTokenizerState -> Prop) t : Q (f (_tag_state t)) t -> wp (get_tag f) Q t.
Proof. done. Qed.

Lemma wp_modify f (Q : unit -> GumboTokenizerState -> Prop) t : Q tt (f t) -> wp (modify f) Q t.
Proof. done. Qed.

Lemma wp_lift {A} (m : outcome A) a (Q : A -> GumboTokenizerState -> Prop) t : m = Ok a -> Q a t -> wp (lift m) Q t.
Proof. unfold wp, lift. by intros -> H. Qed.

Lemma wp_assert (b : bool) (Q : unit -> GumboTokenizerState -> Prop) t : b = true -> Q tt t -> wp (assert b) Q t.
Proof. by intros -> H. Qed.

Lemma wp_on_input f it (Q : unit -> GumboTokenizerState -> Prop) t :
  f (_input t) = Ok it -> Q tt (set_input it t) -> wp (on_input f) Q t.
Proof. unfold wp, on_input. by intros -> H. Qed.

(** An error only adds to the list of errors. *)
Definition set_errors (es : list GumboError) (it : Utf8Iterator) : Utf8Iterator :=
  Iter (source it) (start it) (mark it) (current it) (width it) (pos it) (mark_pos it) es (max_errors it) (tab_stop it).

Lemma gumbo_add_error_errors it e : exists es, gumbo_add_error it e = set_errors es it.
Proof.
  unfold gumbo_add_error. case_match; [exists (errors it)|by eexists]. by destruct it.
Qed.

Lemma wp_error ty (Q : unit -> GumboTokenizerState -> Prop) t :
  (forall es, Q tt (set_input (set_errors es (_input t)) t)) -> wp (tokenizer_add_parse_error ty) Q t.
Proof.
  intros H. unfold tokenizer_add_parse_error. apply wp_modify. cbv beta zeta.
  match goal with |- context [gumbo_add_error ?i ?e] => destruct (gumbo_add_error_errors i e) as [es ->] end. apply H.
Qed.

End rules.

Ltac simpl_t := cbn [
  set_state set_reconsume_current_input set_is_current_node_foreign set_is_in_cdata set_buffered_emit_char
  set_temporary_buffer set_temporary_buffer_emit set_script_data_buffer set_token_start set_token_start_pos
  set_tag_state set_doc_type_state set_input set_output
  set_buffer set_original_text set_tag set_start_pos set_attributes set_drop_next_attr_value set_attr_value_state
  set_last_start_tag set_is_start_tag set_is_self_closing set_errors
  _state _reconsume_current_input _is_current_node_foreign _is_in_cdata _buffered_emit_char
  _temporary_buffer _temporary_buffer_emit _script_data_buffer _token_start _token_start_pos
  _tag_state _doc_type_state _input _output
  _buffer _original_text _tag _start_pos _attributes _drop_next_attr_value _attr_value_state
  _last_start_tag _is_start_tag _is_self_closing
  source start mark current width pos mark_pos errors max_errors tab_stop
  ttype tposition toriginal_text tv pdata plength fst snd] in *.

(** * The invariant *)

(** States that read text: no tag is under construction. *)
Definition is_text (s : GumboTokenizerEnum) : bool :=
  match s with
  | GUMBO_LEX_DATA | GUMBO_LEX_RCDATA | GUMBO_LEX_RAWTEXT | GUMBO_LEX_SCRIPT | GUMBO_LEX_PLAINTEXT
  | GUMBO_LEX_SCRIPT_ESCAPED_START | GUMBO_LEX_SCRIPT_ESCAPED_START_DASH | GUMBO_LEX_SCRIPT_ESCAPED
  | GUMBO_LEX_SCRIPT_ESCAPED_DASH | GUMBO_LEX_SCRIPT_ESCAPED_DASH_DASH
  | GUMBO_LEX_SCRIPT_DOUBLE_ESCAPED_START | GUMBO_LEX_SCRIPT_DOUBLE_ESCAPED
  | GUMBO_LEX_SCRIPT_DOUBLE_ESCAPED_DASH | GUMBO_LEX_SCRIPT_DOUBLE_ESCAPED_DASH_DASH
  | GUMBO_LEX_SCRIPT_DOUBLE_ESCAPED_LT | GUMBO_LEX_SCRIPT_DOUBLE_ESCAPED_END | GUMBO_LEX_CDATA => true
  | _ => false
  end.

Definition is_attr_value (s : GumboTokenizerEnum) : bool :=
  match s with
  | GUMBO_LEX_ATTR_VALUE_DOUBLE_QUOTED | GUMBO_LEX_ATTR_VALUE_SINGLE_QUOTED | GUMBO_LEX_ATTR_VALUE_UNQUOTED => true
  | _ => false
  end.

Definition src (t : GumboTokenizerState) : list Z := source (_input t).
Definition cur (t : GumboTokenizerState) : nat := start (_input t).

Definition no_tag (t : GumboTokenizerState) : Prop := _attributes (_tag_state t) = None.

(** The token started before the current character, with a [<]. *)
Definition opened (t : GumboTokenizerState) : Prop :=
  src t !! _token_start t = Some #"<" /\ (_token_start t < cur t)%nat.

(** Text: a [<] that follows starts a token, or one has been started. *)
Definition text_ok (t : GumboTokenizerState) : Prop :=
  no_tag t /\ (current (_input t) = #"<" -> src t !! _token_start t = Some #"<").

(** The temporary buffer holds the text from the mark on. *)
Definition temp_text (t : GumboTokenizerState) : Prop :=
  Forall printable (_temporary_buffer t) /\ at_off (src t) (mark (_input t)) (_temporary_buffer t) /\
  (_token_start t <= mark (_input t))%nat.

(** And the current character is the one after it. *)
Definition temp_ok (t : GumboTokenizerState) : Prop :=
  opened t /\ temp_text t /\
  (cur t = mark (_input t) + length (_temporary_buffer t) \/ current (_input t) = 10%Z)%nat.

(** A tag is under construction. *)
Definition tag_ok (t : GumboTokenizerState) : Prop :=
  opened t /\ (exists b, _buffer (_tag_state t) = Some b /\ Forall is_u8 b) /\
  exists l, _attributes (_tag_state t) = Some l.

(** It has an attribute. *)
Definition attr_ok (t : GumboTokenizerState) : Prop :=
  opened t /\ (exists b, _buffer (_tag_state t) = Some b /\ Forall is_u8 b) /\
  exists l a, _attributes (_tag_state t) = Some (l ++ [a]).

Definition state_ok (t : GumboTokenizerState) : Prop :=
  match _state t with
  | GUMBO_LEX_CHAR_REF_IN_DATA | GUMBO_LEX_CHAR_REF_IN_RCDATA => no_tag t /\ current (_input t) = #"&"
  | GUMBO_LEX_TAG_OPEN | GUMBO_LEX_RCDATA_LT | GUMBO_LEX_RAWTEXT_LT | GUMBO_LEX_SCRIPT_LT
  | GUMBO_LEX_SCRIPT_ESCAPED_LT =>
      no_tag t /\ temp_ok t /\ _temporary_buffer t = text_of "<" /\ _script_data_buffer t = []
  | GUMBO_LEX_END_TAG_OPEN | GUMBO_LEX_RCDATA_END_TAG_OPEN | GUMBO_LEX_RAWTEXT_END_TAG_OPEN
  | GUMBO_LEX_SCRIPT_END_TAG_OPEN | GUMBO_LEX_SCRIPT_ESCAPED_END_TAG_OPEN =>
      no_tag t /\ temp_ok t /\ _temporary_buffer t = text_of "</"
  | GUMBO_LEX_RCDATA_END_TAG_NAME | GUMBO_LEX_RAWTEXT_END_TAG_NAME | GUMBO_LEX_SCRIPT_END_TAG_NAME
  | GUMBO_LEX_SCRIPT_ESCAPED_END_TAG_NAME =>
      tag_ok t /\ temp_ok t /\ (2 <= length (_temporary_buffer t))%nat /\ _is_start_tag (_tag_state t) = false
  | GUMBO_LEX_TAG_NAME | GUMBO_LEX_BEFORE_ATTR_NAME | GUMBO_LEX_ATTR_NAME
  | GUMBO_LEX_SELF_CLOSING_START_TAG => tag_ok t
  | GUMBO_LEX_AFTER_ATTR_NAME | GUMBO_LEX_BEFORE_ATTR_VALUE | GUMBO_LEX_ATTR_VALUE_DOUBLE_QUOTED
  | GUMBO_LEX_ATTR_VALUE_SINGLE_QUOTED | GUMBO_LEX_ATTR_VALUE_UNQUOTED
  | GUMBO_LEX_AFTER_ATTR_VALUE_QUOTED => attr_ok t
  | GUMBO_LEX_CHAR_REF_IN_ATTR_VALUE =>
      attr_ok t /\ current (_input t) = #"&" /\ is_attr_value (_attr_value_state (_tag_state t)) = true
  | GUMBO_LEX_MARKUP_DECLARATION => no_tag t /\ opened t /\ _temporary_buffer t = []
  | GUMBO_LEX_DOCTYPE | GUMBO_LEX_AFTER_DOCTYPE_NAME | GUMBO_LEX_AFTER_DOCTYPE_PUBLIC_KEYWORD
  | GUMBO_LEX_BEFORE_DOCTYPE_PUBLIC_ID | GUMBO_LEX_AFTER_DOCTYPE_PUBLIC_ID
  | GUMBO_LEX_BETWEEN_DOCTYPE_PUBLIC_SYSTEM_ID | GUMBO_LEX_AFTER_DOCTYPE_SYSTEM_KEYWORD
  | GUMBO_LEX_BEFORE_DOCTYPE_SYSTEM_ID | GUMBO_LEX_AFTER_DOCTYPE_SYSTEM_ID =>
      no_tag t /\ (_token_start t < cur t)%nat /\ _temporary_buffer t = []
  | GUMBO_LEX_BOGUS_COMMENT | GUMBO_LEX_COMMENT_START | GUMBO_LEX_COMMENT_START_DASH | GUMBO_LEX_COMMENT
  | GUMBO_LEX_COMMENT_END_DASH | GUMBO_LEX_COMMENT_END | GUMBO_LEX_COMMENT_END_BANG
  | GUMBO_LEX_BEFORE_DOCTYPE_NAME | GUMBO_LEX_DOCTYPE_NAME
  | GUMBO_LEX_DOCTYPE_PUBLIC_ID_DOUBLE_QUOTED | GUMBO_LEX_DOCTYPE_PUBLIC_ID_SINGLE_QUOTED
  | GUMBO_LEX_DOCTYPE_SYSTEM_ID_DOUBLE_QUOTED | GUMBO_LEX_DOCTYPE_SYSTEM_ID_SINGLE_QUOTED =>
      no_tag t /\ (_token_start t < cur t)%nat
  | GUMBO_LEX_BOGUS_DOCTYPE => no_tag t
  | _ => text_ok t
  end.

(** The iterator is valid and the token started at or before the current character. *)
Definition base_ok (t : GumboTokenizerState) : Prop :=
  it_ok (_input t) /\ (_token_start t <= cur t)%nat /\ _reconsume_current_input t = false /\
  Z.of_nat (length (src t)) < 2 ^ 64.

(** Nothing waits to be emitted: the state at the head of the loop. *)
Definition loop_inv (t : GumboTokenizerState) : Prop :=
  base_ok t /\ _temporary_buffer_emit t = None /\ _buffered_emit_char t = kGumboNoChar /\ state_ok t.

(** The bytes [bs] are under the cursor. *)
Definition pending (it : Utf8Iterator) (bs : list Z) : Prop :=
  Forall printable bs /\ match bs with [] => True | c :: bs => exists rest, at_byte it c (bs ++ rest) end.

(** Between two calls of [gumbo_lex]: nothing waits, a second character of a
    reference does, or the rest of the temporary buffer. *)
Definition lex_inv (t : GumboTokenizerState) : Prop :=
  base_ok t /\ state_ok t /\
  match _temporary_buffer_emit t with
  | None => _buffered_emit_char t <> kGumboNoChar -> is_text (_state t) = true
  | Some k => _buffered_emit_char t = kGumboNoChar /\ is_text (_state t) = true /\
      pending (_input t) (drop k (_temporary_buffer t))
  end.

(** * Measures *)

(** States that hand the same character on: it is handed down. *)
Definition rank (s : GumboTokenizerEnum) : nat :=
  match s with
  | GUMBO_LEX_CHAR_REF_IN_DATA | GUMBO_LEX_CHAR_REF_IN_RCDATA | GUMBO_LEX_CHAR_REF_IN_ATTR_VALUE
  | GUMBO_LEX_BOGUS_COMMENT | GUMBO_LEX_BEFORE_DOCTYPE_NAME | GUMBO_LEX_BOGUS_DOCTYPE => 0
  | GUMBO_LEX_DATA | GUMBO_LEX_RCDATA | GUMBO_LEX_SCRIPT | GUMBO_LEX_SCRIPT_ESCAPED
  | GUMBO_LEX_MARKUP_DECLARATION | GUMBO_LEX_DOCTYPE => 1
  | GUMBO_LEX_BEFORE_ATTR_VALUE | GUMBO_LEX_AFTER_ATTR_VALUE_QUOTED | GUMBO_LEX_SELF_CLOSING_START_TAG
  | GUMBO_LEX_SCRIPT_DOUBLE_ESCAPED_LT | GUMBO_LEX_SCRIPT_DOUBLE_ESCAPED_END => 3
  | _ => 2
  end.

(** Iterations that the loop can still make. *)
Definition steps_left (t : GumboTokenizerState) : nat := 4 * (length (src t) - cur t) + rank (_state t).

Definition is_bogus_doctype (s : GumboTokenizerEnum) : bool :=
  match s with GUMBO_LEX_BOGUS_DOCTYPE => true | _ => false end.

(** Tokens that can still be emitted: a character reference gives two at most, and
    a doctype can be emitted a second time after an error. *)
Definition tokens_left (t : GumboTokenizerState) : nat :=
  3 * (length (src t) - _token_start t)
  + (if _buffered_emit_char t =? kGumboNoChar then 0 else 1)
  + (if is_bogus_doctype (_state t) && (cur t <=? _token_start t)%nat then 1 else 0).

(** What an iteration that goes on leaves for the next. *)
Definition goes_on (t t' : GumboTokenizerState) : Prop :=
  loop_inv t' /\ src t' = src t /\ (steps_left t' < steps_left t)%nat /\
  (_token_start t <= _token_start t')%nat /\
  (is_bogus_doctype (_state t') = true -> (_token_start t' < cur t')%nat).

(** What a token leaves. *)
Definition returned (t t' : GumboTokenizerState) : Prop :=
  lex_inv t' /\ src t' = src t /\
  (ttype (_output t') = GUMBO_TOKEN_EOF \/ (tokens_left t' < tokens_left t)%nat).

(** What a handler leaves to the loop of [gumbo_lex]. *)
Definition step_post (t : GumboTokenizerState) (r : StateResult) (t' : GumboTokenizerState) : Prop :=
  match r with
  | NEXT_CHAR =>
      it_ok (_input t') /\
      (if _reconsume_current_input t' then goes_on t (set_reconsume_current_input false t')
       else forall it, advanced (_input t') it ->
         goes_on t (set_input it (set_reconsume_current_input false t')))
  | _ => returned t (set_reconsume_current_input false t')
  end.

(** * The input *)
Lemma it_ok_current it c : it_ok it -> current it = c -> printable c -> source it !! start it = Some c.
Proof. intros (_ & _ & _ & H) Hc Hp. by apply H. Qed.

Lemma it_ok_at it c : it_ok it -> current it = c -> printable c -> exists rest, at_byte it c rest.
Proof.
  intros (Hu & Ht & Hor & H) Hc Hp. destruct (H c Hp Hc) as [Hs Hw]. exists (drop (S (start it)) (source it)).
  split_and!; try done. by apply drop_S.
Qed.

Lemma start_le it : it_ok it -> (start it <= length (source it))%nat.
Proof. intros H. apply it_ok_le in H. lia. Qed.

Lemma start_lt it : it_ok it -> current it <> -1 -> (start it < length (source it))%nat.
Proof. intros (_ & _ & [[? _]|(_ & ? & ?)] & _) Hc; [done|lia]. Qed.

Lemma advanced_facts it it' :
  advanced it it' ->
  it_ok it' /\ source it' = source it /\ mark it' = mark it /\ (start it <= start it')%nat /\
  (current it <> -1 -> (start it < start it')%nat) /\ (current it = -1 -> start it' = start it /\ current it' = -1) /\
  (start it' <= length (source it'))%nat.
Proof.
  intros ((H1 & H2 & H3 & _ & H4) & H5 & H6 & _). split_and!; try done. by apply start_le.
Qed.

(** Past a character of one byte: the next byte, or a line feed. *)
Lemma advanced_by_one it it' c :
  it_ok it -> advanced it it' -> current it = c -> printable c -> start it' = S (start it) \/ current it' = 10.
Proof.
  intros (_ & _ & _ & Hp) (_ & _ & _ & Hor) Hc Hpc. destruct (Hp c Hpc Hc) as [_ Hw]. rewrite Hw in Hor.
  destruct Hor as [->|(_ & _ & ->)]; [left; lia|by right].
Qed.

Lemma at_off_snoc (buf l : list Z) off c : at_off buf off l -> buf !! (off + length l)%nat = Some c -> at_off buf off (l ++ [c]).
Proof.
  intros H Hc. apply at_off_app. split; [done|]. apply lookup_lt_Some in Hc as Hlt.
  exists (take (off + length l) buf), (drop (S (off + length l)) buf).
  rewrite length_take, Nat.min_l by lia. split; [|done]. symmetry. by apply take_drop_middle.
Qed.

Lemma pending_next it c bs :
  it_ok it -> pending it (c :: bs) -> exists it', utf8iterator_next it = Ok it' /\ advanced it it' /\ pending it' bs.
Proof.
  intros Hok (HF & rest & Hat). destruct (next_advanced it Hok) as (it' & Hn & Ha). exists it'. split_and!; [done..|].
  apply Forall_cons_1 in HF as [Hc HF]. split; [done|]. destruct bs as [|c' bs]; [done|].
  apply Forall_cons_1 in HF as [Hc' _]. destruct (next_printable it c c' (bs ++ rest) Hat Hc') as (it2 & E & ? & _).
  rewrite Hn in E. injection E as <-. by exists rest.
Qed.

Lemma reset_pending it c bs :
  it_ok it -> Forall printable (c :: bs) -> at_off (source it) (mark it) (c :: bs) ->
  exists it', utf8iterator_reset it = Ok it' /\ pending it' (c :: bs) /\ it_ok it' /\ source it' = source it /\
    start it' = mark it /\ current it' = c.
Proof.
  intros (Hu & Ht & _) HF (pre & rest & Hs & Hl).
  assert (Hd : drop (mark it) (source it) = c :: bs ++ rest) by (by rewrite Hs, <- Hl, drop_app_length).
  pose proof (Forall_inv HF) as Hc. destruct (printable_plain c Hc) as [Hp Hcb].
  unfold utf8iterator_reset. rewrite (read_char_plain _ c (bs ++ rest)); [|by cbn; rewrite Hcb|done|done].
  eexists. split; [done|]. rewrite Hcb.
  match goal with |- pending ?it' _ /\ _ => assert (Hat : at_byte it' c (bs ++ rest)) by (split_and!; done) end.
  split; [by split; [|exists rest]|]. split; [by eapply at_byte_ok|done].
Qed.

Lemma codepoint_bytes_bytes c : Forall is_u8 (codepoint_bytes c).
Proof.
  unfold codepoint_bytes. destruct (codepoint_shape c) as [n p]. constructor; [unfold is_u8, u8; zlia|].
  induction (Z.to_nat n) as [|i IH]; constructor; [|done].
  rewrite Z.land_comm, (land_mod _ 6) by lia. set (x := Z.shiftr c _). change 0x80 with (Z.shiftl 2 6).
  rewrite Z.lor_comm, (lor_shiftl _ 2 6) by zlia. unfold is_u8. zlia.
Qed.

(** * The operations that can fail *)

(** The state after a token of the type [ty] with the value [v]. *)
Definition emitted (ty : GumboTokenType) (v : token_value) (len : Z) (it : Utf8Iterator) (t : GumboTokenizerState)
  : GumboTokenizerState :=
  set_output (Token ty (_token_start_pos t) (Piece (_token_start t) len) v)
    (set_token_start_pos (pos it) (set_token_start (start it) (set_input it t))).

(** The iterator is past the character unless it is to be reconsumed. *)
Definition past (t : GumboTokenizerState) (it : Utf8Iterator) : Prop :=
  if _reconsume_current_input t then it = _input t
  else utf8iterator_next (_input t) = Ok it /\ advanced (_input t) it.

Lemma past_facts t it :
  past t it -> it_ok (_input t) -> it_ok it /\ source it = source (_input t) /\ (start (_input t) <= start it)%nat.
Proof.
  unfold past. intros H Hok. destruct (_reconsume_current_input t); [by subst|].
  destruct (advanced_facts _ _ (proj2 H)) as (? & ? & ? & ? & _). done.
Qed.

(** The length of a token, without a carriage return at its end. *)
Definition token_length (src : list Z) (from to : nat) (len : Z) : Prop :=
  Z.of_nat (length src) < 2 ^ 64 -> (from < to)%nat ->
  len = if bool_decide (src !! (to - 1)%nat = Some 13) then Z.of_nat to - Z.of_nat from - 1
        else Z.of_nat to - Z.of_nat from.

Section operations.
Context {U : MayUndef}.

Lemma wp_finish_token (Q : unit -> GumboTokenizerState -> Prop) t :
  it_ok (_input t) -> (_token_start t <= cur t)%nat ->
  (forall it len, past t it -> token_length (src t) (_token_start t) (start it) len ->
     Q tt (emitted (ttype (_output t)) (tv (_output t)) len it t)) ->
  wp finish_token Q t.
Proof.
  intros Hok Hle H. unfold finish_token. apply wp_bind, wp_get, wp_bind.
  assert (HK : forall it, past t it -> wp (_ ← mret tt;
    token_start_pos ← get _token_start_pos;
    token_start ← get _token_start;
    _ ← reset_token_start_point;
    new_start ← get _token_start;
    src ← get (fun t => source (_input t));
    let len := (Z.of_nat new_start - Z.of_nat token_start) in
    last ← (if negb (u64 len =? 0) then lift (load src (token_start + Z.to_nat (u64 len) - 1)) else mret 0);
    let len := if negb (u64 len =? 0) && (last =? 13) then u64 len - 1 else u64 len in
    modify (fun t => set_output (Token (ttype (_output t)) token_start_pos (Piece token_start len) (tv (_output t))) t))
    Q (set_input it t)).
  { intros it Hp. destruct (past_facts t it Hp Hok) as (Hok' & Hs & Hst). apply start_le in Hok'. unfold cur in Hle.
    specialize (H it). unfold token_length in H. rewrite Hs in Hok'.
    repeat first [apply wp_bind | apply wp_ret | apply wp_get | apply wp_modify]. simpl_t. cbv zeta.
    unfold utf8iterator_get_char_pointer. rewrite Hs.
    set (len := Z.of_nat (start it) - Z.of_nat (_token_start t)).
    assert (Hlen : 0 <= u64 len <= len) by (unfold u64; split; [zlia|apply Z.mod_le; lia]).
    destruct (Z.eqb_spec (u64 len) 0) as [E0|Hne]; cbn [negb andb].
    - apply wp_ret, wp_modify. rewrite E0. apply H; [done|]. intros Hsz Hlt. exfalso. unfold src in *. unfold u64 in E0.
      rewrite Z.mod_small in E0; lia.
    - destruct (load_lt (source (_input t)) (_token_start t + Z.to_nat (u64 len) - 1)) as (x & E & Hx); [lia|].
      eapply wp_lift; [exact E|]. apply wp_modify. apply H; [done|]. intros Hsz Hlt. unfold src in *.
      assert (E2 : u64 len = len) by (unfold u64; apply Z.mod_small; lia). rewrite E2 in *.
      replace (_token_start t + Z.to_nat len - 1)%nat with (start it - 1)%nat in Hx by lia. rewrite Hx.
      destruct (Z.eqb_spec x 13); [rewrite bool_decide_true by congruence|rewrite bool_decide_false by congruence]; lia. }
  unfold past in HK. destruct (_reconsume_current_input t).
  - apply wp_ret. specialize (HK _ eq_refl). by destruct t.
  - destruct (next_advanced _ Hok) as (it & E & Ha). eapply wp_on_input; [exact E|]. by apply HK.
Qed.

Lemma wp_emit_char c (Q : unit -> GumboTokenizerState -> Prop) t :
  it_ok (_input t) -> (_token_start t <= cur t)%nat ->
  (forall it len, past t it -> token_length (src t) (_token_start t) (start it) len ->
     Q tt (emitted (get_char_token_type (_is_in_cdata t) c) (VCharacter c) len it t)) ->
  wp (emit_char c) Q t.
Proof.
  intros Hok Hle H. unfold emit_char, set_token. apply wp_bind, wp_get, wp_bind, wp_modify.
  apply wp_finish_token; [done..|]. intros it len Hp Hl. exact (H it len Hp Hl).
Qed.

Lemma wp_clear_temporary_buffer (Q : unit -> GumboTokenizerState -> Prop) t :
  _temporary_buffer_emit t = None ->
  Q tt (set_script_data_buffer [] (set_temporary_buffer [] (set_input (utf8iterator_mark (_input t)) t))) ->
  wp clear_temporary_buffer Q t.
Proof.
  intros He H. unfold clear_temporary_buffer. apply wp_bind, wp_get, wp_bind, wp_assert; [by rewrite He|]. exact H.
Qed.

Lemma wp_emit_comment (Q : StateResult -> GumboTokenizerState -> Prop) t :
  _temporary_buffer_emit t = None -> it_ok (_input t) -> (_token_start t <= cur t)%nat ->
  (forall v it len, past (set_input (utf8iterator_mark (_input t)) t) it ->
     Q RETURN_SUCCESS (emitted GUMBO_TOKEN_COMMENT v len it (set_script_data_buffer [] (set_temporary_buffer [] t)))) ->
  wp emit_comment Q t.
Proof.
  intros He Hok Hle H. unfold emit_comment, finish_temporary_buffer. apply wp_bind, wp_bind, wp_get, wp_bind.
  apply wp_clear_temporary_buffer; [done|]. apply wp_ret, wp_bind, wp_modify, wp_bind, wp_finish_token; [done..|].
  intros it len Hp _. apply wp_ret. exact (H _ it len Hp).
Qed.

(** The tag buffer. *)
Definition has_buffer (g : GumboTagState) : Prop := exists b, _buffer g = Some b /\ Forall is_u8 b.

Definition tag_kept (g g' : GumboTagState) : Prop :=
  _attributes g' = _attributes g /\ _is_start_tag g' = _is_start_tag g /\ _attr_value_state g' = _attr_value_state g.

Lemma wp_tag_buffer b (Q : list Z -> GumboTokenizerState -> Prop) t :
  _buffer (_tag_state t) = Some b -> Q b t -> wp tag_buffer Q t.
Proof. intros E H. unfold tag_buffer. apply wp_bind, wp_get_tag. rewrite E. by eapply wp_lift. Qed.

Lemma wp_append_tag c (first : bool) (Q : unit -> GumboTokenizerState -> Prop) t :
  has_buffer (_tag_state t) ->
  (forall g, has_buffer g -> tag_kept (_tag_state t) g -> Q tt (set_tag_state g t)) ->
  wp (append_char_to_tag_buffer c first) Q t.
Proof.
  intros (b & E & Hb) H. unfold append_char_to_tag_buffer. apply wp_bind. eapply wp_tag_buffer; [exact E|].
  apply wp_bind.
  assert (Hg : forall g, tag_kept (_tag_state t) g -> Q tt (set_tag_state (set_buffer (Some (b ++ codepoint_bytes c)) g) t)).
  { intros g (? & ? & ?). apply H; [|done]. eexists. split; [done|]. apply Forall_app; split; [done|]. apply codepoint_bytes_bytes. }
  destruct (_ && _).
  - unfold reset_tag_buffer_start_point. repeat first [apply wp_bind | apply wp_get | apply wp_modify].
    exact (Hg (set_original_text _ (set_start_pos _ (_tag_state t))) ltac:(done)).
  - apply wp_ret. exact (Hg (_tag_state t) ltac:(done)).
Qed.

Lemma wp_initialize_tag_buffer (Q : unit -> GumboTokenizerState -> Prop) t :
  (forall g, _buffer g = Some [] -> tag_kept (_tag_state t) g -> Q tt (set_tag_state g t)) ->
  wp initialize_tag_buffer Q t.
Proof.
  intros H. unfold initialize_tag_buffer, reset_tag_buffer_start_point.
  repeat first [apply wp_bind | apply wp_get | apply wp_modify].
  exact (H (set_original_text _ (set_start_pos _ (set_buffer (Some []) (_tag_state t)))) ltac:(done) ltac:(done)).
Qed.

Lemma nil_buffer g : _buffer g = Some [] -> has_buffer g.
Proof. by eexists. Qed.

Lemma wp_start_new_tag (s : bool) (Q : unit -> GumboTokenizerState -> Prop) t :
  is_alpha (current (_input t)) = true -> no_tag t ->
  (forall g, has_buffer g -> _attributes g = Some [] -> _is_start_tag g = s -> Q tt (set_tag_state g t)) ->
  wp (start_new_tag s) Q t.
Proof.
  intros Ha Hn H. unfold start_new_tag. apply wp_bind, wp_get, wp_bind, wp_assert; [done|].
  assert (Hl : is_alpha (ensure_lowercase (current (_input t))) = true).
  { unfold ensure_lowercase. destruct (_ && _) eqn:E; [|done]. unfold is_alpha. lia. }
  cbv zeta. apply wp_bind, wp_assert; [done|]. apply wp_bind, wp_initialize_tag_buffer. intros g Hg (Hk & _ & _).
  apply wp_bind. eapply wp_tag_buffer; [exact Hg|]. apply wp_bind, wp_modify, wp_bind, wp_get_tag, wp_bind, wp_assert.
  { simpl_t. by rewrite Hk, Hn. }
  repeat first [apply wp_bind | apply wp_modify].
  refine (H (set_is_self_closing false (set_is_start_tag s (set_drop_next_attr_value false (set_attributes (Some [])
    (set_buffer (Some ([] ++ codepoint_bytes _)) g))))) _ _ _); [|done..].
  eexists. split; [done|]. apply codepoint_bytes_bytes.
Qed.

Lemma wp_finish_tag_name (Q : unit -> GumboTokenizerState -> Prop) t :
  has_buffer (_tag_state t) ->
  (forall g, has_buffer g -> tag_kept (_tag_state t) g -> Q tt (set_tag_state g t)) ->
  wp finish_tag_name Q t.
Proof.
  intros (b & E & Hb) H. unfold finish_tag_name. apply wp_bind. eapply wp_tag_buffer; [exact E|].
  destruct (Tags.gumbo_tag_enum_sound b Hb) as (tag & Ht & _). apply wp_bind. eapply wp_lift; [exact Ht|].
  apply wp_bind, wp_modify. apply wp_initialize_tag_buffer. intros g Hg Hk.
  exact (H g (nil_buffer g Hg) Hk).
Qed.

Lemma wp_is_appropriate_end_tag (Q : bool -> GumboTokenizerState -> Prop) t :
  has_buffer (_tag_state t) -> _is_start_tag (_tag_state t) = false ->
  (forall b, Q b t) -> wp is_appropriate_end_tag Q t.
Proof.
  intros (b & E & Hb) Hs H. unfold is_appropriate_end_tag. apply wp_bind, wp_get_tag, wp_bind, wp_assert; [by rewrite Hs|].
  apply wp_bind, wp_get_tag. destruct (_ =? _)%nat; [apply wp_ret, H|].
  apply wp_bind. eapply wp_tag_buffer; [exact E|].
  destruct (Tags.gumbo_tag_enum_sound b Hb) as (tag & Ht & _). apply wp_bind. eapply wp_lift; [exact Ht|].
  apply wp_ret, H.
Qed.

(** ** Attributes *)
Lemma wp_copy_original (Q : GumboStringPiece * GumboSourcePosition * GumboSourcePosition -> GumboTokenizerState -> Prop) t :
  (0 < cur t <= length (src t))%nat -> (forall r, Q r t) -> wp copy_over_original_tag_text Q t.
Proof.
  unfold cur, src. intros Hc H. unfold copy_over_original_tag_text, utf8iterator_get_char_pointer.
  apply wp_bind, wp_get_tag, wp_bind, wp_get. cbv zeta. set (d := _original_text _).
  destruct (load_lt (source (_input t)) (Z.to_nat (Z.of_nat d + (Z.of_nat (start (_input t)) - Z.of_nat d) - 1)))
    as (x & E & _); [lia|].
  apply wp_bind. eapply wp_lift; [exact E|]. apply wp_bind, wp_get_tag, wp_ret, H.
Qed.

Definition has_attr (g : GumboTagState) : Prop := exists l a, _attributes g = Some (l ++ [a]).

Lemma set_errors_id t : set_input (set_errors (errors (_input t)) (_input t)) t = t.
Proof. by destruct t as [? ? ? ? ? ? ? ? ? ? ? ? [] ?]. Qed.

Lemma find_attr_nonempty l nm i j : find_attr l nm i = Some j -> exists l' a, l = l' ++ [a].
Proof. destruct l as [|a l]; [done|]. intros _. destruct (exists_last (l := a :: l) ltac:(done)) as (l' & x & ->). eauto. Qed.

Lemma wp_add_duplicate i j (Q : unit -> GumboTokenizerState -> Prop) t :
  has_buffer (_tag_state t) ->
  (forall g es, has_buffer g -> tag_kept (_tag_state t) g -> Q tt (set_tag_state g (set_input (set_errors es (_input t)) t))) ->
  wp (add_duplicate_attr_error i j) Q t.
Proof.
  intros Hb H. unfold add_duplicate_attr_error. apply wp_bind, wp_get. destruct (_ && _).
  - apply wp_ret. specialize (H (_tag_state t) (errors (_input t)) Hb ltac:(done)). rewrite set_errors_id in H. by destruct t.
  - destruct Hb as (b & E & Hb). apply wp_bind, wp_get_tag, wp_bind, wp_get_tag, wp_bind. eapply wp_tag_buffer; [exact E|].
    apply wp_bind, wp_modify. cbv beta.
    match goal with |- context [gumbo_add_error ?i ?e] => destruct (gumbo_add_error_errors i e) as [es ->] end.
    apply wp_initialize_tag_buffer. intros g Hg Hk. exact (H g es (nil_buffer g Hg) Hk).
Qed.

Section with_junk.
Context (junk_pos : GumboSourcePosition).

Lemma wp_finish_attribute_name (Q : bool -> GumboTokenizerState -> Prop) t :
  has_buffer (_tag_state t) -> (exists l, _attributes (_tag_state t) = Some l) -> (0 < cur t <= length (src t))%nat ->
  (forall b g es, has_buffer g -> has_attr g -> _is_start_tag g = _is_start_tag (_tag_state t) ->
     Q b (set_tag_state g (set_input (set_errors es (_input t)) t))) ->
  wp (finish_attribute_name junk_pos) Q t.
Proof.
  intros Hb [l El] Hc H. unfold finish_attribute_name. apply wp_bind, wp_modify, wp_bind, wp_get_tag. simpl_t. rewrite El.
  destruct Hb as (b & E & Hb). apply wp_bind. eapply wp_tag_buffer; [exact E|].
  destruct (find_attr l b 0) as [i|] eqn:Ef.
  - apply find_attr_nonempty in Ef as (l' & a & ->). apply wp_bind, wp_add_duplicate; [by exists b|].
    intros g es Hg (Ha & Hs & _). apply wp_bind, wp_modify, wp_ret. simpl_t.
    refine (H false (set_drop_next_attr_value true g) es Hg _ Hs). exists l', a. simpl_t. by rewrite Ha.
  - apply wp_bind. eapply wp_tag_buffer; [exact E|].
    apply wp_bind, wp_copy_original; [done|]. intros [[oname q1] q2]. apply wp_bind, wp_copy_original; [done|].
    intros [[ovalue p1] p2]. apply wp_bind, wp_modify, wp_bind, wp_initialize_tag_buffer. intros g Hg (Ha & Hs & _). apply wp_ret.
    pose proof (H true g (errors (_input t)) (nil_buffer g Hg)) as H'. rewrite set_errors_id in H'.
    apply H'; [|done]. do 2 eexists. exact Ha.
Qed.

Lemma wp_finish_attribute_value (Q : unit -> GumboTokenizerState -> Prop) t :
  has_buffer (_tag_state t) -> has_attr (_tag_state t) -> (0 < cur t <= length (src t))%nat ->
  (forall g, has_buffer g -> has_attr g -> Q tt (set_tag_state g t)) ->
  wp finish_attribute_value Q t.
Proof.
  intros (b & E & Hb) (l & a & Ea) Hc H. unfold finish_attribute_value. apply wp_bind, wp_get_tag.
  destruct (_drop_next_attr_value _).
  - apply wp_bind, wp_modify, wp_initialize_tag_buffer. intros g Hg (Ha & _). apply H; [by apply nil_buffer|].
    exists l, a. by rewrite Ha.
  - apply wp_bind, wp_get_tag. rewrite Ea. apply wp_bind. eapply wp_lift; [by rewrite last_snoc|].
    apply wp_bind. eapply wp_tag_buffer; [exact E|]. apply wp_bind, wp_copy_original; [done|]. intros [[ov p1] p2].
    apply wp_bind, wp_modify, wp_initialize_tag_buffer. intros g Hg (Ha & _). apply H; [by apply nil_buffer|].
    do 2 eexists. exact Ha.
Qed.
End with_junk.

(** ** Emitting a tag *)

(** The text of the tag ends at its [>]. *)
Lemma tag_text_length t it len :
  it_ok (_input t) -> opened t -> current (_input t) = #">" -> advanced (_input t) it ->
  Z.of_nat (length (src t)) < 2 ^ 64 -> token_length (src t) (_token_start t) (start it) len ->
  len = Z.of_nat (cur t) - Z.of_nat (_token_start t) + 1.
Proof.
  unfold cur, src, opened. intros Hok [_ Hlt] Hc Ha Hsz Hl. unfold cur in Hlt.
  destruct (advanced_facts _ _ Ha) as (_ & _ & _ & _ & Hst & _). specialize (Hst ltac:(lia)).
  rewrite (Hl Hsz ltac:(lia)). destruct Ha as (_ & _ & _ & Hor). destruct Hok as (_ & _ & _ & Hp).
  destruct (Hp #">" ltac:(done) Hc) as [Hs Hw]. rewrite Hw in Hor. destruct Hor as [E|(E & H13 & _)]; rewrite E.
  - rewrite bool_decide_false; [lia|]. replace (start (_input t) + 1 - 1)%nat with (start (_input t)) by lia. congruence.
  - rewrite bool_decide_true; [lia|]. rewrite <- H13. f_equal. lia.
Qed.

(** The token of the tag under construction. *)
Definition tag_token (g : GumboTagState) : GumboTokenType * token_value :=
  if _is_start_tag g then
    (GUMBO_TOKEN_START_TAG, VStartTag (StartTag (_tag g) (_attributes g) (_is_self_closing g)))
  else (GUMBO_TOKEN_END_TAG, VEndTag (_tag g)).

Lemma wp_emit_current_tag (Q : StateResult -> GumboTokenizerState -> Prop) t :
  it_ok (_input t) -> opened t -> current (_input t) = #">" -> _reconsume_current_input t = false ->
  Z.of_nat (length (src t)) < 2 ^ 64 ->
  (forall ty v len it g, past t it -> advanced (_input t) it -> _attributes g = None ->
     (ty, v) = tag_token (_tag_state t) -> len = Z.of_nat (cur t) - Z.of_nat (_token_start t) + 1 ->
     Q RETURN_SUCCESS (emitted ty v len it (set_tag_state g t))) ->
  wp emit_current_tag Q t.
Proof.
  intros Hok Hop Hc Hr Hsz H. unfold emit_current_tag. apply wp_bind, wp_get_tag, wp_bind, wp_get_tag, wp_bind.
  match goal with |- wp _ ?K _ => set (P := K) end.
  assert (HP : forall ty v g, _attributes g = None -> (ty, v) = tag_token (_tag_state t) ->
    P tt (set_output (Token ty (tposition (_output t)) (toriginal_text (_output t)) v) (set_tag_state g t))).
  { intros ty v g Hg Htv. unfold P. apply wp_bind, wp_modify, wp_bind, wp_finish_token; [done|destruct Hop; unfold cur in *; simpl_t; lia|].
    intros it len Hpast Hl. assert (Hp : advanced (_input t) it) by (unfold past in Hpast; simpl_t; rewrite Hr in Hpast; apply Hpast).
    simpl_t.
    pose proof (tag_text_length t it len Hok Hop Hc Hp Hsz Hl) as El. apply wp_bind, wp_get, wp_bind, wp_get. unfold emitted. simpl_t.
    destruct Hop as [Hs Hlt]. destruct (advanced_facts _ _ Hp) as (_ & Hsrc & _).
    apply wp_bind, wp_assert; [apply Z.leb_le; lia|]. apply wp_bind. rewrite Hsrc.
    eapply wp_lift; [unfold load; fold (src t); by rewrite Hs|]. apply wp_bind, wp_assert; [done|]. apply wp_bind.
    eapply wp_lift; [unfold load; replace (_token_start t + Z.to_nat (len - 1))%nat with (cur t) by lia; unfold cur;
      by rewrite (it_ok_current _ _ Hok Hc ltac:(done))|].
    apply wp_bind, wp_assert; [done|]. apply wp_ret. refine (H ty v len it (set_buffer None g) Hpast Hp Hg Htv El). }
  clearbody P. unfold tag_token in HP. destruct (_is_start_tag _).
  - apply wp_bind, wp_get_tag, wp_bind, wp_get_tag, wp_bind, wp_modify, wp_bind, wp_modify, wp_modify.
    refine (HP _ _ (set_attributes None (set_last_start_tag _ (_tag_state t))) _ _); done.
  - apply wp_bind, wp_modify, wp_modify. refine (HP _ _ (set_attributes None (_tag_state t)) _ _); done.
Qed.

(** ** Emitting the temporary buffer *)
Lemma wp_maybe_emit_pending k c bs (Q : bool -> GumboTokenizerState -> Prop) t :
  _temporary_buffer_emit t = Some k -> drop k (_temporary_buffer t) = c :: bs -> pending (_input t) (c :: bs) ->
  it_ok (_input t) -> (_token_start t <= cur t)%nat ->
  (forall ty v len it, advanced (_input t) it -> pending it bs ->
     Q true (set_temporary_buffer_emit (Some (S k)) (emitted ty v len it t))) ->
  wp maybe_emit_from_temporary_buffer Q t.
Proof.
  intros He Hd Hp Hok Hle H. unfold maybe_emit_from_temporary_buffer. apply wp_bind, wp_get, wp_bind, wp_get. rewrite He.
  assert (Hk : _temporary_buffer t !! k = Some c).
  { by rewrite <- (Nat.add_0_r k), <- lookup_drop, Hd. }
  rewrite Hk. pose proof (Forall_inv (proj1 Hp)) as Hc. unfold printable in Hc.
  assert (Ec : as_char c = c) by (unfold as_char; destruct (Z.ltb_spec c 128); lia).
  apply wp_bind, wp_get, wp_bind, wp_assert.
  { destruct Hp as (_ & rest & _ & Hcur & _). apply Z.eqb_eq. unfold utf8iterator_current. lia. }
  apply wp_bind, wp_get, wp_bind, wp_modify, wp_bind, wp_emit_char; [done..|]. intros it len Hpast _.
  destruct Hpast as [En Ha]. simpl_t. destruct (pending_next _ _ _ Hok Hp) as (it' & E & _ & Hp').
  rewrite E in En. injection En as ->.
  apply wp_bind, wp_modify, wp_bind, wp_modify, wp_ret. exact (H _ _ len it Ha Hp').
Qed.

Lemma wp_maybe_emit_none (Q : bool -> GumboTokenizerState -> Prop) t :
  match _temporary_buffer_emit t with Some k => drop k (_temporary_buffer t) = [] | None => True end ->
  Q false (set_temporary_buffer_emit None t) -> wp maybe_emit_from_temporary_buffer Q t.
Proof.
  intros Hd H. unfold maybe_emit_from_temporary_buffer. apply wp_bind, wp_get, wp_bind, wp_get.
  destruct (_temporary_buffer_emit t) as [k|]; [|exact H]. rewrite lookup_ge_None_2; [exact H|].
  apply (f_equal length) in Hd. rewrite length_drop in Hd. cbn in Hd. lia.
Qed.

Lemma wp_emit_temporary_buffer c bs (Q : bool -> GumboTokenizerState -> Prop) t :
  it_ok (_input t) -> temp_text t -> _temporary_buffer t = c :: bs ->
  (forall ty v len it, it_ok it -> source it = src t -> (mark (_input t) < start it)%nat -> pending it bs ->
     Q true (set_temporary_buffer_emit (Some 1%nat) (emitted ty v len it t))) ->
  wp emit_temporary_buffer Q t.
Proof.
  intros Hok (HF & Hoff & Hm) Ht H. rewrite Ht in HF, Hoff.
  destruct (reset_pending _ c bs Hok HF Hoff) as (it' & E & Hp & Hok' & Hs & Hst & Hcur).
  unfold emit_temporary_buffer. apply wp_bind. eapply wp_on_input; [exact E|]. apply wp_bind, wp_modify.
  apply (wp_maybe_emit_pending 0 c bs); try done; [unfold cur; simpl_t; lia|].
  intros ty v len it Ha Hpit. destruct (advanced_facts _ _ Ha) as (H1 & H2 & _ & _ & H3 & _). simpl_t.
  refine (H ty v len it H1 _ _ Hpit); [by rewrite H2|]. rewrite <- Hst. apply H3.
  pose proof (Forall_inv HF) as Hc. unfold printable in Hc. lia.
Qed.

(** ** Matching a keyword *)
Lemma next_n_advances n it :
  it_ok it -> current it <> -1 -> exists it', next_n (S n) it = Ok it' /\ moved it it' /\ (start it < start it')%nat.
Proof.
  intros Hok Hc. cbn [next_n]. destruct (next_ok it Hok) as (it1 & -> & Hm & Hlt). rewrite bind_Ok.
  destruct (next_n_ok n it1 (proj1 Hm)) as (it2 & -> & Hm2). exists it2. split; [done|]. split; [by eapply moved_trans|].
  destruct Hm2 as (_ & _ & _ & _ & ?). specialize (Hlt Hc). lia.
Qed.

Lemma wp_maybe_consume_match p case (Q : bool -> GumboTokenizerState -> Prop) t :
  it_ok (_input t) -> text_of p <> [] ->
  Q false t -> (forall it, moved (_input t) it -> (start (_input t) < start it)%nat -> Q true (set_input it t)) ->
  wp (maybe_consume_match p case) Q t.
Proof.
  intros Hok Hp Hf Ht. unfold maybe_consume_match, wp, utf8iterator_maybe_consume_match.
  destruct (text_of p) as [|x l]; [done|]. clear Hp.
  destruct (_ && _) eqn:E.
  - apply andb_true_iff in E as [E _]. apply Nat.leb_le in E. cbn [length] in *.
    destruct (next_n_advances (length l) _ Hok) as (it & -> & Hm & Hlt).
    { destruct Hok as (_ & _ & [(_ & _ & ?)|[? _]] & _); [lia|done]. }
    rewrite !bind_Ok. by apply Ht.
  - rewrite bind_Ok. by destruct t.
Qed.

(** ** Bogus comments *)
Lemma wp_bogus_comment_loop fuel c (Q : unit -> GumboTokenizerState -> Prop) t :
  it_ok (_input t) -> c = current (_input t) -> (length (src t) - cur t <= fuel)%nat ->
  (forall it b, moved (_input t) it -> Q tt (set_input it (set_temporary_buffer b t))) ->
  wp (bogus_comment_loop fuel c) Q t.
Proof.
  revert c t; induction fuel as [|fuel IH]; intros c t Hok Hc Hf H; cbn [bogus_comment_loop].
  all: destruct ((c =? 62) || (c =? -1)) eqn:E;
    [apply wp_ret; specialize (H _ (_temporary_buffer t) (moved_refl _ Hok)); by destruct t|].
  - pose proof (start_lt _ Hok ltac:(lia)). unfold src, cur in *. lia.
  - apply wp_bind, wp_modify, wp_bind. destruct (next_ok _ Hok) as (it1 & E1 & Hm & Hlt).
    eapply wp_on_input; [exact E1|]. apply wp_bind, wp_get. specialize (Hlt ltac:(lia)).
    pose proof (start_lt _ Hok ltac:(lia)). destruct Hm as (Hok1 & Hs1 & Hm). apply IH; [done|done| |].
    + unfold src, cur in *. simpl_t. rewrite Hs1. lia.
    + intros it b Hmv. refine (H it b _). eapply moved_trans; [|exact Hmv]. done.
Qed.

(** ** Character references *)

(** The undefined references of the text have their explanation. *)
Definition refs_explained (scan_named : list Z -> option (OneOrTwoCodepoints * nat)) (bytes : list Z) : Prop :=
  forall it rest extra attr, source it = bytes -> at_byte it #"&" rest ->
    consume_char_ref scan_named it extra attr = Undef -> may_undef.

Lemma wp_lex_char_ref scan_named `{!ScansNamedRefs scan_named} extra attr
  (Q : OneOrTwoCodepoints * bool -> GumboTokenizerState -> Prop) t :
  refs_explained scan_named (src t) -> it_ok (_input t) -> current (_input t) = #"&" ->
  (forall it out st, source it = src t -> it_ok it ->
     (first out <> -1 /\ (cur t < start it)%nat) \/
     (first out = -1 /\ second out = -1 /\ current it = #"&" /\ start it = cur t) ->
     Q (out, st) (set_input it t)) ->
  wp (lex_char_ref scan_named extra attr) Q t.
Proof.
  intros Hd Hok Hc H. destruct (it_ok_at _ _ Hok Hc ltac:(done)) as [rest Hat]. unfold wp, lex_char_ref.
  destruct (consume_char_ref_ok scan_named _ rest extra attr Hat) as [[Hu _]|(it & out & st & -> & Hs & Hor)].
  - rewrite Hu. exact (Hd _ rest extra attr eq_refl Hat Hu).
  - rewrite bind_Ok. apply H; [done| |].
    + destruct Hor as [(_ & ? & _)|(_ & _ & Hat' & _)]; [done|by eapply at_byte_ok].
    + destruct Hor as [(? & _ & ?)|(? & ? & (_ & ? & _) & ?)]; [by left|by right].
Qed.

End operations.
End LexerWp.
