(* ===== verification/GumboLexerSafety.v ===== *)
(** Safety and progress of the HTML tokenizer (GumboLexer.v), with the program
    logic of GumboLexerWp.v: every state handler keeps the invariant, the measure of
    the loop decreases, and a call of [gumbo_lex] returns a token. *)
From Stdlib Require Import Strings.String Strings.Ascii.
From S2P Require Import Prelude GumboTags GumboBase Utf8 CharRef GumboLexer GumboLexerWp.
Import GumboBase Utf8 CharRef Lexer LexerWp.

Module LexerSafety.

(** * What a handler leaves *)

(** The rest of the state [t1] is that of [t]. *)
Definition kept (t t1 : GumboTokenizerState) : Prop :=
  it_ok (_input t1) /\ source (_input t1) = source (_input t) /\ _temporary_buffer_emit t1 = None /\
  _buffered_emit_char t1 = kGumboNoChar /\ _token_start t1 = _token_start t.

(** The next character is read. *)
Lemma next_advance t t1 :
  loop_inv t -> kept t t1 -> _reconsume_current_input t1 = false ->
  start (_input t1) = start (_input t) -> current (_input t1) = current (_input t) ->
  (current (_input t) <> -1 \/ (rank (_state t1) < rank (_state t))%nat /\ is_bogus_doctype (_state t1) = false) ->
  (forall it, advanced (_input t1) it -> it_ok it -> source it = source (_input t) -> (start (_input t) <= start it)%nat ->
     (current (_input t) <> -1 -> (start (_input t) < start it)%nat) -> mark it = mark (_input t1) ->
     (current (_input t) = -1 -> current it = -1) ->
     state_ok (set_input it (set_reconsume_current_input false t1))) ->
  step_post t NEXT_CHAR t1.
Proof.
  intros ((Hok & Hle & Hr & Hsz) & _) (Hok1 & Hs1 & He1 & Hb1 & Hts) Hr1 Hst1 Hc1 Hm H. split; [done|]. rewrite Hr1.
  intros it Ha. destruct (advanced_facts _ _ Ha) as (F1 & F2 & F3 & F4 & F5 & F6 & F7).
  rewrite Hst1, Hc1, Hs1 in *. rewrite F2 in F7.
  unfold goes_on, loop_inv, base_ok, steps_left, cur, src in *. simpl_t. rewrite F2, Hts.
  assert (HS : state_ok (set_input it (set_reconsume_current_input false t1))) by (apply H; try done; naive_solver).
  assert (rank (_state t1) <= 3)%nat by (by destruct (_state t1); cbn; lia).
  split_and!; try done; try lia.
  intros Hbog. destruct Hm as [Hc|[_ Hk]]; [specialize (F5 Hc); lia|congruence].
Qed.

(** The same character, or a later one that has been read already, is next; the
    token may start anew there. *)
Lemma next_restart t t1 :
  loop_inv t -> it_ok (_input t1) -> source (_input t1) = source (_input t) -> _temporary_buffer_emit t1 = None ->
  _buffered_emit_char t1 = kGumboNoChar -> (_token_start t <= _token_start t1 <= start (_input t1))%nat ->
  _reconsume_current_input t1 = true ->
  (start (_input t) < start (_input t1) \/
   start (_input t) = start (_input t1) /\ rank (_state t1) < rank (_state t))%nat ->
  is_bogus_doctype (_state t1) = false ->
  state_ok (set_reconsume_current_input false t1) ->
  step_post t NEXT_CHAR t1.
Proof.
  intros ((Hok & Hle & Hr & Hsz) & _) Hok1 Hs1 He1 Hb1 Hts Hr1 Hm Hbog H. split; [done|]. rewrite Hr1.
  unfold goes_on, loop_inv, base_ok, steps_left, cur, src in *. simpl_t. rewrite Hs1.
  pose proof (start_le _ Hok1) as Hl. rewrite Hs1 in Hl.
  assert (rank (_state t1) <= 3)%nat by (by destruct (_state t1); cbn; lia).
  split_and!; try done; try lia. congruence.
Qed.

Lemma next_reconsume t t1 :
  loop_inv t -> kept t t1 -> _reconsume_current_input t1 = true ->
  (start (_input t) < start (_input t1) \/
   start (_input t) = start (_input t1) /\ rank (_state t1) < rank (_state t))%nat ->
  is_bogus_doctype (_state t1) = false ->
  state_ok (set_reconsume_current_input false t1) ->
  step_post t NEXT_CHAR t1.
Proof.
  intros Hinv (Hok1 & Hs1 & He1 & Hb1 & Hts) Hr1 Hm Hbog H. apply next_restart; try done. rewrite Hts.
  destruct Hinv as ((_ & Hle & _) & _). unfold cur in Hle. lia.
Qed.

Lemma text_state_ok t : is_text (_state t) || is_bogus_doctype (_state t) = true -> text_ok t -> state_ok t.
Proof. unfold state_ok. intros Hs Ht. destruct (_state t); try done; apply Ht. Qed.

(** A token has been emitted: the tokenizer reads text, or the rest of a doctype. *)
Lemma return_token t t1 r ty v len it :
  loop_inv t -> kept t t1 -> r <> NEXT_CHAR -> it_ok it -> source it = source (_input t) -> no_tag t1 ->
  is_text (_state t1) || is_bogus_doctype (_state t1) = true ->
  (ty = GUMBO_TOKEN_EOF \/ (_token_start t < start it)%nat \/
   (is_bogus_doctype (_state t) = true /\ is_bogus_doctype (_state t1) = false /\
    (start (_input t) <= start it)%nat)) ->
  step_post t r (emitted ty v len it t1).
Proof.
  intros ((Hok & Hle & Hr & Hsz) & _ & Hb & _) (Hok1 & Hs1 & He1 & Hb1 & Hts) Hne Hok2 Hs2 Hn Hst Hpr.
  apply start_le in Hok2 as Hl2. rewrite Hs2 in Hl2.
  assert (HT : text_ok (set_reconsume_current_input false (emitted ty v len it t1))).
  { split; [exact Hn|]. intros Hc. by apply (it_ok_current it #"<" Hok2). }
  assert (HS : state_ok (set_reconsume_current_input false (emitted ty v len it t1))).
  { by apply text_state_ok. }
  assert (HR : returned t (set_reconsume_current_input false (emitted ty v len it t1))).
  { unfold returned, lex_inv, base_ok, tokens_left, cur, src in *. unfold emitted in *. simpl_t. rewrite Hs2, He1, Hb1, Hb.
    split_and!; try done; try lia. destruct Hpr as [?|[?|(E1 & E2 & E3)]]; [by left|right|right].
    - cbn [Z.eqb kGumboNoChar Pos.eqb]. destruct (_ && _), (_ && _); lia.
    - rewrite E1, E2. cbn [andb Z.eqb kGumboNoChar Pos.eqb]. destruct (Nat.leb_spec (start (_input t)) (_token_start t)); lia. }
  by destruct r.
Qed.

(** A character has been emitted. *)
Lemma return_char t t1 r cdata c v len it :
  loop_inv t -> kept t t1 -> r <> NEXT_CHAR -> past t1 it -> _reconsume_current_input t1 = false -> no_tag t1 ->
  is_text (_state t1) = true -> start (_input t1) = start (_input t) ->
  c = -1 \/ current (_input t1) <> -1 ->
  step_post t r (emitted (get_char_token_type cdata c) v len it t1).
Proof.
  intros Hinv Hk Hne Hp Hr Hn Ht Hst Hc. pose proof Hp as Hp'. unfold past in Hp'. rewrite Hr in Hp'. destruct Hp' as [_ Ha].
  destruct (advanced_facts _ _ Ha) as (Hok2 & Hs2 & _ & _ & Hlt & _).
  apply return_token; try done; [by destruct Hk as (_ & <- & _)|by rewrite Ht|]. destruct Hc as [->|Hc].
  - left. by destruct cdata.
  - right; left. specialize (Hlt Hc).
    destruct Hinv as ((_ & Hle & _) & _). unfold cur in Hle. lia.
Qed.

(** The first character of the temporary buffer has been emitted. *)
Lemma return_temp t t1 r ty v len it c bs :
  loop_inv t -> r <> NEXT_CHAR -> it_ok it -> source it = src t -> (_token_start t < start it)%nat ->
  _buffered_emit_char t1 = kGumboNoChar -> no_tag t1 -> is_text (_state t1) = true ->
  _temporary_buffer t1 = c :: bs -> pending it bs ->
  step_post t r (set_temporary_buffer_emit (Some 1%nat) (emitted ty v len it t1)).
Proof.
  intros ((Hok & Hle & Hr & Hsz) & _ & Hb & _) Hne Hok1 Hs Hlt Hb1 Hn Ht Htmp Hp.
  set (t2 := set_reconsume_current_input false (set_temporary_buffer_emit (Some 1%nat) (emitted ty v len it t1))).
  assert (HS : state_ok t2).
  { apply text_state_ok; [unfold t2, emitted; simpl_t; by rewrite Ht|]. split; [exact Hn|]. intros Hc. by apply (it_ok_current it #"<" Hok1). }
  assert (HR : returned t t2).
  { split; [|split; [exact Hs|]].
    - split; [|split; [exact HS|]]; unfold base_ok, src, cur, t2, emitted in *; simpl_t; [by rewrite Hs|by rewrite Htmp].
    - right. unfold tokens_left, src, cur, t2, emitted in *. simpl_t. rewrite Hb1, Hb, Hs.
      apply start_le in Hok1. rewrite Hs in Hok1. cbn [Z.eqb kGumboNoChar Pos.eqb]. destruct (_ && _), (_ && _); lia. }
  by destruct r.
Qed.

(** The temporary buffer is flushed, its first character now. *)
Lemma wp_flush `{U : MayUndef} t t1 (Q : bool -> GumboTokenizerState -> Prop) :
  loop_inv t -> it_ok (_input t1) -> temp_text t1 -> _temporary_buffer t1 <> [] -> source (_input t1) = src t ->
  _token_start t1 = _token_start t -> _buffered_emit_char t1 = kGumboNoChar -> no_tag t1 ->
  is_text (_state t1) = true ->
  (forall t', (forall r, r <> NEXT_CHAR -> step_post t r t') -> Q true t') ->
  wp emit_temporary_buffer Q t1.
Proof.
  intros Hinv Hok Htt Hne Hs Hts Hb Hn Ht H. destruct (_temporary_buffer t1) as [|c bs] eqn:E; [done|].
  apply (wp_emit_temporary_buffer c bs); try done. intros ty v len it H1 H2 H3 H4. apply H. intros r Hr.
  destruct Htt as (_ & _ & Hm). eapply return_temp; try done; [by rewrite <- Hs|lia].
Qed.

(** * The temporary buffer *)

(** The current character, which is printable, has been added to the temporary buffer. *)
Lemma temp_text_push t t2 c :
  it_ok (_input t) -> temp_ok t -> current (_input t) = c -> printable c ->
  source (_input t2) = source (_input t) -> mark (_input t2) = mark (_input t) ->
  _token_start t2 = _token_start t -> _temporary_buffer t2 = _temporary_buffer t ++ codepoint_bytes c ->
  temp_text t2.
Proof.
  intros Hok (Hop & (HF & Hoff & Hm) & Hor) Hc Hp Hs Hmk Ht Hb. unfold temp_text, src, cur in *.
  destruct (printable_plain c Hp) as [_ Hcb]. rewrite Hcb in Hb. rewrite Hb, Ht, Hs, Hmk. unfold printable in Hp.
  split_and!; [apply Forall_app; split; [done|by apply Forall_singleton]| |done].
  apply at_off_snoc; [done|]. replace (_ + _)%nat with (start (_input t)) by lia. by apply it_ok_current.
Qed.

(** It has been read past. *)
Lemma temp_ok_push t t2 it c :
  it_ok (_input t) -> temp_ok t -> current (_input t) = c -> printable c -> advanced (_input t) it ->
  _input t2 = it -> _token_start t2 = _token_start t -> _temporary_buffer t2 = _temporary_buffer t ++ codepoint_bytes c ->
  temp_ok t2.
Proof.
  intros Hok Hto Hc Hp Ha Hi Ht Hb.
  assert (Htt : temp_text t2).
  { destruct (advanced_facts _ _ Ha) as (_ & Hs & Hm & _). eapply (temp_text_push t); try done; by rewrite Hi. }
  destruct Hto as ([Hop1 Hop2] & _ & Hor). unfold temp_ok, opened, src, cur in *. rewrite Hb, Ht, Hi.
  destruct (advanced_facts _ _ Ha) as (_ & -> & -> & Hle & _). pose proof (advanced_by_one _ _ _ Hok Ha Hc Hp).
  destruct (printable_plain c Hp) as [_ Hcb]. unfold printable in Hp. rewrite Hcb, length_app. cbn [length].
  split_and!; try done; lia.
Qed.

(** A [<] has been put into the temporary buffer and read past. *)
Lemma temp_ok_lt t t2 it :
  it_ok (_input t) -> current (_input t) = #"<" -> (_token_start t <= cur t)%nat -> src t !! _token_start t = Some #"<" ->
  advanced (utf8iterator_mark (_input t)) it ->
  _input t2 = it -> _token_start t2 = _token_start t -> _temporary_buffer t2 = text_of "<" ->
  temp_ok t2.
Proof.
  intros Hok Hc Hle Hs Ha Hi Ht Hb. unfold temp_ok, temp_text, opened, src, cur in *. rewrite Hb, Ht, Hi.
  destruct (advanced_facts _ _ Ha) as (_ & -> & -> & _ & Hlt & _).
  pose proof (advanced_by_one (utf8iterator_mark (_input t)) _ _ Hok Ha Hc ltac:(done)) as Hor.
  unfold utf8iterator_mark in *. simpl_t. specialize (Hlt ltac:(lia)). cbn [length text_of].
  split_and!; try done; try lia.
  - by apply Forall_singleton.
  - apply (at_off_snoc _ []); [|rewrite Nat.add_0_r; by apply it_ok_current].
    exists (take (start (_input t)) (source (_input t))), (drop (start (_input t)) (source (_input t))).
    split; [by rewrite app_nil_l, take_drop|]. rewrite length_take, Nat.min_l; [done|]. by apply start_le.
  - change (length (text_of "<")) with 1%nat. lia.
Qed.

(** * Proof steps *)

(** One rule of the program logic.  Side conditions are left to the caller. *)
Ltac wp_step :=
  lazymatch goal with
  | |- wp (_ ≫= _) _ _ => apply wp_bind
  | |- wp (mret _) _ _ => apply wp_ret
  | |- wp (get _) _ _ => apply wp_get
  | |- wp (get_tag _) _ _ => apply wp_get_tag
  | |- wp (modify _) _ _ => apply wp_modify
  | |- wp (modify_tag _) _ _ => apply wp_modify
  | |- wp (modify_doc_type _) _ _ => apply wp_modify
  | |- wp (gumbo_tokenizer_set_state _) _ _ => apply wp_modify
  | |- wp (reconsume _) _ _ => apply wp_modify
  | |- wp (set_force_quirks _) _ _ => apply wp_modify
  | |- wp (append_char_to_temporary_buffer _) _ _ => apply wp_modify
  | |- wp (append_char_to_script_data_buffer _) _ _ => apply wp_modify
  | |- wp reset_token_start_point _ _ => apply wp_modify
  | |- wp (tokenizer_add_parse_error _) _ _ => apply wp_error; intros ?
  | |- wp (assert _) _ _ => apply wp_assert
  | |- wp (if ?b then _ else _) _ _ => destruct b eqn:?
  | |- wp clear_temporary_buffer _ _ => apply wp_clear_temporary_buffer
  | |- wp (emit_char _) _ _ => apply wp_emit_char; [| |intros ? ? ? _]
  | |- wp emit_current_char _ _ => unfold emit_current_char
  | |- wp emit_replacement_char _ _ => unfold emit_replacement_char
  | |- wp emit_eof _ _ => unfold emit_eof
  | |- wp (open_lt _) _ _ => unfold open_lt
  | |- wp (end_tag_open _ _ _) _ _ => unfold end_tag_open
  | |- wp (tag_eof _) _ _ => unfold tag_eof
  | |- wp attr_char_ref _ _ => unfold attr_char_ref
  | |- wp (attr_value_quoted _ _ _) _ _ => unfold attr_value_quoted
  | |- wp reset_tag_buffer_start_point _ _ => unfold reset_tag_buffer_start_point
  | |- wp (comment_error _) _ _ => unfold comment_error
  | |- wp (doctype_error _) _ _ => unfold doctype_error
  | |- wp doctype_done _ _ => unfold doctype_done
  | |- wp (bogus_doctype _) _ _ => unfold bogus_doctype
  | |- wp (bogus_doctype_emit _) _ _ => unfold bogus_doctype_emit
  | |- wp (open_identifier _) _ _ => unfold open_identifier
  | |- wp finish_doctype_name _ _ => unfold finish_doctype_name
  | |- wp finish_doctype_public_id _ _ => unfold finish_doctype_public_id
  | |- wp finish_doctype_system_id _ _ => unfold finish_doctype_system_id
  | |- wp finish_temporary_buffer _ _ => unfold finish_temporary_buffer
  | |- wp (doctype_id_quoted _ _ _ _ _) _ _ => unfold doctype_id_quoted
  | |- wp (end_tag_name _ _) _ _ => unfold end_tag_name
  | |- wp (as_result _) _ _ => unfold as_result
  | |- wp (start_new_tag _) _ _ => apply wp_start_new_tag; [| |intros ? ? ? ?]
  | |- wp (append_char_to_tag_buffer _ _) _ _ => apply wp_append_tag; [|intros ? ? ?]
  | |- wp finish_tag_name _ _ => apply wp_finish_tag_name; [|intros ? ? ?]
  | |- wp emit_current_tag _ _ => apply wp_emit_current_tag; [| | | | |intros ? ? ? ? ? _ ? ? _ _]
  | |- wp is_appropriate_end_tag _ _ => apply wp_is_appropriate_end_tag; [| |intros ?]
  | |- wp (finish_attribute_name _) _ _ => apply wp_finish_attribute_name; [| | |intros ? ? ? ? ? ?]
  | |- wp finish_attribute_value _ _ => apply wp_finish_attribute_value; [| | |intros ? ? ?]
  | |- wp (maybe_consume_match _ _) _ _ => apply wp_maybe_consume_match; [|done| |intros ? (? & ? & ? & ? & ?) ?]
  | Hinv : loop_inv ?t |- wp emit_temporary_buffer _ _ => apply (wp_flush t); [done| | | | | | | | |intros ? HP]
  | |- wp emit_comment _ _ => apply wp_emit_comment; [| | |intros ? ? ? ?]
  | |- wp emit_doctype _ _ => unfold emit_doctype, set_token
  | |- wp doc_type_state_init _ _ => apply wp_modify
  | |- wp finish_token _ _ => apply wp_finish_token; [| |intros ? ? ? _]
  | |- wp abandon_current_tag _ _ => unfold abandon_current_tag, mark_tag_state_as_empty, destroy_tag_buffer
  end; cbv beta.

Ltac solve_kept := split_and!; solve [done | simpl_t; etransitivity; eassumption].


Ltac bools := unfold is_space, is_alpha, utf8iterator_current in *.

Ltac solve_lt :=
  match goal with
  | E : (current ?i =? 60) = true |- _ = _ => rewrite (proj1 (Z.eqb_eq _ _) E); reflexivity
  | H : current ?i = 60 -> ?P |- ?P => apply H; lia
  end.

Lemma has_attr_some g : has_attr g -> exists l, _attributes g = Some l.
Proof. intros (l & a & E). eauto. Qed.

Ltac solve_temp :=
  match goal with
  | H : has_attr ?g |- exists l, _attributes ?g = Some l => exact (has_attr_some g H)
  | |- _ = text_of _ => solve_lt
  | H : current ?i = 60 -> ?P |- ?P => apply H; lia
  | Ha : advanced (utf8iterator_mark (_input ?t)) ?it |- temp_ok _ =>
      apply (temp_ok_lt t _ it); unfold cur, src; solve [done | lia | solve_lt]
  | Ha : advanced (_input ?t) ?it, Hto : temp_ok ?t |- temp_ok ?t2 =>
      match t2 with context [_temporary_buffer t ++ codepoint_bytes ?c] =>
        apply (temp_ok_push t _ it c); unfold printable; bools; solve [done | lia] end
  | Hto : temp_ok ?t |- temp_text ?t2 =>
      match t2 with context [_temporary_buffer t ++ codepoint_bytes ?c] =>
        apply (temp_text_push t _ c); unfold printable; bools; solve [done | lia] end
  | Htmp : _temporary_buffer ?t = text_of _ |- _ => rewrite Htmp; solve [done]
  | E : (current ?i =? ?k) = true, Htmp : _temporary_buffer ?t = text_of _ |- _ = text_of _ =>
      rewrite (proj1 (Z.eqb_eq _ _) E), Htmp; solve [done]
  | |- (2 <= length (_ ++ _))%nat => rewrite length_app; solve [lia]
  | Htmp : _temporary_buffer ?t = text_of "</" |- (2 <= length (_ ++ _))%nat =>
      rewrite Htmp, length_app; change (length (text_of "</")) with 2%nat; lia
  | Htmp : _temporary_buffer ?t = [] |- _ => rewrite Htmp; solve [done]
  | Hscr : _script_data_buffer ?t = [] |- _ => rewrite Hscr; solve [done]
  | |- _ <> [] => intros Enil; simpl_t; apply (f_equal length) in Enil; rewrite ?length_app in Enil; cbn [length] in Enil; lia
  end.

(** What is known of the tag state. *)
Ltac use_tag :=
  repeat match goal with
  | H : tag_kept _ ?g |- _ => destruct H as (? & ? & ?); simpl_t
  | E : _attributes ?g = _attributes _ |- context [_attributes ?g] => rewrite E
  | E : _is_start_tag ?g = _is_start_tag _ |- context [_is_start_tag ?g] => rewrite E
  | E : _attr_value_state ?g = _attr_value_state _ |- context [_attr_value_state ?g] => rewrite E
  end.

Ltac solve_state :=
  unfold state_ok; simpl_t;
  repeat match goal with Hs : _state ?t = _ |- context [_state ?t] => rewrite Hs end;
  unfold text_ok, tag_ok, attr_ok, opened, no_tag, cur, src in *; simpl_t; use_tag;
  repeat match goal with H : source ?it = source _ |- _ => is_var it; rewrite H in * end;
  split_and?; try solve [done | lia | unfold utf8iterator_mark; simpl_t; lia | intros; lia | eauto | solve_temp].

Ltac solve_measure Hs :=
  unfold utf8iterator_mark; simpl_t; rewrite ?Hs in *; cbn [rank is_bogus_doctype is_text] in *; bools;
  solve [done | lia | left; lia | right; lia | match goal with |- ?x = -1 \/ ?y <> -1 => destruct (decide (y = -1)); [left|right]; done end].

Ltac close_post Hs :=
  lazymatch goal with
  | |- step_post ?t NEXT_CHAR ?t1 =>
      first
        [ apply next_reconsume; [done|solve_kept|reflexivity|solve_measure Hs|reflexivity|solve_state]
        | apply next_advance; [done|solve_kept|solve [done]|reflexivity|reflexivity|solve_measure Hs
                              |intros ? ? ? ? ? ? ? ?; solve_state] ]
  | |- step_post _ _ (emitted (get_char_token_type _ _) _ _ _ _) =>
      apply return_char; [done|solve_kept|done|done|done|done|solve_measure Hs|done|solve_measure Hs]
  | Ha : advanced (_input ?t1) ?it |- step_post _ _ (emitted _ _ _ ?it _) =>
      destruct (advanced_facts _ _ Ha) as (? & ? & _ & ? & _); simpl_t;
      apply return_token; [done|solve_kept|done|done|done|done|solve_measure Hs|right; left; lia]
  | Hp : past ?t1 ?it |- step_post _ _ (emitted _ _ _ ?it _) =>
      destruct (past_facts _ _ Hp) as (? & ? & ?); [done|]; unfold utf8iterator_mark in *; simpl_t;
      apply return_token; [done|solve_kept|done|done|solve [done | etransitivity; eassumption]|done|solve_measure Hs
        |first [right; left; lia | right; right; split_and!; solve_measure Hs]]
  | |- step_post ?t ?r (set_doc_type_state ?d (emitted ?ty ?v ?len ?it ?t1)) =>
      change (step_post t r (emitted ty v len it (set_doc_type_state d t1))); close_post Hs
  | HP : forall r, r <> NEXT_CHAR -> step_post _ r ?t' |- step_post _ _ ?t' => by apply HP
  end.

(** Opens the handler of the state [s]. *)
Ltac start_state handler :=
  let t := fresh "t" in
  intros t Hs Hinv Hd; pose proof Hinv as ((Hok & Hle & Hr & Hsz) & He & Hb & Hst);
  cbn [dispatch_table]; unfold handler; unfold state_ok in Hst; rewrite Hs in Hst.

Section states.
Context (scan_named : list Z -> option (OneOrTwoCodepoints * nat)) `{!ScansNamedRefs scan_named}
  (junk_pos : GumboSourcePosition) {U : MayUndef}.

(** The handler of the state [s] keeps the invariant. *)
Definition safe (s : GumboTokenizerEnum) : Prop :=
  forall t, _state t = s -> loop_inv t -> refs_explained scan_named (src t) ->
    wp (dispatch_table scan_named junk_pos s (current (_input t))) (step_post t) t.

Ltac text_state handler :=
  start_state handler;
  match goal with Hs : _state _ = _, Hst : text_ok _ |- _ =>
    destruct Hst as [Hn Ht]; repeat wp_step; try done;
    repeat match goal with |- context [gumbo_string_equals ?a ?b] => destruct (gumbo_string_equals a b) end;
    close_post Hs end.

Lemma data_safe : safe GUMBO_LEX_DATA.
Proof. text_state handle_data_state. Qed.

Lemma rcdata_safe : safe GUMBO_LEX_RCDATA.
Proof. text_state handle_rcdata_state. Qed.

Lemma rawtext_safe : safe GUMBO_LEX_RAWTEXT.
Proof. text_state handle_rawtext_state. Qed.

Lemma script_safe : safe GUMBO_LEX_SCRIPT.
Proof. text_state handle_script_state. Qed.

Lemma plaintext_safe : safe GUMBO_LEX_PLAINTEXT.
Proof. text_state handle_plaintext_state. Qed.

Lemma script_escaped_start_safe : safe GUMBO_LEX_SCRIPT_ESCAPED_START.
Proof. text_state handle_script_escaped_start_state. Qed.

Lemma script_escaped_start_dash_safe : safe GUMBO_LEX_SCRIPT_ESCAPED_START_DASH.
Proof. text_state handle_script_escaped_start_dash_state. Qed.

Lemma script_escaped_safe : safe GUMBO_LEX_SCRIPT_ESCAPED.
Proof. text_state handle_script_escaped_state. Qed.

Lemma script_escaped_dash_safe : safe GUMBO_LEX_SCRIPT_ESCAPED_DASH.
Proof. text_state handle_script_escaped_dash_state. Qed.

Lemma script_escaped_dash_dash_safe : safe GUMBO_LEX_SCRIPT_ESCAPED_DASH_DASH.
Proof. text_state handle_script_escaped_dash_dash_state. Qed.

Lemma script_double_escaped_safe : safe GUMBO_LEX_SCRIPT_DOUBLE_ESCAPED.
Proof. text_state handle_script_double_escaped_state. Qed.

Lemma script_double_escaped_dash_safe : safe GUMBO_LEX_SCRIPT_DOUBLE_ESCAPED_DASH.
Proof. text_state handle_script_double_escaped_dash_state. Qed.

Lemma script_double_escaped_dash_dash_safe : safe GUMBO_LEX_SCRIPT_DOUBLE_ESCAPED_DASH_DASH.
Proof. text_state handle_script_double_escaped_dash_dash_state. Qed.

Lemma script_double_escaped_lt_safe : safe GUMBO_LEX_SCRIPT_DOUBLE_ESCAPED_LT.
Proof. text_state handle_script_double_escaped_lt_state. Qed.

Lemma script_double_escaped_start_safe : safe GUMBO_LEX_SCRIPT_DOUBLE_ESCAPED_START.
Proof. text_state handle_script_double_escaped_start_state. Qed.

Lemma script_double_escaped_end_safe : safe GUMBO_LEX_SCRIPT_DOUBLE_ESCAPED_END.
Proof. text_state handle_script_double_escaped_end_state. Qed.

Ltac solve_side :=
  try solve [done | unfold temporary_buffer_equals; by apply bool_decide_true | unfold cur, src in *; simpl_t; bools; lia | simpl_t; solve_temp
    | by apply Nat.leb_le].

Ltac lt_state handler :=
  start_state handler;
  match goal with Hs : _state _ = _, Hst : no_tag _ /\ temp_ok _ /\ _ |- _ =>
    let Hto := fresh "Hto" in
    destruct Hst as (Hn & Hto & Htmp);
    pose proof Hto as ([Ho1 Ho2] & Htt & _); unfold cur in Ho2; destruct_and? Htmp;
    repeat wp_step; solve_side; close_post Hs end.

Lemma tag_open_safe : safe GUMBO_LEX_TAG_OPEN.
Proof. lt_state handle_tag_open_state. Qed.

Lemma rcdata_lt_safe : safe GUMBO_LEX_RCDATA_LT.
Proof. lt_state handle_rcdata_lt_state. Qed.

Lemma rawtext_lt_safe : safe GUMBO_LEX_RAWTEXT_LT.
Proof. lt_state handle_rawtext_lt_state. Qed.

Lemma script_lt_safe : safe GUMBO_LEX_SCRIPT_LT.
Proof. lt_state handle_script_lt_state. Qed.

Lemma end_tag_open_safe : safe GUMBO_LEX_END_TAG_OPEN.
Proof. lt_state handle_end_tag_open_state. Qed.

Lemma script_escaped_lt_safe : safe GUMBO_LEX_SCRIPT_ESCAPED_LT.
Proof. lt_state handle_script_escaped_lt_state. Qed.

Lemma rcdata_end_tag_open_safe : safe GUMBO_LEX_RCDATA_END_TAG_OPEN.
Proof. lt_state handle_rcdata_end_tag_open_state. Qed.

Lemma rawtext_end_tag_open_safe : safe GUMBO_LEX_RAWTEXT_END_TAG_OPEN.
Proof. lt_state handle_rawtext_end_tag_open_state. Qed.

Lemma script_end_tag_open_safe : safe GUMBO_LEX_SCRIPT_END_TAG_OPEN.
Proof. lt_state handle_script_end_tag_open_state. Qed.

Lemma script_escaped_end_tag_open_safe : safe GUMBO_LEX_SCRIPT_ESCAPED_END_TAG_OPEN.
Proof. lt_state handle_script_escaped_end_tag_open_state. Qed.

Ltac end_tag_state handler :=
  start_state handler;
  match goal with Hs : _state _ = _, Hst : tag_ok _ /\ temp_ok _ /\ _ |- _ =>
    let Hto := fresh "Hto" in
    destruct Hst as ((_ & Hbuf & Hattr) & Hto & Hlen & Hstart);
    pose proof Hto as ([Ho1 Ho2] & Htt & _); unfold cur in Ho2;
    repeat wp_step; solve_side; close_post Hs end.

Lemma rcdata_end_tag_name_safe : safe GUMBO_LEX_RCDATA_END_TAG_NAME.
Proof. end_tag_state handle_rcdata_end_tag_name_state. Qed.

Lemma rawtext_end_tag_name_safe : safe GUMBO_LEX_RAWTEXT_END_TAG_NAME.
Proof. end_tag_state handle_rawtext_end_tag_name_state. Qed.

Lemma script_end_tag_name_safe : safe GUMBO_LEX_SCRIPT_END_TAG_NAME.
Proof. end_tag_state handle_script_end_tag_name_state. Qed.

Lemma script_escaped_end_tag_name_safe : safe GUMBO_LEX_SCRIPT_ESCAPED_END_TAG_NAME.
Proof. end_tag_state handle_script_escaped_end_tag_name_state. Qed.

(** ** Tags and attributes *)
Ltac tag_state handler :=
  start_state handler;
  match goal with Hs : _state _ = _, Hst : _ ?t |- _ =>
    lazymatch type of Hst with tag_ok _ => idtac | attr_ok _ => idtac end;
    destruct Hst as ([Ho1 Ho2] & Hbuf & Hattr); unfold cur in Ho2;
    match goal with Hok : it_ok _ |- _ => pose proof (start_le _ Hok) end;
    try pose proof (has_attr_some _ Hattr);
    repeat wp_step; solve_side; close_post Hs end.

Lemma tag_name_safe : safe GUMBO_LEX_TAG_NAME.
Proof. tag_state handle_tag_name_state. Qed.

Lemma before_attr_name_safe : safe GUMBO_LEX_BEFORE_ATTR_NAME.
Proof. tag_state handle_before_attr_name_state. Qed.

Lemma self_closing_start_tag_safe : safe GUMBO_LEX_SELF_CLOSING_START_TAG.
Proof. tag_state handle_self_closing_start_tag_state. Qed.

Lemma attr_name_safe : safe GUMBO_LEX_ATTR_NAME.
Proof. tag_state handle_attr_name_state. Qed.

Lemma after_attr_name_safe : safe GUMBO_LEX_AFTER_ATTR_NAME.
Proof. tag_state handle_after_attr_name_state. Qed.

Lemma before_attr_value_safe : safe GUMBO_LEX_BEFORE_ATTR_VALUE.
Proof. tag_state handle_before_attr_value_state. Qed.

Lemma attr_value_double_quoted_safe : safe GUMBO_LEX_ATTR_VALUE_DOUBLE_QUOTED.
Proof. tag_state handle_attr_value_double_quoted_state. Qed.

Lemma attr_value_single_quoted_safe : safe GUMBO_LEX_ATTR_VALUE_SINGLE_QUOTED.
Proof. tag_state handle_attr_value_single_quoted_state. Qed.

Lemma attr_value_unquoted_safe : safe GUMBO_LEX_ATTR_VALUE_UNQUOTED.
Proof. tag_state handle_attr_value_unquoted_state. Qed.

Lemma after_attr_value_quoted_safe : safe GUMBO_LEX_AFTER_ATTR_VALUE_QUOTED.
Proof. tag_state handle_after_attr_value_quoted_state. Qed.

(** ** Comments *)
Ltac plain_state handler :=
  start_state handler;
  match goal with Hs : _state _ = _, Hst : no_tag _ /\ _ |- _ =>
    destruct Hst as (Hn & Hlt); destruct_and? Hlt; unfold cur in *;
    repeat wp_step; solve_side; close_post Hs end.

Lemma comment_start_safe : safe GUMBO_LEX_COMMENT_START.
Proof. plain_state handle_comment_start_state. Qed.

Lemma comment_start_dash_safe : safe GUMBO_LEX_COMMENT_START_DASH.
Proof. plain_state handle_comment_start_dash_state. Qed.

Lemma comment_safe : safe GUMBO_LEX_COMMENT.
Proof. plain_state handle_comment_state. Qed.

Lemma comment_end_dash_safe : safe GUMBO_LEX_COMMENT_END_DASH.
Proof. plain_state handle_comment_end_dash_state. Qed.

Lemma comment_end_safe : safe GUMBO_LEX_COMMENT_END.
Proof. plain_state handle_comment_end_state. Qed.

Lemma comment_end_bang_safe : safe GUMBO_LEX_COMMENT_END_BANG.
Proof. plain_state handle_comment_end_bang_state. Qed.

(** ** Doctypes *)
Lemma doctype_safe : safe GUMBO_LEX_DOCTYPE.
Proof. plain_state handle_doctype_state. Qed.

Lemma before_doctype_name_safe : safe GUMBO_LEX_BEFORE_DOCTYPE_NAME.
Proof. plain_state handle_before_doctype_name_state. Qed.

Lemma doctype_name_safe : safe GUMBO_LEX_DOCTYPE_NAME.
Proof. plain_state handle_doctype_name_state. Qed.

Lemma after_doctype_name_safe : safe GUMBO_LEX_AFTER_DOCTYPE_NAME.
Proof. plain_state handle_after_doctype_name_state. Qed.

Lemma after_doctype_public_keyword_safe : safe GUMBO_LEX_AFTER_DOCTYPE_PUBLIC_KEYWORD.
Proof. plain_state handle_after_doctype_public_keyword_state. Qed.

Lemma before_doctype_public_id_safe : safe GUMBO_LEX_BEFORE_DOCTYPE_PUBLIC_ID.
Proof. plain_state handle_before_doctype_public_id_state. Qed.

Lemma doctype_public_id_double_quoted_safe : safe GUMBO_LEX_DOCTYPE_PUBLIC_ID_DOUBLE_QUOTED.
Proof. plain_state handle_doctype_public_id_double_quoted_state. Qed.

Lemma doctype_public_id_single_quoted_safe : safe GUMBO_LEX_DOCTYPE_PUBLIC_ID_SINGLE_QUOTED.
Proof. plain_state handle_doctype_public_id_single_quoted_state. Qed.

Lemma after_doctype_public_id_safe : safe GUMBO_LEX_AFTER_DOCTYPE_PUBLIC_ID.
Proof. plain_state handle_after_doctype_public_id_state. Qed.

Lemma between_doctype_public_system_id_safe : safe GUMBO_LEX_BETWEEN_DOCTYPE_PUBLIC_SYSTEM_ID.
Proof. plain_state handle_between_doctype_public_system_id_state. Qed.

Lemma after_doctype_system_keyword_safe : safe GUMBO_LEX_AFTER_DOCTYPE_SYSTEM_KEYWORD.
Proof. plain_state handle_after_doctype_system_keyword_state. Qed.

Lemma before_doctype_system_id_safe : safe GUMBO_LEX_BEFORE_DOCTYPE_SYSTEM_ID.
Proof. plain_state handle_before_doctype_system_id_state. Qed.

Lemma doctype_system_id_double_quoted_safe : safe GUMBO_LEX_DOCTYPE_SYSTEM_ID_DOUBLE_QUOTED.
Proof. plain_state handle_doctype_system_id_double_quoted_state. Qed.

Lemma doctype_system_id_single_quoted_safe : safe GUMBO_LEX_DOCTYPE_SYSTEM_ID_SINGLE_QUOTED.
Proof. plain_state handle_doctype_system_id_single_quoted_state. Qed.

Lemma after_doctype_system_id_safe : safe GUMBO_LEX_AFTER_DOCTYPE_SYSTEM_ID.
Proof. plain_state handle_after_doctype_system_id_state. Qed.

Lemma markup_declaration_safe : safe GUMBO_LEX_MARKUP_DECLARATION.
Proof.
  start_state handle_markup_declaration_state. destruct Hst as (Hn & [Ho1 Ho2] & Htmp). unfold cur in *.
  repeat wp_step; solve_side; close_post Hs.
Qed.

Lemma bogus_doctype_safe : safe GUMBO_LEX_BOGUS_DOCTYPE.
Proof.
  start_state handle_bogus_doctype_state. rename Hst into Hn. unfold cur in *.
  repeat wp_step; solve_side; close_post Hs.
Qed.

Lemma bogus_comment_safe : safe GUMBO_LEX_BOGUS_COMMENT.
Proof.
  start_state handle_bogus_comment_state. destruct Hst as [Hn Hlt]. unfold cur in *.
  apply wp_bind, wp_get, wp_bind, wp_bogus_comment_loop; [done|done|unfold src; lia|].
  intros it b (? & ? & ? & ? & ?). repeat wp_step; solve_side; close_post Hs.
Qed.

Lemma cdata_safe : safe GUMBO_LEX_CDATA.
Proof.
  start_state handle_cdata_state. destruct Hst as [Hn Ht]. unfold cur in *.
  repeat wp_step; solve_side; try (close_post Hs).
  all: unfold utf8iterator_get_char_pointer in *; apply next_restart; try done; simpl_t; try lia.
  - right. rewrite Hs. cbn [rank]. lia.
  - split; [exact Hn|]. intros Hc. by apply (it_ok_current (_input t)).
  - split; [exact Hn|]. intros Hc. by apply (it_ok_current it).
Qed.

(** ** Character references *)

(** The second character of the reference, if any, waits. *)
Lemma return_ref t t1 r ty v len c :
  loop_inv t -> it_ok (_input t1) -> source (_input t1) = source (_input t) -> (_token_start t < start (_input t1))%nat ->
  _temporary_buffer_emit t1 = None -> no_tag t1 -> is_text (_state t1) = true -> r <> NEXT_CHAR ->
  step_post t r (set_buffered_emit_char c (emitted ty v len (_input t1) t1)).
Proof.
  intros ((Hok & Hle & Hr & Hsz) & _ & Hb & _) Hok1 Hs1 Hlt He1 Hn Ht Hne.
  set (t2 := set_reconsume_current_input false (set_buffered_emit_char c (emitted ty v len (_input t1) t1))).
  assert (HS : state_ok t2).
  { apply text_state_ok; [unfold t2, emitted; simpl_t; by rewrite Ht|]. split; [exact Hn|]. intros Hc.
    by apply (it_ok_current (_input t1)). }
  assert (HR : returned t t2).
  { split; [|split; [exact Hs1|]].
    - split; [|split; [exact HS|]]; unfold base_ok, src, cur, t2, emitted in *; simpl_t; [by rewrite Hs1|by rewrite He1].
    - right. unfold tokens_left, src, cur, t2, emitted in *. simpl_t. rewrite Hb, Hs1.
      assert (is_bogus_doctype (_state t1) = false) as -> by (by destruct (_state t1)).
      apply start_le in Hok1. rewrite Hs1 in Hok1. cbn [Z.eqb kGumboNoChar Pos.eqb andb].
      destruct (_ && _), (_ =? _)%Z; lia. }
  by destruct r.
Qed.

Lemma emit_char_ref_safe t s extra :
  loop_inv t -> refs_explained scan_named (src t) -> no_tag t -> current (_input t) = #"&" -> is_text s = true ->
  wp (emit_char_ref scan_named extra) (step_post t) (set_state s t).
Proof.
  intros Hinv Hd Hn Hc Hs. pose proof Hinv as ((Hok & Hle & Hr & Hsz) & He & Hb & _). unfold emit_char_ref, cur in *.
  apply wp_bind, wp_lex_char_ref; [done..|]. intros it out st Hs1 Hok1 Hor. unfold cur in Hor. simpl_t.
  assert (Hst : (if st then RETURN_SUCCESS else RETURN_ERROR) <> NEXT_CHAR) by (by destruct st).
  destruct Hor as [[Hf Hlt]|(Hf & _ & Hc1 & Hst1)].
  - replace (first out =? kGumboNoChar) with false by (symmetry; by apply Z.eqb_neq). cbn [negb].
    repeat wp_step; try done; [unfold cur; simpl_t; lia|].
    match goal with Hp : past _ ?i |- _ => unfold past in Hp; simpl_t; subst i end.
    refine (return_ref t (set_reconsume_current_input true (set_input it (set_state s t))) _ _ _ _ _ _ _ _ _ _ _ _ _); try done.
    simpl_t. lia.
  - rewrite Hf. cbn [negb Z.eqb kGumboNoChar Pos.eqb]. repeat wp_step; try done; [unfold cur; simpl_t; lia|].
    apply return_char; try done. simpl_t. right. lia.
Qed.

Lemma char_ref_in_data_safe : safe GUMBO_LEX_CHAR_REF_IN_DATA.
Proof.
  start_state handle_char_ref_in_data_state. destruct Hst as [Hn Hc]. wp_step. wp_step. by apply emit_char_ref_safe.
Qed.

Lemma char_ref_in_rcdata_safe : safe GUMBO_LEX_CHAR_REF_IN_RCDATA.
Proof.
  start_state handle_char_ref_in_rcdata_state. destruct Hst as [Hn Hc]. wp_step. wp_step. by apply emit_char_ref_safe.
Qed.

Lemma attr_value_state_ok t : is_attr_value (_state t) = true -> attr_ok t -> state_ok t.
Proof. unfold state_ok. intros Hs Ht. by destruct (_state t). Qed.

Lemma char_ref_in_attr_value_safe : safe GUMBO_LEX_CHAR_REF_IN_ATTR_VALUE.
Proof.
  start_state handle_char_ref_in_attr_value_state. destruct Hst as (([Ho1 Ho2] & Hbuf & Hattr) & Hc & Hv).
  unfold cur in *. apply wp_bind, wp_get_tag.
  remember (_attr_value_state (_tag_state t)) as s eqn:Es. apply wp_bind.
  match goal with |- wp _ ?Q _ => assert (HQ : forall p, Q p t) end.
  2: { destruct s; try done; apply wp_ret; first [exact (HQ (34, false)) | exact (HQ (39, false)) | exact (HQ (62, true))]. }
  intros [allowed unq]. apply wp_bind, wp_lex_char_ref; [done..|]. intros it out st Hs1 Hok1 Hor.
  unfold cur, src in *. simpl_t.
  assert (Hkeep : forall g, has_buffer g -> tag_kept (_tag_state t) g -> forall i, it_ok i -> source i = source (_input t) ->
    (start (_input t) <= start i)%nat -> state_ok (set_reconsume_current_input false (set_state s (set_tag_state g (set_input i t))))).
  { intros g Hg (Ha & _) i Hi Hsi Hle'. apply attr_value_state_ok; [exact Hv|]. unfold attr_ok, opened, src, cur. simpl_t.
    rewrite Hsi, Ha. split_and!; try done. lia. }
  destruct Hor as [[Hf Hlt]|(Hf & _ & Hc1 & Hst1)].
  - replace (first out =? kGumboNoChar) with false by (symmetry; by apply Z.eqb_neq). cbn [negb].
    repeat wp_step; try done; (apply next_reconsume; [done|solve_kept|done|left; done|simpl_t; by destruct s|]).
    + match goal with Hg : has_buffer ?g2, H1 : tag_kept _ ?g1, H2 : tag_kept _ ?g2 |- state_ok (_ (_ _ (_ ?g2 _))) =>
        destruct H1 as (? & ? & ?), H2 as (? & ? & ?); simpl_t end. apply Hkeep; try done; [|simpl_t; lia]. split_and!; etransitivity; eassumption.
    + apply Hkeep; try done; simpl_t; lia.
  - rewrite Hf. cbn [negb Z.eqb kGumboNoChar Pos.eqb]. repeat wp_step; try done. simpl_t.
    apply next_advance; [done|solve_kept|done|done|simpl_t; lia|left; lia|]. intros i _ Hi Hsi Hli _ _ _.
    apply (Hkeep _ ltac:(eassumption) ltac:(eassumption) i Hi Hsi Hli).
Qed.

Lemma all_safe s : safe s.
Proof.
  destruct s; first
    [ exact data_safe | exact char_ref_in_data_safe | exact rcdata_safe | exact char_ref_in_rcdata_safe
    | exact rawtext_safe | exact script_safe | exact plaintext_safe | exact tag_open_safe
    | exact end_tag_open_safe | exact tag_name_safe | exact rcdata_lt_safe | exact rcdata_end_tag_open_safe
    | exact rcdata_end_tag_name_safe | exact rawtext_lt_safe | exact rawtext_end_tag_open_safe
    | exact rawtext_end_tag_name_safe | exact script_lt_safe | exact script_end_tag_open_safe
    | exact script_end_tag_name_safe | exact script_escaped_start_safe | exact script_escaped_start_dash_safe
    | exact script_escaped_safe | exact script_escaped_dash_safe | exact script_escaped_dash_dash_safe
    | exact script_escaped_lt_safe | exact script_escaped_end_tag_open_safe
    | exact script_escaped_end_tag_name_safe | exact script_double_escaped_start_safe
    | exact script_double_escaped_safe | exact script_double_escaped_dash_safe
    | exact script_double_escaped_dash_dash_safe | exact script_double_escaped_lt_safe
    | exact script_double_escaped_end_safe | exact before_attr_name_safe | exact attr_name_safe
    | exact after_attr_name_safe | exact before_attr_value_safe | exact attr_value_double_quoted_safe
    | exact attr_value_single_quoted_safe | exact attr_value_unquoted_safe
    | exact char_ref_in_attr_value_safe | exact after_attr_value_quoted_safe
    | exact self_closing_start_tag_safe | exact bogus_comment_safe | exact markup_declaration_safe
    | exact comment_start_safe | exact comment_start_dash_safe | exact comment_safe
    | exact comment_end_dash_safe | exact comment_end_safe | exact comment_end_bang_safe
    | exact doctype_safe | exact before_doctype_name_safe | exact doctype_name_safe
    | exact after_doctype_name_safe | exact after_doctype_public_keyword_safe
    | exact before_doctype_public_id_safe | exact doctype_public_id_double_quoted_safe
    | exact doctype_public_id_single_quoted_safe | exact after_doctype_public_id_safe
    | exact between_doctype_public_system_id_safe | exact after_doctype_system_keyword_safe
    | exact before_doctype_system_id_safe | exact doctype_system_id_double_quoted_safe
    | exact doctype_system_id_single_quoted_safe | exact after_doctype_system_id_safe
    | exact bogus_doctype_safe | exact cdata_safe ].
Qed.

(** * The loop *)
Lemma goes_on_tokens t t1 : loop_inv t -> goes_on t t1 -> (tokens_left t1 <= tokens_left t)%nat.
Proof.
  intros (_ & _ & Hb & _) ((_ & _ & Hb1 & _) & Hs & _ & Hts & Hbog). unfold tokens_left. rewrite Hs, Hb, Hb1.
  assert (is_bogus_doctype (_state t1) && (cur t1 <=? _token_start t1)%nat = false) as ->.
  { destruct (is_bogus_doctype _); [|done]. specialize (Hbog eq_refl). cbn [andb]. apply Nat.leb_gt. lia. }
  destruct (_ && _); lia.
Qed.

(** The answer of the tokenizer. *)
Definition lexed (t : GumboTokenizerState) (r : option bool) (t' : GumboTokenizerState) : Prop :=
  (exists b, r = Some b) /\ returned t t'.

Lemma lex_loop_ok fuel t :
  loop_inv t -> refs_explained scan_named (src t) -> (steps_left t < fuel)%nat ->
  wp (lex_loop scan_named junk_pos fuel) (lexed t) t.
Proof.
  revert t; induction fuel as [|fuel IH]; intros t Hinv Hd Hf; [lia|]. cbn [lex_loop].
  pose proof Hinv as (_ & He & Hb & _). do 2 wp_step. wp_step. wp_step; [by rewrite He|]. do 2 wp_step.
  wp_step. wp_step; [by rewrite Hb|]. do 4 wp_step. apply wp_bind.
  eapply wp_mono; [|exact (all_safe (_state t) t eq_refl Hinv Hd)]. intros r t1 Hpost. cbv beta.
  do 4 wp_step. destruct r.
  - apply wp_ret. split; [by eexists|exact Hpost].
  - apply wp_ret. split; [by eexists|exact Hpost].
  - assert (HN : forall t2, goes_on t t2 -> wp (lex_loop scan_named junk_pos fuel) (lexed t) t2).
    { intros t2 Hg. pose proof (goes_on_tokens _ _ Hinv Hg) as Htok. destruct Hg as (Hinv2 & Hs2 & Hlt & _).
      eapply wp_mono; [|apply IH; [done|by rewrite Hs2|lia]]. intros r t3 (Hr & H1 & H2 & H3).
      split; [done|]. split_and!; [done|congruence|]. destruct H3; [by left|right; lia]. }
    destruct Hpost as [Hok Hpost]. apply wp_bind. destruct (_reconsume_current_input t1).
    + apply wp_ret. by apply HN.
    + destruct (next_advanced _ Hok) as (it & E & Ha). eapply wp_on_input; [exact E|]. apply HN, Hpost, Ha.
Qed.

Lemma gumbo_lex_ok fuel t :
  lex_inv t -> refs_explained scan_named (src t) -> (steps_left t < fuel)%nat ->
  wp (gumbo_lex scan_named junk_pos fuel) (lexed t) t.
Proof.
  intros (Hbase & Hst & Hem) Hd Hf. pose proof Hbase as (Hok & Hle & Hr & Hsz). unfold gumbo_lex. do 2 wp_step.
  assert (Htext : is_text (_state t) = true -> no_tag t).
  { intros Ht. unfold state_ok in Hst. destruct (_state t); try done; by destruct Hst. }
  destruct (Z.eqb_spec (_buffered_emit_char t) kGumboNoChar) as [Hb|Hb]; cbn [negb].
  2: { destruct (_temporary_buffer_emit t) as [k|] eqn:He; [by destruct Hem|]. specialize (Hem Hb). specialize (Htext Hem).
    repeat wp_step; try done. match goal with Hp : past _ ?i |- _ => unfold past in Hp; simpl_t; subst i end.
    split; [by eexists|]. split; [|split; [done|]].
    - split; [|split; [apply text_state_ok|]]; unfold base_ok, emitted, src, cur in *; simpl_t; try done.
      + by rewrite Hem.
      + split; [exact Htext|]. intros Hc. by apply (it_ok_current (_input t)).
      + by rewrite He.
    - right. unfold tokens_left, emitted, src, cur in *. simpl_t.
      assert (is_bogus_doctype (_state t) = false) as -> by (by destruct (_state t)). cbn [Z.eqb kGumboNoChar Pos.eqb andb].
      destruct (Z.eqb_spec (_buffered_emit_char t) kGumboNoChar); [done|]. lia. }
  apply wp_bind. destruct (_temporary_buffer_emit t) as [k|] eqn:He.
  - destruct Hem as (_ & Ht & Hp). specialize (Htext Ht). destruct (drop k (_temporary_buffer t)) as [|c bs] eqn:Hdk.
    + apply wp_maybe_emit_none; [by rewrite He|]. apply (lex_loop_ok fuel (set_temporary_buffer_emit None t)); [|done|done].
      split_and!; try done; apply Hbase.
    + eapply wp_maybe_emit_pending; [exact He|exact Hdk|exact Hp|done|done|]. intros ty v len it Ha Hp'. apply wp_ret.
      split; [by eexists|].
      destruct (advanced_facts _ _ Ha) as (Hok1 & Hs1 & _ & _ & Hlt & _ & Hl1).
      assert (Hc : current (_input t) <> -1).
      { pose proof (Forall_inv (proj1 Hp)) as Hpr. destruct Hp as (_ & rest & _ & Hcur & _). unfold printable in Hpr. lia. }
      specialize (Hlt Hc). split; [|split; [exact Hs1|]].
      * split; [|split; [apply text_state_ok|]]; unfold base_ok, emitted, src, cur in *; simpl_t; try done.
        -- rewrite Hs1. done.
        -- by rewrite Ht.
        -- split; [exact Htext|]. intros Hc60. by apply (it_ok_current it).
        -- split_and!; try done; apply Hp' || idtac. replace (S k) with (k + 1)%nat by lia. rewrite <- drop_drop, Hdk. apply Hp'.
      * right. unfold tokens_left, emitted, src, cur in *. simpl_t. rewrite Hs1 in *.
        assert (is_bogus_doctype (_state t) = false) as -> by (by destruct (_state t)). cbn [andb].
        destruct (_ =? _); lia.
  - apply wp_maybe_emit_none; [by rewrite He|].
    assert (E : set_temporary_buffer_emit None t = t) by (destruct t; simpl_t; by subst).
    rewrite E. by apply lex_loop_ok.
Qed.

End states.
End LexerSafety.
