(* ===== verification/GumboLexerRuns.v ===== *)
(** Runs of the HTML tokenizer: what the invariant of GumboLexerSafety.v means for
    the parser that asks for the tokens of a text one by one. *)
From Stdlib Require Import Strings.String Strings.Ascii.
From stdpp Require Import relations.
From S2P Require Import Prelude GumboTags GumboBase Utf8 CharRef GumboLexer GumboLexerWp GumboLexerSafety.
Import GumboBase Utf8 CharRef Lexer LexerWp LexerSafety.

Module LexerRuns.

(** * The tokenizer *)

(** The bytes after an ampersand are a reference that the code does not define: a
    number that exceeds an [int], or a name without its semicolon up to the end of
    the input, after which the code reads one byte more (in an attribute). *)
Definition undefined_ref (scan_named : list Z -> option (OneOrTwoCodepoints * nat)) (bs : list Z) : bool :=
  number_overflows bs ||
  (negb (bool_decide (last bs = Some #";")) &&
   match scan_named bs with Some (_, len) => (len =? length bs)%nat | None => false end).

(** The text has such a reference. *)
Definition has_undefined_ref (scan_named : list Z -> option (OneOrTwoCodepoints * nat)) (text : list Z) : bool :=
  existsb (fun i => bool_decide (text !! i = Some #"&") && undefined_ref scan_named (drop (S i) text))
    (seq 0 (length text)).

(** It is the only explanation of undefined behaviour. *)
Definition blames_refs (scan_named : list Z -> option (OneOrTwoCodepoints * nat)) (text : list Z) : MayUndef :=
  has_undefined_ref scan_named text = true.

Lemma undefined_ref_ok scan_named rest :
  (ref_ends_input scan_named rest \/ number_overflows rest = true) -> undefined_ref scan_named rest = true.
Proof.
  unfold undefined_ref. intros [[Hl [out ->] ]| -> ]; [|done].
  rewrite bool_decide_false, Nat.eqb_refl by done. apply orb_true_r.
Qed.

Lemma refs_blamed scan_named `{!ScansNamedRefs scan_named} text :
  @refs_explained (blames_refs scan_named text) scan_named text.
Proof.
  intros it rest extra attr <- Hat Hu. pose proof Hat as (Hd & _).
  assert (Hi : source it !! start it = Some #"&") by (by rewrite <- (Nat.add_0_r (start it)), <- lookup_drop, Hd).
  assert (Hr : drop (S (start it)) (source it) = rest).
  { rewrite <- Nat.add_1_r. by apply (drop_source it [38]). }
  apply existsb_exists. exists (start it). apply lookup_lt_Some in Hi as Hl. split; [apply in_seq; lia|].
  rewrite bool_decide_true, Hr by done. apply undefined_ref_ok.
  destruct (consume_char_ref_ok scan_named it rest extra attr Hat) as [[_ [[_ ?]|?]]|(? & ? & ? & E & _)]; [by left|by right|].
  by rewrite E in Hu.
Qed.

(** Enough iterations for any call on the text. *)
Definition lex_fuel (t : GumboTokenizerState) : nat := 4 * length (src t) + 4.

Lemma lex_fuel_enough t : (steps_left t < lex_fuel t)%nat.
Proof. unfold steps_left, lex_fuel. assert (rank (_state t) <= 3)%nat by (by destruct (_state t); cbn; lia). lia. Qed.

Lemma init_ok old text maxe tabs :
  Forall is_u8 text -> tabs <> 0 -> Z.of_nat (length text) < 2 ^ 64 ->
  exists t, gumbo_tokenizer_state_init old text maxe tabs = Ok t /\ lex_inv t /\ src t = text /\
    tokens_left t = (3 * length text)%nat.
Proof.
  intros Hu Ht Hsz. unfold gumbo_tokenizer_state_init, utf8iterator_init.
  set (it0 := Iter text 0 _ 0 0 _ _ [] maxe tabs).
  destruct (read_ok it0) as (it & E & (Hok & Hs & _) & Hst); [done|done|cbn; lia|]. rewrite E, bind_Ok. cbn in Hs.
  eexists. split; [done|]. unfold lex_inv, base_ok, tokens_left, src, cur. simpl_t. rewrite Hs. split_and!; try done; try lia.
  - split; [done|]. intros Hc. destruct Hst as [Hst|(_ & _ & ?)]; [|simpl_t; lia]. cbn in Hst. unfold src. simpl_t.
    rewrite <- Hst. by apply (it_ok_current it).
  - cbn [is_bogus_doctype andb kGumboNoChar Z.eqb Pos.eqb]. lia.
Qed.

Section runs.
Context (scan_named : list Z -> option (OneOrTwoCodepoints * nat)) (junk_pos : GumboSourcePosition).

(** What the parser does: it asks for a token, and in between it may switch the
    tokenizer to another state of text and say whether the current node is foreign. *)
Inductive parser_step : GumboTokenizerState -> GumboTokenizerState -> Prop :=
| step_lex t t' b : gumbo_lex scan_named junk_pos (lex_fuel t) t = Ok (t', Some b) -> parser_step t t'
| step_set_state s t t' : is_text (_state t) = true -> is_text s = true ->
    gumbo_tokenizer_set_state s t = Ok (t', tt) -> parser_step t t'
| step_set_foreign b t t' : gumbo_tokenizer_set_is_current_node_foreign b t = Ok (t', tt) -> parser_step t t'.

(** The tokens up to the end of the input. *)
Fixpoint lex_all (n : nat) (t : GumboTokenizerState) : outcome (option (list GumboToken)) :=
  match n with
  | O => Ok None
  | S n =>
      '(t', r) ← gumbo_lex scan_named junk_pos (lex_fuel t) t;
      match r with
      | None => Ok None
      | Some _ =>
          if bool_decide (ttype (_output t') = GUMBO_TOKEN_EOF) then Ok (Some [_output t'])
          else rest ← lex_all n t'; Ok (option_map (cons (_output t')) rest)
      end
  end.

Context `{!ScansNamedRefs scan_named} (text : list Z).
Notation blamed := (has_undefined_ref scan_named text = true).

Lemma lex_ok t :
  lex_inv t -> src t = text ->
  (exists t' b, gumbo_lex scan_named junk_pos (lex_fuel t) t = Ok (t', Some b) /\ returned t t') \/
  (gumbo_lex scan_named junk_pos (lex_fuel t) t = Undef /\ blamed).
Proof.
  intros Hinv Hs. assert (Hd : @refs_explained (blames_refs scan_named text) scan_named (src t)) by (rewrite Hs; by apply refs_blamed).
  pose proof (gumbo_lex_ok scan_named junk_pos _ t Hinv Hd (lex_fuel_enough t)) as H.
  unfold wp in H. destruct (gumbo_lex _ _ _ t) as [[t' r]| |]; [|by right|done]. destruct H as [[b ->] H]. left. eauto.
Qed.

Lemma set_state_ok s t : lex_inv t -> is_text (_state t) = true -> is_text s = true -> lex_inv (set_state s t).
Proof.
  intros (Hb & Hst & He) Ht Hs. assert (Htext : text_ok t) by (unfold state_ok in Hst; by destruct (_state t)).
  split; [exact Hb|]. split; [apply text_state_ok; [simpl_t; by rewrite Hs|exact Htext]|].
  simpl_t. destruct (_temporary_buffer_emit t); [|done]. destruct He as (? & _ & ?). done.
Qed.

Lemma parser_step_ok t t' : lex_inv t -> src t = text -> parser_step t t' -> lex_inv t' /\ src t' = text.
Proof.
  intros Hinv Hs. destruct 1 as [t t' b E|s t t' Ht Hts E|b t t' E].
  - destruct (lex_ok t Hinv Hs) as [(t1 & b1 & E1 & H1 & H2 & _)|[E1 _]]; rewrite E in E1; [|done].
    injection E1 as <- <-. split; [done|congruence].
  - injection E as <-. split; [by apply set_state_ok|done].
  - injection E as <-. split; [|done]. destruct Hinv as (Hb & Hst & He). split; [exact Hb|]. split; [|exact He].
    unfold state_ok in *. simpl_t. destruct (_state t); exact Hst.
Qed.

Lemma parser_steps_ok t t' :
  rtc parser_step t t' -> lex_inv t -> src t = text -> lex_inv t' /\ src t' = text.
Proof.
  induction 1 as [t|t1 t2 t3 H12 _ IH]; intros Hinv Hs; [done|].
  destruct (parser_step_ok _ _ Hinv Hs H12) as [Hinv2 Hs2]. by apply IH.
Qed.

Lemma lex_all_ok n t :
  lex_inv t -> src t = text -> (tokens_left t < n)%nat ->
  (exists toks eof, lex_all n t = Ok (Some (toks ++ [eof])) /\ ttype eof = GUMBO_TOKEN_EOF /\
    Forall (fun tok => ttype tok <> GUMBO_TOKEN_EOF) toks /\ (length toks <= tokens_left t)%nat) \/
  (lex_all n t = Undef /\ blamed).
Proof.
  revert t; induction n as [|n IH]; intros t Hinv Hs Hn; [lia|]. cbn [lex_all].
  destruct (lex_ok t Hinv Hs) as [(t' & b & -> & Hinv' & Hs' & Hor)|[-> ?]]; [|by right].
  rewrite bind_Ok. case_bool_decide as Ht.
  - left. exists [], (_output t'). split_and!; try done. cbn [length]. lia.
  - destruct Hor as [|Hlt]; [done|]. destruct (IH t') as [(toks & eof & -> & He & HF & Hl)|[-> ?]];
      [done|congruence|lia| |by right].
    left. exists (_output t' :: toks), eof. split_and!; try done; [by constructor|cbn [length]; lia].
Qed.
End runs.

(** C6: for any text of bytes (shorter than 2^64, with a tab stop that is not 0), with
    a scanner of named references that matches within its input, as the one of
    char_ref.c does, and whatever the parser does between the tokens, every call of [gumbo_lex]
    returns a token: no assertion of tokenizer.c fails, no byte is read out of
    bounds, the loop ends.  The one exception is stated: a call is undefined only
    if the text has a numeric reference that exceeds an [int], or ends with a named
    reference without its semicolon (char_ref.c then reads the byte after it). *)
Theorem gumbo_lex_safe scan_named (Hscan : ScansNamedRefs scan_named) (junk_pos : GumboSourcePosition)
  (old : GumboTokenizerState) (text : list Z) (maxe tabs : Z)
  (Hb : Forall is_u8 text) (Htab : tabs <> 0) (Hsz : Z.of_nat (length text) < 2 ^ 64) :
  exists t0, gumbo_tokenizer_state_init old text maxe tabs = Ok t0 /\
    forall t, rtc (parser_step scan_named junk_pos) t0 t ->
      (exists t' b, gumbo_lex scan_named junk_pos (lex_fuel t) t = Ok (t', Some b)) \/
      (gumbo_lex scan_named junk_pos (lex_fuel t) t = Undef /\ has_undefined_ref scan_named text = true).
Proof.
  destruct (init_ok old text maxe tabs Hb Htab Hsz) as (t0 & E & Hinv & Hs & _). exists t0. split; [done|].
  intros t Hr. destruct (parser_steps_ok scan_named junk_pos text t0 t Hr Hinv Hs) as [Hinv' Hs'].
  destruct (lex_ok scan_named junk_pos text t Hinv' Hs') as [(t' & b & H & _)|H]; [left; eauto|by right].
Qed.

(** C9: the tokens of any text of bytes (shorter than 2^64, with a tab stop that is
    not 0, and with a scanner of named references that matches within its input) come
    to an end: after at most three tokens for each byte comes the token of the end of
    the input.  The one exception is stated: the run is undefined only if the text has
    a numeric reference that exceeds an [int], or ends with a named reference without
    its semicolon. *)
Theorem gumbo_lex_reaches_eof scan_named (Hscan : ScansNamedRefs scan_named) (junk_pos : GumboSourcePosition)
  (old : GumboTokenizerState) (text : list Z) (maxe tabs : Z)
  (Hb : Forall is_u8 text) (Htab : tabs <> 0) (Hsz : Z.of_nat (length text) < 2 ^ 64) :
  exists t0, gumbo_tokenizer_state_init old text maxe tabs = Ok t0 /\
    ((exists toks eof, lex_all scan_named junk_pos (3 * length text + 1) t0 = Ok (Some (toks ++ [eof])) /\
        ttype eof = GUMBO_TOKEN_EOF /\ Forall (fun tok => ttype tok <> GUMBO_TOKEN_EOF) toks /\
        (length toks <= 3 * length text)%nat) \/
     (lex_all scan_named junk_pos (3 * length text + 1) t0 = Undef /\ has_undefined_ref scan_named text = true)).
Proof.
  destruct (init_ok old text maxe tabs Hb Htab Hsz) as (t0 & E & Hinv & Hs & Htok). exists t0. split; [done|].
  destruct (lex_all_ok scan_named junk_pos text (3 * length text + 1) t0 Hinv Hs) as [(toks & eof & ? & ? & ? & ?)|?];
    [lia| |by right]. left. exists toks, eof. split_and!; try done. lia.
Qed.

(** * Concrete runs *)

(** Memory before the initialisation. *)
Definition blank : GumboTokenizerState :=
  let z := Pos 0 0 0 in
  Tokenizer GUMBO_LEX_DATA false false false kGumboNoChar [] None [] 0 z
    (TagState None 0 Tags.GUMBO_TAG_UNKNOWN z None false GUMBO_LEX_DATA Tags.GUMBO_TAG_LAST false false)
    (DocType None None None false false false) (Iter [] 0 0 0 0 z z [] (-1) 8)
    (Token GUMBO_TOKEN_EOF z (Piece 0 0) (VCharacter 0)).

(** The tokens of a text, with the errors that the parser records at most. *)
Definition tokens_of (text : list Z) (maxe : Z) : outcome (option (list GumboToken)) :=
  t ← gumbo_tokenizer_state_init blank text maxe 8;
  lex_all scan_amp (Pos 0 0 0) (3 * length text + 1) t.

(** A text with a tag, an attribute, references and a comment that is not closed. *)
Definition sample_text : list Z := text_of "<p id='a&amp;b'>x&amp;y</p><!-- z".

Lemma gumbo_lex_safe_witness :
  has_undefined_ref scan_amp sample_text = false /\
  exists t0, gumbo_tokenizer_state_init blank sample_text (-1) 8 = Ok t0 /\
    forall t, rtc (parser_step scan_amp (Pos 0 0 0)) t0 t ->
      exists t' b, gumbo_lex scan_amp (Pos 0 0 0) (lex_fuel t) t = Ok (t', Some b).
Proof.
  assert (Hno : has_undefined_ref scan_amp sample_text = false) by (vm_compute; reflexivity). split; [exact Hno|].
  destruct (gumbo_lex_safe scan_amp scan_amp_ok (Pos 0 0 0) blank sample_text (-1) 8) as (t0 & E & H);
    [by_decide|done|vm_compute; reflexivity|]. exists t0. split; [exact E|]. intros t Hr.
  destruct (H t Hr) as [Hl|[_ Hu]]; [exact Hl|]. by rewrite Hno in Hu.
Defined.

Lemma gumbo_lex_reaches_eof_witness :
  exists t0 toks eof, gumbo_tokenizer_state_init blank sample_text (-1) 8 = Ok t0 /\
    lex_all scan_amp (Pos 0 0 0) (3 * length sample_text + 1) t0 = Ok (Some (toks ++ [eof])) /\
    ttype eof = GUMBO_TOKEN_EOF /\ (length toks <= 3 * length sample_text)%nat.
Proof.
  assert (Hno : has_undefined_ref scan_amp sample_text = false) by (vm_compute; reflexivity).
  destruct (gumbo_lex_reaches_eof scan_amp scan_amp_ok (Pos 0 0 0) blank sample_text (-1) 8)
    as (t0 & E & [(toks & eof & H1 & H2 & _ & H3)|[_ Hu]]); [by_decide|done|vm_compute; reflexivity| |by rewrite Hno in Hu].
  exists t0, toks, eof. done.
Defined.

(** A scanner that knows [&amp], with or without the semicolon. *)
Definition scan_amp_bare (bs : list Z) : option (OneOrTwoCodepoints * nat) :=
  if bool_decide (take 4 bs = text_of "amp;") then Some (Codepoints 38 kGumboNoChar, 4%nat)
  else if bool_decide (take 3 bs = text_of "amp") then Some (Codepoints 38 kGumboNoChar, 3%nat) else None.

(** The exceptions are real: a number that exceeds an [int], and a reference in an
    attribute that ends the text. *)
Example undefined_refs :
  tokens_of (text_of "&#2147483648;") (-1) = Undef /\ has_undefined_ref scan_amp (text_of "&#2147483648;") = true /\
  (t ← gumbo_tokenizer_state_init blank (text_of "<p a=&amp") (-1) 8; lex_all scan_amp_bare (Pos 0 0 0) 40 t) = Undef /\
  has_undefined_ref scan_amp_bare (text_of "<p a=&amp") = true.
Proof. split_and!; vm_compute; reflexivity. Qed.

(** The types and values of the tokens. *)
Definition brief (r : outcome (option (list GumboToken))) : option (list (GumboTokenType * token_value)) :=
  match r with Ok (Some l) => Some (map (fun k => (ttype k, tv k)) l) | _ => None end.

(** The names and values of the attributes of a start tag. *)
Definition attrs_of (v : token_value) : list (list Z * list Z) :=
  match v with VStartTag s => map (fun a => (name a, value_ a)) (default [] (attributes s)) | _ => [] end.

Example sample_tokens :
  match tokens_of sample_text (-1) with
  | Ok (Some (p :: x :: l)) =>
      ttype p = GUMBO_TOKEN_START_TAG /\ attrs_of (tv p) = [(text_of "id", text_of "a&b")] /\
      tv x = VCharacter #"x" /\ length l = 5%nat
  | _ => False
  end.
Proof. vm_compute. repeat split. Qed.

(** A NUL that starts an attribute name is lost: the replacement character is
    appended to the temporary buffer, not to the name. *)
Theorem attr_name_null_lost :
  match tokens_of (text_of "<a " ++ [0] ++ text_of "b>") (-1) with
  | Ok (Some (k :: _)) => attrs_of (tv k) = [(text_of "b", [])]
  | _ => False
  end.
Proof. vm_compute. reflexivity. Qed.

(** A doctype with an error after [PUBLIC] is emitted twice, the second time
    without its name. *)
Theorem doctype_emitted_twice :
  brief (tokens_of (text_of "<!DOCTYPE html PUBLIC x>") (-1)) =
  Some [(GUMBO_TOKEN_DOCTYPE, VDocType (DocType (Some (text_of "html")) (Some []) (Some []) true false false));
        (GUMBO_TOKEN_DOCTYPE, VDocType (DocType None None None false false false));
        (GUMBO_TOKEN_EOF, VCharacter (-1))].
Proof. vm_compute. reflexivity. Qed.

(** When the list of errors is full, the name of a duplicate attribute stays in
    the buffer and becomes part of the next attribute's name. *)
Theorem duplicate_attr_merges :
  match tokens_of (text_of "<p a a b>") 0 with
  | Ok (Some (k :: _)) => attrs_of (tv k) = [(text_of "a", []); (text_of "ab", [])]
  | _ => False
  end.
Proof. vm_compute. reflexivity. Qed.

End LexerRuns.
