(* ===== verification/GumboLexerSpec.v ===== *)
(** What the HTML tokenizer returns for a document: printing tokens and lexing the
    text gives the tokens back. *)
From Stdlib Require Import Strings.String Strings.Ascii.
From S2P Require Import Prelude GumboTags GumboBase Utf8 CharRef GumboLexer GumboLexerWp GumboLexerSafety GumboLexerRuns.
Import GumboBase Utf8 CharRef Lexer LexerWp LexerSafety LexerRuns.

Module LexerSpec.

(** Here nothing is undefined. *)
#[local] Instance no_undef : MayUndef := False.

(** * The iterator over a text *)

(** The characters [cs] are left. *)
Definition on (it : Utf8Iterator) (cs : list Z) : Prop :=
  Forall is_u8 (source it) /\ tab_stop it <> 0 /\ drop (start it) (source it) = encode cs /\
  (start it <= length (source it))%nat /\
  match cs with
  | [] => current it = -1 /\ width it = 0%nat
  | c :: _ => current it = c /\ width it = length (codepoint_bytes c)
  end.

Lemma encode_cons c cs : encode (c :: cs) = codepoint_bytes c ++ encode cs.
Proof. done. Qed.

Lemma encode_app cs ds : encode (cs ++ ds) = encode cs ++ encode ds.
Proof. unfold encode. by rewrite map_app, concat_app. Qed.

Lemma read_on it cs :
  Forall plain cs -> Forall is_u8 (source it) -> tab_stop it <> 0 -> drop (start it) (source it) = encode cs ->
  (start it <= length (source it))%nat ->
  exists it', read_char it = Ok it' /\ on it' cs /\ source it' = source it /\ start it' = start it /\
    mark it' = mark it.
Proof.
  intros Hp Hu Ht Hd Hle. destruct cs as [|c cs].
  - unfold read_char. replace (length (source it) <=? start it)%nat with true.
    + by eexists.
    + symmetry. apply Nat.leb_le. apply (f_equal length) in Hd. rewrite length_drop in Hd. cbn [length encode map concat] in Hd. lia.
  - apply Forall_cons_1 in Hp as [Hc _]. rewrite (read_char_plain it c (encode cs)) by done. by eexists.
Qed.

Lemma on_next it c cs :
  on it (c :: cs) -> Forall plain cs ->
  exists it', utf8iterator_next it = Ok it' /\ on it' cs /\ source it' = source it /\
    start it' = (start it + length (codepoint_bytes c))%nat /\ mark it' = mark it.
Proof.
  intros (Hu & Ht & Hd & Hle & Hc & Hw) Hp. unfold utf8iterator_next. destruct (update_position_ok it Ht) as [p ->].
  rewrite bind_Ok. destruct (read_on (set_start (set_pos it p) (start it + width it)) cs) as (it' & E & Hon & Hs & Hst & Hm); try done.
  - cbn. rewrite Hw. apply drop_source. by rewrite <- encode_cons.
  - cbn. rewrite Hw. rewrite encode_cons in Hd. apply (f_equal length) in Hd. rewrite length_drop, length_app in Hd. lia.
  - exists it'. cbn [set_pos set_start start width] in *. rewrite E. split_and!; try done. by rewrite <- Hw.
Qed.

Lemma codepoint_bytes_range c : scalar c -> c <= 0x7f /\ codepoint_bytes c = [c] \/ 0x7f < c /\ Forall (fun b => 0x7f < b) (codepoint_bytes c).
Proof.
  intros [Hc _]. rewrite codepoint_bytes_arith by done. repeat case_match; rewrite ?Z.leb_le, ?Z.leb_gt in *; [by left|right..].
  all: split; [lia|]; repeat constructor; zlia.
Qed.

(** A printable byte at the cursor is the current character. *)
Lemma on_ok it cs : on it cs -> Forall plain cs -> it_ok it.
Proof.
  intros (Hu & Ht & Hd & Hle & Hc) Hp. split_and!; try done.
  - destruct cs as [|c cs]; destruct Hc as [Hc Hw].
    + left. split_and!; try done. apply (f_equal length) in Hd. rewrite length_drop in Hd. cbn [length encode map concat] in Hd. lia.
    + right. apply Forall_cons_1 in Hp as [((? & _) & _) _]. pose proof (codepoint_bytes_pos c).
      rewrite encode_cons in Hd. apply (f_equal length) in Hd. rewrite length_drop, length_app in Hd. split_and!; lia.
  - intros c' Hc' Hcur. unfold printable in Hc'. destruct cs as [|c cs]; destruct Hc as [Hc Hw]; [lia|].
    apply Forall_cons_1 in Hp as [(Hsc & _) _]. destruct (codepoint_bytes_range c Hsc) as [[_ Eb]|[? _]]; [|lia].
    rewrite encode_cons, Eb in Hd. rewrite Hw, Eb. split; [|done].
    rewrite <- (Nat.add_0_r (start it)), <- lookup_drop, Hd. cbn. congruence.
Qed.

Lemma on_start it c cs : on it (c :: cs) -> (start it + length (codepoint_bytes c) <= length (source it))%nat.
Proof. intros (_ & _ & Hd & Hle & _). rewrite encode_cons in Hd. apply (f_equal length) in Hd. rewrite length_drop, length_app in Hd. lia. Qed.

(** * States between tokens *)

(** The tokenizer is about to read the text [cs] from the byte [ts] on. *)
Definition idle (bytes : list Z) (cs : list Z) (t : GumboTokenizerState) : Prop :=
  _state t = GUMBO_LEX_DATA /\ _temporary_buffer_emit t = None /\ _buffered_emit_char t = kGumboNoChar /\
  _reconsume_current_input t = false /\ _is_in_cdata t = false /\ no_tag t /\
  on (_input t) cs /\ src t = bytes /\ _token_start t = cur t.

Section lex.
Context (scan_named : list Z -> option (OneOrTwoCodepoints * nat)) (junk_pos : GumboSourcePosition)
  (bytes : list Z) (Hsz : Z.of_nat (length bytes) < 2 ^ 64).

(** One iteration of the loop that reads a character and goes on. *)
Lemma loop_next fuel s c cs (Q : option bool -> GumboTokenizerState -> Prop) t :
  _state t = s -> _temporary_buffer_emit t = None -> _buffered_emit_char t = kGumboNoChar ->
  current (_input t) = c -> Forall plain cs ->
  wp (dispatch_table scan_named junk_pos s c) (fun r t1 =>
    r = NEXT_CHAR /\ _reconsume_current_input t1 = false /\ on (_input t1) (c :: cs) /\
    forall it, on it cs -> source it = source (_input t1) ->
      start it = (start (_input t1) + length (codepoint_bytes c))%nat -> mark it = mark (_input t1) ->
      wp (lex_loop scan_named junk_pos fuel) Q (set_input it (set_reconsume_current_input false t1))) t ->
  wp (lex_loop scan_named junk_pos (S fuel)) Q t.
Proof.
  intros Hs He Hb Hc Hp H. cbn [lex_loop]. do 3 wp_step. wp_step; [by rewrite He|]. do 3 wp_step. wp_step; [by rewrite Hb|].
  do 4 wp_step. apply wp_bind. unfold utf8iterator_current. rewrite Hs, Hc. eapply wp_mono; [|exact H].
  intros r t1 (-> & Hr & Hon & HK). do 4 wp_step. rewrite Hr. wp_step.
  destruct (on_next _ _ _ Hon Hp) as (it & E & Hon' & Hs' & Hst' & Hm'). eapply wp_on_input; [exact E|].
  by apply HK.
Qed.

(** One iteration that returns a token. *)
Lemma loop_return fuel s c (Q : option bool -> GumboTokenizerState -> Prop) t :
  _state t = s -> _temporary_buffer_emit t = None -> _buffered_emit_char t = kGumboNoChar -> current (_input t) = c ->
  wp (dispatch_table scan_named junk_pos s c) (fun r t1 =>
    exists b, r = (if (b : bool) then RETURN_SUCCESS else RETURN_ERROR) /\ Q (Some b) (set_reconsume_current_input false t1)) t ->
  wp (lex_loop scan_named junk_pos (S fuel)) Q t.
Proof.
  intros Hs He Hb Hc H. cbn [lex_loop]. do 3 wp_step. wp_step; [by rewrite He|]. do 3 wp_step. wp_step; [by rewrite Hb|].
  do 4 wp_step. apply wp_bind. unfold utf8iterator_current. rewrite Hs, Hc. eapply wp_mono; [|exact H].
  intros r t1 (b & -> & HQ). do 4 wp_step. by destruct b.
Qed.

Lemma gumbo_lex_idle fuel cs (Q : option bool -> GumboTokenizerState -> Prop) t :
  idle bytes cs t -> wp (lex_loop scan_named junk_pos fuel) Q t -> wp (gumbo_lex scan_named junk_pos fuel) Q t.
Proof.
  intros (_ & He & Hb & _) H. unfold gumbo_lex. do 2 wp_step. rewrite Hb. cbn [negb Z.eqb kGumboNoChar Pos.eqb].
  apply wp_bind, wp_maybe_emit_none; [by rewrite He|].
  assert (E : set_temporary_buffer_emit None t = t) by (destruct t; simpl_t; by subst). by rewrite E.
Qed.

(** The token [k] of the text from [from] to the cursor has been emitted. *)
Definition emits (ty : GumboTokenType) (v : token_value -> Prop) (from : nat) (cs : list Z) (r : option bool)
  (t : GumboTokenizerState) : Prop :=
  (exists b, r = Some b) /\ idle bytes cs t /\
  ttype (_output t) = ty /\ v (tv (_output t)) /\
  toriginal_text (_output t) = Piece from (Z.of_nat (cur t) - Z.of_nat from).

Lemma plain_last c : plain c -> exists b, last (codepoint_bytes c) = Some b /\ b <> 13.
Proof.
  intros (Hs & H13 & _). destruct (codepoint_bytes_range c Hs) as [[_ ->]|[_ HF]]; [by exists c|].
  pose proof (codepoint_bytes_pos c). destruct (last (codepoint_bytes c)) as [b|] eqn:E.
  - exists b. split; [done|]. apply last_Some_elem_of in E. rewrite Forall_forall in HF. specialize (HF b E). lia.
  - apply last_None in E. rewrite E in *. cbn in *. lia.
Qed.

(** The length of a token whose last character is [c]. *)
Lemma on_token_length it c cs from len :
  on it (c :: cs) -> plain c -> source it = bytes -> (from <= start it)%nat ->
  token_length bytes from (start it + length (codepoint_bytes c)) len ->
  len = Z.of_nat (start it + length (codepoint_bytes c)) - Z.of_nat from.
Proof.
  intros Hon Hp Hs Hle Hl. pose proof (codepoint_bytes_pos c). rewrite Hl by (done || lia).
  rewrite bool_decide_false; [done|]. destruct (plain_last c Hp) as (b & Hb & H13). destruct Hon as (_ & _ & Hd & _).
  rewrite encode_cons in Hd. rewrite last_lookup in Hb. rewrite <- Hs.
  replace (start it + length (codepoint_bytes c) - 1)%nat with (start it + pred (length (codepoint_bytes c)))%nat by lia.
  rewrite <- lookup_drop, Hd, lookup_app_l, Hb by lia. congruence.
Qed.

Lemma past_on t c cs it :
  past t it -> _reconsume_current_input t = false -> on (_input t) (c :: cs) -> Forall plain cs ->
  on it cs /\ source it = src t /\ start it = (cur t + length (codepoint_bytes c))%nat.
Proof.
  unfold past. intros Hp Hr Hon HF. rewrite Hr in Hp. destruct Hp as [E _].
  destruct (on_next _ _ _ Hon HF) as (it' & E' & H1 & H2 & H3 & _). rewrite E in E'. by injection E' as ->.
Qed.

Lemma lex_char fuel c cs t :
  idle bytes (c :: cs) t -> Forall plain (c :: cs) -> c <> #"&" -> c <> #"<" ->
  wp (lex_loop scan_named junk_pos (S fuel))
    (emits (get_char_token_type false c) (eq (VCharacter c)) (cur t) cs) t.
Proof.
  intros Hidle HF H38 H60. pose proof (on_ok _ _ (proj1 (proj2 (proj2 (proj2 (proj2 (proj2 (proj2 Hidle))))))) HF) as Hok.
  destruct Hidle as (Hs & He & Hb & Hr & Hcd & Hn & Hon & Hsrc & Hts). pose proof (Forall_cons_1 _ _ _ HF) as [Hp HF'].
  pose proof Hon as (_ & _ & _ & _ & Hc & _).
  apply (loop_return fuel GUMBO_LEX_DATA c); try done. cbn [dispatch_table]. unfold handle_data_state.
  replace (c =? 38) with false by lia. replace (c =? 60) with false by lia.
  assert (HK : forall es (b : bool), wp (emit_char c) (fun _ t1 => emits (get_char_token_type false c) (eq (VCharacter c)) (cur t) cs
    (Some b) (set_reconsume_current_input false t1)) (set_input (set_errors es (_input t)) t)).
  { intros es b. apply wp_emit_char; [done|unfold cur in *; simpl_t; lia|]. intros it len Hpast Hl.
    destruct (past_on _ c cs it Hpast Hr Hon HF') as (Hon' & Hs' & Hst'). simpl_t. unfold cur, src in *. simpl_t.
    rewrite Hst', Hsrc in Hl. assert (Hlen := on_token_length (_input t) c cs (_token_start t) len Hon Hp Hsrc ltac:(lia) Hl).
    split; [by eexists|]. unfold emitted. split; [|simpl_t; unfold cur; simpl_t; rewrite Hcd, Hts; split_and!; try done; congruence].
    unfold idle, cur, src, no_tag. simpl_t. split_and!; try done. congruence. }
  destruct (c =? 0).
  - wp_step. apply wp_error. intros es. apply wp_bind. eapply wp_mono; [|apply (HK es false)]. intros [] t1 H. apply wp_ret. by exists false.
  - wp_step. wp_step. wp_step. unfold utf8iterator_current. rewrite Hc. apply wp_bind.
    specialize (HK (errors (_input t)) true). rewrite set_errors_id in HK.
    eapply wp_mono; [|exact HK]. intros [] t1 H. apply wp_ret. by exists true.
Qed.

Lemma lex_eof fuel t :
  idle bytes [] t ->
  wp (lex_loop scan_named junk_pos (S fuel)) (fun r t' => (exists b, r = Some b) /\ ttype (_output t') = GUMBO_TOKEN_EOF) t.
Proof.
  intros (Hs & He & Hb & Hr & Hcd & Hn & Hon & Hsrc & Hts). pose proof (on_ok _ _ Hon ltac:(done)) as Hok.
  pose proof Hon as (_ & _ & _ & _ & Hc & _).
  apply (loop_return fuel GUMBO_LEX_DATA (-1)); try done. cbn [dispatch_table]. unfold handle_data_state.
  cbn [Z.eqb Pos.eqb]. wp_step. do 3 wp_step. wp_step; [done|unfold cur in *; lia|]. apply wp_ret. exists true. split; [done|].
  split; [by eexists|]. unfold emitted, utf8iterator_current. simpl_t. rewrite Hc. by destruct (_is_in_cdata t).
Qed.

(** * Tags *)
Definition nv (a : GumboAttribute) : list Z * list Z := (name a, value_ a).

(** The tag under construction: kind, buffer, tag, names and values of the attributes. *)
Definition tag_is (st : bool) (buf : list Z) (tg : Tags.GumboTag) (attrs : list (list Z * list Z)) (g : GumboTagState) : Prop :=
  _buffer g = Some buf /\ _tag g = tg /\ (exists l, _attributes g = Some l /\ map nv l = attrs) /\
  _is_start_tag g = st /\ _is_self_closing g = false /\ _drop_next_attr_value g = false.

(** A tag that started at [ts] is being read, [cs] is left. *)
Definition in_tag (ts : nat) (s : GumboTokenizerEnum) (cs : list Z) (g : GumboTagState -> Prop) (t : GumboTokenizerState) : Prop :=
  _state t = s /\ _temporary_buffer_emit t = None /\ _buffered_emit_char t = kGumboNoChar /\
  _reconsume_current_input t = false /\ _is_in_cdata t = false /\ on (_input t) cs /\ src t = bytes /\
  _token_start t = ts /\ bytes !! ts = Some #"<" /\ (ts < cur t)%nat /\ g (_tag_state t).

Lemma wp_append_exact st buf tg attrs c (b : bool) (Q : unit -> GumboTokenizerState -> Prop) t :
  tag_is st buf tg attrs (_tag_state t) ->
  (forall g, tag_is st (buf ++ codepoint_bytes c) tg attrs g -> Q tt (set_tag_state g t)) ->
  wp (append_char_to_tag_buffer c b) Q t.
Proof.
  intros (E & Ht & Ha & Hs & Hc & Hdr) H. unfold append_char_to_tag_buffer. apply wp_bind. eapply wp_tag_buffer; [exact E|].
  apply wp_bind. destruct (_ && _).
  - unfold reset_tag_buffer_start_point. repeat first [apply wp_bind | apply wp_get | apply wp_modify].
    refine (H (set_buffer (Some (buf ++ codepoint_bytes c)) (set_original_text _ (set_start_pos _ (_tag_state t)))) _). done.
  - apply wp_ret, wp_modify. refine (H (set_buffer (Some (buf ++ codepoint_bytes c)) (_tag_state t)) _). done.
Qed.

Lemma wp_initialize_exact st buf tg attrs (Q : unit -> GumboTokenizerState -> Prop) t :
  tag_is st buf tg attrs (_tag_state t) ->
  (forall g, tag_is st [] tg attrs g -> Q tt (set_tag_state g t)) ->
  wp initialize_tag_buffer Q t.
Proof.
  intros (E & Ht & Ha & Hs & Hc & Hdr) H. unfold initialize_tag_buffer, reset_tag_buffer_start_point.
  repeat first [apply wp_bind | apply wp_get | apply wp_modify].
  refine (H (set_original_text _ (set_start_pos _ (set_buffer (Some []) (_tag_state t)))) _). done.
Qed.

Lemma wp_finish_tag_name_exact st buf tg tg' attrs (Q : unit -> GumboTokenizerState -> Prop) t :
  tag_is st buf tg attrs (_tag_state t) -> Tags.gumbo_tag_enum buf = Ok tg' ->
  (forall g, tag_is st [] tg' attrs g -> Q tt (set_tag_state g t)) ->
  wp finish_tag_name Q t.
Proof.
  intros (E & Ht & Ha & Hs & Hc & Hdr) Htg H. unfold finish_tag_name. apply wp_bind. eapply wp_tag_buffer; [exact E|].
  apply wp_bind. eapply wp_lift; [exact Htg|]. apply wp_bind, wp_modify.
  eapply (wp_initialize_exact st buf tg' attrs); [done|]. intros g Hg. exact (H g Hg).
Qed.

Lemma find_attr_none l nm i : nm ∉ map fst (map nv l) -> find_attr l nm i = None.
Proof.
  revert i; induction l as [|a l IH]; intros i H; [done|]. cbn [find_attr]. cbn [map] in H.
  apply not_elem_of_cons in H as [H1 H2].
  rewrite bool_decide_false; [by apply IH|]. intros E. by apply H1.
Qed.

Lemma wp_attr_name_exact st buf tg attrs (Q : bool -> GumboTokenizerState -> Prop) t :
  tag_is st buf tg attrs (_tag_state t) -> (0 < cur t <= length (src t))%nat -> buf ∉ map fst attrs ->
  (forall g, tag_is st [] tg (attrs ++ [(buf, [])]) g -> Q true (set_tag_state g t)) ->
  wp (finish_attribute_name junk_pos) Q t.
Proof.
  intros (E & Ht & (l & El & Hl) & Hs & Hc & Hdr) Hcur Hnew H. unfold finish_attribute_name.
  apply wp_bind, wp_modify, wp_bind, wp_get_tag. simpl_t. rewrite El. apply wp_bind. eapply wp_tag_buffer; [exact E|].
  rewrite find_attr_none by (by rewrite Hl). apply wp_bind. eapply wp_tag_buffer; [exact E|].
  apply wp_bind, wp_copy_original; [done|]. intros [[oname q1] q2]. apply wp_bind, wp_copy_original; [done|].
  intros [[ovalue p1] p2]. apply wp_bind, wp_modify, wp_bind.
  apply (wp_initialize_exact st buf tg (attrs ++ [(buf, [])])).
  - split_and!; try done. eexists. split; [reflexivity|]. by rewrite map_app, Hl.
  - intros g Hg. apply wp_ret. exact (H g Hg).
Qed.

Lemma wp_attr_value_exact st buf tg attrs nm v0 (Q : unit -> GumboTokenizerState -> Prop) t :
  tag_is st buf tg (attrs ++ [(nm, v0)]) (_tag_state t) ->
  (0 < cur t <= length (src t))%nat ->
  (forall g, tag_is st [] tg (attrs ++ [(nm, buf)]) g -> Q tt (set_tag_state g t)) ->
  wp finish_attribute_value Q t.
Proof.
  intros (E & Ht & (l & El & Hl) & Hs & Hc & Hdrop) Hcur H. unfold finish_attribute_value. apply wp_bind, wp_get_tag.
  rewrite Hdrop. apply wp_bind, wp_get_tag. rewrite El.
  apply fmap_app_inv in Hl as (l1 & l2 & H1 & H2 & ->). destruct l2 as [|a [|]]; [done| |done].
  injection H2 as Hn Hv. apply wp_bind. eapply wp_lift; [by rewrite last_snoc|].
  apply wp_bind. eapply wp_tag_buffer; [exact E|]. apply wp_bind, wp_copy_original; [done|]. intros [[ov p1] p2].
  apply wp_bind, wp_modify. rewrite length_app, Nat.add_sub, take_app_length.
  apply (wp_initialize_exact st buf tg (attrs ++ [(nm, buf)])).
  - split_and!; try done. eexists. split; [reflexivity|]. rewrite map_app. cbn [map nv name value_]. f_equal; [done|]. by rewrite Hn.
  - intros g Hg. exact (H g Hg).
Qed.

(** ** One character of a tag *)

(** Characters of tag and attribute names. *)
Definition name_char (c : Z) : Prop :=
  is_space c = false /\ c <> #"/" /\ c <> #">" /\ c <> 0 /\ ensure_lowercase c = c.

Definition attr_char (c : Z) : Prop := name_char c /\ c <> 34 /\ c <> #"'" /\ c <> #"<" /\ c <> #"=".

(** Characters of attribute values in double quotes. *)
Definition value_char (c : Z) : Prop := c <> 34 /\ c <> #"&" /\ c <> 0.

Ltac open_tag :=
  intros (Hs & He & Hb & Hr & Hcd & Hon & Hsrc & Hts & Hlt & Hcur & Hg) HF;
  pose proof (Forall_cons_1 _ _ _ HF) as [Hp HF'];
  pose proof (on_ok _ _ Hon HF) as Hok; pose proof Hon as (_ & _ & _ & _ & Hc & _);
  pose proof (start_le _ Hok) as Hstart.

(** The branches that a known character decides. *)
Ltac decide_branch :=
  repeat match goal with
  | H : is_space ?c = _ |- context [is_space ?c] => rewrite H
  | |- context [is_space ?k] => let b := eval vm_compute in (is_space k) in change (is_space k) with b
  | |- context [?c =? ?k] => first [replace (c =? k) with false by lia | replace (c =? k) with true by lia]
  end; cbn [orb]; cbv iota.

Ltac run_tag s c cs fuel handler :=
  apply (loop_next fuel s c cs); [done..|]; cbn [dispatch_table]; unfold handler; decide_branch.

(** The next state of the tag is reached. *)
Ltac next_tag :=
  split_and!; [done|done|done|intros ? ? ? ? _];
  repeat match goal with x := _ |- _ => subst x end; cbv beta in *;
  match goal with H : forall t', _ -> wp _ _ t' |- _ => apply H end;
  unfold in_tag, cur, src in *; simpl_t; split_and!; solve [done | congruence | lia].

Section one_character.
Context (st : bool) (fuel ts : nat) (cs buf : list Z) (tg : Tags.GumboTag) (attrs : list (list Z * list Z))
  (Q : option bool -> GumboTokenizerState -> Prop).

(** The rest of the tag is lexed from the next state. *)
Let next (s : GumboTokenizerEnum) (g : GumboTagState -> Prop) : Prop :=
  forall t', in_tag ts s cs g t' -> wp (lex_loop scan_named junk_pos fuel) Q t'.

Lemma plain_nonneg c : plain c -> 0 <= c.
Proof. intros ((? & _) & _). lia. Qed.

Lemma tag_name_char c t :
  in_tag ts GUMBO_LEX_TAG_NAME (c :: cs) (tag_is st buf tg attrs) t -> Forall plain (c :: cs) -> name_char c ->
  next GUMBO_LEX_TAG_NAME (tag_is st (buf ++ codepoint_bytes c) tg attrs) ->
  wp (lex_loop scan_named junk_pos (S fuel)) Q t.
Proof.
  open_tag. intros (Hsp & H1 & H2 & H3 & Hlow) H. pose proof (plain_nonneg c Hp).
  run_tag GUMBO_LEX_TAG_NAME c cs fuel handle_tag_name_state. rewrite Hlow.
  wp_step. eapply wp_append_exact; [exact Hg|]. intros g Hg'. wp_step. next_tag.
Qed.

Lemma tag_name_space tg' t :
  in_tag ts GUMBO_LEX_TAG_NAME (32 :: cs) (tag_is st buf tg attrs) t -> Forall plain (32 :: cs) ->
  Tags.gumbo_tag_enum buf = Ok tg' -> next GUMBO_LEX_BEFORE_ATTR_NAME (tag_is st [] tg' attrs) ->
  wp (lex_loop scan_named junk_pos (S fuel)) Q t.
Proof.
  open_tag. intros Htg H. run_tag GUMBO_LEX_TAG_NAME 32 cs fuel handle_tag_name_state.
  wp_step. eapply wp_finish_tag_name_exact; [exact Hg|exact Htg|]. intros g Hg'. do 3 wp_step. next_tag.
Qed.

Lemma before_attr_name_char c t :
  in_tag ts GUMBO_LEX_BEFORE_ATTR_NAME (c :: cs) (tag_is st buf tg attrs) t -> Forall plain (c :: cs) -> attr_char c ->
  next GUMBO_LEX_ATTR_NAME (tag_is st (buf ++ codepoint_bytes c) tg attrs) ->
  wp (lex_loop scan_named junk_pos (S fuel)) Q t.
Proof.
  open_tag. intros ((Hsp & H1 & H2 & H3 & Hlow) & H4 & H5 & H6 & H7) H. pose proof (plain_nonneg c Hp).
  run_tag GUMBO_LEX_BEFORE_ATTR_NAME c cs fuel handle_before_attr_name_state. rewrite Hlow.
  do 4 wp_step. wp_step. eapply wp_append_exact; [exact Hg|]. intros g Hg'. wp_step. next_tag.
Qed.

Lemma attr_name_char c t :
  in_tag ts GUMBO_LEX_ATTR_NAME (c :: cs) (tag_is st buf tg attrs) t -> Forall plain (c :: cs) -> attr_char c ->
  next GUMBO_LEX_ATTR_NAME (tag_is st (buf ++ codepoint_bytes c) tg attrs) ->
  wp (lex_loop scan_named junk_pos (S fuel)) Q t.
Proof.
  open_tag. intros ((Hsp & H1 & H2 & H3 & Hlow) & H4 & H5 & H6 & H7) H. pose proof (plain_nonneg c Hp).
  run_tag GUMBO_LEX_ATTR_NAME c cs fuel handle_attr_name_state. rewrite Hlow.
  do 2 wp_step. wp_step. eapply wp_append_exact; [exact Hg|]. intros g Hg'. wp_step. next_tag.
Qed.

Lemma attr_name_equals t :
  in_tag ts GUMBO_LEX_ATTR_NAME (61 :: cs) (tag_is st buf tg attrs) t -> Forall plain (61 :: cs) ->
  buf ∉ map fst attrs -> next GUMBO_LEX_BEFORE_ATTR_VALUE (tag_is st [] tg (attrs ++ [(buf, [])])) ->
  wp (lex_loop scan_named junk_pos (S fuel)) Q t.
Proof.
  open_tag. intros Hnew H. run_tag GUMBO_LEX_ATTR_NAME 61 cs fuel handle_attr_name_state.
  wp_step. eapply wp_attr_name_exact; [exact Hg|unfold cur, src in *; lia|exact Hnew|]. intros g Hg'. do 3 wp_step. next_tag.
Qed.

Lemma before_attr_value_quote t :
  in_tag ts GUMBO_LEX_BEFORE_ATTR_VALUE (34 :: cs) (tag_is st buf tg attrs) t -> Forall plain (34 :: cs) ->
  next GUMBO_LEX_ATTR_VALUE_DOUBLE_QUOTED (tag_is st buf tg attrs) ->
  wp (lex_loop scan_named junk_pos (S fuel)) Q t.
Proof.
  open_tag. intros H. run_tag GUMBO_LEX_BEFORE_ATTR_VALUE 34 cs fuel handle_before_attr_value_state.
  repeat wp_step. next_tag.
Qed.

Lemma attr_value_char c t :
  in_tag ts GUMBO_LEX_ATTR_VALUE_DOUBLE_QUOTED (c :: cs) (tag_is st buf tg attrs) t -> Forall plain (c :: cs) -> value_char c ->
  next GUMBO_LEX_ATTR_VALUE_DOUBLE_QUOTED (tag_is st (buf ++ codepoint_bytes c) tg attrs) ->
  wp (lex_loop scan_named junk_pos (S fuel)) Q t.
Proof.
  open_tag. intros (H1 & H2 & H3) H. pose proof (plain_nonneg c Hp).
  apply (loop_next fuel GUMBO_LEX_ATTR_VALUE_DOUBLE_QUOTED c cs); [done..|]. cbn [dispatch_table].
  unfold handle_attr_value_double_quoted_state, attr_value_quoted. decide_branch.
  wp_step. eapply wp_append_exact; [exact Hg|]. intros g Hg'. wp_step. next_tag.
Qed.

Lemma attr_value_quote t :
  in_tag ts GUMBO_LEX_ATTR_VALUE_DOUBLE_QUOTED (34 :: cs) (tag_is st buf tg attrs) t -> Forall plain (34 :: cs) ->
  next GUMBO_LEX_AFTER_ATTR_VALUE_QUOTED (tag_is st buf tg attrs) ->
  wp (lex_loop scan_named junk_pos (S fuel)) Q t.
Proof.
  open_tag. intros H. apply (loop_next fuel GUMBO_LEX_ATTR_VALUE_DOUBLE_QUOTED 34 cs); [done..|]. cbn [dispatch_table].
  unfold handle_attr_value_double_quoted_state, attr_value_quoted. decide_branch. repeat wp_step. next_tag.
Qed.

Lemma after_attr_value_space nm v0 t :
  in_tag ts GUMBO_LEX_AFTER_ATTR_VALUE_QUOTED (32 :: cs) (tag_is st buf tg (attrs ++ [(nm, v0)])) t -> Forall plain (32 :: cs) ->
  next GUMBO_LEX_BEFORE_ATTR_NAME (tag_is st [] tg (attrs ++ [(nm, buf)])) ->
  wp (lex_loop scan_named junk_pos (S fuel)) Q t.
Proof.
  open_tag. intros H. run_tag GUMBO_LEX_AFTER_ATTR_VALUE_QUOTED 32 cs fuel handle_after_attr_value_quoted_state.
  wp_step. eapply wp_attr_value_exact; [exact Hg|unfold cur, src in *; lia|]. intros g Hg'. do 3 wp_step. next_tag.
Qed.
End one_character.

(** ** The end of a tag *)
Definition tag_value (st : bool) (tg : Tags.GumboTag) (attrs : list (list Z * list Z)) (v : token_value) : Prop :=
  if st then exists l, v = VStartTag (StartTag tg (Some l) false) /\ map nv l = attrs else v = VEndTag tg.

Definition tag_type (st : bool) : GumboTokenType := if st then GUMBO_TOKEN_START_TAG else GUMBO_TOKEN_END_TAG.

Lemma wp_emit_tag_exact ts cs st buf tg attrs t :
  in_tag ts GUMBO_LEX_DATA (62 :: cs) (tag_is st buf tg attrs) t -> Forall plain (62 :: cs) ->
  wp emit_current_tag (fun r t1 => exists b : bool, r = (if b then RETURN_SUCCESS else RETURN_ERROR) /\
    emits (tag_type st) (tag_value st tg attrs) ts cs (Some b) (set_reconsume_current_input false t1)) t.
Proof.
  open_tag. apply wp_emit_current_tag; try done; [unfold opened; by rewrite Hsrc, Hts|by rewrite Hsrc|].
  intros ty v len it g Hpast _ Hg' Htok Hlen. exists true. split; [done|].
  destruct (past_on _ _ _ _ Hpast Hr Hon HF') as (Hon' & Hs' & Hst'). change (length (codepoint_bytes 62)) with 1%nat in Hst'.
  destruct Hg as (_ & Htg & (l & El & Hl) & Hst & Hsc & _).
  assert (Htv : ty = tag_type st /\ tag_value st tg attrs v).
  { unfold tag_token in Htok. rewrite Hst, Htg, El, Hsc in Htok. unfold tag_type, tag_value. destruct st; injection Htok as -> ->; eauto. }
  destruct Htv as [-> Hv]. split; [by eexists|]. unfold emitted, idle, cur, src, no_tag in *. simpl_t.
  split_and!; try done; try congruence. rewrite Hts. f_equal. lia.
Qed.

Lemma tag_name_close fuel ts cs st buf tg tg' attrs t :
  in_tag ts GUMBO_LEX_TAG_NAME (62 :: cs) (tag_is st buf tg attrs) t -> Forall plain (62 :: cs) ->
  Tags.gumbo_tag_enum buf = Ok tg' ->
  wp (lex_loop scan_named junk_pos (S fuel)) (emits (tag_type st) (tag_value st tg' attrs) ts cs) t.
Proof.
  intros Hin HF Htg. pose proof Hin as (Hs & He & Hb & Hr & Hcd & Hon & Hsrc & Hts & Hlt & Hcur & Hg).
  pose proof Hon as (_ & _ & _ & _ & Hc & _).
  apply (loop_return fuel GUMBO_LEX_TAG_NAME 62); try done. cbn [dispatch_table]. unfold handle_tag_name_state. decide_branch.
  wp_step. eapply wp_finish_tag_name_exact; [exact Hg|exact Htg|]. intros g Hg'. do 2 wp_step.
  eapply wp_emit_tag_exact; [|exact HF]. by split_and!.
Qed.

Lemma attr_value_close fuel ts cs st buf tg attrs nm v0 t :
  in_tag ts GUMBO_LEX_AFTER_ATTR_VALUE_QUOTED (62 :: cs) (tag_is st buf tg (attrs ++ [(nm, v0)])) t -> Forall plain (62 :: cs) ->
  wp (lex_loop scan_named junk_pos (S fuel)) (emits (tag_type st) (tag_value st tg (attrs ++ [(nm, buf)])) ts cs) t.
Proof.
  intros Hin HF. pose proof Hin as (Hs & He & Hb & Hr & Hcd & Hon & Hsrc & Hts & Hlt & Hcur & Hg).
  pose proof Hon as (_ & _ & _ & Hstart & Hc & _).
  apply (loop_return fuel GUMBO_LEX_AFTER_ATTR_VALUE_QUOTED 62); try done. cbn [dispatch_table].
  unfold handle_after_attr_value_quoted_state. decide_branch.
  wp_step. eapply wp_attr_value_exact; [exact Hg|unfold cur, src in *; lia|]. intros g Hg'. do 2 wp_step.
  eapply wp_emit_tag_exact; [|exact HF]. by split_and!.
Qed.

(** ** Names and values *)
Section characters.
Context (st : bool) (ts : nat) (tg : Tags.GumboTag) (Q : option bool -> GumboTokenizerState -> Prop).

Lemma read_chars attrs s (ok : Z -> Prop) :
  (forall fuel cs buf c t, in_tag ts s (c :: cs) (tag_is st buf tg attrs) t -> Forall plain (c :: cs) -> ok c ->
     (forall t', in_tag ts s cs (tag_is st (buf ++ codepoint_bytes c) tg attrs) t' -> wp (lex_loop scan_named junk_pos fuel) Q t') ->
     wp (lex_loop scan_named junk_pos (S fuel)) Q t) ->
  forall ns fuel cs buf t, in_tag ts s (ns ++ cs) (tag_is st buf tg attrs) t -> Forall plain (ns ++ cs) -> Forall ok ns ->
    (forall t', in_tag ts s cs (tag_is st (buf ++ encode ns) tg attrs) t' -> wp (lex_loop scan_named junk_pos fuel) Q t') ->
    wp (lex_loop scan_named junk_pos (length ns + fuel)) Q t.
Proof.
  intros Hstep. induction ns as [|c ns IH]; intros fuel cs buf t Hin HF Hok H; cbn [length Nat.add app] in *.
  - apply H. unfold encode. cbn. by rewrite app_nil_r.
  - apply Forall_cons_1 in Hok as [Hc Hok]. eapply Hstep; [exact Hin|exact HF|exact Hc|].
    intros t' Hin'. apply Forall_cons_1 in HF as [_ HF]. eapply IH; [exact Hin'|exact HF|exact Hok|].
    intros t2 Hin2. apply H. by rewrite encode_cons, app_assoc.
Qed.

Lemma lex_attr attrs n v fuel cs t :
  in_tag ts GUMBO_LEX_BEFORE_ATTR_NAME (n ++ [61; 34] ++ v ++ 34 :: cs) (tag_is st [] tg attrs) t ->
  Forall plain (n ++ [61; 34] ++ v ++ 34 :: cs) -> n <> [] -> Forall attr_char n -> Forall value_char v ->
  encode n ∉ map fst attrs ->
  (forall t', in_tag ts GUMBO_LEX_AFTER_ATTR_VALUE_QUOTED cs (tag_is st (encode v) tg (attrs ++ [(encode n, [])])) t' ->
     wp (lex_loop scan_named junk_pos fuel) Q t') ->
  wp (lex_loop scan_named junk_pos (length n + (2 + (length v + S fuel)))) Q t.
Proof.
  intros Hin HF Hne Hn Hv Hnew H. destruct n as [|c n]; [done|]. cbn [length Nat.add app] in *.
  apply Forall_cons_1 in Hn as [Hc Hn]. eapply before_attr_name_char; [exact Hin|exact HF|exact Hc|]. clear t Hin. intros t Hin.
  apply Forall_cons_1 in HF as [_ HF].
  eapply (read_chars attrs GUMBO_LEX_ATTR_NAME attr_char); [intros *; apply attr_name_char|exact Hin|exact HF|exact Hn|].
  clear t Hin. intros t Hin. apply Forall_app in HF as [_ HF]. rewrite app_nil_l, <- encode_cons in Hin.
  eapply attr_name_equals; [exact Hin|exact HF|exact Hnew|]. clear t Hin. intros t Hin. apply Forall_cons_1 in HF as [_ HF].
  eapply before_attr_value_quote; [exact Hin|exact HF|]. clear t Hin. intros t Hin. apply Forall_cons_1 in HF as [_ HF].
  eapply (read_chars _ GUMBO_LEX_ATTR_VALUE_DOUBLE_QUOTED value_char); [intros *; apply attr_value_char|exact Hin|exact HF|exact Hv|].
  clear t Hin. intros t Hin. apply Forall_app in HF as [_ HF].
  eapply attr_value_quote; [exact Hin|exact HF|]. exact H.
Qed.

(** The text of attributes after a space, and how many iterations it takes. *)
Definition print_attr (a : list Z * list Z) : list Z := a.1 ++ [61; 34] ++ a.2 ++ [34].

Definition print_attrs (l : list (list Z * list Z)) : list Z := concat (map (fun a => 32 :: print_attr a) l).

Definition attr_ok (a : list Z * list Z) : Prop := a.1 <> [] /\ Forall attr_char a.1 /\ Forall value_char a.2.

Definition encode_attr (a : list Z * list Z) : list Z * list Z := (encode a.1, encode a.2).

Lemma print_attrs_app n v l cs :
  print_attrs ((n, v) :: l) ++ cs = 32 :: n ++ [61; 34] ++ v ++ 34 :: print_attrs l ++ cs.
Proof. unfold print_attrs, print_attr. cbn [map concat fst snd app]. f_equal. rewrite <- !app_assoc. cbn [app]. by rewrite <- !app_assoc. Qed.

Lemma print_attrs_length n v l :
  length (print_attrs ((n, v) :: l)) = S (length n + (2 + (length v + S (length (print_attrs l))))).
Proof.
  rewrite <- (app_nil_r (print_attrs _)), print_attrs_app, app_nil_r. cbn [length]. by rewrite !length_app.
Qed.

(** The attributes that follow one whose value has just been read. *)
Lemma lex_attrs l attrs nm buf fuel cs t :
  in_tag ts GUMBO_LEX_AFTER_ATTR_VALUE_QUOTED (print_attrs l ++ 62 :: cs) (tag_is st buf tg (attrs ++ [(nm, [])])) t ->
  Forall plain (print_attrs l ++ 62 :: cs) -> Forall attr_ok l ->
  NoDup (map fst (attrs ++ [(nm, buf)] ++ map encode_attr l)) ->
  (forall r t', emits (tag_type st) (tag_value st tg (attrs ++ [(nm, buf)] ++ map encode_attr l)) ts cs r t' -> Q r t') ->
  wp (lex_loop scan_named junk_pos (length (print_attrs l) + S fuel)) Q t.
Proof.
  revert attrs nm buf t; induction l as [|[n v] l IH]; intros attrs nm buf t Hin HF Hok Hnd H.
  - eapply wp_mono; [exact H|]. apply (attr_value_close fuel ts cs st buf tg attrs nm [] t); done.
  - apply Forall_cons_1 in Hok as [(Hne & Hn & Hv) Hok]. cbn [fst snd] in Hne, Hn, Hv.
    rewrite print_attrs_app in Hin, HF. rewrite print_attrs_length. cbn [map] in Hnd, H.
    replace (_ + S fuel)%nat with (S (length n + (2 + (length v + S (length (print_attrs l) + S fuel)))))%nat by lia.
    eapply after_attr_value_space; [exact Hin|exact HF|]. clear t Hin. intros t Hin. apply Forall_cons_1 in HF as [_ HF].
    eapply (lex_attr (attrs ++ [(nm, buf)]) n v); [exact Hin|exact HF|exact Hne|exact Hn|exact Hv| |].
    { rewrite app_assoc, map_app in Hnd. apply NoDup_app in Hnd as (_ & Hnd & _). intros Hel. apply (Hnd _ Hel). by left. }
    clear t Hin. intros t Hin. apply (IH (attrs ++ [(nm, buf)]) (encode n) (encode v) t Hin).
    + apply Forall_app in HF as [_ HF]. do 2 apply Forall_cons_1 in HF as [_ HF]. apply Forall_app in HF as [_ HF].
      by apply Forall_cons_1 in HF as [_ HF].
    + done.
    + by rewrite <- app_assoc.
    + intros r t' He. apply H. by rewrite <- app_assoc in He.
Qed.
End characters.

(** ** The start of a tag *)
Definition bare (g : GumboTagState) : Prop := _attributes g = None.

Definition letter (c : Z) : Prop := #"a" <= c <= #"z".

Lemma letter_alpha c : letter c -> is_alpha c = true /\ ensure_lowercase c = c /\ name_char c.
Proof.
  unfold letter, name_char, is_alpha, is_space, ensure_lowercase. intros H.
  replace ((65 <=? c) && (c <=? 90)) with false by lia. split_and!; try lia.
Qed.

Lemma wp_start_exact (st : bool) c (Q : unit -> GumboTokenizerState -> Prop) t :
  letter c -> current (_input t) = c -> no_tag t ->
  (forall g tg, tag_is st (codepoint_bytes c) tg [] g -> Q tt (set_tag_state g t)) ->
  wp (start_new_tag st) Q t.
Proof.
  intros Hl Hc Hn H. destruct (letter_alpha c Hl) as (Ha & Hlow & _). unfold start_new_tag. apply wp_bind, wp_get.
  unfold utf8iterator_current. rewrite Hc. wp_step. wp_step; [done|]. cbv zeta. rewrite Hlow. wp_step. wp_step; [done|].
  apply wp_bind, wp_initialize_tag_buffer. intros g Hg (Hk & _ & _). apply wp_bind. eapply wp_tag_buffer; [exact Hg|].
  apply wp_bind, wp_modify, wp_bind, wp_get_tag, wp_bind, wp_assert; [simpl_t; by rewrite Hk, Hn|].
  repeat first [apply wp_bind | apply wp_modify].
  refine (H (set_is_self_closing false (set_is_start_tag st (set_drop_next_attr_value false (set_attributes (Some [])
    (set_buffer (Some ([] ++ codepoint_bytes c)) g))))) _ _). split_and!; try done. by exists [].
Qed.

Ltac open_text :=
  intros (Hs & He & Hb & Hr & Hcd & Hn & Hon & Hsrc & Hts) HF;
  pose proof (Forall_cons_1 _ _ _ HF) as [Hp HF'];
  pose proof (on_ok _ _ Hon HF) as Hok; pose proof Hon as (_ & _ & _ & _ & Hc & _).

(** A state within markup: the tag is bare and the temporary buffer holds [buf]. *)
Definition in_markup (ts : nat) (s : GumboTokenizerEnum) (cs buf : list Z) (t : GumboTokenizerState) : Prop :=
  in_tag ts s cs bare t /\ _temporary_buffer t = buf.

Section markup.
Context (fuel : nat) (cs : list Z) (Q : option bool -> GumboTokenizerState -> Prop).

Lemma lex_lt t :
  idle bytes (60 :: cs) t -> Forall plain (60 :: cs) ->
  (forall t', in_markup (cur t) GUMBO_LEX_TAG_OPEN cs (text_of "<") t' -> wp (lex_loop scan_named junk_pos fuel) Q t') ->
  wp (lex_loop scan_named junk_pos (S fuel)) Q t.
Proof.
  open_text. intros H. run_tag GUMBO_LEX_DATA 60 cs fuel handle_data_state. repeat wp_step; try done.
  split_and!; try done. intros it Hon' Hs' Hst' _. apply H. change (length (codepoint_bytes 60)) with 1%nat in Hst'.
  pose proof (it_ok_current _ _ Hok Hc ltac:(done)) as H60.
  split; [|done]. unfold in_tag, cur, src, bare, no_tag, utf8iterator_mark in *. simpl_t.
  split_and!; try done; try congruence. lia.
Qed.

Lemma tag_open_letter ts c t :
  in_markup ts GUMBO_LEX_TAG_OPEN (c :: cs) (text_of "<") t -> Forall plain (c :: cs) -> letter c ->
  (forall tg t', in_tag ts GUMBO_LEX_TAG_NAME cs (tag_is true (codepoint_bytes c) tg []) t' ->
     wp (lex_loop scan_named junk_pos fuel) Q t') ->
  wp (lex_loop scan_named junk_pos (S fuel)) Q t.
Proof.
  intros [Hin Htmp]. revert Hin. open_tag. intros Hl H. destruct (letter_alpha c Hl) as (Ha & _). unfold letter in Hl.
  run_tag GUMBO_LEX_TAG_OPEN c cs fuel handle_tag_open_state. do 3 wp_step.
  wp_step; [unfold temporary_buffer_equals; by apply bool_decide_true|]. rewrite Ha. do 3 wp_step.
  apply wp_start_exact with c; try done. intros g tg Hg'. wp_step. specialize (H tg). next_tag.
Qed.

Lemma tag_open_slash ts t :
  in_markup ts GUMBO_LEX_TAG_OPEN (47 :: cs) (text_of "<") t -> Forall plain (47 :: cs) ->
  (forall t', in_markup ts GUMBO_LEX_END_TAG_OPEN cs (text_of "</") t' -> wp (lex_loop scan_named junk_pos fuel) Q t') ->
  wp (lex_loop scan_named junk_pos (S fuel)) Q t.
Proof.
  intros [Hin Htmp]. revert Hin. open_tag. intros H.
  run_tag GUMBO_LEX_TAG_OPEN 47 cs fuel handle_tag_open_state. repeat wp_step.
  { unfold temporary_buffer_equals; by apply bool_decide_true. }
  split_and!; try done. intros it Hon' Hs' Hst' _. apply H. split; [|simpl_t; by rewrite Htmp].
  unfold in_tag, cur, src in *. simpl_t. split_and!; solve [done | congruence | lia].
Qed.

Lemma end_tag_open_letter ts c t :
  in_markup ts GUMBO_LEX_END_TAG_OPEN (c :: cs) (text_of "</") t -> Forall plain (c :: cs) -> letter c ->
  (forall tg t', in_tag ts GUMBO_LEX_TAG_NAME cs (tag_is false (codepoint_bytes c) tg []) t' ->
     wp (lex_loop scan_named junk_pos fuel) Q t') ->
  wp (lex_loop scan_named junk_pos (S fuel)) Q t.
Proof.
  intros [Hin Htmp]. revert Hin. open_tag. intros Hl H. destruct (letter_alpha c Hl) as (Ha & _). unfold letter in Hl.
  run_tag GUMBO_LEX_END_TAG_OPEN c cs fuel handle_end_tag_open_state. do 3 wp_step.
  wp_step; [unfold temporary_buffer_equals; by apply bool_decide_true|]. rewrite Ha. do 3 wp_step.
  apply wp_start_exact with c; try done. intros g tg Hg'. wp_step. specialize (H tg). next_tag.
Qed.
End markup.

(** ** Comments *)

(** An iteration that hands a character on. *)
Lemma loop_reconsume fuel s c (Q : option bool -> GumboTokenizerState -> Prop) t :
  _state t = s -> _temporary_buffer_emit t = None -> _buffered_emit_char t = kGumboNoChar -> current (_input t) = c ->
  wp (dispatch_table scan_named junk_pos s c) (fun r t1 =>
    r = NEXT_CHAR /\ _reconsume_current_input t1 = true /\
    wp (lex_loop scan_named junk_pos fuel) Q (set_reconsume_current_input false t1)) t ->
  wp (lex_loop scan_named junk_pos (S fuel)) Q t.
Proof.
  intros Hs He Hb Hc H. cbn [lex_loop]. do 3 wp_step. wp_step; [by rewrite He|]. do 3 wp_step. wp_step; [by rewrite Hb|].
  do 4 wp_step. apply wp_bind. unfold utf8iterator_current. rewrite Hs, Hc. eapply wp_mono; [|exact H].
  intros r t1 (-> & Hr & HK). do 4 wp_step. rewrite Hr. wp_step. apply wp_ret. exact HK.
Qed.

Lemma wp_match_dashes cs (Q : bool -> GumboTokenizerState -> Prop) t :
  on (_input t) (45 :: 45 :: cs) -> Forall plain cs ->
  (forall it, on it cs -> source it = src t -> start it = (cur t + 2)%nat -> Q true (set_input it t)) ->
  wp (maybe_consume_match "--" true) Q t.
Proof.
  intros Hon HF H. unfold maybe_consume_match, wp, utf8iterator_maybe_consume_match.
  change (text_of "--") with [45; 45]. cbn [length]. pose proof Hon as (_ & _ & Hd & _). rewrite Hd.
  assert (Hlen : (start (_input t) + 2 <= length (source (_input t)))%nat).
  { apply (f_equal length) in Hd. rewrite length_drop, !encode_cons, !length_app in Hd. cbn [length codepoint_bytes] in Hd. 
    change (length (codepoint_bytes 45)) with 1%nat in Hd. lia. }
  replace (start (_input t) + 2 <=? length (source (_input t)))%nat with true by (symmetry; by apply Nat.leb_le).
  rewrite bool_decide_true by done. cbn [andb next_n].
  assert (HF1 : Forall plain (45 :: cs)) by (constructor; [by apply printable_plain|done]).
  destruct (on_next _ _ _ Hon HF1) as (it1 & -> & Hon1 & Hs1 & Hst1 & _). rewrite bind_Ok.
  destruct (on_next _ _ _ Hon1 HF) as (it2 & -> & Hon2 & Hs2 & Hst2 & _). rewrite !bind_Ok.
  change (length (codepoint_bytes 45)) with 1%nat in *. apply H; [done|unfold src; congruence|unfold cur; lia].
Qed.

(** Characters of a comment. *)
Definition comment_char (c : Z) : Prop := c <> #"-" /\ c <> 0.

(** The states after a dash. *)
Definition after_dash (s : GumboTokenizerEnum) : option GumboTokenizerEnum :=
  match s with
  | GUMBO_LEX_COMMENT_START => Some GUMBO_LEX_COMMENT_START_DASH
  | GUMBO_LEX_COMMENT => Some GUMBO_LEX_COMMENT_END_DASH
  | GUMBO_LEX_COMMENT_START_DASH | GUMBO_LEX_COMMENT_END_DASH => Some GUMBO_LEX_COMMENT_END
  | _ => None
  end.

Section comments.
Context (ts fuel : nat) (cs buf : list Z) (Q : option bool -> GumboTokenizerState -> Prop).

Let next (s : GumboTokenizerEnum) (buf : list Z) : Prop :=
  forall t', in_markup ts s cs buf t' -> wp (lex_loop scan_named junk_pos fuel) Q t'.

(** The next state of the comment is reached. *)
Ltac next_comment :=
  split_and!; [done|done|done|intros ? ? ? ? _];
  repeat match goal with x := _ |- _ => subst x end; cbv beta in *;
  match goal with H : forall t', _ -> wp _ _ t' |- _ => apply H end;
  (split; [unfold in_tag, cur, src in *; simpl_t; split_and!; solve [done | congruence | lia] | simpl_t; congruence]).

Lemma tag_open_bang t :
  in_markup ts GUMBO_LEX_TAG_OPEN (33 :: cs) (text_of "<") t -> Forall plain (33 :: cs) ->
  next GUMBO_LEX_MARKUP_DECLARATION [] -> wp (lex_loop scan_named junk_pos (S fuel)) Q t.
Proof.
  intros [Hin Htmp]. revert Hin. open_tag. intros H.
  run_tag GUMBO_LEX_TAG_OPEN 33 cs fuel handle_tag_open_state. repeat wp_step; try done.
  { unfold temporary_buffer_equals; by apply bool_decide_true. }
  unfold utf8iterator_mark. next_comment.
Qed.

Lemma markup_dashes t :
  in_markup ts GUMBO_LEX_MARKUP_DECLARATION (45 :: 45 :: cs) buf t -> Forall plain (45 :: 45 :: cs) ->
  next GUMBO_LEX_COMMENT_START buf -> wp (lex_loop scan_named junk_pos (S fuel)) Q t.
Proof.
  intros [Hin Htmp]. revert Hin. open_tag. intros H. apply Forall_cons_1 in HF' as [_ HF'].
  apply (loop_reconsume fuel GUMBO_LEX_MARKUP_DECLARATION 45); try done. cbn [dispatch_table]. unfold handle_markup_declaration_state.
  wp_step. apply (wp_match_dashes cs); try done. intros it Hon' Hs' Hst'. cbv iota. repeat wp_step. split_and!; try done.
  apply H. split; [|done]. unfold in_tag, cur, src in *. simpl_t. split_and!; solve [done | congruence | lia].
Qed.

Lemma comment_start_char c t :
  in_markup ts GUMBO_LEX_COMMENT_START (c :: cs) buf t -> Forall plain (c :: cs) -> comment_char c -> c <> 62 ->
  next GUMBO_LEX_COMMENT (buf ++ codepoint_bytes c) -> wp (lex_loop scan_named junk_pos (S fuel)) Q t.
Proof.
  intros [Hin Htmp]. revert Hin. open_tag. intros [H1 H2] H3 H. pose proof (plain_nonneg c Hp).
  run_tag GUMBO_LEX_COMMENT_START c cs fuel handle_comment_start_state. repeat wp_step. next_comment.
Qed.

Lemma comment_more c t :
  in_markup ts GUMBO_LEX_COMMENT (c :: cs) buf t -> Forall plain (c :: cs) -> comment_char c ->
  next GUMBO_LEX_COMMENT (buf ++ codepoint_bytes c) -> wp (lex_loop scan_named junk_pos (S fuel)) Q t.
Proof.
  intros [Hin Htmp]. revert Hin. open_tag. intros [H1 H2] H. pose proof (plain_nonneg c Hp).
  run_tag GUMBO_LEX_COMMENT c cs fuel handle_comment_state. repeat wp_step. next_comment.
Qed.

Lemma comment_dash s s' t :
  in_markup ts s (45 :: cs) buf t -> Forall plain (45 :: cs) -> after_dash s = Some s' ->
  next s' buf -> wp (lex_loop scan_named junk_pos (S fuel)) Q t.
Proof.
  intros [Hin Htmp]. revert Hin. open_tag. intros Hd H. destruct s; try done; injection Hd as <-.
  - run_tag GUMBO_LEX_COMMENT_START 45 cs fuel handle_comment_start_state. repeat wp_step. next_comment.
  - run_tag GUMBO_LEX_COMMENT_START_DASH 45 cs fuel handle_comment_start_dash_state. repeat wp_step. next_comment.
  - run_tag GUMBO_LEX_COMMENT 45 cs fuel handle_comment_state. repeat wp_step. next_comment.
  - run_tag GUMBO_LEX_COMMENT_END_DASH 45 cs fuel handle_comment_end_dash_state. repeat wp_step. next_comment.
Qed.

Lemma comment_close t :
  in_markup ts GUMBO_LEX_COMMENT_END (62 :: cs) buf t -> Forall plain (62 :: cs) ->
  wp (lex_loop scan_named junk_pos (S fuel)) (emits GUMBO_TOKEN_COMMENT (eq (VText buf)) ts cs) t.
Proof.
  intros [Hin Htmp]. revert Hin. open_tag.
  apply (loop_return fuel GUMBO_LEX_COMMENT_END 62); try done. cbn [dispatch_table]. unfold handle_comment_end_state. decide_branch.
  wp_step. wp_step. unfold emit_comment, finish_temporary_buffer, set_token. wp_step. wp_step. wp_step. wp_step.
  apply wp_clear_temporary_buffer; [done|]. wp_step. wp_step. wp_step. wp_step.
  apply wp_finish_token; [done|unfold cur, utf8iterator_mark in *; simpl_t; lia|]. intros it len Hpast Hl. apply wp_ret. exists true. split; [done|].
  destruct (past_on _ _ _ _ Hpast Hr Hon HF') as (Hon' & Hs' & Hst'). unfold cur, src, utf8iterator_mark in *. simpl_t.
  rewrite Hst', Hsrc, Hts in Hl.
  assert (Hlen := on_token_length (_input t) 62 cs ts len Hon Hp Hsrc ltac:(lia) Hl).
  split; [by eexists|]. unfold emitted, idle, cur, src, no_tag in *. simpl_t. split_and!; try done; try congruence.
Qed.
End comments.

Lemma lex_comment_text text ts fuel cs buf Q t :
  in_markup ts GUMBO_LEX_COMMENT (text ++ cs) buf t -> Forall plain (text ++ cs) -> Forall comment_char text ->
  (forall t', in_markup ts GUMBO_LEX_COMMENT cs (buf ++ encode text) t' -> wp (lex_loop scan_named junk_pos fuel) Q t') ->
  wp (lex_loop scan_named junk_pos (length text + fuel)) Q t.
Proof.
  revert buf t; induction text as [|c text IH]; intros buf t Hin HF Hok H; cbn [length Nat.add app] in *.
  - apply H. unfold encode. cbn. by rewrite app_nil_r.
  - apply Forall_cons_1 in Hok as [Hc Hok]. eapply comment_more; [exact Hin|exact HF|exact Hc|].
    intros t' Hin'. apply Forall_cons_1 in HF as [_ HF]. eapply IH; [exact Hin'|exact HF|exact Hok|].
    intros t2 Hin2. apply H. by rewrite encode_cons, app_assoc.
Qed.

(** [-->] *)
Lemma lex_comment_end s s' ts fuel cs buf t :
  in_markup ts s (45 :: 45 :: 62 :: cs) buf t -> Forall plain (45 :: 45 :: 62 :: cs) ->
  after_dash s = Some s' -> after_dash s' = Some GUMBO_LEX_COMMENT_END ->
  wp (lex_loop scan_named junk_pos (S (S (S fuel)))) (emits GUMBO_TOKEN_COMMENT (eq (VText buf)) ts cs) t.
Proof.
  intros Hin HF H1 H2. eapply comment_dash; [exact Hin|exact HF|exact H1|]. clear t Hin. intros t Hin.
  apply Forall_cons_1 in HF as [_ HF]. eapply comment_dash; [exact Hin|exact HF|exact H2|]. clear t Hin. intros t Hin.
  apply Forall_cons_1 in HF as [_ HF]. by apply comment_close.
Qed.

(** * Pieces of a document *)
Inductive piece :=
| PChar (c : Z)
| PStart (name : list Z) (attrs : list (list Z * list Z))
| PEnd (name : list Z)
| PComment (text : list Z).

Definition print (p : piece) : list Z :=
  match p with
  | PChar c => [c]
  | PStart name attrs => 60 :: name ++ print_attrs attrs ++ [62]
  | PEnd name => 60 :: 47 :: name ++ [62]
  | PComment text => [60; 33; 45; 45] ++ text ++ [45; 45; 62]
  end.

Definition tag_name_ok (name : list Z) : Prop :=
  match name with [] => False | c :: name => letter c /\ Forall name_char name end.

Definition piece_ok (p : piece) : Prop :=
  Forall plain (print p) /\
  match p with
  | PChar c => c <> #"&" /\ c <> #"<"
  | PStart name attrs => tag_name_ok name /\ Forall attr_ok attrs /\ NoDup (map fst (map encode_attr attrs))
  | PEnd name => tag_name_ok name
  | PComment text => Forall comment_char text /\ head text <> Some 62
  end.

(** The type and the value of the token of a piece. *)
Definition piece_type (p : piece) : GumboTokenType :=
  match p with
  | PChar c => get_char_token_type false c
  | PStart _ _ => GUMBO_TOKEN_START_TAG
  | PEnd _ => GUMBO_TOKEN_END_TAG
  | PComment _ => GUMBO_TOKEN_COMMENT
  end.

Definition piece_value (p : piece) (v : token_value) : Prop :=
  match p with
  | PChar c => v = VCharacter c
  | PStart name attrs => exists tg l, Tags.gumbo_tag_enum (encode name) = Ok tg /\
      v = VStartTag (StartTag tg (Some l) false) /\ map nv l = map encode_attr attrs
  | PEnd name => exists tg, Tags.gumbo_tag_enum (encode name) = Ok tg /\ v = VEndTag tg
  | PComment text => v = VText (encode text)
  end.

Lemma emits_mono ty (v v' : token_value -> Prop) from cs r t :
  (forall x, v x -> v' x) -> emits ty v from cs r t -> emits ty v' from cs r t.
Proof. intros Hv (H1 & H2 & H3 & H4 & H5). split_and!; try done. by apply Hv. Qed.

Lemma encode_bytes cs : Forall is_u8 (encode cs).
Proof.
  unfold encode. induction cs as [|c cs IH]; [constructor|]. cbn [map concat]. apply Forall_app.
  split; [apply codepoint_bytes_bytes|done].
Qed.

Lemma tag_enum_total name : exists tg, Tags.gumbo_tag_enum (encode name) = Ok tg.
Proof. destruct (Tags.gumbo_tag_enum_sound _ (encode_bytes name)) as (tg & ? & _). eauto. Qed.

Lemma lex_start name attrs cs fuel t :
  idle bytes (print (PStart name attrs) ++ cs) t -> piece_ok (PStart name attrs) -> Forall plain cs ->
  wp (lex_loop scan_named junk_pos (length (print (PStart name attrs)) + fuel))
    (emits GUMBO_TOKEN_START_TAG (piece_value (PStart name attrs)) (cur t) cs) t.
Proof.
  intros Hidle (HP & Hname & Hattrs & Hnd) HF. destruct name as [|c name]; [done|]. destruct Hname as [Hc Hname].
  destruct (tag_enum_total (c :: name)) as [tg Htg].
  assert (Hv : forall v, tag_value true tg (map encode_attr attrs) v -> piece_value (PStart (c :: name) attrs) v).
  { intros v (l & -> & Hl). by exists tg, l. }
  cbn [print] in *. assert (HA : Forall plain ((60 :: (c :: name) ++ print_attrs attrs ++ [62]) ++ cs)) by (by apply Forall_app).
  clear HP HF. cbn [app length Nat.add] in *. rewrite <- !app_assoc in Hidle, HA. cbn [app] in Hidle, HA.
  eapply lex_lt; [exact Hidle|exact HA|]. generalize (cur t) as ts. clear t Hidle. intros ts t Hin.
  apply Forall_cons_1 in HA as [_ HA]. eapply tag_open_letter; [exact Hin|exact HA|exact Hc|]. clear t Hin. intros tg0 t Hin.
  apply Forall_cons_1 in HA as [_ HA]. rewrite !length_app. cbn [length]. rewrite <- !Nat.add_assoc.
  eapply (read_chars true ts tg0 _ [] GUMBO_LEX_TAG_NAME name_char); [intros *; apply tag_name_char|exact Hin|exact HA|exact Hname|].
  clear t Hin. intros t Hin. rewrite <- encode_cons in Hin. apply Forall_app in HA as [_ HA].
  destruct attrs as [|[n v] attrs].
  - cbn [print_attrs map concat length Nat.add app] in *. eapply wp_mono; [intros r t' He; eapply emits_mono; [exact Hv|exact He]|].
    exact (tag_name_close _ ts cs true _ tg0 tg [] t Hin HA Htg).
  - apply Forall_cons_1 in Hattrs as [(Hne & Hn & Hval) Hattrs]. cbn [fst snd] in Hne, Hn, Hval.
    rewrite print_attrs_app in Hin, HA. rewrite print_attrs_length.
    replace (_ + (1 + fuel))%nat with (S (length n + (2 + (length v + S (length (print_attrs attrs) + S fuel)))))%nat by lia.
    eapply tag_name_space; [exact Hin|exact HA|exact Htg|]. clear t Hin. intros t Hin. apply Forall_cons_1 in HA as [_ HA].
    eapply lex_attr; [exact Hin|exact HA|exact Hne|exact Hn|exact Hval|apply not_elem_of_nil|]. clear t Hin. intros t Hin.
    apply Forall_app in HA as [_ HA]. do 2 apply Forall_cons_1 in HA as [_ HA]. apply Forall_app in HA as [_ HA].
    apply Forall_cons_1 in HA as [_ HA].
    apply (lex_attrs true ts tg _ attrs [] (encode n) (encode v) fuel cs t Hin HA Hattrs Hnd).
    intros r t' He. eapply emits_mono; [exact Hv|exact He].
Qed.

Lemma lex_end name cs fuel t :
  idle bytes (print (PEnd name) ++ cs) t -> piece_ok (PEnd name) -> Forall plain cs ->
  wp (lex_loop scan_named junk_pos (length (print (PEnd name)) + fuel))
    (emits GUMBO_TOKEN_END_TAG (piece_value (PEnd name)) (cur t) cs) t.
Proof.
  intros Hidle (HP & Hname) HF. destruct name as [|c name]; [done|]. destruct Hname as [Hc Hname].
  destruct (tag_enum_total (c :: name)) as [tg Htg].
  cbn [print] in *. assert (HA : Forall plain ((60 :: 47 :: (c :: name) ++ [62]) ++ cs)) by (by apply Forall_app).
  clear HP HF. cbn [app length Nat.add] in *. rewrite <- !app_assoc in Hidle, HA. cbn [app] in Hidle, HA.
  eapply lex_lt; [exact Hidle|exact HA|]. generalize (cur t) as ts. clear t Hidle. intros ts t Hin.
  apply Forall_cons_1 in HA as [_ HA]. eapply tag_open_slash; [exact Hin|exact HA|]. clear t Hin. intros t Hin.
  apply Forall_cons_1 in HA as [_ HA]. eapply end_tag_open_letter; [exact Hin|exact HA|exact Hc|]. clear t Hin. intros tg0 t Hin.
  apply Forall_cons_1 in HA as [_ HA]. rewrite !length_app. cbn [length]. rewrite <- !Nat.add_assoc.
  eapply (read_chars false ts tg0 _ [] GUMBO_LEX_TAG_NAME name_char); [intros *; apply tag_name_char|exact Hin|exact HA|exact Hname|].
  clear t Hin. intros t Hin. rewrite <- encode_cons in Hin. apply Forall_app in HA as [_ HA].
  eapply wp_mono; [intros r t' He; eapply emits_mono; [|exact He]|exact (tag_name_close _ ts cs false _ tg0 tg [] t Hin HA Htg)].
  intros v ->. by exists tg.
Qed.

Lemma lex_comment text cs fuel t :
  idle bytes (print (PComment text) ++ cs) t -> piece_ok (PComment text) -> Forall plain cs ->
  wp (lex_loop scan_named junk_pos (length (print (PComment text)) + fuel))
    (emits GUMBO_TOKEN_COMMENT (piece_value (PComment text)) (cur t) cs) t.
Proof.
  intros Hidle (HP & Htext & Hhead) HF. cbn [print] in *.
  assert (HA : Forall plain (([60; 33; 45; 45] ++ text ++ [45; 45; 62]) ++ cs)) by (by apply Forall_app).
  clear HP HF. rewrite <- !app_assoc in Hidle, HA. cbn [app] in Hidle, HA.
  assert (Hsym : forall x, VText (encode text) = x -> piece_value (PComment text) x) by (by intros x <-).
  replace (length _ + fuel)%nat with (S (S (S (length text + S (S (S (S fuel))))))) by (cbn [length app]; rewrite length_app; cbn [length]; lia).
  eapply lex_lt; [exact Hidle|exact HA|]. generalize (cur t) as ts. clear t Hidle. intros ts t Hin.
  apply Forall_cons_1 in HA as [_ HA]. eapply tag_open_bang; [exact Hin|exact HA|]. clear t Hin. intros t Hin.
  apply Forall_cons_1 in HA as [_ HA]. eapply markup_dashes; [exact Hin|exact HA|]. clear t Hin. intros t Hin.
  do 2 apply Forall_cons_1 in HA as [_ HA]. destruct text as [|c text].
  - cbn [length Nat.add app] in *. eapply wp_mono; [intros r t' He; eapply emits_mono; [exact Hsym|exact He]|].
    by apply (lex_comment_end GUMBO_LEX_COMMENT_START GUMBO_LEX_COMMENT_START_DASH).
  - apply Forall_cons_1 in Htext as [Hc Htext]. cbn [length Nat.add app head] in *.
    eapply comment_start_char; [exact Hin|exact HA|exact Hc|congruence|]. clear t Hin. intros t Hin.
    apply Forall_cons_1 in HA as [_ HA]. eapply lex_comment_text; [exact Hin|exact HA|exact Htext|]. clear t Hin. intros t Hin.
    rewrite app_nil_l, <- encode_cons in Hin. apply Forall_app in HA as [_ HA].
    eapply wp_mono; [intros r t' He; eapply emits_mono; [exact Hsym|exact He]|].
    by apply (lex_comment_end GUMBO_LEX_COMMENT GUMBO_LEX_COMMENT_END_DASH).
Qed.

Lemma lex_piece p cs fuel t :
  idle bytes (print p ++ cs) t -> piece_ok p -> Forall plain cs ->
  wp (lex_loop scan_named junk_pos (length (print p) + fuel)) (emits (piece_type p) (piece_value p) (cur t) cs) t.
Proof.
  destruct p as [c|name attrs|name|text]; [|apply lex_start|apply lex_end|apply lex_comment].
  intros Hidle (HP & H1 & H2) HF. eapply wp_mono; [intros r t' He; eapply emits_mono; [|exact He]|].
  2: { apply lex_char; [exact Hidle|by apply (Forall_app_2 _ [c])|done|done]. }
  by intros v <-.
Qed.

(** * Documents *)
Lemma length_encode cs : (length cs <= length (encode cs))%nat.
Proof.
  induction cs as [|c cs IH]; [done|]. rewrite encode_cons, length_app. pose proof (codepoint_bytes_pos c). cbn [length]. lia.
Qed.

Lemma idle_fuel cs t : idle bytes cs t -> (length cs < lex_fuel t)%nat.
Proof.
  intros (_ & _ & _ & _ & _ & _ & (_ & _ & Hd & _) & _). unfold lex_fuel, src. pose proof (length_encode cs).
  apply (f_equal length) in Hd. rewrite length_drop in Hd. lia.
Qed.

(** The token [k] is that of the piece [p]. *)
Definition token_of (p : piece) (k : GumboToken) : Prop := ttype k = piece_type p /\ piece_value p (tv k).

Definition doc (ps : list piece) : list Z := concat (map print ps).

(** The pieces of the text from [off] on. *)
Fixpoint texts (off : nat) (ps : list piece) : list GumboStringPiece :=
  match ps with
  | [] => []
  | p :: ps =>
      let len := length (encode (print p)) in Piece off (Z.of_nat len) :: texts (off + len) ps
  end.

Lemma idle_cur cs ds t t' :
  idle bytes (cs ++ ds) t -> idle bytes ds t' -> cur t' = (cur t + length (encode cs))%nat.
Proof.
  intros (_ & _ & _ & _ & _ & _ & (_ & _ & Hd & Hle & _) & Hs & _) (_ & _ & _ & _ & _ & _ & (_ & _ & Hd' & Hle' & _) & Hs' & _).
  unfold cur, src in *. apply (f_equal length) in Hd, Hd'. rewrite encode_app, length_app, length_drop in Hd.
  rewrite length_drop in Hd'. rewrite Hs in *. rewrite Hs' in *. lia.
Qed.

Lemma doc_plain ps : Forall piece_ok ps -> Forall plain (doc ps).
Proof.
  unfold doc. induction 1 as [|q qs [Hq _] Hqs IHq]; [constructor|]. cbn [map concat]. by apply Forall_app.
Qed.

Lemma lex_doc ps t :
  idle bytes (doc ps) t -> Forall piece_ok ps ->
  exists toks eof, lex_all scan_named junk_pos (length ps + 1) t = Ok (Some (toks ++ [eof])) /\
    Forall2 token_of ps toks /\ map toriginal_text toks = texts (cur t) ps /\ ttype eof = GUMBO_TOKEN_EOF.
Proof.
  revert t; induction ps as [|p ps IH]; intros t Hidle Hok; cbn [length Nat.add lex_all].
  - pose proof (idle_fuel _ _ Hidle) as Hf. destruct (lex_fuel t) as [|f] eqn:Ef; [lia|].
    pose proof (gumbo_lex_idle _ _ _ _ Hidle (lex_eof f t Hidle)) as H. unfold wp in H.
    destruct (gumbo_lex _ _ _ t) as [[t' r]| |]; [|done..]. destruct H as [[b ->] He]. rewrite bind_Ok.
    rewrite bool_decide_true by done. by exists [], (_output t').
  - apply Forall_cons_1 in Hok as [Hp Hok]. assert (HF : Forall plain (doc ps)).
    { by apply doc_plain. }
    pose proof (idle_fuel _ _ Hidle) as Hf. unfold doc in Hidle, Hf. cbn [map concat] in Hidle, Hf. fold (doc ps) in Hidle, Hf.
    rewrite length_app in Hf. pose proof (lex_piece p (doc ps) (lex_fuel t - length (print p)) t Hidle Hp HF) as H.
    replace (length (print p) + (lex_fuel t - length (print p)))%nat with (lex_fuel t) in H by lia.
    pose proof (gumbo_lex_idle _ _ _ _ Hidle H) as H'. unfold wp in H'.
    destruct (gumbo_lex _ _ _ t) as [[t' r]| |]; [|done..]. destruct H' as ([b ->] & Hidle' & Hty & Hv & Htext). rewrite bind_Ok.
    pose proof (idle_cur _ _ _ _ Hidle Hidle') as Hcur.
    rewrite bool_decide_false.
    + destruct (IH t' Hidle' Hok) as (toks & eof & -> & HF2 & Htexts & He). exists (_output t' :: toks), eof.
      split_and!; try done; [by constructor|]. cbn [map texts]. rewrite Htext, Htexts, Hcur. do 2 f_equal. lia.
    + rewrite Hty. destruct p as [c| | |]; try done. destruct Hp as [Hpl _]. apply Forall_inv, plain_nonneg in Hpl.
      unfold piece_type, get_char_token_type. cbn [andb]. repeat case_match; try done; lia.
Qed.
End lex.

Lemma init_idle old cs maxe tabs :
  Forall plain cs -> tabs <> 0 ->
  exists t, gumbo_tokenizer_state_init old (encode cs) maxe tabs = Ok t /\ idle (encode cs) cs t /\ cur t = 0%nat.
Proof.
  intros HF Ht. unfold gumbo_tokenizer_state_init, utf8iterator_init. set (it0 := Iter _ 0 _ 0 0 _ _ [] maxe tabs).
  destruct (read_on it0 cs) as (it & -> & Hon & Hs & Hst & _); try done; [apply encode_bytes|cbn; lia|].
  rewrite bind_Ok. eexists. split; [done|]. unfold idle, cur, src, no_tag. simpl_t. split_and!; try done.
Qed.

(** C7: lexing a printed document gives its tokens back: characters, start tags with
    their attributes, end tags and comments, in order, each with the piece of the
    text that it was read from, and then the end of the input. *)
Theorem lex_print_roundtrip scan_named (junk_pos : GumboSourcePosition) (old : GumboTokenizerState)
  (ps : list piece) (maxe tabs : Z) (Hok : Forall piece_ok ps) (Htab : tabs <> 0)
  (Hsz : Z.of_nat (length (encode (doc ps))) < 2 ^ 64) :
  exists t0 toks eof, gumbo_tokenizer_state_init old (encode (doc ps)) maxe tabs = Ok t0 /\
    lex_all scan_named junk_pos (length ps + 1) t0 = Ok (Some (toks ++ [eof])) /\
    Forall2 token_of ps toks /\ map toriginal_text toks = texts 0 ps /\ ttype eof = GUMBO_TOKEN_EOF.
Proof.
  destruct (init_idle old (doc ps) maxe tabs (doc_plain ps Hok) Htab) as (t0 & E & Hidle & Hcur).
  destruct (lex_doc scan_named junk_pos (encode (doc ps)) Hsz ps t0 Hidle Hok) as (toks & eof & H1 & H2 & H3 & H4).
  rewrite Hcur in H3. exists t0, toks, eof. done.
Qed.

(** A paragraph with two attributes, an accented letter and a comment. *)
Definition sample_doc : list piece :=
  [PStart (text_of "p") [(text_of "id", text_of "a"); (text_of "title", text_of "x < y")];
   PChar 0xE9; PEnd (text_of "p"); PComment (text_of " z ")].

Lemma lex_print_roundtrip_witness :
  exists t0 toks eof, gumbo_tokenizer_state_init blank (encode (doc sample_doc)) (-1) 8 = Ok t0 /\
    lex_all scan_amp (Pos 0 0 0) 5 t0 = Ok (Some (toks ++ [eof])) /\
    Forall2 token_of sample_doc toks /\ map toriginal_text toks = texts 0 sample_doc /\ ttype eof = GUMBO_TOKEN_EOF.
Proof.
  apply (lex_print_roundtrip scan_amp (Pos 0 0 0) blank sample_doc (-1) 8); [|done|vm_compute; reflexivity].
  repeat constructor; cbn; try by_decide.
Defined.

End LexerSpec.
