(* ===== verification/GumboParser.v ===== *)
(** gumbo-parser/src/parser.c: the tree builder of the HTML parser, its data and its
    operations on the tree and on the stack of open elements.  GumboModes.v has the
    insertion modes and the main loop.

    Nodes are objects of a heap; the address 0 is the static marker of the list of
    formatting elements, a pointer is [None] when it is NULL, a node that has been
    destroyed is no longer an object.  Vectors and string buffers are represented by
    what they hold (GumboBase.v shows that they do); their lengths stay below 2^31,
    so that the conversions between [int], [unsigned int] and [size_t] keep them.  The
    index -1 of a node without parent is the largest [size_t].  The tokenizer with its
    list of errors is part of the state; the token that the handlers are given is the
    one the tokenizer fills.  The output of [gumbo_debug] is left out. *)
From Stdlib Require Import Strings.String Strings.Ascii.
From S2P Require Import Prelude GumboTags GumboBase Utf8 CharRef GumboLexer.
Import Tags GumboBase Utf8 CharRef Lexer.

Module Parser.



(** * gumbo.h *)
Notation ptr := (option nat).

Inductive GumboNodeType :=
| GUMBO_NODE_DOCUMENT | GUMBO_NODE_ELEMENT | GUMBO_NODE_TEXT | GUMBO_NODE_CDATA
| GUMBO_NODE_COMMENT | GUMBO_NODE_WHITESPACE | GUMBO_NODE_TEMPLATE.
#[export] Instance GumboNodeType_eq_dec : EqDecision GumboNodeType.
Proof. solve_decision. Defined.

Inductive GumboQuirksModeEnum := GUMBO_DOCTYPE_NO_QUIRKS | GUMBO_DOCTYPE_QUIRKS | GUMBO_DOCTYPE_LIMITED_QUIRKS.
#[export] Instance GumboQuirksModeEnum_eq_dec : EqDecision GumboQuirksModeEnum.
Proof. solve_decision. Defined.

Inductive GumboNamespaceEnum := GUMBO_NAMESPACE_HTML | GUMBO_NAMESPACE_SVG | GUMBO_NAMESPACE_MATHML.
#[export] Instance GumboNamespaceEnum_eq_dec : EqDecision GumboNamespaceEnum.
Proof. solve_decision. Defined.

(** [GumboParseFlags] *)
Definition GUMBO_INSERTION_NORMAL : Z := 0.
Definition GUMBO_INSERTION_BY_PARSER : Z := Z.shiftl 1 0.
Definition GUMBO_INSERTION_IMPLICIT_END_TAG : Z := Z.shiftl 1 1.
Definition GUMBO_INSERTION_IMPLIED : Z := Z.shiftl 1 3.
Definition GUMBO_INSERTION_CONVERTED_FROM_END_TAG : Z := Z.shiftl 1 4.
Definition GUMBO_INSERTION_FROM_ISINDEX : Z := Z.shiftl 1 5.
Definition GUMBO_INSERTION_FROM_IMAGE : Z := Z.shiftl 1 6.
Definition GUMBO_INSERTION_RECONSTRUCTED_FORMATTING_ELEMENT : Z := Z.shiftl 1 7.
Definition GUMBO_INSERTION_ADOPTION_AGENCY_CLONED : Z := Z.shiftl 1 8.
Definition GUMBO_INSERTION_ADOPTION_AGENCY_MOVED : Z := Z.shiftl 1 9.

Record GumboDocument := Document {
  doc_children : list nat; has_doctype : bool; doc_name : option (list Z);
  doc_public_identifier : option (list Z); doc_system_identifier : option (list Z);
  doc_type_quirks_mode : GumboQuirksModeEnum
}.

Record GumboText := Text { text : list Z; tx_original_text : GumboStringPiece; tx_start_pos : GumboSourcePosition }.

(** The piece [kGumboEmptyString] is [None]. *)
Record GumboElement := Element {
  el_children : list nat; el_tag : GumboTag; tag_namespace : GumboNamespaceEnum;
  original_tag : option GumboStringPiece; original_end_tag : option GumboStringPiece;
  el_start_pos : GumboSourcePosition; el_end_pos : GumboSourcePosition; el_attributes : list Lexer.GumboAttribute
}.

(** The member of the union that was set. *)
Inductive node_value :=
| VDocument (d : GumboDocument)
| VElement (e : GumboElement)
| VTextNode (t : GumboText).

Record GumboNode := Node {
  n_type : GumboNodeType; parent : ptr; index_within_parent : Z; parse_flags : Z; n_v : node_value
}.

Definition set_parent (p : ptr) (n : GumboNode) : GumboNode :=
  Node (n_type n) p (index_within_parent n) (parse_flags n) (n_v n).
Definition set_index (i : Z) (n : GumboNode) : GumboNode := Node (n_type n) (parent n) i (parse_flags n) (n_v n).
Definition set_flags (f : Z) (n : GumboNode) : GumboNode := Node (n_type n) (parent n) (index_within_parent n) f (n_v n).
Definition set_v (v : node_value) (n : GumboNode) : GumboNode :=
  Node (n_type n) (parent n) (index_within_parent n) (parse_flags n) v.

Definition set_children (l : list nat) (e : GumboElement) : GumboElement :=
  Element l (el_tag e) (tag_namespace e) (original_tag e) (original_end_tag e) (el_start_pos e) (el_end_pos e) (el_attributes e).
Definition set_el_tag (t : GumboTag) (e : GumboElement) : GumboElement :=
  Element (el_children e) t (tag_namespace e) (original_tag e) (original_end_tag e) (el_start_pos e) (el_end_pos e) (el_attributes e).
Definition set_namespace (ns : GumboNamespaceEnum) (e : GumboElement) : GumboElement :=
  Element (el_children e) (el_tag e) ns (original_tag e) (original_end_tag e) (el_start_pos e) (el_end_pos e) (el_attributes e).
Definition set_end (pos : GumboSourcePosition) (tag : option GumboStringPiece) (e : GumboElement) : GumboElement :=
  Element (el_children e) (el_tag e) (tag_namespace e) (original_tag e) tag (el_start_pos e) pos (el_attributes e).
Definition set_el_attributes (l : list Lexer.GumboAttribute) (e : GumboElement) : GumboElement :=
  Element (el_children e) (el_tag e) (tag_namespace e) (original_tag e) (original_end_tag e) (el_start_pos e) (el_end_pos e) l.

Definition kGumboEmptySourcePosition : GumboSourcePosition := Pos 0 0 0.

(** * The state *)
Record TextNodeBufferState := TextBuffer {
  tn_buffer : list Z; _start_original_text : nat; _start_position : GumboSourcePosition; tn_type : GumboNodeType
}.

(** [GumboParserState] with the heap, the output and the tokenizer; [_current_token]
    says whether the token has been set. *)
Record GumboParser := Parser {
  heap : list (option GumboNode);
  document : nat;
  root : ptr;
  tokenizer_state : GumboTokenizerState;
  _insertion_mode : GumboInsertionMode;
  _original_insertion_mode : GumboInsertionMode;
  _open_elements : list nat;
  _active_formatting_elements : list nat;
  _template_insertion_modes : list GumboInsertionMode;
  _head_element : ptr;
  _form_element : ptr;
  _fragment_ctx : ptr;
  _reprocess_current_token : bool;
  _self_closing_flag_acknowledged : bool;
  _frameset_ok : bool;
  _ignore_next_linefeed : bool;
  _foster_parent_insertions : bool;
  _text_node : TextNodeBufferState;
  _current_token : bool;
  _closed_body_tag : bool;
  _closed_html_tag : bool
}.

Definition set_heap (x : list (option GumboNode)) (s : GumboParser) : GumboParser :=
  Parser x (document s) (root s) (tokenizer_state s) (_insertion_mode s) (_original_insertion_mode s) (_open_elements s) (_active_formatting_elements s) (_template_insertion_modes s) (_head_element s) (_form_element s) (_fragment_ctx s) (_reprocess_current_token s) (_self_closing_flag_acknowledged s) (_frameset_ok s) (_ignore_next_linefeed s) (_foster_parent_insertions s) (_text_node s) (_current_token s) (_closed_body_tag s) (_closed_html_tag s).
Definition set_document (x : nat) (s : GumboParser) : GumboParser :=
  Parser (heap s) x (root s) (tokenizer_state s) (_insertion_mode s) (_original_insertion_mode s) (_open_elements s) (_active_formatting_elements s) (_template_insertion_modes s) (_head_element s) (_form_element s) (_fragment_ctx s) (_reprocess_current_token s) (_self_closing_flag_acknowledged s) (_frameset_ok s) (_ignore_next_linefeed s) (_foster_parent_insertions s) (_text_node s) (_current_token s) (_closed_body_tag s) (_closed_html_tag s).
Definition set_root (x : ptr) (s : GumboParser) : GumboParser :=
  Parser (heap s) (document s) x (tokenizer_state s) (_insertion_mode s) (_original_insertion_mode s) (_open_elements s) (_active_formatting_elements s) (_template_insertion_modes s) (_head_element s) (_form_element s) (_fragment_ctx s) (_reprocess_current_token s) (_self_closing_flag_acknowledged s) (_frameset_ok s) (_ignore_next_linefeed s) (_foster_parent_insertions s) (_text_node s) (_current_token s) (_closed_body_tag s) (_closed_html_tag s).
Definition set_tokenizer_state (x : GumboTokenizerState) (s : GumboParser) : GumboParser :=
  Parser (heap s) (document s) (root s) x (_insertion_mode s) (_original_insertion_mode s) (_open_elements s) (_active_formatting_elements s) (_template_insertion_modes s) (_head_element s) (_form_element s) (_fragment_ctx s) (_reprocess_current_token s) (_self_closing_flag_acknowledged s) (_frameset_ok s) (_ignore_next_linefeed s) (_foster_parent_insertions s) (_text_node s) (_current_token s) (_closed_body_tag s) (_closed_html_tag s).
Definition set_insertion_mode_ (x : GumboInsertionMode) (s : GumboParser) : GumboParser :=
  Parser (heap s) (document s) (root s) (tokenizer_state s) x (_original_insertion_mode s) (_open_elements s) (_active_formatting_elements s) (_template_insertion_modes s) (_head_element s) (_form_element s) (_fragment_ctx s) (_reprocess_current_token s) (_self_closing_flag_acknowledged s) (_frameset_ok s) (_ignore_next_linefeed s) (_foster_parent_insertions s) (_text_node s) (_current_token s) (_closed_body_tag s) (_closed_html_tag s).
Definition set_original_insertion_mode (x : GumboInsertionMode) (s : GumboParser) : GumboParser :=
  Parser (heap s) (document s) (root s) (tokenizer_state s) (_insertion_mode s) x (_open_elements s) (_active_formatting_elements s) (_template_insertion_modes s) (_head_element s) (_form_element s) (_fragment_ctx s) (_reprocess_current_token s) (_self_closing_flag_acknowledged s) (_frameset_ok s) (_ignore_next_linefeed s) (_foster_parent_insertions s) (_text_node s) (_current_token s) (_closed_body_tag s) (_closed_html_tag s).
Definition set_open_elements (x : list nat) (s : GumboParser) : GumboParser :=
  Parser (heap s) (document s) (root s) (tokenizer_state s) (_insertion_mode s) (_original_insertion_mode s) x (_active_formatting_elements s) (_template_insertion_modes s) (_head_element s) (_form_element s) (_fragment_ctx s) (_reprocess_current_token s) (_self_closing_flag_acknowledged s) (_frameset_ok s) (_ignore_next_linefeed s) (_foster_parent_insertions s) (_text_node s) (_current_token s) (_closed_body_tag s) (_closed_html_tag s).
Definition set_active_formatting_elements (x : list nat) (s : GumboParser) : GumboParser :=
  Parser (heap s) (document s) (root s) (tokenizer_state s) (_insertion_mode s) (_original_insertion_mode s) (_open_elements s) x (_template_insertion_modes s) (_head_element s) (_form_element s) (_fragment_ctx s) (_reprocess_current_token s) (_self_closing_flag_acknowledged s) (_frameset_ok s) (_ignore_next_linefeed s) (_foster_parent_insertions s) (_text_node s) (_current_token s) (_closed_body_tag s) (_closed_html_tag s).
Definition set_template_insertion_modes (x : list GumboInsertionMode) (s : GumboParser) : GumboParser :=
  Parser (heap s) (document s) (root s) (tokenizer_state s) (_insertion_mode s) (_original_insertion_mode s) (_open_elements s) (_active_formatting_elements s) x (_head_element s) (_form_element s) (_fragment_ctx s) (_reprocess_current_token s) (_self_closing_flag_acknowledged s) (_frameset_ok s) (_ignore_next_linefeed s) (_foster_parent_insertions s) (_text_node s) (_current_token s) (_closed_body_tag s) (_closed_html_tag s).
Definition set_head_element (x : ptr) (s : GumboParser) : GumboParser :=
  Parser (heap s) (document s) (root s) (tokenizer_state s) (_insertion_mode s) (_original_insertion_mode s) (_open_elements s) (_active_formatting_elements s) (_template_insertion_modes s) x (_form_element s) (_fragment_ctx s) (_reprocess_current_token s) (_self_closing_flag_acknowledged s) (_frameset_ok s) (_ignore_next_linefeed s) (_foster_parent_insertions s) (_text_node s) (_current_token s) (_closed_body_tag s) (_closed_html_tag s).
Definition set_form_element (x : ptr) (s : GumboParser) : GumboParser :=
  Parser (heap s) (document s) (root s) (tokenizer_state s) (_insertion_mode s) (_original_insertion_mode s) (_open_elements s) (_active_formatting_elements s) (_template_insertion_modes s) (_head_element s) x (_fragment_ctx s) (_reprocess_current_token s) (_self_closing_flag_acknowledged s) (_frameset_ok s) (_ignore_next_linefeed s) (_foster_parent_insertions s) (_text_node s) (_current_token s) (_closed_body_tag s) (_closed_html_tag s).
Definition set_fragment_ctx (x : ptr) (s : GumboParser) : GumboParser :=
  Parser (heap s) (document s) (root s) (tokenizer_state s) (_insertion_mode s) (_original_insertion_mode s) (_open_elements s) (_active_formatting_elements s) (_template_insertion_modes s) (_head_element s) (_form_element s) x (_reprocess_current_token s) (_self_closing_flag_acknowledged s) (_frameset_ok s) (_ignore_next_linefeed s) (_foster_parent_insertions s) (_text_node s) (_current_token s) (_closed_body_tag s) (_closed_html_tag s).
Definition set_reprocess_current_token (x : bool) (s : GumboParser) : GumboParser :=
  Parser (heap s) (document s) (root s) (tokenizer_state s) (_insertion_mode s) (_original_insertion_mode s) (_open_elements s) (_active_formatting_elements s) (_template_insertion_modes s) (_head_element s) (_form_element s) (_fragment_ctx s) x (_self_closing_flag_acknowledged s) (_frameset_ok s) (_ignore_next_linefeed s) (_foster_parent_insertions s) (_text_node s) (_current_token s) (_closed_body_tag s) (_closed_html_tag s).
Definition set_self_closing_flag_acknowledged (x : bool) (s : GumboParser) : GumboParser :=
  Parser (heap s) (document s) (root s) (tokenizer_state s) (_insertion_mode s) (_original_insertion_mode s) (_open_elements s) (_active_formatting_elements s) (_template_insertion_modes s) (_head_element s) (_form_element s) (_fragment_ctx s) (_reprocess_current_token s) x (_frameset_ok s) (_ignore_next_linefeed s) (_foster_parent_insertions s) (_text_node s) (_current_token s) (_closed_body_tag s) (_closed_html_tag s).
Definition set_frameset_ok (x : bool) (s : GumboParser) : GumboParser :=
  Parser (heap s) (document s) (root s) (tokenizer_state s) (_insertion_mode s) (_original_insertion_mode s) (_open_elements s) (_active_formatting_elements s) (_template_insertion_modes s) (_head_element s) (_form_element s) (_fragment_ctx s) (_reprocess_current_token s) (_self_closing_flag_acknowledged s) x (_ignore_next_linefeed s) (_foster_parent_insertions s) (_text_node s) (_current_token s) (_closed_body_tag s) (_closed_html_tag s).
Definition set_ignore_next_linefeed (x : bool) (s : GumboParser) : GumboParser :=
  Parser (heap s) (document s) (root s) (tokenizer_state s) (_insertion_mode s) (_original_insertion_mode s) (_open_elements s) (_active_formatting_elements s) (_template_insertion_modes s) (_head_element s) (_form_element s) (_fragment_ctx s) (_reprocess_current_token s) (_self_closing_flag_acknowledged s) (_frameset_ok s) x (_foster_parent_insertions s) (_text_node s) (_current_token s) (_closed_body_tag s) (_closed_html_tag s).
Definition set_foster_parent_insertions (x : bool) (s : GumboParser) : GumboParser :=
  Parser (heap s) (document s) (root s) (tokenizer_state s) (_insertion_mode s) (_original_insertion_mode s) (_open_elements s) (_active_formatting_elements s) (_template_insertion_modes s) (_head_element s) (_form_element s) (_fragment_ctx s) (_reprocess_current_token s) (_self_closing_flag_acknowledged s) (_frameset_ok s) (_ignore_next_linefeed s) x (_text_node s) (_current_token s) (_closed_body_tag s) (_closed_html_tag s).
Definition set_text_node (x : TextNodeBufferState) (s : GumboParser) : GumboParser :=
  Parser (heap s) (document s) (root s) (tokenizer_state s) (_insertion_mode s) (_original_insertion_mode s) (_open_elements s) (_active_formatting_elements s) (_template_insertion_modes s) (_head_element s) (_form_element s) (_fragment_ctx s) (_reprocess_current_token s) (_self_closing_flag_acknowledged s) (_frameset_ok s) (_ignore_next_linefeed s) (_foster_parent_insertions s) x (_current_token s) (_closed_body_tag s) (_closed_html_tag s).
Definition set_current_token (x : bool) (s : GumboParser) : GumboParser :=
  Parser (heap s) (document s) (root s) (tokenizer_state s) (_insertion_mode s) (_original_insertion_mode s) (_open_elements s) (_active_formatting_elements s) (_template_insertion_modes s) (_head_element s) (_form_element s) (_fragment_ctx s) (_reprocess_current_token s) (_self_closing_flag_acknowledged s) (_frameset_ok s) (_ignore_next_linefeed s) (_foster_parent_insertions s) (_text_node s) x (_closed_body_tag s) (_closed_html_tag s).
Definition set_closed_body_tag (x : bool) (s : GumboParser) : GumboParser :=
  Parser (heap s) (document s) (root s) (tokenizer_state s) (_insertion_mode s) (_original_insertion_mode s) (_open_elements s) (_active_formatting_elements s) (_template_insertion_modes s) (_head_element s) (_form_element s) (_fragment_ctx s) (_reprocess_current_token s) (_self_closing_flag_acknowledged s) (_frameset_ok s) (_ignore_next_linefeed s) (_foster_parent_insertions s) (_text_node s) (_current_token s) x (_closed_html_tag s).
Definition set_closed_html_tag (x : bool) (s : GumboParser) : GumboParser :=
  Parser (heap s) (document s) (root s) (tokenizer_state s) (_insertion_mode s) (_original_insertion_mode s) (_open_elements s) (_active_formatting_elements s) (_template_insertion_modes s) (_head_element s) (_form_element s) (_fragment_ctx s) (_reprocess_current_token s) (_self_closing_flag_acknowledged s) (_frameset_ok s) (_ignore_next_linefeed s) (_foster_parent_insertions s) (_text_node s) (_current_token s) (_closed_body_tag s) x.

(** * The monad *)
Definition parser (A : Type) : Type := GumboParser -> outcome (GumboParser * A).

#[export] Instance parser_ret : MRet parser := fun A a p => Ok (p, a).
#[export] Instance parser_bind : MBind parser := fun A B f m p => '(p', a) ← m p; f a p'.

Definition get {A} (f : GumboParser -> A) : parser A := fun p => Ok (p, f p).
Definition modify (f : GumboParser -> GumboParser) : parser unit := fun p => Ok (f p, tt).
Definition lift {A} (m : outcome A) : parser A := fun p => a ← m; Ok (p, a).
Definition assert (b : bool) : parser unit := lift (c_assert b).
Definition when (b : bool) (m : parser unit) : parser unit := if b then m else mret tt.

(** An operation of the tokenizer. *)
Definition on_tokenizer {A} (m : lexer A) : parser A := fun p =>
  '(t, a) ← m (tokenizer_state p); Ok (set_tokenizer_state t p, a).

(** ** Nodes *)
Definition deref (n : ptr) : parser GumboNode := fun p =>
  n ← of_option n; o ← load (heap p) n; node ← of_option o; Ok (p, node).

Definition modify_node (n : nat) (f : GumboNode -> GumboNode) : parser unit :=
  node ← deref (Some n);
  modify (fun p => set_heap (<[n := Some (f node)]> (heap p)) p).

Definition allocate (node : GumboNode) : parser nat := fun p =>
  Ok (set_heap (heap p ++ [Some node]) p, length (heap p)).

Definition deallocate (n : nat) : parser unit :=
  deref (Some n);; modify (fun p => set_heap (<[n := None]> (heap p)) p).

Definition v_element (node : GumboNode) : outcome GumboElement :=
  match n_v node with VElement e => Ok e | _ => Undef end.
Definition v_document (node : GumboNode) : outcome GumboDocument :=
  match n_v node with VDocument d => Ok d | _ => Undef end.

Definition element (n : ptr) : parser GumboElement := node ← deref n; lift (v_element node).

Definition modify_element (n : nat) (f : GumboElement -> GumboElement) : parser unit :=
  e ← element (Some n); modify_node n (set_v (VElement (f e))).

Definition modify_document (n : nat) (f : GumboDocument -> GumboDocument) : parser unit :=
  node ← deref (Some n); d ← lift (v_document node); modify_node n (set_v (VDocument (f d))).

Definition add_flags (n : nat) (f : Z) : parser unit :=
  modify_node n (fun node => set_flags (Z.lor (parse_flags node) f) node).

(** ** The token *)
Definition get_token : parser GumboToken := get (fun p => _output (tokenizer_state p)).

(** [state->_current_token], which may be NULL. *)
Definition current_token : parser GumboToken :=
  b ← get _current_token; if (b : bool) then get_token else lift Undef.

Definition v_start_tag (token : GumboToken) : outcome GumboTokenStartTag :=
  match tv token with VStartTag t => Ok t | _ => Undef end.
Definition v_end_tag (token : GumboToken) : outcome GumboTag :=
  match tv token with VEndTag t => Ok t | _ => Undef end.
Definition v_doc_type (token : GumboToken) : outcome GumboTokenDocType :=
  match tv token with VDocType d => Ok d | _ => Undef end.
Definition v_text (token : GumboToken) : outcome (list Z) :=
  match tv token with VText t => Ok t | _ => Undef end.
Definition v_character (token : GumboToken) : outcome Z :=
  match tv token with VCharacter c => Ok c | _ => Undef end.

Definition set_token_value (v : token_value) : parser unit :=
  on_tokenizer (Lexer.modify (fun t => set_output
    (Token (ttype (_output t)) (tposition (_output t)) (toriginal_text (_output t)) v) t)).

Definition set_token_attributes (attrs : option (list Lexer.GumboAttribute)) : parser unit :=
  token ← get_token; t ← lift (v_start_tag token);
  set_token_value (VStartTag (StartTag (stag t) attrs (is_self_closing t))).

Definition is_type (token : GumboToken) (type : GumboTokenType) : bool := bool_decide (ttype token = type).

(** ** Vectors of pointers *)
Fixpoint gumbo_vector_index_of (l : list nat) (x : nat) : option nat :=
  match l with
  | [] => None
  | y :: l => if (y =? x)%nat then Some 0%nat else option_map S (gumbo_vector_index_of l x)
  end.

Definition gumbo_vector_remove_at (i : nat) (l : list nat) : outcome (list nat) :=
  _ ← c_assert (i <? length l)%nat; Ok (take i l ++ drop (S i) l).

Definition gumbo_vector_insert_at (x i : nat) (l : list nat) : outcome (list nat) :=
  _ ← c_assert (i <=? length l)%nat; Ok (take i l ++ x :: drop i l).

Definition gumbo_vector_remove (x : nat) (l : list nat) : outcome (list nat) :=
  match gumbo_vector_index_of l x with None => Ok l | Some i => gumbo_vector_remove_at i l end.

(** * Attributes *)

(** C strings, given without their terminators. *)
Fixpoint c_string (s : list Z) : list Z :=
  match s with [] => [] | c :: s => if c =? 0 then [] else c :: c_string s end.
Definition strcmp_eq (a b : list Z) : bool := bool_decide (c_string a = c_string b).

(** attribute.c, [gumbo_get_attribute]: the position of the attribute. *)
Fixpoint gumbo_get_attribute (attrs : list Lexer.GumboAttribute) (nm : list Z) : outcome (option nat) :=
  match attrs with
  | [] => Ok None
  | a :: attrs =>
      r ← strcasecmp (name a) nm;
      if r =? 0 then Ok (Some 0%nat) else i ← gumbo_get_attribute attrs nm; Ok (option_map S i)
  end.

Definition token_attributes (token : GumboToken) : outcome (list Lexer.GumboAttribute) :=
  t ← v_start_tag token; Ok (default [] (attributes t)).

Definition token_has_attribute (token : GumboToken) (nm : string) : outcome bool :=
  _ ← c_assert (is_type token GUMBO_TOKEN_START_TAG);
  attrs ← token_attributes token;
  i ← gumbo_get_attribute attrs (text_of nm);
  Ok (bool_decide (is_Some i)).

Definition attribute_matches (attrs : list Lexer.GumboAttribute) (nm value : string) : outcome bool :=
  i ← gumbo_get_attribute attrs (text_of nm);
  match i with
  | None => Ok false
  | Some i => a ← load attrs i; r ← strcasecmp (text_of value) (value_ a); Ok (r =? 0)
  end.

Definition attribute_matches_case_sensitive (attrs : list Lexer.GumboAttribute) (nm value : list Z) : outcome bool :=
  i ← gumbo_get_attribute attrs nm;
  match i with
  | None => Ok false
  | Some i => a ← load attrs i; Ok (strcmp_eq value (value_ a))
  end.

(** The loop, with the number of elements of [attr2] that are not matched yet. *)
Fixpoint all_attributes_match_loop (attr1 attr2 : list Lexer.GumboAttribute) (num_unmatched : Z) : outcome bool :=
  match attr1 with
  | [] => Ok (num_unmatched =? 0)
  | attr :: attr1 =>
      m ← attribute_matches_case_sensitive attr2 (name attr) (value_ attr);
      if (m : bool) then all_attributes_match_loop attr1 attr2 (u32 (num_unmatched - 1)) else Ok false
  end.

Definition all_attributes_match (attr1 attr2 : list Lexer.GumboAttribute) : outcome bool :=
  all_attributes_match_loop attr1 attr2 (Z.of_nat (length attr2)).

Definition set_frameset_not_ok : parser unit := modify (set_frameset_ok false).

(** * Nodes *)
Definition create_node (type : GumboNodeType) (v : node_value) : parser nat :=
  allocate (Node type None (-1) GUMBO_INSERTION_NORMAL v).

(** [quirks]: the mode is not set before a doctype or its absence is seen. *)
Definition new_document_node (quirks : GumboQuirksModeEnum) : parser nat :=
  n ← create_node GUMBO_NODE_DOCUMENT (VDocument (Document [] false None None None quirks));
  modify_node n (set_flags GUMBO_INSERTION_BY_PARSER);;
  mret n.

Definition output_init (quirks : GumboQuirksModeEnum) : parser unit :=
  modify (set_root None);;
  n ← new_document_node quirks;
  modify (set_document n).

(** The fields that are not set keep what the memory held. *)
Definition parser_state_init : parser unit :=
  modify (set_insertion_mode_ GUMBO_INSERTION_MODE_INITIAL);;
  modify (set_reprocess_current_token false);;
  modify (set_frameset_ok true);;
  modify (set_ignore_next_linefeed false);;
  modify (set_foster_parent_insertions false);;
  modify (fun p => set_text_node (TextBuffer [] (_start_original_text (_text_node p))
    (_start_position (_text_node p)) GUMBO_NODE_WHITESPACE) p);;
  modify (set_open_elements []);;
  modify (set_active_formatting_elements []);;
  modify (set_template_insertion_modes []);;
  modify (set_head_element None);;
  modify (set_form_element None);;
  modify (set_fragment_ctx None);;
  modify (set_current_token false);;
  modify (set_closed_body_tag false);;
  modify (set_closed_html_tag false).

Definition get_document_node : parser nat := get document.

Definition is_fragment_parser : parser bool := get (fun p => bool_decide (is_Some (_fragment_ctx p))).

Definition get_current_node : parser ptr :=
  open_elements ← get _open_elements;
  match open_elements with
  | [] => r ← get root; assert (bool_decide (r = None));; mret None
  | _ => mret (last open_elements)
  end.

Definition get_adjusted_current_node : parser ptr :=
  open_elements ← get _open_elements;
  ctx ← get _fragment_ctx;
  if (length open_elements =? 1)%nat && bool_decide (is_Some ctx) then mret ctx else get_current_node.

Fixpoint is_in_static_list (needle : list Z) (haystack : list string) (exact_match : bool) : outcome bool :=
  match haystack with
  | [] => Ok false
  | h :: haystack =>
      found ← (if exact_match then Ok (strcmp_eq needle (text_of h))
               else r ← strcasecmp needle (text_of h); Ok (r =? 0));
      if (found : bool) then Ok true else is_in_static_list needle haystack exact_match
  end.

Definition set_insertion_mode (mode : GumboInsertionMode) : parser unit := modify (set_insertion_mode_ mode).

Definition is_element_type (type : GumboNodeType) : bool :=
  bool_decide (type = GUMBO_NODE_ELEMENT) || bool_decide (type = GUMBO_NODE_TEMPLATE).

(** ** Tests on tags; a [gumbo_tagset] is the list of its entries. *)
Definition TAG (t : GumboTag) : GumboNamespaceEnum * GumboTag := (GUMBO_NAMESPACE_HTML, t).
Definition TAG_SVG (t : GumboTag) : GumboNamespaceEnum * GumboTag := (GUMBO_NAMESPACE_SVG, t).
Definition TAG_MATHML (t : GumboTag) : GumboNamespaceEnum * GumboTag := (GUMBO_NAMESPACE_MATHML, t).
Notation gumbo_tagset := (list (GumboNamespaceEnum * GumboTag)).

Definition TAGSET_INCLUDES (tagset : gumbo_tagset) (ns : GumboNamespaceEnum) (tag : GumboTag) : bool :=
  bool_decide ((ns, tag) ∈ tagset).

Definition kStartTag : bool := true.
Definition kEndTag : bool := false.

Definition tag_in (token : GumboToken) (is_start : bool) (tags : gumbo_tagset) : bool :=
  match ttype token, is_start, tv token with
  | GUMBO_TOKEN_START_TAG, true, VStartTag t => bool_decide (stag t ∈ tags.*2)
  | GUMBO_TOKEN_END_TAG, false, VEndTag t => bool_decide (t ∈ tags.*2)
  | _, _, _ => false
  end.

Definition tag_is (token : GumboToken) (is_start : bool) (tag : GumboTag) : bool :=
  match ttype token, is_start, tv token with
  | GUMBO_TOKEN_START_TAG, true, VStartTag t => bool_decide (stag t = tag)
  | GUMBO_TOKEN_END_TAG, false, VEndTag t => bool_decide (t = tag)
  | _, _, _ => false
  end.

Definition node_tag_in_set (n : ptr) (tags : gumbo_tagset) : parser bool :=
  assert (bool_decide (is_Some n));;
  node ← deref n;
  if negb (is_element_type (n_type node)) then mret false
  else e ← lift (v_element node); mret (TAGSET_INCLUDES tags (tag_namespace e) (el_tag e)).

Definition node_qualified_tag_is (n : ptr) (ns : GumboNamespaceEnum) (tag : GumboTag) : parser bool :=
  assert (bool_decide (is_Some n));;
  node ← deref n;
  if negb (is_element_type (n_type node)) then mret false
  else e ← lift (v_element node); mret (bool_decide (el_tag e = tag) && bool_decide (tag_namespace e = ns)).

Definition node_html_tag_is (n : ptr) (tag : GumboTag) : parser bool :=
  node_qualified_tag_is n GUMBO_NAMESPACE_HTML tag.

Definition push_template_insertion_mode (mode : GumboInsertionMode) : parser unit :=
  modify (fun p => set_template_insertion_modes (_template_insertion_modes p ++ [mode]) p).

Definition pop_template_insertion_mode : parser unit :=
  modify (fun p => set_template_insertion_modes (take (length (_template_insertion_modes p) - 1) (_template_insertion_modes p)) p).

Definition get_current_template_insertion_mode : parser GumboInsertionMode :=
  get (fun p => default GUMBO_INSERTION_MODE_INITIAL (last (_template_insertion_modes p))).

(** ** The insertion mode of the stack *)

(** The loop over the ancestors of a select element, from index [i] down to 1. *)
Fixpoint select_mode (open_elements : list nat) (i : nat) : parser GumboInsertionMode :=
  match i with
  | O => mret GUMBO_INSERTION_MODE_IN_SELECT
  | S i' =>
      ancestor ← lift (load open_elements i);
      template ← node_html_tag_is (Some ancestor) GUMBO_TAG_TEMPLATE;
      if (template : bool) then mret GUMBO_INSERTION_MODE_IN_SELECT
      else
        table ← node_html_tag_is (Some ancestor) GUMBO_TAG_TABLE;
        if (table : bool) then mret GUMBO_INSERTION_MODE_IN_SELECT_IN_TABLE
        else select_mode open_elements i'
  end.

Definition get_appropriate_insertion_mode (index : nat) : parser GumboInsertionMode :=
  open_elements ← get _open_elements;
  node ← lift (load open_elements index);
  let is_last := (index =? 0)%nat in
  fragment ← is_fragment_parser;
  ctx ← get _fragment_ctx;
  let node := if is_last && fragment then ctx else Some node in
  n ← deref node;
  assert (is_element_type (n_type n));;
  e ← lift (v_element n);
  let other := if is_last then GUMBO_INSERTION_MODE_IN_BODY else GUMBO_INSERTION_MODE_INITIAL in
  if negb (bool_decide (tag_namespace e = GUMBO_NAMESPACE_HTML)) then mret other
  else
    match el_tag e with
    | GUMBO_TAG_SELECT =>
        if is_last then mret GUMBO_INSERTION_MODE_IN_SELECT else select_mode open_elements index
    | GUMBO_TAG_TD | GUMBO_TAG_TH => mret (if negb is_last then GUMBO_INSERTION_MODE_IN_CELL else other)
    | GUMBO_TAG_TR => mret GUMBO_INSERTION_MODE_IN_ROW
    | GUMBO_TAG_TBODY | GUMBO_TAG_THEAD | GUMBO_TAG_TFOOT => mret GUMBO_INSERTION_MODE_IN_TABLE_BODY
    | GUMBO_TAG_CAPTION => mret GUMBO_INSERTION_MODE_IN_CAPTION
    | GUMBO_TAG_COLGROUP => mret GUMBO_INSERTION_MODE_IN_COLUMN_GROUP
    | GUMBO_TAG_TABLE => mret GUMBO_INSERTION_MODE_IN_TABLE
    | GUMBO_TAG_TEMPLATE => get_current_template_insertion_mode
    | GUMBO_TAG_HEAD => mret (if negb is_last then GUMBO_INSERTION_MODE_IN_HEAD else other)
    | GUMBO_TAG_BODY => mret GUMBO_INSERTION_MODE_IN_BODY
    | GUMBO_TAG_FRAMESET => mret GUMBO_INSERTION_MODE_IN_FRAMESET
    | GUMBO_TAG_HTML =>
        head ← get _head_element;
        mret (if bool_decide (is_Some head) then GUMBO_INSERTION_MODE_AFTER_HEAD
              else GUMBO_INSERTION_MODE_BEFORE_HEAD)
    | _ => mret other
    end.

(** The loop over the indices below [i]. *)
Fixpoint reset_insertion_mode_loop (i : nat) : parser unit :=
  match i with
  | O => assert false
  | S i =>
      mode ← get_appropriate_insertion_mode i;
      if negb (bool_decide (mode = GUMBO_INSERTION_MODE_INITIAL)) then set_insertion_mode mode
      else reset_insertion_mode_loop i
  end.

Definition reset_insertion_mode_appropriately : parser unit :=
  open_elements ← get _open_elements; reset_insertion_mode_loop (length open_elements).

(** ** Errors *)
Definition errors_full (it : Utf8Iterator) : bool :=
  (0 <=? max_errors it) && (max_errors it <=? Z.of_nat (length (errors it))).

Fixpoint tags_of (open_elements : list nat) : parser (list GumboTag) :=
  match open_elements with
  | [] => mret []
  | n :: open_elements =>
      node ← deref (Some n);
      assert (is_element_type (n_type node));;
      e ← lift (v_element node);
      tags ← tags_of open_elements;
      mret (el_tag e :: tags)
  end.

(** The type of the error is an argument: the main loop changes it afterwards. *)
Definition add_parse_error (type : GumboErrorType) (token : GumboToken) : parser unit :=
  it ← get (fun p => _input (tokenizer_state p));
  if errors_full it then mret tt
  else
    let input_tag :=
      match ttype token, tv token with
      | GUMBO_TOKEN_START_TAG, VStartTag t => stag t
      | GUMBO_TOKEN_END_TAG, VEndTag t => t
      | _, _ => GUMBO_TAG_UNKNOWN
      end in
    mode ← get _insertion_mode;
    open_elements ← get _open_elements;
    tags ← tags_of open_elements;
    on_tokenizer (on_input (fun it => Ok (gumbo_add_error it
      (Error type (tposition token) (pdata (toriginal_text token))
        (ErrParser (ParserError (ttype token) input_tag mode tags)))))).

Definition parser_add_parse_error (token : GumboToken) : parser unit := add_parse_error GUMBO_ERR_PARSER token.

(** ** Integration points *)
Definition is_mathml_integration_point (n : ptr) : parser bool :=
  node_tag_in_set n [TAG_MATHML GUMBO_TAG_MI; TAG_MATHML GUMBO_TAG_MO; TAG_MATHML GUMBO_TAG_MN;
      TAG_MATHML GUMBO_TAG_MS; TAG_MATHML GUMBO_TAG_MTEXT].

Definition is_html_integration_point (n : ptr) : parser bool :=
  svg ← node_tag_in_set n [TAG_SVG GUMBO_TAG_FOREIGNOBJECT; TAG_SVG GUMBO_TAG_DESC; TAG_SVG GUMBO_TAG_TITLE];
  if (svg : bool) then mret true
  else
    annotation ← node_qualified_tag_is n GUMBO_NAMESPACE_MATHML GUMBO_TAG_ANNOTATION_XML;
    if (annotation : bool) then
      e ← element n;
      html ← lift (attribute_matches (el_attributes e) "encoding" "text/html");
      if (html : bool) then mret true
      else lift (attribute_matches (el_attributes e) "encoding" "application/xhtml+xml")
    else mret false.

(** * Insertion *)
Record InsertionLocation := Location { target : nat; index : Z }.

(** The indices of the last template and of the last table. *)
Fixpoint last_template_and_table (open_elements : list nat) (i : nat) (template table : option nat)
  : parser (option nat * option nat) :=
  match open_elements with
  | [] => mret (template, table)
  | n :: open_elements =>
      is_template ← node_html_tag_is (Some n) GUMBO_TAG_TEMPLATE;
      is_table ← node_html_tag_is (Some n) GUMBO_TAG_TABLE;
      last_template_and_table open_elements (S i) (if (is_template : bool) then Some i else template)
        (if (is_table : bool) then Some i else table)
  end.

Definition get_appropriate_insertion_location (override_target : ptr) : parser InsertionLocation :=
  t ← match override_target with
      | Some t => mret t
      | None =>
          r ← get root;
          if bool_decide (is_Some r) then c ← get_current_node; lift (of_option c) else get_document_node
      end;
  foster ← get _foster_parent_insertions;
  in_table ← (if (foster : bool)
    then node_tag_in_set (Some t) [TAG GUMBO_TAG_TABLE; TAG GUMBO_TAG_TBODY; TAG GUMBO_TAG_TFOOT;
        TAG GUMBO_TAG_THEAD; TAG GUMBO_TAG_TR]
    else mret false);
  if negb in_table then mret (Location t (-1))
  else
    open_elements ← get _open_elements;
    '(last_template, last_table) ← last_template_and_table open_elements 0 None None;
    match last_template, last_table with
    | None, None => n ← lift (load open_elements 0); mret (Location n (-1))
    | Some i, None => n ← lift (load open_elements i); mret (Location n (-1))
    | o, Some j =>
        if match o with Some i => (j <? i)%nat | None => false end then
          n ← lift (load open_elements (default 0%nat o)); mret (Location n (-1))
        else
          last_table ← lift (load open_elements j);
          node ← deref (Some last_table);
          match parent node with
          | Some q => mret (Location q (index_within_parent node))
          | None =>
              n ← lift (match j with O => Undef | S j => load open_elements j end);
              mret (Location n (-1))
          end
    end.

(** The vector of the children of a node, and its update. *)
Definition children_of (n : nat) : parser (list nat) :=
  node ← deref (Some n);
  if is_element_type (n_type node) then e ← lift (v_element node); mret (el_children e)
  else
    assert (bool_decide (n_type node = GUMBO_NODE_DOCUMENT));;
    d ← lift (v_document node); mret (doc_children d).

Definition set_children_of (n : nat) (l : list nat) : parser unit :=
  node ← deref (Some n);
  if is_element_type (n_type node) then modify_element n (set_children l)
  else modify_document n (fun d => Document l (has_doctype d) (doc_name d) (doc_public_identifier d)
         (doc_system_identifier d) (doc_type_quirks_mode d)).

(** The assertion on the index at the end compares a length with itself and one
    more. *)
Definition append_node (par node : nat) : parser unit :=
  n ← deref (Some node);
  assert (bool_decide (parent n = None));;
  assert (index_within_parent n =? -1);;
  children ← children_of par;
  modify_node node (set_parent (Some par));;
  modify_node node (set_index (Z.of_nat (length children)));;
  set_children_of par (children ++ [node]).

(** The siblings get the indices from [i] on. *)
Fixpoint renumber (siblings : list nat) (i : Z) : parser unit :=
  match siblings with
  | [] => mret tt
  | s :: siblings => modify_node s (set_index i);; renumber siblings (i + 1)
  end.

Definition insert_node (node : nat) (location : InsertionLocation) : parser unit :=
  n ← deref (Some node);
  assert (bool_decide (parent n = None));;
  assert (index_within_parent n =? -1);;
  let par := target location in
  if negb (index location =? -1) then
    pn ← deref (Some par);
    children ← children_of par;
    assert (is_element_type (n_type pn) || (length children =? 0)%nat);;
    assert (0 <=? index location);;
    assert (index location <? Z.of_nat (length children));;
    modify_node node (set_parent (Some par));;
    modify_node node (set_index (index location));;
    children ← lift (gumbo_vector_insert_at node (Z.to_nat (index location)) children);
    set_children_of par children;;
    renumber (drop (S (Z.to_nat (index location))) children) (index location + 1)
  else append_node par node.

Fixpoint for_each (f : nat -> parser unit) (l : list nat) : parser unit :=
  match l with [] => mret tt | c :: l => f c;; for_each f l end.

(** [destroy_node]; the depth of the tree is below the number of nodes. *)
Fixpoint destroy_node (fuel : nat) (node : nat) : parser unit :=
  match fuel with
  | O => lift Undef
  | S fuel =>
      n ← deref (Some node);
      for_each (destroy_node fuel)
        (match n_v n with VElement e => el_children e | VDocument d => doc_children d | VTextNode _ => [] end);;
      deallocate node
  end.

Definition destroy (node : nat) : parser unit :=
  n ← get (fun p => length (heap p)); destroy_node (S n) node.

(** The difference of two pointers, as a [size_t]. *)
Definition ptr_diff (a b : nat) : Z := u64 (Z.of_nat a - Z.of_nat b).

Definition maybe_flush_text_node_buffer : parser unit :=
  buffer_state ← get _text_node;
  match tn_buffer buffer_state with
  | [] => mret tt
  | _ =>
      assert (match tn_type buffer_state with
              | GUMBO_NODE_WHITESPACE | GUMBO_NODE_TEXT | GUMBO_NODE_CDATA => true
              | _ => false
              end);;
      token ← current_token;
      text_node ← create_node (tn_type buffer_state) (VTextNode (Text (tn_buffer buffer_state)
        (Piece (_start_original_text buffer_state)
          (ptr_diff (pdata (toriginal_text token)) (_start_original_text buffer_state)))
        (_start_position buffer_state)));
      location ← get_appropriate_insertion_location None;
      t ← deref (Some (target location));
      (if bool_decide (n_type t = GUMBO_NODE_DOCUMENT) then destroy text_node
       else insert_node text_node location);;
      modify (set_text_node (TextBuffer [] (_start_original_text buffer_state) (_start_position buffer_state)
        GUMBO_NODE_WHITESPACE))
  end.

Definition record_end_of_element (token : GumboToken) (n : nat) : parser unit :=
  modify_element n (set_end (tposition token)
    (if is_type token GUMBO_TOKEN_END_TAG then Some (toriginal_text token) else None)).

(** Whether a body or html element has seen its end tag. *)
Definition is_closed_body_or_html_tag (n : ptr) : parser bool :=
  body ← node_html_tag_is n GUMBO_TAG_BODY;
  closed_body ← get _closed_body_tag;
  html ← node_html_tag_is n GUMBO_TAG_HTML;
  closed_html ← get _closed_html_tag;
  mret ((body && closed_body) || (html && closed_html)).

Definition pop_current_node : parser ptr :=
  maybe_flush_text_node_buffer;;
  open_elements ← get _open_elements;
  match open_elements with
  | [] => mret None
  | first :: _ =>
      html ← node_html_tag_is (Some first) GUMBO_TAG_HTML;
      assert html;;
      let n := default first (last open_elements) in
      modify (set_open_elements (take (length open_elements - 1) open_elements));;
      node ← deref (Some n);
      assert (is_element_type (n_type node));;
      closed ← is_closed_body_or_html_tag (Some n);
      token ← current_token;
      same ← match tv token with
             | VEndTag t => if is_type token GUMBO_TOKEN_END_TAG then node_html_tag_is (Some n) t else mret false
             | _ => mret false
             end;
      when (negb same && negb closed) (add_flags n GUMBO_INSERTION_IMPLICIT_END_TAG);;
      when (negb closed) (record_end_of_element token n);;
      mret (Some n)
  end.

Definition append_comment_node (node : ptr) (token : GumboToken) : parser unit :=
  maybe_flush_text_node_buffer;;
  text ← lift (v_text token);
  comment ← create_node GUMBO_NODE_COMMENT (VTextNode (Text text (toriginal_text token) (tposition token)));
  node ← lift (of_option node);
  append_node node comment.

(** ** Loops over the stack

    Every iteration pops an element, and an empty stack fails an assertion, so as
    many iterations as there are open elements, and one more, are enough. *)
Fixpoint pop_while_fuel (fuel : nat) (cond : parser bool) : parser unit :=
  match fuel with
  | O => lift Undef
  | S fuel => b ← cond; if (b : bool) then pop_current_node;; pop_while_fuel fuel cond else mret tt
  end.

(** [while (cond) pop_current_node(parser);] *)
Definition pop_while (cond : parser bool) : parser unit :=
  n ← get (fun p => length (_open_elements p)); pop_while_fuel (S n) cond.

Fixpoint pop_until_fuel (fuel : nat) (stop : ptr -> parser bool) : parser unit :=
  match fuel with
  | O => lift Undef
  | S fuel => n ← pop_current_node; b ← stop n; if (b : bool) then mret tt else pop_until_fuel fuel stop
  end.

(** [do node = pop_current_node(parser); while (!stop(node));] *)
Definition pop_until (stop : ptr -> parser bool) : parser unit :=
  n ← get (fun p => length (_open_elements p)); pop_until_fuel (S n) stop.

(** The current node has none of the tags. *)
Definition current_not_in (tags : gumbo_tagset) : parser bool :=
  c ← get_current_node; b ← node_tag_in_set c tags; mret (negb b).

Definition clear_stack_to_table_row_context : parser unit :=
  pop_while (current_not_in [TAG GUMBO_TAG_HTML; TAG GUMBO_TAG_TR; TAG GUMBO_TAG_TEMPLATE]).

Definition clear_stack_to_table_context : parser unit :=
  pop_while (current_not_in [TAG GUMBO_TAG_HTML; TAG GUMBO_TAG_TABLE; TAG GUMBO_TAG_TEMPLATE]).

Definition clear_stack_to_table_body_context : parser unit :=
  pop_while (current_not_in [TAG GUMBO_TAG_HTML; TAG GUMBO_TAG_TBODY; TAG GUMBO_TAG_TFOOT; TAG GUMBO_TAG_THEAD;
      TAG GUMBO_TAG_TEMPLATE]).

(** * Elements *)
Definition create_element (tag : GumboTag) : parser nat :=
  b ← get _current_token;
  token ← get_token;
  create_node GUMBO_NODE_ELEMENT (VElement (Element [] tag GUMBO_NAMESPACE_HTML None None
    (if (b : bool) then tposition token else kGumboEmptySourcePosition) kGumboEmptySourcePosition [])).

Definition create_element_from_token (token : GumboToken) (ns : GumboNamespaceEnum) : parser nat :=
  assert (is_type token GUMBO_TOKEN_START_TAG);;
  start_tag ← lift (v_start_tag token);
  let type := if bool_decide (ns = GUMBO_NAMESPACE_HTML) && bool_decide (stag start_tag = GUMBO_TAG_TEMPLATE)
              then GUMBO_NODE_TEMPLATE else GUMBO_NODE_ELEMENT in
  let p := toriginal_text token in
  src ← get (fun q => source (_input (tokenizer_state q)));
  node ← create_node type (VElement (Element [] (stag start_tag) ns (Some p) None
    (tposition token) kGumboEmptySourcePosition (default [] (attributes start_tag))));
  assert (2 <=? plength p);;
  first ← lift (load src (pdata p));
  assert (first =? #"<");;
  last ← lift (load src (pdata p + Z.to_nat (plength p - 1)));
  assert (last =? #">");;
  set_token_attributes None;;
  mret node.

Definition insert_element (node : nat) (is_reconstructing_formatting_elements : bool) : parser unit :=
  when (negb is_reconstructing_formatting_elements) maybe_flush_text_node_buffer;;
  location ← get_appropriate_insertion_location None;
  insert_node node location;;
  modify (fun p => set_open_elements (_open_elements p ++ [node]) p).

Definition insert_element_from_token (token : GumboToken) : parser nat :=
  element ← create_element_from_token token GUMBO_NAMESPACE_HTML;
  insert_element element false;;
  mret element.

Definition insert_element_of_tag_type (tag : GumboTag) (reason : Z) : parser nat :=
  element ← create_element tag;
  add_flags element (Z.lor GUMBO_INSERTION_BY_PARSER reason);;
  insert_element element false;;
  mret element.

Definition kLegalXmlns (ns : GumboNamespaceEnum) : string :=
  match ns with
  | GUMBO_NAMESPACE_HTML => "http://www.w3.org/1999/xhtml"
  | GUMBO_NAMESPACE_SVG => "http://www.w3.org/2000/svg"
  | GUMBO_NAMESPACE_MATHML => "http://www.w3.org/1998/Math/MathML"
  end.

(** An error when the token has the attribute with another value. *)
Definition check_xmlns (attr legal : string) : parser unit :=
  token ← get_token;
  has ← lift (token_has_attribute token attr);
  if (has : bool) then
    attrs ← lift (token_attributes token);
    ok ← lift (attribute_matches_case_sensitive attrs (text_of attr) (text_of legal));
    when (negb ok) (parser_add_parse_error token)
  else mret tt.

Definition insert_foreign_element (token : GumboToken) (ns : GumboNamespaceEnum) : parser nat :=
  assert (is_type token GUMBO_TOKEN_START_TAG);;
  element ← create_element_from_token token ns;
  insert_element element false;;
  check_xmlns "xmlns" (kLegalXmlns ns);;
  check_xmlns "xmlns:xlink" "http://www.w3.org/1999/xlink";;
  mret element.

Definition insert_text_token (token : GumboToken) : parser unit :=
  assert (match ttype token with
          | GUMBO_TOKEN_WHITESPACE | GUMBO_TOKEN_CHARACTER | GUMBO_TOKEN_NULL | GUMBO_TOKEN_CDATA => true
          | _ => false
          end);;
  b ← get _text_node;
  c ← lift (v_character token);
  let '(start, pos) := match tn_buffer b with
                       | [] => (pdata (toriginal_text token), tposition token)
                       | _ => (_start_original_text b, _start_position b)
                       end in
  let type := match ttype token with
              | GUMBO_TOKEN_CHARACTER => GUMBO_NODE_TEXT
              | GUMBO_TOKEN_CDATA => GUMBO_NODE_CDATA
              | _ => tn_type b
              end in
  modify (set_text_node (TextBuffer (tn_buffer b ++ codepoint_bytes c) start pos type)).

Definition run_generic_parsing_algorithm (token : GumboToken) (lexer_state : GumboTokenizerEnum) : parser unit :=
  insert_element_from_token token;;
  on_tokenizer (gumbo_tokenizer_set_state lexer_state);;
  mode ← get _insertion_mode;
  modify (set_original_insertion_mode mode);;
  set_insertion_mode GUMBO_INSERTION_MODE_TEXT.

Definition acknowledge_self_closing_tag : parser unit := modify (set_self_closing_flag_acknowledged true).

(** * The list of active formatting elements *)

(** The address of the static node [kActiveFormattingScopeMarker]; all its fields are
    zero, so that read as an element it is an html element without attributes. *)
Definition kActiveFormattingScopeMarker : nat := 0.
Definition marker_node : GumboNode :=
  Node GUMBO_NODE_DOCUMENT None 0 0 (VElement (Element [] GUMBO_TAG_HTML GUMBO_NAMESPACE_HTML None None
    kGumboEmptySourcePosition kGumboEmptySourcePosition [])).
Definition is_marker (n : nat) : bool := (n =? kActiveFormattingScopeMarker)%nat.

(** The loop from index [i - 1] down. *)
Fixpoint find_last_anchor_loop (elements : list nat) (i : nat) : parser (option nat) :=
  match i with
  | O => mret None
  | S i =>
      node ← lift (load elements i);
      if is_marker node then mret None
      else
        a ← node_html_tag_is (Some node) GUMBO_TAG_A;
        if (a : bool) then mret (Some i) else find_last_anchor_loop elements i
  end.

(** The index of the anchor, if there is one. *)
Definition find_last_anchor_index : parser (option nat) :=
  elements ← get _active_formatting_elements; find_last_anchor_loop elements (length elements).

Fixpoint count_formatting_loop (desired : GumboElement) (elements : list nat) (i : nat) (num : Z) (earliest : nat)
  : parser (Z * nat) :=
  match i with
  | O => mret (num, earliest)
  | S i =>
      n ← lift (load elements i);
      if is_marker n then mret (num, earliest)
      else
        node ← deref (Some n);
        assert (bool_decide (n_type node = GUMBO_NODE_ELEMENT));;
        same_tag ← node_qualified_tag_is (Some n) (tag_namespace desired) (el_tag desired);
        e ← lift (v_element node);
        same ← (if (same_tag : bool) then lift (all_attributes_match (el_attributes e) (el_attributes desired))
                else mret false);
        if (same : bool) then count_formatting_loop desired elements i (num + 1) i
        else count_formatting_loop desired elements i num earliest
  end.

(** The number of identical elements, and the index of the earliest ([earliest] when
    there is none). *)
Definition count_formatting_elements_of_tag (desired_node earliest : nat) : parser (Z * nat) :=
  desired ← element (Some desired_node);
  elements ← get _active_formatting_elements;
  count_formatting_loop desired elements (length elements) 0 earliest.

Definition add_formatting_element (n : nat) : parser unit :=
  node ← deref (Some n);
  assert (is_marker n || bool_decide (n_type node = GUMBO_NODE_ELEMENT));;
  elements ← get _active_formatting_elements;
  '(num_identical_elements, earliest) ← count_formatting_elements_of_tag n (length elements);
  when (3 <=? num_identical_elements)
    (elements ← lift (gumbo_vector_remove_at earliest elements);
     modify (set_active_formatting_elements elements));;
  modify (fun p => set_active_formatting_elements (_active_formatting_elements p ++ [n]) p).

Definition is_open_element (n : nat) : parser bool :=
  open_elements ← get _open_elements; mret (bool_decide (n ∈ open_elements)).

Definition clone_node (node : nat) (reason : Z) : parser nat :=
  n ← deref (Some node);
  assert (is_element_type (n_type n));;
  e ← lift (v_element n);
  let flags := Z.land (parse_flags n) (Z.lnot GUMBO_INSERTION_IMPLICIT_END_TAG) in
  let copy a := Attribute (attr_namespace a) (c_string (name a)) (original_name a) (c_string (value_ a))
    (original_value a) (name_start a) (name_end a) (value_start a) (value_end a) in
  allocate (Node (n_type n) None (-1) (Z.lor flags (Z.lor reason GUMBO_INSERTION_BY_PARSER))
    (VElement (set_children [] (set_el_attributes (map copy (el_attributes e)) e)))).

(** Steps 4 to 6: from the entry at [i] down to the last that is a marker or open;
    the index of the next one. *)
Fixpoint reconstruct_rewind (elements : list nat) (i : nat) : parser nat :=
  match i with
  | O => mret 0%nat
  | S i' =>
      e ← lift (load elements i');
      open ← is_open_element e;
      if is_marker e || open then mret i else reconstruct_rewind elements i'
  end.

(** Steps 7 to 10 for the entries from [i] on, [n] of them. *)
Fixpoint reconstruct_loop (n i : nat) : parser unit :=
  match n with
  | O => mret tt
  | S n =>
      elements ← get _active_formatting_elements;
      e ← lift (load elements i);
      assert (negb (is_marker e));;
      clone ← clone_node e GUMBO_INSERTION_RECONSTRUCTED_FORMATTING_ELEMENT;
      location ← get_appropriate_insertion_location None;
      insert_node clone location;;
      modify (fun p => set_open_elements (_open_elements p ++ [clone]) p);;
      modify (fun p => set_active_formatting_elements (<[i := clone]> (_active_formatting_elements p)) p);;
      reconstruct_loop n (S i)
  end.

Definition reconstruct_active_formatting_elements : parser unit :=
  elements ← get _active_formatting_elements;
  match last elements with
  | None => mret tt
  | Some e =>
      open ← is_open_element e;
      if is_marker e || open then mret tt
      else
        i ← reconstruct_rewind elements (length elements - 1);
        reconstruct_loop (length elements - i) i
  end.

(** The entries, last first, without those up to the first marker. *)
Fixpoint clear_to_marker (elements : list nat) : list nat :=
  match elements with
  | [] => []
  | e :: elements => if is_marker e then elements else clear_to_marker elements
  end.

Definition clear_active_formatting_elements : parser unit :=
  modify (fun p => set_active_formatting_elements (rev (clear_to_marker (rev (_active_formatting_elements p)))) p).

(** * The doctype *)
Definition kDoctypeHtml : string := "html".
Definition kPublicIdHtml4_0 : string := "-//W3C//DTD HTML 4.0//EN".
Definition kPublicIdHtml4_01 : string := "-//W3C//DTD HTML 4.01//EN".
Definition kPublicIdXhtml1_0 : string := "-//W3C//DTD XHTML 1.0 Strict//EN".
Definition kPublicIdXhtml1_1 : string := "-//W3C//DTD XHTML 1.1//EN".
Definition kSystemIdRecHtml4_0 : string := "http://www.w3.org/TR/REC-html40/strict.dtd".
Definition kSystemIdHtml4 : string := "http://www.w3.org/TR/html4/strict.dtd".
Definition kSystemIdXhtmlStrict1_1 : string := "http://www.w3.org/TR/xhtml1/DTD/xhtml1-strict.dtd".
Definition kSystemIdXhtml1_1 : string := "http://www.w3.org/TR/xhtml11/DTD/xhtml11.dtd".
Definition kSystemIdLegacyCompat : string := "about:legacy-compat".

Definition kQuirksModePublicIdPrefixes : list string := [
  "+//Silmaril//dtd html Pro v0r11 19970101//";
  "-//AdvaSoft Ltd//DTD HTML 3.0 asWedit + extensions//";
  "-//AS//DTD HTML 3.0 asWedit + extensions//";
  "-//IETF//DTD HTML 2.0 Level 1//";
  "-//IETF//DTD HTML 2.0 Level 2//";
  "-//IETF//DTD HTML 2.0 Strict Level 1//";
  "-//IETF//DTD HTML 2.0 Strict Level 2//";
  "-//IETF//DTD HTML 2.0 Strict//";
  "-//IETF//DTD HTML 2.0//";
  "-//IETF//DTD HTML 2.1E//";
  "-//IETF//DTD HTML 3.0//";
  "-//IETF//DTD HTML 3.2 Final//";
  "-//IETF//DTD HTML 3.2//";
  "-//IETF//DTD HTML 3//";
  "-//IETF//DTD HTML Level 0//";
  "-//IETF//DTD HTML Level 1//";
  "-//IETF//DTD HTML Level 2//";
  "-//IETF//DTD HTML Level 3//";
  "-//IETF//DTD HTML Strict Level 0//";
  "-//IETF//DTD HTML Strict Level 1//";
  "-//IETF//DTD HTML Strict Level 2//";
  "-//IETF//DTD HTML Strict Level 3//";
  "-//IETF//DTD HTML Strict//";
  "-//IETF//DTD HTML//";
  "-//Metrius//DTD Metrius Presentational//";
  "-//Microsoft//DTD Internet Explorer 2.0 HTML Strict//";
  "-//Microsoft//DTD Internet Explorer 2.0 HTML//";
  "-//Microsoft//DTD Internet Explorer 2.0 Tables//";
  "-//Microsoft//DTD Internet Explorer 3.0 HTML Strict//";
  "-//Microsoft//DTD Internet Explorer 3.0 HTML//";
  "-//Microsoft//DTD Internet Explorer 3.0 Tables//";
  "-//Netscape Comm. Corp.//DTD HTML//";
  "-//Netscape Comm. Corp.//DTD Strict HTML//";
  "-//O'Reilly and Associates//DTD HTML 2.0//";
  "-//O'Reilly and Associates//DTD HTML Extended 1.0//";
  "-//O'Reilly and Associates//DTD HTML Extended Relaxed 1.0//";
  "-//SoftQuad Software//DTD HoTMetaL PRO 6.0::19990601::)extensions to HTML 4.0//";
  "-//SoftQuad//DTD HoTMetaL PRO 4.0::19971010::extensions to HTML 4.0//";
  "-//Spyglass//DTD HTML 2.0 Extended//";
  "-//SQ//DTD HTML 2.0 HoTMetaL + extensions//";
  "-//Sun Microsystems Corp.//DTD HotJava HTML//";
  "-//Sun Microsystems Corp.//DTD HotJava Strict HTML//";
  "-//W3C//DTD HTML 3 1995-03-24//";
  "-//W3C//DTD HTML 3.2 Draft//";
  "-//W3C//DTD HTML 3.2 Final//";
  "-//W3C//DTD HTML 3.2//";
  "-//W3C//DTD HTML 3.2S Draft//";
  "-//W3C//DTD HTML 4.0 Frameset//";
  "-//W3C//DTD HTML 4.0 Transitional//";
  "-//W3C//DTD HTML Experimental 19960712//";
  "-//W3C//DTD HTML Experimental 970421//";
  "-//W3C//DTD W3 HTML//";
  "-//W3O//DTD W3 HTML 3.0//";
  "-//WebTechs//DTD Mozilla HTML 2.0//";
  "-//WebTechs//DTD Mozilla HTML//"]%string.

Definition kQuirksModePublicIdExactMatches : list string := [
  "-//W3O//DTD W3 HTML Strict 3.0//EN//";
  "-/W3C/DTD HTML 4.0 Transitional/EN";
  "HTML"]%string.

Definition kQuirksModeSystemIdExactMatches : list string := [
  "http://www.ibm.com/data/dtd/v11/ibmxhtml1-transitional.dtd"]%string.

Definition kLimitedQuirksPublicIdPrefixes : list string := [
  "-//W3C//DTD XHTML 1.0 Frameset//";
  "-//W3C//DTD XHTML 1.0 Transitional//"]%string.

Definition kLimitedQuirksRequiresSystemIdPublicIdPrefixes : list string := [
  "-//W3C//DTD HTML 4.01 Frameset//";
  "-//W3C//DTD HTML 4.01 Transitional//"]%string.

(** A string of the doctype; [strcmp] of NULL is undefined. *)
Definition c_str (s : option (list Z)) : outcome (list Z) := of_option s.

(** [a || b] and [a && b] with their order of evaluation. *)
Definition or_else (a b : outcome bool) : outcome bool := a ← a; if (a : bool) then Ok true else b.
Definition and_then (a b : outcome bool) : outcome bool := a ← a; if (a : bool) then b else Ok false.

Definition name_is_html (doctype : GumboTokenDocType) : outcome bool :=
  nm ← c_str (dname doctype); Ok (strcmp_eq nm (text_of kDoctypeHtml)).

Definition public_in (doctype : GumboTokenDocType) (l : list string) (exact : bool) : outcome bool :=
  s ← c_str (public_identifier doctype); is_in_static_list s l exact.
Definition system_in (doctype : GumboTokenDocType) (l : list string) (exact : bool) : outcome bool :=
  s ← c_str (system_identifier doctype); is_in_static_list s l exact.

Definition compute_quirks_mode (doctype : GumboTokenDocType) : outcome GumboQuirksModeEnum :=
  quirks ← or_else (Ok (force_quirks doctype))
    (or_else (html ← name_is_html doctype; Ok (negb html))
    (or_else (public_in doctype kQuirksModePublicIdPrefixes false)
    (or_else (public_in doctype kQuirksModePublicIdExactMatches true)
    (or_else (system_in doctype kQuirksModeSystemIdExactMatches true)
    (and_then (public_in doctype kLimitedQuirksRequiresSystemIdPublicIdPrefixes false)
       (Ok (negb (has_system_identifier doctype))))))));
  if (quirks : bool) then Ok GUMBO_DOCTYPE_QUIRKS
  else
    limited ← or_else (public_in doctype kLimitedQuirksPublicIdPrefixes false)
      (and_then (public_in doctype kLimitedQuirksRequiresSystemIdPublicIdPrefixes false)
         (Ok (has_system_identifier doctype)));
    Ok (if (limited : bool) then GUMBO_DOCTYPE_LIMITED_QUIRKS else GUMBO_DOCTYPE_NO_QUIRKS).

(** * Scopes *)

(** The loop over the stack, given with its last element first. *)
Fixpoint scope_loop (stack : list nat) (expected : list GumboTag) (negate : bool) (tags : gumbo_tagset)
  : parser bool :=
  match stack with
  | [] => mret false
  | n :: stack =>
      node ← deref (Some n);
      if negb (is_element_type (n_type node)) then scope_loop stack expected negate tags
      else
        e ← lift (v_element node);
        if bool_decide (el_tag e ∈ expected) && bool_decide (tag_namespace e = GUMBO_NAMESPACE_HTML) then mret true
        else if negb (Bool.eqb negate (TAGSET_INCLUDES tags (tag_namespace e) (el_tag e))) then mret false
        else scope_loop stack expected negate tags
  end.

Definition has_an_element_in_specific_scope (expected : list GumboTag) (negate : bool) (tags : gumbo_tagset)
  : parser bool :=
  open_elements ← get _open_elements; scope_loop (rev open_elements) expected negate tags.

Definition has_open_element (tag : GumboTag) : parser bool :=
  has_an_element_in_specific_scope [tag] false [TAG GUMBO_TAG_HTML].

(** The elements that close the default scope. *)
Definition default_scope : gumbo_tagset := [TAG GUMBO_TAG_APPLET; TAG GUMBO_TAG_CAPTION; TAG GUMBO_TAG_HTML;
    TAG GUMBO_TAG_TABLE; TAG GUMBO_TAG_TD; TAG GUMBO_TAG_TH; TAG GUMBO_TAG_MARQUEE; TAG GUMBO_TAG_OBJECT;
    TAG GUMBO_TAG_TEMPLATE; TAG_MATHML GUMBO_TAG_MI; TAG_MATHML GUMBO_TAG_MO; TAG_MATHML GUMBO_TAG_MN;
    TAG_MATHML GUMBO_TAG_MS; TAG_MATHML GUMBO_TAG_MTEXT; TAG_MATHML GUMBO_TAG_ANNOTATION_XML;
    TAG_SVG GUMBO_TAG_FOREIGNOBJECT; TAG_SVG GUMBO_TAG_DESC; TAG_SVG GUMBO_TAG_TITLE].

Definition has_an_element_in_scope (tag : GumboTag) : parser bool :=
  has_an_element_in_specific_scope [tag] false default_scope.

Fixpoint node_scope_loop (stack : list nat) (target : nat) : parser bool :=
  match stack with
  | [] => assert false;; mret false
  | n :: stack =>
      if (n =? target)%nat then mret true
      else
        node ← deref (Some n);
        if negb (is_element_type (n_type node)) then node_scope_loop stack target
        else b ← node_tag_in_set (Some n) default_scope;
             if (b : bool) then mret false else node_scope_loop stack target
  end.

Definition has_node_in_scope (node : nat) : parser bool :=
  open_elements ← get _open_elements; node_scope_loop (rev open_elements) node.

Definition has_an_element_in_scope_with_tagname (expected : list GumboTag) : parser bool :=
  has_an_element_in_specific_scope expected false default_scope.

Definition has_an_element_in_list_scope (tag : GumboTag) : parser bool :=
  has_an_element_in_specific_scope [tag] false (default_scope ++ [TAG GUMBO_TAG_OL; TAG GUMBO_TAG_UL]).

Definition has_an_element_in_button_scope (tag : GumboTag) : parser bool :=
  has_an_element_in_specific_scope [tag] false (default_scope ++ [TAG GUMBO_TAG_BUTTON]).

Definition has_an_element_in_table_scope (tag : GumboTag) : parser bool :=
  has_an_element_in_specific_scope [tag] false [TAG GUMBO_TAG_HTML; TAG GUMBO_TAG_TABLE; TAG GUMBO_TAG_TEMPLATE].

Definition has_an_element_in_select_scope (tag : GumboTag) : parser bool :=
  has_an_element_in_specific_scope [tag] true [TAG GUMBO_TAG_OPTGROUP; TAG GUMBO_TAG_OPTION].

(** * Closing elements *)
Definition generate_implied_end_tags (exception : GumboTag) : parser unit :=
  pop_while (
    c ← get_current_node;
    b ← node_tag_in_set c [TAG GUMBO_TAG_DD; TAG GUMBO_TAG_DT; TAG GUMBO_TAG_LI; TAG GUMBO_TAG_OPTION;
        TAG GUMBO_TAG_OPTGROUP; TAG GUMBO_TAG_P; TAG GUMBO_TAG_RP; TAG GUMBO_TAG_RB; TAG GUMBO_TAG_RT;
        TAG GUMBO_TAG_RTC];
    if (b : bool) then x ← node_html_tag_is c exception; mret (negb x) else mret false).

Definition generate_all_implied_end_tags_thoroughly : parser unit :=
  pop_while (
    c ← get_current_node;
    node_tag_in_set c [TAG GUMBO_TAG_CAPTION; TAG GUMBO_TAG_COLGROUP; TAG GUMBO_TAG_DD; TAG GUMBO_TAG_DT;
        TAG GUMBO_TAG_LI; TAG GUMBO_TAG_OPTION; TAG GUMBO_TAG_OPTGROUP; TAG GUMBO_TAG_P; TAG GUMBO_TAG_RP;
        TAG GUMBO_TAG_RT; TAG GUMBO_TAG_RTC; TAG GUMBO_TAG_TBODY; TAG GUMBO_TAG_TD; TAG GUMBO_TAG_TFOOT;
        TAG GUMBO_TAG_TH; TAG GUMBO_TAG_HEAD; TAG GUMBO_TAG_TR]).

Definition pop_until_tag (tag : GumboTag) : parser unit := pop_until (fun n => node_html_tag_is n tag).

Definition close_table : parser bool :=
  b ← has_an_element_in_table_scope GUMBO_TAG_TABLE;
  if negb b then mret false
  else pop_until_tag GUMBO_TAG_TABLE;; reset_insertion_mode_appropriately;; mret true.

Definition close_table_cell (token : GumboToken) (cell_tag : GumboTag) : parser bool :=
  generate_implied_end_tags GUMBO_TAG_LAST;;
  node ← get_current_node;
  result ← node_html_tag_is node cell_tag;
  when (negb result) (parser_add_parse_error token);;
  pop_until_tag cell_tag;;
  clear_active_formatting_elements;;
  set_insertion_mode GUMBO_INSERTION_MODE_IN_ROW;;
  mret result.

Definition close_current_cell (token : GumboToken) : parser bool :=
  td ← has_an_element_in_table_scope GUMBO_TAG_TD;
  th ← has_an_element_in_table_scope GUMBO_TAG_TH;
  if (td : bool) then assert (negb th);; close_table_cell token GUMBO_TAG_TD
  else assert th;; close_table_cell token GUMBO_TAG_TH.

Definition close_current_select : parser unit :=
  pop_until_tag GUMBO_TAG_SELECT;; reset_insertion_mode_appropriately.

Definition special_tags : gumbo_tagset := [TAG GUMBO_TAG_ADDRESS; TAG GUMBO_TAG_APPLET; TAG GUMBO_TAG_AREA;
    TAG GUMBO_TAG_ARTICLE; TAG GUMBO_TAG_ASIDE; TAG GUMBO_TAG_BASE; TAG GUMBO_TAG_BASEFONT; TAG GUMBO_TAG_BGSOUND;
    TAG GUMBO_TAG_BLOCKQUOTE; TAG GUMBO_TAG_BODY; TAG GUMBO_TAG_BR; TAG GUMBO_TAG_BUTTON; TAG GUMBO_TAG_CAPTION;
    TAG GUMBO_TAG_CENTER; TAG GUMBO_TAG_COL; TAG GUMBO_TAG_COLGROUP; TAG GUMBO_TAG_MENUITEM; TAG GUMBO_TAG_DD;
    TAG GUMBO_TAG_DETAILS; TAG GUMBO_TAG_DIR; TAG GUMBO_TAG_DIV; TAG GUMBO_TAG_DL; TAG GUMBO_TAG_DT;
    TAG GUMBO_TAG_EMBED; TAG GUMBO_TAG_FIELDSET; TAG GUMBO_TAG_FIGCAPTION; TAG GUMBO_TAG_FIGURE;
    TAG GUMBO_TAG_FOOTER; TAG GUMBO_TAG_FORM; TAG GUMBO_TAG_FRAME; TAG GUMBO_TAG_FRAMESET; TAG GUMBO_TAG_H1;
    TAG GUMBO_TAG_H2; TAG GUMBO_TAG_H3; TAG GUMBO_TAG_H4; TAG GUMBO_TAG_H5; TAG GUMBO_TAG_H6; TAG GUMBO_TAG_HEAD;
    TAG GUMBO_TAG_HEADER; TAG GUMBO_TAG_HGROUP; TAG GUMBO_TAG_HR; TAG GUMBO_TAG_HTML; TAG GUMBO_TAG_IFRAME;
    TAG GUMBO_TAG_IMG; TAG GUMBO_TAG_INPUT; TAG GUMBO_TAG_ISINDEX; TAG GUMBO_TAG_LI; TAG GUMBO_TAG_LINK;
    TAG GUMBO_TAG_LISTING; TAG GUMBO_TAG_MARQUEE; TAG GUMBO_TAG_MENU; TAG GUMBO_TAG_META; TAG GUMBO_TAG_NAV;
    TAG GUMBO_TAG_NOEMBED; TAG GUMBO_TAG_NOFRAMES; TAG GUMBO_TAG_NOSCRIPT; TAG GUMBO_TAG_OBJECT; TAG GUMBO_TAG_OL;
    TAG GUMBO_TAG_P; TAG GUMBO_TAG_PARAM; TAG GUMBO_TAG_PLAINTEXT; TAG GUMBO_TAG_PRE; TAG GUMBO_TAG_SCRIPT;
    TAG GUMBO_TAG_SECTION; TAG GUMBO_TAG_SELECT; TAG GUMBO_TAG_STYLE; TAG GUMBO_TAG_SUMMARY; TAG GUMBO_TAG_TABLE;
    TAG GUMBO_TAG_TBODY; TAG GUMBO_TAG_TD; TAG GUMBO_TAG_TEMPLATE; TAG GUMBO_TAG_TEXTAREA; TAG GUMBO_TAG_TFOOT;
    TAG GUMBO_TAG_TH; TAG GUMBO_TAG_THEAD; TAG GUMBO_TAG_TITLE; TAG GUMBO_TAG_TR; TAG GUMBO_TAG_UL;
    TAG GUMBO_TAG_WBR; TAG GUMBO_TAG_XMP; TAG_MATHML GUMBO_TAG_MI; TAG_MATHML GUMBO_TAG_MO;
    TAG_MATHML GUMBO_TAG_MN; TAG_MATHML GUMBO_TAG_MS; TAG_MATHML GUMBO_TAG_MTEXT;
    TAG_MATHML GUMBO_TAG_ANNOTATION_XML; TAG_SVG GUMBO_TAG_FOREIGNOBJECT; TAG_SVG GUMBO_TAG_DESC].

Definition is_special_node (n : nat) : parser bool :=
  node ← deref (Some n);
  assert (is_element_type (n_type node));;
  node_tag_in_set (Some n) special_tags.

Definition implicitly_close_tags (token : GumboToken) (target_ns : GumboNamespaceEnum) (target : GumboTag)
  : parser bool :=
  generate_implied_end_tags target;;
  c ← get_current_node;
  result ← node_qualified_tag_is c target_ns target;
  when (negb result)
    (parser_add_parse_error token;;
     pop_while (c ← get_current_node; b ← node_qualified_tag_is c target_ns target; mret (negb b)));;
  c ← get_current_node;
  b ← node_qualified_tag_is c target_ns target;
  assert b;;
  pop_current_node;;
  mret result.

Definition maybe_implicitly_close_p_tag (token : GumboToken) : parser bool :=
  b ← has_an_element_in_button_scope GUMBO_TAG_P;
  if (b : bool) then implicitly_close_tags token GUMBO_NAMESPACE_HTML GUMBO_TAG_P else mret true.

(** The loop over the stack, given with its last element first. *)
Fixpoint close_list_loop (token : GumboToken) (is_li : bool) (stack : list nat) : parser unit :=
  match stack with
  | [] => mret tt
  | n :: stack =>
      is_list_tag ← (if is_li then node_html_tag_is (Some n) GUMBO_TAG_LI
                     else node_tag_in_set (Some n) [TAG GUMBO_TAG_DD; TAG GUMBO_TAG_DT]);
      if (is_list_tag : bool) then
        e ← element (Some n);
        implicitly_close_tags token (tag_namespace e) (el_tag e);; mret tt
      else
        special ← is_special_node n;
        other ← node_tag_in_set (Some n) [TAG GUMBO_TAG_ADDRESS; TAG GUMBO_TAG_DIV; TAG GUMBO_TAG_P];
        if special && negb other then mret tt else close_list_loop token is_li stack
  end.

Definition maybe_implicitly_close_list_tag (token : GumboToken) (is_li : bool) : parser unit :=
  modify (set_frameset_ok false);;
  open_elements ← get _open_elements;
  close_list_loop token is_li (rev open_elements).

(** The attributes of the token that the node does not have, in order, are added. *)
Fixpoint merge_attributes_loop (token_attr node_attr : list Lexer.GumboAttribute) : outcome (list Lexer.GumboAttribute) :=
  match token_attr with
  | [] => Ok node_attr
  | attr :: token_attr =>
      i ← gumbo_get_attribute node_attr (name attr);
      merge_attributes_loop token_attr (match i with None => node_attr ++ [attr] | Some _ => node_attr end)
  end.

Definition merge_attributes (token : GumboToken) (n : ptr) : parser unit :=
  assert (is_type token GUMBO_TOKEN_START_TAG);;
  node ← deref n;
  assert (bool_decide (n_type node = GUMBO_NODE_ELEMENT));;
  e ← lift (v_element node);
  token_attr ← lift (token_attributes token);
  attrs ← lift (merge_attributes_loop token_attr (el_attributes e));
  n ← lift (of_option n);
  modify_element n (set_el_attributes attrs);;
  set_token_attributes None.

(** * Foreign content *)
Definition kSvgAttributeReplacements : list (string * string) := [
  ("attributename", "attributeName"); ("attributetype", "attributeType"); ("basefrequency", "baseFrequency");
  ("baseprofile", "baseProfile"); ("calcmode", "calcMode"); ("clippathunits", "clipPathUnits");
  ("diffuseconstant", "diffuseConstant"); ("edgemode", "edgeMode"); ("filterunits", "filterUnits");
  ("glyphref", "glyphRef"); ("gradienttransform", "gradientTransform"); ("gradientunits", "gradientUnits");
  ("kernelmatrix", "kernelMatrix"); ("kernelunitlength", "kernelUnitLength"); ("keypoints", "keyPoints");
  ("keysplines", "keySplines"); ("keytimes", "keyTimes"); ("lengthadjust", "lengthAdjust");
  ("limitingconeangle", "limitingConeAngle"); ("markerheight", "markerHeight"); ("markerunits", "markerUnits");
  ("markerwidth", "markerWidth"); ("maskcontentunits", "maskContentUnits"); ("maskunits", "maskUnits");
  ("numoctaves", "numOctaves"); ("pathlength", "pathLength"); ("patterncontentunits", "patternContentUnits");
  ("patterntransform", "patternTransform"); ("patternunits", "patternUnits"); ("pointsatx", "pointsAtX");
  ("pointsaty", "pointsAtY"); ("pointsatz", "pointsAtZ"); ("preservealpha", "preserveAlpha");
  ("preserveaspectratio", "preserveAspectRatio"); ("primitiveunits", "primitiveUnits"); ("refx", "refX");
  ("refy", "refY"); ("repeatcount", "repeatCount"); ("repeatdur", "repeatDur");
  ("requiredextensions", "requiredExtensions"); ("requiredfeatures", "requiredFeatures"); ("specularconstant", "specularConstant");
  ("specularexponent", "specularExponent"); ("spreadmethod", "spreadMethod"); ("startoffset", "startOffset");
  ("stddeviation", "stdDeviation"); ("stitchtiles", "stitchTiles"); ("surfacescale", "surfaceScale");
  ("systemlanguage", "systemLanguage"); ("tablevalues", "tableValues"); ("targetx", "targetX");
  ("targety", "targetY"); ("textlength", "textLength"); ("viewbox", "viewBox");
  ("viewtarget", "viewTarget"); ("xchannelselector", "xChannelSelector"); ("ychannelselector", "yChannelSelector");
  ("zoomandpan", "zoomAndPan")]%string.

Definition kSvgTagReplacements : list (string * string) := [
  ("altglyph", "altGlyph"); ("altglyphdef", "altGlyphDef"); ("altglyphitem", "altGlyphItem");
  ("animatecolor", "animateColor"); ("animatemotion", "animateMotion"); ("animatetransform", "animateTransform");
  ("clippath", "clipPath"); ("feblend", "feBlend"); ("fecolormatrix", "feColorMatrix");
  ("fecomponenttransfer", "feComponentTransfer"); ("fecomposite", "feComposite"); ("feconvolvematrix", "feConvolveMatrix");
  ("fediffuselighting", "feDiffuseLighting"); ("fedisplacementmap", "feDisplacementMap"); ("fedistantlight", "feDistantLight");
  ("feflood", "feFlood"); ("fefunca", "feFuncA"); ("fefuncb", "feFuncB");
  ("fefuncg", "feFuncG"); ("fefuncr", "feFuncR"); ("fegaussianblur", "feGaussianBlur");
  ("feimage", "feImage"); ("femerge", "feMerge"); ("femergenode", "feMergeNode");
  ("femorphology", "feMorphology"); ("feoffset", "feOffset"); ("fepointlight", "fePointLight");
  ("fespecularlighting", "feSpecularLighting"); ("fespotlight", "feSpotLight"); ("fetile", "feTile");
  ("feturbulence", "feTurbulence"); ("foreignobject", "foreignObject"); ("glyphref", "glyphRef");
  ("lineargradient", "linearGradient"); ("radialgradient", "radialGradient"); ("textpath", "textPath")]%string.

Definition kForeignAttributeReplacements : list (string * string * GumboAttributeNamespaceEnum) := [
  ("xlink:actuate", "actuate", GUMBO_ATTR_NAMESPACE_XLINK); ("xlink:actuate", "actuate", GUMBO_ATTR_NAMESPACE_XLINK);
  ("xlink:href", "href", GUMBO_ATTR_NAMESPACE_XLINK); ("xlink:role", "role", GUMBO_ATTR_NAMESPACE_XLINK);
  ("xlink:show", "show", GUMBO_ATTR_NAMESPACE_XLINK); ("xlink:title", "title", GUMBO_ATTR_NAMESPACE_XLINK);
  ("xlink:type", "type", GUMBO_ATTR_NAMESPACE_XLINK); ("xml:base", "base", GUMBO_ATTR_NAMESPACE_XML);
  ("xml:lang", "lang", GUMBO_ATTR_NAMESPACE_XML); ("xml:space", "space", GUMBO_ATTR_NAMESPACE_XML);
  ("xmlns", "xmlns", GUMBO_ATTR_NAMESPACE_XMLNS); ("xmlns:xlink", "xlink", GUMBO_ATTR_NAMESPACE_XMLNS)]%string.

(** [gumbo_normalize_svg_tagname]; NULL is [None]. *)
Fixpoint normalize_svg_tagname (entries : list (string * string)) (tag : list Z) : outcome (option (list Z)) :=
  match entries with
  | [] => Ok None
  | (from, to) :: entries =>
      b ← gumbo_string_equals_ignore_case tag (text_of from);
      if (b : bool) then Ok (Some (text_of to)) else normalize_svg_tagname entries tag
  end.

Definition gumbo_normalize_svg_tagname (tag : list Z) : outcome (option (list Z)) :=
  normalize_svg_tagname kSvgTagReplacements tag.

(** The attribute of name [from], if there is one, gets another name and namespace. *)
Definition rename_attribute (from to : string) (ns : option GumboAttributeNamespaceEnum)
  (attrs : list Lexer.GumboAttribute) : outcome (list Lexer.GumboAttribute) :=
  i ← gumbo_get_attribute attrs (text_of from);
  match i with
  | None => Ok attrs
  | Some i =>
      a ← load attrs i;
      Ok (<[i := Attribute (default (attr_namespace a) ns) (text_of to) (original_name a) (value_ a)
             (original_value a) (name_start a) (name_end a) (value_start a) (value_end a)]> attrs)
  end.

Fixpoint rename_attributes (entries : list (string * string * option GumboAttributeNamespaceEnum))
  (attrs : list Lexer.GumboAttribute) : outcome (list Lexer.GumboAttribute) :=
  match entries with
  | [] => Ok attrs
  | (from, to, ns) :: entries => attrs ← rename_attribute from to ns attrs; rename_attributes entries attrs
  end.

(** The attributes of the token are modified in place. *)
Definition adjust_attributes (entries : list (string * string * option GumboAttributeNamespaceEnum)) : parser unit :=
  token ← get_token;
  assert (is_type token GUMBO_TOKEN_START_TAG);;
  start_tag ← lift (v_start_tag token);
  match attributes start_tag with
  | None => mret tt
  | Some attrs => attrs ← lift (rename_attributes entries attrs); set_token_attributes (Some attrs)
  end.

Definition adjust_foreign_attributes : parser unit :=
  adjust_attributes (map (fun '(from, to, ns) => (from, to, Some ns)) kForeignAttributeReplacements).
Definition adjust_svg_attributes : parser unit :=
  adjust_attributes (map (fun '(from, to) => (from, to, None)) kSvgAttributeReplacements).
Definition adjust_mathml_attributes : parser unit :=
  adjust_attributes [("definitionurl"%string, "definitionURL"%string, None)].

(** * Errors of the doctype *)
Definition doctype_matches (doctype : GumboTokenDocType) (public_id system_id : string)
  (allow_missing_system_id : bool) : outcome bool :=
  and_then (s ← c_str (public_identifier doctype); Ok (strcmp_eq s (text_of public_id)))
  (and_then (Ok (allow_missing_system_id || has_system_identifier doctype))
            (s ← c_str (system_identifier doctype); Ok (strcmp_eq s (text_of system_id)))).

(** The condition of the error. *)
Definition doctype_error (doctype : GumboTokenDocType) : outcome bool :=
  html_doctype ← name_is_html doctype;
  and_then
    (or_else (Ok (negb html_doctype || has_public_identifier doctype))
      (and_then (Ok (has_system_identifier doctype))
        (s ← c_str (system_identifier doctype); Ok (strcmp_eq s (text_of kSystemIdLegacyCompat)))))
    (standard ← and_then (Ok html_doctype)
       (or_else (doctype_matches doctype kPublicIdHtml4_0 kSystemIdRecHtml4_0 true)
       (or_else (doctype_matches doctype kPublicIdHtml4_01 kSystemIdHtml4 true)
       (or_else (doctype_matches doctype kPublicIdXhtml1_0 kSystemIdXhtmlStrict1_1 false)
                (doctype_matches doctype kPublicIdXhtml1_1 kSystemIdXhtml1_1 false))));
     Ok (negb standard)).

Definition maybe_add_doctype_error (token : GumboToken) : parser bool :=
  doctype ← lift (v_doc_type token);
  error ← lift (doctype_error doctype);
  if (error : bool) then parser_add_parse_error token;; mret false else mret true.

(** * The adoption agency *)
Definition remove_from_parent (node : nat) : parser unit :=
  n ← deref (Some node);
  match parent n with
  | None => mret tt
  | Some par =>
      pn ← deref (Some par);
      assert (bool_decide (n_type pn = GUMBO_NODE_ELEMENT));;
      e ← lift (v_element pn);
      match gumbo_vector_index_of (el_children e) node with
      | None => assert false
      | Some i =>
          children ← lift (gumbo_vector_remove_at i (el_children e));
          modify_element par (set_children children);;
          modify_node node (set_parent None);;
          modify_node node (set_index (-1));;
          renumber (drop i children) (Z.of_nat i)
      end
  end.

(** Step 5: the last formatting element of the tag, from index [i - 1] down to the
    last marker. *)
Fixpoint find_formatting_node (elements : list nat) (i : nat) (subject : GumboTag) : parser (option nat) :=
  match i with
  | O => mret None
  | S i =>
      n ← lift (load elements i);
      if is_marker n then mret None
      else
        b ← node_html_tag_is (Some n) subject;
        if (b : bool) then mret (Some n) else find_formatting_node elements i subject
  end.

(** Steps 9 and 10: the first special element from index [j] on. *)
Fixpoint find_furthest_block (stack : list nat) (j : nat) : parser (option nat) :=
  match stack with
  | [] => mret None
  | n :: stack =>
      assert (0 <? j)%nat;;
      b ← is_special_node n;
      if (b : bool) then mret (Some n) else find_furthest_block stack (S j)
  end.

(** Step 13.  [node], [last_node], the saved index of [node] and the bookmark are the
    variables of the loop; the result is the last node and the bookmark.  The index
    decreases with every iteration. *)
Fixpoint adoption_loop (fuel : nat) (formatting_node furthest_block : nat) (j : nat)
  (node last_node saved_node_index bookmark : nat) : parser (nat * nat) :=
  match fuel with
  | O => lift Undef
  | S fuel =>
      let j := S j in
      open_elements ← get _open_elements;
      let node_index := default saved_node_index (gumbo_vector_index_of open_elements node) in
      assert (1 <? node_index)%nat;;
      let node_index := (node_index - 1)%nat in
      node ← lift (load open_elements node_index);
      n ← deref (Some node);
      assert (bool_decide (is_Some (parent n)));;
      if (node =? formatting_node)%nat then mret (last_node, bookmark)
      else
        elements ← get _active_formatting_elements;
        match gumbo_vector_index_of elements node with
        | Some formatting_index =>
            if (3 <? j)%nat then
              elements ← lift (gumbo_vector_remove_at formatting_index elements);
              modify (set_active_formatting_elements elements);;
              adoption_loop fuel formatting_node furthest_block j node last_node node_index
                (if (formatting_index <? bookmark)%nat then bookmark - 1 else bookmark)%nat
            else
              node ← clone_node node GUMBO_INSERTION_ADOPTION_AGENCY_CLONED;
              modify (set_active_formatting_elements (<[formatting_index := node]> elements));;
              modify (set_open_elements (<[node_index := node]> open_elements));;
              let bookmark := if (last_node =? furthest_block)%nat then S formatting_index else bookmark in
              assert ((bookmark <=? length elements)%nat || negb (last_node =? furthest_block)%nat);;
              add_flags last_node GUMBO_INSERTION_ADOPTION_AGENCY_MOVED;;
              remove_from_parent last_node;;
              append_node node last_node;;
              adoption_loop fuel formatting_node furthest_block j node node node_index bookmark
        | None =>
            open_elements ← lift (gumbo_vector_remove_at node_index open_elements);
            modify (set_open_elements open_elements);;
            adoption_loop fuel formatting_node furthest_block j node last_node node_index bookmark
        end
  end.

Fixpoint set_parents (children : list nat) (par : nat) : parser unit :=
  match children with
  | [] => mret tt
  | c :: children => modify_node c (set_parent (Some par));; set_parents children par
  end.

(** Step 16: the children of the block and those of the new element, which has none,
    change places. *)
Definition swap_children (furthest_block new_formatting_node : nat) : parser unit :=
  block ← element (Some furthest_block);
  new ← element (Some new_formatting_node);
  modify_element new_formatting_node (set_children (el_children block));;
  modify_element furthest_block (set_children (el_children new));;
  set_parents (el_children block) new_formatting_node.

(** Steps 11 to 19. *)
Definition adopt (formatting_node furthest_block : nat) : parser unit :=
  open_elements ← get _open_elements;
  elements ← get _active_formatting_elements;
  common_ancestor ← lift (match gumbo_vector_index_of open_elements formatting_node with
                          | Some (S i) => load open_elements i | _ => Undef end);
  let bookmark := match gumbo_vector_index_of elements formatting_node with Some i => S i | None => O end in
  let saved_node_index := default 0%nat (gumbo_vector_index_of open_elements furthest_block) in
  assert (0 <? saved_node_index)%nat;;
  '(last_node, bookmark) ← adoption_loop (S (length open_elements)) formatting_node furthest_block 0
    furthest_block furthest_block saved_node_index bookmark;
  remove_from_parent last_node;;
  add_flags last_node GUMBO_INSERTION_ADOPTION_AGENCY_MOVED;;
  location ← get_appropriate_insertion_location (Some common_ancestor);
  insert_node last_node location;;
  new_formatting_node ← clone_node formatting_node GUMBO_INSERTION_ADOPTION_AGENCY_CLONED;
  add_flags formatting_node GUMBO_INSERTION_IMPLICIT_END_TAG;;
  swap_children furthest_block new_formatting_node;;
  append_node furthest_block new_formatting_node;;
  elements ← get _active_formatting_elements;
  match gumbo_vector_index_of elements formatting_node with
  | None => assert false
  | Some formatting_node_index =>
      bookmark ← (if (formatting_node_index <? bookmark)%nat then mret (bookmark - 1)%nat else mret bookmark);
      elements ← lift (gumbo_vector_remove_at formatting_node_index elements);
      elements ← lift (gumbo_vector_insert_at new_formatting_node bookmark elements);
      modify (set_active_formatting_elements elements)
  end;;
  open_elements ← get _open_elements;
  open_elements ← lift (gumbo_vector_remove formatting_node open_elements);
  let insert_at := match gumbo_vector_index_of open_elements furthest_block with Some i => S i | None => O end in
  open_elements ← lift (gumbo_vector_insert_at new_formatting_node insert_at open_elements);
  modify (set_open_elements open_elements).

(** The loop of steps 2 to 20, [n] more times. *)
Fixpoint adoption_outer_loop (n : nat) (token : GumboToken) (subject : GumboTag) : parser bool :=
  match n with
  | O => mret true
  | S n =>
      elements ← get _active_formatting_elements;
      formatting ← find_formatting_node elements (length elements) subject;
      match formatting with
      | None => mret false
      | Some formatting_node =>
          open_elements ← get _open_elements;
          match gumbo_vector_index_of open_elements formatting_node with
          | None =>
              parser_add_parse_error token;;
              elements ← lift (gumbo_vector_remove formatting_node elements);
              modify (set_active_formatting_elements elements);;
              mret false
          | Some formatting_node_in_open_elements =>
              e ← element (Some formatting_node);
              in_scope ← has_an_element_in_scope (el_tag e);
              if negb in_scope then parser_add_parse_error token;; mret false
              else
                current ← get_current_node;
                when (negb (bool_decide (current = Some formatting_node))) (parser_add_parse_error token);;
                html ← node_html_tag_is (Some formatting_node) GUMBO_TAG_HTML;
                assert (negb html);;
                body ← node_html_tag_is (Some formatting_node) GUMBO_TAG_BODY;
                assert (negb body);;
                furthest ← find_furthest_block (drop formatting_node_in_open_elements open_elements)
                  formatting_node_in_open_elements;
                match furthest with
                | None =>
                    pop_while (c ← get_current_node; mret (negb (bool_decide (c = Some formatting_node))));;
                    pop_current_node;;
                    elements ← get _active_formatting_elements;
                    elements ← lift (gumbo_vector_remove formatting_node elements);
                    modify (set_active_formatting_elements elements);;
                    mret false
                | Some furthest_block =>
                    html ← node_html_tag_is (Some furthest_block) GUMBO_TAG_HTML;
                    assert (negb html);;
                    adopt formatting_node furthest_block;;
                    adoption_outer_loop n token subject
                end
          end
      end
  end.

Definition adoption_agency_algorithm (token : GumboToken) (subject : GumboTag) : parser bool :=
  current ← get_current_node;
  e ← element current;
  current_node ← lift (of_option current);
  elements ← get _active_formatting_elements;
  if bool_decide (tag_namespace e = GUMBO_NAMESPACE_HTML) && bool_decide (el_tag e = subject) &&
     bool_decide (gumbo_vector_index_of elements current_node = None)
  then pop_current_node;; mret false
  else adoption_outer_loop 8 token subject.

(** * Tokens *)

(** [gumbo_token_destroy] of the current token, and the mark on it. *)
Definition ignore_token : parser unit :=
  token ← current_token;
  if is_type token GUMBO_TOKEN_START_TAG then set_token_attributes None else mret tt.

(** The first loop of [finish_parsing]; the stack shrinks with every iteration. *)
Fixpoint finish_loop (fuel : nat) : parser unit :=
  match fuel with
  | O => lift Undef
  | S fuel =>
      node ← pop_current_node;
      match node with
      | None => mret tt
      | Some n =>
          closed ← is_closed_body_or_html_tag (Some n);
          when (negb closed) (add_flags n GUMBO_INSERTION_IMPLICIT_END_TAG);;
          finish_loop fuel
      end
  end.

(** The second loop ends at once: the stack is empty. *)
Definition finish_parsing : parser unit :=
  maybe_flush_text_node_buffer;;
  n ← get (fun p => length (_open_elements p));
  finish_loop (S n);;
  pop_until (fun node => mret (bool_decide (node = None))).

End Parser.
