(* ===== verification/GumboModes.v ===== *)
(** gumbo-parser/src/parser.c: the insertion modes of the tree builder, the dispatch
    of a token and the main loop, over the operations of GumboParser.v.

    A handler reads the token it is given from the state and returns whether it was
    without error.  [handle_in_head], [handle_in_body] and [handle_in_template] call
    one another, at most three deep; they are first defined over the handlers they
    call, and then together by recursion on the depth. *)
From Stdlib Require Import Strings.String Strings.Ascii.
From S2P Require Import Prelude GumboTags GumboBase Utf8 CharRef GumboLexer GumboLexerRuns GumboParser.
Import Tags GumboBase Utf8 CharRef Lexer Parser.

Module Modes.

(** [parser_add_parse_error(parser, token); ignore_token(parser); return false;] *)
Definition ignore_with_error (token : GumboToken) : parser bool :=
  parser_add_parse_error token;; ignore_token;; mret false.

Definition reprocess : parser unit := modify (set_reprocess_current_token true).

(** [tag_in(...)] of a token that is an end tag, negated. *)
Definition other_end_tag (token : GumboToken) (tags : gumbo_tagset) : bool :=
  is_type token GUMBO_TOKEN_END_TAG && negb (tag_in token kEndTag tags).

(** A comment goes to the end of the current node. *)
Definition comment_in_current_node (token : GumboToken) : parser bool :=
  c ← get_current_node; append_comment_node c token;; mret true.

(** The element of the token, which has no contents. *)
Definition insert_void_element (token : GumboToken) : parser unit :=
  insert_element_from_token token;; pop_current_node;; acknowledge_self_closing_tag.

Definition current_is (tag : GumboTag) : parser bool := c ← get_current_node; node_html_tag_is c tag.

(** * Before the body *)
Definition handle_initial : parser bool :=
  token ← get_token;
  doc ← get_document_node;
  match ttype token with
  | GUMBO_TOKEN_WHITESPACE => ignore_token;; mret true
  | GUMBO_TOKEN_COMMENT => append_comment_node (Some doc) token;; mret true
  | GUMBO_TOKEN_DOCTYPE =>
      t ← lift (v_doc_type token);
      quirks ← lift (compute_quirks_mode t);
      modify_document doc (fun d => Document (doc_children d) true (dname t) (public_identifier t)
        (system_identifier t) quirks);;
      set_insertion_mode GUMBO_INSERTION_MODE_BEFORE_HTML;;
      maybe_add_doctype_error token
  | _ =>
      parser_add_parse_error token;;
      modify_document doc (fun d => Document (doc_children d) (has_doctype d) (doc_name d)
        (doc_public_identifier d) (doc_system_identifier d) GUMBO_DOCTYPE_QUIRKS);;
      set_insertion_mode GUMBO_INSERTION_MODE_BEFORE_HTML;;
      reprocess;;
      mret true
  end.

Definition handle_before_html : parser bool :=
  token ← get_token;
  if is_type token GUMBO_TOKEN_DOCTYPE then ignore_with_error token
  else if is_type token GUMBO_TOKEN_COMMENT then
    doc ← get_document_node; append_comment_node (Some doc) token;; mret true
  else if is_type token GUMBO_TOKEN_WHITESPACE then ignore_token;; mret true
  else if tag_is token kStartTag GUMBO_TAG_HTML then
    html_node ← insert_element_from_token token;
    modify (set_root (Some html_node));;
    set_insertion_mode GUMBO_INSERTION_MODE_BEFORE_HEAD;;
    mret true
  else if other_end_tag token [TAG GUMBO_TAG_HEAD; TAG GUMBO_TAG_BODY; TAG GUMBO_TAG_HTML;
      TAG GUMBO_TAG_BR] then ignore_with_error token
  else
    html_node ← insert_element_of_tag_type GUMBO_TAG_HTML GUMBO_INSERTION_IMPLIED;
    modify (set_root (Some html_node));;
    set_insertion_mode GUMBO_INSERTION_MODE_BEFORE_HEAD;;
    reprocess;;
    mret true.

Definition handle_before_head : parser bool :=
  token ← get_token;
  if is_type token GUMBO_TOKEN_DOCTYPE then ignore_with_error token
  else if is_type token GUMBO_TOKEN_COMMENT then comment_in_current_node token
  else if is_type token GUMBO_TOKEN_WHITESPACE then ignore_token;; mret true
  else if tag_is token kStartTag GUMBO_TAG_HEAD then
    node ← insert_element_from_token token;
    set_insertion_mode GUMBO_INSERTION_MODE_IN_HEAD;;
    modify (set_head_element (Some node));;
    mret true
  else if other_end_tag token [TAG GUMBO_TAG_HEAD; TAG GUMBO_TAG_BODY; TAG GUMBO_TAG_HTML;
      TAG GUMBO_TAG_BR] then ignore_with_error token
  else
    node ← insert_element_of_tag_type GUMBO_TAG_HEAD GUMBO_INSERTION_IMPLIED;
    set_insertion_mode GUMBO_INSERTION_MODE_IN_HEAD;;
    modify (set_head_element (Some node));;
    reprocess;;
    mret true.

(** The end tag of a template. *)
Definition close_template (token : GumboToken) : parser bool :=
  open ← has_open_element GUMBO_TAG_TEMPLATE;
  if negb open then ignore_with_error token
  else
    generate_all_implied_end_tags_thoroughly;;
    success ← current_is GUMBO_TAG_TEMPLATE;
    when (negb success) (parser_add_parse_error token);;
    pop_until_tag GUMBO_TAG_TEMPLATE;;
    clear_active_formatting_elements;;
    pop_template_insertion_mode;;
    reset_insertion_mode_appropriately;;
    mret success.

Definition in_head (handle_in_body : parser bool) : parser bool :=
  token ← get_token;
  if is_type token GUMBO_TOKEN_WHITESPACE then insert_text_token token;; mret true
  else if is_type token GUMBO_TOKEN_DOCTYPE then ignore_with_error token
  else if is_type token GUMBO_TOKEN_COMMENT then comment_in_current_node token
  else if tag_is token kStartTag GUMBO_TAG_HTML then handle_in_body
  else if tag_in token kStartTag [TAG GUMBO_TAG_BASE; TAG GUMBO_TAG_BASEFONT; TAG GUMBO_TAG_BGSOUND;
      TAG GUMBO_TAG_MENUITEM; TAG GUMBO_TAG_LINK] then
    insert_void_element token;; mret true
  else if tag_is token kStartTag GUMBO_TAG_META then insert_void_element token;; mret true
  else if tag_is token kStartTag GUMBO_TAG_TITLE then
    run_generic_parsing_algorithm token GUMBO_LEX_RCDATA;; mret true
  else if tag_in token kStartTag [TAG GUMBO_TAG_NOFRAMES; TAG GUMBO_TAG_STYLE] then
    run_generic_parsing_algorithm token GUMBO_LEX_RAWTEXT;; mret true
  else if tag_is token kStartTag GUMBO_TAG_NOSCRIPT then
    insert_element_from_token token;;
    set_insertion_mode GUMBO_INSERTION_MODE_IN_HEAD_NOSCRIPT;;
    mret true
  else if tag_is token kStartTag GUMBO_TAG_SCRIPT then
    run_generic_parsing_algorithm token GUMBO_LEX_SCRIPT;; mret true
  else if tag_is token kEndTag GUMBO_TAG_HEAD then
    head ← pop_current_node;
    b ← node_html_tag_is head GUMBO_TAG_HEAD;
    assert b;;
    set_insertion_mode GUMBO_INSERTION_MODE_AFTER_HEAD;;
    mret true
  else if tag_in token kEndTag [TAG GUMBO_TAG_BODY; TAG GUMBO_TAG_HTML; TAG GUMBO_TAG_BR] then
    pop_current_node;;
    set_insertion_mode GUMBO_INSERTION_MODE_AFTER_HEAD;;
    reprocess;;
    mret true
  else if tag_is token kStartTag GUMBO_TAG_TEMPLATE then
    insert_element_from_token token;;
    add_formatting_element kActiveFormattingScopeMarker;;
    modify (set_frameset_ok false);;
    set_insertion_mode GUMBO_INSERTION_MODE_IN_TEMPLATE;;
    push_template_insertion_mode GUMBO_INSERTION_MODE_IN_TEMPLATE;;
    mret true
  else if tag_is token kEndTag GUMBO_TAG_TEMPLATE then close_template token
  else if tag_is token kStartTag GUMBO_TAG_HEAD || is_type token GUMBO_TOKEN_END_TAG then ignore_with_error token
  else
    pop_current_node;;
    set_insertion_mode GUMBO_INSERTION_MODE_AFTER_HEAD;;
    reprocess;;
    mret true.

(** * In the body *)

(** The body is taken from the children of the root, and destroyed. *)
Definition remove_body (body_node : nat) : parser unit :=
  r ← get root;
  e ← element r;
  r ← lift (of_option r);
  children ← lift (gumbo_vector_remove body_node (el_children e));
  modify_element r (set_children children);;
  destroy body_node.

(** The frameset start tag: the body, with everything in it, is replaced.  The entry
    1 of the vector of open elements keeps the body while the stack is popped. *)
Definition body_frameset (token : GumboToken) : parser bool :=
  parser_add_parse_error token;;
  open_elements ← get _open_elements;
  ok ← get _frameset_ok;
  match open_elements !! 1%nat with
  | None => ignore_token;; mret false
  | Some body_node =>
      body ← node_html_tag_is (Some body_node) GUMBO_TAG_BODY;
      if negb body || negb ok then ignore_token;; mret false
      else
        pop_until (fun node => mret (bool_decide (node = Some body_node)));;
        clear_active_formatting_elements;;
        remove_body body_node;;
        insert_element_from_token token;;
        set_insertion_mode GUMBO_INSERTION_MODE_IN_FRAMESET;;
        mret true
  end.

(** An error for each open element that is not in the set. *)
Fixpoint errors_for_open (token : GumboToken) (tags : gumbo_tagset) (stack : list nat) : parser unit :=
  match stack with
  | [] => mret tt
  | n :: stack =>
      b ← node_tag_in_set (Some n) tags;
      when (negb b) (parser_add_parse_error token);;
      errors_for_open token tags stack
  end.

(** An error for the first open element that is not in the set. *)
Fixpoint error_for_open (token : GumboToken) (tags : gumbo_tagset) (stack : list nat) : parser bool :=
  match stack with
  | [] => mret true
  | n :: stack =>
      b ← node_tag_in_set (Some n) tags;
      if negb b then parser_add_parse_error token;; mret false else error_for_open token tags stack
  end.

Definition body_eof (handle_in_template : parser bool) (token : GumboToken) : parser bool :=
  open_elements ← get _open_elements;
  errors_for_open token [TAG GUMBO_TAG_DD; TAG GUMBO_TAG_DT; TAG GUMBO_TAG_LI; TAG GUMBO_TAG_P;
      TAG GUMBO_TAG_TBODY; TAG GUMBO_TAG_TD; TAG GUMBO_TAG_TFOOT; TAG GUMBO_TAG_TH; TAG GUMBO_TAG_THEAD;
      TAG GUMBO_TAG_TR; TAG GUMBO_TAG_BODY; TAG GUMBO_TAG_HTML] open_elements;;
  mode ← get_current_template_insertion_mode;
  if negb (bool_decide (mode = GUMBO_INSERTION_MODE_INITIAL)) then handle_in_template else mret true.

(** The end tags of body and html. *)
Definition body_end (token : GumboToken) : parser bool :=
  b ← has_an_element_in_scope GUMBO_TAG_BODY;
  if negb b then ignore_with_error token
  else
    open_elements ← get _open_elements;
    success ← error_for_open token [TAG GUMBO_TAG_DD; TAG GUMBO_TAG_DT; TAG GUMBO_TAG_LI; TAG GUMBO_TAG_OPTGROUP;
        TAG GUMBO_TAG_OPTION; TAG GUMBO_TAG_P; TAG GUMBO_TAG_RB; TAG GUMBO_TAG_RP; TAG GUMBO_TAG_RT;
        TAG GUMBO_TAG_RTC; TAG GUMBO_TAG_TBODY; TAG GUMBO_TAG_TD; TAG GUMBO_TAG_TFOOT; TAG GUMBO_TAG_TH;
        TAG GUMBO_TAG_THEAD; TAG GUMBO_TAG_TR; TAG GUMBO_TAG_BODY; TAG GUMBO_TAG_HTML] open_elements;
    set_insertion_mode GUMBO_INSERTION_MODE_AFTER_BODY;;
    (if tag_is token kEndTag GUMBO_TAG_HTML then reprocess
     else
       body ← lift (load open_elements 1);
       is_body ← node_html_tag_is (Some body) GUMBO_TAG_BODY;
       assert is_body;;
       token ← current_token;
       record_end_of_element token body);;
    mret success.

(** The first clauses; [other] is what follows them. *)
Definition body_text (handle_in_head handle_in_template other : parser bool) (token : GumboToken) : parser bool :=
  if is_type token GUMBO_TOKEN_NULL then ignore_with_error token
  else if is_type token GUMBO_TOKEN_WHITESPACE then
    reconstruct_active_formatting_elements;; insert_text_token token;; mret true
  else if is_type token GUMBO_TOKEN_CHARACTER || is_type token GUMBO_TOKEN_CDATA then
    reconstruct_active_formatting_elements;; insert_text_token token;; set_frameset_not_ok;; mret true
  else if is_type token GUMBO_TOKEN_COMMENT then comment_in_current_node token
  else if is_type token GUMBO_TOKEN_DOCTYPE then ignore_with_error token
  else if tag_is token kStartTag GUMBO_TAG_HTML then
    parser_add_parse_error token;;
    template ← has_open_element GUMBO_TAG_TEMPLATE;
    if (template : bool) then ignore_token;; mret false
    else
      r ← get root;
      assert (bool_decide (is_Some r));;
      node ← deref r;
      assert (bool_decide (n_type node = GUMBO_NODE_ELEMENT));;
      merge_attributes token r;;
      mret false
  else if tag_in token kStartTag [TAG GUMBO_TAG_BASE; TAG GUMBO_TAG_BASEFONT; TAG GUMBO_TAG_BGSOUND;
      TAG GUMBO_TAG_MENUITEM; TAG GUMBO_TAG_LINK; TAG GUMBO_TAG_META; TAG GUMBO_TAG_NOFRAMES; TAG GUMBO_TAG_SCRIPT;
      TAG GUMBO_TAG_STYLE; TAG GUMBO_TAG_TEMPLATE; TAG GUMBO_TAG_TITLE] ||
          tag_is token kEndTag GUMBO_TAG_TEMPLATE then handle_in_head
  else if tag_is token kStartTag GUMBO_TAG_BODY then
    parser_add_parse_error token;;
    open_elements ← get _open_elements;
    match open_elements !! 1%nat with
    | None => ignore_token;; mret false
    | Some second =>
        body ← node_html_tag_is (Some second) GUMBO_TAG_BODY;
        template ← has_open_element GUMBO_TAG_TEMPLATE;
        if negb body || template then ignore_token;; mret false
        else
          modify (set_frameset_ok false);;
          merge_attributes token (Some second);;
          mret false
    end
  else if tag_is token kStartTag GUMBO_TAG_FRAMESET then body_frameset token
  else if is_type token GUMBO_TOKEN_EOF then body_eof handle_in_template token
  else if tag_in token kEndTag [TAG GUMBO_TAG_BODY; TAG GUMBO_TAG_HTML] then body_end token
  else other.

(** A start tag after the end of an open paragraph. *)
Definition insert_after_p (token : GumboToken) : parser bool :=
  result ← maybe_implicitly_close_p_tag token;
  insert_element_from_token token;;
  mret result.

Definition heading_tags : gumbo_tagset := [TAG GUMBO_TAG_H1; TAG GUMBO_TAG_H2; TAG GUMBO_TAG_H3; TAG GUMBO_TAG_H4;
    TAG GUMBO_TAG_H5; TAG GUMBO_TAG_H6].

(** Start tags of blocks. *)
Definition body_blocks (other : parser bool) (token : GumboToken) : parser bool :=
  if tag_in token kStartTag [TAG GUMBO_TAG_ADDRESS; TAG GUMBO_TAG_ARTICLE; TAG GUMBO_TAG_ASIDE;
      TAG GUMBO_TAG_BLOCKQUOTE; TAG GUMBO_TAG_CENTER; TAG GUMBO_TAG_DETAILS; TAG GUMBO_TAG_DIR; TAG GUMBO_TAG_DIV;
      TAG GUMBO_TAG_DL; TAG GUMBO_TAG_FIELDSET; TAG GUMBO_TAG_FIGCAPTION; TAG GUMBO_TAG_FIGURE;
      TAG GUMBO_TAG_FOOTER; TAG GUMBO_TAG_HEADER; TAG GUMBO_TAG_HGROUP; TAG GUMBO_TAG_MENU; TAG GUMBO_TAG_MAIN;
      TAG GUMBO_TAG_NAV; TAG GUMBO_TAG_OL; TAG GUMBO_TAG_P; TAG GUMBO_TAG_SECTION; TAG GUMBO_TAG_SUMMARY;
      TAG GUMBO_TAG_UL] then insert_after_p token
  else if tag_in token kStartTag heading_tags then
    result ← maybe_implicitly_close_p_tag token;
    c ← get_current_node;
    heading ← node_tag_in_set c heading_tags;
    when heading (parser_add_parse_error token;; pop_current_node;; mret tt);;
    insert_element_from_token token;;
    mret (result && negb heading)
  else if tag_in token kStartTag [TAG GUMBO_TAG_PRE; TAG GUMBO_TAG_LISTING] then
    result ← insert_after_p token;
    modify (set_ignore_next_linefeed true);;
    modify (set_frameset_ok false);;
    mret result
  else if tag_is token kStartTag GUMBO_TAG_FORM then
    form ← get _form_element;
    template ← has_open_element GUMBO_TAG_TEMPLATE;
    if bool_decide (is_Some form) && negb template then ignore_with_error token
    else
      result ← maybe_implicitly_close_p_tag token;
      form_element ← insert_element_from_token token;
      template ← has_open_element GUMBO_TAG_TEMPLATE;
      when (negb template) (modify (set_form_element (Some form_element)));;
      mret result
  else if tag_is token kStartTag GUMBO_TAG_LI then
    maybe_implicitly_close_list_tag token true;; insert_after_p token
  else if tag_in token kStartTag [TAG GUMBO_TAG_DD; TAG GUMBO_TAG_DT] then
    maybe_implicitly_close_list_tag token false;; insert_after_p token
  else if tag_is token kStartTag GUMBO_TAG_PLAINTEXT then
    result ← insert_after_p token;
    on_tokenizer (gumbo_tokenizer_set_state GUMBO_LEX_PLAINTEXT);;
    mret result
  else if tag_is token kStartTag GUMBO_TAG_BUTTON then
    button ← has_an_element_in_scope GUMBO_TAG_BUTTON;
    if (button : bool) then
      parser_add_parse_error token;;
      implicitly_close_tags token GUMBO_NAMESPACE_HTML GUMBO_TAG_BUTTON;;
      reprocess;;
      mret false
    else
      reconstruct_active_formatting_elements;;
      insert_element_from_token token;;
      modify (set_frameset_ok false);;
      mret true
  else other.

(** The end tag of a form. *)
Definition body_end_form (token : GumboToken) : parser bool :=
  template ← has_open_element GUMBO_TAG_TEMPLATE;
  if (template : bool) then
    b ← has_an_element_in_scope GUMBO_TAG_FORM;
    if negb b then ignore_with_error token
    else
      generate_implied_end_tags GUMBO_TAG_LAST;;
      form ← current_is GUMBO_TAG_FORM;
      if negb form then parser_add_parse_error token;; mret false
      else pop_until_tag GUMBO_TAG_FORM;; mret true
  else
    node ← get _form_element;
    match node with
    | None => modify (set_form_element None);; ignore_with_error token
    | Some node =>
        n ← deref (Some node);
        assert (bool_decide (n_type n = GUMBO_NODE_ELEMENT));;
        modify (set_form_element None);;
        in_scope ← has_node_in_scope node;
        if negb in_scope then ignore_with_error token
        else
          generate_implied_end_tags GUMBO_TAG_LAST;;
          c ← get_current_node;
          let result := bool_decide (c = Some node) in
          when (negb result) (parser_add_parse_error token);;
          open_elements ← get _open_elements;
          match gumbo_vector_index_of open_elements node with
          | None => assert false
          | Some index =>
              open_elements ← lift (gumbo_vector_remove_at index open_elements);
              modify (set_open_elements open_elements)
          end;;
          mret result
    end.

(** The end tag of a heading. *)
Definition body_end_heading (token : GumboToken) : parser bool :=
  b ← has_an_element_in_scope_with_tagname
    [GUMBO_TAG_H1; GUMBO_TAG_H2; GUMBO_TAG_H3; GUMBO_TAG_H4; GUMBO_TAG_H5; GUMBO_TAG_H6];
  if negb b then ignore_with_error token
  else
    generate_implied_end_tags GUMBO_TAG_LAST;;
    tag ← lift (v_end_tag token);
    success ← current_is tag;
    when (negb success) (parser_add_parse_error token);;
    pop_until (fun n => node_tag_in_set n heading_tags);;
    mret success.

(** End tags of blocks. *)
Definition body_end_blocks (other : parser bool) (token : GumboToken) : parser bool :=
  if tag_in token kEndTag [TAG GUMBO_TAG_ADDRESS; TAG GUMBO_TAG_ARTICLE; TAG GUMBO_TAG_ASIDE;
      TAG GUMBO_TAG_BLOCKQUOTE; TAG GUMBO_TAG_BUTTON; TAG GUMBO_TAG_CENTER; TAG GUMBO_TAG_DETAILS;
      TAG GUMBO_TAG_DIR; TAG GUMBO_TAG_DIV; TAG GUMBO_TAG_DL; TAG GUMBO_TAG_FIELDSET; TAG GUMBO_TAG_FIGCAPTION;
      TAG GUMBO_TAG_FIGURE; TAG GUMBO_TAG_FOOTER; TAG GUMBO_TAG_HEADER; TAG GUMBO_TAG_HGROUP;
      TAG GUMBO_TAG_LISTING; TAG GUMBO_TAG_MAIN; TAG GUMBO_TAG_MENU; TAG GUMBO_TAG_NAV; TAG GUMBO_TAG_OL;
      TAG GUMBO_TAG_PRE; TAG GUMBO_TAG_SECTION; TAG GUMBO_TAG_SUMMARY; TAG GUMBO_TAG_UL] then
    tag ← lift (v_end_tag token);
    b ← has_an_element_in_scope tag;
    if negb b then ignore_with_error token
    else implicitly_close_tags token GUMBO_NAMESPACE_HTML tag;; mret true
  else if tag_is token kEndTag GUMBO_TAG_FORM then body_end_form token
  else if tag_is token kEndTag GUMBO_TAG_P then
    b ← has_an_element_in_button_scope GUMBO_TAG_P;
    if negb b then
      parser_add_parse_error token;;
      insert_element_of_tag_type GUMBO_TAG_P GUMBO_INSERTION_CONVERTED_FROM_END_TAG;;
      reprocess;;
      mret false
    else implicitly_close_tags token GUMBO_NAMESPACE_HTML GUMBO_TAG_P
  else if tag_is token kEndTag GUMBO_TAG_LI then
    b ← has_an_element_in_list_scope GUMBO_TAG_LI;
    if negb b then ignore_with_error token
    else implicitly_close_tags token GUMBO_NAMESPACE_HTML GUMBO_TAG_LI
  else if tag_in token kEndTag [TAG GUMBO_TAG_DD; TAG GUMBO_TAG_DT] then
    tag ← lift (v_end_tag token);
    b ← has_an_element_in_scope tag;
    if negb b then ignore_with_error token
    else implicitly_close_tags token GUMBO_NAMESPACE_HTML tag
  else if tag_in token kEndTag heading_tags then body_end_heading token
  else other.

(** The start tag of an anchor. *)
Definition body_anchor (token : GumboToken) : parser bool :=
  last_a ← find_last_anchor_index;
  success ← (match last_a with
    | None => mret true
    | Some _ =>
        parser_add_parse_error token;;
        adoption_agency_algorithm token GUMBO_TAG_A;;
        last_a ← find_last_anchor_index;
        match last_a with
        | None => mret tt
        | Some i =>
            elements ← get _active_formatting_elements;
            last_element ← lift (load elements i);
            elements ← lift (gumbo_vector_remove_at i elements);
            modify (set_active_formatting_elements elements);;
            open_elements ← get _open_elements;
            open_elements ← lift (gumbo_vector_remove last_element open_elements);
            modify (set_open_elements open_elements)
        end;;
        mret false
    end);
  reconstruct_active_formatting_elements;;
  n ← insert_element_from_token token;
  add_formatting_element n;;
  mret success.

(** Formatting elements, and the elements that put a marker. *)
Definition body_formatting (other : parser bool) (token : GumboToken) : parser bool :=
  if tag_is token kStartTag GUMBO_TAG_A then body_anchor token
  else if tag_in token kStartTag [TAG GUMBO_TAG_B; TAG GUMBO_TAG_BIG; TAG GUMBO_TAG_CODE; TAG GUMBO_TAG_EM;
      TAG GUMBO_TAG_FONT; TAG GUMBO_TAG_I; TAG GUMBO_TAG_S; TAG GUMBO_TAG_SMALL; TAG GUMBO_TAG_STRIKE;
      TAG GUMBO_TAG_STRONG; TAG GUMBO_TAG_TT; TAG GUMBO_TAG_U] then
    reconstruct_active_formatting_elements;;
    n ← insert_element_from_token token;
    add_formatting_element n;;
    mret true
  else if tag_is token kStartTag GUMBO_TAG_NOBR then
    reconstruct_active_formatting_elements;;
    nobr ← has_an_element_in_scope GUMBO_TAG_NOBR;
    when nobr
      (parser_add_parse_error token;;
       adoption_agency_algorithm token GUMBO_TAG_NOBR;;
       reconstruct_active_formatting_elements);;
    insert_element_from_token token;;
    c ← get_current_node;
    n ← lift (of_option c);
    add_formatting_element n;;
    mret (negb nobr)
  else if tag_in token kEndTag [TAG GUMBO_TAG_A; TAG GUMBO_TAG_B; TAG GUMBO_TAG_BIG; TAG GUMBO_TAG_CODE;
      TAG GUMBO_TAG_EM; TAG GUMBO_TAG_FONT; TAG GUMBO_TAG_I; TAG GUMBO_TAG_NOBR; TAG GUMBO_TAG_S;
      TAG GUMBO_TAG_SMALL; TAG GUMBO_TAG_STRIKE; TAG GUMBO_TAG_STRONG; TAG GUMBO_TAG_TT; TAG GUMBO_TAG_U] then
    tag ← lift (v_end_tag token); adoption_agency_algorithm token tag
  else if tag_in token kStartTag [TAG GUMBO_TAG_APPLET; TAG GUMBO_TAG_MARQUEE; TAG GUMBO_TAG_OBJECT] then
    reconstruct_active_formatting_elements;;
    insert_element_from_token token;;
    add_formatting_element kActiveFormattingScopeMarker;;
    set_frameset_not_ok;;
    mret true
  else if tag_in token kEndTag [TAG GUMBO_TAG_APPLET; TAG GUMBO_TAG_MARQUEE; TAG GUMBO_TAG_OBJECT] then
    tag ← lift (v_end_tag token);
    b ← has_an_element_in_table_scope tag;
    if negb b then ignore_with_error token
    else
      implicitly_close_tags token GUMBO_NAMESPACE_HTML tag;;
      clear_active_formatting_elements;;
      mret true
  else if tag_is token kStartTag GUMBO_TAG_TABLE then
    doc ← get_document_node;
    node ← deref (Some doc);
    d ← lift (v_document node);
    when (negb (bool_decide (doc_type_quirks_mode d = GUMBO_DOCTYPE_QUIRKS)))
      (maybe_implicitly_close_p_tag token;; mret tt);;
    insert_element_from_token token;;
    set_frameset_not_ok;;
    set_insertion_mode GUMBO_INSERTION_MODE_IN_TABLE;;
    mret true
  else other.

(** Images and the like.  The tag of an [image] is changed in the token before the
    element is created. *)
Definition body_image (token : GumboToken) : parser bool :=
  let image := tag_is token kStartTag GUMBO_TAG_IMAGE in
  when image
    (parser_add_parse_error token;;
     t ← lift (v_start_tag token);
     set_token_value (VStartTag (StartTag GUMBO_TAG_IMG (attributes t) (is_self_closing t))));;
  reconstruct_active_formatting_elements;;
  token ← get_token;
  node ← insert_element_from_token token;
  token ← get_token;
  let still_image := tag_is token kStartTag GUMBO_TAG_IMAGE in
  when still_image
    (parser_add_parse_error token;;
     modify_element node (set_el_tag GUMBO_TAG_IMG);;
     add_flags node GUMBO_INSERTION_FROM_IMAGE);;
  pop_current_node;;
  acknowledge_self_closing_tag;;
  set_frameset_not_ok;;
  mret (negb image && negb still_image).

(** A piece of a literal of the program: only its length is kept. *)
Definition literal_piece (s : string) : GumboStringPiece := Piece 0 (Z.of_nat (length (text_of s))).

Definition isindex_prompt : string := "This is a searchable index. Enter search keywords: ".

Definition isindex_name : Lexer.GumboAttribute :=
  Attribute GUMBO_ATTR_NAMESPACE_NONE (text_of "name") (literal_piece "name") (text_of "isindex")
    (literal_piece "isindex") kGumboEmptySourcePosition kGumboEmptySourcePosition
    kGumboEmptySourcePosition kGumboEmptySourcePosition.

(** The attributes at other positions than the three. *)
Definition other_attributes (attrs : list Lexer.GumboAttribute) (skip : list (option nat)) : list Lexer.GumboAttribute :=
  snd <$> filter (fun '(i, _) => Some i ∉ skip) (zip (seq 0 (length attrs)) attrs).

(** The element [isindex]: a form with a label and an input is built. *)
Definition body_isindex (token : GumboToken) : parser bool :=
  parser_add_parse_error token;;
  form ← get _form_element;
  template ← has_open_element GUMBO_TAG_TEMPLATE;
  if bool_decide (is_Some form) && negb template then ignore_token;; mret false
  else
    acknowledge_self_closing_tag;;
    maybe_implicitly_close_p_tag token;;
    set_frameset_not_ok;;
    attrs ← lift (token_attributes token);
    prompt_attr ← lift (gumbo_get_attribute attrs (text_of "prompt"));
    action_attr ← lift (gumbo_get_attribute attrs (text_of "action"));
    name_attr ← lift (gumbo_get_attribute attrs (text_of "name"));
    form ← insert_element_of_tag_type GUMBO_TAG_FORM GUMBO_INSERTION_FROM_ISINDEX;
    template ← has_open_element GUMBO_TAG_TEMPLATE;
    when (negb template) (modify (set_form_element (Some form)));;
    match action_attr with
    | None => mret tt
    | Some i =>
        a ← lift (load attrs i);
        modify_element form (fun e => set_el_attributes (el_attributes e ++ [a]) e)
    end;;
    insert_element_of_tag_type GUMBO_TAG_HR GUMBO_INSERTION_FROM_ISINDEX;;
    pop_current_node;;
    insert_element_of_tag_type GUMBO_TAG_LABEL GUMBO_INSERTION_FROM_ISINDEX;;
    b ← get _text_node;
    text ← match prompt_attr with
           | Some i => a ← lift (load attrs i); mret (c_string (value_ a))
           | None => mret (tn_buffer b ++ text_of isindex_prompt)
           end;
    modify (set_text_node (TextBuffer text (pdata (toriginal_text token)) (tposition token) GUMBO_NODE_TEXT));;
    input ← insert_element_of_tag_type GUMBO_TAG_INPUT GUMBO_INSERTION_FROM_ISINDEX;
    modify_element input (fun e => set_el_attributes
      (el_attributes e ++ other_attributes attrs [prompt_attr; action_attr; name_attr]) e);;
    ignore_token;;
    modify_element input (fun e => set_el_attributes (el_attributes e ++ [isindex_name]) e);;
    pop_current_node;;
    pop_current_node;;
    insert_element_of_tag_type GUMBO_TAG_HR GUMBO_INSERTION_FROM_ISINDEX;;
    pop_current_node;;
    pop_current_node;;
    template ← has_open_element GUMBO_TAG_TEMPLATE;
    when (negb template) (modify (set_form_element None));;
    mret false.

(** Void elements and forms. *)
Definition body_void (other : parser bool) (token : GumboToken) : parser bool :=
  if tag_in token kStartTag [TAG GUMBO_TAG_AREA; TAG GUMBO_TAG_BR; TAG GUMBO_TAG_EMBED; TAG GUMBO_TAG_IMG;
      TAG GUMBO_TAG_IMAGE; TAG GUMBO_TAG_KEYGEN; TAG GUMBO_TAG_WBR] then
    body_image token
  else if tag_is token kStartTag GUMBO_TAG_INPUT then
    attrs ← lift (token_attributes token);
    hidden ← lift (attribute_matches attrs "type" "hidden");
    when (negb hidden) set_frameset_not_ok;;
    reconstruct_active_formatting_elements;;
    insert_void_element token;;
    mret true
  else if tag_in token kStartTag [TAG GUMBO_TAG_PARAM; TAG GUMBO_TAG_SOURCE;
      TAG GUMBO_TAG_TRACK] then insert_void_element token;; mret true
  else if tag_is token kStartTag GUMBO_TAG_HR then
    result ← maybe_implicitly_close_p_tag token;
    insert_void_element token;;
    set_frameset_not_ok;;
    mret result
  else if tag_is token kStartTag GUMBO_TAG_ISINDEX then body_isindex token
  else other.

(** Elements of raw text, and select. *)
Definition body_raw (other : parser bool) (token : GumboToken) : parser bool :=
  if tag_is token kStartTag GUMBO_TAG_TEXTAREA then
    run_generic_parsing_algorithm token GUMBO_LEX_RCDATA;;
    modify (set_ignore_next_linefeed true);;
    set_frameset_not_ok;;
    mret true
  else if tag_is token kStartTag GUMBO_TAG_XMP then
    result ← maybe_implicitly_close_p_tag token;
    reconstruct_active_formatting_elements;;
    set_frameset_not_ok;;
    run_generic_parsing_algorithm token GUMBO_LEX_RAWTEXT;;
    mret result
  else if tag_is token kStartTag GUMBO_TAG_IFRAME then
    set_frameset_not_ok;;
    run_generic_parsing_algorithm token GUMBO_LEX_RAWTEXT;;
    mret true
  else if tag_is token kStartTag GUMBO_TAG_NOEMBED then
    run_generic_parsing_algorithm token GUMBO_LEX_RAWTEXT;; mret true
  else if tag_is token kStartTag GUMBO_TAG_SELECT then
    reconstruct_active_formatting_elements;;
    insert_element_from_token token;;
    set_frameset_not_ok;;
    mode ← get _insertion_mode;
    set_insertion_mode
      (match mode with
       | GUMBO_INSERTION_MODE_IN_TABLE | GUMBO_INSERTION_MODE_IN_CAPTION | GUMBO_INSERTION_MODE_IN_TABLE_BODY
       | GUMBO_INSERTION_MODE_IN_ROW | GUMBO_INSERTION_MODE_IN_CELL => GUMBO_INSERTION_MODE_IN_SELECT_IN_TABLE
       | _ => GUMBO_INSERTION_MODE_IN_SELECT
       end);;
    mret true
  else if tag_in token kStartTag [TAG GUMBO_TAG_OPTION; TAG GUMBO_TAG_OPTGROUP] then
    option ← current_is GUMBO_TAG_OPTION;
    when option (pop_current_node;; mret tt);;
    reconstruct_active_formatting_elements;;
    insert_element_from_token token;;
    mret true
  else if tag_in token kStartTag [TAG GUMBO_TAG_RB; TAG GUMBO_TAG_RP; TAG GUMBO_TAG_RT; TAG GUMBO_TAG_RTC] then
    let exception := if tag_in token kStartTag [TAG GUMBO_TAG_RT;
        TAG GUMBO_TAG_RP] then GUMBO_TAG_RTC else GUMBO_TAG_LAST in
    ruby ← has_an_element_in_scope GUMBO_TAG_RUBY;
    when ruby (generate_implied_end_tags exception);;
    current_ruby ← current_is GUMBO_TAG_RUBY;
    current_rtc ← current_is GUMBO_TAG_RTC;
    let success := current_ruby || bool_decide (exception = GUMBO_TAG_LAST) || current_rtc in
    when (negb success) (parser_add_parse_error token);;
    insert_element_from_token token;;
    mret success
  else other.

(** [is_self_closing] is read from the token after the element was inserted. *)
Definition close_if_self_closing : parser unit :=
  token ← get_token;
  t ← lift (v_start_tag token);
  when (is_self_closing t) (pop_current_node;; acknowledge_self_closing_tag).

(** Any other end tag: up the stack, given with its last element first, to an element
    of that tag, which is closed, or to a special one. *)
Fixpoint body_any_end_tag (token : GumboToken) (end_tag : GumboTag) (stack : list nat) : parser bool :=
  match stack with
  | [] => assert false;; mret false
  | node :: stack =>
      b ← node_html_tag_is (Some node) end_tag;
      if (b : bool) then
        generate_implied_end_tags end_tag;;
        pop_until (fun n => mret (bool_decide (n = Some node)));;
        mret true
      else
        special ← is_special_node node;
        if (special : bool) then ignore_with_error token else body_any_end_tag token end_tag stack
  end.

Definition body_other (token : GumboToken) : parser bool :=
  if tag_is token kEndTag GUMBO_TAG_BR then
    parser_add_parse_error token;;
    reconstruct_active_formatting_elements;;
    insert_element_of_tag_type GUMBO_TAG_BR GUMBO_INSERTION_CONVERTED_FROM_END_TAG;;
    pop_current_node;;
    mret false
  else if tag_is token kStartTag GUMBO_TAG_MATH then
    reconstruct_active_formatting_elements;;
    adjust_mathml_attributes;;
    adjust_foreign_attributes;;
    token ← get_token;
    insert_foreign_element token GUMBO_NAMESPACE_MATHML;;
    close_if_self_closing;;
    mret true
  else if tag_is token kStartTag GUMBO_TAG_SVG then
    reconstruct_active_formatting_elements;;
    adjust_svg_attributes;;
    adjust_foreign_attributes;;
    token ← get_token;
    insert_foreign_element token GUMBO_NAMESPACE_SVG;;
    close_if_self_closing;;
    mret true
  else if tag_in token kStartTag [TAG GUMBO_TAG_CAPTION; TAG GUMBO_TAG_COL; TAG GUMBO_TAG_COLGROUP;
      TAG GUMBO_TAG_FRAME; TAG GUMBO_TAG_HEAD; TAG GUMBO_TAG_TBODY; TAG GUMBO_TAG_TD; TAG GUMBO_TAG_TFOOT;
      TAG GUMBO_TAG_TH; TAG GUMBO_TAG_THEAD; TAG GUMBO_TAG_TR] then ignore_with_error token
  else if is_type token GUMBO_TOKEN_START_TAG then
    reconstruct_active_formatting_elements;;
    insert_element_from_token token;;
    mret true
  else
    assert (is_type token GUMBO_TOKEN_END_TAG);;
    end_tag ← lift (v_end_tag token);
    open_elements ← get _open_elements;
    assert (0 <? length open_elements)%nat;;
    html ← node_html_tag_is (head open_elements) GUMBO_TAG_HTML;
    assert html;;
    body_any_end_tag token end_tag (rev open_elements).

Definition in_body (handle_in_head handle_in_template : parser bool) : parser bool :=
  token ← get_token;
  open_elements ← get _open_elements;
  assert (0 <? length open_elements)%nat;;
  body_text handle_in_head handle_in_template
    (body_blocks (body_end_blocks (body_formatting (body_void (body_raw (body_other token)
      token) token) token) token) token) token.

(** * Templates *)
Definition switch_template_mode (mode : GumboInsertionMode) : parser bool :=
  pop_template_insertion_mode;;
  push_template_insertion_mode mode;;
  set_insertion_mode mode;;
  reprocess;;
  mret true.

Definition in_template (handle_in_body handle_in_head : parser bool) : parser bool :=
  token ← get_token;
  if is_type token GUMBO_TOKEN_WHITESPACE || is_type token GUMBO_TOKEN_CHARACTER ||
     is_type token GUMBO_TOKEN_COMMENT || is_type token GUMBO_TOKEN_NULL || is_type token GUMBO_TOKEN_DOCTYPE then
    handle_in_body
  else if tag_in token kStartTag [TAG GUMBO_TAG_BASE; TAG GUMBO_TAG_BASEFONT; TAG GUMBO_TAG_BGSOUND;
      TAG GUMBO_TAG_LINK; TAG GUMBO_TAG_META; TAG GUMBO_TAG_NOFRAMES; TAG GUMBO_TAG_SCRIPT; TAG GUMBO_TAG_STYLE;
      TAG GUMBO_TAG_TEMPLATE; TAG GUMBO_TAG_TITLE] ||
          tag_is token kEndTag GUMBO_TAG_TEMPLATE then handle_in_head
  else if tag_in token kStartTag [TAG GUMBO_TAG_CAPTION; TAG GUMBO_TAG_COLGROUP; TAG GUMBO_TAG_TBODY;
      TAG GUMBO_TAG_TFOOT; TAG GUMBO_TAG_THEAD] then
    switch_template_mode GUMBO_INSERTION_MODE_IN_TABLE
  else if tag_is token kStartTag GUMBO_TAG_COL then switch_template_mode GUMBO_INSERTION_MODE_IN_COLUMN_GROUP
  else if tag_is token kStartTag GUMBO_TAG_TR then switch_template_mode GUMBO_INSERTION_MODE_IN_TABLE_BODY
  else if tag_in token kStartTag [TAG GUMBO_TAG_TD;
      TAG GUMBO_TAG_TH] then switch_template_mode GUMBO_INSERTION_MODE_IN_ROW
  else if is_type token GUMBO_TOKEN_START_TAG then switch_template_mode GUMBO_INSERTION_MODE_IN_BODY
  else if is_type token GUMBO_TOKEN_END_TAG then ignore_with_error token
  else if is_type token GUMBO_TOKEN_EOF then
    open ← has_open_element GUMBO_TAG_TEMPLATE;
    if negb open then mret true
    else
      parser_add_parse_error token;;
      pop_until_tag GUMBO_TAG_TEMPLATE;;
      clear_active_formatting_elements;;
      pop_template_insertion_mode;;
      reset_insertion_mode_appropriately;;
      reprocess;;
      mret false
  else assert false;; mret false.

(** ** The three handlers together *)
Inductive handler := IN_HEAD | IN_BODY | IN_TEMPLATE.

Fixpoint handle (depth : nat) (h : handler) : parser bool :=
  match depth with
  | O => lift Undef
  | S depth =>
      match h with
      | IN_HEAD => in_head (handle depth IN_BODY)
      | IN_BODY => in_body (handle depth IN_HEAD) (handle depth IN_TEMPLATE)
      | IN_TEMPLATE => in_template (handle depth IN_BODY) (handle depth IN_HEAD)
      end
  end.

Definition handle_in_head : parser bool := handle 3 IN_HEAD.
Definition handle_in_body : parser bool := handle 3 IN_BODY.
Definition handle_in_template : parser bool := handle 3 IN_TEMPLATE.

(** * Head without scripting, after the head, raw text *)
Definition handle_in_head_noscript : parser bool :=
  token ← get_token;
  if is_type token GUMBO_TOKEN_DOCTYPE then parser_add_parse_error token;; mret false
  else if tag_is token kStartTag GUMBO_TAG_HTML then handle_in_body
  else if tag_is token kEndTag GUMBO_TAG_NOSCRIPT then
    node ← pop_current_node;
    b ← node_html_tag_is node GUMBO_TAG_NOSCRIPT;
    assert b;;
    set_insertion_mode GUMBO_INSERTION_MODE_IN_HEAD;;
    mret true
  else if is_type token GUMBO_TOKEN_WHITESPACE || is_type token GUMBO_TOKEN_COMMENT ||
          tag_in token kStartTag [TAG GUMBO_TAG_BASEFONT; TAG GUMBO_TAG_BGSOUND; TAG GUMBO_TAG_LINK;
              TAG GUMBO_TAG_META; TAG GUMBO_TAG_NOFRAMES; TAG GUMBO_TAG_STYLE] then
    handle_in_head
  else if tag_in token kStartTag [TAG GUMBO_TAG_HEAD; TAG GUMBO_TAG_NOSCRIPT] ||
          (is_type token GUMBO_TOKEN_END_TAG && negb (tag_is token kEndTag GUMBO_TAG_BR)) then
    ignore_with_error token
  else
    parser_add_parse_error token;;
    node ← pop_current_node;
    b ← node_html_tag_is node GUMBO_TAG_NOSCRIPT;
    assert b;;
    set_insertion_mode GUMBO_INSERTION_MODE_IN_HEAD;;
    reprocess;;
    mret false.

Definition handle_after_head : parser bool :=
  token ← get_token;
  if is_type token GUMBO_TOKEN_WHITESPACE then insert_text_token token;; mret true
  else if is_type token GUMBO_TOKEN_DOCTYPE then ignore_with_error token
  else if is_type token GUMBO_TOKEN_COMMENT then comment_in_current_node token
  else if tag_is token kStartTag GUMBO_TAG_HTML then handle_in_body
  else if tag_is token kStartTag GUMBO_TAG_BODY then
    insert_element_from_token token;;
    modify (set_frameset_ok false);;
    set_insertion_mode GUMBO_INSERTION_MODE_IN_BODY;;
    mret true
  else if tag_is token kStartTag GUMBO_TAG_FRAMESET then
    insert_element_from_token token;;
    set_insertion_mode GUMBO_INSERTION_MODE_IN_FRAMESET;;
    mret true
  else if tag_in token kStartTag [TAG GUMBO_TAG_BASE; TAG GUMBO_TAG_BASEFONT; TAG GUMBO_TAG_BGSOUND;
      TAG GUMBO_TAG_LINK; TAG GUMBO_TAG_META; TAG GUMBO_TAG_NOFRAMES; TAG GUMBO_TAG_SCRIPT; TAG GUMBO_TAG_STYLE;
      TAG GUMBO_TAG_TEMPLATE; TAG GUMBO_TAG_TITLE] then
    parser_add_parse_error token;;
    head ← get _head_element;
    assert (bool_decide (is_Some head));;
    maybe_flush_text_node_buffer;;
    head ← lift (of_option head);
    modify (fun p => set_open_elements (_open_elements p ++ [head]) p);;
    result ← handle_in_head;
    head ← get _head_element;
    head ← lift (of_option head);
    open_elements ← get _open_elements;
    open_elements ← lift (gumbo_vector_remove head open_elements);
    modify (set_open_elements open_elements);;
    mret result
  else if tag_is token kEndTag GUMBO_TAG_TEMPLATE then handle_in_head
  else if tag_is token kStartTag GUMBO_TAG_HEAD || other_end_tag token [TAG GUMBO_TAG_BODY; TAG GUMBO_TAG_HTML;
      TAG GUMBO_TAG_BR] then
    ignore_with_error token
  else
    insert_element_of_tag_type GUMBO_TAG_BODY GUMBO_INSERTION_IMPLIED;;
    set_insertion_mode GUMBO_INSERTION_MODE_IN_BODY;;
    reprocess;;
    mret true.

Definition handle_text : parser bool :=
  token ← get_token;
  if is_type token GUMBO_TOKEN_CHARACTER || is_type token GUMBO_TOKEN_WHITESPACE then
    insert_text_token token;; mret true
  else
    when (is_type token GUMBO_TOKEN_EOF) (parser_add_parse_error token;; reprocess);;
    pop_current_node;;
    mode ← get _original_insertion_mode;
    set_insertion_mode mode;;
    mret true.

(** * Tables *)
Definition handle_in_table : parser bool :=
  token ← get_token;
  if is_type token GUMBO_TOKEN_CHARACTER || is_type token GUMBO_TOKEN_WHITESPACE then
    b ← get _text_node;
    assert (length (tn_buffer b) =? 0)%nat;;
    mode ← get _insertion_mode;
    modify (set_original_insertion_mode mode);;
    reprocess;;
    set_insertion_mode GUMBO_INSERTION_MODE_IN_TABLE_TEXT;;
    mret true
  else if is_type token GUMBO_TOKEN_DOCTYPE then ignore_with_error token
  else if is_type token GUMBO_TOKEN_COMMENT then comment_in_current_node token
  else if tag_is token kStartTag GUMBO_TAG_CAPTION then
    clear_stack_to_table_context;;
    add_formatting_element kActiveFormattingScopeMarker;;
    insert_element_from_token token;;
    set_insertion_mode GUMBO_INSERTION_MODE_IN_CAPTION;;
    mret true
  else if tag_is token kStartTag GUMBO_TAG_COLGROUP then
    clear_stack_to_table_context;;
    insert_element_from_token token;;
    set_insertion_mode GUMBO_INSERTION_MODE_IN_COLUMN_GROUP;;
    mret true
  else if tag_is token kStartTag GUMBO_TAG_COL then
    clear_stack_to_table_context;;
    insert_element_of_tag_type GUMBO_TAG_COLGROUP GUMBO_INSERTION_IMPLIED;;
    reprocess;;
    set_insertion_mode GUMBO_INSERTION_MODE_IN_COLUMN_GROUP;;
    mret true
  else if tag_in token kStartTag [TAG GUMBO_TAG_TBODY; TAG GUMBO_TAG_TFOOT; TAG GUMBO_TAG_THEAD; TAG GUMBO_TAG_TD;
      TAG GUMBO_TAG_TH; TAG GUMBO_TAG_TR] then
    clear_stack_to_table_context;;
    set_insertion_mode GUMBO_INSERTION_MODE_IN_TABLE_BODY;;
    (if tag_in token kStartTag [TAG GUMBO_TAG_TD; TAG GUMBO_TAG_TH; TAG GUMBO_TAG_TR] then
       insert_element_of_tag_type GUMBO_TAG_TBODY GUMBO_INSERTION_IMPLIED;; reprocess
     else insert_element_from_token token;; mret tt);;
    mret true
  else if tag_is token kStartTag GUMBO_TAG_TABLE then
    parser_add_parse_error token;;
    closed ← close_table;
    (if (closed : bool) then reprocess else ignore_token);;
    mret false
  else if tag_is token kEndTag GUMBO_TAG_TABLE then
    closed ← close_table;
    if negb closed then parser_add_parse_error token;; mret false else mret true
  else if tag_in token kEndTag [TAG GUMBO_TAG_BODY; TAG GUMBO_TAG_CAPTION; TAG GUMBO_TAG_COL;
      TAG GUMBO_TAG_COLGROUP; TAG GUMBO_TAG_HTML; TAG GUMBO_TAG_TBODY; TAG GUMBO_TAG_TD; TAG GUMBO_TAG_TFOOT;
      TAG GUMBO_TAG_TH; TAG GUMBO_TAG_THEAD; TAG GUMBO_TAG_TR] then ignore_with_error token
  else if tag_in token kStartTag [TAG GUMBO_TAG_STYLE; TAG GUMBO_TAG_SCRIPT; TAG GUMBO_TAG_TEMPLATE] ||
          tag_is token kEndTag GUMBO_TAG_TEMPLATE then handle_in_head
  else
    hidden ← (if tag_is token kStartTag GUMBO_TAG_INPUT then
                attrs ← lift (token_attributes token); lift (attribute_matches attrs "type" "hidden")
              else mret false);
    if (hidden : bool) then
      parser_add_parse_error token;;
      insert_element_from_token token;;
      pop_current_node;;
      mret false
    else if tag_is token kStartTag GUMBO_TAG_FORM then
      parser_add_parse_error token;;
      form ← get _form_element;
      template ← has_open_element GUMBO_TAG_TEMPLATE;
      if bool_decide (is_Some form) || template then ignore_token;; mret false
      else
        n ← insert_element_from_token token;
        modify (set_form_element (Some n));;
        pop_current_node;;
        mret false
    else if is_type token GUMBO_TOKEN_EOF then handle_in_body
    else
      parser_add_parse_error token;;
      modify (set_foster_parent_insertions true);;
      result ← handle_in_body;
      modify (set_foster_parent_insertions false);;
      mret result.

(** A byte of the text that is not white space; [isspace] counts the vertical tab. *)
Definition has_text (buffer : list Z) : bool := existsb (fun c => negb (isspace c) || (c =? 11)) buffer.

Definition handle_in_table_text : parser bool :=
  token ← get_token;
  if is_type token GUMBO_TOKEN_NULL then ignore_with_error token
  else if is_type token GUMBO_TOKEN_CHARACTER || is_type token GUMBO_TOKEN_WHITESPACE then
    insert_text_token token;; mret true
  else
    b ← get _text_node;
    when (has_text (tn_buffer b))
      (modify (set_foster_parent_insertions true);; reconstruct_active_formatting_elements);;
    maybe_flush_text_node_buffer;;
    modify (set_foster_parent_insertions false);;
    reprocess;;
    mode ← get _original_insertion_mode;
    set_insertion_mode mode;;
    mret true.

(** Pop everything up to the caption. *)
Definition close_caption : parser unit :=
  pop_until_tag GUMBO_TAG_CAPTION;;
  clear_active_formatting_elements;;
  set_insertion_mode GUMBO_INSERTION_MODE_IN_TABLE.

Definition handle_in_caption : parser bool :=
  token ← get_token;
  if tag_is token kEndTag GUMBO_TAG_CAPTION then
    b ← has_an_element_in_table_scope GUMBO_TAG_CAPTION;
    if negb b then ignore_with_error token
    else
      generate_implied_end_tags GUMBO_TAG_LAST;;
      caption ← current_is GUMBO_TAG_CAPTION;
      when (negb caption) (parser_add_parse_error token);;
      close_caption;;
      mret true
  else if tag_in token kStartTag [TAG GUMBO_TAG_CAPTION; TAG GUMBO_TAG_COL; TAG GUMBO_TAG_COLGROUP;
      TAG GUMBO_TAG_TBODY; TAG GUMBO_TAG_TD; TAG GUMBO_TAG_TFOOT; TAG GUMBO_TAG_TH; TAG GUMBO_TAG_THEAD;
      TAG GUMBO_TAG_TR] || tag_is token kEndTag GUMBO_TAG_TABLE then
    b ← has_an_element_in_table_scope GUMBO_TAG_CAPTION;
    if negb b then ignore_with_error token else close_caption;; reprocess;; mret true
  else if tag_in token kEndTag [TAG GUMBO_TAG_BODY; TAG GUMBO_TAG_COL; TAG GUMBO_TAG_COLGROUP; TAG GUMBO_TAG_HTML;
      TAG GUMBO_TAG_TBODY; TAG GUMBO_TAG_TD; TAG GUMBO_TAG_TFOOT; TAG GUMBO_TAG_TH; TAG GUMBO_TAG_THEAD;
      TAG GUMBO_TAG_TR] then ignore_with_error token
  else handle_in_body.

Definition handle_in_column_group : parser bool :=
  token ← get_token;
  if is_type token GUMBO_TOKEN_WHITESPACE then insert_text_token token;; mret true
  else if is_type token GUMBO_TOKEN_DOCTYPE then ignore_with_error token
  else if is_type token GUMBO_TOKEN_COMMENT then comment_in_current_node token
  else if tag_is token kStartTag GUMBO_TAG_HTML then handle_in_body
  else if tag_is token kStartTag GUMBO_TAG_COL then insert_void_element token;; mret true
  else if tag_is token kEndTag GUMBO_TAG_COLGROUP then
    b ← current_is GUMBO_TAG_COLGROUP;
    if negb b then ignore_with_error token
    else pop_current_node;; set_insertion_mode GUMBO_INSERTION_MODE_IN_TABLE;; mret false
  else if tag_is token kEndTag GUMBO_TAG_COL then ignore_with_error token
  else if tag_is token kStartTag GUMBO_TAG_TEMPLATE || tag_is token kEndTag GUMBO_TAG_TEMPLATE then handle_in_head
  else if is_type token GUMBO_TOKEN_EOF then handle_in_body
  else
    b ← current_is GUMBO_TAG_COLGROUP;
    if negb b then ignore_with_error token
    else pop_current_node;; set_insertion_mode GUMBO_INSERTION_MODE_IN_TABLE;; reprocess;; mret true.

Definition handle_in_table_body : parser bool :=
  token ← get_token;
  if tag_is token kStartTag GUMBO_TAG_TR then
    clear_stack_to_table_body_context;;
    insert_element_from_token token;;
    set_insertion_mode GUMBO_INSERTION_MODE_IN_ROW;;
    mret true
  else if tag_in token kStartTag [TAG GUMBO_TAG_TD; TAG GUMBO_TAG_TH] then
    parser_add_parse_error token;;
    clear_stack_to_table_body_context;;
    insert_element_of_tag_type GUMBO_TAG_TR GUMBO_INSERTION_IMPLIED;;
    reprocess;;
    set_insertion_mode GUMBO_INSERTION_MODE_IN_ROW;;
    mret false
  else if tag_in token kEndTag [TAG GUMBO_TAG_TBODY; TAG GUMBO_TAG_TFOOT; TAG GUMBO_TAG_THEAD] then
    tag ← lift (v_end_tag token);
    b ← has_an_element_in_table_scope tag;
    if negb b then ignore_with_error token
    else
      clear_stack_to_table_body_context;;
      pop_current_node;;
      set_insertion_mode GUMBO_INSERTION_MODE_IN_TABLE;;
      mret true
  else if tag_in token kStartTag [TAG GUMBO_TAG_CAPTION; TAG GUMBO_TAG_COL; TAG GUMBO_TAG_COLGROUP;
      TAG GUMBO_TAG_TBODY; TAG GUMBO_TAG_TFOOT; TAG GUMBO_TAG_THEAD] ||
          tag_is token kEndTag GUMBO_TAG_TABLE then
    tbody ← has_an_element_in_table_scope GUMBO_TAG_TBODY;
    thead ← has_an_element_in_table_scope GUMBO_TAG_THEAD;
    tfoot ← has_an_element_in_table_scope GUMBO_TAG_TFOOT;
    if negb (tbody || thead || tfoot) then ignore_with_error token
    else
      clear_stack_to_table_body_context;;
      pop_current_node;;
      set_insertion_mode GUMBO_INSERTION_MODE_IN_TABLE;;
      reprocess;;
      mret true
  else if tag_in token kEndTag [TAG GUMBO_TAG_BODY; TAG GUMBO_TAG_CAPTION; TAG GUMBO_TAG_COL; TAG GUMBO_TAG_TR;
      TAG GUMBO_TAG_COLGROUP; TAG GUMBO_TAG_HTML; TAG GUMBO_TAG_TD; TAG GUMBO_TAG_TH] then ignore_with_error token
  else handle_in_table.

(** The end of the row, for a token that is seen again. *)
Definition close_row : parser unit :=
  clear_stack_to_table_row_context;;
  pop_current_node;;
  set_insertion_mode GUMBO_INSERTION_MODE_IN_TABLE_BODY.

Definition handle_in_row : parser bool :=
  token ← get_token;
  if tag_in token kStartTag [TAG GUMBO_TAG_TH; TAG GUMBO_TAG_TD] then
    clear_stack_to_table_row_context;;
    insert_element_from_token token;;
    set_insertion_mode GUMBO_INSERTION_MODE_IN_CELL;;
    add_formatting_element kActiveFormattingScopeMarker;;
    mret true
  else if tag_is token kEndTag GUMBO_TAG_TR then
    b ← has_an_element_in_table_scope GUMBO_TAG_TR;
    if negb b then ignore_with_error token else close_row;; mret true
  else if tag_in token kStartTag [TAG GUMBO_TAG_CAPTION; TAG GUMBO_TAG_COL; TAG GUMBO_TAG_COLGROUP;
      TAG GUMBO_TAG_TBODY; TAG GUMBO_TAG_TFOOT; TAG GUMBO_TAG_THEAD; TAG GUMBO_TAG_TR] ||
          tag_is token kEndTag GUMBO_TAG_TABLE then
    b ← has_an_element_in_table_scope GUMBO_TAG_TR;
    if negb b then ignore_with_error token else close_row;; reprocess;; mret true
  else if tag_in token kEndTag [TAG GUMBO_TAG_TBODY; TAG GUMBO_TAG_TFOOT; TAG GUMBO_TAG_THEAD] then
    tag ← lift (v_end_tag token);
    b ← has_an_element_in_table_scope tag;
    tr ← has_an_element_in_table_scope GUMBO_TAG_TR;
    if negb b || negb tr then ignore_with_error token else close_row;; reprocess;; mret true
  else if tag_in token kEndTag [TAG GUMBO_TAG_BODY; TAG GUMBO_TAG_CAPTION; TAG GUMBO_TAG_COL;
      TAG GUMBO_TAG_COLGROUP; TAG GUMBO_TAG_HTML; TAG GUMBO_TAG_TD; TAG GUMBO_TAG_TH] then
    ignore_with_error token
  else handle_in_table.

Definition handle_in_cell : parser bool :=
  token ← get_token;
  if tag_in token kEndTag [TAG GUMBO_TAG_TD; TAG GUMBO_TAG_TH] then
    tag ← lift (v_end_tag token);
    b ← has_an_element_in_table_scope tag;
    if negb b then ignore_with_error token else close_table_cell token tag
  else if tag_in token kStartTag [TAG GUMBO_TAG_CAPTION; TAG GUMBO_TAG_COL; TAG GUMBO_TAG_COLGROUP;
      TAG GUMBO_TAG_TBODY; TAG GUMBO_TAG_TD; TAG GUMBO_TAG_TFOOT; TAG GUMBO_TAG_TH; TAG GUMBO_TAG_THEAD;
      TAG GUMBO_TAG_TR] then
    th ← has_an_element_in_table_scope GUMBO_TAG_TH;
    td ← has_an_element_in_table_scope GUMBO_TAG_TD;
    if negb th && negb td then ignore_with_error token
    else reprocess;; close_current_cell token
  else if tag_in token kEndTag [TAG GUMBO_TAG_BODY; TAG GUMBO_TAG_CAPTION; TAG GUMBO_TAG_COL;
      TAG GUMBO_TAG_COLGROUP; TAG GUMBO_TAG_HTML] then
    ignore_with_error token
  else if tag_in token kEndTag [TAG GUMBO_TAG_TABLE; TAG GUMBO_TAG_TBODY; TAG GUMBO_TAG_TFOOT; TAG GUMBO_TAG_THEAD;
      TAG GUMBO_TAG_TR] then
    tag ← lift (v_end_tag token);
    b ← has_an_element_in_table_scope tag;
    if negb b then ignore_with_error token
    else reprocess;; close_current_cell token
  else handle_in_body.

(** * Select *)
Definition pop_if_current (tag : GumboTag) : parser unit :=
  b ← current_is tag; when b (pop_current_node;; mret tt).

Definition handle_in_select : parser bool :=
  token ← get_token;
  if is_type token GUMBO_TOKEN_NULL then ignore_with_error token
  else if is_type token GUMBO_TOKEN_CHARACTER || is_type token GUMBO_TOKEN_WHITESPACE then
    insert_text_token token;; mret true
  else if is_type token GUMBO_TOKEN_DOCTYPE then ignore_with_error token
  else if is_type token GUMBO_TOKEN_COMMENT then comment_in_current_node token
  else if tag_is token kStartTag GUMBO_TAG_HTML then handle_in_body
  else if tag_is token kStartTag GUMBO_TAG_OPTION then
    pop_if_current GUMBO_TAG_OPTION;;
    insert_element_from_token token;;
    mret true
  else if tag_is token kStartTag GUMBO_TAG_OPTGROUP then
    pop_if_current GUMBO_TAG_OPTION;;
    pop_if_current GUMBO_TAG_OPTGROUP;;
    insert_element_from_token token;;
    mret true
  else if tag_is token kEndTag GUMBO_TAG_OPTGROUP then
    open_elements ← get _open_elements;
    option ← current_is GUMBO_TAG_OPTION;
    in_group ← (if (option : bool) then
                  n ← lift (match length open_elements with
                            | S (S i) => load open_elements i | _ => Undef end);
                  node_html_tag_is (Some n) GUMBO_TAG_OPTGROUP
                else mret false);
    when in_group (pop_current_node;; mret tt);;
    group ← current_is GUMBO_TAG_OPTGROUP;
    if (group : bool) then pop_current_node;; mret true else ignore_with_error token
  else if tag_is token kEndTag GUMBO_TAG_OPTION then
    option ← current_is GUMBO_TAG_OPTION;
    if (option : bool) then pop_current_node;; mret true else ignore_with_error token
  else if tag_is token kEndTag GUMBO_TAG_SELECT then
    b ← has_an_element_in_select_scope GUMBO_TAG_SELECT;
    if negb b then ignore_with_error token else close_current_select;; mret true
  else if tag_is token kStartTag GUMBO_TAG_SELECT then
    parser_add_parse_error token;;
    ignore_token;;
    b ← has_an_element_in_select_scope GUMBO_TAG_SELECT;
    when b close_current_select;;
    mret false
  else if tag_in token kStartTag [TAG GUMBO_TAG_INPUT; TAG GUMBO_TAG_KEYGEN; TAG GUMBO_TAG_TEXTAREA] then
    parser_add_parse_error token;;
    b ← has_an_element_in_select_scope GUMBO_TAG_SELECT;
    (if negb b then ignore_token else close_current_select;; reprocess);;
    mret false
  else if tag_in token kStartTag [TAG GUMBO_TAG_SCRIPT;
      TAG GUMBO_TAG_TEMPLATE] || tag_is token kEndTag GUMBO_TAG_TEMPLATE then
    handle_in_head
  else if is_type token GUMBO_TOKEN_EOF then handle_in_body
  else ignore_with_error token.

Definition handle_in_select_in_table : parser bool :=
  token ← get_token;
  if tag_in token kStartTag [TAG GUMBO_TAG_CAPTION; TAG GUMBO_TAG_TABLE; TAG GUMBO_TAG_TBODY; TAG GUMBO_TAG_TFOOT;
      TAG GUMBO_TAG_THEAD; TAG GUMBO_TAG_TR; TAG GUMBO_TAG_TD; TAG GUMBO_TAG_TH] then
    parser_add_parse_error token;;
    close_current_select;;
    reprocess;;
    mret false
  else if tag_in token kEndTag [TAG GUMBO_TAG_CAPTION; TAG GUMBO_TAG_TABLE; TAG GUMBO_TAG_TBODY;
      TAG GUMBO_TAG_TFOOT; TAG GUMBO_TAG_THEAD; TAG GUMBO_TAG_TR; TAG GUMBO_TAG_TD; TAG GUMBO_TAG_TH] then
    parser_add_parse_error token;;
    tag ← lift (v_end_tag token);
    b ← has_an_element_in_table_scope tag;
    if negb b then ignore_token;; mret false
    else close_current_select;; reprocess;; mret false
  else handle_in_select.

(** * After the body, and framesets *)
Definition handle_after_body : parser bool :=
  token ← get_token;
  if is_type token GUMBO_TOKEN_WHITESPACE || tag_is token kStartTag GUMBO_TAG_HTML then handle_in_body
  else if is_type token GUMBO_TOKEN_COMMENT then
    html_node ← get root;
    assert (bool_decide (is_Some html_node));;
    append_comment_node html_node token;;
    mret true
  else if is_type token GUMBO_TOKEN_DOCTYPE then ignore_with_error token
  else if tag_is token kEndTag GUMBO_TAG_HTML then
    fragment ← is_fragment_parser;
    if (fragment : bool) then ignore_with_error token
    else
      set_insertion_mode GUMBO_INSERTION_MODE_AFTER_AFTER_BODY;;
      open_elements ← get _open_elements;
      html ← lift (load open_elements 0);
      b ← node_html_tag_is (Some html) GUMBO_TAG_HTML;
      assert b;;
      token ← current_token;
      record_end_of_element token html;;
      mret true
  else if is_type token GUMBO_TOKEN_EOF then mret true
  else
    parser_add_parse_error token;;
    set_insertion_mode GUMBO_INSERTION_MODE_IN_BODY;;
    reprocess;;
    mret false.

Definition handle_in_frameset : parser bool :=
  token ← get_token;
  if is_type token GUMBO_TOKEN_WHITESPACE then insert_text_token token;; mret true
  else if is_type token GUMBO_TOKEN_COMMENT then comment_in_current_node token
  else if is_type token GUMBO_TOKEN_DOCTYPE then ignore_with_error token
  else if tag_is token kStartTag GUMBO_TAG_HTML then handle_in_body
  else if tag_is token kStartTag GUMBO_TAG_FRAMESET then insert_element_from_token token;; mret true
  else if tag_is token kEndTag GUMBO_TAG_FRAMESET then
    html ← current_is GUMBO_TAG_HTML;
    if (html : bool) then ignore_with_error token
    else
      pop_current_node;;
      fragment ← is_fragment_parser;
      frameset ← (if (fragment : bool) then mret true else current_is GUMBO_TAG_FRAMESET);
      when (negb frameset) (set_insertion_mode GUMBO_INSERTION_MODE_AFTER_FRAMESET);;
      mret true
  else if tag_is token kStartTag GUMBO_TAG_FRAME then insert_void_element token;; mret true
  else if tag_is token kStartTag GUMBO_TAG_NOFRAMES then handle_in_head
  else if is_type token GUMBO_TOKEN_EOF then
    html ← current_is GUMBO_TAG_HTML;
    if negb html then parser_add_parse_error token;; mret false else mret true
  else ignore_with_error token.

Definition handle_after_frameset : parser bool :=
  token ← get_token;
  if is_type token GUMBO_TOKEN_WHITESPACE then insert_text_token token;; mret true
  else if is_type token GUMBO_TOKEN_COMMENT then comment_in_current_node token
  else if is_type token GUMBO_TOKEN_DOCTYPE then ignore_with_error token
  else if tag_is token kStartTag GUMBO_TAG_HTML then handle_in_body
  else if tag_is token kEndTag GUMBO_TAG_HTML then
    open_elements ← get _open_elements;
    html ← lift (load open_elements 0);
    b ← node_html_tag_is (Some html) GUMBO_TAG_HTML;
    assert b;;
    token ← current_token;
    record_end_of_element token html;;
    set_insertion_mode GUMBO_INSERTION_MODE_AFTER_AFTER_FRAMESET;;
    mret true
  else if tag_is token kStartTag GUMBO_TAG_NOFRAMES then handle_in_head
  else if is_type token GUMBO_TOKEN_EOF then mret true
  else ignore_with_error token.

Definition handle_after_after_body : parser bool :=
  token ← get_token;
  if is_type token GUMBO_TOKEN_COMMENT then
    doc ← get_document_node; append_comment_node (Some doc) token;; mret true
  else if is_type token GUMBO_TOKEN_DOCTYPE || is_type token GUMBO_TOKEN_WHITESPACE ||
          tag_is token kStartTag GUMBO_TAG_HTML then handle_in_body
  else if is_type token GUMBO_TOKEN_EOF then mret true
  else
    parser_add_parse_error token;;
    set_insertion_mode GUMBO_INSERTION_MODE_IN_BODY;;
    reprocess;;
    mret false.

Definition handle_after_after_frameset : parser bool :=
  token ← get_token;
  if is_type token GUMBO_TOKEN_COMMENT then
    doc ← get_document_node; append_comment_node (Some doc) token;; mret true
  else if is_type token GUMBO_TOKEN_DOCTYPE || is_type token GUMBO_TOKEN_WHITESPACE ||
          tag_is token kStartTag GUMBO_TAG_HTML then handle_in_body
  else if is_type token GUMBO_TOKEN_EOF then mret true
  else if tag_is token kStartTag GUMBO_TAG_NOFRAMES then handle_in_head
  else ignore_with_error token.

(** * Dispatch *)
Definition kTokenHandlers (mode : GumboInsertionMode) : parser bool :=
  match mode with
  | GUMBO_INSERTION_MODE_INITIAL => handle_initial
  | GUMBO_INSERTION_MODE_BEFORE_HTML => handle_before_html
  | GUMBO_INSERTION_MODE_BEFORE_HEAD => handle_before_head
  | GUMBO_INSERTION_MODE_IN_HEAD => handle_in_head
  | GUMBO_INSERTION_MODE_IN_HEAD_NOSCRIPT => handle_in_head_noscript
  | GUMBO_INSERTION_MODE_AFTER_HEAD => handle_after_head
  | GUMBO_INSERTION_MODE_IN_BODY => handle_in_body
  | GUMBO_INSERTION_MODE_TEXT => handle_text
  | GUMBO_INSERTION_MODE_IN_TABLE => handle_in_table
  | GUMBO_INSERTION_MODE_IN_TABLE_TEXT => handle_in_table_text
  | GUMBO_INSERTION_MODE_IN_CAPTION => handle_in_caption
  | GUMBO_INSERTION_MODE_IN_COLUMN_GROUP => handle_in_column_group
  | GUMBO_INSERTION_MODE_IN_TABLE_BODY => handle_in_table_body
  | GUMBO_INSERTION_MODE_IN_ROW => handle_in_row
  | GUMBO_INSERTION_MODE_IN_CELL => handle_in_cell
  | GUMBO_INSERTION_MODE_IN_SELECT => handle_in_select
  | GUMBO_INSERTION_MODE_IN_SELECT_IN_TABLE => handle_in_select_in_table
  | GUMBO_INSERTION_MODE_IN_TEMPLATE => handle_in_template
  | GUMBO_INSERTION_MODE_AFTER_BODY => handle_after_body
  | GUMBO_INSERTION_MODE_IN_FRAMESET => handle_in_frameset
  | GUMBO_INSERTION_MODE_AFTER_FRAMESET => handle_after_frameset
  | GUMBO_INSERTION_MODE_AFTER_AFTER_BODY => handle_after_after_body
  | GUMBO_INSERTION_MODE_AFTER_AFTER_FRAMESET => handle_after_after_frameset
  end.

Definition handle_html_content : parser bool := mode ← get _insertion_mode; kTokenHandlers mode.

(** The characters of a piece of the input; NULL is [None]. *)
Definition piece_text (p : option GumboStringPiece) : parser (option (list Z)) :=
  match p with
  | None => mret None
  | Some p =>
      src ← get (fun q => source (_input (tokenizer_state q)));
      text ← lift (load_range src (pdata p) (Z.to_nat (plength p)));
      mret (Some text)
  end.

(** [gumbo_tag_from_original_text] of a piece. *)
Definition tagname_of (p : option GumboStringPiece) : parser (list Z) :=
  text ← piece_text p;
  nm ← lift (gumbo_tag_from_original_text text);
  mret (default [] nm).

(** An end tag in foreign content: the loop from index [i] of the stack, with the node
    there and its name.  [None] when an HTML element was reached, or the bottom. *)
Fixpoint foreign_end_tag (i : nat) (node : nat) (node_tagname token_tagname : list Z) (is_success : bool)
  : parser (option bool) :=
  match i with
  | O =>
      e ← element (Some node);
      assert (bool_decide (tag_namespace e = GUMBO_NAMESPACE_HTML));;
      mret None
  | S i =>
      same ← lift (gumbo_string_equals_ignore_case node_tagname token_tagname);
      if (same : bool) then
        pop_until (fun n => mret (bool_decide (n = Some node)));;
        mret (Some is_success)
      else
        open_elements ← get _open_elements;
        node ← lift (load open_elements i);
        e ← element (Some node);
        if bool_decide (tag_namespace e = GUMBO_NAMESPACE_HTML) then mret None
        else
          node_tagname ← tagname_of (original_tag e);
          foreign_end_tag i node node_tagname token_tagname is_success
  end.

(** Start tags that leave foreign content. *)
Definition is_breakout_tag (token : GumboToken) : outcome bool :=
  or_else (Ok (tag_in token kStartTag [TAG GUMBO_TAG_B; TAG GUMBO_TAG_BIG; TAG GUMBO_TAG_BLOCKQUOTE;
      TAG GUMBO_TAG_BODY; TAG GUMBO_TAG_BR; TAG GUMBO_TAG_CENTER; TAG GUMBO_TAG_CODE; TAG GUMBO_TAG_DD;
      TAG GUMBO_TAG_DIV; TAG GUMBO_TAG_DL; TAG GUMBO_TAG_DT; TAG GUMBO_TAG_EM; TAG GUMBO_TAG_EMBED;
      TAG GUMBO_TAG_H1; TAG GUMBO_TAG_H2; TAG GUMBO_TAG_H3; TAG GUMBO_TAG_H4; TAG GUMBO_TAG_H5; TAG GUMBO_TAG_H6;
      TAG GUMBO_TAG_HEAD; TAG GUMBO_TAG_HR; TAG GUMBO_TAG_I; TAG GUMBO_TAG_IMG; TAG GUMBO_TAG_LI;
      TAG GUMBO_TAG_LISTING; TAG GUMBO_TAG_MENU; TAG GUMBO_TAG_META; TAG GUMBO_TAG_NOBR; TAG GUMBO_TAG_OL;
      TAG GUMBO_TAG_P; TAG GUMBO_TAG_PRE; TAG GUMBO_TAG_RUBY; TAG GUMBO_TAG_S; TAG GUMBO_TAG_SMALL;
      TAG GUMBO_TAG_SPAN; TAG GUMBO_TAG_STRONG; TAG GUMBO_TAG_STRIKE; TAG GUMBO_TAG_SUB; TAG GUMBO_TAG_SUP;
      TAG GUMBO_TAG_TABLE; TAG GUMBO_TAG_TT; TAG GUMBO_TAG_U; TAG GUMBO_TAG_UL; TAG GUMBO_TAG_VAR]))
    (and_then (Ok (tag_is token kStartTag GUMBO_TAG_FONT))
      (or_else (token_has_attribute token "color")
        (or_else (token_has_attribute token "face") (token_has_attribute token "size")))).

(** The current node is an integration point or an HTML element. *)
Definition at_html_or_integration_point : parser bool :=
  c ← get_current_node;
  mathml ← is_mathml_integration_point c;
  if (mathml : bool) then mret true
  else
    html ← is_html_integration_point c;
    if (html : bool) then mret true
    else e ← element c; mret (bool_decide (tag_namespace e = GUMBO_NAMESPACE_HTML)).

Definition foreign_start_tag (token : GumboToken) : parser bool :=
  c ← get_adjusted_current_node;
  e ← element c;
  let current_namespace := tag_namespace e in
  when (bool_decide (current_namespace = GUMBO_NAMESPACE_MATHML)) adjust_mathml_attributes;;
  when (bool_decide (current_namespace = GUMBO_NAMESPACE_SVG)) adjust_svg_attributes;;
  adjust_foreign_attributes;;
  token ← get_token;
  insert_foreign_element token current_namespace;;
  close_if_self_closing;;
  mret true.

Definition foreign_tag (token : GumboToken) : parser bool :=
  if is_type token GUMBO_TOKEN_START_TAG then foreign_start_tag token
  else
    assert (is_type token GUMBO_TOKEN_END_TAG);;
    node ← get_current_node;
    assert (bool_decide (is_Some node));;
    e ← element node;
    n ← lift (of_option node);
    token_tagname ← tagname_of (Some (toriginal_text token));
    node_tagname ← tagname_of (original_tag e);
    is_success ← lift (gumbo_string_equals_ignore_case node_tagname token_tagname);
    when (negb is_success) (parser_add_parse_error token);;
    open_elements ← get _open_elements;
    closed ← foreign_end_tag (length open_elements - 1) n node_tagname token_tagname is_success;
    match closed with
    | Some b => mret b
    | None => r ← handle_html_content; mret (r && is_success)
    end.

Definition handle_in_foreign_content : parser bool :=
  token ← get_token;
  match ttype token with
  | GUMBO_TOKEN_NULL =>
      parser_add_parse_error token;;
      set_token_value (VCharacter kUtf8ReplacementChar);;
      token ← get_token;
      insert_text_token token;;
      mret false
  | GUMBO_TOKEN_WHITESPACE => insert_text_token token;; mret true
  | GUMBO_TOKEN_CDATA | GUMBO_TOKEN_CHARACTER => insert_text_token token;; set_frameset_not_ok;; mret true
  | GUMBO_TOKEN_COMMENT => comment_in_current_node token
  | GUMBO_TOKEN_DOCTYPE => ignore_with_error token
  | _ =>
      breakout ← lift (is_breakout_tag token);
      if (breakout : bool) then
        parser_add_parse_error token;;
        fragment ← is_fragment_parser;
        if negb fragment then
          pop_current_node;;
          pop_while (b ← at_html_or_integration_point; mret (negb b));;
          reprocess;;
          mret false
        else assert (is_type token GUMBO_TOKEN_START_TAG);; foreign_tag token
      else foreign_tag token
  end.

(** Whether the token is for the rules of HTML. *)
Definition is_html_content (current_node : ptr) (token : GumboToken) : parser bool :=
  match current_node with
  | None => mret true
  | Some _ =>
      e ← element current_node;
      if bool_decide (tag_namespace e = GUMBO_NAMESPACE_HTML) then mret true
      else
        mathml ← is_mathml_integration_point current_node;
        if mathml && (is_type token GUMBO_TOKEN_CHARACTER || is_type token GUMBO_TOKEN_WHITESPACE ||
             is_type token GUMBO_TOKEN_NULL ||
             (is_type token GUMBO_TOKEN_START_TAG &&
              negb (tag_in token kStartTag [TAG GUMBO_TAG_MGLYPH; TAG GUMBO_TAG_MALIGNMARK]))) then mret true
        else
          annotation ← node_qualified_tag_is current_node GUMBO_NAMESPACE_MATHML GUMBO_TAG_ANNOTATION_XML;
          if bool_decide (tag_namespace e = GUMBO_NAMESPACE_MATHML) && annotation &&
             tag_is token kStartTag GUMBO_TAG_SVG then mret true
          else
            html ← is_html_integration_point current_node;
            if html && (is_type token GUMBO_TOKEN_START_TAG || is_type token GUMBO_TOKEN_CHARACTER ||
                 is_type token GUMBO_TOKEN_NULL || is_type token GUMBO_TOKEN_WHITESPACE) then mret true
            else mret (is_type token GUMBO_TOKEN_EOF)
  end.

Definition is_linefeed (token : GumboToken) : bool :=
  match ttype token, tv token with GUMBO_TOKEN_WHITESPACE, VCharacter c => c =? 10 | _, _ => false end.

Definition handle_token : parser bool :=
  token ← get_token;
  ignore_linefeed ← get _ignore_next_linefeed;
  modify (set_ignore_next_linefeed false);;
  if ignore_linefeed && is_linefeed token then ignore_token;; mret true
  else
    when (tag_is token kEndTag GUMBO_TAG_BODY) (modify (set_closed_body_tag true));;
    when (tag_is token kEndTag GUMBO_TAG_HTML) (modify (set_closed_html_tag true));;
    current_node ← get_adjusted_current_node;
    match current_node with
    | None => mret tt
    | Some _ => n ← deref current_node; assert (is_element_type (n_type n))
    end;;
    html ← is_html_content current_node token;
    if (html : bool) then handle_html_content else handle_in_foreign_content.

(** * Parsing *)
Definition fragment_tokenizer_state (fragment_ctx : GumboTag) : option GumboTokenizerEnum :=
  match fragment_ctx with
  | GUMBO_TAG_TITLE | GUMBO_TAG_TEXTAREA => Some GUMBO_LEX_RCDATA
  | GUMBO_TAG_STYLE | GUMBO_TAG_XMP | GUMBO_TAG_IFRAME | GUMBO_TAG_NOEMBED | GUMBO_TAG_NOFRAMES => Some GUMBO_LEX_RAWTEXT
  | GUMBO_TAG_SCRIPT => Some GUMBO_LEX_SCRIPT
  | GUMBO_TAG_PLAINTEXT => Some GUMBO_LEX_PLAINTEXT
  | _ => None
  end.

Definition fragment_parser_init (fragment_ctx : GumboTag) (fragment_namespace : GumboNamespaceEnum) : parser unit :=
  assert (negb (bool_decide (fragment_ctx = GUMBO_TAG_LAST)));;
  ctx ← create_element fragment_ctx;
  modify (set_fragment_ctx (Some ctx));;
  modify_element ctx (set_namespace fragment_namespace);;
  when (bool_decide (fragment_namespace = GUMBO_NAMESPACE_HTML))
    (match fragment_tokenizer_state fragment_ctx with
     | Some s => on_tokenizer (gumbo_tokenizer_set_state s)
     | None => mret tt
     end);;
  root ← insert_element_of_tag_type GUMBO_TAG_HTML GUMBO_INSERTION_IMPLIED;
  modify (set_root (Some root));;
  when (bool_decide (fragment_ctx = GUMBO_TAG_TEMPLATE))
    (push_template_insertion_mode GUMBO_INSERTION_MODE_IN_TEMPLATE);;
  reset_insertion_mode_appropriately.

Record GumboOptions := Options {
  opt_tab_stop : Z; stop_on_first_error : bool; opt_max_errors : Z;
  fragment_context : GumboTag; fragment_namespace : GumboNamespaceEnum
}.

Definition kGumboDefaultOptions : GumboOptions := Options 8 false (-1) GUMBO_TAG_LAST GUMBO_NAMESPACE_HTML.

Section parse.
Context (scan_named : list Z -> option (OneOrTwoCodepoints * nat)) (junk_pos : GumboSourcePosition).

(** The next token; [gumbo_lex] has enough fuel (GumboLexerRuns.v). *)
Definition next_token : parser bool :=
  current_node ← get_current_node;
  foreign ← match current_node with
            | None => mret false
            | Some _ => e ← element current_node; mret (negb (bool_decide (tag_namespace e = GUMBO_NAMESPACE_HTML)))
            end;
  on_tokenizer (gumbo_tokenizer_set_is_current_node_foreign foreign);;
  fuel ← get (fun p => LexerRuns.lex_fuel (tokenizer_state p));
  r ← on_tokenizer (gumbo_lex scan_named junk_pos fuel);
  lift (of_option r).

(** The token of an iteration: the last one again, or the next one. *)
Definition fetch_token : parser bool :=
  again ← get _reprocess_current_token;
  if (again : bool) then modify (set_reprocess_current_token false);; mret true else next_token.

(** The body of the main loop: whether it had an error. *)
Definition parse_step : parser bool :=
  lexed ← fetch_token;
  token ← get_token;
  modify (set_current_token true);;
  modify (set_self_closing_flag_acknowledged
    (negb (match ttype token, tv token with
           | GUMBO_TOKEN_START_TAG, VStartTag t => is_self_closing t
           | _, _ => false
           end)));;
  handled ← handle_token;
  token ← get_token;
  again ← get _reprocess_current_token;
  assert (again || negb (is_type token GUMBO_TOKEN_START_TAG) ||
    match tv token with VStartTag t => bool_decide (attributes t = None) | _ => true end);;
  acknowledged ← get _self_closing_flag_acknowledged;
  when (negb acknowledged) (add_parse_error GUMBO_ERR_UNACKNOWLEDGED_SELF_CLOSING_TAG token);;
  mret (negb (lexed && handled)).

(** The main loop; [None] when [fuel] iterations are not enough. *)
Fixpoint parse_loop (fuel : nat) (stop_on_first_error has_error : bool) (loop_count : Z) : parser (option unit) :=
  match fuel with
  | O => mret None
  | S fuel =>
      error ← parse_step;
      let has_error := error || has_error in
      let loop_count := loop_count + 1 in
      assert (loop_count <? 1000000000);;
      token ← get_token;
      again ← get _reprocess_current_token;
      if (negb (is_type token GUMBO_TOKEN_EOF) || again) && negb (stop_on_first_error && has_error)
      then parse_loop fuel stop_on_first_error has_error loop_count
      else mret (Some tt)
  end.

(** The strings of the doctype that are missing become empty. *)
Definition finish_doctype : parser unit :=
  doc ← get_document_node;
  modify_document doc (fun d => Document (doc_children d) (has_doctype d) (Some (default [] (doc_name d)))
    (Some (default [] (doc_public_identifier d))) (Some (default [] (doc_system_identifier d)))
    (doc_type_quirks_mode d)).

Definition parser_state_destroy : parser unit :=
  ctx ← get _fragment_ctx; match ctx with Some c => destroy c | None => mret tt end.

(** What [gumbo_parse_with_options] does before the main loop, *)
Definition parser_start (options : GumboOptions) (quirks : GumboQuirksModeEnum) : parser unit :=
  output_init quirks;;
  parser_state_init;;
  when (negb (bool_decide (fragment_context options = GUMBO_TAG_LAST)))
    (fragment_parser_init (fragment_context options) (fragment_namespace options)).

(** and the whole function: the state holds the output.  [old] is what the memory held
    before; the heap starts with the static marker. *)
Definition gumbo_parse_with_options (fuel : nat) (options : GumboOptions) (old : GumboParser) (quirks : GumboQuirksModeEnum)
  (buffer : list Z) : outcome (GumboParser * option unit) :=
  t ← gumbo_tokenizer_state_init (tokenizer_state old) buffer (opt_max_errors options) (opt_tab_stop options);
  (parser_start options quirks;;
   r ← parse_loop fuel (stop_on_first_error options) false 0;
   match r with
   | None => mret None
   | Some _ => finish_parsing;; finish_doctype;; parser_state_destroy;; mret (Some tt)
   end) (set_heap [Some marker_node] (set_tokenizer_state t old)).

(** [buffer] is a C string, without its terminator. *)
Definition gumbo_parse (fuel : nat) (old : GumboParser) (quirks : GumboQuirksModeEnum) (buffer : list Z)
  : outcome (GumboParser * option unit) :=
  gumbo_parse_with_options fuel kGumboDefaultOptions old quirks (c_string buffer).
End parse.

(** Releasing the tree. *)
Definition gumbo_destroy_node (node : nat) : parser unit := destroy node.
Definition gumbo_destroy_output : parser unit := doc ← get_document_node; destroy doc.

End Modes.
