(* ===== verification/GumboTree.v ===== *)
(** The tree that the HTML parser builds (GumboParser.v, GumboModes.v): an invariant of
    the links between parents and children, kept by every operation.

    A node knows its parent and its position among the parent's children; the parent
    lists its children.  [tree_ok] says that the two agree.  Operations are shown to
    keep the invariant whenever they return, one lemma for each operation on the tree
    and automation for the handlers that are composed of them. *)
From Stdlib Require Import Strings.String Strings.Ascii.
From stdpp Require Import relations gmap.
From S2P Require Import Prelude GumboTags GumboBase Utf8 CharRef GumboLexer GumboLexerRuns GumboParser GumboModes.
Import Tags GumboBase Utf8 CharRef Lexer Parser Modes.

Module Tree.

(** * The links *)
Definition node_children (node : GumboNode) : list nat :=
  match n_v node with VElement e => el_children e | VDocument d => doc_children d | VTextNode _ => [] end.

Definition kids (h : list (option GumboNode)) (n : nat) : list nat :=
  match h !! n with Some (Some node) => node_children node | _ => [] end.

(** Parent and index of a node. *)
Definition link (h : list (option GumboNode)) (n : nat) : option (option nat * Z) :=
  match h !! n with Some (Some node) => Some (parent node, index_within_parent node) | _ => None end.

Definition above (h : list (option GumboNode)) (n : nat) : option (option nat) := fst <$> link h n.

(** The type of a node and the member of the union that it holds. *)
Inductive value_kind := KDocument | KElement | KText.
Definition kind (v : node_value) : value_kind :=
  match v with VDocument _ => KDocument | VElement _ => KElement | VTextNode _ => KText end.
Definition shape (h : list (option GumboNode)) (n : nat) : option (GumboNodeType * value_kind) :=
  match h !! n with Some (Some node) => Some (n_type node, kind (n_v node)) | _ => None end.

(** A node whose type says that it is an element holds one. *)
Definition typed (h : list (option GumboNode)) : Prop :=
  forall n ty k, shape h n = Some (ty, k) -> is_element_type ty = true -> k = KElement.

(** The document is the first node after the marker; it has no parent. *)
Definition the_document : nat := 1.
Definition doc_ok (h : list (option GumboNode)) : Prop :=
  shape h the_document = Some (GUMBO_NODE_DOCUMENT, KDocument) /\ above h the_document = Some None.

(** No node changes its type, the document keeps its children and gets no parent. *)
Definition steady (h h' : list (option GumboNode)) : Prop :=
  (forall n, shape h' n = shape h n) /\ above h' the_document = above h the_document /\
  (forall n, above h n = Some (Some the_document) -> above h' n = Some (Some the_document)).

Lemma steady_doc_ok h h' : steady h h' -> doc_ok h -> doc_ok h'.
Proof. intros (Hs & Hd & _) [H1 H2]. split; [by rewrite Hs|by rewrite Hd]. Qed.

Lemma steady_typed h h' : steady h h' -> typed h -> typed h'.
Proof. intros (Hs & _) Ht n ty k. rewrite Hs. apply Ht. Qed.

(** Only nodes that are neither the document nor below it change their parent. *)
Lemma steady_moves (M : nat -> Prop) h h' :
  (forall n, shape h' n = shape h n) -> (forall n, ~ M n -> above h' n = above h n) ->
  ~ M the_document -> (forall n, above h n = Some (Some the_document) -> ~ M n) -> steady h h'.
Proof. intros Hs Hp Hd Hr. split_and!; [done|by apply Hp|]. intros n Hn. rewrite Hp; [done|by apply Hr]. Qed.

Lemma steady_orphan h h' node i :
  link h node = Some (None, i) -> node <> the_document -> (forall n, shape h' n = shape h n) ->
  (forall d, d <> node -> above h' d = above h d) -> steady h h'.
Proof.
  intros Hl Hd Hs Ha. apply (steady_moves (eq node)); [done|intros n Hn; apply Ha; congruence|congruence|].
  intros n Hn ->. unfold above in Hn. by rewrite Hl in Hn.
Qed.

(** [exact]: the index of a node is its position among the children of its parent. *)
Record tree_ok (exact : bool) (h : list (option GumboNode)) : Prop := {
  tree_child : forall n i c, kids h n !! i = Some c ->
    exists j, link h c = Some (Some n, j) /\ (exact = true -> j = Z.of_nat i);
  tree_nodup : forall n, NoDup (kids h n);
  tree_parent : forall c n j, link h c = Some (Some n, j) -> c ∈ kids h n;
  tree_orphan : forall c j, link h c = Some (None, j) -> c <> kActiveFormattingScopeMarker -> j = -1
}.
#[global] Arguments tree_child {exact h} _ {n i c} _.
#[global] Arguments tree_nodup {exact h} _ n.
#[global] Arguments tree_parent {exact h} _ {c n j} _.
#[global] Arguments tree_orphan {exact h} _ {c j} _ _.

Lemma tree_in {exact h n c} : tree_ok exact h -> c ∈ kids h n -> exists j, link h c = Some (Some n, j).
Proof. intros Ht [i (j & Hj & _)%(tree_child Ht)]%list_elem_of_lookup. eauto. Qed.

Lemma tree_unique {exact h n i j c} : tree_ok exact h -> kids h n !! i = Some c -> kids h n !! j = Some c -> i = j.
Proof. intros Ht. apply NoDup_lookup, (tree_nodup Ht). Qed.

Lemma tree_ok_ext exact h h' :
  (forall n, kids h' n = kids h n) -> (forall n, link h' n = link h n) -> tree_ok exact h -> tree_ok exact h'.
Proof.
  intros Hk Hl [H1 H2 H3 H4].
  split; [intros n i c|intros n|intros c n j|intros c j]; rewrite ?Hk, ?Hl; eauto.
Qed.

Lemma kids_insert h n node m :
  (n < length h)%nat -> kids (<[n := Some node]> h) m = if decide (m = n) then node_children node else kids h m.
Proof.
  intros Hn. unfold kids. case_decide as E; [subst; by rewrite list_lookup_insert_eq|].
  by rewrite list_lookup_insert_ne by done.
Qed.

Lemma link_insert h n node m :
  (n < length h)%nat ->
  link (<[n := Some node]> h) m = if decide (m = n) then Some (parent node, index_within_parent node) else link h m.
Proof.
  intros Hn. unfold link. case_decide as E; [subst; by rewrite list_lookup_insert_eq|].
  by rewrite list_lookup_insert_ne by done.
Qed.

(** The children of [par] become [l]: those that were children before or had no parent
    get their new index, those that are no longer children lose their parent. *)
Lemma tree_replace exact h h' par l :
  tree_ok exact h -> NoDup l ->
  (forall m, kids h' m = if decide (m = par) then l else kids h m) ->
  (forall j d, l !! j = Some d -> exists i, link h' d = Some (Some par, i) /\ (exact = true -> i = Z.of_nat j)) ->
  (forall d, d ∈ l -> d ∉ kids h par -> link h d = Some (None, -1)) ->
  (forall d, d ∉ l -> d ∈ kids h par -> link h' d = Some (None, -1)) ->
  (forall d, d ∉ l -> d ∉ kids h par -> link h' d = link h d) ->
  tree_ok exact h'.
Proof.
  intros Ht Hnd Hk Hl Hnew Hout Hold. split.
  - intros n k d. rewrite Hk. case_decide as En; [subst n; apply Hl|]. intros Hd.
    destruct (tree_child Ht Hd) as (i & Hd' & Hi).
    assert (Hp : d ∉ kids h par) by (intros [j Hj]%(tree_in Ht); congruence).
    exists i. rewrite Hold; [done| |done]. intros Hin. apply Hnew in Hin; [congruence|done].
  - intros n. rewrite Hk. case_decide; [done|]. apply (tree_nodup Ht).
  - intros d n k Hd. destruct (decide (d ∈ l)) as [Hin|Hin].
    { apply list_elem_of_lookup in Hin as Hj. destruct Hj as [j Hj]. destruct (Hl j d Hj) as (i & Hi & _).
      rewrite Hi in Hd. injection Hd as <- <-. by rewrite Hk, decide_True. }
    destruct (decide (d ∈ kids h par)) as [Hp|Hp]; [rewrite (Hout d Hin Hp) in Hd; done|].
    rewrite (Hold d Hin Hp) in Hd. apply (tree_parent Ht) in Hd. rewrite Hk. by case_decide as En; [subst n|].
  - intros d k Hd Hm. destruct (decide (d ∈ l)) as [[j Hj]%list_elem_of_lookup|Hin].
    { destruct (Hl j d Hj) as (i & Hi & _). congruence. }
    destruct (decide (d ∈ kids h par)) as [Hp|Hp]; [rewrite (Hout d Hin Hp) in Hd; by injection Hd|].
    rewrite (Hold d Hin Hp) in Hd. by apply (tree_orphan Ht) in Hd.
Qed.

(** A node [c] without parent becomes child [i] of [par]; the children after it move up. *)
Lemma tree_insert exact h h' par c i :
  tree_ok exact h -> link h c = Some (None, -1) -> (i <= length (kids h par))%nat ->
  (forall m, kids h' m = if decide (m = par) then take i (kids h par) ++ c :: drop i (kids h par) else kids h m) ->
  link h' c = Some (Some par, Z.of_nat i) ->
  (forall j d, drop i (kids h par) !! j = Some d -> link h' d = Some (Some par, Z.of_nat (S (i + j)))) ->
  (forall d, d <> c -> d ∉ drop i (kids h par) -> link h' d = link h d) ->
  tree_ok exact h'.
Proof.
  intros Ht Hc Hi Hk Hlc Hld Hlo. assert (Hcn : c ∉ kids h par) by (intros [j Hj]%(tree_in Ht); congruence).
  eapply (tree_replace exact h h' par); [done| |exact Hk|..].
  - rewrite <- Permutation_middle, take_drop. apply NoDup_cons. split; [done|]. apply (tree_nodup Ht).
  - intros j d Hj. apply lookup_app_Some in Hj as [Hj|[Hge Hj]]; rewrite ?length_take in *.
    + apply lookup_take_Some in Hj as [Hj Hlt]. rewrite Hlo; [by apply (tree_child Ht)|..].
      * intros ->. destruct Hcn. apply list_elem_of_lookup. eauto.
      * intros [k Hk']%list_elem_of_lookup. rewrite lookup_drop in Hk'. pose proof (tree_unique Ht Hj Hk'). lia.
    + rewrite Nat.min_l in * by lia. exists (Z.of_nat j). split; [|done]. destruct (j - i)%nat as [|k] eqn:E; cbn in Hj.
      * injection Hj as <-. rewrite Hlc. do 2 f_equal. lia.
      * rewrite (Hld k d Hj). do 2 f_equal. lia.
  - intros d Hd Hn. rewrite <- (take_drop i (kids h par)) in Hn. by assert (d = c) as -> by set_solver.
  - intros d Hd Hin. destruct Hd. rewrite <- (take_drop i (kids h par)) in Hin. set_solver.
  - intros d Hd Hin. apply Hlo; set_solver.
Qed.

(** Child [i] of [par] loses its parent; the children after it move down. *)
Lemma tree_remove exact h h' par c i :
  tree_ok exact h -> kids h par !! i = Some c ->
  (forall m, kids h' m = if decide (m = par) then take i (kids h par) ++ drop (S i) (kids h par) else kids h m) ->
  link h' c = Some (None, -1) ->
  (forall j d, drop (S i) (kids h par) !! j = Some d -> link h' d = Some (Some par, Z.of_nat (i + j))) ->
  (forall d, d <> c -> d ∉ drop (S i) (kids h par) -> link h' d = link h d) ->
  tree_ok exact h'.
Proof.
  intros Ht Hc Hk Hlc Hld Hlo. assert (Hil : (i < length (kids h par))%nat) by (by apply lookup_lt_Some in Hc).
  eapply (tree_replace exact h h' par); [done| |exact Hk|..].
  - pose proof (tree_nodup Ht par) as Hnd. rewrite <- (take_drop_middle _ _ _ Hc), <- Permutation_middle in Hnd.
    by apply NoDup_cons in Hnd as [_ ?].
  - intros j d Hj. apply lookup_app_Some in Hj as [Hj|[Hge Hj]]; rewrite ?length_take in *.
    + apply lookup_take_Some in Hj as [Hj Hlt]. rewrite Hlo; [by apply (tree_child Ht)|..].
      * intros ->. pose proof (tree_unique Ht Hj Hc). lia.
      * intros [k Hk']%list_elem_of_lookup. rewrite lookup_drop in Hk'. pose proof (tree_unique Ht Hj Hk'). lia.
    + rewrite Nat.min_l in * by lia. rewrite (Hld _ d Hj). eexists. split; [done|]. lia.
  - intros d Hd Hn. destruct Hn. rewrite <- (take_drop_middle _ _ _ Hc). set_solver.
  - intros d Hd Hin. destruct (decide (d = c)) as [->|Hne]; [done|]. destruct Hd.
    rewrite <- (take_drop_middle _ _ _ Hc) in Hin. set_solver.
  - intros d Hd Hin. apply Hlo; [|set_solver]. intros ->. destruct Hin. apply list_elem_of_lookup. eauto.
Qed.

(** The children of [b] become those of [n], which had none. *)
Lemma tree_move exact h h' b n :
  tree_ok exact h -> n <> b -> kids h n = [] ->
  (forall m, kids h' m = if decide (m = n) then kids h b else if decide (m = b) then [] else kids h m) ->
  (forall d q j, d ∈ kids h b -> link h d = Some (q, j) -> link h' d = Some (Some n, j)) ->
  (forall d, d ∉ kids h b -> link h' d = link h d) ->
  tree_ok exact h'.
Proof.
  intros Ht Hne Hn Hk Hld Hlo. split.
  - intros m k d. rewrite Hk. case_decide as E1; [subst m|case_decide as E2; [done|]]; intros Hd;
      destruct (tree_child Ht Hd) as (j & Hj & He); exists j; (split; [|done]).
    + eapply Hld; [|done]. apply list_elem_of_lookup. eauto.
    + rewrite Hlo; [done|]. intros [i Hin]%(tree_in Ht). congruence.
  - intros m. rewrite Hk. repeat case_decide; [apply (tree_nodup Ht)|constructor|apply (tree_nodup Ht)].
  - intros d m k Hd. destruct (decide (d ∈ kids h b)) as [Hin|Hin].
    { destruct (tree_in Ht Hin) as [j Hj]. rewrite (Hld d _ j Hin Hj) in Hd. injection Hd as <- <-.
      by rewrite Hk, decide_True. }
    rewrite (Hlo d Hin) in Hd. apply (tree_parent Ht) in Hd. rewrite Hk. repeat case_decide; subst; try done.
    rewrite Hn in Hd. by apply elem_of_nil in Hd.
  - intros d k Hd Hm. destruct (decide (d ∈ kids h b)) as [Hin|Hin].
    { destruct (tree_in Ht Hin) as [j Hj]. by rewrite (Hld d _ j Hin Hj) in Hd. }
    rewrite (Hlo d Hin) in Hd. by apply (tree_orphan Ht) in Hd.
Qed.

(** A new node. *)
Lemma tree_alloc exact h node :
  tree_ok exact h -> parent node = None -> index_within_parent node = -1 -> node_children node = [] ->
  tree_ok exact (h ++ [Some node]).
Proof.
  intros Ht Hp Hi Hc.
  assert (Hk : forall m, kids (h ++ [Some node]) m = kids h m).
  { intros m. unfold kids. destruct (decide (m < length h)%nat) as [|Hge]; [by rewrite lookup_app_l|].
    rewrite lookup_app_r by lia. rewrite (lookup_ge_None_2 h m) by lia.
    destruct (m - length h)%nat as [|k]; [done|]. cbn. by destruct k. }
  assert (Hl : forall m, m <> length h -> link (h ++ [Some node]) m = link h m).
  { intros m Hm. unfold link. destruct (decide (m < length h)%nat) as [|Hge]; [by rewrite lookup_app_l|].
    rewrite lookup_app_r by lia. rewrite (lookup_ge_None_2 h m) by lia.
    destruct (m - length h)%nat as [|k] eqn:E; [lia|]. cbn. by destruct k. }
  assert (Hn : link (h ++ [Some node]) (length h) = Some (None, -1)).
  { unfold link. rewrite lookup_app_r, Nat.sub_diag by lia. cbn. by rewrite Hp, Hi. }
  assert (Hlen : forall c x, link h c = Some x -> c <> length h).
  { intros c x H ->. unfold link in H. rewrite lookup_ge_None_2 in H by lia. done. }
  split.
  - intros n i c. rewrite Hk. intros (j & Hj & He)%(tree_child Ht). exists j. rewrite Hl; [done|]. by eapply Hlen.
  - intros n. rewrite Hk. apply (tree_nodup Ht).
  - intros c n i H. destruct (decide (c = length h)) as [->|Hne]; [congruence|]. rewrite Hl in H by done.
    rewrite Hk. by apply (tree_parent Ht) in H.
  - intros c i H. destruct (decide (c = length h)) as [->|Hne]; [congruence|]. rewrite Hl in H by done.
    by apply (tree_orphan Ht).
Qed.

(** The nodes of [F] are freed: with a node also its children, and from them only [n]
    may be a child of a node that stays. *)
Lemma tree_free exact h h' n (F : gset nat) :
  (forall m, h' !! m = if decide (m ∈ F) then (fun _ => None) <$> h !! m else h !! m) ->
  n ∈ F -> (forall m c, m ∈ F -> c ∈ kids h m -> c ∈ F) ->
  (forall c, c ∈ F -> c = n \/ exists m, m ∈ F /\ c ∈ kids h m) ->
  (forall m, n ∉ kids h m) ->
  (forall m i c, kids h m !! i = Some c -> exists j, link h c = Some (Some m, j) /\ (exact = true -> j = Z.of_nat i)) ->
  (forall m, NoDup (kids h m)) ->
  (forall c m j, link h c = Some (Some m, j) -> c <> n -> c ∈ kids h m) ->
  (forall c j, link h c = Some (None, j) -> c <> kActiveFormattingScopeMarker -> j = -1) ->
  tree_ok exact h'.
Proof.
  intros Hh Hn Hcl Hgen Hroot Hc Hnd Hp Ho.
  assert (Hk : forall m, kids h' m = if decide (m ∈ F) then [] else kids h m).
  { intros m. unfold kids. rewrite Hh. case_decide; [|done]. by destruct (h !! m). }
  assert (Hl : forall m, link h' m = if decide (m ∈ F) then None else link h m).
  { intros m. unfold link. rewrite Hh. case_decide; [|done]. by destruct (h !! m). }
  split.
  - intros m i c. rewrite Hk. case_decide as Em; [done|]. intros Hm. destruct (Hc m i c Hm) as (j & Hj & He).
    exists j. rewrite Hl, decide_False; [done|]. intros [->|(m' & Hm' & Hin)]%Hgen.
    + eapply Hroot, list_elem_of_lookup. eauto.
    + apply list_elem_of_lookup in Hin as [i' Hin]. destruct (Hc m' i' c Hin) as (j' & Hj' & _). congruence.
  - intros m. rewrite Hk. case_decide; [constructor|apply Hnd].
  - intros c m j. rewrite Hl, Hk. case_decide as Ec; [done|]. intros Hm. apply Hp in Hm; [|by intros ->].
    rewrite decide_False; [done|]. intros HF. by eapply Ec, Hcl.
  - intros c j. rewrite Hl. case_decide; [done|]. apply Ho.
Qed.

(** The invariant, as a test of a heap. *)
Definition node_okb (exact : bool) (h : list (option GumboNode)) (n : nat) : bool :=
  forallb (fun ic => match link h ic.2 with
                     | Some (Some m, j) => (m =? n)%nat && (negb exact || (j =? Z.of_nat ic.1))
                     | _ => false
                     end) (imap pair (kids h n)) &&
  bool_decide (NoDup (kids h n)) &&
  match link h n with
  | Some (Some m, _) => bool_decide (n ∈ kids h m)
  | Some (None, j) => (n =? kActiveFormattingScopeMarker)%nat || (j =? -1)
  | None => true
  end.
Definition tree_okb (exact : bool) (h : list (option GumboNode)) : bool := forallb (node_okb exact h) (seq 0 (length h)).

Lemma node_okb_above exact h n : (length h <= n)%nat -> node_okb exact h n = true.
Proof. intros H. unfold node_okb, kids, link. by rewrite lookup_ge_None_2. Qed.

Lemma tree_okb_sound exact h : tree_okb exact h = true -> tree_ok exact h.
Proof.
  intros H. assert (Hn : forall n, node_okb exact h n = true).
  { intros n. destruct (decide (n < length h)%nat); [|apply node_okb_above; lia].
    unfold tree_okb in H. rewrite forallb_forall in H. apply H, in_seq. lia. }
  clear H. unfold node_okb in Hn. split; [intros n i c Hc|intros n|intros c n j Hl|intros c j Hl Hm].
  - specialize (Hn n). rewrite !andb_true_iff, forallb_forall in Hn. destruct Hn as [[Hn _] _].
    assert (Hin : (i, c) ∈ imap pair (kids h n)) by (apply elem_of_lookup_imap; eauto).
    apply list_elem_of_In, Hn in Hin. cbn in Hin. destruct (link h c) as [[[m|] j]|]; try done.
    apply andb_true_iff in Hin as [->%Nat.eqb_eq Hj]. exists j. split; [done|]. intros ->. by apply Z.eqb_eq.
  - specialize (Hn n). rewrite !andb_true_iff in Hn. by destruct Hn as [[_ Hn%bool_decide_eq_true_1] _].
  - specialize (Hn c). rewrite !andb_true_iff, Hl in Hn. by destruct Hn as [_ Hn%bool_decide_eq_true_1].
  - specialize (Hn c). rewrite !andb_true_iff, Hl in Hn. destruct Hn as [_ Hn].
    apply orb_true_iff in Hn as [Hn%Nat.eqb_eq|Hn%Z.eqb_eq]; done.
Qed.

(** * What an operation that returned has done *)
Lemma pbind_inv {A B} (m : parser A) (k : A -> parser B) p p'' b :
  (m ≫= k) p = Ok (p'', b) -> exists p' a, m p = Ok (p', a) /\ k a p' = Ok (p'', b).
Proof. unfold mbind, parser_bind. cbn. destruct (m p) as [[p' a]| |]; cbn; [eauto|done..]. Qed.

Lemma ret_inv {A} (a b : A) p p' : (mret a : parser A) p = Ok (p', b) -> p' = p /\ b = a.
Proof. unfold mret, parser_ret. intros H. by injection H. Qed.

Lemma lift_inv {A} (m : outcome A) p p' a : lift m p = Ok (p', a) -> p' = p /\ m = Ok a.
Proof. unfold lift. destruct m; cbn; [|done..]. intros H. by injection H as <- <-. Qed.

Lemma assert_inv b p p' u : assert b p = Ok (p', u) -> p' = p /\ b = true.
Proof. intros [-> H]%lift_inv. by destruct b. Qed.

Lemma get_inv {A} (f : GumboParser -> A) p p' a : get f p = Ok (p', a) -> p' = p /\ a = f p.
Proof. unfold get. intros H. by injection H. Qed.

Lemma modify_inv f p p' u : modify f p = Ok (p', u) -> p' = f p.
Proof. unfold modify. intros H. by injection H. Qed.

Lemma deref_inv n p p' node :
  deref n p = Ok (p', node) -> p' = p /\ exists a, n = Some a /\ heap p !! a = Some (Some node).
Proof.
  unfold deref, load. destruct n as [a|]; cbn; [|done]. destruct (heap p !! a) as [[x|]|] eqn:E; cbn; [|done..].
  intros H. injection H as <- <-. eauto.
Qed.

Lemma modify_node_inv n f p p' u :
  modify_node n f p = Ok (p', u) ->
  exists node, heap p !! n = Some (Some node) /\ p' = set_heap (<[n := Some (f node)]> (heap p)) p.
Proof.
  intros (p1 & node & (-> & a & Ha & Hn)%deref_inv & H%modify_inv)%pbind_inv. injection Ha as <-. eauto.
Qed.

Lemma v_element_inv node e : v_element node = Ok e -> n_v node = VElement e.
Proof. unfold v_element. destruct (n_v node); [done| |done]. intros H. by injection H as <-. Qed.
Lemma v_document_inv node d : v_document node = Ok d -> n_v node = VDocument d.
Proof. unfold v_document. destruct (n_v node); [|done..]. intros H. by injection H as <-. Qed.

Lemma element_inv n p p' e :
  element n p = Ok (p', e) ->
  p' = p /\ exists a node, n = Some a /\ heap p !! a = Some (Some node) /\ n_v node = VElement e.
Proof.
  intros (p1 & node & (-> & a & -> & Hn)%deref_inv & [-> H%v_element_inv]%lift_inv)%pbind_inv. eauto 6.
Qed.

Lemma modify_element_inv n f p p' u :
  modify_element n f p = Ok (p', u) ->
  exists node e, heap p !! n = Some (Some node) /\ n_v node = VElement e /\
    p' = set_heap (<[n := Some (set_v (VElement (f e)) node)]> (heap p)) p.
Proof.
  intros (p1 & e & (-> & a & node & Ha & Hn & Hv)%element_inv & (node' & Hn' & ->)%modify_node_inv)%pbind_inv.
  injection Ha as <-. rewrite Hn in Hn'. injection Hn' as <-. eauto.
Qed.

Lemma modify_document_inv n f p p' u :
  modify_document n f p = Ok (p', u) ->
  exists node d, heap p !! n = Some (Some node) /\ n_v node = VDocument d /\
    p' = set_heap (<[n := Some (set_v (VDocument (f d)) node)]> (heap p)) p.
Proof.
  intros (p1 & node & (-> & a & Ha & Hn)%deref_inv & H)%pbind_inv.
  apply pbind_inv in H as (p2 & d & [-> Hd%v_document_inv]%lift_inv & (node' & Hn' & ->)%modify_node_inv).
  injection Ha as <-. rewrite Hn in Hn'. injection Hn' as <-. eauto.
Qed.

Lemma children_of_inv n p p' l :
  children_of n p = Ok (p', l) ->
  p' = p /\ exists node, heap p !! n = Some (Some node) /\ node_children node = l /\
    if is_element_type (n_type node) then exists e, n_v node = VElement e else exists d, n_v node = VDocument d.
Proof.
  intros (p1 & node & (-> & a & Ha & Hn)%deref_inv & H)%pbind_inv. injection Ha as <-.
  destruct (is_element_type (n_type node)) eqn:Et.
  - apply pbind_inv in H as (p2 & e & [-> He%v_element_inv]%lift_inv & [-> ->]%ret_inv).
    split; [done|]. exists node. unfold node_children. rewrite He, Et. eauto.
  - apply pbind_inv in H as (p2 & [] & [-> Hd]%assert_inv & H).
    apply pbind_inv in H as (p3 & d & [-> Hv%v_document_inv]%lift_inv & [-> ->]%ret_inv).
    split; [done|]. exists node. unfold node_children. rewrite Hv, Et. eauto.
Qed.

(** Only the children of the node change. *)
Lemma set_children_of_inv n l p p' u :
  set_children_of n l p = Ok (p', u) ->
  (exists h, p' = set_heap h p /\ length h = length (heap p) /\
     (forall m, kids h m = if decide (m = n) then l else kids (heap p) m) /\ (forall m, link h m = link (heap p) m)).
Proof.
  intros (p1 & node & (-> & a & Ha & Hn)%deref_inv & H)%pbind_inv. injection Ha as <-.
  assert (Hlt : (n < length (heap p))%nat) by (by apply lookup_lt_Some in Hn).
  assert (Hlink : forall v m, link (<[n := Some (set_v v node)]> (heap p)) m = link (heap p) m).
  { intros v m. rewrite link_insert by done. case_decide as E; [subst m|done]. unfold link. by rewrite Hn. }
  destruct (is_element_type (n_type node)).
  - apply modify_element_inv in H as (node' & e & Hn' & Hv & ->). rewrite Hn in Hn'. injection Hn' as <-.
    eexists. split; [done|]. rewrite length_insert. split; [done|]. split; [|by apply Hlink].
    intros m. by rewrite kids_insert by done.
  - apply modify_document_inv in H as (node' & e & Hn' & Hv & ->). rewrite Hn in Hn'. injection Hn' as <-.
    eexists. split; [done|]. rewrite length_insert. split; [done|]. split; [|by apply Hlink].
    intros m. by rewrite kids_insert by done.
Qed.

(** A change of the link of one node. *)
Definition relinked (h h' : list (option GumboNode)) (c : nat) (x : option nat * Z) : Prop :=
  length h' = length h /\ (forall m, kids h' m = kids h m) /\
  (forall m, link h' m = if decide (m = c) then Some x else link h m).

Lemma set_parent_inv n q p p' u :
  modify_node n (set_parent q) p = Ok (p', u) ->
  exists h i, p' = set_heap h p /\ (exists q', link (heap p) n = Some (q', i)) /\ relinked (heap p) h n (q, i).
Proof.
  intros (node & Hn & ->)%modify_node_inv. assert (Hlt : (n < length (heap p))%nat) by (by apply lookup_lt_Some in Hn).
  eexists _, (index_within_parent node). split; [done|]. split; [unfold link; rewrite Hn; eauto|].
  split; [by rewrite length_insert|]. split; intros m; [rewrite kids_insert by done|by rewrite link_insert by done].
  case_decide as E; [subst m|done]. unfold kids. by rewrite Hn.
Qed.

Lemma set_index_inv n i p p' u :
  modify_node n (set_index i) p = Ok (p', u) ->
  exists h q, p' = set_heap h p /\ (exists i', link (heap p) n = Some (q, i')) /\ relinked (heap p) h n (q, i).
Proof.
  intros (node & Hn & ->)%modify_node_inv. assert (Hlt : (n < length (heap p))%nat) by (by apply lookup_lt_Some in Hn).
  eexists _, (parent node). split; [done|]. split; [unfold link; rewrite Hn; eauto|].
  split; [by rewrite length_insert|]. split; intros m; [rewrite kids_insert by done|by rewrite link_insert by done].
  case_decide as E; [subst m|done]. unfold kids. by rewrite Hn.
Qed.

(** The siblings, which differ, get the indices from [i] on. *)
Lemma renumber_inv l i p p' u :
  renumber l i p = Ok (p', u) -> NoDup l ->
  exists h, p' = set_heap h p /\ length h = length (heap p) /\ (forall m, kids h m = kids (heap p) m) /\
    (forall j d, l !! j = Some d -> exists q i', link (heap p) d = Some (q, i') /\ link h d = Some (q, i + Z.of_nat j)) /\
    (forall d, d ∉ l -> link h d = link (heap p) d) /\ (forall d, above h d = above (heap p) d).
Proof.
  revert i p; induction l as [|s l IH]; intros i p H Hnd.
  { apply ret_inv in H as [-> _]. exists (heap p). split_and!; try done. by destruct p. }
  apply pbind_inv in H as (p1 & [] & (h1 & q & -> & (i' & Hs) & Hlen & Hk & Hl)%set_index_inv & H).
  apply NoDup_cons in Hnd as [Hni Hnd]. destruct (IH _ _ H Hnd) as (h & -> & Hlen' & Hk' & Hl' & Ho & Hp). cbn in *.
  exists h. split_and!; [done|congruence|intros m; by rewrite Hk', Hk|..].
  3: { intros d. rewrite Hp. unfold above. rewrite Hl. case_decide as E; [subst d|done]. by rewrite Hs. }
  - intros [|j] d Hd; cbn in Hd.
    + injection Hd as <-. exists q, i'. split; [done|]. rewrite Ho by done. rewrite Hl, decide_True by done.
      do 2 f_equal. lia.
    + destruct (Hl' j d Hd) as (q' & i'' & H1 & H2). exists q', i''. rewrite Hl, decide_False in H1.
      * split; [done|]. rewrite H2. do 2 f_equal. lia.
      * intros ->. apply Hni. apply list_elem_of_lookup. eauto.
  - intros d Hd. rewrite not_elem_of_cons in Hd. destruct Hd as [Hne Hd]. rewrite Ho by done.
    by rewrite Hl, decide_False.
Qed.

Lemma set_parents_inv l q p p' u :
  set_parents l q p = Ok (p', u) -> NoDup l ->
  exists h, p' = set_heap h p /\ length h = length (heap p) /\ (forall m, kids h m = kids (heap p) m) /\
    (forall d, d ∈ l -> exists q' i, link (heap p) d = Some (q', i) /\ link h d = Some (Some q, i)) /\
    (forall d, d ∉ l -> link h d = link (heap p) d).
Proof.
  revert p; induction l as [|s l IH]; intros p H Hnd.
  { apply ret_inv in H as [-> _]. exists (heap p). split_and!; try done; [by destruct p|].
    intros d Hd. by apply elem_of_nil in Hd. }
  apply pbind_inv in H as (p1 & [] & (h1 & i & -> & (q' & Hs) & Hlen & Hk & Hl)%set_parent_inv & H).
  apply NoDup_cons in Hnd as [Hni Hnd]. destruct (IH _ H Hnd) as (h & -> & Hlen' & Hk' & Hl' & Ho). cbn in *.
  exists h. split_and!; [done|congruence|intros m; by rewrite Hk', Hk|..].
  - intros d [->|Hd]%elem_of_cons.
    + exists q', i. split; [done|]. rewrite Ho by done. by rewrite Hl, decide_True.
    + destruct (Hl' d Hd) as (q1 & i1 & H1 & H2). exists q1, i1. rewrite Hl, decide_False in H1; [done|].
      by intros ->.
  - intros d Hd. rewrite not_elem_of_cons in Hd. destruct Hd as [Hne Hd]. rewrite Ho by done.
    by rewrite Hl, decide_False.
Qed.

(** ** Types of nodes *)
Definition shaped {A} (m : parser A) : Prop :=
  forall p p' a, m p = Ok (p', a) -> forall n, shape (heap p') n = shape (heap p) n.

Lemma shaped_bind {A B} (m : parser A) (k : A -> parser B) : shaped m -> (forall a, shaped (k a)) -> shaped (m ≫= k).
Proof. intros Hm Hk p p'' b (p' & a & H1 & H2)%pbind_inv n. rewrite (Hk a p' p'' b H2 n). by eapply Hm. Qed.
Lemma shaped_modify_node n f :
  (forall node, n_type (f node) = n_type node) -> (forall node, kind (n_v (f node)) = kind (n_v node)) ->
  shaped (modify_node n f).
Proof.
  intros Ht Hk p p' u (node & Hn & ->)%modify_node_inv m. unfold shape. cbn.
  destruct (decide (m = n)) as [->|Hne]; [|by rewrite list_lookup_insert_ne by done].
  rewrite list_lookup_insert_eq by (by apply lookup_lt_Some in Hn). by rewrite Hn, Ht, Hk.
Qed.
Lemma shaped_insert v p n node :
  heap p !! n = Some (Some node) -> kind v = kind (n_v node) ->
  forall m, shape (<[n := Some (set_v v node)]> (heap p)) m = shape (heap p) m.
Proof.
  intros Hn Hk m. unfold shape. destruct (decide (m = n)) as [->|Hne]; [|by rewrite list_lookup_insert_ne by done].
  rewrite list_lookup_insert_eq by (by apply lookup_lt_Some in Hn). rewrite Hn. cbn. by rewrite Hk.
Qed.
Lemma shaped_modify_element n f : shaped (modify_element n f).
Proof. intros p p' u (node & e & Hn & Hv & ->)%modify_element_inv m. cbn. apply shaped_insert; [done|by rewrite Hv]. Qed.
Lemma shaped_modify_document n f : shaped (modify_document n f).
Proof. intros p p' u (node & e & Hn & Hv & ->)%modify_document_inv m. cbn. apply shaped_insert; [done|by rewrite Hv]. Qed.

(** Operations that only read the state. *)
Definition reads {A} (m : parser A) : Prop := forall p p' a, m p = Ok (p', a) -> p' = p.

Lemma reads_ret {A} (a : A) : reads (mret a : parser A).
Proof. intros p p' b [-> _]%ret_inv. done. Qed.
Lemma reads_bind {A B} (m : parser A) (k : A -> parser B) : reads m -> (forall a, reads (k a)) -> reads (m ≫= k).
Proof. intros Hm Hk p p'' b (p' & a & H1 & ->%Hk)%pbind_inv. by eapply Hm. Qed.
Lemma reads_lift {A} (m : outcome A) : reads (lift m).
Proof. intros p p' a [-> _]%lift_inv. done. Qed.
Lemma reads_get {A} (f : GumboParser -> A) : reads (get f).
Proof. intros p p' a [-> _]%get_inv. done. Qed.
Lemma reads_deref n : reads (deref n).
Proof. intros p p' a (-> & _)%deref_inv. done. Qed.
Lemma shaped_reads {A} (m : parser A) : reads m -> shaped m.
Proof. by intros H p p' a ->%H. Qed.

Create HintDb reads.
#[export] Hint Resolve reads_ret reads_lift reads_get reads_deref : reads.
#[export] Hint Extern 0 (reads (assert _)) => apply reads_lift : reads.

(** Follow the structure of a program that only reads. *)
Ltac read_step :=
  match goal with
  | |- reads (_ ≫= _) => apply reads_bind; [|intros ?]
  | |- reads (let _ := _ in _) => cbv zeta
  | |- reads (match ?x with _ => _ end) => destruct x eqn:?
  | |- reads _ => solve [auto with reads]
  end.
Ltac read := repeat read_step; try done.

Lemma element_reads n : reads (element n).
Proof. unfold element. read. Qed.
Lemma children_of_reads n : reads (children_of n).
Proof. unfold children_of. read. Qed.
#[export] Hint Resolve element_reads children_of_reads : reads.

Create HintDb shaped.
#[export] Hint Resolve shaped_modify_element shaped_modify_document : shaped.
#[export] Hint Extern 1 (shaped (modify_node _ _)) => (by apply shaped_modify_node) : shaped.

(** The same for a program that changes no type. *)
Ltac shaped_step :=
  match goal with
  | |- shaped (_ ≫= _) => apply shaped_bind; [|intros ?]
  | |- shaped (let _ := _ in _) => cbv zeta
  | |- shaped (match ?x with _ => _ end) => destruct x eqn:?
  | |- shaped _ => solve [auto with shaped | apply shaped_reads; auto with reads]
  end.
Ltac shaped_prog := repeat shaped_step; try done.

Lemma renumber_shaped l i : shaped (renumber l i).
Proof. revert i; induction l; intros i; cbn [renumber]; shaped_prog. Qed.
Lemma set_parents_shaped l q : shaped (set_parents l q).
Proof. induction l; cbn [set_parents]; shaped_prog. Qed.
Lemma set_children_of_shaped n l : shaped (set_children_of n l).
Proof. unfold set_children_of. shaped_prog. Qed.
#[export] Hint Resolve renumber_shaped set_parents_shaped set_children_of_shaped : shaped.
Lemma append_node_shaped q n : shaped (append_node q n).
Proof. unfold append_node. shaped_prog. Qed.
#[export] Hint Resolve append_node_shaped : shaped.
Lemma insert_node_shaped n location : shaped (insert_node n location).
Proof. unfold insert_node. shaped_prog. Qed.
Lemma remove_from_parent_shaped n : shaped (remove_from_parent n).
Proof. unfold remove_from_parent. shaped_prog. Qed.
Lemma swap_children_shaped b n : shaped (swap_children b n).
Proof. unfold swap_children. shaped_prog. Qed.

(** The other way round. *)
Lemma deref_Ok n node p : heap p !! n = Some (Some node) -> deref (Some n) p = Ok (p, node).
Proof. intros H. unfold deref, load. cbn. by rewrite H. Qed.

Lemma pbind_Ok {A B} (m : parser A) (k : A -> parser B) p p' a : m p = Ok (p', a) -> (m ≫= k) p = k a p'.
Proof. intros H. unfold mbind, parser_bind. by rewrite H. Qed.

(** * Operations on the tree *)

(** Only the heap has changed; it has as many nodes, the links agree, and the document
    is where it was. *)
Definition rebuilt (exact : bool) (p p' : GumboParser) : Prop :=
  exists h, p' = set_heap h p /\ length h = length (heap p) /\ tree_ok exact h /\ steady (heap p) h.

Lemma rebuilt_same exact p : tree_ok exact (heap p) -> rebuilt exact p p.
Proof. intros Ht. exists (heap p). split_and!; try done. by destruct p. Qed.

(** [bind m p] as an equation, step by step. *)
Tactic Notation "step" hyp(H) "as" ident(a) :=
  let p := fresh "p" in let E := fresh "E" in apply pbind_inv in H as (p & a & E & H).
Tactic Notation "step" hyp(H) := let a := fresh "a" in step H as a.


Lemma attach_inv node par i p p' u :
  (modify_node node (set_parent (Some par));; modify_node node (set_index i)) p = Ok (p', u) ->
  exists h, p' = set_heap h p /\ relinked (heap p) h node (Some par, i).
Proof.
  intros H. step H. apply set_parent_inv in E as (h1 & i1 & -> & _ & Hlen1 & Hk1 & Hl1).
  apply set_index_inv in H as (h2 & q & -> & (i2 & Hq) & Hlen2 & Hk2 & Hl2). cbn in *.
  rewrite Hl1, decide_True in Hq by done. injection Hq as <- <-.
  exists h2. split; [done|]. split; [congruence|]. split; intros m; [by rewrite Hk2, Hk1|].
  rewrite Hl2, Hl1. by case_decide.
Qed.

Lemma pbind_assoc {A B C} (m : parser A) (k : A -> parser B) (k' : B -> parser C) p :
  ((m ≫= k) ≫= k') p = (m ≫= (fun a => k a ≫= k')) p.
Proof. unfold mbind, parser_bind. cbn. by destruct (m p) as [[p' a]| |]. Qed.

Lemma append_node_tree exact par node p p' u :
  append_node par node p = Ok (p', u) -> tree_ok exact (heap p) -> node <> the_document -> rebuilt exact p p'.
Proof.
  intros H Ht Hne. pose proof (append_node_shaped _ _ _ _ _ H) as Hsh. unfold append_node in H. step H as n. apply deref_inv in E as (-> & x & Ha & Hn). injection Ha as <-.
  step H. apply assert_inv in E as [-> Hp%bool_decide_eq_true_1]. step H. apply assert_inv in E as [-> Hi%Z.eqb_eq].
  step H as l. apply children_of_inv in E as (-> & pn & Hpn & Hch & _).
  rewrite <- pbind_assoc in H. step H. apply attach_inv in E as (h1 & -> & Hlen1 & Hk1 & Hl1).
  apply set_children_of_inv in H as (h2 & -> & Hlen2 & Hk2 & Hl2). cbn in *.
  assert (Hkids : kids (heap p) par = l) by (unfold kids; by rewrite Hpn).
  assert (Hdrop : drop (length l) (kids (heap p) par) = []) by (rewrite Hkids; by apply drop_ge).
  assert (Hlink : link (heap p) node = Some (None, -1)) by (unfold link; rewrite Hn; congruence).
  exists h2. split; [done|]. split; [congruence|]. split.
  2: { eapply steady_orphan; [done..|]. intros d Hd. unfold above. by rewrite Hl2, Hl1, decide_False. }
  apply (tree_insert exact (heap p) h2 par node (length l)); [done|done|by rewrite Hkids| | |rewrite Hdrop; by intros j|].
  - intros m. rewrite Hk2, Hk1. case_decide; [|done]. by rewrite Hdrop, Hkids, take_ge by lia.
  - by rewrite Hl2, Hl1, decide_True.
  - intros d Hd _. by rewrite Hl2, Hl1, decide_False.
Qed.

Lemma insert_node_tree exact node location p p' u :
  insert_node node location p = Ok (p', u) -> tree_ok exact (heap p) -> node <> the_document -> rebuilt exact p p'.
Proof.
  intros H Ht Hne. pose proof (insert_node_shaped _ _ _ _ _ H) as Hsh. unfold insert_node in H. step H as n. apply deref_inv in E as (-> & x & Ha & Hn). injection Ha as <-.
  step H. apply assert_inv in E as [-> Hp%bool_decide_eq_true_1]. step H. apply assert_inv in E as [-> Hi%Z.eqb_eq].
  destruct location as [par i]. cbn [target index] in H. destruct (negb (i =? -1)) eqn:Ei; [|by eapply append_node_tree in H].
  step H. apply deref_inv in E as (-> & _). step H as l. apply children_of_inv in E as (-> & pn & Hpn & Hch & _).
  step H. apply assert_inv in E as [-> _]. step H. apply assert_inv in E as [-> H0%Z.leb_le].
  step H. apply assert_inv in E as [-> Hlt%Z.ltb_lt].
  rewrite <- pbind_assoc in H. step H. apply attach_inv in E as (h1 & -> & Hlen1 & Hk1 & Hl1).
  step H as l'. apply lift_inv in E as [-> Hins]. unfold gumbo_vector_insert_at in Hins.
  destruct (_ <=? _)%nat; cbn in Hins; [injection Hins as Hins|done]. symmetry in Hins.
  step H. apply set_children_of_inv in E as (h2 & -> & Hlen2 & Hk2 & Hl2). cbn in *.
  assert (Hkids : kids (heap p) par = l) by (unfold kids; by rewrite Hpn).
  set (k := Z.to_nat i) in *. assert (Hik : i = Z.of_nat k) by lia. assert (Hk : (k < length l)%nat) by lia.
  assert (Hdrop : drop (S k) l' = drop k l).
  { rewrite Hins. replace (S k) with (length (take k l) + 1)%nat at 1 by (rewrite length_take; lia).
    by rewrite drop_app_add. }
  rewrite Hdrop in H. pose proof (tree_nodup Ht par) as Hnd. rewrite Hkids, <- (take_drop k l) in Hnd.
  apply NoDup_app in Hnd as (_ & _ & Hnd). apply renumber_inv in H as (h3 & -> & Hlen3 & Hk3 & Hl3 & Ho3 & Ha3); [|done]. cbn in *.
  assert (Hnin : node ∉ drop k l).
  { intros [j Hj]%list_elem_of_lookup. rewrite lookup_drop, <- Hkids in Hj. apply (tree_child Ht) in Hj as (? & Hj & _).
    unfold link in Hj. rewrite Hn in Hj. congruence. }
  assert (Hlink : link (heap p) node = Some (None, -1)) by (unfold link; rewrite Hn; congruence).
  exists h3. split; [done|]. split; [congruence|]. split.
  2: { eapply steady_orphan; [done..|]. intros d Hd. rewrite Ha3. unfold above. by rewrite Hl2, Hl1, decide_False. }
  apply (tree_insert exact (heap p) h3 par node k); [done|done|by rewrite Hkids; lia|..]; rewrite ?Hkids.
  - intros m. rewrite Hk3, Hk2, Hk1. by case_decide; [rewrite Hins|].
  - rewrite Ho3 by done. rewrite Hl2, Hl1, decide_True by done. by rewrite Hik.
  - intros j d Hj. destruct (Hl3 j d Hj) as (q & i' & H1 & H2). rewrite Hl2, Hl1, decide_False in H1.
    + rewrite lookup_drop, <- Hkids in Hj. apply (tree_child Ht) in Hj as (? & Hj & _). rewrite Hj in H1. injection H1 as <- <-.
      rewrite H2. do 2 f_equal. lia.
    + intros ->. apply Hnin. apply list_elem_of_lookup. eauto.
  - intros d Hd Hin. rewrite Ho3 by done. by rewrite Hl2, Hl1, decide_False.
Qed.

Lemma index_of_lookup l x i : gumbo_vector_index_of l x = Some i -> l !! i = Some x.
Proof.
  revert i; induction l as [|y l IH]; intros i; cbn; [done|]. destruct (y =? x)%nat eqn:E.
  - intros H. injection H as <-. apply Nat.eqb_eq in E. by subst.
  - destruct (gumbo_vector_index_of l x) as [j|]; cbn; [|done]. intros H. injection H as <-. by apply IH.
Qed.

Lemma remove_at_inv i l l' : gumbo_vector_remove_at i l = Ok l' -> (i < length l)%nat /\ l' = take i l ++ drop (S i) l.
Proof.
  unfold gumbo_vector_remove_at. destruct (i <? length l)%nat eqn:E; cbn; [|done]. intros H. injection H as <-.
  split; [by apply Nat.ltb_lt|done].
Qed.

(** After the removal the node has no parent. *)
Lemma remove_from_parent_tree exact node p p' u :
  remove_from_parent node p = Ok (p', u) -> tree_ok exact (heap p) -> doc_ok (heap p) -> rebuilt exact p p'.
Proof.
  intros H Ht [Hdoc Hroot]. pose proof (remove_from_parent_shaped _ _ _ _ H) as Hsh. unfold remove_from_parent in H. step H as n. apply deref_inv in E as (-> & x & Ha & Hn). injection Ha as <-.
  destruct (parent n) as [par|] eqn:Hp; [|apply ret_inv in H as [-> _]; by apply rebuilt_same].
  step H as pn. apply deref_inv in E as (-> & x & Ha & Hpn). injection Ha as <-.
  step H. apply assert_inv in E as [-> Hty%bool_decide_eq_true_1].
  step H as e. apply lift_inv in E as [-> He%v_element_inv].
  destruct (gumbo_vector_index_of (el_children e) node) as [i|] eqn:Hi; [|apply assert_inv in H as [_ H]; done].
  apply index_of_lookup in Hi. step H. apply lift_inv in E as [-> [Hlt ->]%remove_at_inv].
  assert (Hkids : kids (heap p) par = el_children e) by (unfold kids, node_children; by rewrite Hpn, He).
  step H. apply modify_element_inv in E as (pn' & e' & Hpn' & Hv & ->). rewrite Hpn in Hpn'. injection Hpn' as <-.
  rewrite He in Hv. injection Hv as <-. assert (Hpl : (par < length (heap p))%nat) by (by apply lookup_lt_Some in Hpn).
  step H. apply set_parent_inv in E as (h1 & i1 & -> & _ & Hlen1 & Hk1 & Hl1).
  step H. apply set_index_inv in E as (h2 & q2 & -> & (i2 & Hq2) & Hlen2 & Hk2 & Hl2). cbn in *.
  rewrite length_insert in Hlen1. rewrite Hl1, decide_True in Hq2 by done. injection Hq2 as <- <-.
  set (l := el_children e) in *. set (par_node := set_v _ _) in *.
  assert (Hdrop : drop i (take i l ++ drop (S i) l) = drop (S i) l).
  { rewrite <- (length_take_le l i) at 1 by lia. apply drop_app_length. }
  assert (Hlink0 : forall m, link (<[par := Some par_node]> (heap p)) m = link (heap p) m).
  { intros m. rewrite link_insert by done. case_decide as Em; [subst m|done]. unfold link. by rewrite Hpn. }
  rewrite Hdrop in H. pose proof (tree_nodup Ht par) as Hnd. rewrite Hkids, <- (take_drop (S i) l) in Hnd.
  apply NoDup_app in Hnd as (_ & _ & Hnd). apply renumber_inv in H as (h3 & -> & Hlen3 & Hk3 & Hl3 & Ho3 & Ha3); [|done]. cbn in *.
  assert (Hnin : node ∉ drop (S i) l).
  { intros [j Hj]%list_elem_of_lookup. rewrite lookup_drop, <- Hkids in Hj. rewrite <- Hkids in Hi.
    pose proof (tree_unique Ht Hi Hj). lia. }
  exists h3. split; [done|]. split; [congruence|]. split.
  2: { apply (steady_moves (eq node)); [done| | |].
    - intros d Hd. rewrite Ha3. unfold above. by rewrite Hl2, decide_False, Hl1, decide_False, Hlink0 by congruence.
    - intros ->. unfold above, link in Hroot. rewrite Hn in Hroot. cbn in Hroot. congruence.
    - intros d Hd <-. unfold above, link in Hd. rewrite Hn in Hd. cbn in Hd. injection Hd as Hd.
      assert (par = the_document) as -> by congruence. unfold shape in Hdoc. rewrite Hpn in Hdoc. congruence. }
  apply (tree_remove exact (heap p) h3 par node i); [done|by rewrite Hkids|..]; rewrite ?Hkids.
  - intros m. rewrite Hk3, Hk2, Hk1, kids_insert by done. by case_decide.
  - rewrite Ho3 by done. by rewrite Hl2, decide_True.
  - intros j d Hj. assert (Hdn : d <> node) by (intros ->; apply Hnin; apply list_elem_of_lookup; eauto).
    destruct (Hl3 j d Hj) as (q & i' & H1 & H2). rewrite Hl2, decide_False, Hl1, decide_False, Hlink0 in H1 by done.
    rewrite lookup_drop, <- Hkids in Hj. apply (tree_child Ht) in Hj as (? & Hj & _). rewrite Hj in H1. injection H1 as <- <-.
    rewrite H2. do 2 f_equal. lia.
  - intros d Hd Hin. rewrite Ho3 by done. by rewrite Hl2, decide_False, Hl1, decide_False, Hlink0 by done.
Qed.

Lemma swap_children_tree exact b n p p' u :
  swap_children b n p = Ok (p', u) -> tree_ok exact (heap p) -> doc_ok (heap p) -> n <> b -> kids (heap p) n = [] ->
  rebuilt exact p p'.
Proof.
  intros H Ht [Hdoc Hroot] Hne Hk0. pose proof (swap_children_shaped _ _ _ _ _ H) as Hsh. unfold swap_children in H. step H as be. apply element_inv in E as (-> & x & bn & Ha & Hbn & Hbv).
  injection Ha as <-. step H as ne. apply element_inv in E as (-> & x & nn & Ha & Hnn & Hnv). injection Ha as <-.
  step H. apply modify_element_inv in E as (x & e & Hx & He & ->). rewrite Hnn in Hx. injection Hx as <-.
  rewrite Hnv in He. injection He as <-.
  step H. apply modify_element_inv in E as (x & e & Hx & He & ->). cbn in Hx. rewrite list_lookup_insert_ne in Hx by done.
  rewrite Hbn in Hx. injection Hx as <-. rewrite Hbv in He. injection He as <-.
  assert (Hkb : kids (heap p) b = el_children be) by (unfold kids, node_children; by rewrite Hbn, Hbv).
  assert (Hkn : el_children ne = []) by (unfold kids, node_children in Hk0; by rewrite Hnn, Hnv in Hk0).
  assert (Hnl : (n < length (heap p))%nat) by (by apply lookup_lt_Some in Hnn).
  assert (Hbl : (b < length (heap p))%nat) by (by apply lookup_lt_Some in Hbn).
  pose proof (tree_nodup Ht b) as Hnd. rewrite Hkb in Hnd.
  apply set_parents_inv in H as (h & -> & Hlen & Hk & Hl & Ho); [|done]. cbn in *. rewrite !length_insert in Hlen.
  set (n1 := set_v _ nn) in *. set (b1 := set_v _ bn) in *.
  assert (Hl0 : forall m, link (<[b := Some b1]> (<[n := Some n1]> (heap p))) m = link (heap p) m).
  { intros m. rewrite !link_insert by (by rewrite ?length_insert). repeat case_decide; subst; try done; unfold link.
    - by rewrite Hbn.
    - by rewrite Hnn. }
  exists h. split; [done|]. split; [done|]. split.
  2: { apply (steady_moves (fun d => d ∈ kids (heap p) b)); [done| | |].
    - rewrite Hkb. intros d Hd. unfold above. by rewrite Ho, Hl0.
    - intros [j Hj]%(tree_in Ht). unfold above in Hroot. by rewrite Hj in Hroot.
    - intros d Hd [j Hj]%(tree_in Ht). unfold above in Hd. rewrite Hj in Hd. cbn in Hd.
      assert (b = the_document) as -> by congruence. unfold shape in Hdoc. rewrite Hbn, Hbv in Hdoc. done. }
  apply (tree_move exact (heap p) h b n); [done|done|done|..].
  - intros m. rewrite Hk, !kids_insert by (by rewrite ?length_insert). repeat case_decide; subst; try done.
  - rewrite Hkb. intros d q j Hd. destruct (Hl d Hd) as (q' & j' & H1 & H2). rewrite Hl0 in H1. congruence.
  - rewrite Hkb. intros d Hd. by rewrite Ho, Hl0.
Qed.

(** * Operations that only read the state *)
#[export] Hint Extern 0 (reads get_token) => apply reads_get : reads.
#[export] Hint Extern 0 (reads get_document_node) => apply reads_get : reads.
#[export] Hint Extern 0 (reads is_fragment_parser) => apply reads_get : reads.
#[export] Hint Extern 0 (reads get_current_template_insertion_mode) => apply reads_get : reads.

Lemma get_current_node_reads : reads get_current_node.
Proof. unfold get_current_node. read. Qed.
#[export] Hint Resolve get_current_node_reads : reads.
Lemma get_adjusted_current_node_reads : reads get_adjusted_current_node.
Proof. unfold get_adjusted_current_node. read. Qed.
Lemma node_tag_in_set_reads n tags : reads (node_tag_in_set n tags).
Proof. unfold node_tag_in_set. read. Qed.
Lemma node_qualified_tag_is_reads n ns tag : reads (node_qualified_tag_is n ns tag).
Proof. unfold node_qualified_tag_is. read. Qed.
Lemma node_html_tag_is_reads n tag : reads (node_html_tag_is n tag).
Proof. apply node_qualified_tag_is_reads. Qed.
Lemma current_token_reads : reads current_token.
Proof. unfold current_token. read. Qed.
#[export] Hint Resolve get_adjusted_current_node_reads node_tag_in_set_reads
  node_qualified_tag_is_reads node_html_tag_is_reads current_token_reads : reads.

Lemma select_mode_reads open_elements i : reads (select_mode open_elements i).
Proof. induction i; cbn [select_mode]; read. Qed.
#[export] Hint Resolve select_mode_reads : reads.
Lemma get_appropriate_insertion_mode_reads i : reads (get_appropriate_insertion_mode i).
Proof. unfold get_appropriate_insertion_mode. read. Qed.
Lemma tags_of_reads l : reads (tags_of l).
Proof. induction l; cbn [tags_of]; read. Qed.
Lemma is_mathml_integration_point_reads n : reads (is_mathml_integration_point n).
Proof. apply node_tag_in_set_reads. Qed.
Lemma is_html_integration_point_reads n : reads (is_html_integration_point n).
Proof. unfold is_html_integration_point. read. Qed.
Lemma last_template_and_table_reads l i a b : reads (last_template_and_table l i a b).
Proof. revert i a b; induction l; intros; cbn [last_template_and_table]; read. Qed.
#[export] Hint Resolve get_appropriate_insertion_mode_reads tags_of_reads is_mathml_integration_point_reads
  is_html_integration_point_reads last_template_and_table_reads : reads.
Lemma get_appropriate_insertion_location_reads o : reads (get_appropriate_insertion_location o).
Proof. unfold get_appropriate_insertion_location. read. Qed.
Lemma is_closed_reads n : reads (is_closed_body_or_html_tag n).
Proof. unfold is_closed_body_or_html_tag. read. Qed.
Lemma current_not_in_reads tags : reads (current_not_in tags).
Proof. unfold current_not_in. read. Qed.
#[export] Hint Resolve get_appropriate_insertion_location_reads is_closed_reads current_not_in_reads : reads.

(** Formatting elements, scopes, the adoption agency. *)
Lemma find_last_anchor_loop_reads l i : reads (find_last_anchor_loop l i).
Proof. induction i; cbn [find_last_anchor_loop]; read. Qed.
#[export] Hint Resolve find_last_anchor_loop_reads : reads.
Lemma find_last_anchor_index_reads : reads find_last_anchor_index.
Proof. unfold find_last_anchor_index. read. Qed.
Lemma count_formatting_loop_reads d l i n e : reads (count_formatting_loop d l i n e).
Proof. revert n e; induction i; intros; cbn [count_formatting_loop]; read. Qed.
#[export] Hint Resolve find_last_anchor_index_reads count_formatting_loop_reads : reads.
Lemma count_formatting_elements_of_tag_reads n e : reads (count_formatting_elements_of_tag n e).
Proof. unfold count_formatting_elements_of_tag. read. Qed.
Lemma is_open_element_reads n : reads (is_open_element n).
Proof. unfold is_open_element. read. Qed.
#[export] Hint Resolve count_formatting_elements_of_tag_reads is_open_element_reads : reads.
Lemma reconstruct_rewind_reads l i : reads (reconstruct_rewind l i).
Proof. induction i; cbn [reconstruct_rewind]; read. Qed.
Lemma scope_loop_reads l e b tags : reads (scope_loop l e b tags).
Proof. induction l; cbn [scope_loop]; read. Qed.
#[export] Hint Resolve reconstruct_rewind_reads scope_loop_reads : reads.
Lemma has_an_element_in_specific_scope_reads e b tags : reads (has_an_element_in_specific_scope e b tags).
Proof. unfold has_an_element_in_specific_scope. read. Qed.
#[export] Hint Resolve has_an_element_in_specific_scope_reads : reads.
(** The scopes differ only in their tags. *)
Ltac unfold_scope :=
  unfold has_open_element, has_an_element_in_scope, has_an_element_in_scope_with_tagname,
    has_an_element_in_list_scope, has_an_element_in_button_scope, has_an_element_in_table_scope,
    has_an_element_in_select_scope.
#[export] Hint Extern 2 (reads _) => (progress unfold_scope) : reads.
Lemma node_scope_loop_reads l n : reads (node_scope_loop l n).
Proof. induction l; cbn [node_scope_loop]; read. Qed.
#[export] Hint Resolve node_scope_loop_reads : reads.
Lemma has_node_in_scope_reads n : reads (has_node_in_scope n).
Proof. unfold has_node_in_scope. read. Qed.
Lemma is_special_node_reads n : reads (is_special_node n).
Proof. unfold is_special_node. read. Qed.
#[export] Hint Resolve has_node_in_scope_reads is_special_node_reads : reads.
Lemma find_formatting_node_reads l i tag : reads (find_formatting_node l i tag).
Proof. induction i; cbn [find_formatting_node]; read. Qed.
Lemma find_furthest_block_reads l j : reads (find_furthest_block l j).
Proof. revert j; induction l; intros; cbn [find_furthest_block]; read. Qed.
Lemma current_is_reads tag : reads (current_is tag).
Proof. unfold current_is. read. Qed.
Lemma at_html_or_integration_point_reads : reads at_html_or_integration_point.
Proof. unfold at_html_or_integration_point. read. Qed.
Lemma is_html_content_reads n token : reads (is_html_content n token).
Proof. unfold is_html_content. read. Qed.
Lemma piece_text_reads o : reads (piece_text o).
Proof. unfold piece_text. read. Qed.
#[export] Hint Resolve find_formatting_node_reads find_furthest_block_reads current_is_reads
  at_html_or_integration_point_reads is_html_content_reads piece_text_reads : reads.
Lemma tagname_of_reads o : reads (tagname_of o).
Proof. unfold tagname_of. read. Qed.
#[export] Hint Resolve tagname_of_reads : reads.

(** * The invariant *)

(** The current token is no frameset start tag. *)
Definition no_frameset (token : GumboToken) : Prop := tag_is token kStartTag GUMBO_TAG_FRAMESET = false.

(** The modes in which there is a root, and those that go back to a saved mode. *)
Definition late (mode : GumboInsertionMode) : bool :=
  match mode with GUMBO_INSERTION_MODE_INITIAL | GUMBO_INSERTION_MODE_BEFORE_HTML => false | _ => true end.
Definition textual (mode : GumboInsertionMode) : bool :=
  match mode with GUMBO_INSERTION_MODE_TEXT | GUMBO_INSERTION_MODE_IN_TABLE_TEXT => true | _ => false end.
Definition plain_mode (mode : GumboInsertionMode) : bool := late mode && negb (textual mode).

(** What is assumed of the state: [calm], that the token is no frameset start tag;
    [rooted], that the document has its root element; [saved], that the saved mode is
    one to go back to. *)
Record regime := Regime { calm : bool; rooted : bool; saved : bool }.
Definition loosely : regime := Regime false false false.
Definition calmly : regime := Regime true true false.

(** The root is a child of the document, and the modes are those of a document with a
    root. *)
Definition settled (saved : bool) (p : GumboParser) : Prop :=
  (exists r, root p = Some r /\ above (heap p) r = Some (Some the_document)) /\
  late (_insertion_mode p) = true /\ Forall (fun mode => plain_mode mode = true) (_template_insertion_modes p) /\
  (textual (_insertion_mode p) = true -> late (_original_insertion_mode p) = true) /\
  (saved = true -> late (_original_insertion_mode p) = true).

(** [L] is a lower bound for the addresses of new nodes, [C] the fragment context. *)
Record inv (exact : bool) (g : regime) (C : ptr) (L : nat) (p : GumboParser) : Prop := Inv {
  inv_ctx : _fragment_ctx p = C;
  inv_len : (L <= length (heap p))%nat;
  inv_tree : tree_ok exact (heap p);
  inv_calm : calm g = true -> no_frameset (_output (tokenizer_state p));
  inv_document : document p = the_document;
  inv_doc : doc_ok (heap p);
  inv_typed : typed (heap p);
  inv_settled : rooted g = true -> settled (saved g) p
}.

Definition keeps (g : regime) {A} (m : parser A) : Prop :=
  forall exact C L p p' a, inv exact g C L p -> m p = Ok (p', a) -> inv exact g C L p'.

(** The document is in the heap, so that a new node is another one. *)
Lemma doc_ok_length h : doc_ok h -> (the_document < length h)%nat.
Proof. intros [H _]. unfold shape in H. destruct (h !! the_document) eqn:E; [by apply lookup_lt_Some in E|done]. Qed.

Lemma above_alive h n x : above h n = Some x -> (n < length h)%nat.
Proof. unfold above, link. destruct (h !! n) eqn:E; [by apply lookup_lt_Some in E|done]. Qed.

(** What the invariant is about, apart from the text buffer and the stacks. *)
Definition frame (p : GumboParser) :=
  (_fragment_ctx p, heap p, tokenizer_state p, document p, root p,
   (_insertion_mode p, _original_insertion_mode p, _template_insertion_modes p)).

Lemma inv_frame exact g C L p p' : frame p' = frame p -> inv exact g C L p -> inv exact g C L p'.
Proof.
  unfold frame. intros [= E1 E2 E3 E4 E5 E6 E7 E8] [H1 H2 H3 H4 H5 H6 H7 H8].
  split; rewrite ?E1, ?E2, ?E3, ?E4; try done. unfold settled in *. by rewrite E2, E5, E6, E7, E8.
Qed.

(** A heap that is built on. *)
Lemma inv_heap exact g C L p h :
  inv exact g C L p -> (L <= length h)%nat -> tree_ok exact h -> doc_ok h -> typed h ->
  (forall n, above (heap p) n = Some (Some the_document) -> above h n = Some (Some the_document)) ->
  inv exact g C L (set_heap h p).
Proof.
  intros [H1 H2 H3 H4 H5 H6 H7 H8] HL Ht Hd Hty Ha. split; try done. intros Hg.
  destruct (H8 Hg) as ((r & Hr & Hra) & Hm). split; [|done]. exists r. split; [done|]. by apply Ha.
Qed.

Lemma inv_rebuilt exact g C L p p' : inv exact g C L p -> rebuilt exact p p' -> inv exact g C L p'.
Proof.
  intros Hi (h & -> & Hl & Ht & Hs). apply inv_heap; try done.
  - rewrite Hl. apply Hi.
  - by eapply steady_doc_ok, Hi.
  - by eapply steady_typed, Hi.
  - apply Hs.
Qed.

(** The assumptions can be dropped. *)
Lemma inv_weaken_regime exact g g' C L p :
  (calm g' = true -> calm g = true) -> (rooted g' = true -> rooted g = true) -> (saved g' = true -> saved g = true) ->
  inv exact g C L p -> inv exact g' C L p.
Proof.
  intros Hc Hr Hs [H1 H2 H3 H4 H5 H6 H7 H8]. split; try done; [by intros ?%Hc%H4|].
  intros (Ha & Hb & Hd & He & Hf)%Hr%H8. split_and!; try done. by intros ?%Hs%Hf.
Qed.

Lemma keeps_ret g {A} (a : A) : keeps g (mret a : parser A).
Proof. intros exact C L p p' b H [-> _]%ret_inv. done. Qed.

Lemma keeps_bind g {A B} (m : parser A) (k : A -> parser B) : keeps g m -> (forall a, keeps g (k a)) -> keeps g (m ≫= k).
Proof. intros Hm Hk exact C L p p' b Hi H. step H. eapply Hk; [|exact H]. by eapply Hm. Qed.

Lemma keeps_token g {B} (k : GumboToken -> parser B) :
  (forall token, (calm g = true -> no_frameset token) -> keeps g (k token)) -> keeps g (get_token ≫= k).
Proof.
  intros Hk exact C L p p' b Hi H. step H as token. apply get_inv in E as [-> ->]. eapply Hk; [|done|exact H]. apply Hi.
Qed.

Lemma keeps_reads g {A} (m : parser A) : reads m -> keeps g m.
Proof. intros Hm exact C L p p' a H ->%Hm. done. Qed.
Lemma keeps_when g b m : keeps g m -> keeps g (when b m).
Proof. intros H. destruct b; [done|]. apply keeps_ret. Qed.
Lemma keeps_modify g f : (forall p, frame (f p) = frame p) -> keeps g (modify f).
Proof. intros Hf exact C L p p' a Hi ->%modify_inv. eapply inv_frame; [apply Hf|done]. Qed.

Lemma keeps_rebuilt g {A} (m : parser A) :
  (forall exact p p' a, m p = Ok (p', a) -> tree_ok exact (heap p) -> doc_ok (heap p) -> rebuilt exact p p') -> keeps g m.
Proof. intros Hm exact C L p p' a Hi H. eapply inv_rebuilt; [done|]. by eapply Hm; [|apply Hi..]. Qed.

(** What is known of the answer of an operation. *)
Definition yields {A} (P : A -> Prop) (m : parser A) : Prop :=
  forall exact g C L p p' a, inv exact g C L p -> m p = Ok (p', a) -> P a.

(** The node that the operation returns is not the document. *)
Notation makes := (yields (fun n => n <> the_document)).

Lemma keeps_bind_new g {B} (m : parser nat) (k : nat -> parser B) :
  makes m -> keeps g m -> (forall n, n <> the_document -> keeps g (k n)) -> keeps g (m ≫= k).
Proof. intros Hn Hm Hk exact C L p p' b Hi H. step H as n. eapply Hk; [by eapply Hn| |exact H]. by eapply Hm. Qed.

Lemma yields_ret {A} (P : A -> Prop) a : P a -> yields P (mret a).
Proof. intros H exact g C L p p' b _ [_ ->]%ret_inv. done. Qed.
Lemma yields_undef {A} (P : A -> Prop) : yields P (lift Undef).
Proof. by intros exact g C L p p' b _ [_ ?]%lift_inv. Qed.
Lemma yields_bind {A B} (P : B -> Prop) (m : parser A) (k : A -> parser B) :
  (forall g, keeps g m) -> (forall a, yields P (k a)) -> yields P (m ≫= k).
Proof. intros Hm Hk exact g C L p p' n Hi H. step H as a. eapply (Hk a exact g C L); [|exact H]. by eapply Hm. Qed.
Lemma yields_bind_new {B} (P : B -> Prop) (m : parser nat) (k : nat -> parser B) :
  makes m -> (forall g, keeps g m) -> (forall n, n <> the_document -> yields P (k n)) -> yields P (m ≫= k).
Proof.
  intros Hn Hm Hk exact g C L p p' b Hi H. step H as n. eapply (Hk n); [by eapply Hn| |exact H]. by eapply Hm.
Qed.

(** A change of a node that leaves its links and its type alone. *)
Lemma rebuilt_node exact p n node node' :
  tree_ok exact (heap p) -> heap p !! n = Some (Some node) -> node_children node' = node_children node ->
  parent node' = parent node -> index_within_parent node' = index_within_parent node ->
  (forall m, shape (<[n := Some node']> (heap p)) m = shape (heap p) m) ->
  rebuilt exact p (set_heap (<[n := Some node']> (heap p)) p).
Proof.
  intros Ht Hn Hc Hp Hi Hs. assert (Hlt : (n < length (heap p))%nat) by (by apply lookup_lt_Some in Hn).
  assert (Hl : forall m, link (<[n := Some node']> (heap p)) m = link (heap p) m).
  { intros m. rewrite link_insert by done. case_decide as E; [subst m|done]. unfold link. by rewrite Hn, Hp, Hi. }
  eexists. split; [done|]. split; [by rewrite length_insert|]. split.
  - apply (tree_ok_ext exact (heap p)); [|done|done]. intros m. rewrite kids_insert by done.
    case_decide as E; [subst m|done]. unfold kids. by rewrite Hn, Hc.
  - unfold steady, above. split_and!; [done|by rewrite Hl|]. intros m. by rewrite Hl.
Qed.

Lemma keeps_modify_node g n f :
  (forall node, node_children (f node) = node_children node) -> (forall node, parent (f node) = parent node) ->
  (forall node, index_within_parent (f node) = index_within_parent node) ->
  (forall node, n_type (f node) = n_type node) -> (forall node, kind (n_v (f node)) = kind (n_v node)) ->
  keeps g (modify_node n f).
Proof.
  intros Hc Hp Hi Ht Hk. apply keeps_rebuilt. intros exact p p' u H Htree _.
  pose proof (shaped_modify_node n f Ht Hk p p' u H) as Hs. apply modify_node_inv in H as (node & Hn & ->).
  by eapply rebuilt_node.
Qed.

Lemma keeps_modify_element g n f : (forall e, el_children (f e) = el_children e) -> keeps g (modify_element n f).
Proof.
  intros Hf. apply keeps_rebuilt. intros exact p p' u H Ht _. pose proof (shaped_modify_element n f p p' u H) as Hs.
  apply modify_element_inv in H as (node & e & Hn & Hv & ->). eapply rebuilt_node; try done.
  unfold node_children. by rewrite Hv, <- Hf.
Qed.

Lemma keeps_modify_document g n f : (forall d, doc_children (f d) = doc_children d) -> keeps g (modify_document n f).
Proof.
  intros Hf. apply keeps_rebuilt. intros exact p p' u H Ht _. pose proof (shaped_modify_document n f p p' u H) as Hs.
  apply modify_document_inv in H as (node & d & Hn & Hv & ->). eapply rebuilt_node; try done.
  unfold node_children. by rewrite Hv, <- Hf.
Qed.

Lemma shape_alloc h node n ty k :
  shape (h ++ [Some node]) n = Some (ty, k) -> shape h n = Some (ty, k) \/ ty = n_type node /\ k = kind (n_v node).
Proof.
  unfold shape. destruct (decide (n < length h)%nat); [rewrite lookup_app_l by done; by left|].
  rewrite lookup_app_r by lia. destruct (n - length h)%nat as [|i]; cbn; [intros [= <- <-]; by right|by destruct i].
Qed.

Lemma link_app h h' n : (n < length h)%nat -> link (h ++ h') n = link h n.
Proof. intros H. unfold link. by rewrite lookup_app_l. Qed.

Lemma doc_ok_app h h' : doc_ok h -> doc_ok (h ++ h').
Proof.
  intros Hd. pose proof (doc_ok_length _ Hd). destruct Hd as [H1 H2]. unfold doc_ok, above. rewrite link_app by done.
  split; [|done]. unfold shape in *. by rewrite lookup_app_l.
Qed.

Lemma keeps_allocate g node :
  parent node = None -> index_within_parent node = -1 -> node_children node = [] ->
  (is_element_type (n_type node) = true -> kind (n_v node) = KElement) -> keeps g (allocate node).
Proof.
  intros H1 H2 H3 H4 exact C L p p' a Hi H. unfold allocate in H. injection H as <- <-. apply inv_heap; [done|..].
  - rewrite length_app. cbn. pose proof (inv_len _ _ _ _ _ Hi). lia.
  - by apply tree_alloc; [apply Hi|..].
  - apply doc_ok_app, Hi.
  - intros n ty k [Hs|[-> ->]]%shape_alloc; [by eapply (inv_typed _ _ _ _ _ Hi)|done].
  - intros n Hn. pose proof (above_alive _ _ _ Hn). unfold above. by rewrite link_app.
Qed.

Lemma makes_allocate node : makes (allocate node).
Proof.
  intros exact g C L p p' n Hi H. unfold allocate in H. injection H as _ <-.
  pose proof (doc_ok_length _ (inv_doc _ _ _ _ _ Hi)). lia.
Qed.

Lemma inv_tokenizer exact g C L p t :
  inv exact g C L p -> (calm g = true -> no_frameset (_output t)) -> inv exact g C L (set_tokenizer_state t p).
Proof. by intros [H1 H2 H3 H4 H5 H6 H7 H8] Ht. Qed.

Lemma keeps_on_tokenizer g {A} (m : lexer A) :
  (forall t t' a, m t = Ok (t', a) -> no_frameset (_output t) -> no_frameset (_output t')) -> keeps g (on_tokenizer m).
Proof.
  intros Hm exact C L p p' a Hi H. unfold on_tokenizer in H.
  destruct (m (tokenizer_state p)) as [[t b]| |] eqn:E; cbn in H; [|done..]. injection H as <- <-.
  apply inv_tokenizer; [done|]. intros Hcalm. by eapply Hm, Hi.
Qed.

Lemma keeps_set_state g s : keeps g (on_tokenizer (gumbo_tokenizer_set_state s)).
Proof. apply keeps_on_tokenizer. intros t t' a H. injection H as <- _. done. Qed.

Lemma keeps_on_input g f : keeps g (on_tokenizer (on_input (fun it => Ok (f it)))).
Proof. apply keeps_on_tokenizer. intros t t' a H. injection H as <- _. done. Qed.

(** A value that is no frameset start tag. *)
Definition no_frameset_value (v : token_value) : Prop :=
  match v with VStartTag t => stag t <> GUMBO_TAG_FRAMESET | _ => True end.

Lemma keeps_set_token_value g v : no_frameset_value v -> keeps g (set_token_value v).
Proof.
  intros Hv. apply keeps_on_tokenizer. intros t t' a H. injection H as <- _. intros _. unfold no_frameset, tag_is. cbn.
  destruct (ttype (_output t)); [done| |done..]. destruct v as [d|s|x|x|x]; try done. by apply bool_decide_eq_false_2.
Qed.

Lemma keeps_set_token_attributes g attrs : keeps g (set_token_attributes attrs).
Proof.
  intros exact C L p p' a Hi H. unfold set_token_attributes in H. step H as token. apply get_inv in E as [-> ->].
  step H as t. apply lift_inv in E as [-> Ht]. unfold set_token_value, on_tokenizer in H.
  unfold Lexer.modify in H. cbn in H. injection H as <- <-. apply inv_tokenizer; [done|].
  intros Hcalm%(inv_calm _ _ _ _ _ Hi). unfold no_frameset, tag_is in *. cbn.
  destruct (ttype (_output (tokenizer_state p))); try done.
  unfold v_start_tag in Ht. destruct (tv (_output (tokenizer_state p))); try done. by injection Ht as ->.
Qed.

(** ** The insertion modes *)
Lemma inv_set_mode exact g C L p mode :
  inv exact g C L p ->
  (rooted g = true -> settled (saved g) p -> late mode = true /\ (textual mode = true -> late (_original_insertion_mode p) = true)) ->
  inv exact g C L (set_insertion_mode_ mode p).
Proof.
  intros [H1 H2 H3 H4 H5 H6 H7 H8] Hm. split; try done. intros Hr. pose proof (H8 Hr) as Hs. destruct (Hm Hr Hs) as [Hl Ht].
  destruct Hs as (Ha & _ & Hc & _ & He). by split_and!.
Qed.

Lemma set_insertion_mode_keeps g mode : plain_mode mode = true -> keeps g (set_insertion_mode mode).
Proof.
  intros [Hl Ht%negb_true_iff]%andb_true_iff exact C L p p' u Hi ->%modify_inv. apply inv_set_mode; [done|].
  intros _ _. rewrite Ht. done.
Qed.

(** The mode is saved for a while. *)
Lemma save_mode_keeps g {B} (k : GumboInsertionMode -> parser B) :
  (forall exact C L p p' b mode, inv exact g C L p -> (rooted g = true -> late (_original_insertion_mode p) = true) ->
     k mode p = Ok (p', b) -> inv exact g C L p') ->
  keeps g (mode ← get _insertion_mode; modify (set_original_insertion_mode mode);; k mode).
Proof.
  intros Hk exact C L p p' b Hi H. step H as mode. apply get_inv in E as [-> ->]. step H. apply modify_inv in E as ->.
  destruct Hi as [H1 H2 H3 H4 H5 H6 H7 H8]. eapply Hk; [| |exact H].
  - split; try done. intros (Ha & Hb & Hc & _ & _)%H8. by split_and!.
  - intros Hr. by destruct (H8 Hr) as (_ & ? & _).
Qed.

Create HintDb makes.
Create HintDb keeps.
#[export] Hint Resolve keeps_ret keeps_set_state keeps_on_input keeps_set_token_attributes : keeps.

(** Follow the structure of a program; what is left is about its parts. *)
Ltac keep_step :=
  match goal with
  | |- keeps _ (get_token ≫= _) => apply keeps_token; intros ? ?
  | |- keeps _ (?m ≫= _) => apply keeps_bind_new; [by auto with makes| |intros ? ?]
  | |- keeps _ (_ ≫= _) => apply keeps_bind; [|intros ?]
  | |- keeps _ (when _ _) => apply keeps_when
  | |- keeps _ (modify _) => apply keeps_modify; done
  | |- keeps _ (let _ := _ in _) => cbv zeta
  | |- keeps _ (let '(_, _) := ?x in _) => destruct x
  | |- keeps _ (match ?x with _ => _ end) => destruct x eqn:?
  | |- keeps _ _ => solve [auto with keeps | apply keeps_reads; auto with reads]
  end.
Ltac keep := repeat keep_step; try done.

(** * The operations keep it *)
Lemma append_node_keeps g par node : node <> the_document -> keeps g (append_node par node).
Proof. intros Hn. apply keeps_rebuilt. intros exact p p' u H Ht _. by eapply append_node_tree. Qed.
Lemma insert_node_keeps g node location : node <> the_document -> keeps g (insert_node node location).
Proof. intros Hn. apply keeps_rebuilt. intros exact p p' u H Ht _. by eapply insert_node_tree. Qed.
Lemma remove_from_parent_keeps g node : keeps g (remove_from_parent node).
Proof. apply keeps_rebuilt. intros exact. apply remove_from_parent_tree. Qed.
#[export] Hint Resolve append_node_keeps insert_node_keeps remove_from_parent_keeps : keeps.

Lemma set_frameset_not_ok_keeps g : keeps g set_frameset_not_ok.
Proof. unfold set_frameset_not_ok. keep. Qed.
Lemma acknowledge_self_closing_tag_keeps g : keeps g acknowledge_self_closing_tag.
Proof. unfold acknowledge_self_closing_tag. keep. Qed.
Lemma inv_set_templates exact g C L p modes :
  inv exact g C L p ->
  (Forall (fun mode => plain_mode mode = true) (_template_insertion_modes p) -> Forall (fun mode => plain_mode mode = true) modes) ->
  inv exact g C L (set_template_insertion_modes modes p).
Proof.
  intros [H1 H2 H3 H4 H5 H6 H7 H8] Hm. split; try done. intros (Ha & Hb & Hc & Hd)%H8. split_and!; try apply Hd; try done.
  by apply Hm.
Qed.
Lemma push_template_insertion_mode_keeps g mode : plain_mode mode = true -> keeps g (push_template_insertion_mode mode).
Proof.
  intros Hp exact C L p p' u Hi ->%modify_inv. apply inv_set_templates; [done|]. intros Hm.
  apply Forall_app. split; [done|]. by apply Forall_singleton.
Qed.
Lemma pop_template_insertion_mode_keeps g : keeps g pop_template_insertion_mode.
Proof. intros exact C L p p' u Hi ->%modify_inv. apply inv_set_templates; [done|]. apply Forall_take. Qed.
Lemma clear_active_formatting_elements_keeps g : keeps g clear_active_formatting_elements.
Proof. unfold clear_active_formatting_elements. keep. Qed.
Lemma add_flags_keeps g n f : keeps g (add_flags n f).
Proof. by apply keeps_modify_node. Qed.
Lemma record_end_of_element_keeps g token n : keeps g (record_end_of_element token n).
Proof. by apply keeps_modify_element. Qed.
#[export] Hint Extern 1 (keeps _ (set_insertion_mode _)) => (apply set_insertion_mode_keeps; by repeat case_match) : keeps.
#[export] Hint Extern 1 (keeps _ (push_template_insertion_mode _)) => (by apply push_template_insertion_mode_keeps) : keeps.
#[export] Hint Resolve set_frameset_not_ok_keeps
  acknowledge_self_closing_tag_keeps pop_template_insertion_mode_keeps
  clear_active_formatting_elements_keeps add_flags_keeps record_end_of_element_keeps : keeps.

(** The mode of the stack: none yet, or one of a document with a root. *)
Definition proper_mode (mode : GumboInsertionMode) : Prop := mode = GUMBO_INSERTION_MODE_INITIAL \/ plain_mode mode = true.
Definition picks (m : parser GumboInsertionMode) : Prop :=
  forall p p' mode, Forall (fun mode => plain_mode mode = true) (_template_insertion_modes p) -> m p = Ok (p', mode) ->
    proper_mode mode.
Lemma picks_ret mode : proper_mode mode -> picks (mret mode).
Proof. intros H p p' a _ [_ ->]%ret_inv. done. Qed.
Lemma picks_bind {A} (m : parser A) k : reads m -> (forall a, picks (k a)) -> picks (m ≫= k).
Proof. intros Hm Hk p p' mode Hp H. step H as a. apply Hm in E as ->. by eapply Hk. Qed.
Ltac pick_mode :=
  repeat match goal with
  | |- picks (_ ≫= _) => apply picks_bind; [solve [auto with reads]|intros ?]
  | |- picks (let _ := _ in _) => cbv zeta
  | |- picks (match ?x with _ => _ end) => destruct x
  | |- picks (mret _) => apply picks_ret; repeat case_match; solve [by left | by right]
  end; try done.

Lemma select_mode_picks l i : picks (select_mode l i).
Proof. induction i; cbn [select_mode]; pick_mode. Qed.
Lemma template_mode_picks : picks get_current_template_insertion_mode.
Proof.
  intros p p' mode Hp [_ ->]%get_inv. destruct (last _) as [m|] eqn:E; [right|by left].
  rewrite last_lookup in E. exact (Forall_lookup_1 _ _ _ _ Hp E).
Qed.
Lemma get_appropriate_insertion_mode_picks i : picks (get_appropriate_insertion_mode i).
Proof.
  pose proof select_mode_picks. pose proof template_mode_picks. unfold get_appropriate_insertion_mode. pick_mode.
Qed.

Lemma reset_insertion_mode_loop_keeps g i : keeps g (reset_insertion_mode_loop i).
Proof.
  induction i as [|i IH]; cbn [reset_insertion_mode_loop]; [keep|]. intros exact C L p p' u Hi H. step H as mode.
  pose proof (get_appropriate_insertion_mode_picks i p p0 mode) as Hpick.
  apply get_appropriate_insertion_mode_reads in E as Hp0. subst p0. case_bool_decide as Em; [by eapply IH|].
  apply modify_inv in H as ->. apply inv_set_mode; [done|]. intros _ (_ & _ & Ht & _).
  destruct (Hpick Ht E) as [|Hm]; [done|]. apply andb_true_iff in Hm as [Hl Hx%negb_true_iff]. by rewrite Hx.
Qed.
#[export] Hint Resolve reset_insertion_mode_loop_keeps : keeps.
Lemma reset_insertion_mode_appropriately_keeps g : keeps g reset_insertion_mode_appropriately.
Proof. unfold reset_insertion_mode_appropriately. keep. Qed.
Lemma add_parse_error_keeps g type token : keeps g (add_parse_error type token).
Proof. unfold add_parse_error. keep. Qed.
Lemma parser_add_parse_error_keeps g token : keeps g (parser_add_parse_error token).
Proof. apply add_parse_error_keeps. Qed.
Lemma create_node_keeps g type v :
  match v with VElement e => el_children e = [] | VDocument d => doc_children d = [] | _ => True end ->
  (is_element_type type = true -> kind v = KElement) -> keeps g (create_node type v).
Proof. intros H Ht. apply keeps_allocate; [done|done| |done]. unfold node_children. cbn. by destruct v. Qed.
Lemma create_node_makes type v : makes (create_node type v).
Proof. apply makes_allocate. Qed.
#[export] Hint Resolve create_node_makes : makes.
#[export] Hint Resolve reset_insertion_mode_appropriately_keeps add_parse_error_keeps
  parser_add_parse_error_keeps : keeps.
#[export] Hint Extern 1 (keeps _ (create_node _ _)) => (by apply create_node_keeps) : keeps.

(** ** The text buffer *)
Lemma deallocate_inv n p p' u :
  deallocate n p = Ok (p', u) -> (exists node, heap p !! n = Some (Some node)) /\ p' = set_heap (<[n := None]> (heap p)) p.
Proof.
  intros H. unfold deallocate in H. step H. apply deref_inv in E as (-> & x & [= <-] & Hn). apply modify_inv in H as ->. eauto.
Qed.

(** The nodes of [F] have been freed: those of [roots] and those below them. *)
Definition freed (roots : list nat) (F : gset nat) (h h' : list (option GumboNode)) : Prop :=
  length h' = length h /\
  (forall m, h' !! m = if decide (m ∈ F) then (fun _ => None) <$> h !! m else h !! m) /\
  (forall r, r ∈ roots -> r ∈ F) /\
  (forall m c, m ∈ F -> c ∈ kids h m -> c ∈ F) /\
  (forall c, c ∈ F -> c ∈ roots \/ exists m, m ∈ F /\ c ∈ kids h m).

Lemma freed_kids roots F h h' m : freed roots F h h' -> kids h' m = if decide (m ∈ F) then [] else kids h m.
Proof. intros (_ & Hh & _). unfold kids. rewrite Hh. case_decide; [|done]. by destruct (h !! m). Qed.

Lemma freed_nil h : freed [] ∅ h h.
Proof. split_and!; set_solver. Qed.

Lemma freed_app r1 r2 F1 F2 h h1 h2 : freed r1 F1 h h1 -> freed r2 F2 h1 h2 -> freed (r1 ++ r2) (F1 ∪ F2) h h2.
Proof.
  intros H1 H2. pose proof (fun m => freed_kids _ _ _ _ m H1) as Hk. destruct H1 as (L1 & A1 & B1 & C1 & D1).
  destruct H2 as (L2 & A2 & B2 & C2 & D2). split_and!.
  - congruence.
  - intros m. rewrite A2, A1. destruct (decide (m ∈ F2)), (decide (m ∈ F1)), (decide (m ∈ F1 ∪ F2)) as [Hu|Hu];
      rewrite elem_of_union in Hu; try tauto; by destruct (h !! m).
  - intros r [Hr%B1|Hr%B2]%elem_of_app; apply elem_of_union; tauto.
  - intros m c [Hm|Hm]%elem_of_union Hc; [apply elem_of_union_l; by eapply C1|].
    destruct (decide (m ∈ F1)) as [H1|H1]; [apply elem_of_union_l; by eapply C1|].
    apply elem_of_union_r, (C2 m); [done|]. by rewrite Hk, decide_False.
  - intros c [Hc|Hc]%elem_of_union; rewrite elem_of_app.
    + destruct (D1 c Hc) as [|(m & Hm & Hcm)]; [tauto|]. right. exists m. rewrite elem_of_union. tauto.
    + destruct (D2 c Hc) as [|(m & Hm & Hcm)]; [tauto|]. right. exists m. rewrite elem_of_union. split; [tauto|].
      rewrite Hk in Hcm. case_decide; [by apply elem_of_nil in Hcm|done].
Qed.

Lemma freed_node n F h h' node :
  h !! n = Some (Some node) -> freed (kids h n) F h h' -> freed [n] (F ∪ {[n]}) h (<[n := None]> h').
Proof.
  intros Hn (L & A & B & C & D). assert (Hl : (n < length h')%nat) by (rewrite L; by apply lookup_lt_Some in Hn). split_and!.
  - by rewrite length_insert.
  - intros m. destruct (decide (m = n)) as [->|Hne].
    + rewrite list_lookup_insert_eq, decide_True by (done || apply elem_of_union; set_solver). by rewrite Hn.
    + rewrite list_lookup_insert_ne, A by done. destruct (decide (m ∈ F)), (decide (m ∈ F ∪ {[n]})) as [Hu|Hu];
        rewrite elem_of_union, elem_of_singleton in Hu; tauto.
  - intros r ->%list_elem_of_singleton. apply elem_of_union_r, elem_of_singleton. done.
  - intros m c [Hm| ->%elem_of_singleton]%elem_of_union Hc; apply elem_of_union_l; [by eapply C|by apply B].
  - intros c [Hc| ->%elem_of_singleton]%elem_of_union; [right|left; by apply list_elem_of_singleton].
    destruct (D c Hc) as [|(m & ? & ?)]; [exists n|exists m]; rewrite elem_of_union, elem_of_singleton; tauto.
Qed.

Definition frees (m : nat -> parser unit) : Prop :=
  forall n p p' u, m n p = Ok (p', u) -> exists F h, p' = set_heap h p /\ freed [n] F (heap p) h.

Lemma for_each_frees f l p p' u :
  frees f -> for_each f l p = Ok (p', u) -> exists F h, p' = set_heap h p /\ freed l F (heap p) h.
Proof.
  intros Hf. revert p; induction l as [|n l IH]; intros p H; cbn [for_each] in H.
  { apply ret_inv in H as [-> _]. exists ∅, (heap p). split; [by destruct p|]. apply freed_nil. }
  step H. apply Hf in E as (F1 & h1 & -> & H1). apply IH in H as (F2 & h2 & -> & H2).
  exists (F1 ∪ F2), h2. split; [done|]. by apply (freed_app [n] l _ _ _ h1).
Qed.

Lemma destroy_node_frees fuel : frees (destroy_node fuel).
Proof.
  induction fuel as [|fuel IH]; intros n p p' u H; cbn [destroy_node] in H; [by apply lift_inv in H as [_ ?]|].
  step H as node. apply deref_inv in E as (-> & x & [= <-] & Hn). step H. eapply for_each_frees in E as (F & h & -> & Hh); [|done].
  apply deallocate_inv in H as [_ ->]. cbn. exists (F ∪ {[n]}), (<[n := None]> h). split; [done|].
  eapply freed_node; [done|]. unfold kids. by rewrite Hn.
Qed.

Lemma destroy_frees : frees destroy.
Proof.
  intros n p p' u H. unfold destroy in H. step H. apply reads_get in E as ->. by eapply destroy_node_frees.
Qed.

(** A node without parent that is not the document is destroyed. *)
Lemma destroy_orphan_inv exact g C0 L0 n p p' u i :
  link (heap p) n = Some (None, i) -> n <> the_document -> inv exact g C0 L0 p -> destroy n p = Ok (p', u) ->
  inv exact g C0 L0 p'.
Proof.
  intros Hn Hne Hi (F & h & -> & L & A & B & C & D)%destroy_frees. pose proof (inv_tree _ _ _ _ _ Hi) as Ht.
  assert (Hup : forall m, m ∈ F -> m = n \/ exists q, q ∈ F /\ above (heap p) m = Some (Some q)).
  { intros m [Hm|(q & Hq & Hm)]%D; [left; by apply list_elem_of_singleton in Hm|right].
    destruct (tree_in Ht Hm) as [j Hj]. exists q. unfold above. by rewrite Hj. }
  assert (Hdoc : the_document ∉ F).
  { intros [?|(q & _ & Hq)]%Hup; [done|]. destruct (inv_doc _ _ _ _ _ Hi) as [_ Hd]. congruence. }
  assert (Hkeep : forall m, m ∉ F -> h !! m = heap p !! m) by (intros m Hm; rewrite A; by case_decide).
  apply inv_heap; [done|rewrite L; apply Hi|..].
  - eapply (tree_free exact (heap p) h n F); [done|apply B, list_elem_of_singleton; done|done|
      | |exact (@tree_child _ _ Ht)|exact (@tree_nodup _ _ Ht)| |exact (@tree_orphan _ _ Ht)].
    + intros c [Hc|]%D; [left; by apply list_elem_of_singleton in Hc|by right].
    + intros m [j Hj]%(tree_in Ht). congruence.
    + intros c m j Hj _. by eapply tree_parent.
  - destruct (inv_doc _ _ _ _ _ Hi) as [H1 H2]. unfold doc_ok, above, link, shape in *. by rewrite Hkeep.
  - intros m ty k Hs. destruct (decide (m ∈ F)) as [Hm|Hm].
    + unfold shape in Hs. rewrite A, decide_True in Hs by done. by destruct (heap p !! m).
    + unfold shape in Hs. rewrite Hkeep in Hs by done. exact (inv_typed _ _ _ _ _ Hi m ty k Hs).
  - intros m Hm. unfold above, link. rewrite Hkeep; [done|]. intros [->|(q & Hq & Hqm)]%Hup.
    + unfold above in Hm. by rewrite Hn in Hm.
    + congruence.
Qed.

Lemma maybe_flush_text_node_buffer_keeps g : keeps g maybe_flush_text_node_buffer.
Proof.
  intros exact C L p p' u Hi H. unfold maybe_flush_text_node_buffer in H. step H as b. apply get_inv in E as [-> ->].
  destruct (tn_buffer (_text_node p)) as [|c l]; [by apply ret_inv in H as [-> _]|].
  step H. apply assert_inv in E as [-> Hty]. step H as token. apply current_token_reads in E as ->.
  step H as n. assert (Hn : n <> the_document) by (eapply create_node_makes; [exact Hi|exact E]).
  assert (Hi2 : inv exact g C L p0).
  { eapply create_node_keeps; [..|exact E]; [done| |done]. by destruct (tn_type (_text_node p)). }
  unfold create_node, allocate in E. injection E as <- <-.
  step H as loc. apply get_appropriate_insertion_location_reads in E as ->.
  step H as t. apply reads_deref in E as ->. step H. eapply (keeps_modify g); [..|exact H]; [done|].
  destruct (bool_decide (n_type t = GUMBO_NODE_DOCUMENT)); [|exact (insert_node_keeps g _ loc Hn exact C L _ _ _ Hi2 E)].
  eapply destroy_orphan_inv; [|exact Hn|exact Hi2|exact E].
  cbn. unfold link. by rewrite lookup_app_r, Nat.sub_diag by lia.
Qed.
#[export] Hint Resolve maybe_flush_text_node_buffer_keeps : keeps.

Lemma pop_current_node_keeps g : keeps g pop_current_node.
Proof. unfold pop_current_node. keep. Qed.
#[export] Hint Resolve pop_current_node_keeps : keeps.
Lemma pop_while_fuel_keeps g n cond : keeps g cond -> keeps g (pop_while_fuel n cond).
Proof. intros H. induction n; cbn [pop_while_fuel]; keep. Qed.
Lemma pop_until_fuel_keeps g n stop : (forall n, keeps g (stop n)) -> keeps g (pop_until_fuel n stop).
Proof. intros H. induction n; cbn [pop_until_fuel]; keep. Qed.
Lemma pop_while_keeps g cond : keeps g cond -> keeps g (pop_while cond).
Proof. intros H. pose proof pop_while_fuel_keeps. unfold pop_while. keep. Qed.
Lemma pop_until_keeps g stop : (forall n, keeps g (stop n)) -> keeps g (pop_until stop).
Proof. intros H. pose proof pop_until_fuel_keeps. unfold pop_until. keep. Qed.
#[export] Hint Extern 1 (keeps _ (pop_while _)) => (apply pop_while_keeps; keep) : keeps.
#[export] Hint Extern 1 (keeps _ (pop_until _)) => (apply pop_until_keeps; intros ?; keep) : keeps.
#[export] Hint Extern 2 (keeps _ _) => (progress unfold clear_stack_to_table_row_context,
  clear_stack_to_table_context, clear_stack_to_table_body_context, generate_implied_end_tags,
  generate_all_implied_end_tags_thoroughly, pop_until_tag) : keeps.

Lemma append_comment_node_keeps g n token : keeps g (append_comment_node n token).
Proof. unfold append_comment_node. keep. Qed.
Lemma create_element_keeps g tag : keeps g (create_element tag).
Proof. unfold create_element. keep. Qed.
Lemma create_element_from_token_keeps g token ns : keeps g (create_element_from_token token ns).
Proof. unfold create_element_from_token. keep. Qed.
Lemma create_element_makes tag : makes (create_element tag).
Proof. unfold create_element. repeat (apply yields_bind; [intros g; keep|intros ?]). apply create_node_makes. Qed.
Lemma create_element_from_token_makes token ns : makes (create_element_from_token token ns).
Proof.
  unfold create_element_from_token. do 2 (apply yields_bind; [intros g; keep|intros ?]). cbv zeta.
  apply yields_bind; [intros g; keep|intros src]. intros exact g C L p p' n Hi H. step H as x.
  do 6 step H. apply ret_inv in H as [_ ->]. by eapply create_node_makes.
Qed.
#[export] Hint Resolve create_element_makes create_element_from_token_makes : makes.
Lemma insert_element_keeps g n b : n <> the_document -> keeps g (insert_element n b).
Proof. intros. unfold insert_element. keep. Qed.
#[export] Hint Resolve append_comment_node_keeps create_element_keeps create_element_from_token_keeps
  insert_element_keeps : keeps.
Lemma insert_element_from_token_keeps g token : keeps g (insert_element_from_token token).
Proof. unfold insert_element_from_token. keep. Qed.
Lemma insert_element_of_tag_type_keeps g tag reason : keeps g (insert_element_of_tag_type tag reason).
Proof. unfold insert_element_of_tag_type. keep. Qed.
Lemma check_xmlns_keeps g a b : keeps g (check_xmlns a b).
Proof. unfold check_xmlns. keep. Qed.
#[export] Hint Resolve insert_element_from_token_keeps insert_element_of_tag_type_keeps check_xmlns_keeps : keeps.
Lemma insert_foreign_element_keeps g token ns : keeps g (insert_foreign_element token ns).
Proof. unfold insert_foreign_element. keep. Qed.
Lemma insert_text_token_keeps g token : keeps g (insert_text_token token).
Proof. unfold insert_text_token. keep. Qed.
Lemma run_generic_parsing_algorithm_keeps g token s : keeps g (run_generic_parsing_algorithm token s).
Proof.
  unfold run_generic_parsing_algorithm. do 2 (apply keeps_bind; [keep|intros ?]). apply save_mode_keeps.
  intros exact C L p p' u mode Hi Ho ->%modify_inv. apply inv_set_mode; [done|]. intros Hr _. by rewrite Ho.
Qed.
Lemma add_formatting_element_keeps g n : keeps g (add_formatting_element n).
Proof. unfold add_formatting_element. keep. Qed.
Lemma clone_node_keeps g n reason : keeps g (clone_node n reason).
Proof. unfold clone_node. keep. by apply keeps_allocate. Qed.
Lemma clone_node_makes n reason : makes (clone_node n reason).
Proof. unfold clone_node. repeat (apply yields_bind; [intros g; keep|intros ?]). apply makes_allocate. Qed.
#[export] Hint Resolve clone_node_makes : makes.
#[export] Hint Resolve insert_foreign_element_keeps insert_text_token_keeps run_generic_parsing_algorithm_keeps
  add_formatting_element_keeps clone_node_keeps : keeps.
Lemma reconstruct_loop_keeps g n i : keeps g (reconstruct_loop n i).
Proof. revert i; induction n; intros; cbn [reconstruct_loop]; keep. Qed.
#[export] Hint Resolve reconstruct_loop_keeps : keeps.
Lemma reconstruct_active_formatting_elements_keeps g : keeps g reconstruct_active_formatting_elements.
Proof. unfold reconstruct_active_formatting_elements. keep. Qed.
#[export] Hint Resolve reconstruct_active_formatting_elements_keeps : keeps.
#[export] Hint Extern 1 (keeps _ (modify_element _ _)) => (by apply keeps_modify_element) : keeps.
#[export] Hint Extern 1 (keeps _ (modify_document _ _)) => (by apply keeps_modify_document) : keeps.

(** ** Closing elements *)
Lemma close_table_keeps g : keeps g close_table.
Proof. unfold close_table. keep. Qed.
Lemma close_table_cell_keeps g token tag : keeps g (close_table_cell token tag).
Proof. unfold close_table_cell. keep. Qed.
#[export] Hint Resolve close_table_keeps close_table_cell_keeps : keeps.
Lemma close_current_cell_keeps g token : keeps g (close_current_cell token).
Proof. unfold close_current_cell. keep. Qed.
Lemma close_current_select_keeps g : keeps g close_current_select.
Proof. unfold close_current_select. keep. Qed.
Lemma implicitly_close_tags_keeps g token ns tag : keeps g (implicitly_close_tags token ns tag).
Proof. unfold implicitly_close_tags. keep. Qed.
#[export] Hint Resolve close_current_cell_keeps close_current_select_keeps implicitly_close_tags_keeps : keeps.
Lemma maybe_implicitly_close_p_tag_keeps g token : keeps g (maybe_implicitly_close_p_tag token).
Proof. unfold maybe_implicitly_close_p_tag. keep. Qed.
Lemma close_list_loop_keeps g token b l : keeps g (close_list_loop token b l).
Proof. induction l; cbn [close_list_loop]; keep. Qed.
#[export] Hint Resolve maybe_implicitly_close_p_tag_keeps close_list_loop_keeps : keeps.
Lemma maybe_implicitly_close_list_tag_keeps g token b : keeps g (maybe_implicitly_close_list_tag token b).
Proof. unfold maybe_implicitly_close_list_tag. keep. Qed.
Lemma merge_attributes_keeps g token n : keeps g (merge_attributes token n).
Proof. unfold merge_attributes. keep. Qed.
Lemma adjust_attributes_keeps g entries : keeps g (adjust_attributes entries).
Proof. unfold adjust_attributes. keep. Qed.
Lemma maybe_add_doctype_error_keeps g token : keeps g (maybe_add_doctype_error token).
Proof. unfold maybe_add_doctype_error. keep. Qed.
Lemma ignore_token_keeps g : keeps g ignore_token.
Proof. unfold ignore_token. keep. Qed.
#[export] Hint Resolve maybe_implicitly_close_list_tag_keeps merge_attributes_keeps adjust_attributes_keeps
  maybe_add_doctype_error_keeps ignore_token_keeps : keeps.
#[export] Hint Extern 2 (keeps _ _) =>
  (progress unfold adjust_foreign_attributes, adjust_svg_attributes, adjust_mathml_attributes) : keeps.

(** ** The adoption agency *)
Lemma adoption_loop_keeps g fuel f b j n l s k : l <> the_document -> keeps g (adoption_loop fuel f b j n l s k).
Proof. revert j n l s k; induction fuel; intros; cbn [adoption_loop]; keep. Qed.

(** The same for what a program yields. *)
Ltac yield_step :=
  match goal with
  | |- yields _ (?m ≫= _) => apply yields_bind_new; [by auto with makes|intros ?; keep|intros ? ?]
  | |- yields _ (_ ≫= _) => apply yields_bind; [intros ?; keep|intros ?]
  | |- yields _ (let _ := _ in _) => cbv zeta
  | |- yields _ (match ?x with _ => _ end) => destruct x eqn:?
  | |- yields _ (lift Undef) => apply yields_undef
  | |- yields _ (mret _) => apply yields_ret; done
  end.

Lemma adoption_loop_yields fuel f b j n l s k :
  l <> the_document -> yields (fun r => r.1 <> the_document) (adoption_loop fuel f b j n l s k).
Proof. revert j n l s k; induction fuel; intros; cbn [adoption_loop]; repeat yield_step; auto. Qed.
#[export] Hint Resolve adoption_loop_keeps : keeps.

(** A clone is a new node without children. *)
Lemma clone_node_inv n reason p p' c :
  clone_node n reason p = Ok (p', c) -> c = length (heap p) /\ kids (heap p') c = [].
Proof.
  intros H. unfold clone_node in H. step H as node. apply reads_deref in E as ->. step H. apply assert_inv in E as [-> _].
  step H as e. apply lift_inv in E as [-> _]. unfold allocate in H. injection H as <- <-. split; [done|].
  unfold kids. cbn. by rewrite lookup_app_r, Nat.sub_diag by lia.
Qed.

Lemma add_flags_kids n f p p' u m : add_flags n f p = Ok (p', u) -> kids (heap p') m = kids (heap p) m.
Proof.
  intros (node & Hn & ->)%modify_node_inv. cbn. rewrite kids_insert by (by apply lookup_lt_Some in Hn).
  case_decide as E; [subst m|done]. unfold kids. by rewrite Hn.
Qed.

(** Close the goal with what the rest of the program keeps. *)
Ltac keep_rest H Hi :=
  match type of H with ?m ?p = Ok _ =>
    match type of Hi with inv _ ?g _ _ _ =>
      let Hk := fresh in assert (Hk : keeps g m) by keep; exact (Hk _ _ _ p _ _ Hi H)
    end
  end.

Lemma adopt_keeps g f b exact C L p p' u :
  inv exact g C L p -> (b < L)%nat -> b <> the_document -> adopt f b p = Ok (p', u) -> inv exact g C L p'.
Proof.
  intros Hi Hb Hbd H. unfold adopt in H. step H. apply reads_get in E as ->. step H. apply reads_get in E as ->.
  step H. apply reads_lift in E as ->. step H. apply assert_inv in E as [-> _].
  step H as ln. pose proof (adoption_loop_yields _ _ _ _ _ _ _ _ Hbd exact g C L _ _ _ Hi E) as Hln.
  pose proof (adoption_loop_keeps _ _ _ _ _ _ _ _ _ Hbd exact C L _ _ _ Hi E) as Hi1. destruct ln as [last_node k]. cbn in Hln.
  step H. pose proof (remove_from_parent_keeps _ _ exact C L _ _ _ Hi1 E0) as Hi2.
  step H. pose proof (add_flags_keeps _ _ _ exact C L _ _ _ Hi2 E1) as Hi3.
  step H. apply get_appropriate_insertion_location_reads in E2 as ->.
  step H. pose proof (insert_node_keeps _ _ _ Hln exact C L _ _ _ Hi3 E2) as Hi4.
  revert Hi4 H. clear -Hb. intros Hi H. step H as new. pose proof (clone_node_keeps _ _ _ exact C L _ _ _ Hi E) as Hi1.
  assert (Hnew : new <> the_document) by (eapply clone_node_makes; [exact Hi|exact E]).
  apply clone_node_inv in E as [-> Hk1]. step H. pose proof (add_flags_keeps _ _ _ exact C L _ _ _ Hi1 E) as Hi2.
  erewrite <- (add_flags_kids _ _ _ _ _ _ E) in Hk1. step H. pose proof (inv_len _ _ _ _ _ Hi) as HL.
  apply (swap_children_tree exact) in E0; [|apply Hi2|apply Hi2|lia|done].
  pose proof (inv_rebuilt _ _ _ _ _ _ Hi2 E0) as Hi3. clear E0.
  step H. pose proof (append_node_keeps _ _ _ Hnew exact C L _ _ _ Hi3 E0) as Hi4. keep_rest H Hi4.
Qed.

(** The furthest block is an element: its tag was read. *)
Lemma find_furthest_block_inv l j p p' b :
  find_furthest_block l j p = Ok (p', Some b) -> doc_ok (heap p) -> (b < length (heap p))%nat /\ b <> the_document.
Proof.
  intros H [Hd _]. revert j H; induction l as [|n l IH]; intros j H; cbn [find_furthest_block] in H; [by apply ret_inv in H as [_ ?]|].
  step H. apply assert_inv in E as [-> _].
  step H as special. pose proof (is_special_node_reads _ _ _ _ E) as ->. destruct special; [|by eapply IH].
  apply ret_inv in H as [-> [= ->]]. unfold is_special_node in E. step E as node.
  apply deref_inv in E0 as (-> & m & [= <-] & Hn). step E. apply assert_inv in E0 as [-> Hty].
  split; [by apply lookup_lt_Some in Hn|]. intros ->. unfold shape in Hd. rewrite Hn in Hd. injection Hd as Hd _. by rewrite Hd in Hty.
Qed.

Lemma inv_weaken exact g C L M p : inv exact g C M p -> (L <= M)%nat -> inv exact g C L p.
Proof. intros [H1 H2 H3 H4 H5 H6 H7 H8] H. split; try done. lia. Qed.

(** The steps with a furthest block. *)
Lemma furthest_keeps g (k : option nat -> parser bool) l j :
  (forall b exact C L p p' a, inv exact g C L p -> (b < L)%nat -> b <> the_document -> k (Some b) p = Ok (p', a) -> inv exact g C L p') ->
  keeps g (k None) -> keeps g (furthest ← find_furthest_block l j; k furthest).
Proof.
  intros Hk Hn exact C L p p' a Hi H. step H as furthest. pose proof (find_furthest_block_reads _ _ _ _ _ E) as ->.
  destruct furthest as [b|]; [|by eapply Hn]. apply find_furthest_block_inv in E as [Hlt Hne]; [|apply Hi].
  apply (inv_weaken exact g C L (length (heap p))); [|apply Hi]. eapply Hk; [|exact Hlt|exact Hne|exact H].
  destruct Hi as [H1 H2 H3 H4 H5 H6 H7 H8]. split; try done.
Qed.

Lemma adoption_outer_loop_keeps g n token subject : keeps g (adoption_outer_loop n token subject).
Proof.
  induction n as [|n IH]; cbn [adoption_outer_loop]; [keep|].
  apply keeps_bind; [keep|intros elements]. apply keeps_bind; [keep|intros [formatting|]]; [|keep].
  apply keeps_bind; [keep|intros open_elements]. destruct (gumbo_vector_index_of open_elements formatting) as [k|]; [|keep].
  do 2 (apply keeps_bind; [keep|intros ?]). match goal with |- keeps _ (if ?b then _ else _) => destruct b end; [keep|].
  do 6 (apply keeps_bind; [keep|intros ?]). apply furthest_keeps; [|keep].
  intros b exact C L p p' r Hi Hb Hbd H. step H as html. apply node_html_tag_is_reads in E as ->. step H. apply assert_inv in E as [-> _].
  step H. eapply adopt_keeps in E; [|done..]. by eapply IH.
Qed.
#[export] Hint Resolve adoption_outer_loop_keeps : keeps.
Lemma adoption_agency_algorithm_keeps g token subject : keeps g (adoption_agency_algorithm token subject).
Proof. unfold adoption_agency_algorithm. keep. Qed.
#[export] Hint Resolve adoption_agency_algorithm_keeps : keeps.

End Tree.
