(* ===== verification/GumboTreeModes.v ===== *)
(** The handlers of the tree builder (GumboModes.v) keep the invariant of the tree of
    GumboTree.v, for every token that is no frameset start tag; what the main loop makes
    of it: after the parse the root element is a child of the document. *)
From Stdlib Require Import Strings.String Strings.Ascii.
From stdpp Require Import relations gmap.
From S2P Require Import Prelude GumboTags GumboBase Utf8 CharRef GumboLexer GumboLexerRuns GumboParser GumboModes GumboTree.
Import Tags GumboBase Utf8 CharRef Lexer Parser Modes Tree.

Module TreeModes.

#[export] Hint Extern 1 (keeps _ (set_token_value _)) => (by apply keeps_set_token_value) : keeps.

(** * Pieces of the handlers *)
Lemma reprocess_keeps g : keeps g reprocess.
Proof. unfold reprocess. keep. Qed.
Lemma ignore_with_error_keeps g token : keeps g (ignore_with_error token).
Proof. unfold ignore_with_error. keep. Qed.
Lemma comment_in_current_node_keeps g token : keeps g (comment_in_current_node token).
Proof. unfold comment_in_current_node. keep. Qed.
Lemma insert_void_element_keeps g token : keeps g (insert_void_element token).
Proof. unfold insert_void_element. keep. Qed.
#[export] Hint Resolve reprocess_keeps ignore_with_error_keeps comment_in_current_node_keeps
  insert_void_element_keeps : keeps.
Lemma close_template_keeps g token : keeps g (close_template token).
Proof. unfold close_template. keep. Qed.
#[export] Hint Resolve close_template_keeps : keeps.

Lemma errors_for_open_keeps g token tags l : keeps g (errors_for_open token tags l).
Proof. induction l; cbn [errors_for_open]; keep. Qed.
Lemma error_for_open_keeps g token tags l : keeps g (error_for_open token tags l).
Proof. induction l; cbn [error_for_open]; keep. Qed.
#[export] Hint Resolve errors_for_open_keeps error_for_open_keeps : keeps.
Lemma body_eof_keeps h token : keeps calmly h -> keeps calmly (body_eof h token).
Proof. intros. unfold body_eof. keep. Qed.
Lemma body_end_keeps g token : keeps g (body_end token).
Proof. unfold body_end. keep. Qed.
Lemma insert_after_p_keeps g token : keeps g (insert_after_p token).
Proof. unfold insert_after_p. keep. Qed.
#[export] Hint Resolve body_eof_keeps body_end_keeps insert_after_p_keeps : keeps.

Lemma body_text_keeps h t o token : no_frameset token -> keeps calmly h -> keeps calmly t -> keeps calmly o -> keeps calmly (body_text h t o token).
Proof. intros Hf. intros. unfold body_text. rewrite Hf. keep. Qed.
Lemma body_blocks_keeps o token : keeps calmly o -> keeps calmly (body_blocks o token).
Proof. intros. unfold body_blocks. keep. Qed.
Lemma body_end_form_keeps g token : keeps g (body_end_form token).
Proof. unfold body_end_form. keep. Qed.
Lemma body_end_heading_keeps g token : keeps g (body_end_heading token).
Proof. unfold body_end_heading. keep. Qed.
#[export] Hint Resolve body_text_keeps body_blocks_keeps body_end_form_keeps body_end_heading_keeps : keeps.
Lemma body_end_blocks_keeps o token : keeps calmly o -> keeps calmly (body_end_blocks o token).
Proof. intros. unfold body_end_blocks. keep. Qed.
Lemma body_anchor_keeps g token : keeps g (body_anchor token).
Proof. unfold body_anchor. keep. Qed.
#[export] Hint Resolve body_end_blocks_keeps body_anchor_keeps : keeps.
Lemma body_formatting_keeps o token : keeps calmly o -> keeps calmly (body_formatting o token).
Proof. intros. unfold body_formatting. keep. Qed.
Lemma body_image_keeps g token : keeps g (body_image token).
Proof. unfold body_image. keep. Qed.
Lemma body_isindex_keeps g token : keeps g (body_isindex token).
Proof. unfold body_isindex. keep. Qed.
#[export] Hint Resolve body_formatting_keeps body_image_keeps body_isindex_keeps : keeps.
Lemma body_void_keeps o token : keeps calmly o -> keeps calmly (body_void o token).
Proof. intros. unfold body_void. keep. Qed.
Lemma body_raw_keeps o token : keeps calmly o -> keeps calmly (body_raw o token).
Proof. intros. unfold body_raw. keep. Qed.
Lemma close_if_self_closing_keeps g : keeps g close_if_self_closing.
Proof. unfold close_if_self_closing. keep. Qed.
Lemma body_any_end_tag_keeps g token tag l : keeps g (body_any_end_tag token tag l).
Proof. induction l; cbn [body_any_end_tag]; keep. Qed.
#[export] Hint Resolve body_void_keeps body_raw_keeps close_if_self_closing_keeps body_any_end_tag_keeps : keeps.
Lemma body_other_keeps g token : keeps g (body_other token).
Proof. unfold body_other. keep. Qed.
#[export] Hint Resolve body_other_keeps : keeps.
Lemma in_body_keeps h t : keeps calmly h -> keeps calmly t -> keeps calmly (in_body h t).
Proof. intros. unfold in_body. keep. auto 10 with keeps. Qed.
Lemma in_head_keeps b : keeps calmly b -> keeps calmly (in_head b).
Proof. intros. unfold in_head. keep. Qed.
Lemma switch_template_mode_keeps g mode : plain_mode mode = true -> keeps g (switch_template_mode mode).
Proof.
  intros Hm. pose proof (push_template_insertion_mode_keeps g mode Hm). pose proof (set_insertion_mode_keeps g mode Hm).
  unfold switch_template_mode. keep.
Qed.
#[export] Hint Extern 1 (keeps _ (switch_template_mode _)) => (by apply switch_template_mode_keeps) : keeps.
#[export] Hint Resolve in_body_keeps in_head_keeps : keeps.
Lemma in_template_keeps b h : keeps calmly b -> keeps calmly h -> keeps calmly (in_template b h).
Proof. intros. unfold in_template. keep. Qed.
#[export] Hint Resolve in_template_keeps : keeps.
Lemma handle_keeps depth h : keeps calmly (handle depth h).
Proof. revert h; induction depth; intros h; cbn [handle]; [|destruct h]; keep. Qed.
#[export] Hint Resolve handle_keeps : keeps.
Lemma handle_in_head_keeps : keeps calmly handle_in_head.
Proof. apply handle_keeps. Qed.
Lemma handle_in_body_keeps : keeps calmly handle_in_body.
Proof. apply handle_keeps. Qed.
Lemma handle_in_template_keeps : keeps calmly handle_in_template.
Proof. apply handle_keeps. Qed.
#[export] Hint Resolve handle_in_head_keeps handle_in_body_keeps handle_in_template_keeps : keeps.

(** * The other insertion modes *)

(** Before there is a root, any mode may be set. *)
Lemma set_early_mode_keeps g mode : rooted g = false -> keeps g (set_insertion_mode mode).
Proof. intros Hr exact C L p p' u Hi ->%modify_inv. apply inv_set_mode; [done|]. by rewrite Hr. Qed.
Lemma set_root_keeps g r : rooted g = false -> keeps g (modify (set_root r)).
Proof. intros Hr exact C L p p' u [H1 H2 H3 H4 H5 H6 H7 H8] ->%modify_inv. split; try done. by rewrite Hr. Qed.
Lemma handle_initial_keeps g : rooted g = false -> keeps g handle_initial.
Proof. intros Hr. pose proof (fun mode => set_early_mode_keeps g mode Hr). unfold handle_initial. keep. Qed.
Lemma handle_before_html_keeps g : rooted g = false -> keeps g handle_before_html.
Proof. intros Hr. pose proof (fun r => set_root_keeps g r Hr). unfold handle_before_html. keep. Qed.

(** Back to the saved mode. *)
Lemma restore_mode_keeps g {B} (k : parser B) :
  saved g = true -> keeps g k -> keeps g (mode ← get _original_insertion_mode; set_insertion_mode mode;; k).
Proof.
  intros Hs Hk exact C L p p' b Hi H. step H as mode. apply get_inv in E as [-> ->]. step H. apply modify_inv in E as ->.
  eapply Hk; [|exact H]. apply inv_set_mode; [done|]. intros _ (_ & _ & _ & _ & Ho). by rewrite Ho.
Qed.
Definition textually : regime := Regime true true true.
Lemma handle_before_head_keeps g : keeps g handle_before_head.
Proof. unfold handle_before_head. keep. Qed.
Lemma handle_in_head_noscript_keeps : keeps calmly handle_in_head_noscript.
Proof. unfold handle_in_head_noscript. keep. Qed.
Lemma handle_after_head_keeps : keeps calmly handle_after_head.
Proof. unfold handle_after_head. keep. Qed.
Lemma handle_text_keeps : keeps textually handle_text.
Proof.
  unfold handle_text. apply keeps_token. intros token _. case_match; [keep|].
  do 2 (apply keeps_bind; [keep|intros ?]). apply restore_mode_keeps; [done|keep].
Qed.
Lemma close_caption_keeps g : keeps g close_caption.
Proof. unfold close_caption. keep. Qed.
Lemma close_row_keeps g : keeps g close_row.
Proof. unfold close_row. keep. Qed.
Lemma pop_if_current_keeps g tag : keeps g (pop_if_current tag).
Proof. unfold pop_if_current. keep. Qed.
#[export] Hint Resolve handle_before_head_keeps handle_in_head_noscript_keeps handle_after_head_keeps close_caption_keeps close_row_keeps pop_if_current_keeps : keeps.
Lemma handle_in_table_keeps : keeps calmly handle_in_table.
Proof.
  unfold handle_in_table. apply keeps_token. intros token _. destruct (_ || _); [|keep].
  do 2 (apply keeps_bind; [keep|intros ?]). apply save_mode_keeps. intros exact C L p p' b mode Hi Ho H.
  step H. apply modify_inv in E as ->. step H. apply modify_inv in E as ->. apply ret_inv in H as [-> _].
  apply inv_set_mode; [by eapply inv_frame; [|exact Hi]|]. intros Hr _. split; [done|]. intros _. exact (Ho Hr).
Qed.
#[export] Hint Resolve handle_in_table_keeps : keeps.
Lemma handle_in_table_text_keeps : keeps textually handle_in_table_text.
Proof.
  unfold handle_in_table_text. apply keeps_token. intros token _. case_match; [keep|]. case_match; [keep|].
  do 5 (apply keeps_bind; [keep|intros ?]). apply restore_mode_keeps; [done|keep].
Qed.
Lemma handle_in_caption_keeps : keeps calmly handle_in_caption.
Proof. unfold handle_in_caption. keep. Qed.
Lemma handle_in_column_group_keeps : keeps calmly handle_in_column_group.
Proof. unfold handle_in_column_group. keep. Qed.
Lemma handle_in_table_body_keeps : keeps calmly handle_in_table_body.
Proof. unfold handle_in_table_body. keep. Qed.
Lemma handle_in_row_keeps : keeps calmly handle_in_row.
Proof. unfold handle_in_row. keep. Qed.
Lemma handle_in_cell_keeps : keeps calmly handle_in_cell.
Proof. unfold handle_in_cell. keep. Qed.
Lemma handle_in_select_keeps : keeps calmly handle_in_select.
Proof. unfold handle_in_select. keep. Qed.
#[export] Hint Resolve handle_in_caption_keeps handle_in_column_group_keeps handle_in_table_body_keeps handle_in_row_keeps handle_in_cell_keeps handle_in_select_keeps : keeps.
Lemma handle_in_select_in_table_keeps : keeps calmly handle_in_select_in_table.
Proof. unfold handle_in_select_in_table. keep. Qed.
Lemma handle_after_body_keeps : keeps calmly handle_after_body.
Proof. unfold handle_after_body. keep. Qed.
Lemma handle_in_frameset_keeps : keeps calmly handle_in_frameset.
Proof. unfold handle_in_frameset. keep. Qed.
Lemma handle_after_frameset_keeps : keeps calmly handle_after_frameset.
Proof. unfold handle_after_frameset. keep. Qed.
Lemma handle_after_after_body_keeps : keeps calmly handle_after_after_body.
Proof. unfold handle_after_after_body. keep. Qed.
Lemma handle_after_after_frameset_keeps : keeps calmly handle_after_after_frameset.
Proof. unfold handle_after_after_frameset. keep. Qed.
#[export] Hint Resolve handle_in_select_in_table_keeps handle_after_body_keeps handle_in_frameset_keeps handle_after_frameset_keeps handle_after_after_body_keeps handle_after_after_frameset_keeps : keeps.
Lemma kTokenHandlers_keeps mode : plain_mode mode = true -> keeps calmly (kTokenHandlers mode).
Proof. intros Hm. destruct mode; try done; cbn [kTokenHandlers]; keep. Qed.
Lemma kTokenHandlers_text_keeps mode : textual mode = true -> keeps textually (kTokenHandlers mode).
Proof. intros Hm. destruct mode; try done; [apply handle_text_keeps|apply handle_in_table_text_keeps]. Qed.

(** The mode of a document with a root has its handler. *)
Lemma handle_html_content_keeps : keeps calmly handle_html_content.
Proof.
  intros exact C L p p' b Hi H. unfold handle_html_content in H. step H as mode. apply get_inv in E as [-> ->].
  destruct (inv_settled _ _ _ _ _ Hi eq_refl) as (Hr & Hl & Ht & Ho & _). destruct (textual (_insertion_mode p)) eqn:Ex.
  - apply (inv_weaken_regime exact textually); [done..|]. eapply kTokenHandlers_text_keeps; [done| |exact H].
    destruct Hi as [H1 H2 H3 H4 H5 H6 H7 H8]. split; try done. intros _. split_and!; try done; intros _; by apply Ho.
  - eapply kTokenHandlers_keeps; [|exact Hi|exact H]. unfold plain_mode. by rewrite Hl, Ex.
Qed.
#[export] Hint Resolve handle_html_content_keeps : keeps.

(** * Foreign content *)
Lemma foreign_end_tag_keeps g i node nt tt b : keeps g (foreign_end_tag i node nt tt b).
Proof. revert node nt; induction i; intros; cbn [foreign_end_tag]; keep. Qed.
Lemma foreign_start_tag_keeps g token : keeps g (foreign_start_tag token).
Proof. unfold foreign_start_tag. keep. Qed.
#[export] Hint Resolve foreign_end_tag_keeps foreign_start_tag_keeps : keeps.
Lemma foreign_tag_keeps token : keeps calmly (foreign_tag token).
Proof. unfold foreign_tag. keep. Qed.
#[export] Hint Resolve foreign_tag_keeps : keeps.
Lemma handle_in_foreign_content_keeps : keeps calmly handle_in_foreign_content.
Proof. unfold handle_in_foreign_content. keep. Qed.
#[export] Hint Resolve handle_in_foreign_content_keeps : keeps.
Lemma handle_token_keeps : keeps calmly handle_token.
Proof. unfold handle_token. keep. Qed.
#[export] Hint Resolve handle_token_keeps : keeps.

(** * The frameset start tag *)

Lemma elem_of_rest (l : list nat) i x c : l !! i = Some x -> ((c ∈ l) <-> (c = x \/ c ∈ take i l ++ drop (S i) l)).
Proof. intros H. rewrite <- (take_drop_middle _ _ _ H) at 1. rewrite !elem_of_app, elem_of_cons. tauto. Qed.

(** The body leaves the tree without new indices for its siblings and is destroyed:
    the links still agree, the indices need not. *)
Lemma tree_detach h h' r n i l F :
  tree_ok false h -> kids h r !! i = Some n -> l = take i (kids h r) ++ drop (S i) (kids h r) ->
  forall h1, (forall m, kids h1 m = if decide (m = r) then l else kids h m) -> (forall m, link h1 m = link h m) ->
  freed [n] F h1 h' -> tree_ok false h'.
Proof.
  intros Ht Hi -> h1 Hk Hl (_ & A & B & C & D).
  assert (Hnd : (n ∉ take i (kids h r) ++ drop (S i) (kids h r)) /\ NoDup (take i (kids h r) ++ drop (S i) (kids h r))).
  { pose proof (tree_nodup Ht r) as Hnd. rewrite <- (take_drop_middle _ _ _ Hi), <- Permutation_middle in Hnd.
    by apply NoDup_cons in Hnd. }
  assert (Hsub : forall m c, c ∈ kids h1 m -> c ∈ kids h m).
  { intros m c. rewrite Hk. case_decide as E; [subst m|done]. rewrite (elem_of_rest _ _ _ c Hi). tauto. }
  eapply (tree_free false h1 h' n F); [done|by apply B, list_elem_of_singleton|done|..].
  - intros c [Hc|]%D; [left; by apply list_elem_of_singleton in Hc|by right].
  - intros m Hin. rewrite Hk in Hin. case_decide as E; [by apply Hnd|]. apply (tree_in Ht) in Hin as [j Hj].
    destruct (tree_child Ht Hi) as (j' & Hj' & _). congruence.
  - intros m k c Hc. apply list_elem_of_lookup_2, Hsub, (tree_in Ht) in Hc as [j Hj]. exists j. by rewrite Hl.
  - intros m. rewrite Hk. case_decide; [apply Hnd|apply (tree_nodup Ht)].
  - intros c m j. rewrite Hl, Hk. intros Hc%(tree_parent Ht) Hne. case_decide as E; [subst m|done].
    rewrite (elem_of_rest _ _ _ c Hi) in Hc. tauto.
  - intros c j. rewrite Hl. apply (tree_orphan Ht).
Qed.

Lemma tree_ok_weaken exact h : tree_ok exact h -> tree_ok false h.
Proof. intros [H1 H2 H3 H4]. split; [|done..]. intros n i c (j & Hj & _)%H1. by exists j. Qed.

Lemma index_of_None l x : gumbo_vector_index_of l x = None -> x ∉ l.
Proof.
  induction l as [|y l IH]; cbn; [intros _; apply not_elem_of_nil|]. destruct (y =? x)%nat eqn:E; [done|].
  apply Nat.eqb_neq in E. destruct (gumbo_vector_index_of l x); [done|]. intros _. apply not_elem_of_cons. auto.
Qed.

(** The step of the frameset start tag that removes the body: when it returns, the body
    has been taken from the children of the root element and destroyed with all that is
    below it, and parents and children still agree.  The siblings after the body keep
    their old index ([remove_body_index]), and other pointers of the parser may still
    refer to a destroyed node ([frameset_form_dangles]). *)
Theorem remove_body_links exact body r p p' u :
  tree_ok exact (heap p) -> root p = Some r -> body ∈ kids (heap p) r ->
  remove_body body p = Ok (p', u) -> tree_ok false (heap p').
Proof.
  intros Ht%tree_ok_weaken Hr Hb H. unfold remove_body in H. step H as r0. apply get_inv in E as [-> ->]. rewrite Hr in H.
  step H as e. apply element_inv in E as (-> & x & node & [= <-] & Hn & Hv). step H as r0. apply lift_inv in E as [-> [= ->]].
  assert (Hkr : kids (heap p) r0 = el_children e) by (unfold kids, node_children; by rewrite Hn, Hv).
  step H as l. apply lift_inv in E as [-> Hl]. step H. apply modify_element_inv in E as (node' & e' & Hn' & Hv' & ->).
  simplify_eq. apply destroy_frees in H as (F & h & -> & HF). cbn in *. unfold gumbo_vector_remove in Hl. rewrite Hkr in Hb.
  destruct (gumbo_vector_index_of (el_children e) body) as [i|] eqn:Hi; [|by apply index_of_None in Hi].
  apply remove_at_inv in Hl as [_ ->]. apply index_of_lookup in Hi. rewrite <- Hkr in Hi, HF.
  assert (Hlt : (r0 < length (heap p))%nat) by (by apply lookup_lt_Some in Hn).
  eapply (tree_detach (heap p) h r0 body i); [done|done|done|..|exact HF]; intros m; rewrite ?kids_insert, ?link_insert by done;
    [done|]. case_decide as E; [subst m|done]. unfold link. by rewrite Hn.
Qed.

(** * The main loop *)
Lemma keeps_any_on_tokenizer g {A} (m : lexer A) : calm g = false -> keeps g (on_tokenizer m).
Proof.
  intros Hg exact C L p p' a Hi H. unfold on_tokenizer in H.
  destruct (m (tokenizer_state p)) as [[t b]| |]; cbn in H; [|done..]. injection H as <- <-.
  apply inv_tokenizer; [done|]. by rewrite Hg.
Qed.

Lemma finish_loop_keeps g fuel : keeps g (finish_loop fuel).
Proof. induction fuel; cbn [finish_loop]; keep. Qed.
#[export] Hint Resolve finish_loop_keeps : keeps.
Lemma finish_parsing_keeps g : keeps g finish_parsing.
Proof. unfold finish_parsing. keep. Qed.
Lemma finish_doctype_keeps g : keeps g finish_doctype.
Proof. unfold finish_doctype. keep. Qed.
#[export] Hint Resolve finish_parsing_keeps finish_doctype_keeps : keeps.

(** ** Before the root *)

(** The state before there is a root element. *)
Definition starting (p : GumboParser) : Prop :=
  root p = None /\ _open_elements p = [] /\ late (_insertion_mode p) = false /\ _fragment_ctx p = None /\
  _template_insertion_modes p = [].

(** What most operations leave alone. *)
Definition status (p : GumboParser) :=
  (root p, _open_elements p, _insertion_mode p, _fragment_ctx p, _template_insertion_modes p,
   _reprocess_current_token p, ttype (_output (tokenizer_state p))).

Lemma starting_status p p' : status p' = status p -> starting p -> starting p'.
Proof. unfold status, starting. by intros [= -> -> -> -> -> _ _]. Qed.

Definition stays {A} (m : parser A) : Prop := forall p p' a, m p = Ok (p', a) -> status p' = status p.

Lemma stays_bind {A B} (m : parser A) (k : A -> parser B) : stays m -> (forall a, stays (k a)) -> stays (m ≫= k).
Proof. intros Hm Hk p p' b H. step H. rewrite (Hk a p0 p' b H). by eapply Hm. Qed.
Lemma stays_reads {A} (m : parser A) : reads m -> stays m.
Proof. by intros Hm p p' a ->%Hm. Qed.
Lemma stays_modify f : (forall p, status (f p) = status p) -> stays (modify f).
Proof. intros Hf p p' u ->%modify_inv. apply Hf. Qed.
Lemma stays_allocate node : stays (allocate node).
Proof. intros p p' a H. unfold allocate in H. by injection H as <- <-. Qed.
Lemma stays_on_tokenizer {A} (m : lexer A) :
  (forall t t' a, m t = Ok (t', a) -> ttype (_output t') = ttype (_output t)) -> stays (on_tokenizer m).
Proof.
  intros Hm p p' a H. unfold on_tokenizer in H. destruct (m (tokenizer_state p)) as [[t b]| |] eqn:E; cbn in H; [|done..].
  injection H as <- <-. unfold status. cbn. by rewrite (Hm _ _ _ E).
Qed.
Lemma destroy_stays n : stays (destroy n).
Proof. intros p p' u (F & h & -> & _)%destroy_frees. done. Qed.

Create HintDb stays.
#[export] Hint Resolve stays_allocate destroy_stays : stays.
Ltac stay_step :=
  match goal with
  | |- stays (_ ≫= _) => apply stays_bind; [|intros ?]
  | |- stays (modify _) => apply stays_modify; done
  | |- stays (modify_node _ _) => unfold modify_node
  | |- stays (modify_element _ _) => unfold modify_element
  | |- stays (modify_document _ _) => unfold modify_document
  | |- stays (when ?b _) => destruct b; cbn [when]
  | |- stays (let _ := _ in _) => cbv zeta
  | |- stays (match ?x with _ => _ end) => destruct x eqn:?
  | |- stays _ => solve [auto with stays | apply stays_reads; auto with reads]
  end.
Ltac stay := repeat stay_step; try done.

Lemma renumber_stays l i : stays (renumber l i).
Proof. revert i; induction l; intros i; cbn [renumber]; stay. Qed.
Lemma set_children_of_stays n l : stays (set_children_of n l).
Proof. unfold set_children_of. stay. Qed.
#[export] Hint Resolve renumber_stays set_children_of_stays : stays.
Lemma append_node_stays q n : stays (append_node q n).
Proof. unfold append_node. stay. Qed.
#[export] Hint Resolve append_node_stays : stays.
Lemma insert_node_stays n location : stays (insert_node n location).
Proof. unfold insert_node. stay. Qed.
Lemma create_node_stays type v : stays (create_node type v).
Proof. apply stays_allocate. Qed.
#[export] Hint Resolve insert_node_stays create_node_stays : stays.
Lemma maybe_flush_text_node_buffer_stays : stays maybe_flush_text_node_buffer.
Proof. unfold maybe_flush_text_node_buffer. stay. Qed.
Lemma add_parse_error_stays type token : stays (add_parse_error type token).
Proof. unfold add_parse_error. stay. apply stays_on_tokenizer. by intros ? ? ? [= <- _]. Qed.
Lemma set_token_attributes_stays attrs : stays (set_token_attributes attrs).
Proof. unfold set_token_attributes. stay. apply stays_on_tokenizer. by intros ? ? ? [= <- _]. Qed.
#[export] Hint Resolve maybe_flush_text_node_buffer_stays add_parse_error_stays set_token_attributes_stays : stays.
Lemma parser_add_parse_error_stays token : stays (parser_add_parse_error token).
Proof. apply add_parse_error_stays. Qed.
Lemma ignore_token_stays : stays ignore_token.
Proof. unfold ignore_token. stay. Qed.
Lemma append_comment_node_stays n token : stays (append_comment_node n token).
Proof. unfold append_comment_node. stay. Qed.
#[export] Hint Resolve parser_add_parse_error_stays ignore_token_stays append_comment_node_stays : stays.
Lemma modify_document_stays n f : stays (modify_document n f).
Proof. stay. Qed.
Lemma ignore_with_error_stays token : stays (ignore_with_error token).
Proof. unfold ignore_with_error. stay. Qed.
Lemma maybe_add_doctype_error_stays token : stays (maybe_add_doctype_error token).
Proof. unfold maybe_add_doctype_error. stay. Qed.
Lemma create_element_stays tag : stays (create_element tag).
Proof. unfold create_element. stay. Qed.
Lemma create_element_from_token_stays token ns : stays (create_element_from_token token ns).
Proof. unfold create_element_from_token. stay. Qed.
Lemma add_flags_stays n f : stays (add_flags n f).
Proof. unfold add_flags. stay. Qed.
#[export] Hint Resolve ignore_with_error_stays maybe_add_doctype_error_stays create_element_stays
  create_element_from_token_stays add_flags_stays : stays.

(** The root element goes to the document. *)
Lemma append_node_above q n p p' u : append_node q n p = Ok (p', u) -> above (heap p') n = Some (Some q).
Proof.
  intros H. unfold append_node in H. step H. apply reads_deref in E as ->. do 2 (step H; apply assert_inv in E as [-> _]).
  step H as l. apply children_of_reads in E as ->. rewrite <- pbind_assoc in H. step H.
  apply attach_inv in E as (h1 & -> & _ & _ & Hl1). apply set_children_of_inv in H as (h2 & -> & _ & _ & Hl2).
  unfold above. cbn in *. by rewrite Hl2, Hl1, decide_True.
Qed.

Lemma first_location p p' location :
  root p = None -> document p = the_document -> doc_ok (heap p) ->
  get_appropriate_insertion_location None p = Ok (p', location) -> p' = p /\ location = Location the_document (-1).
Proof.
  intros Hr Hd [Hs _] H. pose proof (get_appropriate_insertion_location_reads _ _ _ _ H) as ->. split; [done|].
  unfold get_appropriate_insertion_location in H. step H as t. step E as r. apply get_inv in E0 as [-> ->].
  rewrite Hr, bool_decide_false in E by (by intros [? ?]). apply get_inv in E as [-> ->]. rewrite Hd in H.
  step H as foster. apply reads_get in E as ->. step H as in_table.
  assert (in_table = false) as ->; [|by apply ret_inv in H as [_ ->]].
  destruct foster; [|by apply ret_inv in E as [_ ->]]. unfold node_tag_in_set in E. step E. apply assert_inv in E0 as [-> _].
  step E as node. apply deref_inv in E0 as (-> & n & [= <-] & Hn). unfold shape in Hs. rewrite Hn in Hs. injection Hs as Hty _.
  rewrite Hty in E. by apply ret_inv in E as [_ ->].
Qed.

(** An element that is inserted first: it becomes a child of the document. *)
Lemma insert_first_inv exact g C L n p p' u :
  inv exact g C L p -> starting p -> n <> the_document -> insert_element n false p = Ok (p', u) ->
  inv exact g C L p' /\ above (heap p') n = Some (Some the_document) /\ _fragment_ctx p' = None /\
  _template_insertion_modes p' = [].
Proof.
  intros Hi Hst Hn H. assert (Hk : keeps g (insert_element n false)) by (by apply insert_element_keeps).
  pose proof (Hk _ _ _ _ _ _ Hi H) as Hi'. split; [done|]. unfold insert_element in H. cbn [negb when] in H. step H.
  pose proof (maybe_flush_text_node_buffer_keeps g _ _ _ _ _ _ Hi E) as Hi1.
  pose proof (starting_status _ _ (maybe_flush_text_node_buffer_stays _ _ _ E) Hst) as Hst1.
  step H as location. apply first_location in E0 as [-> ->]; [|apply Hst1|apply Hi1|apply Hi1].
  step H. pose proof (starting_status _ _ (insert_node_stays _ _ _ _ _ E0) Hst1) as (_ & _ & _ & Hc & Ht).
  apply modify_inv in H as ->. cbn. split_and!; [|done|done].
  unfold insert_node in E0. step E0. apply reads_deref in E1 as ->. do 2 (step E0; apply assert_inv in E1 as [-> _]).
  cbn [target index] in E0. by apply append_node_above in E0.
Qed.

(** The regime of a document with a root. *)
Definition rootedly : regime := Regime false true false.

Lemma root_inv exact C L n p :
  inv exact loosely C L p -> above (heap p) n = Some (Some the_document) -> _template_insertion_modes p = [] ->
  inv exact rootedly C L (set_insertion_mode_ GUMBO_INSERTION_MODE_BEFORE_HEAD (set_root (Some n) p)).
Proof.
  intros [H1 H2 H3 H4 H5 H6 H7 _] Ha Ht. split; try done. intros _. split; [by exists n|]. cbn. rewrite Ht. by split_and!.
Qed.

Definition is_eof (p : GumboParser) : Prop := ttype (_output (tokenizer_state p)) = GUMBO_TOKEN_EOF.

(** A program that leaves the status alone, for a token that is not the end. *)
Lemma stays_starting {A} (m : parser A) p p' a :
  stays m -> starting p -> ~ is_eof p -> m p = Ok (p', a) -> starting p' /\ ~ is_eof p'.
Proof.
  intros Hm Hst Hne H. pose proof (Hm _ _ _ H) as E. split; [by eapply starting_status|]. intros He. destruct Hne.
  unfold status in E. unfold is_eof in *. by injection E as _ _ _ _ _ _ <-.
Qed.

Lemma stays_starting_again {A} (m : parser A) p p' a :
  stays m -> starting p -> ~ is_eof p -> m p = Ok (p', a) ->
  starting p' /\ (is_eof p' -> _reprocess_current_token p' = true).
Proof. intros Hm Hst Hne H. destruct (stays_starting m p p' a Hm Hst Hne H) as [? Hn]. split; [done|]. by intros ?%Hn. Qed.

Lemma set_mode_starting mode p : late mode = false -> starting p -> starting (set_insertion_mode_ mode p).
Proof. by intros Hm (? & ? & ? & ? & ?). Qed.

Lemma handle_initial_starting p p' b :
  starting p -> handle_initial p = Ok (p', b) -> starting p' /\ (is_eof p' -> _reprocess_current_token p' = true).
Proof.
  intros Hst H. unfold handle_initial in H. step H as token. apply get_inv in E as [-> ->].
  step H as doc. apply reads_get in E as ->.
  assert (Hrest : forall f, (parser_add_parse_error (_output (tokenizer_state p));; modify_document doc f;;
    set_insertion_mode GUMBO_INSERTION_MODE_BEFORE_HTML;; reprocess;; mret true) p = Ok (p', b) ->
    starting p' /\ (is_eof p' -> _reprocess_current_token p' = true)).
  { clear H. intros f H. rewrite <- pbind_assoc in H. step H.
    assert (Hs : stays (parser_add_parse_error (_output (tokenizer_state p));; modify_document doc f)) by stay.
    apply Hs in E. step H. apply modify_inv in E0 as ->. step H. apply modify_inv in E0 as ->. apply ret_inv in H as [-> _].
    split; [|done]. exact (set_mode_starting GUMBO_INSERTION_MODE_BEFORE_HTML p0 eq_refl (starting_status _ _ E Hst)). }
  destruct (ttype (_output (tokenizer_state p))) eqn:Et; try (by eapply Hrest, H);
    assert (Hne : ~ is_eof p) by (unfold is_eof; by rewrite Et).
  - do 2 (step H; apply reads_lift in E as ->). step H.
    apply modify_document_stays in E. step H. apply modify_inv in E0 as ->.
    eapply (stays_starting_again (maybe_add_doctype_error (_output (tokenizer_state p)))); [stay| | |exact H].
    + by apply set_mode_starting; [|eapply starting_status].
    + unfold status in E. injection E as _ _ _ _ _ _ E. unfold is_eof. cbn. by rewrite E, Et.
  - eapply (stays_starting_again (append_comment_node (Some doc) (_output (tokenizer_state p));; mret true)); [stay|done..].
  - eapply (stays_starting_again (ignore_token;; mret true)); [stay|done..].
Qed.

(** The two ways to insert the html element. *)
Lemma first_from_token_inv exact L token p p' n :
  inv exact loosely None L p -> starting p -> insert_element_from_token token p = Ok (p', n) ->
  inv exact loosely None L p' /\ above (heap p') n = Some (Some the_document) /\ _template_insertion_modes p' = [].
Proof.
  intros Hi Hst H. unfold insert_element_from_token in H. step H as x.
  assert (Hx : x <> the_document) by (eapply create_element_from_token_makes; [exact Hi|exact E]).
  pose proof (create_element_from_token_keeps _ _ _ _ _ _ _ _ _ Hi E) as Hi1.
  pose proof (starting_status _ _ (create_element_from_token_stays _ _ _ _ _ E) Hst) as Hst1.
  step H. apply ret_inv in H as [-> ->]. by destruct (insert_first_inv _ _ _ _ _ _ _ _ Hi1 Hst1 Hx E0) as (? & ? & _ & ?).
Qed.

Lemma first_of_tag_inv exact L tag reason p p' n :
  inv exact loosely None L p -> starting p -> insert_element_of_tag_type tag reason p = Ok (p', n) ->
  inv exact loosely None L p' /\ above (heap p') n = Some (Some the_document) /\ _template_insertion_modes p' = [].
Proof.
  intros Hi Hst H. unfold insert_element_of_tag_type in H. step H as x.
  assert (Hx : x <> the_document) by (eapply create_element_makes; [exact Hi|exact E]).
  pose proof (create_element_keeps _ _ _ _ _ _ _ _ Hi E) as Hi1.
  pose proof (starting_status _ _ (create_element_stays _ _ _ _ E) Hst) as Hst1.
  step H. pose proof (add_flags_keeps _ _ _ _ _ _ _ _ _ Hi1 E0) as Hi2.
  pose proof (starting_status _ _ (add_flags_stays _ _ _ _ _ E0) Hst1) as Hst2.
  step H. apply ret_inv in H as [-> ->]. by destruct (insert_first_inv _ _ _ _ _ _ _ _ Hi2 Hst2 Hx E1) as (? & ? & _ & ?).
Qed.

Lemma is_type_not_eof p type : type <> GUMBO_TOKEN_EOF -> is_type (_output (tokenizer_state p)) type = true -> ~ is_eof p.
Proof. intros Ht H%bool_decide_eq_true_1 He. unfold is_eof in He. congruence. Qed.

(** In the mode before the html element: the state is as before, or it has a root. *)
Lemma handle_before_html_starting exact L p p' b :
  inv exact loosely None L p -> starting p -> handle_before_html p = Ok (p', b) ->
  (starting p' /\ ~ is_eof p') \/ inv exact rootedly None L p'.
Proof.
  intros Hi Hst H. unfold handle_before_html in H. step H as token. apply get_inv in E as [-> ->].
  destruct (is_type _ GUMBO_TOKEN_DOCTYPE) eqn:E1.
  { left. apply is_type_not_eof in E1; [|done]. by eapply (stays_starting (ignore_with_error _)); [stay| | |exact H]. }
  destruct (is_type _ GUMBO_TOKEN_COMMENT) eqn:E2.
  { left. apply is_type_not_eof in E2; [|done]. eapply stays_starting; [| | |exact H]; [stay|done..]. }
  destruct (is_type _ GUMBO_TOKEN_WHITESPACE) eqn:E3.
  { left. apply is_type_not_eof in E3; [|done]. eapply stays_starting; [| | |exact H]; [stay|done..]. }
  destruct (tag_is _ kStartTag GUMBO_TAG_HTML).
  { right. step H as n. destruct (first_from_token_inv _ _ _ _ _ _ Hi Hst E) as (Hi1 & Ha & Ht).
    step H. apply modify_inv in E0 as ->. step H. apply modify_inv in E0 as ->. apply ret_inv in H as [-> _]. by apply root_inv. }
  destruct (other_end_tag _ _) eqn:E4.
  { left. apply andb_true_iff in E4 as [E4 _]. apply is_type_not_eof in E4; [|done].
    by eapply (stays_starting (ignore_with_error _)); [stay| | |exact H]. }
  right. step H as n. destruct (first_of_tag_inv _ _ _ _ _ _ _ Hi Hst E) as (Hi1 & Ha & Ht).
  step H. apply modify_inv in E0 as ->. step H. apply modify_inv in E0 as ->. step H. apply modify_inv in E0 as ->.
  apply ret_inv in H as [-> _]. eapply inv_frame; [|by apply (root_inv _ _ _ n)]. done.
Qed.

(** A token before there is a root. *)
Lemma handle_token_starting exact L p p' b :
  inv exact loosely None L p -> starting p -> handle_token p = Ok (p', b) ->
  (inv exact loosely None L p' /\ starting p' /\ (is_eof p' -> _reprocess_current_token p' = true)) \/
  inv exact rootedly None L p'.
Proof.
  intros Hi Hst H. unfold handle_token in H. step H as token. apply get_inv in E as [-> ->].
  step H as ignore. apply reads_get in E as ->. step H. apply modify_inv in E as ->.
  set (p1 := set_ignore_next_linefeed false p) in *. assert (Hi1 : inv exact loosely None L p1) by (by eapply inv_frame; [|exact Hi]).
  assert (Hst1 : starting p1) by exact Hst. change (tokenizer_state p) with (tokenizer_state p1) in H. clearbody p1. clear p Hi Hst.
  destruct (ignore && _) eqn:Ei.
  { left. assert (Hne : ~ is_eof p1).
    { apply andb_true_iff in Ei as [_ Ei]. unfold is_linefeed in Ei. unfold is_eof. intros He. by rewrite He in Ei. }
    assert (Hk : keeps loosely (ignore_token;; mret true)) by keep. split; [by eapply Hk|].
    eapply stays_starting_again; [| | |exact H]; [stay|done..]. }
  rewrite <- pbind_assoc in H. step H.
  match type of E with ?m _ = _ =>
    assert (Hk : keeps loosely m) by keep; assert (Hs : stays m) by stay end.
  pose proof (Hk _ _ _ _ _ _ Hi1 E) as Hi2. pose proof (starting_status _ _ (Hs _ _ _ E) Hst1) as Hst2. clear Hk Hs E Hi1 Hst1.
  step H as c. pose proof Hst2 as (Hr & Ho & Hm & Hc & _).
  assert (c = None /\ p = p0) as [-> ->].
  { unfold get_adjusted_current_node in E. step E. apply get_inv in E0 as [-> ->]. step E. apply reads_get in E0 as ->.
    rewrite Ho in E. cbn [length Nat.eqb andb] in E. unfold get_current_node in E. step E. apply get_inv in E0 as [-> ->]. rewrite Ho in E.
    step E. apply reads_get in E0 as ->. step E. apply assert_inv in E0 as [-> _]. by apply ret_inv in E as [-> ->]. }
  step H. apply ret_inv in E0 as [-> _]. step H as html. apply ret_inv in E0 as [-> ->].
  unfold handle_html_content in H. step H as mode. apply get_inv in E0 as [-> ->].
  destruct (_insertion_mode p0) eqn:Em; try (by rewrite ?Em in Hm); cbn [kTokenHandlers] in H.
  - left. split; [by eapply (handle_initial_keeps loosely)|]. by eapply handle_initial_starting.
  - destruct (handle_before_html_starting _ _ _ _ _ Hi2 Hst2 H) as [[H1 H2]|]; [left|by right].
    split; [by eapply (handle_before_html_keeps loosely)|]. split; [done|]. by intros ?%H2.
Qed.

Lemma marker_tree : tree_ok true [Some marker_node].
Proof.
  assert (Hk : forall n, kids [Some marker_node] n = []) by (by intros [|[|n]]).
  split; [intros n i c; by rewrite Hk|intros n; rewrite Hk; constructor|..]; intros [|[|c]]; by intros.
Qed.

(** The state in which the main loop starts. *)
Definition document_node (quirks : GumboQuirksModeEnum) : GumboNode :=
  Node GUMBO_NODE_DOCUMENT None (-1) GUMBO_INSERTION_BY_PARSER (VDocument (Document [] false None None None quirks)).

Lemma output_init_inv quirks q p u :
  output_init quirks (set_heap [Some marker_node] q) = Ok (p, u) ->
  heap p = [Some marker_node; Some (document_node quirks)] /\ document p = the_document /\ root p = None.
Proof.
  intros H. unfold output_init in H. step H. apply modify_inv in E as ->. step H as n. apply modify_inv in H as ->.
  unfold new_document_node in E. step E as m. unfold create_node, allocate in E0. injection E0 as <- <-.
  step E. apply modify_node_inv in E0 as (node & [= <-] & ->). by apply ret_inv in E as [-> ->].
Qed.

Lemma parser_state_init_inv p p' u :
  parser_state_init p = Ok (p', u) ->
  heap p' = heap p /\ document p' = document p /\ root p' = root p /\ _fragment_ctx p' = None /\
  _open_elements p' = [] /\ _template_insertion_modes p' = [] /\ _insertion_mode p' = GUMBO_INSERTION_MODE_INITIAL.
Proof. intros H. unfold parser_state_init in H. do 14 (step H; apply modify_inv in E as ->). by apply modify_inv in H as ->. Qed.

Lemma parser_start_inv quirks q p u :
  parser_start kGumboDefaultOptions quirks (set_heap [Some marker_node] q) = Ok (p, u) ->
  inv true loosely None 0 p /\ starting p.
Proof.
  intros H. unfold parser_start in H. step H. apply output_init_inv in E as (Hh & Hd & Hr).
  step H. apply parser_state_init_inv in E as (Hh1 & Hd1 & Hr1 & Hc & Ho & Ht & Hm). apply ret_inv in H as [-> _].
  rewrite Hh in Hh1. rewrite Hr in Hr1. rewrite Hd in Hd1. split; [|unfold starting; by rewrite Hm].
  split; rewrite ?Hh1; try done; [lia|..].
  - by apply (tree_alloc true [Some marker_node] _ marker_tree).
  - intros [|[|n]] ty k; by intros [= <- <-].
Qed.

(** The state between two iterations. *)
Definition going (exact : bool) (p : GumboParser) : Prop :=
  (inv exact loosely None 0 p /\ starting p) \/ inv exact rootedly None 0 p.

Lemma going_tree exact p : going exact p -> tree_ok exact (heap p) /\ _fragment_ctx p = None.
Proof. by intros [[[] _]|[]]. Qed.

Section parse.
Context (scan_named : list Z -> option (OneOrTwoCodepoints * nat)) (junk_pos : GumboSourcePosition).

Lemma next_token_keeps g : calm g = false -> keeps g (next_token scan_named junk_pos).
Proof. intros Hg. pose proof (fun A => @keeps_any_on_tokenizer g A). unfold next_token. keep. Qed.
Lemma fetch_token_keeps g : calm g = false -> keeps g (fetch_token scan_named junk_pos).
Proof. intros Hg. unfold fetch_token. keep. by apply next_token_keeps. Qed.

(** The next token changes the tokenizer only. *)
Lemma fetch_token_starting p p' a : fetch_token scan_named junk_pos p = Ok (p', a) -> starting p -> starting p'.
Proof.
  assert (Ht : forall (A : Type) (m : lexer A) q q' (x : A), on_tokenizer m q = Ok (q', x) -> starting q -> starting q').
  { intros A m q q' x H. unfold on_tokenizer in H. destruct (m (tokenizer_state q)) as [[t y]| |]; cbn in H; [|done..].
    by injection H as <- <-. }
  intros H Hst. unfold fetch_token in H. step H as again. apply reads_get in E as ->. destruct again.
  - step H. apply modify_inv in E as ->. by apply ret_inv in H as [-> _].
  - unfold next_token in H. step H. apply get_current_node_reads in E as ->. step H as foreign.
    assert (p0 = p) as -> by (revert E; case_match; intros E; [step E; apply element_reads in E0 as ->|]; by apply ret_inv in E as [-> _]).
    step H. apply Ht in E0; [|done]. step H. apply reads_get in E1 as ->. step H. apply Ht in E1; [|done].
    by apply reads_lift in H as ->.
Qed.

(** The token of the iteration is no frameset start tag. *)
Definition fetches_no_frameset (p : GumboParser) : bool :=
  match fetch_token scan_named junk_pos p with
  | Ok (p', _) => negb (tag_is (_output (tokenizer_state p')) kStartTag GUMBO_TAG_FRAMESET)
  | _ => true
  end.

(** One iteration: as long as there is no root, the end of the input is processed again. *)
Lemma parse_step_going exact p p' e :
  going exact p -> fetches_no_frameset p = true -> parse_step scan_named junk_pos p = Ok (p', e) ->
  going exact p' /\ (is_eof p' -> _reprocess_current_token p' = false -> inv exact rootedly None 0 p').
Proof.
  intros Hg Hf H. unfold parse_step in H. unfold fetches_no_frameset in Hf. step H as lexed. rewrite E in Hf.
  apply negb_true_iff in Hf. destruct Hg as [[Hi Hst]|Hi].
  - pose proof (fetch_token_keeps loosely eq_refl _ _ _ _ _ _ Hi E) as Hi1. apply fetch_token_starting in E as Hst1; [|done].
    step H. apply reads_get in E0 as ->. do 2 (step H; apply modify_inv in E0 as ->). step H as handled.
    apply (handle_token_starting exact 0) in E0; [|by eapply inv_frame; [|exact Hi1]|exact Hst1].
    match type of H with ?m _ = _ => assert (Hk : forall g, keeps g m) by (intros g; keep); assert (Hs : stays m) by stay end.
    destruct E0 as [(Hi2 & Hst2 & Hag)|Hi2].
    + pose proof (Hs _ _ _ H) as Hsame. split; [left; split; [exact (Hk _ _ _ _ _ _ _ Hi2 H)|by eapply starting_status]|].
      intros He Ha. exfalso. unfold status in Hsame. unfold is_eof in *. injection Hsame as _ _ _ _ _ Hra Hty.
      rewrite Hty in He. rewrite Hra, (Hag He) in Ha. done.
    + pose proof (Hk _ _ _ _ _ _ _ Hi2 H). split; [by right|done].
  - pose proof (fetch_token_keeps rootedly eq_refl _ _ _ _ _ _ Hi E) as Hi1.
    assert (Hi2 : inv exact calmly None 0 p0) by (destruct Hi1 as [H1 H2 H3 H4 H5 H6 H7 H8]; by split).
    match type of H with ?m _ = _ => assert (Hk : keeps calmly m) by keep end.
    assert (Hi3 : inv exact rootedly None 0 p').
    { eapply (inv_weaken_regime _ calmly); [done..|]. exact (Hk _ _ _ _ _ _ Hi2 H). }
    split; [by right|done].
Qed.

(** No iteration of the loop fetches one. *)
Fixpoint frameset_free (fuel : nat) (p : GumboParser) : bool :=
  match fuel with
  | O => true
  | S fuel =>
      fetches_no_frameset p &&
      match parse_step scan_named junk_pos p with Ok (p', _) => frameset_free fuel p' | _ => true end
  end.

Lemma parse_loop_going exact fuel has_error count p p' r :
  going exact p -> frameset_free fuel p = true ->
  parse_loop scan_named junk_pos fuel false has_error count p = Ok (p', r) ->
  going exact p' /\ (r = Some tt -> inv exact rootedly None 0 p').
Proof.
  revert has_error count p; induction fuel as [|fuel IH]; intros has_error count p Hg Hf H; cbn [parse_loop] in H.
  { by apply ret_inv in H as [-> ->]. }
  cbn [frameset_free] in Hf. apply andb_true_iff in Hf as [Hf Hfs]. step H as error. rewrite E in Hfs.
  apply (parse_step_going exact) in E as [Hg1 Hend]; [|done|done]. step H. apply assert_inv in E as [-> _].
  step H as token. apply get_inv in E as [-> ->]. step H as again. apply get_inv in E as [-> ->].
  rewrite andb_true_r in H. destruct (_ || _) eqn:Ee; [by eapply IH|]. apply ret_inv in H as [-> ->]. split; [done|].
  intros _. apply orb_false_iff in Ee as [Ee Ea]. apply Hend; [|done]. by apply negb_false_iff, bool_decide_eq_true_1 in Ee.
Qed.

(** No token of the document is a frameset start tag. *)
Definition without_frameset (fuel : nat) (old : GumboParser) (quirks : GumboQuirksModeEnum) (buffer : list Z) : bool :=
  match gumbo_tokenizer_state_init (tokenizer_state old) (c_string buffer) (-1) 8 with
  | Ok t =>
      match parser_start kGumboDefaultOptions quirks (set_heap [Some marker_node] (set_tokenizer_state t old)) with
      | Ok (p, _) => frameset_free fuel p
      | _ => true
      end
  | _ => true
  end.

Lemma gumbo_parse_inv fuel old quirks buffer p' r :
  without_frameset fuel old quirks buffer = true ->
  gumbo_parse scan_named junk_pos fuel old quirks buffer = Ok (p', r) ->
  tree_ok true (heap p') /\ (r = Some tt -> inv true rootedly None 0 p').
Proof.
  intros Hf H. unfold gumbo_parse, gumbo_parse_with_options in H. unfold without_frameset in Hf.
  change (opt_max_errors _) with (-1) in H. change (opt_tab_stop _) with 8 in H.
  destruct (gumbo_tokenizer_state_init _ _ _ _) as [t| |]; cbn [mbind outcome_bind] in H; [|done..].
  step H. rewrite E in Hf. apply parser_start_inv in E as [Hi Hst]. step H as r'.
  apply (parse_loop_going true) in E as [Hg Hr]; [|by left|done].
  destruct r' as [[]|]; [|apply ret_inv in H as [-> ->]; split; [by apply going_tree|done]]. specialize (Hr eq_refl).
  step H. apply (finish_parsing_keeps _ _ _ _ _ _ _ Hr) in E as Hi1. step H. apply (finish_doctype_keeps _ _ _ _ _ _ _ Hi1) in E0 as Hi2.
  step H. apply ret_inv in H as [-> ->]. unfold parser_state_destroy in E1.
  step E1. apply get_inv in E2 as [-> ->]. rewrite (inv_ctx _ _ _ _ _ Hi2) in E1. apply ret_inv in E1 as [-> _].
  split; [apply Hi2|done].
Qed.

Lemma gumbo_parse_links fuel old quirks buffer p' r :
  without_frameset fuel old quirks buffer = true ->
  gumbo_parse scan_named junk_pos fuel old quirks buffer = Ok (p', r) ->
  tree_ok true (heap p').
Proof. intros Hf H. exact (proj1 (gumbo_parse_inv _ _ _ _ _ _ Hf H)). Qed.

(** C8: the tree of a document.  After any number of iterations of the main loop of
    [gumbo_parse] ([fuel]), and after the last one and the end of the parse, every child
    of a node has that node as its parent and its position among the children as its
    index, no child occurs twice, and a node with a parent is among the parent's
    children, for every document without a frameset start tag. *)
Theorem gumbo_parse_tree fuel old quirks buffer p' r :
  without_frameset fuel old quirks buffer = true ->
  gumbo_parse scan_named junk_pos fuel old quirks buffer = Ok (p', r) ->
  tree_ok true (heap p').
Proof. apply gumbo_parse_links. Qed.

(** The counter of the iterations ends the loop. *)
Lemma parse_loop_ends fuel stop has_error count p p' r :
  1000000000 <= Z.of_nat fuel + count -> 0 < Z.of_nat fuel ->
  parse_loop scan_named junk_pos fuel stop has_error count p = Ok (p', r) -> r = Some tt.
Proof.
  revert has_error count p; induction fuel as [|fuel IH]; intros has_error count p Hc Hf H; [lia|]. cbn [parse_loop] in H.
  step H as error. step H. apply assert_inv in E0 as [-> Hlt%Z.ltb_lt].
  step H as token. apply reads_get in E0 as ->. step H as again. apply reads_get in E0 as ->.
  destruct (_ && _) in H; [|by apply ret_inv in H as [_ ->]]. eapply IH; [| |exact H]; lia.
Qed.

(** So the fuel runs out only below the 10^9 iterations that the assertion of the main
    loop admits. *)
Lemma gumbo_parse_fuel fuel old quirks buffer p :
  gumbo_parse scan_named junk_pos fuel old quirks buffer = Ok (p, None) -> Z.of_nat fuel < 1000000000.
Proof.
  intros H. destruct (Z.lt_ge_cases (Z.of_nat fuel) 1000000000) as [|Hf]; [done|exfalso].
  unfold gumbo_parse, gumbo_parse_with_options in H.
  destruct (gumbo_tokenizer_state_init _ _ _ _) as [t| |]; cbn [mbind outcome_bind] in H; [|done..].
  step H. step H as r'. apply parse_loop_ends in E0 as ->; [|lia|lia]. do 3 step H. by apply ret_inv in H as [_ ?].
Qed.
End parse.

(** * A document *)

(** A state of the memory before a parse. *)
Definition blank_tokenizer : GumboTokenizerState :=
  let pos := Pos 0 0 0 in
  Tokenizer GUMBO_LEX_DATA false false false (-1) [] None [] 0 pos
    (TagState None 0 GUMBO_TAG_LAST pos None false GUMBO_LEX_DATA GUMBO_TAG_LAST false false)
    (DocType None None None false false false) (Iter [] 0 0 0 0 pos pos [] 0 0)
    (Token GUMBO_TOKEN_EOF pos (Piece 0 0) (VCharacter 0)).
Definition blank_parser : GumboParser :=
  Parser [] 0 None blank_tokenizer GUMBO_INSERTION_MODE_INITIAL GUMBO_INSERTION_MODE_INITIAL [] [] [] None None None
    false false false false false (TextBuffer [] 0 (Pos 0 0 0) GUMBO_NODE_WHITESPACE) false false false.

(** [gumbo_parse] of a document, in memory that is blank. *)
Definition parse_text (s : string) : outcome (GumboParser * option unit) :=
  gumbo_parse (fun _ => None) (Pos 0 0 0) 1000 blank_parser GUMBO_DOCTYPE_NO_QUIRKS (text_of s).

(** Misnested formatting elements and text in a table: the adoption agency and the
    foster parent are at work. *)
Definition misnested : string := "<p>a<b>b<div>c</p>d</b>e<table>f<tr><td>g".

(** [gumbo_parse_tree] applies to the document. *)
Lemma gumbo_parse_tree_witness :
  match parse_text misnested with Ok (p, Some tt) => tree_ok true (heap p) /\ length (heap p) = 21%nat | _ => False end.
Proof.
  unfold parse_text. destruct (gumbo_parse _ _ _ _ _ _) as [[p [[]|]]| |] eqn:E; [|vm_compute in E; discriminate..].
  split; [|vm_compute in E; by injection E as <-].
  apply (gumbo_parse_tree (fun _ => None) (Pos 0 0 0) 1000 blank_parser GUMBO_DOCTYPE_NO_QUIRKS (text_of misnested) p (Some tt)).
  - vm_compute. reflexivity.
  - exact E.
Defined.

(** The state after a page with a comment behind its body. *)
Definition framed : GumboParser :=
  match parse_text "<body></body><!--c-->" with Ok (p, _) => p | _ => blank_parser end.

(** [remove_body_links] applies to it. *)
Lemma remove_body_links_witness :
  match remove_body 4 framed with
  | Ok (p, _) => tree_ok false (heap p) /\ kids (heap p) 2 = [3; 5]%nat
  | _ => False
  end.
Proof.
  destruct (remove_body 4 framed) as [[p u]| |] eqn:E; [|vm_compute in E; discriminate..].
  split; [|vm_compute in E; by injection E as <-].
  apply (remove_body_links true 4 2 framed p u); [|vm_compute; reflexivity| |exact E].
  - apply tree_okb_sound. vm_compute. reflexivity.
  - apply (bool_decide_eq_true_1 _). vm_compute. reflexivity.
Defined.

(** The comment of this document is the second child of the root element; its index
    says that it is the third: the body before it was removed for the frameset. *)
Theorem remove_body_index :
  match parse_text "</body><!--c--><frameset>" with
  | Ok (p, Some tt) =>
      match root p with
      | Some r => exists c, kids (heap p) r !! 1%nat = Some c /\ link (heap p) c = Some (Some r, 2)
      | None => False
      end
  | _ => False
  end.
Proof. vm_compute. eauto. Qed.

(** The form of this document goes with the body that the frameset replaces, but
    [_form_element] still points to it. *)
Theorem frameset_form_dangles :
  match parse_text "<form><frameset>" with
  | Ok (p, Some tt) => exists n, _form_element p = Some n /\ heap p !! n = Some None
  | _ => False
  end.
Proof. vm_compute. eauto. Qed.

End TreeModes.
