(* ===== verification/GumboTreeSpec.v ===== *)
(** Specifications of parts of the tree builder (GumboParser.v, GumboModes.v): when an
    element is in scope, which elements the list of active formatting elements holds,
    and how deep the handlers call one another. *)
From Stdlib Require Import Strings.String Strings.Ascii.
From stdpp Require Import relations gmap.
From S2P Require Import Prelude GumboTags GumboBase Utf8 CharRef GumboLexer GumboLexerRuns GumboParser GumboModes GumboTree GumboTreeModes.
Import Tags GumboBase Utf8 CharRef Lexer Parser Modes Tree.

Module TreeSpec.

(** * Scopes *)

(** The element at an address. *)
Definition element_at (h : list (option GumboNode)) (n : nat) : option GumboElement :=
  match h !! n with
  | Some (Some node) =>
      match n_v node with VElement e => if is_element_type (n_type node) then Some e else None | _ => None end
  | _ => None
  end.

Definition qualified (h : list (option GumboNode)) (n : nat) : option (GumboNamespaceEnum * GumboTag) :=
  e ← element_at h n; Some (tag_namespace e, el_tag e).

(** The stack holds elements. *)
Definition stack_ok (p : GumboParser) : Prop := Forall (fun n => is_Some (element_at (heap p) n)) (_open_elements p).

(** One of the elements that are looked for, and one at which the search ends. *)
Definition is_expected (h : list (option GumboNode)) (expected : list GumboTag) (n : nat) : Prop :=
  exists tag, tag ∈ expected /\ qualified h n = Some (GUMBO_NAMESPACE_HTML, tag).
Definition is_barrier (h : list (option GumboNode)) (negate : bool) (tags : gumbo_tagset) (n : nat) : Prop :=
  exists ns tag, qualified h n = Some (ns, tag) /\ TAGSET_INCLUDES tags ns tag = negb negate.

(** An expected element on the stack, given with its last element first, with no barrier above it. *)
Definition in_scope (h : list (option GumboNode)) (expected : list GumboTag) (negate : bool) (tags : gumbo_tagset)
  (stack : list nat) : Prop :=
  exists above n below, stack = above ++ n :: below /\ is_expected h expected n /\
    Forall (fun m => ~ is_barrier h negate tags m) above.

Lemma in_scope_nil h expected negate tags : ~ in_scope h expected negate tags [].
Proof. intros ([|] & m & below & H & _); done. Qed.

Lemma in_scope_cons h expected negate tags n stack :
  in_scope h expected negate tags (n :: stack) <->
  is_expected h expected n \/ (~ is_barrier h negate tags n /\ in_scope h expected negate tags stack).
Proof.
  split.
  - intros ([|m above] & k & below & H & He & Hb); injection H as <- ->; [by left|right].
    apply Forall_cons in Hb as [Hm Hb]. split; [done|]. by exists above, k, below.
  - intros [He|[Hm (above & k & below & -> & He & Hb)]]; [by exists [], n, stack|].
    exists (n :: above), k, below. split; [done|]. split; [done|]. by constructor.
Qed.

Lemma element_at_Some h n e :
  element_at h n = Some e ->
  exists node, h !! n = Some (Some node) /\ n_v node = VElement e /\ is_element_type (n_type node) = true.
Proof.
  unfold element_at. destruct (h !! n) as [[node|]|]; [|done..]. destruct (n_v node) eqn:Hv; [done| |done].
  destruct (is_element_type (n_type node)) eqn:Ht; [|done]. intros [= <-]. eauto.
Qed.

Lemma scope_loop_spec expected negate tags stack p :
  Forall (fun n => is_Some (element_at (heap p) n)) stack ->
  exists b, scope_loop stack expected negate tags p = Ok (p, b) /\
    (b = true <-> in_scope (heap p) expected negate tags stack).
Proof.
  induction stack as [|n stack IH]; intros Hs.
  { exists false. split; [done|]. split; [done|]. by intros ?%in_scope_nil. }
  apply Forall_cons in Hs as [[e He] Hs]. destruct (IH Hs) as (b & Hb & Hiff). clear IH.
  assert (Hq : qualified (heap p) n = Some (tag_namespace e, el_tag e)) by (unfold qualified; by rewrite He).
  destruct (element_at_Some _ _ _ He) as (node & Hn & Hv & Ht). cbn [scope_loop].
  rewrite (pbind_Ok _ _ _ _ _ (deref_Ok _ _ _ Hn)), Ht. cbn [negb]. unfold v_element. rewrite Hv.
  rewrite (pbind_Ok (lift (Ok e)) _ p p e eq_refl). setoid_rewrite in_scope_cons.
  assert (Hexp : is_expected (heap p) expected n <-> el_tag e ∈ expected /\ tag_namespace e = GUMBO_NAMESPACE_HTML).
  { unfold is_expected. rewrite Hq. split; [by intros (t & ? & [= -> ->])|]. intros [? ->]. eauto. }
  assert (Hbar : is_barrier (heap p) negate tags n <-> TAGSET_INCLUDES tags (tag_namespace e) (el_tag e) = negb negate).
  { unfold is_barrier. rewrite Hq. split; [by intros (? & ? & [= <- <-] & ?)|eauto]. }
  setoid_rewrite Hexp. setoid_rewrite Hbar. destruct (_ && _) eqn:Ee.
  { apply andb_true_iff in Ee as [?%bool_decide_eq_true_1 ?%bool_decide_eq_true_1]. exists true. split; [done|]. tauto. }
  apply andb_false_iff in Ee. rewrite !bool_decide_eq_false in Ee.
  destruct (TAGSET_INCLUDES _ _ _), negate; cbn [Bool.eqb negb]; (eexists; split; [first [done|exact Hb]|]);
    rewrite ?Hiff; split; try tauto; intros; try done; naive_solver.
Qed.

(** C12: the search on the stack of open elements.  With elements on the stack it ends
    without error, changes nothing, and finds an element exactly if one of the expected
    tags (of the HTML namespace) is on the stack with no barrier of the scope above it. *)
Theorem has_an_element_in_specific_scope_spec expected negate tags p :
  stack_ok p ->
  exists b, has_an_element_in_specific_scope expected negate tags p = Ok (p, b) /\
    (b = true <-> in_scope (heap p) expected negate tags (rev (_open_elements p))).
Proof. intros Hs. apply scope_loop_spec. by apply Forall_rev. Qed.

(** * The list of active formatting elements *)

(** Whether two nodes are elements of the same tag with the same attributes. *)
Definition identical (h : list (option GumboNode)) (n m : nat) : bool :=
  match element_at h n, element_at h m with
  | Some d, Some e =>
      bool_decide (el_tag e = el_tag d) && bool_decide (tag_namespace e = tag_namespace d) &&
      match all_attributes_match (el_attributes e) (el_attributes d) with Ok b => b | _ => false end
  | _, _ => false
  end.

(** The entries after the last marker, the last one first. *)
Fixpoint since_marker (l : list nat) : list nat :=
  match l with [] => [] | n :: l => if is_marker n then [] else n :: since_marker l end.

(** How many of them are identical to [n]. *)
Definition copies (h : list (option GumboNode)) (n : nat) (elements : list nat) : nat :=
  length (filter (fun m => identical h n m = true) (since_marker (rev elements))).

Lemma since_marker_take (l : list nat) i n :
  l !! i = Some n -> rev (take (S i) l) = n :: rev (take i l).
Proof. intros H. by rewrite (take_S_r _ _ _ H), rev_unit. Qed.

Lemma copies_S h n l i x :
  l !! i = Some x ->
  copies h n (take (S i) l) =
    if is_marker x then 0%nat else ((if identical h n x then 1 else 0) + copies h n (take i l))%nat.
Proof.
  intros H. unfold copies. rewrite (since_marker_take _ _ _ H). cbn [since_marker]. destruct (is_marker x); [done|].
  rewrite filter_cons. destruct (identical h n x); [by rewrite decide_True|by rewrite decide_False].
Qed.

(** The test of one entry of the list. *)
Lemma formatting_test_inv n d x node same_tag e same p p1 p2 p3 :
  element_at (heap p) n = Some d -> heap p !! x = Some (Some node) -> n_type node = GUMBO_NODE_ELEMENT ->
  node_qualified_tag_is (Some x) (tag_namespace d) (el_tag d) p = Ok (p1, same_tag) ->
  lift (v_element node) p1 = Ok (p2, e) ->
  (if (same_tag : bool) then lift (all_attributes_match (el_attributes e) (el_attributes d)) else mret false) p2 = Ok (p3, same) ->
  p3 = p /\ same = identical (heap p) n x.
Proof.
  intros Hd Hx Ht H1 H2 H3. pose proof (node_qualified_tag_is_reads _ _ _ _ _ _ H1) as ->.
  apply lift_inv in H2 as [-> He]. unfold v_element in He. destruct (n_v node) as [|e'|] eqn:Hv; try done. injection He as ->.
  unfold node_qualified_tag_is in H1. step H1. apply assert_inv in E as [-> _]. step H1 as node'.
  apply deref_inv in E as (-> & ? & [= <-] & Hn'). rewrite Hx in Hn'. injection Hn' as <-. rewrite Ht in H1. cbn [is_element_type negb] in H1.
  step H1 as e'. apply lift_inv in E as [-> He']. unfold v_element in He'. rewrite Hv in He'. injection He' as <-.
  apply ret_inv in H1 as [_ ->].
  assert (Hex : element_at (heap p) x = Some e) by (unfold element_at; by rewrite Hx, Hv, Ht).
  unfold identical. rewrite Hd, Hex. destruct (_ && _); cbn [andb].
  - by apply lift_inv in H3 as [-> ->].
  - by apply ret_inv in H3 as [-> ->].
Qed.

(** The entry [i] of the list is [x], the earliest of those after the last marker that
    are identical to [n]. *)
Definition first_copy (h : list (option GumboNode)) (n : nat) (l : list nat) (i x : nat) : Prop :=
  l !! i = Some x /\ identical h n x = true /\ (forall j y, (i <= j)%nat -> l !! j = Some y -> is_marker y = false) /\
  forall j y, (j < i)%nat -> l !! j = Some y -> identical h n y = true ->
    exists k z, (j <= k < i)%nat /\ l !! k = Some z /\ is_marker z = true.

Lemma take_S_lookup (l : list nat) i x j y :
  l !! i = Some x -> take (S i) l !! j = Some y -> j = i /\ y = x \/ (j < i)%nat /\ take i l !! j = Some y.
Proof.
  intros Hx [Hj Hlt]%lookup_take_Some. destruct (decide (j = i)) as [->|]; [left; by simplify_eq|right].
  split; [lia|]. apply lookup_take_Some. split; [done|lia].
Qed.

(** One more entry that is no marker, and identical or not. *)
Lemma first_copy_S h n l i x e z :
  l !! i = Some x -> is_marker x = false -> first_copy h n (take i l) e z -> first_copy h n (take (S i) l) e z.
Proof.
  intros Hx Hm (He & Hid & Hafter & Hbefore). pose proof He as [He' Hlt]%lookup_take_Some.
  assert (Hup : forall j y, take i l !! j = Some y -> take (S i) l !! j = Some y).
  { intros j y [Hj ?]%lookup_take_Some. apply lookup_take_Some. split; [done|lia]. }
  split_and!; [by apply Hup|done|..].
  - intros j y Hj [[-> ->]|[_ Hy]]%(take_S_lookup l i x j y Hx); [done|by apply (Hafter j)].
  - intros j y Hj Hy Hiy. apply (take_S_lookup l i x j y Hx) in Hy as [[-> ->]|[_ Hy]]; [lia|].
    destruct (Hbefore j y Hj Hy Hiy) as (k & w & Hk & Hw & Hmw). exists k, w. split_and!; try done; try lia. by apply Hup.
Qed.

(** The loop stops before the entry [i]: it is the first copy if no entry before it is
    one, up to a marker. *)
Lemma copies_0 h n l : copies h n l = 0%nat ->
  forall j y, l !! j = Some y -> identical h n y = true -> exists k z, (j <= k)%nat /\ l !! k = Some z /\ is_marker z = true.
Proof.
  induction l as [|x l IH] using rev_ind; intros H j y Hj Hy; [done|]. destruct (is_marker x) eqn:Hm.
  - exists (length l), x. split_and!; [|by rewrite lookup_app_r, Nat.sub_diag by lia|done].
    apply lookup_lt_Some in Hj. rewrite length_app in Hj. cbn in Hj. lia.
  - unfold copies in H. rewrite rev_unit in H. cbn [since_marker] in H. rewrite Hm, filter_cons in H. case_decide as Hi; [done|].
    apply lookup_app_Some in Hj as [Hj|[Hge Hj]].
    + destruct (IH H j y Hj Hy) as (k & z & ? & Hk & ?). exists k, z. split_and!; try done. by apply lookup_app_l_Some.
    + apply list_lookup_singleton_Some in Hj as [_ <-]. congruence.
Qed.

Lemma first_copy_here h n l i x :
  l !! i = Some x -> is_marker x = false -> identical h n x = true -> copies h n (take i l) = 0%nat ->
  first_copy h n (take (S i) l) i x.
Proof.
  intros Hx Hm Hid Hc. split_and!; [by apply lookup_take_Some; split; [|lia]|done|..].
  - intros j y Hj [[-> ->]|[? _]]%(take_S_lookup l i x j y Hx); [done|lia].
  - intros j y Hj [[-> ->]|[_ Hy]]%(take_S_lookup l i x j y Hx) Hiy; [lia|].
    destruct (copies_0 h n _ Hc j y Hy Hiy) as (k & z & Hk & Hz & Hmz). exists k, z.
    apply lookup_take_Some in Hz as [Hz Hki]. split_and!; try done. apply lookup_take_Some. split; [done|lia].
Qed.

(** What the loop counts, and where it finds the first identical entry. *)
Lemma count_formatting_loop_spec n d l i num earliest p p' num' earliest' :
  element_at (heap p) n = Some d ->
  count_formatting_loop d l i num earliest p = Ok (p', (num', earliest')) -> (i <= length l)%nat ->
  num' = num + Z.of_nat (copies (heap p) n (take i l)) /\
  (num' = num /\ earliest' = earliest \/
   exists x, first_copy (heap p) n (take i l) earliest' x).
Proof.
  intros Hd. revert num earliest; induction i as [|i IH]; intros num earliest H Hi; cbn [count_formatting_loop] in H.
  { apply ret_inv in H as [_ [= -> ->]]. split; [by rewrite Z.add_0_r|by left]. }
  step H as x. apply lift_inv in E as [-> Hx]. unfold load in Hx. destruct (l !! i) as [y|] eqn:Hy; [|done].
  injection Hx as ->. rewrite (copies_S _ _ _ _ _ Hy).
  destruct (is_marker x) eqn:Hm; [apply ret_inv in H as [_ [= -> ->]]; split; [by rewrite Z.add_0_r|by left]|].
  step H as node. apply deref_inv in E as (-> & ? & [= <-] & Hn). step H. apply assert_inv in E as [-> Ht%bool_decide_eq_true_1].
  step H as same_tag. step H as e. step H as same. destruct (formatting_test_inv _ _ _ _ _ _ _ _ _ _ _ Hd Hn Ht E E0 E1) as [-> ->].
  destruct (identical (heap p) n x) eqn:Hid; apply IH in H as [Hnum Hor]; [|lia| |lia].
  - split; [lia|right]. destruct Hor as [[Hsame ->]|(z & Hz)]; [|exists z; by eapply first_copy_S].
    exists x. apply first_copy_here; [done..|]. lia.
  - split; [lia|]. destruct Hor as [|(z & Hz)]; [by left|right]. exists z. by eapply first_copy_S.
Qed.

Lemma since_marker_app a b : Forall (fun n => is_marker n = false) a -> since_marker (a ++ b) = a ++ since_marker b.
Proof. induction 1 as [|n a Hn _ IH]; [done|]. cbn. by rewrite Hn, IH. Qed.

(** An identical entry after the last marker is removed. *)
Lemma copies_remove h n l i x :
  l !! i = Some x -> identical h n x = true -> is_marker x = false ->
  (forall j y, (i <= j < length l)%nat -> l !! j = Some y -> is_marker y = false) ->
  copies h n l = S (copies h n (take i l ++ drop (S i) l)).
Proof.
  intros Hx Hid Hm Hall. assert (Hlt : (i < length l)%nat) by (by apply lookup_lt_Some in Hx).
  assert (Hd : Forall (fun y => is_marker y = false) (rev (drop (S i) l))).
  { apply Forall_rev, Forall_lookup. intros j y. rewrite lookup_drop. intros Hy. apply (Hall (S i + j)%nat); [|done].
    apply lookup_lt_Some in Hy. lia. }
  unfold copies. rewrite <- (take_drop_middle _ _ _ Hx) at 1. rewrite !rev_app_distr. cbn [rev]. rewrite <- app_assoc. cbn [app].
  rewrite !since_marker_app by done. cbn [since_marker]. rewrite Hm, !filter_app, !length_app, filter_cons, decide_True by done.
  cbn [length]. lia.
Qed.

Lemma copies_snoc h n l x : is_marker x = false -> (copies h n (l ++ [x]) <= S (copies h n l))%nat.
Proof.
  intros Hm. unfold copies. rewrite rev_unit. cbn [since_marker]. rewrite Hm, filter_cons. case_decide; cbn [length]; lia.
Qed.

(** The comparison of elements ends. *)
Lemma strcasecmp_total a b : exists r, strcasecmp a b = Ok r.
Proof.
  unfold strcasecmp. rewrite Nat.add_1_r. revert b; induction a as [|x a IH]; intros [|y b]; cbn; eauto;
    repeat (case_match; eauto).
Qed.

Lemma gumbo_get_attribute_total attrs nm :
  exists i, Parser.gumbo_get_attribute attrs nm = Ok i /\ match i with Some i => (i < length attrs)%nat | None => True end.
Proof.
  induction attrs as [|a attrs IH]; [by exists None|]. cbn [Parser.gumbo_get_attribute].
  destruct (strcasecmp_total (name a) nm) as [r ->]. rewrite bind_Ok. destruct (r =? 0).
  - exists (Some 0%nat). split; [done|]. cbn. lia.
  - destruct IH as (i & -> & Hi). rewrite bind_Ok. exists (option_map S i). split; [done|]. destruct i; [cbn; lia|done].
Qed.

Lemma all_attributes_match_total a b : exists r, all_attributes_match a b = Ok r.
Proof.
  unfold all_attributes_match. generalize (Z.of_nat (length b)). induction a as [|x a IH]; intros k; cbn; [eauto|].
  unfold attribute_matches_case_sensitive. destruct (gumbo_get_attribute_total b (name x)) as ([i|] & -> & Hi); rewrite bind_Ok; [|by eauto].
  destruct (load_lt b i Hi) as (y & -> & _). rewrite !bind_Ok. case_match; [apply IH|eauto].
Qed.

(** An element that is no template. *)
Definition is_plain_element (h : list (option GumboNode)) (n : nat) : Prop :=
  exists node e, h !! n = Some (Some node) /\ n_type node = GUMBO_NODE_ELEMENT /\ n_v node = VElement e.

Lemma count_formatting_loop_total d l i num earliest p :
  Forall (is_plain_element (heap p)) (since_marker (rev (take i l))) -> (i <= length l)%nat ->
  exists r, count_formatting_loop d l i num earliest p = Ok (p, r).
Proof.
  revert num earliest; induction i as [|i IH]; intros num earliest HF Hi; cbn [count_formatting_loop]; [by eexists|].
  destruct (load_lt l i) as (x & Hload & Hx); [lia|]. rewrite Hload. cbn [lift]. rewrite (pbind_Ok (lift (Ok x)) _ p p x eq_refl).
  rewrite (since_marker_take _ _ _ Hx) in HF. cbn [since_marker] in HF. destruct (is_marker x); [by eexists|].
  apply Forall_cons in HF as [(node & e & Hn & Ht & Hv) HF].
  rewrite (pbind_Ok _ _ _ _ _ (deref_Ok _ _ _ Hn)). rewrite Ht, (pbind_Ok (assert true) _ p p tt eq_refl).
  assert (Hq : exists b, node_qualified_tag_is (Some x) (tag_namespace d) (el_tag d) p = Ok (p, b)).
  { unfold node_qualified_tag_is. rewrite (pbind_Ok (assert true) _ p p tt eq_refl), (pbind_Ok _ _ _ _ _ (deref_Ok _ _ _ Hn)), Ht.
    cbn. unfold v_element. rewrite Hv. by eexists. }
  destruct Hq as [same_tag Hq]. rewrite (pbind_Ok _ _ _ _ _ Hq). unfold v_element. rewrite Hv, (pbind_Ok (lift (Ok e)) _ p p e eq_refl).
  assert (Hs : exists same, (if same_tag then lift (all_attributes_match (el_attributes e) (el_attributes d)) else mret false) p = Ok (p, same)).
  { destruct same_tag; [|by eexists]. destruct (all_attributes_match_total (el_attributes e) (el_attributes d)) as [r ->]. by eexists. }
  destruct Hs as [same Hs]. rewrite (pbind_Ok _ _ _ _ _ Hs). destruct same; apply IH; [done|lia|done|lia].
Qed.

Lemma first_copy_range h n l i x :
  first_copy h n l i x -> l !! i = Some x /\ identical h n x = true /\ is_marker x = false /\
    (forall j y, (i <= j < length l)%nat -> l !! j = Some y -> is_marker y = false).
Proof. intros (Hx & Hid & Hall & _). split_and!; [done|done|by apply (Hall i)|]. intros j y [Hj _]. by apply Hall. Qed.

(** C13: the list of active formatting elements (the rule called Noah's Ark).  Adding
    an element to a list whose entries after the last marker are elements returns and
    changes nothing but the list.  With fewer than three entries after the last marker
    that have the same tag and attributes, the element is appended; otherwise the
    earliest of them is removed before.  So one step never makes a fourth identical
    entry. *)
Theorem noahs_ark n p :
  let h := heap p in let l := _active_formatting_elements p in
  is_marker n = false -> is_plain_element h n -> Forall (is_plain_element h) (since_marker (rev l)) ->
  exists l', add_formatting_element n p = Ok (set_active_formatting_elements (l' ++ [n]) p, tt) /\
    (if (copies h n l <? 3)%nat then l' = l
     else exists i x, first_copy h n l i x /\ l' = take i l ++ drop (S i) l) /\
    ((copies h n l <= 3)%nat -> (copies h n (l' ++ [n]) <= 3)%nat).
Proof.
  intros h l Hm (node & d & Hn & Ht & Hv) HF. unfold add_formatting_element.
  rewrite (pbind_Ok _ _ _ _ _ (deref_Ok _ _ _ Hn)). rewrite Ht, orb_true_r, (pbind_Ok (assert true) _ p p tt eq_refl).
  rewrite (pbind_Ok (get _active_formatting_elements) _ p p l eq_refl).
  assert (Hd : element_at h n = Some d) by (unfold element_at; by rewrite Hn, Hv, Ht).
  assert (Hel : element (Some n) p = Ok (p, d)).
  { unfold element. rewrite (pbind_Ok _ _ _ _ _ (deref_Ok _ _ _ Hn)). unfold v_element. by rewrite Hv. }
  destruct (count_formatting_loop_total d l (length l) 0 (length l) p) as [[num earliest] Hc]; [by rewrite take_ge|lia|].
  assert (Hcount : count_formatting_elements_of_tag n (length l) p = Ok (p, (num, earliest))).
  { unfold count_formatting_elements_of_tag. rewrite (pbind_Ok _ _ _ _ _ Hel).
    by rewrite (pbind_Ok (get _active_formatting_elements) _ p p l eq_refl). }
  rewrite (pbind_Ok _ _ _ _ _ Hcount). eapply count_formatting_loop_spec in Hc as [Hnum Hor]; [|exact Hd|lia].
  rewrite take_ge in Hor, Hnum by lia. fold h in Hnum, Hor. rewrite Z.add_0_l in Hnum.
  destruct (Nat.ltb_spec (copies h n l) 3) as [Hlt|Hge].
  - replace (3 <=? num) with false by (symmetry; apply Z.leb_gt; lia). exists l. split; [by destruct p|]. split; [done|].
    intros _. pose proof (copies_snoc h n l n Hm). lia.
  - replace (3 <=? num) with true by (symmetry; apply Z.leb_le; lia). destruct Hor as [[? _]|(x & Hx)]; [lia|].
    destruct (first_copy_range _ _ _ _ _ Hx) as (Hex & Hid & Hmx & Hall).
    exists (take earliest l ++ drop (S earliest) l). split; [|split; [eauto|]].
    + cbn [when]. unfold gumbo_vector_remove_at. replace (earliest <? length l)%nat with true; [done|].
      symmetry. apply Nat.ltb_lt. by apply lookup_lt_Some in Hex.
    + intros H3. pose proof (copies_snoc h n (take earliest l ++ drop (S earliest) l) n Hm).
      rewrite (copies_remove h n l earliest x) in H3 by done. lia.
Qed.

(** * The depth of the calls *)

(** The token the handlers are given. *)
Definition tok (p : GumboParser) : GumboToken := _output (tokenizer_state p).

(** The tokens for which a handler calls another. *)
Definition html_start (token : GumboToken) : bool := tag_is token kStartTag GUMBO_TAG_HTML.
Definition for_head (token : GumboToken) : bool :=
  tag_in token kStartTag [TAG GUMBO_TAG_BASE; TAG GUMBO_TAG_BASEFONT; TAG GUMBO_TAG_BGSOUND; TAG GUMBO_TAG_MENUITEM;
    TAG GUMBO_TAG_LINK; TAG GUMBO_TAG_META; TAG GUMBO_TAG_NOFRAMES; TAG GUMBO_TAG_SCRIPT; TAG GUMBO_TAG_STYLE;
    TAG GUMBO_TAG_TEMPLATE; TAG GUMBO_TAG_TITLE] || tag_is token kEndTag GUMBO_TAG_TEMPLATE.
Definition for_template_head (token : GumboToken) : bool :=
  tag_in token kStartTag [TAG GUMBO_TAG_BASE; TAG GUMBO_TAG_BASEFONT; TAG GUMBO_TAG_BGSOUND; TAG GUMBO_TAG_LINK;
    TAG GUMBO_TAG_META; TAG GUMBO_TAG_NOFRAMES; TAG GUMBO_TAG_SCRIPT; TAG GUMBO_TAG_STYLE; TAG GUMBO_TAG_TEMPLATE;
    TAG GUMBO_TAG_TITLE] || tag_is token kEndTag GUMBO_TAG_TEMPLATE.
Definition is_text (token : GumboToken) : bool :=
  is_type token GUMBO_TOKEN_WHITESPACE || is_type token GUMBO_TOKEN_CHARACTER || is_type token GUMBO_TOKEN_COMMENT ||
  is_type token GUMBO_TOKEN_NULL || is_type token GUMBO_TOKEN_DOCTYPE.
Definition is_eof (token : GumboToken) : bool := is_type token GUMBO_TOKEN_EOF.

Ltac same_branch :=
  repeat match goal with |- (if ?c then _ else _) _ = (if ?c then _ else _) _ => destruct c eqn:? end; try done.

Lemma get_token_Ok {A} (k : GumboToken -> parser A) p : (get_token ≫= k) p = k (tok p) p.
Proof. done. Qed.

Lemma in_head_cong f g p : (html_start (tok p) = true -> f p = g p) -> in_head f p = in_head g p.
Proof. intros H. unfold in_head. rewrite !get_token_Ok. same_branch. by apply H. Qed.

Lemma in_template_cong b b' h h' p :
  (is_text (tok p) = true -> b p = b' p) -> (for_template_head (tok p) = true -> h p = h' p) ->
  in_template b h p = in_template b' h' p.
Proof. intros Hb Hh. unfold in_template. rewrite !get_token_Ok. same_branch; [by apply Hb|by apply Hh]. Qed.

(** The errors do not change the token. *)
Lemma add_parse_error_tok token p p' u : parser_add_parse_error token p = Ok (p', u) -> tok p' = tok p.
Proof.
  intros H. unfold parser_add_parse_error, add_parse_error in H. step H as it. apply reads_get in E as ->.
  destruct (errors_full it); [by apply ret_inv in H as [-> _]|]. step H. apply reads_get in E as ->.
  step H. apply reads_get in E as ->. step H. apply tags_of_reads in E as ->. by injection H as <- _.
Qed.

Lemma errors_for_open_tok token tags l p p' u : errors_for_open token tags l p = Ok (p', u) -> tok p' = tok p.
Proof.
  revert p; induction l as [|n l IH]; intros p H; cbn [errors_for_open] in H; [by apply ret_inv in H as [-> _]|].
  step H as b. apply node_tag_in_set_reads in E as ->. step H. apply IH in H as ->.
  destruct b; [by apply ret_inv in E as [-> _]|]. by apply add_parse_error_tok in E.
Qed.

Lemma pbind_cong {A B} (m : parser A) (k k' : A -> parser B) p :
  (forall p' a, m p = Ok (p', a) -> k a p' = k' a p') -> (m ≫= k) p = (m ≫= k') p.
Proof. intros H. unfold mbind, parser_bind. destruct (m p) as [[p' a]| |]; [by apply H|done..]. Qed.

Lemma body_eof_cong t t' token p :
  (forall q, tok q = tok p -> t q = t' q) -> body_eof t token p = body_eof t' token p.
Proof.
  intros Ht. unfold body_eof. apply pbind_cong. intros q l ->%reads_get. apply pbind_cong. intros q [] Hq%errors_for_open_tok.
  apply pbind_cong. intros q' mode ->%reads_get. same_branch. by apply Ht.
Qed.

Lemma in_body_cong h h' t t' p :
  (for_head (tok p) = true -> h p = h' p) -> (is_eof (tok p) = true -> forall q, tok q = tok p -> t q = t' q) ->
  in_body h t p = in_body h' t' p.
Proof.
  intros Hh Ht. unfold in_body. rewrite !get_token_Ok. apply pbind_cong. intros q l ->%reads_get.
  apply pbind_cong. intros q [] [-> _]%assert_inv. unfold body_text. same_branch; [by apply Hh|].
  apply body_eof_cong. by apply Ht.
Qed.

(** What kind of token it is decides which handler is called. *)
Lemma html_not_for_head token : html_start token = true -> for_head token = false /\ is_eof token = false.
Proof.
  unfold html_start, for_head, is_eof, tag_in, tag_is, is_type, kStartTag, kEndTag.
  destruct (ttype token), (tv token); try done. intros ->%bool_decide_eq_true_1. done.
Qed.
Lemma for_head_not_html token : for_head token = true \/ for_template_head token = true -> html_start token = false.
Proof.
  unfold html_start, for_head, for_template_head, tag_in, tag_is, kStartTag, kEndTag.
  destruct (ttype token), (tv token); try done. intros H. apply bool_decide_eq_false_2. intros E. rewrite E in H. by destruct H.
Qed.
Lemma eof_no_call token : is_eof token = true -> is_text token = false /\ for_template_head token = false.
Proof.
  unfold is_eof, is_text, for_template_head, is_type, tag_in, tag_is, kStartTag, kEndTag.
  by destruct (ttype token).
Qed.
Lemma text_no_call token : is_text token = true -> for_head token = false /\ is_eof token = false.
Proof.
  unfold is_eof, is_text, for_head, is_type, tag_in, tag_is, kStartTag, kEndTag. by destruct (ttype token).
Qed.

(** [handle_in_head], [handle_in_body] and [handle_in_template] call one another,
    but a call of a call calls none of them: the recursion ends at depth two for every
    token and every state, so that the depth of the model is never reached. *)
Theorem handle_depth n h p : handle (2 + n) h p = handle 2 h p.
Proof.
  destruct h; cbn [Nat.add handle].
  - apply in_head_cong. intros [H1 H2]%html_not_for_head. destruct n; [done|]. cbn [handle]. apply in_body_cong; congruence.
  - apply in_body_cong.
    + intros H. destruct n; [done|]. cbn [handle]. apply in_head_cong. rewrite for_head_not_html; [done|by left].
    + intros [H1 H2]%eof_no_call q Hq. destruct n; [done|]. cbn [handle]. apply in_template_cong; congruence.
  - apply in_template_cong.
    + intros [H1 H2]%text_no_call. destruct n; [done|]. cbn [handle]. apply in_body_cong; congruence.
    + intros H. destruct n; [done|]. cbn [handle]. apply in_head_cong. rewrite for_head_not_html; [done|by right].
Qed.

(** * Concrete states *)

(** An element of a tag, without attributes and children. *)
Definition plain (tag : GumboTag) : option GumboNode :=
  let pos := Pos 0 0 0 in
  Some (Node GUMBO_NODE_ELEMENT None (-1) 0 (VElement (Element [] tag GUMBO_NAMESPACE_HTML None None pos pos []))).

(** A paragraph in a table cell in a paragraph. *)
Definition nested : GumboParser :=
  set_open_elements [1; 2; 3; 4]%nat
    (set_heap [Some marker_node; plain GUMBO_TAG_HTML; plain GUMBO_TAG_P; plain GUMBO_TAG_TD; plain GUMBO_TAG_B]
      TreeModes.blank_parser).

(** [has_an_element_in_specific_scope_spec] applies to it: the cell hides the paragraph. *)
Lemma has_an_element_in_specific_scope_spec_witness :
  has_an_element_in_scope GUMBO_TAG_P nested = Ok (nested, false) /\
  ~ in_scope (heap nested) [GUMBO_TAG_P] false default_scope (rev (_open_elements nested)).
Proof.
  destruct (has_an_element_in_specific_scope_spec [GUMBO_TAG_P] false default_scope nested) as (b & H & Hb).
  - repeat constructor; eexists; reflexivity.
  - assert (b = false) as -> by (vm_compute in H; congruence). split; [exact H|]. intros Hin. apply Hb in Hin. discriminate.
Defined.

(** Three identical elements in the list, and a fourth one. *)
Definition three_bold : GumboParser :=
  set_active_formatting_elements [1; 2; 3]%nat
    (set_heap [Some marker_node; plain GUMBO_TAG_B; plain GUMBO_TAG_B; plain GUMBO_TAG_B; plain GUMBO_TAG_B]
      TreeModes.blank_parser).

(** [noahs_ark] applies to them: the first one leaves the list. *)
Lemma noahs_ark_witness :
  exists l', add_formatting_element 4 three_bold = Ok (set_active_formatting_elements (l' ++ [4%nat]) three_bold, tt) /\
    l' = [2; 3]%nat /\ (copies (heap three_bold) 4 (l' ++ [4%nat]) <= 3)%nat.
Proof.
  destruct (noahs_ark 4 three_bold) as (l' & H1 & H2 & H3).
  - reflexivity.
  - eexists _, _. split; [reflexivity|]. split; reflexivity.
  - repeat constructor; eexists _, _; (split; [reflexivity|]); split; reflexivity.
  - exists l'. split; [exact H1|]. split; [|apply H3; vm_compute; lia].
    assert (E : Ok (set_active_formatting_elements ([2; 3]%nat ++ [4%nat]) three_bold, tt) =
                Ok (set_active_formatting_elements (l' ++ [4%nat]) three_bold, tt)) by (rewrite <- H1; vm_compute; reflexivity).
    injection E as E. symmetry. by apply (app_inj_tail [2; 3]%nat l' 4%nat 4%nat) in E as [-> _].
Defined.

End TreeSpec.
