(* ===== verification/GumboPage.v ===== *)
(** Releasing and reading the tree that the HTML parser has built, and the crawler on
    top of it: tool.c, crawl_parse_parse.

    [subtree] and [view] read the heap of the parser: the nodes below a node, and the
    tree that Crawl.v works on.  Both fail on a heap whose pointers run in a circle, so
    that their success says that the tree is finite. *)
From Stdlib Require Import Strings.String Strings.Ascii.
From stdpp Require Import relations gmap.
From S2P Require Import Prelude Buff GumboTags Crawl GumboBase Utf8 CharRef GumboLexer GumboLexerRuns GumboParser GumboModes GumboTree GumboTreeModes.
Import Buff Tags GumboBase Utf8 CharRef Lexer Parser Modes Tree.

Module Page.

(** * Finite trees *)

(** The nodes below [n], itself first. *)
Fixpoint subtree (fuel : nat) (h : list (option GumboNode)) (n : nat) : option (list nat) :=
  match fuel with
  | O => None
  | S fuel =>
      match h !! n with
      | Some (Some node) => ls ← mapM (subtree fuel h) (node_children node); Some (n :: concat ls)
      | _ => None
      end
  end.

(** The ancestor [k] levels above. *)
Fixpoint up (h : list (option GumboNode)) (k : nat) (n : nat) : option nat :=
  match k with
  | O => Some n
  | S k => match link h n with Some (Some q, _) => up h k q | _ => None end
  end.

Lemma up_add h j k n : up h (j + k) n = m ← up h j n; up h k m.
Proof. revert n; induction j as [|j IH]; intros n; [done|]. cbn. destruct (link h n) as [[[q|] i]|]; [apply IH|done..]. Qed.

Lemma subtree_S fuel h n l :
  subtree (S fuel) h n = Some l ->
  exists ls, Forall2 (fun c l => subtree fuel h c = Some l) (kids h n) ls /\ l = n :: concat ls.
Proof.
  cbn. unfold kids. destruct (h !! n) as [[node|]|]; [|done..].
  destruct (mapM (subtree fuel h) (node_children node)) as [ls|] eqn:E; [|done]. intros [= <-].
  exists ls. split; [|done]. by apply mapM_Some.
Qed.

(** A node that is above itself has no finite tree. *)
Lemma cycle_infinite exact h fuel n k : tree_ok exact h -> up h (S k) n = Some n -> subtree fuel h n = None.
Proof.
  intros Ht. revert n; induction fuel as [|fuel IH]; intros n Hn; [done|].
  destruct (subtree (S fuel) h n) as [l|] eqn:E; [|done]. apply subtree_S in E as (ls & Hls & _).
  replace (S k) with (k + 1)%nat in Hn by lia. rewrite up_add in Hn. destruct (up h k n) as [c|] eqn:Hc; [|done]. cbn in Hn.
  destruct (link h c) as [[[q|] i]|] eqn:Hl; [|done..]. injection Hn as ->. apply (tree_parent Ht) in Hl as Hin.
  apply list_elem_of_lookup in Hin as [j Hj]. destruct (Forall2_lookup_l _ _ _ _ _ Hls Hj) as (lc & _ & Hlc).
  rewrite IH in Hlc; [done|]. cbn. by rewrite Hl.
Qed.

Lemma subtree_up exact h fuel n l x : tree_ok exact h -> subtree fuel h n = Some l -> x ∈ l -> exists k, up h k x = Some n.
Proof.
  intros Ht. revert n l; induction fuel as [|fuel IH]; intros n l H Hx; [done|].
  apply subtree_S in H as (ls & Hls & ->). apply elem_of_cons in Hx as [->|Hx]; [by exists O|].
  apply list_elem_of_In, in_concat in Hx as (lc & Hlc & Hx). apply list_elem_of_In in Hlc, Hx.
  apply list_elem_of_lookup in Hlc as [j Hj]. destruct (Forall2_lookup_r _ _ _ _ _ Hls Hj) as (c & Hc & Hs).
  destruct (IH c lc Hs Hx) as [k Hk]. exists (k + 1)%nat. rewrite up_add, Hk. cbn.
  destruct (tree_child Ht Hc) as (i & -> & _). done.
Qed.

(** Two children of a node with a finite tree have no node in common. *)
Lemma subtree_disjoint exact h fuel n l c1 c2 l1 l2 fuel1 fuel2 x :
  tree_ok exact h -> subtree fuel h n = Some l -> c1 ∈ kids h n -> c2 ∈ kids h n ->
  subtree fuel1 h c1 = Some l1 -> subtree fuel2 h c2 = Some l2 -> x ∈ l1 -> x ∈ l2 -> c1 = c2.
Proof.
  intros Ht Hl Hc1 Hc2 H1 H2 Hx1 Hx2. destruct (subtree_up _ _ _ _ _ _ Ht H1 Hx1) as [k1 Hk1].
  destruct (subtree_up _ _ _ _ _ _ Ht H2 Hx2) as [k2 Hk2].
  assert (Hcyc : forall c d i j, c ∈ kids h n -> d ∈ kids h n -> up h i x = Some c -> up h (i + S j) x = Some d -> False).
  { intros c d i j [ic Hc]%(tree_in Ht) [id Hd]%(tree_in Ht) Hi Hj. rewrite up_add, Hi in Hj. cbn in Hj. rewrite Hc in Hj.
    assert (Hn : up h (S j) n = Some n) by (replace (S j) with (j + 1)%nat by lia; rewrite up_add, Hj; cbn; by rewrite Hd).
    rewrite (cycle_infinite _ _ fuel _ _ Ht Hn) in Hl. done. }
  destruct (lt_eq_lt_dec k1 k2) as [[Hlt|<-]|Hlt]; [|congruence|]; exfalso.
  - apply (Hcyc c1 c2 k1 (k2 - k1 - 1)%nat); [done..|]. by replace (k1 + S (k2 - k1 - 1))%nat with k2 by lia.
  - apply (Hcyc c2 c1 k2 (k1 - k2 - 1)%nat); [done..|]. by replace (k2 + S (k1 - k2 - 1))%nat with k1 by lia.
Qed.

Lemma NoDup_concat_Forall2 (P : nat -> list nat -> Prop) cs ls :
  Forall2 P cs ls -> NoDup cs -> (forall c l, c ∈ cs -> P c l -> NoDup l) ->
  (forall c1 c2 l1 l2 x, c1 ∈ cs -> c2 ∈ cs -> P c1 l1 -> P c2 l2 -> x ∈ l1 -> x ∈ l2 -> c1 = c2) -> NoDup (concat ls).
Proof.
  induction 1 as [|c l cs ls Hcl Hls IH]; intros Hnd Hl Hd; cbn; [constructor|]. apply NoDup_cons in Hnd as [Hc Hnd].
  apply NoDup_app. split; [by apply (Hl c); [apply elem_of_cons; left|]|]. split.
  - intros x Hx Hin. apply list_elem_of_In, in_concat in Hin as (l' & Hl' & Hx'). apply list_elem_of_In in Hl', Hx'.
    apply list_elem_of_lookup in Hl' as [j Hj]. destruct (Forall2_lookup_r _ _ _ _ _ Hls Hj) as (c' & Hc' & Hp).
    apply list_elem_of_lookup_2 in Hc'. apply Hc. rewrite (Hd c c' l l' x); [done| | |done..]; apply elem_of_cons; auto.
  - apply IH; [done|intros c' l' Hc'|intros c1 c2 l1 l2 x H1 H2].
    + apply Hl. by apply elem_of_cons; right.
    + apply Hd; by apply elem_of_cons; right.
Qed.

Lemma subtree_nodup exact h fuel n l : tree_ok exact h -> subtree fuel h n = Some l -> NoDup l.
Proof.
  intros Ht. revert n l; induction fuel as [|fuel IH]; intros n l H; [done|].
  pose proof H as H'. apply subtree_S in H' as (ls & Hls & ->). apply NoDup_cons. split.
  - intros Hx. apply list_elem_of_In, in_concat in Hx as (lc & Hlc & Hx). apply list_elem_of_In in Hlc, Hx.
    apply list_elem_of_lookup in Hlc as [j Hj]. destruct (Forall2_lookup_r _ _ _ _ _ Hls Hj) as (c & Hc & Hs).
    destruct (subtree_up _ _ _ _ _ _ Ht Hs Hx) as [k Hk]. destruct (tree_child Ht Hc) as (i & Hi & _).
    assert (Hn : up h (S k) n = Some n) by (replace (S k) with (k + 1)%nat by lia; rewrite up_add, Hk; cbn; by rewrite Hi).
    by rewrite (cycle_infinite _ _ _ _ _ Ht Hn) in H.
  - eapply (NoDup_concat_Forall2 (fun c l => subtree fuel h c = Some l)); [done|apply (tree_nodup Ht)|eauto|].
    intros c1 c2 l1 l2 x Hc1 Hc2 H1 H2. exact (subtree_disjoint _ _ _ _ _ _ _ _ _ _ _ x Ht H Hc1 Hc2 H1 H2).
Qed.

(** * Reading a tree *)

(** A node as the crawler sees it. *)
Definition view_node (node : GumboNode) (children : list Crawl.GumboNode) : Crawl.GumboNode :=
  match n_v node with
  | VDocument _ => Crawl.NODE_DOCUMENT children
  | VElement e =>
      match n_type node with
      | GUMBO_NODE_TEMPLATE => Crawl.NODE_TEMPLATE (el_tag e) children
      | _ => Crawl.NODE_ELEMENT (el_tag e) children
      end
  | VTextNode t =>
      match n_type node with
      | GUMBO_NODE_TEXT => Crawl.NODE_TEXT (c_string (text t))
      | GUMBO_NODE_CDATA => Crawl.NODE_CDATA (text t)
      | GUMBO_NODE_COMMENT => Crawl.NODE_COMMENT (text t)
      | _ => Crawl.NODE_WHITESPACE (text t)
      end
  end.

Fixpoint view (fuel : nat) (h : list (option GumboNode)) (n : nat) : option Crawl.GumboNode :=
  match fuel with
  | O => None
  | S fuel =>
      match h !! n with
      | Some (Some node) => children ← mapM (view fuel h) (node_children node); Some (view_node node children)
      | _ => None
      end
  end.

(** * The tree of a document is finite *)
Section finite.
Context (exact : bool) (h : list (option GumboNode)) (Ht : tree_ok exact h) (Hd : doc_ok h).

Lemma up_document k : up h (S k) the_document = None.
Proof. destruct Hd as [_ Ha]. unfold above in Ha. cbn. by destruct (link h the_document) as [[[q|] i]|]. Qed.

Lemma up_alive k n m : up h k n = Some the_document -> up h m n <> None -> (default 0 (up h m n) < length h)%nat.
Proof.
  intros Hk Hm. destruct (up h m n) as [x|] eqn:E; [|done]. cbn. destruct (decide (x = the_document)) as [->|Hx].
  { by apply doc_ok_length. }
  destruct (decide (m < k)%nat) as [Hlt|Hge].
  - replace k with (m + S (k - m - 1))%nat in Hk by lia. rewrite up_add, E in Hk. cbn in Hk.
    destruct (link h x) as [l|] eqn:El; [|done]. unfold link in El. destruct (h !! x) eqn:Ex; [by apply lookup_lt_Some in Ex|done].
  - replace m with (k + (m - k))%nat in E by lia. rewrite up_add, Hk in E. cbn in E.
    destruct (m - k)%nat; [by injection E as <-|by rewrite up_document in E].
Qed.

(** The ancestors of a node, up to the document, differ. *)
Lemma up_inj k n i j : up h k n = Some the_document -> (i <= k)%nat -> (j <= k)%nat -> up h i n = up h j n -> i = j.
Proof.
  assert (Hlt : forall i j, up h k n = Some the_document -> (j <= k)%nat -> (i < j)%nat -> up h i n = up h j n -> False).
  { clear i j. intros i j Hk Hj Hij E. assert (H1 : up h (i + (k - j)) n = Some the_document).
    { rewrite up_add, E, <- up_add. by replace (j + (k - j))%nat with k by lia. }
    replace k with (i + (k - j) + S (j - i - 1))%nat in Hk by lia. rewrite up_add, H1 in Hk. cbn [mbind option_bind] in Hk.
    by rewrite up_document in Hk. }
  intros Hk Hi Hj E. destruct (lt_eq_lt_dec i j) as [[H|H]|H]; [|done|]; exfalso; [by apply (Hlt i j)|by apply (Hlt j i)].
Qed.

Lemma up_bound k n : up h k n = Some the_document -> (k < length h)%nat.
Proof.
  intros Hk. assert (Hsome : forall i, (i <= k)%nat -> is_Some (up h i n)).
  { intros i Hi. replace k with (i + (k - i))%nat in Hk by lia. rewrite up_add in Hk. destruct (up h i n); [by eexists|done]. }
  assert (Hnd : List.NoDup (map (fun i => default 0%nat (up h i n)) (seq 0 (S k)))).
  { apply NoDup_ListNoDup, NoDup_fmap_2_strong; [|apply NoDup_seq]. intros i j Hi%elem_of_seq Hj%elem_of_seq E.
    apply (up_inj k n i j Hk); [lia..|]. destruct (Hsome i), (Hsome j); [lia..|]. simplify_option_eq. congruence. }
  apply (NoDup_incl_length (l' := seq 0 (length h))) in Hnd; [by rewrite length_map, !length_seq in Hnd|].
  intros x (i & <- & Hi%in_seq)%in_map_iff. apply in_seq. split; [lia|]. apply (up_alive k); [done|].
  destruct (Hsome i) as [y ->]; [lia|done].
Qed.

(** With as many levels as there are nodes, the tree below a node under the document is read. *)
Lemma subtree_finite fuel k n :
  up h k n = Some the_document -> (length h <= fuel + k)%nat -> is_Some (subtree fuel h n) /\ is_Some (view fuel h n).
Proof.
  revert k n; induction fuel as [|fuel IH]; intros k n Hk Hf; [pose proof (up_bound k n Hk); lia|].
  assert (Hn : exists node, h !! n = Some (Some node)).
  { destruct k as [|k]; cbn in Hk.
    - injection Hk as ->. destruct Hd as [Hs _]. unfold shape in Hs. destruct (h !! the_document) as [[node|]|]; [eauto|done..].
    - unfold link in Hk. destruct (h !! n) as [[node|]|]; [eauto|done..]. }
  destruct Hn as [node Hn]. assert (Hkids : kids h n = node_children node) by (unfold kids; by rewrite Hn).
  assert (Hc : Forall (fun c => is_Some (subtree fuel h c) /\ is_Some (view fuel h c)) (node_children node)).
  { apply Forall_forall. intros c Hc. rewrite <- Hkids in Hc. destruct (tree_in Ht Hc) as [j Hj].
    apply (IH (S k)); [cbn; by rewrite Hj|lia]. }
  apply Forall_and in Hc as [H1 H2]. cbn. rewrite Hn.
  apply mapM_is_Some in H1 as [ls ->], H2 as [ts ->]. cbn. eauto.
Qed.
End finite.

Lemma parse_finite scan_named junk_pos fuel old quirks buffer p :
  TreeModes.without_frameset scan_named junk_pos fuel old quirks buffer = true ->
  gumbo_parse scan_named junk_pos fuel old quirks buffer = Ok (p, Some tt) ->
  exists r l, root p = Some r /\ r ∈ kids (heap p) (document p) /\
    subtree (S (length (heap p))) (heap p) (document p) = Some l /\ NoDup l /\ typed (heap p).
Proof.
  intros Hf H. destruct (TreeModes.gumbo_parse_inv _ _ _ _ _ _ _ _ Hf H) as [Ht Hi]. specialize (Hi eq_refl).
  destruct (inv_settled _ _ _ _ _ Hi eq_refl) as ((r & Hr & Ha) & _). rewrite (inv_document _ _ _ _ _ Hi).
  destruct (subtree_finite true (heap p) Ht (inv_doc _ _ _ _ _ Hi) (S (length (heap p))) 0 the_document eq_refl) as [[l Hl] _]; [lia|].
  exists r, l. split_and!; [done| |done|by eapply subtree_nodup|apply Hi].
  unfold above in Ha. destruct (link (heap p) r) as [[q j]|] eqn:El; [|done]. injection Ha as ->. by eapply tree_parent.
Qed.

(** The tree below the root is finite too. *)
Lemma parse_root_finite scan_named junk_pos fuel old quirks buffer p :
  TreeModes.without_frameset scan_named junk_pos fuel old quirks buffer = true ->
  gumbo_parse scan_named junk_pos fuel old quirks buffer = Ok (p, Some tt) ->
  exists r l t, root p = Some r /\ subtree (S (length (heap p))) (heap p) r = Some l /\
    view (S (length (heap p))) (heap p) r = Some t.
Proof.
  intros Hf H. destruct (TreeModes.gumbo_parse_inv _ _ _ _ _ _ _ _ Hf H) as [Ht Hi]. specialize (Hi eq_refl).
  destruct (inv_settled _ _ _ _ _ Hi eq_refl) as ((r & Hr & Ha) & _).
  destruct (subtree_finite true (heap p) Ht (inv_doc _ _ _ _ _ Hi) (S (length (heap p))) 1 r) as [[l Hl] [t Hv]]; [|lia|eauto 6].
  unfold above in Ha. cbn. destruct (link (heap p) r) as [[q j]|]; [|done]. by injection Ha as ->.
Qed.


(** * Releasing a tree *)

(** The nodes of [l] have been freed, all others are as before. *)
Definition released (l : list nat) (h h' : list (option GumboNode)) : Prop :=
  length h' = length h /\ (forall m, m ∈ l -> h' !! m = Some None) /\ (forall m, m ∉ l -> h' !! m = h !! m).

Lemma released_nil h : released [] h h.
Proof. split_and!; [done| |done]. intros m Hm. by apply elem_of_nil in Hm. Qed.

Lemma released_app l1 l2 h h1 h2 : released l1 h h1 -> released l2 h1 h2 -> released (l1 ++ l2) h h2.
Proof.
  intros (L1 & A1 & B1) (L2 & A2 & B2). split_and!; [congruence|..]; intros m Hm; rewrite elem_of_app in Hm.
  - destruct (decide (m ∈ l2)) as [H2|H2]; [by apply A2|]. rewrite B2 by done. apply A1. tauto.
  - rewrite B2, B1; tauto.
Qed.

Lemma released_node n l h h' :
  (n < length h)%nat -> released l h h' -> released (n :: l) h (<[n := None]> h').
Proof.
  intros Hn (L & A & B). split_and!; [by rewrite length_insert|..]; intros m Hm; rewrite elem_of_cons in Hm;
    (destruct (decide (m = n)) as [->|]; [rewrite list_lookup_insert_eq by lia|rewrite list_lookup_insert_ne by done]); try tauto.
  - apply A. tauto.
  - apply B. tauto.
Qed.

(** The list of trees is released when each of them is. *)
Lemma for_each_releases f cs ls (h : list (option GumboNode)) p :
  Forall2 (fun c l => forall p, (forall m, m ∈ l -> heap p !! m = h !! m) ->
    exists h', f c p = Ok (set_heap h' p, tt) /\ released l (heap p) h') cs ls ->
  NoDup (concat ls) -> (forall m, m ∈ concat ls -> heap p !! m = h !! m) ->
  exists h', for_each f cs p = Ok (set_heap h' p, tt) /\ released (concat ls) (heap p) h'.
Proof.
  intros HF. revert p; induction HF as [|c l cs ls Hc _ IH]; intros p Hnd Hp; cbn [for_each concat] in *.
  { exists (heap p). split; [by destruct p|apply released_nil]. }
  apply NoDup_app in Hnd as (_ & Hdis & Hnd). destruct (Hc p) as (h1 & H1 & R1); [intros m Hm; apply Hp, elem_of_app; auto|].
  rewrite (pbind_Ok _ _ _ _ _ H1). destruct (IH (set_heap h1 p)) as (h2 & H2 & R2); [done| |].
  { intros m Hm. cbn. destruct R1 as (_ & _ & ->); [apply Hp, elem_of_app; auto|]. intros Hin. by apply (Hdis m). }
  exists h2. split; [exact H2|]. by eapply released_app.
Qed.

Lemma Forall2_NoDup_concat (P : nat -> list nat -> Prop) cs ls :
  Forall2 P cs ls -> NoDup (concat ls) -> Forall2 (fun c l => P c l /\ NoDup l) cs ls.
Proof. induction 1; cbn; [constructor|]. intros (? & _ & ?)%NoDup_app. constructor; auto. Qed.

Lemma destroy_node_releases fuel h n l p :
  subtree fuel h n = Some l -> NoDup l -> (forall m, m ∈ l -> heap p !! m = h !! m) ->
  exists h', destroy_node fuel n p = Ok (set_heap h' p, tt) /\ released l (heap p) h'.
Proof.
  revert n l p; induction fuel as [|fuel IH]; intros n l p H Hnd Hp; [done|].
  pose proof H as H'. apply subtree_S in H' as (ls & Hls & ->). cbn in H. destruct (h !! n) as [[node|]|] eqn:Hn; [|done..].
  clear H. apply NoDup_cons in Hnd as [Hnl Hnd]. cbn [destroy_node].
  rewrite <- (Hp n) in Hn by (apply elem_of_cons; auto). rewrite (pbind_Ok _ _ _ _ _ (deref_Ok _ _ _ Hn)).
  assert (Hk : kids h n = node_children node) by (unfold kids; rewrite <- (Hp n) by (apply elem_of_cons; auto); by rewrite Hn).
  rewrite Hk in Hls. destruct (for_each_releases (destroy_node fuel) (node_children node) ls h p) as (h1 & H1 & R1); [|done| |].
  { eapply Forall2_impl; [exact (Forall2_NoDup_concat _ _ _ Hls Hnd)|]. cbn. intros c lc [Hc Hndc] q Hq. by apply IH. }
  { intros m Hm. apply Hp, elem_of_cons. auto. }
  unfold node_children in H1. rewrite (pbind_Ok _ _ _ _ _ H1). assert (Hnl' : h1 !! n = Some (Some node)).
  { destruct R1 as (_ & _ & ->); [done|]. done. }
  unfold deallocate. rewrite (pbind_Ok _ _ _ _ _ (deref_Ok n node (set_heap h1 p) Hnl')). exists (<[n := None]> h1).
  split; [done|]. apply released_node; [by apply lookup_lt_Some in Hn|done].
Qed.

Lemma destroy_output_releases exact p l :
  tree_ok exact (heap p) -> subtree (S (length (heap p))) (heap p) (document p) = Some l ->
  exists h, gumbo_destroy_output p = Ok (set_heap h p, tt) /\ NoDup l /\ released l (heap p) h.
Proof.
  intros Ht Hl. pose proof (subtree_nodup _ _ _ _ _ Ht Hl) as Hnd.
  destruct (destroy_node_releases _ _ _ _ p Hl Hnd) as (h & H & R); [done|]. exists h. by split.
Qed.

(** C11: releasing the output.  For a tree whose links agree and that is finite,
    [gumbo_destroy_output] never follows a pointer to a freed node and frees no node
    twice: it frees the nodes of the document, each of them once, and nothing else. *)
Theorem gumbo_destroy_output_spec exact p l :
  tree_ok exact (heap p) -> subtree (S (length (heap p))) (heap p) (document p) = Some l ->
  exists h, gumbo_destroy_output p = Ok (set_heap h p, tt) /\ NoDup l /\ released l (heap p) h.
Proof. apply destroy_output_releases. Qed.

(** * The crawler *)
Section crawl.
Context (junk : nat -> Z) (scan_named : list Z -> option (OneOrTwoCodepoints * nat)) (junk_pos : GumboSourcePosition).

(** [crawl_parse_parse]: the buffer of the crawler after the page [content], which is
    given with its terminator. *)
Definition crawl_parse_parse (fuel : nat) (old : GumboParser) (quirks : GumboQuirksModeEnum) (content : list Z)
  (b : buff_t) : outcome buff_t :=
  '(p, r) ← gumbo_parse scan_named junk_pos fuel old quirks content;
  _ ← of_option r;
  root_node ← of_option (root p);
  t ← of_option (view (S (length (heap p))) (heap p) root_node);
  b ← Crawl.crawl_parse_real junk t b;
  _ ← gumbo_destroy_output p;
  Ok b.

(** C10: a page of the crawler, for a document without a frameset start tag and a
    buffer whose capacity follows its contents.  When the parser returns, it has built a
    root element with a finite tree below it; if buffer and tree hold less than 2^28
    characters together, the texts of the tree are appended to the buffer, in document
    order and outside script and style elements, with exactly one blank before every
    child of an element but the first, unless the buffer is empty; the tree is released
    without error.  When the parser fails, so does the crawler; and it runs out of fuel
    only below the 10^9 iterations that an assertion of its main loop admits. *)
Theorem crawl_parse_parse_spec fuel old quirks content b :
  TreeModes.without_frameset scan_named junk_pos fuel old quirks content = true -> Crawl.tight b ->
  match gumbo_parse scan_named junk_pos fuel old quirks content with
  | Ok (p, Some tt) =>
      exists r t, root p = Some r /\ view (S (length (heap p))) (heap p) r = Some t /\
        (size b + Z.of_nat (Crawl.weight t) <= 2 ^ 28 ->
         exists b' out, crawl_parse_parse fuel old quirks content b = Ok b' /\ Crawl.tight b' /\
           contents b' = Crawl.render t (contents b) /\
           contents b' = contents b ++ out /\ Crawl.spaced (Crawl.leaves t) out)
  | Ok (_, None) => Z.of_nat fuel < 1000000000
  | Undef => crawl_parse_parse fuel old quirks content b = Undef
  | AssertFail => crawl_parse_parse fuel old quirks content b = AssertFail
  end.
Proof.
  intros Hf Hb. unfold crawl_parse_parse. destruct (gumbo_parse _ _ _ _ _ _) as [[p [[]|]]| |] eqn:H;
    [|by eapply TreeModes.gumbo_parse_fuel|done..].
  destruct (parse_root_finite _ _ _ _ _ _ _ Hf H) as (r & _ & t & Hr & _ & Ht).
  destruct (parse_finite _ _ _ _ _ _ _ Hf H) as (_ & l & _ & _ & Hl & _).
  exists r, t. split; [done|]. split; [done|]. intros Hsz. rewrite bind_Ok. cbn [of_option]. rewrite bind_Ok, Hr.
  cbn [of_option]. rewrite bind_Ok, Ht. cbn [of_option]. rewrite bind_Ok.
  destruct (Crawl.crawl_parse_real_ok junk t b Hb Hsz) as (b' & H1 & (H2 & out & H3 & H4 & _) & H5).
  rewrite H1, bind_Ok. destruct (destroy_output_releases true p l) as (h & Hd & _); [|done|].
  - by eapply TreeModes.gumbo_parse_links.
  - rewrite Hd, bind_Ok. by exists b', out.
Qed.
End crawl.

(** * Documents *)

(** The nodes and the tree of a document. *)
Definition tree_of_text (s : string) : option (list nat * Crawl.GumboNode) :=
  match TreeModes.parse_text s with
  | Ok (p, Some tt) =>
      l ← subtree (S (length (heap p))) (heap p) (document p);
      r ← root p; t ← view (S (length (heap p))) (heap p) r; Some (l, t)
  | _ => None
  end.

(** The number of errors of a document. *)
Definition errors_of_text (s : string) : option nat :=
  match TreeModes.parse_text s with Ok (p, Some tt) => Some (length (errors (_input (tokenizer_state p)))) | _ => None end.

Definition sample_page : string := "<title>T</title><p>Hello <b>big</b> world<script>x()</script>".

Definition parsed_sample : GumboParser :=
  match TreeModes.parse_text sample_page with Ok (p, _) => p | _ => TreeModes.blank_parser end.

(** [gumbo_destroy_output_spec] applies to the page: its thirteen nodes are freed. *)
Lemma gumbo_destroy_output_spec_witness :
  exists h l, gumbo_destroy_output parsed_sample = Ok (set_heap h parsed_sample, tt) /\ length l = 13%nat /\
    released l (heap parsed_sample) h.
Proof.
  destruct (subtree (S (length (heap parsed_sample))) (heap parsed_sample) (document parsed_sample)) as [l|] eqn:E;
    [|vm_compute in E; discriminate].
  destruct (gumbo_destroy_output_spec true parsed_sample l) as (h & H1 & H2 & H3).
  - apply tree_okb_sound. vm_compute. reflexivity.
  - exact E.
  - exists h, l. split; [exact H1|]. split; [|exact H3]. vm_compute in E. by injection E as <-.
Defined.


(** [crawl_parse_parse_spec] applies to the page. *)
Lemma crawl_parse_parse_spec_witness :
  exists b', crawl_parse_parse (fun _ => 0) (fun _ => None) (Pos 0 0 0) 1000 TreeModes.blank_parser
    GUMBO_DOCTYPE_NO_QUIRKS (text_of sample_page) buff_empty = Ok b' /\ Crawl.tight b' /\
    contents b' = text_of "T Hello  big  world ".
Proof.
  assert (Hf : TreeModes.without_frameset (fun _ => None) (Pos 0 0 0) 1000 TreeModes.blank_parser GUMBO_DOCTYPE_NO_QUIRKS
    (text_of sample_page) = true) by (vm_compute; reflexivity).
  assert (Hb : Crawl.tight buff_empty) by (unfold Crawl.tight, buff_ok; simpl; lia).
  pose proof (crawl_parse_parse_spec (fun _ => 0) (fun _ => None) (Pos 0 0 0) 1000 TreeModes.blank_parser
    GUMBO_DOCTYPE_NO_QUIRKS (text_of sample_page) buff_empty Hf Hb) as H.
  assert (E : gumbo_parse (fun _ => None) (Pos 0 0 0) 1000 TreeModes.blank_parser GUMBO_DOCTYPE_NO_QUIRKS
    (text_of sample_page) = Ok (parsed_sample, Some tt)) by (vm_compute; reflexivity).
  rewrite E in H. destruct H as (r & t & Hr & Ht & H). vm_compute in Hr. injection Hr as <-.
  vm_compute in Ht. injection Ht as <-. destruct H as (b' & out & H1 & H2 & H3 & _); [vm_compute; congruence|].
  exists b'. split; [exact H1|]. split; [exact H2|]. rewrite H3. vm_compute. reflexivity.
Defined.

(** ** Where the tree builder fails or differs from what its comments say *)

(** a CDATA section in an integration point within a table leaves text in the text
    buffer when the table mode starts: the document makes the assertion of
    [handle_in_table] fail, in both kinds of foreign content. *)
Theorem cdata_in_table_aborts :
  TreeModes.parse_text "<table><math><mi><![CDATA[q]]>x" = AssertFail /\
  TreeModes.parse_text "<table><svg><desc><![CDATA[q]]>x" = AssertFail.
Proof. split; vm_compute; reflexivity. Qed.

(** The quirks mode of a document. *)
Definition quirks_of_text (s : string) : option GumboQuirksModeEnum :=
  match TreeModes.parse_text s with
  | Ok (p, Some tt) =>
      match heap p !! document p with
      | Some (Some node) => match n_v node with VDocument d => Some (doc_type_quirks_mode d) | _ => None end
      | _ => None
      end
  | _ => None
  end.

(** The identifiers that mean quirks are said to be prefixes, but they are compared
    as a whole: the identifier of HTML 3.2 is not recognised, its bare prefix is. *)
Theorem quirks_prefix_compared_whole :
  quirks_of_text "<!DOCTYPE html PUBLIC '-//W3C//DTD HTML 3.2//EN'>" = Some GUMBO_DOCTYPE_NO_QUIRKS /\
  quirks_of_text "<!DOCTYPE html PUBLIC '-//W3C//DTD HTML 3.2//'>" = Some GUMBO_DOCTYPE_QUIRKS.
Proof. split; vm_compute; reflexivity. Qed.

(** The test of the system identifier is the wrong way round: the one that is allowed
    is an error, any other one is not. *)
Theorem legacy_compat_reversed :
  errors_of_text "<!DOCTYPE html SYSTEM 'about:legacy-compat'>" = Some 1%nat /\
  errors_of_text "<!DOCTYPE html SYSTEM 'foo'>" = Some 0%nat.
Proof. split; vm_compute; reflexivity. Qed.

End Page.
