(* ===== verification/FindLinks.v ===== *)
(** src/find_links.cc: the links of a page, a client of the HTML parser.

    The program prints the href attributes of the anchors that it reaches from the root
    through elements; the contents of templates are not looked at. *)
From Stdlib Require Import Strings.String.
From stdpp Require Import relations gmap.
From S2P Require Import Prelude GumboTags GumboBase Utf8 CharRef GumboLexer GumboLexerRuns GumboParser GumboModes GumboTree GumboTreeModes GumboPage.
Import Tags GumboBase Utf8 CharRef Lexer Parser Modes Tree Page.

Module FindLinks.

(** * The program *)

Definition node_at (h : list (option GumboNode)) (n : nat) : outcome GumboNode :=
  o ← load h n; of_option o.

(** The value that is printed for an element. *)
Definition print_href (e : GumboElement) : outcome (list (list Z)) :=
  if bool_decide (el_tag e = GUMBO_TAG_A) then
    i ← Parser.gumbo_get_attribute (el_attributes e) (text_of "href");
    match i with
    | None => Ok []
    | Some i => a ← load (el_attributes e) i; Ok [c_string (value_ a)]
    end
  else Ok [].

(** The lines printed; [fuel] bounds the depth of the tree. *)
Fixpoint search_for_links (fuel : nat) (h : list (option GumboNode)) (n : nat) : outcome (list (list Z)) :=
  match fuel with
  | O => Undef
  | S fuel =>
      node ← node_at h n;
      match n_type node, n_v node with
      | GUMBO_NODE_ELEMENT, VElement e =>
          out ← print_href e;
          (fix go (cs : list nat) (out : list (list Z)) : outcome (list (list Z)) :=
             match cs with
             | [] => Ok out
             | c :: cs => out' ← search_for_links fuel h c; go cs (out ++ out')
             end) (el_children e) out
      | GUMBO_NODE_ELEMENT, _ => Undef
      | _, _ => Ok []
      end
  end.

Section main.
Context (scan_named : list Z -> option (OneOrTwoCodepoints * nat)) (junk_pos : GumboSourcePosition).

(** What is printed for the contents of the file, which [c_str] gives with a terminator. *)
Definition main (fuel : nat) (old : GumboParser) (quirks : GumboQuirksModeEnum) (contents : list Z)
  : outcome (list (list Z)) :=
  '(p, r) ← gumbo_parse scan_named junk_pos fuel old quirks contents;
  _ ← of_option r;
  root_node ← of_option (root p);
  out ← search_for_links (S (length (heap p))) (heap p) root_node;
  _ ← gumbo_destroy_output p;
  Ok out.
End main.

(** * Its meaning *)

Definition is_element (h : list (option GumboNode)) (n : nat) : Prop :=
  exists node e, h !! n = Some (Some node) /\ n_type node = GUMBO_NODE_ELEMENT /\ n_v node = VElement e.

(** [x] is reached from [n] through elements only. *)
Inductive reached (h : list (option GumboNode)) : nat -> nat -> Prop :=
| reached_here n : is_element h n -> reached h n n
| reached_below n c x : is_element h n -> c ∈ kids h n -> reached h c x -> reached h n x.

(** The attribute of a name, without regard to case. *)
Definition same_name (a b : list Z) : bool := bool_decide (map tolower (c_string a) = map tolower (c_string b)).

Definition attribute_of (attrs : list Lexer.GumboAttribute) (nm : list Z) : option Lexer.GumboAttribute :=
  head (filter (fun a => same_name (name a) nm = true) attrs).

(** The link of a node. *)
Definition link_of (h : list (option GumboNode)) (n : nat) : list (list Z) :=
  match h !! n with
  | Some (Some node) =>
      match n_v node with
      | VElement e =>
          if bool_decide (el_tag e = GUMBO_TAG_A) then
            match attribute_of (el_attributes e) (text_of "href") with
            | Some a => [c_string (value_ a)]
            | None => []
            end
          else []
      | _ => []
      end
  | _ => []
  end.

(** The elements reached, in document order. *)
Fixpoint elements (fuel : nat) (h : list (option GumboNode)) (n : nat) : list nat :=
  match fuel with
  | O => []
  | S fuel =>
      match h !! n with
      | Some (Some node) =>
          match n_type node, n_v node with
          | GUMBO_NODE_ELEMENT, VElement e => n :: concat (map (elements fuel h) (el_children e))
          | _, _ => []
          end
      | _ => []
      end
  end.

Lemma tolower_0 c : tolower c = 0 <-> c = 0.
Proof. unfold tolower. case_match; lia. Qed.

Lemma strncasecmp_cons x s1 y s2 n :
  strncasecmp (x :: s1) (y :: s2) (S n) =
  if tolower x =? tolower y then if tolower x =? 0 then Ok 0 else strncasecmp s1 s2 n
  else Ok (tolower x - tolower y).
Proof. reflexivity. Qed.

Lemma same_name_cons x a y b :
  x <> 0 -> y <> 0 -> same_name (x :: a) (y :: b) = (tolower x =? tolower y) && same_name a b.
Proof.
  intros Hx Hy. unfold same_name. cbn [c_string].
  rewrite (proj2 (Z.eqb_neq x 0) Hx), (proj2 (Z.eqb_neq y 0) Hy). cbn [map].
  destruct (Z.eqb_spec (tolower x) (tolower y)) as [->|Hne]; cbn [andb].
  - apply bool_decide_ext. split; [by intros [= ?]|by intros ->].
  - apply bool_decide_false. by intros [= ? ?].
Qed.

Lemma same_name_nil a b : c_string a = [] -> same_name a b = bool_decide (c_string b = []).
Proof. intros E. unfold same_name. rewrite E. apply bool_decide_ext. cbn. by destruct (c_string b). Qed.

Lemma same_name_nil_r a b : c_string b = [] -> same_name a b = bool_decide (c_string a = []).
Proof. intros E. unfold same_name. rewrite E. apply bool_decide_ext. cbn. by destruct (c_string a). Qed.

(** A name compared with a prefix that ends. *)
Lemma strncasecmp_end s2 y b n :
  exists r, strncasecmp (0 :: s2) (y :: b) (S n) = Ok r /\ (r =? 0) = bool_decide (y = 0).
Proof.
  rewrite strncasecmp_cons. change (tolower 0) with 0. destruct (Z.eqb_spec 0 (tolower y)) as [E|E].
  - exists 0. rewrite bool_decide_true; [done|]. by apply tolower_0.
  - exists (0 - tolower y). split; [done|]. rewrite bool_decide_false by (by intros H%tolower_0). lia.
Qed.

Lemma strcasecmp_same a b : exists r, strcasecmp a b = Ok r /\ (r =? 0) = same_name a b.
Proof.
  unfold strcasecmp. rewrite Nat.add_1_r. revert b. induction a as [|x a IH]; intros b.
  - rewrite same_name_nil by done. destruct b as [|y b]; cbn [app length].
    + by exists 0.
    + destruct (strncasecmp_end [] y (b ++ [0]) 0) as (r & -> & Hr). exists r. split; [done|]. rewrite Hr.
      apply bool_decide_ext. cbn. destruct (Z.eqb_spec y 0); naive_solver.
  - destruct (decide (x = 0)) as [->|Hx].
    { rewrite same_name_nil by done. destruct b as [|y b]; cbn [app length].
      - by exists 0.
      - destruct (strncasecmp_end (a ++ [0]) y (b ++ [0]) (S (length a))) as (r & -> & Hr). exists r. split; [done|].
        rewrite Hr. apply bool_decide_ext. cbn. destruct (Z.eqb_spec y 0); naive_solver. }
    assert (Hx' : tolower x <> 0) by (by rewrite tolower_0).
    assert (Hend : forall y s2 n, y = 0 -> exists r, strncasecmp (x :: a ++ [0]) (y :: s2) (S n) = Ok r /\ (r =? 0) = false).
    { intros y s2 n ->. rewrite strncasecmp_cons. change (tolower 0) with 0. rewrite (proj2 (Z.eqb_neq _ _) Hx').
      exists (tolower x - 0). split; [done|]. lia. }
    assert (Hnil : bool_decide (c_string (x :: a) = []) = false).
    { apply bool_decide_false. cbn. by rewrite (proj2 (Z.eqb_neq x 0) Hx). }
    destruct b as [|y b]; cbn [app length]; [by rewrite same_name_nil_r, Hnil by done; apply Hend|].
    destruct (decide (y = 0)) as [Hy|Hy].
    { rewrite same_name_nil_r, Hnil; [by apply Hend|]. by subst. }
    rewrite same_name_cons, strncasecmp_cons by done. destruct (Z.eqb_spec (tolower x) (tolower y)) as [E|E].
    + rewrite (proj2 (Z.eqb_neq _ _) Hx'). apply IH.
    + exists (tolower x - tolower y). split; [done|]. cbn [andb]. lia.
Qed.

Lemma get_attribute_of attrs nm :
  exists i, Parser.gumbo_get_attribute attrs nm = Ok i /\
    match i with None => attribute_of attrs nm = None | Some i => attrs !! i = attribute_of attrs nm /\ is_Some (attrs !! i) end.
Proof.
  unfold attribute_of. induction attrs as [|a attrs IH]; [by exists None|].
  cbn [Parser.gumbo_get_attribute]. destruct (strcasecmp_same (name a) nm) as (r & -> & Hr). rewrite bind_Ok, Hr.
  destruct (same_name (name a) nm) eqn:E.
  - exists (Some 0%nat). split; [done|]. rewrite filter_cons_True by done. by split; [|eexists].
  - destruct IH as (i & -> & Hi). rewrite bind_Ok. exists (option_map S i). split; [done|].
    rewrite filter_cons_False by congruence. by destruct i.
Qed.

Lemma print_href_ok h n node e :
  h !! n = Some (Some node) -> n_v node = VElement e -> print_href e = Ok (link_of h n).
Proof.
  intros Hn Hv. unfold print_href, link_of. rewrite Hn, Hv. case_bool_decide; [|done].
  destruct (get_attribute_of (el_attributes e) (text_of "href")) as ([i|] & -> & Hi); rewrite bind_Ok; [|by rewrite Hi].
  destruct Hi as [<- [a Ha]]. unfold load. by rewrite Ha.
Qed.

Lemma typed_element h n node :
  typed h -> h !! n = Some (Some node) -> n_type node = GUMBO_NODE_ELEMENT -> exists e, n_v node = VElement e.
Proof.
  intros Hty Hn Ht. assert (Hk : kind (n_v node) = KElement).
  { eapply (Hty n); [unfold shape; by rewrite Hn|by rewrite Ht]. }
  destruct (n_v node); [done|eauto|done].
Qed.

(** The loop over the children. *)
Definition search_children (fuel : nat) (h : list (option GumboNode)) :=
  fix go (cs : list nat) (out : list (list Z)) : outcome (list (list Z)) :=
    match cs with
    | [] => Ok out
    | c :: cs => out' ← search_for_links fuel h c; go cs (out ++ out')
    end.

Lemma search_children_ok fuel h cs out :
  Forall (fun c => search_for_links fuel h c = Ok (elements fuel h c ≫= link_of h)) cs ->
  search_children fuel h cs out = Ok (out ++ (concat (map (elements fuel h) cs) ≫= link_of h)).
Proof.
  intros H. revert out. induction H as [|c cs Hc _ IH]; intros out; cbn [search_children map concat].
  - by rewrite app_nil_r.
  - rewrite Hc, bind_Ok. cbn [search_children] in IH. rewrite IH. by rewrite bind_app, app_assoc.
Qed.

Lemma search_ok fuel h n l :
  typed h -> subtree fuel h n = Some l ->
  search_for_links fuel h n = Ok (elements fuel h n ≫= link_of h).
Proof.
  intros Hty. revert n l. induction fuel as [|fuel IH]; intros n l Hl; [done|].
  apply subtree_S in Hl as Hkids. destruct Hkids as (ls & Hls & _). unfold kids in Hls. cbn in Hl.
  destruct (h !! n) as [[node|]|] eqn:Hn; [|done..]. clear Hl.
  pose proof (typed_element h n node Hty Hn) as Ht.
  cbn [search_for_links elements]. unfold node_at, load. rewrite Hn. cbn [of_option]. rewrite !bind_Ok. cbn [of_option]. rewrite ?bind_Ok.
  destruct (n_type node); try done. destruct (Ht eq_refl) as [e Hv]. rewrite Hv.
  rewrite (print_href_ok h n node e Hn Hv), bind_Ok. fold (search_children fuel h).
  rewrite search_children_ok; [done|]. unfold node_children in Hls. rewrite Hv in Hls.
  apply Forall_forall. intros c Hc. apply list_elem_of_lookup in Hc as [i Hi].
  destruct (Forall2_lookup_l _ _ _ _ _ Hls Hi) as (lc & _ & Hlc). by eapply IH.
Qed.

(** The elements are the nodes of the tree that are reached, in its order. *)
Lemma elements_spec fuel h n l :
  typed h -> subtree fuel h n = Some l ->
  elements fuel h n `sublist_of` l /\ forall x, x ∈ elements fuel h n <-> reached h n x.
Proof.
  intros Hty. revert n l. induction fuel as [|fuel IH]; intros n l Hl; [done|].
  pose proof Hl as Hk. apply subtree_S in Hk as (ls & Hls & ->). unfold kids in Hls. cbn in Hl.
  destruct (h !! n) as [[node|]|] eqn:Hn; [|done..]. clear Hl. cbn [elements]. rewrite Hn.
  assert (Hno : (forall e, n_type node = GUMBO_NODE_ELEMENT -> n_v node = VElement e -> False) ->
    forall x, x ∈ [] <-> reached h n x).
  { intros Hne x. split; [by intros ?%elem_of_nil|].
    assert (Hel : is_element h n -> False) by (intros (node' & e & H1 & H2 & H3); simplify_eq; eauto).
    intros Hr. exfalso. apply Hel. by inversion Hr. }
  pose proof (typed_element h n node Hty Hn) as Ht.
  destruct (n_type node) eqn:Htype; try (split; [apply sublist_nil_l|apply Hno; intros; congruence]).
  destruct (Ht eq_refl) as [e Hv]. rewrite Hv. unfold node_children in Hls. rewrite Hv in Hls.
  assert (Hel : is_element h n) by (by exists node, e).
  assert (Hkids : kids h n = el_children e) by (unfold kids, node_children; by rewrite Hn, Hv).
  assert (Hkid : forall c, c ∈ el_children e -> exists lc, subtree fuel h c = Some lc).
  { intros c [i Hi]%list_elem_of_lookup. destruct (Forall2_lookup_l _ _ _ _ _ Hls Hi) as (lc & _ & Hlc). eauto. }
  split.
  - apply sublist_skip. clear Hkids Hkid. induction Hls as [|c lc cs ls Hc _ IHl]; cbn; [constructor|].
    apply sublist_app; [|done]. by apply (IH c).
  - intros x. rewrite elem_of_cons, (list_elem_of_In _ x), in_concat. setoid_rewrite in_map_iff.
    setoid_rewrite <- list_elem_of_In. split.
    + intros [->|(xs & (c & <- & Hc) & Hx)]; [by constructor|].
      destruct (Hkid c Hc) as [lc Hlc]. apply reached_below with c; [done|by rewrite Hkids|].
      by apply (proj2 (IH c lc Hlc) x).
    + intros Hr. inversion Hr as [|? c ? _ Hc Hcx]; subst; [by left|]. right. rewrite Hkids in Hc.
      destruct (Hkid c Hc) as [lc Hlc]. exists (elements fuel h c). split; [eauto|]. by apply (proj2 (IH c lc Hlc) x).
Qed.

(** C28: the links of a page, for a document without a frameset start tag.  When the
    parser returns, it has built a root element with a finite tree below it, and the
    program prints one line for each node that is reached from the root through elements
    and is an anchor with an href attribute, its name in any case, in document order;
    then it releases the tree without error.  When the parser fails, so does
    the program; and it runs out of fuel only below the 10^9 iterations that an assertion
    of its main loop admits. *)
Theorem find_links_spec scan_named junk_pos fuel old quirks contents
  (Hframe : TreeModes.without_frameset scan_named junk_pos fuel old quirks contents = true) :
  match gumbo_parse scan_named junk_pos fuel old quirks contents with
  | Ok (p, Some tt) =>
      exists r l es, root p = Some r /\ subtree (S (length (heap p))) (heap p) r = Some l /\ NoDup l /\
        main scan_named junk_pos fuel old quirks contents = Ok (es ≫= link_of (heap p)) /\
        es `sublist_of` l /\ forall x, x ∈ es <-> reached (heap p) r x
  | Ok (_, None) => Z.of_nat fuel < 1000000000
  | Undef => main scan_named junk_pos fuel old quirks contents = Undef
  | AssertFail => main scan_named junk_pos fuel old quirks contents = AssertFail
  end.
Proof.
  unfold main. destruct (gumbo_parse _ _ _ _ _ _) as [[p [[]|]]| |] eqn:H; [|by eapply TreeModes.gumbo_parse_fuel|done..].
  destruct (parse_root_finite _ _ _ _ _ _ _ Hframe H) as (r & l & _ & Hr & Hl & _).
  destruct (parse_finite _ _ _ _ _ _ _ Hframe H) as (_ & all & _ & _ & Hall & _ & Hty).
  assert (Htree : tree_ok true (heap p)) by (by eapply TreeModes.gumbo_parse_links).
  destruct (elements_spec _ _ _ _ Hty Hl) as [Hsub Hreach].
  exists r, l, (elements (S (length (heap p))) (heap p) r). split_and!; [done|done|by eapply subtree_nodup| |done|done].
  rewrite bind_Ok. cbn [of_option]. rewrite bind_Ok, Hr. cbn [of_option].
  rewrite bind_Ok, (search_ok _ _ _ _ Hty Hl), bind_Ok.
  destruct (destroy_output_releases true p all Htree Hall) as (h & Hd & _). by rewrite Hd.
Qed.

(** * A page *)
Definition links_page : string :=
  "<a href='u'>x<b><A HREF='v'>y</A></b></a><a name=n>z</a><template><a href='w'>t</a></template>".

Definition parsed_links : GumboParser :=
  match TreeModes.parse_text links_page with Ok (p, _) => p | _ => TreeModes.blank_parser end.

Example links_of_page :
  main (fun _ => None) (Pos 0 0 0) 1000 TreeModes.blank_parser GUMBO_DOCTYPE_NO_QUIRKS (text_of links_page) =
  Ok [text_of "u"; text_of "v"].
Proof. vm_compute. reflexivity. Qed.

(** [find_links_spec] applies to the page. *)
Lemma find_links_spec_witness :
  exists es r l, main (fun _ => None) (Pos 0 0 0) 1000 TreeModes.blank_parser GUMBO_DOCTYPE_NO_QUIRKS (text_of links_page) =
      Ok (es ≫= link_of (heap parsed_links)) /\ root parsed_links = Some r /\
    es `sublist_of` l /\ NoDup l /\ forall x, x ∈ es <-> reached (heap parsed_links) r x.
Proof.
  assert (Hf : TreeModes.without_frameset (fun _ => None) (Pos 0 0 0) 1000 TreeModes.blank_parser GUMBO_DOCTYPE_NO_QUIRKS
    (text_of links_page) = true) by (vm_compute; reflexivity).
  pose proof (find_links_spec (fun _ => None) (Pos 0 0 0) 1000 TreeModes.blank_parser GUMBO_DOCTYPE_NO_QUIRKS
    (text_of links_page) Hf) as H.
  assert (E : gumbo_parse (fun _ => None) (Pos 0 0 0) 1000 TreeModes.blank_parser GUMBO_DOCTYPE_NO_QUIRKS
    (text_of links_page) = Ok (parsed_links, Some tt)) by (vm_compute; reflexivity).
  rewrite E in H. destruct H as (r & l & es & H1 & _ & H3 & H4 & H5 & H6).
  exists es, r, l. split; [exact H4|]. split; [exact H1|]. split; [exact H5|]. split; [exact H3|exact H6].
Defined.
End FindLinks.
