(* ===== verification/ToolMain.v ===== *)
(** src/tool.c: the crawl of a page from the network to its words (crawl_fetch_fetch,
    fetchtest), and the program's tests and main.

    What curl delivers is a parameter: the pieces of the page it hands to the callback.
    The functions of ICU are parameters as in Crawl.v. *)
From Stdlib Require Import Strings.String.
From S2P Require Import Prelude Simd StreamVByte StreamVByteDelta Buff ToolIndex Merge GumboTags Crawl.
From S2P Require Import GumboBase Utf8 CharRef GumboLexer GumboParser GumboModes GumboTree GumboTreeModes GumboPage CharRefScan.
Import Buff.

Module ToolMain.

Section crawl.
Context (junk : nat -> Z).

(** * crawl_fetch_fetch *)

(** curl_easy_perform: each piece is handed to the callback as one block of bytes; a
    callback that does not take all of it ends the transfer. *)
Fixpoint crawl_fetch_fetch (pieces : list (list Z)) (b : buff_t) : outcome buff_t :=
  match pieces with
  | [] => Ok b
  | piece :: pieces =>
      '(b, n) ← Crawl.crawl_fetch_data junk piece 1 (Z.of_nat (length piece)) b;
      if n =? Z.of_nat (length piece) then crawl_fetch_fetch pieces b else Ok b
  end.

(** The pieces that do not begin with a zero byte. *)
Definition kept (piece : list Z) : Prop := head piece <> Some 0.
#[local] Instance kept_dec piece : Decision (kept piece).
Proof. unfold kept. apply _. Defined.

Lemma fetch_ok pieces b :
  Crawl.tight b -> Forall (fun piece => piece <> []) pieces ->
  size b + Z.of_nat (length (concat pieces)) <= 2 ^ 28 ->
  exists b', crawl_fetch_fetch pieces b = Ok b' /\ Crawl.tight b' /\
    contents b' = contents b ++ concat (filter kept pieces) /\
    (filter kept pieces = [] /\ b' = b \/ filter kept pieces <> [] /\ buff b' !! Z.to_nat (size b') = Some 0).
Proof.
  intros Hb Hne. revert b Hb. induction Hne as [|piece pieces Hp _ IH]; intros b Hb Hsz; cbn [crawl_fetch_fetch].
  { exists b. cbn. rewrite app_nil_r. split_and!; try done. by left. }
  cbn [concat] in Hsz. rewrite length_app in Hsz. destruct Hb as [Hb Hcap].
  assert (Hlen : 0 < Z.of_nat (length piece)) by (destruct piece; [done|simpl; lia]).
  pose proof (proj1 (proj2 Hb)) as Hs0.
  unfold Crawl.crawl_fetch_data.
  assert (Hu : u64 (1 * Z.of_nat (length piece)) = Z.of_nat (length piece)) by (unfold u64; rewrite Z.mod_small; lia).
  rewrite Hu. destruct (buff_catn_spec junk b piece (Z.of_nat (length piece)) Hb) as (b1 & -> & Hb1 & Hc); [lia|lia|].
  rewrite !bind_Ok, Z.eqb_refl. destruct (decide (kept piece)) as [Hk|Hk].
  - rewrite bool_decide_false in Hc by (by destruct piece). destruct Hc as (Hcont & Hnul & Hsize & Hcap1).
    destruct (IH b1) as (b' & Hf & Ht & Hcont' & Hend); [split; [done|lia]|lia|].
    exists b'. split_and!; [done|done| |].
    + rewrite filter_cons_True by done. cbn [concat]. rewrite Hcont', Hcont, Nat2Z.id, take_ge by lia. by rewrite app_assoc.
    + right. rewrite filter_cons_True by done. split; [done|]. destruct Hend as [[_ ->]|[_ ?]]; done.
  - assert (Hz : piece !! 0%nat = Some 0) by (unfold kept in Hk; apply dec_stable in Hk; by destruct piece).
    rewrite bool_decide_true in Hc by done. subst b1.
    destruct (IH b) as (b' & Hf & Ht & Hcont' & Hend); [done|lia|].
    exists b'. rewrite filter_cons_False by done. auto.
Qed.

(** fetching a page.  The buffer holds the pieces that curl delivered, one after the
    other, and a terminator behind them; a piece that begins with a zero byte is missing,
    although the callback reports it as taken. *)
Theorem crawl_fetch_fetch_spec (pieces : list (list Z)) (b : buff_t)
  (Hb : Crawl.tight b) (Hne : Forall (fun piece => piece <> []) pieces)
  (Hsz : size b + Z.of_nat (length (concat pieces)) <= 2 ^ 28) :
  exists b', crawl_fetch_fetch pieces b = Ok b' /\ Crawl.tight b' /\
    contents b' = contents b ++ concat (filter kept pieces) /\
    (filter kept pieces = [] /\ b' = b \/ filter kept pieces <> [] /\ buff b' !! Z.to_nat (size b') = Some 0).
Proof. by apply fetch_ok. Qed.

(** * fetchtest *)

(** The characters of a C string; its terminator must be in the block. *)
Fixpoint c_str (mem : list Z) : outcome (list Z) :=
  match mem with
  | [] => Undef
  | c :: mem => if c =? 0 then Ok [] else s ← c_str mem; Ok (c :: s)
  end.

Section fetchtest.
Context {I : Type} `{!Crawl.UBreakIterator I} (u_ispunct u_isspace : Z -> bool) (u_uastrcpy : list Z -> list Z)
  (u_austrncpy : list Z -> nat -> list Z) (ubrk_open : list Z -> I).
Context (junk_pos : Utf8.GumboSourcePosition) (old : Parser.GumboParser) (quirks : Parser.GumboQuirksModeEnum).

(** [while( !tokenizer_next( &t, word, sizeof(word) ) )]: the words; [None] when the fuel
    runs out. *)
Fixpoint words (fuel : nat) (t : Crawl.tokenizer_t) (word : list Z) : outcome (option (list (list Z))) :=
  match fuel with
  | O => Ok None
  | S fuel =>
      r ← Crawl.tokenizer_next u_ispunct u_isspace u_austrncpy fuel t word 1024;
      match r with
      | None => Ok None
      | Some (_, None) => Ok (Some [])
      | Some (t, Some word) => ws ← words fuel t word; Ok (option_map (cons word) ws)
      end
  end.

(** The page, its text and its words, with the scanner of char_ref.c in the parser. *)
Definition fetchtest (fuel : nat) (pieces : list (list Z)) : outcome (option (list (list Z))) :=
  f ← crawl_fetch_fetch pieces buff_empty;
  content ← c_str (buff f);
  p ← Page.crawl_parse_parse junk CharRefScan.scan_named junk_pos fuel old quirks content buff_empty;
  input ← c_str (buff p);
  t ← Crawl.tokenizer_init u_uastrcpy ubrk_open input (map (fun i => u16 (junk i)) (seq 0 (length input)));
  words fuel t (map (fun i => u8 (junk i)) (seq 0 1024)).

(** The test does not return for any page of ASCII text: if it gets to the words, the
    terminator of the text is written past the block of the tokenizer. *)
Lemma fetchtest_fails fuel pieces :
  (forall input, length (u_uastrcpy input) = length input) -> forall r, fetchtest fuel pieces <> Ok r.
Proof.
  intros Hconv r Hr. unfold fetchtest in Hr. do 4 (apply bind_Ok_inv in Hr as (? & _ & Hr)).
  by rewrite Crawl.tokenizer_init_overrun in Hr.
Qed.
End fetchtest.

(** * The tests *)
Import Index.

(** [for( int k=0; k<10; k+=step )]; eleven iterations are enough for a positive step. *)
Fixpoint test2_loop (fuel : nat) (step k : Z) (outs : ifile_t) : outcome ifile_t :=
  match fuel with
  | O => Ok outs
  | S fuel => if k <? 10 then outs ← ifile_write junk outs (Tupe 1 k); test2_loop fuel step (k + step) outs else Ok outs
  end.

(** The contents of the file. *)
Definition test2 (step : Z) : outcome (list Z) :=
  outs ← test2_loop 11 step 0 (ifile_init (File [] 0));
  outs ← ifile_real_write junk outs;
  Ok (bytes (inf outs)).

(** The contents of a file of plain tuples. *)
Fixpoint test1_loop (fuel : nat) (step k : Z) (a : FILE) : FILE :=
  match fuel with
  | O => a
  | S fuel => if k <? 10 then test1_loop fuel step (k + step) (fwrite a (le_split 4 1 ++ le_split 4 k)) else a
  end.
Definition test1 (step : Z) : list Z := bytes (test1_loop 11 step 0 (File [] 0)).

Definition btest : outcome bool :=
  b ← Nat.iter 100 (fun b => b ← b; buff_cat junk b (Some (Tags.bytes_of "DUDE"))) (Ok buff_empty);
  Ok (buff_free b).

Definition rtest (D : list Z) : outcome (ifile_t * bool) := ifile_read junk (ifile_init (File D 0)).

Definition ctest : outcome bool :=
  '(c, _) ← chunk_push junk chunk_empty 1;
  '(c, _) ← chunk_push junk c 1;
  '(c, _) ← chunk_push junk c 1;
  '(c, _) ← chunk_push junk c 1;
  Ok (chunk_free c).

(** The contents of the file E, after it is read back and checked. *)
Definition ftest : outcome (list Z) :=
  doc ← foldl (fun doc t => doc ← doc; forward_push_term junk doc t)
          (Ok (Forward (ForwardHead 0 0 0) chunk_empty)) [1; 2; 3; 4; 5];
  let doc := forward_set_id doc 15 in
  '(E, doc) ← iforward_write junk (File [] 0) doc;
  '(_, doc, _) ← iforward_read junk (reopen E) doc;
  _ ← c_assert (f_id (fh doc) =? 15);
  b0 ← load (buffer (fchunk doc)) 0;
  _ ← c_assert (b0 =? 1);
  b1 ← load (buffer (fchunk doc)) 1;
  _ ← c_assert (b1 =? 2);
  _ ← c_assert (Index.size (fchunk doc) =? 5);
  Ok (bytes E).

(** [main] after [fetchtest]: what the merge prints, and the contents of the files D and E. *)
Definition main (fuel : nat) : outcome (option (list Z * list Z * list Z)) :=
  _ ← ctest;
  A ← test2 2;
  B ← test2 3;
  C ← test2 4;
  r ← Merge.merge junk fuel (map (fun x => Some (ifile_init (File x 0))) [A; B; C]) [0; 1; 2]%nat 3 (ifile_init (File [] 0));
  match r with
  | None => Ok None
  | Some m =>
      E ← ftest;
      _ ← btest;
      Ok (Some (Merge.printed m, bytes (inf (Merge.outs m)), E))
  end.

(** The tests run through: the files of the even numbers, of the multiples of three and of
    four are merged in order, and the document is read back as written. *)
Example main_runs :
  exists E, main 12 =
    Ok (Some ([0; 0; 0; 2; 3; 4; 4; 6; 6; 8; 8; 9], disk [DChunk 1 0 [0; 0; 0; 2; 3; 4; 4; 6; 6; 8; 8; 9]], E)).
Proof. eexists. vm_compute. reflexivity. Qed.
End crawl.

(** Two pieces, the second of which begins with a zero byte. *)
Lemma crawl_fetch_fetch_spec_witness :
  exists b', crawl_fetch_fetch (fun _ => 0) [[60; 112; 62]; [0; 1]] buff_empty = Ok b' /\ Crawl.tight b' /\
    contents b' = [60; 112; 62] /\ buff b' !! Z.to_nat (size b') = Some 0.
Proof.
  destruct (crawl_fetch_fetch_spec (fun _ => 0) [[60; 112; 62]; [0; 1]] buff_empty) as (b' & H1 & H2 & H3 & H4).
  - unfold Crawl.tight, buff_ok. simpl. lia.
  - by repeat constructor.
  - simpl. lia.
  - exists b'. split; [exact H1|]. split; [exact H2|]. split; [exact H3|]. by destruct H4 as [[? _]|[_ ?]].
Defined.
End ToolMain.
