(* ===== verification/LdbCoding.v ===== *)
(** leveldb, util/coding.h and util/coding.cc, include/leveldb/slice.h and
    include/leveldb/status.h: fixed-width and variable-length integers, strings with their
    length in front, slices and the status that operations return.

    A [Slice] and a [std::string] are the bytes they hold.  The routines that write through
    a pointer without a bound (EncodeVarint32, EncodeVarint64) are the list of the bytes they
    store; the caller's array has room for them or the program has no meaning.  The routines that read
    between two pointers take the bytes from [p] to [limit]; the pointer they return is the
    list of the bytes that are left. *)
From Stdlib Require Import String.
From stdpp Require Import strings.
From S2P Require Import Prelude.

Module Coding.

(** The bytes of a string literal. *)
Definition bytes_of (s : string) : list Z := map (fun c => Z.of_nat (Ascii.nat_of_ascii c)) (String.list_ascii_of_string s).

(** ** Status *)

Inductive Code := kNotFound | kCorruption | kNotSupported | kInvalidArgument | kIOError.

#[export] Instance Code_eq_dec : EqDecision Code.
Proof. solve_decision. Defined.

Inductive Status :=
| OK
| Failed (code : Code) (msg : list Z).

#[export] Instance Status_eq_dec : EqDecision Status.
Proof. solve_decision. Defined.

(** [Status::Status(code, msg, msg2)]. *)
Definition mkStatus (code : Code) (msg msg2 : list Z) : Status :=
  Failed code (msg ++ if decide (msg2 = []) then [] else bytes_of ": " ++ msg2).

(** [%u] and [%llu] of printf. *)
Fixpoint print_digits (fuel : nat) (n : Z) : list Z :=
  match fuel with
  | O => []
  | S fuel => (if n <? 10 then [] else print_digits fuel (n / 10)) ++ [48 + n mod 10]
  end.
Definition print_dec (n : Z) : list Z := print_digits 20 n.

Definition Corruption (msg msg2 : string) : Status := mkStatus kCorruption (bytes_of msg) (bytes_of msg2).
Definition NotFound (msg msg2 : list Z) : Status := mkStatus kNotFound msg msg2.
Definition InvalidArgument (msg msg2 : string) : Status := mkStatus kInvalidArgument (bytes_of msg) (bytes_of msg2).

Definition status_ok (s : Status) : bool := match s with OK => true | Failed _ _ => false end.

(** ** Slices *)

(** [remove_prefix]. *)
Definition remove_prefix (s : list Z) (n : nat) : outcome (list Z) :=
  _ ← c_assert (bool_decide (n <= length s)%nat); Ok (drop n s).

(** [memcmp] on [n] bytes of both, the sign of the first difference. *)
Fixpoint memcmp (a b : list Z) (n : nat) : Z :=
  match n, a, b with
  | S n', x :: a', y :: b' => if x <? y then -1 else if y <? x then 1 else memcmp a' b' n'
  | _, _, _ => 0
  end.

(** [Slice::compare]; the smaller size is converted to [int], a negative one back to a size
    that no array has. *)
Definition slice_compare (a b : list Z) : outcome Z :=
  let min_len := s32 (Z.of_nat (if (length a <? length b)%nat then length a else length b)) in
  if min_len <? 0 then Undef
  else
    let r := memcmp a b (Z.to_nat min_len) in
    if r =? 0 then
      if (length a <? length b)%nat then Ok (-1)
      else if (length b <? length a)%nat then Ok 1
      else Ok r
    else Ok r.

(** ** Fixed-width integers

    Both branches of the test of [port::kLittleEndian]; the machine of the rest of the
    program is little-endian. *)
Definition kLittleEndian : bool := true.

Definition EncodeFixed32 (le : bool) (buf : list Z) (p : nat) (value : Z) : outcome (list Z) :=
  if le then store_le 4 buf p value
  else
    buf ← store buf p (Z.land value 0xff);
    buf ← store buf (p + 1) (Z.land (Z.shiftr value 8) 0xff);
    buf ← store buf (p + 2) (Z.land (Z.shiftr value 16) 0xff);
    store buf (p + 3) (Z.land (Z.shiftr value 24) 0xff).

Definition EncodeFixed64 (le : bool) (buf : list Z) (p : nat) (value : Z) : outcome (list Z) :=
  if le then store_le 8 buf p value
  else
    buf ← store buf p (Z.land value 0xff);
    buf ← store buf (p + 1) (Z.land (Z.shiftr value 8) 0xff);
    buf ← store buf (p + 2) (Z.land (Z.shiftr value 16) 0xff);
    buf ← store buf (p + 3) (Z.land (Z.shiftr value 24) 0xff);
    buf ← store buf (p + 4) (Z.land (Z.shiftr value 32) 0xff);
    buf ← store buf (p + 5) (Z.land (Z.shiftr value 40) 0xff);
    buf ← store buf (p + 6) (Z.land (Z.shiftr value 48) 0xff);
    store buf (p + 7) (Z.land (Z.shiftr value 56) 0xff).

(** The arrays [buf] of the callers are written in full before they are read. *)
Definition PutFixed32 (dst : list Z) (value : Z) : outcome (list Z) :=
  buf ← EncodeFixed32 kLittleEndian (replicate 4 0) 0 value; Ok (dst ++ buf).

Definition PutFixed64 (dst : list Z) (value : Z) : outcome (list Z) :=
  buf ← EncodeFixed64 kLittleEndian (replicate 8 0) 0 value; Ok (dst ++ buf).

Definition DecodeFixed32 (le : bool) (buf : list Z) (p : nat) : outcome Z :=
  if le then load_le 4 buf p
  else
    b0 ← load buf p; b1 ← load buf (p + 1); b2 ← load buf (p + 2); b3 ← load buf (p + 3);
    Ok (Z.lor (Z.lor (Z.lor b0 (Z.shiftl b1 8)) (Z.shiftl b2 16)) (Z.shiftl b3 24)).

Definition DecodeFixed64 (le : bool) (buf : list Z) (p : nat) : outcome Z :=
  if le then load_le 8 buf p
  else
    lo ← DecodeFixed32 le buf p;
    hi ← DecodeFixed32 le buf (p + 4);
    Ok (Z.lor (Z.shiftl hi 32) lo).

(** ** Variable-length integers *)

Definition EncodeVarint32 (v : Z) : list Z :=
  let B := 128 in
  if v <? Z.shiftl 1 7 then [u8 v]
  else if v <? Z.shiftl 1 14 then [u8 (Z.lor v B); u8 (Z.shiftr v 7)]
  else if v <? Z.shiftl 1 21 then [u8 (Z.lor v B); u8 (Z.lor (Z.shiftr v 7) B); u8 (Z.shiftr v 14)]
  else if v <? Z.shiftl 1 28 then
    [u8 (Z.lor v B); u8 (Z.lor (Z.shiftr v 7) B); u8 (Z.lor (Z.shiftr v 14) B); u8 (Z.shiftr v 21)]
  else
    [u8 (Z.lor v B); u8 (Z.lor (Z.shiftr v 7) B); u8 (Z.lor (Z.shiftr v 14) B);
     u8 (Z.lor (Z.shiftr v 21) B); u8 (Z.shiftr v 28)].

(** The loop of [EncodeVarint64]; ten iterations are enough for 64 bits. *)
Fixpoint encode_varint64 (fuel : nat) (v : Z) : list Z :=
  match fuel with
  | O => []
  | S n =>
      if 128 <=? v then u8 (Z.lor (Z.land v 127) 128) :: encode_varint64 n (Z.shiftr v 7)
      else [u8 v]
  end.

Definition EncodeVarint64 (v : Z) : list Z := encode_varint64 10 v.

(** An array of [n] bytes that receives [bs] from its start, and the bytes written. *)
Definition in_array (n : nat) (bs : list Z) : outcome (list Z) :=
  if decide (length bs <= n)%nat then Ok bs else Undef.

Definition PutVarint32 (dst : list Z) (v : Z) : outcome (list Z) :=
  bs ← in_array 5 (EncodeVarint32 v); Ok (dst ++ bs).

Definition PutVarint64 (dst : list Z) (v : Z) : outcome (list Z) :=
  bs ← in_array 10 (EncodeVarint64 v); Ok (dst ++ bs).

(** The length, a [size_t], is converted to 32 bits. *)
Definition PutLengthPrefixedSlice (dst value : list Z) : outcome (list Z) :=
  dst ← PutVarint32 dst (u32 (Z.of_nat (length value))); Ok (dst ++ value).

Fixpoint varint_length (fuel : nat) (v len : Z) : Z :=
  match fuel with
  | O => len
  | S n => if 128 <=? v then varint_length n (Z.shiftr v 7) (len + 1) else len
  end.

Definition VarintLength (v : Z) : Z := varint_length 10 v 1.

(** The loop of [GetVarint32PtrFallback] and [GetVarint64Ptr]: [w] is the width of the
    result, [last] the largest shift. *)
Fixpoint get_varint_loop (w last shift result : Z) (input : list Z) : option (Z * list Z) :=
  if last <? shift then None
  else
    match input with
    | [] => None
    | byte :: rest =>
        if negb (Z.land byte 128 =? 0) then
          get_varint_loop w last (shift + 7) (Z.lor result (Z.shiftl (Z.land byte 127) shift mod 2 ^ w)) rest
        else Some (Z.lor result (Z.shiftl byte shift mod 2 ^ w), rest)
    end.

Definition GetVarint32PtrFallback (input : list Z) : option (Z * list Z) := get_varint_loop 32 28 0 0 input.

Definition GetVarint32Ptr (input : list Z) : option (Z * list Z) :=
  match input with
  | result :: rest =>
      if Z.land result 128 =? 0 then Some (result, rest) else GetVarint32PtrFallback input
  | [] => GetVarint32PtrFallback input
  end.

Definition GetVarint64Ptr (input : list Z) : option (Z * list Z) := get_varint_loop 64 63 0 0 input.

(** A failing call leaves [*input] and [*value] alone. *)
Definition GetVarint32 (input : list Z) : option (Z * list Z) := GetVarint32Ptr input.
Definition GetVarint64 (input : list Z) : option (Z * list Z) := GetVarint64Ptr input.

(** Both functions of that name.  The one on slices has moved [*input] past the length
    when it returns [false] for a length that is too large. *)
Definition GetLengthPrefixedSlicePtr (input : list Z) : option (list Z * list Z) :=
  match GetVarint32Ptr input with
  | None => None
  | Some (len, p) =>
      if Z.of_nat (length p) <? len then None
      else Some (take (Z.to_nat len) p, drop (Z.to_nat len) p)
  end.

Definition GetLengthPrefixedSlice (input : list Z) : option (list Z) * list Z :=
  match GetVarint32 input with
  | None => (None, input)
  | Some (len, input) =>
      if len <=? Z.of_nat (length input)
      then (Some (take (Z.to_nat len) input), drop (Z.to_nat len) input)
      else (None, input)
  end.

(** * Lemmas *)

Lemma lor_128 v : u8 (Z.lor v 128) = v mod 128 + 128.
Proof.
  replace (v mod 128 + 128) with (Z.lor (v mod 2 ^ 7) (Z.shiftl 1 7)).
  2: { rewrite lor_shiftl by (try apply Z.mod_pos_bound; lia). reflexivity. }
  unfold u8. apply Z.bits_inj'; intros i Hi.
  destruct (decide (i < 8)) as [Hlt|Hge].
  - rewrite Z.mod_pow2_bits_low, !Z.lor_spec by lia. destruct (decide (i < 7)).
    + by rewrite Z.mod_pow2_bits_low by lia.
    + replace i with 7 by lia. rewrite Z.mod_pow2_bits_high by lia.
      replace (Z.testbit 128 7) with true by reflexivity. by rewrite orb_true_r.
  - rewrite Z.mod_pow2_bits_high, Z.lor_spec, Z.mod_pow2_bits_high, Z.shiftl_spec by lia.
    rewrite (Z.bits_above_log2 1); [done|lia|simpl; lia].
Qed.

Lemma land_127 v : Z.land v 127 = v mod 128.
Proof. apply (land_mod v 7). lia. Qed.

Lemma land_128 b : is_u8 b -> (Z.land b 128 =? 0) = (b <? 128).
Proof.
  intros Hb. replace 128 with (2 ^ 7) at 1 by reflexivity.
  rewrite <- (Z.mul_1_l (2 ^ 7)), <- Z.shiftl_mul_pow2 by lia.
  assert (Z.land b (Z.shiftl 1 7) = Z.shiftl (Z.land (Z.shiftr b 7) 1) 7) as ->.
  { apply Z.bits_inj'; intros i Hi. rewrite Z.shiftl_spec, Z.land_spec, Z.shiftl_spec by lia.
    destruct (decide (i < 7)); [by rewrite !(Z.testbit_neg_r _ (i - 7)), andb_false_r by lia|].
    rewrite Z.land_spec, Z.shiftr_spec by lia. by rewrite Z.sub_add. }
  rewrite (land_mod _ 1), Z.shiftl_mul_pow2, Z.shiftr_div_pow2 by lia.
  apply eq_true_iff_eq. rewrite Z.eqb_eq, Z.ltb_lt. unfold is_u8 in Hb.
  change (2 ^ 7) with 128. change (2 ^ 1) with 2. Z.div_mod_to_equations. lia.
Qed.

(** The encoding as arithmetic. *)
Fixpoint varint (n : nat) (v : Z) : list Z :=
  match n with
  | O => []
  | S n => if v <? 128 then [v] else v mod 128 + 128 :: varint n (v / 128)
  end.

Lemma encode_varint64_eq n v : 0 <= v -> encode_varint64 n v = varint n v.
Proof.
  revert v; induction n as [|n IH]; intros v Hv; [done|]. cbn [encode_varint64 varint].
  rewrite lor_128, land_127, Z.mod_mod, (Z.shiftr_div_pow2 v 7) by lia. change (2 ^ 7) with 128.
  destruct (Z.ltb_spec v 128), (Z.leb_spec 128 v); try lia.
  - f_equal. zlia.
  - f_equal. apply IH. apply Z.div_pos; lia.
Qed.

Lemma EncodeVarint32_eq v : is_u32 v -> EncodeVarint32 v = varint 5 v.
Proof.
  intros Hv. unfold EncodeVarint32. rewrite !lor_128, !Z.shiftr_div_pow2 by lia.
  change (Z.shiftl 1 7) with 128. change (Z.shiftl 1 14) with (128 * 128).
  change (Z.shiftl 1 21) with (128 * 128 * 128). change (Z.shiftl 1 28) with (128 * 128 * 128 * 128).
  change (2 ^ 7) with 128. change (2 ^ 14) with (128 * 128).
  change (2 ^ 21) with (128 * 128 * 128). change (2 ^ 28) with (128 * 128 * 128 * 128).
  unfold is_u32 in Hv. pow2. cbn [varint]. rewrite !Z.div_div by lia.
  repeat case_match; rewrite ?Z.ltb_lt, ?Z.ltb_ge in *; repeat f_equal; unfold u8; pow2;
    Z.div_mod_to_equations; lia.
Qed.

Lemma varint_mono n m v :
  0 <= v < 128 ^ Z.of_nat n -> (0 < n <= m)%nat -> varint m v = varint n v.
Proof.
  revert m v; induction n as [|n IH]; intros m v Hv Hm; [lia|].
  destruct m as [|m]; [lia|]. cbn [varint]. destruct (Z.ltb_spec v 128); [done|]. f_equal.
  destruct n as [|n]; [change (128 ^ Z.of_nat 1) with 128 in Hv; lia|]. apply IH; [|lia].
  rewrite Nat2Z.inj_succ, Z.pow_succ_r in Hv by lia. Z.div_mod_to_equations. nia.
Qed.

Lemma EncodeVarint32_64 v : is_u32 v -> EncodeVarint32 v = EncodeVarint64 v.
Proof.
  intros Hv. unfold EncodeVarint64. rewrite EncodeVarint32_eq, encode_varint64_eq by (done || apply Hv).
  symmetry. apply varint_mono; [|lia]. unfold is_u32 in Hv. simpl Z.of_nat. lia.
Qed.

Lemma length_varint n v : (length (varint n v) <= n)%nat.
Proof. revert v; induction n as [|n IH]; intros v; cbn; [done|]. case_match; cbn; [lia|]. specialize (IH (v / 128)). lia. Qed.

Lemma varint_bytes n v : 0 <= v -> Forall is_u8 (varint n v).
Proof.
  revert v; induction n as [|n IH]; intros v Hv; cbn; [done|].
  case_match; rewrite ?Z.ltb_lt, ?Z.ltb_ge in *.
  - repeat constructor; lia.
  - constructor; [zlia|]. apply IH. apply Z.div_pos; lia.
Qed.

Lemma varint_not_nil n v : (0 < n)%nat -> varint n v <> [].
Proof. destruct n; [lia|]. cbn. by case_match. Qed.

Lemma varint_length_eq n v len : (0 < n)%nat -> 0 <= v < 128 ^ Z.of_nat n ->
  varint_length n v len = len - 1 + Z.of_nat (length (varint n v)).
Proof.
  revert v len; induction n as [|n IH]; intros v len Hn Hv; [lia|].
  cbn [varint_length varint]. rewrite (Z.shiftr_div_pow2 v 7) by lia. change (2 ^ 7) with 128.
  destruct (Z.leb_spec 128 v), (Z.ltb_spec v 128); try lia.
  - destruct n as [|n]; [change (128 ^ Z.of_nat 1) with 128 in Hv; lia|].
    rewrite IH; [cbn [length]; lia|lia|].
    rewrite Nat2Z.inj_succ, Z.pow_succ_r in Hv by lia. Z.div_mod_to_equations. nia.
  - cbn. lia.
Qed.

(** Reading an encoding back, from any point of the loop. *)
Lemma get_varint_loop_ok w last n v shift result rest :
  (0 < n)%nat -> 0 <= shift -> shift + 7 * Z.of_nat (length (varint n v)) - 7 <= last ->
  0 <= result < 2 ^ shift -> 0 <= v < 128 ^ Z.of_nat n -> v * 2 ^ shift < 2 ^ w ->
  get_varint_loop w last shift result (varint n v ++ rest) = Some (result + v * 2 ^ shift, rest).
Proof.
  revert v shift result; induction n as [|n IH]; intros v shift result Hn Hs Hlast Hr Hv Hw; [lia|].
  assert (0 < 2 ^ shift) as Hp by (apply Z.pow_pos_nonneg; lia).
  cbn [varint] in *. destruct (Z.ltb_spec v 128) as [Hlt|Hge].
  - cbn [app length get_varint_loop] in *. rewrite land_128 by (unfold is_u8; lia).
    rewrite (proj2 (Z.ltb_ge last shift)), (proj2 (Z.ltb_lt v 128)) by lia. cbn.
    rewrite Z.mod_small by (rewrite Z.shiftl_mul_pow2 by lia; nia). by rewrite lor_shiftl by lia.
  - cbn [app length get_varint_loop] in *.
    destruct n as [|n]; [change (128 ^ Z.of_nat 1) with 128 in Hv; lia|].
    assert (1 <= length (varint (S n) (v / 128)))%nat as Hlen
      by (pose proof (varint_not_nil (S n) (v / 128) ltac:(lia)); destruct (varint _ _); [done|simpl; lia]).
    rewrite land_128 by (unfold is_u8; zlia).
    rewrite (proj2 (Z.ltb_ge last shift)), (proj2 (Z.ltb_ge (v mod 128 + 128) 128)) by zlia. cbn [negb].
    rewrite land_127. replace ((v mod 128 + 128) mod 128) with (v mod 128) by zlia.
    pose proof (Z.mod_pos_bound v 128 ltac:(lia)) as Hm. pose proof (Z.div_mod v 128 ltac:(lia)) as Hd.
    rewrite Z.mod_small by (rewrite Z.shiftl_mul_pow2 by lia; nia). rewrite lor_shiftl by lia.
    rewrite (Nat2Z.inj_succ (S n)), Z.pow_succ_r in Hv by lia.
    assert (2 ^ (shift + 7) = 2 ^ shift * 128) as Hp7 by (rewrite Z.pow_add_r by lia; reflexivity).
    rewrite (IH (v / 128)); rewrite ?Hp7; [do 2 f_equal; nia|lia|lia|lia|nia| |].
    + split; [apply Z.div_pos; lia|apply Z.div_lt_upper_bound; lia].
    + assert (v / 128 * 128 <= v) by lia. nia.
Qed.

Definition is_u64 (x : Z) : Prop := 0 <= x < 2 ^ 64.
#[export] Instance is_u64_dec x : Decision (is_u64 x).
Proof. unfold is_u64. apply _. Defined.

Lemma length_varint32 v : is_u32 v -> (length (varint 5 v) <= 5)%nat.
Proof. intros _. apply length_varint. Qed.

Lemma GetVarint32Ptr_fallback input :
  Forall is_u8 input -> GetVarint32Ptr input = GetVarint32PtrFallback input.
Proof.
  intros Hi. destruct input as [|b rest]; [done|]. cbn [GetVarint32Ptr]. destruct (Z.land b 128 =? 0) eqn:E; [|done].
  unfold GetVarint32PtrFallback. cbn. rewrite E. cbn. inversion Hi as [|?? Hb]; subst.
  rewrite Z.shiftl_0_r, Z.mod_small; [done|]. unfold is_u8 in Hb. lia.
Qed.

Lemma GetVarint32_encode v rest :
  is_u32 v -> GetVarint32 (EncodeVarint32 v ++ rest) = Some (v, rest).
Proof.
  intros Hv. rewrite EncodeVarint32_eq by done. unfold GetVarint32, is_u32 in *. pow2.
  assert (GetVarint32Ptr (varint 5 v ++ rest) = GetVarint32PtrFallback (varint 5 v ++ rest)) as ->.
  { cbn [varint]. case_match; cbn [app GetVarint32Ptr]; rewrite land_128 by zlia.
    - rewrite H. unfold GetVarint32PtrFallback. cbn. rewrite land_128, H by zlia. cbn.
      rewrite Z.shiftl_0_r, Z.mod_small by lia. done.
    - by rewrite (proj2 (Z.ltb_ge _ _)) by zlia. }
  unfold GetVarint32PtrFallback. rewrite get_varint_loop_ok; rewrite ?Z.mul_1_r; try done; try (simpl; lia).
  pose proof (length_varint 5 v). lia.
Qed.

Lemma GetVarint64_encode v rest :
  is_u64 v -> GetVarint64 (EncodeVarint64 v ++ rest) = Some (v, rest).
Proof.
  unfold is_u64. pow2. intros Hv. unfold GetVarint64, GetVarint64Ptr, EncodeVarint64.
  rewrite encode_varint64_eq by lia.
  rewrite get_varint_loop_ok; rewrite ?Z.mul_1_r; try done; try (simpl; lia).
  pose proof (length_varint 10 v). lia.
Qed.

Lemma PutVarint32_eq dst v : is_u32 v -> PutVarint32 dst v = Ok (dst ++ EncodeVarint32 v).
Proof.
  intros Hv. unfold PutVarint32, in_array. rewrite decide_True; [done|].
  rewrite EncodeVarint32_eq by done. apply length_varint.
Qed.

Lemma PutVarint64_eq dst v : is_u64 v -> PutVarint64 dst v = Ok (dst ++ EncodeVarint64 v).
Proof.
  intros Hv. unfold PutVarint64, in_array, EncodeVarint64, is_u64 in *. rewrite decide_True; [done|].
  rewrite encode_varint64_eq by lia. apply length_varint.
Qed.

(** A string that a 32-bit length can describe. *)
Definition fits32 (s : list Z) : Prop := Z.of_nat (length s) < 2 ^ 32.
#[export] Instance fits32_dec s : Decision (fits32 s).
Proof. unfold fits32. apply _. Defined.

(** [varstring] of the formats: the length, then the bytes. *)
Definition varstring (s : list Z) : list Z := EncodeVarint32 (Z.of_nat (length s)) ++ s.

Lemma fits32_u32 s : fits32 s -> is_u32 (Z.of_nat (length s)).
Proof. unfold fits32, is_u32. lia. Qed.

Lemma PutLengthPrefixedSlice_eq dst s :
  fits32 s -> PutLengthPrefixedSlice dst s = Ok (dst ++ varstring s).
Proof.
  intros Hs. unfold PutLengthPrefixedSlice, u32, fits32 in *.
  rewrite Z.mod_small, PutVarint32_eq by (unfold is_u32; lia). cbn. by rewrite <- app_assoc.
Qed.

Lemma GetLengthPrefixedSlicePtr_encode s rest :
  fits32 s -> GetLengthPrefixedSlicePtr (varstring s ++ rest) = Some (s, rest).
Proof.
  intros Hs. unfold GetLengthPrefixedSlicePtr, varstring. rewrite <- app_assoc.
  change GetVarint32Ptr with GetVarint32. rewrite GetVarint32_encode by by apply fits32_u32.
  rewrite (proj2 (Z.ltb_ge _ _)) by (rewrite length_app; lia).
  rewrite Nat2Z.id, take_app_length, drop_app_length. done.
Qed.

Lemma GetLengthPrefixedSlice_encode s rest :
  fits32 s -> GetLengthPrefixedSlice (varstring s ++ rest) = (Some s, rest).
Proof.
  intros Hs. unfold GetLengthPrefixedSlice, varstring. rewrite <- app_assoc.
  rewrite GetVarint32_encode by by apply fits32_u32.
  rewrite (proj2 (Z.leb_le _ _)) by (rewrite length_app; lia).
  rewrite Nat2Z.id, take_app_length, drop_app_length. done.
Qed.

Lemma PutFixed32_eq dst v : PutFixed32 dst v = Ok (dst ++ le_split 4 v).
Proof. reflexivity. Qed.

Lemma PutFixed64_eq dst v : PutFixed64 dst v = Ok (dst ++ le_split 8 v).
Proof. reflexivity. Qed.

Lemma DecodeFixed32_at buf p v :
  at_off buf p (le_split 4 v) -> DecodeFixed32 kLittleEndian buf p = Ok (u32 v).
Proof.
  intros H. unfold DecodeFixed32. cbn. rewrite (at_off_load_le 4 _ _ _ H); [|apply length_le_split].
  by rewrite le_combine_split.
Qed.

Lemma DecodeFixed64_at buf p v :
  at_off buf p (le_split 8 v) -> DecodeFixed64 kLittleEndian buf p = Ok (u64 v).
Proof.
  intros H. unfold DecodeFixed64. cbn. rewrite (at_off_load_le 8 _ _ _ H); [|apply length_le_split].
  by rewrite le_combine_split.
Qed.

Lemma EncodeFixed32_at pre old post v :
  length old = 4%nat ->
  EncodeFixed32 kLittleEndian (pre ++ old ++ post) (length pre) v = Ok (pre ++ le_split 4 v ++ post).
Proof. intros H. by apply store_le_app. Qed.

Lemma EncodeFixed64_at pre old post v :
  length old = 8%nat ->
  EncodeFixed64 kLittleEndian (pre ++ old ++ post) (length pre) v = Ok (pre ++ le_split 8 v ++ post).
Proof. intros H. by apply store_le_app. Qed.

Create Rewrite HintDb ldb.
#[export] Hint Rewrite PutFixed32_eq PutFixed64_eq : ldb.

End Coding.
