(* ===== verification/LdbLog.v ===== *)
(** leveldb, db/log_format.h, db/log_writer.cc, db/log_reader.cc: the log of records.  A
    file is a sequence of blocks of 32768 bytes; a record is cut into fragments that do not
    cross a block, each with a checksum, its length and its type.

    The files behind [WritableFile] and [SequentialFile] are interfaces, their operations in
    one class and what a working file promises in another.  The theorems: what was written
    is read back, and a file that ends at any byte of the last record still gives all
    the records before it and nothing else. *)
From Stdlib Require Import String.
From stdpp Require Import strings.
From S2P Require Import Prelude LdbCoding LdbCrc.

Module Log.
Import Coding Crc.

(** ** log_format.h *)
Definition kZeroType : Z := 0.
Definition kFullType : Z := 1.
Definition kFirstType : Z := 2.
Definition kMiddleType : Z := 3.
Definition kLastType : Z := 4.
Definition kMaxRecordType : Z := kLastType.
Definition kBlockSize : Z := 32768.
Arguments kBlockSize : simpl never.
Definition kHeaderSize : Z := 4 + 1 + 2.

(** Values of [Reader] beyond the record types. *)
Definition kEof : Z := kMaxRecordType + 1.
Definition kBadRecord : Z := kMaxRecordType + 2.

(** ** Files *)
Class WritableFile (F : Type) := {
  file_append : F -> list Z -> Status * F;
  file_flush : F -> Status * F
}.

Class SequentialFile (F : Type) := {
  file_read : F -> nat -> Status * list Z * F;
  file_skip : F -> Z -> Status * F
}.

(** Files on which no operation fails. *)
Class WritableFileOk (F : Type) `{!WritableFile F} := {
  contents : F -> list Z;
  append_ok f d : exists f', file_append f d = (OK, f') /\ contents f' = contents f ++ d;
  flush_ok f : exists f', file_flush f = (OK, f') /\ contents f' = contents f
}.

Class SequentialFileOk (F : Type) `{!SequentialFile F} := {
  unread : F -> list Z;
  read_ok f n : exists f', file_read f n = (OK, take n (unread f), f') /\ unread f' = drop n (unread f)
}.

(** ** The writer *)
Section writer.
Context {F : Type} `{!WritableFile F}.
(** The address of the bytes whose checksum is computed. *)
Context (addr : Z).

Record Writer := mkWriter {
  dest_ : F;
  block_offset_ : Z;
  type_crc_ : list Z
}.

Definition type_crc (i : Z) : outcome Z := Value addr [i] 0 1.

Definition newWriter (dest : F) : outcome Writer :=
  c0 ← type_crc 0; c1 ← type_crc 1; c2 ← type_crc 2; c3 ← type_crc 3; c4 ← type_crc 4;
  Ok (mkWriter dest 0 [c0; c1; c2; c3; c4]).

(** The record is [n] bytes of [slice] from [ptr]. *)
Definition EmitPhysicalRecord (w : Writer) (t : Z) (slice : list Z) (ptr n : nat) : outcome (Status * Writer) :=
  _ ← c_assert (Z.of_nat n <=? 0xffff);
  _ ← c_assert (block_offset_ w + kHeaderSize + Z.of_nat n <=? kBlockSize);
  let buf := replicate (Z.to_nat kHeaderSize) 0 in
  buf ← store buf 4 (u8 (Z.land (Z.of_nat n) 0xff));
  buf ← store buf 5 (u8 (Z.shiftr (Z.of_nat n) 8));
  buf ← store buf 6 (u8 t);
  tc ← load (type_crc_ w) (Z.to_nat t);
  crc ← Extend addr slice tc ptr n;
  let crc := Mask crc in
  buf ← EncodeFixed32 kLittleEndian buf 0 crc;
  let '(s, dest) := file_append (dest_ w) buf in
  payload ← load_range slice ptr n;
  let '(s, dest) :=
    if status_ok s then
      let '(s, dest) := file_append dest payload in
      if status_ok s then file_flush dest else (s, dest)
    else (s, dest) in
  Ok (s, mkWriter dest (block_offset_ w + (kHeaderSize + Z.of_nat n)) (type_crc_ w)).

(** The loop of [AddRecord]; the status of the trailer's [Append] is dropped. *)
Fixpoint add_record_loop (fuel : nat) (slice : list Z) (w : Writer) (ptr left : nat) (begin : bool)
    : outcome (Status * Writer) :=
  match fuel with
  | O => Undef
  | S fuel =>
      let leftover := kBlockSize - block_offset_ w in
      _ ← c_assert (0 <=? leftover);
      let w :=
        if leftover <? kHeaderSize then
          let dest := if 0 <? leftover then (file_append (dest_ w) (replicate (Z.to_nat leftover) 0)).2 else dest_ w in
          mkWriter dest 0 (type_crc_ w)
        else w in
      _ ← c_assert (0 <=? kBlockSize - block_offset_ w - kHeaderSize);
      let avail := Z.to_nat (kBlockSize - block_offset_ w - kHeaderSize) in
      let fragment_length := if (left <? avail)%nat then left else avail in
      let fin := (left =? fragment_length)%nat in
      let type :=
        if begin && fin then kFullType
        else if begin then kFirstType
        else if fin then kLastType
        else kMiddleType in
      '(s, w) ← EmitPhysicalRecord w type slice ptr fragment_length;
      let ptr := (ptr + fragment_length)%nat in
      let left := (left - fragment_length)%nat in
      if status_ok s && (0 <? left)%nat then add_record_loop fuel slice w ptr left false
      else Ok (s, w)
  end.

(** Every iteration but one in each block writes a byte of the record. *)
Definition AddRecord (w : Writer) (slice : list Z) : outcome (Status * Writer) :=
  add_record_loop (2 * length slice + 2) slice w 0 (length slice) true.

End writer.
Arguments Writer F : clear implicits.

(** ** The reader *)
Section reader.
Context {F : Type} `{!SequentialFile F}.
Context (addr : Z).

(** [reports] are the calls of the reporter's [Corruption]. *)
Record Reader := mkReader {
  file_ : F;
  reporter_ : bool;
  checksum_ : bool;
  buffer_ : list Z;
  eof_ : bool;
  last_record_offset_ : Z;
  end_of_buffer_offset_ : Z;
  initial_offset_ : Z;
  reports : list (Z * Status)
}.

Definition newReader (file : F) (reporter checksum : bool) (initial_offset : Z) : Reader :=
  mkReader file reporter checksum [] false 0 0 initial_offset [].

Definition set_file (r : Reader) f := mkReader f (reporter_ r) (checksum_ r) (buffer_ r) (eof_ r) (last_record_offset_ r) (end_of_buffer_offset_ r) (initial_offset_ r) (reports r).
Definition set_buffer (r : Reader) b := mkReader (file_ r) (reporter_ r) (checksum_ r) b (eof_ r) (last_record_offset_ r) (end_of_buffer_offset_ r) (initial_offset_ r) (reports r).
Definition set_eof (r : Reader) := mkReader (file_ r) (reporter_ r) (checksum_ r) (buffer_ r) true (last_record_offset_ r) (end_of_buffer_offset_ r) (initial_offset_ r) (reports r).
Definition set_last (r : Reader) o := mkReader (file_ r) (reporter_ r) (checksum_ r) (buffer_ r) (eof_ r) o (end_of_buffer_offset_ r) (initial_offset_ r) (reports r).
Definition set_end (r : Reader) o := mkReader (file_ r) (reporter_ r) (checksum_ r) (buffer_ r) (eof_ r) (last_record_offset_ r) o (initial_offset_ r) (reports r).
Definition add_report (r : Reader) x := mkReader (file_ r) (reporter_ r) (checksum_ r) (buffer_ r) (eof_ r) (last_record_offset_ r) (end_of_buffer_offset_ r) (initial_offset_ r) (reports r ++ [x]).

Definition buffer_size (r : Reader) : Z := Z.of_nat (length (buffer_ r)).

Definition ReportDrop (r : Reader) (bytes : Z) (reason : Status) : Reader :=
  if reporter_ r && (initial_offset_ r <=? u64 (end_of_buffer_offset_ r - buffer_size r - bytes))
  then add_report r (bytes, reason) else r.

Definition ReportCorruption (r : Reader) (bytes : Z) (reason : list Z) : Reader :=
  ReportDrop r bytes (mkStatus kCorruption reason []).

Definition SkipToInitialBlock (r : Reader) : bool * Reader :=
  let offset_in_block := initial_offset_ r mod kBlockSize in
  let block_start_location := initial_offset_ r - offset_in_block in
  let block_start_location :=
    if kBlockSize - 6 <? offset_in_block then u64 (block_start_location + kBlockSize) else block_start_location in
  let r := set_end r block_start_location in
  if 0 <? block_start_location then
    let '(skip_status, f) := file_skip (file_ r) block_start_location in
    let r := set_file r f in
    if status_ok skip_status then (true, r)
    else (false, ReportDrop r block_start_location skip_status)
  else (true, r).

(** A [char], signed, converted to [unsigned int]. *)
Definition char_to_uint (c : Z) : Z := if c <? 128 then c else c - 256 + 2 ^ 32.

(** What [ReadPhysicalRecord] does once the buffer holds a header; [fragment] is [*result]. *)
Definition parse_header (r : Reader) (fragment : list Z) : outcome (Z * list Z * Reader) :=
  let header := buffer_ r in
  h4 ← load header 4; h5 ← load header 5; h6 ← load header 6;
  let a := Z.land h4 0xff in
  let b := Z.land h5 0xff in
  let type := char_to_uint h6 in
  let length_ := Z.lor a (Z.shiftl b 8) in
  if buffer_size r <? kHeaderSize + length_ then
    let drop_size := buffer_size r in
    Ok (kBadRecord, fragment, ReportCorruption (set_buffer r []) drop_size (bytes_of "bad record length"))
  else if (type =? kZeroType) && (length_ =? 0) then Ok (kBadRecord, fragment, set_buffer r [])
  else
    good ← (if checksum_ r then
              stored ← DecodeFixed32 kLittleEndian header 0;
              actual_crc ← Value addr header 6 (Z.to_nat (1 + length_));
              Ok (actual_crc =? Unmask stored)
            else Ok true);
    if negb good then
      let drop_size := buffer_size r in
      Ok (kBadRecord, fragment, ReportCorruption (set_buffer r []) drop_size (bytes_of "checksum mismatch"))
    else
      b ← remove_prefix (buffer_ r) (Z.to_nat (kHeaderSize + length_));
      let r := set_buffer r b in
      if u64 (end_of_buffer_offset_ r - buffer_size r - kHeaderSize - length_) <? initial_offset_ r
      then Ok (kBadRecord, [], r)
      else
        result ← load_range header (Z.to_nat kHeaderSize) (Z.to_nat length_);
        Ok (type, result, r).

(** After a successful [Read] either the buffer is a whole block or [eof_] is set, so that the
    loop runs at most twice. *)
Fixpoint read_physical_loop (fuel : nat) (r : Reader) (fragment : list Z) : outcome (Z * list Z * Reader) :=
  match fuel with
  | O => Undef
  | S fuel =>
      if buffer_size r <? kHeaderSize then
        if negb (eof_ r) then
          let '(status, buf, f) := file_read (file_ r) (Z.to_nat kBlockSize) in
          let r := set_buffer (set_file r f) buf in
          let r := set_end r (u64 (end_of_buffer_offset_ r + buffer_size r)) in
          if negb (status_ok status) then
            Ok (kEof, fragment, set_eof (ReportDrop (set_buffer r []) kBlockSize status))
          else if buffer_size r <? kBlockSize then read_physical_loop fuel (set_eof r) fragment
          else read_physical_loop fuel r fragment
        else if buffer_size r =? 0 then Ok (kEof, fragment, r)
        else
          let drop_size := buffer_size r in
          Ok (kEof, fragment, ReportCorruption (set_buffer r []) drop_size (bytes_of "truncated record at end of file"))
      else parse_header r fragment
  end.

Definition ReadPhysicalRecord (r : Reader) (fragment : list Z) : outcome (Z * list Z * Reader) :=
  read_physical_loop 2 r fragment.

(** The variables of the loop of [ReadRecord]. *)
Record scan := mkScan {
  in_fragmented_record : bool;
  prospective_record_offset : Z;
  scratch : list Z;
  fragment : list Z
}.

(** The bug of earlier writers that [kFullType] and [kFirstType] look for. *)
Definition close_partial (r : Reader) (s : scan) (reason : list Z) : Reader :=
  if in_fragmented_record s then
    if decide (scratch s = []) then r
    else ReportCorruption r (Z.of_nat (length (scratch s))) reason
  else r.

Fixpoint read_record_loop (fuel : nat) (r : Reader) (s : scan) : outcome (option (list Z) * Reader) :=
  match fuel with
  | O => Undef
  | S fuel =>
      let physical_record_offset := u64 (end_of_buffer_offset_ r - buffer_size r) in
      '(record_type, frag, r) ← ReadPhysicalRecord r (fragment s);
      let s := mkScan (in_fragmented_record s) (prospective_record_offset s) (scratch s) frag in
      let size := Z.of_nat (length (scratch s)) in
      if record_type =? kFullType then
        let r := close_partial r s (bytes_of "partial record without end(1)") in
        Ok (Some frag, set_last r physical_record_offset)
      else if record_type =? kFirstType then
        let r := close_partial r s (bytes_of "partial record without end(2)") in
        read_record_loop fuel r (mkScan true physical_record_offset frag frag)
      else if record_type =? kMiddleType then
        if negb (in_fragmented_record s) then
          read_record_loop fuel (ReportCorruption r (Z.of_nat (length frag)) (bytes_of "missing start of fragmented record(1)")) s
        else read_record_loop fuel r (mkScan true (prospective_record_offset s) (scratch s ++ frag) frag)
      else if record_type =? kLastType then
        if negb (in_fragmented_record s) then
          read_record_loop fuel (ReportCorruption r (Z.of_nat (length frag)) (bytes_of "missing start of fragmented record(2)")) s
        else Ok (Some (scratch s ++ frag), set_last r (prospective_record_offset s))
      else if record_type =? kEof then
        Ok (None, if in_fragmented_record s then ReportCorruption r size (bytes_of "partial record without end(3)") else r)
      else if record_type =? kBadRecord then
        if in_fragmented_record s then
          read_record_loop fuel (ReportCorruption r size (bytes_of "error in middle of record"))
            (mkScan false (prospective_record_offset s) [] frag)
        else read_record_loop fuel r s
      else
        read_record_loop fuel
          (ReportCorruption r (Z.of_nat (length frag) + (if in_fragmented_record s then size else 0)) (bytes_of "unknown record type " ++ print_dec record_type))
          (mkScan false (prospective_record_offset s) [] frag)
  end.

(** [true] with the record, or [false]. *)
Definition ReadRecord (fuel : nat) (r : Reader) : outcome (option (list Z) * Reader) :=
  let '(ok, r) := if last_record_offset_ r <? initial_offset_ r then SkipToInitialBlock r else (true, r) in
  if negb ok then Ok (None, r) else read_record_loop fuel r (mkScan false 0 [] []).

Definition LastRecordOffset (r : Reader) : Z := last_record_offset_ r.

End reader.
Arguments Reader F : clear implicits.

(** * The format *)

(** A physical record: checksum of type and payload, length, type, payload. *)
Definition phys (t : Z) (d : list Z) : list Z :=
  le_split 4 (Mask (crc32c (crc32c 0 [t]) d)) ++
  [Z.of_nat (length d) mod 256; Z.of_nat (length d) / 256; t] ++ d.

(** A piece of the log: a trailer of [k] zero bytes, then a physical record. *)
Definition piece : Type := nat * Z * list Z.
Definition piece_bytes (c : piece) : list Z := let '(k, t, d) := c in replicate k 0 ++ phys t d.

(** The trailer before a physical record at offset [off] of a block, and where it starts. *)
Definition pad (off : Z) : nat := if kBlockSize - off <? kHeaderSize then Z.to_nat (kBlockSize - off) else 0.
Definition start (off : Z) : Z := if kBlockSize - off <? kHeaderSize then 0 else off.
Definition avail (off : Z) : nat := Z.to_nat (kBlockSize - start off - kHeaderSize).

(** The pieces of a record (or of its rest) from an offset of a block, and the offset after it. *)
Inductive pieces : Z -> bool -> list Z -> list piece -> Z -> Prop :=
| pieces_last off b d :
    (length d <= avail off)%nat ->
    pieces off b d [(pad off, if b then kFullType else kLastType, d)] (start off + kHeaderSize + Z.of_nat (length d))
| pieces_more off b d cs off' :
    (avail off < length d)%nat ->
    pieces kBlockSize false (drop (avail off) d) cs off' ->
    pieces off b d ((pad off, if b then kFirstType else kMiddleType, take (avail off) d) :: cs) off'.

Definition pieces_bytes (cs : list piece) : list Z := concat (map piece_bytes cs).

Lemma start_bound off : 0 <= off <= kBlockSize -> 0 <= start off <= kBlockSize - kHeaderSize.
Proof. unfold start, kBlockSize, kHeaderSize. case_match; rewrite ?Z.ltb_lt, ?Z.ltb_ge in *; lia. Qed.

Lemma avail_block : avail kBlockSize <> 0%nat.
Proof. unfold avail, start, kHeaderSize, kBlockSize. rewrite (proj2 (Z.ltb_lt _ _)) by lia. lia. Qed.

Lemma length_phys t d : length (phys t d) = (7 + length d)%nat.
Proof. unfold phys. rewrite !length_app, length_le_split. done. Qed.

Lemma pieces_bound off b d cs off' : 0 <= off <= kBlockSize -> pieces off b d cs off' -> 0 <= off' <= kBlockSize.
Proof.
  intros Ho H; revert Ho; induction H as [off b d Hd|off b d cs off' Hd H IH]; intros Ho.
  - pose proof (start_bound off Ho). unfold avail, kHeaderSize, kBlockSize in *. lia.
  - apply IH. unfold kBlockSize. lia.
Qed.

(** ** Writing *)
Section writer_lemmas.
Context {F : Type} `{WritableFileOk F}.
Context (addr : Z).

Definition type_crcs : list Z := map (fun i => crc32c 0 [i]) [0; 1; 2; 3; 4].

Lemma newWriter_ok (f : F) : newWriter addr f = Ok (mkWriter f 0 type_crcs).
Proof.
  unfold newWriter, type_crc, Value.
  rewrite !(Extend_ok addr [_] 0 0 [_]) by (apply at_off_refl || (repeat constructor; lia) || (unfold is_u32; lia)).
  done.
Qed.

Lemma EmitPhysicalRecord_ok (w : Writer F) t slice ptr d :
  type_crc_ w = type_crcs -> 0 <= t <= 4 -> at_off slice ptr d -> Forall is_u8 d ->
  0 <= block_offset_ w -> block_offset_ w + kHeaderSize + Z.of_nat (length d) <= kBlockSize ->
  exists w', EmitPhysicalRecord addr w t slice ptr (length d) = Ok (OK, w') /\
    contents (dest_ w') = contents (dest_ w) ++ phys t d /\
    block_offset_ w' = block_offset_ w + kHeaderSize + Z.of_nat (length d) /\ type_crc_ w' = type_crcs.
Proof.
  intros Hc Ht Hp Hd Hoff Hb. unfold EmitPhysicalRecord, kHeaderSize, kBlockSize in *.
  rewrite (proj2 (Z.leb_le _ _)), (proj2 (Z.leb_le _ _)) by lia. cbn [c_assert]. rewrite !bind_Ok.
  change (replicate (Z.to_nat (4 + 1 + 2)) 0) with [0; 0; 0; 0; 0; 0; 0].
  set (n4 := u8 (Z.land _ 255)). set (n5 := u8 (Z.shiftr _ 8)). set (n6 := u8 t).
  replace (store [0; 0; 0; 0; 0; 0; 0] 4 n4) with (Ok [0; 0; 0; 0; n4; 0; 0]) by done. rewrite bind_Ok.
  replace (store [0; 0; 0; 0; n4; 0; 0] 5 n5) with (Ok [0; 0; 0; 0; n4; n5; 0]) by done. rewrite bind_Ok.
  replace (store [0; 0; 0; 0; n4; n5; 0] 6 n6) with (Ok [0; 0; 0; 0; n4; n5; n6]) by done. rewrite bind_Ok, Hc.
  replace (load type_crcs (Z.to_nat t)) with (Ok (crc32c 0 [t])).
  2: { assert (t = 0 \/ t = 1 \/ t = 2 \/ t = 3 \/ t = 4) as Hc5 by lia. destruct Hc5 as [->|[->|[->|[->| ->]]]]; done. }
  assert (is_u32 (crc32c 0 [t])) by (apply crc32c_u32; [unfold is_u32|repeat constructor]; lia).
  rewrite bind_Ok, Extend_ok, bind_Ok by done. set (c := Mask _).
  replace (EncodeFixed32 kLittleEndian [0; 0; 0; 0; n4; n5; n6] 0 c) with (Ok (le_split 4 c ++ [n4; n5; n6])) by done.
  rewrite bind_Ok, at_off_load_range by done.
  destruct (append_ok (dest_ w) (le_split 4 c ++ [n4; n5; n6])) as (f1 & E1 & C1). rewrite E1, bind_Ok. cbn [status_ok].
  destruct (append_ok f1 d) as (f2 & E2 & C2). rewrite E2. cbn [status_ok].
  destruct (flush_ok f2) as (f3 & E3 & C3). rewrite E3. eexists. split; [done|]. cbn.
  split_and!; [|lia|done]. rewrite C3, C2, C1. unfold phys. fold c.
  assert (n4 = Z.of_nat (length d) mod 256) as -> by (subst n4; rewrite land_255; zlia).
  assert (n5 = Z.of_nat (length d) / 256) as -> by (subst n5; rewrite Z.shiftr_div_pow2 by lia; zlia).
  assert (n6 = t) as -> by (subst n6; zlia). by rewrite <- !app_assoc.
Qed.

Lemma add_record_loop_ok fuel slice (w : Writer F) ptr b d :
  type_crc_ w = type_crcs -> at_off slice ptr d -> Forall is_u8 d -> 0 <= block_offset_ w <= kBlockSize ->
  (2 * length d + (if decide (avail (block_offset_ w) = 0%nat) then 2 else 1) <= fuel)%nat ->
  exists cs off' w', pieces (block_offset_ w) b d cs off' /\
    add_record_loop addr fuel slice w ptr (length d) b = Ok (OK, w') /\
    contents (dest_ w') = contents (dest_ w) ++ pieces_bytes cs /\ block_offset_ w' = off' /\ type_crc_ w' = type_crcs.
Proof.
  revert w ptr b d; induction fuel as [|fuel IH]; intros w ptr b d Hc Hp Hd Hoff Hf; [case_decide; lia|].
  cbn [add_record_loop]. rewrite (proj2 (Z.leb_le 0 (kBlockSize - block_offset_ w))) by lia. cbn [c_assert]. rewrite bind_Ok.
  set (w1 := if kBlockSize - block_offset_ w <? kHeaderSize then _ else w).
  assert (block_offset_ w1 = start (block_offset_ w) /\ type_crc_ w1 = type_crcs /\
    contents (dest_ w1) = contents (dest_ w) ++ replicate (pad (block_offset_ w)) 0) as (Ho1 & Hc1 & Hd1).
  { subst w1. unfold start, pad. destruct (kBlockSize - block_offset_ w <? kHeaderSize); [|by rewrite app_nil_r].
    split_and!; [done..|]. cbn [dest_].
    destruct (Z.ltb_spec 0 (kBlockSize - block_offset_ w)).
    - destruct (append_ok (dest_ w) (replicate (Z.to_nat (kBlockSize - block_offset_ w)) 0)) as (f1 & -> & C1). exact C1.
    - rewrite Z2Nat.nonpos by lia. by rewrite app_nil_r. }
  pose proof (start_bound _ Hoff) as Hst. rewrite Ho1, (proj2 (Z.leb_le _ _)) by lia. cbn [c_assert]. rewrite bind_Ok.
  fold (avail (block_offset_ w)). set (av := avail (block_offset_ w)) in *.
  assert (start (block_offset_ w) + kHeaderSize + Z.of_nat av = kBlockSize) as Hav by (subst av; unfold avail; lia).
  destruct (decide (length d <= av)%nat) as [Hle|Hgt].
  - replace (if (length d <? av)%nat then length d else av) with (length d)
      by (destruct (Nat.ltb_spec (length d) av); lia).
    rewrite Nat.eqb_refl, andb_true_r.
    replace (if b then kFullType else if b then kFirstType else kLastType) with (if b then kFullType else kLastType)
      by by destruct b.
    destruct (EmitPhysicalRecord_ok w1 (if b then kFullType else kLastType) slice ptr d) as (w2 & E2 & C2 & O2 & T2);
      [done|destruct b; done|done..|lia|lia|].
    rewrite E2, bind_Ok, Nat.sub_diag. cbn [status_ok andb Nat.ltb Nat.leb].
    eexists _, _, w2. split_and!; [apply pieces_last; fold av; lia|done| |rewrite O2, Ho1; lia|done].
    unfold pieces_bytes. cbn. by rewrite C2, Hd1, app_nil_r, <- app_assoc.
  - rewrite (proj2 (Nat.ltb_ge (length d) av)), (proj2 (Nat.eqb_neq (length d) av)), andb_false_r by lia.
    assert (length (take av d) = av) as Hlt by (rewrite length_take; lia).
    rewrite <- (take_drop av d), at_off_app, Hlt in Hp. destruct Hp as [Hp1 Hp2].
    destruct (EmitPhysicalRecord_ok w1 (if b then kFirstType else kMiddleType) slice ptr (take av d)) as (w2 & E2 & C2 & O2 & T2);
      [done|destruct b; done|done|by apply Forall_take|lia|lia|].
    rewrite Hlt in E2, O2. rewrite E2, bind_Ok. cbn [status_ok andb].
    rewrite (proj2 (Nat.ltb_lt 0 (length d - av))) by lia.
    destruct (IH w2 (ptr + av)%nat false (drop av d)) as (cs & off' & w3 & P3 & E3 & C3 & O3 & T3);
      [done|done|by apply Forall_drop|lia| |].
    { rewrite length_drop, O2, Ho1, Hav. rewrite (decide_False (P := avail kBlockSize = 0%nat)) by apply avail_block. destruct (decide (av = 0%nat)); lia. }
    rewrite length_drop in E3. rewrite E3. rewrite O2, Ho1, Hav in P3.
    eexists _, off', w3. split_and!; [apply pieces_more; fold av; [lia|done]|done| |done..].
    rewrite C3, C2, Hd1. unfold pieces_bytes. cbn. by rewrite <- !app_assoc.
Qed.

Lemma AddRecord_ok (w : Writer F) d :
  type_crc_ w = type_crcs -> Forall is_u8 d -> 0 <= block_offset_ w <= kBlockSize ->
  exists cs off' w', pieces (block_offset_ w) true d cs off' /\ AddRecord addr w d = Ok (OK, w') /\
    contents (dest_ w') = contents (dest_ w) ++ pieces_bytes cs /\ block_offset_ w' = off' /\ type_crc_ w' = type_crcs.
Proof. intros Hc Hd Hb. apply add_record_loop_ok; try done; [apply at_off_refl|case_decide; lia]. Qed.

End writer_lemmas.

(** ** Reading *)
Section reader_lemmas.
Context {F : Type} `{SequentialFileOk F}.
Context (addr : Z).
Implicit Types r : Reader F.

(** The reader stands at offset [off] of a block with [rest] to come: the buffer ends at the
    end of the block or of the file. *)
Record reading r (rest : list Z) (off : Z) : Prop := {
  rd_rest : rest = buffer_ r ++ unread (file_ r);
  rd_off : 0 <= off;
  rd_eof : eof_ r = true -> unread (file_ r) = [] /\ off + buffer_size r <= kBlockSize;
  rd_block : eof_ r = false -> off + buffer_size r = kBlockSize \/ off = 0 /\ buffer_ r = [];
  rd_init : initial_offset_ r = 0;
  rd_last : 0 <= last_record_offset_ r
}.

(** Part of the reader that reading a good record leaves alone. *)
Definition same_reports r r' : Prop :=
  reports r' = reports r /\ checksum_ r' = checksum_ r /\ last_record_offset_ r' = last_record_offset_ r.

Lemma phys_app t d : phys t d = (le_split 4 (Mask (crc32c (crc32c 0 [t]) d)) ++
  [Z.of_nat (length d) mod 256; Z.of_nat (length d) / 256]) ++ [t] ++ d.
Proof. unfold phys. by rewrite <- app_assoc. Qed.

Lemma phys_length_field n : 0 <= n < 2 ^ 16 -> Z.lor (Z.land (n mod 256) 255) (Z.shiftl (Z.land (n / 256) 255) 8) = n.
Proof. intros Hn. rewrite !land_255, lor_shiftl by zlia. zlia. Qed.

(** The three bytes of the header after the checksum. *)
Lemma phys_header t d buf :
  (7 <= length buf)%nat -> buf `prefix_of` phys t d \/ (exists b, buf = phys t d ++ b) ->
  load buf 4 = Ok (Z.of_nat (length d) mod 256) /\ load buf 5 = Ok (Z.of_nat (length d) / 256) /\ load buf 6 = Ok t.
Proof.
  intros Hl Hb.
  assert (forall i, (i < 7)%nat -> buf !! i = phys t d !! i) as Hi.
  { intros i Hi. destruct Hb as [[b ->]|[b ->]].
    - by rewrite lookup_app_l by lia.
    - rewrite lookup_app_l; [done|]. rewrite length_phys. lia. }
  unfold load. rewrite !Hi by lia. done.
Qed.

Lemma parse_header_ok r frag t d b rest off :
  reading r rest off -> 1 <= t <= 4 -> Forall is_u8 d -> Z.of_nat (length d) < 2 ^ 16 ->
  buffer_ r = phys t d ++ b ->
  parse_header addr r frag = Ok (t, d, set_buffer r b).
Proof.
  intros Hr Ht Hd Hn Hb. unfold parse_header.
  assert (length (buffer_ r) = 7 + length d + length b)%nat as Hlen by (by rewrite Hb, length_app, length_phys).
  destruct (phys_header t d (buffer_ r)) as (-> & -> & ->); [lia|eauto|]. rewrite !bind_Ok.
  rewrite phys_length_field by lia. unfold buffer_size at 1, kHeaderSize.
  rewrite (proj2 (Z.ltb_ge _ _)) by lia.
  replace (char_to_uint t) with t by (unfold char_to_uint; rewrite (proj2 (Z.ltb_lt _ _)) by lia; done).
  replace (t =? kZeroType) with false by (symmetry; apply Z.eqb_neq; unfold kZeroType; lia). cbn [andb].
  assert (at_off (buffer_ r) 6 ([t] ++ d)) as H6.
  { rewrite Hb, phys_app, <- app_assoc. eexists _, b. split; [done|]. by rewrite length_app, length_le_split. }
  assert (Forall is_u8 ([t] ++ d)) as Hd6 by (apply Forall_app; split; [repeat constructor; lia|done]).
  assert (is_u32 (crc32c 0 [t])) as Hc1 by (apply crc32c_u32; [unfold is_u32|repeat constructor]; lia).
  assert ((if checksum_ r then
    stored ← DecodeFixed32 kLittleEndian (buffer_ r) 0;
    actual_crc ← Value addr (buffer_ r) 6 (Z.to_nat (1 + Z.of_nat (length d))); Ok (actual_crc =? Unmask stored)
    else Ok true) = Ok true) as ->.
  { destruct (checksum_ r); [|done].
    rewrite (DecodeFixed32_at _ _ (Mask (crc32c (crc32c 0 [t]) d))).
    2: { rewrite Hb. unfold phys. rewrite <- app_assoc. eexists [], _. done. }
    rewrite bind_Ok. unfold Value. replace (Z.to_nat (1 + Z.of_nat (length d))) with (length ([t] ++ d)) by (cbn; lia).
    rewrite Extend_ok, bind_Ok by (done || (unfold is_u32; lia)). rewrite <- crc32c_app.
    assert (u32 (Mask (crc32c (crc32c 0 [t]) d)) = Mask (crc32c (crc32c 0 [t]) d)) as ->
      by (apply Z.mod_small, Mask_u32).
    rewrite Unmask_Mask, Z.eqb_refl by by apply crc32c_u32. done. }
  rewrite bind_Ok. cbn [negb]. unfold remove_prefix. rewrite bool_decide_true by lia. cbn [c_assert]. rewrite !bind_Ok.
  replace (Z.to_nat (4 + 1 + 2 + Z.of_nat (length d))) with (length (phys t d)) by (rewrite length_phys; lia).
  assert (drop (length (phys t d)) (buffer_ r) = b) as -> by (rewrite Hb; apply drop_app_length). cbn [initial_offset_ set_buffer]. rewrite (rd_init _ _ _ Hr).
  rewrite (proj2 (Z.ltb_ge _ 0)) by (apply Z.mod_pos_bound; lia).
  change (Z.to_nat (4 + 1 + 2)) with 7%nat. rewrite Nat2Z.id, at_off_load_range; [done|].
  by apply at_off_tail in H6.
Qed.

(** The end of the file, with or without bytes left over. *)
Definition eof_result r (frag : list Z) : outcome (Z * list Z * Reader F) :=
  if buffer_size r =? 0 then Ok (kEof, frag, r)
  else Ok (kEof, frag, ReportCorruption (set_buffer r []) (buffer_size r) (bytes_of "truncated record at end of file")).

(** One step of the loop, when there is no block to read. *)
Lemma read_loop_settled fuel r frag :
  buffer_size r < kHeaderSize -> eof_ r = true -> read_physical_loop addr (S fuel) r frag = eof_result r frag.
Proof. intros Hs He. cbn [read_physical_loop]. by rewrite (proj2 (Z.ltb_lt _ _)), He by done. Qed.

Lemma read_loop_header fuel r frag :
  kHeaderSize <= buffer_size r -> read_physical_loop addr (S fuel) r frag = parse_header addr r frag.
Proof. intros Hs. cbn [read_physical_loop]. by rewrite (proj2 (Z.ltb_ge _ _)) by done. Qed.

(** A block is read when the buffer holds no more than a trailer. *)
Lemma read_loop_block fuel r frag rest off :
  reading r rest off -> eof_ r = false -> buffer_size r < kHeaderSize ->
  exists r1, read_physical_loop addr (S fuel) r frag = read_physical_loop addr fuel r1 frag /\
    (pad off <= length rest)%nat /\ reading r1 (drop (pad off) rest) (start off) /\ same_reports r r1 /\
    (buffer_size r1 < kHeaderSize -> eof_ r1 = true).
Proof.
  intros [-> Ho He Hb Hi Hl0] E Hs. specialize (Hb E). cbn [read_physical_loop].
  rewrite (proj2 (Z.ltb_lt _ _)), E by done. cbn [negb].
  assert (pad off = length (buffer_ r) /\ start off = 0) as [Hp Hst].
  { unfold pad, start, buffer_size, kHeaderSize, kBlockSize in *. destruct Hb as [Hb|[-> ->]]; [|done].
    rewrite (proj2 (Z.ltb_lt _ _)) by lia. split; [lia|done]. }
  rewrite Hp, Hst, drop_app_length, length_app.
  assert (Z.of_nat (Z.to_nat kBlockSize) = kBlockSize) as HB by (apply Z2Nat.id; unfold kBlockSize; lia).
  generalize dependent (Z.to_nat kBlockSize). intros B HB. destruct (read_ok (file_ r) B) as (f' & -> & Hu). cbn [status_ok negb].
  set (r1 := set_end (set_buffer (set_file r f') (take (B) (unread (file_ r)))) _).
  assert (buffer_size r1 = Z.of_nat (Nat.min (B) (length (unread (file_ r))))) as Hs1
    by (subst r1; unfold buffer_size; cbn; by rewrite length_take).
  assert (length (unread f') = length (unread (file_ r)) - B)%nat as Hl by (by rewrite Hu, length_drop).
  destruct (Z.ltb_spec (buffer_size r1) kBlockSize) as [Hlt|Hge].
  - exists (set_eof r1). split_and!; [done|lia| |done|done]. split; [subst r1; cbn; by rewrite Hu, take_drop|done| |done..].
    intros _. change (file_ (set_eof r1)) with f'. change (buffer_size (set_eof r1)) with (buffer_size r1).
    split; [apply length_zero_iff_nil|]; unfold kBlockSize in *; lia.
  - exists r1. split_and!; [done|lia| |done|unfold kBlockSize, kHeaderSize in *; lia].
    split; [subst r1; cbn; by rewrite Hu, take_drop|done| | |done..].
    + change (eof_ r1) with (eof_ r). by rewrite E.
    + intros _. left. unfold kBlockSize in *. lia.
Qed.

(** The cases of [ReadPhysicalRecord]: the end of the file before a header, or a header at the start of a piece. *)
Lemma phys_cases r frag rest off :
  reading r rest off ->
  (eof_ r = true /\ rest = buffer_ r /\ buffer_size r < kHeaderSize /\ ReadPhysicalRecord addr r frag = eof_result r frag) \/
  exists r1, (pad off <= length rest)%nat /\ reading r1 (drop (pad off) rest) (start off) /\ same_reports r r1 /\
    (buffer_size r1 < kHeaderSize /\ eof_ r1 = true /\ ReadPhysicalRecord addr r frag = eof_result r1 frag \/
     kHeaderSize <= buffer_size r1 /\ ReadPhysicalRecord addr r frag = parse_header addr r1 frag).
Proof.
  intros Hr. unfold ReadPhysicalRecord. destruct (decide (buffer_size r < kHeaderSize)) as [Hs|Hs].
  - destruct (eof_ r) eqn:E.
    + left. split_and!; [done| |done|by apply read_loop_settled].
      destruct Hr as [-> ? He]. destruct (He E) as [-> _]. by rewrite app_nil_r.
    + right. destruct (read_loop_block 1 r frag rest off) as (r1 & -> & Hp & Hr1 & Hsr & He1); [done..|].
      exists r1. split_and!; [done..|]. destruct (decide (buffer_size r1 < kHeaderSize)).
      * left. split_and!; [done|by apply He1|]. apply read_loop_settled; [done|by apply He1].
      * right. split; [lia|]. apply read_loop_header. lia.
  - right. exists r. assert (kHeaderSize <= kBlockSize - off) as Hk.
    { destruct Hr as [_ ? He Hb _ _]. destruct (eof_ r).
      - destruct (He eq_refl). lia.
      - destruct (Hb eq_refl) as [?|[_ Hb']]; [lia|]. unfold buffer_size, kHeaderSize in Hs. rewrite Hb' in Hs. cbn in Hs. lia. }
    unfold pad, start. rewrite (proj2 (Z.ltb_ge _ _)) by lia. rewrite drop_0.
    split_and!; [lia|done|done|]. right. split; [lia|]. apply read_loop_header. lia.
Qed.

(** A piece that is there in full. *)
Lemma read_piece r frag t d rest off :
  reading r (piece_bytes (pad off, t, d) ++ rest) off -> 1 <= t <= 4 -> Forall is_u8 d ->
  start off + kHeaderSize + Z.of_nat (length d) <= kBlockSize ->
  exists r', ReadPhysicalRecord addr r frag = Ok (t, d, r') /\
    reading r' rest (start off + kHeaderSize + Z.of_nat (length d)) /\ same_reports r r'.
Proof.
  intros Hr Ht Hd Hfit. pose proof (length_phys t d) as Hlp.
  destruct (phys_cases r frag _ off Hr) as [(He & Hrest & Hs & _)|(r1 & _ & Hr1 & Hsr & Hc)].
  { unfold buffer_size, kHeaderSize in Hs. rewrite <- Hrest in Hs. unfold piece_bytes in Hs.
    rewrite !length_app, Hlp in Hs. lia. }
  unfold piece_bytes in Hr1. rewrite <- app_assoc, drop_app_length' in Hr1 by by rewrite length_replicate.
  pose proof Hr1 as [Hrest Ho He Hb Hi Hl]. apply (f_equal length) in Hrest as Hlen. rewrite !length_app, Hlp in Hlen.
  destruct Hc as [(Hs & E & _)|(Hs & ->)].
  { destruct (He E) as [Hu _]. rewrite Hu in Hlen. unfold buffer_size, kHeaderSize in Hs. cbn in Hlen. lia. }
  assert (length (phys t d) <= length (buffer_ r1))%nat as Hpb.
  { rewrite Hlp. unfold buffer_size, kHeaderSize, kBlockSize in *. destruct (eof_ r1).
    - destruct (He eq_refl) as [Hu _]. rewrite Hu in Hlen. cbn in Hlen. lia.
    - destruct (Hb eq_refl) as [?|[_ Hb0]]; [lia|]. rewrite Hb0 in Hs. cbn in Hs. lia. }
  assert (buffer_ r1 = phys t d ++ drop (length (phys t d)) (buffer_ r1)) as Hbuf.
  { rewrite <- (take_drop (length (phys t d)) (buffer_ r1)) at 1. f_equal.
    apply (f_equal (take (length (phys t d)))) in Hrest. by rewrite take_app_length, take_app_le in Hrest. }
  exists (set_buffer r1 (drop (length (phys t d)) (buffer_ r1))).
  rewrite (parse_header_ok r1 frag t d _ _ _ Hr1) by (done || (unfold kHeaderSize, kBlockSize in *; lia)).
  split_and!; [done| |done]. apply (f_equal (drop (length (phys t d)))) in Hrest.
  rewrite drop_app_length, drop_app_le in Hrest by done.
  assert (buffer_size (set_buffer r1 (drop (length (phys t d)) (buffer_ r1))) = buffer_size r1 - 7 - Z.of_nat (length d)) as Hsz
    by (unfold buffer_size, set_buffer; cbn [buffer_]; rewrite length_drop; lia).
  unfold kHeaderSize in *. split; [done|lia| | |done..]; rewrite Hsz; cbn [eof_ file_ set_buffer].
  - intros E. destruct (He E). split; [done|lia].
  - intros E. destruct (Hb E) as [?|[_ Hb0]]; [left; lia|]. unfold buffer_size in Hs. rewrite Hb0 in Hs. cbn in Hs. lia.
Qed.

(** The end of the file inside a piece. *)
Lemma read_partial r frag t d p off :
  reading r p off -> p `prefix_of` piece_bytes (pad off, t, d) -> p <> piece_bytes (pad off, t, d) ->
  start off + kHeaderSize + Z.of_nat (length d) <= kBlockSize ->
  exists r', (ReadPhysicalRecord addr r frag = Ok (kEof, frag, r') \/
      ReadPhysicalRecord addr r frag = Ok (kBadRecord, frag, r') /\ buffer_ r' = [] /\ eof_ r' = true) /\
    (p = [] -> reports r' = reports r).
Proof.
  intros Hr Hpre Hne Hfit. pose proof (length_phys t d) as Hlp.
  assert (forall r1, exists r', eof_result r1 frag = Ok (kEof, frag, r') /\ (buffer_ r1 = [] -> reports r' = reports r1)) as Heof.
  { intros r1. unfold eof_result, buffer_size. destruct (Z.eqb_spec (Z.of_nat (length (buffer_ r1))) 0); eexists; (split; [done|]); [done|].
    intros Hb. rewrite Hb in *. done. }
  destruct (phys_cases r frag p off Hr) as [(He & -> & Hs & ->)|(r1 & Hp & Hr1 & Hsr & Hc)].
  { destruct (Heof r) as (r' & -> & Hrep). exists r'. auto. }
  pose proof Hr1 as [Hrest Ho He Hb Hi Hl].
  assert (p = [] -> buffer_ r1 = []) as Hnil.
  { intros ->. rewrite drop_nil in Hrest. symmetry in Hrest. apply app_eq_nil in Hrest. tauto. }
  destruct Hc as [(Hs & E & ->)|(Hs & ->)].
  { destruct (Heof r1) as (r' & -> & Hrep). exists r'. split; [by left|]. intros Hp0. rewrite Hrep by auto. apply Hsr. }
  destruct Hpre as [q Hq]. unfold piece_bytes in Hq, Hne.
  apply (f_equal (drop (pad off))) in Hq as Hq'. rewrite drop_app_length', drop_app_le in Hq' by (done || by rewrite length_replicate).
  assert (length (drop (pad off) p) < length (phys t d))%nat as Hlt.
  { destruct q as [|q0 q]; [by rewrite app_nil_r in Hq; rewrite Hq in Hne|]. rewrite Hq', length_app. cbn. lia. }
  apply (f_equal length) in Hrest as Hlen. rewrite length_app in Hlen. unfold buffer_size, kHeaderSize, kBlockSize in *.
  assert (eof_ r1 = true) as E.
  { destruct (eof_ r1) eqn:E; [done|]. destruct (Hb eq_refl) as [?|[_ Hb0]]; [lia|rewrite Hb0 in Hs; cbn in Hs; lia]. }
  destruct (He E) as [Hu _]. rewrite Hu, app_nil_r in Hrest. rewrite Hu in Hlen. cbn in Hlen.
  destruct (phys_header t d (buffer_ r1)) as (H4 & H5 & H6); [lia|left; rewrite <- Hrest; by exists q|].
  exists (ReportCorruption (set_buffer r1 []) (buffer_size r1) (bytes_of "bad record length")). split.
  - right. unfold parse_header. rewrite H4, H5, H6, !bind_Ok, phys_length_field by lia.
    unfold buffer_size, kHeaderSize. rewrite (proj2 (Z.ltb_lt _ _)) by lia. split; [done|].
    unfold ReportCorruption, ReportDrop. case_match; done.
  - intros Hp0. rewrite Hnil in Hs by done. cbn in Hs. lia.
Qed.

(** The types of the pieces of a record, and that they fit. *)
Lemma fits_block off (d : list Z) : 0 <= off <= kBlockSize -> (length d <= avail off)%nat ->
  start off + kHeaderSize + Z.of_nat (length d) <= kBlockSize.
Proof. intros Ho Hd. pose proof (start_bound off Ho). unfold avail, kHeaderSize, kBlockSize in *. lia. Qed.

Lemma take_avail off (d : list Z) : (length (take (avail off) d) <= avail off)%nat.
Proof. rewrite length_take. lia. Qed.

(** After a piece that fills the block the next one starts at its end. *)
Lemma full_block off (d : list Z) : 0 <= off <= kBlockSize -> (avail off < length d)%nat ->
  start off + kHeaderSize + Z.of_nat (length (take (avail off) d)) = kBlockSize.
Proof.
  intros Ho Hd. pose proof (start_bound off Ho). rewrite length_take, Nat.min_l by lia.
  unfold avail, kHeaderSize, kBlockSize in *. lia.
Qed.

(** What the loop of [ReadRecord] has collected before the rest [b] = false of a record. *)
Definition collected (s : scan) (b : bool) (pre : list Z) : Prop :=
  if b then in_fragmented_record s = false /\ pre = [] else in_fragmented_record s = true /\ scratch s = pre /\ 0 <= prospective_record_offset s.

Lemma collected_close r s b pre reason : collected s b pre -> b = true -> close_partial r s reason = r.
Proof. intros Hs ->. destruct Hs as [Hs _]. unfold close_partial. by rewrite Hs. Qed.

Lemma read_record_loop_S fuel r s :
  read_record_loop addr (S fuel) r s = ltac:(let t := eval cbn [read_record_loop] in (read_record_loop addr (S fuel) r s) in exact t).
Proof. reflexivity. Qed.

Lemma piece_bytes_nil c : piece_bytes c <> [].
Proof. destruct c as [[k t] d]. unfold piece_bytes, phys. by destruct k. Qed.

(** The last piece of a record. *)
Lemma read_last r s (b : bool) pre d off rest fuel :
  reading r (piece_bytes (pad off, if b then kFullType else kLastType, d) ++ rest) off -> 0 <= off <= kBlockSize ->
  (length d <= avail off)%nat -> Forall is_u8 d -> collected s b pre ->
  exists r', read_record_loop addr (S fuel) r s = Ok (Some (pre ++ d), r') /\
    reading r' rest (start off + kHeaderSize + Z.of_nat (length d)) /\ reports r' = reports r.
Proof.
  intros Hr Ho Hle Hd Hs.
  destruct (read_piece r (fragment s) _ d rest off Hr) as (r1 & E & Hr1 & Hrep & _); [by destruct b|done|by apply fits_block|].
  rewrite read_record_loop_S, E, bind_Ok.
  destruct b; destruct Hs as [Hin Hpre]; [|destruct Hpre as [Hpre Hoff]]; cbn [Z.eqb Pos.eqb kFullType kFirstType kMiddleType kLastType];
    unfold close_partial; cbn [in_fragmented_record scratch]; rewrite Hin; subst pre; cbn [negb];
    (eexists; split; [done|]; split; [|done]; destruct Hr1; split; try done; apply Z.mod_pos_bound; lia).
Qed.

(** A piece that is not the last. *)
Lemma read_more r s (b : bool) pre d off rest fuel :
  reading r (piece_bytes (pad off, if b then kFirstType else kMiddleType, take (avail off) d) ++ rest) off ->
  0 <= off <= kBlockSize -> (avail off < length d)%nat -> Forall is_u8 d -> collected s b pre ->
  exists r' s', read_record_loop addr (S fuel) r s = read_record_loop addr fuel r' s' /\
    reading r' rest kBlockSize /\ collected s' false (pre ++ take (avail off) d) /\ reports r' = reports r.
Proof.
  intros Hr Ho Hgt Hd Hs.
  destruct (read_piece r (fragment s) _ (take (avail off) d) rest off Hr) as (r1 & E & Hr1 & Hrep & _);
    [by destruct b|by apply Forall_take|apply fits_block; [done|apply take_avail]|].
  rewrite full_block in Hr1 by done. rewrite read_record_loop_S, E, bind_Ok. exists r1.
  destruct b; destruct Hs as [Hin Hpre]; [|destruct Hpre as [Hpre Hoff]]; cbn [Z.eqb Pos.eqb kFullType kFirstType kMiddleType kLastType];
    unfold close_partial; cbn [in_fragmented_record scratch]; rewrite Hin; subst pre; cbn [negb];
    (eexists; split; [done|]; split; [done|]; split; [|done]; split; [done|]; split; [done|]);
    [apply Z.mod_pos_bound; lia|done].
Qed.

(** Reading a record of which all pieces are there. *)
Lemma read_pieces r s b pre d cs off off' rest fuel :
  pieces off b d cs off' -> 0 <= off <= kBlockSize -> reading r (pieces_bytes cs ++ rest) off -> Forall is_u8 d ->
  collected s b pre -> (length cs <= fuel)%nat ->
  exists r', read_record_loop addr fuel r s = Ok (Some (pre ++ d), r') /\ reading r' rest off' /\ reports r' = reports r.
Proof.
  intros Hp; revert r s pre fuel; induction Hp as [off b d Hle|off b d cs off' Hgt Hp IH]; intros r s pre fuel Ho Hr Hd Hs Hf;
    (destruct fuel as [|fuel]; [cbn in Hf; lia|]); unfold pieces_bytes in Hr; cbn [map concat] in Hr.
  - rewrite app_nil_r in Hr. by apply (read_last r s b).
  - rewrite <- app_assoc in Hr.
    destruct (read_more r s b pre d off _ fuel Hr Ho Hgt Hd Hs) as (r1 & s1 & -> & Hr1 & Hs1 & Hrep).
    destruct (IH r1 s1 (pre ++ take (avail off) d) fuel) as (r' & E & Hr' & Hrep');
      [unfold kBlockSize; lia|done|by apply Forall_drop|done|cbn in Hf; lia|].
    exists r'. rewrite <- app_assoc, take_drop in E. split_and!; [done|done|congruence].
Qed.

(** At the end of the file, after the last piece or after a damaged one. *)
Lemma read_at_eof r s fuel :
  buffer_ r = [] -> eof_ r = true ->
  exists r', read_record_loop addr (S fuel) r s = Ok (None, r') /\ (in_fragmented_record s = false -> reports r' = reports r).
Proof.
  intros Hb He. cbn [read_record_loop]. unfold ReadPhysicalRecord.
  rewrite (read_loop_settled 1) by (done || (unfold buffer_size; rewrite Hb; done)).
  unfold eof_result, buffer_size. rewrite Hb. cbn. eexists. split; [done|]. by intros ->.
Qed.

(** The end of the file inside a piece, from the loop of [ReadRecord]. *)
Lemma read_record_partial r s t d p off fuel :
  reading r p off -> p `prefix_of` piece_bytes (pad off, t, d) -> p <> piece_bytes (pad off, t, d) ->
  start off + kHeaderSize + Z.of_nat (length d) <= kBlockSize ->
  exists r', read_record_loop addr (S (S fuel)) r s = Ok (None, r') /\
    (p = [] -> in_fragmented_record s = false -> reports r' = reports r).
Proof.
  intros Hr Hpre Hne Hfit.
  destruct (read_partial r (fragment s) t d p off) as (r1 & [E|(E & Hb & He)] & Hrep); [done..| |];
    rewrite read_record_loop_S, E, bind_Ok; cbn [Z.eqb kFullType kFirstType kMiddleType kLastType kEof kBadRecord kMaxRecordType Z.add].
  - eexists. split; [done|]. intros Hp Hin. cbn [in_fragmented_record]. rewrite Hin. auto.
  - cbn [in_fragmented_record]. destruct (in_fragmented_record s) eqn:Hin.
    + destruct (read_at_eof (ReportCorruption r1 (Z.of_nat (length (scratch s))) (bytes_of "error in middle of record"))
        (mkScan false (prospective_record_offset s) [] (fragment s)) fuel) as (r2 & E2 & _).
      * unfold ReportCorruption, ReportDrop. by case_match.
      * unfold ReportCorruption, ReportDrop. by case_match.
      * exists r2. by split.
    + destruct (read_at_eof r1 (mkScan false (prospective_record_offset s) (scratch s) (fragment s)) fuel) as (r2 & E2 & Hr2);
        [done..|]. exists r2. split; [done|]. intros Hp _. rewrite Hr2 by done. auto.
Qed.

(** A prefix of [a ++ b] ends inside [a] or after it. *)
Lemma prefix_split (p a b : list Z) :
  p `prefix_of` a ++ b -> (p `prefix_of` a /\ p <> a) \/ exists q, p = a ++ q /\ q `prefix_of` b.
Proof.
  intros [k Hk]. symmetry in Hk. apply app_eq_inv in Hk as [(q & -> & Hq)|(q & -> & Hq)].
  - right. exists q. split; [done|]. by exists k.
  - destruct q as [|x q].
    + right. exists []. rewrite !app_nil_r in *. split; [done|]. by exists b.
    + left. split; [by eexists|]. intros E. apply (f_equal length) in E. rewrite length_app in E. cbn in E. lia.
Qed.

(** Reading a record of which the file holds less than all pieces. *)
Lemma read_pieces_partial r s b pre d cs off off' p fuel :
  pieces off b d cs off' -> 0 <= off <= kBlockSize -> reading r p off -> Forall is_u8 d ->
  p `prefix_of` pieces_bytes cs -> p <> pieces_bytes cs -> collected s b pre -> (length cs + 2 <= fuel)%nat ->
  exists r', read_record_loop addr fuel r s = Ok (None, r') /\ (p = [] -> b = true -> reports r' = reports r).
Proof.
  intros Hp; revert r s pre p fuel; induction Hp as [off b d Hle|off b d cs off' Hgt Hp IH];
    intros r s pre p fuel Ho Hr Hd Hpre Hne Hs Hf; unfold pieces_bytes in Hpre, Hne; cbn [map concat length] in *.
  - rewrite app_nil_r in Hpre, Hne. destruct fuel as [|[|fuel]]; [lia..|].
    destruct (read_record_partial r s _ d p off fuel Hr Hpre Hne) as (r' & E & Hrep); [by apply fits_block|].
    exists r'. split; [done|]. intros -> ->. apply Hrep; [done|]. apply Hs.
  - apply prefix_split in Hpre as [[Hpre Hne']|(q & -> & Hq)].
    + destruct fuel as [|[|fuel]]; [lia..|].
      destruct (read_record_partial r s _ _ p off fuel Hr Hpre Hne') as (r' & E & Hrep);
        [apply fits_block; [done|apply take_avail]|].
      exists r'. split; [done|]. intros -> ->. apply Hrep; [done|]. apply Hs.
    + destruct fuel as [|fuel]; [lia|].
      destruct (read_more r s b pre d off q fuel Hr Ho Hgt Hd Hs) as (r1 & s1 & E1 & Hr1 & Hs1 & _). rewrite E1.
      destruct (IH r1 s1 (pre ++ take (avail off) d) q fuel) as (r' & E & _);
        [unfold kBlockSize; lia|done|by apply Forall_drop|done|intros ->; by apply Hne|done|lia|].
      exists r'. split; [done|]. intros Hnil. apply app_eq_nil in Hnil as [Hnil _]. exfalso. revert Hnil. apply piece_bytes_nil.
Qed.

End reader_lemmas.

(** * Writing and reading together *)

Section log.
Context {W : Type} `{WritableFileOk W} {R : Type} `{SequentialFileOk R}.
Context (addr : Z).

Fixpoint add_all (w : Writer W) (rs : list (list Z)) : outcome (Status * Writer W) :=
  match rs with
  | [] => Ok (OK, w)
  | d :: rs => '(s, w) ← AddRecord addr w d; if status_ok s then add_all w rs else Ok (s, w)
  end.

(** [ReadRecord] until it returns [false], at most [n] times. *)
Fixpoint read_all (fuel n : nat) (r : Reader R) : outcome (list (list Z) * Reader R) :=
  match n with
  | O => Undef
  | S n =>
      '(d, r) ← ReadRecord addr fuel r;
      match d with
      | Some d => '(ds, r) ← read_all fuel n r; Ok (d :: ds, r)
      | None => Ok ([], r)
      end
  end.

(** The pieces of a list of records. *)
Inductive log_pieces : Z -> list (list Z) -> list piece -> Z -> Prop :=
| log_nil off : log_pieces off [] [] off
| log_cons off d rs cs1 cs2 off1 off2 :
    pieces off true d cs1 off1 -> log_pieces off1 rs cs2 off2 -> log_pieces off (d :: rs) (cs1 ++ cs2) off2.

Lemma pieces_bytes_app cs1 cs2 : pieces_bytes (cs1 ++ cs2) = pieces_bytes cs1 ++ pieces_bytes cs2.
Proof. unfold pieces_bytes. by rewrite map_app, concat_app. Qed.

Lemma length_pieces_bytes cs : (length cs <= length (pieces_bytes cs))%nat.
Proof.
  induction cs as [|c cs IH]; [done|]. unfold pieces_bytes in *. cbn. rewrite length_app.
  pose proof (piece_bytes_nil c). destruct (piece_bytes c); [done|cbn; lia].
Qed.

Lemma log_pieces_bound off rs cs off' : 0 <= off <= kBlockSize -> log_pieces off rs cs off' -> 0 <= off' <= kBlockSize.
Proof. intros Ho H1; revert Ho. induction H1; intros; [done|]. eauto using pieces_bound. Qed.

Lemma add_all_ok (w : Writer W) rs :
  type_crc_ w = type_crcs -> Forall (Forall is_u8) rs -> 0 <= block_offset_ w <= kBlockSize ->
  exists cs off' w', log_pieces (block_offset_ w) rs cs off' /\ add_all w rs = Ok (OK, w') /\
    contents (dest_ w') = contents (dest_ w) ++ pieces_bytes cs /\ block_offset_ w' = off' /\ type_crc_ w' = type_crcs.
Proof.
  intros Hc Hrs; revert w Hc; induction Hrs as [|d rs Hd Hrs IH]; intros w Hc Ho.
  { exists [], (block_offset_ w), w. split_and!; [constructor|done| |done..]. by rewrite app_nil_r. }
  destruct (AddRecord_ok addr w d) as (cs1 & off1 & w1 & P1 & E1 & C1 & O1 & T1); [done..|].
  destruct (IH w1) as (cs2 & off2 & w2 & P2 & E2 & C2 & O2 & T2); [done| |].
  { rewrite O1. by eapply pieces_bound. }
  exists (cs1 ++ cs2), off2, w2. split_and!; [econstructor; [done|by rewrite <- O1]|..|done|done].
  - cbn [add_all]. by rewrite E1, bind_Ok.
  - by rewrite C2, C1, pieces_bytes_app, app_assoc.
Qed.

Lemma ReadRecord_init fuel (r : Reader R) rest off :
  reading r rest off -> ReadRecord addr fuel r = read_record_loop addr fuel r (mkScan false 0 [] []).
Proof.
  intros Hr. unfold ReadRecord. rewrite (rd_init _ _ _ Hr), (proj2 (Z.ltb_ge _ 0)) by apply Hr. done.
Qed.

(** Reading a log of whole records [rs] that is followed by less than the whole of a record [d]. *)
Lemma log_read_all_ok (r : Reader R) rs cs d ds off off1 off2 p fuel n :
  log_pieces off rs cs off1 -> pieces off1 true d ds off2 -> 0 <= off <= kBlockSize ->
  Forall (Forall is_u8) rs -> Forall is_u8 d -> p `prefix_of` pieces_bytes ds -> p <> pieces_bytes ds ->
  reading r (pieces_bytes cs ++ p) off -> (length cs + length ds + 2 <= fuel)%nat -> (length rs < n)%nat ->
  exists r', read_all fuel n r = Ok (rs, r') /\ (p = [] -> reports r' = reports r).
Proof.
  intros HL HD; revert r n; induction HL as [off|off d1 rs cs1 cs2 off1 off2' P1 HL IH];
    intros r n Ho Hrs Hd Hp Hne Hr Hf Hn; (destruct n as [|n]; [lia|]); cbn [read_all]; rewrite (ReadRecord_init _ _ _ _ Hr).
  - destruct (read_pieces_partial addr r (mkScan false 0 [] []) true [] d ds off off2 p fuel) as (r' & -> & Hrep);
      [done..|cbn in *; lia|]. rewrite bind_Ok. exists r'. auto.
  - inversion Hrs; subst. rewrite length_app in Hf. rewrite pieces_bytes_app, <- app_assoc in Hr. cbn [length] in Hn.
    destruct (read_pieces addr r (mkScan false 0 [] []) true [] d1 cs1 off off1 _ fuel P1 Ho Hr) as (r1 & -> & Hr1 & Hrep1);
      [done..|lia|]. rewrite bind_Ok.
    destruct (IH HD r1 n) as (r' & -> & Hrep); [by eapply pieces_bound|done..|lia|lia|].
    rewrite bind_Ok. exists r'. split; [done|]. intros Hp0. rewrite Hrep, Hrep1; done.
Qed.

(** C16: A log survives a crash.  Records are written to an empty file, all but the last in full, and
    the file ends after any part of the bytes of the last one (none of them, some, but not all).
    Then the writer has returned OK, and reading the file from its start returns exactly
    the complete records, in order and byte for byte, and then the end of the log, whether or not
    checksums are verified, with calls that all return; where the file ends at the
    end of a record, no corruption is reported. *)
Theorem log_crash_recovery (file : W) (rs : list (list Z)) (d : list Z) :
  contents file = [] -> Forall (Forall is_u8) rs -> Forall is_u8 d ->
  exists w0 w1 w2 e,
    newWriter addr file = Ok w0 /\ add_all w0 rs = Ok (OK, w1) /\ AddRecord addr w1 d = Ok (OK, w2) /\
    contents (dest_ w2) = contents (dest_ w1) ++ e /\
    forall p (f : R) reporter checksum,
      p `prefix_of` e -> p <> e -> unread f = contents (dest_ w1) ++ p ->
      exists r', read_all (length (contents (dest_ w2)) + 2) (S (length rs)) (newReader f reporter checksum 0) = Ok (rs, r') /\
        (p = [] -> reports r' = []).
Proof.
  intros Hf Hrs Hd. exists (mkWriter file 0 type_crcs). rewrite newWriter_ok.
  destruct (add_all_ok (mkWriter file 0 type_crcs) rs) as (cs & off1 & w1 & P1 & E1 & C1 & O1 & T1); [done..|].
  assert (0 <= off1 <= kBlockSize) as Ho1 by (eapply log_pieces_bound; [|exact P1]; cbn; unfold kBlockSize; lia).
  destruct (AddRecord_ok addr w1 d) as (ds & off2 & w2 & P2 & E2 & C2 & O2 & T2); [done|done|by rewrite O1|].
  exists w1, w2, (pieces_bytes ds). split_and!; [done..|]. intros p f rep chk Hp Hne Hu.
  cbn [dest_ block_offset_] in *. rewrite Hf in C1. cbn [app] in C1. rewrite O1 in P2.
  destruct (log_read_all_ok (newReader f rep chk 0) rs cs d ds 0 off1 off2 p (length (contents (dest_ w2)) + 2) (S (length rs)))
    as (r' & E & Hrep); [done|done|unfold kBlockSize; lia|done..| | |lia|exists r'; auto].
  - split; try done; [cbn; by rewrite Hu, C1|by right].
  - rewrite C2, C1, length_app. pose proof (length_pieces_bytes cs). pose proof (length_pieces_bytes ds). lia.
Qed.

End log.

(** ** Files in memory *)
#[export] Instance mem_writable : WritableFile (list Z) :=
  {| file_append f d := (OK, f ++ d); file_flush f := (OK, f) |}.
#[export] Instance mem_sequential : SequentialFile (list Z) :=
  {| file_read f n := (OK, take n f, drop n f); file_skip f n := (OK, drop (Z.to_nat n) f) |}.
#[export, refine] Instance mem_writable_ok : WritableFileOk (list Z) := {| contents f := f |}.
Proof. all: eauto. Defined.
#[export, refine] Instance mem_sequential_ok : SequentialFileOk (list Z) := {| unread f := f |}.
Proof. eauto. Defined.

Lemma log_crash_recovery_witness :
  exists (w1 : Writer (list Z)) n r', add_all 4 (mkWriter [] 0 type_crcs) [[1; 2; 3]; []] = Ok (OK, w1) /\
    read_all 4 n 3 (newReader (dest_ w1) true true 0) = Ok ([[1; 2; 3]; []], r') /\ reports r' = [].
Proof.
  destruct (log_crash_recovery (W := list Z) (R := list Z) 4 [] [[1; 2; 3]; []] [7; 8])
    as (w0 & w1 & w2 & e & E0 & E1 & E2 & Ec & H); [done|by_decide|by_decide|].
  rewrite newWriter_ok in E0. injection E0 as <-.
  destruct (H [] (dest_ w1) true true) as (r' & E & Hrep); [apply prefix_nil| |by rewrite app_nil_r|eauto 10].
  vm_compute in E1. injection E1 as <-. vm_compute in E2. injection E2 as <-. vm_compute in Ec.
  intros <-. discriminate Ec.
Defined.

End Log.
