(* ===== verification/LdbKeys.v ===== *)
(** leveldb, include/leveldb/comparator.h, util/comparator.cc and db/dbformat.{h,cc}:
    comparators and the internal keys of the database.

    The class [Comparator] has the operations of the C++ interface, [ComparatorOk] what its
    documentation promises: a total order on keys, and separators between two keys.  The
    bytewise comparator and the comparator of internal keys over any user comparator
    are instances; clients (memory tables, blocks) are proved against the class. *)
From Stdlib Require Import String.
From stdpp Require Import strings.
From S2P Require Import Prelude LdbCoding.

Module Keys.
Import Coding.

(** ** comparator.h *)
Class Comparator := {
  Compare : list Z -> list Z -> outcome Z;
  FindShortestSeparator : list Z -> list Z -> outcome (list Z);
  FindShortSuccessor : list Z -> outcome (list Z)
}.

(** ** util/comparator.cc *)

(** The length of the common prefix, the loop at the start of [FindShortestSeparator]. *)
Fixpoint common_prefix (a b : list Z) : nat :=
  match a, b with
  | x :: a, y :: b => if x =? y then S (common_prefix a b) else 0
  | _, _ => 0
  end.

Definition bytewise_separator (start limit : list Z) : outcome (list Z) :=
  let min_length := Nat.min (length start) (length limit) in
  let diff_index := common_prefix start limit in
  if (min_length <=? diff_index)%nat then Ok start
  else
    diff_byte ← load start diff_index;
    limit_byte ← load limit diff_index;
    if (diff_byte <? 0xff) && (diff_byte + 1 <? limit_byte) then
      start ← store start diff_index (u8 (diff_byte + 1));
      let start := take (diff_index + 1) start in
      c ← slice_compare start limit;
      _ ← c_assert (c <? 0);
      Ok start
    else Ok start.

(** The bytes that are skipped are all 0xff. *)
Fixpoint short_successor (key : list Z) : list Z :=
  match key with
  | [] => []
  | byte :: key => if negb (byte =? 0xff) then [u8 (byte + 1)] else byte :: short_successor key
  end.

#[export] Instance BytewiseComparator : Comparator := {|
  Compare := slice_compare;
  FindShortestSeparator := bytewise_separator;
  FindShortSuccessor key := Ok (short_successor key)
|}.

(** ** dbformat.h, dbformat.cc *)
Definition kNumLevels : Z := 7.

Definition kTypeDeletion : Z := 0.
Definition kTypeValue : Z := 1.
Definition kValueTypeForSeek : Z := kTypeValue.
Definition kMaxSequenceNumber : Z := Z.shiftl 1 56 - 1.

Record ParsedInternalKey := mkParsed {
  user_key : list Z;
  sequence : Z;
  type : Z
}.

Definition PackSequenceAndType (seq t : Z) : outcome Z :=
  _ ← c_assert (seq <=? kMaxSequenceNumber);
  _ ← c_assert (t <=? kValueTypeForSeek);
  Ok (Z.lor (u64 (Z.shiftl seq 8)) t).

Definition InternalKeyEncodingLength (key : ParsedInternalKey) : nat := length (user_key key) + 8.

Definition AppendInternalKey (result : list Z) (key : ParsedInternalKey) : outcome (list Z) :=
  packed ← PackSequenceAndType (sequence key) (type key);
  PutFixed64 (result ++ user_key key) packed.

Definition ExtractUserKey (internal_key : list Z) : outcome (list Z) :=
  _ ← c_assert (8 <=? length internal_key)%nat;
  Ok (take (length internal_key - 8) internal_key).

Definition ExtractValueType (internal_key : list Z) : outcome Z :=
  _ ← c_assert (8 <=? length internal_key)%nat;
  num ← DecodeFixed64 kLittleEndian internal_key (length internal_key - 8);
  Ok (Z.land num 0xff).

(** [false] for a key that is too short; otherwise what is stored and whether the type is known. *)
Definition ParseInternalKey (internal_key : list Z) : outcome (option ParsedInternalKey * bool) :=
  let n := length internal_key in
  if (n <? 8)%nat then Ok (None, false)
  else
    num ← DecodeFixed64 kLittleEndian internal_key (n - 8);
    let c := Z.land num 0xff in
    Ok (Some (mkParsed (take (n - 8) internal_key) (Z.shiftr num 8) c), c <=? kTypeValue).

(** [InternalKeyComparator], over the comparator of user keys. *)
Section internal.
Context {user_comparator_ : Comparator}.

Definition internal_compare (akey bkey : list Z) : outcome Z :=
  a ← ExtractUserKey akey;
  b ← ExtractUserKey bkey;
  r ← Compare a b;
  if r =? 0 then
    anum ← DecodeFixed64 kLittleEndian akey (length akey - 8);
    bnum ← DecodeFixed64 kLittleEndian bkey (length bkey - 8);
    if bnum <? anum then Ok (-1)
    else if anum <? bnum then Ok 1
    else Ok r
  else Ok r.

Definition internal_separator (start limit : list Z) : outcome (list Z) :=
  user_start ← ExtractUserKey start;
  user_limit ← ExtractUserKey limit;
  tmp ← FindShortestSeparator user_start user_limit;
  shorter ← (if (length tmp <? length user_start)%nat then c ← Compare user_start tmp; Ok (c <? 0) else Ok false);
  if (shorter : bool) then
    packed ← PackSequenceAndType kMaxSequenceNumber kValueTypeForSeek;
    tmp ← PutFixed64 tmp packed;
    c1 ← internal_compare start tmp;
    _ ← c_assert (c1 <? 0);
    c2 ← internal_compare tmp limit;
    _ ← c_assert (c2 <? 0);
    Ok tmp
  else Ok start.

Definition internal_successor (key : list Z) : outcome (list Z) :=
  user_key ← ExtractUserKey key;
  tmp ← FindShortSuccessor user_key;
  shorter ← (if (length tmp <? length user_key)%nat then c ← Compare user_key tmp; Ok (c <? 0) else Ok false);
  if (shorter : bool) then
    packed ← PackSequenceAndType kMaxSequenceNumber kValueTypeForSeek;
    tmp ← PutFixed64 tmp packed;
    c1 ← internal_compare key tmp;
    _ ← c_assert (c1 <? 0);
    Ok tmp
  else Ok key.

Definition InternalKeyComparator : Comparator := {|
  Compare := internal_compare;
  FindShortestSeparator := internal_separator;
  FindShortSuccessor := internal_successor
|}.

End internal.

(** [LookupKey]: the bytes from [start_] to [end_], and the offset of [kstart_].  The array
    has [usize + 13] bytes, in [space_] or on the heap. *)
Record LookupKey := mkLookupKey {
  lk_bytes : list Z;
  lk_kstart : nat
}.

Definition newLookupKey (user_key : list Z) (s : Z) : outcome LookupKey :=
  let usize := Z.of_nat (length user_key) in
  let klength := EncodeVarint32 (u32 (usize + 8)) in
  packed ← PackSequenceAndType s kValueTypeForSeek;
  bytes ← in_array (length user_key + 13) (klength ++ user_key ++ le_split 8 packed);
  Ok (mkLookupKey bytes (length klength)).

Definition memtable_key (k : LookupKey) : list Z := lk_bytes k.
Definition internal_key (k : LookupKey) : list Z := drop (lk_kstart k) (lk_bytes k).
Definition lk_user_key (k : LookupKey) : list Z :=
  take (length (lk_bytes k) - lk_kstart k - 8) (drop (lk_kstart k) (lk_bytes k)).

(** * What a comparator promises *)
Class ComparatorOk (C : Comparator) := {
  (** The keys it is made for, and the order on them. *)
  key_ok : list Z -> Prop;
  cmp : list Z -> list Z -> Z;
  Compare_ok a b : key_ok a -> key_ok b -> Compare a b = Ok (cmp a b);
  cmp_eq a b : key_ok a -> key_ok b -> cmp a b = 0 <-> a = b;
  cmp_flip a b : key_ok a -> key_ok b -> cmp a b < 0 <-> cmp b a > 0;
  cmp_trans a b c : key_ok a -> key_ok b -> key_ok c -> cmp a b < 0 -> cmp b c < 0 -> cmp a c < 0;
  separator_ok a b : key_ok a -> key_ok b -> cmp a b < 0 ->
    exists s, FindShortestSeparator a b = Ok s /\ key_ok s /\ cmp a s <= 0 /\ cmp s b < 0;
  (** The comparator of internal keys asks for a separator of equal user keys. *)
  separator_same a : key_ok a -> FindShortestSeparator a a = Ok a;
  successor_ok a : key_ok a -> exists s, FindShortSuccessor a = Ok s /\ key_ok s /\ cmp a s <= 0
}.

Section order.
Context {C : Comparator} {HC : ComparatorOk C}.

Lemma cmp_refl a : key_ok a -> cmp a a = 0.
Proof. intros Ha. by apply cmp_eq. Qed.

Lemma cmp_neg a b : key_ok a -> key_ok b -> cmp a b < 0 \/ a = b \/ cmp b a < 0.
Proof.
  intros Ha Hb. destruct (decide (cmp a b < 0)); [auto|]. destruct (decide (cmp a b = 0)) as [E|]; [right; left; by apply cmp_eq|].
  right. right. apply cmp_flip; [done..|]. lia.
Qed.

Lemma cmp_le_lt_trans a b c : key_ok a -> key_ok b -> key_ok c -> cmp a b <= 0 -> cmp b c < 0 -> cmp a c < 0.
Proof.
  intros Ha Hb Hc Hab Hbc. destruct (decide (cmp a b = 0)) as [E|].
  - apply cmp_eq in E; [by subst|done..].
  - apply (cmp_trans a b c); try done. lia.
Qed.

Lemma cmp_lt_le_trans a b c : key_ok a -> key_ok b -> key_ok c -> cmp a b < 0 -> cmp b c <= 0 -> cmp a c < 0.
Proof.
  intros Ha Hb Hc Hab Hbc. destruct (decide (cmp b c = 0)) as [E|].
  - apply cmp_eq in E; [by subst|done..].
  - apply (cmp_trans a b c); try done. lia.
Qed.

Lemma cmp_ge a b : key_ok a -> key_ok b -> 0 <= cmp a b <-> cmp b a <= 0.
Proof.
  intros Ha Hb. destruct (cmp_neg a b) as [H|[->|H]]; [done..| | |].
  - pose proof (proj1 (cmp_flip a b Ha Hb) H). lia.
  - by rewrite cmp_refl.
  - pose proof (proj1 (cmp_flip b a Hb Ha) H). lia.
Qed.
End order.

(** ** The bytewise comparator *)

Fixpoint lexcmp (a b : list Z) : Z :=
  match a, b with
  | [], [] => 0
  | [], _ :: _ => -1
  | _ :: _, [] => 1
  | x :: a, y :: b => if x <? y then -1 else if y <? x then 1 else lexcmp a b
  end.

Definition bytewise_ok (k : list Z) : Prop := Forall is_u8 k /\ Z.of_nat (length k) < 2 ^ 31.
#[export] Instance bytewise_ok_dec k : Decision (bytewise_ok k).
Proof. unfold bytewise_ok. apply _. Defined.

Lemma memcmp_lexcmp a b :
  lexcmp a b =
  let r := memcmp a b (Nat.min (length a) (length b)) in
  if r =? 0 then if (length a <? length b)%nat then -1 else if (length b <? length a)%nat then 1 else r else r.
Proof.
  revert b; induction a as [|x a IH]; intros [|y b]; cbn; try done.
  destruct (x <? y); [done|]. destruct (y <? x); [done|]. rewrite IH. done.
Qed.

Lemma slice_compare_lexcmp a b :
  Z.of_nat (length a) < 2 ^ 31 -> Z.of_nat (length b) < 2 ^ 31 -> slice_compare a b = Ok (lexcmp a b).
Proof.
  intros Ha Hb. unfold slice_compare.
  replace (if (length a <? length b)%nat then length a else length b) with (Nat.min (length a) (length b))
    by (destruct (Nat.ltb_spec (length a) (length b)); lia).
  assert (s32 (Z.of_nat (Nat.min (length a) (length b))) = Z.of_nat (Nat.min (length a) (length b))) as -> by zlia.
  rewrite (proj2 (Z.ltb_ge _ 0)), Nat2Z.id, memcmp_lexcmp by lia. cbn. by repeat case_match.
Qed.

Lemma lexcmp_eq a b : lexcmp a b = 0 <-> a = b.
Proof.
  revert b; induction a as [|x a IH]; intros [|y b]; cbn; try done.
  destruct (Z.ltb_spec x y), (Z.ltb_spec y x); try lia; try (split; [done|intros [= -> ->]; lia]).
  rewrite IH. split; [intros ->; f_equal; lia|by intros [= _ ->]].
Qed.

Lemma lexcmp_flip a b : lexcmp b a = - lexcmp a b.
Proof. revert b; induction a as [|x a IH]; intros [|y b]; cbn; try done. destruct (Z.ltb_spec x y), (Z.ltb_spec y x); try lia. apply IH. Qed.

Lemma lexcmp_trans a b c : lexcmp a b < 0 -> lexcmp b c < 0 -> lexcmp a c < 0.
Proof.
  revert b c; induction a as [|x a IH]; intros [|y b] [|z c]; cbn; try lia.
  destruct (Z.ltb_spec x y), (Z.ltb_spec y x), (Z.ltb_spec y z), (Z.ltb_spec z y), (Z.ltb_spec x z), (Z.ltb_spec z x); try lia.
  apply IH.
Qed.

Lemma lexcmp_app p a b : lexcmp (p ++ a) (p ++ b) = lexcmp a b.
Proof. induction p as [|x p IH]; [done|]. cbn. rewrite Z.ltb_irrefl. done. Qed.

(** Both keys from the end of their common prefix. *)
Lemma common_prefix_split a b :
  exists p a' b', a = p ++ a' /\ b = p ++ b' /\ length p = common_prefix a b /\
    (a' = [] \/ b' = [] \/ exists x y a2 b2, a' = x :: a2 /\ b' = y :: b2 /\ x <> y).
Proof.
  revert b; induction a as [|x a IH]; intros [|y b]; cbn; try (eexists [], _, _; naive_solver).
  destruct (Z.eqb_spec x y) as [->|].
  - destruct (IH b) as (p & a' & b' & -> & -> & <- & H). exists (y :: p), a', b'. naive_solver.
  - exists [], (x :: a), (y :: b). naive_solver.
Qed.

Lemma bytewise_separator_ok a b :
  bytewise_ok a -> bytewise_ok b -> lexcmp a b < 0 ->
  exists s, bytewise_separator a b = Ok s /\ bytewise_ok s /\ lexcmp a s <= 0 /\ lexcmp s b < 0.
Proof.
  intros [Ha La] [Hb Lb] Hlt. unfold bytewise_separator.
  assert (exists s, Ok a = Ok s /\ bytewise_ok s /\ lexcmp a s <= 0 /\ lexcmp s b < 0) as Hsame.
  { exists a. split_and!; [done..| |done]. by rewrite (proj2 (lexcmp_eq a a) eq_refl). }
  destruct (common_prefix_split a b) as (p & a' & b' & -> & -> & Hp & Hc). rewrite <- Hp, !length_app.
  destruct Hc as [->|[->|(x & y & a2 & b2 & -> & -> & Hxy)]].
  1,2: rewrite (proj2 (Nat.leb_le _ _)) by (cbn; lia); exact Hsame.
  rewrite (proj2 (Nat.leb_gt _ _)) by (cbn; lia). rewrite !load_app, !bind_Ok.
  destruct (Z.ltb_spec x 255), (Z.ltb_spec (x + 1) y); cbn [andb]; try exact Hsame.
  rewrite store_app, bind_Ok. rewrite Forall_app, Forall_cons in Ha. destruct Ha as (Hpb & Hx & _). unfold is_u8 in Hx.
  replace (u8 (x + 1)) with (x + 1) by (symmetry; apply Z.mod_small; lia).
  replace (take (length p + 1) (p ++ x + 1 :: a2)) with (p ++ [x + 1]).
  2: { rewrite take_app_add'; [|done]. done. }
  rewrite length_app in La. cbn [length] in La.
  assert (lexcmp (p ++ [x + 1]) (p ++ y :: b2) = -1) as E
    by (rewrite lexcmp_app; cbn; rewrite (proj2 (Z.ltb_lt _ _)) by lia; done).
  rewrite slice_compare_lexcmp by (rewrite ?length_app in *; cbn [length] in *; lia). rewrite bind_Ok, E. cbn.
  eexists. split; [done|]. rewrite E. split_and!; [| |done].
  - split; [apply Forall_app; split; [done|]; repeat constructor; lia|]. rewrite length_app. cbn [length]. lia.
  - rewrite lexcmp_app. cbn. rewrite (proj2 (Z.ltb_lt _ _)) by lia. done.
Qed.

Lemma common_prefix_same a : common_prefix a a = length a.
Proof. induction a as [|x a IH]; [done|]. cbn. by rewrite Z.eqb_refl, IH. Qed.

Lemma short_successor_ok a : Forall is_u8 a ->
  Forall is_u8 (short_successor a) /\ (length (short_successor a) <= length a)%nat /\ lexcmp a (short_successor a) <= 0.
Proof.
  induction 1 as [|x a Hx Ha (IH1 & IH2 & IH3)]; [done|]. cbn [short_successor]. unfold is_u8 in Hx.
  destruct (Z.eqb_spec x 255); cbn [negb lexcmp length].
  - rewrite Z.ltb_irrefl. split_and!; [by constructor|lia|done].
  - replace (u8 (x + 1)) with (x + 1) by (symmetry; apply Z.mod_small; lia).
    split_and!; [repeat constructor; lia|lia|]. by rewrite (proj2 (Z.ltb_lt _ _)) by lia.
Qed.

#[export, refine] Instance bytewise_comparator_ok : ComparatorOk BytewiseComparator :=
  {| key_ok := bytewise_ok; cmp := lexcmp |}.
Proof.
  - intros a b [_ Ha] [_ Hb]. by apply slice_compare_lexcmp.
  - intros. apply lexcmp_eq.
  - intros a b _ _. rewrite (lexcmp_flip a b). lia.
  - intros. by eapply lexcmp_trans.
  - apply bytewise_separator_ok.
  - intros a _. cbn. unfold bytewise_separator. rewrite common_prefix_same, Nat.min_id, Nat.leb_refl. done.
  - intros a [Ha La]. destruct (short_successor_ok a Ha) as (H1 & H2 & H3). eexists. split; [done|].
    split; [split; [done|lia]|done].
Defined.

(** ** Internal keys *)

(** A user key with the packed sequence number and type. *)
Definition ikey (uk : list Z) (num : Z) : list Z := uk ++ le_split 8 num.

Definition pack (seq t : Z) : Z := seq * 256 + t.

Lemma pack_lor seq t :
  0 <= seq <= kMaxSequenceNumber -> 0 <= t <= kValueTypeForSeek -> Z.lor (u64 (Z.shiftl seq 8)) t = pack seq t.
Proof.
  intros Hs Ht. unfold pack. change kMaxSequenceNumber with (2 ^ 56 - 1) in Hs. change kValueTypeForSeek with 1 in Ht.
  rewrite Z.shiftl_mul_pow2 by lia. replace (u64 (seq * 2 ^ 8)) with (seq * 2 ^ 8)
    by (symmetry; apply Z.mod_small; change (2 ^ 64) with (2 ^ 56 * 2 ^ 8); lia).
  rewrite Z.lor_comm, <- Z.shiftl_mul_pow2, lor_shiftl by lia. lia.
Qed.

Lemma PackSequenceAndType_ok seq t :
  0 <= seq <= kMaxSequenceNumber -> 0 <= t <= kValueTypeForSeek -> PackSequenceAndType seq t = Ok (pack seq t).
Proof.
  intros Hs Ht. unfold PackSequenceAndType. rewrite !(proj2 (Z.leb_le _ _)), pack_lor by lia. done.
Qed.

Lemma pack_u64 seq t : 0 <= seq <= kMaxSequenceNumber -> 0 <= t <= kValueTypeForSeek -> is_u64 (pack seq t).
Proof.
  unfold is_u64, pack. change kMaxSequenceNumber with (2 ^ 56 - 1). change kValueTypeForSeek with 1.
  change (2 ^ 64) with (2 ^ 56 * 256). lia.
Qed.

Lemma length_ikey uk num : length (ikey uk num) = (length uk + 8)%nat.
Proof. unfold ikey. by rewrite length_app, length_le_split. Qed.

Lemma ExtractUserKey_ikey uk num : ExtractUserKey (ikey uk num) = Ok uk.
Proof.
  unfold ExtractUserKey. rewrite length_ikey, (proj2 (Nat.leb_le _ _)) by lia. cbn [c_assert]. rewrite bind_Ok.
  unfold ikey. rewrite Nat.add_sub. by rewrite take_app_length.
Qed.

Lemma DecodeFixed64_ikey uk num : is_u64 num ->
  DecodeFixed64 kLittleEndian (ikey uk num) (length (ikey uk num) - 8) = Ok num.
Proof.
  intros Hn. rewrite length_ikey, Nat.add_sub. rewrite (DecodeFixed64_at _ _ num).
  - f_equal. by apply Z.mod_small.
  - exists uk, []. by rewrite app_nil_r.
Qed.

Lemma ikey_inj uk1 uk2 n1 n2 : is_u64 n1 -> is_u64 n2 -> ikey uk1 n1 = ikey uk2 n2 -> uk1 = uk2 /\ n1 = n2.
Proof.
  intros H1 H2 E. unfold ikey in E. apply app_inj_2 in E as [-> E]; [|by rewrite !length_le_split]. split; [done|].
  apply (f_equal le_combine) in E. rewrite !le_combine_split in E. change (2 ^ (8 * Z.of_nat 8)) with (2 ^ 64) in E.
  unfold is_u64 in *. by rewrite !Z.mod_small in E.
Qed.

(** Parsing inverts appending. *)
Lemma ParseInternalKey_Append uk seq t :
  0 <= seq <= kMaxSequenceNumber -> 0 <= t <= kValueTypeForSeek ->
  exists k, AppendInternalKey [] (mkParsed uk seq t) = Ok k /\ k = ikey uk (pack seq t) /\
    ParseInternalKey k = Ok (Some (mkParsed uk seq t), true).
Proof.
  intros Hs Ht. exists (ikey uk (pack seq t)). unfold AppendInternalKey. cbn [sequence type].
  rewrite PackSequenceAndType_ok by done. split; [done|]. split; [done|]. unfold ParseInternalKey.
  rewrite (proj2 (Nat.ltb_ge _ 8)) by (rewrite length_ikey; lia). rewrite DecodeFixed64_ikey by by apply pack_u64.
  rewrite bind_Ok, length_ikey, Nat.add_sub. change kValueTypeForSeek with 1 in Ht.
  assert (Z.land (pack seq t) 255 = t) as ->.
  { rewrite (land_mod _ 8) by lia. unfold pack. change (2 ^ 8) with 256. zlia. }
  assert (Z.shiftr (pack seq t) 8 = seq) as ->.
  { rewrite Z.shiftr_div_pow2 by lia. unfold pack. change (2 ^ 8) with 256. zlia. }
  unfold ikey. rewrite take_app_length. change kTypeValue with 1.
  by rewrite (proj2 (Z.leb_le _ _)) by lia.
Qed.

(** ** The comparator of internal keys *)
Section internal_ok.
Context {C : Comparator} {HC : ComparatorOk C}.

Definition internal_ok (k : list Z) : Prop := exists uk num, key_ok uk /\ is_u64 num /\ k = ikey uk num.

Lemma ikey_ok uk num : key_ok uk -> is_u64 num -> internal_ok (ikey uk num).
Proof. intros. by exists uk, num. Qed.

(** Increasing user keys, then decreasing numbers. *)
Definition internal_cmp (a b : list Z) : Z :=
  let r := cmp (take (length a - 8) a) (take (length b - 8) b) in
  if r =? 0 then
    let an := le_combine (drop (length a - 8) a) in
    let bn := le_combine (drop (length b - 8) b) in
    if bn <? an then -1 else if an <? bn then 1 else r
  else r.

Lemma internal_cmp_ikey u1 n1 u2 n2 : is_u64 n1 -> is_u64 n2 ->
  internal_cmp (ikey u1 n1) (ikey u2 n2) =
  if cmp u1 u2 =? 0 then if n2 <? n1 then -1 else if n1 <? n2 then 1 else cmp u1 u2 else cmp u1 u2.
Proof.
  intros H1 H2. unfold internal_cmp. rewrite !length_ikey, !Nat.add_sub. unfold ikey.
  rewrite !take_app_length, !drop_app_length, !le_combine_split. change (2 ^ (8 * Z.of_nat 8)) with (2 ^ 64).
  unfold is_u64 in *. by rewrite !Z.mod_small.
Qed.

Lemma internal_compare_ok a b : internal_ok a -> internal_ok b -> internal_compare a b = Ok (internal_cmp a b).
Proof.
  intros (u1 & n1 & K1 & H1 & ->) (u2 & n2 & K2 & H2 & ->). unfold internal_compare.
  rewrite !ExtractUserKey_ikey, !bind_Ok, Compare_ok, bind_Ok, !DecodeFixed64_ikey, !bind_Ok, internal_cmp_ikey by done.
  by repeat case_match.
Qed.

(** The order in terms of the parts. *)
Lemma internal_cmp_lt u1 n1 u2 n2 : is_u64 n1 -> is_u64 n2 -> key_ok u1 -> key_ok u2 ->
  internal_cmp (ikey u1 n1) (ikey u2 n2) < 0 <-> cmp u1 u2 < 0 \/ u1 = u2 /\ n2 < n1.
Proof.
  intros H1 H2 K1 K2. rewrite internal_cmp_ikey by done. pose proof (cmp_eq u1 u2 K1 K2) as E.
  destruct (Z.eqb_spec (cmp u1 u2) 0) as [E0|E0].
  - destruct (Z.ltb_spec n2 n1), (Z.ltb_spec n1 n2); rewrite <- E; lia.
  - rewrite <- E. lia.
Qed.

Lemma internal_cmp_zero a b : internal_ok a -> internal_ok b -> internal_cmp a b = 0 <-> a = b.
Proof.
  intros (u1 & n1 & K1 & H1 & ->) (u2 & n2 & K2 & H2 & ->). rewrite internal_cmp_ikey by done.
  split.
  - destruct (Z.eqb_spec (cmp u1 u2) 0) as [E|]; [|done]. apply cmp_eq in E; [|done..]. subst u2.
    destruct (Z.ltb_spec n2 n1), (Z.ltb_spec n1 n2); try lia. intros _. f_equal. lia.
  - intros [-> ->]%ikey_inj; [|done..]. by rewrite cmp_refl, Z.ltb_irrefl by done.
Qed.

Lemma internal_cmp_flip a b : internal_ok a -> internal_ok b -> internal_cmp a b < 0 <-> internal_cmp b a > 0.
Proof.
  intros (u1 & n1 & K1 & H1 & ->) (u2 & n2 & K2 & H2 & ->). rewrite !internal_cmp_ikey by done.
  pose proof (cmp_eq u1 u2 K1 K2). pose proof (cmp_eq u2 u1 K2 K1). pose proof (cmp_flip u1 u2 K1 K2).
  pose proof (cmp_flip u2 u1 K2 K1).
  destruct (Z.eqb_spec (cmp u1 u2) 0) as [E|E], (Z.eqb_spec (cmp u2 u1) 0) as [E'|E'], (Z.ltb_spec n2 n1), (Z.ltb_spec n1 n2);
    try lia; naive_solver lia.
Qed.

Lemma seek_u64 : is_u64 (pack kMaxSequenceNumber kValueTypeForSeek).
Proof. by_decide. Qed.

(** The number of a shortened key is the earliest. *)
Lemma shortened_ok uk u num : key_ok uk -> key_ok u -> is_u64 num -> cmp uk u < 0 ->
  internal_compare (ikey uk num) (ikey u (pack kMaxSequenceNumber kValueTypeForSeek)) =
    Ok (internal_cmp (ikey uk num) (ikey u (pack kMaxSequenceNumber kValueTypeForSeek))) /\
  internal_cmp (ikey uk num) (ikey u (pack kMaxSequenceNumber kValueTypeForSeek)) < 0.
Proof.
  intros K1 K2 H Hlt. pose proof seek_u64. split; [by apply internal_compare_ok; apply ikey_ok|].
  apply internal_cmp_lt; auto.
Qed.

Lemma internal_separator_ok a b : internal_ok a -> internal_ok b -> internal_cmp a b < 0 ->
  exists s, internal_separator a b = Ok s /\ internal_ok s /\ internal_cmp a s <= 0 /\ internal_cmp s b < 0.
Proof.
  intros Ha Hb Hlt. assert (exists s, Ok a = Ok s /\ internal_ok s /\ internal_cmp a s <= 0 /\ internal_cmp s b < 0) as Hsame.
  { exists a. split_and!; [done..| |done]. by rewrite (proj2 (internal_cmp_zero a a Ha Ha) eq_refl). }
  destruct Ha as (u1 & n1 & K1 & H1 & ->). pose proof Hb as (u2 & n2 & K2 & H2 & ->). unfold internal_separator.
  rewrite !ExtractUserKey_ikey, !bind_Ok.
  assert (exists t, FindShortestSeparator u1 u2 = Ok t /\ key_ok t /\ (cmp u1 t < 0 -> cmp t u2 < 0)) as (t & -> & Kt & Ht).
  { apply internal_cmp_lt in Hlt as [Hlt|[<- _]]; [| |done..].
    - destruct (separator_ok u1 u2) as (t & E & Kt & _ & Ht); [done..|]. eauto.
    - exists u1. rewrite separator_same by done. split_and!; [done..|]. by rewrite cmp_refl. }
  rewrite bind_Ok, Compare_ok, bind_Ok by done. destruct (length t <? length u1)%nat; rewrite bind_Ok; [|exact Hsame].
  destruct (Z.ltb_spec (cmp u1 t) 0) as [Hc|]; [|exact Hsame]. specialize (Ht Hc).
  rewrite PackSequenceAndType_ok, bind_Ok, PutFixed64_eq, bind_Ok by done. fold (ikey t (pack kMaxSequenceNumber kValueTypeForSeek)).
  destruct (shortened_ok u1 t n1 K1 Kt H1 Hc) as [-> L1]. rewrite bind_Ok, (proj2 (Z.ltb_lt _ 0)) by done. cbn [c_assert]. rewrite bind_Ok.
  assert (internal_ok (ikey t (pack kMaxSequenceNumber kValueTypeForSeek))) as Kt' by (apply ikey_ok; [done|apply seek_u64]).
  assert (internal_cmp (ikey t (pack kMaxSequenceNumber kValueTypeForSeek)) (ikey u2 n2) < 0) as L2
    by (apply internal_cmp_lt; [apply seek_u64|done..|auto]).
  rewrite internal_compare_ok, bind_Ok, (proj2 (Z.ltb_lt _ 0)) by done. cbn [c_assert]. rewrite bind_Ok.
  eexists. split_and!; [done..|lia|done].
Qed.

Lemma internal_successor_ok a : internal_ok a ->
  exists s, internal_successor a = Ok s /\ internal_ok s /\ internal_cmp a s <= 0.
Proof.
  intros Ha. assert (exists s, Ok a = Ok s /\ internal_ok s /\ internal_cmp a s <= 0) as Hsame.
  { exists a. split_and!; [done..|]. by rewrite (proj2 (internal_cmp_zero a a Ha Ha) eq_refl). }
  destruct Ha as (u1 & n1 & K1 & H1 & ->). unfold internal_successor. rewrite ExtractUserKey_ikey, bind_Ok.
  destruct (successor_ok u1 K1) as (t & -> & Kt & Ht). rewrite bind_Ok, Compare_ok, bind_Ok by done.
  destruct (length t <? length u1)%nat; rewrite bind_Ok; [|exact Hsame].
  destruct (Z.ltb_spec (cmp u1 t) 0) as [Hc|]; [|exact Hsame].
  rewrite PackSequenceAndType_ok, bind_Ok, PutFixed64_eq, bind_Ok by done. fold (ikey t (pack kMaxSequenceNumber kValueTypeForSeek)).
  destruct (shortened_ok u1 t n1 K1 Kt H1 Hc) as [-> L1]. rewrite bind_Ok, (proj2 (Z.ltb_lt _ 0)) by done. cbn [c_assert]. rewrite bind_Ok.
  eexists. split_and!; [done|apply ikey_ok; [done|apply seek_u64]|lia].
Qed.

Lemma internal_cmp_trans a b c : internal_ok a -> internal_ok b -> internal_ok c ->
  internal_cmp a b < 0 -> internal_cmp b c < 0 -> internal_cmp a c < 0.
Proof.
  intros (u1 & n1 & K1 & H1 & ->) (u2 & n2 & K2 & H2 & ->) (u3 & n3 & K3 & H3 & ->). rewrite !internal_cmp_lt by done.
  intros [L1|[<- L1]] [L2|[<- L2]]; auto; [left; by apply (cmp_trans u1 u2 u3)|right; split; [done|lia]].
Qed.

#[export, refine] Instance internal_comparator_ok : ComparatorOk (@InternalKeyComparator C) :=
  {| key_ok := internal_ok; cmp := internal_cmp |}.
Proof.
  - apply internal_compare_ok.
  - apply internal_cmp_zero.
  - apply internal_cmp_flip.
  - apply internal_cmp_trans.
  - apply internal_separator_ok.
  - intros a (u & n & K & H & ->). cbn. unfold internal_separator.
    rewrite !ExtractUserKey_ikey, !bind_Ok, separator_same, bind_Ok, Nat.ltb_irrefl by done. done.
  - apply internal_successor_ok.
Defined.

End internal_ok.

End Keys.
