(* ===== verification/LdbSkipList.v ===== *)
(** leveldb, db/skiplist.h and util/random.h: the skip list under the memory table.

    Nodes are the objects of a heap, numbered in the order of their allocation; the head is
    number 0; NULL is [None].  The contents of memory before its first write is [junk].  The
    list is used by one thread; the memory barriers of the accessors do nothing then.
    The refinement: the list is a sorted sequence of its keys, [Insert] inserts, and the
    iterator's operations move in that sequence. *)
From stdpp Require Import sorting sets.
From S2P Require Import Prelude LdbCoding LdbKeys.

Module SkipList.
Import Keys.

(** ** util/random.h *)
Definition newRandom (s : Z) : Z := Z.land s 0x7fffffff.

Definition random_next (seed_ : Z) : Z :=
  let M := 2147483647 in
  let A := 16807 in
  let product := u64 (seed_ * A) in
  let seed_ := u32 (Z.shiftr product 31 + Z.land product M) in
  if M <? seed_ then u32 (seed_ - M) else seed_.

Definition kMaxHeight : nat := 12.

Section list.
Context {Key : Type}.
(** [compare_]. *)
Context (compare : Key -> Key -> outcome Z).
Context (junk : nat -> option nat).

Record Node := mkNode {
  nkey : Key;
  next_ : list (option nat)
}.

Record SkipList := mkList {
  nodes : list Node;
  max_height_ : nat;
  rnd_ : Z
}.

Definition head_ : nat := 0.

(** [Node::Next] and [Node::SetNext]; a level outside of the node's array is another object. *)
Definition Next (sl : SkipList) (x n : nat) : outcome (option nat) :=
  nd ← of_option (nodes sl !! x); of_option (next_ nd !! n).

Definition SetNext (sl : SkipList) (x n : nat) (p : option nat) : outcome SkipList :=
  nd ← of_option (nodes sl !! x);
  nx ← store (next_ nd) n p;
  Ok (mkList (<[x := mkNode (nkey nd) nx]> (nodes sl)) (max_height_ sl) (rnd_ sl)).

Definition node_key (sl : SkipList) (x : nat) : outcome Key :=
  nd ← of_option (nodes sl !! x); Ok (nkey nd).

Definition NewNode (sl : SkipList) (key : Key) (height : nat) : nat * SkipList :=
  (length (nodes sl), mkList (nodes sl ++ [mkNode key (map junk (seq 0 height))]) (max_height_ sl) (rnd_ sl)).

(** [SkipList::SkipList]; the key of the head is never looked at. *)
Definition newSkipList (any_key : Key) : SkipList :=
  mkList [mkNode any_key (replicate kMaxHeight None)] 1 (newRandom 0xdeadbeef).

Fixpoint random_height_loop (fuel : nat) (rnd : Z) (height : nat) : nat * Z :=
  match fuel with
  | O => (height, rnd)
  | S fuel =>
      if (height <? kMaxHeight)%nat then
        let rnd := random_next rnd in
        if rnd mod 4 =? 0 then random_height_loop fuel rnd (S height) else (height, rnd)
      else (height, rnd)
  end.

Definition RandomHeight (sl : SkipList) : outcome (nat * SkipList) :=
  let '(height, rnd) := random_height_loop kMaxHeight (rnd_ sl) 1 in
  _ ← c_assert (0 <? height)%nat;
  _ ← c_assert (height <=? kMaxHeight)%nat;
  Ok (height, mkList (nodes sl) (max_height_ sl) rnd).

Definition KeyIsAfterNode (sl : SkipList) (key : Key) (n : option nat) : outcome bool :=
  match n with
  | None => Ok false
  | Some n => k ← node_key sl n; c ← compare k key; Ok (c <? 0)
  end.

(** [prev], when it is given, is the array that the caller passes. *)
Fixpoint find_ge_loop (fuel : nat) (sl : SkipList) (key : Key) (x level : nat) (prev : option (list nat))
    : outcome (option nat * option (list nat)) :=
  match fuel with
  | O => Undef
  | S fuel =>
      next ← Next sl x level;
      after ← KeyIsAfterNode sl key next;
      if (after : bool) then
        match next with Some n => find_ge_loop fuel sl key n level prev | None => Undef end
      else
        prev ← match prev with None => Ok None | Some a => a ← store a level x; Ok (Some a) end;
        match level with
        | O => Ok (next, prev)
        | S level => find_ge_loop fuel sl key x level prev
        end
  end.

(** Every step goes to a later node or to a lower level. *)
Definition search_fuel (sl : SkipList) : nat := length (nodes sl) + max_height_ sl.

Definition FindGreaterOrEqual (sl : SkipList) (key : Key) (prev : option (list nat)) : outcome (option nat * option (list nat)) :=
  find_ge_loop (search_fuel sl) sl key head_ (max_height_ sl - 1) prev.

Fixpoint find_lt_loop (fuel : nat) (sl : SkipList) (key : Key) (x level : nat) : outcome nat :=
  match fuel with
  | O => Undef
  | S fuel =>
      _ ← (if decide (x = head_) then Ok () else k ← node_key sl x; c ← compare k key; c_assert (c <? 0));
      next ← Next sl x level;
      stop ← match next with None => Ok true | Some n => k ← node_key sl n; c ← compare k key; Ok (0 <=? c) end;
      if (stop : bool) then
        match level with O => Ok x | S level => find_lt_loop fuel sl key x level end
      else match next with Some n => find_lt_loop fuel sl key n level | None => Undef end
  end.

Definition FindLessThan (sl : SkipList) (key : Key) : outcome nat :=
  find_lt_loop (search_fuel sl) sl key head_ (max_height_ sl - 1).

Fixpoint find_last_loop (fuel : nat) (sl : SkipList) (x level : nat) : outcome nat :=
  match fuel with
  | O => Undef
  | S fuel =>
      next ← Next sl x level;
      match next with
      | None => match level with O => Ok x | S level => find_last_loop fuel sl x level end
      | Some n => find_last_loop fuel sl n level
      end
  end.

Definition FindLast (sl : SkipList) : outcome nat :=
  find_last_loop (search_fuel sl) sl head_ (max_height_ sl - 1).

(** The loop that links the new node, from level [i] on. *)
Fixpoint link_loop (n : nat) (sl : SkipList) (x i : nat) (prev : list nat) : outcome SkipList :=
  match n with
  | O => Ok sl
  | S n =>
      p ← load prev i;
      nx ← Next sl p i;
      sl ← SetNext sl x i nx;
      sl ← SetNext sl p i (Some x);
      link_loop n sl x (S i) prev
  end.

(** The loop that fills [prev] for the new levels. *)
Fixpoint raise_loop (n i : nat) (prev : list nat) : outcome (list nat) :=
  match n with
  | O => Ok prev
  | S n => prev ← store prev i head_; raise_loop n (S i) prev
  end.

Definition Insert (sl : SkipList) (key : Key) (prev0 : list nat) : outcome SkipList :=
  '(x, prev) ← FindGreaterOrEqual sl key (Some prev0);
  prev ← of_option prev;
  _ ← match x with
      | None => Ok ()
      | Some x => k ← node_key sl x; c ← compare key k; c_assert (negb (c =? 0))
      end;
  '(height, sl) ← RandomHeight sl;
  prev ← (if (max_height_ sl <? height)%nat then raise_loop (height - max_height_ sl) (max_height_ sl) prev else Ok prev);
  let sl := if (max_height_ sl <? height)%nat then mkList (nodes sl) height (rnd_ sl) else sl in
  let '(x, sl) := NewNode sl key height in
  link_loop height sl x 0 prev.

Definition Contains (sl : SkipList) (key : Key) : outcome bool :=
  '(x, _) ← FindGreaterOrEqual sl key None;
  match x with
  | None => Ok false
  | Some x => k ← node_key sl x; c ← compare key k; Ok (c =? 0)
  end.

(** ** The iterator: its position [node_] *)
Definition iter_Valid (it : option nat) : bool := match it with None => false | Some _ => true end.

Definition iter_key (sl : SkipList) (it : option nat) : outcome Key :=
  match it with None => AssertFail | Some x => node_key sl x end.

Definition iter_Next (sl : SkipList) (it : option nat) : outcome (option nat) :=
  match it with None => AssertFail | Some x => Next sl x 0 end.

Definition not_head (x : nat) : option nat := if decide (x = head_) then None else Some x.

Definition iter_Prev (sl : SkipList) (it : option nat) : outcome (option nat) :=
  match it with
  | None => AssertFail
  | Some x => k ← node_key sl x; x ← FindLessThan sl k; Ok (not_head x)
  end.

Definition iter_Seek (sl : SkipList) (target : Key) : outcome (option nat) :=
  '(x, _) ← FindGreaterOrEqual sl target None; Ok x.

Definition iter_SeekToFirst (sl : SkipList) : outcome (option nat) := Next sl head_ 0.

Definition iter_SeekToLast (sl : SkipList) : outcome (option nat) := x ← FindLast sl; Ok (not_head x).

End list.
Arguments SkipList Key : clear implicits.
Arguments Node Key : clear implicits.

(** * Refinement *)

(** [compare] orders the entries by a key that a comparator orders. *)
Class EntryOrder {Key : Type} (compare : Key -> Key -> outcome Z) (C : Comparator) {HC : ComparatorOk C} := {
  entry_ok : Key -> Prop;
  entry_key : Key -> list Z;
  entry_key_ok a : entry_ok a -> key_ok (entry_key a);
  compare_entry a b : entry_ok a -> entry_ok b -> compare a b = Ok (cmp (entry_key a) (entry_key b))
}.

Section refinement.
Context {Key : Type} {compare : Key -> Key -> outcome Z} {C : Comparator} {HC : ComparatorOk C}.
Context {HO : EntryOrder compare C}.
Implicit Types (sl : SkipList Key) (k : Key) (ids : list nat).

(** The order of entries. *)
Definition elt (a b : Key) : Prop := cmp (entry_key a) (entry_key b) < 0.

(** The link of node [x] at level [i]. *)
Definition link sl (x i : nat) : option (option nat) := nd ← nodes sl !! x; next_ nd !! i.
Definition height sl (x : nat) : nat := match nodes sl !! x with Some nd => length (next_ nd) | None => 0 end.
Definition key_of sl (x : nat) : option Key := nkey <$> nodes sl !! x.

(** The nodes of [l] follow [x] at level [i]. *)
Fixpoint chain sl (i x : nat) (l : list nat) : Prop :=
  match l with
  | [] => link sl x i = Some None
  | y :: l => link sl x i = Some (Some y) /\ chain sl i y l
  end.

Definition level sl (i : nat) ids : list nat := filter (fun x => i < height sl x)%nat ids.

(** The nodes in order, [ids], with keys [ks]. *)
Record inv sl ids (ks : list Key) : Prop := {
  inv_keys : Forall2 (fun x k => key_of sl x = Some k) ids ks;
  inv_ok : Forall entry_ok ks;
  inv_sorted : StronglySorted elt ks;
  inv_nodup : NoDup (head_ :: ids);
  inv_chain i : (i < kMaxHeight)%nat -> chain sl i head_ (level sl i ids);
  inv_height x : x ∈ ids -> (0 < height sl x <= max_height_ sl)%nat;
  inv_max : (0 < max_height_ sl <= kMaxHeight)%nat;
  inv_size : length (nodes sl) = S (length ids)
}.

Definition represents sl (ks : list Key) : Prop := exists ids, inv sl ids ks.

Lemma Next_link sl x i : Next sl x i = of_option (link sl x i).
Proof. unfold Next, link. by destruct (nodes sl !! x). Qed.

Lemma node_key_of sl x k : key_of sl x = Some k -> node_key sl x = Ok k.
Proof. unfold key_of, node_key. destruct (nodes sl !! x); cbn; congruence. Qed.

(** The last of [x] and the nodes after it. *)
Fixpoint last_of (x : nat) (l : list nat) : nat := match l with [] => x | y :: l => last_of y l end.

Lemma chain_app sl i x l1 l2 : chain sl i x (l1 ++ l2) -> chain sl i (last_of x l1) l2.
Proof. revert x; induction l1 as [|y l1 IH]; intros x H; [done|]. apply IH, H. Qed.

Lemma chain_link sl i x l : chain sl i x l -> link sl x i = Some (hd_error l).
Proof. destruct l; [done|]. by intros [H _]. Qed.

(** A search splits the keys into those before the key and the others. *)
Lemma split_sorted ks k :
  Forall entry_ok ks -> StronglySorted elt ks -> entry_ok k ->
  exists ks1 ks2, ks = ks1 ++ ks2 /\ Forall (fun kx => elt kx k) ks1 /\ Forall (fun kx => ~ elt kx k) ks2.
Proof.
  intros Hok Hs Hk. induction Hs as [|k1 ks Hs IH Hall]; [by exists [], []|]. inversion Hok as [|?? H1 H2]; subst.
  destruct (decide (cmp (entry_key k1) (entry_key k) < 0)) as [Hlt|Hge].
  - destruct (IH H2) as (s1 & s2 & -> & A1 & A2). exists (k1 :: s1), s2. split_and!; [done|by constructor|done].
  - exists [], (k1 :: ks). split_and!; [done|constructor|]. constructor; [done|].
    rewrite Forall_forall in *. intros ky Hy Hlt. apply Hge. unfold elt in *.
    apply (cmp_trans _ (entry_key ky)); auto using entry_key_ok.
Qed.

(** Node [x] has a key [k] with [P k]. *)
Definition node_is sl (P : Key -> Prop) (x : nat) : Prop := exists k, key_of sl x = Some k /\ entry_ok k /\ P k.

Lemma node_is_Forall sl ids ks P :
  Forall2 (fun x k => key_of sl x = Some k) ids ks -> Forall entry_ok ks -> Forall P ks -> Forall (node_is sl P) ids.
Proof.
  induction 1 as [|x k ids ks Hx H IH]; intros H1 H2; [constructor|].
  inversion H1; subst. inversion H2; subst. constructor; [by exists k|auto].
Qed.

Lemma inv_split sl ids ks k :
  inv sl ids ks -> entry_ok k ->
  exists ids1 ids2 ks1 ks2, ids = ids1 ++ ids2 /\ ks = ks1 ++ ks2 /\
    Forall2 (fun x k => key_of sl x = Some k) ids1 ks1 /\ Forall2 (fun x k => key_of sl x = Some k) ids2 ks2 /\
    Forall (node_is sl (fun kx => elt kx k)) ids1 /\ Forall (node_is sl (fun kx => ~ elt kx k)) ids2 /\
    Forall (fun kx => elt kx k) ks1 /\ Forall (fun kx => ~ elt kx k) ks2.
Proof.
  intros Hi Hk. destruct (split_sorted ks k) as (ks1 & ks2 & -> & A1 & A2); [apply Hi..|done|].
  destruct (proj1 (Forall2_app_inv_r _ _ _ _) (inv_keys _ _ _ Hi)) as (ids1 & ids2 & F1 & F2 & ->).
  pose proof (inv_ok _ _ _ Hi) as Hok. rewrite Forall_app in Hok. destruct Hok.
  exists ids1, ids2, ks1, ks2. split_and!; eauto using node_is_Forall.
Qed.

Lemma KeyIsAfterNode_true sl k x : node_is sl (fun kx => elt kx k) x -> entry_ok k -> KeyIsAfterNode compare sl k (Some x) = Ok true.
Proof.
  intros (kx & Hx & Hok & Hlt) Hk. unfold KeyIsAfterNode. rewrite (node_key_of _ _ _ Hx), bind_Ok, compare_entry, bind_Ok by done.
  by rewrite (proj2 (Z.ltb_lt _ _)).
Qed.

Lemma KeyIsAfterNode_false sl k (l : list nat) :
  Forall (node_is sl (fun kx => ~ elt kx k)) l -> entry_ok k -> KeyIsAfterNode compare sl k (hd_error l) = Ok false.
Proof.
  intros H Hk. destruct H as [|x l (kx & Hx & Hok & Hge) _]; [done|]. cbn.
  rewrite (node_key_of _ _ _ Hx), bind_Ok, compare_entry, bind_Ok by done. unfold elt in Hge. by rewrite (proj2 (Z.ltb_ge _ _)) by lia.
Qed.

Lemma level_app sl i l1 l2 : level sl i (l1 ++ l2) = level sl i l1 ++ level sl i l2.
Proof. apply filter_app. Qed.

Lemma level_Forall sl i l P : Forall P l -> Forall P (level sl i l).
Proof. rewrite !Forall_forall. intros H x Hx. apply H. by apply list_elem_of_filter in Hx as [_ Hx]. Qed.

Lemma last_of_app x l1 l2 : last_of x (l1 ++ l2) = last_of (last_of x l1) l2.
Proof. revert x; induction l1; intros; [done|]. cbn. auto. Qed.

Lemma last_of_elem x l : last_of x l = x /\ l = [] \/ last_of x l ∈ l.
Proof.
  revert x; induction l as [|y l IH]; intros x; [by left|]. right. cbn. destruct (IH y) as [[-> _]|H]; set_solver.
Qed.

(** The walk of a search: the nodes [A] are behind, [x] is the last of them and is on level [i]. *)
Record walk sl ids1 ids2 (A B : list nat) (x i : nat) : Prop := {
  walk_split : ids1 = A ++ B;
  walk_last : x = last_of head_ A;
  walk_height : A = [] \/ (i < height sl x)%nat;
  walk_chain j : (j < kMaxHeight)%nat -> chain sl j head_ (level sl j (ids1 ++ ids2));
  walk_pos : Forall (fun y => 0 < height sl y)%nat (ids1 ++ ids2);
  walk_level : (i < kMaxHeight)%nat
}.

Lemma walk_last_level sl ids1 ids2 A B x i : walk sl ids1 ids2 A B x i -> last_of head_ (level sl i A) = x.
Proof.
  intros [_ -> Hh _ _ _]. destruct Hh as [->|Hh]; [done|]. destruct A as [|y A _] using rev_ind; [done|].
  rewrite last_of_app in *. cbn in *. unfold level. rewrite filter_app, last_of_app, filter_cons_True by done. done.
Qed.

Lemma walk_next sl ids1 ids2 A B x i : walk sl ids1 ids2 A B x i ->
  Next sl x i = Ok (hd_error (level sl i B ++ level sl i ids2)).
Proof.
  intros Hw. pose proof (walk_last_level _ _ _ _ _ _ _ Hw) as Hl. destruct Hw as [-> _ _ Hc _ Hi].
  specialize (Hc i Hi). rewrite !level_app, <- app_assoc in Hc. apply chain_app, chain_link in Hc.
  rewrite Hl in Hc. by rewrite Next_link, Hc.
Qed.

Lemma walk_down sl ids1 ids2 A B x i : walk sl ids1 ids2 A B x (S i) -> walk sl ids1 ids2 A B x i.
Proof. intros []. split; try done; [|lia]. destruct walk_height0; [by left|right; lia]. Qed.

Lemma level_cons_inv sl i B y Q : level sl i B = y :: Q ->
  exists B1 B2, B = B1 ++ y :: B2 /\ (i < height sl y)%nat.
Proof.
  induction B as [|z B IH]; [done|]. unfold level. destruct (decide (i < height sl z)%nat) as [Hz|Hz].
  - rewrite filter_cons_True by done. intros [= -> _]. by exists [], B.
  - rewrite filter_cons_False by done. intros H. destruct (IH H) as (B1 & B2 & -> & Hy). by exists (z :: B1), B2.
Qed.

(** The next node is still one of [ids1]. *)
Lemma walk_right sl ids1 ids2 A B x i y Q : walk sl ids1 ids2 A B x i -> level sl i B = y :: Q ->
  y ∈ ids1 /\ exists A' B', walk sl ids1 ids2 A' B' y i /\ (length B' < length B)%nat.
Proof.
  intros [-> -> Hh Hc Hp Hi] (B1 & B2 & -> & Hy)%level_cons_inv. split; [set_solver|].
  exists (A ++ B1 ++ [y]), B2. split; [|rewrite length_app; cbn; lia]. split; try done.
  - by rewrite <- !app_assoc.
  - by rewrite !last_of_app.
  - by right.
Qed.

(** At the lowest level there is nothing left. *)
Lemma walk_end sl ids1 ids2 A B x : walk sl ids1 ids2 A B x 0 -> level sl 0 B = [] -> B = [] /\ x = last_of head_ ids1.
Proof.
  intros [-> -> _ _ Hp _] H. assert (B = []) as ->; [|by rewrite app_nil_r].
  destruct B as [|y B]; [done|]. rewrite !Forall_app, Forall_cons in Hp. unfold level in H.
  rewrite filter_cons_True in H; [done|]. apply Hp.
Qed.

Lemma level_0 sl l : Forall (fun y => 0 < height sl y)%nat l -> level sl 0 l = l.
Proof. induction 1; [done|]. unfold level. rewrite filter_cons_True by done. f_equal. done. Qed.

(** What a search stores in [prev]: the last node before the key, for every level from [i] down. *)
Definition prev_filled sl ids1 (i : nat) (prev prev' : option (list nat)) : Prop :=
  match prev, prev' with
  | None, None => True
  | Some a, Some a' => length a' = length a /\
      (forall j, (j <= i)%nat -> a' !! j = Some (last_of head_ (level sl j ids1))) /\ (forall j, (i < j)%nat -> a' !! j = a !! j)
  | _, _ => False
  end.

Lemma find_ge_loop_ok fuel sl k ids1 ids2 A B x i prev :
  walk sl ids1 ids2 A B x i -> entry_ok k ->
  Forall (node_is sl (fun kx => elt kx k)) ids1 -> Forall (node_is sl (fun kx => ~ elt kx k)) ids2 ->
  (length B + i < fuel)%nat -> match prev with Some a => length a = kMaxHeight | None => True end ->
  exists prev', find_ge_loop compare fuel sl k x i prev = Ok (hd_error ids2, prev') /\ prev_filled sl ids1 i prev prev'.
Proof.
  intros Hw Hk H1 H2. revert A B x i prev Hw.
  induction fuel as [|fuel IH]; intros A B x i prev Hw Hf Hlen; [lia|]. cbn [find_ge_loop].
  rewrite (walk_next _ _ _ _ _ _ _ Hw), bind_Ok. destruct (level sl i B) as [|y Q] eqn:HB.
  - cbn [app]. rewrite KeyIsAfterNode_false, bind_Ok by (done || by apply level_Forall).
    assert (exists prev1, match prev with None => Ok None | Some a => a ← store a i x; Ok (Some a) end = Ok prev1 /\
      match prev1 with Some a => length a = kMaxHeight | None => True end /\
      match prev, prev1 with
      | None, None => True
      | Some a, Some a' => a' !! i = Some x /\ (forall j, j <> i -> a' !! j = a !! j) /\ length a' = length a
      | _, _ => False
      end) as (prev1 & -> & Hlen1 & Hp1).
    { destruct prev as [a|]; [|by exists None]. pose proof (walk_level _ _ _ _ _ _ _ Hw).
      exists (Some (<[i := x]> a)). unfold store. rewrite decide_True by lia. cbn. rewrite length_insert.
      split_and!; [done..| | |done]; [apply list_lookup_insert_eq; lia|]. intros j Hj. by apply list_lookup_insert_ne. }
    rewrite bind_Ok. assert (last_of head_ (level sl i ids1) = x) as Hx.
    { rewrite (walk_split _ _ _ _ _ _ _ Hw), level_app, HB, app_nil_r. by eapply walk_last_level. }
    destruct i as [|i].
    + rewrite level_0. 2: { pose proof (walk_pos _ _ _ _ _ _ _ Hw) as Hp. rewrite Forall_app in Hp. apply Hp. }
      exists prev1. split; [done|]. destruct prev, prev1; try done. destruct Hp1 as (Hp1 & Hp2 & Hp3). split_and!; [done|..].
      * intros j Hj. replace j with 0%nat by lia. by rewrite Hx.
      * intros j Hj. apply Hp2. lia.
    + destruct (IH A B x i prev1) as (prev2 & -> & Hp2); [by apply walk_down|lia|done|]. exists prev2. split; [done|].
      destruct prev, prev1, prev2; try done. destruct Hp1 as (Hp1 & Hp1' & Hl1), Hp2 as (Hl2 & Hp2 & Hp2'). split_and!; [lia|..].
      * intros j Hj. destruct (decide (j = S i)) as [->|]; [|apply Hp2; lia]. rewrite Hp2' by lia. by rewrite Hp1, Hx.
      * intros j Hj. rewrite Hp2', Hp1' by lia. done.
  - cbn [app hd_error]. destruct (walk_right _ _ _ _ _ _ _ _ _ Hw HB) as (Hy & A' & B' & Hw' & Hlt).
    rewrite Forall_forall in H1. rewrite KeyIsAfterNode_true, bind_Ok by (done || by apply H1).
    rewrite <- Forall_forall in H1. apply (IH A' B'); [done|lia|done].
Qed.

Lemma find_lt_loop_ok fuel sl k ids1 ids2 A B x i :
  walk sl ids1 ids2 A B x i -> entry_ok k ->
  Forall (node_is sl (fun kx => elt kx k)) ids1 -> Forall (node_is sl (fun kx => ~ elt kx k)) ids2 ->
  (length B + i < fuel)%nat -> find_lt_loop compare fuel sl k x i = Ok (last_of head_ ids1).
Proof.
  intros Hw Hk H1 H2. revert A B x i Hw. induction fuel as [|fuel IH]; intros A B x i Hw Hf; [lia|]. cbn [find_lt_loop].
  assert ((if decide (x = head_) then Ok () else kx ← node_key sl x; c ← compare kx k; c_assert (c <? 0)) = Ok ()) as ->.
  { case_decide as Hx; [done|]. assert (x ∈ ids1) as Hin.
    { rewrite (walk_split _ _ _ _ _ _ _ Hw), (walk_last _ _ _ _ _ _ _ Hw) in *.
      destruct (last_of_elem head_ A) as [[E _]|E]; [done|set_solver]. }
    rewrite Forall_forall in H1. destruct (H1 x Hin) as (kx & E & Hok & Hlt).
    rewrite (node_key_of _ _ _ E), bind_Ok, compare_entry, bind_Ok by done. by rewrite (proj2 (Z.ltb_lt _ _)). }
  rewrite bind_Ok, (walk_next _ _ _ _ _ _ _ Hw), bind_Ok. destruct (level sl i B) as [|y Q] eqn:HB.
  - cbn [app]. assert (match hd_error (level sl i ids2) with None => Ok true | Some n => kn ← node_key sl n; c ← compare kn k; Ok (0 <=? c) end = Ok true) as ->.
    { destruct (level_Forall sl i _ _ H2) as [|y Q (ky & E & Hok & Hge) _]; [done|]. cbn.
      rewrite (node_key_of _ _ _ E), bind_Ok, compare_entry, bind_Ok by done. unfold elt in Hge.
      by rewrite (proj2 (Z.leb_le _ _)) by lia. }
    rewrite bind_Ok. destruct i as [|i].
    + destruct (walk_end _ _ _ _ _ _ Hw HB) as [_ ->]. done.
    + apply (IH A B); [by apply walk_down|lia].
  - cbn [app hd_error]. destruct (walk_right _ _ _ _ _ _ _ _ _ Hw HB) as (Hy & A' & B' & Hw' & Hlt).
    rewrite Forall_forall in H1. destruct (H1 y Hy) as (ky & E & Hok & Hky).
    rewrite (node_key_of _ _ _ E), bind_Ok, compare_entry, !bind_Ok by done.
    rewrite (proj2 (Z.leb_gt _ _)) by done. rewrite <- Forall_forall in H1. apply (IH A' B'); [done|lia].
Qed.

Lemma find_last_loop_ok fuel sl ids A B x i :
  walk sl ids [] A B x i -> (length B + i < fuel)%nat -> find_last_loop fuel sl x i = Ok (last_of head_ ids).
Proof.
  revert A B x i. induction fuel as [|fuel IH]; intros A B x i Hw Hf; [lia|]. cbn [find_last_loop].
  rewrite (walk_next _ _ _ _ _ _ _ Hw), bind_Ok, app_nil_r. destruct (level sl i B) as [|y Q] eqn:HB; cbn [hd_error].
  - destruct i as [|i].
    + destruct (walk_end _ _ _ _ _ _ Hw HB) as [_ ->]. done.
    + apply (IH A B); [by apply walk_down|lia].
  - destruct (walk_right _ _ _ _ _ _ _ _ _ Hw HB) as (Hy & A' & B' & Hw' & Hlt). apply (IH A' B'); [done|lia].
Qed.

Lemma walk_start sl ids1 ids2 ks : inv sl (ids1 ++ ids2) ks -> walk sl ids1 ids2 [] ids1 head_ (max_height_ sl - 1).
Proof.
  intros Hi. split; try done; [by left|apply Hi| |].
  - apply Forall_forall. intros y Hy. by apply (inv_height _ _ _ Hi) in Hy as [? _].
  - pose proof (inv_max _ _ _ Hi). lia.
Qed.

Lemma FindGreaterOrEqual_ok sl ids1 ids2 ks k prev :
  inv sl (ids1 ++ ids2) ks -> entry_ok k ->
  Forall (node_is sl (fun kx => elt kx k)) ids1 -> Forall (node_is sl (fun kx => ~ elt kx k)) ids2 ->
  match prev with Some a => length a = kMaxHeight | None => True end ->
  exists prev', FindGreaterOrEqual compare sl k prev = Ok (hd_error ids2, prev') /\ prev_filled sl ids1 (max_height_ sl - 1) prev prev'.
Proof.
  intros Hi Hk H1 H2 Hp. eapply find_ge_loop_ok; try done; [by eapply walk_start|].
  unfold search_fuel. rewrite (inv_size _ _ _ Hi), length_app. lia.
Qed.

(** ** Linking a node *)

Lemma SetNext_ok sl x i p old : link sl x i = Some old ->
  exists sl', SetNext sl x i p = Ok sl' /\
    (forall y j, link sl' y j = if decide (y = x /\ j = i) then Some p else link sl y j) /\
    (forall y, height sl' y = height sl y) /\ (forall y, key_of sl' y = key_of sl y) /\
    length (nodes sl') = length (nodes sl) /\ max_height_ sl' = max_height_ sl.
Proof.
  unfold link at 1. intros H. destruct (nodes sl !! x) as [nd|] eqn:E; [|done]. cbn in H.
  pose proof (lookup_lt_Some _ _ _ H) as Hlt. pose proof (lookup_lt_Some _ _ _ E) as Hx.
  unfold SetNext, store. rewrite E. cbn [of_option]. rewrite bind_Ok, decide_True, bind_Ok by done.
  eexists. split; [done|]. unfold link, height, key_of. cbn [nodes max_height_]. split_and!; [| | |by rewrite length_insert|done].
  - intros y j. destruct (decide (y = x)) as [->|Hy].
    + rewrite list_lookup_insert_eq, E by done. cbn. destruct (decide (j = i)) as [->|Hj].
      * rewrite decide_True by done. by apply list_lookup_insert_eq.
      * rewrite decide_False by naive_solver. by apply list_lookup_insert_ne.
    + rewrite decide_False by naive_solver. by rewrite list_lookup_insert_ne.
  - intros y. destruct (decide (y = x)) as [->|Hy]; [|by rewrite list_lookup_insert_ne].
    rewrite list_lookup_insert_eq, E by done. cbn. by rewrite length_insert.
  - intros y. destruct (decide (y = x)) as [->|Hy]; [|by rewrite list_lookup_insert_ne].
    by rewrite list_lookup_insert_eq, E by done.
Qed.

Lemma chain_ext sl sl' i x l :
  (forall y, y ∈ x :: l -> link sl' y i = link sl y i) -> chain sl i x l -> chain sl' i x l.
Proof.
  revert x; induction l as [|y l IH]; intros x Hl; cbn.
  - intros H. rewrite Hl; [done|set_solver].
  - intros [H1 H2]. split; [rewrite Hl; [done|set_solver]|]. apply IH; [|done]. intros z Hz. apply Hl. set_solver.
Qed.

(** Node [n] is linked between [La] and [Lb] at level [i]. *)
Lemma chain_insert sl sl' i x La Lb n :
  chain sl i x (La ++ Lb) -> NoDup (x :: La ++ Lb) -> n ∉ x :: La ++ Lb ->
  link sl' n i = link sl (last_of x La) i -> link sl' (last_of x La) i = Some (Some n) ->
  (forall y, y <> n -> y <> last_of x La -> link sl' y i = link sl y i) ->
  chain sl' i x (La ++ n :: Lb).
Proof.
  revert x; induction La as [|y La IH]; intros x Hc Hnd Hn H1 H2 H3; cbn in *.
  - split; [done|]. destruct Lb as [|b Lb]; cbn in *; [congruence|]. destruct Hc as [Hx Hc]. split; [congruence|].
    eapply chain_ext; [|exact Hc]. intros z Hz. apply H3; [set_solver|]. intros ->.
    apply NoDup_cons in Hnd as [Hx' _]. set_solver.
  - destruct Hc as [Hx Hc]. apply NoDup_cons in Hnd as [Hx' Hnd]. split.
    + rewrite H3; [done|set_solver|]. intros E. destruct (last_of_elem y La) as [[E' _]|E']; set_solver.
    + apply IH; try done. set_solver.
Qed.

(** Before the levels from [i] on are linked. *)
Record linking sl ids1 ids2 (n h i : nat) : Prop := {
  lk_chain j : (j < kMaxHeight)%nat ->
    chain sl j head_ (level sl j ids1 ++ (if decide (j < i)%nat then [n] else []) ++ level sl j ids2);
  lk_nodup : NoDup (n :: head_ :: ids1 ++ ids2);
  lk_new j : (j < h)%nat -> exists p, link sl n j = Some p;
  lk_height : (h <= kMaxHeight)%nat
}.

Lemma level_ext sl sl' j l : (forall y, height sl' y = height sl y) -> level sl' j l = level sl j l.
Proof. intros H. unfold level. apply list_filter_iff. intros x. by rewrite H. Qed.

Lemma level_sublist sl j l : level sl j l `sublist_of` l.
Proof. apply sublist_filter. Qed.

Lemma linking_level sl ids1 ids2 n h i j :
  linking sl ids1 ids2 n h i ->
  NoDup (head_ :: level sl j ids1 ++ level sl j ids2) /\ n ∉ head_ :: level sl j ids1 ++ level sl j ids2.
Proof.
  intros [_ Hnd _ _]. apply NoDup_cons in Hnd as [Hn Hnd]. rewrite <- level_app. split.
  - eapply sublist_NoDup; [exact Hnd|]. apply sublist_skip, level_sublist.
  - intros H. apply Hn. rewrite elem_of_cons in *. destruct H as [H|H]; [by left|right].
    by apply list_elem_of_filter in H as [_ H].
Qed.

Lemma link_step sl ids1 ids2 n h i prev :
  linking sl ids1 ids2 n h i -> (i < h)%nat -> prev !! i = Some (last_of head_ (level sl i ids1)) ->
  exists sl', (p ← load prev i; nx ← Next sl p i; sl1 ← SetNext sl n i nx; SetNext sl1 p i (Some n)) = Ok sl' /\
    linking sl' ids1 ids2 n h (S i) /\ (forall y, height sl' y = height sl y) /\ (forall y, key_of sl' y = key_of sl y) /\
    length (nodes sl') = length (nodes sl) /\ max_height_ sl' = max_height_ sl.
Proof.
  intros Hl Hih Hp. pose proof Hl as [Hc Hnd Hnew Hh]. destruct (linking_level _ _ _ _ _ _ i Hl) as [Hnd' Hn].
  specialize (Hc i ltac:(lia)) as Hci. rewrite decide_False in Hci by lia. cbn [app] in Hci.
  pose proof (chain_link _ _ _ _ (chain_app _ _ _ _ _ Hci)) as Hlast. set (p := last_of head_ (level sl i ids1)) in *.
  unfold load. rewrite Hp. cbn [of_option]. rewrite bind_Ok, Next_link, Hlast. cbn [of_option]. rewrite bind_Ok.
  destruct (Hnew i Hih) as [old Hold].
  destruct (SetNext_ok sl n i (hd_error (level sl i ids2)) old Hold) as (sl1 & -> & L1 & G1 & K1 & N1 & M1). rewrite bind_Ok.
  assert (p <> n) as Hpn by (intros <-; apply Hn; destruct (last_of_elem head_ (level sl i ids1)) as [[E _]|E]; subst p; set_solver).
  assert (link sl1 p i = Some (hd_error (level sl i ids2))) as Hl1 by (rewrite L1, decide_False by naive_solver; done).
  destruct (SetNext_ok sl1 p i (Some n) _ Hl1) as (sl2 & -> & L2 & G2 & K2 & N2 & M2).
  exists sl2. split; [done|]. assert (forall y, height sl2 y = height sl y) as G by (intros; by rewrite G2, G1).
  split_and!; [|done|intros; by rewrite K2, K1|lia|congruence]. split; [|done| |done].
  - intros j Hj. rewrite !(level_ext sl sl2) by done. destruct (decide (j = i)) as [->|Hji].
    + rewrite decide_True by lia. cbn [app]. eapply chain_insert; try exact Hnd'; try exact Hn; [exact Hci|..]; fold p.
      * rewrite L2, decide_False, L1, decide_True by naive_solver. by rewrite Hlast.
      * by rewrite L2, decide_True by done.
      * intros y Hyn Hyp. rewrite L2, decide_False, L1, decide_False by naive_solver. done.
    + specialize (Hc j Hj). replace (if decide (j < S i)%nat then [n] else []) with (if decide (j < i)%nat then [n] else [] : list nat)
        by (repeat case_decide; done || lia).
      eapply chain_ext; [|exact Hc]. intros y _. rewrite L2, decide_False, L1, decide_False by naive_solver. done.
  - intros j Hj. destruct (Hnew j Hj) as [q Hq]. rewrite L2. case_decide; [eauto|]. rewrite L1. case_decide; eauto.
Qed.

Lemma link_loop_ok m sl ids1 ids2 n h i prev :
  linking sl ids1 ids2 n h i -> (i + m = h)%nat ->
  (forall j, (j < h)%nat -> prev !! j = Some (last_of head_ (level sl j ids1))) ->
  exists sl', link_loop m sl n i prev = Ok sl' /\
    linking sl' ids1 ids2 n h h /\ (forall y, height sl' y = height sl y) /\ (forall y, key_of sl' y = key_of sl y) /\
    length (nodes sl') = length (nodes sl) /\ max_height_ sl' = max_height_ sl.
Proof.
  revert sl i; induction m as [|m IH]; intros sl i Hl Him Hp; cbn [link_loop].
  { replace i with h in Hl by lia. exists sl. auto 10. }
  destruct (link_step sl ids1 ids2 n h i prev Hl) as (sl1 & E & Hl1 & G1 & K1 & N1 & M1); [lia|apply Hp; lia|].
  apply bind_Ok_inv in E as (p & -> & E). apply bind_Ok_inv in E as (nx & E0 & E). apply bind_Ok_inv in E as (sl0 & E1 & E2).
  rewrite bind_Ok, E0, bind_Ok, E1, bind_Ok, E2, bind_Ok.
  destruct (IH sl1 (S i)) as (sl2 & E & Hl2 & G2 & K2 & N2 & M2); [done|lia| |].
  { intros j Hj. rewrite (level_ext sl sl1) by done. by apply Hp. }
  exists sl2. split_and!; [done|done|intros; by rewrite G2, G1|intros; by rewrite K2, K1|lia|congruence].
Qed.

Lemma newSkipList_ok any : represents (newSkipList any) [].
Proof.
  exists []. split; [constructor|constructor|constructor|apply NoDup_singleton| | |cbn; unfold kMaxHeight; lia|done].
  - intros i Hi. change (replicate kMaxHeight (None : option nat) !! i = Some None). by apply lookup_replicate_2.
  - intros x Hx. by apply not_elem_of_nil in Hx.
Qed.

Lemma random_height_bound fuel rnd h : (0 < h <= kMaxHeight)%nat -> (0 < (random_height_loop fuel rnd h).1 <= kMaxHeight)%nat.
Proof.
  revert rnd h; induction fuel as [|fuel IH]; intros rnd h Hh; [done|]. cbn [random_height_loop].
  destruct (Nat.ltb_spec h kMaxHeight); [|done]. case_match; [|done]. apply IH. lia.
Qed.

Lemma RandomHeight_ok sl : exists h rnd, RandomHeight sl = Ok (h, mkList (nodes sl) (max_height_ sl) rnd) /\ (0 < h <= kMaxHeight)%nat.
Proof.
  unfold RandomHeight. pose proof (random_height_bound kMaxHeight (rnd_ sl) 1 ltac:(unfold kMaxHeight; lia)) as H.
  destruct (random_height_loop kMaxHeight (rnd_ sl) 1) as [h rnd]. cbn [fst] in H. exists h, rnd.
  rewrite (proj2 (Nat.ltb_lt _ _)), (proj2 (Nat.leb_le _ _)) by lia. done.
Qed.

Lemma raise_loop_ok m i (prev : list nat) : (i + m <= length prev)%nat ->
  exists prev', raise_loop m i prev = Ok prev' /\
    (forall j, prev' !! j = if decide (i <= j < i + m)%nat then Some head_ else prev !! j).
Proof.
  revert i prev; induction m as [|m IH]; intros i prev Hl; cbn [raise_loop].
  { exists prev. split; [done|]. intros j. rewrite decide_False by lia. done. }
  unfold store. rewrite decide_True, bind_Ok by lia. destruct (IH (S i) (<[i := head_]> prev)) as (p & -> & Hp);
    [rewrite length_insert; lia|]. exists p. split; [done|]. intros j. rewrite Hp.
  destruct (decide (j = i)) as [->|Hj].
  - rewrite decide_False, decide_True by lia. apply list_lookup_insert_eq. lia.
  - rewrite list_lookup_insert_ne by done. repeat case_decide; done || lia.
Qed.

(** The nodes before a key have no links above the height of the list. *)
Lemma level_high sl ids ks l j : inv sl ids ks -> l ⊆ ids -> (max_height_ sl <= j)%nat -> level sl j l = [].
Proof.
  intros Hi Hl Hj. apply elem_of_nil_inv. intros x Hx. apply list_elem_of_filter in Hx as [Hx Hin].
  apply Hl, (inv_height _ _ _ Hi) in Hin. lia.
Qed.

Lemma hd_error_lookup (l1 l2 : list nat) : hd_error l2 = (l1 ++ l2) !! length l1.
Proof. rewrite lookup_app_r, Nat.sub_diag by lia. by destruct l2. Qed.

Section insert.
Context (junk : nat -> option nat).

(** The new node is allocated: nothing else changes. *)
Lemma alloc_links sl k h rnd mh : let sl' := mkList (nodes sl ++ [mkNode k (map junk (seq 0 h))]) mh rnd in
  (forall y j, (y < length (nodes sl))%nat -> link sl' y j = link sl y j) /\
  (forall y, (y < length (nodes sl))%nat -> height sl' y = height sl y /\ key_of sl' y = key_of sl y) /\
  height sl' (length (nodes sl)) = h /\ key_of sl' (length (nodes sl)) = Some k /\
  (forall j, (j < h)%nat -> exists p, link sl' (length (nodes sl)) j = Some p).
Proof.
  unfold link, height, key_of. cbn [nodes]. split_and!.
  - intros y j Hy. by rewrite lookup_app_l.
  - intros y Hy. by rewrite lookup_app_l.
  - rewrite list_lookup_middle by done. cbn. by rewrite length_map, length_seq.
  - by rewrite list_lookup_middle.
  - intros j Hj. rewrite list_lookup_middle by done. cbn. exists (junk j). rewrite list_lookup_fmap, lookup_seq_lt by done. done.
Qed.

Lemma ids_lt sl ids ks x : inv sl ids ks -> x ∈ head_ :: ids -> (x < length (nodes sl))%nat.
Proof.
  intros Hi [->|Hx]%elem_of_cons; [rewrite (inv_size _ _ _ Hi); unfold head_; lia|].
  apply (inv_height _ _ _ Hi) in Hx as [Hx _]. unfold height in Hx. destruct (nodes sl !! x) eqn:E; [|lia].
  by eapply lookup_lt_Some.
Qed.

Lemma elt_trichotomy a b : entry_ok a -> entry_ok b -> elt a b \/ entry_key a = entry_key b \/ elt b a.
Proof. intros Ha Hb. apply cmp_neg; by apply entry_key_ok. Qed.

Lemma sorted_insert ks1 ks2 k :
  StronglySorted elt (ks1 ++ ks2) -> Forall (fun x => elt x k) ks1 -> Forall (elt k) ks2 ->
  entry_ok k -> Forall entry_ok (ks1 ++ ks2) -> StronglySorted elt (ks1 ++ k :: ks2).
Proof.
  intros Hs H1 H2 Hk Hok. induction ks1 as [|x ks1 IH]; cbn in *; [by constructor|].
  inversion Hs; subst. inversion H1; subst. inversion Hok; subst. constructor; [by apply IH|].
  rewrite Forall_app, Forall_cons. rewrite Forall_app in H4. tauto.
Qed.

(** Where [Insert] links the node. *)
Lemma insert_linking sl ids1 ids2 ks k h mh rnd :
  inv sl (ids1 ++ ids2) ks -> (0 < h <= kMaxHeight)%nat ->
  let sl' := mkList (nodes sl ++ [mkNode k (map junk (seq 0 h))]) mh rnd in
  linking sl' ids1 ids2 (length (nodes sl)) h 0 /\ (forall j, level sl' j ids1 = level sl j ids1).
Proof.
  intros Hi Hh sl'. destruct (alloc_links sl k h rnd mh) as (HL & HH & _ & _ & HN). fold sl' in HL, HH, HN.
  assert (forall l j, l ⊆ ids1 ++ ids2 -> level sl' j l = level sl j l) as Hlev.
  { intros l j Hl. unfold level. induction l as [|x l IH]; [done|].
    assert (height sl' x = height sl x) as E by (apply HH; eapply ids_lt; [done|]; set_solver).
    rewrite !filter_cons, E. case_decide; rewrite IH; set_solver. }
  split; [|intros; apply Hlev; set_solver]. split; [| |done|lia].
  - intros j Hj. rewrite decide_False by lia. cbn [app]. rewrite !Hlev, <- level_app by set_solver.
    eapply chain_ext; [|by apply (inv_chain _ _ _ Hi)]. intros y Hy. apply HL. eapply ids_lt; [done|].
    rewrite elem_of_cons in *. destruct Hy as [|Hy]; [by left|right]. by apply list_elem_of_filter in Hy as [_ Hy].
  - apply NoDup_cons. split; [|apply Hi]. intros Hn. pose proof (ids_lt _ _ _ _ Hi Hn). lia.
Qed.

(** The new node has its place. *)
Lemma insert_inv sl sl' ids1 ids2 ks1 ks2 k h :
  inv sl (ids1 ++ ids2) (ks1 ++ ks2) -> entry_ok k -> Forall (fun x => elt x k) ks1 -> Forall (elt k) ks2 ->
  linking sl' ids1 ids2 (length (nodes sl)) h h -> (0 < h <= kMaxHeight)%nat ->
  Forall2 (fun x k => key_of sl x = Some k) ids1 ks1 -> Forall2 (fun x k => key_of sl x = Some k) ids2 ks2 ->
  (forall x, x ∈ ids1 ++ ids2 -> height sl' x = height sl x /\ key_of sl' x = key_of sl x) ->
  height sl' (length (nodes sl)) = h -> key_of sl' (length (nodes sl)) = Some k ->
  max_height_ sl' = Nat.max (max_height_ sl) h -> length (nodes sl') = S (length (nodes sl)) ->
  inv sl' (ids1 ++ length (nodes sl) :: ids2) (ks1 ++ k :: ks2).
Proof.
  intros Hi Hk A1 A2 Hl Hh F1 F2 Hsame Hnh Hnk Hm Hn.
  assert (forall ids ks, ids ⊆ ids1 ++ ids2 -> Forall2 (fun x k => key_of sl x = Some k) ids ks ->
    Forall2 (fun x k => key_of sl' x = Some k) ids ks) as Hkeys.
  { intros ids ks Hsub HF. induction HF as [|x kx ids ks Hx HF IH]; [constructor|]. constructor; [|apply IH; set_solver].
    rewrite (proj2 (Hsame x ltac:(set_solver))). done. }
  split.
  - apply Forall2_app; [apply Hkeys; [set_solver|done]|]. constructor; [done|]. apply Hkeys; [set_solver|done].
  - pose proof (inv_ok _ _ _ Hi) as Hok. rewrite Forall_app, ?Forall_cons in *. tauto.
  - apply sorted_insert; [apply Hi|done..|apply Hi].
  - assert (head_ :: ids1 ++ length (nodes sl) :: ids2 ≡ₚ length (nodes sl) :: head_ :: ids1 ++ ids2) as ->; [|apply Hl].
    rewrite <- Permutation_middle. constructor.
  - intros i Hlt. pose proof (lk_chain _ _ _ _ _ _ Hl i Hlt) as Hc. rewrite level_app. unfold level at 2. rewrite filter_cons, Hnh.
    fold (level sl' i ids2). case_decide; exact Hc.
  - intros x Hx. rewrite Hm. destruct (decide (x = length (nodes sl))) as [->|Hne]; [lia|].
    assert (x ∈ ids1 ++ ids2) as Hin by set_solver. rewrite (proj1 (Hsame x Hin)). pose proof (inv_height _ _ _ Hi x Hin). lia.
  - pose proof (inv_max _ _ _ Hi). lia.
  - rewrite Hn, (inv_size _ _ _ Hi), !length_app. cbn. lia.
Qed.

Lemma Insert_ok sl ks k prev0 :
  represents sl ks -> entry_ok k -> Forall (fun x => entry_key x <> entry_key k) ks -> length prev0 = kMaxHeight ->
  exists sl' ks1 ks2, Insert compare junk sl k prev0 = Ok sl' /\ ks = ks1 ++ ks2 /\ represents sl' (ks1 ++ k :: ks2).
Proof.
  intros [ids Hi] Hk Hnew Hp0. destruct (inv_split sl ids ks k Hi Hk) as (ids1 & ids2 & ks1 & ks2 & -> & -> & F1 & F2 & B1 & B2 & A1 & A2).
  unfold Insert. destruct (FindGreaterOrEqual_ok sl ids1 ids2 _ k (Some prev0) Hi Hk B1 B2 Hp0) as (prev1 & -> & Hp1).
  rewrite bind_Ok. destruct prev1 as [prev1|]; [|done]. destruct Hp1 as (Hlen & Hlow & _). cbn [of_option]. rewrite bind_Ok.
  rewrite Forall_app in Hnew. destruct Hnew as [_ Hnew2]. pose proof (inv_ok _ _ _ Hi) as Hok.
  assert (match hd_error ids2 with None => Ok () | Some x => kx ← node_key sl x; c ← compare k kx; c_assert (negb (c =? 0)) end = Ok ()) as ->.
  { destruct F2 as [|x kx ids2 ks2 Hx F2]; [done|]. cbn. rewrite Forall_app, Forall_cons in Hok. destruct Hok as (_ & Hkx & _).
    rewrite (node_key_of _ _ _ Hx), bind_Ok, compare_entry, bind_Ok by done. rewrite Forall_cons in Hnew2.
    rewrite (proj2 (Z.eqb_neq _ 0)); [done|]. rewrite cmp_eq by by apply entry_key_ok. naive_solver. }
  rewrite bind_Ok. destruct (RandomHeight_ok sl) as (h & rnd & -> & Hh). rewrite bind_Ok. cbn [max_height_ nodes rnd_].
  pose proof (inv_max _ _ _ Hi) as Hmax. set (mh := Nat.max (max_height_ sl) h).
  assert (exists prev, (if (max_height_ sl <? h)%nat then raise_loop (h - max_height_ sl) (max_height_ sl) prev1 else Ok prev1) = Ok prev /\
    (forall j, (j < h)%nat -> prev !! j = Some (last_of head_ (level sl j ids1)))) as (prev & -> & Hprev).
  { destruct (Nat.ltb_spec (max_height_ sl) h) as [Hlt|Hge].
    - destruct (raise_loop_ok (h - max_height_ sl) (max_height_ sl) prev1) as (prev & -> & Hr); [rewrite Hlen; lia|].
      exists prev. split; [done|]. intros j Hj. rewrite Hr. case_decide as Hd.
      + rewrite (level_high sl _ _ ids1 j Hi); [done|set_solver|lia].
      + apply Hlow. lia.
    - exists prev1. split; [done|]. intros j Hj. apply Hlow. lia. }
  rewrite bind_Ok. replace (if (max_height_ sl <? h)%nat then _ else _) with (mkList (nodes sl) mh rnd).
  2: { subst mh. destruct (Nat.ltb_spec (max_height_ sl) h); f_equal; lia. }
  unfold NewNode. cbn [nodes max_height_ rnd_].
  destruct (insert_linking sl ids1 ids2 _ k h mh rnd Hi Hh) as [Hl Hlev].
  destruct (alloc_links sl k h rnd mh) as (HL & HH & Hnh & Hnk & _). set (sl1 := mkList (nodes sl ++ _) mh rnd) in *.
  destruct (link_loop_ok h sl1 ids1 ids2 (length (nodes sl)) h 0 prev Hl) as (sl2 & -> & Hl2 & G & K & N & M);
    [done|intros j Hj; rewrite Hlev; by apply Hprev|].
  exists sl2, ks1, ks2. split_and!; [done..|]. exists (ids1 ++ length (nodes sl) :: ids2).
  assert (forall x, x ∈ ids1 ++ ids2 -> height sl2 x = height sl x /\ key_of sl2 x = key_of sl x) as Hsame.
  { intros x Hx. rewrite G, K. apply HH. eapply ids_lt; [done|]. set_solver. }
  rewrite Forall_app in Hok. destruct Hok as [_ Hok2].
  apply (insert_inv sl sl2 ids1 ids2 ks1 ks2 k h); try done.
  - rewrite Forall_forall in *. intros x Hx. destruct (elt_trichotomy k x) as [|[E|E]]; [done|by apply Hok2|done|..].
    + exfalso. by eapply Hnew2.
    + exfalso. by eapply A2.
  - by rewrite G.
  - by rewrite K.
  - rewrite N. cbn. rewrite length_app. cbn. lia.
Qed.

(** An entry that compares equal is there: the assertion of [Insert] fails. *)
Lemma Insert_duplicate sl ks k kx prev0 :
  represents sl ks -> entry_ok k -> kx ∈ ks -> entry_key kx = entry_key k -> length prev0 = kMaxHeight ->
  Insert compare junk sl k prev0 = AssertFail.
Proof.
  intros [ids Hi] Hk Hin Heq Hp0. destruct (inv_split sl ids ks k Hi Hk) as (ids1 & ids2 & ks1 & ks2 & -> & -> & F1 & F2 & B1 & B2 & A1 & A2).
  unfold Insert. destruct (FindGreaterOrEqual_ok sl ids1 ids2 _ k (Some prev0) Hi Hk B1 B2 Hp0) as (prev1 & -> & Hp1).
  rewrite bind_Ok. destruct prev1 as [prev1|]; [|done]. cbn [of_option]. rewrite bind_Ok.
  pose proof (inv_ok _ _ _ Hi) as Hok. pose proof (inv_sorted _ _ _ Hi) as Hs.
  assert (entry_ok kx) as Hkx by (rewrite Forall_forall in Hok; by apply Hok).
  apply elem_of_app in Hin as [Hin|Hin].
  { rewrite Forall_forall in A1. specialize (A1 kx Hin). unfold elt in A1. rewrite Heq, cmp_refl in A1 by by apply entry_key_ok. lia. }
  destruct F2 as [|y ky ids2 ks2 Hy F2]; [by apply not_elem_of_nil in Hin|]. cbn [hd_error].
  rewrite Forall_app, Forall_cons in Hok. destruct Hok as (_ & Hky & _).
  rewrite (node_key_of _ _ _ Hy), bind_Ok, compare_entry, bind_Ok by done.
  assert (entry_key ky = entry_key k) as ->; [|by rewrite cmp_refl by by apply entry_key_ok].
  apply elem_of_cons in Hin as [->|Hin]; [done|]. rewrite Forall_cons in A2. destruct A2 as [A2 _].
  destruct (elt_trichotomy ky k Hky Hk) as [H|[H|H]]; [done..|]. exfalso.
  apply StronglySorted_app_1_r in Hs. inversion Hs as [|?? _ Hall]; subst. rewrite Forall_forall in Hall. specialize (Hall kx Hin).
  unfold elt in *. rewrite Heq in Hall. pose proof (cmp_trans _ _ _ (entry_key_ok _ Hky) (entry_key_ok _ Hk) (entry_key_ok _ Hky) Hall H) as Hbad.
  rewrite cmp_refl in Hbad by by apply entry_key_ok. lia.
Qed.

End insert.

Lemma Contains_ok sl ks k : represents sl ks -> entry_ok k ->
  Contains compare sl k = Ok (bool_decide (entry_key k ∈ map entry_key ks)).
Proof.
  intros [ids Hi] Hk. destruct (inv_split sl ids ks k Hi Hk) as (ids1 & ids2 & ks1 & ks2 & -> & -> & F1 & F2 & B1 & B2 & A1 & A2).
  unfold Contains. destruct (FindGreaterOrEqual_ok sl ids1 ids2 _ k None Hi Hk B1 B2 I) as (p & -> & _). rewrite bind_Ok.
  pose proof (inv_ok _ _ _ Hi) as Hok. pose proof (inv_sorted _ _ _ Hi) as Hs. rewrite map_app.
  assert (entry_key k ∉ map entry_key ks1) as Hn1.
  { intros (x & E & Hx)%list_elem_of_fmap. rewrite Forall_forall in A1. specialize (A1 x Hx). unfold elt in A1.
    rewrite <- E, cmp_refl in A1 by by apply entry_key_ok. lia. }
  destruct F2 as [|y ky ids2 ks2 Hy F2].
  { cbn. rewrite bool_decide_false; [done|]. set_solver. }
  cbn [hd_error]. rewrite Forall_app, Forall_cons in Hok. destruct Hok as (_ & Hky & Hok2).
  rewrite (node_key_of _ _ _ Hy), bind_Ok, compare_entry, bind_Ok by done. f_equal.
  apply eq_true_iff_eq. rewrite Z.eqb_eq, bool_decide_eq_true, cmp_eq by by apply entry_key_ok. split; [set_solver|].
  intros [H|H]%elem_of_app; [done|]. cbn in H. apply elem_of_cons in H as [H|H]; [done|]. exfalso.
  apply list_elem_of_fmap in H as (x & E & Hx). apply StronglySorted_app_1_r in Hs. inversion Hs as [|?? _ Hall]; subst.
  rewrite Forall_forall in Hall. specialize (Hall x Hx). rewrite Forall_cons in A2. destruct A2 as [A2 _]. unfold elt in *. by rewrite E in A2.
Qed.

(** ** The iterator *)

(** The iterator stands at index [n] of the sequence, or at its end. *)
Definition iter_at sl (ks : list Key) (it : option nat) (n : nat) : Prop :=
  exists ids, inv sl ids ks /\ it = ids !! n /\ (n <= length ks)%nat.

Lemma inv_length sl ids ks : inv sl ids ks -> length ids = length ks.
Proof. intros Hi. apply Forall2_length with (1 := inv_keys _ _ _ Hi). Qed.

Lemma inv_key_at sl ids ks n k : inv sl ids ks -> ks !! n = Some k -> exists x, ids !! n = Some x /\ node_key sl x = Ok k.
Proof.
  intros Hi Hn. destruct (Forall2_lookup_r _ _ _ _ _ (inv_keys _ _ _ Hi) Hn) as (x & Hx & Hk).
  exists x. split; [done|by apply node_key_of].
Qed.

Lemma inv_pos sl ids ks : inv sl ids ks -> Forall (fun y => 0 < height sl y)%nat ids.
Proof. intros Hi. apply Forall_forall. intros x Hx. by apply (inv_height _ _ _ Hi) in Hx as [? _]. Qed.

(** The link of the node before index [n]. *)
Lemma inv_next sl ids1 ids2 ks : inv sl (ids1 ++ ids2) ks -> Next sl (last_of head_ ids1) 0 = Ok (hd_error ids2).
Proof.
  intros Hi. pose proof (inv_chain _ _ _ Hi 0 ltac:(unfold kMaxHeight; lia)) as Hc.
  rewrite (level_0 sl) in Hc by by eapply inv_pos. by rewrite Next_link, (chain_link _ _ _ _ (chain_app _ _ _ _ _ Hc)).
Qed.

Lemma iter_key_ok sl ks it n k : iter_at sl ks it n -> ks !! n = Some k -> iter_key sl it = Ok k.
Proof. intros (ids & Hi & -> & _) Hn. destruct (inv_key_at _ _ _ _ _ Hi Hn) as (x & -> & Hk). done. Qed.

Lemma iter_Valid_ok sl ks it n : iter_at sl ks it n -> iter_Valid it = (n <? length ks)%nat.
Proof.
  intros (ids & Hi & -> & _). rewrite <- (inv_length _ _ _ Hi). apply eq_true_iff_eq. rewrite Nat.ltb_lt.
  rewrite <- (lookup_lt_is_Some ids n). destruct (ids !! n); cbn; naive_solver.
Qed.

Lemma SeekToFirst_ok sl ks : represents sl ks -> exists it, iter_SeekToFirst sl = Ok it /\ iter_at sl ks it 0.
Proof.
  intros [ids Hi]. exists (ids !! 0%nat). unfold iter_SeekToFirst.
  pose proof (inv_next sl [] ids ks Hi) as E. cbn [last_of] in E. rewrite E.
  split; [by destruct ids|]. exists ids. split_and!; [done..|lia].
Qed.

Lemma iter_Next_ok sl ks it n : iter_at sl ks it n -> (n < length ks)%nat ->
  exists it', iter_Next sl it = Ok it' /\ iter_at sl ks it' (S n).
Proof.
  intros (ids & Hi & -> & _) Hn. rewrite <- (inv_length _ _ _ Hi) in Hn.
  destruct (lookup_lt_is_Some_2 ids n Hn) as [x Hx]. rewrite Hx. exists (ids !! S n). split.
  - pose proof (take_drop_middle _ _ _ Hx) as E. rewrite cons_middle, app_assoc in E. rewrite <- E in Hi. apply inv_next in Hi.
    rewrite last_of_app in Hi. cbn [iter_Next last_of] in *. rewrite Hi. f_equal.
    rewrite (hd_error_lookup (take (S n) ids)), take_drop, length_take. f_equal. lia.
  - exists ids. split_and!; [done..|]. rewrite <- (inv_length _ _ _ Hi). lia.
Qed.

(** Where [Seek] stops. *)
Lemma Seek_ok sl ks k : represents sl ks -> entry_ok k ->
  exists ks1 ks2 it, ks = ks1 ++ ks2 /\ Forall (fun x => elt x k) ks1 /\ Forall (fun x => ~ elt x k) ks2 /\
    iter_Seek compare sl k = Ok it /\ iter_at sl ks it (length ks1).
Proof.
  intros [ids Hi] Hk. destruct (inv_split sl ids ks k Hi Hk) as (ids1 & ids2 & ks1 & ks2 & -> & -> & F1 & F2 & B1 & B2 & A1 & A2).
  exists ks1, ks2, (hd_error ids2). unfold iter_Seek.
  destruct (FindGreaterOrEqual_ok sl ids1 ids2 _ k None Hi Hk B1 B2 I) as (p & -> & _). split_and!; [done..|].
  exists (ids1 ++ ids2). rewrite <- (Forall2_length _ _ _ F1), <- hd_error_lookup. split_and!; [done..|].
  rewrite length_app, (Forall2_length _ _ _ F1). lia.
Qed.

Lemma not_head_last sl ids1 ids2 ks : inv sl (ids1 ++ ids2) ks ->
  not_head (last_of head_ ids1) = match length ids1 with O => None | S n => (ids1 ++ ids2) !! n end.
Proof.
  intros Hi. unfold not_head. destruct ids1 as [|x ids1 _] using rev_ind; [done|].
  rewrite last_of_app, length_app, Nat.add_comm. cbn [last_of length Nat.add]. rewrite decide_False.
  - rewrite <- app_assoc, lookup_app_r, Nat.sub_diag by lia. done.
  - intros ->. pose proof (inv_nodup _ _ _ Hi) as Hnd. apply NoDup_cons in Hnd as [Hnd _]. set_solver.
Qed.

Lemma SeekToLast_ok sl ks : represents sl ks ->
  exists it, iter_SeekToLast sl = Ok it /\ match length ks with O => it = None | S n => iter_at sl ks it n end.
Proof.
  intros [ids Hi]. unfold iter_SeekToLast, FindLast. rewrite <- (app_nil_r ids) in Hi.
  rewrite (find_last_loop_ok _ sl ids [] ids); [|by eapply walk_start|].
  2: { unfold search_fuel. rewrite (inv_size _ _ _ Hi), app_nil_r. lia. }
  rewrite bind_Ok, (not_head_last _ _ _ _ Hi), app_nil_r. rewrite app_nil_r in Hi. rewrite (inv_length _ _ _ Hi).
  eexists. split; [done|]. destruct (length ks) eqn:E; [done|]. exists ids. split_and!; [done..|lia].
Qed.

(** The entries before index [n] are the ones below the entry there. *)
Lemma iter_Prev_ok sl ks it n : iter_at sl ks it n -> (n < length ks)%nat ->
  exists it', iter_Prev compare sl it = Ok it' /\ match n with O => it' = None | S n => iter_at sl ks it' n end.
Proof.
  intros (ids & Hi & -> & _) Hn. destruct (lookup_lt_is_Some_2 ks n Hn) as [k Hk].
  destruct (inv_key_at _ _ _ _ _ Hi Hk) as (x & -> & Hx). cbn [iter_Prev]. rewrite Hx, bind_Ok.
  pose proof (inv_ok _ _ _ Hi) as Hok. pose proof (inv_sorted _ _ _ Hi) as Hs. pose proof (inv_keys _ _ _ Hi) as HF.
  assert (entry_ok k) as Hkok by by eapply Forall_lookup_1.
  rewrite <- (take_drop n ids) in Hi. rewrite <- (take_drop n ks) in Hs, Hok. rewrite Forall_app in Hok. destruct Hok as [Ho1 Ho2].
  assert (drop n ks = k :: drop (S n) ks) as Hdrop by by apply drop_S.
  assert (Forall (node_is sl (fun kx => elt kx k)) (take n ids)) as H1.
  { eapply node_is_Forall; [by apply Forall2_take|done|]. apply Forall_forall. intros y Hy.
    eapply StronglySorted_app_1_elem_of; [exact Hs|done|]. rewrite Hdrop. set_solver. }
  assert (Forall (node_is sl (fun kx => ~ elt kx k)) (drop n ids)) as H2.
  { eapply node_is_Forall; [by apply Forall2_drop|done|]. apply StronglySorted_app_1_r in Hs. rewrite Hdrop in *.
    apply Forall_forall. intros y Hy Hlt. inversion Hs as [|?? _ Hall]; subst. inversion Ho2 as [|?? _ Ho3]; subst. unfold elt in *.
    apply elem_of_cons in Hy as [->|Hy]; [rewrite cmp_refl in Hlt by (by apply entry_key_ok); lia|].
    rewrite Forall_forall in Hall. specialize (Hall y Hy). assert (entry_ok y) as Hy' by (rewrite Forall_forall in Ho3; by apply Ho3).
    pose proof (cmp_trans _ _ _ (entry_key_ok _ Hkok) (entry_key_ok _ Hy') (entry_key_ok _ Hkok) Hall Hlt) as Hbad.
    rewrite cmp_refl in Hbad by by apply entry_key_ok. lia. }
  unfold FindLessThan. rewrite (find_lt_loop_ok _ sl k _ _ _ _ _ _ (walk_start _ _ _ _ Hi) Hkok H1 H2).
  2: { unfold search_fuel. rewrite (inv_size _ _ _ Hi), length_app, length_take. lia. }
  rewrite bind_Ok, (not_head_last _ _ _ _ Hi), take_drop, length_take, Nat.min_l.
  2: { rewrite take_drop in Hi. rewrite (inv_length _ _ _ Hi). lia. }
  eexists. split; [done|]. destruct n; [done|]. rewrite take_drop in Hi. exists ids. split_and!; [done..|lia].
Qed.

(** ** Whole runs *)

Section runs.
Context (junk : nat -> option nat).

Fixpoint insert_all sl (es : list Key) (prev0 : list nat) : outcome (SkipList Key) :=
  match es with
  | [] => Ok sl
  | e :: es => sl ← Insert compare junk sl e prev0; insert_all sl es prev0
  end.

(** The keys from the iterator on, by [move]; at most [n]. *)
Fixpoint traverse (move : option nat -> outcome (option nat)) sl (n : nat) (it : option nat) : outcome (list Key) :=
  if iter_Valid it then
    match n with
    | O => Undef
    | S n => k ← iter_key sl it; it ← move it; ks ← traverse move sl n it; Ok (k :: ks)
    end
  else Ok [].

Definition forwards sl (n : nat) : outcome (list Key) := it ← iter_SeekToFirst sl; traverse (iter_Next sl) sl n it.
Definition backwards sl (n : nat) : outcome (list Key) := it ← iter_SeekToLast sl; traverse (iter_Prev compare sl) sl n it.

Lemma insert_all_ok sl ks es prev0 :
  represents sl ks -> Forall entry_ok es -> NoDup (map entry_key (es ++ ks)) -> length prev0 = kMaxHeight ->
  exists sl' ks', insert_all sl es prev0 = Ok sl' /\ represents sl' ks' /\ ks' ≡ₚ es ++ ks.
Proof.
  intros Hr Hok Hnd Hp. revert sl ks Hr Hnd; induction Hok as [|e es He Hok IH]; intros sl ks Hr Hnd; cbn [insert_all]; [by exists sl, ks|].
  cbn [app map] in Hnd. apply NoDup_cons in Hnd as [Hne Hnd].
  destruct (Insert_ok junk sl ks e prev0 Hr He) as (sl1 & ks1 & ks2 & -> & -> & Hr1); [|done|].
  { apply Forall_forall. intros x Hx E. apply Hne. rewrite <- E. apply list_elem_of_fmap. exists x. set_solver. }
  rewrite bind_Ok. assert (ks1 ++ e :: ks2 ≡ₚ e :: ks1 ++ ks2) as HP by (by rewrite <- Permutation_middle).
  assert (es ++ ks1 ++ e :: ks2 ≡ₚ e :: es ++ ks1 ++ ks2) as HP2 by (by rewrite HP, <- Permutation_middle).
  destruct (IH sl1 (ks1 ++ e :: ks2) Hr1) as (sl' & ks' & E & Hr' & HP').
  - assert (map entry_key (es ++ ks1 ++ e :: ks2) ≡ₚ map entry_key (e :: es ++ ks1 ++ ks2)) as -> by (by rewrite HP2).
    cbn. by apply NoDup_cons.
  - exists sl', ks'. split_and!; [done..|]. by rewrite HP', HP2.
Qed.

Lemma forwards_ok sl ks : represents sl ks -> forwards sl (length ks) = Ok ks.
Proof.
  intros Hr. unfold forwards. destruct (SeekToFirst_ok sl ks Hr) as (it & -> & Hit). rewrite bind_Ok.
  assert (forall m n it, (n + m = length ks)%nat -> iter_at sl ks it n -> traverse (iter_Next sl) sl m it = Ok (drop n ks)) as H.
  2: { by apply (H _ 0%nat). }
  clear it Hit. induction m as [|m IH]; intros n it Hn Hit; cbn [traverse]; rewrite (iter_Valid_ok _ _ _ _ Hit).
  - rewrite (proj2 (Nat.ltb_ge _ _)) by lia. by rewrite drop_ge by lia.
  - rewrite (proj2 (Nat.ltb_lt _ _)) by lia. destruct (lookup_lt_is_Some_2 ks n) as [k Hk]; [lia|].
    rewrite (iter_key_ok _ _ _ _ _ Hit Hk), bind_Ok. destruct (iter_Next_ok _ _ _ _ Hit) as (it' & -> & Hit'); [lia|].
    rewrite bind_Ok, (IH (S n) it'), bind_Ok by (done || lia). by rewrite (drop_S _ _ _ Hk).
Qed.

Lemma backwards_ok sl ks : represents sl ks -> backwards sl (length ks) = Ok (reverse ks).
Proof.
  intros Hr. unfold backwards. destruct (SeekToLast_ok sl ks Hr) as (it & -> & Hit). rewrite bind_Ok.
  assert (forall m it, (m <= length ks)%nat -> match m with O => it = None | S n => iter_at sl ks it n end ->
    traverse (iter_Prev compare sl) sl m it = Ok (reverse (take m ks))) as H.
  2: { rewrite H; [by rewrite take_ge|done|done]. }
  clear it Hit. induction m as [|m IH]; intros it Hm Hit; [by subst it|]. cbn [traverse].
  rewrite (iter_Valid_ok _ _ _ _ Hit), (proj2 (Nat.ltb_lt _ _)) by lia. destruct (lookup_lt_is_Some_2 ks m) as [k Hk]; [lia|].
  rewrite (iter_key_ok _ _ _ _ _ Hit Hk), bind_Ok. destruct (iter_Prev_ok _ _ _ _ Hit) as (it' & -> & Hit'); [lia|].
  rewrite bind_Ok, (IH it'), bind_Ok by (done || lia). by rewrite (take_S_r _ _ _ Hk), reverse_snoc.
Qed.

(** C17: The skip list is a sorted set.  Entries with different keys are inserted in any order into a new
    list (whatever the unwritten memory of its nodes and of the array [prev] holds): every
    [Insert] returns, and the list holds exactly these entries in order of their keys: iterating from the first with
    [Next] gives them in increasing order, from the last with [Prev] in decreasing order;
    [Contains] says which keys are there; [Seek] stops at the first entry that is not below the target; and
    an entry with the key of one that is there fails the assertion of [Insert]. *)
Theorem skiplist_refines (any : Key) (es : list Key) (prev0 : list nat) :
  Forall entry_ok es -> NoDup (map entry_key es) -> length prev0 = kMaxHeight ->
  exists sl ks, insert_all (newSkipList any) es prev0 = Ok sl /\ ks ≡ₚ es /\ StronglySorted elt ks /\
    forwards sl (length ks) = Ok ks /\ backwards sl (length ks) = Ok (reverse ks) /\
    (forall k, entry_ok k -> Contains compare sl k = Ok (bool_decide (entry_key k ∈ map entry_key ks))) /\
    (forall k, entry_ok k -> exists ks1 ks2 it, ks = ks1 ++ ks2 /\ Forall (fun x => elt x k) ks1 /\ Forall (fun x => ~ elt x k) ks2 /\
       iter_Seek compare sl k = Ok it /\ iter_at sl ks it (length ks1)) /\
    (forall k kx, entry_ok k -> kx ∈ ks -> entry_key kx = entry_key k -> Insert compare junk sl k prev0 = AssertFail).
Proof.
  intros Hok Hnd Hp. destruct (insert_all_ok (newSkipList any) [] es prev0) as (sl & ks & E & Hr & HP);
    [apply newSkipList_ok|done|by rewrite app_nil_r|done|]. rewrite app_nil_r in HP.
  exists sl, ks. split_and!; [done..| |by apply forwards_ok|by apply backwards_ok| | |].
  - destruct Hr as [ids Hi]. apply Hi.
  - intros k Hk. by apply Contains_ok.
  - intros k Hk. by apply Seek_ok.
  - intros k kx Hk Hx Hkx. by eapply Insert_duplicate.
Qed.

End runs.
End refinement.

(** Keys that are byte strings themselves. *)
#[local, refine] Instance bytes_order : EntryOrder (Coding.slice_compare) BytewiseComparator :=
  {| entry_ok := bytewise_ok; entry_key k := k |}.
Proof. done. intros a b [_ Ha] [_ Hb]. by apply slice_compare_lexcmp. Defined.

Lemma skiplist_refines_witness :
  exists sl ks, insert_all (compare := Coding.slice_compare) (fun _ => Some 7%nat) (newSkipList []) [[3]; [1; 2]; [2]] (replicate 12 5%nat) = Ok sl /\
    ks ≡ₚ [[3]; [1; 2]; [2]] /\ forwards sl (length ks) = Ok ks /\ Contains Coding.slice_compare sl [2] = Ok (bool_decide ([2] ∈ map (fun k => k) ks)).
Proof.
  destruct (skiplist_refines (compare := Coding.slice_compare) (fun _ => Some 7%nat) [] [[3]; [1; 2]; [2]] (replicate 12 5%nat))
    as (sl & ks & E & HP & _ & Hf & _ & Hc & _); [by_decide|by_decide|done|].
  exists sl, ks. split_and!; [done..|]. apply Hc. by_decide.
Defined.

End SkipList.
