(* ===== verification/LdbMem.v ===== *)
(** leveldb, db/memtable.{h,cc}: the table of recent writes in memory, over the skip list.

    An entry, a [const char*] in the C++ code, is the bytes of its block from the pointer on.  The
    theorem is the contract of [Get]: at a sequence number, it finds the last write
    of a key that is not after it. *)
From stdpp Require Import sorting sets.
From S2P Require Import Prelude LdbCoding LdbKeys LdbSkipList.

Module MemTable.
Import Coding Keys SkipList.

(** [GetVarint32Ptr(p, p + 5, &len)]: the value and the offset of the pointer it returns;
    NULL is followed as it is. *)
Definition varint_at (data : list Z) : outcome (Z * nat) :=
  match GetVarint32Ptr (take 5 data) with
  | None => Undef
  | Some (len, p) => Ok (len, (length (take 5 data) - length p)%nat)
  end.

(** [GetLengthPrefixedSlice(const char* data)]. *)
Definition length_prefixed (data : list Z) : outcome (list Z) :=
  '(len, p) ← varint_at data; load_range data p (Z.to_nat len).

Section memtable.
Context {user : Comparator}.
Context (junk : nat -> option nat) (prev0 : list nat).

(** [KeyComparator::operator()]. *)
Definition key_compare (aptr bptr : list Z) : outcome Z :=
  a ← length_prefixed aptr;
  b ← length_prefixed bptr;
  internal_compare a b.

Definition EncodeKey (target : list Z) : outcome (list Z) :=
  scratch ← PutVarint32 [] (u32 (Z.of_nat (length target))); Ok (scratch ++ target).

Definition newMemTable : SkipList (list Z) := newSkipList [].

(** The bytes that [Add] writes into the block of [encoded_len] bytes. *)
Definition Add (table_ : SkipList (list Z)) (s type : Z) (key value : list Z) : outcome (SkipList (list Z)) :=
  let key_size := Z.of_nat (length key) in
  let val_size := Z.of_nat (length value) in
  let internal_key_size := key_size + 8 in
  let encoded_len := VarintLength internal_key_size + internal_key_size + VarintLength val_size + val_size in
  let bytes := EncodeVarint32 (u32 internal_key_size) ++ key ++ le_split 8 (Z.lor (u64 (Z.shiftl s 8)) type) ++
               EncodeVarint32 (u32 val_size) ++ value in
  buf ← in_array (Z.to_nat encoded_len) bytes;
  _ ← c_assert (Z.of_nat (length bytes) =? encoded_len);
  Insert key_compare junk table_ buf prev0.

(** [false], or [true] with a value or a status. *)
Definition Get (table_ : SkipList (list Z)) (key : LookupKey) : outcome (option (list Z + Status)) :=
  iter ← iter_Seek key_compare table_ (memtable_key key);
  if iter_Valid iter then
    entry ← iter_key table_ iter;
    '(key_length, key_ptr) ← varint_at entry;
    uk ← load_range entry key_ptr (Z.to_nat (u32 (key_length - 8)));
    c ← Compare uk (lk_user_key key);
    if c =? 0 then
      tag ← DecodeFixed64 kLittleEndian entry (key_ptr + Z.to_nat (u32 (key_length - 8)));
      let t := Z.land tag 0xff in
      if t =? kTypeValue then v ← length_prefixed (drop (key_ptr + Z.to_nat key_length) entry); Ok (Some (inl v))
      else if t =? kTypeDeletion then Ok (Some (inr (NotFound [] [])))
      else Ok None
    else Ok None
  else Ok None.

(** [MemTableIterator]: the iterator of the skip list with decoded entries. *)
Definition mem_Seek (table_ : SkipList (list Z)) (k : list Z) : outcome (option nat) :=
  tmp ← EncodeKey k; iter_Seek key_compare table_ tmp.

Definition mem_key (table_ : SkipList (list Z)) (iter : option nat) : outcome (list Z) :=
  entry ← iter_key table_ iter; length_prefixed entry.

Definition mem_value (table_ : SkipList (list Z)) (iter : option nat) : outcome (list Z) :=
  entry ← iter_key table_ iter;
  '(len, p) ← varint_at entry;
  _ ← load_range entry p (Z.to_nat len);
  length_prefixed (drop (p + Z.to_nat len) entry).

End memtable.

(** * The order of entries *)

Lemma varint_at_encode v rest : is_u32 v -> varint_at (EncodeVarint32 v ++ rest) = Ok (v, length (EncodeVarint32 v)).
Proof.
  intros Hv. unfold varint_at. assert (length (EncodeVarint32 v) <= 5)%nat by (rewrite EncodeVarint32_eq by done; apply length_varint).
  rewrite take_app_ge by lia. change GetVarint32Ptr with GetVarint32. rewrite GetVarint32_encode by done.
  do 2 f_equal. rewrite length_app. lia.
Qed.

Lemma length_prefixed_encode s rest : fits32 s -> length_prefixed (varstring s ++ rest) = Ok s.
Proof.
  intros Hs. unfold length_prefixed, varstring. rewrite <- app_assoc, varint_at_encode by by apply fits32_u32. cbn.
  rewrite Nat2Z.id. apply at_off_load_range. by eexists _, rest.
Qed.

Section memtable_ok.
Context {user : Comparator} {Huser : ComparatorOk user}.

(** An internal key in an entry, followed by anything. *)
Definition entry_form (uk : list Z) (num : Z) (rest : list Z) : list Z := varstring (ikey uk num) ++ rest.

Definition mem_entry_ok (e : list Z) : Prop :=
  exists uk num rest, key_ok uk /\ is_u64 num /\ fits32 (ikey uk num) /\ e = entry_form uk num rest.

Definition mem_entry_key (e : list Z) : list Z := match length_prefixed e with Ok k => k | _ => [] end.

Lemma mem_entry_key_form uk num rest : fits32 (ikey uk num) -> mem_entry_key (entry_form uk num rest) = ikey uk num.
Proof. intros H. unfold mem_entry_key, entry_form. by rewrite length_prefixed_encode. Qed.

#[export, refine] Instance mem_order : EntryOrder key_compare (@InternalKeyComparator user) :=
  {| entry_ok := mem_entry_ok; entry_key := mem_entry_key |}.
Proof.
  - intros a (uk & num & rest & Hk & Hn & Hf & ->). rewrite mem_entry_key_form by done. by apply ikey_ok.
  - intros a b (u1 & n1 & r1 & K1 & N1 & F1 & ->) (u2 & n2 & r2 & K2 & N2 & F2 & ->).
    rewrite !mem_entry_key_form by done. unfold key_compare, entry_form.
    rewrite !length_prefixed_encode, !bind_Ok by done. apply internal_compare_ok; by apply ikey_ok.
Defined.

(** ** Writes *)
Record write := mkWrite { w_seq : Z; w_type : Z; w_key : list Z; w_value : list Z }.

Record write_ok (w : write) : Prop := {
  wo_seq : 0 <= w_seq w <= kMaxSequenceNumber;
  wo_type : 0 <= w_type w <= kTypeValue;
  wo_key : key_ok (w_key w);
  wo_fits : Z.of_nat (length (w_key w)) + 8 < 2 ^ 32;
  wo_value : fits32 (w_value w)
}.

Definition w_num (w : write) : Z := pack (w_seq w) (w_type w).
Definition w_entry (w : write) : list Z := entry_form (w_key w) (w_num w) (varstring (w_value w)).

Lemma w_num_u64 w : write_ok w -> is_u64 (w_num w).
Proof. intros []. by apply pack_u64. Qed.

Lemma w_ikey_fits w : write_ok w -> fits32 (ikey (w_key w) (w_num w)).
Proof. intros []. unfold fits32. rewrite length_ikey. lia. Qed.

Lemma w_entry_ok w : write_ok w -> mem_entry_ok (w_entry w).
Proof. intros Hw. exists (w_key w), (w_num w), (varstring (w_value w)). split_and!; [apply Hw|by apply w_num_u64|by apply w_ikey_fits|done]. Qed.

Lemma w_entry_key w : write_ok w -> mem_entry_key (w_entry w) = ikey (w_key w) (w_num w).
Proof. intros Hw. apply mem_entry_key_form. by apply w_ikey_fits. Qed.

Lemma VarintLength_eq v : is_u32 v -> VarintLength v = Z.of_nat (length (EncodeVarint32 v)).
Proof.
  intros Hv. rewrite EncodeVarint32_64 by done. unfold VarintLength, EncodeVarint64, is_u32 in *.
  rewrite encode_varint64_eq by lia. rewrite varint_length_eq; [lia|lia|]. simpl Z.of_nat. lia.
Qed.

(** What [Add] puts into the skip list. *)
Lemma Add_insert junk prev0 sl w : write_ok w ->
  Add junk prev0 sl (w_seq w) (w_type w) (w_key w) (w_value w) = Insert key_compare junk sl (w_entry w) prev0.
Proof.
  intros Hw. pose proof Hw as [Hs Ht _ Hf Hv]. unfold Add.
  assert (is_u32 (Z.of_nat (length (w_key w)) + 8)) as H1 by (unfold is_u32; lia).
  assert (is_u32 (Z.of_nat (length (w_value w)))) as H2 by by apply fits32_u32.
  unfold u32. rewrite !(Z.mod_small _ (2 ^ 32)) by (unfold is_u32 in *; lia). rewrite !VarintLength_eq by done.
  rewrite pack_lor by done. fold (w_num w).
  set (bytes := EncodeVarint32 (Z.of_nat (length (w_key w)) + 8) ++ _).
  assert (bytes = w_entry w) as Hb.
  { unfold bytes, w_entry, entry_form, varstring. rewrite length_ikey, Nat2Z.inj_add. unfold ikey. by rewrite <- !app_assoc. }
  assert (Z.of_nat (length bytes) = Z.of_nat (length (EncodeVarint32 (Z.of_nat (length (w_key w)) + 8))) +
    (Z.of_nat (length (w_key w)) + 8) + Z.of_nat (length (EncodeVarint32 (Z.of_nat (length (w_value w))))) +
    Z.of_nat (length (w_value w))) as Hl by (unfold bytes; rewrite !length_app, length_le_split; lia).
  unfold in_array. rewrite decide_True, bind_Ok by lia. rewrite (proj2 (Z.eqb_eq _ _)) by lia. cbn [c_assert]. by rewrite bind_Ok, Hb.
Qed.

(** ** Reading *)

Lemma newLookupKey_ok uk s : 0 <= s <= kMaxSequenceNumber -> Z.of_nat (length uk) + 8 < 2 ^ 32 ->
  exists k, newLookupKey uk s = Ok k /\ memtable_key k = entry_form uk (pack s kValueTypeForSeek) [] /\ lk_user_key k = uk.
Proof.
  intros Hs Hf. unfold newLookupKey. rewrite PackSequenceAndType_ok, bind_Ok by done.
  assert (is_u32 (Z.of_nat (length uk) + 8)) as Hu by (unfold is_u32; lia). unfold u32. rewrite Z.mod_small by done.
  pose proof (length_varint 5 (Z.of_nat (length uk) + 8)) as Hv. rewrite <- EncodeVarint32_eq in Hv by done.
  unfold in_array. rewrite decide_True by (rewrite !length_app, length_le_split; lia). rewrite bind_Ok. eexists. split; [done|].
  unfold memtable_key, lk_user_key. cbn [lk_bytes lk_kstart]. split.
  - unfold entry_form, varstring. rewrite length_ikey, Nat2Z.inj_add, app_nil_r. done.
  - rewrite drop_app_length, !length_app, length_le_split. apply take_app_length'. lia.
Qed.

(** The order of two writes in the table. *)
Lemma elt_form u1 n1 r1 u2 n2 r2 :
  is_u64 n1 -> is_u64 n2 -> key_ok u1 -> key_ok u2 -> fits32 (ikey u1 n1) -> fits32 (ikey u2 n2) ->
  elt (HO := mem_order) (entry_form u1 n1 r1) (entry_form u2 n2 r2) <-> cmp u1 u2 < 0 \/ u1 = u2 /\ n2 < n1.
Proof.
  intros N1 N2 K1 K2 F1 F2. unfold elt. cbn [entry_key mem_order]. rewrite !mem_entry_key_form by done. by apply internal_cmp_lt.
Qed.

Definition get_result (w : write) : list Z + Status :=
  if w_type w =? kTypeValue then inl (w_value w) else inr (NotFound [] []).

(** [Get] at an entry. *)
Lemma Get_entry sl w it lk n ks :
  write_ok w -> key_ok (lk_user_key lk) -> iter_Seek key_compare sl (memtable_key lk) = Ok it ->
  iter_at (HO := mem_order) sl ks it n -> ks !! n = Some (w_entry w) ->
  Get sl lk = Ok (if decide (w_key w = lk_user_key lk) then Some (get_result w) else None).
Proof.
  intros Hw Hk Hseek Hit Hn. unfold Get. rewrite Hseek, bind_Ok, (iter_Valid_ok (HO := mem_order) _ _ _ _ Hit).
  rewrite (proj2 (Nat.ltb_lt _ _)) by by eapply lookup_lt_Some. rewrite (iter_key_ok (HO := mem_order) _ _ _ _ _ Hit Hn), bind_Ok.
  pose proof (w_ikey_fits w Hw) as Hf. pose proof (w_num_u64 w Hw) as Hnum. pose proof Hw as [Hs Ht Hwk Hlen Hv].
  unfold w_entry, entry_form, varstring. rewrite <- app_assoc, varint_at_encode, bind_Ok by by apply fits32_u32.
  set (pre := EncodeVarint32 _). rewrite length_ikey.
  assert (u32 (Z.of_nat (length (w_key w) + 8) - 8) = Z.of_nat (length (w_key w))) as ->
    by (unfold u32; rewrite Z.mod_small; lia). rewrite !Nat2Z.id.
  assert (forall l1 l2 l3 l4 : list Z, at_off (l1 ++ (l2 ++ l3) ++ l4) (length l1 + length l2) l3) as Hoff.
  { intros. exists (l1 ++ l2), l4. rewrite length_app, <- !app_assoc. done. }
  rewrite (at_off_load_range _ _ (w_key w)) by (eexists pre, _; unfold ikey; rewrite <- !app_assoc; done).
  rewrite bind_Ok, Compare_ok, bind_Ok by done. destruct (decide (w_key w = lk_user_key lk)) as [E|E].
  - rewrite (proj2 (Z.eqb_eq _ 0)) by by apply cmp_eq. unfold ikey at 1. rewrite (DecodeFixed64_at _ _ (w_num w)) by apply Hoff.
    rewrite bind_Ok. replace (u64 (w_num w)) with (w_num w) by (symmetry; by apply Z.mod_small).
    assert (Z.land (w_num w) 255 = w_type w) as ->.
    { rewrite (land_mod _ 8) by lia. unfold w_num, pack. change (2 ^ 8) with 256. change kTypeValue with 1 in Ht. zlia. }
    unfold get_result. destruct (Z.eqb_spec (w_type w) kTypeValue) as [Et|Et].
    + fold (ikey (w_key w) (w_num w)). fold (varstring (w_value w)).
      rewrite app_assoc, drop_app_length' by (rewrite length_app, length_ikey; lia).
      pose proof (length_prefixed_encode (w_value w) [] Hv) as Ev. rewrite app_nil_r in Ev. by rewrite Ev.
    + rewrite (proj2 (Z.eqb_eq _ _)); [done|]. change kTypeValue with 1 in *. change kTypeDeletion with 0. lia.
  - rewrite (proj2 (Z.eqb_neq _ 0)); [done|]. by rewrite cmp_eq.
Qed.

(** The last write of [uk] that is not after [s]. *)
Definition visible (ws : list write) (uk : list Z) (s : Z) (w : write) : Prop :=
  w ∈ ws /\ w_key w = uk /\ w_seq w <= s /\
  forall w', w' ∈ ws -> w_key w' = uk -> w_seq w' <= s -> w_num w' <= w_num w.

Lemma Get_ok sl ks ws uk s :
  represents (HO := mem_order) sl ks -> ks ≡ₚ map w_entry ws -> Forall write_ok ws ->
  key_ok uk -> 0 <= s <= kMaxSequenceNumber -> Z.of_nat (length uk) + 8 < 2 ^ 32 ->
  exists lk, newLookupKey uk s = Ok lk /\
    ((exists w, visible ws uk s w /\ Get sl lk = Ok (Some (get_result w))) \/
     (forall w, w ∈ ws -> w_key w = uk -> s < w_seq w) /\ Get sl lk = Ok None).
Proof.
  intros Hr HP Hws Hk Hs Hf. destruct (newLookupKey_ok uk s Hs Hf) as (lk & E & Hmk & Huk). exists lk. split; [done|].
  rewrite Forall_forall in Hws. assert (is_u64 (pack s kValueTypeForSeek)) as Hnum by by apply pack_u64.
  assert (fits32 (ikey uk (pack s kValueTypeForSeek))) as Hfit by (unfold fits32; rewrite length_ikey; lia).
  destruct (Seek_ok (HO := mem_order) sl ks (memtable_key lk) Hr) as (ks1 & ks2 & it & -> & A1 & A2 & Hseek & Hit).
  { rewrite Hmk. by exists uk, (pack s kValueTypeForSeek), []. }
  assert (forall w, w ∈ ws -> elt (HO := mem_order) (w_entry w) (memtable_key lk) <-> cmp (w_key w) uk < 0 \/ w_key w = uk /\ s < w_seq w) as Hord.
  { intros w Hw. rewrite Hmk. unfold w_entry. pose proof (Hws w Hw) as Hw'. pose proof Hw' as [Ws Wt Wk Wf Wv].
    rewrite elt_form by (done || by apply w_num_u64 || by apply w_ikey_fits). unfold w_num, pack.
    change kValueTypeForSeek with 1. change kTypeValue with 1 in Wt. intuition lia. }
  assert (forall w, w ∈ ws -> w_key w = uk -> w_seq w <= s -> w_entry w ∈ ks2) as Hin2.
  { intros w Hw Hwk Hws'. assert (w_entry w ∈ ks1 ++ ks2) as Hin by (rewrite HP; by apply list_elem_of_fmap_2).
    apply elem_of_app in Hin as [Hin|Hin]; [|done]. rewrite Forall_forall in A1. apply A1, Hord in Hin; [|done].
    rewrite Hwk, cmp_refl in Hin by done. lia. }
  destruct ks2 as [|e ks2].
  - right. split.
    + intros w Hw Hwk. destruct (decide (s < w_seq w)); [done|]. exfalso. apply (not_elem_of_nil (w_entry w)), Hin2; [done..|lia].
    + unfold Get. rewrite Hseek, bind_Ok, (iter_Valid_ok (HO := mem_order) _ _ _ _ Hit), app_nil_r, Nat.ltb_irrefl. done.
  - assert (exists w, w ∈ ws /\ e = w_entry w) as (w & Hw & ->).
    { assert (e ∈ map w_entry ws) as (w & -> & Hw)%list_elem_of_fmap by (rewrite <- HP; set_solver). eauto. }
    rewrite (Get_entry sl w it lk (length ks1) (ks1 ++ w_entry w :: ks2)); [|by apply Hws|by rewrite Huk|done|done|by apply list_lookup_middle].
    rewrite Forall_cons in A2. destruct A2 as [A2 _]. rewrite Hord in A2 by done. rewrite Huk.
    assert (forall w', w_entry w' ∈ w_entry w :: ks2 -> w' ∈ ws -> w_entry w' = w_entry w \/
      cmp (w_key w) (w_key w') < 0 \/ w_key w = w_key w' /\ w_num w' < w_num w) as Hafter.
    { intros w' [E'|Hin]%elem_of_cons Hw'; [by left|right]. destruct Hr as [ids Hi]. pose proof (inv_sorted _ _ _ Hi) as Hsort.
      apply StronglySorted_app_1_r in Hsort. inversion Hsort as [|?? _ Hall]; subst. rewrite Forall_forall in Hall.
      specialize (Hall _ Hin). pose proof (Hws w Hw). pose proof (Hws w' Hw'). unfold w_entry in Hall.
      rewrite elt_form in Hall by (try apply w_num_u64; try apply w_ikey_fits; try done; by apply wo_key). tauto. }
    assert (forall w', w' ∈ ws -> w_entry w' = w_entry w -> w_key w' = w_key w /\ w_num w' = w_num w) as Hinj.
    { intros w' Hw' E'. apply (f_equal mem_entry_key) in E'. rewrite !w_entry_key in E' by by apply Hws.
      apply ikey_inj in E'; [done|by apply w_num_u64, Hws..]. }
    case_decide as Hkey.
    + left. exists w. split; [|done]. split_and!; [done..| |].
      * rewrite Hkey, cmp_refl in A2 by done. destruct (decide (w_seq w <= s)); [done|]. exfalso. apply A2. right. split; [done|lia].
      * intros w' Hw' Hk' Hs'. destruct (Hafter w' (Hin2 w' Hw' Hk' Hs') Hw') as [E'|[E'|E']].
        -- destruct (Hinj w' Hw' E'). lia.
        -- rewrite Hkey, Hk', cmp_refl in E' by done. lia.
        -- lia.
    + right. split; [|done]. intros w' Hw' Hk'. destruct (decide (s < w_seq w')); [done|]. exfalso.
      destruct (Hafter w' (Hin2 w' Hw' Hk' ltac:(lia)) Hw') as [E'|[E'|[E' _]]].
      * destruct (Hinj w' Hw' E'). congruence.
      * rewrite Hk' in E'. tauto.
      * congruence.
Qed.

(** ** Whole runs *)
Fixpoint add_all (junk : nat -> option nat) (prev0 : list nat) (sl : SkipList (list Z)) (ws : list write) : outcome (SkipList (list Z)) :=
  match ws with
  | [] => Ok sl
  | w :: ws => sl ← Add junk prev0 sl (w_seq w) (w_type w) (w_key w) (w_value w); add_all junk prev0 sl ws
  end.

Lemma add_all_insert junk prev0 sl ws : Forall write_ok ws ->
  add_all junk prev0 sl ws = insert_all (compare := key_compare) junk sl (map w_entry ws) prev0.
Proof.
  intros H. revert sl; induction H as [|w ws Hw H IH]; intros sl; [done|]. cbn. rewrite Add_insert by done.
  destruct (Insert key_compare junk sl (w_entry w) prev0); [|done..]. apply IH.
Qed.

Lemma add_all_represents junk prev0 ws :
  Forall write_ok ws -> NoDup (map (fun w => (w_key w, w_num w)) ws) -> length prev0 = kMaxHeight ->
  exists sl ks, add_all junk prev0 newMemTable ws = Ok sl /\ represents (HO := mem_order) sl ks /\ ks ≡ₚ map w_entry ws.
Proof.
  intros Hws Hnd Hp. rewrite add_all_insert by done.
  destruct (insert_all_ok (HO := mem_order) junk newMemTable [] (map w_entry ws) prev0) as (sl & ks & E & Hr & HP).
  - apply newSkipList_ok.
  - apply Forall_fmap. eapply Forall_impl; [exact Hws|]. apply w_entry_ok.
  - rewrite app_nil_r. cbn [entry_key mem_order]. rewrite map_map.
    clear Hp. induction Hws as [|w ws Hw Hws IH]; [constructor|]. cbn in *. apply NoDup_cons in Hnd as [Hn Hnd].
    apply NoDup_cons. split; [|by apply IH]. intros (w' & E & Hw')%list_elem_of_fmap. apply Hn.
    rewrite Forall_forall in Hws. rewrite !w_entry_key in E by auto. apply ikey_inj in E as [E1 E2]; [|by auto using w_num_u64..].
    apply list_elem_of_fmap. exists w'. by rewrite E1, E2.
  - done.
  - rewrite app_nil_r in HP. eauto.
Qed.

(** C18: The memory table returns the last write.  After any sequence of [Add]s of different keys or numbers
    (all of which return), [Get] at a snapshot finds the write of the key with the largest
    sequence number that is not after the snapshot: its value if it is a value, NotFound if it is a deletion; and it returns
    [false] exactly when every write of the key is after the snapshot. *)
Theorem memtable_get_spec (junk : nat -> option nat) (prev0 : list nat) (ws : list write) (uk : list Z) (s : Z) :
  Forall write_ok ws -> NoDup (map (fun w => (w_key w, w_num w)) ws) -> length prev0 = kMaxHeight ->
  key_ok uk -> 0 <= s <= kMaxSequenceNumber -> Z.of_nat (length uk) + 8 < 2 ^ 32 ->
  exists sl lk, add_all junk prev0 newMemTable ws = Ok sl /\ newLookupKey uk s = Ok lk /\
    ((exists w, visible ws uk s w /\ Get sl lk = Ok (Some (get_result w))) \/
     (forall w, w ∈ ws -> w_key w = uk -> s < w_seq w) /\ Get sl lk = Ok None).
Proof.
  intros Hws Hnd Hp Hk Hs Hf. destruct (add_all_represents junk prev0 ws) as (sl & ks & E & Hr & HP); [done..|].
  destruct (Get_ok sl ks ws uk s) as (lk & Elk & H); [done..|]. eauto.
Qed.

End memtable_ok.

(** Three writes of one key; the snapshot is between the second and the third. *)
Definition sample_writes : list write :=
  [mkWrite 5 1 [97] [1]; mkWrite 9 0 [97] []; mkWrite 7 1 [97] [2]; mkWrite 6 1 [98] [3]].

Lemma memtable_get_spec_witness :
  exists (sl : SkipList (list Z)) lk, add_all (user := BytewiseComparator) (fun _ => None) (replicate 12 0%nat) newMemTable sample_writes = Ok sl /\
    newLookupKey [97] 8 = Ok lk /\ Get (user := BytewiseComparator) sl lk = Ok (Some (inl [2])).
Proof.
  destruct (memtable_get_spec (user := BytewiseComparator) (fun _ => None) (replicate 12 0%nat) sample_writes [97] 8)
    as (sl & lk & E & Elk & H); [|by_decide|done|by_decide|by_decide|by_decide|].
  { repeat constructor; by_decide. }
  exists sl, lk. split_and!; [done..|].
  vm_compute in E. injection E as <-. vm_compute in Elk. injection Elk as <-. vm_compute. reflexivity.
Defined.

End MemTable.
