(* ===== verification/LdbBatch.v ===== *)
(** leveldb, db/write_batch.cc: a batch of writes as one string, and its application to the
    memory table.  The theorems: iterating over a batch calls the handler for exactly the operations that were
    put into it, and a batch that is applied to a table is seen by [Get] as one write
    after the other, with consecutive sequence numbers. *)
From Stdlib Require Import String.
From stdpp Require Import strings sets.
From S2P Require Import Prelude LdbCoding LdbKeys LdbSkipList LdbMem.

Module Batch.
Import Coding Keys SkipList MemTable.

Definition kHeader : nat := 12.

(** [rep_] after [WriteBatch::Clear]. *)
Definition Clear : list Z := replicate kHeader 0.

(** The count is read as an [int]. *)
Definition Count (rep_ : list Z) : outcome Z := n ← DecodeFixed32 kLittleEndian rep_ 8; Ok (s32 n).
Definition SetCount (rep_ : list Z) (n : Z) : outcome (list Z) := EncodeFixed32 kLittleEndian rep_ 8 (u32 n).
Definition Sequence (rep_ : list Z) : outcome Z := DecodeFixed64 kLittleEndian rep_ 0.
Definition SetSequence (rep_ : list Z) (seq : Z) : outcome (list Z) := EncodeFixed64 kLittleEndian rep_ 0 seq.

(** Addition of [int]s, undefined on overflow. *)
Definition int_add (a b : Z) : outcome Z := if decide (- 2 ^ 31 <= a + b < 2 ^ 31) then Ok (a + b) else Undef.

Definition Put (rep_ key value : list Z) : outcome (list Z) :=
  n ← Count rep_; n ← int_add n 1; rep_ ← SetCount rep_ n;
  let rep_ := rep_ ++ [kTypeValue] in
  rep_ ← PutLengthPrefixedSlice rep_ key;
  PutLengthPrefixedSlice rep_ value.

Definition Delete (rep_ key : list Z) : outcome (list Z) :=
  n ← Count rep_; n ← int_add n 1; rep_ ← SetCount rep_ n;
  let rep_ := rep_ ++ [kTypeDeletion] in
  PutLengthPrefixedSlice rep_ key.

Definition SetContents (contents : list Z) : outcome (list Z) :=
  _ ← c_assert (kHeader <=? length contents)%nat; Ok contents.

Definition Append (dst src : list Z) : outcome (list Z) :=
  n1 ← Count dst; n2 ← Count src; n ← int_add n1 n2; dst ← SetCount dst n;
  _ ← c_assert (kHeader <=? length src)%nat;
  Ok (dst ++ drop kHeader src).

(** [WriteBatch::Handler], with the state its methods change. *)
Record Handler (S : Type) := mkHandler {
  h_Put : S -> list Z -> list Z -> outcome S;
  h_Delete : S -> list Z -> outcome S
}.
Arguments h_Put {S}.
Arguments h_Delete {S}.

(** The loop of [Iterate]: a status that ends it, or the number of records. *)
Fixpoint iterate_loop {S} (h : Handler S) (fuel : nat) (st : S) (input : list Z) (found : Z) : outcome (S * (Status + Z)) :=
  match input with
  | [] => Ok (st, inr found)
  | tag :: input =>
      match fuel with
      | O => Undef
      | Datatypes.S fuel =>
          found ← int_add found 1;
          if tag =? kTypeValue then
            match GetLengthPrefixedSlice input with
            | (Some key, input) =>
                match GetLengthPrefixedSlice input with
                | (Some value, input) => st ← h_Put h st key value; iterate_loop h fuel st input found
                | (None, _) => Ok (st, inl (Corruption "bad WriteBatch Put" ""))
                end
            | (None, _) => Ok (st, inl (Corruption "bad WriteBatch Put" ""))
            end
          else if tag =? kTypeDeletion then
            match GetLengthPrefixedSlice input with
            | (Some key, input) => st ← h_Delete h st key; iterate_loop h fuel st input found
            | (None, _) => Ok (st, inl (Corruption "bad WriteBatch Delete" ""))
            end
          else Ok (st, inl (Corruption "unknown WriteBatch tag" ""))
      end
  end.

Definition Iterate {S} (h : Handler S) (rep_ : list Z) (st : S) : outcome (S * Status) :=
  if (length rep_ <? kHeader)%nat then Ok (st, Corruption "malformed WriteBatch (too small)" "")
  else
    input ← remove_prefix rep_ kHeader;
    '(st, r) ← iterate_loop h (length input) st input 0;
    match r with
    | inl s => Ok (st, s)
    | inr found =>
        n ← Count rep_;
        if negb (found =? n) then Ok (st, Corruption "WriteBatch has wrong count" "") else Ok (st, OK)
    end.

(** [MemTableInserter]: the next sequence number and the table. *)
Section inserter.
Context {user : Comparator}.
Context (junk : nat -> option nat) (prev0 : list nat).

Definition MemTableInserter : Handler (Z * SkipList (list Z)) := {|
  h_Put '(sequence_, mem_) key value :=
    mem_ ← Add junk prev0 mem_ sequence_ kTypeValue key value; Ok (u64 (sequence_ + 1), mem_);
  h_Delete '(sequence_, mem_) key :=
    mem_ ← Add junk prev0 mem_ sequence_ kTypeDeletion key []; Ok (u64 (sequence_ + 1), mem_)
|}.

Definition InsertInto (rep_ : list Z) (memtable : SkipList (list Z)) : outcome (Status * SkipList (list Z)) :=
  seq ← Sequence rep_;
  '(st, s) ← Iterate MemTableInserter rep_ (seq, memtable);
  Ok (s, st.2).

End inserter.

(** * The operations of a batch *)
Inductive op := OPut (key value : list Z) | ODelete (key : list Z).

Definition op_ok (o : op) : Prop :=
  match o with OPut k v => fits32 k /\ fits32 v | ODelete k => fits32 k end.
#[export] Instance op_ok_dec o : Decision (op_ok o).
Proof. destruct o; apply _. Defined.

Definition apply_op (rep_ : list Z) (o : op) : outcome (list Z) :=
  match o with OPut k v => Put rep_ k v | ODelete k => Delete rep_ k end.

Fixpoint apply_ops (rep_ : list Z) (ops : list op) : outcome (list Z) :=
  match ops with [] => Ok rep_ | o :: ops => rep_ ← apply_op rep_ o; apply_ops rep_ ops end.

(** The calls of the handler for a list of operations. *)
Definition handle {S} (h : Handler S) (st : S) (o : op) : outcome S :=
  match o with OPut k v => h_Put h st k v | ODelete k => h_Delete h st k end.

Fixpoint handle_all {S} (h : Handler S) (st : S) (ops : list op) : outcome S :=
  match ops with [] => Ok st | o :: ops => st ← handle h st o; handle_all h st ops end.

(** The string of a batch. *)
Definition op_bytes (o : op) : list Z :=
  match o with
  | OPut k v => [kTypeValue] ++ varstring k ++ varstring v
  | ODelete k => [kTypeDeletion] ++ varstring k
  end.

Definition batch (seq : Z) (ops : list op) : list Z :=
  le_split 8 seq ++ le_split 4 (Z.of_nat (length ops)) ++ concat (map op_bytes ops).

Definition ops_ok (ops : list op) : Prop := Forall op_ok ops /\ Z.of_nat (length ops) < 2 ^ 31.

Lemma Clear_batch : Clear = batch 0 [].
Proof. reflexivity. Qed.

Lemma Count_batch seq ops : Z.of_nat (length ops) < 2 ^ 31 -> Count (batch seq ops) = Ok (Z.of_nat (length ops)).
Proof.
  intros Hn. unfold Count, batch. rewrite (DecodeFixed32_at _ _ (Z.of_nat (length ops))).
  - rewrite bind_Ok. f_equal. zlia.
  - exists (le_split 8 seq), (concat (map op_bytes ops)). by rewrite length_le_split.
Qed.

Lemma SetSequence_batch seq ops s : SetSequence (batch seq ops) s = Ok (batch s ops).
Proof. unfold SetSequence, batch. apply (EncodeFixed64_at []). apply length_le_split. Qed.

Lemma Sequence_batch seq ops : is_u64 seq -> Sequence (batch seq ops) = Ok seq.
Proof.
  intros Hs. unfold Sequence. rewrite (DecodeFixed64_at _ _ seq).
  - f_equal. by apply Z.mod_small.
  - eexists [], _. done.
Qed.

Lemma le_split_u32 n m : (n <= 4)%nat -> le_split n (u32 m) = le_split n m.
Proof.
  intros Hn. rewrite <- (le_split_combine (le_split n (u32 m))), <- (le_split_combine (le_split n m)) by apply le_split_bytes.
  rewrite !length_le_split, !le_combine_split. f_equal. unfold u32.
  apply Z.mod_mod_divide.
  exists (2 ^ (32 - 8 * Z.of_nat n)). rewrite <- Z.pow_add_r by lia. f_equal. lia.
Qed.

Lemma SetCount_batch seq ops m :
  SetCount (batch seq ops) m = Ok (le_split 8 seq ++ le_split 4 m ++ concat (map op_bytes ops)).
Proof.
  unfold SetCount, batch. replace 8%nat with (length (le_split 8 seq)) at 2 by apply length_le_split.
  by rewrite EncodeFixed32_at, le_split_u32 by (lia || apply length_le_split).
Qed.

Lemma apply_op_batch seq ops o : op_ok o -> Z.of_nat (length ops) + 1 < 2 ^ 31 -> apply_op (batch seq ops) o = Ok (batch seq (ops ++ [o])).
Proof.
  intros Ho Hn. assert (int_add (Z.of_nat (length ops)) 1 = Ok (Z.of_nat (length ops) + 1)) as Hadd
    by (unfold int_add; rewrite decide_True by lia; done).
  destruct o as [k v|k]; cbn [apply_op]; [destruct Ho as [Hk Hv]; unfold Put|unfold Delete];
    rewrite Count_batch, bind_Ok, Hadd, bind_Ok by lia; rewrite SetCount_batch, bind_Ok;
    rewrite !PutLengthPrefixedSlice_eq, ?bind_Ok, ?PutLengthPrefixedSlice_eq by done; unfold batch;
    rewrite map_app, concat_app, length_app, Nat2Z.inj_add; cbn [length map concat op_bytes]; rewrite app_nil_r, <- !app_assoc; done.
Qed.

Lemma apply_ops_batch seq ops ops' : Forall op_ok ops' -> Z.of_nat (length ops) + Z.of_nat (length ops') < 2 ^ 31 ->
  apply_ops (batch seq ops) ops' = Ok (batch seq (ops ++ ops')).
Proof.
  intros Hok. revert ops; induction Hok as [|o ops' Ho Hok IH]; intros ops Hn; cbn [apply_ops length] in *; [by rewrite app_nil_r|].
  rewrite apply_op_batch, bind_Ok, IH by (done || (rewrite ?length_app; cbn; lia)). by rewrite <- app_assoc.
Qed.

Lemma Append_batch s1 s2 ops1 ops2 : Z.of_nat (length ops1) + Z.of_nat (length ops2) < 2 ^ 31 ->
  Append (batch s1 ops1) (batch s2 ops2) = Ok (batch s1 (ops1 ++ ops2)).
Proof.
  intros Hn. unfold Append. rewrite !Count_batch, !bind_Ok by lia. unfold int_add. rewrite decide_True, bind_Ok by lia.
  rewrite SetCount_batch, bind_Ok.
  assert (length (le_split 8 s2 ++ le_split 4 (Z.of_nat (length ops2))) = kHeader) as Hh by (by rewrite length_app, !length_le_split).
  unfold batch. rewrite (app_assoc (le_split 8 s2)). rewrite (proj2 (Nat.leb_le _ _)) by (rewrite length_app, Hh; lia).
  cbn [c_assert]. rewrite bind_Ok, drop_app_length' by done. rewrite map_app, concat_app, length_app, Nat2Z.inj_add, <- !app_assoc. done.
Qed.

(** ** Iterating *)
Lemma iterate_loop_ok {S} (h : Handler S) ops fuel st found :
  Forall op_ok ops -> 0 <= found -> found + Z.of_nat (length ops) < 2 ^ 31 -> (length (concat (map op_bytes ops)) <= fuel)%nat ->
  iterate_loop h fuel st (concat (map op_bytes ops)) found =
  (st ← handle_all h st ops; Ok (st, inr (found + Z.of_nat (length ops)))).
Proof.
  intros Hok; revert fuel st found; induction Hok as [|o ops Ho Hok IH]; intros fuel st found H0 Hn Hf.
  { cbn. rewrite Z.add_0_r. by destruct fuel. }
  cbn [length map concat] in *. rewrite length_app in Hf.
  destruct fuel as [|fuel]; [destruct o; cbn in Hf; lia|].
  assert (int_add found 1 = Ok (found + 1)) as Hadd by (unfold int_add; rewrite decide_True by lia; done).
  destruct o as [k v|k]; cbn [op_bytes app iterate_loop handle_all handle]; rewrite Hadd, bind_Ok; cbn [Z.eqb kTypeValue kTypeDeletion];
    [destruct Ho as [Hk Hv]; rewrite <- app_assoc, !GetLengthPrefixedSlice_encode by done; destruct (h_Put h st k v); [|done..]
    |rewrite GetLengthPrefixedSlice_encode by done; destruct (h_Delete h st k); [|done..]]; rewrite !bind_Ok;
    (rewrite IH; [|lia|lia|cbn in Hf; lia]); by replace (found + 1 + Z.of_nat (length ops)) with (found + Z.of_nat (Datatypes.S (length ops))) by lia.
Qed.

Lemma Iterate_batch {S} (h : Handler S) seq ops st : ops_ok ops ->
  Iterate h (batch seq ops) st = (st ← handle_all h st ops; Ok (st, OK)).
Proof.
  intros [Hok Hn]. unfold Iterate, remove_prefix.
  assert (length (le_split 8 seq ++ le_split 4 (Z.of_nat (length ops))) = kHeader) as Hh by (by rewrite length_app, !length_le_split).
  assert (kHeader <= length (batch seq ops))%nat as Hl by (unfold batch; rewrite app_assoc, length_app, Hh; lia).
  rewrite (proj2 (Nat.ltb_ge _ _)), bool_decide_true by done. cbn [c_assert]. rewrite !bind_Ok.
  assert (drop kHeader (batch seq ops) = concat (map op_bytes ops)) as ->
    by (unfold batch; rewrite app_assoc; by apply drop_app_length').
  rewrite iterate_loop_ok by (done || lia). destruct (handle_all h st ops); [|done..]. rewrite !bind_Ok, Count_batch, bind_Ok by done.
  by rewrite Z.add_0_l, Z.eqb_refl.
Qed.

(** A write batch is a faithful record of its operations.  Batches that are filled with [Put] and
    [Delete] calls on a new batch and then joined with [Append] hold the operations of both
    in order, with their number; iterating over the result (also after the sequence number is set)
    calls the handler once for each operation, with the key and the value that were given, in
    order, and returns OK; whatever the handler does. *)
Theorem write_batch_roundtrip {S : Type} (h : Handler S) (st : S) (ops1 ops2 : list op) (seq : Z) :
  ops_ok (ops1 ++ ops2) -> is_u64 seq ->
  exists r1 r2 r r', apply_ops Clear ops1 = Ok r1 /\ apply_ops Clear ops2 = Ok r2 /\ Append r1 r2 = Ok r /\
    SetSequence r seq = Ok r' /\ Sequence r' = Ok seq /\ Count r' = Ok (Z.of_nat (length (ops1 ++ ops2))) /\
    Iterate h r' st = (st ← handle_all h st (ops1 ++ ops2); Ok (st, OK)).
Proof.
  intros [Hok Hn] Hs. pose proof Hn as Hn'. rewrite length_app in Hn'. pose proof Hok as Hok'. rewrite Forall_app in Hok'.
  destruct Hok' as [H1 H2]. exists (batch 0 ops1), (batch 0 ops2), (batch 0 (ops1 ++ ops2)), (batch seq (ops1 ++ ops2)).
  rewrite Clear_batch, !apply_ops_batch, Append_batch, SetSequence_batch, Sequence_batch, Count_batch, Iterate_batch
    by (done || cbn; lia). done.
Qed.

(** A handler that keeps the calls. *)
Definition recorder : Handler (list op) := {|
  h_Put st k v := Ok (st ++ [OPut k v]);
  h_Delete st k := Ok (st ++ [ODelete k])
|}.

Lemma write_batch_roundtrip_witness :
  exists r1 r2 r r', apply_ops Clear [OPut [1; 2] [3]] = Ok r1 /\ apply_ops Clear [ODelete [4]; OPut [] []] = Ok r2 /\ Append r1 r2 = Ok r /\
    SetSequence r 300 = Ok r' /\ Sequence r' = Ok 300 /\ Count r' = Ok 3 /\
    Iterate recorder r' [] = Ok ([OPut [1; 2] [3]; ODelete [4]; OPut [] []], OK).
Proof. apply (write_batch_roundtrip recorder [] [OPut [1; 2] [3]] [ODelete [4]; OPut [] []] 300); [split; by_decide|by_decide]. Defined.

(** ** A batch in the memory table *)
Section insert.
Context {user : Comparator} {Huser : ComparatorOk user}.
Context (junk : nat -> option nat) (prev0 : list nat).
Hypothesis prev0_length : length prev0 = kMaxHeight.

Definition op_write (seq : Z) (o : op) : write :=
  match o with OPut k v => mkWrite seq kTypeValue k v | ODelete k => mkWrite seq kTypeDeletion k [] end.

Fixpoint batch_writes (seq : Z) (ops : list op) : list write :=
  match ops with [] => [] | o :: ops => op_write seq o :: batch_writes (seq + 1) ops end.

Definition op_key (o : op) : list Z := match o with OPut k _ => k | ODelete k => k end.

Definition user_op (o : op) : Prop := op_ok o /\ key_ok (op_key o) /\ Z.of_nat (length (op_key o)) + 8 < 2 ^ 32.

Lemma op_write_ok seq o : user_op o -> 0 <= seq <= kMaxSequenceNumber -> write_ok (op_write seq o).
Proof. intros (Ho & Hk & Hl) Hs. destruct o; cbn in *; split; cbn; try done; naive_solver. Qed.

Lemma batch_writes_ok seq ops : Forall user_op ops -> 0 <= seq -> seq + Z.of_nat (length ops) <= kMaxSequenceNumber + 1 ->
  Forall write_ok (batch_writes seq ops).
Proof.
  intros H; revert seq; induction H as [|o ops Ho Hops IH]; intros seq Hs Hn; [constructor|]. cbn [batch_writes length] in *.
  constructor; [apply op_write_ok; [done|lia]|apply IH; lia].
Qed.

Lemma batch_writes_seq seq ops w : w ∈ batch_writes seq ops -> seq <= w_seq w < seq + Z.of_nat (length ops).
Proof.
  revert seq; induction ops as [|o ops IH]; intros seq Hw; [by apply not_elem_of_nil in Hw|]. cbn [batch_writes length] in *.
  apply elem_of_cons in Hw as [->|Hw]; [destruct o; cbn; lia|]. apply IH in Hw. lia.
Qed.

Lemma w_num_lt w w' : write_ok w -> write_ok w' -> w_seq w < w_seq w' -> w_num w < w_num w'.
Proof. intros [_ H1 _ _ _] [_ H2 _ _ _]. change kTypeValue with 1 in *. unfold w_num, pack. lia. Qed.

Lemma handle_all_inserter seq ops sl : 0 <= seq -> seq + Z.of_nat (length ops) < 2 ^ 64 ->
  handle_all (MemTableInserter junk prev0) (seq, sl) ops =
  (sl ← add_all junk prev0 sl (batch_writes seq ops); Ok (seq + Z.of_nat (length ops), sl)).
Proof.
  revert seq sl; induction ops as [|o ops IH]; intros seq sl H0 Hn; cbn [handle_all batch_writes add_all length] in *.
  { rewrite bind_Ok. do 2 f_equal. lia. }
  assert (u64 (seq + 1) = seq + 1) as Hu by (apply Z.mod_small; lia).
  destruct o as [k v|k]; cbn [handle MemTableInserter h_Put h_Delete op_write w_seq w_type w_key w_value];
    (destruct (Add junk prev0 sl seq _ k _); [|done..]); rewrite !bind_Ok, Hu, IH by lia;
    by replace (seq + 1 + Z.of_nat (length ops)) with (seq + Z.of_nat (S (length ops))) by lia.
Qed.

Lemma add_all_app sl ws1 ws2 : add_all junk prev0 sl (ws1 ++ ws2) = (sl ← add_all junk prev0 sl ws1; add_all junk prev0 sl ws2).
Proof.
  revert sl; induction ws1 as [|w ws1 IH]; intros sl; [done|]. cbn [add_all app].
  destruct (Add junk prev0 sl _ _ _ _); [|done..]. rewrite !bind_Ok. apply IH.
Qed.

(** A batch that is applied to a table adds its writes. *)
Lemma InsertInto_batch seq ops sl : Forall user_op ops -> 0 <= seq -> seq + Z.of_nat (length ops) <= kMaxSequenceNumber + 1 ->
  Z.of_nat (length ops) < 2 ^ 31 ->
  InsertInto junk prev0 (batch seq ops) sl = (sl ← add_all junk prev0 sl (batch_writes seq ops); Ok (OK, sl)).
Proof.
  intros Hops H0 Hs Hn. change kMaxSequenceNumber with (2 ^ 56 - 1) in Hs.
  unfold InsertInto. rewrite Sequence_batch, bind_Ok by (unfold is_u64; change (2 ^ 64) with (2 ^ 56 * 256); lia).
  rewrite Iterate_batch by (split; [eapply Forall_impl; [exact Hops|]; by intros ? []|done]).
  rewrite handle_all_inserter by (try done; change (2 ^ 64) with (2 ^ 56 * 256); lia).
  by destruct (add_all junk prev0 sl (batch_writes seq ops)).
Qed.

(** The last operation on a key. *)
Fixpoint last_op (uk : list Z) (ops : list op) : option op :=
  match ops with
  | [] => None
  | o :: ops => match last_op uk ops with Some o' => Some o' | None => if decide (op_key o = uk) then Some o else None end
  end.

Definition op_result (o : op) : list Z + Status := match o with OPut _ v => inl v | ODelete _ => inr (NotFound [] []) end.

Lemma get_result_op seq o : get_result (op_write seq o) = op_result o.
Proof. by destruct o. Qed.

Lemma w_key_op seq o : w_key (op_write seq o) = op_key o.
Proof. by destruct o. Qed.

Lemma last_op_writes uk seq ops :
  match last_op uk ops with
  | Some o => exists s, op_write s o ∈ batch_writes seq ops /\ op_key o = uk /\
      forall w, w ∈ batch_writes seq ops -> w_key w = uk -> w = op_write s o \/ w_seq w < s
  | None => forall w, w ∈ batch_writes seq ops -> w_key w <> uk
  end.
Proof.
  revert seq; induction ops as [|o ops IH]; intros seq; cbn [last_op batch_writes].
  { intros w Hw. by apply not_elem_of_nil in Hw. }
  specialize (IH (seq + 1)). destruct (last_op uk ops) as [o'|].
  - destruct IH as (s & Hin & Hk & Hlast). exists s. split_and!; [set_solver|done|]. intros w [->|Hw]%elem_of_cons Hwk; [|auto].
    right. apply batch_writes_seq in Hin. destruct o, o'; cbn in *; lia.
  - case_decide as Hk.
    + exists seq. split_and!; [set_solver|done|]. intros w [->|Hw]%elem_of_cons Hwk; [by left|]. by apply IH in Hw.
    + intros w [->|Hw]%elem_of_cons; [by rewrite w_key_op|auto].
Qed.

Lemma visible_unique ws uk s w w' : NoDup (map (fun w => (w_key w, w_num w)) ws) ->
  visible ws uk s w -> visible ws uk s w' -> w = w'.
Proof.
  intros Hnd (Hin & Hk & Hs & Hm) (Hin' & Hk' & Hs' & Hm'). assert (w_num w = w_num w') as Hn.
  { pose proof (Hm w' Hin' Hk' Hs'). pose proof (Hm' w Hin Hk Hs). lia. }
  apply list_elem_of_lookup in Hin as [i Hi], Hin' as [j Hj].
  assert (i = j) as ->; [|congruence]. eapply (NoDup_lookup _ i j (uk, w_num w)); [exact Hnd|..].
  - rewrite list_lookup_fmap, Hi. cbn. congruence.
  - rewrite list_lookup_fmap, Hj. cbn. congruence.
Qed.

(** The numbers of the old and the new writes differ. *)
Lemma batch_nodup ws seq ops :
  Forall write_ok ws -> NoDup (map (fun w => (w_key w, w_num w)) ws) -> Forall (fun w => w_seq w < seq) ws ->
  Forall write_ok (batch_writes seq ops) -> NoDup (map (fun w => (w_key w, w_num w)) (ws ++ batch_writes seq ops)).
Proof.
  intros Hws Hnd Hseq Hb. rewrite Forall_forall in Hws, Hseq. rewrite map_app. apply NoDup_app. split_and!; [done|..].
  - intros x (w & -> & Hw)%list_elem_of_fmap (w' & E & Hw')%list_elem_of_fmap. injection E as _ E.
    assert (w_num w < w_num w'); [|lia]. apply w_num_lt; [by apply Hws|rewrite Forall_forall in Hb; by apply Hb|].
    apply batch_writes_seq in Hw'. specialize (Hseq w Hw). lia.
  - clear -Hb prev0_length. revert seq Hb; induction ops as [|o ops IH]; intros seq Hb; [constructor|]. cbn in *. inversion Hb as [|?? Ho Hb']; subst.
    apply NoDup_cons. split; [|by apply IH]. intros (w' & E & Hw')%list_elem_of_fmap. injection E as _ E.
    assert (w_num (op_write seq o) < w_num w'); [|lia]. apply w_num_lt; [done|rewrite Forall_forall in Hb'; by apply Hb'|].
    apply batch_writes_seq in Hw'. destruct o; cbn; lia.
Qed.

(** C19: Reads see the batch that was just written.  A batch with the next sequence numbers is applied to a
    memory table with any earlier writes; [InsertInto] returns OK, and a [Get] at the last
    sequence number of the batch returns the value of the last [Put] of the key in the batch, or
    NotFound where that operation is a [Delete]; for a key that the batch does not mention, it returns what it
    returned before the batch. *)
Theorem batch_read_your_writes (ws : list write) (seq : Z) (ops : list op) (uk : list Z) :
  Forall write_ok ws -> NoDup (map (fun w => (w_key w, w_num w)) ws) -> Forall (fun w => w_seq w < seq) ws ->
  Forall user_op ops -> ops <> [] -> 0 <= seq -> seq + Z.of_nat (length ops) <= kMaxSequenceNumber + 1 ->
  Z.of_nat (length ops) < 2 ^ 31 -> key_ok uk -> Z.of_nat (length uk) + 8 < 2 ^ 32 ->
  exists sl sl' lk, add_all junk prev0 newMemTable ws = Ok sl /\ InsertInto junk prev0 (batch seq ops) sl = Ok (OK, sl') /\
    newLookupKey uk (seq + Z.of_nat (length ops) - 1) = Ok lk /\
    Get sl' lk = match last_op uk ops with Some o => Ok (Some (op_result o)) | None => Get sl lk end.
Proof.
  intros Hws Hnd Hseq Hops Hne H0 Hmax Hn Hk Hf. pose proof (batch_writes_ok seq ops Hops H0 Hmax) as Hb.
  pose proof (batch_nodup ws seq ops Hws Hnd Hseq Hb) as Hnd'.
  destruct (add_all_represents junk prev0 ws) as (sl & ks & E & Hr & HP); [done..|].
  destruct (add_all_represents junk prev0 (ws ++ batch_writes seq ops)) as (sl' & ks' & E' & Hr' & HP'); [by apply Forall_app|done..|].
  rewrite add_all_app, E, bind_Ok in E'. set (s := seq + Z.of_nat (length ops) - 1).
  assert (0 <= s <= kMaxSequenceNumber) as Hs by (destruct ops; [done|cbn [length] in *; lia]).
  destruct (Get_ok sl ks ws uk s) as (lk & Elk & Hget); [done..|].
  destruct (Get_ok sl' ks' (ws ++ batch_writes seq ops) uk s) as (lk' & Elk' & Hget'); [done|done|by apply Forall_app|done..|].
  assert (lk' = lk) as -> by congruence. exists sl, sl', lk. rewrite InsertInto_batch, E' by done. split_and!; [done..|].
  pose proof (last_op_writes uk seq ops) as Hlast. rewrite Forall_forall in Hws, Hseq, Hb.
  assert (forall w, w ∈ batch_writes seq ops -> w_seq w <= s) as Hle by (intros w Hw%batch_writes_seq; lia).
  destruct (last_op uk ops) as [o|].
  - destruct Hlast as (s' & Hin & Hok & Hlast).
    assert (visible (ws ++ batch_writes seq ops) uk s (op_write s' o)) as Hv.
    { split_and!; [set_solver|by rewrite w_key_op|by apply Hle|]. intros w' Hw' Hk' _.
      assert (w_seq (op_write s' o) = s') as Hs' by by destruct o. pose proof (batch_writes_seq _ _ _ Hin) as Hb2. rewrite Hs' in Hb2.
      apply elem_of_app in Hw' as [Hw'|Hw'].
      - assert (w_num w' < w_num (op_write s' o)); [|lia]. apply w_num_lt; [by apply Hws|by apply Hb|]. rewrite Hs'. specialize (Hseq w' Hw'). lia.
      - destruct (Hlast w' Hw' Hk') as [->|Hlt]; [lia|]. assert (w_num w' < w_num (op_write s' o)); [|lia].
        apply w_num_lt; [by apply Hb..|]. by rewrite Hs'. }
    destruct Hget' as [(w & Hw & ->)|[Hnone _]].
    + rewrite (visible_unique _ _ _ _ _ Hnd' Hw Hv), get_result_op. done.
    + exfalso. destruct Hv as (Hv1 & Hv2 & Hv3 & _). specialize (Hnone _ Hv1 Hv2). lia.
  - assert (forall w, visible (ws ++ batch_writes seq ops) uk s w -> visible ws uk s w) as Hvis.
    { intros w (Hw & Hwk & Hws' & Hm). apply elem_of_app in Hw as [Hw|Hw]; [|by apply Hlast in Hw].
      split_and!; [done..|]. intros w' Hw'. apply Hm. set_solver. }
    destruct Hget as [(w & Hw & ->)|[Hnone ->]], Hget' as [(w' & Hw' & ->)|[Hnone' ->]]; try done.
    + by rewrite (visible_unique _ _ _ _ _ Hnd Hw (Hvis _ Hw')).
    + exfalso. destruct Hw as (Hw1 & Hw2 & Hw3 & _). assert (s < w_seq w) by (apply Hnone'; set_solver). lia.
    + exfalso. apply Hvis in Hw' as (Hw1 & Hw2 & Hw3 & _). specialize (Hnone _ Hw1 Hw2). lia.
Qed.

End insert.

Lemma batch_read_your_writes_witness :
  exists (sl sl' : SkipList (list Z)) lk,
    add_all (user := BytewiseComparator) (fun _ => None) (replicate 12 0%nat) newMemTable sample_writes = Ok sl /\
    InsertInto (user := BytewiseComparator) (fun _ => None) (replicate 12 0%nat) (batch 20 [OPut [97] [5]; ODelete [98]; OPut [97] [6]]) sl = Ok (OK, sl') /\
    newLookupKey [97] 22 = Ok lk /\ Get (user := BytewiseComparator) sl' lk = Ok (Some (inl [6])).
Proof.
  apply (batch_read_your_writes (user := BytewiseComparator) (fun _ => None) (replicate 12 0%nat) eq_refl sample_writes 20
    [OPut [97] [5]; ODelete [98]; OPut [97] [6]] [97]); try by_decide.
  repeat constructor; by_decide.
Defined.

End Batch.
