(* ===== verification/LdbNames.v ===== *)
(** leveldb, util/logging.cc, db/filename.{h,cc} and the helpers of util/env.cc: numbers and
    escaped strings as text, the names of the files of a database, and the file CURRENT.

    The file system is a parameter with the interface [Env]; a file that is open is known by its
    name.  The theorems: [ParseFileName] accepts exactly the names its comment lists, with
    their numbers, and every name that is made is parsed back; [SetCurrentFile]
    either makes CURRENT name the new manifest or leaves it as it was. *)
From Stdlib Require Import String.
From stdpp Require Import strings sets gmap.
From S2P Require Import Prelude LdbCoding.

Module Names.
Import Coding.

(** ** util/logging.cc *)

(** What [snprintf] leaves in an array of [n] characters. *)
Definition in_buf (n : nat) (s : list Z) : list Z := take (n - 1) s.

Definition AppendNumberTo (str : list Z) (num : Z) : list Z := str ++ in_buf 30 (print_dec num).

Definition hex_digit (d : Z) : Z := if d <? 10 then 48 + d else 87 + d.

(** A [char] that is negative is in neither range. *)
Fixpoint AppendEscapedStringTo (str value : list Z) : list Z :=
  match value with
  | [] => str
  | c :: value =>
      AppendEscapedStringTo
        (str ++ if (32 <=? c) && (c <=? 126) then [c]
                else in_buf 10 (bytes_of "\x" ++ [hex_digit (Z.land c 0xff / 16); hex_digit (Z.land c 0xff mod 16)])) value
  end.

Definition NumberToString (num : Z) : list Z := AppendNumberTo [] num.
Definition EscapeString (value : list Z) : list Z := AppendEscapedStringTo [] value.

Definition ConsumeChar (inp : list Z) (c : Z) : bool * list Z :=
  match inp with
  | c' :: rest => if c' =? c then (true, rest) else (false, inp)
  | [] => (false, inp)
  end.

Definition kMaxUint64 : Z := 2 ^ 64 - 1.

(** The loop of [ConsumeDecimalNumber]: [None] where the number is too large. *)
Fixpoint consume_loop (inp : list Z) (v digits : Z) : option (Z * Z) * list Z :=
  match inp with
  | [] => (Some (v, digits), inp)
  | c :: rest =>
      if (48 <=? c) && (c <=? 57) then
        let delta := c - 48 in
        if (kMaxUint64 / 10 <? v) || ((v =? kMaxUint64 / 10) && (kMaxUint64 mod 10 <? delta)) then (None, inp)
        else consume_loop rest (v * 10 + delta) (digits + 1)
      else (Some (v, digits), inp)
  end.

(** [None] for [false]; the slice has moved in both cases. *)
Definition ConsumeDecimalNumber (inp : list Z) : option Z * list Z :=
  match consume_loop inp 0 0 with
  | (None, rest) => (None, rest)
  | (Some (v, digits), rest) => (if 0 <? digits then Some v else None, rest)
  end.

(** ** db/filename.cc *)
Inductive FileType := kLogFile | kDBLockFile | kTableFile | kDescriptorFile | kCurrentFile | kTempFile | kInfoLogFile.

#[export] Instance FileType_eq_dec : EqDecision FileType.
Proof. solve_decision. Defined.

(** [%06llu]. *)
Definition print_06 (n : Z) : list Z :=
  let s := print_dec n in replicate (6 - length s) 48 ++ s.
Arguments print_06 : simpl never.

Definition MakeFileName (name : list Z) (number : Z) (suffix : list Z) : list Z :=
  name ++ in_buf 100 (bytes_of "/" ++ print_06 number ++ bytes_of "." ++ suffix).

Definition LogFileName (name : list Z) (number : Z) : outcome (list Z) :=
  _ ← c_assert (0 <? number); Ok (MakeFileName name number (bytes_of "log")).

Definition TableFileName (name : list Z) (number : Z) : outcome (list Z) :=
  _ ← c_assert (0 <? number); Ok (MakeFileName name number (bytes_of "sst")).

Definition DescriptorFileName (dbname : list Z) (number : Z) : outcome (list Z) :=
  _ ← c_assert (0 <? number); Ok (dbname ++ in_buf 100 (bytes_of "/MANIFEST-" ++ print_06 number)).

Definition CurrentFileName (dbname : list Z) : list Z := dbname ++ bytes_of "/CURRENT".
Definition LockFileName (dbname : list Z) : list Z := dbname ++ bytes_of "/LOCK".

Definition TempFileName (dbname : list Z) (number : Z) : outcome (list Z) :=
  _ ← c_assert (0 <? number); Ok (MakeFileName dbname number (bytes_of "dbtmp")).

Definition InfoLogFileName (dbname : list Z) : list Z := dbname ++ bytes_of "/LOG".
Definition OldInfoLogFileName (dbname : list Z) : list Z := dbname ++ bytes_of "/LOG.old".

(** [operator==] and [starts_with] of slices. *)
Definition slice_eq (x y : list Z) : bool := bool_decide (length x = length y) && (memcmp x y (length x) =? 0).
Definition starts_with (s x : list Z) : bool := (length x <=? length s)%nat && (memcmp s x (length x) =? 0).

(** The number and the type, or [None] for [false]. *)
Definition ParseFileName (fname : list Z) : outcome (option (Z * FileType)) :=
  if slice_eq fname (bytes_of "CURRENT") then Ok (Some (0, kCurrentFile))
  else if slice_eq fname (bytes_of "LOCK") then Ok (Some (0, kDBLockFile))
  else if slice_eq fname (bytes_of "LOG") || slice_eq fname (bytes_of "LOG.old") then Ok (Some (0, kInfoLogFile))
  else if starts_with fname (bytes_of "MANIFEST-") then
    rest ← remove_prefix fname (length (bytes_of "MANIFEST-"));
    match ConsumeDecimalNumber rest with
    | (None, _) => Ok None
    | (Some num, rest) => if bool_decide (rest = []) then Ok (Some (num, kDescriptorFile)) else Ok None
    end
  else
    match ConsumeDecimalNumber fname with
    | (None, _) => Ok None
    | (Some num, suffix) =>
        if slice_eq suffix (bytes_of ".log") then Ok (Some (num, kLogFile))
        else if slice_eq suffix (bytes_of ".sst") then Ok (Some (num, kTableFile))
        else if slice_eq suffix (bytes_of ".dbtmp") then Ok (Some (num, kTempFile))
        else Ok None
    end.

(** ** Files *)
Class Env (E : Type) := {
  NewWritableFile : E -> list Z -> Status * E;
  env_append : E -> list Z -> list Z -> Status * E;
  env_sync : E -> list Z -> Status * E;
  env_close : E -> list Z -> Status * E;
  env_destroy : E -> list Z -> E;
  DeleteFile : E -> list Z -> Status * E;
  RenameFile : E -> list Z -> list Z -> Status * E
}.

Section env.
Context {E : Type} `{!Env E}.

(** util/env.cc; the status of [DeleteFile] is dropped. *)
Definition DoWriteStringToFile (env : E) (data fname : list Z) (should_sync : bool) : Status * E :=
  let '(s, env) := NewWritableFile env fname in
  if negb (status_ok s) then (s, env)
  else
    let '(s, env) := env_append env fname data in
    let '(s, env) := if status_ok s && should_sync then env_sync env fname else (s, env) in
    let '(s, env) := if status_ok s then env_close env fname else (s, env) in
    let env := env_destroy env fname in
    let env := if negb (status_ok s) then (DeleteFile env fname).2 else env in
    (s, env).

Definition WriteStringToFile (env : E) (data fname : list Z) : Status * E := DoWriteStringToFile env data fname false.
Definition WriteStringToFileSync (env : E) (data fname : list Z) : Status * E := DoWriteStringToFile env data fname true.

Definition SetCurrentFile (env : E) (dbname : list Z) (descriptor_number : Z) : outcome (Status * E) :=
  manifest ← DescriptorFileName dbname descriptor_number;
  _ ← c_assert (starts_with manifest (dbname ++ bytes_of "/"));
  contents ← remove_prefix manifest (length dbname + 1);
  tmp ← TempFileName dbname descriptor_number;
  let '(s, env) := WriteStringToFileSync env (contents ++ [10]) tmp in
  let '(s, env) := if status_ok s then RenameFile env tmp (CurrentFileName dbname) else (s, env) in
  let env := if negb (status_ok s) then (DeleteFile env tmp).2 else env in
  Ok (s, env).

End env.

(** * Decimal numbers *)
Definition is_digit (c : Z) : Prop := 48 <= c <= 57.

Definition value_of (ds : list Z) : Z := fold_left (fun v c => v * 10 + (c - 48)) ds 0.

(** The decimal numbers of 64 bits. *)
Definition decimal (ds : list Z) (n : Z) : Prop := ds <> [] /\ Forall is_digit ds /\ value_of ds = n /\ n <= kMaxUint64.

Lemma is_digit_bool c : (48 <=? c) && (c <=? 57) = true <-> is_digit c.
Proof. rewrite andb_true_iff, !Z.leb_le. done. Qed.

Lemma value_of_snoc ds c : value_of (ds ++ [c]) = value_of ds * 10 + (c - 48).
Proof. unfold value_of. by rewrite fold_left_app. Qed.

Lemma fold_digits_mono ds v : Forall is_digit ds -> 0 <= v -> v <= fold_left (fun v c => v * 10 + (c - 48)) ds v.
Proof.
  intros H; revert v; induction H as [|c ds Hc Hds IH]; intros v Hv; cbn; [lia|]. unfold is_digit in Hc.
  specialize (IH (v * 10 + (c - 48)) ltac:(lia)). lia.
Qed.

(** No digit follows. *)
Definition ends_number (rest : list Z) : Prop := match rest with [] => True | c :: _ => ~ is_digit c end.

Lemma kMaxUint64_cases v d : 0 <= v -> 0 <= d <= 9 ->
  (kMaxUint64 / 10 <? v) || ((v =? kMaxUint64 / 10) && (kMaxUint64 mod 10 <? d)) = false <-> v * 10 + d <= kMaxUint64.
Proof.
  intros Hv Hd. change (kMaxUint64 / 10) with 1844674407370955161. change (kMaxUint64 mod 10) with 5.
  change kMaxUint64 with 18446744073709551615. rewrite orb_false_iff, andb_false_iff, !Z.ltb_ge, Z.eqb_neq. lia.
Qed.

Lemma consume_loop_ok ds rest v digits :
  Forall is_digit ds -> ends_number rest -> 0 <= v -> fold_left (fun v c => v * 10 + (c - 48)) ds v <= kMaxUint64 ->
  consume_loop (ds ++ rest) v digits = (Some (fold_left (fun v c => v * 10 + (c - 48)) ds v, digits + Z.of_nat (length ds)), rest).
Proof.
  intros H; revert v digits; induction H as [|c ds Hc Hds IH]; intros v digits Hr Hv Hm; cbn [app fold_left length] in *.
  - rewrite Z.add_0_r. destruct rest as [|c rest]; [done|]. cbn. destruct ((48 <=? c) && (c <=? 57)) eqn:E; [|done].
    by apply is_digit_bool in E.
  - cbn [consume_loop]. rewrite (proj2 (is_digit_bool c) Hc). unfold is_digit in Hc.
    rewrite (proj2 (kMaxUint64_cases v (c - 48) ltac:(lia) ltac:(lia))).
    + rewrite IH by (done || lia). do 3 f_equal. lia.
    + pose proof (fold_digits_mono ds (v * 10 + (c - 48)) Hds ltac:(lia)). lia.
Qed.

Lemma consume_loop_inv inp v digits v' digits' rest : 0 <= v <= kMaxUint64 ->
  consume_loop inp v digits = (Some (v', digits'), rest) ->
  exists ds, inp = ds ++ rest /\ Forall is_digit ds /\ digits' = digits + Z.of_nat (length ds) /\
    v' = fold_left (fun v c => v * 10 + (c - 48)) ds v /\ v' <= kMaxUint64.
Proof.
  revert v digits; induction inp as [|c inp IH]; intros v digits Hv E; cbn [consume_loop] in E.
  { injection E as <- <- <-. exists []. cbn. split_and!; try done; lia. }
  destruct ((48 <=? c) && (c <=? 57)) eqn:Ed.
  2: { injection E as <- <- <-. exists []. cbn. split_and!; try done; lia. }
  apply is_digit_bool in Ed. pose proof Ed as Hd. unfold is_digit in Hd.
  destruct (_ || _) eqn:Eo; [done|]. apply kMaxUint64_cases in Eo; [|lia..].
  apply IH in E as (ds & -> & Hds & -> & -> & Hm); [|lia]. exists (c :: ds). cbn [app length fold_left].
  split_and!; try done; [by constructor|lia].
Qed.

Lemma ConsumeDecimalNumber_ok ds n rest : decimal ds n -> ends_number rest ->
  ConsumeDecimalNumber (ds ++ rest) = (Some n, rest).
Proof.
  intros (Hne & Hd & <- & Hm) Hr. unfold ConsumeDecimalNumber. rewrite consume_loop_ok by done.
  destruct ds; [done|]. by rewrite (proj2 (Z.ltb_lt _ _)) by (cbn [length]; lia).
Qed.

Lemma ConsumeDecimalNumber_inv inp n rest :
  ConsumeDecimalNumber inp = (Some n, rest) -> exists ds, inp = ds ++ rest /\ decimal ds n.
Proof.
  unfold ConsumeDecimalNumber. destruct (consume_loop inp 0 0) as [[[v digits]|] r] eqn:E; [|done].
  apply consume_loop_inv in E as (ds & -> & Hd & -> & -> & Hm); [|done]. destruct (Z.ltb_spec 0 (0 + Z.of_nat (length ds))); [|done].
  intros [= <- <-]. exists ds. split_and!; [done|]. repeat split; try done. by intros ->.
Qed.

Lemma print_digits_ok fuel n : 0 <= n < 10 ^ Z.of_nat fuel -> (0 < fuel)%nat ->
  Forall is_digit (print_digits fuel n) /\ value_of (print_digits fuel n) = n /\ (0 < length (print_digits fuel n) <= fuel)%nat.
Proof.
  revert n; induction fuel as [|fuel IH]; intros n Hn Hf; [lia|]. cbn [print_digits].
  assert (0 <= n mod 10 < 10) by (apply Z.mod_pos_bound; lia). pose proof (Z.div_mod n 10 ltac:(lia)).
  assert (is_digit (48 + n mod 10)) as Hd by (unfold is_digit; lia).
  destruct (Z.ltb_spec n 10).
  - rewrite Z.mod_small in * by lia. split_and!; [by constructor|cbn; lia..].
  - rewrite Nat2Z.inj_succ, Z.pow_succ_r in Hn by lia. destruct fuel as [|fuel]; [cbn in Hn; lia|].
    destruct (IH (n / 10)) as (Hds & Hv & Hl); [split; [apply Z.div_pos; lia|apply Z.div_lt_upper_bound; lia]|lia|].
    split_and!; [apply Forall_app; split; [done|by constructor]|rewrite value_of_snoc, Hv; lia|rewrite length_app; cbn [length]; lia..].
Qed.

Lemma value_of_zeros k ds : value_of (replicate k 48 ++ ds) = value_of ds.
Proof. induction k as [|k IH]; [done|]. exact IH. Qed.

Lemma print_06_decimal n : 0 <= n <= kMaxUint64 -> decimal (print_06 n) n /\ (length (print_06 n) <= 20)%nat.
Proof.
  intros Hn. unfold kMaxUint64 in *. destruct (print_digits_ok 20 n) as (Hd & Hv & Hl); [lia..|].
  unfold decimal, print_06, print_dec. split_and!.
  - intros [_ E]%app_nil. rewrite E in Hl. cbn in Hl. lia.
  - apply Forall_app. split; [|done]. by apply Forall_replicate.
  - by rewrite value_of_zeros.
  - unfold kMaxUint64. lia.
  - rewrite length_app, length_replicate. lia.
Qed.

(** ** Comparison of slices *)
Lemma memcmp_0 a b n : (n <= length a)%nat -> (n <= length b)%nat -> memcmp a b n = 0 <-> take n a = take n b.
Proof.
  revert a b; induction n as [|n IH]; intros a b Ha Hb; [by destruct a, b|]. destruct a as [|x a], b as [|y b]; cbn in *; try lia.
  destruct (Z.ltb_spec x y), (Z.ltb_spec y x); try lia; [split; [done|]; intros [=]; lia..|].
  rewrite IH by lia. replace y with x by lia. split; [by intros ->|by intros [= ->]].
Qed.

Lemma slice_eq_spec x y : slice_eq x y = bool_decide (x = y).
Proof.
  unfold slice_eq. destruct (decide (length x = length y)) as [E|E].
  - rewrite bool_decide_true by done. apply eq_true_iff_eq. rewrite bool_decide_eq_true. cbn. rewrite Z.eqb_eq, memcmp_0 by lia.
    by rewrite !take_ge by lia.
  - rewrite !bool_decide_false; [done|congruence|done].
Qed.

Lemma starts_with_spec s x : starts_with s x = true <-> exists r, s = x ++ r.
Proof.
  unfold starts_with. rewrite andb_true_iff, Nat.leb_le, Z.eqb_eq. split.
  - intros [Hl E%memcmp_0]; [|lia..]. rewrite (take_ge x) in E by lia. exists (drop (length x) s). rewrite <- E at 1. by rewrite take_drop.
  - intros [r ->]. rewrite length_app. split; [lia|]. apply memcmp_0; [rewrite length_app; lia|lia|].
    by rewrite take_app_length, take_ge by lia.
Qed.

(** ** File names *)
Definition numbered : list (list Z * FileType) :=
  [(bytes_of ".log", kLogFile); (bytes_of ".sst", kTableFile); (bytes_of ".dbtmp", kTempFile)].

(** The names that [ParseFileName] is to accept, with their number and type: those that the comment before it
    lists, where a number must fit 64 bits, and the temporary files ([.dbtmp]), which the code accepts and the
    comment does not list. *)
Inductive owned : list Z -> Z -> FileType -> Prop :=
| owned_current : owned (bytes_of "CURRENT") 0 kCurrentFile
| owned_lock : owned (bytes_of "LOCK") 0 kDBLockFile
| owned_log : owned (bytes_of "LOG") 0 kInfoLogFile
| owned_log_old : owned (bytes_of "LOG.old") 0 kInfoLogFile
| owned_manifest ds n : decimal ds n -> owned (bytes_of "MANIFEST-" ++ ds) n kDescriptorFile
| owned_numbered ds n suffix t : decimal ds n -> (suffix, t) ∈ numbered -> owned (ds ++ suffix) n t.

Lemma starts_with_app x r : starts_with (x ++ r) x = true.
Proof. apply starts_with_spec. eauto. Qed.

(** A name that begins with a digit is none of the fixed ones. *)
Lemma digit_not_fixed ds s : decimal ds s -> forall rest,
  Forall (fun x => slice_eq (ds ++ rest) x = false) (map bytes_of ["CURRENT"; "LOCK"; "LOG"; "LOG.old"]%string) /\
  starts_with (ds ++ rest) (bytes_of "MANIFEST-") = false.
Proof.
  intros (Hne & Hd & _) rest. destruct ds as [|c ds]; [done|]. inversion Hd as [|?? Hc _]; subst. unfold is_digit in Hc. split.
  - cbn [map]. rewrite !Forall_cons. split_and!; [rewrite slice_eq_spec, bool_decide_false; [done|]; intros E; apply (f_equal (hd 0)) in E; cbv in E; lia..|by constructor].
  - apply not_true_iff_false. rewrite starts_with_spec. intros [r E]. apply (f_equal (hd 0)) in E. cbv in E. lia.
Qed.

Lemma numbered_inv suffix t : (suffix, t) ∈ numbered ->
  suffix = bytes_of ".log" /\ t = kLogFile \/ suffix = bytes_of ".sst" /\ t = kTableFile \/ suffix = bytes_of ".dbtmp" /\ t = kTempFile.
Proof. unfold numbered. rewrite !elem_of_cons. intros [E|[E|[E|E]]]; [inversion E; auto..|by apply not_elem_of_nil in E]. Qed.

Lemma parse_numbered ds n suffix t : decimal ds n -> (suffix, t) ∈ numbered -> ParseFileName (ds ++ suffix) = Ok (Some (n, t)).
Proof.
  intros Hd Ht. destruct (digit_not_fixed ds n Hd suffix) as [Hf Hm]. cbn [map] in Hf.
  repeat match goal with H : Forall _ (_ :: _) |- _ => apply Forall_cons in H as [? H] end.
  unfold ParseFileName. repeat match goal with H : slice_eq _ _ = false |- _ => rewrite H; clear H end. cbn [orb]. rewrite Hm.
  rewrite (ConsumeDecimalNumber_ok _ n).
  - by apply numbered_inv in Ht as [[-> ->]|[[-> ->]|[-> ->]]].
  - done.
  - unfold ends_number, is_digit. apply numbered_inv in Ht as [[-> ->]|[[-> ->]|[-> ->]]]; by_decide.
Qed.

Lemma parse_manifest ds n : decimal ds n -> ParseFileName (bytes_of "MANIFEST-" ++ ds) = Ok (Some (n, kDescriptorFile)).
Proof.
  intros Hd. unfold ParseFileName. rewrite !slice_eq_spec, !bool_decide_false by done. rewrite starts_with_app. cbn [orb].
  unfold remove_prefix. rewrite bool_decide_true by (rewrite length_app; lia). cbn [c_assert]. rewrite !bind_Ok, drop_app_length.
  rewrite <- (app_nil_r ds), (ConsumeDecimalNumber_ok ds n []) by done. done.
Qed.

Lemma parse_complete f n t : owned f n t -> ParseFileName f = Ok (Some (n, t)).
Proof. intros []; [reflexivity..|by apply parse_manifest|by apply parse_numbered]. Qed.

Lemma parse_sound f r : ParseFileName f = Ok r -> match r with Some (n, t) => owned f n t | None => True end.
Proof.
  unfold ParseFileName. rewrite !slice_eq_spec. repeat case_bool_decide; subst; cbn [orb]; try (intros [= <-]; constructor).
  destruct (starts_with f (bytes_of "MANIFEST-")) eqn:E.
  - apply starts_with_spec in E as [ds ->]. unfold remove_prefix. rewrite bool_decide_true by (rewrite length_app; lia). cbn [c_assert].
    rewrite !bind_Ok, drop_app_length. destruct (ConsumeDecimalNumber ds) as [[num|] rest] eqn:Ec; [|by intros [= <-]].
    apply ConsumeDecimalNumber_inv in Ec as (ds' & -> & Hd). case_bool_decide; subst; intros [= <-]; [|done].
    rewrite app_nil_r. by constructor.
  - destruct (ConsumeDecimalNumber f) as [[num|] suffix] eqn:Ec; [|by intros [= <-]].
    apply ConsumeDecimalNumber_inv in Ec as (ds & -> & Hd). rewrite !slice_eq_spec.
    repeat case_bool_decide; subst; intros [= <-]; try done; (apply owned_numbered; [done|unfold numbered; set_solver]).
Qed.

Lemma ParseFileName_total f : exists r, ParseFileName f = Ok r.
Proof.
  unfold ParseFileName. destruct (starts_with f (bytes_of "MANIFEST-")) eqn:E.
  - apply starts_with_spec in E as [ds ->]. unfold remove_prefix. rewrite (bool_decide_true (_ <= _)%nat) by (rewrite length_app; lia).
    cbn [c_assert]. rewrite !bind_Ok. repeat case_match; eauto.
  - repeat case_match; eauto.
Qed.

Lemma in_buf_short n s : (length s < n)%nat -> in_buf n s = s.
Proof. intros H. unfold in_buf. apply take_ge. lia. Qed.

Lemma MakeFileName_eq name n suffix : 0 <= n <= kMaxUint64 -> (length suffix <= 5)%nat ->
  MakeFileName name n suffix = name ++ bytes_of "/" ++ print_06 n ++ bytes_of "." ++ suffix.
Proof.
  intros Hn Hs. destruct (print_06_decimal n Hn) as [_ Hl]. unfold MakeFileName.
  rewrite in_buf_short; [done|]. rewrite !length_app. cbn. lia.
Qed.

Lemma DescriptorFileName_eq name n : 0 < n <= kMaxUint64 ->
  DescriptorFileName name n = Ok (name ++ bytes_of "/" ++ bytes_of "MANIFEST-" ++ print_06 n).
Proof.
  intros Hn. destruct (print_06_decimal n) as [_ Hl]; [lia|]. unfold DescriptorFileName. rewrite (proj2 (Z.ltb_lt _ _)) by lia.
  cbn [c_assert]. rewrite bind_Ok, in_buf_short; [done|]. rewrite !length_app. cbn. lia.
Qed.

Lemma TempFileName_eq name n : 0 < n <= kMaxUint64 -> TempFileName name n = Ok (name ++ bytes_of "/" ++ print_06 n ++ bytes_of ".dbtmp").
Proof.
  intros Hn. unfold TempFileName. rewrite (proj2 (Z.ltb_lt _ _)) by lia. cbn [c_assert]. by rewrite bind_Ok, MakeFileName_eq by (cbn; lia).
Qed.

(** The names that the library makes, without the directory. *)
Definition made (dbname : list Z) (n : Z) (name : outcome (list Z)) (t : FileType) : Prop :=
  exists base, name = Ok (dbname ++ bytes_of "/" ++ base) /\ ParseFileName base = Ok (Some (n, t)).

(** C37: [ParseFileName] is exactly the grammar of file names.  It returns on every string and accepts
    exactly the names of [owned]: the fixed names with the number 0, and a manifest, log, table or temporary file
    with any decimal number that fits 64 bits, leading zeros included, with the number it denotes.  This is more
    than the comment at filename.cc:67-73 says: it lists [0-9]+.(log|sst) only, and the code accepts .dbtmp
    too.  And it parses back every name that the functions of filename.cc make, for every number from 1 to
    2^64 - 1. *)
Theorem filename_roundtrip :
  (forall f, exists r, ParseFileName f = Ok r /\ forall n t, r = Some (n, t) <-> owned f n t) /\
  forall dbname n, 0 < n <= kMaxUint64 ->
    made dbname n (LogFileName dbname n) kLogFile /\ made dbname n (TableFileName dbname n) kTableFile /\
    made dbname n (TempFileName dbname n) kTempFile /\ made dbname n (DescriptorFileName dbname n) kDescriptorFile /\
    made dbname 0 (Ok (CurrentFileName dbname)) kCurrentFile /\ made dbname 0 (Ok (LockFileName dbname)) kDBLockFile /\
    made dbname 0 (Ok (InfoLogFileName dbname)) kInfoLogFile /\ made dbname 0 (Ok (OldInfoLogFileName dbname)) kInfoLogFile.
Proof.
  split.
  - intros f. destruct (ParseFileName_total f) as [r E]. exists r. split; [done|]. intros n t. split.
    + intros ->. exact (parse_sound f _ E).
    + intros H%parse_complete. congruence.
  - intros dbname n Hn. destruct (print_06_decimal n) as [Hd _]; [lia|]. unfold made, LogFileName, TableFileName.
    rewrite DescriptorFileName_eq, TempFileName_eq, (proj2 (Z.ltb_lt 0 n)), !MakeFileName_eq by (done || lia || (cbn; lia)).
    split_and!; eexists; (split; [reflexivity|]); rewrite <- ?app_assoc; try reflexivity;
      [by apply parse_numbered; [|unfold numbered; set_solver]..|by apply parse_manifest].
Qed.

(** A temporary file is owned, although the comment does not list it. *)
Theorem temp_name_accepted : ParseFileName (bytes_of "000007.dbtmp") = Ok (Some (7, kTempFile)).
Proof. reflexivity. Qed.

Lemma filename_roundtrip_witness :
  made (bytes_of "db") 7 (LogFileName (bytes_of "db") 7) kLogFile.
Proof. apply (proj2 filename_roundtrip). by_decide. Defined.

(** ** CURRENT *)

(** What the interface promises: an operation on one file leaves the others alone, also when it fails, and a
    rename that fails changes nothing. *)
Class EnvOk (E : Type) `{!Env E} := {
  lookup_file : E -> list Z -> option (list Z);
  new_writable_ok e f : let '(s, e') := NewWritableFile e f in
    (forall g, g <> f -> lookup_file e' g = lookup_file e g) /\ (s = OK -> lookup_file e' f = Some []);
  env_append_ok e f d : let '(s, e') := env_append e f d in
    (forall g, g <> f -> lookup_file e' g = lookup_file e g) /\ (s = OK -> lookup_file e' f = (fun c => c ++ d) <$> lookup_file e f);
  env_sync_ok e f : let '(s, e') := env_sync e f in
    (forall g, g <> f -> lookup_file e' g = lookup_file e g) /\ (s = OK -> lookup_file e' f = lookup_file e f);
  env_close_ok e f : let '(s, e') := env_close e f in
    (forall g, g <> f -> lookup_file e' g = lookup_file e g) /\ (s = OK -> lookup_file e' f = lookup_file e f);
  env_destroy_ok e f g : lookup_file (env_destroy e f) g = lookup_file e g;
  delete_ok e f : let '(s, e') := DeleteFile e f in
    (forall g, g <> f -> lookup_file e' g = lookup_file e g) /\ (s = OK -> lookup_file e' f = None);
  rename_ok e f g : let '(s, e') := RenameFile e f g in
    match s with
    | OK => lookup_file e' g = lookup_file e f /\ forall h, h <> f -> h <> g -> lookup_file e' h = lookup_file e h
    | _ => forall h, lookup_file e' h = lookup_file e h
    end
}.

Lemma temp_not_current dbname n : 0 < n <= kMaxUint64 ->
  dbname ++ bytes_of "/" ++ print_06 n ++ bytes_of ".dbtmp" <> CurrentFileName dbname.
Proof.
  intros Hn Et. unfold CurrentFileName in Et. change (bytes_of "/CURRENT") with (bytes_of "/" ++ bytes_of "CURRENT") in Et.
  apply app_inv_head, app_inv_head in Et. destruct (print_06_decimal n) as [Hd _]; [lia|].
  assert (ParseFileName (bytes_of "CURRENT") = Ok (Some (n, kTempFile))) as E'; [|by vm_compute in E'].
  rewrite <- Et. apply parse_numbered; [done|]. unfold numbered. set_solver.
Qed.

Section current.
Context {E : Type} `{!Env E} `{!EnvOk E}.
Implicit Types (e : E).

Lemma DoWriteStringToFile_ok e data fname sync s e' :
  DoWriteStringToFile e data fname sync = (s, e') ->
  (forall g, g <> fname -> lookup_file e' g = lookup_file e g) /\ (s = OK -> lookup_file e' fname = Some data).
Proof.
  unfold DoWriteStringToFile. pose proof (new_writable_ok e fname) as H1. destruct (NewWritableFile e fname) as [[|] e1]; cbn [status_ok negb].
  2: { intros [= <- <-]. split; [apply H1|done]. }
  destruct H1 as [H1 H1']. specialize (H1' eq_refl). pose proof (env_append_ok e1 fname data) as H2.
  destruct (env_append e1 fname data) as [s2 e2]. destruct H2 as [H2 H2'].
  assert (exists s3 e3, (if status_ok s2 && sync then env_sync e2 fname else (s2, e2)) = (s3, e3) /\
    (forall g, g <> fname -> lookup_file e3 g = lookup_file e g) /\ (s3 = OK -> lookup_file e3 fname = Some data)) as (s3 & e3 & -> & H3 & H3').
  { pose proof (env_sync_ok e2 fname) as H3. destruct (env_sync e2 fname) as [s3 e3]. destruct H3 as [H3 H3'].
    rewrite H1' in H2'. destruct s2; cbn [status_ok andb]; [destruct sync|].
    - exists s3, e3. split_and!; [done|intros g Hg; rewrite H3, H2, H1; done|]. intros Hs. by rewrite H3', H2'.
    - exists OK, e2. split_and!; [done|intros g Hg; rewrite H2, H1; done|]. intros _. by rewrite H2'.
    - eexists _, e2. split_and!; [done|intros g Hg; rewrite H2, H1; done|done]. }
  assert (exists s4 e4, (if status_ok s3 then env_close e3 fname else (s3, e3)) = (s4, e4) /\
    (forall g, g <> fname -> lookup_file e4 g = lookup_file e g) /\ (s4 = OK -> lookup_file e4 fname = Some data)) as (s4 & e4 & -> & H4 & H4').
  { pose proof (env_close_ok e3 fname) as H4. destruct (env_close e3 fname) as [s4 e4]. destruct H4 as [H4 H4'].
    destruct s3; cbn [status_ok].
    - exists s4, e4. split_and!; [done|intros g Hg; rewrite H4, H3; done|]. intros Hs. by rewrite H4', H3'.
    - eexists _, e3. done. }
  intros [= <- <-]. destruct s4; cbn [status_ok negb].
  - split; [intros g Hg; by rewrite env_destroy_ok, H4|intros _; by rewrite env_destroy_ok, H4'].
  - pose proof (delete_ok (env_destroy e4 fname) fname) as H5. destruct (DeleteFile _ fname) as [s5 e5]. destruct H5 as [H5 _].
    split; [|done]. intros g Hg. cbn. by rewrite H5, env_destroy_ok, H4.
Qed.

(** C25: [SetCurrentFile] is all or nothing.  On any file system that keeps the interface, whichever of its
    operations fail: if it returns OK, CURRENT holds the name of the manifest with that number and a newline,
    and parsing the name gives the manifest's number back; otherwise CURRENT is what it was.  No file but CURRENT and the
    temporary file of that number is changed. *)
Theorem set_current_atomic e dbname n : 0 < n <= kMaxUint64 ->
  exists s e' name tmp, SetCurrentFile e dbname n = Ok (s, e') /\ TempFileName dbname n = Ok tmp /\
    ParseFileName name = Ok (Some (n, kDescriptorFile)) /\
    lookup_file e' (CurrentFileName dbname) =
      match s with OK => Some (name ++ [10]) | _ => lookup_file e (CurrentFileName dbname) end /\
    forall f, f <> tmp -> f <> CurrentFileName dbname -> lookup_file e' f = lookup_file e f.
Proof.
  intros Hn. pose proof (temp_not_current dbname n Hn) as Hne. destruct (print_06_decimal n) as [Hd _]; [lia|].
  unfold SetCurrentFile. rewrite DescriptorFileName_eq, TempFileName_eq by done. rewrite !bind_Ok.
  rewrite (app_assoc dbname (bytes_of "/") (bytes_of "MANIFEST-" ++ _)), starts_with_app. cbn [c_assert].
  rewrite bind_Ok. unfold remove_prefix. rewrite bool_decide_true by (rewrite !length_app; cbn; lia). cbn [c_assert]. rewrite !bind_Ok.
  rewrite drop_app_length' by (rewrite length_app; cbn; lia). set (tmp := dbname ++ bytes_of "/" ++ print_06 n ++ bytes_of ".dbtmp") in *.
  set (name := bytes_of "MANIFEST-" ++ print_06 n) in *.
  destruct (WriteStringToFileSync e (name ++ [10]) tmp) as [s1 e1] eqn:E1. apply DoWriteStringToFile_ok in E1 as [H1 H1'].
  pose proof (rename_ok e1 tmp (CurrentFileName dbname)) as H2. destruct (RenameFile e1 tmp (CurrentFileName dbname)) as [s2 e2].
  destruct s1; cbn [status_ok]; [destruct s2; cbn [status_ok negb]|cbn [negb]].
  - exists OK, e2, name, tmp. destruct H2 as [H2 H2']. split_and!; [done..|by apply parse_manifest|by rewrite H2, H1'|].
    intros f Hf Hf'. by rewrite H2', H1.
  - pose proof (delete_ok e2 tmp) as H3. destruct (DeleteFile e2 tmp) as [s3 e3]. destruct H3 as [H3 _].
    eexists _, e3, name, tmp. split_and!; [done..|by apply parse_manifest|by rewrite H3, H2, H1|]. intros f Hf Hf'. by rewrite H3, H2, H1.
  - pose proof (delete_ok e1 tmp) as H3. destruct (DeleteFile e1 tmp) as [s3 e3]. destruct H3 as [H3 _].
    eexists _, e3, name, tmp. split_and!; [done..|by apply parse_manifest|by rewrite H3, H1|]. intros f Hf Hf'. by rewrite H3, H1.
Qed.

End current.

(** ** A file system in memory, with a list that says which of its next operations fail *)
Definition mem_env : Type := gmap (list Z) (list Z) * list bool.

Definition env_step (op : gmap (list Z) (list Z) -> gmap (list Z) (list Z)) (e : mem_env) : Status * mem_env :=
  match e.2 with
  | true :: fails => (mkStatus kIOError [] [], (e.1, fails))
  | _ => (OK, (op e.1, tail e.2))
  end.

#[export] Instance mem_env_ops : Env mem_env := {|
  NewWritableFile e f := env_step (<[f := []]>) e;
  env_append e f d := env_step (alter (fun c => c ++ d) f) e;
  env_sync e f := env_step id e;
  env_close e f := env_step id e;
  env_destroy e f := e;
  DeleteFile e f := env_step (delete f) e;
  RenameFile e f g := env_step (fun m => match m !! f with Some c => <[g := c]> (delete f m) | None => delete g m end) e
|}.

Lemma env_step_ok op e (P : Status -> mem_env -> Prop) :
  (forall fails, P OK (op e.1, fails)) -> (forall fails c m, P (Failed c m) (e.1, fails)) ->
  let '(s, e') := env_step op e in P s e'.
Proof. intros H1 H2. unfold env_step. destruct e as [m [|[] fails]]; cbn in *; eauto. Qed.

#[export, refine] Instance mem_env_ok : EnvOk mem_env := {| lookup_file e f := e.1 !! f |}.
Proof.
  all: intros; try (apply env_step_ok; cbn; [intros fails|intros fails c m]; split; intros; simplify_map_eq; done).
  - done.
  - apply env_step_ok; cbn; [|done]. intros fails. destruct (e.1 !! f) eqn:Ef; split.
    + by simplify_map_eq.
    + intros h Hf Hg. by simplify_map_eq.
    + by simplify_map_eq.
    + intros h Hf Hg. by simplify_map_eq.
Defined.

(** The sync fails. *)
Definition failing_sync : mem_env := (∅, [false; false; true]).

Lemma set_current_atomic_witness :
  exists s e' name tmp, SetCurrentFile failing_sync (bytes_of "db") 5 = Ok (s, e') /\ TempFileName (bytes_of "db") 5 = Ok tmp /\
    ParseFileName name = Ok (Some (5, kDescriptorFile)) /\
    lookup_file e' (CurrentFileName (bytes_of "db")) = match s with OK => Some (name ++ [10]) | _ => lookup_file failing_sync (CurrentFileName (bytes_of "db")) end /\
    forall f, f <> tmp -> f <> CurrentFileName (bytes_of "db") -> lookup_file e' f = lookup_file failing_sync f.
Proof. apply (set_current_atomic failing_sync (bytes_of "db") 5). by_decide. Defined.

End Names.
