(* ===== verification/LdbEdit.v ===== *)
(** leveldb, db/version_edit.{h,cc}: the changes of one version, and their record in the
    manifest.  The theorem is the round trip of records; it also shows what [DecodeFrom] keeps of the edit it is called on. *)
From Stdlib Require Import String.
From stdpp Require Import strings sorting.
From S2P Require Import Prelude LdbCoding LdbKeys LdbNames.

Module Edit.
Import Coding Keys Names.

(** An [InternalKey] is its [rep_]. *)
Definition Encode (rep_ : list Z) : outcome (list Z) := _ ← c_assert (negb (bool_decide (rep_ = []))); Ok rep_.

(** [DebugString] of parsed and of internal keys. *)
Definition parsed_DebugString (k : ParsedInternalKey) : list Z :=
  bytes_of "'" ++ user_key k ++ in_buf 50 (bytes_of "' @ " ++ print_dec (sequence k) ++ bytes_of " : " ++ print_dec (type k)).

Definition key_DebugString (rep_ : list Z) : outcome (list Z) :=
  r ← ParseInternalKey rep_;
  match r with
  | (Some parsed, true) => Ok (parsed_DebugString parsed)
  | _ => Ok (bytes_of "(bad)" ++ EscapeString rep_)
  end.

Record FileMetaData := mkFile {
  refs : Z;
  allowed_seeks : Z;
  number : Z;
  file_size : Z;
  smallest : list Z;
  largest : list Z
}.

(** The constructor, with the members that are then set. *)
Definition newFileMetaData (number file_size : Z) (smallest largest : list Z) : FileMetaData :=
  mkFile 0 (Z.shiftl 1 30) number file_size smallest largest.

(** A [std::set] is the increasing list of its elements. *)
Definition pair_ltb (a b : Z * Z) : bool := (a.1 <? b.1) || ((a.1 =? b.1) && (a.2 <? b.2)).

Fixpoint set_insert (x : Z * Z) (s : list (Z * Z)) : list (Z * Z) :=
  match s with
  | [] => [x]
  | y :: s' => if pair_ltb x y then x :: s else if pair_ltb y x then y :: set_insert x s' else s
  end.

Record VersionEdit := mkEdit {
  comparator_ : list Z;
  log_number_ : Z;
  prev_log_number_ : Z;
  next_file_number_ : Z;
  last_sequence_ : Z;
  has_comparator_ : bool;
  has_log_number_ : bool;
  has_prev_log_number_ : bool;
  has_next_file_number_ : bool;
  has_last_sequence_ : bool;
  compact_pointers_ : list (Z * list Z);
  deleted_files_ : list (Z * Z);
  new_files_ : list (Z * FileMetaData)
}.

Definition Clear (e : VersionEdit) : VersionEdit :=
  mkEdit [] 0 0 0 0 false false false false false (compact_pointers_ e) [] [].

(** The constructor calls [Clear] with the containers empty. *)
Definition newVersionEdit : VersionEdit := mkEdit [] 0 0 0 0 false false false false false [] [] [].

Definition SetComparatorName (e : VersionEdit) (name : list Z) : VersionEdit :=
  mkEdit name (log_number_ e) (prev_log_number_ e) (next_file_number_ e) (last_sequence_ e)
    true (has_log_number_ e) (has_prev_log_number_ e) (has_next_file_number_ e) (has_last_sequence_ e)
    (compact_pointers_ e) (deleted_files_ e) (new_files_ e).

Definition SetLogNumber (e : VersionEdit) (num : Z) : VersionEdit :=
  mkEdit (comparator_ e) num (prev_log_number_ e) (next_file_number_ e) (last_sequence_ e)
    (has_comparator_ e) true (has_prev_log_number_ e) (has_next_file_number_ e) (has_last_sequence_ e)
    (compact_pointers_ e) (deleted_files_ e) (new_files_ e).

Definition SetPrevLogNumber (e : VersionEdit) (num : Z) : VersionEdit :=
  mkEdit (comparator_ e) (log_number_ e) num (next_file_number_ e) (last_sequence_ e)
    (has_comparator_ e) (has_log_number_ e) true (has_next_file_number_ e) (has_last_sequence_ e)
    (compact_pointers_ e) (deleted_files_ e) (new_files_ e).

Definition SetNextFile (e : VersionEdit) (num : Z) : VersionEdit :=
  mkEdit (comparator_ e) (log_number_ e) (prev_log_number_ e) num (last_sequence_ e)
    (has_comparator_ e) (has_log_number_ e) (has_prev_log_number_ e) true (has_last_sequence_ e)
    (compact_pointers_ e) (deleted_files_ e) (new_files_ e).

Definition SetLastSequence (e : VersionEdit) (seq : Z) : VersionEdit :=
  mkEdit (comparator_ e) (log_number_ e) (prev_log_number_ e) (next_file_number_ e) seq
    (has_comparator_ e) (has_log_number_ e) (has_prev_log_number_ e) (has_next_file_number_ e) true
    (compact_pointers_ e) (deleted_files_ e) (new_files_ e).

Definition set_containers (e : VersionEdit) c d n : VersionEdit :=
  mkEdit (comparator_ e) (log_number_ e) (prev_log_number_ e) (next_file_number_ e) (last_sequence_ e)
    (has_comparator_ e) (has_log_number_ e) (has_prev_log_number_ e) (has_next_file_number_ e) (has_last_sequence_ e) c d n.

Definition SetCompactPointer (e : VersionEdit) (level : Z) (key : list Z) : VersionEdit :=
  set_containers e (compact_pointers_ e ++ [(level, key)]) (deleted_files_ e) (new_files_ e).

Definition AddFile (e : VersionEdit) (level file file_size : Z) (smallest largest : list Z) : VersionEdit :=
  set_containers e (compact_pointers_ e) (deleted_files_ e)
    (new_files_ e ++ [(level, newFileMetaData file file_size smallest largest)]).

Definition DeleteFile (e : VersionEdit) (level file : Z) : VersionEdit :=
  set_containers e (compact_pointers_ e) (set_insert (level, file) (deleted_files_ e)) (new_files_ e).

Definition kComparator : Z := 1.
Definition kLogNumber : Z := 2.
Definition kNextFileNumber : Z := 3.
Definition kLastSequence : Z := 4.
Definition kCompactPointer : Z := 5.
Definition kDeletedFile : Z := 6.
Definition kNewFile : Z := 7.
Definition kPrevLogNumber : Z := 9.

(** The three loops of [EncodeTo]; a level, an [int], is converted to 32 bits. *)
Fixpoint encode_pointers (dst : list Z) (ps : list (Z * list Z)) : outcome (list Z) :=
  match ps with
  | [] => Ok dst
  | (level, key) :: ps =>
      dst ← PutVarint32 dst kCompactPointer; dst ← PutVarint32 dst (u32 level);
      k ← Encode key; dst ← PutLengthPrefixedSlice dst k;
      encode_pointers dst ps
  end.

Fixpoint encode_deleted (dst : list Z) (fs : list (Z * Z)) : outcome (list Z) :=
  match fs with
  | [] => Ok dst
  | (level, file) :: fs =>
      dst ← PutVarint32 dst kDeletedFile; dst ← PutVarint32 dst (u32 level); dst ← PutVarint64 dst file;
      encode_deleted dst fs
  end.

Fixpoint encode_new (dst : list Z) (fs : list (Z * FileMetaData)) : outcome (list Z) :=
  match fs with
  | [] => Ok dst
  | (level, f) :: fs =>
      dst ← PutVarint32 dst kNewFile; dst ← PutVarint32 dst (u32 level);
      dst ← PutVarint64 dst (number f); dst ← PutVarint64 dst (file_size f);
      k ← Encode (smallest f); dst ← PutLengthPrefixedSlice dst k;
      k ← Encode (largest f); dst ← PutLengthPrefixedSlice dst k;
      encode_new dst fs
  end.

Definition EncodeTo (e : VersionEdit) (dst : list Z) : outcome (list Z) :=
  dst ← (if has_comparator_ e then dst ← PutVarint32 dst kComparator; PutLengthPrefixedSlice dst (comparator_ e) else Ok dst);
  dst ← (if has_log_number_ e then dst ← PutVarint32 dst kLogNumber; PutVarint64 dst (log_number_ e) else Ok dst);
  dst ← (if has_prev_log_number_ e then dst ← PutVarint32 dst kPrevLogNumber; PutVarint64 dst (prev_log_number_ e) else Ok dst);
  dst ← (if has_next_file_number_ e then dst ← PutVarint32 dst kNextFileNumber; PutVarint64 dst (next_file_number_ e) else Ok dst);
  dst ← (if has_last_sequence_ e then dst ← PutVarint32 dst kLastSequence; PutVarint64 dst (last_sequence_ e) else Ok dst);
  dst ← encode_pointers dst (compact_pointers_ e);
  dst ← encode_deleted dst (deleted_files_ e);
  encode_new dst (new_files_ e).

(** Where a call fails, the input is not used again: [None]. *)
Definition GetInternalKey (input : list Z) : option (list Z * list Z) :=
  match GetLengthPrefixedSlice input with (Some str, input) => Some (str, input) | (None, _) => None end.

Definition GetLevel (input : list Z) : option (Z * list Z) :=
  match GetVarint32 input with
  | Some (v, input) => if v <? kNumLevels then Some (v, input) else None
  | None => None
  end.

(** The switch of [DecodeFrom]: the edit and the rest of the input, or the message. *)
Definition decode_record (tag : Z) (input : list Z) (e : VersionEdit) : (VersionEdit * list Z) + string :=
  if tag =? kComparator then
    match GetLengthPrefixedSlice input with
    | (Some str, input) => inl (SetComparatorName e str, input)
    | (None, _) => inr "comparator name"%string
    end
  else if tag =? kLogNumber then
    match GetVarint64 input with
    | Some (n, input) => inl (SetLogNumber e n, input)
    | None => inr "log number"%string
    end
  else if tag =? kPrevLogNumber then
    match GetVarint64 input with
    | Some (n, input) => inl (SetPrevLogNumber e n, input)
    | None => inr "previous log number"%string
    end
  else if tag =? kNextFileNumber then
    match GetVarint64 input with
    | Some (n, input) => inl (SetNextFile e n, input)
    | None => inr "next file number"%string
    end
  else if tag =? kLastSequence then
    match GetVarint64 input with
    | Some (n, input) => inl (SetLastSequence e n, input)
    | None => inr "last sequence number"%string
    end
  else if tag =? kCompactPointer then
    match ('(level, input) ← GetLevel input; '(key, input) ← GetInternalKey input; Some (level, key, input)) with
    | Some (level, key, input) => inl (SetCompactPointer e level key, input)
    | None => inr "compaction pointer"%string
    end
  else if tag =? kDeletedFile then
    match ('(level, input) ← GetLevel input; '(file, input) ← GetVarint64 input; Some (level, file, input)) with
    | Some (level, file, input) => inl (DeleteFile e level file, input)
    | None => inr "deleted file"%string
    end
  else if tag =? kNewFile then
    match ('(level, input) ← GetLevel input; '(file, input) ← GetVarint64 input; '(size, input) ← GetVarint64 input;
           '(small, input) ← GetInternalKey input; '(large, input) ← GetInternalKey input;
           Some (level, file, size, small, large, input)) with
    | Some (level, file, size, small, large, input) => inl (AddFile e level file size small large, input)
    | None => inr "new-file entry"%string
    end
  else inr "unknown tag"%string.

(** Every turn reads at least the byte of a tag. *)
Fixpoint decode_loop (fuel : nat) (input : list Z) (e : VersionEdit) : outcome (VersionEdit * list Z * option string) :=
  match GetVarint32 input with
  | None => Ok (e, input, None)
  | Some (tag, input) =>
      match fuel with
      | O => Undef
      | S fuel =>
          match decode_record tag input e with
          | inl (e, input) => decode_loop fuel input e
          | inr msg => Ok (e, input, Some msg)
          end
      end
  end.

Definition DecodeFrom (e : VersionEdit) (src : list Z) : outcome (Status * VersionEdit) :=
  '(e, input, msg) ← decode_loop (length src) src (Clear e);
  let msg := match msg with None => if negb (bool_decide (input = [])) then Some "invalid tag"%string else None | _ => msg end in
  Ok (match msg with Some m => Corruption "VersionEdit" m | None => OK end, e).

Fixpoint debug_pointers (r : list Z) (ps : list (Z * list Z)) : outcome (list Z) :=
  match ps with
  | [] => Ok r
  | (level, key) :: ps =>
      k ← key_DebugString key;
      debug_pointers (AppendNumberTo (r ++ 10 :: bytes_of "  CompactPointer: ") (u64 level) ++ bytes_of " " ++ k) ps
  end.

Fixpoint debug_deleted (r : list Z) (fs : list (Z * Z)) : list Z :=
  match fs with
  | [] => r
  | (level, file) :: fs =>
      debug_deleted (AppendNumberTo (AppendNumberTo (r ++ 10 :: bytes_of "  DeleteFile: ") (u64 level) ++ bytes_of " ") file) fs
  end.

Fixpoint debug_new (r : list Z) (fs : list (Z * FileMetaData)) : outcome (list Z) :=
  match fs with
  | [] => Ok r
  | (level, f) :: fs =>
      let r := AppendNumberTo (r ++ 10 :: bytes_of "  AddFile: ") (u64 level) ++ bytes_of " " in
      let r := AppendNumberTo r (number f) ++ bytes_of " " in
      let r := AppendNumberTo r (file_size f) ++ bytes_of " " in
      small ← key_DebugString (smallest f); large ← key_DebugString (largest f);
      debug_new (r ++ small ++ bytes_of " .. " ++ large) fs
  end.

Definition DebugString (e : VersionEdit) : outcome (list Z) :=
  let r := bytes_of "VersionEdit {" in
  let r := if has_comparator_ e then r ++ 10 :: bytes_of "  Comparator: " ++ comparator_ e else r in
  let r := if has_log_number_ e then AppendNumberTo (r ++ 10 :: bytes_of "  LogNumber: ") (log_number_ e) else r in
  let r := if has_prev_log_number_ e then AppendNumberTo (r ++ 10 :: bytes_of "  PrevLogNumber: ") (prev_log_number_ e) else r in
  let r := if has_next_file_number_ e then AppendNumberTo (r ++ 10 :: bytes_of "  NextFile: ") (next_file_number_ e) else r in
  let r := if has_last_sequence_ e then AppendNumberTo (r ++ 10 :: bytes_of "  LastSeq: ") (last_sequence_ e) else r in
  r ← debug_pointers r (compact_pointers_ e);
  r ← debug_new (debug_deleted r (deleted_files_ e)) (new_files_ e);
  Ok (r ++ 10 :: bytes_of "}" ++ [10]).

(** * Records as calls *)
Inductive call :=
| CComparator (name : list Z)
| CLogNumber (num : Z)
| CPrevLogNumber (num : Z)
| CNextFile (num : Z)
| CLastSequence (seq : Z)
| CCompactPointer (level : Z) (key : list Z)
| CDeleteFile (level file : Z)
| CAddFile (level file size : Z) (small large : list Z).

Definition apply_call (e : VersionEdit) (c : call) : VersionEdit :=
  match c with
  | CComparator name => SetComparatorName e name
  | CLogNumber num => SetLogNumber e num
  | CPrevLogNumber num => SetPrevLogNumber e num
  | CNextFile num => SetNextFile e num
  | CLastSequence seq => SetLastSequence e seq
  | CCompactPointer level key => SetCompactPointer e level key
  | CDeleteFile level file => DeleteFile e level file
  | CAddFile level file size small large => AddFile e level file size small large
  end.

Definition apply_calls (e : VersionEdit) (cs : list call) : VersionEdit := fold_left apply_call cs e.

Definition level_ok (level : Z) : Prop := 0 <= level < kNumLevels.
Definition ikey_ok (key : list Z) : Prop := key <> [] /\ fits32 key.

#[export] Instance level_ok_dec l : Decision (level_ok l).
Proof. unfold level_ok. apply _. Defined.
#[export] Instance ikey_ok_dec k : Decision (ikey_ok k).
Proof. unfold ikey_ok. apply _. Defined.

(** Arguments of the width the code gives them. *)
Definition call_ok (c : call) : Prop :=
  match c with
  | CComparator name => fits32 name
  | CLogNumber num | CPrevLogNumber num | CNextFile num | CLastSequence num => is_u64 num
  | CCompactPointer level key => level_ok level /\ ikey_ok key
  | CDeleteFile level file => level_ok level /\ is_u64 file
  | CAddFile level file size small large => level_ok level /\ is_u64 file /\ is_u64 size /\ ikey_ok small /\ ikey_ok large
  end.

#[export] Instance call_ok_dec c : Decision (call_ok c).
Proof. destruct c; cbn; apply _. Defined.

Definition call_bytes (c : call) : list Z :=
  match c with
  | CComparator name => EncodeVarint32 kComparator ++ varstring name
  | CLogNumber num => EncodeVarint32 kLogNumber ++ EncodeVarint64 num
  | CPrevLogNumber num => EncodeVarint32 kPrevLogNumber ++ EncodeVarint64 num
  | CNextFile num => EncodeVarint32 kNextFileNumber ++ EncodeVarint64 num
  | CLastSequence num => EncodeVarint32 kLastSequence ++ EncodeVarint64 num
  | CCompactPointer level key => EncodeVarint32 kCompactPointer ++ EncodeVarint32 level ++ varstring key
  | CDeleteFile level file => EncodeVarint32 kDeletedFile ++ EncodeVarint32 level ++ EncodeVarint64 file
  | CAddFile level file size small large =>
      EncodeVarint32 kNewFile ++ EncodeVarint32 level ++ EncodeVarint64 file ++ EncodeVarint64 size ++ varstring small ++ varstring large
  end.

Definition calls_bytes (cs : list call) : list Z := concat (map call_bytes cs).

(** The calls that make an edit, in the order of its records. *)
Definition new_file_call (x : Z * FileMetaData) : call :=
  CAddFile x.1 (number x.2) (file_size x.2) (smallest x.2) (largest x.2).

Definition header_calls (e : VersionEdit) : list call :=
  (if has_comparator_ e then [CComparator (comparator_ e)] else []) ++
  (if has_log_number_ e then [CLogNumber (log_number_ e)] else []) ++
  (if has_prev_log_number_ e then [CPrevLogNumber (prev_log_number_ e)] else []) ++
  (if has_next_file_number_ e then [CNextFile (next_file_number_ e)] else []) ++
  (if has_last_sequence_ e then [CLastSequence (last_sequence_ e)] else []).

Definition records (e : VersionEdit) : list call :=
  header_calls e ++ map (fun x => CCompactPointer x.1 x.2) (compact_pointers_ e) ++
  map (fun x => CDeleteFile x.1 x.2) (deleted_files_ e) ++ map new_file_call (new_files_ e).

(** The edits that calls make. *)
Definition pair_lt (a b : Z * Z) : Prop := pair_ltb a b = true.

Record edit_ok (e : VersionEdit) : Prop := {
  ok_records : Forall call_ok (records e);
  ok_comparator : has_comparator_ e = false -> comparator_ e = [];
  ok_log : has_log_number_ e = false -> log_number_ e = 0;
  ok_prev_log : has_prev_log_number_ e = false -> prev_log_number_ e = 0;
  ok_next_file : has_next_file_number_ e = false -> next_file_number_ e = 0;
  ok_last_sequence : has_last_sequence_ e = false -> last_sequence_ e = 0;
  ok_deleted : StronglySorted pair_lt (deleted_files_ e);
  ok_new : Forall (fun x => refs x.2 = 0 /\ allowed_seeks x.2 = Z.shiftl 1 30) (new_files_ e)
}.

(** ** The set of deleted files *)
Lemma pair_lt_alt a b : pair_lt a b <-> a.1 < b.1 \/ a.1 = b.1 /\ a.2 < b.2.
Proof. unfold pair_lt, pair_ltb. rewrite orb_true_iff, andb_true_iff, !Z.ltb_lt, Z.eqb_eq. done. Qed.

#[export] Instance pair_lt_trans : Transitive pair_lt.
Proof. intros a b c. rewrite !pair_lt_alt. lia. Qed.

Lemma set_insert_Forall (P : Z * Z -> Prop) x s : P x -> Forall P s -> Forall P (set_insert x s).
Proof.
  intros Hx H; induction H as [|y s Hy Hs IH]; cbn; [by constructor|]. repeat case_match; repeat constructor; done.
Qed.

Lemma set_insert_sorted x s : StronglySorted pair_lt s -> StronglySorted pair_lt (set_insert x s).
Proof.
  induction 1 as [|y s Hs IH Hy]; cbn; [repeat constructor|]. destruct (pair_ltb x y) eqn:E1; [|destruct (pair_ltb y x) eqn:E2].
  - constructor; [by constructor|]. constructor; [done|]. eapply Forall_impl; [done|]. intros z Hz. by etrans.
  - constructor; [done|]. by apply set_insert_Forall.
  - by constructor.
Qed.

Lemma set_insert_last x s : Forall (fun y => pair_lt y x) s -> set_insert x s = s ++ [x].
Proof.
  induction 1 as [|y s Hy Hs IH]; cbn; [done|]. assert (pair_ltb x y = false) as ->; [|by rewrite Hy, IH].
  apply not_true_iff_false. intros H. change (pair_lt x y) in H. rewrite pair_lt_alt in *. lia.
Qed.

(** ** Decoding *)
Lemma GetLevel_encode level rest : level_ok level -> GetLevel (EncodeVarint32 level ++ rest) = Some (level, rest).
Proof.
  intros Hl. unfold level_ok, kNumLevels in Hl. unfold GetLevel. rewrite GetVarint32_encode by (unfold is_u32; lia).
  unfold kNumLevels. by rewrite (proj2 (Z.ltb_lt _ _)) by lia.
Qed.

Lemma GetInternalKey_encode key rest : ikey_ok key -> GetInternalKey (varstring key ++ rest) = Some (key, rest).
Proof. intros [_ Hk]. unfold GetInternalKey. by rewrite GetLengthPrefixedSlice_encode. Qed.

Lemma decode_loop_tag fuel tag rest e : is_u32 tag ->
  decode_loop (S fuel) (EncodeVarint32 tag ++ rest) e =
  match decode_record tag rest e with inl (e, input) => decode_loop fuel input e | inr msg => Ok (e, rest, Some msg) end.
Proof. intros Ht. cbn [decode_loop]. by rewrite GetVarint32_encode. Qed.

Lemma decode_call fuel c rest e : call_ok c ->
  decode_loop (S fuel) (call_bytes c ++ rest) e = decode_loop fuel rest (apply_call e c).
Proof.
  intros Hc. destruct c; cbn [call_bytes call_ok apply_call] in *; rewrite <- !app_assoc, decode_loop_tag by by_decide;
    unfold decode_record; cbn -[GetVarint64 GetLengthPrefixedSlice GetLevel GetInternalKey varstring EncodeVarint64 EncodeVarint32];
    destruct_and? Hc;
    repeat first [rewrite GetVarint64_encode by done | rewrite GetLengthPrefixedSlice_encode by done |
                  rewrite GetLevel_encode by done | rewrite GetInternalKey_encode by done | progress cbn [mbind option_bind]];
    done.
Qed.

Lemma call_bytes_not_nil c : call_ok c -> (0 < length (call_bytes c))%nat.
Proof.
  destruct c; intros _; cbn [call_bytes]; rewrite length_app;
    (match goal with |- context [(length (EncodeVarint32 ?tag) + _)%nat] => change (length (EncodeVarint32 tag)) with 1%nat end); lia.
Qed.

Lemma decode_calls fuel cs e : Forall call_ok cs -> (length cs <= fuel)%nat ->
  decode_loop fuel (calls_bytes cs) e = Ok (apply_calls e cs, [], None).
Proof.
  intros H; revert fuel e; induction H as [|c cs Hc Hcs IH]; intros fuel e Hf; [by destruct fuel|].
  destruct fuel as [|fuel]; [cbn in Hf; lia|]. unfold calls_bytes. cbn [map concat]. rewrite decode_call by done.
  apply IH. cbn in Hf. lia.
Qed.

Lemma length_calls_bytes cs : Forall call_ok cs -> (length cs <= length (calls_bytes cs))%nat.
Proof.
  induction 1 as [|c cs Hc Hcs IH]; [done|]. unfold calls_bytes in *. cbn [map concat length]. rewrite length_app.
  pose proof (call_bytes_not_nil c Hc). lia.
Qed.

(** ** Encoding *)
Lemma u32_level level : level_ok level -> u32 level = level.
Proof. unfold level_ok, kNumLevels, u32. intros. apply Z.mod_small. lia. Qed.

Lemma level_u32 level : level_ok level -> is_u32 level.
Proof. unfold level_ok, kNumLevels, is_u32. lia. Qed.

Lemma Encode_eq key : ikey_ok key -> Encode key = Ok key.
Proof. intros [Hk _]. unfold Encode. by rewrite bool_decide_false. Qed.

Lemma ikey_fits key : ikey_ok key -> fits32 key.
Proof. by intros []. Qed.

#[local] Hint Resolve level_u32 ikey_fits : core.

(** One record of the encoder. *)
Ltac put := repeat first
  [rewrite bind_Ok | rewrite u32_level by done | rewrite PutVarint32_eq by first [by auto | by_decide] | rewrite PutVarint64_eq by done |
   rewrite Encode_eq by done | rewrite PutLengthPrefixedSlice_eq by auto].

Lemma encode_pointers_eq ps dst : Forall call_ok (map (fun x => CCompactPointer x.1 x.2) ps) ->
  encode_pointers dst ps = Ok (dst ++ calls_bytes (map (fun x => CCompactPointer x.1 x.2) ps)).
Proof.
  revert dst; induction ps as [|[level key] ps IH]; intros dst H; [by rewrite app_nil_r|].
  cbn [map] in *. apply Forall_cons in H as [[Hl Hk] H]. cbn [encode_pointers fst snd] in *. put.
  rewrite IH by done. unfold calls_bytes. cbn [map concat call_bytes]. by rewrite !app_assoc.
Qed.

Lemma encode_deleted_eq fs dst : Forall call_ok (map (fun x => CDeleteFile x.1 x.2) fs) ->
  encode_deleted dst fs = Ok (dst ++ calls_bytes (map (fun x => CDeleteFile x.1 x.2) fs)).
Proof.
  revert dst; induction fs as [|[level file] fs IH]; intros dst H; [by rewrite app_nil_r|].
  cbn [map] in *. apply Forall_cons in H as [[Hl Hk] H]. cbn [encode_deleted fst snd] in *. put.
  rewrite IH by done. unfold calls_bytes. cbn [map concat call_bytes]. by rewrite !app_assoc.
Qed.

Lemma encode_new_eq fs dst : Forall call_ok (map new_file_call fs) ->
  encode_new dst fs = Ok (dst ++ calls_bytes (map new_file_call fs)).
Proof.
  revert dst; induction fs as [|[level f] fs IH]; intros dst H; [by rewrite app_nil_r|].
  cbn [map] in *. apply Forall_cons in H as [(Hl & Hn & Hs & Hk1 & Hk2) H]. cbn [encode_new fst snd] in *. put.
  rewrite IH by done. unfold calls_bytes. cbn [map concat call_bytes new_file_call fst snd]. by rewrite !app_assoc.
Qed.

Lemma calls_bytes_app cs1 cs2 : calls_bytes (cs1 ++ cs2) = calls_bytes cs1 ++ calls_bytes cs2.
Proof. unfold calls_bytes. by rewrite map_app, concat_app. Qed.

Lemma EncodeTo_eq e dst : Forall call_ok (records e) -> EncodeTo e dst = Ok (dst ++ calls_bytes (records e)).
Proof.
  unfold records, header_calls. rewrite !Forall_app. intros ((H1 & H2 & H3 & H4 & H5) & H6 & H7 & H8).
  assert (forall (b : bool) c (m : outcome (list Z)) d, Forall call_ok (if b then [c] else []) ->
    (call_ok c -> m = Ok (d ++ call_bytes c)) -> (if b then m else Ok d) = Ok (d ++ calls_bytes (if b then [c] else []))) as Hif.
  { intros [] c m d Hc Hf; cbn; rewrite ?app_nil_r; [|done]. apply Forall_cons in Hc as [Hc _]. by apply Hf. }
  unfold EncodeTo.
  do 5 (erewrite Hif; [|eassumption|cbn; intros Hc; put; by rewrite <- ?app_assoc]; rewrite bind_Ok).
  rewrite encode_pointers_eq, bind_Ok, encode_deleted_eq, bind_Ok, encode_new_eq by done.
  by rewrite !calls_bytes_app, <- !app_assoc.
Qed.

(** ** Edits that calls make *)
Lemma new_edit_ok : edit_ok newVersionEdit.
Proof. by repeat constructor. Qed.

Lemma apply_call_ok e c : edit_ok e -> call_ok c -> edit_ok (apply_call e c).
Proof.
  intros [Hr H1 H2 H3 H4 H5 Hd Hn] Hc. unfold records, header_calls in Hr. rewrite !Forall_app in Hr.
  destruct Hr as ((R1 & R2 & R3 & R4 & R5) & R6 & R7 & R8).
  destruct c; cbn [call_ok] in Hc; (split; [|try done..]);
    try (unfold records, header_calls; rewrite !Forall_app; cbn; rewrite ?map_app; cbn;
         rewrite ?Forall_app, ?Forall_singleton; by split_and!).
  - unfold records, header_calls. rewrite !Forall_app. cbn. split_and!; try done. rewrite Forall_map in *. by apply set_insert_Forall.
  - by apply set_insert_sorted.
  - cbn. rewrite Forall_app, Forall_singleton. done.
Qed.

Lemma apply_calls_ok cs e : edit_ok e -> Forall call_ok cs -> edit_ok (apply_calls e cs).
Proof. intros He H; revert e He; induction H as [|c cs Hc Hcs IH]; intros e He; [done|]. by apply IH, apply_call_ok. Qed.

(** ** Rebuilding an edit from its records *)
Lemma apply_calls_app e cs1 cs2 : apply_calls e (cs1 ++ cs2) = apply_calls (apply_calls e cs1) cs2.
Proof. apply fold_left_app. Qed.

Lemma apply_calls_cons e c cs : apply_calls e (c :: cs) = apply_calls (apply_call e c) cs.
Proof. done. Qed.

Lemma apply_pointers ps e : apply_calls e (map (fun x => CCompactPointer x.1 x.2) ps) =
  set_containers e (compact_pointers_ e ++ ps) (deleted_files_ e) (new_files_ e).
Proof.
  revert e; induction ps as [|[level key] ps IH]; intros e; [rewrite app_nil_r; by destruct e|].
  cbn [map]. rewrite apply_calls_cons. cbn [fst snd].
  rewrite IH. cbn. unfold set_containers. cbn. by rewrite <- app_assoc.
Qed.

Lemma apply_deleted ds e : StronglySorted pair_lt (deleted_files_ e ++ ds) ->
  apply_calls e (map (fun x => CDeleteFile x.1 x.2) ds) = set_containers e (compact_pointers_ e) (deleted_files_ e ++ ds) (new_files_ e).
Proof.
  revert e; induction ds as [|[level file] ds IH]; intros e H; [rewrite app_nil_r; by destruct e|].
  cbn [map]. rewrite apply_calls_cons. cbn [fst snd].
  assert (set_insert (level, file) (deleted_files_ e) = deleted_files_ e ++ [(level, file)]) as E.
  { apply set_insert_last. rewrite Forall_forall. intros y Hy. eapply StronglySorted_app_1_elem_of; [done|done|]. by apply elem_of_cons; left. }
  rewrite IH; cbn [apply_call DeleteFile set_containers deleted_files_ compact_pointers_ new_files_]; rewrite E, <- app_assoc; done.
Qed.

Lemma apply_new fs e : Forall (fun x => refs x.2 = 0 /\ allowed_seeks x.2 = Z.shiftl 1 30) fs ->
  apply_calls e (map new_file_call fs) = set_containers e (compact_pointers_ e) (deleted_files_ e) (new_files_ e ++ fs).
Proof.
  intros H; revert e; induction H as [|[level [r a n s sm la]] fs [Hr Ha] Hfs IH]; intros e; [rewrite app_nil_r; by destruct e|].
  cbn [map]. rewrite apply_calls_cons. cbn [fst snd].
  rewrite IH. cbn in Hr, Ha |- *. subst. unfold set_containers. cbn. by rewrite <- app_assoc.
Qed.

Lemma apply_header o e : edit_ok e -> apply_calls (Clear o) (header_calls e) = set_containers e (compact_pointers_ o) [] [].
Proof.
  intros [_ H1 H2 H3 H4 H5 _ _]. destruct e as [c l p n q hc hl hp hn hq ps ds fs]. cbn in *. unfold header_calls, set_containers. cbn.
  destruct hc, hl, hp, hn, hq; cbn; rewrite ?H1, ?H2, ?H3, ?H4, ?H5 by done; reflexivity.
Qed.

Lemma rebuild o e : edit_ok e ->
  apply_calls (Clear o) (records e) = set_containers e (compact_pointers_ o ++ compact_pointers_ e) (deleted_files_ e) (new_files_ e).
Proof.
  intros He. unfold records. rewrite !apply_calls_app, apply_header, apply_pointers by done.
  destruct He as [_ _ _ _ _ _ Hd Hn]. rewrite apply_deleted, apply_new by done. by destruct e.
Qed.

(** ** Termination *)
Lemma get_varint_loop_shorter w last shift result input v rest :
  get_varint_loop w last shift result input = Some (v, rest) -> (length rest < length input)%nat.
Proof.
  revert shift result; induction input as [|b input IH]; intros shift result; cbn; [by case_match|].
  destruct (last <? shift); [done|]. destruct (negb _); [intros H%IH; lia|intros [= _ <-]; lia].
Qed.

Lemma GetVarint32_shorter input v rest : GetVarint32 input = Some (v, rest) -> (length rest < length input)%nat.
Proof.
  unfold GetVarint32, GetVarint32Ptr. destruct input as [|b input]; [done|]. destruct (_ =? _); [intros [= _ <-]; cbn; lia|apply get_varint_loop_shorter].
Qed.

Lemma GetVarint64_shorter input v rest : GetVarint64 input = Some (v, rest) -> (length rest < length input)%nat.
Proof. apply get_varint_loop_shorter. Qed.

Lemma GetLengthPrefixedSlice_shorter input s rest : GetLengthPrefixedSlice input = (s, rest) -> (length rest <= length input)%nat.
Proof.
  unfold GetLengthPrefixedSlice. destruct (GetVarint32 input) as [[len r]|] eqn:E; [|by intros [= _ <-]].
  apply GetVarint32_shorter in E. case_match; intros [= _ <-]; rewrite ?length_drop; lia.
Qed.

Lemma GetInternalKey_shorter input k rest : GetInternalKey input = Some (k, rest) -> (length rest <= length input)%nat.
Proof.
  unfold GetInternalKey. destruct (GetLengthPrefixedSlice input) as [[s|] r] eqn:E; [|done]. intros [= _ <-]. by eapply GetLengthPrefixedSlice_shorter.
Qed.

Lemma GetLevel_shorter input l rest : GetLevel input = Some (l, rest) -> (length rest < length input)%nat.
Proof.
  unfold GetLevel. destruct (GetVarint32 input) as [[v r]|] eqn:E; [|done]. case_match; [|done]. intros [= _ <-]. by eapply GetVarint32_shorter.
Qed.

Lemma decode_record_shorter tag input e e' rest : decode_record tag input e = inl (e', rest) -> (length rest <= length input)%nat.
Proof.
  unfold decode_record. intros H. repeat case_match; simplify_option_eq; simplify_eq;
    repeat match goal with
      | _ => progress simplify_option_eq
      | p : _ * _ |- _ => destruct p
      | E : GetLengthPrefixedSlice _ = _ |- _ => apply GetLengthPrefixedSlice_shorter in E
      | E : GetVarint64 _ = Some _ |- _ => apply GetVarint64_shorter in E
      | E : GetLevel _ = Some _ |- _ => apply GetLevel_shorter in E
      | E : GetInternalKey _ = Some _ |- _ => apply GetInternalKey_shorter in E
      end; lia.
Qed.

Lemma decode_loop_total fuel input e : (length input <= fuel)%nat -> exists r, decode_loop fuel input e = Ok r.
Proof.
  revert input e; induction fuel as [|fuel IH]; intros input e Hf; cbn [decode_loop].
  - destruct input; [|cbn in Hf; lia]. cbn. eauto.
  - destruct (GetVarint32 input) as [[tag r]|] eqn:E; [|eauto]. apply GetVarint32_shorter in E.
    destruct (decode_record tag r e) as [[e' r']|] eqn:Ed; [|eauto]. apply decode_record_shorter in Ed. apply IH. lia.
Qed.

(** C36: A version edit that is written to the manifest is read back.  Whatever calls made the edit (with
    arguments of their width, levels in range and keys that are not empty): [EncodeTo] returns, and [DecodeFrom]
    of its bytes, called on any edit, returns OK with exactly the members of the edit that
    was encoded, except that the compaction pointers are added to the ones that
    were there, which [Clear] leaves.  And [DecodeFrom] returns on every input. *)
Theorem version_edit_roundtrip (cs : list call) (o : VersionEdit) : Forall call_ok cs ->
  (exists bytes, EncodeTo (apply_calls newVersionEdit cs) [] = Ok bytes /\
    DecodeFrom o bytes = Ok (OK, set_containers (apply_calls newVersionEdit cs)
      (compact_pointers_ o ++ compact_pointers_ (apply_calls newVersionEdit cs))
      (deleted_files_ (apply_calls newVersionEdit cs)) (new_files_ (apply_calls newVersionEdit cs)))) /\
  forall src, exists s e, DecodeFrom o src = Ok (s, e).
Proof.
  intros Hcs. pose proof (apply_calls_ok cs newVersionEdit new_edit_ok Hcs) as He. split.
  - set (e := apply_calls newVersionEdit cs) in *. pose proof (ok_records e He) as Hr.
    eexists. split; [by apply EncodeTo_eq|]. cbn [app]. unfold DecodeFrom.
    rewrite decode_calls, bind_Ok, rebuild by (done || by apply length_calls_bytes). done.
  - intros src. unfold DecodeFrom. destruct (decode_loop_total (length src) src (Clear o)) as [[[e input] msg] E]; [done|].
    rewrite E, bind_Ok. eauto.
Qed.

Lemma version_edit_roundtrip_witness :
  exists bytes, EncodeTo (apply_calls newVersionEdit [CDeleteFile 3 9; CLogNumber 300; CDeleteFile 2 70000; CCompactPointer 1 [5; 6]; CAddFile 0 1 2 [7] [8]]) [] = Ok bytes /\
    DecodeFrom (SetCompactPointer newVersionEdit 6 [1]) bytes =
      Ok (OK, mkEdit [] 300 0 0 0 false true false false false [(6, [1]); (1, [5; 6])] [(2, 70000); (3, 9)] [(0, newFileMetaData 1 2 [7] [8])]).
Proof.
  apply (version_edit_roundtrip [CDeleteFile 3 9; CLogNumber 300; CDeleteFile 2 70000; CCompactPointer 1 [5; 6]; CAddFile 0 1 2 [7] [8]]
    (SetCompactPointer newVersionEdit 6 [1])). by_decide.
Defined.

End Edit.
