(* ===== verification/LdbIter.v ===== *)
(** leveldb, include/leveldb/iterator.h, table/iterator.cc and table/iterator_wrapper.h: the
    interface of iterators.

    The class [Iterator] is the virtual interface, with the state of the object passed explicitly.
    [IteratorOk] is what an iterator over a sorted sequence of entries promises to its clients; the
    iterators of blocks and memory tables fulfil it, and those that combine
    iterators are verified against it. *)
From stdpp Require Import sorting sets.
From S2P Require Import Prelude LdbCoding LdbKeys.

Module Iter.
Import Coding Keys.

(** A key and its value. *)
Definition entry : Type := list Z * list Z.

Class Iterator (I : Type) := {
  it_Valid : I -> bool;
  it_SeekToFirst : I -> outcome I;
  it_SeekToLast : I -> outcome I;
  it_Seek : I -> list Z -> outcome I;
  it_Next : I -> outcome I;
  it_Prev : I -> outcome I;
  it_key : I -> outcome (list Z);
  it_value : I -> outcome (list Z);
  it_status : I -> Status
}.

(** ** table/iterator.cc *)

(** The cleanup functions in the order in which the destructor calls them: the first that was registered is in the
    iterator itself, the others are pushed behind it. *)
Definition RegisterCleanup {A} (cleanup_ : list A) (c : A) : list A :=
  match cleanup_ with
  | [] => [c]
  | first :: next => first :: c :: next
  end.

(** [EmptyIterator] is its status. *)
Record EmptyIterator := mkEmpty { empty_status_ : Status }.

#[export] Instance empty_iterator : Iterator EmptyIterator := {|
  it_Valid _ := false;
  it_SeekToFirst it := Ok it;
  it_SeekToLast it := Ok it;
  it_Seek it _ := Ok it;
  it_Next _ := AssertFail;
  it_Prev _ := AssertFail;
  it_key _ := AssertFail;
  it_value _ := AssertFail;
  it_status it := empty_status_ it
|}.

Definition NewEmptyIterator : EmptyIterator := mkEmpty OK.
Definition NewErrorIterator (status : Status) : EmptyIterator := mkEmpty status.

(** ** table/iterator_wrapper.h *)
Section wrapper.
Context {I : Type} `{!Iterator I}.

Record IteratorWrapper := mkWrapper {
  iter_ : option I;
  valid_ : bool;
  key_ : list Z
}.

(** [Update]; a key is left where the iterator is not valid. *)
Definition Update (w : IteratorWrapper) (it : I) : outcome IteratorWrapper :=
  if it_Valid it then k ← it_key it; Ok (mkWrapper (Some it) true k)
  else Ok (mkWrapper (Some it) false (key_ w)).

Definition w_Set (w : IteratorWrapper) (iter : option I) : outcome IteratorWrapper :=
  match iter with
  | None => Ok (mkWrapper None false (key_ w))
  | Some it => Update w it
  end.

(** [IteratorWrapper(Iterator* )]. *)
Definition newWrapper (iter : option I) : outcome IteratorWrapper := w_Set (mkWrapper None false []) iter.

Definition w_Valid (w : IteratorWrapper) : bool := valid_ w.
Definition w_key (w : IteratorWrapper) : outcome (list Z) := _ ← c_assert (w_Valid w); Ok (key_ w).

(** [assert(iter_)]. *)
Definition w_iter (w : IteratorWrapper) : outcome I :=
  match iter_ w with Some it => Ok it | None => AssertFail end.

Definition w_value (w : IteratorWrapper) : outcome (list Z) :=
  _ ← c_assert (w_Valid w); match iter_ w with Some it => it_value it | None => Undef end.
Definition w_status (w : IteratorWrapper) : outcome Status := it ← w_iter w; Ok (it_status it).
Definition w_Next (w : IteratorWrapper) : outcome IteratorWrapper := it ← w_iter w; it ← it_Next it; Update w it.
Definition w_Prev (w : IteratorWrapper) : outcome IteratorWrapper := it ← w_iter w; it ← it_Prev it; Update w it.
Definition w_Seek (k : list Z) (w : IteratorWrapper) : outcome IteratorWrapper := it ← w_iter w; it ← it_Seek it k; Update w it.
Definition w_SeekToFirst (w : IteratorWrapper) : outcome IteratorWrapper := it ← w_iter w; it ← it_SeekToFirst it; Update w it.
Definition w_SeekToLast (w : IteratorWrapper) : outcome IteratorWrapper := it ← w_iter w; it ← it_SeekToLast it; Update w it.

End wrapper.
Arguments IteratorWrapper : clear implicits.

(** * Sorted entries *)
Section entries.
Context {C : Comparator} {HC : ComparatorOk C}.
Implicit Types (es : list entry) (e : entry) (k : list Z).

(** The order of keys. *)
Definition key_lt (a b : list Z) : Prop := cmp a b < 0.

#[export] Instance key_lt_dec a b : Decision (key_lt a b).
Proof. unfold key_lt. apply _. Defined.

Definition entry_lt (a b : entry) : Prop := key_lt a.1 b.1.

Definition keys_ok es : Prop := Forall (fun e => key_ok e.1) es.

(** Keys that increase. *)
Definition ordered es : Prop := keys_ok es /\ StronglySorted entry_lt es.

(** The first and the last entry with a property. *)
Definition first_such (P : entry -> Prop) `{!forall e, Decision (P e)} es : option entry := head (filter P es).
Definition last_such (P : entry -> Prop) `{!forall e, Decision (P e)} es : option entry := last (filter P es).

(** Where the operations of an iterator go. *)
Definition after k es : option entry := first_such (fun e => key_lt k e.1) es.
Definition before k es : option entry := last_such (fun e => key_lt e.1 k) es.
Definition from k es : option entry := first_such (fun e => ~ key_lt e.1 k) es.

Lemma key_lt_trans a b c : key_ok a -> key_ok b -> key_ok c -> key_lt a b -> key_lt b c -> key_lt a c.
Proof. apply cmp_trans. Qed.

Lemma key_lt_irrefl a : key_ok a -> ~ key_lt a a.
Proof. intros Ha. unfold key_lt. rewrite cmp_refl by done. lia. Qed.

Lemma key_lt_cases a b : key_ok a -> key_ok b -> key_lt a b \/ a = b \/ key_lt b a.
Proof. apply cmp_neg. Qed.

Lemma key_lt_asym a b : key_ok a -> key_ok b -> key_lt a b -> ~ key_lt b a.
Proof. intros Ha Hb H1 H2. by apply (key_lt_irrefl a), (key_lt_trans a b a). Qed.

Lemma not_key_lt a b : key_ok a -> key_ok b -> ~ key_lt a b <-> a = b \/ key_lt b a.
Proof.
  intros Ha Hb. split.
  - destruct (key_lt_cases a b) as [|[|]]; auto; done.
  - intros [->|H]; [by apply key_lt_irrefl|]. by apply key_lt_asym.
Qed.

Lemma ordered_nil : ordered [].
Proof. split; constructor. Qed.

Lemma ordered_app es1 es2 : ordered (es1 ++ es2) <->
  ordered es1 /\ ordered es2 /\ forall a b, a ∈ es1 -> b ∈ es2 -> entry_lt a b.
Proof.
  unfold ordered, keys_ok. rewrite Forall_app. split.
  - intros [[H1 H2] Hs]. split_and!; [done|by eapply StronglySorted_app_1_l|done|by eapply StronglySorted_app_1_r|].
    intros a b Ha Hb. by eapply StronglySorted_app_1_elem_of.
  - intros ((H1 & S1) & (H2 & S2) & H). split; [done|]. apply StronglySorted_app_2; [|done..]. done.
Qed.

Lemma ordered_cons e es : ordered (e :: es) <-> key_ok e.1 /\ ordered es /\ forall b, b ∈ es -> entry_lt e b.
Proof.
  change (e :: es) with ([e] ++ es). rewrite ordered_app. split.
  - intros ([H1 _] & H2 & H3). split_and!; [by inversion H1|done|]. intros b Hb. apply H3; [set_solver|done].
  - intros (H1 & H2 & H3). split_and!; [split; by repeat constructor|done|]. intros a b ->%list_elem_of_singleton Hb. by apply H3.
Qed.

Lemma ordered_key es e : ordered es -> e ∈ es -> key_ok e.1.
Proof. intros [H _] He. unfold keys_ok in H. rewrite Forall_forall in H. by apply H. Qed.

(** Entries are told apart by their keys. *)
Lemma ordered_inj es a b : ordered es -> a ∈ es -> b ∈ es -> a.1 = b.1 -> a = b.
Proof.
  intros Ho Ha Hb E. pose proof (ordered_key _ _ Ho Ha) as Ka.
  apply list_elem_of_split in Ha as (es1 & es2 & ->). apply ordered_app in Ho as (_ & Ho & H). apply ordered_cons in Ho as (_ & _ & H').
  apply elem_of_app in Hb as [Hb|[->|Hb]%elem_of_cons]; [|done|]; exfalso; apply (key_lt_irrefl a.1 Ka).
  - rewrite E at 1. apply H; [done|set_solver].
  - rewrite E at 2. by apply H'.
Qed.

Section such.
Context (P : entry -> Prop) {HP : forall e, Decision (P e)}.

Lemma filter_none es : filter P es = [] <-> Forall (fun x => ~ P x) es.
Proof.
  induction es as [|x es IH]; [done|]. rewrite filter_cons, Forall_cons, <- IH. case_decide; [|tauto].
  split; [done|tauto].
Qed.

Lemma first_such_split es e : first_such P es = Some e <-> exists es1 es2, es = es1 ++ e :: es2 /\ Forall (fun x => ~ P x) es1 /\ P e.
Proof.
  unfold first_such. split.
  - induction es as [|x es IH]; [done|]. rewrite filter_cons. destruct (decide (P x)) as [Hx|Hx].
    + intros [= ->]. by exists [], es.
    + intros (es1 & es2 & -> & H1 & He)%IH. exists (x :: es1), es2. split_and!; [done|by constructor|done].
  - intros (es1 & es2 & -> & H1 & He). rewrite filter_app, filter_cons_True by done.
    by rewrite (proj2 (filter_none es1) H1).
Qed.

Lemma last_such_split es e : last_such P es = Some e <-> exists es1 es2, es = es1 ++ e :: es2 /\ Forall (fun x => ~ P x) es2 /\ P e.
Proof.
  unfold last_such. split.
  - induction es as [|x es IH] using rev_ind; [done|]. rewrite filter_app, filter_cons, filter_nil. destruct (decide (P x)) as [Hx|Hx].
    + rewrite last_snoc. intros [= ->]. by exists es, [].
    + rewrite app_nil_r. intros (es1 & es2 & -> & H1 & He)%IH. exists es1, (es2 ++ [x]). rewrite <- app_assoc.
      split_and!; [done|apply Forall_app; by repeat constructor|done].
  - intros (es1 & es2 & -> & H1 & He). rewrite filter_app, filter_cons_True by done.
    by rewrite (proj2 (filter_none es2) H1), last_snoc.
Qed.

Lemma first_such_None es : first_such P es = None <-> forall e, e ∈ es -> ~ P e.
Proof.
  unfold first_such. by rewrite head_None, filter_none, Forall_forall.
Qed.

Lemma last_such_None es : last_such P es = None <-> forall e, e ∈ es -> ~ P e.
Proof. unfold last_such. rewrite last_None, <- head_None. apply first_such_None. Qed.

(** In a sorted sequence, the first is the smallest and the last the largest. *)
Lemma first_such_Some es e : ordered es ->
  first_such P es = Some e <-> e ∈ es /\ P e /\ forall e', e' ∈ es -> P e' -> e' = e \/ entry_lt e e'.
Proof.
  intros Ho. rewrite first_such_split. split.
  - intros (es1 & es2 & -> & H1 & He). apply ordered_app in Ho as (_ & Ho & _). apply ordered_cons in Ho as (_ & _ & Hlt).
    split_and!; [set_solver|done|]. rewrite Forall_forall in H1. intros e' [Hin|[->|Hin]%elem_of_cons]%elem_of_app Hp; [|by left|right; by apply Hlt].
    by apply H1 in Hin.
  - intros (He & Hp & Hmin). pose proof Ho as Ho'. apply list_elem_of_split in He as (es1 & es2 & ->). exists es1, es2. split_and!; [done| |done].
    apply ordered_app in Ho as (_ & Ho & Hlt). rewrite Forall_forall. intros x Hx Hpx.
    assert (entry_lt x e) as Hxe by (apply Hlt; set_solver). assert (key_ok e.1 /\ key_ok x.1) as [Ke Kx] by (split; apply (ordered_key _ _ Ho'); set_solver).
    destruct (Hmin x) as [->|Hex]; [set_solver|done|by apply (key_lt_irrefl e.1)|by apply (key_lt_asym e.1 x.1)].
Qed.

Lemma last_such_Some es e : ordered es ->
  last_such P es = Some e <-> e ∈ es /\ P e /\ forall e', e' ∈ es -> P e' -> e' = e \/ entry_lt e' e.
Proof.
  intros Ho. rewrite last_such_split. split.
  - intros (es1 & es2 & -> & H1 & He). apply ordered_app in Ho as (_ & Ho & Hlt).
    split_and!; [set_solver|done|]. rewrite Forall_forall in H1.
    intros e' [Hin|[->|Hin]%elem_of_cons]%elem_of_app Hp; [right; apply Hlt; set_solver|by left|]. by apply H1 in Hin.
  - intros (He & Hp & Hmin). pose proof Ho as Ho'. apply list_elem_of_split in He as (es1 & es2 & ->). exists es1, es2. split_and!; [done| |done].
    apply ordered_app in Ho as (_ & Ho & _). apply ordered_cons in Ho as (_ & _ & Hlt). rewrite Forall_forall. intros x Hx Hpx.
    assert (key_ok e.1 /\ key_ok x.1) as [Ke Kx] by (split; apply (ordered_key _ _ Ho'); set_solver). specialize (Hlt x Hx).
    destruct (Hmin x) as [->|Hex]; [set_solver|done|by apply (key_lt_irrefl e.1)|by apply (key_lt_asym e.1 x.1)].
Qed.
End such.

(** A sorted sequence is determined by its elements. *)
Lemma ordered_perm es es' : ordered es -> ordered es' -> es ≡ₚ es' -> es = es'.
Proof.
  revert es'; induction es as [|e es IH]; intros es' Ho Ho' HP; [by apply Permutation_nil_l in HP|].
  destruct es' as [|e' es']; [by apply Permutation_nil_r in HP|].
  assert (e = e') as <-.
  { apply ordered_cons in Ho as (Ke & _ & H). apply ordered_cons in Ho' as (Ke' & _ & H').
    assert (e ∈ e' :: es') as [?|He]%elem_of_cons by (rewrite <- HP; set_solver); [done|].
    assert (e' ∈ e :: es) as [?|He']%elem_of_cons by (rewrite HP; set_solver); [done|].
    exfalso. apply (key_lt_asym e.1 e'.1); [done..|by apply H|by apply H']. }
  f_equal. apply ordered_cons in Ho as (_ & Ho & _). apply ordered_cons in Ho' as (_ & Ho' & _). apply IH; [done..|]. by apply Permutation_cons_inv in HP.
Qed.

(** Around an entry. *)
Lemma after_split es1 e es2 : ordered (es1 ++ e :: es2) -> after e.1 (es1 ++ e :: es2) = head es2.
Proof.
  intros Ho. unfold after. destruct es2 as [|x es2]; cbn [head].
  - apply first_such_None. intros y Hy Hlt. pose proof (ordered_key _ _ Ho Hy) as Ky.
    apply ordered_app in Ho as (_ & Ho & H). apply ordered_cons in Ho as (Ke & _).
    apply elem_of_app in Hy as [Hy| ->%list_elem_of_singleton]; [|by apply (key_lt_irrefl e.1)].
    apply (key_lt_asym e.1 y.1); [done..|]. apply H; set_solver.
  - apply first_such_split. exists (es1 ++ [e]), es2. rewrite <- app_assoc. split; [done|].
    pose proof Ho as Ho'. apply ordered_app in Ho as (_ & Ho & H). apply ordered_cons in Ho as (Ke & _ & Hx). split; [|apply Hx; set_solver].
    rewrite Forall_forall. intros y Hy Hlt. assert (key_ok y.1) as Ky by (apply (ordered_key _ _ Ho'); set_solver).
    apply elem_of_app in Hy as [Hy| ->%list_elem_of_singleton]; [|by apply (key_lt_irrefl e.1)].
    apply (key_lt_asym e.1 y.1); [done..|]. apply H; set_solver.
Qed.

Lemma before_split es1 e es2 : ordered (es1 ++ e :: es2) -> before e.1 (es1 ++ e :: es2) = last es1.
Proof.
  intros Ho. unfold before. pose proof Ho as Ho'. apply ordered_app in Ho as (_ & Ho & H). apply ordered_cons in Ho as (Ke & _ & Hx).
  assert (Forall (fun y => ~ key_lt y.1 e.1) (e :: es2)) as Hno.
  { rewrite Forall_forall. intros y Hy Hlt. assert (key_ok y.1) as Ky by (apply (ordered_key _ _ Ho'); set_solver).
    apply elem_of_cons in Hy as [->|Hy]; [by apply (key_lt_irrefl e.1)|]. apply (key_lt_asym e.1 y.1); [done..| |done]. by apply Hx. }
  destruct es1 as [|x es1 _] using rev_ind.
  - apply last_such_None. by rewrite Forall_forall in Hno.
  - rewrite last_snoc. apply last_such_split. exists es1, (e :: es2). rewrite <- app_assoc. split_and!; [done..|]. apply H; set_solver.
Qed.

(** The same by index. *)
Lemma after_index es n e : ordered es -> es !! n = Some e -> after e.1 es = es !! S n.
Proof.
  intros Ho Hn. pose proof (take_drop_middle _ _ _ Hn) as E. rewrite <- E in Ho. rewrite <- E at 1.
  by rewrite (after_split _ _ _ Ho), head_lookup, lookup_drop, Nat.add_0_r.
Qed.

Lemma before_index es n e : ordered es -> es !! n = Some e -> before e.1 es = match n with O => None | S n => es !! n end.
Proof.
  intros Ho Hn. pose proof (take_drop_middle _ _ _ Hn) as E. rewrite <- E in Ho. rewrite <- E at 1. rewrite (before_split _ _ _ Ho).
  apply lookup_lt_Some in Hn. destruct n as [|n]; [done|]. rewrite last_lookup, length_take, lookup_take_lt by lia. f_equal. lia.
Qed.

(** The entries from a key on. *)
Lemma from_split k es1 es2 : Forall (fun e => key_lt e.1 k) es1 -> Forall (fun e => ~ key_lt e.1 k) es2 -> from k (es1 ++ es2) = head es2.
Proof.
  intros H1 H2. unfold from. destruct es2 as [|x es2]; cbn [head].
  - rewrite app_nil_r. apply first_such_None. rewrite Forall_forall in H1. intros e He Hn. by apply Hn, H1.
  - apply first_such_split. exists es1, es2. inversion H2; subst. split_and!; [done| |done]. eapply Forall_impl; [done|]. auto.
Qed.

End entries.

(** * What an iterator promises *)
Class IteratorOk (I : Type) {HI : Iterator I} (C : Comparator) {HC : ComparatorOk C} := {
  (** It iterates over these entries, and stands at one of them or nowhere. *)
  stands_at : I -> list entry -> option entry -> Prop;
  stands_ordered it es p : stands_at it es p -> ordered es;
  stands_Valid it es p : stands_at it es p -> it_Valid it = bool_decide (is_Some p);
  stands_in it es e : stands_at it es (Some e) -> e ∈ es;
  stands_key it es e : stands_at it es (Some e) -> it_key it = Ok e.1;
  stands_value it es e : stands_at it es (Some e) -> it_value it = Ok e.2;
  stands_status it es p : stands_at it es p -> it_status it = OK;
  SeekToFirst_ok it es p : stands_at it es p -> exists it', it_SeekToFirst it = Ok it' /\ stands_at it' es (head es);
  SeekToLast_ok it es p : stands_at it es p -> exists it', it_SeekToLast it = Ok it' /\ stands_at it' es (last es);
  Seek_ok it es p k : stands_at it es p -> key_ok k -> exists it', it_Seek it k = Ok it' /\ stands_at it' es (from k es);
  Next_ok it es e : stands_at it es (Some e) -> exists it', it_Next it = Ok it' /\ stands_at it' es (after e.1 es);
  Prev_ok it es e : stands_at it es (Some e) -> exists it', it_Prev it = Ok it' /\ stands_at it' es (before e.1 es)
}.

(** ** Runs of an iterator *)
Inductive move := ToFirst | ToLast | To (k : list Z) | Forward | Backward.

Definition do_move {I} {HI : Iterator I} (it : I) (m : move) : outcome I :=
  match m with
  | ToFirst => it_SeekToFirst it
  | ToLast => it_SeekToLast it
  | To k => it_Seek it k
  | Forward => it_Next it
  | Backward => it_Prev it
  end.

Definition run {I} {HI : Iterator I} (it : I) (ms : list move) : outcome I :=
  fold_left (fun r m => it ← r; do_move it m) ms (Ok it).

Section runs.
Context {C : Comparator} {HC : ComparatorOk C}.

(** The same moves of a cursor over the entries; [Forward] and [Backward] are allowed where it is valid. *)
Definition track_move (es : list entry) (p : option entry) (m : move) : option (option entry) :=
  match m with
  | ToFirst => Some (head es)
  | ToLast => Some (last es)
  | To k => Some (from k es)
  | Forward => (fun e => after e.1 es) <$> p
  | Backward => (fun e => before e.1 es) <$> p
  end.

Definition track (es : list entry) (p : option entry) (ms : list move) : option (option entry) :=
  fold_left (fun r m => p ← r; track_move es p m) ms (Some p).

Definition move_ok (m : move) : Prop := match m with To k => key_ok k | _ => True end.

(** What a client sees. *)
Definition shows {I} {HI : Iterator I} (it : I) (p : option entry) : Prop :=
  it_Valid it = bool_decide (is_Some p) /\ it_status it = OK /\
  match p with Some e => it_key it = Ok e.1 /\ it_value it = Ok e.2 | None => True end.

Context {I : Type} {HI : Iterator I} {HO : IteratorOk I C}.

Lemma stands_shows it es p : stands_at it es p -> shows it p.
Proof.
  intros H. split_and!; [by eapply stands_Valid|by eapply stands_status|]. destruct p; [|done].
  split; [by eapply stands_key|by eapply stands_value].
Qed.

Lemma do_move_ok it es p m p' : stands_at it es p -> move_ok m -> track_move es p m = Some p' ->
  exists it', do_move it m = Ok it' /\ stands_at it' es p'.
Proof.
  intros Hs Hm Ht. destruct m; cbn in *; simplify_eq.
  - by eapply SeekToFirst_ok.
  - by eapply SeekToLast_ok.
  - by eapply Seek_ok.
  - destruct p; cbn in Ht; simplify_eq. by apply Next_ok.
  - destruct p; cbn in Ht; simplify_eq. by apply Prev_ok.
Qed.

Lemma run_ok it es p ms p' : stands_at it es p -> Forall move_ok ms -> track es p ms = Some p' ->
  exists it', run it ms = Ok it' /\ stands_at it' es p'.
Proof.
  intros Hs Hms; revert it p Hs; induction Hms as [|m ms Hm Hms IH]; intros it p Hs Ht; [injection Ht as <-; by exists it|].
  unfold run, track in *. cbn [fold_left] in *. rewrite bind_Ok. cbn in Ht. destruct (track_move es p m) as [p1|] eqn:E1.
  - destruct (do_move_ok _ _ _ _ _ Hs Hm E1) as (it1 & -> & Hs1). by eapply IH.
  - exfalso. clear -Ht. induction ms as [|m ms IH]; [done|]. by apply IH.
Qed.

End runs.

#[export, refine] Instance empty_iterator_ok {C : Comparator} {HC : ComparatorOk C} : IteratorOk EmptyIterator C :=
  {| stands_at it es p := it = NewEmptyIterator /\ es = [] /\ p = None |}.
Proof.
  - intros ??? (_ & -> & _). apply ordered_nil.
  - by intros ??? (-> & -> & ->).
  - by intros ??? (_ & _ & ?).
  - by intros ??? (_ & _ & ?).
  - by intros ??? (_ & _ & ?).
  - by intros ??? (-> & _ & _).
  - intros ??? (-> & -> & ->). by exists NewEmptyIterator.
  - intros ??? (-> & -> & ->). by exists NewEmptyIterator.
  - intros ???? (-> & -> & ->) _. by exists NewEmptyIterator.
  - by intros ??? (_ & _ & ?).
  - by intros ??? (_ & _ & ?).
Defined.

(** A pointer to one of two kinds of iterators: the virtual calls. *)
Definition on_sum {A B X} (f : A -> X) (g : B -> X) (it : A + B) : X := match it with inl a => f a | inr b => g b end.

#[export] Instance sum_iterator {A B} {HA : Iterator A} {HB : Iterator B} : Iterator (A + B) := {|
  it_Valid := on_sum it_Valid it_Valid;
  it_SeekToFirst := on_sum (fun a => a ← it_SeekToFirst a; Ok (inl a)) (fun b => b ← it_SeekToFirst b; Ok (inr b));
  it_SeekToLast := on_sum (fun a => a ← it_SeekToLast a; Ok (inl a)) (fun b => b ← it_SeekToLast b; Ok (inr b));
  it_Seek it k := on_sum (fun a => a ← it_Seek a k; Ok (inl a)) (fun b => b ← it_Seek b k; Ok (inr b)) it;
  it_Next := on_sum (fun a => a ← it_Next a; Ok (inl a)) (fun b => b ← it_Next b; Ok (inr b));
  it_Prev := on_sum (fun a => a ← it_Prev a; Ok (inl a)) (fun b => b ← it_Prev b; Ok (inr b));
  it_key := on_sum it_key it_key;
  it_value := on_sum it_value it_value;
  it_status := on_sum it_status it_status
|}.

#[export, refine] Instance sum_iterator_ok {A B} {HA : Iterator A} {HB : Iterator B} {C : Comparator} {HC : ComparatorOk C}
    {OA : IteratorOk A C} {OB : IteratorOk B C} : IteratorOk (A + B) C :=
  {| stands_at it es p := on_sum (fun a => stands_at a es p) (fun b => stands_at b es p) it |}.
Proof.
  - intros [a|b] ??; cbn; apply stands_ordered.
  - intros [a|b] ??; cbn; apply stands_Valid.
  - intros [a|b] ??; cbn; apply stands_in.
  - intros [a|b] ??; cbn; apply stands_key.
  - intros [a|b] ??; cbn; apply stands_value.
  - intros [a|b] ??; cbn; apply stands_status.
  - intros [a|b] ?? H; cbn; destruct (SeekToFirst_ok _ _ _ H) as (x & -> & H'); rewrite bind_Ok; by eexists.
  - intros [a|b] ?? H; cbn; destruct (SeekToLast_ok _ _ _ H) as (x & -> & H'); rewrite bind_Ok; by eexists.
  - intros [a|b] ?? k H Hk; cbn; destruct (Seek_ok _ _ _ k H Hk) as (x & -> & H'); rewrite bind_Ok; by eexists.
  - intros [a|b] ?? H; cbn; destruct (Next_ok _ _ _ H) as (x & -> & H'); rewrite bind_Ok; by eexists.
  - intros [a|b] ?? H; cbn; destruct (Prev_ok _ _ _ H) as (x & -> & H'); rewrite bind_Ok; by eexists.
Defined.

(** ** The wrapper keeps the promise *)
Section wrapper_ok.
Context {I : Type} {HI : Iterator I} {C : Comparator} {HC : ComparatorOk C} {HO : IteratorOk I C}.
Implicit Types (w : IteratorWrapper I) (es : list entry) (p : option entry).

Definition w_at w es p : Prop :=
  exists it, iter_ w = Some it /\ stands_at it es p /\ valid_ w = bool_decide (is_Some p) /\ forall e, p = Some e -> key_ w = e.1.

Lemma Update_ok w it es p : stands_at it es p -> exists w', Update w it = Ok w' /\ w_at w' es p.
Proof.
  intros H. unfold Update. rewrite (stands_Valid _ _ _ H). destruct p as [e|].
  - rewrite bool_decide_true by done. rewrite (stands_key _ _ _ H), bind_Ok. eexists. split; [done|].
    exists it. split_and!; [done..|]. by intros ? [= <-].
  - rewrite bool_decide_false by (by intros []). eexists. split; [done|]. exists it. split_and!; [done..|]. done.
Qed.

Lemma newWrapper_ok it es p : stands_at it es p -> exists w', newWrapper (Some it) = Ok w' /\ w_at w' es p.
Proof. apply Update_ok. Qed.

Lemma w_iter_at w es p : w_at w es p -> exists it, w_iter w = Ok it /\ stands_at it es p.
Proof. intros (it & E & H & _). exists it. unfold w_iter. by rewrite E. Qed.

Lemma w_ordered w es p : w_at w es p -> ordered es.
Proof. intros (it & _ & H & _). by eapply stands_ordered. Qed.

Lemma w_Valid_ok w es p : w_at w es p -> w_Valid w = bool_decide (is_Some p).
Proof. by intros (it & _ & _ & E & _). Qed.

Lemma w_in w es e : w_at w es (Some e) -> e ∈ es.
Proof. intros (it & _ & H & _). by eapply stands_in. Qed.

Lemma w_key_ok w es e : w_at w es (Some e) -> w_key w = Ok e.1.
Proof.
  intros (it & _ & _ & E & Hk). unfold w_key, w_Valid. rewrite E, bool_decide_true by done. cbn [c_assert]. by rewrite bind_Ok, (Hk e).
Qed.

Lemma w_value_ok w es e : w_at w es (Some e) -> w_value w = Ok e.2.
Proof.
  intros (it & E & H & Ev & _). unfold w_value, w_Valid. rewrite Ev, bool_decide_true by done. cbn [c_assert].
  rewrite bind_Ok, E. by eapply stands_value.
Qed.

Lemma w_status_ok w es p : w_at w es p -> w_status w = Ok OK.
Proof. intros (it & E & H)%w_iter_at. unfold w_status. by rewrite E, bind_Ok, (stands_status _ _ _ H). Qed.

Lemma w_SeekToFirst_ok w es p : w_at w es p -> exists w', w_SeekToFirst w = Ok w' /\ w_at w' es (head es).
Proof. intros (it & E & H)%w_iter_at. unfold w_SeekToFirst. destruct (SeekToFirst_ok _ _ _ H) as (it' & E' & H'). rewrite E, bind_Ok, E', bind_Ok. by apply Update_ok. Qed.

Lemma w_SeekToLast_ok w es p : w_at w es p -> exists w', w_SeekToLast w = Ok w' /\ w_at w' es (last es).
Proof. intros (it & E & H)%w_iter_at. unfold w_SeekToLast. destruct (SeekToLast_ok _ _ _ H) as (it' & E' & H'). rewrite E, bind_Ok, E', bind_Ok. by apply Update_ok. Qed.

Lemma w_Seek_ok w es p k : w_at w es p -> key_ok k -> exists w', w_Seek k w = Ok w' /\ w_at w' es (from k es).
Proof. intros (it & E & H)%w_iter_at Hk. unfold w_Seek. destruct (Seek_ok _ _ _ k H Hk) as (it' & E' & H'). rewrite E, bind_Ok, E', bind_Ok. by apply Update_ok. Qed.

Lemma w_Next_ok w es e : w_at w es (Some e) -> exists w', w_Next w = Ok w' /\ w_at w' es (after e.1 es).
Proof. intros (it & E & H)%w_iter_at. unfold w_Next. destruct (Next_ok _ _ _ H) as (it' & E' & H'). rewrite E, bind_Ok, E', bind_Ok. by apply Update_ok. Qed.

Lemma w_Prev_ok w es e : w_at w es (Some e) -> exists w', w_Prev w = Ok w' /\ w_at w' es (before e.1 es).
Proof. intros (it & E & H)%w_iter_at. unfold w_Prev. destruct (Prev_ok _ _ _ H) as (it' & E' & H'). rewrite E, bind_Ok, E', bind_Ok. by apply Update_ok. Qed.

End wrapper_ok.

End Iter.
