(* ===== verification/LdbMerger.v ===== *)
(** leveldb, table/merger.cc: one iterator over the entries of several.

    [MergingIterator] is verified against the interface of its children and implements the same
    interface: it iterates over the sorted union of their entries. *)
From stdpp Require Import sorting sets.
From S2P Require Import Prelude LdbCoding LdbKeys LdbIter.

Module Merger.
Import Coding Keys Iter.

Inductive Direction := kForward | kReverse.

#[export] Instance Direction_eq_dec : EqDecision Direction.
Proof. solve_decision. Defined.

Section merger.
Context {I : Type} `{!Iterator I} {comparator_ : Comparator}.

(** [current_], a pointer into the array, is the index it points at. *)
Record MergingIterator := mkMerging {
  children_ : list (IteratorWrapper I);
  current_ : option nat;
  direction_ : Direction
}.

Definition child (m : MergingIterator) (i : nat) : outcome (IteratorWrapper I) := of_option (children_ m !! i).

Definition set_child (m : MergingIterator) (i : nat) (w : IteratorWrapper I) : MergingIterator :=
  mkMerging (<[i := w]> (children_ m)) (current_ m) (direction_ m).

Fixpoint new_children (its : list I) : outcome (list (IteratorWrapper I)) :=
  match its with
  | [] => Ok []
  | it :: its => w ← newWrapper (Some it); ws ← new_children its; Ok (w :: ws)
  end.

Definition newMergingIterator (its : list I) : outcome MergingIterator :=
  ws ← new_children its; Ok (mkMerging ws None kForward).

Definition m_Valid (m : MergingIterator) : bool := match current_ m with Some _ => true | None => false end.

(** [current_], after [assert(Valid())]. *)
Definition m_current (m : MergingIterator) : outcome (nat * IteratorWrapper I) :=
  match current_ m with Some c => w ← child m c; Ok (c, w) | None => AssertFail end.

Definition m_key (m : MergingIterator) : outcome (list Z) := '(_, w) ← m_current m; w_key w.
Definition m_value (m : MergingIterator) : outcome (list Z) := '(_, w) ← m_current m; w_value w.

(** The loop of [status]. *)
Fixpoint status_loop (ws : list (IteratorWrapper I)) (status : Status) : outcome Status :=
  match ws with
  | [] => Ok status
  | w :: ws => s ← w_status w; if negb (status_ok s) then Ok s else status_loop ws s
  end.

(** Loops over the children, all of them or all but the current one. *)
Fixpoint each (f : IteratorWrapper I -> outcome (IteratorWrapper I)) (ws : list (IteratorWrapper I)) : outcome (list (IteratorWrapper I)) :=
  match ws with
  | [] => Ok []
  | w :: ws => w ← f w; ws ← each f ws; Ok (w :: ws)
  end.

Fixpoint each_other (f : IteratorWrapper I -> outcome (IteratorWrapper I)) (cur i : nat) (ws : list (IteratorWrapper I)) : outcome (list (IteratorWrapper I)) :=
  match ws with
  | [] => Ok []
  | w :: ws => w ← (if decide (i = cur) then Ok w else f w); ws ← each_other f cur (S i) ws; Ok (w :: ws)
  end.

Fixpoint find_smallest (children ws : list (IteratorWrapper I)) (i : nat) (smallest : option nat) : outcome (option nat) :=
  match ws with
  | [] => Ok smallest
  | w :: ws =>
      smallest ←
        (if w_Valid w then
           match smallest with
           | None => Ok (Some i)
           | Some s =>
               k ← w_key w; sw ← of_option (children !! s); sk ← w_key sw; c ← Compare k sk;
               Ok (if c <? 0 then Some i else smallest)
           end
         else Ok smallest);
      find_smallest children ws (S i) smallest
  end.

Definition FindSmallest (m : MergingIterator) : outcome MergingIterator :=
  smallest ← find_smallest (children_ m) (children_ m) 0 None;
  Ok (mkMerging (children_ m) smallest (direction_ m)).

(** The loop runs from [n - 1] down to [0]. *)
Fixpoint find_largest (children : list (IteratorWrapper I)) (n : nat) (largest : option nat) : outcome (option nat) :=
  match n with
  | O => Ok largest
  | S i =>
      w ← of_option (children !! i);
      largest ←
        (if w_Valid w then
           match largest with
           | None => Ok (Some i)
           | Some l =>
               k ← w_key w; lw ← of_option (children !! l); lk ← w_key lw; c ← Compare k lk;
               Ok (if 0 <? c then Some i else largest)
           end
         else Ok largest);
      find_largest children i largest
  end.

Definition FindLargest (m : MergingIterator) : outcome MergingIterator :=
  largest ← find_largest (children_ m) (length (children_ m)) None;
  Ok (mkMerging (children_ m) largest (direction_ m)).

Definition m_SeekToFirst (m : MergingIterator) : outcome MergingIterator :=
  ws ← each w_SeekToFirst (children_ m);
  m ← FindSmallest (mkMerging ws (current_ m) (direction_ m));
  Ok (mkMerging (children_ m) (current_ m) kForward).

Definition m_SeekToLast (m : MergingIterator) : outcome MergingIterator :=
  ws ← each w_SeekToLast (children_ m);
  m ← FindLargest (mkMerging ws (current_ m) (direction_ m));
  Ok (mkMerging (children_ m) (current_ m) kReverse).

Definition m_Seek (m : MergingIterator) (target : list Z) : outcome MergingIterator :=
  ws ← each (w_Seek target) (children_ m);
  m ← FindSmallest (mkMerging ws (current_ m) (direction_ m));
  Ok (mkMerging (children_ m) (current_ m) kForward).

(** The bodies of the loops that change the direction. *)
Definition turn_forward (m : MergingIterator) (w : IteratorWrapper I) : outcome (IteratorWrapper I) :=
  k ← m_key m; w ← w_Seek k w;
  if w_Valid w then
    k ← m_key m; k' ← w_key w; c ← Compare k k';
    if c =? 0 then w_Next w else Ok w
  else Ok w.

Definition turn_reverse (m : MergingIterator) (w : IteratorWrapper I) : outcome (IteratorWrapper I) :=
  k ← m_key m; w ← w_Seek k w;
  if w_Valid w then w_Prev w else w_SeekToLast w.

Definition m_Next (m : MergingIterator) : outcome MergingIterator :=
  '(cur, _) ← m_current m;
  m ← (if decide (direction_ m = kForward) then Ok m
       else ws ← each_other (turn_forward m) cur 0 (children_ m); Ok (mkMerging ws (current_ m) kForward));
  w ← child m cur; w ← w_Next w;
  FindSmallest (set_child m cur w).

Definition m_Prev (m : MergingIterator) : outcome MergingIterator :=
  '(cur, _) ← m_current m;
  m ← (if decide (direction_ m = kReverse) then Ok m
       else ws ← each_other (turn_reverse m) cur 0 (children_ m); Ok (mkMerging ws (current_ m) kReverse));
  w ← child m cur; w ← w_Prev w;
  FindLargest (set_child m cur w).

(** A child is there for [status] after construction: it does not fail. *)
Definition m_status (m : MergingIterator) : Status :=
  match status_loop (children_ m) OK with Ok s => s | _ => OK end.

#[export] Instance merging_iterator : Iterator MergingIterator := {|
  it_Valid := m_Valid;
  it_SeekToFirst := m_SeekToFirst;
  it_SeekToLast := m_SeekToLast;
  it_Seek := m_Seek;
  it_Next := m_Next;
  it_Prev := m_Prev;
  it_key := m_key;
  it_value := m_value;
  it_status := m_status
|}.

(** With no or one child, there is nothing to merge. *)
Definition NewMergingIterator (its : list I) : outcome (EmptyIterator + (I + MergingIterator)) :=
  match its with
  | [] => Ok (inl NewEmptyIterator)
  | [it] => Ok (inr (inl it))
  | _ => m ← newMergingIterator its; Ok (inr (inr m))
  end.

End merger.
Arguments MergingIterator : clear implicits.

(** * Refinement *)
Section merger_ok.
Context {I : Type} {HI : Iterator I} {C : Comparator} {HC : ComparatorOk C} {HO : IteratorOk I C}.
Implicit Types (w : IteratorWrapper I) (es M : list entry) (e : entry) (m : MergingIterator I).

(** What a child iterates over, and where it stands. *)
Abbreviation view := (list entry * option entry)%type.
Implicit Types (x : view) (xs : list view).

Definition viewed (ws : list (IteratorWrapper I)) xs : Prop := Forall2 (fun w x => w_at w x.1 x.2) ws xs.

(** [M] is the sorted union of the children's entries. *)
Definition merges M xs : Prop := ordered M /\ M ≡ₚ concat xs.*1.

Lemma elem_of_concat {A} (ls : list (list A)) y : y ∈ concat ls <-> exists l, l ∈ ls /\ y ∈ l.
Proof.
  rewrite list_elem_of_In, in_concat. split; intros (l & H1 & H2); exists l; by rewrite !list_elem_of_In in *.
Qed.

Lemma merges_elem M xs i x : merges M xs -> xs !! i = Some x -> forall e, e ∈ x.1 -> e ∈ M.
Proof.
  intros [_ HM] Hx e He. rewrite HM. apply elem_of_concat. exists x.1. split; [|done].
  apply list_elem_of_fmap. exists x. split; [done|by eapply list_elem_of_lookup_2].
Qed.

Lemma NoDup_concat_lookup {A} (ls : list (list A)) i j a b y : NoDup (concat ls) ->
  ls !! i = Some a -> ls !! j = Some b -> y ∈ a -> y ∈ b -> i = j.
Proof.
  revert i j; induction ls as [|l ls IH]; intros i j Hnd Hi Hj Ha Hb; [done|]. cbn in Hnd. apply NoDup_app in Hnd as (H1 & H2 & H3).
  assert (forall k c, ls !! k = Some c -> y ∈ c -> y ∈ concat ls) as Hin.
  { intros k c Hk Hc. apply elem_of_concat. exists c. split; [by eapply list_elem_of_lookup_2|done]. }
  destruct i as [|i], j as [|j]; cbn in Hi, Hj; simplify_eq; [done| | |f_equal; by eapply IH]; exfalso; eapply H2; eauto.
Qed.

Lemma ordered_NoDup M : ordered M -> NoDup M.
Proof.
  intros Ho; induction M as [|e M IH]; [constructor|]. apply ordered_cons in Ho as (Ke & Ho & Hlt). constructor; [|by apply IH].
  intros He. by apply (key_lt_irrefl e.1), (Hlt e He).
Qed.

(** An entry belongs to one child. *)
Lemma merges_unique M xs i j x y e : merges M xs -> xs !! i = Some x -> xs !! j = Some y -> e ∈ x.1 -> e ∈ y.1 -> i = j.
Proof.
  intros [Ho HM] Hi Hj. pose proof (ordered_NoDup M Ho) as Hnd. rewrite HM in Hnd.
  apply (NoDup_concat_lookup xs.*1 i j x.1 y.1 e Hnd); [by rewrite list_lookup_fmap, Hi|by rewrite list_lookup_fmap, Hj].
Qed.

Lemma merges_child M xs e : merges M xs -> e ∈ M -> exists i x, xs !! i = Some x /\ e ∈ x.1.
Proof.
  intros [_ HM] He. rewrite HM in He. apply elem_of_concat in He as (es & (x & -> & Hx)%list_elem_of_fmap & He).
  apply list_elem_of_lookup in Hx as [i Hi]. eauto.
Qed.

Lemma viewed_lookup ws xs i x : viewed ws xs -> xs !! i = Some x -> exists w, ws !! i = Some w /\ w_at w x.1 x.2.
Proof. intros H Hi. destruct (Forall2_lookup_r _ _ _ _ _ H Hi) as (w & Hw & Hat). eauto. Qed.

Lemma viewed_lookup_l ws xs i w : viewed ws xs -> ws !! i = Some w -> exists x, xs !! i = Some x /\ w_at w x.1 x.2.
Proof. intros H Hi. destruct (Forall2_lookup_l _ _ _ _ _ H Hi) as (x & Hx & Hat). eauto. Qed.

(** ** The smallest and the largest child *)

(** The best of the entries at which the children of [dom] stand, in the sense of [lt]. *)
Definition best (lt : entry -> entry -> Prop) xs (dom : nat -> Prop) (r : option nat) : Prop :=
  match r with
  | None => forall i x, dom i -> xs !! i = Some x -> x.2 = None
  | Some s => exists es e, xs !! s = Some (es, Some e) /\ forall i es' e', dom i -> xs !! i = Some (es', Some e') -> ~ lt e' e
  end.

Definition standing_ok xs : Prop := forall i es e, xs !! i = Some (es, Some e) -> key_ok e.1.

Lemma viewed_ok ws xs : viewed ws xs -> standing_ok xs.
Proof.
  intros H i es e Hi. destruct (viewed_lookup _ _ _ _ H Hi) as (w & _ & A). cbn in A.
  apply (ordered_key _ _ (w_ordered _ _ _ A)), (w_in _ _ _ A).
Qed.

(** Strict orders on keys. *)
Definition strict (lt : entry -> entry -> Prop) : Prop :=
  (forall a, key_ok a.1 -> ~ lt a a) /\ (forall a b c, key_ok a.1 -> key_ok b.1 -> key_ok c.1 -> lt a b -> lt b c -> lt a c).

Lemma strict_lt : strict entry_lt.
Proof. split; [intros a; apply key_lt_irrefl|]. intros a b c. apply key_lt_trans. Qed.

Lemma strict_gt : strict (flip entry_lt).
Proof. split; [intros a; apply key_lt_irrefl|]. intros a b c Ha Hb Hc H1 H2. by apply (key_lt_trans c.1 b.1 a.1). Qed.

(** One turn of either loop. *)
Lemma best_step lt xs (dom dom' : nat -> Prop) s n es p s' : strict lt -> standing_ok xs -> best lt xs dom s -> xs !! n = Some (es, p) ->
  (forall i, dom' i -> dom i \/ i = n) ->
  match p with
  | None => s' = s
  | Some e =>
      match s with
      | None => s' = Some n
      | Some s0 => forall es0 e0, xs !! s0 = Some (es0, Some e0) -> (lt e e0 /\ s' = Some n) \/ (~ lt e e0 /\ s' = s)
      end
  end -> best lt xs dom' s'.
Proof.
  intros [Hirr Htr] Hok Hs Hn Hdom Hp. destruct p as [e|]; [destruct s as [s0|]|].
  - destruct Hs as (es0 & e0 & Hs0 & Hmin). destruct (Hp _ _ Hs0) as [[Hlt ->]|[Hge ->]].
    + exists es, e. split; [done|]. intros i es' e' [Hi| ->]%Hdom Hx Hlt'; [|simplify_eq; eapply Hirr; [by eapply Hok|done]].
      apply (Hmin _ _ _ Hi Hx). eapply Htr; [..|exact Hlt'|exact Hlt]; by eapply Hok.
    + exists es0, e0. split; [done|]. intros i es' e' [Hi| ->]%Hdom Hx; [by eapply Hmin|by simplify_eq].
  - subst s'. exists es, e. split; [done|]. intros i es' e' [Hi| ->]%Hdom Hx; [by specialize (Hs i _ Hi Hx)|].
    simplify_eq. apply Hirr. by eapply Hok.
  - subst s'. destruct s as [s0|].
    + destruct Hs as (es0 & e0 & Hs0 & Hmin). exists es0, e0. split; [done|]. intros i es' e' [Hi| ->]%Hdom Hx; [by eapply Hmin|by simplify_eq].
    + intros i x [Hi| ->]%Hdom Hx; [by eapply Hs|by simplify_eq].
Qed.

Lemma compare_children ws xs i j es1 e1 es2 e2 : viewed ws xs -> xs !! i = Some (es1, Some e1) -> xs !! j = Some (es2, Some e2) ->
  exists w1 w2, ws !! i = Some w1 /\ ws !! j = Some w2 /\ w_key w1 = Ok e1.1 /\ w_key w2 = Ok e2.1 /\
    Compare e1.1 e2.1 = Ok (cmp e1.1 e2.1).
Proof.
  intros H Hi Hj. destruct (viewed_lookup _ _ _ _ H Hi) as (w1 & W1 & A1). destruct (viewed_lookup _ _ _ _ H Hj) as (w2 & W2 & A2).
  pose proof (viewed_ok _ _ H) as Hok. exists w1, w2.
  rewrite (w_key_ok _ _ _ A1), (w_key_ok _ _ _ A2), Compare_ok; [done|by eapply Hok..].
Qed.

Lemma find_smallest_ok ws xs n s : viewed ws xs -> (n <= length xs)%nat -> best entry_lt xs (fun i => i < n)%nat s ->
  exists r, find_smallest (comparator_ := C) ws (drop n ws) n s = Ok r /\ best entry_lt xs (fun i => i < length xs)%nat r.
Proof.
  intros Hv Hn Hs. remember (length xs - n)%nat as d eqn:Hd. revert n s Hn Hs Hd; induction d as [|d IH]; intros n s Hn Hs Hd.
  { rewrite drop_ge by (rewrite (Forall2_length _ _ _ Hv); lia). exists s. split; [done|]. by replace (length xs) with n by lia. }
  destruct (lookup_lt_is_Some_2 xs n ltac:(lia)) as [[es p] Hx]. destruct (viewed_lookup _ _ _ _ Hv Hx) as (w & Hw & Hat). cbn in Hat.
  rewrite (drop_S _ _ _ Hw). cbn [find_smallest]. rewrite (w_Valid_ok _ _ _ Hat).
  pose proof (best_step entry_lt xs (fun i => i < n)%nat (fun i => i < S n)%nat s n es p) as Hstep.
  specialize (fun s' => Hstep s' strict_lt (viewed_ok _ _ Hv) Hs Hx ltac:(cbn; intros i Hi; lia)).
  destruct p as [e|]; [rewrite bool_decide_true by done; destruct s as [s|]|rewrite bool_decide_false by (by intros [])].
  - destruct Hs as (es0 & e0 & Hs & _). destruct (compare_children _ _ _ _ _ _ _ _ Hv Hx Hs) as (w1 & w2 & W1 & W2 & K1 & K2 & Ec).
    replace w1 with w in * by congruence. rewrite K1, bind_Ok, W2. cbn [of_option]. rewrite bind_Ok, K2, bind_Ok, Ec, !bind_Ok.
    apply IH; [lia| |lia]. apply Hstep. intros es1 e1 Hs1. rewrite Hs in Hs1. injection Hs1 as <- <-.
    unfold entry_lt, key_lt. destruct (Z.ltb_spec (cmp e.1 e0.1) 0); [by left|right; split; [lia|done]].
  - rewrite bind_Ok. apply IH; [lia| |lia]. by apply Hstep.
  - rewrite bind_Ok. apply IH; [lia| |lia]. by apply Hstep.
Qed.

Lemma find_largest_ok ws xs n s : viewed ws xs -> (n <= length xs)%nat -> best (flip entry_lt) xs (fun i => n <= i)%nat s ->
  exists r, find_largest (comparator_ := C) ws n s = Ok r /\ best (flip entry_lt) xs (fun i => 0 <= i)%nat r.
Proof.
  intros Hv. revert s; induction n as [|n IH]; intros s Hn Hs; cbn [find_largest]; [by exists s|].
  destruct (lookup_lt_is_Some_2 xs n ltac:(lia)) as [[es p] Hx]. destruct (viewed_lookup _ _ _ _ Hv Hx) as (w & Hw & Hat). cbn in Hat.
  rewrite Hw. cbn [of_option]. rewrite bind_Ok, (w_Valid_ok _ _ _ Hat).
  pose proof (best_step (flip entry_lt) xs (fun i => S n <= i)%nat (fun i => n <= i)%nat s n es p) as Hstep.
  specialize (fun s' => Hstep s' strict_gt (viewed_ok _ _ Hv) Hs Hx ltac:(cbn; intros i Hi; lia)).
  destruct p as [e|]; [rewrite bool_decide_true by done; destruct s as [s|]|rewrite bool_decide_false by (by intros [])].
  - destruct Hs as (es0 & e0 & Hs & _). destruct (compare_children _ _ _ _ _ _ _ _ Hv Hx Hs) as (w1 & w2 & W1 & W2 & K1 & K2 & Ec).
    replace w1 with w in * by congruence. rewrite K1, bind_Ok, W2. cbn [of_option]. rewrite bind_Ok, K2, bind_Ok, Ec, !bind_Ok.
    apply IH; [lia|]. apply Hstep. intros es1 e1 Hs1. rewrite Hs in Hs1. injection Hs1 as <- <-.
    pose proof (viewed_ok _ _ Hv _ _ _ Hx) as Ke. pose proof (viewed_ok _ _ Hv _ _ _ Hs) as Ke0.
    unfold flip, entry_lt, key_lt. rewrite (cmp_flip e0.1 e.1) by done. destruct (Z.ltb_spec 0 (cmp e.1 e0.1)); [left|right]; (split; [lia|done]).
  - rewrite bind_Ok. apply IH; [lia|]. by apply Hstep.
  - rewrite bind_Ok. apply IH; [lia|]. by apply Hstep.
Qed.

(** ** The state of the merged iterator *)

(** The order in a direction, and the first entry with a property in it. *)
Definition dlt (d : Direction) (a b : entry) : Prop := match d with kForward => entry_lt a b | kReverse => entry_lt b a end.

Definition such (d : Direction) (P : entry -> Prop) {HP : forall e, Decision (P e)} es : option entry :=
  match d with kForward => first_such P es | kReverse => last_such P es end.

Definition beyond (d : Direction) (k : list Z) (e : entry) : Prop := match d with kForward => key_lt k e.1 | kReverse => key_lt e.1 k end.

#[export] Instance beyond_dec d k e : Decision (beyond d k e).
Proof. unfold beyond. destruct d; apply _. Defined.

Lemma after_such k es : such kForward (beyond kForward k) es = after k es.
Proof. unfold such, after, first_such. done. Qed.

Lemma before_such k es : such kReverse (beyond kReverse k) es = before k es.
Proof. unfold such, before, last_such. done. Qed.

Definition merging_at m M (p : option entry) : Prop :=
  exists xs, viewed (children_ m) xs /\ merges M xs /\
    match p with
    | None => current_ m = None
    | Some e => exists c es, current_ m = Some c /\ xs !! c = Some (es, Some e) /\
        forall i x, i <> c -> xs !! i = Some x -> x.2 = such (direction_ m) (beyond (direction_ m) e.1) x.1
    end.

Lemma strict_dlt d : strict (dlt d).
Proof. destruct d; [apply strict_lt|apply strict_gt]. Qed.

Lemma dlt_cases d a b : key_ok a.1 -> key_ok b.1 -> ~ dlt d a b -> a.1 = b.1 \/ dlt d b a.
Proof. intros Ha Hb. destruct d; cbn; unfold entry_lt; rewrite not_key_lt by done; intros [|]; auto. Qed.

Section such_ok.
Context (d : Direction) (P : entry -> Prop) {HP : forall e, Decision (P e)}.

Lemma such_Some es e : ordered es -> such d P es = Some e <-> e ∈ es /\ P e /\ forall e', e' ∈ es -> P e' -> e' = e \/ dlt d e e'.
Proof. destruct d; cbn; [apply first_such_Some|apply last_such_Some]. Qed.

Lemma such_None es : such d P es = None <-> forall e, e ∈ es -> ~ P e.
Proof. destruct d; cbn; [apply first_such_None|apply last_such_None]. Qed.

Lemma such_ext (Q : entry -> Prop) {HQ : forall e, Decision (Q e)} es : (forall e, e ∈ es -> P e <-> Q e) -> such d P es = such d Q es.
Proof.
  intros H. assert (filter P es = filter Q es) as E.
  { induction es as [|e es IH]; [done|]. rewrite !filter_cons, IH by set_solver.
    assert (P e <-> Q e) as He by set_solver. destruct (decide (P e)), (decide (Q e)); tauto. }
  destruct d; cbn; unfold first_such, last_such; by rewrite E.
Qed.

Context (closed : forall a b, key_ok a.1 -> key_ok b.1 -> P a -> dlt d a b -> P b).

Lemma viewed_ordered ws xs i x : viewed ws xs -> xs !! i = Some x -> ordered x.1.
Proof. intros Hv Hi. destruct (viewed_lookup _ _ _ _ Hv Hi) as (w & _ & A). by eapply w_ordered. Qed.

(** The best of the children's first entries is the first of all. *)
Lemma best_first ws xs M c es e : viewed ws xs -> merges M xs -> (forall i x, xs !! i = Some x -> x.2 = such d P x.1) ->
  xs !! c = Some (es, Some e) -> (forall i es' e', (i < length xs)%nat -> xs !! i = Some (es', Some e') -> ~ dlt d e' e) ->
  such d P M = Some e.
Proof.
  intros Hv HM Hx Hc Hmin. pose proof (proj1 HM) as Ho. pose proof (Hx _ _ Hc) as He. symmetry in He.
  apply such_Some in He as (Hin & HPe & _); [|by eapply (viewed_ordered ws xs c (es, Some e))].
  assert (e ∈ M) as HeM by by eapply (merges_elem M xs c (es, Some e)). apply such_Some; [done|]. split_and!; [done..|].
  intros e' He' HP'. destruct (merges_child _ _ _ HM He') as (i & x & Hi & Hei). pose proof (Hx _ _ Hi) as Ex.
  pose proof (viewed_ordered _ _ _ _ Hv Hi) as Hox. destruct (such d P x.1) as [f|] eqn:Ef; [|by apply (proj1 (such_None x.1) Ef) in HP'].
  apply such_Some in Ef as (Hf & HPf & Hff); [|done].
  assert (~ dlt d f e) as Hnlt. { apply (Hmin i x.1); [by apply lookup_lt_Some in Hi|]. by destruct x; cbn in *; subst. }
  pose proof (ordered_key _ _ Ho HeM) as Ke. pose proof (ordered_key _ _ Hox Hf) as Kf. pose proof (ordered_key _ _ Ho He') as Ke'.
  assert (f ∈ M) as HfM by by eapply merges_elem.
  assert (f = e \/ dlt d e f) as [->|Hlt]; [|by apply Hff|].
  { destruct (dlt_cases d f e Kf Ke Hnlt) as [E|]; [left; by apply (ordered_inj M)|by right]. }
  right. destruct (Hff e' Hei HP') as [->|Hlt']; [done|]. by apply (proj2 (strict_dlt d) e f e').
Qed.

Lemma best_at ws xs M r : viewed ws xs -> merges M xs -> (forall i x, xs !! i = Some x -> x.2 = such d P x.1) ->
  best (dlt d) xs (fun i => i < length xs)%nat r -> merging_at (mkMerging ws r d) M (such d P M).
Proof.
  intros Hv HM Hx Hr. exists xs. split_and!; [done..|]. cbn. pose proof (proj1 HM) as Ho. destruct r as [c|]; cbn in Hr.
  - destruct Hr as (es & e & Hc & Hmin). rewrite (best_first ws xs M c es e) by done.
    pose proof (best_first ws xs M c es e Hv HM Hx Hc Hmin) as He. apply such_Some in He as (HeM & HPe & Hfirst); [|done].
    exists c, es. split_and!; [done..|]. intros i x Hne Hi. rewrite (Hx _ _ Hi). apply such_ext. intros e' He'.
    assert (e' ∈ M) as HM' by by eapply merges_elem. split.
    + intros HP'. destruct (Hfirst e' HM' HP') as [->|]; [|by destruct d]. destruct Hne.
      eapply (merges_unique M xs i c x (es, Some e)); [done..|]. destruct (viewed_lookup _ _ _ _ Hv Hc) as (w & _ & A). by eapply w_in.
    + intros Hlt. apply (closed e e'); [by apply (ordered_key M)..|done|by destruct d].
  - assert (such d P M = None) as ->; [|done]. apply such_None. intros e He HPe.
    destruct (merges_child _ _ _ HM He) as (i & x & Hi & Hei). pose proof (Hr i x (lookup_lt_Some _ _ _ Hi) Hi) as Ex.
    rewrite (Hx _ _ Hi) in Ex. by apply (proj1 (such_None x.1) Ex e).
Qed.

End such_ok.

Lemma FindSmallest_ok (P : entry -> Prop) {HP : forall e, Decision (P e)} ws cur d xs M :
  viewed ws xs -> merges M xs -> (forall a b, key_ok a.1 -> key_ok b.1 -> P a -> entry_lt a b -> P b) ->
  (forall i x, xs !! i = Some x -> x.2 = first_such P x.1) ->
  exists c, FindSmallest (comparator_ := C) (mkMerging ws cur d) = Ok (mkMerging ws c d) /\ merging_at (mkMerging ws c kForward) M (first_such P M).
Proof.
  intros Hv HM Hup Hx. destruct (find_smallest_ok ws xs 0 None Hv) as (r & E & Hr); [lia|by intros i x Hi; apply Nat.nlt_0_r in Hi|].
  rewrite drop_0 in E. exists r. unfold FindSmallest. cbn. rewrite E, bind_Ok. split; [done|]. by apply (best_at kForward P Hup ws xs).
Qed.

Lemma FindLargest_ok (P : entry -> Prop) {HP : forall e, Decision (P e)} ws cur d xs M :
  viewed ws xs -> merges M xs -> (forall a b, key_ok a.1 -> key_ok b.1 -> P a -> entry_lt b a -> P b) ->
  (forall i x, xs !! i = Some x -> x.2 = last_such P x.1) ->
  exists c, FindLargest (comparator_ := C) (mkMerging ws cur d) = Ok (mkMerging ws c d) /\ merging_at (mkMerging ws c kReverse) M (last_such P M).
Proof.
  intros Hv HM Hup Hx. pose proof (Forall2_length _ _ _ Hv) as Hl.
  destruct (find_largest_ok ws xs (length xs) None Hv) as (r & E & Hr); [lia|by intros i x Hi; rewrite lookup_ge_None_2|].
  exists r. unfold FindLargest. cbn. rewrite Hl, E, bind_Ok. split; [done|]. apply (best_at kReverse P Hup ws xs); [done..|].
  destruct r as [c|]; cbn in *; [|intros i x _; apply Hr; lia].
  destruct Hr as (es & e & Hc & Hmin). exists es, e. split; [done|]. intros i es' e' _. apply Hmin. lia.
Qed.

(** ** Loops over the children *)
Lemma merges_fst M xs xs' : merges M xs -> xs'.*1 = xs.*1 -> merges M xs'.
Proof. unfold merges. by intros [? ?] ->. Qed.

Lemma each_ok f (g : list entry -> option entry) ws xs : viewed ws xs ->
  (forall w es p, w_at w es p -> exists w', f w = Ok w' /\ w_at w' es (g es)) ->
  exists ws', each f ws = Ok ws' /\ viewed ws' (map (fun x => (x.1, g x.1)) xs).
Proof.
  intros Hv Hf; induction Hv as [|w x ws xs Hw Hv IH]; [exists []; split; [done|constructor]|]. cbn [each map].
  destruct (Hf _ _ _ Hw) as (w' & -> & Hw'). destruct IH as (ws' & -> & Hv'). rewrite !bind_Ok. eexists. split; [done|]. by constructor.
Qed.

Lemma each_other_ok f (g : list entry -> option entry) c i ws xs : viewed ws xs ->
  (forall w es p, w_at w es p -> exists w', f w = Ok w' /\ w_at w' es (g es)) ->
  exists ws', each_other f c i ws = Ok ws' /\ viewed ws' (imap (fun j x => if decide ((i + j)%nat = c) then x else (x.1, g x.1)) xs).
Proof.
  intros Hv Hf; revert i; induction Hv as [|w x ws xs Hw Hv IH]; intros i; [exists []; split; [done|constructor]|]. cbn [each_other imap].
  destruct (IH (S i)) as (ws' & E & Hv'). rewrite Nat.add_0_r.
  assert (exists w', (if decide (i = c) then Ok w else f w) = Ok w' /\ let y := if decide (i = c) then x else (x.1, g x.1) in w_at w' y.1 y.2)
    as (w' & -> & Hw') by (case_decide; [by exists w|by apply (Hf w x.1 x.2)]).
  rewrite bind_Ok, E, bind_Ok. eexists. split; [done|]. constructor; [done|].
  erewrite imap_ext; [exact Hv'|]. intros j y _. cbn. by rewrite Nat.add_succ_r.
Qed.

Lemma map_fst xs (g : list entry -> option entry) : (map (fun x => (x.1, g x.1)) xs).*1 = xs.*1.
Proof. induction xs as [|x xs IH]; [done|]. cbn. by rewrite IH. Qed.

Lemma map_lookup_view xs (g : list entry -> option entry) i x : map (fun x => (x.1, g x.1)) xs !! i = Some x -> x.2 = g x.1.
Proof. change (map (fun x => (x.1, g x.1)) xs) with ((fun x : view => (x.1, g x.1)) <$> xs). rewrite list_lookup_fmap. by intros (y & _ & ->)%fmap_Some. Qed.

(** ** The operations *)
Lemma merging_start its ess : Forall2 (fun it es => exists p, stands_at it es p) its ess ->
  exists ws xs, new_children its = Ok ws /\ viewed ws xs /\ xs.*1 = ess.
Proof.
  induction 1 as [|it es its ess (p & Hit) _ (ws & xs & E & Hv & Ef)]; [exists [], []; split_and!; [done|constructor|done]|]. cbn [new_children].
  destruct (newWrapper_ok _ _ _ Hit) as (w & Ew & Hw). rewrite Ew, bind_Ok, E, bind_Ok.
  exists (w :: ws), ((es, p) :: xs). split_and!; [done|by constructor|cbn; by rewrite Ef].
Qed.

Lemma m_current_ok m M e : merging_at m M (Some e) ->
  exists c w es, current_ m = Some c /\ children_ m !! c = Some w /\ w_at w es (Some e) /\ m_current m = Ok (c, w).
Proof.
  intros (xs & Hv & _ & c & es & Ec & Hc & _). destruct (viewed_lookup _ _ _ _ Hv Hc) as (w & Hw & A). exists c, w, es.
  unfold m_current, child. rewrite Ec, Hw. cbn [of_option]. by rewrite bind_Ok.
Qed.

Lemma m_key_ok m M e : merging_at m M (Some e) -> m_key m = Ok e.1.
Proof. intros (c & w & es & _ & _ & A & E)%m_current_ok. unfold m_key. rewrite E, bind_Ok. by eapply w_key_ok. Qed.

Lemma m_value_ok m M e : merging_at m M (Some e) -> m_value m = Ok e.2.
Proof. intros (c & w & es & _ & _ & A & E)%m_current_ok. unfold m_value. rewrite E, bind_Ok. by eapply w_value_ok. Qed.

Lemma m_in m M e : merging_at m M (Some e) -> e ∈ M.
Proof.
  intros (xs & Hv & HM & c & es & Ec & Hc & _). destruct (viewed_lookup _ _ _ _ Hv Hc) as (w & Hw & A). cbn in A.
  eapply (merges_elem M xs c (es, Some e)); [done..|]. by eapply w_in.
Qed.

Lemma m_status_ok m M p : merging_at m M p -> m_status m = OK.
Proof.
  intros (xs & Hv & _). unfold m_status. assert (status_loop (children_ m) OK = Ok OK) as ->; [|done].
  induction Hv as [|w x ws xs Hw Hv IH]; [done|]. cbn. by rewrite (w_status_ok _ _ _ Hw), bind_Ok.
Qed.

Lemma first_all es : first_such (fun _ => True) es = head es.
Proof. destruct es; [done|]. unfold first_such. by rewrite filter_cons_True. Qed.

Lemma last_all es : last_such (fun _ => True) es = last es.
Proof.
  destruct es as [|e es _] using rev_ind; [done|]. rewrite last_snoc. apply last_such_split. by exists es, [].
Qed.

Lemma m_SeekToFirst_ok m M p : merging_at m M p -> exists m', m_SeekToFirst (comparator_ := C) m = Ok m' /\ merging_at m' M (head M).
Proof.
  intros (xs & Hv & HM & _). unfold m_SeekToFirst. destruct (each_ok w_SeekToFirst head _ _ Hv) as (ws & -> & Hv'); [intros; by eapply w_SeekToFirst_ok|].
  rewrite bind_Ok. destruct (FindSmallest_ok (fun _ => True) ws (current_ m) (direction_ m) _ M Hv') as (c & -> & Hat).
  - eapply merges_fst; [done|apply map_fst].
  - done.
  - intros i x Hi. by rewrite (map_lookup_view _ _ _ _ Hi), first_all.
  - rewrite bind_Ok. eexists. split; [done|]. by rewrite first_all in Hat.
Qed.

Lemma m_SeekToLast_ok m M p : merging_at m M p -> exists m', m_SeekToLast (comparator_ := C) m = Ok m' /\ merging_at m' M (last M).
Proof.
  intros (xs & Hv & HM & _). unfold m_SeekToLast. destruct (each_ok w_SeekToLast last _ _ Hv) as (ws & -> & Hv'); [intros; by eapply w_SeekToLast_ok|].
  rewrite bind_Ok. destruct (FindLargest_ok (fun _ => True) ws (current_ m) (direction_ m) _ M Hv') as (c & -> & Hat).
  - eapply merges_fst; [done|apply map_fst].
  - done.
  - intros i x Hi. by rewrite (map_lookup_view _ _ _ _ Hi), last_all.
  - rewrite bind_Ok. eexists. split; [done|]. by rewrite last_all in Hat.
Qed.

Lemma not_lt_upward k a b : key_ok k -> key_ok a.1 -> key_ok b.1 -> ~ key_lt a.1 k -> entry_lt a b -> ~ key_lt b.1 k.
Proof. intros Hk Ha Hb H Hab Hlt. apply H. by apply (key_lt_trans a.1 b.1 k). Qed.

Lemma m_Seek_ok m M p k : merging_at m M p -> key_ok k -> exists m', m_Seek (comparator_ := C) m k = Ok m' /\ merging_at m' M (from k M).
Proof.
  intros (xs & Hv & HM & _) Hk. unfold m_Seek. destruct (each_ok (w_Seek k) (from k) _ _ Hv) as (ws & -> & Hv'); [intros; by eapply w_Seek_ok|].
  rewrite bind_Ok. destruct (FindSmallest_ok (fun e => ~ key_lt e.1 k) ws (current_ m) (direction_ m) _ M Hv') as (c & -> & Hat).
  - eapply merges_fst; [done|apply map_fst].
  - intros a b Ha Hb. by apply not_lt_upward.
  - intros i x Hi. by rewrite (map_lookup_view _ _ _ _ Hi).
  - rewrite bind_Ok. by eexists.
Qed.

(** ** Changing the direction *)
Lemma from_after k es : ordered es -> key_ok k ->
  match from k es with Some e => if decide (e.1 = k) then after e.1 es = after k es else after k es = Some e | None => after k es = None end.
Proof.
  intros Ho Hk. destruct (from k es) as [e|] eqn:E; unfold from in E.
  - apply first_such_Some in E as (He & Hn & Hmin); [|done]. pose proof (ordered_key _ _ Ho He) as Ke. case_decide as Hd; [by subst|].
    apply not_key_lt in Hn as [?|Hlt]; [done| |done..]. apply first_such_Some; [done|]. split_and!; [done..|].
    intros e' He' Hlt'. apply Hmin; [done|]. apply key_lt_asym; [done|by apply (ordered_key es)|done].
  - apply first_such_None. intros e He Hlt. apply (proj1 (first_such_None _ es) E e He). apply key_lt_asym; [done|by apply (ordered_key es)|done].
Qed.

Lemma from_before k es : ordered es -> key_ok k ->
  match from k es with Some e => before e.1 es = before k es | None => last es = before k es end.
Proof.
  intros Ho Hk. destruct (from k es) as [e|] eqn:E; unfold from in E.
  - apply first_such_split in E as (es1 & es2 & -> & H1 & Hn). rewrite before_split by done. symmetry.
    pose proof Ho as Ho'. apply ordered_app in Ho as (_ & Ho & Hlt). apply ordered_cons in Ho as (Ke & _ & Hx).
    assert (Forall (fun y => ~ key_lt y.1 k) (e :: es2)) as H2.
    { constructor; [done|]. rewrite Forall_forall. intros y Hy. apply (not_lt_upward k e y); [done..| |done|by apply Hx]. apply (ordered_key _ _ Ho'). set_solver. }
    unfold before. destruct es1 as [|x es1 _] using rev_ind; [apply last_such_None; by rewrite Forall_forall in H2|].
    rewrite last_snoc. apply last_such_split. exists es1, (e :: es2). rewrite <- app_assoc. split_and!; [done..|].
    apply Forall_app in H1 as [_ H1]. apply Forall_singleton, dec_stable in H1. done.
  - rewrite <- last_all. unfold before, last_such. f_equal.
    assert (forall x : entry, x ∈ es -> key_lt x.1 k) as Hall by (intros x Hx; apply dec_stable, (proj1 (first_such_None _ es) E x Hx)).
    clear -Hall. induction es as [|x es IH]; [done|]. rewrite (filter_cons_True (fun _ => True)), filter_cons_True by (done || (apply Hall; set_solver)).
    f_equal. apply IH. set_solver.
Qed.

Lemma turn_forward_ok m M e w es p : merging_at m M (Some e) -> key_ok e.1 -> w_at w es p ->
  exists w', turn_forward (comparator_ := C) m w = Ok w' /\ w_at w' es (after e.1 es).
Proof.
  intros Hm Ke Hw. pose proof (w_ordered _ _ _ Hw) as Ho. pose proof (from_after e.1 es Ho Ke) as Hf. unfold turn_forward.
  rewrite (m_key_ok _ _ _ Hm), bind_Ok. destruct (w_Seek_ok _ _ _ e.1 Hw Ke) as (w1 & -> & Hw1). rewrite bind_Ok, (w_Valid_ok _ _ _ Hw1).
  destruct (from e.1 es) as [e1|]; [rewrite bool_decide_true by done|rewrite bool_decide_false by (by intros [])].
  - pose proof (ordered_key _ _ Ho (w_in _ _ _ Hw1)) as K1. rewrite bind_Ok, (w_key_ok _ _ _ Hw1), bind_Ok, Compare_ok, bind_Ok by done.
    case_decide as Hd.
    + rewrite Hd, cmp_refl by done. cbn. destruct (w_Next_ok _ _ _ Hw1) as (w2 & -> & Hw2). rewrite Hf in Hw2. eauto.
    + rewrite (proj2 (Z.eqb_neq _ _)) by (rewrite cmp_eq by done; congruence). rewrite Hf. eauto.
  - rewrite Hf. eauto.
Qed.

Lemma turn_reverse_ok m M e w es p : merging_at m M (Some e) -> key_ok e.1 -> w_at w es p ->
  exists w', turn_reverse m w = Ok w' /\ w_at w' es (before e.1 es).
Proof.
  intros Hm Ke Hw. pose proof (w_ordered _ _ _ Hw) as Ho. pose proof (from_before e.1 es Ho Ke) as Hf. unfold turn_reverse.
  rewrite (m_key_ok _ _ _ Hm), bind_Ok. destruct (w_Seek_ok _ _ _ e.1 Hw Ke) as (w1 & -> & Hw1). rewrite bind_Ok, (w_Valid_ok _ _ _ Hw1).
  destruct (from e.1 es) as [e1|]; [rewrite bool_decide_true by done|rewrite bool_decide_false by (by intros [])]; rewrite <- Hf.
  - by apply w_Prev_ok.
  - by eapply w_SeekToLast_ok.
Qed.

(** The children but the current one, in the direction [d]. *)
Lemma others_imap xs c (g : list entry -> option entry) :
  (imap (fun j x => if decide ((0 + j)%nat = c) then x else (x.1, g x.1)) xs).*1 = xs.*1 /\
  forall i x, imap (fun j x => if decide ((0 + j)%nat = c) then x else (x.1, g x.1)) xs !! i = Some x ->
    if decide (i = c) then xs !! i = Some x else x.2 = g x.1.
Proof.
  split.
  - rewrite fmap_imap. etrans; [|apply imap_const]. apply imap_ext. intros i x _. cbn. by case_decide.
  - intros i x. rewrite list_lookup_imap. intros (y & Hy & ->)%fmap_Some. cbn. case_decide; [done|]. done.
Qed.

(** The current child moves. *)
Lemma move_current (P : entry -> Prop) {HP : forall e, Decision (P e)} d ws xs M c es p' w w' :
  viewed ws xs -> merges M xs -> ws !! c = Some w -> xs !! c = Some (es, p') -> w_at w' es (such d P es) ->
  (forall i x, i <> c -> xs !! i = Some x -> x.2 = such d P x.1) ->
  exists xs', viewed (<[c := w']> ws) xs' /\ merges M xs' /\ forall i x, xs' !! i = Some x -> x.2 = such d P x.1.
Proof.
  intros Hv HM Hw Hc Hw' Hx. exists (<[c := (es, such d P es)]> xs). split_and!.
  - by apply Forall2_insert.
  - eapply merges_fst; [done|]. rewrite list_fmap_insert. apply list_insert_id. by rewrite list_lookup_fmap, Hc.
  - intros i x Hi. destruct (decide (i = c)) as [->|Hne].
    + rewrite list_lookup_insert_eq in Hi by by eapply lookup_lt_Some. by injection Hi as <-.
    + rewrite list_lookup_insert_ne in Hi by done. by apply Hx in Hi.
Qed.

(** Before [Next] and [Prev]: the other children stand beyond the current key. *)
Lemma turn_ok d f m M e : merging_at m M (Some e) ->
  (forall w es p, w_at w es p -> exists w', f w = Ok w' /\ w_at w' es (such d (beyond d e.1) es)) ->
  exists c w0 ws xs es w, m_current m = Ok (c, w0) /\
    (if decide (direction_ m = d) then Ok m else ws ← each_other f c 0 (children_ m); Ok (mkMerging ws (current_ m) d)) = Ok (mkMerging ws (Some c) d) /\
    viewed ws xs /\ merges M xs /\ ws !! c = Some w /\ xs !! c = Some (es, Some e) /\ w_at w es (Some e) /\
    forall i x, i <> c -> xs !! i = Some x -> x.2 = such d (beyond d e.1) x.1.
Proof.
  intros Hm Hf. pose proof Hm as (xs & Hv & HM & c & es & Ec & Hc & Hx). destruct (m_current_ok _ _ _ Hm) as (c' & w0 & es' & Ec' & _ & _ & E).
  replace c' with c in * by congruence. exists c, w0. case_decide as Hd.
  - destruct (viewed_lookup _ _ _ _ Hv Hc) as (w & Hw & Hat). exists (children_ m), xs, es, w. destruct m as [ws cur d']. cbn in *. subst. done.
  - destruct (each_other_ok f (such d (beyond d e.1)) c 0 _ _ Hv) as (ws & -> & Hv'); [done|].
    destruct (others_imap xs c (such d (beyond d e.1))) as [Hfst Hlook]. set (xs' := imap _ xs) in *.
    assert (xs' !! c = Some (es, Some e)) as Hc' by (unfold xs'; rewrite list_lookup_imap, Hc; cbn; by rewrite decide_True).
    destruct (viewed_lookup _ _ _ _ Hv' Hc') as (w & Hw & Hat). exists ws, xs', es, w. rewrite bind_Ok, Ec.
    split_and!; [done..|by eapply merges_fst|done|done|done|]. intros i x Hne Hi. specialize (Hlook i x Hi). by rewrite decide_False in Hlook.
Qed.

Lemma m_Next_ok m M e : merging_at m M (Some e) -> exists m', m_Next (comparator_ := C) m = Ok m' /\ merging_at m' M (after e.1 M).
Proof.
  intros Hm. pose proof (m_in _ _ _ Hm) as He. assert (key_ok e.1) as Ke by (destruct Hm as (? & _ & [Ho _] & _); by apply (ordered_key M)).
  destruct (turn_ok kForward (turn_forward (comparator_ := C) m) m M e Hm) as (c & w0 & ws & xs & es & w & E & E' & Hv & HM & Hw & Hc & Hat & Hx).
  { intros w es p Hw. by eapply turn_forward_ok. }
  unfold m_Next. rewrite E, bind_Ok, E', bind_Ok. unfold child. cbn [children_]. rewrite Hw. cbn [of_option]. rewrite bind_Ok.
  destruct (w_Next_ok _ _ _ Hat) as (w' & -> & Hat'). rewrite bind_Ok. unfold set_child. cbn [children_ current_ direction_].
  destruct (move_current (beyond kForward e.1) kForward ws xs M c es _ w w' Hv HM Hw Hc) as (xs2 & Hv2 & HM2 & Hx2); [done..|].
  destruct (FindSmallest_ok (beyond kForward e.1) (<[c:=w']> ws) (Some c) kForward xs2 M Hv2 HM2) as (c2 & -> & Hat2); [|done|by eexists].
  intros a b Ka Kb H1 H2. cbn in *. by apply (key_lt_trans e.1 a.1 b.1).
Qed.

Lemma m_Prev_ok m M e : merging_at m M (Some e) -> exists m', m_Prev (comparator_ := C) m = Ok m' /\ merging_at m' M (before e.1 M).
Proof.
  intros Hm. pose proof (m_in _ _ _ Hm) as He. assert (key_ok e.1) as Ke by (destruct Hm as (? & _ & [Ho _] & _); by apply (ordered_key M)).
  destruct (turn_ok kReverse (turn_reverse m) m M e Hm) as (c & w0 & ws & xs & es & w & E & E' & Hv & HM & Hw & Hc & Hat & Hx).
  { intros w es p Hw. by eapply turn_reverse_ok. }
  unfold m_Prev. rewrite E, bind_Ok, E', bind_Ok. unfold child. cbn [children_]. rewrite Hw. cbn [of_option]. rewrite bind_Ok.
  destruct (w_Prev_ok _ _ _ Hat) as (w' & -> & Hat'). rewrite bind_Ok. unfold set_child. cbn [children_ current_ direction_].
  destruct (move_current (beyond kReverse e.1) kReverse ws xs M c es _ w w' Hv HM Hw Hc) as (xs2 & Hv2 & HM2 & Hx2); [done..|].
  destruct (FindLargest_ok (beyond kReverse e.1) (<[c:=w']> ws) (Some c) kReverse xs2 M Hv2 HM2) as (c2 & -> & Hat2); [|done|by eexists].
  intros a b Ka Kb H1 H2. cbn in *. by apply (key_lt_trans b.1 a.1 e.1).
Qed.

#[export, refine] Instance merging_iterator_ok : IteratorOk (MergingIterator I) C (HI := merging_iterator (comparator_ := C)) :=
  {| stands_at := merging_at |}.
Proof.
  - intros m M p (xs & _ & [Ho _] & _). done.
  - intros m M [e|] (xs & _ & _ & H); cbn; unfold m_Valid.
    + destruct H as (c & es & -> & _). done.
    + by rewrite H.
  - apply m_in.
  - apply m_key_ok.
  - apply m_value_ok.
  - apply m_status_ok.
  - apply m_SeekToFirst_ok.
  - apply m_SeekToLast_ok.
  - apply m_Seek_ok.
  - apply m_Next_ok.
  - apply m_Prev_ok.
Defined.

(** The result of [NewMergingIterator]. *)
Definition merged_iterator : Iterator (EmptyIterator + (I + MergingIterator I)) :=
  sum_iterator (HB := sum_iterator (HB := merging_iterator (comparator_ := C))).

Definition merged_iterator_ok : IteratorOk _ C (HI := merged_iterator) :=
  sum_iterator_ok (OB := sum_iterator_ok (OB := merging_iterator_ok)).

(** C21: A merging iterator is an iterator over the union.  Its children are iterators that keep the
    interface and stand at no entry, as fresh iterators do, and no key is in two of them.  Then
    [NewMergingIterator] returns, and after any sequence of [SeekToFirst], [SeekToLast], [Seek], [Next] and
    [Prev] (the last two only where it is valid), in any mixture of directions, every call has returned and the iterator shows the entry at which a
    cursor over the sorted list of all entries stands after the same moves: its validity, key, value and status OK. *)
Theorem merging_iterator_refines (its : list I) (ess : list (list entry)) (M : list entry) (ms : list move) (p : option entry) :
  Forall2 (fun it es => stands_at it es None) its ess -> ordered M -> M ≡ₚ concat ess ->
  Forall move_ok ms -> track M None ms = Some p ->
  exists r r', NewMergingIterator its = Ok r /\ run (HI := merged_iterator) r ms = Ok r' /\ shows (HI := merged_iterator) r' p.
Proof.
  intros Hits Ho HP Hms Ht. assert (exists r, NewMergingIterator its = Ok r /\ stands_at (IteratorOk := merged_iterator_ok) r M None) as (r & E & Hr).
  { destruct Hits as [|it es its' ess' Hit [|it2 es2 its2 ess2 Hit2 Hits]].
    - exists (inl NewEmptyIterator). cbn in HP. apply Permutation_nil_r in HP as ->. done.
    - exists (inr (inl it)). cbn in HP. rewrite app_nil_r in HP. split; [done|]. cbn.
      by rewrite (ordered_perm M es) by (done || by eapply stands_ordered).
    - assert (Forall2 (fun it es => exists p, stands_at it es p) (it :: it2 :: its2) (es :: es2 :: ess2)) as H
        by (constructor; [by eexists|]; constructor; [by eexists|]; eapply Forall2_impl; [exact Hits|]; cbn; eauto).
      destruct (merging_start _ _ H) as (ws & xs & E & Hv & Ef). unfold NewMergingIterator, newMergingIterator. rewrite E, !bind_Ok.
      eexists. split; [done|]. exists xs. split_and!; [done|split; [done|by rewrite Ef]|done]. }
  destruct (run_ok _ _ _ _ _ Hr Hms Ht) as (r' & E' & Hr'). exists r, r'. split_and!; [done..|]. by eapply stands_shows.
Qed.

End merger_ok.

End Merger.
