(* ===== verification/LdbMemIter.v ===== *)
(** leveldb, db/memtable.cc: [MemTableIterator] keeps the interface of iterators, so that a
    merging iterator over memory tables is one over all their writes. *)
From stdpp Require Import sorting sets.
From S2P Require Import Prelude LdbCoding LdbKeys LdbSkipList LdbMem LdbIter LdbMerger.

Module MemIter.
Import Coding Keys MemTable Iter.

(** The iterator of the skip list, and the table. *)
Record MemTableIterator := mkMemIter {
  table_ : SkipList.SkipList (list Z);
  mem_iter_ : option nat
}.

Section iterator.
Context {user : Comparator}.

Definition NewIterator (t : SkipList.SkipList (list Z)) : MemTableIterator := mkMemIter t None.

Definition moved (it : MemTableIterator) (r : outcome (option nat)) : outcome MemTableIterator :=
  x ← r; Ok (mkMemIter (table_ it) x).

#[export] Instance mem_iterator : Iterator MemTableIterator := {|
  it_Valid it := SkipList.iter_Valid (mem_iter_ it);
  it_SeekToFirst it := moved it (SkipList.iter_SeekToFirst (table_ it));
  it_SeekToLast it := moved it (SkipList.iter_SeekToLast (table_ it));
  it_Seek it k := moved it (mem_Seek (table_ it) k);
  it_Next it := moved it (SkipList.iter_Next (table_ it) (mem_iter_ it));
  it_Prev it := moved it (SkipList.iter_Prev key_compare (table_ it) (mem_iter_ it));
  it_key it := mem_key (table_ it) (mem_iter_ it);
  it_value it := mem_value (table_ it) (mem_iter_ it);
  it_status it := OK
|}.

End iterator.

(** Keys that can be encoded with their length. *)
Class ShortKeys (C : Comparator) {HC : ComparatorOk C} := short_key k : key_ok k -> Z.of_nat (length k) + 8 < 2 ^ 32.

#[export] Instance bytewise_short : ShortKeys BytewiseComparator.
Proof. intros k [_ Hk]. lia. Qed.

Section iterator_ok.
Context {user : Comparator} {Huser : ComparatorOk user} {Hshort : ShortKeys user}.
#[local] Existing Instance internal_comparator_ok.
Implicit Types (w : write) (ws : list write) (t : SkipList.SkipList (list Z)).

(** The entry of a write. *)
Definition write_entry w : entry := (ikey (MemTable.w_key w) (w_num w), MemTable.w_value w).

(** The table holds the writes in order; the iterator stands at one of them or nowhere. *)
Definition mem_at (it : MemTableIterator) (es : list entry) (p : option entry) : Prop :=
  exists ws, Forall write_ok ws /\ es = map write_entry ws /\ SkipList.represents (HO := mem_order) (table_ it) (map w_entry ws) /\
    match p with
    | None => mem_iter_ it = None
    | Some e => exists n w, ws !! n = Some w /\ e = write_entry w /\ SkipList.iter_at (HO := mem_order) (table_ it) (map w_entry ws) (mem_iter_ it) n
    end.

Lemma write_entry_lt w1 w2 : write_ok w1 -> write_ok w2 ->
  SkipList.elt (HO := mem_order) (w_entry w1) (w_entry w2) <-> entry_lt (C := @InternalKeyComparator user) (write_entry w1) (write_entry w2).
Proof. intros H1 H2. unfold SkipList.elt, entry_lt, key_lt. cbn [mem_order SkipList.entry_key]. by rewrite !w_entry_key. Qed.

Lemma mem_ordered t ws : Forall write_ok ws -> SkipList.represents (HO := mem_order) t (map w_entry ws) -> ordered (C := @InternalKeyComparator user) (map write_entry ws).
Proof.
  intros Hws [ids Hi]. pose proof (SkipList.inv_sorted _ _ _ Hi) as Hs. clear Hi. induction Hws as [|w ws Hw Hws IH]; [apply ordered_nil|]. cbn in *.
  apply StronglySorted_inv in Hs as [Hs Hall]. apply ordered_cons. split_and!; [|by apply IH|].
  - exists (MemTable.w_key w), (w_num w). split_and!; [apply Hw|by apply w_num_u64|done].
  - intros b (w' & -> & Hw')%list_elem_of_fmap. rewrite Forall_forall in Hall. rewrite Forall_forall in Hws. apply write_entry_lt; [done|by apply Hws|].
    apply Hall. by apply list_elem_of_fmap_2.
Qed.

(** Positions in the list, and entries. *)
Lemma mem_at_index t ws x n : Forall write_ok ws -> SkipList.iter_at (HO := mem_order) t (map w_entry ws) x n ->
  mem_at (mkMemIter t x) (map write_entry ws) (map write_entry ws !! n).
Proof.
  intros Hws Hat. pose proof Hat as (ids & Hi & Ex & Hn). exists ws. split_and!; [done|done|by exists ids|]. cbn.
  change (map write_entry ws) with (write_entry <$> ws). rewrite list_lookup_fmap. destruct (ws !! n) as [w|] eqn:E; cbn; [by eauto 10|].
  rewrite Ex. apply lookup_ge_None_2. rewrite (SkipList.inv_length _ _ _ Hi), length_map. by apply lookup_ge_None_1.
Qed.

Lemma write_entry_lookup ws n w : ws !! n = Some w -> map write_entry ws !! n = Some (write_entry w).
Proof. intros H. change (map write_entry ws) with (write_entry <$> ws). by rewrite list_lookup_fmap, H. Qed.

Lemma mem_key_value t ws x n w : Forall write_ok ws -> SkipList.iter_at (HO := mem_order) t (map w_entry ws) x n -> ws !! n = Some w ->
  mem_key t x = Ok (ikey (MemTable.w_key w) (w_num w)) /\ mem_value t x = Ok (MemTable.w_value w).
Proof.
  intros Hws Hat Hn. assert (map w_entry ws !! n = Some (w_entry w)) as He by (change (map w_entry ws) with (w_entry <$> ws); by rewrite list_lookup_fmap, Hn).
  assert (write_ok w) as Hw by by eapply Forall_lookup_1. pose proof (w_ikey_fits w Hw) as Hf. pose proof (wo_value w Hw) as Hv.
  unfold mem_key, mem_value. rewrite (SkipList.iter_key_ok (HO := mem_order) _ _ _ _ _ Hat He), !bind_Ok. unfold w_entry, entry_form.
  split; [by apply length_prefixed_encode|]. pose proof (length_prefixed_encode (MemTable.w_value w) [] Hv) as E. rewrite app_nil_r in E.
  set (v := varstring (MemTable.w_value w)) in *. unfold varstring. rewrite <- app_assoc, varint_at_encode, bind_Ok by by apply fits32_u32.
  rewrite Nat2Z.id, (at_off_load_range _ _ (ikey (MemTable.w_key w) (w_num w))) by (by eexists _, _).
  rewrite bind_Ok, app_assoc, drop_app_length' by (by rewrite length_app). done.
Qed.

(** ** The operations *)
Lemma EncodeKey_eq k : fits32 k -> EncodeKey k = Ok (varstring k).
Proof.
  intros Hf. unfold EncodeKey, u32. pose proof (fits32_u32 k Hf) as Hu. rewrite Z.mod_small by done.
  by rewrite PutVarint32_eq, bind_Ok.
Qed.

Lemma mem_Seek_at t ws k : Forall write_ok ws -> SkipList.represents (HO := mem_order) t (map w_entry ws) -> internal_ok k ->
  exists x, mem_Seek t k = Ok x /\ mem_at (mkMemIter t x) (map write_entry ws) (from (C := @InternalKeyComparator user) k (map write_entry ws)).
Proof.
  intros Hws Hr Hk. pose proof Hk as (uk & num & Hu & Hn & ->). pose proof (short_key uk Hu) as Hs.
  assert (fits32 (ikey uk num)) as Hf by (unfold fits32; rewrite length_ikey; lia).
  unfold mem_Seek. rewrite EncodeKey_eq, bind_Ok by done. replace (varstring (ikey uk num)) with (entry_form uk num []) by apply app_nil_r.
  destruct (SkipList.Seek_ok (HO := mem_order) t (map w_entry ws) (entry_form uk num []) Hr) as (ks1 & ks2 & x & E & A1 & A2 & -> & Hat); [by exists uk, num, []|].
  exists x. split; [done|]. apply map_eq_app in E as (ws1 & ws2 & -> & <- & <-). rewrite length_map in Hat. apply mem_at_index in Hat; [|done].
  assert (forall w, w ∈ ws1 ++ ws2 -> SkipList.elt (HO := mem_order) (w_entry w) (entry_form uk num []) <-> key_lt (C := @InternalKeyComparator user) (write_entry w).1 (ikey uk num)) as Hlt.
  { intros w Hw. rewrite Forall_forall in Hws. unfold SkipList.elt, key_lt. cbn [mem_order SkipList.entry_key]. by rewrite w_entry_key, mem_entry_key_form by (done || by apply Hws). }
  rewrite map_app in *. rewrite from_split.
  - rewrite lookup_app_r, length_map, Nat.sub_diag in Hat by (by rewrite length_map). by destruct ws2.
  - rewrite Forall_map in A1 |- *. rewrite Forall_forall in A1 |- *. intros w Hw. apply Hlt; [set_solver|by apply A1].
  - rewrite Forall_map in A2 |- *. rewrite Forall_forall in A2 |- *. intros w Hw. rewrite <- Hlt by set_solver. by apply A2.
Qed.

#[export, refine] Instance mem_iterator_ok : IteratorOk MemTableIterator (@InternalKeyComparator user) := {| stands_at := mem_at |}.
Proof.
  - intros it es p (ws & Hws & -> & Hr & _). by eapply mem_ordered.
  - intros [t x] es [e|] (ws & Hws & -> & Hr & H); cbn in *; [|by subst].
    destruct H as (n & w & Hn & -> & Hat). rewrite (SkipList.iter_Valid_ok (HO := mem_order) _ _ _ _ Hat).
    apply Nat.ltb_lt. rewrite length_map. by eapply lookup_lt_Some.
  - intros it es e (ws & Hws & -> & Hr & n & w & Hn & -> & Hat). apply list_elem_of_fmap_2. by eapply list_elem_of_lookup_2.
  - intros it es e (ws & Hws & -> & Hr & n & w & Hn & -> & Hat). by eapply mem_key_value.
  - intros it es e (ws & Hws & -> & Hr & n & w & Hn & -> & Hat). by eapply mem_key_value.
  - done.
  - intros [t x] es p (ws & Hws & -> & Hr & _). cbn in *. destruct (SkipList.SeekToFirst_ok (HO := mem_order) _ _ Hr) as (x' & E & Hat).
    rewrite E. eexists. split; [done|]. apply mem_at_index in Hat; [|done]. by destruct ws.
  - intros [t x] es p (ws & Hws & -> & Hr & _). cbn in *. destruct (SkipList.SeekToLast_ok (HO := mem_order) _ _ Hr) as (x' & E & Hat).
    rewrite E. eexists. split; [done|]. rewrite length_map in Hat. destruct (length ws) as [|n] eqn:El.
    + apply nil_length_inv in El as ->. subst. by exists [].
    + apply mem_at_index in Hat; [|done]. by rewrite last_lookup, length_map, El.
  - intros [t x] es p k (ws & Hws & -> & Hr & _) Hk. cbn. destruct (mem_Seek_at t ws k Hws Hr Hk) as (x' & -> & Hat). by eexists.
  - intros [t x] es e (ws & Hws & -> & Hr & n & w & Hn & -> & Hat). cbn in *.
    destruct (SkipList.iter_Next_ok (HO := mem_order) _ _ _ _ Hat) as (x' & -> & Hat'); [rewrite length_map; by eapply lookup_lt_Some|].
    eexists. split; [done|]. pose proof (after_index _ _ _ (mem_ordered _ _ Hws Hr) (write_entry_lookup _ _ _ Hn)) as E.
    cbn in E. rewrite E. by apply mem_at_index.
  - intros [t x] es e (ws & Hws & -> & Hr & n & w & Hn & -> & Hat). cbn in *.
    destruct (SkipList.iter_Prev_ok (HO := mem_order) _ _ _ _ Hat) as (x' & -> & Hat'); [rewrite length_map; by eapply lookup_lt_Some|].
    eexists. split; [done|]. pose proof (before_index _ _ _ (mem_ordered _ _ Hws Hr) (write_entry_lookup _ _ _ Hn)) as E.
    cbn in E. rewrite E.
    destruct n as [|n]; [subst; by exists ws|]. by apply mem_at_index.
Defined.

(** A table after writes. *)
Lemma mem_iterator_start junk prev0 ws : Forall write_ok ws -> NoDup (map (fun w => (MemTable.w_key w, w_num w)) ws) ->
  length prev0 = SkipList.kMaxHeight ->
  exists t es, add_all junk prev0 newMemTable ws = Ok t /\ mem_at (NewIterator t) es None /\ es ≡ₚ map write_entry ws.
Proof.
  intros Hws Hnd Hp. destruct (add_all_represents junk prev0 ws Hws Hnd Hp) as (t & ks & E & Hr & HP).
  destruct (Permutation_map_inv _ _ HP) as (ws' & -> & HP').
  exists t, (map write_entry ws'). split_and!; [done| |by rewrite HP']. exists ws'. split_and!; [by rewrite <- HP'|done..].
Qed.

End iterator_ok.

(** Two memory tables, merged: forwards past the end of the first, and back. *)
Definition table1 : list write := [mkWrite 5 1 [97] [1]; mkWrite 6 1 [99] [2]].
Definition table2 : list write := [mkWrite 7 1 [98] [3]; mkWrite 8 0 [97] []].

Definition sample_moves : list move := [ToFirst; Forward; Forward; Forward; Backward; To (ikey [98] (pack 9 1)); Backward].

Lemma merging_iterator_refines_witness :
  exists t1 t2 r r',
    add_all (user := BytewiseComparator) (fun _ => None) (replicate 12 0%nat) newMemTable table1 = Ok t1 /\
    add_all (user := BytewiseComparator) (fun _ => None) (replicate 12 0%nat) newMemTable table2 = Ok t2 /\
    Merger.NewMergingIterator (Iterator0 := mem_iterator (user := BytewiseComparator)) [NewIterator t1; NewIterator t2] = Ok r /\
    run (HI := Merger.merged_iterator (C := @InternalKeyComparator BytewiseComparator)) r sample_moves = Ok r' /\
    shows (HI := Merger.merged_iterator (C := @InternalKeyComparator BytewiseComparator)) r' (Some (ikey [97] (pack 5 1), [1])).
Proof.
  destruct (mem_iterator_start (user := BytewiseComparator) (fun _ => None) (replicate 12 0%nat) table1) as (t1 & es1 & E1 & A1 & P1); [repeat constructor; by_decide|by_decide|done|].
  destruct (mem_iterator_start (user := BytewiseComparator) (fun _ => None) (replicate 12 0%nat) table2) as (t2 & es2 & E2 & A2 & P2); [repeat constructor; by_decide|by_decide|done|].
  exists t1, t2.
  destruct (Merger.merging_iterator_refines (C := @InternalKeyComparator BytewiseComparator) [NewIterator t1; NewIterator t2] [es1; es2]
    [write_entry (mkWrite 8 0 [97] []); write_entry (mkWrite 5 1 [97] [1]); write_entry (mkWrite 7 1 [98] [3]); write_entry (mkWrite 6 1 [99] [2])]
    sample_moves (Some (ikey [97] (pack 5 1), [1]))) as (r & r' & E & E' & H).
  - by repeat constructor.
  - repeat (apply ordered_cons; split_and!; [by apply ikey_ok; by_decide| |rewrite <- Forall_forall; repeat (apply Forall_cons; split; [by_decide|]); by apply Forall_nil]).
    apply ordered_nil.
  - cbn. rewrite app_nil_r, P1, P2. cbn. by_decide.
  - unfold sample_moves. repeat (apply Forall_cons; split; [first [exact I|apply ikey_ok; by_decide]|]). by apply Forall_nil.
  - vm_compute. reflexivity.
  - exists r, r'. exact (conj E1 (conj E2 (conj E (conj E' H)))).
Defined.

End MemIter.
