(* ===== verification/LdbDBIter.v ===== *)
(** leveldb, db/db_iter.cc: the iterator that users see, over an iterator of internal keys.

    [DBIter] shows, of all writes, the newest one of each key that a snapshot may see, unless it is a
    deletion.  It is verified against the interface of the internal iterator.  The theorem covers
    every sequence of moves except a change from backwards to forwards over entries that the snapshot hides: there
    the code can show the same key twice (lemma [next_after_prev_repeats]). *)
From Stdlib Require Import String.
From stdpp Require Import strings sorting sets.
From S2P Require Import Prelude LdbCoding LdbKeys LdbSkipList LdbMem LdbIter LdbMerger LdbMemIter.

Module DBIter.
Import Coding Keys MemTable Iter Merger MemIter.

Section dbiter.
Context {I : Type} {HI : Iterator I} {user_comparator_ : Comparator}.

(** The bound on the turns of a loop. *)
Context (fuel : nat).

Record DBIter := mkDBIter {
  db_iter_ : I;
  sequence_ : Z;
  status_ : Status;
  saved_key_ : list Z;
  saved_value_ : list Z;
  db_direction_ : Direction;
  db_valid_ : bool
}.

Definition newDBIter (iter : I) (s : Z) : DBIter := mkDBIter iter s OK [] [] kForward false.

Definition set_iter (d : DBIter) it := mkDBIter it (sequence_ d) (status_ d) (saved_key_ d) (saved_value_ d) (db_direction_ d) (db_valid_ d).
Definition set_status (d : DBIter) s := mkDBIter (db_iter_ d) (sequence_ d) s (saved_key_ d) (saved_value_ d) (db_direction_ d) (db_valid_ d).
Definition SaveKey (d : DBIter) k := mkDBIter (db_iter_ d) (sequence_ d) (status_ d) k (saved_value_ d) (db_direction_ d) (db_valid_ d).
Definition SaveValue (d : DBIter) v := mkDBIter (db_iter_ d) (sequence_ d) (status_ d) (saved_key_ d) v (db_direction_ d) (db_valid_ d).
Definition set_direction (d : DBIter) x := mkDBIter (db_iter_ d) (sequence_ d) (status_ d) (saved_key_ d) (saved_value_ d) x (db_valid_ d).
Definition set_valid (d : DBIter) v := mkDBIter (db_iter_ d) (sequence_ d) (status_ d) (saved_key_ d) (saved_value_ d) (db_direction_ d) v.

(** A value that is cleared may also give its memory back. *)
Definition ClearSavedValue (d : DBIter) : DBIter := SaveValue d [].

Definition db_Valid (d : DBIter) : bool := db_valid_ d.

Definition db_key (d : DBIter) : outcome (list Z) :=
  _ ← c_assert (db_valid_ d);
  if decide (db_direction_ d = kForward) then k ← it_key (db_iter_ d); ExtractUserKey k else Ok (saved_key_ d).

Definition db_value (d : DBIter) : outcome (list Z) :=
  _ ← c_assert (db_valid_ d);
  if decide (db_direction_ d = kForward) then it_value (db_iter_ d) else Ok (saved_value_ d).

Definition db_status (d : DBIter) : Status := if status_ok (status_ d) then it_status (db_iter_ d) else status_ d.

(** The parsed key, or [None] for [false]. *)
Definition ParseKey (d : DBIter) : outcome (option ParsedInternalKey * DBIter) :=
  k ← it_key (db_iter_ d);
  r ← ParseInternalKey k;
  match r with
  | (Some ikey, true) => Ok (Some ikey, d)
  | _ => Ok (None, set_status d (Corruption "corrupted internal key in DBIter" ""))
  end.

(** The loop of [FindNextUserEntry]; [skip] is always [saved_key_]. *)
Fixpoint find_next (n : nat) (d : DBIter) (skipping : bool) : outcome DBIter :=
  match n with
  | O => Undef
  | S n =>
      '(ikey, d) ← ParseKey d;
      let advance (d : DBIter) (skipping : bool) :=
        it ← it_Next (db_iter_ d);
        let d := set_iter d it in
        if it_Valid it then find_next n d skipping else Ok (set_valid (SaveKey d []) false) in
      match ikey with
      | Some ikey =>
          if sequence ikey <=? sequence_ d then
            if type ikey =? kTypeDeletion then advance (SaveKey d (user_key ikey)) true
            else if type ikey =? kTypeValue then
              hidden ← (if skipping then c ← Compare (user_key ikey) (saved_key_ d); Ok (c <=? 0) else Ok false);
              if (hidden : bool) then advance d skipping else Ok (SaveKey (set_valid d true) [])
            else advance d skipping
          else advance d skipping
      | None => advance d skipping
      end
  end.

Definition FindNextUserEntry (d : DBIter) (skipping : bool) : outcome DBIter :=
  _ ← c_assert (it_Valid (db_iter_ d));
  _ ← c_assert (bool_decide (db_direction_ d = kForward));
  find_next fuel d skipping.

(** The loop of [FindPrevUserEntry]: the last type, and the state. *)
Fixpoint find_prev (n : nat) (d : DBIter) (value_type : Z) : outcome (Z * DBIter) :=
  match n with
  | O => Undef
  | S n =>
      '(ikey, d) ← ParseKey d;
      let retreat (d : DBIter) (value_type : Z) :=
        it ← it_Prev (db_iter_ d);
        let d := set_iter d it in
        if it_Valid it then find_prev n d value_type else Ok (value_type, d) in
      match ikey with
      | Some ikey =>
          if sequence ikey <=? sequence_ d then
            stop ← (if negb (value_type =? kTypeDeletion) then c ← Compare (user_key ikey) (saved_key_ d); Ok (c <? 0) else Ok false);
            if (stop : bool) then Ok (value_type, d)
            else
              let value_type := type ikey in
              if value_type =? kTypeDeletion then retreat (ClearSavedValue (SaveKey d [])) value_type
              else
                raw_value ← it_value (db_iter_ d);
                k ← it_key (db_iter_ d); uk ← ExtractUserKey k;
                retreat (SaveValue (SaveKey d uk) raw_value) value_type
          else retreat d value_type
      | None => retreat d value_type
      end
  end.

Definition FindPrevUserEntry (d : DBIter) : outcome DBIter :=
  _ ← c_assert (bool_decide (db_direction_ d = kReverse));
  '(value_type, d) ← (if it_Valid (db_iter_ d) then find_prev fuel d kTypeDeletion else Ok (kTypeDeletion, d));
  if value_type =? kTypeDeletion then
    Ok (set_direction (ClearSavedValue (SaveKey (set_valid d false) [])) kForward)
  else Ok (set_valid d true).

Definition db_Next (d : DBIter) : outcome DBIter :=
  _ ← c_assert (db_valid_ d);
  '(go, d) ←
    (if decide (db_direction_ d = kReverse) then
       let d := set_direction d kForward in
       it ← (if negb (it_Valid (db_iter_ d)) then it_SeekToFirst (db_iter_ d) else it_Next (db_iter_ d));
       let d := set_iter d it in
       if negb (it_Valid it) then Ok (false, SaveKey (set_valid d false) []) else Ok (true, d)
     else Ok (true, d));
  if (go : bool) then
    k ← it_key (db_iter_ d); uk ← ExtractUserKey k;
    FindNextUserEntry (SaveKey d uk) true
  else Ok d.

(** The loop of [Prev] that leaves the entries of the current key. *)
Fixpoint prev_loop (n : nat) (d : DBIter) : outcome (bool * DBIter) :=
  match n with
  | O => Undef
  | S n =>
      it ← it_Prev (db_iter_ d);
      let d := set_iter d it in
      if negb (it_Valid it) then Ok (false, ClearSavedValue (SaveKey (set_valid d false) []))
      else
        k ← it_key it; uk ← ExtractUserKey k; c ← Compare uk (saved_key_ d);
        if c <? 0 then Ok (true, d) else prev_loop n d
  end.

Definition db_Prev (d : DBIter) : outcome DBIter :=
  _ ← c_assert (db_valid_ d);
  '(go, d) ←
    (if decide (db_direction_ d = kForward) then
       _ ← c_assert (it_Valid (db_iter_ d));
       k ← it_key (db_iter_ d); uk ← ExtractUserKey k;
       '(go, d) ← prev_loop fuel (SaveKey d uk);
       Ok (go, if (go : bool) then set_direction d kReverse else d)
     else Ok (true, d));
  if (go : bool) then FindPrevUserEntry d else Ok d.

Definition db_Seek (d : DBIter) (target : list Z) : outcome DBIter :=
  let d := ClearSavedValue (set_direction d kForward) in
  k ← AppendInternalKey [] (mkParsed target (sequence_ d) kValueTypeForSeek);
  let d := SaveKey d k in
  it ← it_Seek (db_iter_ d) k;
  let d := set_iter d it in
  if it_Valid it then FindNextUserEntry d false else Ok (set_valid d false).

Definition db_SeekToFirst (d : DBIter) : outcome DBIter :=
  let d := ClearSavedValue (set_direction d kForward) in
  it ← it_SeekToFirst (db_iter_ d);
  let d := set_iter d it in
  if it_Valid it then FindNextUserEntry d false else Ok (set_valid d false).

Definition db_SeekToLast (d : DBIter) : outcome DBIter :=
  let d := ClearSavedValue (set_direction d kReverse) in
  it ← it_SeekToLast (db_iter_ d);
  FindPrevUserEntry (set_iter d it).

Definition db_iterator : Iterator DBIter := {|
  it_Valid := db_Valid;
  it_SeekToFirst := db_SeekToFirst;
  it_SeekToLast := db_SeekToLast;
  it_Seek := db_Seek;
  it_Next := db_Next;
  it_Prev := db_Prev;
  it_key := db_key;
  it_value := db_value;
  it_status := db_status
|}.

End dbiter.
Arguments DBIter : clear implicits.

(** * What a snapshot sees *)
Section refinement.
Context {I : Type} {HI : Iterator I} {user : Comparator} {Huser : ComparatorOk user}.
Context {HO : IteratorOk I (@InternalKeyComparator user)}.

(** The writes, in the order of their internal keys, and the snapshot. *)
Context (ws : list write) (s : Z) (fuel : nat).

Definition seen (w : write) : Prop := w_seq w <= s.
#[export] Instance seen_dec w : Decision (seen w).
Proof. unfold seen. apply _. Defined.

(** The newest write of its key that is seen, and it is not a deletion. *)
Definition newest (w : write) : Prop :=
  seen w /\ w_type w = kTypeValue /\ Forall (fun w' => MemTable.w_key w' = MemTable.w_key w -> seen w' -> w_num w' <= w_num w) ws.
#[export] Instance newest_dec w : Decision (newest w).
Proof. unfold newest. apply _. Defined.

Definition uentry (w : write) : entry := (MemTable.w_key w, MemTable.w_value w).
Definition view : list entry := map uentry (filter newest ws).

Hypothesis Hws : Forall write_ok ws.
Hypothesis Hs : 0 <= s <= kMaxSequenceNumber.
Hypothesis Hfuel : (length ws < fuel)%nat.
Hypothesis Hord : ordered (C := @InternalKeyComparator user) (map write_entry ws).

Implicit Types (w : write) (d : DBIter I) (it : I).
Abbreviation es := (map write_entry ws).

Lemma w_ok w : w ∈ ws -> write_ok w.
Proof. intros Hw. rewrite Forall_forall in Hws. by apply Hws. Qed.

Lemma w_key_ok' w : w ∈ ws -> key_ok (MemTable.w_key w).
Proof. intros Hw. apply (w_ok w Hw). Qed.

(** The order of the writes. *)
Definition wlt (w w' : write) : Prop :=
  key_lt (MemTable.w_key w) (MemTable.w_key w') \/ MemTable.w_key w = MemTable.w_key w' /\ w_num w' < w_num w.

Lemma entry_lt_wlt w w' : write_ok w -> write_ok w' ->
  entry_lt (C := @InternalKeyComparator user) (write_entry w) (write_entry w') <-> wlt w w'.
Proof.
  intros H H'. unfold entry_lt, key_lt, wlt. cbn [write_entry fst cmp internal_comparator_ok].
  apply internal_cmp_lt; [by apply w_num_u64..|apply H|apply H'].
Qed.

(** Earlier writes are below later ones. *)
Lemma ws_lt ws1 ws2 w w' : ws = ws1 ++ ws2 -> w ∈ ws1 -> w' ∈ ws2 -> wlt w w'.
Proof.
  intros E Hw Hw'. apply entry_lt_wlt; [apply w_ok; rewrite E; set_solver..|]. pose proof Hord as Ho. rewrite E, map_app in Ho.
  apply ordered_app in Ho as (_ & _ & H). apply H; by apply list_elem_of_fmap_2.
Qed.

Lemma wlt_key w w' : w ∈ ws -> w' ∈ ws -> wlt w w' -> ~ key_lt (MemTable.w_key w') (MemTable.w_key w).
Proof.
  intros Hw Hw' [Hlt|[-> _]]; [|by apply key_lt_irrefl, w_key_ok'].
  intros Hlt'. by apply (key_lt_asym (MemTable.w_key w) (MemTable.w_key w')); [by apply w_key_ok'..| |].
Qed.

(** ** The internal iterator at a write *)
Definition at_write it (r : option write) : Prop := stands_at (IteratorOk := HO) it es (write_entry <$> r).

Lemma at_Next it ws1 w ws2 : at_write it (Some w) -> ws = ws1 ++ w :: ws2 ->
  exists it', it_Next it = Ok it' /\ at_write it' (head ws2).
Proof.
  unfold at_write. intros Hat E. destruct (Next_ok _ _ _ Hat) as (it' & E' & Hat'). exists it'. split; [done|].
  pose proof Hord as Ho. rewrite E, map_app in Ho. pose proof (after_split (map write_entry ws1) (write_entry w) (map write_entry ws2) Ho) as Ha. rewrite E, map_app in Hat' |- *.
  change (map write_entry (w :: ws2)) with (write_entry w :: map write_entry ws2) in Hat'. rewrite Ha in Hat'. by destruct ws2.
Qed.

Lemma at_Prev it ws1 w ws2 : at_write it (Some w) -> ws = ws1 ++ w :: ws2 ->
  exists it', it_Prev it = Ok it' /\ at_write it' (last ws1).
Proof.
  unfold at_write. intros Hat E. destruct (Prev_ok _ _ _ Hat) as (it' & E' & Hat'). exists it'. split; [done|].
  pose proof Hord as Ho. rewrite E, map_app in Ho. pose proof (before_split (map write_entry ws1) (write_entry w) (map write_entry ws2) Ho) as Ha. rewrite E, map_app in Hat' |- *.
  change (map write_entry (w :: ws2)) with (write_entry w :: map write_entry ws2) in Hat'. rewrite Ha in Hat'. by rewrite <- fmap_last.
Qed.

Lemma at_Valid it r : at_write it r -> it_Valid it = bool_decide (is_Some r).
Proof. unfold at_write. intros H. rewrite (stands_Valid _ _ _ H). apply bool_decide_ext. by rewrite fmap_is_Some. Qed.

Lemma at_user_key it w : at_write it (Some w) -> exists k, it_key it = Ok k /\ ExtractUserKey k = Ok (MemTable.w_key w).
Proof. unfold at_write. intros H. eexists. rewrite (stands_key _ _ _ H). split; [done|]. apply ExtractUserKey_ikey. Qed.

Lemma at_value it w : at_write it (Some w) -> it_value it = Ok (MemTable.w_value w).
Proof. unfold at_write. intros H. by rewrite (stands_value _ _ _ H). Qed.

Lemma ParseKey_at d w : at_write (db_iter_ d) (Some w) -> w ∈ ws ->
  ParseKey d = Ok (Some (mkParsed (MemTable.w_key w) (w_seq w) (w_type w)), d).
Proof.
  unfold at_write. intros H Hw. unfold ParseKey. rewrite (stands_key _ _ _ H), bind_Ok. pose proof (w_ok w Hw) as [Ws Wt _ _ _].
  destruct (ParseInternalKey_Append (MemTable.w_key w) (w_seq w) (w_type w) Ws Wt) as (k & _ & -> & E). cbn [write_entry fst]. unfold w_num.
  by rewrite E, bind_Ok.
Qed.

(** ** The view *)
Lemma newest_seen w : newest w -> seen w.
Proof. by intros []. Qed.

Lemma newest_max w w' : newest w -> w' ∈ ws -> MemTable.w_key w' = MemTable.w_key w -> seen w' -> w_num w' <= w_num w.
Proof. intros (_ & _ & H) Hw'. rewrite Forall_forall in H. by apply H. Qed.

(** Writes of the same key: the earlier one is newer. *)
Lemma earlier_newer ws1 ws2 w w' : ws = ws1 ++ ws2 -> w ∈ ws1 -> w' ∈ ws2 -> MemTable.w_key w = MemTable.w_key w' -> w_num w' < w_num w.
Proof.
  intros E Hw Hw' Ek. destruct (ws_lt ws1 ws2 w w' E Hw Hw') as [Hlt|[_ Hn]]; [|done]. rewrite Ek in Hlt.
  destruct (key_lt_irrefl (MemTable.w_key w')); [|done]. apply w_key_ok'. rewrite E. set_solver.
Qed.

Lemma earlier_hides ws1 ws2 w w' : ws = ws1 ++ ws2 -> w ∈ ws1 -> w' ∈ ws2 -> MemTable.w_key w = MemTable.w_key w' -> seen w -> ~ newest w'.
Proof.
  intros E Hw Hw' Ek Hsw Hn. pose proof (earlier_newer ws1 ws2 w w' E Hw Hw' Ek). assert (w ∈ ws) as Hin by (rewrite E; set_solver).
  pose proof (newest_max w' w Hn Hin Ek Hsw). lia.
Qed.

Lemma view_ordered : ordered view.
Proof.
  split.
  - unfold keys_ok, view. rewrite Forall_map. rewrite Forall_forall. intros w [_ Hw]%list_elem_of_filter. by apply w_key_ok'.
  - unfold view. assert (StronglySorted (fun w w' => entry_lt (uentry w) (uentry w')) (filter newest ws)) as H.
    2: { induction H as [|w l Hs' IH Hall]; cbn; constructor; [done|]. by rewrite Forall_map. }
    assert (forall l pre, ws = pre ++ l -> StronglySorted (fun w w' => entry_lt (uentry w) (uentry w')) (filter newest l)) as H; [|by apply (H ws [])].
    induction l as [|w l IH]; intros pre E; [constructor|]. rewrite filter_cons.
    assert (ws = (pre ++ [w]) ++ l) as E' by (rewrite <- app_assoc; exact E). case_decide as Hn; [|by eapply IH]. constructor; [by eapply IH|].
    rewrite Forall_forall. intros w' [Hn' Hw']%list_elem_of_filter.
    destruct (ws_lt (pre ++ [w]) l w w' E') as [Hlt|[Ek Hnum]]; [set_solver|done|done|].
    destruct (earlier_hides (pre ++ [w]) l w w' E'); [set_solver|done|done|by apply newest_seen|done].
Qed.

Lemma view_elem w : w ∈ ws -> newest w -> uentry w ∈ view.
Proof. intros Hw Hn. apply list_elem_of_fmap_2. by apply list_elem_of_filter. Qed.

Lemma view_inv e : e ∈ view -> exists w, w ∈ ws /\ newest w /\ e = uentry w.
Proof. intros (w & -> & [Hn Hw]%list_elem_of_filter)%list_elem_of_fmap. eauto. Qed.

(** ** Forwards *)
Definition resting d (dir : Direction) (q : option write) : Prop :=
  sequence_ d = s /\ status_ d = OK /\ db_direction_ d = dir /\ at_write (db_iter_ d) q.

Definition forward_at d (r : option write) : Prop :=
  exists q, resting d kForward q /\ match r with Some w => db_valid_ d = true /\ q = Some w | None => db_valid_ d = false end.

(** What the loop looks for. *)
Definition wanted (skipping : bool) (skip : list Z) (w : write) : Prop := newest w /\ ~ (skipping = true /\ MemTable.w_key w = skip).
#[export] Instance wanted_dec skipping skip w : Decision (wanted skipping skip w).
Proof. unfold wanted. apply _. Defined.

(** Where it stands: the key to skip is not after the next writes, and every write whose key was seen before has that key. *)
Definition scanning (ws1 ws2 : list write) (skipping : bool) (skip : list Z) : Prop :=
  (skipping = true -> key_ok skip /\ forall w, w ∈ ws2 -> ~ key_lt (MemTable.w_key w) skip) /\
  forall w w', w ∈ ws1 -> w' ∈ ws2 -> MemTable.w_key w = MemTable.w_key w' -> seen w -> skipping = true /\ MemTable.w_key w' = skip.

Lemma scanning_hidden ws1 w ws2 skipping skip : scanning ws1 (w :: ws2) skipping skip -> (seen w -> skipping = true /\ MemTable.w_key w = skip) ->
  scanning (ws1 ++ [w]) ws2 skipping skip.
Proof.
  intros [H1 H2] Hw. split.
  - intros Hsk. destruct (H1 Hsk) as [Hk Hlt]. split; [done|]. intros w' Hw'. apply Hlt. set_solver.
  - intros w1 w' [Hw1| ->%list_elem_of_singleton]%elem_of_app Hw' Ek Hseen; [eapply (H2 w1); set_solver|]. by rewrite <- Ek; apply Hw.
Qed.

Lemma scanning_deletion ws1 w ws2 skipping skip : ws = ws1 ++ w :: ws2 -> scanning ws1 (w :: ws2) skipping skip ->
  scanning (ws1 ++ [w]) ws2 true (MemTable.w_key w).
Proof.
  intros E [H1 H2]. assert (ws = (ws1 ++ [w]) ++ ws2) as E' by (by rewrite <- app_assoc).
  assert (forall w', w' ∈ ws2 -> ~ key_lt (MemTable.w_key w') (MemTable.w_key w)) as Hge.
  { intros w' Hw'. apply wlt_key; [rewrite E; set_solver..|]. apply (ws_lt (ws1 ++ [w]) ws2); set_solver. }
  split; [intros _; split; [apply w_key_ok'; rewrite E; set_solver|done]|].
  intros w1 w' [Hw1| ->%list_elem_of_singleton]%elem_of_app Hw' Ek Hseen; [|done]. split; [done|].
  destruct (H2 w1 w') as [Hsk Eskip]; [done|set_solver|done|done|]. destruct (H1 Hsk) as [Hk Hlt]. specialize (Hlt w ltac:(set_solver)). specialize (Hge w' Hw').
  assert (key_ok (MemTable.w_key w)) as Kw by (apply w_key_ok'; rewrite E; set_solver). rewrite Eskip in *.
  destruct (key_lt_cases (MemTable.w_key w) skip) as [?|[->|?]]; done.
Qed.

(** A seen write that is not skipped is the newest of its key. *)
Lemma scanning_newest ws1 w ws2 skipping skip : ws = ws1 ++ w :: ws2 -> scanning ws1 (w :: ws2) skipping skip ->
  seen w -> w_type w = kTypeValue -> ~ (skipping = true /\ MemTable.w_key w = skip) -> newest w.
Proof.
  intros E [_ H2] Hseen Ht Hn. split_and!; [done..|]. rewrite Forall_forall. intros w' Hw' Ek Hs'. rewrite E in Hw'.
  apply elem_of_app in Hw' as [Hw'|[->|Hw']%elem_of_cons]; [|lia|].
  - exfalso. apply Hn. apply (H2 w'); [done|set_solver|done|done].
  - assert (ws = (ws1 ++ [w]) ++ ws2) as E' by (by rewrite <- app_assoc).
    pose proof (earlier_newer (ws1 ++ [w]) ws2 w w' E'). assert (w ∈ ws1 ++ [w]) as Hw by set_solver. specialize (H Hw Hw' (eq_sym Ek)). lia.
Qed.

Lemma head_filter_ext (P Q : write -> Prop) {HP : forall w, Decision (P w)} {HQ : forall w, Decision (Q w)} (l : list write) :
  (forall w, w ∈ l -> P w <-> Q w) -> filter P l = filter Q l.
Proof.
  induction l as [|w l IH]; intros H; [done|]. rewrite !filter_cons, IH by set_solver. assert (P w <-> Q w) by set_solver.
  destruct (decide (P w)), (decide (Q w)); tauto.
Qed.

Lemma filter_no (P : write -> Prop) {HP : forall w, Decision (P w)} (l : list write) : (forall w, w ∈ l -> ~ P w) -> filter P l = [].
Proof. induction l as [|w l IH]; intros H; [done|]. rewrite filter_cons_False by set_solver. apply IH. set_solver. Qed.

Lemma find_next_ok n ws1 ws2 d skipping : ws = ws1 ++ ws2 -> ws2 <> [] -> (length ws2 <= n)%nat -> resting d kForward (head ws2) ->
  scanning ws1 ws2 skipping (saved_key_ d) ->
  exists d', find_next (user_comparator_ := user) n d skipping = Ok d' /\ forward_at d' (head (filter (wanted skipping (saved_key_ d)) ws2)).
Proof.
  revert ws1 ws2 d skipping; induction n as [|n IH]; intros ws1 [|w ws2] d skipping E Hne Hn Hr Hsc; try done; [cbn in Hn; lia|].
  destruct Hr as (Hseq & Hst & Hdir & Hat). cbn [head] in Hat. assert (w ∈ ws) as Hw by (rewrite E; set_solver).
  assert (ws = (ws1 ++ [w]) ++ ws2) as E' by (by rewrite <- app_assoc). cbn [find_next].
  rewrite (ParseKey_at _ _ Hat Hw), bind_Ok. cbn [sequence type user_key].
  assert (forall d1 sk1, resting d1 kForward (Some w) -> scanning (ws1 ++ [w]) ws2 sk1 (saved_key_ d1) -> exists d',
    (it ← it_Next (db_iter_ d1); if it_Valid it then find_next (user_comparator_ := user) n (set_iter d1 it) sk1
       else Ok (set_valid (SaveKey (set_iter d1 it) []) false)) = Ok d' /\ forward_at d' (head (filter (wanted sk1 (saved_key_ d1)) ws2))) as Hadv.
  { intros d1 sk1 (Hseq1 & Hst1 & Hdir1 & Hat1) Hsc1. destruct (at_Next _ _ _ _ Hat1 E) as (it' & -> & Hat'). rewrite bind_Ok, (at_Valid _ _ Hat').
    destruct ws2 as [|w2 ws2]; cbn [head] in *; [rewrite bool_decide_false by (by intros [])|rewrite bool_decide_true by done].
    - eexists. split; [done|]. by exists None.
    - apply (IH (ws1 ++ [w]) (w2 :: ws2) (set_iter d1 it') sk1); [done|done|cbn in *; lia|done|done]. }
  assert (resting d kForward (Some w)) as Hrest by done. cbv zeta.
  destruct (Z.leb_spec (w_seq w) (sequence_ d)) as [Hle|Hgt]; rewrite Hseq in *.
  2: { assert (~ seen w) as Hns by (unfold seen; lia). rewrite filter_cons_False by (intros [Hnew _]; by apply Hns, newest_seen).
       apply Hadv; [done|]. apply scanning_hidden; [done|]. intros Hsn. done. }
  destruct (Z.eqb_spec (w_type w) kTypeDeletion) as [Et|Et].
  - rewrite filter_cons_False by (intros [(_ & Ht & _) _]; rewrite Et in Ht; done).
    rewrite (head_filter_ext (wanted skipping (saved_key_ d)) (wanted true (MemTable.w_key w)) ws2).
    { apply (Hadv (SaveKey d (MemTable.w_key w)) true); [done|]. by eapply scanning_deletion. }
    intros w' Hw'. split; intros [Hnew Hno]; (split; [done|]).
    + intros [_ Ek]. by apply (earlier_hides (ws1 ++ [w]) ws2 w w' E'); [set_solver|..].
    + intros [Hsk Ek]. destruct Hsc as [H1 _]. destruct (H1 Hsk) as [Hk Hlt]. pose proof (Hlt w ltac:(set_solver)) as H3.
      assert (~ key_lt (MemTable.w_key w') (MemTable.w_key w)) as H4.
      { apply wlt_key; [done|rewrite E; set_solver|]. apply (ws_lt (ws1 ++ [w]) ws2); set_solver. }
      apply Hno. split; [done|]. rewrite Ek in *. destruct (key_lt_cases (MemTable.w_key w) (saved_key_ d)) as [?|[->|?]]; try done. by apply w_key_ok'.
  - assert (w_type w = kTypeValue) as Et'.
    { destruct (w_ok w Hw) as [_ Ht _ _ _]. change kTypeValue with 1 in *. change kTypeDeletion with 0 in *. lia. }
    rewrite Et'. cbn [Z.eqb]. change (kTypeValue =? kTypeValue) with true. cbv iota.
    assert (exists b : bool, (if skipping then c ← Compare (MemTable.w_key w) (saved_key_ d); Ok (c <=? 0) else Ok false) = Ok b /\
      (b = true <-> skipping = true /\ MemTable.w_key w = saved_key_ d)) as (b & -> & Hb).
    { destruct skipping; [|exists false; split; [done|]; naive_solver]. destruct Hsc as [H1 _]. destruct (H1 eq_refl) as [Hk Hlt].
      pose proof (w_key_ok' w Hw) as Kw. rewrite Compare_ok, bind_Ok by done. eexists. split; [done|]. rewrite Z.leb_le.
      specialize (Hlt w ltac:(set_solver)). unfold key_lt in Hlt. split; [intros; split; [done|]; apply cmp_eq; [done..|lia]|]. intros [_ ->]. rewrite cmp_refl by done. lia. }
    rewrite bind_Ok. destruct b.
    + destruct (proj1 Hb eq_refl) as [Hsk Ek]. rewrite filter_cons_False by (intros [_ Hno]; by apply Hno).
      apply Hadv; [done|]. by apply scanning_hidden.
    + assert (~ (skipping = true /\ MemTable.w_key w = saved_key_ d)) as Hno by (intros H; by apply Hb in H).
      rewrite filter_cons_True by (split; [by eapply scanning_newest|done]). eexists. split; [done|]. by exists (Some w).
Qed.

(** ** The state of the iterator *)

(** The writes below a key that are seen. *)
Definition seen_below (k : list Z) (w : write) : Prop := seen w /\ key_lt (MemTable.w_key w) k.
#[export] Instance seen_below_dec k w : Decision (seen_below k w).
Proof. unfold seen_below. apply _. Defined.

Definition db_at d (p : option entry) : Prop :=
  match p with
  | None => db_valid_ d = false /\ exists dir q, resting d dir q
  | Some e => db_valid_ d = true /\ exists w, w ∈ ws /\ newest w /\ e = uentry w /\
      (resting d kForward (Some w) \/
       resting d kReverse (last (filter (seen_below (MemTable.w_key w)) ws)) /\ saved_key_ d = MemTable.w_key w /\ saved_value_ d = MemTable.w_value w)
  end.

Lemma filter_view (P : entry -> Prop) {HP : forall e, Decision (P e)} (l : list write) :
  filter P (map uentry (filter newest l)) = map uentry (filter (fun w => newest w /\ P (uentry w)) l).
Proof.
  induction l as [|w l IH]; [done|]. rewrite (filter_cons newest), (filter_cons (fun w => newest w /\ P (uentry w))).
  destruct (decide (newest w)) as [Hn|Hn].
  - cbn [map]. rewrite filter_cons, IH. destruct (decide (P (uentry w))); [rewrite decide_True by done|rewrite decide_False by tauto]; done.
  - rewrite IH, decide_False by tauto. done.
Qed.

(** The first of the view, found in the rest of the writes. *)
Lemma view_first (P : entry -> Prop) {HP : forall e, Decision (P e)} (Q : write -> Prop) {HQ : forall w, Decision (Q w)} ws1 ws2 :
  ws = ws1 ++ ws2 -> (forall w, w ∈ ws1 -> newest w -> ~ P (uentry w)) -> (forall w, w ∈ ws2 -> Q w <-> newest w /\ P (uentry w)) ->
  first_such P view = uentry <$> head (filter Q ws2).
Proof.
  intros E H1 H2. unfold first_such, view. rewrite filter_view.
  assert (filter (fun w => newest w /\ P (uentry w)) ws = filter (fun w => newest w /\ P (uentry w)) ws1 ++ filter (fun w => newest w /\ P (uentry w)) ws2) as ->
    by (rewrite <- filter_app; by rewrite <- E).
  assert (filter (fun w => newest w /\ P (uentry w)) ws1 = []) as ->.
  { apply filter_no. intros w Hw [Hn HPw]. by apply (H1 w). }
  rewrite (head_filter_ext _ Q ws2) by (intros w Hw; symmetry; by apply H2). by destruct (filter Q ws2).
Qed.

Lemma view_last (P : entry -> Prop) {HP : forall e, Decision (P e)} ws1 ws2 :
  ws = ws1 ++ ws2 -> (forall w, w ∈ ws2 -> newest w -> ~ P (uentry w)) -> (forall w, w ∈ ws1 -> newest w -> P (uentry w)) ->
  last_such P view = uentry <$> last (filter newest ws1).
Proof.
  intros E H2 H1. unfold last_such, view. rewrite filter_view.
  assert (filter (fun w => newest w /\ P (uentry w)) ws = filter (fun w => newest w /\ P (uentry w)) ws1 ++ filter (fun w => newest w /\ P (uentry w)) ws2) as ->
    by (rewrite <- filter_app; by rewrite <- E).
  assert (filter (fun w => newest w /\ P (uentry w)) ws2 = []) as ->.
  { apply filter_no. intros w Hw [Hn HPw]. by apply (H2 w). }
  rewrite app_nil_r, (head_filter_ext _ newest ws1) by (intros w Hw; specialize (H1 w Hw); tauto). by rewrite <- fmap_last.
Qed.

Definition front_at d (p : option entry) : Prop := db_at d p /\ db_direction_ d = kForward.

Lemma forward_db_at d (Q : write -> Prop) {HQ : forall w, Decision (Q w)} ws1 ws2 : ws = ws1 ++ ws2 -> (forall w, w ∈ ws2 -> Q w -> newest w) ->
  forward_at d (head (filter Q ws2)) -> front_at d (uentry <$> head (filter Q ws2)).
Proof.
  intros E HQn (q & Hr & H). split; [|apply Hr]. destruct (head (filter Q ws2)) as [w|] eqn:Eh; cbn.
  - destruct H as [Hv ->]. split; [done|]. assert (w ∈ filter Q ws2) as [HQw Hw]%list_elem_of_filter.
    { destruct (filter Q ws2); [done|]. injection Eh as ->. set_solver. }
    exists w. split_and!; [rewrite E; set_solver|by apply HQn|done|by left].
  - split; [done|]. by exists kForward, q.
Qed.

Lemma FindNextUserEntry_ok ws1 ws2 d skipping : ws = ws1 ++ ws2 -> ws2 <> [] -> resting d kForward (head ws2) ->
  scanning ws1 ws2 skipping (saved_key_ d) ->
  exists d', FindNextUserEntry (user_comparator_ := user) fuel d skipping = Ok d' /\ front_at d' (uentry <$> head (filter (wanted skipping (saved_key_ d)) ws2)).
Proof.
  intros E Hne Hr Hsc. unfold FindNextUserEntry. destruct Hr as (Hseq & Hst & Hdir & Hat). rewrite (at_Valid _ _ Hat), Hdir.
  rewrite (bool_decide_true (is_Some (head ws2))) by (destruct ws2; [done|by eexists]). cbn [c_assert].
  rewrite bind_Ok, (bool_decide_true (kForward = kForward)) by done. cbn [c_assert]. rewrite bind_Ok.
  destruct (find_next_ok fuel ws1 ws2 d skipping E Hne) as (d' & -> & Hf); [|done|done|].
  { apply (f_equal length) in E. rewrite length_app in E. lia. }
  exists d'. split; [done|]. eapply forward_db_at; [done| |done]. by intros w _ [].
Qed.

Lemma db_at_resting d p : db_at d p -> exists dir q, resting d dir q.
Proof. destruct p as [e|]; [|by intros [_ H]]. intros (_ & w & _ & _ & _ & [H|(H & _)]); eauto. Qed.

Lemma db_SeekToFirst_ok d p : db_at d p -> exists d', db_SeekToFirst (user_comparator_ := user) fuel d = Ok d' /\ front_at d' (head view).
Proof.
  intros (dir & q & Hseq & Hst & Hdir & Hat)%db_at_resting. unfold db_SeekToFirst. cbn [db_iter_ ClearSavedValue SaveValue set_direction].
  unfold at_write in Hat. destruct (SeekToFirst_ok _ _ _ Hat) as (it & -> & Hit). rewrite bind_Ok.
  assert (at_write it (head ws)) as Hat' by (unfold at_write; by destruct ws). clear Hit. rewrite (at_Valid _ _ Hat').
  assert (head view = uentry <$> head (filter (wanted false (saved_key_ d)) ws)) as ->.
  { rewrite <- first_all. apply (view_first _ _ [] ws); [done|set_solver|]. intros w _. unfold wanted. naive_solver. }
  destruct (decide (ws = [])) as [Ew|Ew].
  - rewrite (bool_decide_false (is_Some (head ws))) by (rewrite Ew; by intros []). eexists. split; [done|]. rewrite Ew. cbn. split; [|done]. split; [done|]. exists kForward, (head ws). done.
  - rewrite (bool_decide_true (is_Some (head ws))) by (destruct ws; [done|by eexists]). apply (FindNextUserEntry_ok [] ws (set_iter (ClearSavedValue (set_direction d kForward)) it) false); [done..| |].
    + split_and!; done.
    + split; [done|]. set_solver.
Qed.

Lemma db_Seek_ok d p k : db_at d p -> key_ok k -> exists d', db_Seek (user_comparator_ := user) fuel d k = Ok d' /\ front_at d' (from k view).
Proof.
  intros (dir & q & Hseq & Hst & Hdir & Hat)%db_at_resting Hk. unfold db_Seek. cbn [db_iter_ sequence_ ClearSavedValue SaveValue set_direction SaveKey].
  destruct (ParseInternalKey_Append k s kValueTypeForSeek Hs) as (ik & E & -> & _); [by_decide|]. rewrite Hseq, E, bind_Ok.
  assert (is_u64 (pack s kValueTypeForSeek)) as Hnum by (apply pack_u64; [done|by_decide]).
  unfold at_write in Hat. destruct (Seek_ok _ _ _ (ikey k (pack s kValueTypeForSeek)) Hat) as (it & -> & Hit); [by apply ikey_ok|]. rewrite bind_Ok.
  (* the writes before and after the target *)
  assert (exists ws1 ws2, ws = ws1 ++ ws2 /\ (forall w, w ∈ ws1 -> key_lt (MemTable.w_key w) k \/ MemTable.w_key w = k /\ ~ seen w) /\
    (forall w, w ∈ ws2 -> ~ key_lt (MemTable.w_key w) k) /\ at_write it (head ws2)) as (ws1 & ws2 & E2 & H1 & H2 & Hat').
  { assert (forall w, w ∈ ws -> key_lt (C := @InternalKeyComparator user) (write_entry w).1 (ikey k (pack s kValueTypeForSeek)) <->
      key_lt (MemTable.w_key w) k \/ MemTable.w_key w = k /\ ~ seen w) as Hlt.
    { intros w Hw. pose proof (w_ok w Hw) as Wok. pose proof Wok as [Ws Wt Wk _ _]. unfold key_lt. cbn [write_entry fst cmp internal_comparator_ok].
      rewrite internal_cmp_lt by (done || by apply w_num_u64). unfold w_num, pack, seen. change kValueTypeForSeek with 1. change kTypeValue with 1 in Wt. intuition lia. }
    unfold from in Hit. destruct (first_such _ es) as [e|] eqn:Ef.
    - apply first_such_split in Ef as (es1 & es2 & Ees & F1 & Fe). apply map_eq_app in Ees as (ws1 & ws2' & E2 & <- & E3).
      apply map_eq_cons in E3 as (w & ws2 & -> & <- & <-). exists ws1, (w :: ws2).
      assert (forall w', w' ∈ w :: ws2 -> ~ key_lt (MemTable.w_key w') k) as H2.
      { intros w' Hw' Hlt'. apply Fe. apply Hlt; [rewrite E2; set_solver|]. left. apply elem_of_cons in Hw' as [->|Hw']; [done|].
        assert (wlt w w') as Hww by (apply (ws_lt (ws1 ++ [w]) ws2); [by rewrite <- app_assoc|set_solver|done]).
        assert (w ∈ ws /\ w' ∈ ws) as [Hw Hw2] by (rewrite E2; set_solver). destruct Hww as [Hk1|[-> _]]; [|done].
        by apply (key_lt_trans _ (MemTable.w_key w')); [by apply w_key_ok'..|done| |]. }
      split_and!; [done| |done|done]. intros w' Hw'. rewrite Forall_map, Forall_forall in F1. specialize (F1 w' Hw'). apply dec_stable in F1.
      apply Hlt; [rewrite E2; set_solver|done].
    - exists ws, []. rewrite app_nil_r. split_and!; [done| |set_solver|done]. intros w Hw. pose proof (proj1 (first_such_None _ es) Ef (write_entry w)) as Hn.
      apply Hlt; [done|]. apply dec_stable, Hn. by apply list_elem_of_fmap_2. }
  rewrite (at_Valid _ _ Hat'). assert (from k view = uentry <$> head (filter (wanted false (ikey k (pack s kValueTypeForSeek))) ws2)) as ->.
  { apply (view_first _ _ ws1 ws2); [done|..].
    - intros w Hw Hn. cbn. intros Hnlt. destruct (H1 w Hw) as [?|[_ Hns]]; [done|]. by apply Hns, newest_seen.
    - intros w Hw. specialize (H2 w Hw). unfold wanted. cbn. naive_solver. }
  destruct ws2 as [|w ws2]; cbn [head] in *.
  - rewrite bool_decide_false by (by intros []). eexists. split; [done|]. split; [|done]. split; [done|]. by exists kForward, None.
  - rewrite bool_decide_true by done. apply (FindNextUserEntry_ok ws1 (w :: ws2) (set_iter (SaveKey (ClearSavedValue (set_direction d kForward)) (ikey k (pack s kValueTypeForSeek))) it) false); [done..| |].
    + split_and!; done.
    + split; [done|]. intros w1 w' Hw1 Hw' Ek Hseen. exfalso. destruct (H1 w1 Hw1) as [Hlt|[_ ?]]; [|done]. rewrite Ek in Hlt. by apply (H2 w').
Qed.

(** [Next] from an internal iterator at any write of the current key. *)
Lemma next_from d ws1 w ws2 : ws = ws1 ++ w :: ws2 -> resting d kForward (Some w) ->
  exists d', (k ← it_key (db_iter_ d); uk ← ExtractUserKey k; FindNextUserEntry (user_comparator_ := user) fuel (SaveKey d uk) true) = Ok d' /\
    front_at d' (after (MemTable.w_key w) view).
Proof.
  intros E Hr. pose proof Hr as (Hseq & Hst & Hdir & Hat). destruct (at_user_key _ _ Hat) as (k & -> & Ek). rewrite bind_Ok, Ek, bind_Ok.
  assert (w ∈ ws) as Hw by (rewrite E; set_solver). pose proof (w_key_ok' w Hw) as Kw.
  assert (ws = (ws1 ++ [w]) ++ ws2) as E' by (by rewrite <- app_assoc).
  assert (forall w', w' ∈ w :: ws2 -> ~ key_lt (MemTable.w_key w') (MemTable.w_key w)) as Hge.
  { intros w' [->|Hw']%elem_of_cons; [by apply key_lt_irrefl|]. apply wlt_key; [done|rewrite E; set_solver|].
    apply (ws_lt (ws1 ++ [w]) ws2); set_solver. }
  assert (forall w1, w1 ∈ ws1 -> ~ key_lt (MemTable.w_key w) (MemTable.w_key w1)) as Hle.
  { intros w1 Hw1. apply wlt_key; [rewrite E; set_solver|done|]. apply (ws_lt ws1 (w :: ws2)); set_solver. }
  assert (after (MemTable.w_key w) view = uentry <$> head (filter (wanted true (MemTable.w_key w)) (w :: ws2))) as ->.
  { apply (view_first _ _ ws1 (w :: ws2)); [done|intros w1 Hw1 _; by apply Hle|]. intros w' Hw'. specialize (Hge w' Hw').
    assert (w' ∈ ws) as Hin by (rewrite E; set_solver). unfold wanted. cbn. split; intros [Hn H]; (split; [done|]).
    - apply not_key_lt in Hge as [Ee|?]; [|done|by apply w_key_ok'|done]. destruct H. done.
    - intros [_ Ee]. rewrite Ee in H. by apply (key_lt_irrefl (MemTable.w_key w)). }
  apply (FindNextUserEntry_ok ws1 (w :: ws2) (SaveKey d (MemTable.w_key w)) true); [done..|]. cbn. split; [done|].
  intros w1 w' Hw1 Hw' Ee _. split; [done|]. specialize (Hge w' Hw'). specialize (Hle w1 Hw1). rewrite Ee in Hle.
  apply not_key_lt in Hge as [?|?]; [done|done|apply w_key_ok'; rewrite E; set_solver|done].
Qed.

Lemma db_Next_forward d e w : db_valid_ d = true -> w ∈ ws -> e = uentry w -> resting d kForward (Some w) ->
  exists d', db_Next (user_comparator_ := user) fuel d = Ok d' /\ front_at d' (after e.1 view).
Proof.
  intros Hv Hw -> Hr. pose proof Hr as (_ & _ & Hdir & _). unfold db_Next. rewrite Hv, Hdir. cbn [c_assert]. rewrite bind_Ok, decide_False, bind_Ok by done.
  apply list_elem_of_split in Hw as (ws1 & ws2 & E). by eapply next_from.
Qed.

(** Backwards to forwards, where the snapshot hides nothing. *)
Lemma db_Next_turn d w : Forall seen ws -> db_valid_ d = true -> w ∈ ws -> newest w ->
  resting d kReverse (last (filter (seen_below (MemTable.w_key w)) ws)) ->
  exists d', db_Next (user_comparator_ := user) fuel d = Ok d' /\ front_at d' (after (MemTable.w_key w) view).
Proof.
  intros Hall Hv Hw Hn (Hseq & Hst & Hdir & Hat). unfold db_Next. rewrite Hv, Hdir. cbn [c_assert]. rewrite bind_Ok, decide_True by done.
  cbn [db_iter_ set_direction]. rewrite (at_Valid _ _ Hat). pose proof (w_key_ok' w Hw) as Kw.
  (* the first write that is not below the key has it *)
  assert (exists ws1 w0 ws2, ws = ws1 ++ w0 :: ws2 /\ MemTable.w_key w0 = MemTable.w_key w /\ last (filter (seen_below (MemTable.w_key w)) ws) = last ws1)
    as (ws1 & w0 & ws2 & E & Ek & El).
  { assert (forall l pre, ws = pre ++ l -> Forall (fun x => key_lt (MemTable.w_key x) (MemTable.w_key w)) pre -> w ∈ l ->
      exists ws1 w0 ws2, ws = ws1 ++ w0 :: ws2 /\ MemTable.w_key w0 = MemTable.w_key w /\ Forall (fun x => key_lt (MemTable.w_key x) (MemTable.w_key w)) ws1) as H.
    { induction l as [|x l IH]; intros pre E Hpre Hin; [by apply not_elem_of_nil in Hin|].
      destruct (decide (key_lt (MemTable.w_key x) (MemTable.w_key w))) as [Hlt|Hge].
      - apply (IH (pre ++ [x])); [by rewrite <- app_assoc|apply Forall_app; by repeat constructor|].
        apply elem_of_cons in Hin as [->|?]; [by apply key_lt_irrefl in Hlt|done].
      - exists pre, x, l. split_and!; [done| |done]. apply elem_of_cons in Hin as [->|Hin]; [done|].
        assert (wlt x w) as Hxw by (apply (ws_lt (pre ++ [x]) l); [by rewrite <- app_assoc|set_solver|done]).
        destruct Hxw as [?|[-> _]]; done. }
    destruct (H ws [] eq_refl) as (ws1 & w0 & ws2 & E & Ek & Hlt); [constructor|done|]. exists ws1, w0, ws2. split_and!; [done..|].
    assert (filter (seen_below (MemTable.w_key w)) ws = ws1) as ->; [|done]. rewrite E, filter_app. rewrite E, Forall_app in Hall. destruct Hall as [Ha1 Ha2].
    assert (filter (seen_below (MemTable.w_key w)) ws1 = ws1) as ->.
    { clear -Ha1 Hlt. induction ws1 as [|x l IH]; [done|]. inversion Ha1; inversion Hlt; subst. rewrite filter_cons_True by done. f_equal. by apply IH. }
    assert (filter (seen_below (MemTable.w_key w)) (w0 :: ws2) = []) as ->; [|by rewrite app_nil_r]. apply filter_no. intros x Hx [_ Hlt'].
    apply elem_of_cons in Hx as [->|Hx]; [rewrite Ek in Hlt'; by apply key_lt_irrefl in Hlt'|].
    rewrite <- Ek in Hlt'. apply (wlt_key w0 x); [rewrite E; set_solver..| |done]. apply (ws_lt (ws1 ++ [w0]) ws2); [by rewrite <- app_assoc|set_solver|done]. }
  assert (exists it, (if negb (bool_decide (is_Some (last (filter (seen_below (MemTable.w_key w)) ws)))) then it_SeekToFirst (db_iter_ d) else it_Next (db_iter_ d)) = Ok it /\
    at_write it (Some w0)) as (it & -> & Hit).
  { rewrite El in *. destruct ws1 as [|x ws1 _] using rev_ind.
    - rewrite bool_decide_false by (by intros []). cbn. unfold at_write in Hat. destruct (SeekToFirst_ok _ _ _ Hat) as (it & Ei & Hit). exists it. split; [done|].
      unfold at_write. rewrite E in Hit |- *. done.
    - rewrite last_snoc in *. rewrite bool_decide_true by done. cbn. rewrite <- app_assoc in E. destruct (at_Next _ _ _ _ Hat E) as (it & Ei & Hit). by exists it. }
  rewrite bind_Ok, (at_Valid _ _ Hit), bool_decide_true by done. cbn [negb]. rewrite bind_Ok.
  destruct (next_from (set_iter (set_direction d kForward) it) ws1 w0 ws2 E) as (d' & Ed & Hd'); [done|]. rewrite Ek in Hd'. by exists d'.
Qed.

(** ** Backwards *)

(** What the loop has saved of the writes it has passed: nothing, or the last seen write, a value. *)
Definition candidate (mid : list write) d (vt : Z) (c : option write) : Prop :=
  match c with
  | None => vt = kTypeDeletion
  | Some f => vt = kTypeValue /\ saved_key_ d = MemTable.w_key f /\ saved_value_ d = MemTable.w_value f /\ seen f /\ w_type f = kTypeValue /\
      exists m1 m2, mid = m1 ++ f :: m2 /\ Forall (fun w => ~ seen w) m1
  end.

Definition held (c : option write) : list write := match c with Some f => [f] | None => [] end.

Definition reverse_at d (vt : Z) (r : option write) : Prop :=
  match r with
  | None => vt = kTypeDeletion /\ exists q, resting d kReverse q
  | Some w => vt = kTypeValue /\ w ∈ ws /\ newest w /\ resting d kReverse (last (filter (seen_below (MemTable.w_key w)) ws)) /\
      saved_key_ d = MemTable.w_key w /\ saved_value_ d = MemTable.w_value w
  end.

(** Where every write that is left is below the saved one, that one is the answer. *)
Lemma candidate_newest ws1 mid d vt f : ws = ws1 ++ mid -> candidate mid d vt (Some f) ->
  (forall w, w ∈ ws1 -> key_lt (MemTable.w_key w) (MemTable.w_key f)) -> f ∈ ws /\ newest f.
Proof.
  intros E (_ & _ & _ & Hf & Ht & m1 & m2 & -> & Hm1) Hlt. assert (f ∈ ws) as Hin by (rewrite E; set_solver). split; [done|].
  split_and!; [done..|]. rewrite Forall_forall. intros w' Hw' Ek Hs'. rewrite E in Hw'. rewrite Forall_forall in Hm1.
  apply elem_of_app in Hw' as [Hw'|[Hw'|[->|Hw']%elem_of_cons]%elem_of_app]; [| |done|].
  - exfalso. apply (key_lt_irrefl (MemTable.w_key f)); [by apply w_key_ok'|]. rewrite <- Ek at 1. by apply Hlt.
  - by apply Hm1 in Hw'.
  - apply Z.lt_le_incl, (earlier_newer (ws1 ++ m1 ++ [f]) m2); [by rewrite <- !app_assoc|set_solver|done|done].
Qed.

Lemma candidate_below ws1 mid d vt f : ws = ws1 ++ mid -> candidate mid d vt (Some f) ->
  (forall w, w ∈ ws1 -> key_lt (MemTable.w_key w) (MemTable.w_key f)) -> (forall w, last ws1 = Some w -> seen w) ->
  last (filter (seen_below (MemTable.w_key f)) ws) = last ws1.
Proof.
  intros E (_ & _ & _ & Hf & _ & m1 & m2 & -> & Hm1) Hlt Hlast. rewrite Forall_forall in Hm1. assert (f ∈ ws) as Hin by (rewrite E; set_solver).
  rewrite E, !filter_app, (filter_no _ m1), (filter_no _ (f :: m2)), !app_nil_r.
  - destruct ws1 as [|w l _] using rev_ind; [done|]. rewrite last_snoc in *. rewrite filter_app, filter_cons_True, filter_nil, last_snoc; [done|].
    split; [by apply Hlast|apply Hlt; set_solver].
  - intros w [->|Hw]%elem_of_cons [_ Hlt']; [by apply key_lt_irrefl in Hlt'; [|apply w_key_ok']|].
    apply (wlt_key f w); [done|rewrite E; set_solver| |done]. apply (ws_lt (ws1 ++ m1 ++ [f]) m2); [by rewrite <- !app_assoc|set_solver|done].
  - intros w Hw [Hs' _]. by apply (Hm1 w).
Qed.

Lemma candidate_answer ws1 mid d vt c : ws = ws1 ++ mid -> candidate mid d vt c -> resting d kReverse (last ws1) ->
  match c with
  | None => ws1 = []
  | Some f => (forall w, w ∈ ws1 -> key_lt (MemTable.w_key w) (MemTable.w_key f)) /\ (forall w, last ws1 = Some w -> seen w)
  end -> reverse_at d vt (last (filter newest (ws1 ++ held c))).
Proof.
  intros E Hc Hr H. destruct c as [f|]; cbn [held].
  - destruct H as [Hlt Hlast]. destruct (candidate_newest _ _ _ _ _ E Hc Hlt) as [Hin Hn].
    rewrite filter_app, filter_cons_True, filter_nil, last_snoc by done. pose proof Hc as (Hvt & Hk & Hv & _).
    split_and!; [done..| |done|done]. by rewrite (candidate_below _ _ _ _ _ E Hc Hlt Hlast).
  - subst ws1. split; [done|]. by eexists.
Qed.

(** One write further. *)
Lemma candidate_unseen l w mid d vt c : ~ seen w -> candidate mid d vt c ->
  candidate (w :: mid) d vt c /\ filter newest ((l ++ [w]) ++ held c) = filter newest (l ++ held c).
Proof.
  intros Hw Hc. split.
  - destruct c as [f|]; [|done]. destruct Hc as (H1 & H2 & H3 & H4 & H5 & m1 & m2 & -> & Hm). split_and!; [done..|].
    exists (w :: m1), m2. split; [done|]. by constructor.
  - rewrite <- app_assoc, !filter_app. f_equal. rewrite (filter_no newest [w]); [done|]. intros x ->%list_elem_of_singleton Hn. by apply Hw, newest_seen.
Qed.

(** A seen write with the key of the saved one takes its place. *)
Lemma candidate_replaced l w mid d vt c : ws = (l ++ [w]) ++ mid -> seen w -> candidate mid d vt c ->
  match c with None => True | Some f => ~ key_lt (MemTable.w_key w) (MemTable.w_key f) end ->
  filter newest ((l ++ [w]) ++ held c) = filter newest (l ++ [w]).
Proof.
  intros E Hw Hc Hk. destruct c as [f|]; cbn [held]; [|by rewrite app_nil_r].
  rewrite filter_app, (filter_no newest [f]), app_nil_r; [done|]. intros x ->%list_elem_of_singleton Hn.
  destruct Hc as (_ & _ & _ & Hf & _ & m1 & m2 & -> & _). assert (f ∈ m1 ++ f :: m2) as Hfm by set_solver.
  destruct (ws_lt _ _ w f E ltac:(set_solver) Hfm) as [?|[Ek _]]; [done|].
  by apply (earlier_hides (l ++ [w]) (m1 ++ f :: m2) w f E); [set_solver|..].
Qed.

Lemma find_prev_ok n ws1 mid d vt c : ws = ws1 ++ mid -> ws1 <> [] -> (length ws1 <= n)%nat -> resting d kReverse (last ws1) -> candidate mid d vt c ->
  exists vt' d', find_prev (user_comparator_ := user) n d vt = Ok (vt', d') /\ reverse_at d' vt' (last (filter newest (ws1 ++ held c))).
Proof.
  revert ws1 mid d vt c; induction n as [|n IH]; intros ws1 mid d vt c E Hne Hn Hr Hc; [by destruct ws1; cbn in Hn; [|lia]|].
  destruct ws1 as [|w l _] using rev_ind; [done|]. clear Hne. rewrite last_snoc in Hr. rewrite length_app in Hn. cbn in Hn.
  pose proof Hr as (Hseq & Hst & Hdir & Hat). assert (w ∈ ws) as Hw by (rewrite E; set_solver). assert (ws = l ++ w :: mid) as E' by (by rewrite <- app_assoc in E).
  cbn [find_prev]. rewrite (ParseKey_at _ _ Hat Hw), bind_Ok. cbn [sequence type user_key]. cbv zeta.
  assert (forall d1 vt1 c1, resting d1 kReverse (Some w) -> candidate (w :: mid) d1 vt1 c1 -> exists vt' d',
    (it ← it_Prev (db_iter_ d1); if it_Valid it then find_prev (user_comparator_ := user) n (set_iter d1 it) vt1 else Ok (vt1, set_iter d1 it)) = Ok (vt', d') /\
    reverse_at d' vt' (last (filter newest (l ++ held c1)))) as Hback.
  { intros d1 vt1 c1 (Hseq1 & Hst1 & Hdir1 & Hat1) Hc1. destruct (at_Prev _ _ _ _ Hat1 E') as (it' & -> & Hat'). rewrite bind_Ok, (at_Valid _ _ Hat').
    destruct (decide (l = [])) as [->|Hl].
    - rewrite bool_decide_false by (by intros []). eexists _, _. split; [done|]. eapply (candidate_answer [] (w :: mid)); [done..|]. destruct c1; set_solver.
    - rewrite bool_decide_true by (destruct (last l) eqn:El; [done|by apply last_None in El]). by eapply (IH l (w :: mid)); [..|lia| |]. }
  destruct (Z.leb_spec (w_seq w) (sequence_ d)) as [Hle|Hgt]; rewrite Hseq in *.
  2: { destruct (candidate_unseen l w mid d vt c) as [Hc' ->]; [unfold seen; lia|done|]. by apply Hback. }
  assert (exists b : bool, (if negb (vt =? kTypeDeletion) then x ← Compare (MemTable.w_key w) (saved_key_ d); Ok (x <? 0) else Ok false) = Ok b /\
    (b = true <-> exists f, c = Some f /\ key_lt (MemTable.w_key w) (MemTable.w_key f))) as (b & -> & Hb).
  { destruct c as [f|]; [|rewrite Hc; exists false; split; [done|]; naive_solver]. pose proof Hc as (-> & Hk & _ & _ & _ & m1 & m2 & Em & _).
    assert (f ∈ ws) as Hf by (rewrite E, Em; set_solver). change (kTypeValue =? kTypeDeletion) with false. cbn [negb].
    rewrite Hk, Compare_ok, bind_Ok by (by apply w_key_ok'). eexists. split; [done|]. rewrite Z.ltb_lt. unfold key_lt. naive_solver. }
  rewrite bind_Ok. destruct b.
  - destruct (proj1 Hb eq_refl) as (f & -> & Hlt). eexists _, _. split; [done|]. eapply (candidate_answer (l ++ [w]) mid); [done..|by rewrite last_snoc|].
    assert (f ∈ ws) as Hf. { destruct Hc as (_ & _ & _ & _ & _ & m1 & m2 & -> & _). rewrite E. set_solver. }
    split; [|intros x; rewrite last_snoc; by intros [= <-]]. intros x [Hx| ->%list_elem_of_singleton]%elem_of_app; [|done].
    assert (x ∈ ws) as Hxs by (rewrite E; set_solver). destruct (ws_lt l (w :: mid) x w E') as [Hxw|[-> _]]; [done|set_solver| |done].
    by apply (key_lt_trans _ (MemTable.w_key w)); [by apply w_key_ok'..| |].
  - rewrite (candidate_replaced l w mid d vt c E Hle Hc) by (destruct c; [intros Hlt; by assert (false = true) by (apply Hb; eauto)|done]).
    destruct (Z.eqb_spec (w_type w) kTypeDeletion) as [Et|Et].
    + rewrite filter_app, (filter_no newest [w]), app_nil_r by (intros x ->%list_elem_of_singleton (_ & Ht & _); rewrite Et in Ht; done).
      destruct (Hback (ClearSavedValue (SaveKey d [])) (w_type w) None) as (vt' & d' & Ed & H); [done|done|]. cbn [held] in H. rewrite app_nil_r in H. by eexists _, _.
    + assert (w_type w = kTypeValue) as Et'.
      { destruct (w_ok w Hw) as [_ Ht _ _ _]. change kTypeValue with 1 in *. change kTypeDeletion with 0 in *. lia. }
      destruct (at_user_key _ _ Hat) as (k & Ek & Eu). rewrite (at_value _ _ Hat), bind_Ok, Ek, bind_Ok, Eu, bind_Ok.
      apply (Hback (SaveValue (SaveKey d (MemTable.w_key w)) (MemTable.w_value w)) (w_type w) (Some w)); [done|]. split_and!; [done..|]. by exists [], mid.
Qed.

Lemma FindPrevUserEntry_ok ws1 ws2 d : ws = ws1 ++ ws2 -> resting d kReverse (last ws1) ->
  exists d', FindPrevUserEntry (user_comparator_ := user) fuel d = Ok d' /\ db_at d' (uentry <$> last (filter newest ws1)).
Proof.
  intros E Hr. pose proof Hr as (_ & _ & Hdir & Hat). unfold FindPrevUserEntry. rewrite Hdir, bool_decide_true, (at_Valid _ _ Hat) by done. cbn [c_assert]. rewrite bind_Ok.
  assert (exists vt' d', (if bool_decide (is_Some (last ws1)) then find_prev (user_comparator_ := user) fuel d kTypeDeletion else Ok (kTypeDeletion, d)) = Ok (vt', d') /\
    reverse_at d' vt' (last (filter newest ws1))) as (vt' & d' & -> & H).
  { destruct (decide (ws1 = [])) as [->|Hl].
    - rewrite bool_decide_false by (by intros []). eexists _, _. split; [done|]. split; [done|]. by eexists.
    - rewrite bool_decide_true by (destruct (last ws1) eqn:El; [done|by apply last_None in El]).
      destruct (find_prev_ok fuel ws1 ws2 d kTypeDeletion None E Hl) as (vt' & d' & Ed & H); [|done|done|].
      + apply (f_equal length) in E. rewrite length_app in E. lia.
      + cbn [held] in H. rewrite app_nil_r in H. by eexists _, _. }
  rewrite bind_Ok. destruct (last (filter newest ws1)) as [w|]; cbn [reverse_at fmap option_fmap option_map] in *.
  - destruct H as (-> & Hw & Hn & Hres & Hk & Hv). change (kTypeValue =? kTypeDeletion) with false. eexists. split; [done|]. split; [done|].
    exists w. split_and!; [done..|]. by right.
  - destruct H as (-> & q & Hres). change (kTypeDeletion =? kTypeDeletion) with true. eexists. split; [done|]. split; [done|]. destruct Hres as (H1 & H2 & _ & H4). by exists kForward, q.
Qed.

Lemma db_SeekToLast_ok d p : db_at d p -> exists d', db_SeekToLast (user_comparator_ := user) fuel d = Ok d' /\ db_at d' (last view).
Proof.
  intros (dir & q & Hseq & Hst & Hdir & Hat)%db_at_resting. unfold db_SeekToLast. cbn [db_iter_ ClearSavedValue SaveValue set_direction].
  unfold at_write in Hat. destruct (SeekToLast_ok _ _ _ Hat) as (it & -> & Hit). rewrite bind_Ok.
  assert (last view = uentry <$> last (filter newest ws)) as -> by apply fmap_last.
  apply (FindPrevUserEntry_ok ws []); [by rewrite app_nil_r|]. split_and!; [done..|]. unfold at_write. cbn. change (map write_entry ws) with (write_entry <$> ws) in Hit at 2. by rewrite fmap_last in Hit.
Qed.

(** The loop that leaves the current key. *)
Lemma prev_loop_ok n ws1 w ws2 d : ws = ws1 ++ w :: ws2 -> (length ws1 < n)%nat -> resting d kForward (Some w) -> key_ok (saved_key_ d) ->
  (forall x, x ∈ w :: ws2 -> ~ key_lt (MemTable.w_key x) (saved_key_ d)) ->
  exists l1 l2 go d', prev_loop (user_comparator_ := user) n d = Ok (go, d') /\ ws = l1 ++ l2 /\ resting d' kForward (last l1) /\
    (forall x, x ∈ l1 -> key_lt (MemTable.w_key x) (saved_key_ d)) /\ (forall x, x ∈ l2 -> ~ key_lt (MemTable.w_key x) (saved_key_ d)) /\
    (go = false -> l1 = [] /\ db_valid_ d' = false).
Proof.
  revert ws1 w ws2 d; induction n as [|n IH]; intros ws1 w ws2 d E Hn (Hseq & Hst & Hdir & Hat) Hk Hge; [lia|]. cbn [prev_loop].
  destruct (at_Prev _ _ _ _ Hat E) as (it & -> & Hit). rewrite bind_Ok. cbv zeta. rewrite (at_Valid _ _ Hit). destruct ws1 as [|x l _] using rev_ind.
  - rewrite bool_decide_false by (by intros []). cbn [negb]. exists [], (w :: ws2). eexists _, _. split_and!; [done|done|done| |done|done]. set_solver.
  - rewrite last_snoc in *. rewrite bool_decide_true by done. cbn [negb]. assert (x ∈ ws) as Hx by (rewrite E; set_solver).
    destruct (at_user_key _ _ Hit) as (k & -> & Ek). rewrite bind_Ok, Ek, bind_Ok. cbn [saved_key_ set_iter]. rewrite Compare_ok, bind_Ok by (done || by apply w_key_ok').
    rewrite length_app in Hn. cbn in Hn. destruct (Z.ltb_spec (cmp (MemTable.w_key x) (saved_key_ d)) 0) as [Hlt|Hnlt].
    + exists (l ++ [x]), (w :: ws2). eexists _, _. rewrite last_snoc. split_and!; [done..| |done|done].
      intros y [Hy| ->%list_elem_of_singleton]%elem_of_app; [|done]. assert (y ∈ ws) as Hys by (rewrite E; set_solver).
      rewrite <- app_assoc in E. destruct (ws_lt l (x :: w :: ws2) y x E) as [Hyx|[-> _]]; [done|set_solver| |done].
      by apply (key_lt_trans _ (MemTable.w_key x)); [by apply w_key_ok'..|done| |].
    + rewrite <- app_assoc in E. apply (IH l x (w :: ws2) (set_iter d it) E); [lia|done|done|].
      intros y [->|Hy]%elem_of_cons; [unfold key_lt; cbn; lia|by apply Hge].
Qed.

Lemma before_view ws1 ws2 k : ws = ws1 ++ ws2 -> (forall w, w ∈ ws1 -> newest w -> key_lt (MemTable.w_key w) k) ->
  (forall w, w ∈ ws2 -> newest w -> ~ key_lt (MemTable.w_key w) k) -> before k view = uentry <$> last (filter newest ws1).
Proof. intros E H1 H2. by apply (view_last _ ws1 ws2). Qed.

Lemma db_Prev_forward d w : db_valid_ d = true -> w ∈ ws -> resting d kForward (Some w) ->
  exists d', db_Prev (user_comparator_ := user) fuel d = Ok d' /\ db_at d' (before (MemTable.w_key w) view).
Proof.
  intros Hv Hw (Hseq & Hst & Hdir & Hat). unfold db_Prev. rewrite Hv, Hdir, (at_Valid _ _ Hat). cbn [c_assert]. rewrite bind_Ok, decide_True by done.
  rewrite (bool_decide_true (is_Some (Some w))) by done. cbn [c_assert]. rewrite bind_Ok. destruct (at_user_key _ _ Hat) as (k & -> & Ek). rewrite bind_Ok, Ek, bind_Ok.
  pose proof (w_key_ok' w Hw) as Kw. pose proof Hw as Hw'. apply list_elem_of_split in Hw' as (ws1 & ws2 & E).
  destruct (prev_loop_ok fuel ws1 w ws2 (SaveKey d (MemTable.w_key w)) E) as (l1 & l2 & go & d' & -> & E2 & Hr & H1 & H2 & Hgo); [|done|done| |].
  { apply (f_equal length) in E. rewrite length_app in E. cbn in E. lia. }
  { intros x [->|Hx]%elem_of_cons; [by apply key_lt_irrefl|]. apply wlt_key; [done|rewrite E; set_solver|]. apply (ws_lt (ws1 ++ [w]) ws2); [by rewrite <- app_assoc|set_solver|done]. }
  rewrite !bind_Ok. cbn [saved_key_ SaveKey] in *. rewrite (before_view l1 l2) by (done || intros; by (apply H1 || apply H2)). destruct go.
  - apply (FindPrevUserEntry_ok l1 l2); [done|]. by destruct Hr as (? & ? & _ & ?).
  - destruct (Hgo eq_refl) as [-> Hv']. eexists. split; [done|]. split; [done|]. by eexists _, _.
Qed.

Lemma db_Prev_reverse d w : db_valid_ d = true -> w ∈ ws -> newest w -> resting d kReverse (last (filter (seen_below (MemTable.w_key w)) ws)) ->
  exists d', db_Prev (user_comparator_ := user) fuel d = Ok d' /\ db_at d' (before (MemTable.w_key w) view).
Proof.
  intros Hv Hw Hn Hr. pose proof Hr as (_ & _ & Hdir & _). unfold db_Prev. rewrite Hv, Hdir. cbn [c_assert]. rewrite bind_Ok, decide_False, bind_Ok by done.
  assert (exists l1 l2, ws = l1 ++ l2 /\ last (filter (seen_below (MemTable.w_key w)) ws) = last l1 /\
    (forall x, x ∈ l1 -> newest x -> key_lt (MemTable.w_key x) (MemTable.w_key w)) /\ forall x, x ∈ l2 -> ~ seen_below (MemTable.w_key w) x) as (l1 & l2 & E & El & H1 & H2).
  { destruct (last (filter (seen_below (MemTable.w_key w)) ws)) as [q|] eqn:Eq.
    - apply last_Some in Eq as [l Eq]. assert (q ∈ filter (seen_below (MemTable.w_key w)) ws) as [[Hsq Hq] Hqs]%list_elem_of_filter by (rewrite Eq; set_solver).
      apply list_elem_of_split in Hqs as (l1 & l2 & E). exists (l1 ++ [q]), l2. rewrite last_snoc, <- app_assoc. split_and!; [done|done|..].
      + intros x [Hx| ->%list_elem_of_singleton]%elem_of_app _; [|done]. assert (x ∈ ws) as Hxs by (rewrite E; set_solver).
        destruct (ws_lt l1 (q :: l2) x q E) as [Hxq|[-> _]]; [done|set_solver| |done].
        assert (q ∈ ws) by (rewrite E; set_solver). by apply (key_lt_trans _ (MemTable.w_key q)); [by apply w_key_ok'..| |].
      + intros x Hx Hsb. rewrite E, filter_app, filter_cons_True in Eq by done.
        assert (filter (seen_below (MemTable.w_key w)) l2 <> []) as Hne.
        { intros Hnil. assert (x ∈ filter (seen_below (MemTable.w_key w)) l2) by (by apply list_elem_of_filter). rewrite Hnil in *. set_solver. }
        destruct (filter (seen_below (MemTable.w_key w)) l2) as [|y m _] eqn:Em using rev_ind; [done|].
        assert (q = y) as ->. { apply (f_equal last) in Eq. rewrite last_snoc, app_comm_cons, app_assoc, last_snoc in Eq. by injection Eq. }
        assert (y ∈ filter (seen_below (MemTable.w_key w)) l2) as [_ Hy]%list_elem_of_filter by (rewrite Em; set_solver).
        assert (wlt y y) as [Hlt|[_ Hlt]] by (apply (ws_lt (l1 ++ [y]) l2); [by rewrite <- app_assoc|set_solver|done]); [|lia].
        apply (key_lt_irrefl (MemTable.w_key y)); [apply w_key_ok'; rewrite E; set_solver|done].
    - exists [], ws. split_and!; [done|done|set_solver|]. intros x Hx Hsb. apply last_None in Eq.
      assert (x ∈ filter (seen_below (MemTable.w_key w)) ws) by (by apply list_elem_of_filter). rewrite Eq in *. set_solver. }
  rewrite (before_view l1 l2); [apply (FindPrevUserEntry_ok l1 l2 d E); by rewrite <- El|done|done|].
  intros x Hx Hnx Hlt. apply (H2 x Hx). split; [by apply newest_seen|done].
Qed.

(** ** Every move *)

(** [Next] where the iterator goes backwards. *)
Fixpoint turns (backwards : bool) (ms : list move) : bool :=
  match ms with
  | [] => false
  | Forward :: ms => backwards || turns false ms
  | (Backward | ToLast) :: ms => turns true ms
  | (ToFirst | To _) :: ms => turns false ms
  end.

Definition going_back (m : move) : bool := match m with Backward | ToLast => true | _ => false end.

Lemma db_shows d p : db_at d p -> shows (HI := db_iterator (user_comparator_ := user) fuel) d p.
Proof.
  intros Hd. pose proof (db_at_resting _ _ Hd) as (dir & q & Hseq & Hst & _ & Hat). unfold shows. cbn [it_Valid it_status it_key it_value db_iterator].
  unfold db_Valid, db_status, db_key, db_value. rewrite Hst. unfold at_write in Hat. rewrite (stands_status _ _ _ Hat). destruct p as [e|].
  - destruct Hd as (-> & w & _ & _ & -> & [(_ & _ & -> & Hat')|((_ & _ & -> & _) & -> & ->)]); cbn [c_assert]; (split; [by rewrite bool_decide_true|]); (split; [done|]); rewrite !bind_Ok.
    + rewrite !decide_True by done. destruct (at_user_key _ _ Hat') as (k & -> & Ek). by rewrite bind_Ok, Ek, (at_value _ _ Hat').
    + by rewrite !decide_False.
  - destruct Hd as [-> _]. split; [by rewrite bool_decide_false by (by intros [])|done].
Qed.

Lemma db_move_ok d p m p' : db_at d p -> move_ok m -> track_move view p m = Some p' ->
  (m = Forward -> Forall seen ws \/ db_direction_ d = kForward) ->
  exists d', do_move (HI := db_iterator (user_comparator_ := user) fuel) d m = Ok d' /\ db_at d' p' /\ (going_back m = false -> db_direction_ d' = kForward).
Proof.
  intros Hd Hm Ht Hf. destruct m; cbn in *; simplify_eq.
  - destruct (db_SeekToFirst_ok _ _ Hd) as (d' & E & ? & ?). eauto.
  - destruct (db_SeekToLast_ok _ _ Hd) as (d' & E & ?). by exists d'.
  - destruct (db_Seek_ok _ _ _ Hd Hm) as (d' & E & ? & ?). eauto.
  - destruct p as [e|]; cbn in Ht; simplify_eq. destruct Hd as (Hv & w & Hw & Hn & -> & [Hr|[Hr _]]).
    + destruct (db_Next_forward d (uentry w) w Hv Hw eq_refl Hr) as (d' & E & ? & ?). eauto.
    + destruct (Hf eq_refl) as [Hall|Hdir]; [|destruct Hr as (_ & _ & Hdir' & _); congruence].
      destruct (db_Next_turn d w Hall Hv Hw Hn Hr) as (d' & E & ? & ?). eauto.
  - destruct p as [e|]; cbn in Ht; simplify_eq. destruct Hd as (Hv & w & Hw & Hn & -> & [Hr|[Hr _]]).
    + destruct (db_Prev_forward d w Hv Hw Hr) as (d' & E & ?). by exists d'.
    + destruct (db_Prev_reverse d w Hv Hw Hn Hr) as (d' & E & ?). by exists d'.
Qed.

Lemma db_run_ok ms d p p' back : db_at d p -> (back = false -> db_direction_ d = kForward) -> Forall move_ok ms ->
  Forall seen ws \/ turns back ms = false -> track view p ms = Some p' ->
  exists d', run (HI := db_iterator (user_comparator_ := user) fuel) d ms = Ok d' /\ db_at d' p'.
Proof.
  intros Hd Hb Hms; revert d p back Hd Hb; induction Hms as [|m ms Hm Hms IH]; intros d p back Hd Hb Ht Htr; [injection Htr as <-; by exists d|].
  unfold run, track in *. cbn [fold_left] in *. rewrite bind_Ok. cbn in Htr. destruct (track_move view p m) as [p1|] eqn:E1.
  - destruct (db_move_ok d p m p1 Hd Hm E1) as (d1 & -> & Hd1 & Hb1).
    { intros ->. destruct Ht as [?|Ht]; [by left|]. right. apply Hb. by destruct back. }
    apply (IH d1 p1 (going_back m)); [done..| |done]. destruct Ht as [?|Ht]; [by left|]. right. destruct m; try done. by destruct back.
  - exfalso. clear -Htr. induction ms as [|m ms IH]; [done|]. by apply IH.
Qed.

End refinement.

(** C20: over an internal iterator that stands at the entries of writes, sorted and still at none, the database
    iterator of a snapshot shows after every sequence of seeks and steps what a cursor shows that makes the
    same moves over the newest value of each key that the snapshot sees and has not been deleted; none of the moves
    fails an assertion, reports an error or runs out of turns.  The sequence has no [Next] right after a move
    backwards, unless the snapshot sees every write. *)
Theorem db_iterator_refines {I : Type} {HI : Iterator I} {user : Comparator} {Huser : ComparatorOk user}
    {HO : IteratorOk I (@InternalKeyComparator user)} (it : I) (ws : list write) (s : Z) (fuel : nat) (ms : list move) (p : option entry) :
  Forall write_ok ws -> 0 <= s <= kMaxSequenceNumber -> (length ws < fuel)%nat ->
  stands_at (IteratorOk := HO) it (map write_entry ws) None ->
  Forall move_ok ms -> Forall (seen s) ws \/ turns false ms = false -> track (view ws s) None ms = Some p ->
  let HD := db_iterator (HI := HI) (user_comparator_ := user) fuel in
  exists d, run (HI := HD) (newDBIter it s) ms = Ok d /\ shows (HI := HD) d p.
Proof.
  intros Hws Hs Hfuel Hat Hms Ht Htr HD. pose proof (stands_ordered _ _ _ Hat) as Hord.
  destruct (db_run_ok ws s fuel Hws Hs Hfuel Hord ms (newDBIter it s) None p false) as (d & E & Hd); [|done..|].
  - split; [done|]. by exists kForward, None.
  - exists d. split; [done|]. by eapply db_shows.
Qed.

(** A deleted key, an overwritten one and a key the snapshot hides. *)
Definition sample_writes : list write :=
  [mkWrite 4 0 [97] []; mkWrite 1 1 [97] [1]; mkWrite 6 1 [98] [3]; mkWrite 2 1 [98] [2]; mkWrite 9 1 [99] [4]; mkWrite 3 1 [100] [5]].

Lemma db_iterator_refines_witness :
  exists t d, add_all (user := BytewiseComparator) (fun _ => None) (replicate 12 0%nat) newMemTable sample_writes = Ok t /\
    let HD := db_iterator (HI := mem_iterator (user := BytewiseComparator)) (user_comparator_ := BytewiseComparator) 10 in
    run (HI := HD) (newDBIter (NewIterator t) 7) [ToFirst; Forward; Backward; To [97]; ToLast; Backward] = Ok d /\ shows (HI := HD) d (Some ([98], [3])).
Proof.
  destruct (mem_iterator_start (user := BytewiseComparator) (fun _ => None) (replicate 12 0%nat) sample_writes) as (t & es & E & Hat & HP); [repeat constructor; by_decide|by_decide|done|].
  exists t. assert (es = map write_entry sample_writes) as ->.
  { apply (ordered_perm (C := @InternalKeyComparator BytewiseComparator)); [by apply (stands_ordered (IteratorOk := mem_iterator_ok (user := BytewiseComparator)) _ _ _ Hat)| |done].
    unfold sample_writes. cbn [map]. repeat (apply ordered_cons; split_and!; [by apply ikey_ok; by_decide| |rewrite <- Forall_forall; repeat (apply Forall_cons; split; [by_decide|]); by apply Forall_nil]).
    apply ordered_nil. }
  destruct (db_iterator_refines (HO := mem_iterator_ok (user := BytewiseComparator)) (NewIterator t) sample_writes 7 10
    [ToFirst; Forward; Backward; To [97]; ToLast; Backward] (Some ([98], [3]))) as (d & Ed & Hd).
  - repeat constructor; by_decide.
  - by_decide.
  - by_decide.
  - exact Hat.
  - repeat (apply Forall_cons; split; [first [exact Logic.I|by_decide]|]). by apply Forall_nil.
  - right. reflexivity.
  - vm_compute. reflexivity.
  - exists d. exact (conj E (conj Ed Hd)).
Defined.

(** ** A change of direction *)

(** Three keys; the snapshot at 5 hides the second. *)
Definition hidden_middle : list write := [mkWrite 1 1 [97] [1]; mkWrite 9 1 [98] [2]; mkWrite 2 1 [99] [3]].

(** After [SeekToLast] the iterator shows the last key, and [Next], which should leave it without a key, shows it again. *)
Lemma next_after_prev_repeats :
  exists t d1 d2, add_all (user := BytewiseComparator) (fun _ => None) (replicate 12 0%nat) newMemTable hidden_middle = Ok t /\
    let HD := db_iterator (HI := mem_iterator (user := BytewiseComparator)) (user_comparator_ := BytewiseComparator) 10 in
    run (HI := HD) (newDBIter (NewIterator t) 5) [ToLast] = Ok d1 /\ shows (HI := HD) d1 (Some ([99], [3])) /\
    run (HI := HD) (newDBIter (NewIterator t) 5) [ToLast; Forward] = Ok d2 /\ shows (HI := HD) d2 (Some ([99], [3])).
Proof.
  assert (exists t, add_all (user := BytewiseComparator) (fun _ => None) (replicate 12 0%nat) newMemTable hidden_middle = Ok t) as [t E]
    by (vm_compute; eauto).
  vm_compute in E. injection E as <-. eexists _, _, _. split; [vm_compute; reflexivity|]. cbv zeta.
  split; [vm_compute; reflexivity|]. split; [split_and!; vm_compute; repeat split|].
  split; [vm_compute; reflexivity|split_and!; vm_compute; repeat split].
Qed.

End DBIter.
