(* ===== verification/LdbBlock.v ===== *)
(** leveldb, table/block_builder.cc and table/block.cc: sorted entries in a block of bytes.

    A key is stored without the prefix that it shares with the key before it, except at the restart
    points, whose offsets are at the end of the block.  The iterator of a block keeps the interface of
    iterators over the entries that were added. *)
From Stdlib Require Import String.
From stdpp Require Import sorting sets.
From S2P Require Import Prelude LdbCoding LdbKeys LdbIter.

Module Block.
Import Coding Keys Iter.

(** * table/block_builder.cc *)

Record BlockBuilder := mkBuilder {
  buffer_ : list Z;
  restarts_ : list Z;
  counter_ : Z;
  finished_ : bool;
  last_key_ : list Z
}.

Section builder.
Context {comparator : Comparator} (block_restart_interval : Z).

Definition newBlockBuilder : outcome BlockBuilder :=
  _ ← c_assert (1 <=? block_restart_interval); Ok (mkBuilder [] [0] 0 false []).

Definition Reset (b : BlockBuilder) : BlockBuilder := mkBuilder [] [0] 0 false [].

Definition CurrentSizeEstimate (b : BlockBuilder) : Z :=
  u64 (Z.of_nat (length (buffer_ b)) + Z.of_nat (length (restarts_ b)) * 4 + 4).

Definition empty (b : BlockBuilder) : bool := match buffer_ b with [] => true | _ => false end.

(** The loop that appends the restart array. *)
Fixpoint put_restarts (buffer : list Z) (restarts : list Z) : outcome (list Z) :=
  match restarts with
  | [] => Ok buffer
  | r :: restarts => buffer ← PutFixed32 buffer r; put_restarts buffer restarts
  end.

Definition Finish (b : BlockBuilder) : outcome (list Z * BlockBuilder) :=
  buffer ← put_restarts (buffer_ b) (restarts_ b);
  buffer ← PutFixed32 buffer (u32 (Z.of_nat (length (restarts_ b))));
  Ok (buffer, mkBuilder buffer (restarts_ b) (counter_ b) true (last_key_ b)).

(** The loop that counts the bytes that two keys share. *)
Fixpoint shared_prefix (last key : list Z) : nat :=
  match last, key with
  | a :: last, b :: key => if a =? b then S (shared_prefix last key) else 0
  | _, _ => 0
  end.

Definition Add (b : BlockBuilder) (key value : list Z) : outcome BlockBuilder :=
  _ ← c_assert (negb (finished_ b));
  _ ← c_assert (counter_ b <=? block_restart_interval);
  _ ← (if empty b then Ok tt else c ← Compare key (last_key_ b); c_assert (0 <? c));
  let '(shared, restarts, counter) :=
    if counter_ b <? block_restart_interval then (shared_prefix (last_key_ b) key, restarts_ b, counter_ b)
    else (O, restarts_ b ++ [u32 (Z.of_nat (length (buffer_ b)))], 0) in
  let non_shared := (length key - shared)%nat in
  buffer ← PutVarint32 (buffer_ b) (u32 (Z.of_nat shared));
  buffer ← PutVarint32 buffer (u32 (Z.of_nat non_shared));
  buffer ← PutVarint32 buffer (u32 (Z.of_nat (length value)));
  delta ← load_range key shared non_shared;
  let buffer := buffer ++ delta ++ value in
  let last_key := take shared (last_key_ b) ++ delta in
  _ ← c_assert (bool_decide (last_key = key));
  Ok (mkBuilder buffer restarts (counter + 1) (finished_ b) last_key).

(** The entries, one after the other. *)
Fixpoint add_entries (b : BlockBuilder) (es : list entry) : outcome BlockBuilder :=
  match es with
  | [] => Ok b
  | (k, v) :: es => b ← Add b k v; add_entries b es
  end.

End builder.

(** * table/block.cc *)

(** [size_] is 0 in a block that is in error. *)
Record Block := mkBlock {
  data_ : list Z;
  size_ : Z;
  restart_offset_ : Z
}.

Definition NumRestarts (b : Block) : outcome Z :=
  _ ← c_assert (2 * 4 <=? size_ b); DecodeFixed32 kLittleEndian (data_ b) (Z.to_nat (size_ b - 4)).

(** The constructor; where the contents are too short, [restart_offset_] is not set, and not read later. *)
Definition newBlock (contents : list Z) : outcome Block :=
  let size := Z.of_nat (length contents) in
  if size <? 4 then Ok (mkBlock contents 0 0)
  else
    num ← NumRestarts (mkBlock contents size 0);
    let restart_offset := u32 (u64 (size - u64 (u32 (1 + num) * 4))) in
    Ok (mkBlock contents (if u64 (size - 4) <? restart_offset then 0 else size) restart_offset).

(** [p] and [limit] are offsets in [data]; the result has the three numbers and the offset after them, or is [None]
    for [NULL]. *)
Definition DecodeEntry (data : list Z) (p limit : Z) : outcome (option (Z * Z * Z * Z)) :=
  if limit - p <? 3 then Ok None
  else
    input ← load_range data (Z.to_nat p) (Z.to_nat (limit - p));
    shared ← load input 0; non_shared ← load input 1; value_length ← load input 2;
    let r :=
      if Z.lor (Z.lor shared non_shared) value_length <? 128 then Some (shared, non_shared, value_length, p + 3)
      else
        '(shared, rest) ← GetVarint32Ptr input;
        '(non_shared, rest) ← GetVarint32Ptr rest;
        '(value_length, rest) ← GetVarint32Ptr rest;
        Some (shared, non_shared, value_length, limit - Z.of_nat (length rest)) in
    match r with
    | None => Ok None
    | Some (shared, non_shared, value_length, p) =>
        if u32 (limit - p) <? u32 (non_shared + value_length) then Ok None else Ok (Some (shared, non_shared, value_length, p))
    end.

(** [value_] is an offset in [data] and a length, or [None] for the empty slice. *)
Record BlockIter := mkBlockIter {
  bi_data : list Z;
  bi_restarts : Z;
  num_restarts_ : Z;
  bi_current : Z;
  restart_index_ : Z;
  bi_key : list Z;
  bi_value : option (Z * Z);
  bi_status : Status
}.

Section iter.
Context {comparator_ : Comparator}.

Definition set_current (b : BlockIter) current index := mkBlockIter (bi_data b) (bi_restarts b) (num_restarts_ b) current index (bi_key b) (bi_value b) (bi_status b).

Definition NextEntryOffset (b : BlockIter) : outcome Z :=
  match bi_value b with Some (p, n) => Ok (u32 (p + n)) | None => Undef end.

Definition GetRestartPoint (b : BlockIter) (index : Z) : outcome Z :=
  _ ← c_assert (index <? num_restarts_ b);
  DecodeFixed32 kLittleEndian (bi_data b) (Z.to_nat (bi_restarts b + index * 4)).

Definition SeekToRestartPoint (b : BlockIter) (index : Z) : outcome BlockIter :=
  offset ← GetRestartPoint b index;
  Ok (mkBlockIter (bi_data b) (bi_restarts b) (num_restarts_ b) (bi_current b) index [] (Some (offset, 0)) (bi_status b)).

Definition newBlockIter (data : list Z) (restarts num_restarts : Z) : outcome BlockIter :=
  _ ← c_assert (0 <? num_restarts);
  Ok (mkBlockIter data restarts num_restarts restarts num_restarts [] None OK).

Definition bi_Valid (b : BlockIter) : bool := bi_current b <? bi_restarts b.

Definition bi_get_key (b : BlockIter) : outcome (list Z) := _ ← c_assert (bi_Valid b); Ok (bi_key b).

(** The bytes of [value()]. *)
Definition bi_get_value (b : BlockIter) : outcome (list Z) :=
  _ ← c_assert (bi_Valid b);
  match bi_value b with Some (p, n) => load_range (bi_data b) (Z.to_nat p) (Z.to_nat n) | None => Ok [] end.

Definition CorruptionError (b : BlockIter) : BlockIter :=
  mkBlockIter (bi_data b) (bi_restarts b) (num_restarts_ b) (bi_restarts b) (num_restarts_ b) [] None (Corruption "bad entry in block" "").

(** The loop at the end of [ParseNextKey]. *)
Fixpoint advance_restart (n : nat) (b : BlockIter) (index : Z) : outcome Z :=
  match n with
  | O => Undef
  | S n =>
      if u32 (index + 1) <? num_restarts_ b then
        p ← GetRestartPoint b (u32 (index + 1));
        if p <? bi_current b then advance_restart n b (u32 (index + 1)) else Ok index
      else Ok index
  end.

Definition ParseNextKey (b : BlockIter) : outcome (bool * BlockIter) :=
  current ← NextEntryOffset b;
  let limit := bi_restarts b in
  if limit <=? current then Ok (false, set_current b (bi_restarts b) (num_restarts_ b))
  else
    let b := set_current b current (restart_index_ b) in
    r ← DecodeEntry (bi_data b) current limit;
    match r with
    | None => Ok (false, CorruptionError b)
    | Some (shared, non_shared, value_length, p) =>
        if Z.of_nat (length (bi_key b)) <? shared then Ok (false, CorruptionError b)
        else
          delta ← load_range (bi_data b) (Z.to_nat p) (Z.to_nat non_shared);
          let b := mkBlockIter (bi_data b) (bi_restarts b) (num_restarts_ b) current (restart_index_ b)
                     (take (Z.to_nat shared) (bi_key b) ++ delta) (Some (p + non_shared, value_length)) (bi_status b) in
          index ← advance_restart (S (Z.to_nat (num_restarts_ b))) b (restart_index_ b);
          Ok (true, set_current b current index)
    end.

(** The loops of [Prev] and [SeekToLast], which go on while the current entry ends before [bound]. *)
Fixpoint skip_entries (n : nat) (b : BlockIter) (bound : Z) : outcome BlockIter :=
  match n with
  | O => Undef
  | S n =>
      '(more, b) ← ParseNextKey b;
      if (more : bool) then o ← NextEntryOffset b; if o <? bound then skip_entries n b bound else Ok b
      else Ok b
  end.

(** The turns of a loop over the entries. *)
Definition entry_turns (b : BlockIter) : nat := S (length (bi_data b)).

Definition bi_Next (b : BlockIter) : outcome BlockIter :=
  _ ← c_assert (bi_Valid b); '(_, b) ← ParseNextKey b; Ok b.

(** The first loop of [Prev]: the restart point before the current entry. *)
Fixpoint restart_before (n : nat) (b : BlockIter) (original index : Z) : outcome (option Z) :=
  match n with
  | O => Undef
  | S n =>
      p ← GetRestartPoint b index;
      if original <=? p then if index =? 0 then Ok None else restart_before n b original (index - 1)
      else Ok (Some index)
  end.

Definition bi_Prev (b : BlockIter) : outcome BlockIter :=
  _ ← c_assert (bi_Valid b);
  let original := bi_current b in
  r ← restart_before (S (Z.to_nat (num_restarts_ b))) b original (restart_index_ b);
  match r with
  | None => Ok (set_current b (bi_restarts b) (num_restarts_ b))
  | Some index => b ← SeekToRestartPoint b index; skip_entries (entry_turns b) b original
  end.

(** The binary search of [Seek]: the restart point, or [None] for an entry in error. *)
Fixpoint search_restart (n : nat) (b : BlockIter) (target : list Z) (left right : Z) : outcome (option Z) :=
  match n with
  | O => Undef
  | S n =>
      if left <? right then
        let mid := u32 (left + right + 1) / 2 in
        region_offset ← GetRestartPoint b mid;
        r ← DecodeEntry (bi_data b) region_offset (bi_restarts b);
        match r with
        | None => Ok None
        | Some (shared, non_shared, _, key_ptr) =>
            if negb (shared =? 0) then Ok None
            else
              mid_key ← load_range (bi_data b) (Z.to_nat key_ptr) (Z.to_nat non_shared);
              c ← Compare mid_key target;
              if c <? 0 then search_restart n b target mid right else search_restart n b target left (u32 (mid - 1))
        end
      else Ok (Some left)
  end.

(** The linear search of [Seek]. *)
Fixpoint seek_loop (n : nat) (b : BlockIter) (target : list Z) : outcome BlockIter :=
  match n with
  | O => Undef
  | S n =>
      '(more, b) ← ParseNextKey b;
      if (more : bool) then c ← Compare (bi_key b) target; if 0 <=? c then Ok b else seek_loop n b target
      else Ok b
  end.

Definition bi_Seek (b : BlockIter) (target : list Z) : outcome BlockIter :=
  r ← search_restart (S (Z.to_nat (num_restarts_ b))) b target 0 (u32 (num_restarts_ b - 1));
  match r with
  | None => Ok (CorruptionError b)
  | Some index => b ← SeekToRestartPoint b index; seek_loop (entry_turns b) b target
  end.

Definition bi_SeekToFirst (b : BlockIter) : outcome BlockIter :=
  b ← SeekToRestartPoint b 0; '(_, b) ← ParseNextKey b; Ok b.

Definition bi_SeekToLast (b : BlockIter) : outcome BlockIter :=
  b ← SeekToRestartPoint b (u32 (num_restarts_ b - 1)); skip_entries (entry_turns b) b (bi_restarts b).

#[export] Instance block_iterator : Iterator BlockIter := {|
  it_Valid := bi_Valid;
  it_SeekToFirst := bi_SeekToFirst;
  it_SeekToLast := bi_SeekToLast;
  it_Seek := bi_Seek;
  it_Next := bi_Next;
  it_Prev := bi_Prev;
  it_key := bi_get_key;
  it_value := bi_get_value;
  it_status := bi_status
|}.

End iter.

(** [Block::NewIterator]. *)
Definition NewIterator (b : Block) : outcome (EmptyIterator + BlockIter) :=
  if size_ b <? 2 * 4 then Ok (inl (NewErrorIterator (Corruption "bad block contents" "")))
  else
    num_restarts ← NumRestarts b;
    if num_restarts =? 0 then Ok (inl NewEmptyIterator)
    else it ← newBlockIter (data_ b) (restart_offset_ b) num_restarts; Ok (inr it).

(** * The layout of a block *)

(** An entry with the number of bytes its key shares with the key before it. *)
Abbreviation item := (nat * entry)%type.
Implicit Types (x : item) (xs : list item) (rs : list nat).

Definition item_head x : list Z :=
  EncodeVarint32 (Z.of_nat x.1) ++ EncodeVarint32 (Z.of_nat (length x.2.1 - x.1)) ++ EncodeVarint32 (Z.of_nat (length x.2.2)).
Definition item_bytes x : list Z := item_head x ++ drop x.1 x.2.1 ++ x.2.2.
Definition items_bytes xs : list Z := concat (map item_bytes xs).

(** Where an item begins. *)
Definition offset xs (i : nat) : nat := length (items_bytes (take i xs)).

(** The restart array: the offsets, and their number. *)
Definition restart_bytes xs rs : list Z :=
  concat (map (fun r => le_split 4 (Z.of_nat (offset xs r))) rs) ++ le_split 4 (Z.of_nat (length rs)).

(** An item, after the one before it. *)
Definition follows (prev : option item) x : Prop :=
  (x.1 <= length x.2.1)%nat /\
  match prev with
  | None => x.1 = O
  | Some y => (x.1 <= length y.2.1)%nat /\ take x.1 y.2.1 = take x.1 x.2.1
  end.

Definition item_before xs (i : nat) : option item := match i with O => None | S j => xs !! j end.

(** [rs] are the restart points, as indices. *)
Record layout xs rs : Prop := {
  lo_follows : forall i x, xs !! i = Some x -> follows (item_before xs i) x;
  lo_first : head rs = Some O;
  lo_sorted : StronglySorted lt rs;
  lo_bound : Forall (fun r => (r < max 1 (length xs))%nat) rs;
  lo_restart : forall r x, r ∈ rs -> xs !! r = Some x -> x.1 = O
}.

Lemma items_bytes_app xs1 xs2 : items_bytes (xs1 ++ xs2) = items_bytes xs1 ++ items_bytes xs2.
Proof. unfold items_bytes. by rewrite map_app, concat_app. Qed.

Lemma items_bytes_at xs i x : xs !! i = Some x -> at_off (items_bytes xs) (offset xs i) (item_bytes x).
Proof.
  intros Hi. exists (items_bytes (take i xs)), (items_bytes (drop (S i) xs)). split; [|done].
  rewrite <- (take_drop_middle _ _ _ Hi) at 1. rewrite items_bytes_app. done.
Qed.

Lemma offset_S xs i x : xs !! i = Some x -> offset xs (S i) = (offset xs i + length (item_bytes x))%nat.
Proof. intros Hi. unfold offset. rewrite (take_S_r _ _ _ Hi), items_bytes_app, length_app. cbn. by rewrite app_nil_r. Qed.

Lemma offset_end xs i : (length xs <= i)%nat -> offset xs i = length (items_bytes xs).
Proof. intros H. unfold offset. by rewrite take_ge. Qed.

Lemma offset_app xs ys i : (i <= length xs)%nat -> offset (xs ++ ys) i = offset xs i.
Proof. intros H. unfold offset. by rewrite take_app_le. Qed.

Lemma offset_mono xs i j : (i <= j)%nat -> (offset xs i <= offset xs j)%nat.
Proof.
  intros H. induction H as [|j H IH]; [done|]. destruct (xs !! j) as [x|] eqn:E.
  - rewrite (offset_S _ _ _ E). lia.
  - apply lookup_ge_None_1 in E. rewrite (offset_end xs (S j)), <- (offset_end xs j) by lia. done.
Qed.

Lemma varint32_byte v : is_u32 v -> exists b rest, EncodeVarint32 v = b :: rest /\ is_u8 b /\ (b < 128 -> b = v /\ rest = []).
Proof.
  intros Hv. rewrite EncodeVarint32_eq by done. unfold is_u32 in Hv. cbn [varint]. case_match; rewrite ?Z.ltb_lt, ?Z.ltb_ge in *.
  - exists v, []. split_and!; [done|unfold is_u8; lia|done].
  - eexists _, _. split; [done|]. split; [zlia|]. intros Hlt. exfalso. Z.div_mod_to_equations. lia.
Qed.

Lemma item_bytes_long x : (3 <= length (item_bytes x))%nat.
Proof.
  assert (forall v, 1 <= length (EncodeVarint32 v))%nat as H by (intros v; unfold EncodeVarint32; repeat case_match; cbn; lia).
  unfold item_bytes, item_head. rewrite !length_app. pose proof (H (Z.of_nat x.1)). pose proof (H (Z.of_nat (length x.2.1 - x.1))).
  pose proof (H (Z.of_nat (length x.2.2))). lia.
Qed.

Lemma offset_lt xs i j : (i < j)%nat -> (i < length xs)%nat -> (offset xs i < offset xs j)%nat.
Proof.
  intros Hij [x Hx]%lookup_lt_is_Some. pose proof (offset_S _ _ _ Hx). pose proof (item_bytes_long x). pose proof (offset_mono xs (S i) j Hij). lia.
Qed.

Lemma length_items_bytes xs : (length xs <= length (items_bytes xs))%nat.
Proof.
  induction xs as [|x xs IH]; [cbn; lia|]. change (items_bytes (x :: xs)) with (item_bytes x ++ items_bytes xs).
  rewrite length_app. pose proof (item_bytes_long x). cbn. lia.
Qed.

Lemma lor_small a b : 0 <= a -> 0 <= b -> Z.lor a b < 128 -> a < 128 /\ b < 128.
Proof.
  intros Ha Hb H. assert (0 <= Z.lor a b) as H0 by (by apply Z.lor_nonneg).
  assert (Z.shiftr (Z.lor a b) 7 = 0) as E by (rewrite Z.shiftr_div_pow2 by lia; apply Z.div_small; pow2; lia).
  rewrite Z.shiftr_lor in E. apply Z.lor_eq_0_iff in E as [E1 E2]. rewrite !Z.shiftr_div_pow2 in * by lia. change (2 ^ 7) with 128 in *.
  Z.div_mod_to_equations. lia.
Qed.

(** The bytes of a head; the fast path of the decoder. *)
Lemma head_bytes n1 n2 n3 : is_u32 n1 -> is_u32 n2 -> is_u32 n3 ->
  exists c0 c1 c2 rest, EncodeVarint32 n1 ++ EncodeVarint32 n2 ++ EncodeVarint32 n3 = c0 :: c1 :: c2 :: rest /\ is_u8 c0 /\ is_u8 c1 /\ is_u8 c2 /\
    (Z.lor (Z.lor c0 c1) c2 < 128 -> c0 = n1 /\ c1 = n2 /\ c2 = n3 /\ rest = []).
Proof.
  intros U1 U2 U3. destruct (varint32_byte n1 U1) as (b1 & l1 & E1 & B1 & S1). destruct (varint32_byte n2 U2) as (b2 & l2 & E2 & B2 & S2).
  destruct (varint32_byte n3 U3) as (b3 & l3 & E3 & B3 & S3).
  assert (Forall is_u8 (EncodeVarint32 n1 ++ EncodeVarint32 n2 ++ EncodeVarint32 n3)) as HF.
  { rewrite !Forall_app, !EncodeVarint32_eq by done. unfold is_u32 in *. split_and!; apply varint_bytes; lia. }
  assert (exists c0 c1 c2 rest, EncodeVarint32 n1 ++ EncodeVarint32 n2 ++ EncodeVarint32 n3 = c0 :: c1 :: c2 :: rest) as (c0 & c1 & c2 & rest & E).
  { rewrite E1, E2, E3. destruct l1 as [|? [|]], l2 as [|]; cbn; eauto. }
  exists c0, c1, c2, rest. rewrite E in HF. inversion HF as [|? ? H0 HF1]; subst. inversion HF1 as [|? ? H1 HF2]; subst. inversion HF2 as [|? ? H2 _]; subst.
  split_and!; [done..|]. intros Hlt. unfold is_u8 in *. apply lor_small in Hlt as [Hlt H2']; [|apply Z.lor_nonneg; lia|lia]. apply lor_small in Hlt as [H0' H1']; [|lia..].
  rewrite E1, E2, E3 in E. injection E as <- E. destruct (S1 H0') as [-> ->]. cbn in E. injection E as <- E. destruct (S2 H1') as [-> ->]. cbn in E. injection E as <- E.
  destruct (S3 H2') as [-> ->]. done.
Qed.

Section decode.
Context (data : list Z) (xs : list item) (rs : list nat).
Hypothesis Hlay : layout xs rs.
Hypothesis Hdata : data = items_bytes xs ++ restart_bytes xs rs.
Hypothesis Hfits : Z.of_nat (length data) < 2 ^ 32.

Abbreviation limit := (Z.of_nat (length (items_bytes xs))).

Lemma data_items off l : at_off (items_bytes xs) off l -> at_off data off l.
Proof. intros (pre & post & E & <-). exists pre, (post ++ restart_bytes xs rs). rewrite Hdata, E, <- !app_assoc. done. Qed.

Lemma offset_limit i : Z.of_nat (offset xs i) <= limit.
Proof.
  pose proof (offset_mono xs i (max i (length xs)) ltac:(lia)) as H. rewrite (offset_end xs (max i (length xs))) in H by lia. lia.
Qed.

Lemma limit_fits : limit < 2 ^ 32.
Proof. rewrite Hdata, length_app in Hfits. lia. Qed.

Lemma key_length i x : xs !! i = Some x -> (length x.2.1 <= offset xs (S i))%nat.
Proof.
  revert x; induction i as [|i IH]; intros x Hx; pose proof (lo_follows _ _ Hlay _ _ Hx) as [Hle Hf]; rewrite (offset_S _ _ _ Hx).
  all: unfold item_bytes; rewrite !length_app, length_drop; cbn in Hf.
  { lia. }
  destruct (xs !! i) as [y|] eqn:E; [|lia]. specialize (IH y eq_refl). lia.
Qed.

Lemma item_fits i x : xs !! i = Some x -> is_u32 (Z.of_nat x.1) /\ is_u32 (Z.of_nat (length x.2.1 - x.1)) /\ is_u32 (Z.of_nat (length x.2.2)) /\
  Z.of_nat (length x.2.1 - x.1) + Z.of_nat (length x.2.2) < 2 ^ 32.
Proof.
  intros Hi. pose proof (key_length i x Hi). pose proof (offset_limit (S i)). pose proof limit_fits. pose proof (lo_follows _ _ Hlay _ _ Hi) as [Hle _].
  rewrite (offset_S _ _ _ Hi) in *. unfold item_bytes in *. rewrite !length_app, length_drop in *. unfold is_u32. lia.
Qed.

(** The head of an item is decoded. *)
Lemma DecodeEntry_ok i x : xs !! i = Some x ->
  DecodeEntry data (Z.of_nat (offset xs i)) limit =
    Ok (Some (Z.of_nat x.1, Z.of_nat (length x.2.1 - x.1), Z.of_nat (length x.2.2), Z.of_nat (offset xs i + length (item_head x)))).
Proof.
  intros Hi. pose proof (item_fits i x Hi) as (U1 & U2 & U3 & U4). pose proof (offset_S _ _ _ Hi) as ES. pose proof (item_bytes_long x).
  pose proof (offset_limit (S i)). pose proof limit_fits. unfold DecodeEntry. rewrite (proj2 (Z.ltb_ge _ _)) by lia.
  assert (at_off (items_bytes xs) (offset xs i) (items_bytes (drop i xs))) as Hat.
  { exists (items_bytes (take i xs)), []. split; [|done]. by rewrite app_nil_r, <- items_bytes_app, take_drop. }
  pose proof (at_off_load_range _ _ _ (data_items _ _ Hat)) as El. assert (length (items_bytes (drop i xs)) = Z.to_nat (limit - Z.of_nat (offset xs i))) as Elen.
  { rewrite <- (take_drop i xs) at 2. rewrite items_bytes_app, length_app. unfold offset. lia. }
  rewrite Nat2Z.id, <- Elen, El, bind_Ok. clear El. rewrite (drop_S _ _ _ Hi) in *. change (items_bytes (x :: drop (S i) xs)) with (item_bytes x ++ items_bytes (drop (S i) xs)) in *.
  set (more := items_bytes (drop (S i) xs)) in *. unfold item_bytes, item_head in *. rewrite <- !app_assoc in *. set (tail := drop x.1 x.2.1 ++ x.2.2 ++ more) in *.
  set (n1 := Z.of_nat x.1) in *. set (n2 := Z.of_nat (length x.2.1 - x.1)) in *. set (n3 := Z.of_nat (length x.2.2)) in *.
  assert (length tail = Z.to_nat n2 + Z.to_nat n3 + length more)%nat as Et by (subst tail n2 n3; rewrite !length_app, length_drop, !Nat2Z.id; lia).
  assert (u32 (limit - Z.of_nat (offset xs i + length (EncodeVarint32 n1 ++ EncodeVarint32 n2 ++ EncodeVarint32 n3))) <? u32 (n2 + n3) = false) as Hlen.
  { apply Z.ltb_ge. unfold is_u32 in *. rewrite !length_app in *. unfold u32. rewrite !Z.mod_small by lia. lia. }
  destruct (head_bytes n1 n2 n3 U1 U2 U3) as (c0 & c1 & c2 & hrest & Eh & C0 & C1 & C2 & Hone).
  assert (EncodeVarint32 n1 ++ EncodeVarint32 n2 ++ EncodeVarint32 n3 ++ tail = c0 :: c1 :: c2 :: hrest ++ tail) as Ein by (change (c0 :: c1 :: c2 :: hrest ++ tail) with ((c0 :: c1 :: c2 :: hrest) ++ tail); by rewrite <- Eh, <- !app_assoc).
  rewrite Ein at 1. change (load (c0 :: c1 :: c2 :: hrest ++ tail) 0) with (@Ok Z c0). rewrite bind_Ok, Ein at 1.
  change (load (c0 :: c1 :: c2 :: hrest ++ tail) 1) with (@Ok Z c1). rewrite bind_Ok, Ein at 1.
  change (load (c0 :: c1 :: c2 :: hrest ++ tail) 2) with (@Ok Z c2). rewrite bind_Ok. destruct (Z.ltb_spec (Z.lor (Z.lor c0 c1) c2) 128) as [Hfast|Hslow].
  - destruct (Hone Hfast) as (-> & -> & -> & ->). rewrite Eh in *. cbn [length] in *. cbv zeta.
    replace (Z.of_nat (offset xs i) + 3) with (Z.of_nat (offset xs i + 3)) by lia. by rewrite Hlen.
  - cbv zeta. change GetVarint32Ptr with GetVarint32. rewrite !GetVarint32_encode by done. cbn [mbind option_bind].
    rewrite !GetVarint32_encode by done. cbn [mbind option_bind]. rewrite !GetVarint32_encode by done. cbn [mbind option_bind].
    replace (limit - Z.of_nat (length tail)) with (Z.of_nat (offset xs i + length (EncodeVarint32 n1 ++ EncodeVarint32 n2 ++ EncodeVarint32 n3))); [by rewrite Hlen|].
    rewrite !length_app in *. lia.
Qed.

Lemma restart_at j r : rs !! j = Some r -> at_off data (length (items_bytes xs) + 4 * j) (le_split 4 (Z.of_nat (offset xs r))).
Proof.
  intros Hj. set (f := fun r => le_split 4 (Z.of_nat (offset xs r))).
  assert (forall l, length (concat (map f l)) = 4 * length l)%nat as Hlen.
  { induction l as [|y l IH]; [done|]. cbn [map concat]. rewrite length_app, IH. unfold f. rewrite length_le_split. cbn. lia. }
  exists (items_bytes xs ++ concat (map f (take j rs))), (concat (map f (drop (S j) rs)) ++ le_split 4 (Z.of_nat (length rs))). split.
  - rewrite Hdata. unfold restart_bytes. rewrite <- (take_drop_middle _ _ _ Hj) at 1. rewrite map_app, concat_app. cbn [map concat]. by rewrite <- !app_assoc.
  - rewrite length_app, Hlen, length_take. apply lookup_lt_Some in Hj. lia.
Qed.

(** ** The iterator in the block *)
Definition block_of (b : BlockIter) : Prop :=
  bi_data b = data /\ bi_restarts b = limit /\ num_restarts_ b = Z.of_nat (length rs) /\ bi_status b = OK.

Definition index_ok (b : BlockIter) : Prop := 0 <= restart_index_ b < Z.of_nat (length rs).

(** Before the item [i]: the next call of [ParseNextKey] decodes it. *)
Definition ready (b : BlockIter) (i : nat) : Prop :=
  block_of b /\ index_ok b /\ (exists o l, bi_value b = Some (o, l) /\ o + l = Z.of_nat (offset xs i)) /\
  forall x, xs !! i = Some x -> (x.1 <= length (bi_key b))%nat /\ take x.1 (bi_key b) = take x.1 x.2.1.

Definition at_item (b : BlockIter) (i : nat) x : Prop :=
  block_of b /\ index_ok b /\ xs !! i = Some x /\ bi_current b = Z.of_nat (offset xs i) /\ bi_key b = x.2.1 /\
  exists o l : nat, bi_value b = Some (Z.of_nat o, Z.of_nat l) /\ (o + l)%nat = offset xs (S i) /\ load_range data o l = Ok x.2.2.

Definition at_end (b : BlockIter) : Prop := block_of b /\ bi_current b = limit.

Lemma at_item_ready b i x : at_item b i x -> ready b (S i).
Proof.
  intros (Hb & Hi & Hx & _ & Hk & o & l & Hv & Ho & _). split_and!; [done..| |].
  - eexists _, _. split; [done|]. lia.
  - intros y Hy. pose proof (lo_follows _ _ Hlay _ _ Hy) as [_ H]. cbn [item_before] in H. rewrite Hx in H. by rewrite Hk.
Qed.

Lemma NextEntryOffset_at b i x : at_item b i x -> NextEntryOffset b = Ok (Z.of_nat (offset xs (S i))).
Proof.
  intros (_ & _ & _ & _ & _ & o & l & Hv & Ho & _). unfold NextEntryOffset. rewrite Hv. pose proof (offset_limit (S i)). pose proof limit_fits.
  unfold u32. rewrite Z.mod_small by lia. f_equal. lia.
Qed.

Lemma item_Valid b i x : at_item b i x -> bi_Valid b = true.
Proof.
  intros ((_ & Hr & _) & _ & Hx & Hc & _). unfold bi_Valid. rewrite Hr, Hc. apply Z.ltb_lt. pose proof (offset_limit (S i)). pose proof (offset_S _ _ _ Hx).
  pose proof (item_bytes_long x). lia.
Qed.

Lemma GetRestartPoint_ok b j r : block_of b -> 0 <= j -> rs !! Z.to_nat j = Some r -> GetRestartPoint b j = Ok (Z.of_nat (offset xs r)).
Proof.
  intros (Hd & Hr & Hn & _) Hj0 Hj. unfold GetRestartPoint. pose proof (lookup_lt_Some _ _ _ Hj). rewrite Hn, (proj2 (Z.ltb_lt _ _)) by lia. cbn [c_assert]. rewrite bind_Ok, Hd, Hr.
  replace (Z.to_nat (limit + j * 4)) with (length (items_bytes xs) + 4 * Z.to_nat j)%nat by lia. rewrite (DecodeFixed32_at _ _ _ (restart_at _ _ Hj)).
  pose proof (offset_limit r). pose proof limit_fits. unfold u32. by rewrite Z.mod_small by lia.
Qed.

Lemma num_fits : 4 * Z.of_nat (length rs) < 2 ^ 32.
Proof.
  destruct (decide (length rs = O)) as [->|Hne]; [done|]. destruct (lookup_lt_is_Some_2 rs (pred (length rs))) as [r Hr]; [lia|].
  pose proof (at_off_length _ _ _ (restart_at _ _ Hr)) as H. rewrite length_le_split in H. lia.
Qed.

Lemma restart_lookup (j : Z) : 0 <= j < Z.of_nat (length rs) -> exists r, rs !! Z.to_nat j = Some r.
Proof. intros H. destruct (lookup_lt_is_Some_2 rs (Z.to_nat j)) as [r Hr]; [lia|]. by exists r. Qed.

Lemma advance_restart_ok n b index : block_of b -> 0 <= index < Z.of_nat (length rs) -> (Z.to_nat (Z.of_nat (length rs) - index) <= n)%nat ->
  exists index', advance_restart n b index = Ok index' /\ 0 <= index' < Z.of_nat (length rs).
Proof.
  intros Hb. revert index; induction n as [|n IH]; intros index Hi Hn; [lia|]. cbn [advance_restart]. pose proof num_fits. unfold u32. rewrite Z.mod_small by lia.
  pose proof Hb as (_ & _ & -> & _). destruct (Z.ltb_spec (index + 1) (Z.of_nat (length rs))) as [Hlt|Hge]; [|by eauto].
  destruct (restart_lookup (index + 1)) as (r & Hr); [lia|]. rewrite (GetRestartPoint_ok b (index + 1) r Hb), bind_Ok by (done || lia).
  case_match; [|by eauto]. apply IH; lia.
Qed.

Lemma ParseNextKey_ok b i : ready b i ->
  match xs !! i with
  | Some x => exists b', ParseNextKey b = Ok (true, b') /\ at_item b' i x
  | None => exists b', ParseNextKey b = Ok (false, b') /\ at_end b'
  end.
Proof.
  intros (Hb & Hi & (o & l & Hv & Ho) & Hk). pose proof Hb as (Hd & Hr & Hn & Hst). unfold ParseNextKey, NextEntryOffset. rewrite Hv.
  pose proof (offset_limit i) as Hol. pose proof limit_fits. rewrite Ho. unfold u32. rewrite Z.mod_small, bind_Ok, Hr by lia.
  destruct (xs !! i) as [x|] eqn:Hx.
  - pose proof (offset_S _ _ _ Hx) as ES. pose proof (item_bytes_long x). pose proof (offset_limit (S i)) as HS. rewrite (proj2 (Z.leb_gt _ _)) by lia.
    cbn [set_current bi_data bi_key restart_index_]. rewrite Hd, (DecodeEntry_ok _ _ Hx), bind_Ok. destruct (Hk x eq_refl) as [Hlen Htake].
    rewrite (proj2 (Z.ltb_ge _ _)) by lia. assert (at_off data (offset xs i) (item_head x ++ drop x.1 x.2.1 ++ x.2.2)) as Hat by (by apply data_items, items_bytes_at).
    apply at_off_app in Hat as [_ Hat]. apply at_off_app in Hat as [Hat1 Hat2]. rewrite !Nat2Z.id. apply at_off_load_range in Hat1 as Hl1. rewrite length_drop in Hl1.
    rewrite Hl1, bind_Ok. rewrite Htake, take_drop. cbn [num_restarts_ restart_index_ bi_restarts bi_status set_current].
    match goal with |- exists b', (_ ← advance_restart ?n ?b1 _; _) = _ /\ _ => destruct (advance_restart_ok n b1 (restart_index_ b)) as (index & -> & Hindex) end.
    { by split_and!. } { done. } { rewrite Hn. unfold index_ok in Hi. lia. }
    rewrite bind_Ok. eexists. split; [done|]. split_and!; [by split_and!|done|done|done|done|]. exists (offset xs i + length (item_head x) + (length x.2.1 - x.1))%nat, (length x.2.2).
    rewrite length_drop in Hat2. split_and!; [cbn; by rewrite <- Nat2Z.inj_add| |by apply at_off_load_range].
    rewrite ES. unfold item_bytes. rewrite !length_app, length_drop. lia.
  - apply lookup_ge_None_1 in Hx. rewrite offset_end in * by done. rewrite (proj2 (Z.leb_le _ _)) by lia. eexists. split; [done|]. split; [by split_and!|]. done.
Qed.

Lemma SeekToRestartPoint_ok b (j : Z) r : block_of b -> 0 <= j -> rs !! Z.to_nat j = Some r -> exists b', SeekToRestartPoint b j = Ok b' /\ ready b' r.
Proof.
  intros Hb Hj Hr. pose proof (lookup_lt_Some _ _ _ Hr). unfold SeekToRestartPoint. rewrite (GetRestartPoint_ok _ _ _ Hb Hj Hr), bind_Ok.
  pose proof Hb as (Hd & Hrs & Hn & Hst). eexists. split; [done|]. split_and!; [by split_and!|unfold index_ok; cbn; lia| |].
  - eexists _, _. split; [done|]. lia.
  - intros x Hx. assert (x.1 = O) as -> by (eapply lo_restart; [done| |done]; by eapply list_elem_of_lookup_2). split; [lia|done].
Qed.

Lemma ready_turns b i : ready b i -> (length xs < entry_turns b)%nat.
Proof. intros ((E & _) & _). unfold entry_turns. rewrite E, Hdata, length_app. pose proof (length_items_bytes xs). lia. Qed.

(** The loop that ends with the item [j]. *)
Lemma skip_entries_ok n b i j y : ready b i -> (i <= j)%nat -> xs !! j = Some y -> (j - i < n)%nat ->
  exists b', skip_entries n b (Z.of_nat (offset xs (S j))) = Ok b' /\ at_item b' j y.
Proof.
  revert b i; induction n as [|n IH]; intros b i Hb Hij Hj Hn; [lia|]. cbn [skip_entries]. pose proof (lookup_lt_Some _ _ _ Hj) as Hlj. pose proof (ParseNextKey_ok b i Hb) as HP.
  destruct (lookup_lt_is_Some_2 xs i) as [x Hx]; [lia|]. rewrite Hx in HP. destruct HP as (b' & -> & Hat). rewrite bind_Ok, (NextEntryOffset_at _ _ _ Hat), bind_Ok.
  destruct (decide (i = j)) as [->|Hne].
  - rewrite (proj2 (Z.ltb_ge _ _)) by lia. exists b'. split; [done|]. by simplify_eq.
  - pose proof (offset_lt xs (S i) (S j)). rewrite (proj2 (Z.ltb_lt _ _)) by lia. apply (IH b' (S i)); [by eapply at_item_ready|lia|done|lia].
Qed.

(** ** The moves *)
Definition cursor (b : BlockIter) (p : option entry) : Prop :=
  match p with None => at_end b | Some e => exists i sh, at_item b i (sh, e) end.

Lemma cursor_block b p : cursor b p -> block_of b.
Proof. destruct p as [e|]; [intros (i & sh & H & _); done|by intros []]. Qed.

(** After [ParseNextKey], at the item that was next. *)
Lemma parse_cursor b i : ready b i -> exists m b', ParseNextKey b = Ok (m, b') /\ cursor b' (map snd xs !! i) /\ m = bool_decide (is_Some (xs !! i)).
Proof.
  intros H%ParseNextKey_ok. change (map snd xs) with (snd <$> xs). rewrite list_lookup_fmap. destruct (xs !! i) as [[sh e]|]; destruct H as (b' & -> & H); eexists _, _; (split; [done|]); cbn.
  - split; [by exists i, sh|done].
  - done.
Qed.

Lemma first_restart : rs !! O = Some O.
Proof. rewrite <- head_lookup. apply (lo_first _ _ Hlay). Qed.

Lemma bi_SeekToFirst_ok b p : cursor b p -> exists b', bi_SeekToFirst b = Ok b' /\ cursor b' (head (map snd xs)).
Proof.
  intros Hb%cursor_block. unfold bi_SeekToFirst. destruct (SeekToRestartPoint_ok b 0 O Hb ltac:(lia) first_restart) as (b' & -> & Hr). rewrite bind_Ok.
  destruct (parse_cursor b' O Hr) as (m & b2 & -> & Hc & _). rewrite bind_Ok. exists b2. split; [done|]. by rewrite head_lookup.
Qed.

Lemma last_restart : exists r, rs !! Z.to_nat (u32 (Z.of_nat (length rs) - 1)) = Some r /\ (r <= length xs - 1)%nat.
Proof.
  pose proof first_restart as H%lookup_lt_Some. pose proof num_fits. unfold u32. rewrite Z.mod_small by lia.
  destruct (restart_lookup (Z.of_nat (length rs) - 1)) as (r & Hr); [lia|]. exists r. split; [done|].
  pose proof (lo_bound _ _ Hlay) as HB. rewrite Forall_forall in HB. specialize (HB r ltac:(by eapply list_elem_of_lookup_2)). lia.
Qed.

Lemma bi_SeekToLast_ok b p : cursor b p -> exists b', bi_SeekToLast b = Ok b' /\ cursor b' (last (map snd xs)).
Proof.
  intros Hb%cursor_block. unfold bi_SeekToLast. pose proof Hb as (_ & _ & Hn & _). rewrite Hn. destruct last_restart as (r & Hr & Hle).
  destruct (SeekToRestartPoint_ok b (u32 (Z.of_nat (length rs) - 1)) r Hb (proj1 (Z.mod_pos_bound _ (2 ^ 32) eq_refl)) Hr) as (b' & -> & Hready). rewrite bind_Ok. pose proof Hready as ((_ & Hlim & _) & _). rewrite Hlim.
  pose proof (ready_turns _ _ Hready) as Hturns. change (map snd xs) with (snd <$> xs). rewrite fmap_last. destruct (last xs) as [[sh e]|] eqn:El.
  - rewrite last_lookup in El. pose proof (lookup_lt_Some _ _ _ El). destruct (skip_entries_ok (entry_turns b') b' r (pred (length xs)) (sh, e) Hready) as (b2 & E2 & H2); [lia|done|lia|].
    rewrite (offset_end xs (S (pred (length xs)))) in E2 by lia. exists b2. split; [done|]. by eexists _, _.
  - apply last_None in El. assert (xs !! r = None) as Hx by (by rewrite El). pose proof (ParseNextKey_ok b' r Hready) as HP. rewrite Hx in HP. destruct HP as (b2 & E2 & H2).
    exists b2. unfold entry_turns. cbn [skip_entries]. by rewrite E2, bind_Ok.
Qed.

Lemma bi_Next_ok b i x : at_item b i x -> exists b', bi_Next b = Ok b' /\ cursor b' (map snd xs !! S i).
Proof.
  intros Hat. unfold bi_Next. rewrite (item_Valid _ _ _ Hat). cbn [c_assert]. rewrite bind_Ok.
  destruct (parse_cursor b (S i) (at_item_ready _ _ _ Hat)) as (m & b' & -> & Hc & _). rewrite bind_Ok. eauto.
Qed.

Lemma restart_before_ok n b i x index : at_item b i x -> 0 <= index < Z.of_nat (length rs) -> (Z.to_nat index < n)%nat ->
  exists r, restart_before n b (bi_current b) index = Ok r /\
    match r with
    | None => i = O
    | Some j => 0 <= j /\ exists r, rs !! Z.to_nat j = Some r /\ (r < i)%nat
    end.
Proof.
  intros Hat. pose proof Hat as (Hb & _ & Hx & Hc & _). rewrite Hc. pose proof (lookup_lt_Some _ _ _ Hx).
  revert index; induction n as [|n IH]; intros index Hi Hn; [lia|]. cbn [restart_before].
  destruct (restart_lookup index Hi) as (r & Hr). rewrite (GetRestartPoint_ok b index r Hb), bind_Ok by (done || lia).
  destruct (Z.leb_spec (Z.of_nat (offset xs i)) (Z.of_nat (offset xs r))) as [Hle|Hgt].
  - destruct (Z.eqb_spec index 0) as [->|Hne]; [|apply IH; lia]. exists None. split; [done|]. change (Z.to_nat 0) with O in Hr. rewrite first_restart in Hr. injection Hr as <-.
    destruct i as [|i]; [done|]. pose proof (offset_lt xs 0 (S i)). lia.
  - exists (Some index). split; [done|]. split; [lia|]. exists r. split; [done|]. destruct (decide (r < i)%nat); [done|]. pose proof (offset_mono xs i r). lia.
Qed.

Lemma bi_Prev_ok b i x : at_item b i x -> exists b', bi_Prev b = Ok b' /\ cursor b' (match i with O => None | S j => map snd xs !! j end).
Proof.
  intros Hat. unfold bi_Prev. rewrite (item_Valid _ _ _ Hat). cbn [c_assert]. rewrite bind_Ok. pose proof Hat as (Hb & Hi & Hx & Hc & _). pose proof Hb as (Hd & Hr & Hn & Hst).
  destruct (restart_before_ok (S (Z.to_nat (num_restarts_ b))) b i x (restart_index_ b) Hat Hi) as ([j|] & -> & H); [rewrite Hn; unfold index_ok in Hi; lia|..]; rewrite bind_Ok.
  - destruct H as (Hj & r & Hr' & Hlt). destruct i as [|i]; [lia|]. destruct (SeekToRestartPoint_ok b j r Hb Hj Hr') as (b' & -> & Hready). rewrite bind_Ok, Hc.
    pose proof (lookup_lt_Some _ _ _ Hx). destruct (lookup_lt_is_Some_2 xs i) as [[sh e] Hy]; [lia|]. pose proof (ready_turns _ _ Hready).
    destruct (skip_entries_ok (entry_turns b') b' r i (sh, e) Hready) as (b2 & -> & H2); [lia|done|lia|]. exists b2. split; [done|].
    change (map snd xs) with (snd <$> xs). rewrite list_lookup_fmap, Hy. by exists i, sh.
  - subst i. eexists. split; [done|]. split; [by split_and!|done].
Qed.

Context {C : Comparator} {HC : ComparatorOk C}.
Hypothesis Hord : ordered (map snd xs).

Lemma item_key_ok i x : xs !! i = Some x -> key_ok x.2.1.
Proof. intros Hx. apply (ordered_key _ _ Hord). change (map snd xs) with (snd <$> xs). apply list_elem_of_fmap_2. by eapply list_elem_of_lookup_2. Qed.

Lemma item_key_lt i j x y : xs !! i = Some x -> xs !! j = Some y -> (i < j)%nat -> key_lt x.2.1 y.2.1.
Proof.
  intros Hx Hy Hij. pose proof Hord as Ho. rewrite <- (take_drop j xs), map_app in Ho. apply ordered_app in Ho as (_ & _ & H). apply (H x.2 y.2); apply list_elem_of_fmap_2.
  - apply (list_elem_of_lookup_2 _ i). by rewrite lookup_take_lt.
  - apply (list_elem_of_lookup_2 _ O). by rewrite lookup_drop, Nat.add_0_r.
Qed.

(** The items before a restart point that the search returns are below the target. *)
Definition below (target : list Z) (r : nat) : Prop := r = O \/ exists x, xs !! r = Some x /\ key_lt x.2.1 target.

(** Every restart point but the first is at an item, and its key is stored in full. *)
Lemma restart_item j r : rs !! Z.to_nat j = Some r -> 0 < j -> exists x, xs !! r = Some x /\ x.1 = O.
Proof.
  intros Hr Hj. assert (0 < r)%nat as Hpos.
  { pose proof (lo_sorted _ _ Hlay) as Hs. pose proof first_restart as H0. destruct rs as [|r0 rs']; [done|]. injection H0 as ->. apply StronglySorted_inv in Hs as [_ Hs].
    rewrite Forall_forall in Hs. apply Hs. replace (Z.to_nat j) with (S (pred (Z.to_nat j))) in Hr by lia. by eapply list_elem_of_lookup_2. }
  pose proof (lo_bound _ _ Hlay) as HB. rewrite Forall_forall in HB. specialize (HB r ltac:(by eapply list_elem_of_lookup_2)).
  destruct (lookup_lt_is_Some_2 xs r) as [x Hx]; [lia|]. exists x. split; [done|]. eapply lo_restart; [done| |done]. by eapply list_elem_of_lookup_2.
Qed.

Lemma search_restart_ok n b target left right : block_of b -> key_ok target -> 0 <= left <= right -> right < Z.of_nat (length rs) ->
  (exists r, rs !! Z.to_nat left = Some r /\ below target r) -> (Z.to_nat (right - left) < n)%nat ->
  exists j r, search_restart n b target left right = Ok (Some j) /\ 0 <= j /\ rs !! Z.to_nat j = Some r /\ below target r.
Proof.
  intros Hb Ht. revert left right; induction n as [|n IH]; intros left right Hlr Hr Hleft Hn; [lia|]. cbn [search_restart].
  destruct (Z.ltb_spec left right) as [Hlt|Hge]; [|destruct Hleft as (r & ? & ?); exists left, r; split_and!; [done|lia|done|done]].
  pose proof num_fits. set (mid := u32 (left + right + 1) / 2). assert (mid = (left + right + 1) / 2) as Emid.
  { subst mid. unfold u32. by rewrite Z.mod_small by lia. }
  assert (left < mid <= right) as Hmid by (rewrite Emid; Z.div_mod_to_equations; lia). clearbody mid. clear Emid.
  destruct (restart_lookup mid) as (r & Hrm); [lia|]. rewrite (GetRestartPoint_ok b mid r Hb), bind_Ok by (done || lia).
  destruct (restart_item mid r Hrm ltac:(lia)) as (x & Hx & Hx0). pose proof Hb as (Hd & Hlim & _). rewrite Hd, Hlim, (DecodeEntry_ok _ _ Hx), bind_Ok, Hx0.
  change (negb (Z.of_nat 0 =? 0)) with false. cbv iota.
  assert (at_off data (offset xs r) (item_head x ++ drop x.1 x.2.1 ++ x.2.2)) as Hat by (by apply data_items, items_bytes_at).
  apply at_off_app in Hat as [_ Hat]. apply at_off_app in Hat as [Hat _]. rewrite Hx0, drop_0 in Hat. rewrite !Nat2Z.id, Nat.sub_0_r, (at_off_load_range _ _ _ Hat), bind_Ok.
  rewrite Compare_ok, bind_Ok by (done || by eapply item_key_ok). destruct (Z.ltb_spec (cmp x.2.1 target) 0).
  - apply IH; [lia|lia| |lia]. exists r. split; [done|]. right. eauto.
  - unfold u32. rewrite Z.mod_small by lia. apply IH; [lia|lia|done|lia].
Qed.

(** The linear search. *)
Lemma seek_loop_ok n b target i : ready b i -> key_ok target -> (forall j x, xs !! j = Some x -> (j < i)%nat -> key_lt x.2.1 target) -> (length xs - i < n)%nat ->
  exists b', seek_loop n b target = Ok b' /\ cursor b' (from target (map snd xs)).
Proof.
  revert b i; induction n as [|n IH]; intros b i Hb Ht Hlt Hn; [lia|]. cbn [seek_loop].
  assert (Forall (fun e => key_lt e.1 target) (map snd (take i xs))) as H1.
  { rewrite Forall_map, Forall_forall. intros x [j Hj]%list_elem_of_lookup. apply lookup_take_Some in Hj as [Hj Hji]. by eapply Hlt. }
  pose proof (ParseNextKey_ok b i Hb) as HP. destruct (xs !! i) as [[sh e]|] eqn:Hx; destruct HP as (b' & -> & Hat); rewrite bind_Ok.
  - pose proof Hat as (_ & _ & _ & _ & -> & _). pose proof (item_key_ok _ _ Hx) as Ke. cbn in Ke |- *. rewrite Compare_ok, bind_Ok by done. destruct (Z.leb_spec 0 (cmp e.1 target)) as [Hge|Hl].
    + exists b'. split; [done|]. rewrite <- (take_drop_middle _ _ _ Hx), map_app, from_split; [by exists i, sh|done|].
      cbn [map]. constructor; [unfold key_lt; cbn; lia|]. rewrite Forall_map, Forall_forall. intros y [j Hj]%list_elem_of_lookup Hyt. rewrite lookup_drop in Hj.
      pose proof (item_key_lt i _ _ _ Hx Hj ltac:(lia)) as Hey. pose proof (item_key_ok _ _ Hj). pose proof (key_lt_trans _ _ _ Ke H Ht Hey Hyt) as Hcon. unfold key_lt in Hcon. cbn in Hcon. lia.
    + apply (IH b' (S i)); [by eapply at_item_ready|done| |apply lookup_lt_Some in Hx; lia]. intros j y Hy Hj. destruct (decide (j = i)) as [->|]; [by simplify_eq|eapply Hlt; [done|lia]].
  - exists b'. split; [done|]. apply lookup_ge_None_1 in Hx. rewrite take_ge in H1 by done. rewrite <- (app_nil_r (map snd xs)), from_split; [done|done|constructor].
Qed.

Lemma bi_Seek_ok b p target : cursor b p -> key_ok target -> exists b', bi_Seek b target = Ok b' /\ cursor b' (from target (map snd xs)).
Proof.
  intros Hb%cursor_block Ht. unfold bi_Seek. pose proof Hb as (_ & _ & Hn & _). rewrite Hn. pose proof first_restart as H0. pose proof (lookup_lt_Some _ _ _ H0). pose proof num_fits.
  unfold u32. rewrite Z.mod_small by lia. destruct (search_restart_ok (S (Z.to_nat (Z.of_nat (length rs)))) b target 0 (Z.of_nat (length rs) - 1) Hb Ht) as (j & r & -> & Hj & Hr & Hbel);
    [lia|lia|exists O; split; [done|by left]|lia|]. rewrite bind_Ok. destruct (SeekToRestartPoint_ok b j r Hb Hj Hr) as (b' & -> & Hready). rewrite bind_Ok.
  apply (seek_loop_ok _ b' target r); [done|done| |pose proof (ready_turns _ _ Hready); lia]. intros i x Hx Hi. destruct Hbel as [->|(y & Hy & Hyt)]; [lia|].
  eapply key_lt_trans; [by eapply item_key_ok|by eapply (item_key_ok r)|done| |done]. by eapply item_key_lt.
Qed.

End decode.

(** * The iterator keeps its promise *)
Section block_ok.
Context {C : Comparator} {HC : ComparatorOk C}.

Definition block_at (b : BlockIter) (es : list entry) (p : option entry) : Prop :=
  exists xs rs, layout xs rs /\ bi_data b = items_bytes xs ++ restart_bytes xs rs /\ Z.of_nat (length (bi_data b)) < 2 ^ 32 /\
    es = map snd xs /\ ordered es /\ cursor (bi_data b) xs rs b p.

(** The block does not change. *)
Lemma block_at_intro (b b' : BlockIter) xs rs p : layout xs rs -> bi_data b = items_bytes xs ++ restart_bytes xs rs -> Z.of_nat (length (bi_data b)) < 2 ^ 32 ->
  ordered (map snd xs) -> cursor (bi_data b) xs rs b' p -> block_at b' (map snd xs) p.
Proof. intros Hl Hd Hf Ho Hc. pose proof (cursor_block _ _ _ _ _ Hc) as (E & _). exists xs, rs. by rewrite E. Qed.

Lemma item_entry xs (i sh : nat) (e : entry) : xs !! i = Some (sh, e) -> map snd xs !! i = Some e.
Proof. intros H. change (map snd xs) with (snd <$> xs). by rewrite list_lookup_fmap, H. Qed.

#[export, refine] Instance block_iterator_ok : IteratorOk BlockIter C := {| stands_at := block_at |}.
Proof.
  - by intros it es p (xs & rs & _ & _ & _ & _ & Ho & _).
  - intros it es [e|] (xs & rs & Hl & Hd & Hf & -> & Ho & Hc).
    + destruct Hc as (i & sh & Hat). cbn. by erewrite item_Valid.
    + destruct Hc as [(_ & Hr & _) Hcur]. cbn. unfold bi_Valid. by rewrite Hcur, Hr, Z.ltb_irrefl.
  - intros it es e (xs & rs & Hl & Hd & Hf & -> & Ho & i & sh & Hat). destruct Hat as (_ & _ & Hx & _). apply item_entry in Hx. by eapply list_elem_of_lookup_2.
  - intros it es e (xs & rs & Hl & Hd & Hf & -> & Ho & i & sh & Hat). cbn. unfold bi_get_key. erewrite item_Valid by done. cbn [c_assert]. rewrite bind_Ok.
    by destruct Hat as (_ & _ & _ & _ & -> & _).
  - intros it es e (xs & rs & Hl & Hd & Hf & -> & Ho & i & sh & Hat). cbn. unfold bi_get_value. erewrite item_Valid by done. cbn [c_assert]. rewrite bind_Ok.
    destruct Hat as (_ & _ & _ & _ & _ & o & l & -> & _ & Hv). by rewrite !Nat2Z.id.
  - intros it es p (xs & rs & Hl & Hd & Hf & -> & Ho & Hc). by destruct (cursor_block _ _ _ _ _ Hc) as (_ & _ & _ & ?).
  - intros it es p (xs & rs & Hl & Hd & Hf & -> & Ho & Hc). destruct (bi_SeekToFirst_ok (bi_data it) xs rs Hl Hd Hf it _ Hc) as (b' & E & Hc'). exists b'. split; [done|]. by eapply block_at_intro.
  - intros it es p (xs & rs & Hl & Hd & Hf & -> & Ho & Hc). destruct (bi_SeekToLast_ok (bi_data it) xs rs Hl Hd Hf it _ Hc) as (b' & E & Hc'). exists b'. split; [done|]. by eapply block_at_intro.
  - intros it es p k (xs & rs & Hl & Hd & Hf & -> & Ho & Hc) Hk. destruct (bi_Seek_ok (bi_data it) xs rs Hl Hd Hf Ho it _ k Hc Hk) as (b' & E & Hc'). exists b'. split; [done|]. by eapply block_at_intro.
  - intros it es e (xs & rs & Hl & Hd & Hf & -> & Ho & i & sh & Hat). destruct (bi_Next_ok (bi_data it) xs rs Hl Hd Hf it _ _ Hat) as (b' & E & Hc'). exists b'. split; [done|].
    pose proof Hat as (_ & _ & Hx & _). rewrite (after_index _ _ _ Ho (item_entry _ _ _ _ Hx)). by eapply block_at_intro.
  - intros it es e (xs & rs & Hl & Hd & Hf & -> & Ho & i & sh & Hat). destruct (bi_Prev_ok (bi_data it) xs rs Hl Hd Hf it _ _ Hat) as (b' & E & Hc'). exists b'. split; [done|].
    pose proof Hat as (_ & _ & Hx & _). rewrite (before_index _ _ _ Ho (item_entry _ _ _ _ Hx)). by eapply block_at_intro.
Defined.

(** * The builder makes such a block *)

(** A bound on the bytes of a block: at most 15 for the numbers of an entry and 4 for a restart point. *)
Fixpoint space (es : list entry) : nat :=
  match es with
  | [] => 8
  | (k, v) :: es => 19 + length k + length v + space es
  end.

Lemma space_app es e : space (es ++ [e]) = (19 + length e.1 + length e.2 + space es)%nat.
Proof. induction es as [|[k v] es IH]; [destruct e; cbn; lia|]. cbn [app space]. rewrite IH. lia. Qed.

Lemma item_bytes_short x : is_u32 (Z.of_nat x.1) -> fits32 x.2.1 -> fits32 x.2.2 -> (length (item_bytes x) <= 15 + length x.2.1 + length x.2.2)%nat.
Proof.
  intros H1 H2 H3. unfold item_bytes, item_head. rewrite !length_app, length_drop. unfold is_u32, fits32 in *.
  rewrite !EncodeVarint32_eq by (unfold is_u32; lia). pose proof (length_varint 5 (Z.of_nat x.1)). pose proof (length_varint 5 (Z.of_nat (length x.2.1 - x.1))).
  pose proof (length_varint 5 (Z.of_nat (length x.2.2))). lia.
Qed.

Context (interval : Z).

Record builds (b : BlockBuilder) xs rs : Prop := {
  bu_buffer : buffer_ b = items_bytes xs;
  bu_restarts : restarts_ b = map (fun r => Z.of_nat (offset xs r)) rs;
  bu_layout : layout xs rs;
  bu_last : last_key_ b = match last xs with Some x => x.2.1 | None => [] end;
  bu_counter : 0 <= counter_ b <= interval;
  bu_start : xs = [] -> counter_ b = 0;
  bu_open : finished_ b = false;
  bu_count : (length rs <= S (length xs))%nat;
  bu_space : (length (items_bytes xs) + 4 * length xs + 8 <= space (map snd xs))%nat
}.

Lemma builds_new : 1 <= interval -> exists b, newBlockBuilder interval = Ok b /\ builds b [] [O].
Proof.
  intros H. unfold newBlockBuilder. rewrite (proj2 (Z.leb_le _ _)) by done. eexists. split; [done|]. split; try done; try (cbn; lia).
  split; try done.
  - repeat constructor.
  - repeat constructor.
Qed.

Lemma shared_prefix_ok a k : (shared_prefix a k <= length a)%nat /\ (shared_prefix a k <= length k)%nat /\ take (shared_prefix a k) a = take (shared_prefix a k) k.
Proof.
  revert k; induction a as [|x a IH]; intros [|y k]; cbn; try (split_and!; (lia || done)). destruct (Z.eqb_spec x y) as [->|]; cbn; [|split_and!; (lia || done)].
  destruct (IH k) as (H1 & H2 & H3). rewrite H3. split_and!; [lia|lia|done].
Qed.

(** The items, and the restart points, with one more. *)
Lemma layout_snoc xs rs x : layout xs rs -> follows (last xs) x -> layout (xs ++ [x]) rs.
Proof.
  intros [H1 H2 H3 H4 H5] Hx. split; [|done|done|..].
  - intros i y [Hy|[Hi Hy]]%lookup_app_Some.
    + specialize (H1 i y Hy). destruct i as [|i]; [done|]. cbn in *. rewrite lookup_app_l; [done|]. apply lookup_lt_Some in Hy. lia.
    + apply list_lookup_singleton_Some in Hy as [Hi0 <-]. replace i with (length xs) by lia. destruct (length xs) as [|n] eqn:En; cbn.
      * apply nil_length_inv in En as ->. done.
      * rewrite lookup_app_l by lia. rewrite last_lookup, En in Hx. done.
  - eapply Forall_impl; [done|]. intros r Hr. cbn in *. rewrite length_app. cbn. lia.
  - intros r y Hr [Hy|[Hi Hy]]%lookup_app_Some; [by eapply H5|]. apply list_lookup_singleton_Some in Hy as [Hi0 <-].
    rewrite Forall_forall in H4. specialize (H4 r Hr). cbn in H4. assert (xs = []) as -> by (apply nil_length_inv; lia). apply Hx.
Qed.

Lemma layout_restart xs rs x : layout xs rs -> xs <> [] -> x.1 = O -> layout (xs ++ [x]) (rs ++ [length xs]).
Proof.
  intros Hl Hne Hx. assert (follows (last xs) x) as Hf by (split; [lia|]; rewrite Hx; destruct (last xs); [split; [lia|done]|done]).
  assert (0 < length xs)%nat as Hpos by (destruct xs; [done|cbn; lia]). destruct (layout_snoc xs rs x Hl Hf) as [H1 H2 H3 H4 H5]. pose proof (lo_bound _ _ Hl) as HB. split; [done|..].
  - by destruct rs.
  - apply StronglySorted_app_2; [|done|by repeat constructor]. intros a b Ha ->%list_elem_of_singleton. rewrite Forall_forall in HB. specialize (HB a Ha). lia.
  - apply Forall_app. split; [done|]. constructor; [|done]. rewrite length_app. cbn. lia.
  - intros r y [Hr| ->%list_elem_of_singleton]%elem_of_app Hy; [by eapply H5|]. rewrite lookup_app_r, Nat.sub_diag in Hy by lia. by injection Hy as <-.
Qed.

Lemma offsets_snoc xs rs x : layout xs rs -> map (fun r => Z.of_nat (offset (xs ++ [x]) r)) rs = map (fun r => Z.of_nat (offset xs r)) rs.
Proof.
  intros Hl. pose proof (lo_bound _ _ Hl) as HB. apply map_ext_in. intros r Hr%list_elem_of_In. rewrite Forall_forall in HB. specialize (HB r Hr). cbn in HB.
  destruct (decide (xs = [])) as [->|Hne]; [|rewrite offset_app; [done|lia]]. cbn in HB. by replace r with O by lia.
Qed.

(** What [Add] appends. *)
Lemma put_item_ok (buffer last k v restarts : list Z) (shared : nat) counter fin :
  (shared <= length k)%nat -> take shared last = take shared k -> fits32 k -> fits32 v ->
  (buffer ← PutVarint32 buffer (u32 (Z.of_nat shared));
   buffer ← PutVarint32 buffer (u32 (Z.of_nat (length k - shared)));
   buffer ← PutVarint32 buffer (u32 (Z.of_nat (length v)));
   delta ← load_range k shared (length k - shared);
   _ ← c_assert (bool_decide (take shared last ++ delta = k));
   Ok (mkBuilder (buffer ++ delta ++ v) restarts (counter + 1) fin (take shared last ++ delta))) =
  Ok (mkBuilder (buffer ++ item_bytes (shared, (k, v))) restarts (counter + 1) fin k).
Proof.
  intros Hs Ht Hk Hv. unfold fits32, u32 in *. rewrite !Z.mod_small by lia. rewrite PutVarint32_eq, bind_Ok by (unfold is_u32; lia). rewrite PutVarint32_eq, bind_Ok by (unfold is_u32; lia).
  rewrite PutVarint32_eq, bind_Ok by (unfold is_u32; lia). assert (load_range k shared (length k - shared) = Ok (drop shared k)) as ->.
  { rewrite <- length_drop. apply at_off_load_range. exists (take shared k), []. rewrite app_nil_r, take_drop, length_take. split; [done|lia]. }
  rewrite bind_Ok, Ht, take_drop, bool_decide_true by done. cbn [c_assert]. rewrite bind_Ok. unfold item_bytes, item_head. by rewrite <- !app_assoc.
Qed.

Lemma Add_block_ok b xs rs k v : 1 <= interval -> builds b xs rs -> ordered (map snd xs ++ [(k, v)]) -> Z.of_nat (space (map snd xs ++ [(k, v)])) < 2 ^ 32 ->
  exists b' x rs', Add (comparator := C) interval b k v = Ok b' /\ builds b' (xs ++ [x]) rs' /\ x.2 = (k, v).
Proof.
  intros Hint Hb Ho Hsp. pose proof Hb as [B1 B2 B3 B4 B5 B6 B7 B8 B9]. rewrite space_app in Hsp. cbn in Hsp. unfold Add. rewrite B7, (proj2 (Z.leb_le _ _)) by lia. cbn [negb c_assert]. rewrite !bind_Ok.
  assert (exists u, (if empty b then Ok tt else c ← Compare k (last_key_ b); c_assert (0 <? c)) = Ok u) as (u & ->).
  { unfold empty. rewrite B1, B4. destruct (last xs) as [x|] eqn:El; [|apply last_None in El as ->; by exists tt]. apply last_Some in El as [l El]. case_match; [by exists tt|].
    apply ordered_app in Ho as (Ho1 & Ho2 & Ho). assert (x.2 ∈ map snd xs) as Hin by (apply list_elem_of_fmap_2; rewrite El; set_solver). specialize (Ho x.2 (k, v) Hin ltac:(set_solver)).
    pose proof (ordered_key _ _ Ho1 Hin) as Kx. pose proof (ordered_key _ (k, v) Ho2 ltac:(set_solver)) as Kk. cbn in Kk. rewrite Compare_ok, bind_Ok by done.
    exists tt. unfold entry_lt, key_lt in Ho. apply cmp_flip in Ho; [|done..]. cbn in Ho. by rewrite (proj2 (Z.ltb_lt _ _)) by lia. }
  rewrite bind_Ok. destruct (Z.ltb_spec (counter_ b) interval) as [Hlt|Hge].
  - destruct (shared_prefix_ok (last_key_ b) k) as (S1 & S2 & S3). set (sh := shared_prefix (last_key_ b) k) in *.
    rewrite put_item_ok by (done || unfold fits32; lia). eexists _, (sh, (k, v)), rs. split; [done|]. split; [|done].
    assert (follows (last xs) (sh, (k, v))) as Hf. { split; [done|]. cbn. rewrite B4 in *. destruct (last xs); [done|cbn in S1; lia]. }
    split; cbn; [by rewrite items_bytes_app, B1; cbn; rewrite app_nil_r|by rewrite offsets_snoc|by apply layout_snoc|by rewrite last_snoc|lia|by destruct xs|done|rewrite length_app; cbn; lia|].
    rewrite items_bytes_app, map_app. cbn [map]. rewrite space_app, !length_app. cbn [items_bytes map concat]. rewrite app_nil_r. pose proof (item_bytes_short (sh, (k, v))) as Hsh.
    unfold is_u32, fits32 in Hsh. cbn in *. lia.
  - assert (xs <> []) as Hne by (intros E; rewrite (B6 E) in Hge; lia). rewrite put_item_ok by (done || lia || unfold fits32; lia).
    eexists _, (O, (k, v)), (rs ++ [length xs]). split; [done|]. split; [|done].
    split; cbn; [by rewrite items_bytes_app, B1; cbn; rewrite app_nil_r| |by apply layout_restart|by rewrite last_snoc|lia|by destruct xs|done|rewrite !length_app; cbn; lia|].
    + rewrite map_app, B2, offsets_snoc by done. cbn. rewrite offset_app, offset_end, B1 by lia. unfold u32. by rewrite Z.mod_small by lia.
    + rewrite items_bytes_app, map_app. cbn [map]. rewrite space_app, !length_app. cbn [items_bytes map concat]. rewrite app_nil_r. pose proof (item_bytes_short (O, (k, v))) as Hsh.
      unfold is_u32, fits32 in Hsh. cbn in *. lia.
Qed.

Lemma add_entries_ok b xs rs es : 1 <= interval -> builds b xs rs -> ordered (map snd xs ++ es) -> Z.of_nat (space (map snd xs ++ es)) < 2 ^ 32 ->
  exists b' xs' rs', add_entries (comparator := C) interval b es = Ok b' /\ builds b' xs' rs' /\ map snd xs' = map snd xs ++ es.
Proof.
  intros Hint. revert b xs rs; induction es as [|[k v] es IH]; intros b xs rs Hb Ho Hsp; [exists b, xs, rs; rewrite app_nil_r; done|]. cbn [add_entries].
  rewrite cons_middle, app_assoc in Ho, Hsp. destruct (Add_block_ok b xs rs k v Hint Hb) as (b' & x & rs' & -> & Hb' & Hx); [by apply ordered_app in Ho as []| |].
  - assert (forall l1 l2 : list entry, (space l1 <= space (l1 ++ l2))%nat) as Hmono.
    { induction l1 as [|[? ?] l1 IHl]; intros l2; cbn; [induction l2 as [|[? ?] l2 IHl]; cbn; lia|]. specialize (IHl l2). lia. }
    eapply Z.le_lt_trans; [|exact Hsp]. apply Nat2Z.inj_le, Hmono.
  - rewrite bind_Ok. assert (map snd (xs ++ [x]) = map snd xs ++ [(k, v)]) as Em by (rewrite map_app; cbn; by rewrite Hx).
    destruct (IH b' (xs ++ [x]) rs' Hb') as (b2 & xs2 & rs2 & E & H2 & H3); [by rewrite Em|by rewrite Em|]. exists b2, xs2, rs2. split_and!; [done..|]. by rewrite H3, Em, <- app_assoc.
Qed.

Lemma put_restarts_eq buffer l : put_restarts buffer l = Ok (buffer ++ concat (map (le_split 4) l)).
Proof. revert buffer; induction l as [|r l IH]; intros buffer; cbn [put_restarts map concat]; [by rewrite app_nil_r|]. by rewrite PutFixed32_eq, bind_Ok, IH, <- app_assoc. Qed.

Lemma Finish_block_ok b xs rs : builds b xs rs -> Z.of_nat (space (map snd xs)) < 2 ^ 32 ->
  exists b', Finish b = Ok (items_bytes xs ++ restart_bytes xs rs, b') /\ Z.of_nat (length (items_bytes xs ++ restart_bytes xs rs)) < 2 ^ 32.
Proof.
  intros [B1 B2 B3 B4 B5 B6 B7 B8 B9] Hsp. unfold Finish. rewrite put_restarts_eq, bind_Ok, PutFixed32_eq, bind_Ok. rewrite B1, B2, length_map, map_map.
  unfold u32. rewrite Z.mod_small by lia. eexists. split; [unfold restart_bytes; by rewrite <- app_assoc|].
  assert (forall l, length (concat (map (fun r => le_split 4 (Z.of_nat (offset xs r))) l)) = 4 * length l)%nat as Hlen.
  { induction l as [|y l IH]; [done|]. cbn [map concat]. rewrite length_app, IH, length_le_split. cbn. lia. }
  unfold restart_bytes. rewrite !length_app, Hlen, length_le_split. lia.
Qed.

(** A new iterator over a block of this layout. *)
Lemma NewIterator_ok xs rs : layout xs rs -> ordered (map snd xs) -> Z.of_nat (length (items_bytes xs ++ restart_bytes xs rs)) < 2 ^ 32 ->
  exists b it, newBlock (items_bytes xs ++ restart_bytes xs rs) = Ok b /\ NewIterator b = Ok (inr it) /\ block_at it (map snd xs) None.
Proof.
  intros Hl Ho Hf. set (data := items_bytes xs ++ restart_bytes xs rs) in *. pose proof (num_fits data xs rs eq_refl Hf) as Hn.
  assert (length data = length (items_bytes xs) + 4 * length rs + 4)%nat as Hlen.
  { unfold data, restart_bytes. rewrite !length_app, length_le_split. assert (forall l, length (concat (map (fun r => le_split 4 (Z.of_nat (offset xs r))) l)) = 4 * length l)%nat as ->; [|lia].
    induction l as [|y l IH]; [done|]. cbn [map concat]. rewrite length_app, IH, length_le_split. cbn. lia. }
  assert (0 < length rs)%nat as Hpos by (pose proof (lo_first _ _ Hl); destruct rs; [done|cbn; lia]).
  assert (forall o, NumRestarts (mkBlock data (Z.of_nat (length data)) o) = Ok (Z.of_nat (length rs))) as HN.
  { intros o. unfold NumRestarts. cbn [size_ data_]. rewrite (proj2 (Z.leb_le _ _)) by lia. cbn [c_assert]. rewrite bind_Ok, (DecodeFixed32_at _ _ (Z.of_nat (length rs))).
    - unfold u32. by rewrite Z.mod_small by lia.
    - replace (Z.to_nat (Z.of_nat (length data) - 4)) with (length (items_bytes xs) + 4 * length rs)%nat by lia. unfold data, restart_bytes. rewrite app_assoc.
      eexists _, []. split; [by rewrite app_nil_r|]. unfold data, restart_bytes in Hlen. rewrite !length_app, length_le_split in Hlen. rewrite length_app. lia. }
  unfold newBlock. rewrite (proj2 (Z.ltb_ge _ _)), HN, bind_Ok by lia. unfold u32, u64. rewrite (Z.mod_small (1 + Z.of_nat (length rs))) by lia.
  rewrite (Z.mod_small ((1 + Z.of_nat (length rs)) * 4)) by lia. rewrite !(Z.mod_small (Z.of_nat (length data) - _)) by lia.
  rewrite (proj2 (Z.ltb_ge _ _)) by lia. assert (Z.of_nat (length data) - (1 + Z.of_nat (length rs)) * 4 = Z.of_nat (length (items_bytes xs))) as -> by lia.
  exists (mkBlock data (Z.of_nat (length data)) (Z.of_nat (length (items_bytes xs)))). unfold NewIterator. cbn [size_ data_ restart_offset_]. rewrite (proj2 (Z.ltb_ge _ _)), HN, bind_Ok by lia. rewrite (proj2 (Z.eqb_neq _ _)) by lia.
  unfold newBlockIter. rewrite (proj2 (Z.ltb_lt _ _)) by lia. eexists. split_and!; [done..|]. exists xs, rs. by split_and!.
Qed.

(** From the entries to a new iterator over them. *)
Lemma build_block_ok es : 1 <= interval -> ordered es -> Z.of_nat (space es) < 2 ^ 32 ->
  exists b0 b contents b' blk it,
    newBlockBuilder interval = Ok b0 /\ add_entries (comparator := C) interval b0 es = Ok b /\ Finish b = Ok (contents, b') /\
    newBlock contents = Ok blk /\ NewIterator blk = Ok (inr it) /\ block_at it es None.
Proof.
  intros Hint Ho Hsp. destruct (builds_new Hint) as (b0 & E0 & H0).
  destruct (add_entries_ok b0 [] [O] es Hint H0 Ho Hsp) as (b & xs & rs & E1 & H1 & Hxs). cbn in Hxs. rewrite <- Hxs in *.
  destruct (Finish_block_ok b xs rs H1 Hsp) as (b' & E2 & Hf). destruct (NewIterator_ok xs rs (bu_layout _ _ _ H1) Ho Hf) as (blk & it & E3 & E4 & Hat).
  by exists b0, b, (items_bytes xs ++ restart_bytes xs rs), b', blk, it.
Qed.

End block_ok.

(** C22: a block that is built from entries in the order of their keys, with any restart interval of at least one and
    below four gigabytes, is opened without an error, and its iterator shows after every sequence of seeks and
    steps, in both directions, what a cursor shows that makes the same moves over the entries. *)
Theorem block_iterator_refines {C : Comparator} {HC : ComparatorOk C} (interval : Z) (es : list entry) (ms : list move) (p : option entry) :
  1 <= interval -> ordered es -> Z.of_nat (space es) < 2 ^ 32 -> Forall move_ok ms -> track es None ms = Some p ->
  exists b0 b contents b' blk it it',
    newBlockBuilder interval = Ok b0 /\ add_entries (comparator := C) interval b0 es = Ok b /\ Finish b = Ok (contents, b') /\
    newBlock contents = Ok blk /\ NewIterator blk = Ok it /\ run it ms = Ok it' /\ shows it' p.
Proof.
  intros Hint Ho Hsp Hms Htr. destruct (build_block_ok interval es Hint Ho Hsp) as (b0 & b & contents & b' & blk & it & E0 & E1 & E2 & E3 & E4 & Hat).
  destruct (run_ok (inr it : EmptyIterator + BlockIter) es None ms p) as (it' & E5 & H5); [done..|].
  exists b0, b, contents, b', blk, (inr it), it'. split_and!; [done..|]. by eapply stands_shows.
Qed.

Definition sample_entries : list entry := [([97], [1; 2]); ([97; 98], []); ([97; 98; 99], [3]); ([98], [4]); ([98; 97], [5])].

Lemma block_iterator_refines_witness :
  exists b0 b contents b' blk it it',
    newBlockBuilder 2 = Ok b0 /\ add_entries (comparator := BytewiseComparator) 2 b0 sample_entries = Ok b /\ Finish b = Ok (contents, b') /\
    newBlock contents = Ok blk /\ NewIterator blk = Ok it /\
    run (HI := sum_iterator (HB := block_iterator (comparator_ := BytewiseComparator))) it [ToLast; Backward; Backward; To [97; 99]; Backward] = Ok it' /\
    shows (HI := sum_iterator (HB := block_iterator (comparator_ := BytewiseComparator))) it' (Some ([97; 98; 99], [3])).
Proof.
  apply (block_iterator_refines (C := BytewiseComparator)).
  - by_decide.
  - unfold sample_entries. repeat (apply ordered_cons; split_and!; [by_decide| |rewrite <- Forall_forall; repeat (apply Forall_cons; split; [by_decide|]); by apply Forall_nil]). apply ordered_nil.
  - by_decide.
  - repeat (apply Forall_cons; split; [first [exact Logic.I|by_decide]|]). by apply Forall_nil.
  - vm_compute. reflexivity.
Defined.

(** ** A damaged block *)

(** One entry whose lengths add up to 1 in 32 bits, then one restart point: the check of [DecodeEntry] accepts it, and the
    first step of the iterator reads four gigabytes. *)
Definition damaged_block : list Z := [0; 255; 255; 255; 255; 15; 2; 7] ++ le_split 4 0 ++ le_split 4 1.

Lemma damaged_block_overrun :
  exists blk it, newBlock damaged_block = Ok blk /\ NewIterator blk = Ok (inr it) /\ bi_SeekToFirst it = Undef.
Proof.
  eexists _, _. split; [vm_compute; reflexivity|]. split; [vm_compute; reflexivity|]. unfold bi_SeekToFirst.
  match goal with |- (b ← SeekToRestartPoint ?b0 0; _) = _ => assert (SeekToRestartPoint b0 0 = Ok (mkBlockIter damaged_block 8 1 8 0 [] (Some (0, 0)) OK)) as -> by (vm_compute; reflexivity) end.
  rewrite bind_Ok. unfold ParseNextKey. cbn [NextEntryOffset bi_value]. rewrite bind_Ok. change (u32 (0 + 0)) with 0. cbn [bi_restarts]. change (8 <=? 0) with false. cbv iota.
  cbn [set_current bi_data bi_key restart_index_ num_restarts_]. assert (DecodeEntry damaged_block 0 8 = Ok (Some (0, 2 ^ 32 - 1, 2, 7))) as -> by (vm_compute; reflexivity).
  rewrite bind_Ok. change (Z.of_nat (length (@nil Z)) <? 0) with false. cbv iota. unfold load_range. rewrite decide_False; [done|].
  change (length damaged_block) with 16%nat. lia.
Qed.

(** A block of four to seven bytes fails an assertion. *)
Lemma short_block_aborts contents : (4 <= length contents < 8)%nat -> newBlock contents = AssertFail.
Proof.
  intros H. unfold newBlock, NumRestarts. cbn [size_]. rewrite (proj2 (Z.ltb_ge _ _)), (proj2 (Z.leb_gt _ _)) by lia. done.
Qed.

End Block.
