(* ===== verification/LdbTwoLevel.v ===== *)
(** leveldb, table/two_level_iterator.cc: an iterator over blocks that an index iterator points at.

    [TwoLevelIterator] is verified against the interfaces of the index iterator, of the iterators of the
    blocks and of the function that opens a block; it implements the interface of iterators over the
    concatenation of the blocks. *)
From stdpp Require Import sorting sets.
From S2P Require Import Prelude LdbCoding LdbKeys LdbIter LdbBlock.

Module TwoLevel.
Import Coding Keys Iter.

Section two_level.
Context {A I D : Type} {HI : Iterator I} {HD : Iterator D}.

(** The function that opens the block of a handle; it may change its argument. *)
Context (block_function : A -> list Z -> outcome (D * A)).

(** The bound on the turns of a loop. *)
Context (fuel : nat).

Record TwoLevelIterator := mkTwoLevel {
  tl_arg : A;
  tl_status_ : Status;
  index_iter_ : IteratorWrapper I;
  data_iter_ : IteratorWrapper D;
  data_block_handle_ : list Z
}.

Definition newTwoLevelIterator (index_iter : I) (arg : A) : outcome TwoLevelIterator :=
  w ← newWrapper (Some index_iter); d ← newWrapper None; Ok (mkTwoLevel arg OK w d []).

Definition set_index (t : TwoLevelIterator) w := mkTwoLevel (tl_arg t) (tl_status_ t) w (data_iter_ t) (data_block_handle_ t).
Definition set_data (t : TwoLevelIterator) d := mkTwoLevel (tl_arg t) (tl_status_ t) (index_iter_ t) d (data_block_handle_ t).

Definition has_data (t : TwoLevelIterator) : bool := match iter_ (data_iter_ t) with Some _ => true | None => false end.

Definition SaveError (t : TwoLevelIterator) (s : Status) : TwoLevelIterator :=
  if status_ok (tl_status_ t) && negb (status_ok s) then mkTwoLevel (tl_arg t) s (index_iter_ t) (data_iter_ t) (data_block_handle_ t) else t.

Definition SetDataIterator (t : TwoLevelIterator) (data_iter : option D) : outcome TwoLevelIterator :=
  t ← (if has_data t then s ← w_status (data_iter_ t); Ok (SaveError t s) else Ok t);
  d ← w_Set (data_iter_ t) data_iter; Ok (set_data t d).

Definition InitDataBlock (t : TwoLevelIterator) : outcome TwoLevelIterator :=
  if negb (w_Valid (index_iter_ t)) then SetDataIterator t None
  else
    handle ← w_value (index_iter_ t);
    same ← (if has_data t then c ← slice_compare handle (data_block_handle_ t); Ok (c =? 0) else Ok false);
    if (same : bool) then Ok t
    else
      '(iter, arg) ← block_function (tl_arg t) handle;
      SetDataIterator (mkTwoLevel arg (tl_status_ t) (index_iter_ t) (data_iter_ t) handle) (Some iter).

(** A move of the data iterator, if there is one. *)
Definition on_data (t : TwoLevelIterator) (f : IteratorWrapper D -> outcome (IteratorWrapper D)) : outcome TwoLevelIterator :=
  if has_data t then d ← f (data_iter_ t); Ok (set_data t d) else Ok t.

(** The loops of [SkipEmptyDataBlocksForward] and [SkipEmptyDataBlocksBackward]. *)
Fixpoint skip_loop (move_index : IteratorWrapper I -> outcome (IteratorWrapper I)) (move_data : IteratorWrapper D -> outcome (IteratorWrapper D))
    (n : nat) (t : TwoLevelIterator) : outcome TwoLevelIterator :=
  match n with
  | O => Undef
  | S n =>
      if negb (has_data t) || negb (w_Valid (data_iter_ t)) then
        if negb (w_Valid (index_iter_ t)) then SetDataIterator t None
        else
          w ← move_index (index_iter_ t);
          t ← InitDataBlock (set_index t w);
          t ← on_data t move_data;
          skip_loop move_index move_data n t
      else Ok t
  end.

Definition SkipEmptyDataBlocksForward (t : TwoLevelIterator) : outcome TwoLevelIterator := skip_loop w_Next w_SeekToFirst fuel t.
Definition SkipEmptyDataBlocksBackward (t : TwoLevelIterator) : outcome TwoLevelIterator := skip_loop w_Prev w_SeekToLast fuel t.

Definition tl_Valid (t : TwoLevelIterator) : bool := w_Valid (data_iter_ t).
Definition tl_key (t : TwoLevelIterator) : outcome (list Z) := _ ← c_assert (tl_Valid t); w_key (data_iter_ t).
Definition tl_value (t : TwoLevelIterator) : outcome (list Z) := _ ← c_assert (tl_Valid t); w_value (data_iter_ t).

Definition tl_get_status (t : TwoLevelIterator) : outcome Status :=
  s ← w_status (index_iter_ t);
  if negb (status_ok s) then Ok s
  else
    d ← (if has_data t then w_status (data_iter_ t) else Ok OK);
    if has_data t && negb (status_ok d) then Ok d else Ok (tl_status_ t).

(** The index iterator is there from the construction on: [status] does not fail. *)
Definition tl_status (t : TwoLevelIterator) : Status := match tl_get_status t with Ok s => s | _ => OK end.

Definition tl_Seek (t : TwoLevelIterator) (target : list Z) : outcome TwoLevelIterator :=
  w ← w_Seek target (index_iter_ t);
  t ← InitDataBlock (set_index t w);
  t ← on_data t (w_Seek target);
  SkipEmptyDataBlocksForward t.

Definition tl_SeekToFirst (t : TwoLevelIterator) : outcome TwoLevelIterator :=
  w ← w_SeekToFirst (index_iter_ t);
  t ← InitDataBlock (set_index t w);
  t ← on_data t w_SeekToFirst;
  SkipEmptyDataBlocksForward t.

Definition tl_SeekToLast (t : TwoLevelIterator) : outcome TwoLevelIterator :=
  w ← w_SeekToLast (index_iter_ t);
  t ← InitDataBlock (set_index t w);
  t ← on_data t w_SeekToLast;
  SkipEmptyDataBlocksBackward t.

Definition tl_Next (t : TwoLevelIterator) : outcome TwoLevelIterator :=
  _ ← c_assert (tl_Valid t); d ← w_Next (data_iter_ t); SkipEmptyDataBlocksForward (set_data t d).

Definition tl_Prev (t : TwoLevelIterator) : outcome TwoLevelIterator :=
  _ ← c_assert (tl_Valid t); d ← w_Prev (data_iter_ t); SkipEmptyDataBlocksBackward (set_data t d).

Definition two_level_iterator : Iterator TwoLevelIterator := {|
  it_Valid := tl_Valid;
  it_SeekToFirst := tl_SeekToFirst;
  it_SeekToLast := tl_SeekToLast;
  it_Seek := tl_Seek;
  it_Next := tl_Next;
  it_Prev := tl_Prev;
  it_key := tl_key;
  it_value := tl_value;
  it_status := tl_status
|}.

End two_level.
Arguments TwoLevelIterator : clear implicits.

(** * The blocks one after the other *)
Section refinement.
Context {A I D : Type} {HI : Iterator I} {HD : Iterator D} {C : Comparator} {HC : ComparatorOk C}.
Context {OI : IteratorOk I C} {OD : IteratorOk D C}.
Context (block_function : A -> list Z -> outcome (D * A)) (fuel : nat).
Implicit Types (ix e : entry) (es : list entry).

(** The index: a key that is not below those of its block and below those of the later blocks, and the handle of the block. *)
Record indexes (ixs : list entry) (bss : list (list entry)) : Prop := {
  ix_ordered : ordered ixs;
  ix_entries : ordered (concat bss);
  ix_length : length ixs = length bss;
  ix_above i ix es e : ixs !! i = Some ix -> bss !! i = Some es -> e ∈ es -> ~ key_lt ix.1 e.1;
  ix_below i ix j es e : ixs !! i = Some ix -> bss !! j = Some es -> (i < j)%nat -> e ∈ es -> key_lt ix.1 e.1;
  ix_handles : NoDup (map snd ixs);
  ix_short : Forall (fun ix => Z.of_nat (length ix.2) < 2 ^ 31) ixs
}.

(** The block function opens the block of each handle, and keeps what it needs of its argument. *)
Definition opens (arg_ok : A -> Prop) (ixs : list entry) (bss : list (list entry)) : Prop :=
  forall a i ix es, arg_ok a -> ixs !! i = Some ix -> bss !! i = Some es ->
    exists d a' p, block_function a ix.2 = Ok (d, a') /\ stands_at d es p /\ arg_ok a'.

Context (arg_ok : A -> Prop) (ixs : list entry) (bss : list (list entry)).
Hypothesis Hix : indexes ixs bss.
Hypothesis Hopen : opens arg_ok ixs bss.
Hypothesis Hfuel : (length bss < fuel)%nat.

Abbreviation tl := (TwoLevelIterator A I D).
Implicit Types (t : tl) (p pd : option entry).

(** The data iterator, if there is one, is over the block of its handle. *)
Definition data_ok t : Prop :=
  match iter_ (data_iter_ t) with
  | None => valid_ (data_iter_ t) = false
  | Some _ => exists j ix es pd, ixs !! j = Some ix /\ bss !! j = Some es /\ data_block_handle_ t = ix.2 /\ w_at (data_iter_ t) es pd
  end.

Definition tl_inv t (oi : option entry) : Prop :=
  arg_ok (tl_arg t) /\ tl_status_ t = OK /\ w_at (index_iter_ t) ixs oi /\ data_ok t.

(** At the block [i], and at an entry of it or at none. *)
Definition in_block t (i : nat) pd : Prop :=
  exists ix es, tl_inv t (Some ix) /\ ixs !! i = Some ix /\ bss !! i = Some es /\ data_block_handle_ t = ix.2 /\ w_at (data_iter_ t) es pd.

(** Past the blocks. *)
Definition outside t : Prop := tl_inv t None /\ iter_ (data_iter_ t) = None.

Definition tl_cursor t p : Prop := match p with None => outside t | Some e => exists i, in_block t i (Some e) end.

Lemma data_status t : data_ok t -> has_data t = true -> w_status (data_iter_ t) = Ok OK.
Proof. unfold data_ok, has_data. destruct (iter_ (data_iter_ t)); [|done]. intros (j & ix & es & pd & _ & _ & _ & H) _. by eapply w_status_ok. Qed.

Lemma data_ok_intro t j ix es pd : ixs !! j = Some ix -> bss !! j = Some es -> data_block_handle_ t = ix.2 -> w_at (data_iter_ t) es pd -> data_ok t.
Proof. intros Hj He Hh Hw. unfold data_ok. pose proof Hw as (it & -> & _). by exists j, ix, es, pd. Qed.

Lemma SetDataIterator_None t oi : tl_inv t oi -> exists t', SetDataIterator t None = Ok t' /\ tl_inv t' oi /\ iter_ (data_iter_ t') = None.
Proof.
  intros (Ha & Hs & Hi & Hd). unfold SetDataIterator. destruct (has_data t) eqn:E.
  - rewrite (data_status t Hd E), !bind_Ok. unfold SaveError. rewrite Hs. cbn. eexists. split; [done|]. by split_and!.
  - rewrite bind_Ok. cbn. eexists. split; [done|]. by split_and!.
Qed.

Lemma SetDataIterator_Some t oi d j ix es p : arg_ok (tl_arg t) -> tl_status_ t = OK -> w_at (index_iter_ t) ixs oi ->
  (has_data t = true -> w_status (data_iter_ t) = Ok OK) ->
  ixs !! j = Some ix -> bss !! j = Some es -> data_block_handle_ t = ix.2 -> stands_at d es p ->
  exists t', SetDataIterator t (Some d) = Ok t' /\ tl_inv t' oi /\ data_block_handle_ t' = ix.2 /\ w_at (data_iter_ t') es p.
Proof.
  intros Ha Hs Hi Hst Hj He Hh Hd. unfold SetDataIterator.
  assert ((if has_data t then s ← w_status (data_iter_ t); Ok (SaveError t s) else Ok t) = Ok t) as ->.
  { destruct (has_data t); [|done]. rewrite Hst, bind_Ok by done. unfold SaveError. by rewrite Hs. }
  rewrite bind_Ok. destruct (Update_ok (data_iter_ t) d es p Hd) as (w & E & Hw). cbn [w_Set]. rewrite E, bind_Ok. eexists. split; [done|].
  split; [|done]. split_and!; [done..|]. by eapply data_ok_intro.
Qed.

Lemma handle_inj i j ix ix' : ixs !! i = Some ix -> ixs !! j = Some ix' -> ix.2 = ix'.2 -> i = j.
Proof.
  intros Hi Hj E. pose proof (ix_handles _ _ Hix) as Hnd. eapply (NoDup_lookup _ i j ix.2 Hnd); change (map snd ixs) with (snd <$> ixs); rewrite list_lookup_fmap.
  - apply fmap_Some. by exists ix.
  - apply fmap_Some. by exists ix'.
Qed.

Lemma handles_compare i j ix ix' : ixs !! i = Some ix -> ixs !! j = Some ix' -> exists c, slice_compare ix.2 ix'.2 = Ok c /\ (c = 0 <-> i = j).
Proof.
  intros Hi Hj. pose proof (ix_short _ _ Hix) as Hs. rewrite Forall_forall in Hs. pose proof (Hs ix ltac:(by eapply list_elem_of_lookup_2)). pose proof (Hs ix' ltac:(by eapply list_elem_of_lookup_2)).
  eexists. split; [by apply slice_compare_lexcmp|]. rewrite lexcmp_eq. split; [by eapply handle_inj|]. intros ->. by simplify_eq.
Qed.

Lemma block_lookup i ix : ixs !! i = Some ix -> exists es, bss !! i = Some es.
Proof. intros H%lookup_lt_Some. rewrite (ix_length _ _ Hix) in H. by apply lookup_lt_is_Some_2. Qed.

Lemma InitDataBlock_None t : tl_inv t None -> exists t', InitDataBlock block_function t = Ok t' /\ outside t'.
Proof.
  intros H. pose proof H as (_ & _ & Hi & _). unfold InitDataBlock. rewrite (w_Valid_ok _ _ _ Hi), bool_decide_false by (by intros []). cbn [negb]. by apply SetDataIterator_None.
Qed.

Lemma InitDataBlock_Some t i ix : tl_inv t (Some ix) -> ixs !! i = Some ix -> exists t' pd, InitDataBlock block_function t = Ok t' /\ in_block t' i pd.
Proof.
  intros H Hi. pose proof H as (Ha & Hs & Hw & Hd). unfold InitDataBlock. rewrite (w_Valid_ok _ _ _ Hw), bool_decide_true, (w_value_ok _ _ _ Hw), bind_Ok by done. cbn [negb].
  destruct (block_lookup i ix Hi) as [es He].
  assert (exists b : bool, (if has_data t then c ← slice_compare ix.2 (data_block_handle_ t); Ok (c =? 0) else Ok false) = Ok b /\
    (b = true -> exists pd, data_block_handle_ t = ix.2 /\ w_at (data_iter_ t) es pd)) as (b & -> & Hb).
  { unfold has_data. pose proof Hd as Hd'. unfold data_ok in Hd'. destruct (iter_ (data_iter_ t)) eqn:E; [|by exists false]. destruct Hd' as (j & ix' & es' & pd & Hj & He' & Hh & Hwd).
    destruct (handles_compare i j ix ix' Hi Hj) as (c & Ec & Hc). rewrite Hh, Ec, bind_Ok. eexists. split; [done|]. rewrite Z.eqb_eq, Hc. intros <-. exists pd. simplify_eq. done. }
  rewrite bind_Ok. destruct b.
  - destruct (Hb eq_refl) as (pd & Hh & Hwd). exists t, pd. split; [done|]. by exists ix, es.
  - destruct (Hopen (tl_arg t) i ix es Ha Hi He) as (d & a' & p & -> & Hst & Ha'). rewrite bind_Ok.
    match goal with |- exists t' pd, SetDataIterator ?t1 _ = _ /\ _ => destruct (SetDataIterator_Some t1 (Some ix) d i ix es p) as (t' & E & Hinv & Hh & Hwd); try done; [exact (data_status t Hd)|] end.
    exists t', p. split; [done|]. by exists ix, es.
Qed.

(** A move of the data iterator. *)
Lemma on_data_ok t i pd f q : in_block t i pd -> (forall es w, bss !! i = Some es -> w_at w es pd -> exists w', f w = Ok w' /\ w_at w' es (q es)) ->
  exists t' es, on_data t f = Ok t' /\ bss !! i = Some es /\ in_block t' i (q es).
Proof.
  intros (ix & es & (Ha & Hs & Hw & Hd) & Hi & He & Hh & Hwd) Hf. unfold on_data. assert (has_data t = true) as -> by (unfold has_data; by destruct Hwd as (it & -> & _)).
  destruct (Hf es _ He Hwd) as (w' & -> & Hw'). rewrite bind_Ok. exists (set_data t w'), es. split_and!; [done..|]. exists ix, es. split; [|done]. split_and!; [done..|]. by eapply data_ok_intro.
Qed.

(** ** Empty blocks are skipped *)
Lemma w_Next_index t i ix : tl_inv t (Some ix) -> ixs !! i = Some ix -> exists w, w_Next (index_iter_ t) = Ok w /\ tl_inv (set_index t w) (ixs !! S i).
Proof.
  intros (Ha & Hs & Hw & Hd) Hi. destruct (w_Next_ok _ _ _ Hw) as (w & E & H). exists w. split; [done|]. rewrite (after_index _ _ _ (ix_ordered _ _ Hix) Hi) in H. by split_and!.
Qed.

Lemma w_Prev_index t i ix : tl_inv t (Some ix) -> ixs !! i = Some ix ->
  exists w, w_Prev (index_iter_ t) = Ok w /\ tl_inv (set_index t w) (match i with O => None | S j => ixs !! j end).
Proof.
  intros (Ha & Hs & Hw & Hd) Hi. destruct (w_Prev_ok _ _ _ Hw) as (w & E & H). exists w. split; [done|]. rewrite (before_index _ _ _ (ix_ordered _ _ Hix) Hi) in H. by split_and!.
Qed.

(** [InitDataBlock], then a seek in the block. *)
Lemma init_and_move t oi f q : tl_inv t oi -> (forall es w pd, w_at w es pd -> exists w', f w = Ok w' /\ w_at w' es (q es)) ->
  exists t', (t ← InitDataBlock block_function t; on_data t f) = Ok t' /\
    match oi with
    | None => outside t'
    | Some ix => forall i es, ixs !! i = Some ix -> bss !! i = Some es -> in_block t' i (q es)
    end.
Proof.
  intros Hinv Hf. destruct oi as [ix|].
  - pose proof Hinv as (_ & _ & Hw & _). pose proof (w_in _ _ _ Hw) as [i Hi]%list_elem_of_lookup. destruct (InitDataBlock_Some t i ix Hinv Hi) as (t1 & pd & -> & H1). rewrite bind_Ok.
    destruct (on_data_ok t1 i pd f q H1) as (t2 & es & -> & He & H2); [by intros; eapply Hf|]. exists t2. split; [done|]. intros i' es' Hi' He'.
    assert (i' = i) as -> by (by eapply handle_inj). by simplify_eq.
  - destruct (InitDataBlock_None t Hinv) as (t1 & -> & Hinv1 & Ed). rewrite bind_Ok. exists t1. unfold on_data, has_data. rewrite Ed. done.
Qed.

Lemma skip_stays t i e move_index move_data n : in_block t i (Some e) -> skip_loop block_function move_index move_data (S n) t = Ok t.
Proof.
  intros (ix & es & _ & _ & _ & _ & Hw). cbn [skip_loop]. assert (has_data t = true) as -> by (unfold has_data; by destruct Hw as (it & -> & _)).
  rewrite (w_Valid_ok _ _ _ Hw), bool_decide_true by done. done.
Qed.

Lemma skip_outside t move_index move_data n : outside t -> exists t', skip_loop block_function move_index move_data (S n) t = Ok t' /\ outside t'.
Proof.
  intros [Hinv Ed]. cbn [skip_loop]. unfold has_data at 1. rewrite Ed. cbn [negb orb]. pose proof Hinv as (_ & _ & Hw & _). rewrite (w_Valid_ok _ _ _ Hw), bool_decide_false by (by intros []).
  cbn [negb]. by apply SetDataIterator_None.
Qed.

(** One turn at a block without a current entry. *)
Lemma skip_turn t i move_index move_data n : in_block t i None ->
  exists ix, tl_inv t (Some ix) /\ ixs !! i = Some ix /\
  skip_loop block_function move_index move_data (S n) t =
    (w ← move_index (index_iter_ t); t ← (t ← InitDataBlock block_function (set_index t w); on_data t move_data); skip_loop block_function move_index move_data n t).
Proof.
  intros (ix & es & Hinv & Hi & _ & _ & Hw). exists ix. split_and!; [done..|]. cbn [skip_loop]. rewrite (w_Valid_ok _ _ _ Hw), bool_decide_false by (by intros []).
  rewrite orb_true_r. pose proof Hinv as (_ & _ & Hwi & _). rewrite (w_Valid_ok _ _ _ Hwi), bool_decide_true by done. cbn [negb].
  destruct (move_index (index_iter_ t)); [|done..]. rewrite !bind_Ok. by destruct (InitDataBlock block_function _).
Qed.

Lemma skip_forward n t i pd : in_block t i pd -> (length bss - i < n)%nat ->
  exists t', skip_loop block_function w_Next w_SeekToFirst n t = Ok t' /\
    tl_cursor t' (match pd with Some e => Some e | None => head (concat (drop (S i) bss)) end).
Proof.
  revert t i pd; induction n as [|n IH]; intros t i pd Hb Hn; [lia|]. destruct pd as [e|]; [exists t; split; [by eapply skip_stays|by exists i]|].
  destruct (skip_turn t i w_Next w_SeekToFirst n Hb) as (ix & Hinv & Hi & ->). destruct (w_Next_index t i ix Hinv Hi) as (w & -> & Hinv'). rewrite bind_Ok.
  destruct (init_and_move _ _ w_SeekToFirst head Hinv') as (t' & -> & Ht'); [intros; by eapply w_SeekToFirst_ok|]. rewrite bind_Ok.
  destruct (ixs !! S i) as [ix'|] eqn:E.
  - destruct (block_lookup _ _ E) as [es He]. specialize (Ht' (S i) es E He). pose proof (lookup_lt_Some _ _ _ He). destruct (IH t' (S i) (head es) Ht') as (t2 & E2 & H2); [lia|].
    exists t2. split; [done|]. rewrite (drop_S _ _ _ He). cbn [concat]. by destruct es.
  - apply lookup_ge_None_1 in E. rewrite (ix_length _ _ Hix) in E. rewrite (drop_ge bss) by lia. cbn. destruct n as [|n]; [|by apply skip_outside].
    apply lookup_lt_Some in Hi. rewrite (ix_length _ _ Hix) in Hi. lia.
Qed.

Lemma skip_backward n t i pd : in_block t i pd -> (S i < n)%nat ->
  exists t', skip_loop block_function w_Prev w_SeekToLast n t = Ok t' /\
    tl_cursor t' (match pd with Some e => Some e | None => last (concat (take i bss)) end).
Proof.
  revert t i pd; induction n as [|n IH]; intros t i pd Hb Hn; [lia|]. destruct pd as [e|]; [exists t; split; [by eapply skip_stays|by exists i]|].
  destruct (skip_turn t i w_Prev w_SeekToLast n Hb) as (ix & Hinv & Hi & ->). destruct (w_Prev_index t i ix Hinv Hi) as (w & -> & Hinv'). rewrite bind_Ok.
  destruct (init_and_move _ _ w_SeekToLast last Hinv') as (t' & -> & Ht'); [intros; by eapply w_SeekToLast_ok|]. rewrite bind_Ok. destruct i as [|i].
  - destruct n as [|n]; [lia|]. by apply skip_outside.
  - pose proof (lookup_lt_Some _ _ _ Hi). destruct (lookup_lt_is_Some_2 ixs i) as [ix' E]; [lia|]. rewrite E in Ht'. destruct (block_lookup _ _ E) as [es He]. specialize (Ht' i es E He).
    destruct (IH t' i (last es) Ht') as (t2 & E2 & H2); [lia|]. exists t2. split; [done|]. rewrite (take_S_r _ _ _ He), concat_app. cbn [concat]. rewrite app_nil_r.
    destruct (last es) as [e|] eqn:El; [|apply last_None in El as ->; by rewrite app_nil_r]. apply last_Some in El as [l ->]. by rewrite app_assoc, last_snoc.
Qed.

(** ** The entries around a block *)
Lemma concat_split i es : bss !! i = Some es -> concat bss = concat (take i bss) ++ es ++ concat (drop (S i) bss).
Proof. intros H. rewrite <- (take_drop_middle _ _ _ H) at 1. by rewrite concat_app. Qed.

Lemma in_earlier i e : e ∈ concat (take i bss) -> exists j es, bss !! j = Some es /\ (j < i)%nat /\ e ∈ es.
Proof.
  intros He. apply list_elem_of_In, in_concat in He as (es & Hes & He). apply list_elem_of_In in Hes, He. apply list_elem_of_lookup in Hes as [j Hj].
  apply lookup_take_Some in Hj as [Hj Hji]. eauto.
Qed.

Lemma in_later i e : e ∈ concat (drop (S i) bss) -> exists j es, bss !! j = Some es /\ (i < j)%nat /\ e ∈ es.
Proof.
  intros He. apply list_elem_of_In, in_concat in He as (es & Hes & He). apply list_elem_of_In in Hes, He. apply list_elem_of_lookup in Hes as [j Hj].
  rewrite lookup_drop in Hj. exists (S i + j)%nat, es. split_and!; [done|lia|done].
Qed.

Lemma first_such_mid (P : entry -> Prop) {HP : forall e, Decision (P e)} pre es post : (forall e, e ∈ pre -> ~ P e) -> (forall e, e ∈ post -> P e) ->
  first_such P (pre ++ es ++ post) = match first_such P es with Some e => Some e | None => head post end.
Proof.
  intros H1 H2. unfold first_such. rewrite !filter_app, (proj2 (filter_none P pre)) by (by apply Forall_forall). cbn. destruct (filter P es); [|done]. cbn.
  destruct post as [|e post]; [done|]. by rewrite filter_cons_True by set_solver.
Qed.

Lemma last_such_mid (P : entry -> Prop) {HP : forall e, Decision (P e)} pre es post : (forall e, e ∈ pre -> P e) -> (forall e, e ∈ post -> ~ P e) ->
  last_such P (pre ++ es ++ post) = match last_such P es with Some e => Some e | None => last pre end.
Proof.
  intros H1 H2. unfold last_such. rewrite !filter_app, (proj2 (filter_none P post)), app_nil_r by (by apply Forall_forall).
  destruct (filter P es) as [|e l _] using rev_ind; [|by rewrite app_assoc, !last_snoc]. rewrite app_nil_r. cbn.
  destruct pre as [|e pre _] using rev_ind; [done|]. rewrite filter_app, filter_cons_True, filter_nil, !last_snoc by set_solver. done.
Qed.

(** The order of an entry of a block and the entries around it. *)
Lemma around i es e : bss !! i = Some es -> e ∈ es ->
  key_ok e.1 /\ (forall e', e' ∈ concat (take i bss) -> key_ok e'.1 /\ key_lt e'.1 e.1) /\ (forall e', e' ∈ concat (drop (S i) bss) -> key_ok e'.1 /\ key_lt e.1 e'.1).
Proof.
  intros Hi He. pose proof (ix_entries _ _ Hix) as Ho. rewrite (concat_split i es Hi) in Ho. split; [apply (ordered_key _ _ Ho); set_solver|].
  split; intros e' He'; (split; [apply (ordered_key _ _ Ho); set_solver|]).
  - apply ordered_app in Ho as (_ & _ & H). apply H; set_solver.
  - rewrite app_assoc in Ho. apply ordered_app in Ho as (_ & _ & H). apply H; set_solver.
Qed.

Lemma after_block i es e : bss !! i = Some es -> e ∈ es ->
  after e.1 (concat bss) = match after e.1 es with Some e' => Some e' | None => head (concat (drop (S i) bss)) end.
Proof.
  intros Hi He. destruct (around i es e Hi He) as (Ke & H1 & H2). rewrite (concat_split i es Hi). unfold after. apply first_such_mid.
  - intros e' [K Hlt]%H1 Hlt'. by apply (key_lt_asym e.1 e'.1).
  - by intros e' [_ ?]%H2.
Qed.

Lemma before_block i es e : bss !! i = Some es -> e ∈ es ->
  before e.1 (concat bss) = match before e.1 es with Some e' => Some e' | None => last (concat (take i bss)) end.
Proof.
  intros Hi He. destruct (around i es e Hi He) as (Ke & H1 & H2). rewrite (concat_split i es Hi). unfold before. apply last_such_mid.
  - by intros e' [_ ?]%H1.
  - intros e' [K Hlt]%H2 Hlt'. by apply (key_lt_asym e.1 e'.1).
Qed.

(** The block that the index finds for a key. *)
Lemma from_block k i ix es : key_ok k -> ixs !! i = Some ix -> bss !! i = Some es -> ~ key_lt ix.1 k -> (forall j ix', ixs !! j = Some ix' -> (j < i)%nat -> key_lt ix'.1 k) ->
  from k (concat bss) = match from k es with Some e => Some e | None => head (concat (drop (S i) bss)) end.
Proof.
  intros Kk Hi He Hge Hlt. pose proof (ix_ordered _ _ Hix) as Hoi. pose proof (ix_entries _ _ Hix) as Hoe.
  assert (forall j ix, ixs !! j = Some ix -> key_ok ix.1) as Kix by (intros j ix0 H; apply (ordered_key _ _ Hoi); by eapply list_elem_of_lookup_2).
  assert (forall j es' e, bss !! j = Some es' -> e ∈ es' -> key_ok e.1) as Ke.
  { intros j es' e Hj He'. apply (ordered_key _ _ Hoe). rewrite (concat_split j es' Hj). set_solver. }
  rewrite (concat_split i es He). unfold from. apply first_such_mid.
  - intros e (j & es' & Hj & Hji & He')%in_earlier Hn. destruct (lookup_lt_is_Some_2 ixs j) as [ix' Hj']; [apply lookup_lt_Some in Hi; lia|].
    pose proof (ix_above _ _ Hix j ix' es' e Hj' Hj He') as Ha. apply not_key_lt in Ha; [|by eauto..]. apply Hn. specialize (Hlt j ix' Hj' Hji).
    destruct Ha as [<-|Ha]; [done|]. eapply key_lt_trans; [by eauto|by eapply (Kix j)|done|done|done].
  - intros e (j & es' & Hj & Hij & He')%in_later Hn. pose proof (ix_below _ _ Hix i ix j es' e Hi Hj Hij He') as Hb. apply Hge.
    by eapply key_lt_trans; [eapply (Kix i)|eapply Ke| | |].
Qed.

(** ** The moves *)
Lemma cursor_inv t p : tl_cursor t p -> exists oi, tl_inv t oi.
Proof. destruct p as [e|]; [intros (i & ix & es & H & _); eauto|intros [H _]; eauto]. Qed.

Lemma tl_Next_ok t e : tl_cursor t (Some e) -> exists t', tl_Next block_function fuel t = Ok t' /\ tl_cursor t' (after e.1 (concat bss)).
Proof.
  intros (i & ix & es & (Ha & Hs & Hw & Hd) & Hi & He & Hh & Hwd). unfold tl_Next, tl_Valid. rewrite (w_Valid_ok _ _ _ Hwd), bool_decide_true by done. cbn [c_assert]. rewrite bind_Ok.
  destruct (w_Next_ok _ _ _ Hwd) as (w & -> & Hw'). rewrite bind_Ok, (after_block i es e He) by (by eapply w_in). apply skip_forward; [|lia].
  exists ix, es. split; [|done]. split_and!; [done..|]. by eapply data_ok_intro.
Qed.

Lemma tl_Prev_ok t e : tl_cursor t (Some e) -> exists t', tl_Prev block_function fuel t = Ok t' /\ tl_cursor t' (before e.1 (concat bss)).
Proof.
  intros (i & ix & es & (Ha & Hs & Hw & Hd) & Hi & He & Hh & Hwd). unfold tl_Prev, tl_Valid. rewrite (w_Valid_ok _ _ _ Hwd), bool_decide_true by done. cbn [c_assert]. rewrite bind_Ok.
  destruct (w_Prev_ok _ _ _ Hwd) as (w & -> & Hw'). rewrite bind_Ok, (before_block i es e He) by (by eapply w_in). apply skip_backward; [|apply lookup_lt_Some in He; lia].
  exists ix, es. split; [|done]. split_and!; [done..|]. by eapply data_ok_intro.
Qed.

(** The seeks: the index, the block, the blocks behind it. *)
Lemma bind_on_data {B} (t : tl) f (g : tl -> outcome B) : (t ← InitDataBlock block_function t; t ← on_data t f; g t) = (t ← (t ← InitDataBlock block_function t; on_data t f); g t).
Proof. by destruct (InitDataBlock block_function t). Qed.

Lemma outside_skip t f g : outside t -> exists t', skip_loop block_function f g fuel t = Ok t' /\ outside t'.
Proof. intros H. replace fuel with (S (pred fuel)) by lia. by apply skip_outside. Qed.

Lemma tl_SeekToFirst_ok t p : tl_cursor t p -> exists t', tl_SeekToFirst block_function fuel t = Ok t' /\ tl_cursor t' (head (concat bss)).
Proof.
  intros (oi & Ha & Hs & Hw & Hd)%cursor_inv. unfold tl_SeekToFirst. destruct (w_SeekToFirst_ok _ _ _ Hw) as (w & -> & Hw'). rewrite bind_Ok, bind_on_data.
  destruct (init_and_move (set_index t w) (head ixs) w_SeekToFirst head) as (t' & -> & Ht'); [by split_and!|intros; by eapply w_SeekToFirst_ok|]. rewrite bind_Ok. rewrite head_lookup in Ht'.
  destruct (ixs !! O) as [ix|] eqn:E.
  - destruct (block_lookup _ _ E) as [es He]. destruct (skip_forward fuel t' 0 (head es) (Ht' O es E He)) as (t2 & E2 & H2); [lia|]. exists t2. split; [done|].
    destruct bss as [|b bss']; [done|]. injection He as ->. cbn in *. by destruct es.
  - apply lookup_ge_None_1 in E. rewrite (ix_length _ _ Hix) in E. destruct (outside_skip t' w_Next w_SeekToFirst Ht') as (t2 & E2 & H2). exists t2. split; [done|]. by destruct bss; [|cbn in E; lia].
Qed.

Lemma tl_SeekToLast_ok t p : tl_cursor t p -> exists t', tl_SeekToLast block_function fuel t = Ok t' /\ tl_cursor t' (last (concat bss)).
Proof.
  intros (oi & Ha & Hs & Hw & Hd)%cursor_inv. unfold tl_SeekToLast. destruct (w_SeekToLast_ok _ _ _ Hw) as (w & -> & Hw'). rewrite bind_Ok, bind_on_data.
  destruct (init_and_move (set_index t w) (last ixs) w_SeekToLast last) as (t' & -> & Ht'); [by split_and!|intros; by eapply w_SeekToLast_ok|]. rewrite bind_Ok. rewrite last_lookup in Ht'.
  destruct (ixs !! pred (length ixs)) as [ix|] eqn:E.
  - destruct (block_lookup _ _ E) as [es He]. pose proof (lookup_lt_Some _ _ _ He). destruct (skip_backward fuel t' _ (last es) (Ht' _ es E He)) as (t2 & E2 & H2); [lia|]. exists t2. split; [done|].
    rewrite (concat_split _ es He), (drop_ge bss) by (rewrite (ix_length _ _ Hix); lia). cbn [concat]. rewrite app_nil_r. destruct (last es) as [e|] eqn:El.
    + apply last_Some in El as [l ->]. by rewrite app_assoc, last_snoc.
    + apply last_None in El as ->. by rewrite app_nil_r.
  - apply lookup_ge_None_1 in E. rewrite (ix_length _ _ Hix) in E. destruct (outside_skip t' w_Prev w_SeekToLast Ht') as (t2 & E2 & H2). exists t2. split; [done|]. by destruct bss; [|cbn in E; lia].
Qed.

Lemma tl_Seek_ok t p k : tl_cursor t p -> key_ok k -> exists t', tl_Seek block_function fuel t k = Ok t' /\ tl_cursor t' (from k (concat bss)).
Proof.
  intros (oi & Ha & Hs & Hw & Hd)%cursor_inv Hk. unfold tl_Seek. destruct (w_Seek_ok _ _ _ k Hw Hk) as (w & -> & Hw'). rewrite bind_Ok, bind_on_data.
  destruct (init_and_move (set_index t w) (from k ixs) (w_Seek k) (from k)) as (t' & -> & Ht'); [by split_and!|intros; by eapply w_Seek_ok|]. rewrite bind_Ok.
  destruct (from k ixs) as [ix|] eqn:E.
  - unfold from in E. apply first_such_split in E as (l1 & l2 & E & H1 & H2). assert (ixs !! length l1 = Some ix) as Hi by (by rewrite E, list_lookup_middle).
    destruct (block_lookup _ _ Hi) as [es He]. destruct (skip_forward fuel t' _ (from k es) (Ht' _ es Hi He)) as (t2 & E2 & H3); [lia|]. exists t2. split; [done|].
    rewrite (from_block k (length l1) ix es); [done..|]. intros j ix' Hj Hlt. rewrite E, lookup_app_l in Hj by done. rewrite Forall_forall in H1. apply dec_stable, H1. by eapply list_elem_of_lookup_2.
  - destruct (outside_skip t' w_Next w_SeekToFirst Ht') as (t2 & E2 & H2). exists t2. split; [done|]. assert (from k (concat bss) = None) as ->; [|done]. unfold from in *.
    apply first_such_None. intros e He Hn. rewrite <- (take_ge bss (length bss)) in He by done. apply in_earlier in He as (j & es & Hj & Hji & He).
    destruct (lookup_lt_is_Some_2 ixs j) as [ix' Hj']; [rewrite (ix_length _ _ Hix); lia|]. pose proof (ix_above _ _ Hix j ix' es e Hj' Hj He) as Hab.
    assert (ix' ∈ ixs) as Hin by (by eapply list_elem_of_lookup_2). pose proof (proj1 (first_such_None _ ixs) E ix' Hin) as Hlt. apply dec_stable in Hlt.
    pose proof (ordered_key _ _ (ix_ordered _ _ Hix) Hin) as Kix. assert (key_ok e.1) as Ke by (apply (ordered_key _ _ (ix_entries _ _ Hix)); rewrite (concat_split j es Hj); set_solver).
    apply Hn. apply not_key_lt in Hab as [<-|Hab]; [done| |done|done]. by apply (key_lt_trans e.1 ix'.1 k).
Qed.

End refinement.

(** ** The interface *)
Section two_level_ok.
Context {A I D : Type} {HI : Iterator I} {HD : Iterator D} {C : Comparator} {HC : ComparatorOk C}.
Context {OI : IteratorOk I C} {OD : IteratorOk D C}.
Context (block_function : A -> list Z -> outcome (D * A)) (fuel : nat).

Definition two_level_at (t : TwoLevelIterator A I D) (es : list entry) (p : option entry) : Prop :=
  exists arg_ok ixs bss, indexes ixs bss /\ opens block_function arg_ok ixs bss /\ (length bss < fuel)%nat /\ es = concat bss /\ tl_cursor arg_ok ixs bss t p.

#[refine] Instance two_level_iterator_ok : IteratorOk (HI := two_level_iterator block_function fuel) (TwoLevelIterator A I D) C := {| stands_at := two_level_at |}.
Proof.
  - intros it es p (arg_ok & ixs & bss & Hix & Hopen & Hf & -> & Hc). apply (ix_entries _ _ Hix).
  - intros it es [e|] (arg_ok & ixs & bss & Hix & Hopen & Hf & -> & Hc); cbn; unfold tl_Valid.
    + destruct Hc as (i & ix & es & _ & _ & _ & _ & Hw). by rewrite (w_Valid_ok _ _ _ Hw).
    + destruct Hc as [(_ & _ & _ & Hd) Ed]. unfold data_ok in Hd. rewrite Ed in Hd. done.
  - intros it es e (arg_ok & ixs & bss & Hix & Hopen & Hf & -> & i & ix & es' & _ & _ & He & _ & Hw). apply w_in in Hw. rewrite (concat_split _ _ _ He). set_solver.
  - intros it es e (arg_ok & ixs & bss & Hix & Hopen & Hf & -> & i & ix & es' & _ & _ & He & _ & Hw). cbn. unfold tl_key, tl_Valid. rewrite (w_Valid_ok _ _ _ Hw), bool_decide_true by done.
    by apply w_key_ok in Hw.
  - intros it es e (arg_ok & ixs & bss & Hix & Hopen & Hf & -> & i & ix & es' & _ & _ & He & _ & Hw). cbn. unfold tl_value, tl_Valid. rewrite (w_Valid_ok _ _ _ Hw), bool_decide_true by done.
    by apply w_value_ok in Hw.
  - intros it es p (arg_ok & ixs & bss & Hix & Hopen & Hf & -> & Hc). apply cursor_inv in Hc as (oi & _ & Hs & Hw & Hd). cbn. unfold tl_status, tl_get_status.
    rewrite (w_status_ok _ _ _ Hw), bind_Ok. cbn. destruct (has_data it) eqn:E; [rewrite (data_status _ _ _ Hd E)|]; cbn; by rewrite Hs.
  - intros it es p (arg_ok & ixs & bss & Hix & Hopen & Hf & -> & Hc). destruct (tl_SeekToFirst_ok _ _ _ _ _ Hix Hopen Hf _ _ Hc) as (t' & E & H). exists t'. split; [done|]. by exists arg_ok, ixs, bss.
  - intros it es p (arg_ok & ixs & bss & Hix & Hopen & Hf & -> & Hc). destruct (tl_SeekToLast_ok _ _ _ _ _ Hix Hopen Hf _ _ Hc) as (t' & E & H). exists t'. split; [done|]. by exists arg_ok, ixs, bss.
  - intros it es p k (arg_ok & ixs & bss & Hix & Hopen & Hf & -> & Hc) Hk. destruct (tl_Seek_ok _ _ _ _ _ Hix Hopen Hf _ _ k Hc Hk) as (t' & E & H). exists t'. split; [done|]. by exists arg_ok, ixs, bss.
  - intros it es e (arg_ok & ixs & bss & Hix & Hopen & Hf & -> & Hc). destruct (tl_Next_ok _ _ _ _ _ Hix Hopen Hf _ _ Hc) as (t' & E & H). exists t'. split; [done|]. by exists arg_ok, ixs, bss.
  - intros it es e (arg_ok & ixs & bss & Hix & Hopen & Hf & -> & Hc). destruct (tl_Prev_ok _ _ _ _ _ Hix Hopen Hf _ _ Hc) as (t' & E & H). exists t'. split; [done|]. by exists arg_ok, ixs, bss.
Defined.

Lemma newTwoLevelIterator_ok (arg_ok : A -> Prop) ixs bss (index_iter : I) (arg : A) : indexes ixs bss -> opens block_function arg_ok ixs bss -> (length bss < fuel)%nat ->
  arg_ok arg -> stands_at index_iter ixs None -> exists t, newTwoLevelIterator index_iter arg = Ok t /\ two_level_at t (concat bss) None.
Proof.
  intros Hix Hopen Hf Ha Hst. unfold newTwoLevelIterator. destruct (newWrapper_ok index_iter ixs None Hst) as (w & -> & Hw). rewrite bind_Ok. cbn. eexists. split; [done|].
  exists arg_ok, ixs, bss. split_and!; [done..|]. by split_and!.
Qed.

End two_level_ok.

(** C23: over an index whose keys separate the blocks, and a function that opens the block of each handle, the two-level iterator shows
    after every sequence of seeks and steps what a cursor shows that makes the same moves over the blocks one after the other,
    whether blocks are empty or not; no move fails, reports an error or runs out of turns. *)
Theorem two_level_iterator_refines {A I D : Type} {HI : Iterator I} {HD : Iterator D} {C : Comparator} {HC : ComparatorOk C}
    {OI : IteratorOk I C} {OD : IteratorOk D C} (block_function : A -> list Z -> outcome (D * A)) (arg_ok : A -> Prop)
    (index_iter : I) (arg : A) (ixs : list entry) (bss : list (list entry)) (fuel : nat) (ms : list move) (p : option entry) :
  indexes ixs bss -> opens block_function arg_ok ixs bss -> arg_ok arg -> (length bss < fuel)%nat -> stands_at index_iter ixs None ->
  Forall move_ok ms -> track (concat bss) None ms = Some p ->
  let HT := two_level_iterator block_function fuel in
  exists t t', newTwoLevelIterator index_iter arg = Ok t /\ run (HI := HT) t ms = Ok t' /\ shows (HI := HT) t' p.
Proof.
  intros Hix Hopen Ha Hf Hst Hms Htr HT. destruct (newTwoLevelIterator_ok block_function fuel arg_ok ixs bss index_iter arg Hix Hopen Hf Ha Hst) as (t & E & Hat).
  destruct (run_ok (HO := two_level_iterator_ok block_function fuel) t (concat bss) None ms p Hat Hms Htr) as (t' & E' & Hat'). exists t, t'. split_and!; [done..|].
  by apply (stands_shows (HO := two_level_iterator_ok block_function fuel)) in Hat'.
Qed.

(** Three blocks, the second of them empty, behind an index that is itself a block. *)
Definition sample_index : list entry := [([97; 99], [1]); ([97; 100], [2]); ([99], [3])].
Definition sample_blocks : list (list entry) := [[([97], [10]); ([97; 98], [11])]; []; [([98], [12])]].

Lemma sample_indexes : indexes (C := BytewiseComparator) sample_index sample_blocks.
Proof.
  assert (forall es, es = sample_index \/ es = concat sample_blocks \/ es = [] -> ordered (C := BytewiseComparator) es) as Ho.
  { intros es [->|[->| ->]]; cbn; repeat (apply ordered_cons; split_and!; [by_decide| |rewrite <- Forall_forall; repeat (apply Forall_cons; split; [by_decide|]); by apply Forall_nil]); apply ordered_nil. }
  split.
  - apply Ho. auto.
  - apply Ho. auto.
  - done.
  - intros i ix es e Hi He. destruct i as [|[|[|i]]]; try done; injection Hi as <-; injection He as <-; revert e; apply Forall_forall; repeat (apply Forall_cons; split; [by_decide|]); by apply Forall_nil.
  - intros i ix j es e Hi He Hij. destruct i as [|[|[|i]]]; try done; destruct j as [|[|[|j]]]; try done; try lia; injection Hi as <-; injection He as <-; revert e; apply Forall_forall;
      repeat (apply Forall_cons; split; [by_decide|]); by apply Forall_nil.
  - by_decide.
  - by_decide.
Qed.

Lemma two_level_iterator_refines_witness :
  exists (index_iter it1 it2 it3 : Block.BlockIter) (block_function : unit -> list Z -> outcome (Block.BlockIter * unit)) t t',
    block_function tt [1] = Ok (it1, tt) /\
    let HB := Block.block_iterator (comparator_ := BytewiseComparator) in
    let HT := two_level_iterator (HI := HB) (HD := HB) block_function 4 in
    newTwoLevelIterator (HI := HB) (D := Block.BlockIter) index_iter tt = Ok t /\
    run (HI := HT) t [ToFirst; Forward; Forward; Backward; To [98]; Backward] = Ok t' /\ shows (HI := HT) t' (Some ([97; 98], [11])).
Proof.
  assert (forall es, es ∈ sample_index :: sample_blocks -> exists it, Block.block_at (C := BytewiseComparator) it es None) as Hex.
  { intros es Hes. destruct (Block.build_block_ok (C := BytewiseComparator) 2 es) as (_ & _ & _ & _ & _ & it & _ & _ & _ & _ & _ & Hit); [lia|..|by exists it].
    - destruct sample_indexes as [H1 H2 _ _ _ _ _]. apply elem_of_cons in Hes as [->|Hes]; [done|]. apply list_elem_of_split in Hes as (l1 & l2 & E). rewrite E, concat_app in H2.
      apply ordered_app in H2 as (_ & H2 & _). cbn [concat] in H2. by apply ordered_app in H2 as [].
    - revert es Hes. apply Forall_forall. repeat (apply Forall_cons; split; [by_decide|]). by apply Forall_nil. }
  destruct (Hex sample_index) as [ii Hii]; [set_solver|]. destruct (Hex [([97], [10]); ([97; 98], [11])]) as [it1 H1]; [set_solver|].
  destruct (Hex []) as [it2 H2]; [set_solver|]. destruct (Hex [([98], [12])]) as [it3 H3]; [set_solver|].
  set (f := fun (_ : unit) (h : list Z) => Ok (if decide (h = [1]) then it1 else if decide (h = [2]) then it2 else it3, tt)).
  exists ii, it1, it2, it3, f.
  destruct (two_level_iterator_refines (OI := Block.block_iterator_ok (C := BytewiseComparator)) (OD := Block.block_iterator_ok (C := BytewiseComparator)) f (fun _ => True) ii tt
    sample_index sample_blocks 4 [ToFirst; Forward; Forward; Backward; To [98]; Backward] (Some ([97; 98], [11]))) as (t & t' & E & E' & Hs).
  - exact sample_indexes.
  - intros a i ix es _ Hi He. destruct i as [|[|[|i]]]; try done; injection Hi as <-; injection He as <-; [exists it1, tt, None|exists it2, tt, None|exists it3, tt, None]; done.
  - exact Logic.I.
  - by_decide.
  - exact Hii.
  - repeat (apply Forall_cons; split; [first [exact Logic.I|by_decide]|]). by apply Forall_nil.
  - vm_compute. reflexivity.
  - exists t, t'. split; [reflexivity|]. exact (conj E (conj E' Hs)).
Defined.

End TwoLevel.
