(* ===== verification/LdbFilter.v ===== *)
(** leveldb, util/hash.cc, util/bloom.cc, table/filter_block.cc and the filter policy of
    db/dbformat.cc: filters that tell which blocks of a table cannot hold a key.

    The class [FilterPolicy] is the virtual interface; [FilterPolicyOk] is what its documentation
    promises, that no key of a filter is denied.  The Bloom filter fulfils it, the policy for internal keys keeps it,
    and the filter block of a table is verified against it. *)
From Stdlib Require Import String SpecFloat.
From stdpp Require Import sorting sets.
From S2P Require Import Prelude LdbCoding LdbKeys.

Module Filter.
Import Coding Keys.

(** * util/hash.cc *)

(** A [char] as a number, which has a sign on the machine of the program. *)
Definition s8 (x : Z) : Z := (x + 2 ^ 7) mod 2 ^ 8 - 2 ^ 7.

Definition hash_m : Z := 0xc6a4a793.
Definition hash_r : Z := 24.

(** Four bytes at a time; the rest is left. *)
Fixpoint hash_words (data : list Z) (h : Z) : Z * list Z :=
  match data with
  | b0 :: b1 :: b2 :: b3 :: rest =>
      let w := le_combine [b0; b1; b2; b3] in
      let h := u32 (h + w) in
      let h := u32 (h * hash_m) in
      hash_words rest (Z.lxor h (Z.shiftr h 16))
  | _ => (h, data)
  end.

(** The remaining bytes: the cases of the [switch] fall through.  The bytes are signed;
    the left shift of a negative one, which C++ does not define here, is the
    multiplication that compilers make of it. *)
Definition hash_case1 (d0 h : Z) : Z :=
  let h := u32 (h + s8 d0) in
  let h := u32 (h * hash_m) in
  Z.lxor h (Z.shiftr h hash_r).
Definition hash_case2 (d0 d1 h : Z) : Z := hash_case1 d0 (u32 (h + Z.shiftl (s8 d1) 8)).
Definition hash_case3 (d0 d1 d2 h : Z) : Z := hash_case2 d0 d1 (u32 (h + Z.shiftl (s8 d2) 16)).

Definition Hash (data : list Z) (seed : Z) : Z :=
  let '(h, rest) := hash_words data (u32 (Z.lxor seed (u64 (Z.of_nat (length data) * hash_m)))) in
  match rest with
  | [d0; d1; d2] => hash_case3 d0 d1 d2 h
  | [d0; d1] => hash_case2 d0 d1 h
  | [d0] => hash_case1 d0 h
  | _ => h
  end.

(** * The interface of filter policies *)
Class FilterPolicy := {
  policy_Name : list Z;
  CreateFilter : list (list Z) -> list Z -> outcome (list Z);
  KeyMayMatch : list Z -> list Z -> outcome bool
}.

Class FilterPolicyOk (P : FilterPolicy) := {
  (** The lists of keys it is made for. *)
  keys_fit : list (list Z) -> Prop;
  keys_fit_sub l1 l2 l3 : keys_fit (l1 ++ l2 ++ l3) -> keys_fit l2;
  CreateFilter_ok keys dst : keys_fit keys ->
    exists f, CreateFilter keys dst = Ok (dst ++ f) /\ forall k, k ∈ keys -> KeyMayMatch k f = Ok true
}.

(** * util/bloom.cc *)
Definition BloomHash (key : list Z) : Z := Hash key 0xbc9f1d34.

Record BloomFilterPolicy := mkBloom {
  bits_per_key_ : Z;
  k_ : Z
}.

(** [bits_per_key * 0.69] in double precision, converted to [size_t]: not defined where it is negative after
    truncation. *)
Definition probes (bits_per_key : Z) : outcome Z :=
  match SFmul 53 1024 (binary_normalize 53 1024 bits_per_key 0 false) (S754_finite false 6214967485771284 (-53)) with
  | S754_finite neg m e =>
      let n := Z.shiftl (Zpos m) e in
      if neg then if n =? 0 then Ok 0 else Undef else Ok n
  | S754_zero _ => Ok 0
  | _ => Undef
  end.

Definition newBloomFilterPolicy (bits_per_key : Z) : outcome BloomFilterPolicy :=
  k ← probes bits_per_key;
  let k := if k <? 1 then 1 else k in
  let k := if 30 <? k then 30 else k in
  Ok (mkBloom (u64 bits_per_key) k).

(** [(h >> 17) | (h << 15)]. *)
Definition rotate (h : Z) : Z := Z.lor (Z.shiftr h 17) (u32 (Z.shiftl h 15)).

(** The loop over the probes of a key; [array] begins at [init_size] of the string. *)
Fixpoint set_probes (n : nat) (dst : list Z) (init_size : nat) (bits h delta : Z) : outcome (list Z) :=
  match n with
  | O => Ok dst
  | S n =>
      let bitpos := u32 (h mod bits) in
      let p := (init_size + Z.to_nat (bitpos / 8))%nat in
      b ← load dst p;
      dst ← store dst p (u8 (Z.lor b (Z.shiftl 1 (bitpos mod 8))));
      set_probes n dst init_size bits (u32 (h + delta)) delta
  end.

Fixpoint set_keys (k : nat) (keys : list (list Z)) (dst : list Z) (init_size : nat) (bits : Z) : outcome (list Z) :=
  match keys with
  | [] => Ok dst
  | key :: keys =>
      let h := BloomHash key in
      dst ← set_probes k dst init_size bits h (rotate h);
      set_keys k keys dst init_size bits
  end.

(** The number of keys is an [int]; a filter of no bits is a division by zero. *)
Definition bloom_CreateFilter (p : BloomFilterPolicy) (keys : list (list Z)) (dst : list Z) : outcome (list Z) :=
  let n := Z.of_nat (length keys) in
  if 2 ^ 31 <=? n then Undef
  else
    let bits := u64 (n * bits_per_key_ p) in
    let bits := if bits <? 64 then 64 else bits in
    let bytes := u64 (bits + 7) / 8 in
    let bits := u64 (bytes * 8) in
    let init_size := length dst in
    let dst := dst ++ replicate (Z.to_nat bytes) 0 ++ [u8 (k_ p)] in
    if (bits =? 0) && (0 <? n) then Undef else set_keys (Z.to_nat (k_ p)) keys dst init_size bits.

Fixpoint test_probes (n : nat) (array : list Z) (bits h delta : Z) : outcome bool :=
  match n with
  | O => Ok true
  | S n =>
      let bitpos := u32 (h mod bits) in
      b ← load array (Z.to_nat (bitpos / 8));
      if Z.land b (Z.shiftl 1 (bitpos mod 8)) =? 0 then Ok false
      else test_probes n array bits (u32 (h + delta)) delta
  end.

Definition bloom_KeyMayMatch (key bloom_filter : list Z) : outcome bool :=
  let len := length bloom_filter in
  if (len <? 2)%nat then Ok false
  else
    let bits := (Z.of_nat len - 1) * 8 in
    k ← load bloom_filter (len - 1);
    let k := u64 (s8 k) in
    if 30 <? k then Ok true
    else
      let h := BloomHash key in
      test_probes (Z.to_nat k) bloom_filter bits h (rotate h).

Definition bloom_policy (p : BloomFilterPolicy) : FilterPolicy := {|
  policy_Name := bytes_of "leveldb.BuiltinBloomFilter";
  CreateFilter := bloom_CreateFilter p;
  KeyMayMatch := bloom_KeyMayMatch
|}.

(** * db/dbformat.cc: the policy for internal keys *)
Section internal.
Context (user_policy_ : FilterPolicy).

Fixpoint user_keys (keys : list (list Z)) : outcome (list (list Z)) :=
  match keys with
  | [] => Ok []
  | k :: keys => u ← ExtractUserKey k; us ← user_keys keys; Ok (u :: us)
  end.

Definition internal_CreateFilter (keys : list (list Z)) (dst : list Z) : outcome (list Z) :=
  mkey ← user_keys keys; CreateFilter mkey dst.

Definition internal_KeyMayMatch (key f : list Z) : outcome bool :=
  u ← ExtractUserKey key; KeyMayMatch u f.

Definition InternalFilterPolicy : FilterPolicy := {|
  policy_Name := policy_Name;
  CreateFilter := internal_CreateFilter;
  KeyMayMatch := internal_KeyMayMatch
|}.

End internal.

(** * table/filter_block.cc *)
Definition kFilterBaseLg : Z := 11.
Definition kFilterBase : Z := Z.shiftl 1 kFilterBaseLg.

Record FilterBlockBuilder := mkFilterBuilder {
  keys_ : list Z;
  start_ : list nat;
  result_ : list Z;
  filter_offsets_ : list Z
}.

Definition newFilterBlockBuilder : FilterBlockBuilder := mkFilterBuilder [] [] [] [].

(** The loop that makes the list of keys; [start] ends with the length of the flattened keys. *)
Fixpoint unflatten (keys : list Z) (start : list nat) : outcome (list (list Z)) :=
  match start with
  | s :: ((s' :: _) as rest) => k ← load_range keys s (s' - s); ks ← unflatten keys rest; Ok (k :: ks)
  | _ => Ok []
  end.

Section filter_block.
Context {policy_ : FilterPolicy}.

Definition GenerateFilter (b : FilterBlockBuilder) : outcome FilterBlockBuilder :=
  let offsets := filter_offsets_ b ++ [u32 (Z.of_nat (length (result_ b)))] in
  match start_ b with
  | [] => Ok (mkFilterBuilder (keys_ b) (start_ b) (result_ b) offsets)
  | _ =>
      tmp_keys ← unflatten (keys_ b) (start_ b ++ [length (keys_ b)]);
      result ← CreateFilter tmp_keys (result_ b);
      Ok (mkFilterBuilder [] [] result offsets)
  end.

(** The loop of [StartBlock]: the number of filters that are missing. *)
Fixpoint generate_filters (n : nat) (b : FilterBlockBuilder) : outcome FilterBlockBuilder :=
  match n with
  | O => Ok b
  | S n => b ← GenerateFilter b; generate_filters n b
  end.

Definition StartBlock (b : FilterBlockBuilder) (block_offset : Z) : outcome FilterBlockBuilder :=
  let filter_index := block_offset / kFilterBase in
  _ ← c_assert (Z.of_nat (length (filter_offsets_ b)) <=? filter_index);
  generate_filters (Z.to_nat filter_index - length (filter_offsets_ b)) b.

Definition AddKey (b : FilterBlockBuilder) (key : list Z) : FilterBlockBuilder :=
  mkFilterBuilder (keys_ b ++ key) (start_ b ++ [length (keys_ b)]) (result_ b) (filter_offsets_ b).

Fixpoint put_offsets (result : list Z) (offsets : list Z) : outcome (list Z) :=
  match offsets with
  | [] => Ok result
  | o :: offsets => result ← PutFixed32 result o; put_offsets result offsets
  end.

Definition Finish (b : FilterBlockBuilder) : outcome (list Z * FilterBlockBuilder) :=
  b ← (match start_ b with [] => Ok b | _ => GenerateFilter b end);
  let array_offset := u32 (Z.of_nat (length (result_ b))) in
  result ← put_offsets (result_ b) (filter_offsets_ b);
  result ← PutFixed32 result array_offset;
  let result := result ++ [kFilterBaseLg] in
  Ok (result, mkFilterBuilder (keys_ b) (start_ b) result (filter_offsets_ b)).

(** [data_] is [None] where the contents are in error. *)
Record FilterBlockReader := mkFilterReader {
  fr_data : option (list Z);
  fr_offset : Z;
  fr_num : Z;
  base_lg_ : Z
}.

Definition newFilterBlockReader (contents : list Z) : outcome FilterBlockReader :=
  let n := Z.of_nat (length contents) in
  if n <? 5 then Ok (mkFilterReader None 0 0 0)
  else
    c ← load contents (length contents - 1);
    let base_lg := u64 (s8 c) in
    last_word ← DecodeFixed32 kLittleEndian contents (length contents - 5);
    if n - 5 <? last_word then Ok (mkFilterReader None 0 0 base_lg)
    else Ok (mkFilterReader (Some contents) last_word ((n - 5 - last_word) / 4) base_lg).

(** A shift by 64 or more is not defined. *)
Definition fr_KeyMayMatch (r : FilterBlockReader) (block_offset : Z) (key : list Z) : outcome bool :=
  if 64 <=? base_lg_ r then Undef
  else
    let index := Z.shiftr block_offset (base_lg_ r) in
    if index <? fr_num r then
      match fr_data r with
      | None => Undef
      | Some data =>
          start ← DecodeFixed32 kLittleEndian data (Z.to_nat (fr_offset r + index * 4));
          limit ← DecodeFixed32 kLittleEndian data (Z.to_nat (fr_offset r + index * 4 + 4));
          if (start <=? limit) && (limit <=? fr_offset r) then
            filter ← load_range data (Z.to_nat start) (Z.to_nat (limit - start));
            KeyMayMatch key filter
          else if start =? limit then Ok false
          else Ok true
      end
    else Ok true.

(** The blocks of a table, each with its offset and its keys. *)
Fixpoint add_keys (b : FilterBlockBuilder) (keys : list (list Z)) : FilterBlockBuilder :=
  match keys with
  | [] => b
  | k :: keys => add_keys (AddKey b k) keys
  end.

Fixpoint add_blocks (b : FilterBlockBuilder) (blocks : list (Z * list (list Z))) : outcome FilterBlockBuilder :=
  match blocks with
  | [] => Ok b
  | (offset, keys) :: blocks => b ← StartBlock b offset; add_blocks (add_keys b keys) blocks
  end.

End filter_block.

(** * The Bloom filter denies none of its keys *)

(** Every bit of the first array is one of the second. *)
Definition covers (a a' : list Z) : Prop :=
  length a' = length a /\ forall i b, a !! i = Some b -> exists b', a' !! i = Some b' /\ forall j, 0 <= j < 8 -> Z.testbit b j = true -> Z.testbit b' j = true.

#[export] Instance covers_preorder : PreOrder covers.
Proof.
  split.
  - intros a. split; [done|]. eauto.
  - intros a a1 a2 [L1 H1] [L2 H2]. split; [lia|]. intros i b Hi. destruct (H1 i b Hi) as (b1 & E1 & T1). destruct (H2 i b1 E1) as (b2 & E2 & T2). exists b2. split; [done|]. auto.
Qed.

Lemma land_bit b j : 0 <= j -> (Z.land b (Z.shiftl 1 j) =? 0) = negb (Z.testbit b j).
Proof.
  intros Hj. destruct (Z.testbit b j) eqn:E; cbn.
  - apply Z.eqb_neq. intros H. assert (Z.testbit (Z.land b (Z.shiftl 1 j)) j = true) as Ht by (rewrite Z.land_spec, E, Z.shiftl_spec, Z.sub_diag by lia; done).
    by rewrite H, Z.bits_0 in Ht.
  - apply Z.eqb_eq. apply Z.bits_inj'. intros i Hi. rewrite Z.land_spec, Z.bits_0, Z.shiftl_1_l, Z.pow2_bits_eqb by lia.
    destruct (Z.eqb_spec j i) as [<-|]; [by rewrite E|by rewrite andb_false_r].
Qed.

Lemma test_probes_mono n a a' bits h delta : 0 < bits -> covers a a' -> test_probes n a bits h delta = Ok true -> test_probes n a' bits h delta = Ok true.
Proof.
  intros Hb [Hl Hc]. revert h; induction n as [|n IH]; intros h H; [done|]. cbn [test_probes] in *. set (pos := u32 (h mod bits)) in *. unfold load in *.
  destruct (a !! Z.to_nat (pos / 8)) as [b|] eqn:E; [|done]. destruct (Hc _ _ E) as (b' & -> & Ht). cbn [of_option] in *. rewrite bind_Ok in *.
  rewrite land_bit in * by (apply Z.mod_pos_bound; lia). destruct (Z.testbit b (pos mod 8)) eqn:Eb; [|done]. rewrite (Ht _ (Z.mod_pos_bound _ 8 eq_refl) Eb). cbn in *. by apply IH.
Qed.

Lemma bitpos_bound h bits m : 0 < bits -> bits <= 8 * Z.of_nat m -> (Z.to_nat (u32 (h mod bits) / 8) < m)%nat.
Proof.
  intros Hb Hm. pose proof (Z.mod_pos_bound h bits Hb). pose proof (Z.mod_le (h mod bits) (2 ^ 32) ltac:(lia) eq_refl) as Hle. fold (u32 (h mod bits)) in Hle.
  pose proof (Z.mod_pos_bound (h mod bits) (2 ^ 32) eq_refl) as H0. fold (u32 (h mod bits)) in H0. apply Nat2Z.inj_lt. rewrite Z2Nat.id by (apply Z.div_pos; lia).
  apply Z.div_lt_upper_bound; lia.
Qed.

Lemma set_probes_ok n pre w bits h delta m : 0 < bits -> bits <= 8 * Z.of_nat m -> (m <= length w)%nat ->
  exists w', set_probes n (pre ++ w) (length pre) bits h delta = Ok (pre ++ w') /\ covers w w' /\ (forall i, (m <= i)%nat -> w' !! i = w !! i) /\
    test_probes n w' bits h delta = Ok true.
Proof.
  intros Hb Hm Hw. revert w h Hw; induction n as [|n IH]; intros w h Hw; [by exists w|]. cbn [set_probes test_probes]. pose proof (bitpos_bound h bits m Hb Hm) as Hp.
  set (pos := u32 (h mod bits)) in *. set (i := Z.to_nat (pos / 8)) in *. destruct (lookup_lt_is_Some_2 w i) as [b Hi]; [lia|].
  pose proof (take_drop_middle _ _ _ Hi) as Ew. assert (length (pre ++ take i w) = length pre + i)%nat as El by (rewrite length_app, length_take; lia).
  rewrite <- Ew, app_assoc, <- El, load_app, bind_Ok, store_app, bind_Ok. set (b' := u8 (Z.lor b (Z.shiftl 1 (pos mod 8)))). rewrite <- app_assoc.
  set (w1 := take i w ++ b' :: drop (S i) w). assert (w1 = <[i := b']> w) as E1 by (unfold w1; rewrite insert_take_drop; [done|lia]).
  assert (length w1 = length w) as Hl1 by (by rewrite E1, length_insert).
  assert (forall j, 0 <= j < 8 -> Z.testbit b' j = Z.testbit b j || (pos mod 8 =? j)) as Hb'.
  { intros j Hj. unfold b', u8. rewrite Z.mod_pow2_bits_low, Z.lor_spec, Z.shiftl_1_l, Z.pow2_bits_eqb by (try apply Z.mod_pos_bound; lia). done. }
  assert (covers w w1) as Hc.
  { split; [done|]. intros j x Hx. rewrite E1. destruct (decide (j = i)) as [->|Hne].
    - rewrite list_lookup_insert_eq by lia. exists b'. split; [done|]. intros j' Hj' Ht. simplify_eq. rewrite Hb' by done. by rewrite Ht.
    - rewrite list_lookup_insert_ne by done. eauto. }
  rewrite Ew. destruct (IH w1 (u32 (h + delta))) as (w' & -> & Hc' & Hrest & Htest); [lia|]. exists w'. split_and!; [done|by etrans| |].
  - intros j Hj. rewrite Hrest by done. rewrite E1. by rewrite list_lookup_insert_ne by lia.
  - destruct Hc' as [_ Hc']. destruct (Hc' i b') as (b2 & E2 & T2); [rewrite E1; apply list_lookup_insert_eq; lia|]. unfold load. rewrite E2. cbn [of_option]. rewrite bind_Ok, land_bit by (apply Z.mod_pos_bound; lia).
    rewrite T2; [done|by apply Z.mod_pos_bound|]. rewrite Hb' by (by apply Z.mod_pos_bound). by rewrite Z.eqb_refl, orb_true_r.
Qed.

Lemma set_keys_ok k keys pre w bits m : 0 < bits -> bits <= 8 * Z.of_nat m -> (m <= length w)%nat ->
  exists w', set_keys k keys (pre ++ w) (length pre) bits = Ok (pre ++ w') /\ covers w w' /\ (forall i, (m <= i)%nat -> w' !! i = w !! i) /\
    forall key, key ∈ keys -> test_probes k w' bits (BloomHash key) (rotate (BloomHash key)) = Ok true.
Proof.
  intros Hb Hm. revert w; induction keys as [|key keys IH]; intros w Hw; [exists w; split_and!; [done..|]; set_solver|]. cbn [set_keys].
  destruct (set_probes_ok k pre w bits (BloomHash key) (rotate (BloomHash key)) m Hb Hm Hw) as (w1 & -> & C1 & R1 & T1). rewrite bind_Ok.
  destruct (IH w1) as (w2 & -> & C2 & R2 & T2); [by rewrite (proj1 C1)|]. exists w2. split_and!; [done|by etrans|intros i Hi; by rewrite R2, R1|].
  intros key' [->|Hk]%elem_of_cons; [|by apply T2]. by eapply test_probes_mono.
Qed.

(** A policy as the constructor makes it from a number of bits that is not negative. *)
Definition bloom_ok (p : BloomFilterPolicy) : Prop := 0 <= bits_per_key_ p < 2 ^ 31 /\ 1 <= k_ p <= 30.

Lemma newBloomFilterPolicy_ok bits_per_key p : 0 <= bits_per_key < 2 ^ 31 -> newBloomFilterPolicy bits_per_key = Ok p -> bloom_ok p.
Proof.
  intros Hb H. unfold newBloomFilterPolicy in H. destruct (probes bits_per_key) as [k| |]; [|done..]. rewrite bind_Ok in H. injection H as <-. split; cbn.
  - unfold u64. rewrite Z.mod_small by lia. done.
  - destruct (Z.ltb_spec k 1), (Z.ltb_spec 30 (if k <? 1 then 1 else k)); repeat case_match; rewrite ?Z.ltb_lt, ?Z.ltb_ge in *; lia.
Qed.

#[refine] Definition bloom_policy_ok (p : BloomFilterPolicy) (Hp : bloom_ok p) : FilterPolicyOk (bloom_policy p) :=
  {| keys_fit keys := Z.of_nat (length keys) < 2 ^ 31 |}.
Proof.
  - intros l1 l2 l3. rewrite !length_app. lia.
  - intros keys dst Hk. destruct Hp as [Hbits Hkk]. cbn [CreateFilter KeyMayMatch bloom_policy]. unfold bloom_CreateFilter. rewrite (proj2 (Z.leb_gt _ _)) by lia.
    set (n := Z.of_nat (length keys)) in *. assert (0 <= n * bits_per_key_ p < 2 ^ 62) as Hprod by nia. unfold u64. rewrite (Z.mod_small (n * bits_per_key_ p)) by lia.
    set (bits0 := if n * bits_per_key_ p <? 64 then 64 else n * bits_per_key_ p). assert (64 <= bits0 < 2 ^ 62) as H0 by (unfold bits0; case_match; rewrite ?Z.ltb_lt, ?Z.ltb_ge in *; lia).
    rewrite (Z.mod_small (bits0 + 7)) by lia. set (bytes := (bits0 + 7) / 8). assert (8 <= bytes < 2 ^ 60) as Hby by (unfold bytes; Z.div_mod_to_equations; lia).
    rewrite (Z.mod_small (bytes * 8)) by lia. rewrite (proj2 (Z.eqb_neq (bytes * 8) 0)) by lia. cbn [andb].
    destruct (set_keys_ok (Z.to_nat (k_ p)) keys dst (replicate (Z.to_nat bytes) 0 ++ [u8 (k_ p)]) (bytes * 8) (Z.to_nat bytes)) as (f & -> & [Hl _] & Hr & Ht); [lia|lia|rewrite length_app, length_replicate; lia|].
    exists f. split; [done|]. intros k Hin. unfold bloom_KeyMayMatch. rewrite length_app, length_replicate in Hl. cbn in Hl. rewrite (proj2 (Nat.ltb_ge _ _)) by lia.
    assert (f !! (length f - 1)%nat = Some (k_ p)) as Hlast.
    { rewrite Hr, lookup_app_r by (rewrite ?length_replicate; lia). rewrite length_replicate. replace (length f - 1 - Z.to_nat bytes)%nat with O by lia. cbn. unfold u8. by rewrite Z.mod_small by lia. }
    unfold load. rewrite Hlast. cbn [of_option]. rewrite bind_Ok. assert (u64 (s8 (k_ p)) = k_ p) as -> by (unfold u64, s8; pow2; zlia).
    rewrite (proj2 (Z.ltb_ge _ _)) by lia. replace ((Z.of_nat (length f) - 1) * 8) with (bytes * 8) by lia. by apply Ht.
Defined.

(** ** Internal keys *)
Definition user_part (k : list Z) : list Z := take (length k - 8) k.

Lemma ExtractUserKey_part k : (8 <= length k)%nat -> ExtractUserKey k = Ok (user_part k).
Proof. intros H. unfold ExtractUserKey. by rewrite (proj2 (Nat.leb_le _ _)) by done. Qed.

#[export, refine] Instance internal_policy_ok {P : FilterPolicy} {HP : FilterPolicyOk P} : FilterPolicyOk (InternalFilterPolicy P) :=
  {| keys_fit keys := Forall (fun k => (8 <= length k)%nat) keys /\ keys_fit (map user_part keys) |}.
Proof.
  - intros l1 l2 l3 [H1 H2]. rewrite !Forall_app in H1. rewrite !map_app in H2. apply keys_fit_sub in H2. tauto.
  - intros keys dst [H8 Hfit]. cbn [CreateFilter KeyMayMatch InternalFilterPolicy]. unfold internal_CreateFilter, internal_KeyMayMatch.
    assert (user_keys keys = Ok (map user_part keys)) as ->.
    { clear Hfit. induction H8 as [|k keys Hk H8 IH]; [done|]. cbn [user_keys]. by rewrite ExtractUserKey_part, bind_Ok, IH. }
    rewrite bind_Ok. destruct (CreateFilter_ok _ dst Hfit) as (f & E & Hf). exists f. split; [done|]. intros k Hk. rewrite Forall_forall in H8.
    rewrite ExtractUserKey_part, bind_Ok by (by apply H8). apply Hf. by apply list_elem_of_fmap_2.
Defined.

(** * The filter block *)

(** Where strings begin that lie one behind the other. *)
Fixpoint begins (n : nat) (l : list (list Z)) : list nat :=
  match l with
  | [] => []
  | x :: l => n :: begins (n + length x) l
  end.

Lemma begins_snoc n l x : begins n (l ++ [x]) = begins n l ++ [n + length (concat l)]%nat.
Proof. revert n; induction l as [|y l IH]; intros n; cbn; [by rewrite Nat.add_0_r|]. rewrite IH, length_app. by rewrite Nat.add_assoc. Qed.

Lemma length_begins n l : length (begins n l) = length l.
Proof. revert n; induction l as [|x l IH]; intros n; cbn; [done|]. by rewrite IH. Qed.

Lemma begins_lookup n l j x : l !! j = Some x -> begins n l !! j = Some (n + length (concat (take j l)))%nat.
Proof.
  revert n j; induction l as [|y l IH]; intros n [|j] Hj; cbn in *; try done; [by rewrite Nat.add_0_r|]. rewrite (IH _ j Hj), length_app. by rewrite Nat.add_assoc.
Qed.

Lemma unflatten_ok pre ks post : unflatten (pre ++ concat ks ++ post) (begins (length pre) ks ++ [length pre + length (concat ks)]%nat) = Ok ks.
Proof.
  revert pre; induction ks as [|k ks IH]; intros pre; [done|].
  assert (forall k', k' = (length pre + length k)%nat -> load_range (pre ++ (k ++ concat ks) ++ post) (length pre) (k' - length pre) = Ok k) as El.
  { intros k' ->. replace (length pre + length k - length pre)%nat with (length k) by lia. apply at_off_load_range. exists pre, (concat ks ++ post). by rewrite <- !app_assoc. }
  specialize (IH (pre ++ k)). rewrite length_app in IH. cbn [concat begins app]. rewrite length_app, Nat.add_assoc. rewrite <- !app_assoc in *.
  destruct ks as [|k2 ks]; cbn [begins app concat] in *.
  - cbn [unflatten]. rewrite Nat.add_0_r in *. rewrite El by done. done.
  - cbn [unflatten] in *. rewrite El by done. rewrite bind_Ok. unfold unflatten in IH. fold unflatten in IH. by rewrite IH, bind_Ok.
Qed.

Section filter_block_ok.
Context {P : FilterPolicy} {HP : FilterPolicyOk P}.
Implicit Types (b : FilterBlockBuilder) (batches : list (list (list Z))) (fs : list (list Z)) (pending : list (list Z)).

(** The filters so far, the keys of each, and the keys that wait for the next one. *)
Record fb_inv b batches fs pending : Prop := {
  fb_result : result_ b = concat fs;
  fb_offsets : filter_offsets_ b = map (fun n => u32 (Z.of_nat n)) (begins 0 fs);
  fb_keys : keys_ b = concat pending;
  fb_start : start_ b = begins 0 pending;
  fb_match : Forall2 (fun ks f => forall k, k ∈ ks -> KeyMayMatch k f = Ok true) batches fs
}.

Lemma fb_new : fb_inv newFilterBlockBuilder [] [] [].
Proof. split; try done. Qed.

Lemma GenerateFilter_ok b batches fs pending : fb_inv b batches fs pending -> keys_fit pending ->
  exists b' f, GenerateFilter b = Ok b' /\ fb_inv b' (batches ++ [pending]) (fs ++ [f]) [].
Proof.
  intros [Hr Ho Hk Hs Hm] Hfit. unfold GenerateFilter.
  assert (forall f, filter_offsets_ b ++ [u32 (Z.of_nat (length (result_ b)))] = map (fun n => u32 (Z.of_nat n)) (begins 0 (fs ++ [f]))) as Hoff
    by (intros f; rewrite begins_snoc, map_app, Ho, Hr; done).
  destruct pending as [|k ks].
  - rewrite Hs. cbn. eexists _, []. split; [done|]. split; cbn; [by rewrite concat_app, Hr; cbn; rewrite app_nil_r|by rewrite (Hoff [])|done|done|]. apply Forall2_app; [done|]. constructor; [set_solver|done].
  - rewrite Hs, Hk. cbn [begins]. change (O :: begins (0 + length k) ks) with (begins (length (@nil Z)) (k :: ks)). pose proof (unflatten_ok [] (k :: ks) []) as E. cbn [app] in E. rewrite app_nil_r in E.
    replace (length (@nil Z) + length (concat (k :: ks)))%nat with (length (concat (k :: ks))) in E by done. rewrite E, bind_Ok. destruct (CreateFilter_ok _ (result_ b) Hfit) as (f & -> & Hf). rewrite bind_Ok.
    eexists _, f. split; [done|]. split; cbn; [by rewrite concat_app, Hr; cbn; rewrite app_nil_r|by rewrite (Hoff f)|done|done|]. apply Forall2_app; [done|]. by constructor.
Qed.

(** The key is in the filter with this index, or will be. *)
Definition recorded batches pending (x : nat) (k : list Z) : Prop :=
  (exists ks, batches !! x = Some ks /\ k ∈ ks) \/ x = length batches /\ k ∈ pending.

Lemma recorded_generate batches pending x k : recorded batches pending x k -> recorded (batches ++ [pending]) [] x k.
Proof.
  intros [(ks & Hx & Hk)|[-> Hk]]; left.
  - exists ks. split; [|done]. by apply lookup_app_l_Some.
  - exists pending. split; [by apply list_lookup_middle|done].
Qed.

Lemma generate_filters_ok n b batches fs pending rest : fb_inv b batches fs pending -> keys_fit (pending ++ rest) ->
  exists b' batches' fs' pending', generate_filters n b = Ok b' /\ fb_inv b' batches' fs' pending' /\ length batches' = (length batches + n)%nat /\
    keys_fit (pending' ++ rest) /\ forall x k, recorded batches pending x k -> recorded batches' pending' x k.
Proof.
  revert b batches fs pending; induction n as [|n IH]; intros b batches fs pending Hb Hfit.
  - exists b, batches, fs, pending. split_and!; [done..|lia|done|done].
  - cbn [generate_filters]. destruct (GenerateFilter_ok b batches fs pending Hb) as (b1 & f & -> & H1); [by apply (keys_fit_sub [] pending rest)|]. rewrite bind_Ok.
    destruct (IH b1 _ _ [] H1) as (b2 & bt2 & fs2 & p2 & E & H2 & Hl & Hf2 & Hrec); [apply (keys_fit_sub pending rest []); by rewrite app_nil_r|].
    exists b2, bt2, fs2, p2. rewrite length_app in Hl. cbn in Hl. split_and!; [done..|lia|done|]. intros x k Hx. apply Hrec. by apply recorded_generate.
Qed.

Lemma add_keys_ok b batches fs pending keys : fb_inv b batches fs pending -> fb_inv (add_keys b keys) batches fs (pending ++ keys).
Proof.
  revert b pending; induction keys as [|k keys IH]; intros b pending Hb; [by rewrite app_nil_r|]. cbn [add_keys]. rewrite cons_middle, app_assoc. apply IH.
  destruct Hb as [Hr Ho Hk Hs Hm]. split; cbn; [done|done|by rewrite concat_app, Hk; cbn; rewrite app_nil_r|by rewrite begins_snoc, Hs, Hk|done].
Qed.

Lemma kFilterBase_eq : kFilterBase = 2048.
Proof. reflexivity. Qed.

Lemma add_blocks_ok b batches fs pending blocks : fb_inv b batches fs pending -> keys_fit (pending ++ concat (map snd blocks)) ->
  Forall (fun o => Z.of_nat (length batches) * 2048 <= o) (map fst blocks) -> StronglySorted Z.le (map fst blocks) ->
  exists b' batches' fs' pending', add_blocks b blocks = Ok b' /\ fb_inv b' batches' fs' pending' /\ keys_fit pending' /\
    (forall x k, recorded batches pending x k -> recorded batches' pending' x k) /\
    forall o ks k, (o, ks) ∈ blocks -> k ∈ ks -> recorded batches' pending' (Z.to_nat (o / 2048)) k.
Proof.
  revert b batches fs pending; induction blocks as [|[o ks] blocks IH]; intros b batches fs pending Hb Hfit Hge Hsort.
  - exists b, batches, fs, pending. cbn in Hfit. rewrite app_nil_r in Hfit. split_and!; [done..|]. intros ? ? ? []%not_elem_of_nil.
  - cbn [add_blocks map concat fst snd] in *. inversion Hge as [|? ? Ho Hge']; subst. apply StronglySorted_inv in Hsort as [Hsort Hle]. unfold StartBlock. rewrite kFilterBase_eq.
    assert (length (filter_offsets_ b) = length batches) as Hlen by (rewrite (fb_offsets _ _ _ _ Hb), length_map, length_begins; symmetry; by apply (Forall2_length _ _ _ (fb_match _ _ _ _ Hb))).
    rewrite Hlen. assert (Z.of_nat (length batches) <= o / 2048) as Hdiv by (apply Z.div_le_lower_bound; lia). rewrite (proj2 (Z.leb_le _ _)) by done. cbn [c_assert]. rewrite bind_Ok.
    destruct (generate_filters_ok (Z.to_nat (o / 2048) - length batches) b batches fs pending (ks ++ concat (map snd blocks)) Hb Hfit) as (b1 & bt1 & fs1 & p1 & -> & H1 & Hl1 & Hf1 & Hrec1).
    rewrite bind_Ok. rewrite app_assoc in Hf1. destruct (IH (add_keys b1 ks) bt1 fs1 (p1 ++ ks)) as (b2 & bt2 & fs2 & p2 & E & H2 & Hf2 & Hrec2 & Hall); [by apply add_keys_ok|done| |done|].
    { eapply Forall_impl; [exact Hle|]. intros o' Hoo'. cbn in Hoo'. rewrite Hl1. pose proof (Z.mul_div_le o 2048 eq_refl). lia. }
    exists b2, bt2, fs2, p2. split_and!; [done..| |].
    + intros x k Hx. apply Hrec2. destruct (Hrec1 x k Hx) as [?|[-> ?]]; [by left|]. right. split; [done|set_solver].
    + intros o' ks' k [[= -> ->]|Hin]%elem_of_cons Hk; [|by eapply Hall]. apply Hrec2. right. split; [lia|set_solver].
Qed.

Lemma put_offsets_eq result l : put_offsets result l = Ok (result ++ concat (map (le_split 4) l)).
Proof. revert result; induction l as [|r l IH]; intros result; cbn [put_offsets map concat]; [by rewrite app_nil_r|]. by rewrite PutFixed32_eq, bind_Ok, IH, <- app_assoc. Qed.

(** The contents of the block. *)
Definition filter_bytes fs : list Z :=
  concat fs ++ concat (map (le_split 4) (map (fun n => u32 (Z.of_nat n)) (begins 0 fs))) ++ le_split 4 (u32 (Z.of_nat (length (concat fs)))) ++ [kFilterBaseLg].

Lemma Finish_filter_ok b batches fs pending : fb_inv b batches fs pending -> keys_fit pending ->
  exists batches' fs' b', Finish b = Ok (filter_bytes fs', b') /\ Forall2 (fun ks f => forall k, k ∈ ks -> KeyMayMatch k f = Ok true) batches' fs' /\
    forall x k, recorded batches pending x k -> exists ks, batches' !! x = Some ks /\ k ∈ ks.
Proof.
  intros Hb Hfit. unfold Finish.
  assert (exists b1 batches' fs' pending', (match start_ b with [] => Ok b | _ => GenerateFilter b end) = Ok b1 /\ fb_inv b1 batches' fs' pending' /\
    forall x k, recorded batches pending x k -> exists ks, batches' !! x = Some ks /\ k ∈ ks) as (b1 & bt & fs' & p' & -> & H1 & Hrec).
  { destruct pending as [|k0 ks0].
    - rewrite (fb_start _ _ _ _ Hb). exists b, batches, fs, []. split_and!; [done..|]. intros x k [?|[_ []%not_elem_of_nil]]; done.
    - destruct (GenerateFilter_ok b batches fs _ Hb Hfit) as (b1 & f & E & H1). rewrite (fb_start _ _ _ _ Hb). cbn [begins]. exists b1, (batches ++ [k0 :: ks0]), (fs ++ [f]), [].
      split_and!; [done..|]. intros x k [?|[_ []%not_elem_of_nil]]%recorded_generate. done. }
  rewrite bind_Ok, put_offsets_eq, bind_Ok, PutFixed32_eq, bind_Ok. eexists bt, fs', _. rewrite (fb_result _ _ _ _ H1), (fb_offsets _ _ _ _ H1). split; [unfold filter_bytes; by rewrite <- !app_assoc|].
  split; [apply (fb_match _ _ _ _ H1)|done].
Qed.

Lemma words_at (l : list Z) j v : l !! j = Some v -> at_off (concat (map (le_split 4) l)) (4 * j) (le_split 4 v).
Proof.
  revert j; induction l as [|x l IH]; intros j Hj; [done|]. cbn [map concat]. destruct j as [|j]; [injection Hj as ->; exists [], (concat (map (le_split 4) l)); done|].
  destruct (IH j Hj) as (pre & post & -> & Hp). exists (le_split 4 x ++ pre), post. rewrite <- app_assoc, length_app, length_le_split. split; [done|lia].
Qed.

Lemma length_words (l : list Z) : length (concat (map (le_split 4) l)) = (4 * length l)%nat.
Proof. induction l as [|x l IH]; [done|]. cbn [map concat]. rewrite length_app, IH, length_le_split. cbn. lia. Qed.

Lemma at_off_shift {A} (pre buf post l : list A) off : at_off buf off l -> at_off (pre ++ buf ++ post) (length pre + off) l.
Proof. intros (p & q & -> & <-). exists (pre ++ p), (q ++ post). rewrite length_app, <- !app_assoc. done. Qed.

(** The offsets of the filters, and the end of the last. *)
Lemma filter_word fs j : Z.of_nat (length (filter_bytes fs)) < 2 ^ 32 -> (j <= length fs)%nat ->
  DecodeFixed32 kLittleEndian (filter_bytes fs) (length (concat fs) + 4 * j) = Ok (Z.of_nat (length (concat (take j fs)))).
Proof.
  intros Hlen Hj. assert (length (concat (take j fs)) <= length (concat fs))%nat as Hle by (rewrite <- (take_drop j fs) at 2; rewrite concat_app, length_app; lia).
  assert (length (concat fs) <= length (filter_bytes fs))%nat as Hle2 by (unfold filter_bytes; rewrite length_app; lia).
  rewrite (DecodeFixed32_at _ _ (u32 (Z.of_nat (length (concat (take j fs)))))); [unfold u32; by rewrite Z.mod_mod, Z.mod_small by lia|].
  unfold filter_bytes. destruct (decide (j = length fs)) as [->|Hne].
  - rewrite take_ge by done. rewrite app_assoc. eexists (concat fs ++ _), [kFilterBaseLg]. split; [done|]. rewrite length_app, length_words, length_map, length_begins. lia.
  - destruct (lookup_lt_is_Some_2 fs j) as [f Hf]; [lia|]. apply at_off_shift. apply words_at. change (map (fun n : nat => u32 (Z.of_nat n)) (begins 0 fs)) with ((fun n : nat => u32 (Z.of_nat n)) <$> begins 0 fs).
    rewrite list_lookup_fmap, (begins_lookup 0 fs j f Hf). done.
Qed.

Lemma reader_ok fs : Z.of_nat (length (filter_bytes fs)) < 2 ^ 32 ->
  exists r, newFilterBlockReader (filter_bytes fs) = Ok r /\ forall o f k, 0 <= o -> fs !! Z.to_nat (o / 2048) = Some f -> fr_KeyMayMatch r o k = KeyMayMatch k f.
Proof.
  intros Hlen. set (data := filter_bytes fs) in *.
  assert (length data = length (concat fs) + 4 * length fs + 5)%nat as El by (unfold data, filter_bytes; rewrite !length_app, length_words, length_map, length_begins, length_le_split; cbn; lia).
  assert (forall j, (j <= length fs)%nat -> DecodeFixed32 kLittleEndian data (length (concat fs) + 4 * j) = Ok (Z.of_nat (length (concat (take j fs))))) as Hword
    by (intros j Hj; by apply filter_word).
  unfold newFilterBlockReader. rewrite (proj2 (Z.ltb_ge _ _)) by lia.
  assert (load data (length data - 1) = Ok kFilterBaseLg) as ->.
  { replace (length data - 1)%nat with (length (concat fs ++ concat (map (le_split 4) (map (fun n => u32 (Z.of_nat n)) (begins 0 fs))) ++ le_split 4 (u32 (Z.of_nat (length (concat fs))))))
      by (unfold data, filter_bytes; rewrite !length_app; cbn; lia). unfold data, filter_bytes.
    rewrite !app_assoc. apply load_app. }
  rewrite bind_Ok. change (u64 (s8 kFilterBaseLg)) with 11. replace (length data - 5)%nat with (length (concat fs) + 4 * length fs)%nat by lia.
  rewrite (Hword (length fs) ltac:(lia)), bind_Ok, take_ge by lia. rewrite (proj2 (Z.ltb_ge _ _)) by lia. eexists. split; [done|]. intros o f k Ho Hf.
  unfold fr_KeyMayMatch. cbn [base_lg_ fr_num fr_data fr_offset]. change (64 <=? 11) with false. cbv iota. rewrite Z.shiftr_div_pow2 by lia. change (2 ^ 11) with 2048.
  pose proof (lookup_lt_Some _ _ _ Hf) as Hlt. assert (0 <= o / 2048) as Hd by (apply Z.div_pos; lia). set (j := Z.to_nat (o / 2048)) in *. replace (o / 2048) with (Z.of_nat j) by lia.
  replace ((Z.of_nat (length data) - 5 - Z.of_nat (length (concat fs))) / 4) with (Z.of_nat (length fs)) by (rewrite El; Z.div_mod_to_equations; lia). rewrite (proj2 (Z.ltb_lt _ _)) by lia.
  replace (Z.to_nat (Z.of_nat (length (concat fs)) + Z.of_nat j * 4)) with (length (concat fs) + 4 * j)%nat by lia. rewrite (Hword j ltac:(lia)), bind_Ok.
  replace (Z.to_nat (Z.of_nat (length (concat fs)) + Z.of_nat j * 4 + 4)) with (length (concat fs) + 4 * S j)%nat by lia. rewrite (Hword (S j) ltac:(lia)), bind_Ok.
  assert (concat fs = concat (take j fs) ++ f ++ concat (drop (S j) fs)) as Ec by (rewrite <- (take_drop_middle _ _ _ Hf) at 1; by rewrite concat_app).
  rewrite (take_S_r _ _ _ Hf), concat_app, length_app. cbn [concat]. rewrite app_nil_r. pose proof (f_equal length Ec) as Ecl. rewrite !length_app in Ecl.
  rewrite (proj2 (Z.leb_le _ _)), (proj2 (Z.leb_le _ _)) by lia. cbn [andb]. rewrite Nat2Z.id. replace (Z.to_nat _) with (length f) by lia.
  assert (at_off data (length (concat (take j fs))) f) as Hat; [|by rewrite (at_off_load_range _ _ _ Hat), bind_Ok].
  unfold data, filter_bytes. set (tail := concat (map _ _) ++ _). exists (concat (take j fs)), (concat (drop (S j) fs) ++ tail). split; [|done]. by rewrite Ec, <- !app_assoc.
Qed.

End filter_block_ok.

(** C24: a filter block that is built for the blocks of a table, in the order of their offsets, denies no key: for every block and every
    key that was added for it, the reader of the finished filter block says that the block at that offset may hold the key, with any
    policy that keeps its documented promise. *)
Theorem filter_block_no_false_negatives {P : FilterPolicy} {HP : FilterPolicyOk P} (blocks : list (Z * list (list Z))) :
  Forall (fun o => 0 <= o) (map fst blocks) -> StronglySorted Z.le (map fst blocks) -> keys_fit (concat (map snd blocks)) ->
  exists b contents b', add_blocks newFilterBlockBuilder blocks = Ok b /\ Finish b = Ok (contents, b') /\
    (Z.of_nat (length contents) < 2 ^ 32 -> exists r, newFilterBlockReader contents = Ok r /\
      forall offset keys key, (offset, keys) ∈ blocks -> key ∈ keys -> fr_KeyMayMatch r offset key = Ok true).
Proof.
  intros Hpos Hsort Hfit. destruct (add_blocks_ok newFilterBlockBuilder [] [] [] blocks fb_new Hfit) as (b & bt & fs & pd & E & Hb & Hf & _ & Hall); [done|done|].
  destruct (Finish_filter_ok b bt fs pd Hb Hf) as (bt' & fs' & b' & E' & Hm & Hrec). exists b, (filter_bytes fs'), b'. split_and!; [done..|]. intros Hlen.
  destruct (reader_ok fs' Hlen) as (r & Er & Hr). exists r. split; [done|]. intros o ks k Hin Hk. destruct (Hrec _ _ (Hall o ks k Hin Hk)) as (ks' & Hx & Hk').
  destruct (Forall2_lookup_l _ _ _ _ _ Hm Hx) as (f & Hf' & Hmatch). rewrite (Hr o f k); [by apply Hmatch| |done].
  rewrite Forall_forall in Hpos. apply Hpos. apply list_elem_of_fmap. by exists (o, ks).
Qed.

Definition sample_filter_blocks : list (Z * list (list Z)) := [(0, [[1; 2]; [3; 4]]); (100, [[5]]); (5000, [[200; 7; 8; 9; 10]])].

Example probes_10 : newBloomFilterPolicy 10 = Ok (mkBloom 10 6).
Proof. vm_compute. reflexivity. Qed.

Lemma filter_block_no_false_negatives_witness :
  let HP := bloom_policy (mkBloom 10 6) in
  exists b contents b' r, add_blocks (policy_ := HP) newFilterBlockBuilder sample_filter_blocks = Ok b /\ Finish (policy_ := HP) b = Ok (contents, b') /\
    newFilterBlockReader contents = Ok r /\ fr_KeyMayMatch (policy_ := HP) r 5000 [200; 7; 8; 9; 10] = Ok true.
Proof.
  intros HP. destruct (filter_block_no_false_negatives (HP := bloom_policy_ok (mkBloom 10 6) ltac:(by_decide)) sample_filter_blocks) as (b & contents & b' & E1 & E2 & H).
  - by_decide.
  - repeat constructor; by_decide.
  - change (Z.of_nat 4 < 2 ^ 31). lia.
  - assert (Z.of_nat (length contents) < 2 ^ 32) as Hlen.
    { vm_compute in E1. injection E1 as <-. vm_compute in E2. injection E2 as <- _. by_decide. }
    destruct (H Hlen) as (r & E3 & Hr). exists b, contents, b', r. split_and!; [exact E1|exact E2|exact E3|].
    apply (Hr 5000 [[200; 7; 8; 9; 10]]); apply list_elem_of_In; cbn; auto.
Defined.

End Filter.
